(* ===== verification/_CoqProject ===== *)
-Q . S2P
Prelude.v
Float.v
Sorting.v
Errors.v
Memory.v
MemoryFreeList.v
MemoryCorrect.v
MemoryProps.v
Scheduler.v
SchedulerInv.v
SchedulerProps.v
Pool.v
PoolInv.v
PoolProps.v
Percpu.v
PercpuProps.v
Numa.v
NumaProps.v
Power.v
Heap.v
HeapInv.v
HeapProps.v
Ipc.v
IpcProps.v
LockFree.v
LockFreeProps.v
Rt.v
RtProps.v
Frames.v
Vmm.v
VmmInv.v
VmmRefine.v
VmmProps.v
Bytes.v
Heapless.v
Coap.v
CoapWire.v
CoapProps.v
Mqttsn.v
MqttsnProps.v
Quorum.v
QuorumProps.v
Leader.v
Flow.v
FlowProps.v
Hash.v
Dht.v
DhtProps.v
Causal.v
Version.v
VersionProps.v
Gossip.v
Ack.v
AckProps.v
Negotiation.v
PrioQueue.v
PrioQueueProps.v
Retry.v
RetryProps.v
Executor.v
ExecutorProps.v
Interrupt.v
InterruptProps.v
Timer.v
TimerProps.v
Ota.v
OtaProps.v
Lorawan.v
LorawanProps.v
Tensor.v
TensorProps.v
Agent.v
Migrate.v
MigrateProps.v
MigrateSafe.v
MigrateSafeProps.v
Policies.v
Groups.v
Tenants.v
