(* ===== verification/Prelude.v ===== *)
(** * A verification of MielinOS

    MielinOS is a distributed operating system written in Rust: a kernel, a runtime
    for small devices, a mesh network and agents that run on it.  This library
    verifies the core of its kernel (src/mielin-kernel), the protocol stacks of the
    embedded runtime (src/mielin-rt), the consistency and flow-control parts of the
    mesh (src/mielin-mesh), the agents with their migration and their voting
    (src/mielin-cells), and the shapes and views of the tensor library
    (src/mielin-tensor).  Rust functions are translated to functions of the same
    name, and the theorems are about those.

    ** The program

    The kernel is a set of modules that share a few statics behind locks or made
    of atomics.  The page allocator (memory.rs) hands out runs of pages; virtual
    memory (vmm.rs) builds page tables in pages it takes from there; the block pools
    (pool.rs) hand out small blocks of seven sizes; the heap (heap.rs) is the global
    allocator, which asks the pools first and a bump allocator next; the scheduler
    (scheduler.rs) keeps a table of tasks; percpu.rs gives every CPU its own
    scheduler and pools and moves tasks between CPUs; numa.rs places requests for pages
    on the nodes of a machine; power.rs keeps the performance and sleep states of
    the CPUs; ipc.rs carries interrupts,
    messages and barriers between CPUs; lockfree.rs has the queues and locks that
    need no lock of their own; rt.rs has real-time mutexes, which raise the
    priorities of tasks through the scheduler, and a deadline scheduler; interrupt.rs
    dispatches interrupts, timer.rs is the handler of one of them and wakes sleeping
    tasks through the scheduler; executor.rs polls futures.

    The embedded runtime speaks CoAP (coap.rs), MQTT-SN (mqttsn.rs) and LoRaWAN
    (lorawan.rs) and updates its firmware over the air (ota.rs).  In the mesh,
    nodes spread state by gossip (wire/gossip.rs) under vector clocks, keep replicated
    values under version vectors (core/version.rs), find each other through a
    distributed hash table (core/dht.rs), are shared by tenants that are kept apart
    (core/multitenancy.rs), and send under flow control (wire/flow.rs).
    The wire protocol agrees on a version (wire/version.rs), queues messages by
    priority (wire/priority.rs), acknowledges and repeats them (wire/ack.rs) and
    guards calls by retries and a circuit breaker (wire/retry.rs).

    An agent (agent.rs of the cells) goes through a life cycle of states.  It moves to
    another node as a snapshot of its memory (migration/), which may be compressed,
    or as the difference to an earlier snapshot; standby replicas follow it; a move
    that fails is rolled back to what was captured before, and recovery repeats it.
    A policy (policy.rs) says when it moves, how often, and which node it moves to.
    Agents join groups with leaders (group.rs).
    The agents of a cluster vote (ha/quorum.rs) and elect a leader (ha/leader.rs).
    They compute on tensors (tensor.rs), through views of their data (view.rs) and
    operations that broadcast shapes (broadcast.rs).

    ** The files

    A component is a file of definitions (its state as a record, one definition
    per function, in a [Module] of the name of the Rust type), where needed files
    of lemmas and invariants, and a file [..Props] of theorems with their
    witnesses; smaller components have the theorems after the definitions.

    - [Prelude]: outcomes, machine integers, arrays, loops, counting, sums,
      ring-buffer indices, the tactics and the rewrite database [rust].
    - [Float]: the [f64] operations the code uses, on binary64.
    - [Sorting]: the stable sort, [dedup], [min_by_key] and insertion in order.
    - [Errors]: [KernelError] of lib.rs, globals behind a lock.
    - [Memory], [MemoryFreeList], [MemoryCorrect], [MemoryProps]:
      memory.rs.  [MemoryManager] has the bitmap [pages], the array [free_blocks]
      through which the free list is threaded by index, and the statistics.
      The specification is a set of free pages; the invariant says that the list
      is its decomposition into maximal runs.
    - [Scheduler], [SchedulerInv], [SchedulerProps]: scheduler.rs; [Global] is the
      scheduler behind the static lock.
    - [Pool], [PoolInv], [PoolProps]: pool.rs; the blocks' links are a
      map from addresses to addresses, and [pool_step] runs the same operations
      as the atomic accesses of any number of threads.
    - [Percpu], [PercpuProps]: percpu.rs, over [Scheduler] and [Pool].
    - [Numa], [NumaProps]: numa.rs; [NumaNode.alloc_step] is one access of a thread that
      allocates on a node, [spec_call] the specification by blocks.
    - [Power]: power.rs, the definitions and the theorems in one file; [set_step] is one
      access of a thread that changes a performance state.
    - [Heap], [HeapInv], [HeapProps]: heap.rs.  The heap sees the pools through the
      class [SmallAllocator]; [SmallAllocatorLaws] states what it relies on, and
      [pools_laws] proves it of the pools.
    - [Ipc], [IpcProps]: ipc.rs; [CpuBarrier.wait_step] is one atomic
      access of a CPU at the barrier.
    - [LockFree], [LockFreeProps]: lockfree.rs; the ring buffer and
      the sequence lock are also given access by access ([push_step], [pop_step],
      [read_step], [write_step]).
    - [Rt], [RtProps]: rt.rs.  The mutexes see the scheduler through the class
      [TaskPriorities], with [TaskPrioritiesLaws] proved of the global scheduler.
    - [Frames]: the class [FrameAllocator], what vmm.rs needs of the page allocator,
      with [FrameAllocatorLaws] proved of the global one.
    - [Vmm], [VmmInv], [VmmRefine], [VmmProps]: vmm.rs over
      [FrameAllocator].  A page table is the 512 words of a frame of physical memory;
      the invariant ([VmmInv]) is the forest of tables; the specification
      ([VmmRefine]) gives each address space a function from page numbers to entries.
    - [Interrupt], [InterruptProps]: interrupt.rs.  A dispatch is two critical sections
      with the handler in between; handlers act on a class [Platform].
    - [Timer], [TimerProps]: timer.rs, as a handler of [Interrupt] and over the class
      [TaskControl], with [TaskControlLaws] proved of the global scheduler.
    - [Executor], [ExecutorProps]: executor.rs; futures are a class [Future].
    - [Bytes]: slices of bytes, UTF-8 and errors, for the protocol stacks.
    - [Heapless]: the third-party vectors and strings of fixed capacity, as a class
      with the laws their documentation states, and an instance on lists.
    - [Coap], [CoapWire], [CoapProps]: coap.rs; [wire] is the message's
      bytes as a function.
    - [Mqttsn], [MqttsnProps]: mqttsn.rs.
    - [Lorawan], [LorawanProps]: lorawan.rs.
    - [Ota], [OtaProps]: ota.rs, with the algorithms' names of security.rs.
    - [Quorum], [QuorumProps] and [Leader]: quorum.rs and leader.rs.
      A call is the sequence of its critical sections ([vote_step]).
    - [Flow], [FlowProps]: flow.rs.  A call is the sequence of its atomic accesses
      and critical sections ([consume_step], [cc_step], [set_step]).
    - [Hash]: hash tables that are listed in any order ([HashOrder]).
    - [Dht], [DhtProps]: dht.rs of the mesh core; the identifiers of nodes
      are a class ([Uuid]) of which only the sixteen bytes are known.
    - [Causal]: the class [CausalClock] with its laws, and
      the theorem on replicas that both kinds of clock share.
    - [Version], [VersionProps] and [Gossip]: version.rs of the mesh
      core and gossip.rs of its wire protocol, each an instance of [CausalClock].

    - [Ack], [AckProps]: ack.rs of the wire protocol.
    - [Negotiation]: version.rs of the wire protocol, and the message
      types of its lib.rs and websocket.rs.
    - [PrioQueue], [PrioQueueProps]: priority.rs.  The standard
      library's binary heap is a list of which [pop] takes the greatest element.
    - [Retry], [RetryProps]: retry.rs; the operation, the clock, sleep and the random
      numbers are classes ([World], [Rng]).
    - [Tensor], [TensorProps]: tensor.rs, view.rs and broadcast.rs of the tensor
      library; a tensor of any element type is its shape and its elements in row-major
      order, a view is an offset, a shape and strides over them.
    - [Agent]: agent.rs, dna.rs and the basic policy of policy.rs.
    - [Migrate], [MigrateProps]: functions.rs and types/delta.rs of migration/,
      compression, deltas of pages, the tracker of dirty pages and the migrator.  The
      third-party compressors are a class ([Compressors]).
    - [MigrateSafe], [MigrateSafeProps]: core.rs, audit.rs, validation.rs and
      recovery.rs of migration/types; the encoder of policies is a class
      ([PolicyCodec]).
    - [Policies]: policy.rs, the definitions and the theorems in one file.
    - [Tenants]: multitenancy.rs of the mesh core, likewise; [register_step] is one access
      of a call that registers an agent.
    - [Groups]: group.rs, likewise; [AgentGroup.call_step] is one critical section of a
      call, and the registry holds references to groups in a store.

    ** Semantics of the translation

    - [outcome]: a computation returns, panics, or runs out of fuel.  Theorems say
      that code returns ([returns], or an equation with [Ret]) where it does.
    - [usize] and [u64] are 64 bits wide.  [+], [-] and [*] panic outside the
      range, as under overflow checks; casts with [as] and [fetch_add] and
      [fetch_sub] of atomics wrap around; an index out of range panics.
    - A function that holds a lock, and a function that is only called by one
      thread, runs from its start to its end.  Where the code is meant for several
      threads at once (pools, nodes, barrier, ring buffer, sequence lock, quorum, vote
      requests, groups, tenants, token bucket, congestion control) there is a step function over its
      single accesses or critical sections, in sequentially consistent order, and
      the theorems quantify over the interleavings.
    - The methods of an address space run in the monad [Vmm.M], which threads the
      address space, physical memory and the statics; an error keeps what was done.
    - What the hardware or the system decides is an argument: the addresses of
      arenas, the numbers of CPUs, the clock, the order in which a hash table is
      listed, and whether a [compare_exchange_weak] goes through ([weak]).
    - Fuel: the loops over the free list of memory.rs get [list_fuel] steps, more
      than the list has blocks under the invariant, so that no theorem's code runs
      out; retry loops keep the bound of the source ([MAX_RETRIES]); the loops of
      the linked queue and of [SeqLock::read] end in their first round when nobody
      interferes, and the theorems give them a round.  The loop of the CoAP decoder
      gets one round more than there are bytes, which [coap_decode_terminates] shows
      to be enough; [collapse] of a dot context one round more than there are dots;
      a call that nobody interrupts gets as many steps as it has accesses;
      [attempt_loop] of a retry gets the attempts of its policy, as in the source;
      the loop of the run-length compressor gets one round more than there are bytes,
      and an iteration over a tensor's indices one more than there are elements.
      [run] and [run_until_stalled] of the executor get rounds, and the theorems say how
      many are enough.

    ** The theorems

    The arguments are machine integers of their types.  A theorem that needs more of a
    configuration or of its arguments (a range that does not pass 2^64, a time stamp
    counter that does not go back) says so in the comment above it, and where the code
    panics or does something else without it, a lemma shows that.

    - Page allocator: any sequence of calls refines operations on a set of pages, or
      panics exactly when the range check of a free overflows; when a request fails, where it is placed under each strategy, what [free_pages]
      answers on each branch, that allocation followed by free restores the set, and
      that a second free is detected.
    - Scheduler: well-formedness of every reachable state, in which no operation panics
      while identifiers are left, the task that [schedule]
      selects, single running task under cooperative use, spawning, migration, and
      what yielding and blocking do.
    - Pools: live blocks are disjoint, in their arena and of a sufficient class; a
      pool with one allocating thread and any number of freeing threads is safe, one
      with two allocating threads is not; the statistics account for all memory.
    - Per-CPU: balancing keeps the tasks of the system and does not overshoot.
    - NUMA: the nodes refine sets of blocks: every policy places a request where it
      should, the counters are those of the blocks in use; threads on one node get pages
      that do not overlap, in any interleaving; the search finds the nearest node.
    - Power: over any calls the CPU runs at the numbers of the performance state it
      reports, and the totals are the sums of the CPUs' counts; a policy is applied.
    - Heap: live blocks are disjoint, contents survive [realloc], the
      out-of-memory path, the profiler's peak, and three places where the code does
      something else than intended.
    - IPC: the queue is a bounded FIFO queue, messages go to the channel they are
      for, interrupts are exactly the pending ones, the barrier lets nobody through
      early and everybody through in the end.
    - Lock-free: the ring buffer is a FIFO queue for one producer and one consumer,
      a sequence-lock read returns the whole argument of the last write that is over, the
      linked queue is a FIFO queue.
    - Real time: priority inheritance over every run of a mutex, the earliest
      deadline, admission of deadline tasks.
    - Virtual memory: any number of address spaces over one memory refine functions
      from pages to entries and do not disturb each other; mapping round trips; a
      copy-on-write fault leaves a private copy; what the flag bits do to addresses.
    - Interrupts and timer: the dispatcher keeps to its table in all interleavings; a
      sleeping task is woken at its tick and not before, through all three components;
      the current task yields once in a quantum.
    - Executor: exactly the tasks that were spawned or woken are polled; cooperative
      tasks all complete; [run_until_stalled] returns when nobody is due.
    - CoAP and MQTT-SN: what is encoded is decoded to the same message; the decoders
      end on any bytes and accept only well-formed messages; the option sort is the
      stable sort; a request reaches its resource and a publication its reader;
      retransmissions are bounded; which flags survive a round trip.
    - LoRaWAN: headers round trip; the frames of a session are numbered in order.
    - Firmware updates: an activation succeeds exactly after the calls that start, verify
      and install an update have succeeded in this order (not that the firmware is the one
      that was verified, which the code does not check); one partition is active
      at any time; a rollback restores the partition that ran.
    - Quorum and election: a decision by heads is final and right for the votes, however
      the calls interleave (one by weights is not); quorums intersect; a node gives one vote in a term.
    - Flow control: the tokens given out are covered by the time that has passed, the
      window stays in its bounds and the bytes in flight are exact, for all
      interleavings; when bytes are admitted.
    - Clocks: version vectors and vector clocks are ordered exactly as the sets of
      changes they have seen; merging is the least upper bound; replicated maps
      converge when times differ; a dot context is the set of its dots; a gossip push
      never takes a key back.

    - Hash table: the distance is a metric, lookups list the closest nodes and end
      in the rounds they are given, a removed peer is found no more, the tables and
      caches stay well formed and within their bounds.

    - Tenants: routing follows the policy and the permissions granted, and nothing else;
      tenants keep to their quotas over any calls; how far calls at the same time can
      exceed a quota; the audit log keeps the latest entries.

    - Wire protocol: every message is sent, retried and ended as it should be, no
      message waits for ever, duplicates are found exactly; the priority queue is a
      sorted list in both of its modes; peers come to the same version; delays are
      those of their formulas; an open circuit lets nothing through; a retried
      operation is called as often as it may be.
    - Agents and migration: a compressed snapshot is decompressed to itself; a delta
      applied to its base gives the agent's memory; a replica that has taken every
      update is the agent; an agent's states follow the table of transitions; a rollback returns what was captured; recovery ends within
      the retries it may use; the pages marked are those that changed.
    - Migration policies: migrations keep their distance and their number in an hour is
      bounded, for any limit; a decision is made exactly when a threshold is exceeded, which
      of them pass their own validation, and exactly which targets meet their requirements;
      the target with the highest score is chosen.
    - Groups: the limits on members and leaders hold in all interleavings, an active group
      keeps its leaders, a registered group is found by its tags and its agents.
    - Tensors: an index and its place in the data correspond one to one; the iteration
      over indices lists them in row-major order, each once; views of views stay inside
      the data; a slice selects the elements it names; a broadcast operation reads each
      operand at the index the broadcasting rule gives.

    Where the code does something else than it means to, a lemma shows it on a
    concrete run; these lemmas stand at the ends of the files of theorems.

    ** What is not modelled

    Of these modules: derived ratios and reports, plain field readers, the remote
    function-call list of ipc.rs, interleavings inside one call
    of the linked queue, the stack and the real-time mutexes, and weak memory;
    the instructions that load the page-table register and flush the translation
    buffer; the timed tasks and the random choice of peers of gossip.rs; the polling
    loop of quorum.rs.
    Of migration/: the callbacks that report progress; of the tensor
    library: the numeric kernels (floating-point products, quantization, sparse
    formats, neural-network layers), whose correctness is about rounding.
    Of the kernel: the instructions that enable and disable interrupts and that halt
    a CPU, hardening and observability.  Of the workspace: the hardware layer
    (probing of processors, and tables of them), the rest of the embedded runtime
    (BLE, drivers, power), of the mesh (registry, membership, transports, which are
    asynchronous tasks over sockets) and of the agents (messaging,
    orchestration), WebAssembly, which is a third-party engine with glue, and the
    command line. *)

From stdpp Require Import base tactics option list numbers relations.
Global Open Scope Z_scope.

(** ** Outcomes of Rust code *)

(** A Rust computation returns a value, panics (an index out of range, an
    arithmetic overflow under overflow checks), or, in the model only, uses up
    the fuel given to one of its [while] loops. *)
Inductive outcome (A : Type) : Type :=
| Ret (a : A)
| Panic
| Timeout.
Arguments Ret {A} a.
Arguments Panic {A}.
Arguments Timeout {A}.

(** Rust's [Result]. *)
Inductive result (A E : Type) : Type :=
| Ok (a : A)
| Err (e : E).
Arguments Ok {A E} a.
Arguments Err {A E} e.

Definition obind {A B} (m : outcome A) (k : A → outcome B) : outcome B :=
  match m with
  | Ret a => k a
  | Panic => Panic
  | Timeout => Timeout
  end.

Declare Scope rust_scope.
Delimit Scope rust_scope with rust.
Notation "'let!' x ':=' m 'in' k" := (obind m (λ x, k))
  (at level 10, x pattern, m at level 100, k at level 200,
   format "'[v' 'let!'  x  ':='  m  'in' '/' k ']'") : rust_scope.
Global Open Scope rust_scope.

(** The computation returns, and what it returns satisfies [Q]: total
    correctness, since [Panic] and [Timeout] satisfy nothing. *)
Definition returns {A} (m : outcome A) (Q : A → Prop) : Prop :=
  match m with Ret a => Q a | _ => False end.

Lemma returns_ret {A} (m : outcome A) Q : returns m Q ↔ ∃ a, m = Ret a ∧ Q a.
Proof. split; [destruct m; simpl; by eauto | by intros (a & -> & ?)]. Qed.

Lemma returns_bind {A B} (m : outcome A) (k : A → outcome B) Q R :
  returns m Q → (∀ a, Q a → returns (k a) R) → returns (obind m k) R.
Proof. destruct m; simpl; auto; done. Qed.

Lemma returns_mono {A} (m : outcome A) (Q R : A → Prop) :
  returns m Q → (∀ a, Q a → R a) → returns m R.
Proof. destruct m; simpl; auto; done. Qed.

(** ** Machine integers

    Values of [u8], [u16], [u32], [u64] and [usize] (64-bit target) are
    integers in range.  [+], [-] and [*] panic outside the range (overflow
    checks); [as] casts and atomic [fetch_add]/[fetch_sub] wrap around. *)

Abbreviation U8_MAX := 255 (only parsing).
Abbreviation U16_MAX := 65535 (only parsing).
Abbreviation U32_MAX := 4294967295 (only parsing).
Abbreviation U64_MAX := 18446744073709551615 (only parsing).

Definition as_u8 (x : Z) : Z := x mod 256.
Definition as_u16 (x : Z) : Z := x mod 65536.
Definition as_u32 (x : Z) : Z := x mod 4294967296.
Definition wrap64 (x : Z) : Z := x mod 18446744073709551616.
Definition wrap32 (x : Z) : Z := x mod 4294967296.

Definition checked (max x : Z) : outcome Z :=
  if (0 <=? x) && (x <=? max) then Ret x else Panic.

Definition u32_add (a b : Z) : outcome Z := checked U32_MAX (a + b).
Definition u32_sub (a b : Z) : outcome Z := checked U32_MAX (a - b).
Definition usize_add (a b : Z) : outcome Z := checked U64_MAX (a + b).
Definition usize_sub (a b : Z) : outcome Z := checked U64_MAX (a - b).
Definition usize_mul (a b : Z) : outcome Z := checked U64_MAX (a * b).
Definition usize_div (a b : Z) : outcome Z :=
  if b =? 0 then Panic else Ret (a / b).
Definition usize_rem (a b : Z) : outcome Z :=
  if b =? 0 then Panic else Ret (a mod b).
Definition saturating_sub (a b : Z) : Z := Z.max 0 (a - b).
Definition checked_add (a b : Z) : option Z :=
  if a + b <=? U64_MAX then Some (a + b) else None.

(** [x as i64] of a [u64], and [-] on [i64]. *)
Definition as_i64 (x : Z) : Z := if x <? 9223372036854775808 then x else x - 18446744073709551616.
Definition i64_sub (a b : Z) : outcome Z :=
  if (- 9223372036854775808 <=? a - b) && (a - b <? 9223372036854775808) then Ret (a - b) else Panic.

Lemma checked_ok max x : 0 <= x <= max → checked max x = Ret x.
Proof.
  intros [H1 H2]. unfold checked.
  by rewrite (proj2 (Z.leb_le _ _) H1), (proj2 (Z.leb_le _ _) H2).
Qed.

Lemma checked_ret max x y : checked max x = Ret y → y = x ∧ 0 <= x <= max.
Proof.
  unfold checked. destruct (Z.leb_spec 0 x), (Z.leb_spec x max); simpl; naive_solver.
Qed.

Lemma checked_panic max x : x < 0 ∨ max < x → checked max x = Panic.
Proof.
  unfold checked. destruct (Z.leb_spec 0 x), (Z.leb_spec x max); simpl; intros; try done; lia.
Qed.

Lemma u32_add_ok a b : 0 <= a + b <= U32_MAX → u32_add a b = Ret (a + b).
Proof. apply checked_ok. Qed.
Lemma u32_sub_ok a b : 0 <= a - b <= U32_MAX → u32_sub a b = Ret (a - b).
Proof. apply checked_ok. Qed.
Lemma usize_add_ok a b : 0 <= a + b <= U64_MAX → usize_add a b = Ret (a + b).
Proof. apply checked_ok. Qed.
Lemma usize_sub_ok a b : 0 <= a - b <= U64_MAX → usize_sub a b = Ret (a - b).
Proof. apply checked_ok. Qed.
Lemma usize_mul_ok a b : 0 <= a * b <= U64_MAX → usize_mul a b = Ret (a * b).
Proof. apply checked_ok. Qed.
Lemma usize_div_ok a b : b ≠ 0 → usize_div a b = Ret (a / b).
Proof. intros. unfold usize_div. by destruct (Z.eqb_spec b 0). Qed.
Lemma usize_rem_ok a b : b ≠ 0 → usize_rem a b = Ret (a mod b).
Proof. intros. unfold usize_rem. by destruct (Z.eqb_spec b 0). Qed.

Lemma wrap64_small x : 0 <= x <= U64_MAX → wrap64 x = x.
Proof. intros. apply Z.mod_small. lia. Qed.
Lemma wrap32_small x : 0 <= x <= U32_MAX → wrap32 x = x.
Proof. intros. apply Z.mod_small. lia. Qed.
Lemma as_u32_small x : 0 <= x <= U32_MAX → as_u32 x = x.
Proof. intros. apply Z.mod_small. lia. Qed.
Lemma as_u16_small x : 0 <= x <= U16_MAX → as_u16 x = x.
Proof. intros. apply Z.mod_small. lia. Qed.
Lemma wrap64_range x : 0 <= wrap64 x <= U64_MAX.
Proof. unfold wrap64. pose proof (Z.mod_pos_bound x 18446744073709551616). lia. Qed.
Lemma wrap32_range x : 0 <= wrap32 x <= U32_MAX.
Proof. unfold wrap32. pose proof (Z.mod_pos_bound x 4294967296). lia. Qed.

(** ** Fields of bits *)

(** A number below 2^n in the low bits, under a multiple of 2^n. *)
Lemma lor_low a b n : 0 <= n → 0 <= b < 2 ^ n → Z.lor (a * 2 ^ n) b = a * 2 ^ n + b.
Proof.
  intros Hn Hb. assert (Z.land (a * 2 ^ n) b = 0) as H0.
  { apply Z.bits_inj'. intros k Hk. rewrite Z.land_spec, Z.bits_0. destruct (Z.ltb_spec k n).
    - by rewrite Z.mul_pow2_bits_low by lia.
    - destruct (decide (b = 0)) as [->|]; [by rewrite Z.bits_0, andb_false_r|].
      rewrite (Z.bits_above_log2 b k); [apply andb_false_r|lia|].
      apply Z.log2_lt_pow2; [lia|]. apply Z.lt_le_trans with (2 ^ n); [lia|]. apply Z.pow_le_mono_r; lia. }
  by rewrite <-Z.lxor_lor, <-Z.add_nocarry_lxor by done.
Qed.

Lemma lor_range a b n : 0 <= n → 0 <= a < 2 ^ n → 0 <= b < 2 ^ n → 0 <= Z.lor a b < 2 ^ n.
Proof.
  intros Hn Ha Hb. split; [apply Z.lor_nonneg; lia|].
  destruct (decide (a = 0)) as [->|]; [rewrite Z.lor_0_l; lia|]. destruct (decide (b = 0)) as [->|]; [rewrite Z.lor_0_r; lia|].
  assert (Z.lor a b ≠ 0) by (intros E; by apply Z.lor_eq_0_iff in E as [? ?]).
  assert (0 <= Z.lor a b) by (apply Z.lor_nonneg; lia).
  apply Z.log2_lt_pow2; [lia|]. rewrite Z.log2_lor by lia. apply Z.max_lub_lt; apply Z.log2_lt_pow2; lia.
Qed.

(** Bytes *)
Definition is_byte (b : Z) : Prop := 0 <= b <= U8_MAX.

Lemma as_u8_small x : 0 <= x <= U8_MAX → as_u8 x = x.
Proof. intros. apply Z.mod_small. lia. Qed.
Lemma as_u8_range x : is_byte (as_u8 x).
Proof. unfold as_u8, is_byte. pose proof (Z.mod_pos_bound x 256). lia. Qed.

(** Two bytes as a [u16], high byte first. *)
Lemma land_bit p v : 0 <= v → Z.land p (Z.shiftl 1 v) = if Z.testbit p v then 2 ^ v else 0.
Proof.
  intros Hv. rewrite Z.shiftl_1_l. apply Z.bits_inj'. intros w Hw. rewrite Z.land_spec, Z.pow2_bits_eqb by lia.
  destruct (Z.testbit p v) eqn:Hb; rewrite ?Z.pow2_bits_eqb, ?Z.bits_0 by lia;
    destruct (Z.eqb_spec v w); subst; rewrite ?Hb; by rewrite ?andb_false_r.
Qed.

Lemma test_bit p v : 0 <= v → negb (Z.land p (Z.shiftl 1 v) =? 0) = Z.testbit p v.
Proof.
  intros Hv. rewrite land_bit by done. destruct (Z.testbit p v); [|done].
  by rewrite (proj2 (Z.eqb_neq _ _)) by (pose proof (Z.pow_pos_nonneg 2 v); lia).
Qed.

Lemma be16 hi lo : is_byte hi → is_byte lo → Z.lor (as_u16 (Z.shiftl hi 8)) lo = hi * 256 + lo.
Proof.
  unfold is_byte. intros. rewrite Z.shiftl_mul_pow2 by lia. change (2 ^ 8) with 256. rewrite as_u16_small by lia.
  apply (lor_low hi lo 8); lia.
Qed.

Lemma be16_split x : 0 <= x <= U16_MAX → as_u8 (Z.shiftr x 8) = x / 256 ∧ as_u8 x = x mod 256.
Proof.
  intros. rewrite Z.shiftr_div_pow2 by lia. change (2 ^ 8) with 256. split; [|done].
  apply as_u8_small. Z.div_mod_to_equations. lia.
Qed.

(** ** Arrays and slices

    [a[i]] panics out of range, for reads and for writes. *)

Definition arr_get {A} (l : list A) (i : Z) : outcome A :=
  if i <? 0 then Panic else
  match l !! Z.to_nat i with Some a => Ret a | None => Panic end.

Definition arr_set {A} (l : list A) (i : Z) (a : A) : outcome (list A) :=
  if (0 <=? i) && (i <? Z.of_nat (length l)) then Ret (<[Z.to_nat i := a]> l) else Panic.

Section arrays.
Context {A : Type}.
Implicit Types (l : list A) (a : A) (i : Z).

Lemma arr_get_ok l i a :
  0 <= i → l !! Z.to_nat i = Some a → arr_get l i = Ret a.
Proof. intros Hi Hl. unfold arr_get. destruct (Z.ltb_spec i 0); [lia|]. by rewrite Hl. Qed.

Lemma arr_get_range l i :
  0 <= i < Z.of_nat (length l) → ∃ a, l !! Z.to_nat i = Some a ∧ arr_get l i = Ret a.
Proof.
  intros Hi. destruct (lookup_lt_is_Some_2 l (Z.to_nat i)) as [a Ha]; [lia|].
  exists a. split; [done|]. apply arr_get_ok; [lia|done].
Qed.

Lemma arr_set_ok l i a :
  0 <= i < Z.of_nat (length l) → arr_set l i a = Ret (<[Z.to_nat i := a]> l).
Proof.
  intros Hi. unfold arr_set.
  destruct (Z.leb_spec 0 i), (Z.ltb_spec i (Z.of_nat (length l))); simpl; try done; lia.
Qed.

Lemma arr_set_panic l i a :
  ¬ 0 <= i < Z.of_nat (length l) → arr_set l i a = Panic.
Proof.
  intros Hi. unfold arr_set.
  destruct (Z.leb_spec 0 i), (Z.ltb_spec i (Z.of_nat (length l))); simpl; try done; lia.
Qed.

(** Lookups after an update, with the indices as machine integers. *)
Lemma lookup_upd_eq l i a :
  0 <= i < Z.of_nat (length l) → <[Z.to_nat i := a]> l !! Z.to_nat i = Some a.
Proof. intros. apply list_lookup_insert_eq. lia. Qed.

Lemma lookup_upd_ne l i j a :
  0 <= i → 0 <= j → i ≠ j → <[Z.to_nat i := a]> l !! Z.to_nat j = l !! Z.to_nat j.
Proof. intros. apply list_lookup_insert_ne. lia. Qed.
End arrays.

(** ** Counting the elements that satisfy a test *)

Definition count_if {A} (f : A → bool) (l : list A) : Z :=
  Z.of_nat (length (filter (λ x, f x = true) l)).

Section counting.
Context {A : Type} (f : A → bool).

Lemma count_if_cons x l :
  count_if f (x :: l) = (if f x then 1 else 0) + count_if f l.
Proof. unfold count_if. rewrite filter_cons. destruct (f x); case_decide; simpl; done || lia. Qed.

Lemma count_if_app l1 l2 : count_if f (l1 ++ l2) = count_if f l1 + count_if f l2.
Proof. unfold count_if. rewrite list.filter_app, length_app. lia. Qed.

Lemma count_if_insert l i old new :
  l !! i = Some old →
  count_if f (<[i := new]> l) =
    count_if f l - (if f old then 1 else 0) + (if f new then 1 else 0).
Proof.
  revert i. induction l as [|x l IH]; intros [|i] Hi; simplify_eq/=.
  - rewrite !count_if_cons. lia.
  - rewrite !count_if_cons. specialize (IH i Hi). lia.
Qed.

Lemma count_if_range l : 0 <= count_if f l <= Z.of_nat (length l).
Proof. unfold count_if. pose proof (length_filter (λ x, f x = true) l). lia. Qed.

Lemma count_if_pos l i x : l !! i = Some x → f x = true → 0 < count_if f l.
Proof.
  intros Hi Hx. pose proof (count_if_range (<[i := x]> l)).
  revert i Hi H. induction l as [|y l IH]; intros [|i] Hi _; simplify_eq/=; rewrite count_if_cons.
  - rewrite Hx. pose proof (count_if_range l). lia.
  - specialize (IH i Hi (count_if_range _)). destruct (f y); lia.
Qed.

Lemma count_if_lt l i x :
  l !! i = Some x → f x = false → count_if f l < Z.of_nat (length l).
Proof.
  revert i. induction l as [|y l IH]; intros [|i] Hi Hx; simplify_eq/=; rewrite count_if_cons.
  - rewrite Hx. pose proof (count_if_range l). lia.
  - specialize (IH i Hi Hx). destruct (f y); lia.
Qed.

Lemma count_if_all l : (∀ i x, l !! i = Some x → f x = true) → count_if f l = Z.of_nat (length l).
Proof.
  induction l as [|y l IH]; intros Hall; [done|]. rewrite count_if_cons, (Hall 0%nat y eq_refl), IH.
  - simpl. lia.
  - intros i x. apply (Hall (S i)).
Qed.

Lemma count_if_none l : (∀ i x, l !! i = Some x → f x = false) → count_if f l = 0.
Proof.
  induction l as [|y l IH]; intros Hall; [done|]. rewrite count_if_cons, (Hall 0%nat y eq_refl), IH; [done|].
  intros i x. apply (Hall (S i)).
Qed.

Lemma count_if_full l :
  count_if f l = Z.of_nat (length l) → ∀ i x, l !! i = Some x → f x = true.
Proof.
  intros Hc i x Hi. destruct (f x) eqn:Hx; [done|]. pose proof (count_if_lt l i x Hi Hx). lia.
Qed.

Lemma count_if_missing l :
  count_if f l ≠ Z.of_nat (length l) → ∃ i x, l !! i = Some x ∧ f x = false.
Proof.
  induction l as [|y l IH]; [done|]. rewrite count_if_cons. cbn [length]. destruct (f y) eqn:Hy; intros Hne.
  - destruct IH as (i & x & Hi & Hx); [lia|]. by exists (S i), x.
  - by exists 0%nat, y.
Qed.

Lemma count_if_replicate n x : f x = false → count_if f (replicate n x) = 0.
Proof. intros Hx. induction n as [|n IH]; [done|]. simpl. by rewrite count_if_cons, Hx, IH. Qed.
End counting.

(** ** Sums over a list *)

Definition sum_by {A} (f : A → Z) (l : list A) : Z := foldr (λ x n, f x + n) 0 l.

Section sums.
Context {A : Type} (f : A → Z).
Implicit Types (l : list A).

Lemma sum_by_cons x l : sum_by f (x :: l) = f x + sum_by f l.
Proof. done. Qed.

Lemma sum_by_app l1 l2 : sum_by f (l1 ++ l2) = sum_by f l1 + sum_by f l2.
Proof. induction l1 as [|x l1 IH]; [done|]. cbn [app]. rewrite !sum_by_cons, IH. lia. Qed.

Lemma sum_by_insert l i old new : l !! i = Some old → sum_by f (<[i := new]> l) = sum_by f l - f old + f new.
Proof.
  revert i. induction l as [|x l IH]; intros [|i] Hi; [done|done|..]; simpl in Hi.
  - injection Hi as ->. change (<[0%nat := new]> (old :: l)) with (new :: l). rewrite !sum_by_cons. lia.
  - change (<[S i := new]> (x :: l)) with (x :: <[i := new]> l). rewrite !sum_by_cons, (IH i Hi). lia.
Qed.

Lemma sum_by_nonneg l : (∀ x, x ∈ l → 0 <= f x) → 0 <= sum_by f l.
Proof.
  induction l as [|x l IH]; intros Hf; [done|]. rewrite sum_by_cons.
  pose proof (Hf x ltac:(left)). specialize (IH (λ y Hy, Hf y ltac:(by right))). lia.
Qed.

Lemma sum_by_elem l i x : (∀ y, y ∈ l → 0 <= f y) → l !! i = Some x → f x <= sum_by f l.
Proof.
  intros Hf Hi. apply list_elem_of_split_length in Hi as (l1 & l2 & -> & _). rewrite sum_by_app, sum_by_cons.
  assert (0 <= sum_by f l1) by (apply sum_by_nonneg; intros y Hy; apply Hf, elem_of_app; by left).
  assert (0 <= sum_by f l2) by (apply sum_by_nonneg; intros y Hy; apply Hf, elem_of_app; by right; right). lia.
Qed.

Lemma sum_by_Permutation l l' : l ≡ₚ l' → sum_by f l = sum_by f l'.
Proof. induction 1; rewrite ?sum_by_cons in *; lia. Qed.
End sums.

(** ** Runs of a step relation *)

Lemma rtc_preserves {A} (R : relation A) (P : A → Prop) x y : (∀ x y, P x → R x y → P y) → rtc R x y → P x → P y.
Proof. intros Hp Hrun. induction Hrun; eauto. Qed.

(** ** Ring buffers

    The index of the element at distance [k] from the read index [r], in an
    array of length [n]. *)

Definition slot (n r k : Z) : nat := Z.to_nat ((r + k) mod n).

Section slots.
Context (n : Z) (Hn : 0 < n).

Lemma slot_lt r k : (slot n r k < Z.to_nat n)%nat.
Proof. unfold slot. pose proof (Z.mod_pos_bound (r + k) n Hn). lia. Qed.

(** Distances below the length name different indices. *)
Lemma slot_inj r j k : 0 <= j < n → 0 <= k < n → slot n r j = slot n r k → j = k.
Proof.
  unfold slot. intros Hj Hk Heq.
  pose proof (Z.mod_pos_bound (r + j) n Hn). pose proof (Z.mod_pos_bound (r + k) n Hn).
  assert ((r + j) mod n = (r + k) mod n) as Hm by lia.
  assert ((j - k) mod n = 0) as Hz.
  { replace (j - k) with ((r + j) - (r + k)) by lia. rewrite Zminus_mod, Hm, Z.sub_diag. apply Z.mod_0_l; lia. }
  apply Z.mod_divide in Hz as [c Hc]; [|lia].
  destruct (Z.lt_trichotomy c 0) as [|[->|]]; [nia|lia|nia].
Qed.

Lemma slot_succ r k : slot n ((r + 1) mod n) k = slot n r (k + 1).
Proof. unfold slot. rewrite Z.add_mod_idemp_l by lia. do 2 f_equal. lia. Qed.

Lemma slot_0 r : 0 <= r < n → slot n r 0 = Z.to_nat r.
Proof. intros Hr. unfold slot. by rewrite Z.add_0_r, Z.mod_small by lia. Qed.
End slots.

(** ** [for i in lo..hi] *)

Fixpoint for_loop {S} (n : nat) (i : Z) (body : Z → S → outcome S) (s : S) : outcome S :=
  match n with
  | O => Ret s
  | Datatypes.S n' => let! s' := body i s in for_loop n' (i + 1) body s'
  end.

Definition for_range {S} (lo hi : Z) (body : Z → S → outcome S) (s : S) : outcome S :=
  for_loop (Z.to_nat (hi - lo)) lo body s.

(** The invariant rule of [for]: [I i s] holds before the iteration on [i]. *)
Lemma for_range_rule {S} (I : Z → S → Prop) lo hi body (s : S) :
  lo <= hi → I lo s →
  (∀ i s, lo <= i < hi → I i s → returns (body i s) (I (i + 1))) →
  returns (for_range lo hi body s) (I hi).
Proof.
  intros Hle HI Hbody. unfold for_range.
  assert (∀ n i s, lo <= i → i + Z.of_nat n = hi → I i s →
            returns (for_loop n i body s) (I hi)) as Hn.
  { induction n as [|n IH]; intros i s' Hi Hn HIi; simpl.
    - by replace hi with i by lia.
    - eapply returns_bind; [apply Hbody; [lia|done]|].
      intros s'' HI'. apply IH; [lia|lia|done]. }
  apply Hn; [lia|lia|done].
Qed.

(** ** Automation

    [rust] rewrites checked operations whose side condition [lia] proves;
    [rsimp] alternates it with reduction of the bind. *)

Create Rewrite HintDb rust.
#[export] Hint Rewrite @u32_add_ok @u32_sub_ok @usize_add_ok @usize_sub_ok
  @usize_mul_ok @usize_div_ok @usize_rem_ok @arr_set_ok using lia : rust.
#[export] Hint Rewrite @wrap64_small @wrap32_small @as_u32_small @as_u16_small
  using lia : rust.

Ltac rsimp := repeat (progress (simpl; autorewrite with rust)).

(** Case analysis on the boolean test of a conditional. *)
Ltac case_bool :=
  match goal with
  | |- context [Z.eqb ?a ?b] => destruct (Z.eqb_spec a b)
  | |- context [Z.ltb ?a ?b] => destruct (Z.ltb_spec a b)
  | |- context [Z.leb ?a ?b] => destruct (Z.leb_spec a b)
  end.

Ltac case_bool_in H :=
  match type of H with
  | context [Z.eqb ?a ?b] => destruct (Z.eqb_spec a b)
  | context [Z.ltb ?a ?b] => destruct (Z.ltb_spec a b)
  | context [Z.leb ?a ?b] => destruct (Z.leb_spec a b)
  end.
