(* ===== verification/Float.v ===== *)
(** * Floating-point numbers

    [f64] values are the binary64 numbers of the Standard Library's [SpecFloat],
    rounded to nearest even; the real-time and per-CPU code of the kernel, quorum voting
    and flow control use them. *)

From stdpp Require Import base list numbers.
From Stdlib Require Import SpecFloat.
From S2P Require Import Prelude.

(** [x as f64], the arithmetic and the comparison [x > 1.0]. *)
Definition f64_of_u64 (x : Z) : spec_float := binary_normalize 53 1024 x 0 false.
Definition f64_add : spec_float → spec_float → spec_float := SFadd 53 1024.
Definition f64_sub : spec_float → spec_float → spec_float := SFsub 53 1024.
Definition f64_mul : spec_float → spec_float → spec_float := SFmul 53 1024.
Definition f64_div : spec_float → spec_float → spec_float := SFdiv 53 1024.
Definition f64_one : spec_float := f64_of_u64 1.
Definition f64_zero : spec_float := f64_of_u64 0.

(** [iter().sum::<f64>()]. *)
Definition f64_sum (l : list spec_float) : spec_float := foldl f64_add f64_zero l.

(** [x.ceil() as usize] and [x as usize]: the cast goes to the nearest value in
    range, and from NaN to 0.  The ceiling of a number with a fraction is below
    2^53 and exact. *)
Definition clamp_usize (x : Z) : Z := Z.max 0 (Z.min x U64_MAX).

Definition f64_ceil_usize (x : spec_float) : Z :=
  match x with
  | S754_finite s m e =>
    let v := if s then - Zpos m else Zpos m in
    clamp_usize (if 0 <=? e then v * 2 ^ e else - ((- v) / 2 ^ (- e)))
  | S754_infinity false => U64_MAX
  | _ => 0
  end.

Definition f64_as_usize (x : spec_float) : Z :=
  match x with
  | S754_finite s m e =>
    let v := if s then - Zpos m else Zpos m in
    clamp_usize (if 0 <=? e then v * 2 ^ e else Z.quot v (2 ^ (- e)))
  | S754_infinity false => U64_MAX
  | _ => 0
  end.

(** [x as i32] of a [u32]. *)
Definition as_i32 (x : Z) : Z := (x + 2147483648) mod 4294967296 - 2147483648.

(** [f64::powi] squares repeatedly, as the run-time library of the compiler does. *)
Fixpoint powi_loop (fuel : nat) (r a : spec_float) (b : Z) : spec_float :=
  match fuel with
  | O => r
  | S fuel' =>
    let r := if Z.odd b then f64_mul r a else r in
    let b := Z.quot b 2 in
    if b =? 0 then r else powi_loop fuel' r (f64_mul a a) b
  end.
Definition f64_powi (a : spec_float) (b : Z) : spec_float :=
  let r := powi_loop 32 f64_one a b in if b <? 0 then f64_div f64_one r else r.

(** ** Time and decimal fractions *)

(** [Duration::as_secs_f64] of a number of nanoseconds. *)
Definition as_secs_f64 (ns : Z) : spec_float :=
  f64_add (f64_of_u64 (ns / 1000000000)) (f64_div (f64_of_u64 (ns mod 1000000000)) (f64_of_u64 1000000000)).

(** [Instant::elapsed], which is zero for an instant that is not in the past. *)
Definition elapsed (since now : Z) : Z := saturating_sub now since.

(** The literal [n / d], to the nearest. *)
Definition f64_lit (n d : Z) : spec_float := f64_div (f64_of_u64 n) (f64_of_u64 d).

(** [f64::min] and [f64::max] prefer a number to NaN. *)
Definition f64_min (x y : spec_float) : spec_float :=
  match x, y with
  | S754_nan, _ => y
  | _, S754_nan => x
  | _, _ => if SFltb y x then y else x
  end.
Definition f64_max (x y : spec_float) : spec_float :=
  match x, y with
  | S754_nan, _ => y
  | _, S754_nan => x
  | _, _ => if SFltb x y then y else x
  end.

(** [Duration::from_secs_f64] panics unless the seconds are a number of 64 bits. *)
Definition from_secs_f64 (secs : spec_float) : outcome spec_float :=
  match secs with
  | S754_nan | S754_infinity _ => Panic
  | _ => if SFltb secs f64_zero || SFleb (f64_of_u64 18446744073709551616) secs then Panic else Ret secs
  end.

(** ** The order of numbers *)

(** Numbers are ordered by sign and class, then by exponent and mantissa. *)
Definition float_key (x : spec_float) : Z * (Z * Z) :=
  match x with
  | S754_infinity true => (0, (0, 0))
  | S754_finite true m e => (1, (- e, - Zpos m))
  | S754_zero _ => (2, (0, 0))
  | S754_finite false m e => (3, (e, Zpos m))
  | S754_infinity false => (4, (0, 0))
  | S754_nan => (5, (0, 0))
  end.

Definition key_le (a b : Z * (Z * Z)) : Prop :=
  a.1 < b.1 ∨ a.1 = b.1 ∧ (a.2.1 < b.2.1 ∨ a.2.1 = b.2.1 ∧ a.2.2 <= b.2.2).

Lemma SFleb_key x y : x ≠ S754_nan → y ≠ S754_nan → SFleb x y = true ↔ key_le (float_key x) (float_key y).
Proof.
  intros Hx Hy. unfold SFleb, key_le. destruct x as [?|[]| |[] m e], y as [?|[]| |[] m' e']; cbn; try done; try (split; done || lia).
  all: change (Pos.compare_cont Eq m m') with (Pos.compare m m').
  all: destruct (Z.compare_spec e e'); try destruct (Pos.compare_spec m m'); cbn; split; (done || lia).
Qed.

Lemma SFleb_trans x y z : y ≠ S754_nan → SFleb x y = true → SFleb y z = true → SFleb x z = true.
Proof.
  intros Hy Hxy Hyz. assert (x ≠ S754_nan) by by intros ->. assert (z ≠ S754_nan) by (intros ->; by destruct y).
  apply SFleb_key in Hxy; [|done..]. apply SFleb_key in Hyz; [|done..]. apply SFleb_key; [done..|]. unfold key_le in *. lia.
Qed.

Lemma SFcompare_le x y :
  x ≠ S754_nan → y ≠ S754_nan → if decide (SFcompare x y = Some Gt) then SFleb y x = true else SFleb x y = true.
Proof.
  intros Hx Hy. case_decide as E.
  - apply SFleb_key; [done..|]. destruct (SFleb x y) eqn:L; [unfold SFleb in L; by rewrite E in L|].
    assert (¬ key_le (float_key x) (float_key y)) by (rewrite <-SFleb_key by done; by rewrite L). unfold key_le in *. lia.
  - unfold SFleb. destruct (SFcompare x y) as [[]|] eqn:C; try done. by destruct x, y.
Qed.

Lemma f64_max_number x y : y ≠ S754_nan → f64_max x y ≠ S754_nan.
Proof. intros Hy. unfold f64_max. destruct x; [| |done|]; (destruct y; [| |done|]); by destruct (SFltb _ _). Qed.
