(* ===== verification/Sorting.v ===== *)
(** * Sorting and selecting

    The stable sort of the standard library, [dedup], [min_by_key] and the search for
    a place in a sorted slice, with what they guarantee. *)

From stdpp Require Import base tactics option list numbers sorting sets.
From S2P Require Import Prelude.

Section sorting.
Context {A : Type} (key : A → Z).
Implicit Types (l : list A).

(** ** Sorting *)

(** Insertion behind the elements of the same key. *)
Fixpoint insert_by (x : A) l : list A :=
  match l with
  | [] => [x]
  | y :: l' => if key x <? key y then x :: l else y :: insert_by x l'
  end.

(** [sort_by_key], which is stable. *)
Definition sort_by_key l : list A := foldl (λ acc x, insert_by x acc) [] l.

(** In ascending order. *)
Definition ascends l : Prop := StronglySorted (λ x y, key x <= key y) l.

(** The elements of one key keep their order. *)
Definition same_order l l' : Prop := ∀ k, base.filter (λ x, key x = k) l' = base.filter (λ x, key x = k) l.

Lemma insert_by_elem x l y : y ∈ insert_by x l ↔ y = x ∨ y ∈ l.
Proof.
  induction l as [|z l IH]; simpl; [set_solver|]. destruct (_ <? _); [set_solver|].
  rewrite elem_of_cons, IH. set_solver.
Qed.

Lemma insert_by_perm x l : insert_by x l ≡ₚ x :: l.
Proof. induction l as [|y l IH]; simpl; [done|]. destruct (_ <? _); [done|]. rewrite IH. apply Permutation_swap. Qed.

Lemma insert_by_ascends x l : ascends l → ascends (insert_by x l).
Proof.
  induction 1 as [|y l Hs IH Hall]; simpl; [by repeat constructor|]. rewrite Forall_forall in Hall.
  destruct (Z.ltb_spec (key x) (key y)) as [Hlt|].
  - constructor; [by constructor; [done|apply Forall_forall]|]. apply Forall_forall. intros z Hz.
    apply elem_of_cons in Hz as [->|Hz]; [lia|]. specialize (Hall z Hz). lia.
  - constructor; [done|]. apply Forall_forall. intros z [->|Hz]%insert_by_elem; [lia|by apply Hall].
Qed.

Lemma insert_by_filter k x l :
  ascends l → base.filter (λ y, key y = k) (insert_by x l) = base.filter (λ y, key y = k) (l ++ [x]).
Proof.
  induction 1 as [|y l Hs IH Hall]; simpl; [done|]. rewrite Forall_forall in Hall.
  destruct (Z.ltb_spec (key x) (key y)) as [Hlt|]; [|by rewrite !filter_cons, IH].
  rewrite filter_cons. change (y :: l ++ [x]) with ((y :: l) ++ [x]).
  rewrite list.filter_app, (filter_cons _ x []). case_decide as Hx; [|by rewrite app_nil_r].
  assert (base.filter (λ z, key z = k) (y :: l) = []) as ->; [|done].
  apply list_nil_subseteq. intros z [Hz Hin]%list_elem_of_filter. exfalso.
  apply elem_of_cons in Hin as [->|Hin]; [lia|]. specialize (Hall z Hin). lia.
Qed.

Lemma sort_by_key_spec l : ascends (sort_by_key l) ∧ same_order l (sort_by_key l).
Proof.
  unfold sort_by_key. induction l as [|x l IH] using rev_ind; [split; [constructor|done]|].
  destruct IH as [Hs Ho]. rewrite foldl_app. simpl. split; [by apply insert_by_ascends|].
  intros k. rewrite insert_by_filter by done. by rewrite !list.filter_app, Ho.
Qed.

Lemma sort_by_key_perm l : sort_by_key l ≡ₚ l.
Proof.
  unfold sort_by_key. induction l as [|x l IH] using rev_ind; [done|]. rewrite foldl_app. simpl.
  rewrite insert_by_perm, IH. apply Permutation_cons_append.
Qed.

(** An ascending list is determined by its elements of each key. *)
Lemma ascends_unique l1 l2 : ascends l1 → ascends l2 → same_order l1 l2 → l1 = l2.
Proof.
  intros Hs1. revert l2. induction Hs1 as [|x l1 Hs1 IH Hall1]; intros l2 Hs2 Ho.
  - destruct l2 as [|y l2]; [done|]. specialize (Ho (key y)). rewrite filter_cons, decide_True in Ho by done. done.
  - rewrite Forall_forall in Hall1.
    assert (∃ y, y ∈ l2 ∧ key y = key x) as (y0 & Hy0 & Ey0).
    { specialize (Ho (key x)). rewrite (filter_cons_True _ x) in Ho by done.
      assert (x ∈ base.filter (λ o, key o = key x) l2) as Hx by (rewrite Ho; left). apply list_elem_of_filter in Hx as [? ?]. eauto. }
    destruct l2 as [|y l2]; [by apply elem_of_nil in Hy0|]. apply StronglySorted_inv in Hs2 as [Hs2 Hall2]. rewrite Forall_forall in Hall2.
    assert (key y = key x) as E.
    { assert (key y <= key x) by (apply elem_of_cons in Hy0 as [->|Hin]; [lia|]; specialize (Hall2 _ Hin); lia).
      assert (y ∈ base.filter (λ o, key o = key y) (x :: l1)) as Hy by (rewrite <-Ho, filter_cons_True by done; left).
      apply list_elem_of_filter in Hy as [_ [->|Hin]%elem_of_cons]; [done|]. specialize (Hall1 _ Hin). lia. }
    assert (y = x) as ->.
    { specialize (Ho (key x)). rewrite !filter_cons_True in Ho by done. by injection Ho. }
    f_equal. apply IH; [done|]. intros k. specialize (Ho k). rewrite !filter_cons in Ho. case_decide; [by injection Ho|done].
Qed.

(** The first elements of an ascending list are the least. *)
Lemma ascends_take l k x y : ascends l → x ∈ take k l → y ∈ drop k l → key x <= key y.
Proof.
  revert k. induction l as [|z l IH]; intros k Hs Hx Hy; [by rewrite take_nil in Hx; apply elem_of_nil in Hx|].
  apply StronglySorted_inv in Hs as [Hs Hall]. rewrite Forall_forall in Hall. destruct k as [|k]; [by apply elem_of_nil in Hx|]. simpl in Hx, Hy.
  apply elem_of_cons in Hx as [->|Hx]; [apply Hall; rewrite <-(take_drop k l); apply elem_of_app; by right|by eapply IH].
Qed.

Lemma ascends_take_ascends l k : ascends l → ascends (take k l).
Proof.
  intros Hs. revert k. induction Hs as [|z l Hs IH Hall]; intros k; [rewrite take_nil; constructor|]. destruct k as [|k]; [constructor|]. simpl.
  constructor; [apply IH|]. by apply Forall_take.
Qed.

(** ** Selecting *)

(** [min_by_key]: the first of the least. *)
Definition min_by_key l : option A :=
  match l with
  | [] => None
  | x :: l' => Some (foldl (λ m y, if key y <? key m then y else m) x l')
  end.

Lemma min_by_key_spec l :
  match min_by_key l with
  | Some m => m ∈ l ∧ ∀ x, x ∈ l → key m <= key x
  | None => l = []
  end.
Proof.
  destruct l as [|x l]; [done|]. unfold min_by_key. assert (∀ l m, let r := foldl (λ m y, if key y <? key m then y else m) m l in
    (r = m ∨ r ∈ l) ∧ key r <= key m ∧ ∀ y, y ∈ l → key r <= key y) as Hf.
  { clear. induction l as [|y l IH]; intros m; simpl; [split_and!; [by left|done|]; by intros y ?%elem_of_nil|].
    specialize (IH (if key y <? key m then y else m)) as (Hin & Hle & Hall). set (r := foldl _ _ l) in *.
    destruct (Z.ltb_spec (key y) (key m)) as [Hlt|Hge]; (split_and!; [|lia|]).
    - right. destruct Hin as [->|Hin]; [by left|by right].
    - intros z [->|Hz]%elem_of_cons; [lia|by apply Hall].
    - destruct Hin as [->|Hin]; [by left|right; by right].
    - intros z [->|Hz]%elem_of_cons; [lia|by apply Hall]. }
  destruct (Hf l x) as (Hin & Hle & Hall). set (r := foldl _ _ l) in *. split; [destruct Hin as [->|Hin]; [by left|by right]|].
  intros y [->|Hy]%elem_of_cons; [done|by apply Hall].
Qed.

(** The place of a key in an ascending slice: before the first element that is not
    less. *)
Fixpoint search_by_key l (k : Z) : nat :=
  match l with
  | [] => 0
  | x :: l' => if key x <? k then S (search_by_key l' k) else 0
  end.

(** [l.insert(pos, x)]. *)
Definition insert_at (pos : nat) (x : A) l : list A := take pos l ++ x :: drop pos l.

Lemma insert_at_perm pos x l : insert_at pos x l ≡ₚ x :: l.
Proof. unfold insert_at. rewrite <-Permutation_middle. by rewrite take_drop. Qed.

Lemma insert_at_search x l : ascends l → ascends (insert_at (search_by_key l (key x)) x l).
Proof.
  unfold insert_at. induction 1 as [|y l Hs IH Hall]; simpl; [by repeat constructor|]. rewrite Forall_forall in Hall.
  destruct (Z.ltb_spec (key y) (key x)); simpl.
  - constructor; [done|]. apply Forall_forall. intros z Hz. assert (z ∈ x :: l) as Hz' by by rewrite <-(insert_at_perm (search_by_key l (key x)) x l).
    apply elem_of_cons in Hz' as [->|Hz']; [lia|by apply Hall].
  - constructor; [by constructor; [done|apply Forall_forall]|]. apply Forall_forall. intros z [->|Hz]%elem_of_cons; [lia|]. specialize (Hall z Hz). lia.
Qed.
End sorting.

(** [dedup]: of equal neighbours the first stays. *)
Section dedup.
Context {A : Type} `{EqDecision A}.
Implicit Types (l : list A).

Fixpoint dedup l : list A :=
  match l with
  | [] => []
  | x :: l' => match l' with
    | y :: _ => if decide (x = y) then dedup l' else x :: dedup l'
    | [] => [x]
    end
  end.

Lemma dedup_cons x y l : dedup (x :: y :: l) = if decide (x = y) then dedup (y :: l) else x :: dedup (y :: l).
Proof. done. Qed.

Lemma elem_of_dedup x l : x ∈ dedup l ↔ x ∈ l.
Proof.
  induction l as [|y [|z l] IH]; [done|done|]. rewrite dedup_cons. case_decide as E; [subst; rewrite IH; set_solver|].
  rewrite !elem_of_cons, IH. set_solver.
Qed.

(** In an ascending list whose keys tell the elements apart, equal elements are
    neighbours. *)
Lemma dedup_ascends (key : A → Z) l :
  (∀ x y, key x = key y → x = y) → ascends key l → ascends key (dedup l) ∧ NoDup (dedup l).
Proof.
  intros Hinj. induction l as [|x [|y l] IH]; intros Hs; [split; constructor|split; [done|apply NoDup_singleton]|].
  apply StronglySorted_inv in Hs as [Hs Hall]. destruct (IH Hs) as [IH1 IH2]. rewrite dedup_cons. case_decide as E; [done|]. rewrite Forall_forall in Hall.
  apply StronglySorted_inv in Hs as [_ Hall']. rewrite Forall_forall in Hall'. split.
  - constructor; [done|]. apply Forall_forall. intros z Hz. rewrite elem_of_dedup in Hz. by apply Hall.
  - apply NoDup_cons. split; [|done]. intros Hx. rewrite elem_of_dedup in Hx. apply elem_of_cons in Hx as [->|Hx]; [congruence|].
    apply E, Hinj. specialize (Hall y ltac:(left)). specialize (Hall' x Hx). lia.
Qed.
End dedup.
