(* ===== verification/Errors.v ===== *)
(** * Kernel errors

    The error type shared by the page allocator, the scheduler and the
    real-time primitives ([KernelError] of mielin-kernel/src/lib.rs). *)

From stdpp Require Import base tactics numbers.
From S2P Require Import Prelude.

(* src: mielin-kernel/src/lib.rs 144-199 KernelError *)
Inductive KernelError : Type :=
| MemoryInitFailed
| SchedulerInitFailed
| HardwareNotSupported
| ZeroAllocation
| AllocationTooLarge (requested max_pages : Z)
| AddressOutOfBounds (address max_address : Z)
| PageIndexOutOfBounds (index max_index : Z)
| DoubleFree (address : Z)
| OutOfMemory (requested available : Z)
| InvalidPageCount
| TaskSpawnFailed
| TaskNotFound (task_id : Z)
| SchedulerNotInitialized
| MemoryNotInitialized.

#[export] Instance KernelError_eq_dec : EqDecision KernelError.
Proof. solve_decision. Defined.

(** [m.ok_or(e)?] on a global protected by a lock: the operation runs on the
    value when it is there, and the error is returned when it is not. *)
Definition with_global {S A} (e : KernelError) (g : option S)
    (op : S → outcome (result A KernelError * S)) :
    outcome (result A KernelError * option S) :=
  match g with
  | None => Ret (Err e, None)
  | Some s => let! (r, s') := op s in Ret (r, Some s')
  end.
