(* ===== verification/Memory.v ===== *)
(** * The page allocator (mielin-kernel/src/memory.rs)

    The state of [MemoryManager], its operations and the functions on the
    global instance.  The free blocks form a list linked by index inside the
    array [free_blocks]; every loop that follows the [next] fields takes fuel,
    one unit per node visited, and [MemoryFreeList] shows that [list_fuel] is
    enough on every reachable state. *)

From stdpp Require Import base tactics option list numbers.
From S2P Require Import Prelude Errors.

(* src: mielin-kernel/src/memory.rs 75-75 PAGE_SIZE *)
Definition PAGE_SIZE : Z := 4096.
(* src: mielin-kernel/src/memory.rs 77-77 MAX_PAGES *)
Definition MAX_PAGES : Z := 1024.
(* src: mielin-kernel/src/memory.rs 79-79 INVALID_PAGE *)
Definition INVALID_PAGE : Z := U32_MAX.

(* src: mielin-kernel/src/memory.rs 83-96 AllocationStrategy *)
Inductive AllocationStrategy : Type := FirstFit | BestFit | WorstFit.

(** ** Allocation statistics *)
Module AllocationStats.

(* src: mielin-kernel/src/memory.rs 100-119 AllocationStats *)
Record AllocationStats : Type := mk {
  allocations : Z;
  deallocations : Z;
  failed_allocations : Z;
  pages_allocated : Z;
  pages_freed : Z;
  peak_pages : Z;
  current_pages : Z;
  coalesce_count : Z;
  multi_page_allocations : Z;
}.

(* src: mielin-kernel/src/memory.rs 123-135 AllocationStats::new *)
Definition new : AllocationStats := mk 0 0 0 0 0 0 0 0 0.

(** The manager is reached through [&mut] or behind the global lock, so the
    compare-exchange loop on the peak ends with the larger of the two values. *)
(* src: mielin-kernel/src/memory.rs 138-161 AllocationStats::record_allocation *)
Definition record_allocation (self : AllocationStats) (pages : Z) : outcome AllocationStats :=
  let! current := usize_add (current_pages self) pages in
  Ret {|
    allocations := wrap64 (allocations self + 1);
    deallocations := deallocations self;
    failed_allocations := failed_allocations self;
    pages_allocated := wrap64 (pages_allocated self + pages);
    pages_freed := pages_freed self;
    peak_pages := if peak_pages self <? current then current else peak_pages self;
    current_pages := wrap64 (current_pages self + pages);
    coalesce_count := coalesce_count self;
    multi_page_allocations :=
      if 1 <? pages then wrap64 (multi_page_allocations self + 1)
      else multi_page_allocations self;
  |}.

(* src: mielin-kernel/src/memory.rs 164-168 AllocationStats::record_deallocation *)
Definition record_deallocation (self : AllocationStats) (pages : Z) : AllocationStats := {|
  allocations := allocations self;
  deallocations := wrap64 (deallocations self + 1);
  failed_allocations := failed_allocations self;
  pages_allocated := pages_allocated self;
  pages_freed := wrap64 (pages_freed self + pages);
  peak_pages := peak_pages self;
  current_pages := wrap64 (current_pages self - pages);
  coalesce_count := coalesce_count self;
  multi_page_allocations := multi_page_allocations self;
|}.

(* src: mielin-kernel/src/memory.rs 171-173 AllocationStats::record_failure *)
Definition record_failure (self : AllocationStats) : AllocationStats := {|
  allocations := allocations self;
  deallocations := deallocations self;
  failed_allocations := wrap64 (failed_allocations self + 1);
  pages_allocated := pages_allocated self;
  pages_freed := pages_freed self;
  peak_pages := peak_pages self;
  current_pages := current_pages self;
  coalesce_count := coalesce_count self;
  multi_page_allocations := multi_page_allocations self;
|}.

(* src: mielin-kernel/src/memory.rs 176-178 AllocationStats::record_coalesce *)
Definition record_coalesce (self : AllocationStats) : AllocationStats := {|
  allocations := allocations self;
  deallocations := deallocations self;
  failed_allocations := failed_allocations self;
  pages_allocated := pages_allocated self;
  pages_freed := pages_freed self;
  peak_pages := peak_pages self;
  current_pages := current_pages self;
  coalesce_count := wrap64 (coalesce_count self + 1);
  multi_page_allocations := multi_page_allocations self;
|}.

End AllocationStats.
Abbreviation AllocationStats := AllocationStats.AllocationStats.

(** ** Free blocks and pages *)

(* src: mielin-kernel/src/memory.rs 247-254 FreeBlock *)
Record FreeBlock : Type := mkFreeBlock {
  start_page : Z;
  page_count : Z;
  next : Z;
}.

(* src: mielin-kernel/src/memory.rs 257-263 FreeBlock::new *)
Definition FreeBlock_new (start count : Z) : FreeBlock :=
  mkFreeBlock start count INVALID_PAGE.

(* src: mielin-kernel/src/memory.rs 268-273 PageState *)
Inductive PageState : Type :=
| Free
| Allocated (size : Z).

#[export] Instance PageState_eq_dec : EqDecision PageState.
Proof. solve_decision. Defined.

Definition is_allocated (p : PageState) : bool :=
  match p with Allocated _ => true | Free => false end.

(** ** The manager *)
Module MemoryManager.

(* src: mielin-kernel/src/memory.rs 276-293 MemoryManager *)
Record MemoryManager : Type := mk {
  pages : list PageState;
  free_blocks : list FreeBlock;
  free_list_head : Z;
  free_block_count : Z;
  single_free_head : Z;
  allocated_pages : Z;
  strategy : AllocationStrategy;
  stats : AllocationStats;
}.

Definition set_pages ps (m : MemoryManager) : MemoryManager :=
  mk ps (free_blocks m) (free_list_head m) (free_block_count m) (single_free_head m)
     (allocated_pages m) (strategy m) (stats m).
Definition set_free_blocks fb (m : MemoryManager) : MemoryManager :=
  mk (pages m) fb (free_list_head m) (free_block_count m) (single_free_head m)
     (allocated_pages m) (strategy m) (stats m).
Definition set_free_list_head h (m : MemoryManager) : MemoryManager :=
  mk (pages m) (free_blocks m) h (free_block_count m) (single_free_head m)
     (allocated_pages m) (strategy m) (stats m).
Definition set_free_block_count n (m : MemoryManager) : MemoryManager :=
  mk (pages m) (free_blocks m) (free_list_head m) n (single_free_head m)
     (allocated_pages m) (strategy m) (stats m).
Definition set_allocated_pages n (m : MemoryManager) : MemoryManager :=
  mk (pages m) (free_blocks m) (free_list_head m) (free_block_count m) (single_free_head m)
     n (strategy m) (stats m).
Definition set_stats st (m : MemoryManager) : MemoryManager :=
  mk (pages m) (free_blocks m) (free_list_head m) (free_block_count m) (single_free_head m)
     (allocated_pages m) (strategy m) st.

(* src: mielin-kernel/src/memory.rs 300-311 MemoryManager::new *)
Definition new : MemoryManager := {|
  pages := replicate (Z.to_nat MAX_PAGES) Free;
  free_blocks := replicate (Z.to_nat MAX_PAGES) (FreeBlock_new 0 0);
  free_list_head := 0;
  free_block_count := 1;
  single_free_head := 0;
  allocated_pages := 0;
  strategy := FirstFit;
  stats := AllocationStats.new;
|}.

(* src: mielin-kernel/src/memory.rs 322-328 MemoryManager::init *)
Definition init (self : MemoryManager) : outcome MemoryManager :=
  let! fb := arr_set (free_blocks self) 0 (FreeBlock_new 0 (as_u32 MAX_PAGES)) in
  Ret (mk (pages self) fb 0 1 0 (allocated_pages self) (strategy self) (stats self)).

(* src: mielin-kernel/src/memory.rs 331-333 MemoryManager::set_strategy *)
Definition set_strategy (self : MemoryManager) (s : AllocationStrategy) : MemoryManager :=
  mk (pages self) (free_blocks self) (free_list_head self) (free_block_count self)
     (single_free_head self) (allocated_pages self) s (stats self).

(* src: mielin-kernel/src/memory.rs 314-319 MemoryManager::with_strategy *)
Definition with_strategy (s : AllocationStrategy) : outcome MemoryManager :=
  let! mm := init new in
  Ret (set_strategy mm s).

(* src: mielin-kernel/src/memory.rs 725-731 MemoryManager::default *)
Definition default : outcome MemoryManager := init new.

(* src: mielin-kernel/src/memory.rs 679-681 MemoryManager::free_page_count *)
Definition free_page_count (self : MemoryManager) : outcome Z :=
  usize_sub MAX_PAGES (allocated_pages self).

(** Fuel of the loops along the free list: one unit per node and one for the
    end of the list, which has at most [MAX_PAGES] distinct indices. *)
Definition list_fuel : nat := S (Z.to_nat MAX_PAGES).
Arguments list_fuel : simpl never.

(** The loop of [find_free_block], from [current_idx] with the best block so far. *)
Fixpoint find_loop (fuel : nat) (fb : list FreeBlock) (s : AllocationStrategy)
    (count current_idx : Z) (best_idx : option Z) (best_size : Z) : outcome (option Z) :=
  match fuel with
  | O => Timeout
  | S fuel =>
    if current_idx =? INVALID_PAGE then Ret best_idx
    else
      let! block := arr_get fb current_idx in
      if count <=? page_count block then
        match s with
        | FirstFit => Ret (Some current_idx)
        | BestFit =>
          if (if best_idx is None then true else page_count block <? best_size) then
            find_loop fuel fb s count (next block) (Some current_idx) (page_count block)
          else find_loop fuel fb s count (next block) best_idx best_size
        | WorstFit =>
          if (if best_idx is None then true else best_size <? page_count block) then
            find_loop fuel fb s count (next block) (Some current_idx) (page_count block)
          else find_loop fuel fb s count (next block) best_idx best_size
        end
      else find_loop fuel fb s count (next block) best_idx best_size
  end.

(* src: mielin-kernel/src/memory.rs 431-468 MemoryManager::find_free_block *)
Definition find_free_block (self : MemoryManager) (count : Z) : outcome (option Z) :=
  find_loop list_fuel (free_blocks self) (strategy self) (as_u32 count)
    (free_list_head self) None 0.

(** The search for the block before [idx], which is then linked past it. *)
Fixpoint unlink_loop (fuel : nat) (fb : list FreeBlock) (idx prev_idx : Z)
    : outcome (list FreeBlock) :=
  match fuel with
  | O => Timeout
  | S fuel =>
    if prev_idx =? INVALID_PAGE then Ret fb
    else
      let! prev := arr_get fb prev_idx in
      if next prev =? as_u32 idx then
        let! b := arr_get fb idx in
        arr_set fb prev_idx (mkFreeBlock (start_page prev) (page_count prev) (next b))
      else unlink_loop fuel fb idx (next prev)
  end.

(* src: mielin-kernel/src/memory.rs 471-486 MemoryManager::remove_free_block *)
Definition remove_free_block (self : MemoryManager) (idx : Z) : outcome MemoryManager :=
  let! self1 :=
    (if as_u32 idx =? free_list_head self then
       let! b := arr_get (free_blocks self) idx in
       Ret (set_free_list_head (next b) self)
     else
       let! fb := unlink_loop list_fuel (free_blocks self) idx (free_list_head self) in
       Ret (set_free_blocks fb self)) in
  let! n := usize_sub (free_block_count self1) 1 in
  Ret (set_free_block_count n self1).

(** The [for] loop of [allocate_pages] that marks the pages. *)
Definition mark_allocated (ps : list PageState) (start count : Z) : outcome (list PageState) :=
  for_range 0 count (λ i ps,
    let! j := usize_add start i in
    arr_set ps j (if i =? 0 then Allocated (as_u16 count) else Allocated 0)) ps.

(** Shrinking a block from its front by [count] pages. *)
Definition shrink_block (self : MemoryManager) (block_idx count : Z) : outcome MemoryManager :=
  let! b := arr_get (free_blocks self) block_idx in
  let! s := u32_add (start_page b) (as_u32 count) in
  let! c := u32_sub (page_count b) (as_u32 count) in
  let! fb := arr_set (free_blocks self) block_idx (mkFreeBlock s c (next b)) in
  Ret (set_free_blocks fb self).

Definition fail (self : MemoryManager) (e : KernelError)
    : outcome (result Z KernelError * MemoryManager) :=
  Ret (Err e, set_stats (AllocationStats.record_failure (stats self)) self).

(* src: mielin-kernel/src/memory.rs 354-428 MemoryManager::allocate_pages *)
Definition allocate_pages (self : MemoryManager) (count : Z)
    : outcome (result Z KernelError * MemoryManager) :=
  if count =? 0 then fail self ZeroAllocation
  else if MAX_PAGES <? count then fail self (AllocationTooLarge count MAX_PAGES)
  else
    let! found := find_free_block self count in
    match found with
    | None =>
      let! available := free_page_count self in
      fail self (OutOfMemory count available)
    | Some block_idx =>
      let! block := arr_get (free_blocks self) block_idx in
      if page_count block <? as_u32 count then
        fail self (OutOfMemory count (page_count block))
      else
        let start := start_page block in
        let! ps := mark_allocated (pages self) start count in
        let self1 := set_pages ps self in
        let! self2 :=
          (if page_count block =? as_u32 count then remove_free_block self1 block_idx
           else shrink_block self1 block_idx count) in
        let! n := usize_add (allocated_pages self2) count in
        let self3 := set_allocated_pages n self2 in
        let! st := AllocationStats.record_allocation (stats self3) count in
        let! addr := usize_mul start PAGE_SIZE in
        Ret (Ok addr, set_stats st self3)
    end.

(* src: mielin-kernel/src/memory.rs 345-347 MemoryManager::allocate_page *)
Definition allocate_page (self : MemoryManager) := allocate_pages self 1.

(** The search for the insertion point of [add_free_block]: the last block that
    starts at or before [start], and the block after it. *)
Fixpoint insertion_loop (fuel : nat) (fb : list FreeBlock) (start : Z)
    (prev_idx : option Z) (current_idx : Z) : outcome (option Z * Z) :=
  match fuel with
  | O => Timeout
  | S fuel =>
    if current_idx =? INVALID_PAGE then Ret (prev_idx, current_idx)
    else
      let! b := arr_get fb current_idx in
      if start <? start_page b then Ret (prev_idx, current_idx)
      else insertion_loop fuel fb start (Some current_idx) (next b)
  end.

(** Whether slot [i] is on the free list, from [idx] on. *)
Fixpoint is_used_loop (fuel : nat) (fb : list FreeBlock) (i idx : Z) : outcome bool :=
  match fuel with
  | O => Timeout
  | S fuel =>
    if idx =? INVALID_PAGE then Ret false
    else if idx =? i then Ret true
    else
      let! b := arr_get fb idx in
      is_used_loop fuel fb i (next b)
  end.

Fixpoint slot_loop (n : nat) (i : Z) (fb : list FreeBlock) (head : Z) : outcome Z :=
  match n with
  | O => Ret 0
  | S n =>
    let! is_used := is_used_loop list_fuel fb i head in
    if is_used then slot_loop n (i + 1) fb head else Ret i
  end.

(* src: mielin-kernel/src/memory.rs 596-613 MemoryManager::find_free_block_slot *)
Definition find_free_block_slot (self : MemoryManager) : outcome Z :=
  slot_loop (Z.to_nat MAX_PAGES) 0 (free_blocks self) (free_list_head self).

(* src: mielin-kernel/src/memory.rs 565-593 MemoryManager::add_free_block *)
Definition add_free_block (self : MemoryManager) (start count : Z) : outcome MemoryManager :=
  let! (prev_idx, current_idx) :=
    insertion_loop list_fuel (free_blocks self) start None (free_list_head self) in
  let! new_idx := find_free_block_slot self in
  let! fb := arr_set (free_blocks self) new_idx (mkFreeBlock start count current_idx) in
  let! self1 :=
    match prev_idx with
    | Some prev =>
      let! p := arr_get fb prev in
      let! fb' := arr_set fb prev (mkFreeBlock (start_page p) (page_count p) (as_u32 new_idx)) in
      Ret (set_free_blocks fb' self)
    | None => Ret (set_free_list_head (as_u32 new_idx) (set_free_blocks fb self))
    end in
  let! n := usize_add (free_block_count self1) 1 in
  Ret (set_free_block_count n self1).

(** One merge of the block [next_idx] into [current_idx], with its bookkeeping. *)
Definition merge_next (self : MemoryManager) (current_idx : Z) (nxt : FreeBlock)
    : outcome MemoryManager :=
  let! c := arr_get (free_blocks self) current_idx in
  let! n := u32_add (page_count c) (page_count nxt) in
  let! fb := arr_set (free_blocks self) current_idx (mkFreeBlock (start_page c) n (next nxt)) in
  let! k := usize_sub (free_block_count self) 1 in
  Ret (set_stats (AllocationStats.record_coalesce (stats self))
        (set_free_block_count k (set_free_blocks fb self))).

Fixpoint coalesce_loop (fuel : nat) (self : MemoryManager) (current_idx : Z)
    : outcome MemoryManager :=
  match fuel with
  | O => Timeout
  | S fuel =>
    if current_idx =? INVALID_PAGE then Ret self
    else
      let! current := arr_get (free_blocks self) current_idx in
      let next_idx := next current in
      if negb (next_idx =? INVALID_PAGE) then
        let! nxt := arr_get (free_blocks self) next_idx in
        let! e := u32_add (start_page current) (page_count current) in
        if e =? start_page nxt then
          let! self' := merge_next self current_idx nxt in
          coalesce_loop fuel self' current_idx
        else coalesce_loop fuel self next_idx
      else coalesce_loop fuel self next_idx
  end.

(** The argument [start] only silences a warning in the source. *)
(* src: mielin-kernel/src/memory.rs 616-644 MemoryManager::coalesce_adjacent *)
Definition coalesce_adjacent (self : MemoryManager) (start : Z) : outcome MemoryManager :=
  coalesce_loop list_fuel self (free_list_head self).

(** The loop of [defragment] reads the link first and the two blocks only when
    there is a next one, and follows the link as it is after the tests. *)
Fixpoint defragment_loop (fuel : nat) (self : MemoryManager) (current_idx : Z)
    : outcome MemoryManager :=
  match fuel with
  | O => Timeout
  | S fuel =>
    if current_idx =? INVALID_PAGE then Ret self
    else
      let! b := arr_get (free_blocks self) current_idx in
      let next_idx := next b in
      let! merged :=
        (if negb (next_idx =? INVALID_PAGE) then
           let! current := arr_get (free_blocks self) current_idx in
           let! nxt := arr_get (free_blocks self) next_idx in
           let! e := u32_add (start_page current) (page_count current) in
           if e =? start_page nxt then
             let! self' := merge_next self current_idx nxt in Ret (Some self')
           else Ret None
         else Ret None) in
      match merged with
      | Some self' => defragment_loop fuel self' current_idx
      | None =>
        let! b' := arr_get (free_blocks self) current_idx in
        defragment_loop fuel self (next b')
      end
  end.

(* src: mielin-kernel/src/memory.rs 647-671 MemoryManager::defragment *)
Definition defragment (self : MemoryManager) : outcome (Z * MemoryManager) :=
  let initial_blocks := free_block_count self in
  let! self' := defragment_loop list_fuel self (free_list_head self) in
  let! n := usize_sub initial_blocks (free_block_count self') in
  Ret (n, self').

(** The loop of [free_pages] that looks for a page that is not allocated, and
    returns its index. *)
Fixpoint first_free (n : nat) (ps : list PageState) (j : Z) : outcome (option Z) :=
  match n with
  | O => Ret None
  | S n =>
    let! p := arr_get ps j in
    match p with
    | Allocated _ => first_free n ps (j + 1)
    | Free => Ret (Some j)
    end
  end.

Definition mark_free (ps : list PageState) (start count : Z) : outcome (list PageState) :=
  for_range 0 count (λ i ps, let! j := usize_add start i in arr_set ps j Free) ps.

(* src: mielin-kernel/src/memory.rs 504-562 MemoryManager::free_pages *)
Definition free_pages (self : MemoryManager) (addr count : Z)
    : outcome (result unit KernelError * MemoryManager) :=
  if count =? 0 then Ret (Err InvalidPageCount, self)
  else
    let! start := usize_div addr PAGE_SIZE in
    let! max_valid_address := usize_mul MAX_PAGES PAGE_SIZE in
    if max_valid_address <=? addr then
      let! m := usize_sub max_valid_address PAGE_SIZE in
      Ret (Err (AddressOutOfBounds addr m), self)
    else if MAX_PAGES <=? start then
      let! m := usize_sub MAX_PAGES 1 in
      Ret (Err (PageIndexOutOfBounds start m), self)
    else
      let! last := usize_add start count in
      if MAX_PAGES <? last then
        let! m := usize_sub MAX_PAGES start in
        Ret (Err (AllocationTooLarge count m), self)
      else
        let! bad := first_free (Z.to_nat count) (pages self) start in
        match bad with
        | Some j =>
          let! a := usize_mul j PAGE_SIZE in
          Ret (Err (DoubleFree a), self)
        | None =>
          let! ps := mark_free (pages self) start count in
          let! self1 := add_free_block (set_pages ps self) (as_u32 start) (as_u32 count) in
          let! self2 := coalesce_adjacent self1 (as_u32 start) in
          let! n := usize_sub (allocated_pages self2) count in
          let self3 := set_allocated_pages n self2 in
          Ret (Ok tt, set_stats (AllocationStats.record_deallocation (stats self3) count) self3)
        end.

(* src: mielin-kernel/src/memory.rs 489-491 MemoryManager::free_page *)
Definition free_page (self : MemoryManager) (addr : Z) := free_pages self addr 1.

Fixpoint largest_loop (fuel : nat) (fb : list FreeBlock) (largest current_idx : Z) : outcome Z :=
  match fuel with
  | O => Timeout
  | S fuel =>
    if current_idx =? INVALID_PAGE then Ret largest
    else
      let! b := arr_get fb current_idx in
      largest_loop fuel fb (if largest <? page_count b then page_count b else largest) (next b)
  end.

(* src: mielin-kernel/src/memory.rs 689-702 MemoryManager::largest_free_block *)
Definition largest_free_block (self : MemoryManager) : outcome Z :=
  largest_loop list_fuel (free_blocks self) 0 (free_list_head self).

End MemoryManager.
Import MemoryManager.

(** ** The global manager

    [MEMORY_MANAGER: Mutex<Option<MemoryManager>>]; the lock makes every call
    one atomic step on the optional manager. *)
Module Global.

Definition state : Type := option MemoryManager.

(* src: mielin-kernel/src/memory.rs 753-759 init *)
Definition init (g : state) : outcome (result unit KernelError * state) :=
  let! mm := MemoryManager.init MemoryManager.new in
  Ret (Ok tt, Some mm).

(* src: mielin-kernel/src/memory.rs 767-773 allocate_page *)
Definition allocate_page (g : state) : outcome (result Z KernelError * state) :=
  with_global MemoryNotInitialized g MemoryManager.allocate_page.

(* src: mielin-kernel/src/memory.rs 781-787 allocate_pages *)
Definition allocate_pages (g : state) (count : Z) : outcome (result Z KernelError * state) :=
  with_global MemoryNotInitialized g (λ mm, MemoryManager.allocate_pages mm count).

(* src: mielin-kernel/src/memory.rs 795-801 free_page *)
Definition free_page (g : state) (addr : Z) : outcome (result unit KernelError * state) :=
  with_global MemoryNotInitialized g (λ mm, MemoryManager.free_page mm addr).

(* src: mielin-kernel/src/memory.rs 809-815 free_pages *)
Definition free_pages (g : state) (addr count : Z) : outcome (result unit KernelError * state) :=
  with_global MemoryNotInitialized g (λ mm, MemoryManager.free_pages mm addr count).

(* src: mielin-kernel/src/memory.rs 824-827 defragment *)
Definition defragment (g : state) : outcome (option Z * state) :=
  match g with
  | None => Ret (None, None)
  | Some mm => let! (n, mm') := MemoryManager.defragment mm in Ret (Some n, Some mm')
  end.

(* src: mielin-kernel/src/memory.rs 830-835 set_strategy *)
Definition set_strategy (g : state) (s : AllocationStrategy) : state :=
  match g with
  | None => None
  | Some mm => Some (MemoryManager.set_strategy mm s)
  end.

End Global.
