(* ===== verification/MemoryFreeList.v ===== *)
(** * The linked free list of the page allocator

    [flist fb h l] reads the list that starts at index [h] inside the array
    [fb] as the sequence [l] of its nodes (index, start page, page count).  The
    loops of memory.rs are shown to compute functions of [l]; their fuel is
    enough because the indices on the list are distinct. *)

From stdpp Require Import base tactics option list numbers sets.
From S2P Require Import Prelude Errors Memory.
Import MemoryManager.

Abbreviation node := (Z * (Z * Z))%type.
Definition nodes_idx (l : list node) : list Z := fst <$> l.

Fixpoint flist (fb : list FreeBlock) (h : Z) (l : list node) : Prop :=
  match l with
  | [] => h = INVALID_PAGE
  | (i, (s, c)) :: l' =>
    h = i ∧ 0 <= i < MAX_PAGES ∧
    ∃ n, fb !! Z.to_nat i = Some (mkFreeBlock s c n) ∧ flist fb n l'
  end.

Ltac mlia := unfold MAX_PAGES, INVALID_PAGE, PAGE_SIZE in *; lia.

Section flist.
Implicit Types (fb : list FreeBlock) (l : list node).

Lemma flist_det fb h l1 l2 : flist fb h l1 → flist fb h l2 → l1 = l2.
Proof.
  revert h l2. induction l1 as [|[i [s c]] l1 IH]; intros h [|[j [s' c']] l2]; simpl.
  - done.
  - intros -> (Hj & ? & _). mlia.
  - intros (-> & ? & _) Hj. mlia.
  - intros (-> & ? & n & Hn & H1) (Hj & ? & n' & Hn' & H2). subst j.
    rewrite Hn in Hn'. simplify_eq. f_equal. eauto.
Qed.

Lemma flist_suffix fb h l1 l2 :
  flist fb h (l1 ++ l2) → ∃ h', flist fb h' l2.
Proof.
  revert h. induction l1 as [|[i [s c]] l1 IH]; intros h; simpl; [eauto|].
  intros (_ & _ & n & _ & H). eauto.
Qed.

Lemma flist_head fb h n l : flist fb h (n :: l) → h = n.1.
Proof. destruct n as [i [s c]]. by intros (-> & _). Qed.

Lemma flist_NoDup fb h l : flist fb h l → NoDup (nodes_idx l).
Proof.
  revert h. induction l as [|[i [s c]] l IH]; intros h; [constructor|].
  intros Hl. pose proof Hl as (-> & Hi & n & Hn & Hl').
  constructor; [|by eapply IH].
  intros ([j x] & Hj & Hin)%list_elem_of_fmap. simpl in Hj. subst j.
  apply list_elem_of_split in Hin as (l1 & l2 & ->).
  destruct (flist_suffix _ _ _ _ Hl') as [h' Hs].
  pose proof (flist_head _ _ _ _ Hs) as Hh. simpl in Hh. subst h'.
  pose proof (flist_det _ _ _ _ Hs Hl) as Heq.
  apply (f_equal length) in Heq. simpl in Heq. rewrite length_app in Heq. simpl in Heq. lia.
Qed.

Lemma flist_idx_range fb h l i : flist fb h l → i ∈ nodes_idx l → 0 <= i < MAX_PAGES.
Proof.
  revert h. induction l as [|[j [s c]] l IH]; intros h; simpl; [set_solver|].
  intros (-> & Hj & n & _ & Hl) [->|Hin]%elem_of_cons; [done|]. eauto.
Qed.

Lemma flist_length fb h l : flist fb h l → (length l ≤ Z.to_nat MAX_PAGES)%nat.
Proof.
  intros Hl. rewrite <-(length_fmap fst l).
  rewrite <-(length_seqZ 0 MAX_PAGES). apply submseteq_length.
  apply NoDup_submseteq; [by eapply flist_NoDup|].
  intros i Hi. apply elem_of_seqZ. pose proof (flist_idx_range _ _ _ _ Hl Hi). lia.
Qed.

Lemma flist_fuel fb h l : flist fb h l → (length l < list_fuel)%nat.
Proof. intros ?%flist_length. unfold list_fuel. lia. Qed.

Lemma flist_frame fb h l i b :
  0 <= i → i ∉ nodes_idx l → flist fb h l → flist (<[Z.to_nat i := b]> fb) h l.
Proof.
  intros Hi0. revert h. induction l as [|[j [s c]] l IH]; intros h Hi; simpl; [done|].
  intros (-> & Hj & n & Hn & Hl). split_and!; [done|lia|lia|]. exists n.
  unfold nodes_idx in Hi. simpl in Hi. apply not_elem_of_cons in Hi as [? ?].
  split; [|by apply IH]. by rewrite lookup_upd_ne by lia.
Qed.

(** Overwriting the node at [i] so that the list goes on with [l']. *)
Lemma flist_update fb h l1 i x l2 s' c' n' l' :
  length fb = Z.to_nat MAX_PAGES →
  flist fb h (l1 ++ (i, x) :: l2) →
  i ∉ nodes_idx l' → flist fb n' l' →
  flist (<[Z.to_nat i := mkFreeBlock s' c' n']> fb) h (l1 ++ (i, (s', c')) :: l').
Proof.
  intros Hlen Hl Hi Hl'.
  pose proof (flist_NoDup _ _ _ Hl) as Hnd.
  revert h Hl Hnd. induction l1 as [|[j [s c]] l1 IH]; intros h Hl Hnd; simpl in *.
  - destruct x as [s c]. destruct Hl as (-> & Hr & n & _ & _).
    split_and!; [done|lia|lia|]. exists n'.
    split; [|apply flist_frame; [lia|done..]].
    apply lookup_upd_eq. lia.
  - destruct Hl as (-> & Hr & n & Hn & Hl).
    unfold nodes_idx in Hnd. simpl in Hnd. apply NoDup_cons in Hnd as [Hnin Hnd].
    rewrite fmap_app, fmap_cons, elem_of_app, elem_of_cons in Hnin. simpl in Hnin.
    assert (0 <= i < MAX_PAGES).
    { eapply flist_idx_range; [exact Hl|]. unfold nodes_idx.
      rewrite fmap_app, fmap_cons. set_solver. }
    split_and!; [done|lia|lia|]. exists n. split; [|by apply IH].
    rewrite lookup_upd_ne; [done|lia|lia|]. intros ->. tauto.
Qed.

Lemma flist_lookup fb h l1 i s c l2 :
  flist fb h (l1 ++ (i, (s, c)) :: l2) →
  0 <= i < MAX_PAGES ∧
  ∃ n, fb !! Z.to_nat i = Some (mkFreeBlock s c n) ∧ flist fb n l2.
Proof.
  revert h. induction l1 as [|[j [s' c']] l1 IH]; intros h; simpl.
  - intros (-> & ? & n & ? & ?). eauto.
  - intros (_ & _ & n & _ & Hl). eauto.
Qed.

Lemma flist_tail fb h l1 i s c l2 :
  flist fb h (l1 ++ (i, (s, c)) :: l2) → flist fb i ((i, (s, c)) :: l2).
Proof. intros H. destruct (flist_lookup _ _ _ _ _ _ _ H) as (? & n & ? & ?). simpl. eauto. Qed.

Lemma flist_not_in_suffix fb h l1 i x l2 :
  flist fb h (l1 ++ (i, x) :: l2) → i ∉ nodes_idx l2.
Proof.
  intros ?%flist_NoDup. unfold nodes_idx in *. rewrite fmap_app in H.
  apply NoDup_app in H as (_ & _ & H). by apply NoDup_cons in H as [? _].
Qed.

(** The head index occurs at the head only. *)
Lemma flist_head_first fb i l1 x l2 : flist fb i (l1 ++ (i, x) :: l2) → l1 = [].
Proof.
  destruct x as [s c]. intros Hl. pose proof (flist_tail _ _ _ _ _ _ _ Hl) as Ht.
  pose proof (flist_det _ _ _ _ Hl Ht) as Heq. apply (f_equal length) in Heq.
  rewrite length_app in Heq. destruct l1; [done|simpl in Heq; lia].
Qed.

Lemma flist_not_in_prefix fb h l1 i x l2 :
  flist fb h (l1 ++ (i, x) :: l2) → i ∉ nodes_idx l1.
Proof.
  intros ?%flist_NoDup. unfold nodes_idx in *. rewrite fmap_app in H.
  apply NoDup_app in H as (_ & H & _). intros Hi. apply (H i Hi). set_solver.
Qed.
End flist.

(** ** The loops compute functions of the node sequence *)

(** What [find_free_block] returns, on the sequence of nodes. *)
Fixpoint fit (s : AllocationStrategy) (count : Z) (l : list node)
    (best : option Z) (best_size : Z) : option Z :=
  match l with
  | [] => best
  | (i, (_, c)) :: l' =>
    if count <=? c then
      match s with
      | FirstFit => Some i
      | BestFit =>
        if (if best is None then true else c <? best_size) then fit s count l' (Some i) c
        else fit s count l' best best_size
      | WorstFit =>
        if (if best is None then true else best_size <? c) then fit s count l' (Some i) c
        else fit s count l' best best_size
      end
    else fit s count l' best best_size
  end.

(** Merging each block with the following ones that start where it ends. *)
Fixpoint merge_from (n : node) (l : list node) : list node :=
  match l with
  | [] => [n]
  | (j, (s', c')) :: l' =>
    let '(i, (s, c)) := n in
    if s + c =? s' then merge_from (i, (s, c + c')) l'
    else n :: merge_from (j, (s', c')) l'
  end.
Definition merge (l : list node) : list node :=
  match l with [] => [] | n :: l' => merge_from n l' end.

(** The position at which a block starting at [start] is inserted. *)
Fixpoint split_at (start : Z) (l : list node) : list node * list node :=
  match l with
  | [] => ([], [])
  | (i, (s, c)) :: l' =>
    if start <? s then ([], l)
    else let '(l1, l2) := split_at start l' in ((i, (s, c)) :: l1, l2)
  end.

Lemma split_at_app start l : (split_at start l).1 ++ (split_at start l).2 = l.
Proof.
  induction l as [|[i [s c]] l IH]; simpl; [done|]. case_bool; simpl; [done|].
  destruct (split_at start l). simpl in *. by rewrite IH.
Qed.

(** Peeling one node off: the test for the end of the list, the array access. *)
Ltac flist_step Hl :=
  destruct Hl as (-> & ? & ? & ? & ?);
  rewrite (proj2 (Z.eqb_neq _ INVALID_PAGE)) by mlia;
  erewrite arr_get_ok by (eassumption || mlia); simpl.

Lemma find_loop_fit fuel fb s count h l best bsz :
  flist fb h l → (length l < fuel)%nat →
  find_loop fuel fb s count h best bsz = Ret (fit s count l best bsz).
Proof.
  revert h best bsz fuel. induction l as [|[i [st c]] l IH];
    intros h best bsz [|fuel] Hl Hf; simpl in *; try lia.
  - by rewrite Hl.
  - flist_step Hl. destruct (count <=? c), s; try done; try (apply IH; [done|lia]).
    all: destruct best; [case_bool|]; apply IH; (done || lia).
Qed.

Lemma find_free_block_fit mm count l :
  flist (free_blocks mm) (free_list_head mm) l → 0 <= count <= MAX_PAGES →
  find_free_block mm count = Ret (fit (strategy mm) count l None 0).
Proof.
  intros Hl Hc. unfold find_free_block. rewrite as_u32_small by mlia.
  apply find_loop_fit; [done|]. by eapply flist_fuel.
Qed.

Lemma unlink_loop_spec fuel fb h l1 p s c i y l2 :
  length fb = Z.to_nat MAX_PAGES →
  flist fb h (l1 ++ (p, (s, c)) :: (i, y) :: l2) →
  (length l1 < fuel)%nat →
  ∃ n, flist fb n l2 ∧
    unlink_loop fuel fb i h = Ret (<[Z.to_nat p := mkFreeBlock s c n]> fb).
Proof.
  intros Hlen. revert h fuel. induction l1 as [|[j [s' c']] l1 IH];
    intros h [|fuel] Hl Hf; simpl in *; try lia.
  - pose proof Hl as (_ & _ & m & Hm & Hl2). flist_step Hl.
    destruct y as [s2 c2]. pose proof Hl2 as (-> & Hi & n & Hn & Hl2').
    rewrite as_u32_small by mlia.
    match goal with H : fb !! Z.to_nat p = Some _ |- _ => rewrite H in Hm end.
    simplify_eq. rewrite Z.eqb_refl.
    rewrite (arr_get_ok _ _ _ (proj1 Hi) Hn). simpl.
    rewrite arr_set_ok by (rewrite Hlen; lia). eauto.
  - pose proof Hl as Hl0. flist_step Hl. rewrite as_u32_small.
    + rewrite (proj2 (Z.eqb_neq _ _)); [by apply IH; [|lia]|].
      intros Heq. cbn in Heq. subst.
      match goal with H : flist fb _ (l1 ++ _) |- _ =>
        rewrite (cons_middle _ l1), app_assoc in H; apply flist_head_first in H as Hnil end.
      by destruct l1.
    + assert (0 <= i < MAX_PAGES); [|mlia].
      eapply (flist_idx_range fb); [eassumption|].
      unfold nodes_idx. rewrite fmap_app, !fmap_cons. set_solver.
Qed.

#[global] Opaque list_fuel.

(** The manager with its list replaced. *)
Definition with_list (fb : list FreeBlock) (h n : Z) (mm : MemoryManager) : MemoryManager :=
  mk (pages mm) fb h n (single_free_head mm) (allocated_pages mm) (strategy mm) (stats mm).

Lemma remove_free_block_spec mm l1 i y l2 :
  length (free_blocks mm) = Z.to_nat MAX_PAGES →
  flist (free_blocks mm) (free_list_head mm) (l1 ++ (i, y) :: l2) →
  1 <= free_block_count mm <= MAX_PAGES →
  ∃ fb h, remove_free_block mm i = Ret (with_list fb h (free_block_count mm - 1) mm) ∧
    length fb = Z.to_nat MAX_PAGES ∧ flist fb h (l1 ++ l2).
Proof.
  intros Hlen Hl Hn. unfold remove_free_block. destruct y as [s c].
  destruct (flist_lookup _ _ _ _ _ _ _ Hl) as (Hi & n & Hn' & Hl2).
  rewrite as_u32_small by mlia.
  destruct l1 as [|n1 l1' _] using rev_ind.
  - destruct Hl as (Hh & _). rewrite Hh, Z.eqb_refl.
    rewrite (arr_get_ok _ _ _ (proj1 Hi) Hn'). simpl.
    rewrite usize_sub_ok by mlia. simpl. eauto 10.
  - destruct n1 as [p [sp cp]]. rewrite <-app_assoc in Hl. simpl in Hl.
    rewrite (proj2 (Z.eqb_neq _ _)).
    2:{ intros Heq. rewrite <-Heq, (cons_middle _ l1'), app_assoc in Hl.
        apply flist_head_first in Hl. by destruct l1'. }
    destruct (unlink_loop_spec list_fuel _ _ l1' p sp cp i (s, c) l2 Hlen Hl) as (m & Hm & ->).
    { apply flist_fuel in Hl. rewrite length_app in Hl. lia. }
    simpl. rewrite usize_sub_ok by mlia. simpl.
    exists (<[Z.to_nat p := mkFreeBlock sp cp m]> (free_blocks mm)), (free_list_head mm).
    split; [done|]. rewrite length_insert. split; [done|]. rewrite <-app_assoc. simpl.
    eapply flist_update; try done.
    pose proof (flist_not_in_suffix _ _ _ _ _ _ Hl). set_solver.
Qed.

Lemma insertion_loop_spec fuel fb start prev h l :
  flist fb h l → (length l < fuel)%nat →
  ∃ h2, flist fb h2 (split_at start l).2 ∧
    insertion_loop fuel fb start prev h =
      Ret (match last (split_at start l).1 with Some n => Some n.1 | None => prev end, h2).
Proof.
  revert h prev fuel. induction l as [|[i [s c]] l IH]; intros h prev [|fuel] Hl Hf;
    simpl in *; try lia.
  - rewrite Hl. simpl. eauto.
  - pose proof Hl as Hl0. flist_step Hl.
    destruct (Z.ltb_spec start s); simpl.
    + exists i. split; [by simpl|done].
    + edestruct (IH _ (Some i) fuel ltac:(eassumption) ltac:(lia)) as (h2 & Hh2 & ->).
      destruct (split_at start l) as [l1 l2]. simpl in *.
      exists h2. split; [done|]. destruct l1 as [|n1 l1]; simpl; [done|].
      by destruct (last (n1 :: l1)) eqn:E; [|apply last_None in E].
Qed.

Lemma is_used_loop_spec fuel fb i h l :
  flist fb h l → (length l < fuel)%nat →
  is_used_loop fuel fb i h = Ret (bool_decide (i ∈ nodes_idx l)).
Proof.
  revert h fuel. induction l as [|[j [s c]] l IH]; intros h fuel Hl Hf;
    (destruct fuel as [|fuel]; [simpl in Hf; lia|]); simpl in Hl, Hf; cbn [is_used_loop].
  - by rewrite Hl, Z.eqb_refl, bool_decide_eq_false_2 by set_solver.
  - destruct Hl as (-> & ? & n & Hn & Hl).
    rewrite (proj2 (Z.eqb_neq _ INVALID_PAGE)) by mlia.
    destruct (Z.eqb_spec j i) as [->|Hne].
    + by rewrite bool_decide_eq_true_2 by set_solver.
    + erewrite arr_get_ok by (eassumption || mlia). cbn [obind next].
      rewrite (IH _ fuel Hl) by lia. f_equal. apply bool_decide_ext. set_solver.
Qed.

Lemma slot_loop_spec fb h l n i :
  flist fb h l → (∃ k, i <= k < i + Z.of_nat n ∧ k ∉ nodes_idx l) →
  ∃ k, slot_loop n i fb h = Ret k ∧ i <= k < i + Z.of_nat n ∧ k ∉ nodes_idx l.
Proof.
  intros Hl. revert i. induction n as [|n IH]; intros i (k & Hk & Hnin); [lia|].
  cbn [slot_loop]. rewrite (is_used_loop_spec _ _ _ _ _ Hl (flist_fuel _ _ _ Hl)).
  cbn [obind].
  case_bool_decide as Hin.
  - destruct (IH (i + 1)) as (k' & -> & ? & ?).
    { exists k. split; [|done]. assert (k ≠ i) by congruence. lia. }
    exists k'. split_and!; [done|lia|lia|done].
  - exists i. split_and!; [done|lia|lia|done].
Qed.

(** A list that does not use every slot leaves one to be found. *)
Lemma find_free_block_slot_spec mm l :
  flist (free_blocks mm) (free_list_head mm) l →
  (length l < Z.to_nat MAX_PAGES)%nat →
  ∃ k, find_free_block_slot mm = Ret k ∧ 0 <= k < MAX_PAGES ∧ k ∉ nodes_idx l.
Proof.
  intros Hl Hlt. unfold find_free_block_slot.
  destruct (slot_loop_spec _ _ l (Z.to_nat MAX_PAGES) 0 Hl) as (k & -> & ? & ?).
  - destruct (decide (Forall (λ k, k ∈ nodes_idx l) (seqZ 0 MAX_PAGES))) as [Hall|Hex].
    + exfalso. assert (length (seqZ 0 MAX_PAGES) ≤ length (nodes_idx l))%nat as Hle.
      { apply submseteq_length, NoDup_submseteq; [apply NoDup_seqZ|].
        intros k Hk. by eapply Forall_forall in Hall. }
      rewrite length_seqZ in Hle. unfold nodes_idx in Hle. rewrite length_fmap in Hle. lia.
    + apply not_Forall_Exists in Hex; [|apply _].
      apply Exists_exists in Hex as (k & Hk%elem_of_seqZ & Hnin). exists k. split; [lia|done].
  - exists k. split_and!; [done|lia|mlia|done].
Qed.

(** [add_free_block] inserts the new block after those that start before it. *)
Lemma add_free_block_spec mm l start count :
  length (free_blocks mm) = Z.to_nat MAX_PAGES →
  flist (free_blocks mm) (free_list_head mm) l →
  (length l < Z.to_nat MAX_PAGES)%nat →
  0 <= free_block_count mm <= MAX_PAGES →
  ∃ fb h k, add_free_block mm start count = Ret (with_list fb h (free_block_count mm + 1) mm) ∧
    length fb = Z.to_nat MAX_PAGES ∧
    flist fb h ((split_at start l).1 ++ (k, (start, count)) :: (split_at start l).2).
Proof.
  intros Hlen Hl Hlt Hn. unfold add_free_block.
  destruct (insertion_loop_spec list_fuel _ start None _ _ Hl (flist_fuel _ _ _ Hl))
    as (h2 & Hh2 & ->).
  destruct (find_free_block_slot_spec _ _ Hl Hlt) as (k & Hk & Hkr & Hknin).
  cbn [obind]. rewrite Hk. cbn [obind].
  rewrite arr_set_ok by (rewrite Hlen; mlia). cbn [obind].
  pose proof (split_at_app start l) as Happ.
  destruct (split_at start l) as [l1 l2]. simpl in Happ, Hh2 |- *. subst l.
  unfold nodes_idx in Hknin. rewrite fmap_app, elem_of_app in Hknin.
  set (fb1 := <[Z.to_nat k := mkFreeBlock start count h2]> (free_blocks mm)).
  assert (length fb1 = Z.to_nat MAX_PAGES) as Hlen1 by (unfold fb1; by rewrite length_insert).
  assert (flist fb1 k ((k, (start, count)) :: l2)) as Hk2.
  { simpl. split_and!; [done|lia|lia|]. exists h2. split.
    - apply lookup_upd_eq. rewrite Hlen. mlia.
    - apply flist_frame; [lia|tauto|done]. }
  rewrite as_u32_small by mlia.
  destruct l1 as [|[p [sp cp]] l1 _] using rev_ind.
  - simpl. rewrite usize_add_ok by mlia. cbn [obind].
    exists fb1, k, k. split; [done|]. split; [done|exact Hk2].
  - rewrite last_snoc. cbn [fst].
    assert (flist fb1 (free_list_head mm) ((l1 ++ [(p, (sp, cp))]) ++ l2)) as Hf1.
    { apply flist_frame; [lia| |done]. unfold nodes_idx. rewrite fmap_app, elem_of_app. tauto. }
    rewrite <-app_assoc in Hf1. simpl in Hf1.
    destruct (flist_lookup _ _ _ _ _ _ _ Hf1) as (Hp & np & Hnp & _).
    rewrite (arr_get_ok _ _ _ (proj1 Hp) Hnp). cbn [obind].
    rewrite arr_set_ok by (rewrite Hlen1; mlia). cbn [obind start_page page_count].
    simpl. rewrite usize_add_ok by mlia. cbn [obind].
    exists (<[Z.to_nat p := mkFreeBlock sp cp k]> fb1), (free_list_head mm), k.
    split; [done|]. rewrite length_insert. split; [done|]. rewrite <-app_assoc. simpl.
    eapply flist_update; try done.
    unfold nodes_idx. rewrite fmap_cons. apply not_elem_of_cons. split.
    + intros ->. apply Hknin. left. rewrite fmap_app. set_solver.
    + by eapply flist_not_in_suffix.
Qed.

(** ** Coalescing *)

(** Blocks within the array of pages, so that their ends do not overflow. *)
Definition node_ok (n : node) : Prop := 0 <= n.2.1 ∧ 0 < n.2.2 ∧ n.2.1 + n.2.2 <= MAX_PAGES.

(** The manager after [k] merges that left the array [fb]. *)
Definition coalesced (fb : list FreeBlock) (k : nat) (mm : MemoryManager) : MemoryManager :=
  mk (pages mm) fb (free_list_head mm) (free_block_count mm - Z.of_nat k) (single_free_head mm)
     (allocated_pages mm) (strategy mm) (Nat.iter k AllocationStats.record_coalesce (stats mm)).

Lemma coalesced_step fb fb' k mm :
  coalesced fb' k (coalesced fb 1 mm) = coalesced fb' (S k) mm.
Proof.
  unfold coalesced. simpl. f_equal; [lia|].
  induction k as [|k IH]; simpl; [done|]. by rewrite IH.
Qed.

Lemma coalesce_loop_spec fuel mm l1 i s c l :
  length (free_blocks mm) = Z.to_nat MAX_PAGES →
  flist (free_blocks mm) (free_list_head mm) (l1 ++ (i, (s, c)) :: l) →
  Forall node_ok ((i, (s, c)) :: l) →
  Z.of_nat (length l) <= free_block_count mm <= MAX_PAGES →
  (S (length l) < fuel)%nat →
  ∃ fb k, coalesce_loop fuel mm i = Ret (coalesced fb k mm) ∧
    length fb = Z.to_nat MAX_PAGES ∧
    flist fb (free_list_head mm) (l1 ++ merge_from (i, (s, c)) l) ∧
    (k + length (merge_from (i, (s, c)) l) = S (length l))%nat.
Proof.
  revert fuel mm l1 i s c. induction l as [|[j [s' c']] l IH];
    intros [|fuel] mm l1 i s c Hlen Hl Hok Hn Hf; try (simpl in Hf; lia);
    destruct (flist_lookup _ _ _ _ _ _ _ Hl) as (Hi & n & Hgi & Hl2); cbn [coalesce_loop];
    rewrite (proj2 (Z.eqb_neq _ INVALID_PAGE)) by mlia;
    rewrite (arr_get_ok _ _ _ (proj1 Hi) Hgi); cbn [obind next start_page page_count].
  - simpl in Hl2. subst n. rewrite Z.eqb_refl. simpl.
    destruct fuel; [simpl in Hf; lia|]. simpl.
    exists (free_blocks mm), 0%nat. split_and!; try done.
    destruct mm. unfold coalesced. simpl. do 2 f_equal. lia.
  - apply Forall_cons in Hok as [Hoki [Hokj Hok]%Forall_cons].
    unfold node_ok in Hoki, Hokj. simpl in Hoki, Hokj, Hn, Hf.
    pose proof Hl2 as (-> & Hj & m & Hgj & Hl3).
    rewrite (proj2 (Z.eqb_neq _ INVALID_PAGE)) by mlia. cbn [negb].
    rewrite (arr_get_ok _ _ _ (proj1 Hj) Hgj). cbn [obind].
    rewrite u32_add_ok by mlia. cbn [obind start_page page_count merge_from].
    destruct (Z.eqb_spec (s + c) s') as [Heq|Hne].
    + unfold merge_next. rewrite (arr_get_ok _ _ _ (proj1 Hi) Hgi). cbn [obind page_count start_page next].
      rewrite u32_add_ok by mlia. cbn [obind].
      rewrite arr_set_ok by (rewrite Hlen; mlia). cbn [obind].
      rewrite usize_sub_ok by mlia. cbn [obind].
      set (fb1 := <[Z.to_nat i := mkFreeBlock s (c + c') m]> (free_blocks mm)).
      change (set_stats _ _) with (coalesced fb1 1 mm).
      destruct (IH fuel (coalesced fb1 1 mm) l1 i s (c + c')) as (fb & k & -> & ? & ? & ?).
      * unfold coalesced, fb1. simpl. by rewrite length_insert.
      * unfold coalesced, fb1. simpl. eapply flist_update; try done.
        pose proof (flist_not_in_suffix _ _ _ _ _ _ Hl). set_solver.
      * constructor; [|done]. unfold node_ok. simpl. mlia.
      * unfold coalesced. simpl. mlia.
      * lia.
      * exists fb, (S k). rewrite coalesced_step. split_and!; try done. simpl. lia.
    + destruct (IH fuel mm (l1 ++ [(i, (s, c))]) j s' c') as (fb & k & -> & ? & Hfl & ?);
        try done; try lia.
      * rewrite <-app_assoc. done.
      * by constructor.
      * exists fb, k. split_and!; try done.
        -- rewrite <-app_assoc in Hfl. done.
        -- simpl. lia.
Qed.

Lemma coalesce_spec fuel mm l :
  length (free_blocks mm) = Z.to_nat MAX_PAGES →
  flist (free_blocks mm) (free_list_head mm) l →
  Forall node_ok l →
  free_block_count mm = Z.of_nat (length l) →
  (length l < fuel)%nat →
  ∃ fb k, coalesce_loop fuel mm (free_list_head mm) = Ret (coalesced fb k mm) ∧
    length fb = Z.to_nat MAX_PAGES ∧ flist fb (free_list_head mm) (merge l) ∧
    (k + length (merge l) = length l)%nat.
Proof.
  intros Hlen Hl Hok Hn Hf. pose proof (flist_length _ _ _ Hl) as Hle.
  destruct l as [|[i [s c]] l].
  - simpl in Hl. destruct fuel as [|fuel]; [simpl in Hf; lia|].
    cbn [coalesce_loop]. rewrite Hl, Z.eqb_refl.
    exists (free_blocks mm), 0%nat. split; [|done].
    destruct mm. unfold coalesced. simpl in *. do 2 f_equal. lia.
  - assert (free_list_head mm = i) as Hh by (by apply flist_head in Hl).
    simpl in Hle, Hn, Hf. rewrite Hh.
    destruct (coalesce_loop_spec fuel mm [] i s c l) as (fb & k & ? & ? & Hfl & ?); try done; try lia.
    rewrite Hh in Hfl. eauto 10.
Qed.

(** The two loops agree. *)
Lemma defragment_loop_coalesce fuel mm i : defragment_loop fuel mm i = coalesce_loop fuel mm i.
Proof.
  revert mm i. induction fuel as [|fuel IH]; intros mm i; [done|].
  cbn [defragment_loop coalesce_loop]. destruct (i =? INVALID_PAGE); [done|].
  destruct (arr_get (free_blocks mm) i) as [b| |] eqn:Hb; cbn [obind]; try done.
  destruct (negb (next b =? INVALID_PAGE)); cbn [obind]; [|by rewrite ?Hb, IH].
  destruct (arr_get (free_blocks mm) (next b)) as [nb| |]; cbn [obind]; try done.
  destruct (u32_add (start_page b) (page_count b)) as [e| |]; cbn [obind]; try done.
  destruct (e =? start_page nb); cbn [obind]; [|apply IH].
  destruct (merge_next mm i nb); cbn [obind]; [apply IH|done|done].
Qed.

Lemma largest_loop_spec fuel fb h l m :
  flist fb h l → (length l < fuel)%nat →
  largest_loop fuel fb m h = Ret (fold_left (λ m n, Z.max m n.2.2) l m).
Proof.
  revert h m fuel. induction l as [|[i [s c]] l IH]; intros h m [|fuel] Hl Hf; simpl in *; try lia.
  - by rewrite Hl.
  - flist_step Hl. rewrite (IH _ _ fuel); [|done|lia]. f_equal. f_equal.
    case_bool; lia.
Qed.

(** * Runs of free pages *)

Import MemoryManager.

Fixpoint sep_runs (gap lo : Z) (l : list node) : Prop :=
  match l with
  | [] => True
  | (_, (s, c)) :: l' => lo <= s ∧ 0 < c ∧ s + c <= MAX_PAGES ∧ sep_runs gap (s + c + gap) l'
  end.
Abbreviation sruns := (sep_runs 1).
Abbreviation wruns := (sep_runs 0).

(** Page [p] lies in one of the runs. *)
Fixpoint covers (l : list node) (p : Z) : Prop :=
  match l with
  | [] => False
  | (_, (s, c)) :: l' => (s <= p < s + c) ∨ covers l' p
  end.

Section runs.
Implicit Types (l : list node).

Lemma sep_runs_lo gap lo lo' l : lo' <= lo → sep_runs gap lo l → sep_runs gap lo' l.
Proof. destruct l as [|[i [s c]] l]; simpl; [done|]. intros ? (?&?&?&?). split_and!; (done || lia). Qed.

Lemma sruns_wruns lo l : sruns lo l → wruns lo l.
Proof.
  revert lo. induction l as [|[i [s c]] l IH]; intros lo; simpl; [done|].
  intros (?&?&?&?). split_and!; try done. apply IH.
  eapply sep_runs_lo; [|done]. lia.
Qed.

Lemma sep_runs_node_ok gap lo l : 0 <= gap → 0 <= lo → sep_runs gap lo l → Forall node_ok l.
Proof.
  intros Hg. revert lo. induction l as [|[i [s c]] l IH]; intros lo Hlo; simpl; [done|].
  intros (?&?&?&Hl). constructor; [unfold node_ok; simpl; lia|]. eapply IH; [|exact Hl]. lia.
Qed.

Lemma sruns_length lo l : lo <= MAX_PAGES + 1 → sruns lo l →
  2 * Z.of_nat (length l) <= MAX_PAGES + 1 - lo.
Proof.
  revert lo. induction l as [|[i [s c]] l IH]; intros lo Hlo; simpl; [lia|].
  intros (?&?&?&Hl). apply IH in Hl; lia.
Qed.

Lemma covers_range gap lo l p : 0 <= gap → sep_runs gap lo l → covers l p → lo <= p < MAX_PAGES.
Proof.
  intros Hg. revert lo. induction l as [|[i [s c]] l IH]; intros lo; simpl; [done|].
  intros (?&?&?&Hl) [?|Hp]; [lia|]. specialize (IH _ Hl Hp). lia.
Qed.

Lemma covers_app l1 l2 p : covers (l1 ++ l2) p ↔ covers l1 p ∨ covers l2 p.
Proof. induction l1 as [|[i [s c]] l1 IH]; simpl; [tauto|]. rewrite IH. tauto. Qed.

Lemma covers_elem l p : covers l p ↔ ∃ i s c, (i, (s, c)) ∈ l ∧ s <= p < s + c.
Proof.
  induction l as [|[i [s c]] l IH]; simpl; [set_solver|]. rewrite IH. split.
  - intros [?|(j & s' & c' & ? & ?)]; [exists i, s, c|exists j, s', c']; (split; [|done]); set_solver.
  - intros (j & s' & c' & [Heq|?]%elem_of_cons & ?); [simplify_eq; by left|right; eauto 10].
Qed.

(** The part of the runs before a given one, and the part after. *)
Lemma sep_runs_mid gap lo l1 i s c l2 :
  0 <= gap → sep_runs gap lo (l1 ++ (i, (s, c)) :: l2) →
  lo <= s ∧ 0 < c ∧ s + c <= MAX_PAGES ∧ sep_runs gap (s + c + gap) l2 ∧
  ∀ p, covers l1 p → p + gap < s.
Proof.
  intros Hg. revert lo. induction l1 as [|[j [s' c']] l1 IH]; intros lo; simpl.
  - intros (?&?&?&?). split_and!; try done; lia.
  - intros (?&?&?&Hl). apply IH in Hl as (?&?&?&?&Hp). split_and!; try done; [lia|].
    intros p [?|?]; [lia|auto].
Qed.

Lemma sruns_remove lo l1 i s c l2 :
  sruns lo (l1 ++ (i, (s, c)) :: l2) → sruns lo (l1 ++ l2).
Proof.
  revert lo. induction l1 as [|[j [s' c']] l1 IH]; intros lo; simpl.
  - intros (?&?&?&?). eapply sep_runs_lo; [|done]. lia.
  - intros (?&?&?&Hl). split_and!; try done. by apply IH.
Qed.

Lemma sruns_shrink lo l1 i s c l2 n :
  0 < n < c → sruns lo (l1 ++ (i, (s, c)) :: l2) →
  sruns lo (l1 ++ (i, (s + n, c - n)) :: l2).
Proof.
  intros Hn. revert lo. induction l1 as [|[j [s' c']] l1 IH]; intros lo; simpl.
  - intros (?&?&?&Hl). split_and!; try lia. by replace (s + n + (c - n) + 1) with (s + c + 1) by lia.
  - intros (?&?&?&Hl). split_and!; try done. by apply IH.
Qed.

(** A page of the run that starts at [s] is in no other run. *)
Lemma sruns_mid_covers lo l1 i s c l2 p :
  sruns lo (l1 ++ (i, (s, c)) :: l2) →
  (covers (l1 ++ l2) p ↔ covers (l1 ++ (i, (s, c)) :: l2) p ∧ ¬ s <= p < s + c).
Proof.
  intros Hl. apply sep_runs_mid in Hl as (?&?&?&Hl2&Hl1); [|lia].
  rewrite !covers_app. simpl. split.
  - intros [Hp|Hp]; [specialize (Hl1 _ Hp); split; [tauto|lia]|].
    pose proof (covers_range 1 _ _ _ ltac:(lia) Hl2 Hp). split; [tauto|lia].
  - tauto.
Qed.

Lemma sruns_shrink_covers lo l1 i s c l2 n p :
  0 < n < c → sruns lo (l1 ++ (i, (s, c)) :: l2) →
  (covers (l1 ++ (i, (s + n, c - n)) :: l2) p ↔
   covers (l1 ++ (i, (s, c)) :: l2) p ∧ ¬ s <= p < s + n).
Proof.
  intros Hn Hl. apply sep_runs_mid in Hl as (?&?&?&Hl2&Hl1); [|lia].
  rewrite !covers_app. simpl. split.
  - intros [Hp|[Hp|Hp]]; [specialize (Hl1 _ Hp); split; [tauto|lia]|split; [right; left|]; lia|].
    pose proof (covers_range 1 _ _ _ ltac:(lia) Hl2 Hp). split; [tauto|lia].
  - intros [[?|[?|?]] ?]; [by left| |by right; right]. right; left; lia.
Qed.

Lemma wruns_insert lo l k s c :
  sruns lo l → lo <= s → 0 < c → s + c <= MAX_PAGES →
  (∀ p, s <= p < s + c → ¬ covers l p) →
  wruns lo ((split_at s l).1 ++ (k, (s, c)) :: (split_at s l).2).
Proof.
  revert lo. induction l as [|[i [s' c']] l IH]; intros lo Hl Hlo Hc Hmax Hdis; simpl.
  - split_and!; (done || lia).
  - destruct Hl as (?&?&?&Hl). destruct (Z.ltb_spec s s'); simpl.
    + split_and!; try done.
      * destruct (decide (s + c <= s')) as [|Hgt]; [lia|].
        exfalso. apply (Hdis s'); [lia|]. simpl. left. lia.
      * apply sruns_wruns. eapply sep_runs_lo; [|done]. lia.
    + assert (s' + c' <= s) as Hle.
      { destruct (decide (s' + c' <= s)); [done|]. exfalso. apply (Hdis s); [lia|]. simpl. left. lia. }
      destruct (split_at s l) as [l1 l2] eqn:E. simpl. split_and!; try done.
      apply (IH (s' + c' + 0)); try lia.
      * eapply sep_runs_lo; [|exact Hl]. lia.
      * intros p Hp ?. apply (Hdis p Hp). simpl. by right.
Qed.

Lemma insert_covers l k s c p :
  covers ((split_at s l).1 ++ (k, (s, c)) :: (split_at s l).2) p ↔
  covers l p ∨ s <= p < s + c.
Proof.
  rewrite <-(split_at_app s l) at 3. rewrite !covers_app. simpl. tauto.
Qed.

Lemma merge_from_sruns lo i s c l :
  wruns lo ((i, (s, c)) :: l) → sruns lo (merge_from (i, (s, c)) l).
Proof.
  revert lo i s c. induction l as [|[j [s' c']] l IH]; intros lo i s c; simpl; [tauto|].
  intros (?&?&?&?&?&?&Hl). destruct (Z.eqb_spec (s + c) s') as [<-|Hne].
  - apply IH. simpl. split_and!; try lia. by replace (s + (c + c') + 0) with (s + c + c' + 0) by lia.
  - simpl. split_and!; try done. apply IH. simpl. split_and!; (done || lia).
Qed.

Lemma merge_sruns lo l : wruns lo l → sruns lo (merge l).
Proof. destruct l as [|[i [s c]] l]; [done|]. apply merge_from_sruns. Qed.

Lemma merge_from_covers lo i s c l p :
  wruns lo ((i, (s, c)) :: l) →
  covers (merge_from (i, (s, c)) l) p ↔ covers ((i, (s, c)) :: l) p.
Proof.
  revert lo i s c. induction l as [|[j [s' c']] l IH]; intros lo i s c; [done|].
  intros (?&?&?&?&?&?&Hl). cbn [merge_from].
  destruct (Z.eqb_spec (s + c) s') as [<-|Hne].
  - rewrite (IH lo).
    + simpl. split; [intros [?|?]|intros [?|[?|?]]]; try tauto; try (left; lia).
      destruct (decide (p < s + c)); [left|right; left]; lia.
    + simpl. split_and!; try lia. by replace (s + (c + c') + 0) with (s + c + c' + 0) by lia.
  - change (s <= p < s + c ∨ covers (merge_from (j, (s', c')) l) p
      ↔ s <= p < s + c ∨ covers ((j, (s', c')) :: l) p).
    rewrite (IH (s + c + 0)); [done|]. simpl. split_and!; (done || lia).
Qed.

Lemma merge_covers lo l p : wruns lo l → covers (merge l) p ↔ covers l p.
Proof. destruct l as [|[i [s c]] l]; [done|]. apply merge_from_covers. Qed.

(** Runs that do not touch are left alone. *)
Lemma merge_id lo l : sruns lo l → merge l = l.
Proof.
  destruct l as [|n l]; [done|]. simpl. revert lo n.
  induction l as [|[j [s' c']] l IH]; intros lo [i [s c]]; [done|].
  intros (?&?&?&?&?&?&?). cbn [merge_from].
  destruct (Z.eqb_spec (s + c) s'); [lia|]. f_equal.
  apply (IH (s + c + 1)). simpl. split_and!; (done || lia).
Qed.

(** An interval of covered pages lies inside one run. *)
Lemma covered_interval lo l p n :
  sruns lo l → 0 < n → (∀ q, p <= q < p + n → covers l q) →
  ∃ i s c, (i, (s, c)) ∈ l ∧ s <= p ∧ p + n <= s + c.
Proof.
  revert lo. induction l as [|[i [s c]] l IH]; intros lo Hl Hn Hcov.
  - destruct (Hcov p); lia.
  - destruct Hl as (?&?&?&Hl). destruct (decide (s <= p < s + c)) as [Hp|Hp].
    + exists i, s, c. split; [set_solver|]. split; [lia|].
      destruct (decide (p + n <= s + c)) as [|Hgt]; [done|]. exfalso.
      destruct (Hcov (s + c)) as [?|Hc]; [lia|lia|].
      pose proof (covers_range 1 _ _ _ ltac:(lia) Hl Hc). lia.
    + destruct (IH _ Hl Hn) as (j & s' & c' & ? & ? & ?).
      { intros q Hq. destruct (Hcov q Hq) as [Hs|?]; [|done]. exfalso.
        destruct (decide (p < s)) as [Hlt|]; [|lia].
        destruct (Hcov p) as [?|Hc]; [lia|lia|].
        pose proof (covers_range 1 _ _ _ ltac:(lia) Hl Hc). lia. }
      exists j, s', c'. split; [set_solver|done].
Qed.
End runs.

(** ** The block that [find_free_block] selects *)

(** What the strategy minimises: the size under best fit, its opposite under
    worst fit. *)
Definition fit_key (st : AllocationStrategy) (c : Z) : Z :=
  match st with FirstFit => 0 | BestFit => c | WorstFit => - c end.

Lemma fit_none st count l best bsz :
  fit st count l best bsz = None → best = None ∧ Forall (λ n, n.2.2 < count) l.
Proof.
  revert best bsz. induction l as [|[i [s c]] l IH]; intros best bsz; simpl; [done|].
  destruct (Z.leb_spec count c).
  - destruct st, best; simpl; try done; repeat case_bool; intros Hfit; by apply IH in Hfit as [? _].
  - intros [? ?]%IH. split; [done|]. by constructor.
Qed.

Lemma fit_first count l best bsz j :
  fit FirstFit count l best bsz = Some j →
  best = Some j ∨
  ∃ l1 s c l2, l = l1 ++ (j, (s, c)) :: l2 ∧ count <= c ∧ Forall (λ n, n.2.2 < count) l1.
Proof.
  induction l as [|[i [s c]] l IH]; simpl; [by left|].
  destruct (Z.leb_spec count c).
  - intros [= <-]. right. exists [], s, c, l. split_and!; [done|lia|constructor].
  - intros [?|(l1 & s' & c' & l2 & -> & ? & ?)]%IH; [by left|]. right.
    exists ((i, (s, c)) :: l1), s', c', l2. split_and!; [done..|]. by constructor.
Qed.

(** Best and worst fit select a block that fits and has the least key. *)
Lemma fit_best st count l best bsz j :
  st ≠ FirstFit → fit st count l best bsz = Some j →
  (best = Some j ∧ ∀ n, n ∈ l → count <= n.2.2 → fit_key st bsz <= fit_key st n.2.2) ∨
  (∃ l1 s c l2, l = l1 ++ (j, (s, c)) :: l2 ∧ count <= c ∧
     (best ≠ None → fit_key st c <= fit_key st bsz) ∧
     ∀ n, n ∈ l → count <= n.2.2 → fit_key st c <= fit_key st n.2.2).
Proof.
  intros Hst. revert best bsz. induction l as [|[i [s c]] l IH]; intros best bsz Hfit.
  { left. split; [done|set_solver]. }
  assert (∃ best' bsz', fit st count l best' bsz' = Some j ∧
    ((best' = Some i ∧ bsz' = c ∧ count <= c ∧ (best ≠ None → fit_key st c <= fit_key st bsz)) ∨
     (best' = best ∧ bsz' = bsz ∧ (count <= c → best ≠ None ∧ fit_key st bsz <= fit_key st c))))
    as (best' & bsz' & Hfit' & Hcase).
  { simpl in Hfit. destruct (Z.leb_spec count c); [|eexists _, _; split; [done|right; split_and!; (done || lia)]].
    destruct st; [done|..]; destruct best; simpl in *; try case_bool_in Hfit;
      eexists _, _; (split; [exact Hfit|]);
      first [left; split_and!; (done || (intros; simpl; lia))
            |right; split_and!; (done || (intros _; split; [done|simpl; lia]))]. }
  clear Hfit. apply IH in Hfit' as [[Hb Hall]|(l1 & s' & c' & l2 & -> & Hc & Hb & Hall)].
  - destruct Hcase as [(-> & -> & ? & ?)|(-> & -> & Hh)].
    + simplify_eq. right. exists [], s, c, l. split_and!; try done.
      intros n [->|?]%elem_of_cons ?; [simpl; lia|auto].
    + left. split; [done|]. intros n [->|?]%elem_of_cons ?; [by apply Hh|auto].
  - right. exists ((i, (s, c)) :: l1), s', c', l2. split; [done|]. split; [done|].
    destruct Hcase as [(-> & -> & ? & Hbst)|(-> & -> & Hh)].
    + specialize (Hb ltac:(done)). split; [intros Hn; specialize (Hbst Hn); lia|].
      intros n [->|?]%elem_of_cons ?; [done|auto].
    + split; [done|]. intros n [->|?]%elem_of_cons Hcn; [|auto].
      simpl in *. destruct (Hh Hcn) as [Hn ?]. specialize (Hb Hn). lia.
Qed.

Lemma fit_some st count l j :
  fit st count l None 0 = Some j →
  ∃ l1 s c l2, l = l1 ++ (j, (s, c)) :: l2 ∧ count <= c ∧
    (st = FirstFit → Forall (λ n, n.2.2 < count) l1) ∧
    (∀ n, n ∈ l → count <= n.2.2 → fit_key st c <= fit_key st n.2.2).
Proof.
  intros Hfit. destruct st.
  - apply fit_first in Hfit as [?|(l1 & s & c & l2 & ? & ? & ?)]; [done|].
    exists l1, s, c, l2. split_and!; try done.
  - apply fit_best in Hfit as [[? _]|(l1 & s & c & l2 & ? & ? & _ & ?)]; [done| |done].
    exists l1, s, c, l2. split_and!; try done.
  - apply fit_best in Hfit as [[? _]|(l1 & s & c & l2 & ? & ? & _ & ?)]; [done| |done].
    exists l1, s, c, l2. split_and!; try done.
Qed.
