(* ===== verification/MemoryCorrect.v ===== *)
(** * Correctness of the page allocator

    The invariant [mm_inv] ties the page array, the linked free list and the
    counters together; every operation of [MemoryManager] preserves it and
    returns (no panic, no loop left running).  The properties describe an
    allocator of runs of pages: what a successful call hands out, when a call
    fails, where each strategy places a block, and a refinement of an abstract
    allocator whose state is the set of free pages. *)

From stdpp Require Import base tactics option list numbers sets gmap.
From S2P Require Import Prelude Errors Memory MemoryFreeList.
Import MemoryManager.

(** ** The page array *)

Definition alloc_count (ps : list PageState) : Z := count_if is_allocated ps.

Definition page_at (mm : MemoryManager) (p : Z) : option PageState := pages mm !! Z.to_nat p.

(** Both marking loops write one state per page and touch no other page. *)
Lemma mark_loop_spec ps (f : Z → PageState) start count :
  0 <= start → 0 <= count → start + count <= Z.of_nat (length ps) → start + count <= U64_MAX →
  returns (for_range 0 count (λ i ps, let! j := usize_add start i in arr_set ps j (f i)) ps)
    (λ ps', length ps' = length ps ∧
      ∀ p, 0 <= p → ps' !! Z.to_nat p =
        if bool_decide (start <= p < start + count) then Some (f (p - start)) else ps !! Z.to_nat p).
Proof.
  intros Hs Hc Hlen Hmax.
  apply (for_range_rule (λ i ps', length ps' = length ps ∧
      ∀ p, 0 <= p → ps' !! Z.to_nat p =
        if bool_decide (start <= p < start + i) then Some (f (p - start)) else ps !! Z.to_nat p) 0 count).
  - done.
  - split; [done|]. intros p Hp. by rewrite bool_decide_eq_false_2 by lia.
  - intros i ps' Hi [Hl Hps]. rewrite usize_add_ok by lia. simpl.
    rewrite arr_set_ok by lia. simpl. rewrite length_insert. split; [done|].
    intros p Hp. destruct (decide (p = start + i)) as [->|Hne].
    + rewrite lookup_upd_eq, bool_decide_eq_true_2 by lia. do 2 f_equal. lia.
    + rewrite lookup_upd_ne, Hps by lia. 
      destruct (decide (start <= p < start + i)).
      * by rewrite !bool_decide_eq_true_2 by lia.
      * by rewrite !bool_decide_eq_false_2 by lia.
Qed.

(** The number of allocated pages after a marking loop that flips every page. *)
Lemma mark_loop_count ps (f : Z → PageState) start count (b : bool) :
  0 <= start → 0 <= count → start + count <= Z.of_nat (length ps) → start + count <= U64_MAX →
  (∀ p, start <= p < start + count →
     ∃ old, ps !! Z.to_nat p = Some old ∧ is_allocated old = negb b) →
  (∀ i, is_allocated (f i) = b) →
  returns (for_range 0 count (λ i ps, let! j := usize_add start i in arr_set ps j (f i)) ps)
    (λ ps', alloc_count ps' = alloc_count ps + (if b then count else - count)).
Proof.
  intros Hs Hc Hlen Hmax Hold Hf.
  eapply returns_mono; [apply (for_range_rule (λ i ps', length ps' = length ps ∧
      (∀ p, start + i <= p < start + count → ps' !! Z.to_nat p = ps !! Z.to_nat p) ∧
      alloc_count ps' = alloc_count ps + (if b then i else - i)) 0 count)|].
  - done.
  - split_and!; try done. destruct b; lia.
  - intros i ps' Hi (Hl & Hps & Hcnt). rewrite usize_add_ok by lia. simpl.
    rewrite arr_set_ok by lia. simpl. rewrite length_insert. split; [done|]. split.
    + intros p Hp. rewrite lookup_upd_ne by lia. apply Hps. lia.
    + destruct (Hold (start + i)) as (old & Hlk & Ha); [lia|].
      unfold alloc_count in *. erewrite count_if_insert by (rewrite Hps by lia; exact Hlk).
      rewrite Ha, Hf, Hcnt. destruct b; simpl; lia.
  - by intros ps' (_ & _ & ?).
Qed.

(** ** The invariant *)

Record mm_inv (mm : MemoryManager) (l : list node) : Prop := {
  inv_pages_len : length (pages mm) = Z.to_nat MAX_PAGES;
  inv_fb_len : length (free_blocks mm) = Z.to_nat MAX_PAGES;
  inv_flist : flist (free_blocks mm) (free_list_head mm) l;
  inv_runs : sruns 0 l;
  inv_count : free_block_count mm = Z.of_nat (length l);
  inv_pages : ∀ p, 0 <= p < MAX_PAGES → page_at mm p = Some Free ↔ covers l p;
  inv_alloc : allocated_pages mm = alloc_count (pages mm);
  inv_current : AllocationStats.current_pages (stats mm) = allocated_pages mm;
  inv_peak : allocated_pages mm <= AllocationStats.peak_pages (stats mm) <= MAX_PAGES;
}.

Definition mm_wf (mm : MemoryManager) : Prop := ∃ l, mm_inv mm l.

(** [count] pages from [s] on, all of them free. *)
Definition free_run (mm : MemoryManager) (s count : Z) : Prop :=
  0 <= s ∧ s + count <= MAX_PAGES ∧ ∀ p, s <= p < s + count → page_at mm p = Some Free.

(** A free run that no free page extends on either side. *)
Definition maximal_run (mm : MemoryManager) (s count : Z) : Prop :=
  0 < count ∧ free_run mm s count ∧
  (0 < s → page_at mm (s - 1) ≠ Some Free) ∧
  (s + count < MAX_PAGES → page_at mm (s + count) ≠ Some Free).

Section invariant.
Context (mm : MemoryManager) (l : list node) (Hinv : mm_inv mm l).

Lemma inv_length : (length l < Z.to_nat MAX_PAGES)%nat.
Proof using Hinv. pose proof (sruns_length 0 l ltac:(mlia) (inv_runs _ _ Hinv)). mlia. Qed.

Lemma inv_allocated_range : 0 <= allocated_pages mm <= MAX_PAGES.
Proof using Hinv.
  rewrite (inv_alloc _ _ Hinv). unfold alloc_count. pose proof (count_if_range is_allocated (pages mm)).
  rewrite (inv_pages_len _ _ Hinv) in *. mlia.
Qed.

Lemma page_at_some p : 0 <= p < MAX_PAGES → is_Some (page_at mm p).
Proof using Hinv.
  intros Hp. apply lookup_lt_is_Some_2. rewrite (inv_pages_len _ _ Hinv). mlia.
Qed.

Lemma free_run_covers s c :
  0 < c → free_run mm s c → ∀ p, s <= p < s + c → covers l p.
Proof using Hinv.
  intros Hc (H1 & H2 & H3) p Hp. apply (inv_pages _ _ Hinv); [lia|auto].
Qed.

Lemma elem_free_run i s c : (i, (s, c)) ∈ l → 0 < c ∧ free_run mm s c.
Proof using Hinv.
  intros (l1 & l2 & ->)%list_elem_of_split.
  pose proof (sep_runs_mid 1 0 l1 i s c l2 ltac:(lia) (inv_runs _ _ Hinv)) as (? & ? & ? & _).
  split; [done|]. split_and!; [done..|]. intros p Hp.
  apply (inv_pages _ _ Hinv); [lia|]. rewrite covers_app. simpl. tauto.
Qed.

(** The blocks on the free list are the maximal runs of free pages. *)
Lemma elem_maximal_run s c : maximal_run mm s c ↔ ∃ i, (i, (s, c)) ∈ l.
Proof using Hinv.
  split.
  - intros (Hc & Hfree & Hlo & Hhi).
    destruct (covered_interval 0 l s c (inv_runs _ _ Hinv) Hc) as (i & s' & c' & Hin & Hs & He).
    { by apply free_run_covers. }
    destruct (elem_free_run i s' c' Hin) as (? & ? & ? & Hp). destruct Hfree as (? & ? & _).
    assert (s' = s) as ->.
    { destruct (decide (s' = s)); [done|]. exfalso. apply Hlo; [lia|]. apply Hp. lia. }
    assert (c' = c) as ->; [|eauto].
    destruct (decide (c' = c)); [done|]. exfalso. apply Hhi; [lia|]. apply Hp. lia.
  - intros [i Hin]. destruct (elem_free_run i s c Hin) as [Hc Hrun].
    split_and!; try done; try apply Hrun.
    all: apply list_elem_of_split in Hin as (l1 & l2 & Hl).
    all: pose proof (inv_runs _ _ Hinv) as Hr; rewrite Hl in Hr.
    all: apply sep_runs_mid in Hr as (? & ? & ? & Hl2 & Hl1); [|lia].
    all: intros Hb; rewrite (inv_pages _ _ Hinv) by lia; rewrite Hl, covers_app; simpl.
    all: intros [Hcov|[?|Hcov]]; try lia.
    all: first [specialize (Hl1 _ Hcov); lia
               |pose proof (covers_range 1 _ _ _ ltac:(lia) Hl2 Hcov); lia].
Qed.
End invariant.

(** ** Allocation *)

Lemma record_failure_inv mm l :
  mm_inv mm l → mm_inv (set_stats (AllocationStats.record_failure (stats mm)) mm) l.
Proof. intros []. by split. Qed.

(** Taking [count] pages from the front of the block [j]: the block leaves the
    list when it is used up and is shortened otherwise. *)
Lemma take_block_spec mm l1 j s c l2 count :
  length (free_blocks mm) = Z.to_nat MAX_PAGES →
  flist (free_blocks mm) (free_list_head mm) (l1 ++ (j, (s, c)) :: l2) →
  sruns 0 (l1 ++ (j, (s, c)) :: l2) →
  free_block_count mm = Z.of_nat (length (l1 ++ (j, (s, c)) :: l2)) →
  0 < count <= c →
  ∃ fb h n l',
    (if c =? as_u32 count then remove_free_block mm j else shrink_block mm j count) =
      Ret (with_list fb h n mm) ∧
    length fb = Z.to_nat MAX_PAGES ∧ flist fb h l' ∧ sruns 0 l' ∧
    n = Z.of_nat (length l') ∧
    ∀ p, covers l' p ↔ covers (l1 ++ (j, (s, c)) :: l2) p ∧ ¬ s <= p < s + count.
Proof.
  intros Hlen Hl Hr Hn Hc.
  pose proof (sep_runs_mid 1 0 l1 j s c l2 ltac:(lia) Hr) as (? & ? & ? & _).
  rewrite as_u32_small by mlia.
  pose proof (flist_length _ _ _ Hl) as Hle. rewrite length_app in Hn, Hle. simpl in Hn, Hle.
  destruct (Z.eqb_spec c count) as [->|Hne].
  - destruct (remove_free_block_spec mm l1 j (s, count) l2) as (fb & h & -> & ? & ?); try done; [mlia|].
    exists fb, h, (free_block_count mm - 1), (l1 ++ l2).
    split; [done|]. split; [done|]. split; [done|].
    split; [by eapply sruns_remove|]. split; [rewrite length_app; lia|].
    intros p. by eapply sruns_mid_covers.
  - unfold shrink_block. destruct (flist_lookup _ _ _ _ _ _ _ Hl) as (Hj & m & Hgj & Hl2).
    rewrite (arr_get_ok _ _ _ (proj1 Hj) Hgj). cbn [obind start_page page_count next].
    rewrite as_u32_small, u32_add_ok by mlia. cbn [obind].
    rewrite u32_sub_ok by mlia. cbn [obind].
    rewrite arr_set_ok by (rewrite Hlen; mlia). cbn [obind].
    exists (<[Z.to_nat j := mkFreeBlock (s + count) (c - count) m]> (free_blocks mm)),
      (free_list_head mm), (free_block_count mm), (l1 ++ (j, (s + count, c - count)) :: l2).
    split; [done|]. rewrite length_insert. split; [done|].
    split; [eapply flist_update; try done; by eapply flist_not_in_suffix|].
    split; [apply sruns_shrink; [lia|done]|].
    split; [rewrite length_app; simpl; lia|].
    intros p. apply (sruns_shrink_covers 0); [lia|done].
Qed.

(** What a call of [allocate_pages] does, on every branch. *)
Definition alloc_post (mm : MemoryManager) (count : Z)
    (r : result Z KernelError) (mm' : MemoryManager) : Prop :=
  match r with
  | Ok addr =>
    ∃ s, addr = s * PAGE_SIZE ∧ 1 <= count ∧ free_run mm s count ∧
      (∀ p, 0 <= p < MAX_PAGES → page_at mm' p =
         if bool_decide (s <= p < s + count)
         then Some (Allocated (if p =? s then count else 0)) else page_at mm p) ∧
      allocated_pages mm' = allocated_pages mm + count ∧
      (∃ c, maximal_run mm s c ∧ count <= c ∧
         ∀ s' c', maximal_run mm s' c' → count <= c' →
           match strategy mm with FirstFit => s <= s' | BestFit => c <= c' | WorstFit => c' <= c end)
  | Err e =>
    pages mm' = pages mm ∧ allocated_pages mm' = allocated_pages mm ∧
    ((count = 0 ∧ e = ZeroAllocation) ∨
     (MAX_PAGES < count ∧ e = AllocationTooLarge count MAX_PAGES) ∨
     (1 <= count <= MAX_PAGES ∧ e = OutOfMemory count (MAX_PAGES - allocated_pages mm) ∧
      ∀ s, ¬ free_run mm s count))
  end.

(** The run handed out is the one the strategy asks for. *)
Lemma fit_placement mm l1 j s c l2 count :
  mm_inv mm (l1 ++ (j, (s, c)) :: l2) → 1 <= count <= c →
  (strategy mm = FirstFit → Forall (λ n, n.2.2 < count) l1) →
  (∀ n, n ∈ l1 ++ (j, (s, c)) :: l2 → count <= n.2.2 →
     fit_key (strategy mm) c <= fit_key (strategy mm) n.2.2) →
  ∃ c0, maximal_run mm s c0 ∧ count <= c0 ∧
    ∀ s' c', maximal_run mm s' c' → count <= c' →
      match strategy mm with FirstFit => s <= s' | BestFit => c0 <= c' | WorstFit => c' <= c0 end.
Proof.
  intros Hinv Hc Hfirst Hkey. exists c. split.
  { apply (elem_maximal_run _ _ Hinv). exists j. set_solver. }
  split; [lia|]. intros s' c' [i Hin]%(elem_maximal_run _ _ Hinv) Hc'.
  specialize (Hkey _ Hin Hc'). simpl in Hkey. destruct (strategy mm); simpl in Hkey; try lia.
  pose proof (sep_runs_mid 1 0 l1 j s c l2 ltac:(lia) (inv_runs _ _ Hinv)) as (_ & _ & _ & Hl2 & _).
  apply elem_of_app in Hin as [Hin|Hin].
  - eapply Forall_forall in Hfirst; [|done|exact Hin]. simpl in Hfirst. lia.
  - apply elem_of_cons in Hin as [Heq|Hin]; [simplify_eq; lia|].
    assert (covers l2 s').
    { apply covers_elem. exists i, s', c'. split; [done|lia]. }
    pose proof (covers_range 1 _ _ _ ltac:(lia) Hl2 H). lia.
Qed.

(** Marking a free run: its head page carries the length, the count follows. *)
Lemma mark_allocated_spec mm l s count :
  mm_inv mm l → 1 <= count → free_run mm s count →
  returns (mark_allocated (pages mm) s count) (λ ps,
    length ps = length (pages mm) ∧ alloc_count ps = alloc_count (pages mm) + count ∧
    ∀ p, 0 <= p < MAX_PAGES → ps !! Z.to_nat p =
      if bool_decide (s <= p < s + count)
      then Some (Allocated (if p =? s then count else 0)) else page_at mm p).
Proof.
  intros Hinv Hc (Hs0 & Hs1 & Hfree). pose proof (inv_pages_len _ _ Hinv) as Hplen. unfold mark_allocated.
  set (f := λ i, if i =? 0 then Allocated (as_u16 count) else Allocated 0).
  pose proof (mark_loop_spec (pages mm) f s count ltac:(lia) ltac:(lia) ltac:(mlia) ltac:(mlia)) as Hmark.
  assert (∀ i, is_allocated (f i) = true) as Hf by (intros i; unfold f; by case_bool).
  pose proof (mark_loop_count (pages mm) f s count true ltac:(lia) ltac:(lia) ltac:(mlia) ltac:(mlia)
    (λ p Hp, ex_intro _ Free (conj (Hfree p ltac:(lia)) eq_refl)) Hf) as Hcnt.
  unfold f in Hmark, Hcnt. destruct (for_range _ _ _ _) as [ps| |]; [|done..].
  destruct Hmark as [Hlen Hps]. split_and!; [done|done|]. intros p Hp. rewrite Hps by lia. case_bool_decide; [|done].
  rewrite as_u16_small by mlia. f_equal. destruct (Z.eqb_spec (p - s) 0), (Z.eqb_spec p s); try lia; done.
Qed.

(** When no block on the list fits there is no free run of the length. *)
Lemma fit_none_no_run mm l st count s :
  mm_inv mm l → 1 <= count → fit st count l None 0 = None → ¬ free_run mm s count.
Proof.
  intros Hinv Hc [_ Hall]%fit_none Hrun.
  destruct (covered_interval 0 l s count) as (i & s' & c' & Hin & ? & ?);
    [apply Hinv|lia|apply (free_run_covers _ _ Hinv); [lia|done]|].
  eapply Forall_forall in Hall; [|exact Hin]. simpl in Hall. lia.
Qed.

Lemma allocate_pages_spec mm l count :
  mm_inv mm l → 0 <= count →
  returns (allocate_pages mm count) (λ '(r, mm'), mm_wf mm' ∧ alloc_post mm count r mm').
Proof.
  intros Hinv Hc0. pose proof (inv_allocated_range _ _ Hinv) as Har. unfold allocate_pages.
  destruct (Z.eqb_spec count 0) as [->|Hne].
  { split; [exists l; by apply record_failure_inv|]. simpl. auto 10. }
  destruct (Z.ltb_spec MAX_PAGES count) as [Hgt|Hle].
  { split; [exists l; by apply record_failure_inv|]. simpl. auto 10. }
  rewrite (find_free_block_fit mm count l) by (apply Hinv || mlia). cbn [obind].
  destruct (fit (strategy mm) count l None 0) as [j|] eqn:Hfit.
  2:{ unfold free_page_count. rewrite usize_sub_ok by mlia.
      split; [exists l; by apply record_failure_inv|]. simpl. split_and!; try done.
      right; right. split_and!; try (done || lia). intros s. by apply (fit_none_no_run _ l (strategy mm)); [|lia|]. }
  apply fit_some in Hfit as (l1 & s & c & l2 & -> & Hc & Hfirst & Hkey).
  assert (1 <= count <= c) as Hcc by lia.
  pose proof (fit_placement _ _ _ _ _ _ _ Hinv Hcc Hfirst Hkey) as Hplace.
  destruct (flist_lookup _ _ _ _ _ _ _ (inv_flist _ _ Hinv)) as (Hj & m & Hgj & _).
  rewrite (arr_get_ok _ _ _ (proj1 Hj) Hgj). cbn [obind page_count start_page].
  rewrite as_u32_small at 1 by mlia. destruct (Z.ltb_spec c count); [lia|].
  destruct (elem_free_run _ _ Hinv j s c) as (_ & Hs0 & Hs1 & Hfree); [set_solver|].
  assert (free_run mm s count) as Hrun by (split_and!; [lia..|intros p ?; apply Hfree; lia]).
  pose proof (mark_allocated_spec mm _ s count Hinv (proj1 Hcc) Hrun) as Hmark.
  destruct (mark_allocated _ _ _) as [ps| |]; [|done..]. destruct Hmark as (Hlen & Hac & Hat). cbn [obind].
  pose proof (inv_pages_len _ _ Hinv) as Hplen.
  destruct (take_block_spec (set_pages ps mm) l1 j s c l2 count) as
    (fb & h & n & l' & -> & Hfb & Hfl & Hruns & Hn & Hcov); try apply Hinv; [lia|]. cbn [obind].
  pose proof (count_if_range is_allocated ps) as Hacr. fold (alloc_count ps) in Hacr. rewrite Hlen, Hplen in Hacr.
  pose proof (inv_alloc _ _ Hinv) as Hal. pose proof (inv_current _ _ Hinv) as Hcur.
  pose proof (inv_peak _ _ Hinv) as Hpk.
  simpl. rewrite usize_add_ok by mlia. cbn [obind].
  unfold AllocationStats.record_allocation. simpl. rewrite usize_add_ok by mlia. cbn [obind].
  rewrite usize_mul_ok by mlia. cbn [obind returns].
  split.
  - exists l'. split; simpl; try done.
    + by rewrite Hlen.
    + intros p Hp. unfold page_at. simpl. rewrite Hat, Hcov by lia.
      rewrite <-(inv_pages _ _ Hinv) by lia. case_bool_decide; naive_solver.
    + lia.
    + rewrite wrap64_small by mlia. lia.
    + case_bool; lia.
  - exists s. split; [done|]. split; [lia|].
    split; [done|]. split; [done|]. split; [simpl; lia|done].
Qed.

(** ** Deallocation *)

Definition allocated_at (mm : MemoryManager) (p : Z) : Prop :=
  ∃ n, page_at mm p = Some (Allocated n).

Lemma first_free_spec n ps j :
  0 <= j → j + Z.of_nat n <= Z.of_nat (length ps) →
  ∃ r, first_free n ps j = Ret r ∧
    match r with
    | None => ∀ p, j <= p < j + Z.of_nat n → ∃ x, ps !! Z.to_nat p = Some (Allocated x)
    | Some k => j <= k < j + Z.of_nat n ∧ ps !! Z.to_nat k = Some Free ∧
        ∀ p, j <= p < k → ∃ x, ps !! Z.to_nat p = Some (Allocated x)
    end.
Proof.
  revert j. induction n as [|n IH]; intros j Hj Hlen; simpl.
  - exists None. split; [done|]. intros p ?. lia.
  - destruct (arr_get_range ps j) as (p & Hp & ->); [lia|]. simpl. destruct p as [|x].
    + exists (Some j). split_and!; try done; lia.
    + destruct (IH (j + 1)) as (r & -> & Hr); [lia|lia|]. exists r. split; [done|].
      destruct r as [k|].
      * destruct Hr as (? & ? & Hr). split_and!; try done; try lia. intros q Hq.
        destruct (decide (q = j)) as [->|]; [eauto|]. apply Hr. lia.
      * intros q Hq. destruct (decide (q = j)) as [->|]; [eauto|]. apply Hr. lia.
Qed.

(** Putting the run [s, s + c) back: the new block is linked in address order
    and merged with its neighbours. *)
Lemma give_back_spec mm l s c :
  length (free_blocks mm) = Z.to_nat MAX_PAGES →
  flist (free_blocks mm) (free_list_head mm) l → sruns 0 l →
  free_block_count mm = Z.of_nat (length l) →
  0 <= s → 0 < c → s + c <= MAX_PAGES →
  (∀ p, s <= p < s + c → ¬ covers l p) →
  ∃ fb h n k l',
    (let! mm1 := add_free_block mm s c in coalesce_adjacent mm1 s) =
      Ret (set_stats (Nat.iter k AllocationStats.record_coalesce (stats mm))
             (with_list fb h n mm)) ∧
    length fb = Z.to_nat MAX_PAGES ∧ flist fb h l' ∧ sruns 0 l' ∧
    n = Z.of_nat (length l') ∧
    ∀ p, covers l' p ↔ covers l p ∨ s <= p < s + c.
Proof.
  intros Hlen Hl Hr Hn Hs Hc He Hdis.
  pose proof (sruns_length 0 l ltac:(mlia) Hr) as Hle.
  destruct (add_free_block_spec mm l s c) as (fb & h & k & -> & Hfb & Hfl); try done; [mlia..|].
  pose proof (wruns_insert 0 l k s c Hr Hs Hc He Hdis) as Hw.
  set (l0 := (split_at s l).1 ++ (k, (s, c)) :: (split_at s l).2) in *.
  assert (length l0 = S (length l)) as Hl0.
  { unfold l0. rewrite length_app. simpl.
    pose proof (f_equal length (split_at_app s l)) as Happ. rewrite length_app in Happ. lia. }
  cbn [obind]. unfold coalesce_adjacent.
  assert (free_block_count mm + 1 = Z.of_nat (length l0)) as Hn0 by lia.
  pose proof (sep_runs_node_ok 0 0 l0 ltac:(lia) ltac:(lia) Hw) as Hok.
  destruct (coalesce_spec list_fuel (with_list fb h (free_block_count mm + 1) mm) l0
    Hfb Hfl Hok Hn0 (flist_fuel _ _ _ Hfl)) as (fb' & j & Heq & Hfb' & Hfl' & Hj).
  rewrite Heq. simpl in Hfl'.
  exists fb', h, (Z.of_nat (length (merge l0))), j, (merge l0).
  split. { unfold coalesced. simpl. unfold set_stats, with_list. simpl. do 2 f_equal. lia. }
  split; [done|]. split; [done|]. split; [by apply merge_sruns|]. split; [done|].
  intros p. rewrite (merge_covers 0) by done. apply insert_covers.
Qed.

Lemma iter_record_coalesce k st :
  AllocationStats.current_pages (Nat.iter k AllocationStats.record_coalesce st) =
    AllocationStats.current_pages st ∧
  AllocationStats.peak_pages (Nat.iter k AllocationStats.record_coalesce st) =
    AllocationStats.peak_pages st.
Proof. induction k as [|k [IH1 IH2]]; simpl; auto. Qed.

(** What a call of [free_pages] does, on every branch. *)
Definition free_post (mm : MemoryManager) (addr count : Z)
    (r : result unit KernelError) (mm' : MemoryManager) : Prop :=
  let s := addr / PAGE_SIZE in
  match r with
  | Ok _ =>
    1 <= count ∧ addr < MAX_PAGES * PAGE_SIZE ∧ s + count <= MAX_PAGES ∧
    (∀ p, s <= p < s + count → allocated_at mm p) ∧
    (∀ p, 0 <= p < MAX_PAGES → page_at mm' p =
       if bool_decide (s <= p < s + count) then Some Free else page_at mm p) ∧
    allocated_pages mm' = allocated_pages mm - count
  | Err e =>
    mm' = mm ∧
    ((count = 0 ∧ e = InvalidPageCount) ∨
     (count ≠ 0 ∧ MAX_PAGES * PAGE_SIZE <= addr ∧
        e = AddressOutOfBounds addr ((MAX_PAGES - 1) * PAGE_SIZE)) ∨
     (addr < MAX_PAGES * PAGE_SIZE ∧ MAX_PAGES < s + count ∧
        e = AllocationTooLarge count (MAX_PAGES - s)) ∨
     (addr < MAX_PAGES * PAGE_SIZE ∧ s + count <= MAX_PAGES ∧
      ∃ j, s <= j < s + count ∧ page_at mm j = Some Free ∧
        (∀ p, s <= p < j → allocated_at mm p) ∧ e = DoubleFree (j * PAGE_SIZE)))
  end.

(** The successful branch of [free_pages], once its checks have passed. *)
Lemma free_run_spec mm l s count :
  mm_inv mm l → 0 <= s → 0 < count → s + count <= MAX_PAGES →
  (∀ p, s <= p < s + count → allocated_at mm p) →
  ∃ ps mm2,
    mark_free (pages mm) s count = Ret ps ∧
    (let! mm1 := add_free_block (set_pages ps mm) s count in coalesce_adjacent mm1 s) = Ret mm2 ∧
    (∀ p, 0 <= p < MAX_PAGES → page_at mm2 p =
       if bool_decide (s <= p < s + count) then Some Free else page_at mm p) ∧
    allocated_pages mm2 = allocated_pages mm ∧ count <= allocated_pages mm ∧
    mm_wf (set_stats (AllocationStats.record_deallocation (stats mm2) count)
             (set_allocated_pages (allocated_pages mm - count) mm2)).
Proof.
  intros Hinv Hs Hc He Hall. pose proof (inv_pages_len _ _ Hinv) as Hplen.
  pose proof (mark_loop_spec (pages mm) (λ _, Free) s count ltac:(lia) ltac:(lia) ltac:(mlia)
    ltac:(mlia)) as Hmark.
  pose proof (mark_loop_count (pages mm) (λ _, Free) s count false ltac:(lia) ltac:(lia)
    ltac:(mlia) ltac:(mlia)) as Hcnt.
  unfold mark_free. destruct (for_range _ _ _ _) as [ps| |]; [|done..].
  destruct Hmark as [Hlen Hps]. simpl in Hcnt.
  assert (alloc_count ps = alloc_count (pages mm) - count) as Hac.
  { replace (_ - count) with (alloc_count (pages mm) + - count) by lia. apply Hcnt; [|done].
    intros p Hp. destruct (Hall p Hp) as [x Hx]. exists (Allocated x). split; [exact Hx|done]. }
  destruct (give_back_spec (set_pages ps mm) l s count) as
    (fb & h & n & k & l' & Heq & Hfb & Hfl & Hr & Hn & Hcov); try apply Hinv; try done.
  { intros p Hp Hcv. destruct (Hall p Hp) as [x Hx].
    apply (inv_pages _ _ Hinv) in Hcv; [|lia]. congruence. }
  pose proof (count_if_range is_allocated ps) as Hacr. fold (alloc_count ps) in Hacr.
  pose proof (inv_alloc _ _ Hinv) as Hal. pose proof (inv_current _ _ Hinv) as Hcur.
  pose proof (inv_peak _ _ Hinv) as Hpk. pose proof (inv_allocated_range _ _ Hinv) as Har.
  destruct (iter_record_coalesce k (stats mm)) as [Hk1 Hk2].
  assert (∀ p, 0 <= p < MAX_PAGES → ps !! Z.to_nat p =
       if bool_decide (s <= p < s + count) then Some Free else page_at mm p) as Hat.
  { intros p Hp. rewrite Hps by lia. done. }
  eexists ps, _. split; [done|]. split; [exact Heq|].
  split; [done|]. split; [done|]. split; [lia|].
  exists l'. split; simpl; try done.
  - by rewrite Hlen.
  - intros p Hp. unfold page_at. simpl. rewrite Hat, Hcov by lia.
    rewrite <-(inv_pages _ _ Hinv) by lia. case_bool_decide; naive_solver.
  - lia.
  - rewrite Hk1, wrap64_small by mlia. lia.
  - rewrite Hk2. lia.
Qed.

(** The sum of the first page and the page count, which [free_pages] computes
    for an address inside the managed range, is a machine integer. *)
Definition free_fits (addr count : Z) : Prop :=
  MAX_PAGES * PAGE_SIZE <= addr ∨ addr / PAGE_SIZE + count <= U64_MAX.

#[export] Instance free_fits_dec addr count : Decision (free_fits addr count) := _.

Lemma free_pages_spec mm l addr count :
  mm_inv mm l → 0 <= addr → 0 <= count → free_fits addr count →
  returns (free_pages mm addr count) (λ '(r, mm'), mm_wf mm' ∧ free_post mm addr count r mm').
Proof.
  intros Hinv Ha Hc0 Hfit. unfold free_fits in Hfit. unfold free_pages, free_post.
  destruct (Z.eqb_spec count 0) as [->|Hne]; [split; [by exists l|auto]|].
  rewrite usize_div_ok by mlia. cbn [obind]. rewrite usize_mul_ok by mlia. cbn [obind].
  assert (0 <= addr / PAGE_SIZE) by (apply Z.div_pos; mlia).
  destruct (Z.leb_spec (MAX_PAGES * PAGE_SIZE) addr).
  { rewrite usize_sub_ok by mlia. split; [by exists l|]. split; [done|]. right; left.
    split_and!; done. }
  assert (addr / PAGE_SIZE < MAX_PAGES) by (apply Z.div_lt_upper_bound; mlia).
  set (s := addr / PAGE_SIZE) in *.
  destruct (Z.leb_spec MAX_PAGES s); [lia|].
  rewrite usize_add_ok by mlia. cbn [obind].
  destruct (Z.ltb_spec MAX_PAGES (s + count)).
  { rewrite usize_sub_ok by mlia. split; [by exists l|]. split; [done|]. right; right; left. done. }
  destruct (first_free_spec (Z.to_nat count) (pages mm) s) as (r & -> & Hr);
    [lia|rewrite (inv_pages_len _ _ Hinv); mlia|].
  rewrite Z2Nat.id in Hr by lia. cbn [obind]. destruct r as [j|].
  { destruct Hr as (Hj & Hfree & Hall). rewrite usize_mul_ok by mlia.
    split; [by exists l|]. split; [done|]. right; right; right. split_and!; try done.
    by exists j. }
  destruct (free_run_spec mm l s count) as (ps & mm2 & -> & Heq & Hat & Hal & Hle & Hwf);
    try done; [lia|]. cbn [obind].
  rewrite !as_u32_small by mlia.
  destruct (add_free_block _ _ _) as [mm1| |]; try done. cbn [obind] in *.
  rewrite Heq. cbn [obind]. pose proof (inv_allocated_range _ _ Hinv).
  rewrite Hal, usize_sub_ok by mlia. cbn [obind returns]. split; [done|].
  split_and!; try done; lia.
Qed.

(** ** The other operations *)

(** The manager that [MemoryManager::default] returns. *)
Definition boot : MemoryManager := match default with Ret mm => mm | _ => new end.

Lemma default_boot : default = Ret boot.
Proof. vm_compute. reflexivity. Qed.

Lemma boot_inv : mm_inv boot [(0, (0, MAX_PAGES))].
Proof.
  assert (boot = mk (replicate (Z.to_nat MAX_PAGES) Free)
    (<[0%nat := FreeBlock_new 0 MAX_PAGES]> (replicate (Z.to_nat MAX_PAGES) (FreeBlock_new 0 0)))
    0 1 0 0 FirstFit AllocationStats.new) as -> by (vm_compute; reflexivity).
  split; cbn [pages free_blocks free_list_head free_block_count allocated_pages stats].
  - apply length_replicate.
  - by rewrite length_insert, length_replicate.
  - simpl. split_and!; try done. by exists INVALID_PAGE.
  - simpl. mlia.
  - done.
  - intros p Hp. unfold page_at. cbn [pages]. rewrite lookup_replicate_2 by mlia.
    simpl. split; [left; lia|done].
  - symmetry. by apply count_if_replicate.
  - done.
  - simpl. mlia.
Qed.

Lemma boot_wf : mm_wf boot.
Proof. eexists. apply boot_inv. Qed.

Lemma set_strategy_inv mm l st : mm_inv mm l → mm_inv (set_strategy mm st) l.
Proof. intros []. by split. Qed.

(** Between calls no two blocks touch, so there is nothing to merge. *)
Lemma defragment_spec mm l :
  mm_inv mm l → ∃ fb, defragment mm = Ret (0, coalesced fb 0 mm) ∧ mm_inv (coalesced fb 0 mm) l.
Proof.
  intros Hinv. pose proof Hinv as [Hpl Hfl Hl Hr Hn Hp Ha Hcur Hpk]. unfold defragment.
  rewrite defragment_loop_coalesce.
  destruct (coalesce_spec list_fuel mm l Hfl Hl (sep_runs_node_ok 1 0 l ltac:(lia) ltac:(lia) Hr)
    Hn (flist_fuel _ _ _ Hl)) as (fb & k & -> & Hfb & Hl' & Hk).
  rewrite (merge_id 0 l Hr) in Hl', Hk. assert (k = 0%nat) as -> by lia.
  pose proof (inv_length _ _ Hinv). cbn [obind]. unfold coalesced at 1. cbn [free_block_count].
  rewrite usize_sub_ok by mlia. cbn [obind]. exists fb.
  split; [do 3 f_equal; lia|]. split; try done. simpl. lia.
Qed.

Lemma largest_max (l : list node) (m : Z) :
  (∀ n : node, n ∈ l → n.2.2 <= fold_left (λ (m : Z) (n : node), Z.max m n.2.2) l m) ∧
  m <= fold_left (λ (m : Z) (n : node), Z.max m n.2.2) l m ∧
  (fold_left (λ (m : Z) (n : node), Z.max m n.2.2) l m = m ∨
   ∃ n : node, n ∈ l ∧ fold_left (λ (m : Z) (n : node), Z.max m n.2.2) l m = n.2.2).
Proof.
  revert m. induction l as [|[i [s c]] l IH]; intros m; simpl.
  - split_and!; [set_solver|lia|by left].
  - destruct (IH (Z.max m c)) as (H1 & H2 & H3). split_and!.
    + intros n [->|?]%elem_of_cons; [simpl; lia|auto].
    + lia.
    + destruct H3 as [H3|(n & ? & ?)]; [|right; exists n; split; [set_solver|done]].
      rewrite H3. destruct (Z.max_spec m c) as [[? ->]|[? ->]]; [|by left].
      right. exists (i, (s, c)). split; [set_solver|done].
Qed.

(** ** The abstract allocator

    Its state is the set of free pages; an allocation may hand out any run
    inside it. *)

Definition pages_of (s count : Z) : gset Z := list_to_set (seqZ s count).

Lemma elem_of_pages_of p s count : p ∈ pages_of s count ↔ s <= p < s + count.
Proof. unfold pages_of. rewrite elem_of_list_to_set, elem_of_seqZ. lia. Qed.

Definition free_set (mm : MemoryManager) : gset Z :=
  list_to_set (filter (λ p, page_at mm p = Some Free) (seqZ 0 MAX_PAGES)).

Lemma elem_of_free_set p mm : p ∈ free_set mm ↔ 0 <= p < MAX_PAGES ∧ page_at mm p = Some Free.
Proof.
  unfold free_set. rewrite elem_of_list_to_set, list_elem_of_filter, elem_of_seqZ. split; intros []; split; (done || lia).
Qed.

Inductive mem_op : Type :=
| OpAllocate (count : Z)
| OpFree (addr count : Z)
| OpDefragment
| OpSetStrategy (s : AllocationStrategy).

Inductive mem_resp : Type :=
| RespAllocate (r : result Z KernelError)
| RespFree (r : result unit KernelError)
| RespDefragment (merged : Z)
| RespUnit.

Definition exec (mm : MemoryManager) (op : mem_op) : outcome (mem_resp * MemoryManager) :=
  match op with
  | OpAllocate count => let! (r, mm') := allocate_pages mm count in Ret (RespAllocate r, mm')
  | OpFree addr count => let! (r, mm') := free_pages mm addr count in Ret (RespFree r, mm')
  | OpDefragment => let! (n, mm') := defragment mm in Ret (RespDefragment n, mm')
  | OpSetStrategy s => Ret (RespUnit, set_strategy mm s)
  end.

Inductive spec_step (F : gset Z) : mem_op → mem_resp → gset Z → Prop :=
| Spec_allocate s count :
    1 <= count → pages_of s count ⊆ F →
    spec_step F (OpAllocate count) (RespAllocate (Ok (s * PAGE_SIZE))) (F ∖ pages_of s count)
| Spec_oom count :
    1 <= count <= MAX_PAGES → (∀ s, ¬ pages_of s count ⊆ F) →
    spec_step F (OpAllocate count)
      (RespAllocate (Err (OutOfMemory count (Z.of_nat (size F))))) F
| Spec_zero : spec_step F (OpAllocate 0) (RespAllocate (Err ZeroAllocation)) F
| Spec_large count :
    MAX_PAGES < count →
    spec_step F (OpAllocate count) (RespAllocate (Err (AllocationTooLarge count MAX_PAGES))) F
| Spec_free addr count :
    1 <= count → addr / PAGE_SIZE + count <= MAX_PAGES →
    pages_of (addr / PAGE_SIZE) count ## F →
    spec_step F (OpFree addr count) (RespFree (Ok tt)) (F ∪ pages_of (addr / PAGE_SIZE) count)
| Spec_double_free addr count j :
    1 <= count → j ∈ F ∩ pages_of (addr / PAGE_SIZE) count →
    pages_of (addr / PAGE_SIZE) (j - addr / PAGE_SIZE) ## F →
    spec_step F (OpFree addr count) (RespFree (Err (DoubleFree (j * PAGE_SIZE)))) F
| Spec_free_error addr count e :
    (count = 0 ∧ e = InvalidPageCount) ∨
    (MAX_PAGES * PAGE_SIZE <= addr ∧ e = AddressOutOfBounds addr ((MAX_PAGES - 1) * PAGE_SIZE)) ∨
    (MAX_PAGES < addr / PAGE_SIZE + count ∧
       e = AllocationTooLarge count (MAX_PAGES - addr / PAGE_SIZE)) →
    spec_step F (OpFree addr count) (RespFree (Err e)) F
| Spec_defragment : spec_step F OpDefragment (RespDefragment 0) F
| Spec_strategy s : spec_step F (OpSetStrategy s) RespUnit F.

(** Requests whose arguments are machine integers. *)
Definition op_ok (op : mem_op) : Prop :=
  match op with
  | OpAllocate count => 0 <= count <= U64_MAX
  | OpFree addr count => 0 <= addr <= U64_MAX ∧ 0 <= count <= U64_MAX
  | _ => True
  end.

(** Requests the code answers: a free whose range check does not overflow. *)
Definition op_fits (op : mem_op) : Prop :=
  match op with OpFree addr count => free_fits addr count | _ => True end.

#[export] Instance op_fits_dec op : Decision (op_fits op).
Proof. destruct op; simpl; apply _. Defined.

Lemma filter_ext_Forall {A} (P Q : A → Prop) `{!∀ x, Decision (P x), !∀ x, Decision (Q x)}
    (l : list A) :
  Forall (λ x, P x ↔ Q x) l → filter P l = filter Q l.
Proof.
  induction 1 as [|x l Hx _ IH]; [done|]. rewrite !filter_cons, IH.
  repeat case_decide; tauto.
Qed.

Lemma filter_free_count ps :
  Z.of_nat (length (filter (λ p, ps !! Z.to_nat p = Some Free) (seqZ 0 (Z.of_nat (length ps)))))
    = Z.of_nat (length ps) - alloc_count ps.
Proof.
  induction ps as [|x ps IH] using rev_ind; [done|].
  rewrite length_app, Nat.add_comm, seqZ_S, filter_app, length_app.
  rewrite (filter_ext_Forall _ (λ p, ps !! Z.to_nat p = Some Free)).
  2:{ apply Forall_forall. intros p Hp%elem_of_seqZ. by rewrite lookup_app_l by lia. }
  rewrite Nat2Z.inj_add, IH. unfold alloc_count. rewrite count_if_app, count_if_cons.
  rewrite filter_cons, filter_nil, Z.add_0_l, Nat2Z.id.
  rewrite lookup_app_r, Nat.sub_diag by lia. simpl. change (count_if is_allocated []) with 0.
  destruct x; simpl; repeat case_decide; simpl; done || lia.
Qed.

Lemma free_set_size mm l :
  mm_inv mm l → Z.of_nat (size (free_set mm)) = MAX_PAGES - allocated_pages mm.
Proof.
  intros Hinv. unfold free_set. rewrite size_list_to_set by (apply NoDup_filter, NoDup_seqZ).
  rewrite (inv_alloc _ _ Hinv). unfold alloc_count. pose proof (filter_free_count (pages mm)) as Hc.
  rewrite (inv_pages_len _ _ Hinv), Z2Nat.id in Hc by mlia. exact Hc.
Qed.

Lemma free_run_subset mm s count :
  0 < count → free_run mm s count ↔ pages_of s count ⊆ free_set mm.
Proof.
  intros Hc. rewrite elem_of_subseteq. setoid_rewrite elem_of_pages_of.
  setoid_rewrite elem_of_free_set. split.
  - intros (? & ? & Hp) p Hr. split; [lia|auto].
  - intros Hp. split_and!.
    + destruct (Hp s); lia.
    + destruct (Hp (s + count - 1)); lia.
    + intros p Hr. by apply Hp.
Qed.

Lemma free_set_ext mm mm' : pages mm = pages mm' → free_set mm = free_set mm'.
Proof. intros Heq. unfold free_set, page_at. by rewrite Heq. Qed.

Lemma alloc_simulates mm l count r mm' :
  mm_inv mm l → alloc_post mm count r mm' →
  spec_step (free_set mm) (OpAllocate count) (RespAllocate r) (free_set mm').
Proof.
  intros Hinv. destruct r as [addr|e]; simpl.
  - intros (s & -> & Hc & Hrun & Hat & _).
    replace (free_set mm') with (free_set mm ∖ pages_of s count).
    { constructor; [done|]. apply free_run_subset; [lia|done]. }
    apply set_eq. intros p. rewrite elem_of_difference, elem_of_pages_of, !elem_of_free_set.
    split; [intros [[Hr Hp] Hn]|intros [Hr Hp]].
    + split; [done|]. rewrite Hat by done. by rewrite bool_decide_eq_false_2.
    + rewrite Hat in Hp by done. case_bool_decide; [done|]. done.
  - intros (Hp & _ & He). rewrite (free_set_ext mm' mm Hp).
    destruct He as [[-> ->]|[[? ->]|(? & -> & Hno)]]; [constructor|by constructor|].
    rewrite <-(free_set_size _ _ Hinv). constructor; [done|].
    intros s Hs. apply (Hno s), free_run_subset; [lia|done].
Qed.

Lemma free_simulates mm addr count r mm' :
  0 <= addr → 0 <= count → free_post mm addr count r mm' →
  spec_step (free_set mm) (OpFree addr count) (RespFree r) (free_set mm').
Proof.
  intros Ha Hc0. assert (0 <= addr / PAGE_SIZE) by (apply Z.div_pos; mlia).
  destruct r as [[]|e]; simpl.
  - intros (Hc & ? & He & Hall & Hat & _).
    replace (free_set mm') with (free_set mm ∪ pages_of (addr / PAGE_SIZE) count).
    { constructor; [done..|]. intros p. rewrite elem_of_pages_of, elem_of_free_set.
      intros Hp [_ Hf]. destruct (Hall p Hp). congruence. }
    apply set_eq. intros p. rewrite elem_of_union, elem_of_pages_of, !elem_of_free_set.
    split; [intros [[Hr Hp]|Hr]|intros [Hr Hp]].
    + split; [done|]. rewrite Hat by done. by case_bool_decide.
    + split; [lia|]. rewrite Hat by lia. by rewrite bool_decide_eq_true_2.
    + rewrite Hat in Hp by done. case_bool_decide; [by right|by left].
  - intros [-> He].
    destruct He as [?|[(? & ? & ?)|[(? & ? & ?)|(? & ? & j & Hj & Hf & Hall & ->)]]];
      [by constructor; auto..|].
    constructor; [lia| |].
    + rewrite elem_of_intersection, elem_of_pages_of, elem_of_free_set. split_and!; (done || lia).
    + intros p. rewrite elem_of_pages_of, elem_of_free_set. intros Hp [_ Hfp].
      destruct (Hall p); [lia|]. congruence.
Qed.

(** One call simulates one step of the abstract allocator. *)
Lemma exec_simulates mm op :
  mm_wf mm → op_ok op → op_fits op →
  returns (exec mm op) (λ '(r, mm'), mm_wf mm' ∧ spec_step (free_set mm) op r (free_set mm')).
Proof.
  intros [l Hinv] Hop Hfit. destruct op as [count|addr count| |s]; simpl in Hop, Hfit; cbn [exec].
  - pose proof (allocate_pages_spec mm l count Hinv ltac:(lia)) as Hspec.
    destruct (allocate_pages mm count) as [[r mm']| |]; try done. destruct Hspec as [Hwf Hpost].
    cbn [obind returns]. split; [done|]. by eapply alloc_simulates.
  - pose proof (free_pages_spec mm l addr count Hinv ltac:(lia) ltac:(lia) Hfit) as Hspec.
    destruct (free_pages mm addr count) as [[r mm']| |]; try done. destruct Hspec as [Hwf Hpost].
    cbn [obind returns]. split; [done|]. by apply free_simulates; [lia..|].
  - destruct (defragment_spec mm l Hinv) as (fb & -> & Hinv'). cbn [obind returns].
    split; [by exists l|]. rewrite (free_set_ext (coalesced fb 0 mm) mm) by done. constructor.
  - split; [exists l; by apply set_strategy_inv|].
    rewrite (free_set_ext (set_strategy mm s) mm) by done. constructor.
Qed.
