(* ===== verification/MemoryProps.v ===== *)
(** * Properties of the page allocator

    The statements about memory.rs that the lemmas of [MemoryCorrect] add up
    to, each with a concrete instance. *)

From stdpp Require Import base tactics option list numbers sets gmap.
From S2P Require Import Prelude Errors Memory MemoryFreeList MemoryCorrect.
Import MemoryManager.

(** A sequence of calls on one manager, with the responses in order. *)
Fixpoint run (mm : MemoryManager) (ops : list mem_op) : outcome (list mem_resp * MemoryManager) :=
  match ops with
  | [] => Ret ([], mm)
  | op :: ops =>
    let! (r, mm1) := exec mm op in
    let! (rs, mm2) := run mm1 ops in
    Ret (r :: rs, mm2)
  end.

Inductive spec_run : gset Z → list mem_op → list mem_resp → gset Z → Prop :=
| spec_run_nil F : spec_run F [] [] F
| spec_run_cons F op r F1 ops rs F2 :
    spec_step F op r F1 → spec_run F1 ops rs F2 → spec_run F (op :: ops) (r :: rs) F2.

(** The range check of [free_pages] adds before it compares: with overflow
    checks a page count close to the maximum panics instead of being refused. *)
Lemma free_pages_overflow_panics (mm : MemoryManager) (addr count : Z) :
  0 <= addr → ¬ free_fits addr count → free_pages mm addr count = Panic.
Proof.
  unfold free_fits. intros Ha0 Hc. assert (0 <= addr < MAX_PAGES * PAGE_SIZE ∧ U64_MAX < addr / PAGE_SIZE + count) as [Ha Hc'] by lia.
  clear Hc. rename Hc' into Hc. unfold free_pages.
  assert (0 <= addr / PAGE_SIZE < MAX_PAGES).
  { split; [apply Z.div_pos|apply Z.div_lt_upper_bound]; unfold PAGE_SIZE in *; lia. }
  destruct (Z.eqb_spec count 0); [unfold MAX_PAGES in *; lia|].
  rewrite usize_div_ok by done. cbn [obind].
  rewrite usize_mul_ok by (unfold MAX_PAGES, PAGE_SIZE; lia). cbn [obind].
  destruct (Z.leb_spec (MAX_PAGES * PAGE_SIZE) addr); [lia|].
  destruct (Z.leb_spec MAX_PAGES (addr / PAGE_SIZE)); [lia|].
  unfold usize_add. by rewrite checked_panic by lia.
Qed.

Lemma exec_panics mm op : op_ok op → ¬ op_fits op → exec mm op = Panic.
Proof.
  destruct op as [|addr count| |]; simpl; try done. intros [Ha _] Hf.
  cbn [exec]. rewrite free_pages_overflow_panics by (done || lia). done.
Qed.

Lemma run_simulates mm ops :
  mm_wf mm → Forall op_ok ops → Forall op_fits ops →
  ∃ rs mm', run mm ops = Ret (rs, mm') ∧ mm_wf mm' ∧ spec_run (free_set mm) ops rs (free_set mm').
Proof.
  intros Hwf Hops Hfits. revert mm Hwf.
  induction Hops as [|op ops Hop _ IH]; intros mm Hwf; [|apply Forall_cons in Hfits as [Hfit Hfits]; specialize (IH Hfits)].
  - eexists _, _. split_and!; [done|done|constructor].
  - pose proof (exec_simulates mm op Hwf Hop Hfit) as Hstep.
    apply returns_ret in Hstep as ([r mm1] & Heq & Hwf1 & Hstep). cbn [run]. rewrite Heq. cbn [obind].
    destruct (IH mm1 Hwf1) as (rs & mm2 & -> & Hwf2 & Hrun). cbn [obind].
    eexists _, _. split_and!; [done|done|by econstructor].
Qed.

(** A sequence with a call whose check overflows panics at that call. *)
Lemma run_panics mm ops :
  mm_wf mm → Forall op_ok ops → ¬ Forall op_fits ops → run mm ops = Panic.
Proof.
  intros Hwf Hops Hno. revert mm Hwf. induction Hops as [|op ops Hop _ IH]; intros mm Hwf.
  { destruct Hno. constructor. }
  cbn [run]. destruct (decide (op_fits op)) as [Hfit|Hfit]; [|by rewrite exec_panics].
  pose proof (exec_simulates mm op Hwf Hop Hfit) as Hstep.
  apply returns_ret in Hstep as ([r mm1] & -> & Hwf1 & _). cbn [obind].
  rewrite IH; [done| |done]. intros Hf. apply Hno. by constructor.
Qed.

Lemma free_set_boot : free_set boot = pages_of 0 MAX_PAGES.
Proof.
  apply set_eq. intros p. rewrite elem_of_free_set, elem_of_pages_of. split; [lia|].
  intros Hp. split; [lia|]. apply (inv_pages _ _ boot_inv); simpl; lia.
Qed.

(** C1.  Any sequence of allocation, free, defragmentation and strategy calls on
    a manager made by [MemoryManager::default], with any 64-bit arguments: if
    every free is at an address past the managed pages or its start page plus its
    count fits in 64 bits, all calls return, without a panic and within the loops'
    fuel, and the responses are those of an abstract allocator that starts with
    all [MAX_PAGES] pages free, hands out runs of free pages, reports
    out-of-memory with the number of free pages exactly when no run is long
    enough, and takes back runs of allocated pages; if one free is not of that
    kind (a count near [usize::MAX]), the sequence panics. *)
Theorem allocator_refines_page_set (ops : list mem_op) (Hops : Forall op_ok ops) :
  if decide (Forall op_fits ops) then
    ∃ rs mm', (let! mm := default in run mm ops) = Ret (rs, mm') ∧ mm_wf mm' ∧
      spec_run (pages_of 0 MAX_PAGES) ops rs (free_set mm')
  else (let! mm := default in run mm ops) = Panic.
Proof.
  rewrite default_boot, <-free_set_boot. cbn [obind]. case_decide.
  - by apply run_simulates; [apply boot_wf|..].
  - by apply run_panics; [apply boot_wf|..].
Qed.

Lemma allocator_refines_page_set_witness :
  let ops := [OpAllocate 10; OpSetStrategy BestFit; OpAllocate 1020; OpFree 4096 3; OpDefragment] in
  Forall op_ok ops ∧
  (∃ rs mm', (let! mm := default in run mm ops) = Ret (rs, mm') ∧ mm_wf mm' ∧
     spec_run (pages_of 0 MAX_PAGES) ops rs (free_set mm')) ∧
  (let! mm := default in run mm (ops ++ [OpFree 4096 U64_MAX])) = Panic.
Proof.
  assert (Forall op_ok [OpAllocate 10; OpSetStrategy BestFit; OpAllocate 1020; OpFree 4096 3; OpDefragment; OpFree 4096 U64_MAX])
    as Hok by (repeat constructor; vm_compute; done).
  pose proof (proj1 (proj1 (Forall_app _ [_; _; _; _; _] [_]) Hok)) as Hok'.
  split; [exact Hok'|].
  split; [pose proof (allocator_refines_page_set _ Hok') as H|pose proof (allocator_refines_page_set _ Hok) as H].
  - rewrite decide_True in H; [exact H|]. repeat constructor; vm_compute; (by right) || done.
  - rewrite decide_False in H; [exact H|]. rewrite !Forall_cons. intros (_ & _ & _ & _ & _ & [H'|H'] & _); vm_compute in H'; done.
Defined.

(** A successful [allocate_pages count] returns the page-aligned address of
    [count] pages inside the managed range that were all free; they are now
    allocated, the first one recording the size, and every other page keeps its
    state. *)
Theorem allocate_pages_grants (mm mm' : MemoryManager) (count addr : Z)
    (Hwf : mm_wf mm) (Hc : 0 <= count) (Hok : allocate_pages mm count = Ret (Ok addr, mm')) :
  ∃ s, addr = s * PAGE_SIZE ∧ 1 <= count ∧ 0 <= s ∧ s + count <= MAX_PAGES ∧
    (∀ p, s <= p < s + count → page_at mm p = Some Free) ∧
    (∀ p, 0 <= p < MAX_PAGES → page_at mm' p =
       if bool_decide (s <= p < s + count)
       then Some (Allocated (if p =? s then count else 0)) else page_at mm p) ∧
    allocated_pages mm' = allocated_pages mm + count ∧ mm_wf mm'.
Proof.
  destruct Hwf as [l Hinv]. pose proof (allocate_pages_spec mm l count Hinv Hc) as Hs.
  rewrite Hok in Hs. destruct Hs as [Hwf' (s & ? & ? & (? & ? & ?) & ? & ? & _)].
  exists s. by split_and!.
Qed.

Lemma allocate_pages_grants_witness :
  ∃ mm', allocate_pages boot 4 = Ret (Ok 0, mm') ∧
    page_at mm' 0 = Some (Allocated 4) ∧ page_at mm' 4 = Some Free.
Proof.
  eexists. split; [vm_compute; reflexivity|].
  destruct (allocate_pages_grants boot _ 4 0 boot_wf ltac:(lia) ltac:(vm_compute; reflexivity))
    as (s & Hs & _ & _ & _ & _ & Hat & _).
  assert (s = 0) as -> by (unfold PAGE_SIZE in Hs; lia).
  split; [rewrite Hat by (unfold MAX_PAGES; lia)|rewrite Hat by (unfold MAX_PAGES; lia)];
    vm_compute; reflexivity.
Defined.

(**  For a request of 1 to [MAX_PAGES] pages, [allocate_pages] fails exactly
    when there is no run of that many consecutive free pages: external
    fragmentation is never introduced by missed coalescing. *)
Theorem allocate_pages_oom_iff (mm : MemoryManager) (count : Z)
    (Hwf : mm_wf mm) (Hc : 1 <= count <= MAX_PAGES) :
  (∃ e mm', allocate_pages mm count = Ret (Err e, mm')) ↔ ∀ s, ¬ free_run mm s count.
Proof.
  destruct Hwf as [l Hinv]. pose proof (allocate_pages_spec mm l count Hinv ltac:(lia)) as Hs.
  destruct (allocate_pages mm count) as [[[addr|e] mm']| |]; try done; destruct Hs as [_ Hpost].
  - split; [naive_solver|]. destruct Hpost as (s & _ & _ & Hrun & _). intros Hno. by destruct (Hno s).
  - split; [|naive_solver]. intros _.
    destruct Hpost as (_ & _ & [[? _]|[[? _]|(_ & _ & Hno)]]); [lia|lia|done].
Qed.

Lemma allocate_pages_oom_iff_witness :
  ∃ mm, allocate_pages boot 1024 = Ret (Ok 0, mm) ∧ ∀ s, ¬ free_run mm s 1.
Proof.
  eexists. split; [vm_compute; reflexivity|].
  match goal with |- ∀ s, ¬ free_run ?m s 1 =>
    assert (allocate_pages boot 1024 = Ret (Ok 0, m)) as Heq by (vm_compute; reflexivity);
    pose proof (allocate_pages_spec boot _ 1024 boot_inv ltac:(lia)) as Hs;
    rewrite Heq in Hs; destruct Hs as [Hwf _];
    apply (allocate_pages_oom_iff m 1 Hwf ltac:(unfold MAX_PAGES; lia))
  end.
  eexists _, _. vm_compute. reflexivity.
Defined.

(** Two well-formed managers with the same state on every page. *)
Lemma page_at_ext mm mm' :
  mm_wf mm → mm_wf mm' → (∀ p, 0 <= p < MAX_PAGES → page_at mm p = page_at mm' p) →
  pages mm = pages mm'.
Proof.
  intros [l H] [l' H'] Hp. apply list_eq. intros i.
  destruct (decide (i < Z.to_nat MAX_PAGES)%nat) as [Hi|Hi].
  - specialize (Hp (Z.of_nat i) ltac:(lia)). unfold page_at in Hp. by rewrite Nat2Z.id in Hp.
  - rewrite !lookup_ge_None_2; [done|rewrite (inv_pages_len _ _ H'); lia|rewrite (inv_pages_len _ _ H); lia].
Qed.

(**  Placement: the address returned is the start of a maximal run of free
    pages that is long enough; first fit takes the one at the lowest address,
    best fit the shortest, worst fit the longest. *)
Theorem allocate_pages_placement (mm mm' : MemoryManager) (count s : Z)
    (Hwf : mm_wf mm) (Hc : 0 <= count)
    (Hok : allocate_pages mm count = Ret (Ok (s * PAGE_SIZE), mm')) :
  ∃ c, maximal_run mm s c ∧ count <= c ∧
    ∀ s' c', maximal_run mm s' c' → count <= c' →
      match strategy mm with FirstFit => s <= s' | BestFit => c <= c' | WorstFit => c' <= c end.
Proof.
  destruct Hwf as [l Hinv]. pose proof (allocate_pages_spec mm l count Hinv Hc) as Hs.
  rewrite Hok in Hs. destruct Hs as [_ (s' & Heq & _ & _ & _ & _ & Hp)].
  assert (s' = s) as -> by (unfold PAGE_SIZE in Heq; lia). exact Hp.
Qed.

Lemma allocate_pages_placement_witness :
  ∃ c, maximal_run boot 0 c ∧ 7 <= c.
Proof.
  destruct (allocate_pages boot 7) as [[r mm']| |] eqn:E; [|by vm_compute in E..].
  assert (r = Ok (0 * PAGE_SIZE)) as -> by (vm_compute in E; injection E as <- _; reflexivity).
  destruct (allocate_pages_placement boot mm' 7 0 boot_wf ltac:(lia) E) as (c & ? & ? & _).
  exists c. by split.
Defined.

(** C40.  [free_pages] with any 64-bit address and count: unless the address is
    among the managed pages and the start page plus the count passes 2^64, in
    which case it panics, it returns, keeps the invariant, and on each branch does
    what its error says: it frees the run exactly when every page of it is
    allocated, reports the first page that is not as a double free, and leaves the
    manager unchanged on every error. *)
Theorem free_pages_correct (mm : MemoryManager) (addr count : Z)
    (Hwf : mm_wf mm) (Ha : 0 <= addr <= U64_MAX) (Hc : 0 <= count <= U64_MAX) :
  if decide (free_fits addr count) then
    ∃ r mm', free_pages mm addr count = Ret (r, mm') ∧ mm_wf mm' ∧ free_post mm addr count r mm'
  else free_pages mm addr count = Panic.
Proof.
  case_decide as Hfit; [|apply free_pages_overflow_panics; [lia|done]]. destruct Hwf as [l Hinv].
  pose proof (free_pages_spec mm l addr count Hinv (proj1 Ha) (proj1 Hc) Hfit) as Hs.
  apply returns_ret in Hs as ([r mm'] & ? & ? & ?). eauto.
Qed.

Lemma free_pages_correct_witness :
  free_pages boot 8192 1 = Ret (Err (DoubleFree 8192), boot) ∧
  (∃ r mm', free_pages boot 8192 1 = Ret (r, mm') ∧ mm_wf mm' ∧ free_post boot 8192 1 r mm') ∧
  free_pages boot 4096 U64_MAX = Panic.
Proof.
  split; [vm_compute; reflexivity|]. split.
  - pose proof (free_pages_correct boot 8192 1 boot_wf ltac:(lia) ltac:(lia)) as H.
    rewrite decide_True in H; [exact H|]. right. vm_compute. done.
  - pose proof (free_pages_correct boot 4096 U64_MAX boot_wf ltac:(lia) ltac:(lia)) as H.
    rewrite decide_False in H; [exact H|]. intros [H'|H']; vm_compute in H'; done.
Defined.

(** Round trip: freeing what [allocate_pages] just returned succeeds and
    restores the state of every page and the number of allocated pages. *)
Theorem allocate_free_roundtrip (mm mm1 : MemoryManager) (count addr : Z)
    (Hwf : mm_wf mm) (Hc : 0 <= count) (Hok : allocate_pages mm count = Ret (Ok addr, mm1)) :
  ∃ mm2, free_pages mm1 addr count = Ret (Ok tt, mm2) ∧ mm_wf mm2 ∧
    pages mm2 = pages mm ∧ allocated_pages mm2 = allocated_pages mm.
Proof.
  destruct Hwf as [l Hinv]. pose proof (allocate_pages_spec mm l count Hinv Hc) as Hs.
  rewrite Hok in Hs. destruct Hs as [[l1 Hinv1] (s & -> & Hc1 & (Hs0 & Hs1 & Hfree) & Hat & Hal & _)].
  pose proof (free_pages_spec mm1 l1 (s * PAGE_SIZE) count Hinv1 ltac:(unfold PAGE_SIZE; lia) ltac:(lia)) as Hf.
  apply returns_ret in Hf as ([r mm2] & Hf & Hwf2 & Hpost); [|right; rewrite Z.div_mul by done; unfold MAX_PAGES in *; lia].
  assert (s * PAGE_SIZE / PAGE_SIZE = s) as Hdiv by (by rewrite Z.div_mul).
  unfold free_post in Hpost. rewrite Hdiv in Hpost. destruct r as [[]|e].
  - destruct Hpost as (_ & _ & _ & _ & Hat2 & Hal2). exists mm2. split_and!; [done|done| |lia].
    apply (page_at_ext mm2 mm Hwf2 (ex_intro _ l Hinv)). intros p Hp.
    rewrite Hat2, Hat by done. case_bool_decide; [symmetry; auto|done].
  - exfalso. destruct Hpost as (_ & [[? _]|[(_ & ? & _)|[(_ & ? & _)|(_ & _ & j & Hj & Hfj & _)]]]);
      try (unfold MAX_PAGES, PAGE_SIZE in *; lia).
    rewrite Hat in Hfj by lia. by rewrite bool_decide_eq_true_2 in Hfj.
Qed.

Lemma allocate_free_roundtrip_witness :
  ∃ mm1 mm2, allocate_pages boot 5 = Ret (Ok 0, mm1) ∧
    free_pages mm1 0 5 = Ret (Ok tt, mm2) ∧ pages mm2 = pages boot.
Proof.
  destruct (allocate_pages boot 5) as [[r mm1]| |] eqn:E; [|by vm_compute in E..].
  assert (r = Ok 0) as -> by (vm_compute in E; congruence).
  destruct (allocate_free_roundtrip boot mm1 5 0 boot_wf ltac:(lia) E) as (mm2 & ? & _ & ? & _).
  exists mm1, mm2. by split_and!.
Defined.

(** Freeing the same range twice: after a successful [free_pages] the same
    call reports a double free at the first page of the range and changes
    nothing. *)
Theorem free_twice_is_double_free (mm mm1 : MemoryManager) (addr count : Z)
    (Hwf : mm_wf mm) (Ha : 0 <= addr) (Hc : 0 <= count)
    (Hok : free_pages mm addr count = Ret (Ok tt, mm1)) :
  free_pages mm1 addr count = Ret (Err (DoubleFree (addr / PAGE_SIZE * PAGE_SIZE)), mm1).
Proof.
  destruct (decide (free_fits addr count)) as [Hfit|Hfit]; [|by rewrite free_pages_overflow_panics in Hok].
  destruct Hwf as [l Hinv]. pose proof (free_pages_spec mm l addr count Hinv Ha Hc Hfit) as Hs.
  rewrite Hok in Hs. destruct Hs as [[l1 Hinv1] (Hc1 & Ha1 & He & _ & Hat & _)].
  assert (0 <= addr / PAGE_SIZE) by (apply Z.div_pos; unfold PAGE_SIZE; lia).
  pose proof (free_pages_spec mm1 l1 addr count Hinv1 Ha Hc Hfit) as Hs.
  apply returns_ret in Hs as ([r mm2] & Hf & _ & Hpost). rewrite Hf.
  assert (∀ p, addr / PAGE_SIZE <= p < addr / PAGE_SIZE + count → page_at mm1 p = Some Free) as Hfree.
  { intros p Hp. rewrite Hat by lia. by rewrite bool_decide_eq_true_2. }
  destruct r as [[]|e]; unfold free_post in Hpost.
  - destruct Hpost as (_ & _ & _ & Hall & _).
    destruct (Hall (addr / PAGE_SIZE)) as [n Hn]; [lia|]. rewrite Hfree in Hn by lia. done.
  - destruct Hpost as (-> & [[? _]|[(_ & ? & _)|[(_ & ? & _)|(_ & _ & j & Hj & _ & Hall & ->)]]]); [lia..|].
    destruct (decide (j = addr / PAGE_SIZE)) as [->|Hne]; [done|].
    destruct (Hall (addr / PAGE_SIZE)) as [n Hn]; [lia|]. rewrite Hfree in Hn by lia. done.
Qed.

Lemma free_twice_is_double_free_witness :
  ∃ mm mm1, allocate_pages boot 3 = Ret (Ok 0, mm) ∧ free_pages mm 4096 2 = Ret (Ok tt, mm1) ∧
    free_pages mm1 4096 2 = Ret (Err (DoubleFree 4096), mm1).
Proof.
  destruct (allocate_pages boot 3) as [[r mm]| |] eqn:E; [|by vm_compute in E..].
  assert (r = Ok 0) as -> by (vm_compute in E; congruence).
  pose proof (allocate_pages_spec boot _ 3 boot_inv ltac:(lia)) as Hs. rewrite E in Hs.
  destruct (free_pages mm 4096 2) as [[r1 mm1]| |] eqn:E1;
    [|vm_compute in E; injection E as <-; by vm_compute in E1..].
  assert (r1 = Ok tt) as -> by (vm_compute in E; injection E as <-; vm_compute in E1; congruence).
  exists mm, mm1. split; [done|]. split; [done|].
  apply (free_twice_is_double_free mm mm1 4096 2 (proj1 Hs)); [lia|unfold MAX_PAGES; lia|done].
Defined.

(** [largest_free_block] returns the largest request that can be served:
    there is a run of [count] free pages exactly when [count] is at most its
    result. *)
Theorem largest_free_block_correct (mm : MemoryManager) (Hwf : mm_wf mm) :
  ∃ n, largest_free_block mm = Ret n ∧
    ∀ count, 1 <= count → (∃ s, free_run mm s count) ↔ count <= n.
Proof.
  destruct Hwf as [l Hinv]. unfold largest_free_block.
  pose proof (inv_flist _ _ Hinv) as Hl.
  rewrite (largest_loop_spec _ _ _ l) by (done || by eapply flist_fuel).
  eexists. split; [done|]. intros count Hc. destruct (largest_max l 0) as (H1 & _ & H2). split.
  - intros [s Hrun].
    destruct (covered_interval 0 l s count) as (i & s' & c' & Hin & ? & ?);
      [apply Hinv|lia|apply (free_run_covers _ _ Hinv); [lia|done]|].
    specialize (H1 _ Hin). simpl in H1. lia.
  - intros Hle. destruct H2 as [H2|(n & Hin & H2)]; [lia|]. destruct n as [i [s c]]. simpl in H2.
    exists s. destruct (elem_free_run _ _ Hinv i s c Hin) as (_ & ? & ? & Hp).
    split_and!; [done|lia|]. intros p ?. apply Hp. lia.
Qed.

Lemma largest_free_block_correct_witness :
  ∃ n, largest_free_block boot = Ret n ∧ ((∃ s, free_run boot s 1024) ↔ 1024 <= n).
Proof.
  destruct (largest_free_block_correct boot boot_wf) as (n & ? & H).
  exists n. split; [done|]. apply H. lia.
Defined.
