(* ===== verification/Scheduler.v ===== *)
(** * The cooperative scheduler (mielin-kernel/src/scheduler.rs)

    The task table, the metrics, the operations of [Scheduler] and the functions
    on the global instance, which the timer and the real-time mutexes call. *)

From stdpp Require Import base tactics option list numbers.
From Stdlib Require Import SpecFloat.
From S2P Require Import Prelude Float Errors.

(* src: mielin-kernel/src/scheduler.rs 73-73 MAX_TASKS *)
Definition MAX_TASKS : Z := 64.

(** ** Metrics *)
Module SchedulerMetrics.

(* src: mielin-kernel/src/scheduler.rs 81-98 SchedulerMetrics *)
Record SchedulerMetrics : Type := mk {
  tasks_spawned : Z;
  tasks_terminated : Z;
  schedule_calls : Z;
  schedule_idle : Z;
  yield_calls : Z;
  active_tasks : Z;
  peak_tasks : Z;
  spawn_failures : Z;
}.

(* src: mielin-kernel/src/scheduler.rs 101-112 SchedulerMetrics::new *)
Definition new : SchedulerMetrics := mk 0 0 0 0 0 0 0 0.

(** The scheduler is reached through [&mut] or behind its lock, so the
    compare-exchange loop on the peak ends with the larger of the two values. *)
(* src: mielin-kernel/src/scheduler.rs 114-130 SchedulerMetrics::record_spawn *)
Definition record_spawn (m : SchedulerMetrics) : outcome SchedulerMetrics :=
  let! active := usize_add (active_tasks m) 1 in
  Ret (mk (wrap64 (tasks_spawned m + 1)) (tasks_terminated m) (schedule_calls m)
          (schedule_idle m) (yield_calls m) (wrap64 (active_tasks m + 1))
          (if peak_tasks m <? active then active else peak_tasks m) (spawn_failures m)).

(* src: mielin-kernel/src/scheduler.rs 132-135 SchedulerMetrics::record_terminate *)
Definition record_terminate (m : SchedulerMetrics) : SchedulerMetrics :=
  mk (tasks_spawned m) (wrap64 (tasks_terminated m + 1)) (schedule_calls m)
     (schedule_idle m) (yield_calls m) (wrap64 (active_tasks m - 1))
     (peak_tasks m) (spawn_failures m).

(* src: mielin-kernel/src/scheduler.rs 137-142 SchedulerMetrics::record_schedule *)
Definition record_schedule (m : SchedulerMetrics) (task_found : bool) : SchedulerMetrics :=
  mk (tasks_spawned m) (tasks_terminated m) (wrap64 (schedule_calls m + 1))
     (if negb task_found then wrap64 (schedule_idle m + 1) else schedule_idle m)
     (yield_calls m) (active_tasks m) (peak_tasks m) (spawn_failures m).

(* src: mielin-kernel/src/scheduler.rs 144-146 SchedulerMetrics::record_yield *)
Definition record_yield (m : SchedulerMetrics) : SchedulerMetrics :=
  mk (tasks_spawned m) (tasks_terminated m) (schedule_calls m)
     (schedule_idle m) (wrap64 (yield_calls m + 1)) (active_tasks m)
     (peak_tasks m) (spawn_failures m).

(* src: mielin-kernel/src/scheduler.rs 148-150 SchedulerMetrics::record_spawn_failure *)
Definition record_spawn_failure (m : SchedulerMetrics) : SchedulerMetrics :=
  mk (tasks_spawned m) (tasks_terminated m) (schedule_calls m)
     (schedule_idle m) (yield_calls m) (active_tasks m)
     (peak_tasks m) (wrap64 (spawn_failures m + 1)).

End SchedulerMetrics.
Abbreviation SchedulerMetrics := SchedulerMetrics.SchedulerMetrics.

Module SchedulerMetricsSnapshot.

(* src: mielin-kernel/src/scheduler.rs 169-186 SchedulerMetricsSnapshot *)
Record SchedulerMetricsSnapshot : Type := mk {
  tasks_spawned : Z;
  tasks_terminated : Z;
  schedule_calls : Z;
  schedule_idle : Z;
  yield_calls : Z;
  active_tasks : Z;
  peak_tasks : Z;
  spawn_failures : Z;
}.

(* src: mielin-kernel/src/scheduler.rs 153-164 SchedulerMetrics::snapshot *)
Definition snapshot (m : SchedulerMetrics) : SchedulerMetricsSnapshot :=
  mk (SchedulerMetrics.tasks_spawned m) (SchedulerMetrics.tasks_terminated m)
     (SchedulerMetrics.schedule_calls m) (SchedulerMetrics.schedule_idle m)
     (SchedulerMetrics.yield_calls m) (SchedulerMetrics.active_tasks m)
     (SchedulerMetrics.peak_tasks m) (SchedulerMetrics.spawn_failures m).

(* src: mielin-kernel/src/scheduler.rs 190-196 SchedulerMetricsSnapshot::utilization *)
Definition utilization (m : SchedulerMetricsSnapshot) : outcome spec_float :=
  if schedule_calls m =? 0 then Ret f64_zero else
  let! busy := usize_sub (schedule_calls m) (schedule_idle m) in
  Ret (f64_div (f64_of_u64 busy) (f64_of_u64 (schedule_calls m))).

(* src: mielin-kernel/src/scheduler.rs 199-204 SchedulerMetricsSnapshot::task_churn_rate *)
Definition task_churn_rate (m : SchedulerMetricsSnapshot) : spec_float :=
  if tasks_spawned m =? 0 then f64_zero
  else f64_div (f64_of_u64 (tasks_terminated m)) (f64_of_u64 (tasks_spawned m)).

End SchedulerMetricsSnapshot.

(** ** Tasks *)

(* src: mielin-kernel/src/scheduler.rs 208-214 TaskState *)
Inductive TaskState : Type := Ready | Running | Suspended | Blocked | Terminated.

#[export] Instance TaskState_eq_dec : EqDecision TaskState.
Proof. solve_decision. Defined.

(* src: mielin-kernel/src/scheduler.rs 217-223 Task *)
Record Task : Type := mkTask {
  id : Z;
  state : TaskState;
  priority : Z;
  cpu_affinity : option Z;
}.

#[export] Instance Task_eq_dec : EqDecision Task.
Proof. solve_decision. Defined.

(* src: mielin-kernel/src/scheduler.rs 235-242 Task::new_with_affinity *)
Definition new_with_affinity (id priority : Z) (cpu_affinity : option Z) : Task :=
  mkTask id Ready priority cpu_affinity.

(* src: mielin-kernel/src/scheduler.rs 226-233 Task::new *)
Definition new_task (id priority : Z) : Task := mkTask id Ready priority None.

(* src: mielin-kernel/src/scheduler.rs 264-266 Task::set_cpu_affinity *)
Definition set_cpu_affinity (t : Task) (a : option Z) : Task := mkTask (id t) (state t) (priority t) a.

(* src: mielin-kernel/src/scheduler.rs 252-254 Task::set_state *)
Definition set_state (t : Task) (s : TaskState) : Task :=
  mkTask (id t) s (priority t) (cpu_affinity t).

(** [task.priority = new_priority]. *)
Definition set_priority (t : Task) (p : Z) : Task :=
  mkTask (id t) (state t) p (cpu_affinity t).

(** ** The scheduler *)

Abbreviation slots := (list (option Task)).

(* src: mielin-kernel/src/scheduler.rs 269-274 Scheduler *)
Record Scheduler : Type := mkScheduler {
  tasks : slots;
  current_task : option Z;
  next_task_id : Z;
  metrics : SchedulerMetrics;
}.

Definition set_tasks (ts : slots) (s : Scheduler) : Scheduler :=
  mkScheduler ts (current_task s) (next_task_id s) (metrics s).
Definition set_metrics (m : SchedulerMetrics) (s : Scheduler) : Scheduler :=
  mkScheduler (tasks s) (current_task s) (next_task_id s) m.
Definition set_current (c : option Z) (s : Scheduler) : Scheduler :=
  mkScheduler (tasks s) c (next_task_id s) (metrics s).

(** [for slot in self.tasks.iter_mut() { if slot.is_none() { *slot = Some(t); return .. } }]:
    the table with [t] in its first empty slot, if there is one. *)
Fixpoint fill_first (ts : slots) (t : Task) : option slots :=
  match ts with
  | [] => None
  | None :: ts' => Some (Some t :: ts')
  | Some x :: ts' => cons (Some x) <$> fill_first ts' t
  end.

(** A loop over the table that rewrites the first task that [p] selects and
    stops there. *)
Fixpoint update_first (p : Task → bool) (f : Task → option Task) (ts : slots) : option slots :=
  match ts with
  | [] => None
  | None :: ts' => cons None <$> update_first p f ts'
  | Some t :: ts' =>
    if p t then Some (f t :: ts') else cons (Some t) <$> update_first p f ts'
  end.

(** The first task that [p] selects. *)
Fixpoint find_first (p : Task → bool) (ts : slots) : option Task :=
  match ts with
  | [] => None
  | None :: ts' => find_first p ts'
  | Some t :: ts' => if p t then Some t else find_first p ts'
  end.

Definition has_id (i : Z) (t : Task) : bool := id t =? i.

Module Scheduler.

(* src: mielin-kernel/src/scheduler.rs 287-294 Scheduler::new *)
Definition new : Scheduler :=
  mkScheduler (replicate (Z.to_nat MAX_TASKS) None) None 0 SchedulerMetrics.new.

(* src: mielin-kernel/src/scheduler.rs 300-324 Scheduler::spawn_task_with_affinity *)
Definition spawn_task_with_affinity (self : Scheduler) (priority : Z) (cpu_affinity : option Z)
    : outcome (result Z KernelError * Scheduler) :=
  let task_id := next_task_id self in
  match fill_first (tasks self) (new_with_affinity task_id priority cpu_affinity) with
  | Some ts =>
    let! next := usize_add (next_task_id self) 1 in
    let! m := SchedulerMetrics.record_spawn (metrics self) in
    Ret (Ok task_id, mkScheduler ts (current_task self) next m)
  | None =>
    Ret (Err TaskSpawnFailed,
         set_metrics (SchedulerMetrics.record_spawn_failure (metrics self)) self)
  end.

(* src: mielin-kernel/src/scheduler.rs 296-298 Scheduler::spawn_task *)
Definition spawn_task (self : Scheduler) (priority : Z) :=
  spawn_task_with_affinity self priority None.

(** The selection loop of [schedule]: among ready tasks with priority at least
    the best so far, the later slot wins. *)
Fixpoint select_loop (ts : slots) (idx highest_priority : Z) (selected : option Z) : option Z :=
  match ts with
  | [] => selected
  | None :: ts' => select_loop ts' (idx + 1) highest_priority selected
  | Some t :: ts' =>
    if bool_decide (state t = Ready) && (highest_priority <=? priority t)
    then select_loop ts' (idx + 1) (priority t) (Some idx)
    else select_loop ts' (idx + 1) highest_priority selected
  end.

(* src: mielin-kernel/src/scheduler.rs 326-348 Scheduler::schedule *)
Definition schedule (self : Scheduler) : outcome (option Z * Scheduler) :=
  let selected_task := select_loop (tasks self) 0 0 None in
  let! self1 :=
    match selected_task with
    | Some idx =>
      let! slot := arr_get (tasks self) idx in
      match slot with
      | Some task =>
        let! ts := arr_set (tasks self) idx (Some (set_state task Running)) in
        Ret (set_current (Some idx) (set_tasks ts self))
      | None => Ret self
      end
    | None => Ret self
    end in
  Ret (selected_task,
       set_metrics
         (SchedulerMetrics.record_schedule (metrics self1)
            (if selected_task is Some _ then true else false)) self1).

(* src: mielin-kernel/src/scheduler.rs 350-358 Scheduler::yield_task *)
Definition yield_task (self : Scheduler) : outcome Scheduler :=
  match current_task self with
  | Some idx =>
    let! slot := arr_get (tasks self) idx in
    let! ts :=
      match slot with
      | Some task => arr_set (tasks self) idx (Some (set_state task Ready))
      | None => Ret (tasks self)
      end in
    Ret (set_metrics (SchedulerMetrics.record_yield (metrics self))
           (set_current None (set_tasks ts self)))
  | None => Ret self
  end.

(** The state change to [Terminated] is overwritten by the empty slot. *)
(* src: mielin-kernel/src/scheduler.rs 360-371 Scheduler::terminate_task *)
Definition terminate_task (self : Scheduler) (task_id : Z) : Scheduler :=
  match update_first (has_id task_id) (λ _, None) (tasks self) with
  | Some ts =>
    set_metrics (SchedulerMetrics.record_terminate (metrics self)) (set_tasks ts self)
  | None => self
  end.

(* src: mielin-kernel/src/scheduler.rs 373-375 Scheduler::active_tasks *)
Definition active_tasks (self : Scheduler) : Z :=
  count_if (λ t, if t is Some _ then true else false) (tasks self).

(* src: mielin-kernel/src/scheduler.rs 378-380 Scheduler::metrics *)
Definition metrics_snapshot (self : Scheduler) : SchedulerMetricsSnapshot.SchedulerMetricsSnapshot :=
  SchedulerMetricsSnapshot.snapshot (metrics self).

(* src: mielin-kernel/src/scheduler.rs 383-387 Scheduler::get_task *)
Definition get_task (self : Scheduler) (task_id : Z) : option Task :=
  find_first (has_id task_id) (tasks self).

(** A task that [extract_task] lets go. *)
Definition migratable (t : Task) : bool :=
  negb (bool_decide (state t = Running)) && negb (bool_decide (state t = Terminated)) &&
  (if cpu_affinity t is Some _ then false else true).

(* src: mielin-kernel/src/scheduler.rs 391-417 Scheduler::extract_task *)
Definition extract_task (self : Scheduler) (task_id : Z) : option Task * Scheduler :=
  match find_first (has_id task_id) (tasks self) with
  | Some task =>
    if migratable task then
      match update_first (has_id task_id) (λ _, None) (tasks self) with
      | Some ts => (Some task, set_tasks ts self)
      | None => (None, self)
      end
    else (None, self)
  | None => (None, self)
  end.

(* src: mielin-kernel/src/scheduler.rs 421-432 Scheduler::inject_task *)
Definition inject_task (self : Scheduler) (task : Task) : bool * Scheduler :=
  match fill_first (tasks self) (set_state task Ready) with
  | Some ts => (true, set_tasks ts self)
  | None => (false, self)
  end.

(* src: mielin-kernel/src/scheduler.rs 435-460 Scheduler::migratable_tasks *)
Definition migratable_tasks (self : Scheduler) (current_cpu : Z) : list Z :=
  omap (λ slot,
    match slot with
    | None => None
    | Some task =>
      if bool_decide (state task = Running) || bool_decide (state task = Terminated) then None
      else if (if cpu_affinity task is Some affinity then negb (affinity =? current_cpu) else false)
      then None
      else if (if cpu_affinity task is Some _ then true else false) then None
      else Some (id task)
    end) (tasks self).

(* src: mielin-kernel/src/scheduler.rs 463-470 Scheduler::get_task_priority *)
Definition get_task_priority (self : Scheduler) (task_id : Z) : result Z KernelError :=
  match find_first (has_id task_id) (tasks self) with
  | Some task => Ok (priority task)
  | None => Err (TaskNotFound task_id)
  end.

(* src: mielin-kernel/src/scheduler.rs 473-485 Scheduler::set_task_priority *)
Definition set_task_priority (self : Scheduler) (task_id new_priority : Z)
    : result unit KernelError * Scheduler :=
  match update_first (has_id task_id) (λ t, Some (set_priority t new_priority)) (tasks self) with
  | Some ts => (Ok tt, set_tasks ts self)
  | None => (Err (TaskNotFound task_id), self)
  end.

End Scheduler.

(** ** The global scheduler *)
Module Global.

Definition global : Type := option Scheduler.

(* src: mielin-kernel/src/scheduler.rs 489-493 init *)
Definition init (g : global) : result unit KernelError * global := (Ok tt, Some Scheduler.new).

(* src: mielin-kernel/src/scheduler.rs 496-502 spawn_task *)
Definition spawn_task (g : global) (priority : Z) : outcome (result Z KernelError * global) :=
  with_global SchedulerInitFailed g (λ s, Scheduler.spawn_task s priority).

(* src: mielin-kernel/src/scheduler.rs 505-508 schedule *)
Definition schedule (g : global) : outcome (option Z * global) :=
  match g with
  | None => Ret (None, None)
  | Some s => let! (r, s') := Scheduler.schedule s in Ret (r, Some s')
  end.

(* src: mielin-kernel/src/scheduler.rs 511-516 yield_current *)
Definition yield_current (g : global) : outcome global :=
  match g with
  | None => Ret None
  | Some s => let! s' := Scheduler.yield_task s in Ret (Some s')
  end.

(* src: mielin-kernel/src/scheduler.rs 519-522 metrics *)
Definition metrics (g : global) : option SchedulerMetricsSnapshot.SchedulerMetricsSnapshot := Scheduler.metrics_snapshot <$> g.

(* src: mielin-kernel/src/scheduler.rs 525-530 terminate_task *)
Definition terminate_task (g : global) (task_id : Z) : global :=
  (λ s, Scheduler.terminate_task s task_id) <$> g.

(* src: mielin-kernel/src/scheduler.rs 533-535 yield_task *)
Definition yield_task (g : global) : outcome global := yield_current g.

(* src: mielin-kernel/src/scheduler.rs 540-553 wake_task *)
Definition wake_task (g : global) (task_id : Z) : result unit KernelError * global :=
  match g with
  | None => (Err SchedulerNotInitialized, None)
  | Some s =>
    match update_first
            (λ t, has_id task_id t && bool_decide (state t = Blocked))
            (λ t, Some (set_state t Ready)) (tasks s) with
    | Some ts => (Ok tt, Some (set_tasks ts s))
    | None => (Err (TaskNotFound task_id), Some s)
    end
  end.

(* src: mielin-kernel/src/scheduler.rs 556-560 get_task_priority *)
Definition get_task_priority (g : global) (task_id : Z) : result Z KernelError :=
  match g with
  | None => Err SchedulerNotInitialized
  | Some s => Scheduler.get_task_priority s task_id
  end.

(* src: mielin-kernel/src/scheduler.rs 563-567 set_task_priority *)
Definition set_task_priority (g : global) (task_id new_priority : Z)
    : result unit KernelError * global :=
  match g with
  | None => (Err SchedulerNotInitialized, None)
  | Some s => let '(r, s') := Scheduler.set_task_priority s task_id new_priority in (r, Some s')
  end.

(* src: mielin-kernel/src/scheduler.rs 572-575 current_task_id *)
Definition current_task_id (g : global) : option Z := g ≫= current_task.

(** The loop looks for the task whose id equals the number in [current_task],
    which is a slot index; then [yield_task] marks the task in that slot ready. *)
(* src: mielin-kernel/src/scheduler.rs 581-596 block_current_task *)
Definition block_current_task (g : global) : outcome global :=
  match g with
  | None => Ret None
  | Some s =>
    match current_task s with
    | None => Ret (Some s)
    | Some current_id =>
      let s1 :=
        match update_first (has_id current_id) (λ t, Some (set_state t Blocked)) (tasks s) with
        | Some ts => set_tasks ts s
        | None => s
        end in
      let! s2 := Scheduler.yield_task s1 in
      Ret (Some s2)
    end
  end.

End Global.
