(* ===== verification/SchedulerInv.v ===== *)
(** * The scheduler's invariants

    Lemmas on the loops over the task table, the specification of selection
    ([best_slot]), what each operation does to the state, and the two
    invariants: [sched_inv], of every run, and [single_running], of runs in
    which [schedule] is called with no current task. *)

From stdpp Require Import base tactics option list numbers relations.
From S2P Require Import Prelude Errors Scheduler.

Ltac slia := unfold MAX_TASKS in *; lia.

(** Slot [k] of the table holds the task [t]. *)
Definition slot_task (ts : slots) (k : nat) (t : Task) : Prop := ts !! k = Some (Some t).

(** ** The loops over the table *)

Lemma fill_first_some ts t ts' :
  fill_first ts t = Some ts' →
  ∃ k, ts !! k = Some None ∧ ts' = <[k := Some t]> ts ∧ ∀ j, (j < k)%nat → ∃ u, slot_task ts j u.
Proof.
  unfold slot_task. revert ts'. induction ts as [|[x|] ts IH]; intros ts' Hf; simplify_eq/=.
  - apply fmap_Some in Hf as (ts1 & Hf & ->). destruct (IH _ Hf) as (k & ? & -> & Hj).
    exists (S k). split_and!; [done|done|]. intros [|j] ?; simpl; [eauto|apply Hj; lia].
  - exists 0%nat. split_and!; [done|done|]. lia.
Qed.

Lemma fill_first_none ts t : fill_first ts t = None ↔ ∀ k, ts !! k ≠ Some None.
Proof.
  induction ts as [|[x|] ts IH]; simpl.
  - done.
  - rewrite fmap_None, IH. split; intros H k; [destruct k; [done|apply H]|apply (H (S k))].
  - split; [done|]. intros H. by destruct (H 0%nat).
Qed.

Lemma update_first_some p f ts ts' :
  update_first p f ts = Some ts' →
  ∃ k t, slot_task ts k t ∧ p t = true ∧ ts' = <[k := f t]> ts ∧
    ∀ j u, (j < k)%nat → slot_task ts j u → p u = false.
Proof.
  unfold slot_task. revert ts'. induction ts as [|[x|] ts IH]; intros ts' Hf; simplify_eq/=.
  - destruct (p x) eqn:Hp; simplify_eq.
    + exists 0%nat, x. split_and!; [done|done|done|]. lia.
    + apply fmap_Some in Hf as (ts1 & Hf & ->). destruct (IH _ Hf) as (k & t & ? & ? & -> & Hj).
      exists (S k), t. split_and!; [done|done|done|]. intros [|j] u ? ?; simplify_eq/=; [done|].
      eapply (Hj j); [lia|done].
  - apply fmap_Some in Hf as (ts1 & Hf & ->). destruct (IH _ Hf) as (k & t & ? & ? & -> & Hj).
    exists (S k), t. split_and!; [done|done|done|]. intros [|j] u ? ?; simplify_eq/=.
    eapply (Hj j); [lia|done].
Qed.

Lemma update_first_none p f ts :
  update_first p f ts = None ↔ ∀ k t, slot_task ts k t → p t = false.
Proof.
  unfold slot_task. induction ts as [|[x|] ts IH]; simpl.
  - done.
  - destruct (p x) eqn:Hp.
    + split; [done|]. intros H. specialize (H 0%nat x eq_refl). congruence.
    + rewrite fmap_None, IH. split; intros H k t Hk; [destruct k; simplify_eq/=; eauto|by apply (H (S k))].
  - rewrite fmap_None, IH. split; intros H k t Hk; [destruct k; simplify_eq/=; eauto|by apply (H (S k))].
Qed.

Lemma find_first_some p ts t :
  find_first p ts = Some t →
  ∃ k, slot_task ts k t ∧ p t = true ∧ ∀ j u, (j < k)%nat → slot_task ts j u → p u = false.
Proof.
  unfold slot_task. induction ts as [|[x|] ts IH]; intros Hf; simplify_eq/=.
  - destruct (p x) eqn:Hp; simplify_eq.
    + exists 0%nat. split_and!; [done|done|]. lia.
    + destruct (IH Hf) as (k & ? & ? & Hj). exists (S k). split_and!; [done|done|].
      intros [|j] u ? ?; simplify_eq/=; [done|]. eapply (Hj j); [lia|done].
  - destruct (IH Hf) as (k & ? & ? & Hj). exists (S k). split_and!; [done|done|].
    intros [|j] u ? ?; simplify_eq/=. eapply (Hj j); [lia|done].
Qed.

Lemma find_first_none p ts : find_first p ts = None ↔ ∀ k t, slot_task ts k t → p t = false.
Proof.
  unfold slot_task. induction ts as [|[x|] ts IH]; simpl.
  - done.
  - destruct (p x) eqn:Hp.
    + split; [done|]. intros H. specialize (H 0%nat x eq_refl). congruence.
    + rewrite IH. split; intros H k t Hk; [destruct k; simplify_eq/=; eauto|by apply (H (S k))].
  - rewrite IH. split; intros H k t Hk; [destruct k; simplify_eq/=; eauto|by apply (H (S k))].
Qed.

(** The slot a search stops at is unique. *)
Lemma first_unique (p : Task → bool) ts k k' t t' :
  slot_task ts k t → p t = true → (∀ j u, (j < k)%nat → slot_task ts j u → p u = false) →
  slot_task ts k' t' → p t' = true → (∀ j u, (j < k')%nat → slot_task ts j u → p u = false) →
  k = k' ∧ t = t'.
Proof.
  intros Hk Hp Hlt Hk' Hp' Hlt'. assert (k = k') as ->.
  { destruct (Nat.lt_trichotomy k k') as [H|[H|H]]; [|done|].
    - rewrite (Hlt' k t H Hk) in Hp. done.
    - rewrite (Hlt k' t' H Hk') in Hp'. done. }
  unfold slot_task in *. split; congruence.
Qed.

Lemma slot_insert ts k o j u :
  slot_task (<[k := o]> ts) j u →
  (j = k ∧ o = Some u) ∨ (j ≠ k ∧ slot_task ts j u).
Proof.
  unfold slot_task. destruct (decide (j = k)) as [->|Hne].
  - destruct (decide (k < length ts)%nat).
    + rewrite list_lookup_insert_eq by done. intros [= ->]. by left.
    + rewrite list_insert_ge by lia. intros Hk%lookup_lt_Some. lia.
  - rewrite list_lookup_insert_ne by done. by right.
Qed.

(** ** Selection *)

(** The slot that [schedule] must pick: a ready task of the highest priority,
    in the last slot among those of that priority. *)
Definition best_slot (ts : slots) (k : nat) (t : Task) : Prop :=
  slot_task ts k t ∧ state t = Ready ∧
  ∀ j u, slot_task ts j u → state u = Ready →
    priority u <= priority t ∧ (priority u = priority t → (j <= k)%nat).

(** What the loop reports on [ts], from index [idx] with the best so far. *)
Definition select_post (ts : slots) (idx hp : Z) (sel r : option Z) : Prop :=
  (r = sel ∧ ∀ j u, slot_task ts j u → state u = Ready → priority u < hp) ∨
  (∃ k t, r = Some (idx + Z.of_nat k) ∧ hp <= priority t ∧ best_slot ts k t).

(** A slot without a ready task of priority [hp] or more changes nothing. *)
Lemma select_post_skip o ts idx hp sel r :
  (∀ x, o = Some x → state x = Ready → priority x < hp) →
  select_post ts (idx + 1) hp sel r → select_post (o :: ts) idx hp sel r.
Proof.
  unfold select_post, best_slot, slot_task.
  intros Ho [[-> Hall]|(k & t & -> & Hk & Ht & Hrt & Hall)].
  - left. split; [done|]. intros [|j] u Hj Hru; simplify_eq/=; eauto.
  - right. exists (S k), t. split; [f_equal; lia|]. split_and!; try done.
    intros [|j] u Hj Hru; simplify_eq/=.
    + specialize (Ho u eq_refl Hru). lia.
    + specialize (Hall j u Hj Hru). lia.
Qed.

Lemma select_loop_spec ts idx hp sel :
  select_post ts idx hp sel (Scheduler.select_loop ts idx hp sel).
Proof.
  revert idx hp sel. induction ts as [|[x|] ts IH]; intros idx hp sel; simpl.
  - left. split; [done|]. intros j u. unfold slot_task. by rewrite lookup_nil.
  - case_bool_decide as Hr; cbn [andb]; [destruct (Z.leb_spec hp (priority x)) as [Hp|Hp]|].
    + right. unfold best_slot, slot_task.
      destruct (IH (idx + 1) (priority x) (Some idx)) as [[-> Hall]|(k & t & -> & Hk & Ht & Hrt & Hall)].
      * exists 0%nat, x. split; [f_equal; lia|]. split_and!; try done.
        intros [|j] u Hj Hru; simplify_eq/=; [lia|]. specialize (Hall j u Hj Hru). lia.
      * exists (S k), t. split; [f_equal; lia|]. split_and!; try done; [lia|].
        intros [|j] u Hj Hru; simplify_eq/=; [lia|]. specialize (Hall j u Hj Hru). lia.
    + apply select_post_skip; [naive_solver|apply IH].
    + apply select_post_skip; [naive_solver|apply IH].
  - apply select_post_skip; [done|apply IH].
Qed.

Lemma best_slot_unique ts k t k' t' :
  best_slot ts k t → best_slot ts k' t' → k = k' ∧ t = t'.
Proof.
  intros (Hk & Hr & Hall) (Hk' & Hr' & Hall').
  destruct (Hall k' t' Hk' Hr'), (Hall' k t Hk Hr). assert (k = k') as <- by lia.
  unfold slot_task in *. split; congruence.
Qed.

(** A search after an update of the first match, for the same test and for a
    test that neither the old nor the new task passes. *)
Lemma update_find_same p g ts ts' :
  (∀ t, p (g t) = p t) → update_first p (λ t, Some (g t)) ts = Some ts' →
  ∃ t, find_first p ts = Some t ∧ find_first p ts' = Some (g t).
Proof.
  intros Hg. revert ts'. induction ts as [|[x|] ts IH]; intros ts' Hu; simplify_eq/=.
  - destruct (p x) eqn:Hp; simplify_eq/=.
    + exists x. by rewrite Hg, Hp.
    + apply fmap_Some in Hu as (ts1 & Hu & ->). simpl. rewrite Hp. by apply IH.
  - apply fmap_Some in Hu as (ts1 & Hu & ->). simpl. by apply IH.
Qed.

Lemma update_find_other p q f ts ts' :
  (∀ t, p t = true → q t = false ∧ from_option q false (f t) = false) →
  update_first p f ts = Some ts' → find_first q ts' = find_first q ts.
Proof.
  intros Hpq. revert ts'. induction ts as [|[x|] ts IH]; intros ts' Hu; simplify_eq/=.
  - destruct (p x) eqn:Hp; simplify_eq/=.
    + destruct (Hpq x Hp) as [-> Hf]. by destruct (f x); simplify_eq/=; rewrite ?Hf.
    + apply fmap_Some in Hu as (ts1 & Hu & ->). simpl. by rewrite (IH _ Hu).
  - apply fmap_Some in Hu as (ts1 & Hu & ->). simpl. by apply IH.
Qed.

(** ** The invariant *)

Record sched_inv (s : Scheduler) : Prop := {
  si_len : length (tasks s) = Z.to_nat MAX_TASKS;
  si_ids : ∀ i j t u, slot_task (tasks s) i t → slot_task (tasks s) j u → id t = id u → i = j;
  si_range : ∀ i t, slot_task (tasks s) i t → 0 <= id t < next_task_id s ∧ 0 <= priority t <= U8_MAX;
  si_next : 0 <= next_task_id s <= U64_MAX;
  si_cur : ∀ c, current_task s = Some c → 0 <= c < MAX_TASKS;
  si_active : SchedulerMetrics.active_tasks (metrics s) = Scheduler.active_tasks s;
  si_peak : Scheduler.active_tasks s <= SchedulerMetrics.peak_tasks (metrics s) <= MAX_TASKS;
}.

(** Under the discipline that [schedule] is called with no current task, the
    current task is the only one that is running. *)
Definition single_running (s : Scheduler) : Prop :=
  ∀ k t, slot_task (tasks s) k t → state t = Running → current_task s = Some (Z.of_nat k).

Lemma slot_range s k t : sched_inv s → slot_task (tasks s) k t → (k < Z.to_nat MAX_TASKS)%nat.
Proof. intros Hi Hk. rewrite <-(si_len _ Hi). by eapply lookup_lt_Some. Qed.

Lemma slot_priority s k t : sched_inv s → slot_task (tasks s) k t → 0 <= priority t <= U8_MAX.
Proof. intros Hi Hk. by destruct (si_range _ Hi k t Hk). Qed.

Lemma slot_get s k t :
  sched_inv s → slot_task (tasks s) k t → arr_get (tasks s) (Z.of_nat k) = Ret (Some t).
Proof. intros Hi Hk. apply arr_get_ok; [lia|]. by rewrite Nat2Z.id. Qed.

Lemma slot_set s k t o :
  sched_inv s → slot_task (tasks s) k t →
  arr_set (tasks s) (Z.of_nat k) o = Ret (<[k := o]> (tasks s)).
Proof.
  intros Hi Hk. pose proof (slot_range _ _ _ Hi Hk). pose proof (si_len _ Hi).
  rewrite arr_set_ok by lia. by rewrite Nat2Z.id.
Qed.

Lemma active_insert s k o o' :
  tasks s !! k = Some o →
  Scheduler.active_tasks (set_tasks (<[k := o']> (tasks s)) s) =
    Scheduler.active_tasks s - (if o is Some _ then 1 else 0) + (if o' is Some _ then 1 else 0).
Proof.
  intros Hk. unfold Scheduler.active_tasks. cbn [tasks set_tasks].
  rewrite (count_if_insert _ _ _ o) by done. by destruct o, o'.
Qed.

(** Rewriting a task in place keeps the invariant when its id stays and its
    priority is a [u8]. *)
Lemma sched_inv_rewrite s k t t' :
  sched_inv s → slot_task (tasks s) k t → id t' = id t → 0 <= priority t' <= U8_MAX →
  sched_inv (set_tasks (<[k := Some t']> (tasks s)) s).
Proof.
  intros Hi Hk Hid Hp.
  assert (Scheduler.active_tasks (set_tasks (<[k := Some t']> (tasks s)) s) = Scheduler.active_tasks s) as Ha.
  { rewrite (active_insert _ _ (Some t)) by done. lia. }
  split; simpl; try apply Hi.
  - rewrite length_insert. apply Hi.
  - intros i j u v [[-> [= <-]]|[? Hu]]%slot_insert [[-> [= <-]]|[? Hv]]%slot_insert Heq; try done.
    + eapply (si_ids _ Hi); [done|done|congruence].
    + eapply (si_ids _ Hi); [done|done|congruence].
    + by eapply (si_ids _ Hi).
  - intros i u [[-> [= <-]]|[? Hu]]%slot_insert; [|by eapply (si_range _ Hi)].
    rewrite Hid. split; [by eapply (si_range _ Hi)|done].
  - rewrite Ha. apply Hi.
  - rewrite Ha. apply Hi.
Qed.

(** Metrics other than the task counts, and the current slot, are free. *)
Lemma sched_inv_metrics s c m :
  sched_inv s → (∀ i, c = Some i → 0 <= i < MAX_TASKS) →
  SchedulerMetrics.active_tasks m = SchedulerMetrics.active_tasks (metrics s) →
  SchedulerMetrics.peak_tasks m = SchedulerMetrics.peak_tasks (metrics s) →
  sched_inv (set_metrics m (set_current c s)).
Proof. intros [] Hc Ha Hp. split; simpl; try done; by rewrite ?Ha, ?Hp. Qed.

Lemma schedule_spec s :
  sched_inv s →
  (∃ k t, best_slot (tasks s) k t ∧
     Scheduler.schedule s = Ret (Some (Z.of_nat k),
       set_metrics (SchedulerMetrics.record_schedule (metrics s) true)
         (set_current (Some (Z.of_nat k))
            (set_tasks (<[k := Some (set_state t Running)]> (tasks s)) s)))) ∨
  ((∀ k t, slot_task (tasks s) k t → state t ≠ Ready) ∧
     Scheduler.schedule s =
       Ret (None, set_metrics (SchedulerMetrics.record_schedule (metrics s) false) s)).
Proof.
  intros Hi. unfold Scheduler.schedule.
  destruct (select_loop_spec (tasks s) 0 0 None) as [[-> Hall]|(k & t & -> & _ & Hb)].
  - right. split; [|done]. intros k t Hk Hr. specialize (Hall k t Hk Hr).
    apply (si_range _ Hi) in Hk. lia.
  - left. exists k, t. split; [done|]. destruct Hb as [Hk _]. rewrite Z.add_0_l.
    rewrite (slot_get _ _ _ Hi Hk). cbn [obind]. rewrite (slot_set _ _ _ _ Hi Hk). done.
Qed.

Lemma yield_spec s :
  sched_inv s →
  (current_task s = None ∧ Scheduler.yield_task s = Ret s) ∨
  (∃ k, current_task s = Some (Z.of_nat k) ∧ (k < Z.to_nat MAX_TASKS)%nat ∧
     Scheduler.yield_task s =
       Ret (set_metrics (SchedulerMetrics.record_yield (metrics s))
         (set_current None
            (set_tasks (match tasks s !! k with
                        | Some (Some t) => <[k := Some (set_state t Ready)]> (tasks s)
                        | _ => tasks s end) s)))).
Proof.
  intros Hi. unfold Scheduler.yield_task. destruct (current_task s) as [c|] eqn:Hc; [|by left].
  right. pose proof (si_cur _ Hi _ Hc) as Hr. exists (Z.to_nat c).
  split; [f_equal; lia|]. split; [lia|].
  destruct (arr_get_range (tasks s) c) as (o & Ho & ->); [rewrite (si_len _ Hi); lia|].
  cbn [obind]. rewrite Ho. destruct o as [t|]; [|done].
  rewrite arr_set_ok by (rewrite (si_len _ Hi); lia). done.
Qed.

Lemma spawn_spec s p a :
  sched_inv s → next_task_id s < U64_MAX → 0 <= p <= U8_MAX →
  (∃ k m, tasks s !! k = Some None ∧ (∀ j, (j < k)%nat → ∃ u, slot_task (tasks s) j u) ∧
     let s' := mkScheduler (<[k := Some (new_with_affinity (next_task_id s) p a)]> (tasks s))
                 (current_task s) (next_task_id s + 1) m in
     Scheduler.spawn_task_with_affinity s p a = Ret (Ok (next_task_id s), s') ∧ sched_inv s') ∨
  ((∀ k, tasks s !! k ≠ Some None) ∧
     let s' := set_metrics (SchedulerMetrics.record_spawn_failure (metrics s)) s in
     Scheduler.spawn_task_with_affinity s p a = Ret (Err TaskSpawnFailed, s') ∧ sched_inv s').
Proof.
  intros Hi Hn Hp. unfold Scheduler.spawn_task_with_affinity.
  destruct (fill_first _ _) as [ts|] eqn:Hf.
  2:{ right. split; [by eapply fill_first_none|]. split; [done|].
      apply (sched_inv_metrics s (current_task s)); try done. apply Hi. }
  left. apply fill_first_some in Hf as (k & Hk & -> & Hlt).
  pose proof (si_next _ Hi). rewrite usize_add_ok by lia. cbn [obind].
  assert (Scheduler.active_tasks s < MAX_TASKS) as Hlt64.
  { unfold Scheduler.active_tasks. eapply Z.lt_le_trans; [by eapply count_if_lt|].
    rewrite (si_len _ Hi). slia. }
  pose proof (count_if_range (λ t, if t is Some _ then true else false) (tasks s)) as Hr.
  fold (Scheduler.active_tasks s) in Hr.
  unfold SchedulerMetrics.record_spawn. rewrite (si_active _ Hi), usize_add_ok by slia. cbn [obind].
  eexists k, _. split_and!; [done|done|done|].
  split; simpl; try apply Hi.
  - rewrite length_insert. apply Hi.
  - intros i j t u [[-> [= <-]]|[? Ht]]%slot_insert [[-> [= <-]]|[? Hu]]%slot_insert; simpl; try done.
    + intros Heq. apply (si_range _ Hi) in Hu. lia.
    + intros Heq. apply (si_range _ Hi) in Ht. lia.
    + by apply (si_ids _ Hi).
  - intros i t [[-> [= <-]]|[? Ht]]%slot_insert; simpl; [lia|].
    apply (si_range _ Hi) in Ht. lia.
  - lia.
  - rewrite wrap64_small by slia.
    pose proof (active_insert s k None (Some (new_with_affinity (next_task_id s) p a)) Hk) as Ha.
    unfold Scheduler.active_tasks in *. simpl in *. lia.
  - pose proof (active_insert s k None (Some (new_with_affinity (next_task_id s) p a)) Hk) as Ha.
    pose proof (si_peak _ Hi). unfold Scheduler.active_tasks in *. simpl in *. case_bool; lia.
Qed.

(** The invariant with the slot [k] emptied and the metrics of a termination. *)
Lemma sched_inv_remove s k t :
  sched_inv s → slot_task (tasks s) k t →
  sched_inv (set_metrics (SchedulerMetrics.record_terminate (metrics s))
               (set_tasks (<[k := None]> (tasks s)) s)).
Proof.
  intros Hi Hk. pose proof (active_insert s k (Some t) None Hk) as Ha.
  assert (0 < Scheduler.active_tasks s) as Hpos by (by eapply count_if_pos).
  pose proof (si_peak _ Hi) as Hpk. pose proof (si_active _ Hi) as Hac.
  split; simpl; try apply Hi.
  - rewrite length_insert. apply Hi.
  - intros i j u v [[-> [=]]|[? Hu]]%slot_insert [[-> [=]]|[? Hv]]%slot_insert.
    by apply (si_ids _ Hi).
  - intros i u [[-> [=]]|[? Hu]]%slot_insert. by eapply (si_range _ Hi).
  - rewrite Hac, wrap64_small by slia. unfold Scheduler.active_tasks in *. simpl in *. lia.
  - unfold Scheduler.active_tasks in *. simpl in *. lia.
Qed.

Lemma terminate_spec s i :
  sched_inv s →
  (∃ k t, slot_task (tasks s) k t ∧ id t = i ∧
     Scheduler.terminate_task s i =
       set_metrics (SchedulerMetrics.record_terminate (metrics s))
         (set_tasks (<[k := None]> (tasks s)) s)) ∨
  ((∀ k t, slot_task (tasks s) k t → id t ≠ i) ∧ Scheduler.terminate_task s i = s).
Proof.
  intros Hi. unfold Scheduler.terminate_task, has_id. destruct (update_first _ _ _) eqn:Hu.
  - left. apply update_first_some in Hu as (k & t & Hk & Hp & -> & _). exists k, t. split_and!; [done| |done]. lia.
  - right. split; [|done]. intros k t Hk. pose proof (proj1 (update_first_none _ _ _) Hu k t Hk). simpl in *. lia.
Qed.

(** Every in-place update of the loops keeps the invariant. *)
Lemma sched_inv_update s p f g ts :
  sched_inv s → (∀ t, f t = Some (g t)) → (∀ t, id (g t) = id t) →
  (∀ t, 0 <= priority t <= U8_MAX → 0 <= priority (g t) <= U8_MAX) →
  update_first p f (tasks s) = Some ts → sched_inv (set_tasks ts s).
Proof.
  intros Hi Hf Hid Hp (k & t & Hk & _ & -> & _)%update_first_some. rewrite Hf.
  apply (sched_inv_rewrite _ _ t); [done|done|apply Hid|]. by apply Hp, (slot_priority s k).
Qed.

Lemma yield_inv s s' : sched_inv s → Scheduler.yield_task s = Ret s' → sched_inv s'.
Proof.
  intros Hi. destruct (yield_spec _ Hi) as [[Hc ->]|(k & Hc & Hk & ->)]; intros [= <-]; [done|].
  match goal with |- context [set_tasks ?x s] => set (ts := x) end.
  assert (sched_inv (set_tasks ts s)) as Hi'.
  { unfold ts. destruct (tasks s !! k) as [[t|]|] eqn:Ht; [|by destruct s|by destruct s].
    apply (sched_inv_rewrite _ _ t); [done|done|done|]. by apply (slot_priority s k t). }
  by apply (sched_inv_metrics _ None _ Hi').
Qed.

Lemma schedule_inv s r s' : sched_inv s → Scheduler.schedule s = Ret (r, s') → sched_inv s'.
Proof.
  intros Hi. destruct (schedule_spec _ Hi) as [(k & t & Hb & ->)|[_ ->]]; intros [= <- <-].
  - destruct Hb as (Hk & _). pose proof (slot_range _ _ _ Hi Hk).
    apply (sched_inv_metrics (set_tasks (<[k := Some (set_state t Running)]> (tasks s)) s)); try done.
    + apply (sched_inv_rewrite _ _ t); [done|done|done|]. by apply (slot_priority s k t).
    + intros ? [= <-]. slia.
  - apply (sched_inv_metrics s (current_task s)); try done. apply Hi.
Qed.

(** ** Task counts *)

Lemma active_lt s k :
  sched_inv s → tasks s !! k = Some None → Scheduler.active_tasks s < MAX_TASKS.
Proof.
  intros Hi Hk. unfold Scheduler.active_tasks. eapply Z.lt_le_trans; [by eapply count_if_lt|].
  rewrite (si_len _ Hi). slia.
Qed.

Lemma active_full s :
  sched_inv s → (∀ k, tasks s !! k ≠ Some None) → Scheduler.active_tasks s = MAX_TASKS.
Proof.
  intros Hi Hno. transitivity (Z.of_nat (length (tasks s))); [|rewrite (si_len _ Hi); slia].
  unfold Scheduler.active_tasks. apply count_if_all. intros k [t|] Hk; [done|]. by destruct (Hno k).
Qed.

(** ** Runs of the scheduler *)

(** One operation of a scheduler.  With [coop] set, [schedule] is only called
    when no task holds the processor, as the module's documentation asks. *)
Inductive sched_step (coop : bool) : relation Scheduler :=
| step_spawn s p a r s' :
    0 <= p <= U8_MAX → next_task_id s < U64_MAX →
    Scheduler.spawn_task_with_affinity s p a = Ret (r, s') → sched_step coop s s'
| step_schedule s r s' :
    (coop = true → current_task s = None) →
    Scheduler.schedule s = Ret (r, s') → sched_step coop s s'
| step_yield s s' :
    Scheduler.yield_task s = Ret s' → sched_step coop s s'
| step_terminate s i :
    sched_step coop s (Scheduler.terminate_task s i)
| step_set_priority s i p r s' :
    0 <= p <= U8_MAX → Scheduler.set_task_priority s i p = (r, s') → sched_step coop s s'
| step_wake s i r s' :
    Global.wake_task (Some s) i = (r, Some s') → sched_step coop s s'
| step_block s s' :
    Global.block_current_task (Some s) = Ret (Some s') → sched_step coop s s'.

Lemma new_inv : sched_inv Scheduler.new.
Proof.
  assert (∀ k t, ¬ slot_task (tasks Scheduler.new) k t) as Hno.
  { intros k t Hk. unfold slot_task, Scheduler.new in Hk. cbn [tasks] in Hk.
    apply lookup_replicate in Hk as [[=] _]. }
  split; try done; try lia; intros; exfalso; by eapply Hno.
Qed.

(** What [block_current_task] does before it yields. *)
Lemma block_unfold s s' :
  Global.block_current_task (Some s) = Ret (Some s') →
  s' = s ∧ current_task s = None ∨
  ∃ c ts, current_task s = Some c ∧ Scheduler.yield_task (set_tasks ts s) = Ret s' ∧
    (update_first (has_id c) (λ t, Some (set_state t Blocked)) (tasks s) = Some ts ∨ ts = tasks s).
Proof.
  unfold Global.block_current_task. destruct (current_task s) as [c|] eqn:Hc; [|intros [= ->]; by left].
  intros Hb. right. destruct (update_first _ _ _) as [ts|] eqn:Hu.
  - exists c, ts. split; [done|]. split; [|by left].
    destruct (Scheduler.yield_task _); simplify_eq/=; done.
  - exists c, (tasks s). split; [done|]. split; [|by right].
    assert (set_tasks (tasks s) s = s) as -> by by destruct s.
    destruct (Scheduler.yield_task _); simplify_eq/=; done.
Qed.

Lemma block_total s : sched_inv s → ∃ s', Global.block_current_task (Some s) = Ret (Some s').
Proof.
  intros Hi. unfold Global.block_current_task. destruct (current_task s) as [c|]; [|eauto].
  match goal with |- context [Scheduler.yield_task ?x] => set (s1 := x) end.
  assert (sched_inv s1) as Hi1.
  { unfold s1. destruct (update_first _ _ _) as [ts|] eqn:Hu; [|done].
    by eapply (sched_inv_update s _ _ (λ t, set_state t Blocked)). }
  destruct (yield_spec s1 Hi1) as [[_ ->]|(k & _ & _ & ->)]; simpl; eauto.
Qed.

Lemma wake_unfold s i r s' :
  Global.wake_task (Some s) i = (r, Some s') →
  s' = s ∨ ∃ ts, s' = set_tasks ts s ∧
    update_first (λ t, has_id i t && bool_decide (state t = Blocked))
      (λ t, Some (set_state t Ready)) (tasks s) = Some ts.
Proof. unfold Global.wake_task. destruct (update_first _ _ _) eqn:Hu; intros [= <- <-]; eauto. Qed.

Lemma sched_step_inv coop s s' : sched_step coop s s' → sched_inv s → sched_inv s'.
Proof.
  destruct 1 as [s p a r s' Hp Hn Hs|s r s' _ Hs|s s' Hy|s i|s i p r s' Hp Hs|s i r s' Hw|s s' Hb]; intros Hi.
  - destruct (spawn_spec s p a Hi Hn Hp) as [(k & m & _ & _ & Heq & Hi')|(_ & Heq & Hi')]; congruence.
  - by eapply schedule_inv.
  - by eapply yield_inv.
  - destruct (terminate_spec s i Hi) as [(k & t & Hk & _ & ->)|[_ ->]]; [|done].
    by eapply sched_inv_remove.
  - revert Hs. unfold Scheduler.set_task_priority. destruct (update_first _ _ _) eqn:Hu; intros [= <- <-]; [|done].
    eapply (sched_inv_update _ _ _ (λ t, set_priority t p)); eauto.
  - apply wake_unfold in Hw as [->|(ts & -> & Hu)]; [done|].
    by eapply (sched_inv_update _ _ _ (λ t, set_state t Ready)).
  - apply block_unfold in Hb as [[-> _]|(c & ts & Hc & Hy & Hu)]; [done|].
    eapply yield_inv; [|done]. destruct Hu as [Hu| ->]; [|by destruct s].
    by eapply (sched_inv_update _ _ _ (λ t, set_state t Blocked)).
Qed.

(** ** Disciplined runs *)

(** An update of one slot that does not make a task running keeps
    [single_running]. *)
Lemma single_running_insert s k o :
  single_running s → (∀ t, o = Some t → state t ≠ Running) →
  single_running (set_tasks (<[k := o]> (tasks s)) s).
Proof. intros Hr Ho j t [[-> ->]|[? Hj]]%slot_insert Ht; [by destruct (Ho t)|by apply (Hr j t)]. Qed.

Lemma single_running_update s p f ts :
  single_running s → (∀ t t', f t = Some t' → p t = true → state t' = Running → state t = Running) →
  update_first p f (tasks s) = Some ts → single_running (set_tasks ts s).
Proof.
  intros Hr Hf (k & t & Hk & Hp & -> & _)%update_first_some j u [[-> Hu]|[? Hj]]%slot_insert Hu'.
  - apply (Hr k t Hk). by eapply Hf.
  - by apply (Hr j u).
Qed.

Lemma yield_single s s' :
  sched_inv s → single_running s → Scheduler.yield_task s = Ret s' → single_running s'.
Proof.
  intros Hi Hr. destruct (yield_spec _ Hi) as [[Hc ->]|(k & Hc & Hk & ->)]; intros [= <-]; [done|].
  intros j t Hj Ht. cbn [tasks set_metrics set_current set_tasks] in Hj. exfalso.
  destruct (tasks s !! k) as [[u|]|] eqn:Hu.
  - apply slot_insert in Hj as [[-> [= <-]]|[Hne Hj]]; [done|].
    specialize (Hr _ _ Hj Ht). rewrite Hc in Hr. by simplify_eq.
  - pose proof (Hr _ _ Hj Ht) as Hj'. rewrite Hc in Hj'. simplify_eq.
    unfold slot_task in Hj. congruence.
  - apply lookup_ge_None_1 in Hu. rewrite (si_len _ Hi) in Hu. lia.
Qed.

Lemma sched_step_single s s' :
  sched_step true s s' → sched_inv s → single_running s → single_running s'.
Proof.
  destruct 1 as [s p a r s' Hp Hn Hs|s r s' Hcoop Hs|s s' Hy|s i|s i p r s' Hp Hs|s i r s' Hw|s s' Hb]; intros Hi Hr.
  - destruct (spawn_spec s p a Hi Hn Hp) as [(k & m & _ & _ & Heq & _)|(_ & Heq & _)];
      rewrite Hs in Heq; injection Heq as _ ->; [|exact Hr].
    eapply (single_running_insert s k); [done|]. by intros t [= <-].
  - specialize (Hcoop eq_refl).
    destruct (schedule_spec _ Hi) as [(k & t & _ & Heq)|[_ Heq]];
      rewrite Hs in Heq; injection Heq as _ ->; [|exact Hr].
    intros j u [[-> [= <-]]|[Hne Hj]]%slot_insert Hu; [done|].
    specialize (Hr _ _ Hj Hu). congruence.
  - by eapply yield_single.
  - destruct (terminate_spec s i Hi) as [(k & t & Hk & _ & ->)|[_ ->]]; [|done].
    by eapply (single_running_insert s k).
  - revert Hs. unfold Scheduler.set_task_priority. destruct (update_first _ _ _) eqn:Hu; intros [= <- <-]; [|done].
    eapply single_running_update; [done| |done]. by intros t t' [= <-] _ Ht.
  - apply wake_unfold in Hw as [->|(ts & -> & Hu)]; [done|].
    eapply single_running_update; [done| |done]. by intros t t' [= <-].
  - apply block_unfold in Hb as [[-> _]|(c & ts & Hc & Hy & Hu)]; [done|].
    eapply yield_single; [| |done]; destruct Hu as [Hu| ->]; try by destruct s.
    + by eapply (sched_inv_update _ _ _ (λ t, set_state t Blocked)).
    + eapply single_running_update; [done| |done]. by intros t t' [= <-].
Qed.

(** ** Blocking and extraction *)

Lemma block_current_spec s k t :
  sched_inv s → current_task s = Some (Z.of_nat k) → slot_task (tasks s) k t →
  ∃ s', Global.block_current_task (Some s) = Ret (Some s') ∧ sched_inv s' ∧
    current_task s' = None ∧ slot_task (tasks s') k (set_state t Ready) ∧
    (∀ j u, j ≠ k → slot_task (tasks s) j u → id u = Z.of_nat k →
       slot_task (tasks s') j (set_state u Blocked)).
Proof.
  intros Hi Hc Hk. unfold Global.block_current_task. rewrite Hc.
  match goal with |- context [Scheduler.yield_task ?x] => set (s1 := x) end.
  assert (sched_inv s1 ∧ current_task s1 = Some (Z.of_nat k) ∧
    (∃ t1, slot_task (tasks s1) k t1 ∧ set_state t1 Ready = set_state t Ready) ∧
    (∀ j u, j ≠ k → slot_task (tasks s) j u → id u = Z.of_nat k →
       slot_task (tasks s1) j (set_state u Blocked))) as (Hi1 & Hc1 & (t1 & Hk1 & Ht1) & Ho).
  { subst s1. destruct (update_first _ _ _) as [ts|] eqn:Hu.
    - split_and!; [by eapply (sched_inv_update _ _ _ (λ t, set_state t Blocked))|done|..];
        apply update_first_some in Hu as (j & u & Hj & Hp & -> & _);
        pose proof (lookup_lt_Some _ _ _ Hj); cbn [tasks set_tasks]; unfold slot_task in *.
      + destruct (decide (j = k)) as [->|Hne].
        * exists (set_state u Blocked). rewrite list_lookup_insert_eq by done. by simplify_eq.
        * exists t. by rewrite list_lookup_insert_ne by done.
      + intros j' u' Hne Hj' Hid. unfold has_id in Hp.
        assert (j' = j) as -> by (eapply (si_ids _ Hi); [exact Hj'|exact Hj|lia]).
        rewrite list_lookup_insert_eq by done. by simplify_eq.
    - split_and!; [done|done|by exists t|]. intros j u _ Hj Hid.
      pose proof (proj1 (update_first_none _ _ _) Hu j u Hj). unfold has_id in *. lia. }
  destruct (yield_spec s1 Hi1) as [[? _]|(k' & Hc' & _ & Hy)]; [congruence|].
  assert (k' = k) as -> by (rewrite Hc1 in Hc'; simplify_eq; lia).
  pose proof (lookup_lt_Some _ _ _ Hk1). rewrite Hk1 in Hy. rewrite Hy. cbn [obind].
  eexists. split; [done|]. split_and!; [by eapply yield_inv|done|..]; cbn; unfold slot_task in *.
  - by rewrite list_lookup_insert_eq, Ht1 by done.
  - intros j u Hne Hj Hid. rewrite list_lookup_insert_ne by done. by apply Ho.
Qed.

Lemma extract_spec s i :
  sched_inv s →
  match Scheduler.extract_task s i with
  | (Some t, s') =>
      Scheduler.get_task s i = Some t ∧ Scheduler.get_task s' i = None ∧
      state t ≠ Running ∧ state t ≠ Terminated ∧ cpu_affinity t = None ∧
      Scheduler.active_tasks s' = Scheduler.active_tasks s - 1
  | (None, s') =>
      s' = s ∧ ∀ t, Scheduler.get_task s i = Some t →
        state t = Running ∨ state t = Terminated ∨ cpu_affinity t ≠ None
  end.
Proof.
  intros Hi. unfold Scheduler.extract_task, Scheduler.get_task.
  destruct (find_first _ _) as [t|] eqn:Hf; [|done].
  unfold Scheduler.migratable. destruct (decide (state t = Running)) as [Hr|Hr];
    [rewrite bool_decide_eq_true_2 by done; cbn; naive_solver|rewrite bool_decide_eq_false_2 by done].
  destruct (decide (state t = Terminated)) as [Ht|Ht];
    [rewrite bool_decide_eq_true_2 by done; cbn; naive_solver|rewrite bool_decide_eq_false_2 by done].
  destruct (cpu_affinity t) eqn:Ha; cbn; [naive_solver|].
  apply find_first_some in Hf as (k & Hk & Hp & _). destruct (update_first _ _ _) as [ts|] eqn:Hu.
  - apply update_first_some in Hu as (j & u & Hj & Hpu & -> & _).
    assert (j = k) as ->. { unfold has_id in *. eapply (si_ids _ Hi); [done|done|lia]. }
    assert (u = t) as -> by (unfold slot_task in *; congruence).
    split_and!; try done; [|rewrite (active_insert _ _ (Some t)) by done; lia].
    apply find_first_none. intros j v [[-> [=]]|[Hne Hv]]%slot_insert.
    destruct (has_id i v) eqn:Hv'; [|done]. destruct Hne.
    unfold has_id in *. eapply (si_ids _ Hi); [done|done|lia].
  - pose proof (proj1 (update_first_none _ _ _) Hu k t Hk). congruence.
Qed.

(** ** Priorities *)

Lemma set_task_priority_spec s i p :
  match Scheduler.set_task_priority s i p with
  | (Ok _, s') =>
      Scheduler.get_task_priority s' i = Ok p ∧
      (∀ j, j ≠ i → Scheduler.get_task s' j = Scheduler.get_task s j) ∧
      (∃ t, Scheduler.get_task s i = Some t ∧ Scheduler.get_task s' i = Some (set_priority t p))
  | (Err e, s') =>
      e = TaskNotFound i ∧ s' = s ∧ Scheduler.get_task_priority s i = Err (TaskNotFound i)
  end.
Proof.
  unfold Scheduler.set_task_priority, Scheduler.get_task_priority, Scheduler.get_task.
  destruct (update_first _ _ _) as [ts|] eqn:Hu; simpl.
  - pose proof (update_find_same (has_id i) (λ t, set_priority t p) _ _ (λ _, eq_refl) Hu) as (t & -> & ->).
    split_and!; [done| |eauto]. intros j Hj. eapply update_find_other; [|exact Hu].
    intros u Hu'. split; unfold has_id in *; simpl; lia.
  - split_and!; [done|done|]. by rewrite (proj2 (find_first_none _ _) (proj1 (update_first_none _ _ _) Hu)).
Qed.
