(* ===== verification/SchedulerProps.v ===== *)
(** * Properties of the scheduler

    Selection, spawning, runs, priorities, blocking and migration, proved from
    the lemmas of [SchedulerInv]. *)

From stdpp Require Import base tactics option list numbers relations.
From S2P Require Import Prelude Errors Scheduler SchedulerInv.

(** Two tasks of priority 10 and one of priority 5, for the witnesses. *)
Definition demo : Scheduler :=
  let spawn p s := match Scheduler.spawn_task s p with Ret (_, s') => s' | _ => s end in
  spawn 5 (spawn 10 (spawn 10 Scheduler.new)).

Lemma demo_reachable coop : rtc (sched_step coop) Scheduler.new demo.
Proof.
  eapply rtc_l; [eapply (step_spawn coop _ 10 None); [lia|vm_compute; reflexivity|vm_compute; reflexivity]|].
  eapply rtc_l; [eapply (step_spawn coop _ 10 None); [lia|vm_compute; reflexivity|vm_compute; reflexivity]|].
  eapply rtc_l; [eapply (step_spawn coop _ 5 None); [lia|vm_compute; reflexivity|vm_compute; reflexivity]|].
  apply rtc_refl.
Qed.

Lemma reachable_inv coop s : rtc (sched_step coop) Scheduler.new s → sched_inv s.
Proof.
  revert s. apply (rtc_ind_r sched_inv Scheduler.new); [apply new_inv|].
  intros s1 s2 _ Hs Hi. by eapply sched_step_inv.
Qed.

Lemma demo_inv : sched_inv demo.
Proof. apply (reachable_inv false), demo_reachable. Qed.

(** [schedule] picks a ready task whose priority is the highest among the
    ready tasks, in the last slot among those of that priority, makes it the
    running current task and touches no other slot; it returns [None] exactly
    when no task is ready, and then only counts an idle call. *)
Theorem schedule_selects_highest s :
  sched_inv s →
  match Scheduler.schedule s with
  | Ret (Some idx, s') =>
      ∃ k t, idx = Z.of_nat k ∧ best_slot (tasks s) k t ∧
        tasks s' = <[k := Some (set_state t Running)]> (tasks s) ∧
        current_task s' = Some idx ∧ next_task_id s' = next_task_id s
  | Ret (None, s') =>
      (∀ k t, slot_task (tasks s) k t → state t ≠ Ready) ∧
      s' = set_metrics (SchedulerMetrics.record_schedule (metrics s) false) s
  | _ => False
  end.
Proof.
  intros Hi. destruct (schedule_spec s Hi) as [(k & t & Hb & ->)|[Hno ->]]; [|done].
  exists k, t. done.
Qed.

Lemma schedule_selects_highest_witness :
  match Scheduler.schedule demo with
  | Ret (Some idx, s') => idx = 1 ∧ ∃ k t, idx = Z.of_nat k ∧ best_slot (tasks demo) k t
  | _ => False
  end.
Proof.
  pose proof (schedule_selects_highest demo demo_inv) as H.
  destruct (Scheduler.schedule demo) as [[[idx|] s']| |] eqn:Hs; try done.
  vm_compute in Hs. injection Hs as <- _. split; [done|]. destruct H as (k & t & ? & ? & _). eauto.
Defined.

(** [spawn_task_with_affinity] puts a ready task with a fresh id in the
    first empty slot and returns that id; it fails, changing nothing but the
    failure count, exactly when all 64 slots are taken. *)
Theorem spawn_task_first_free s p a :
  sched_inv s → next_task_id s < U64_MAX → 0 <= p <= U8_MAX →
  match Scheduler.spawn_task_with_affinity s p a with
  | Ret (Ok i, s') =>
      i = next_task_id s ∧ next_task_id s' = i + 1 ∧ Scheduler.get_task s i = None ∧
      Scheduler.active_tasks s < MAX_TASKS ∧ current_task s' = current_task s ∧
      ∃ k, tasks s !! k = Some None ∧ (∀ j, (j < k)%nat → ∃ u, slot_task (tasks s) j u) ∧
        tasks s' = <[k := Some (mkTask i Ready p a)]> (tasks s)
  | Ret (Err e, s') =>
      e = TaskSpawnFailed ∧ Scheduler.active_tasks s = MAX_TASKS ∧ tasks s' = tasks s ∧
      current_task s' = current_task s ∧ next_task_id s' = next_task_id s
  | _ => False
  end.
Proof.
  intros Hi Hn Hp. destruct (spawn_spec s p a Hi Hn Hp) as [(k & m & Hk & Hlt & -> & _)|(Hno & -> & _)].
  - split_and!; try done; [|..].
    + apply find_first_none. intros j t Hj. unfold has_id. apply (si_range _ Hi) in Hj. lia.
    + by apply active_lt with k.
    + by exists k.
  - split_and!; try done. by apply active_full.
Qed.

Lemma spawn_task_first_free_witness :
  match Scheduler.spawn_task_with_affinity demo 7 (Some 1) with
  | Ret (Ok i, s') => i = 3 ∧ Scheduler.get_task demo 3 = None
  | _ => False
  end.
Proof.
  pose proof (spawn_task_first_free demo 7 (Some 1) demo_inv ltac:(vm_compute; reflexivity) ltac:(lia)) as H.
  destruct (Scheduler.spawn_task_with_affinity demo 7 (Some 1)) as [[[i|e] s']| |] eqn:Hs; try done.
  destruct H as (-> & _ & Hg & _). done.
Defined.

(** C5. Every state reached from [Scheduler::new] by spawning (while the 64-bit
    task identifiers are not used up), scheduling, yielding, terminating, changing
    priorities, waking and blocking keeps a table of 64 slots, pairwise different
    task ids below [next_task_id], a current slot in range, and task counts in the
    metrics that agree with the table; and in every such state scheduling,
    yielding, blocking the current task and, while an identifier is left, spawning
    with any priority and affinity return without a panic (terminating, waking and
    changing a priority access the table only through an iterator). *)
Theorem reachable_well_formed coop s :
  rtc (sched_step coop) Scheduler.new s →
  length (tasks s) = Z.to_nat MAX_TASKS ∧
  (∀ i j t u, slot_task (tasks s) i t → slot_task (tasks s) j u → id t = id u → i = j) ∧
  (∀ i t, slot_task (tasks s) i t → 0 <= id t < next_task_id s) ∧
  (∀ c, current_task s = Some c → 0 <= c < MAX_TASKS) ∧
  SchedulerMetrics.active_tasks (metrics s) = Scheduler.active_tasks s ∧
  Scheduler.active_tasks s <= SchedulerMetrics.peak_tasks (metrics s) <= MAX_TASKS ∧
  (∃ r, Scheduler.schedule s = Ret r) ∧ (∃ s', Scheduler.yield_task s = Ret s') ∧
  (∃ s', Global.block_current_task (Some s) = Ret (Some s')) ∧
  (∀ p a, 0 <= p <= U8_MAX → next_task_id s < U64_MAX → ∃ r, Scheduler.spawn_task_with_affinity s p a = Ret r).
Proof.
  intros Hi%reachable_inv.
  split_and!; try apply Hi.
  - destruct (schedule_spec s Hi) as [(k & t & _ & ->)|[_ ->]]; eauto.
  - destruct (yield_spec s Hi) as [[_ ->]|(k & _ & _ & ->)]; eauto.
  - by apply block_total.
  - intros p a Hp Hn. destruct (spawn_spec s p a Hi Hn Hp) as [(k & m & _ & _ & -> & _)|(_ & -> & _)]; eauto.
Qed.

(** The whole conclusion at a scheduler with three tasks. *)
Lemma reachable_well_formed_witness :
  Scheduler.active_tasks demo = 3 ∧ next_task_id demo = 3 ∧
  length (tasks demo) = Z.to_nat MAX_TASKS ∧
  (∀ i j t u, slot_task (tasks demo) i t → slot_task (tasks demo) j u → id t = id u → i = j) ∧
  SchedulerMetrics.active_tasks (metrics demo) = Scheduler.active_tasks demo ∧
  (∃ r, Scheduler.schedule demo = Ret r) ∧ (∃ s', Scheduler.yield_task demo = Ret s') ∧
  (∃ s', Global.block_current_task (Some demo) = Ret (Some s')) ∧
  (∃ r, Scheduler.spawn_task_with_affinity demo 9 (Some 2) = Ret r).
Proof.
  split; [vm_compute; reflexivity|]. split; [vm_compute; reflexivity|].
  destruct (reachable_well_formed true demo (demo_reachable true)) as (Hl & Hid & _ & _ & Ha & _ & Hs & Hy & Hb & Hsp).
  split; [exact Hl|]. split; [exact Hid|]. split; [exact Ha|]. split; [exact Hs|]. split; [exact Hy|]. split; [exact Hb|].
  apply (Hsp 9 (Some 2)); [lia|vm_compute; reflexivity].
Defined.

(** When [schedule] is only called while no task is current, at most one
    task is running in every reachable state, and it is the current one. *)
Theorem cooperative_single_running s :
  rtc (sched_step true) Scheduler.new s →
  ∀ k t, slot_task (tasks s) k t → state t = Running → current_task s = Some (Z.of_nat k).
Proof.
  intros Hr. assert (sched_inv s ∧ single_running s) as [_ H]; [|exact H].
  revert s Hr. apply (rtc_ind_r (λ s, sched_inv s ∧ single_running s) Scheduler.new).
  - split; [apply new_inv|]. intros k t Hk. by apply lookup_replicate in Hk as [[=] _].
  - intros s1 s2 _ Hs [Hi H1]. split; [by eapply sched_step_inv|by eapply sched_step_single].
Qed.

Lemma cooperative_single_running_witness :
  match Scheduler.schedule demo with
  | Ret (_, s') => current_task s' = Some 1
  | _ => False
  end.
Proof.
  destruct (Scheduler.schedule demo) as [[r s']| |] eqn:Hs; [|by vm_compute in Hs..].
  apply (cooperative_single_running s') with (k := 1%nat) (t := mkTask 1 Running 10 None).
  - eapply rtc_r; [apply demo_reachable|]. eapply step_schedule; [|exact Hs]. reflexivity.
  - vm_compute in Hs. injection Hs as _ <-. reflexivity.
  - reflexivity.
Defined.

(** A task that is scheduled and yields is selected again at the next
    [schedule]: the slot with the best task does not change, so among ready
    tasks of the same highest priority the one in the last slot runs every time
    and the others never do. *)
Theorem schedule_yield_reselects s idx s1 s2 :
  sched_inv s → Scheduler.schedule s = Ret (Some idx, s1) → Scheduler.yield_task s1 = Ret s2 →
  tasks s2 = tasks s ∧ ∃ s3, Scheduler.schedule s2 = Ret (Some idx, s3) ∧ tasks s3 = tasks s1.
Proof.
  intros Hi Hs Hy. pose proof (schedule_inv _ _ _ Hi Hs) as Hi1. pose proof (yield_inv _ _ Hi1 Hy) as Hi2.
  destruct (schedule_spec s Hi) as [(k & t & Hb & Heq)|[_ Heq]]; rewrite Hs in Heq; [|done].
  injection Heq as -> Hs1. pose proof Hb as [Hk [Hr _]]. pose proof (slot_range _ _ _ Hi Hk) as Hlt.
  assert (tasks s2 = tasks s) as Ht2.
  { destruct (yield_spec s1 Hi1) as [[Hc _]|(k' & Hc & _ & Heq)]; rewrite Hs1 in Hc; [done|].
    injection Hc as <-%Nat2Z.inj. rewrite Hy in Heq. injection Heq as ->. rewrite Hs1.
    cbn [tasks set_metrics set_current set_tasks].
    rewrite list_lookup_insert_eq, list_insert_insert_eq by (rewrite (si_len _ Hi); lia).
    apply list_insert_id. rewrite Hk. by destruct t; simplify_eq/=. }
  split; [done|]. destruct (schedule_spec s2 Hi2) as [(k2 & t2 & Hb2 & ->)|[Hno _]].
  - rewrite Ht2 in *. destruct (best_slot_unique _ _ _ _ _ Hb Hb2) as [<- <-].
    eexists. split; [done|]. by rewrite Hs1.
  - exfalso. rewrite Ht2 in Hno. by apply (Hno k t).
Qed.

Lemma schedule_yield_reselects_witness :
  match Scheduler.schedule demo with
  | Ret (Some idx, s1) =>
      match Scheduler.yield_task s1 with
      | Ret s2 => tasks s2 = tasks demo ∧
                  ∃ s3, Scheduler.schedule s2 = Ret (Some idx, s3) ∧ tasks s3 = tasks s1
      | _ => False
      end
  | _ => False
  end.
Proof.
  destruct (Scheduler.schedule demo) as [[[idx|] s1]| |] eqn:Hs; [|by vm_compute in Hs..].
  destruct (Scheduler.yield_task s1) as [s2| |] eqn:Hy.
  - exact (schedule_yield_reselects demo idx s1 s2 demo_inv Hs Hy).
  - vm_compute in Hs. injection Hs as _ <-. by vm_compute in Hy.
  - vm_compute in Hs. injection Hs as _ <-. by vm_compute in Hy.
Defined.

(** [block_current_task] never leaves the current task blocked: whatever
    the slot held, the task there ends up ready and nothing is current, so a
    later [wake_task] of it reports [TaskNotFound]; the task that is blocked is
    the one whose id equals the current slot's index, if it is another one. *)
Theorem block_current_task_blocks_wrong s k t :
  sched_inv s → current_task s = Some (Z.of_nat k) → slot_task (tasks s) k t →
  ∃ s', Global.block_current_task (Some s) = Ret (Some s') ∧ current_task s' = None ∧
    slot_task (tasks s') k (set_state t Ready) ∧
    (Global.wake_task (Some s') (id t)).1 = Err (TaskNotFound (id t)) ∧
    (∀ j u, j ≠ k → slot_task (tasks s) j u → id u = Z.of_nat k →
       slot_task (tasks s') j (set_state u Blocked)).
Proof.
  intros Hi Hc Hk. destruct (block_current_spec s k t Hi Hc Hk) as (s' & Hb & Hi' & Hc' & Hk' & Hother).
  exists s'. split_and!; [done|done|done| |done].
  unfold Global.wake_task. destruct (update_first _ _ _) as [ts|] eqn:Hu; [|done]. exfalso.
  apply update_first_some in Hu as (j & u & Hj & Hp & _). unfold has_id in Hp.
  apply andb_prop in Hp as [Hid Hbl]. apply Z.eqb_eq in Hid. apply bool_decide_eq_true in Hbl.
  assert (j = k) as -> by by eapply (si_ids _ Hi').
  unfold slot_task in *. rewrite Hk' in Hj. by simplify_eq.
Qed.

Lemma block_current_task_blocks_wrong_witness :
  match Scheduler.schedule demo with
  | Ret (_, s1) =>
      ∃ s', Global.block_current_task (Some s1) = Ret (Some s') ∧
            slot_task (tasks s') 1 (mkTask 1 Ready 10 None)
  | _ => False
  end.
Proof.
  destruct (Scheduler.schedule demo) as [[r s1]| |] eqn:Hs; [|by vm_compute in Hs..].
  destruct (block_current_task_blocks_wrong s1 1 (mkTask 1 Running 10 None)) as (s' & Hb & _ & Hk & _).
  - exact (schedule_inv _ _ _ demo_inv Hs).
  - vm_compute in Hs. by injection Hs as _ <-.
  - vm_compute in Hs. by injection Hs as _ <-.
  - exists s'. split; [exact Hb|exact Hk].
Defined.

(** Migration: [extract_task] gives up only a task that is there, neither
    running nor terminated nor pinned, and removes it; [inject_task] puts the
    task, ready, in the first empty slot of the destination and refuses only
    when all its slots are taken, leaving it unchanged.  Tasks are neither lost
    nor duplicated when the injection succeeds. *)
Theorem extract_inject_moves src dst i :
  sched_inv src → sched_inv dst →
  match Scheduler.extract_task src i with
  | (Some t, src') =>
      Scheduler.get_task src i = Some t ∧ Scheduler.get_task src' i = None ∧
      state t ≠ Running ∧ state t ≠ Terminated ∧ cpu_affinity t = None ∧
      Scheduler.active_tasks src' = Scheduler.active_tasks src - 1 ∧
      match Scheduler.inject_task dst t with
      | (true, dst') =>
          (∃ k, tasks dst !! k = Some None ∧ tasks dst' = <[k := Some (set_state t Ready)]> (tasks dst)) ∧
          Scheduler.active_tasks dst' = Scheduler.active_tasks dst + 1
      | (false, dst') => dst' = dst ∧ Scheduler.active_tasks dst = MAX_TASKS
      end
  | (None, src') =>
      src' = src ∧ ∀ t, Scheduler.get_task src i = Some t →
        state t = Running ∨ state t = Terminated ∨ cpu_affinity t ≠ None
  end.
Proof.
  intros Hs Hd. pose proof (extract_spec src i Hs) as He.
  destruct (Scheduler.extract_task src i) as [[t|] src']; [|done].
  destruct He as (Hg & Hg' & Hr & Hte & Ha & Hc). split_and!; try done. clear -Hd.
  unfold Scheduler.inject_task. destruct (fill_first _ _) as [ts|] eqn:Hf.
  - apply fill_first_some in Hf as (k & Hk & -> & _). split; [by exists k|].
    rewrite (active_insert _ _ None) by done. lia.
  - split; [done|]. apply active_full; [done|]. by eapply fill_first_none.
Qed.

Lemma extract_inject_moves_witness :
  match Scheduler.extract_task demo 0 with
  | (Some t, src') => Scheduler.get_task src' 0 = None
  | _ => False
  end.
Proof.
  pose proof (extract_inject_moves demo Scheduler.new 0 demo_inv new_inv) as H.
  destruct (Scheduler.extract_task demo 0) as [[t|] src'] eqn:He; [by destruct H as (_ & ? & _)|].
  by vm_compute in He.
Defined.

(** A task injected into a fresh scheduler and terminated there takes the
    active-task gauge below zero, since injection does not count it. *)
Lemma inject_terminate_wraps_gauge t :
  SchedulerMetrics.active_tasks
    (metrics (Scheduler.terminate_task (Scheduler.inject_task Scheduler.new t).2 (id t))) = U64_MAX.
Proof.
  unfold Scheduler.terminate_task, Scheduler.inject_task, has_id. simpl.
  by rewrite Z.eqb_refl.
Qed.
