(* ===== verification/Pool.v ===== *)
(** * The block pools (mielin-kernel/src/pool.rs)

    Size classes, one pool with its intrusive free list, the allocator over the
    seven pools, and the same pool operations as the atomic steps of threads.

    An address is an integer and null is 0.  The words that the free list is
    threaded through ([FreeBlock::next]) are the map [links]; reading a word
    that was never written is the access the model refuses ([Panic]).  The
    arena's address comes from the system heap and is an argument of [init].
    [compare_exchange_weak] may fail with no other thread around: [weak] says
    for each number of remaining tries whether the exchange goes through. *)

From stdpp Require Import base tactics option list numbers gmap relations.
From S2P Require Import Prelude.

(** ** Size classes *)

(* src: mielin-kernel/src/pool.rs 24-32 BlockSize *)
Inductive BlockSize : Type := B32 | B64 | B128 | B256 | B512 | K1 | K4.

#[export] Instance BlockSize_eq_dec : EqDecision BlockSize.
Proof. solve_decision. Defined.

Module BlockSize.

(* src: mielin-kernel/src/pool.rs 36-46 BlockSize::bytes *)
Definition bytes (b : BlockSize) : Z :=
  match b with
  | B32 => 32
  | B64 => 64
  | B128 => 128
  | B256 => 256
  | B512 => 512
  | K1 => 1024
  | K4 => 4096
  end.

(* src: mielin-kernel/src/pool.rs 49-69 BlockSize::for_size *)
Definition for_size (size : Z) : option BlockSize :=
  if size =? 0 then None
  else if size <=? 32 then Some B32
  else if size <=? 64 then Some B64
  else if size <=? 128 then Some B128
  else if size <=? 256 then Some B256
  else if size <=? 512 then Some B512
  else if size <=? 1024 then Some K1
  else if size <=? 4096 then Some K4
  else None.

(* src: mielin-kernel/src/pool.rs 72-82 BlockSize::all *)
Definition all : list BlockSize := [B32; B64; B128; B256; B512; K1; K4].

(* src: mielin-kernel/src/pool.rs 85-96 BlockSize::from_index *)
Definition from_index (index : Z) : option BlockSize :=
  match index with
  | 0 => Some B32
  | 1 => Some B64
  | 2 => Some B128
  | 3 => Some B256
  | 4 => Some B512
  | 5 => Some K1
  | 6 => Some K4
  | _ => None
  end.

(* src: mielin-kernel/src/pool.rs 99-101 BlockSize::index *)
Definition index (b : BlockSize) : Z :=
  match b with B32 => 0 | B64 => 1 | B128 => 2 | B256 => 3 | B512 => 4 | K1 => 5 | K4 => 6 end.

End BlockSize.

(** ** One pool *)

(** [FreeBlock::next] of every block whose word was written. *)
Abbreviation FreeBlock := (gmap Z Z).

(* src: mielin-kernel/src/pool.rs 114-127 Pool *)
Record Pool : Type := mkPool {
  free_list : Z;
  block_size : Z;
  total_blocks : Z;
  allocated_blocks : Z;
  arena : option Z;
  initialized : Z;
  links : FreeBlock;
}.

Definition set_free_list (h : Z) (p : Pool) : Pool :=
  mkPool h (block_size p) (total_blocks p) (allocated_blocks p) (arena p) (initialized p) (links p).
Definition set_allocated (n : Z) (p : Pool) : Pool :=
  mkPool (free_list p) (block_size p) (total_blocks p) n (arena p) (initialized p) (links p).
Definition set_links (l : FreeBlock) (p : Pool) : Pool :=
  mkPool (free_list p) (block_size p) (total_blocks p) (allocated_blocks p) (arena p) (initialized p) l.

Module Pool.

(* src: mielin-kernel/src/pool.rs 131-131 Pool::ARENA_SIZE *)
Definition ARENA_SIZE : Z := 64 * 1024.

(* src: mielin-kernel/src/pool.rs 187-187 Pool::MAX_RETRIES *)
Definition MAX_RETRIES : nat := 1000.

(* src: mielin-kernel/src/pool.rs 134-143 Pool::new *)
Definition new (block_size : Z) : Pool := mkPool 0 block_size 0 0 None 0 ∅.

(** [for i in (0..num_blocks).rev()]: push the block [i] and go down. *)
Fixpoint build_list (i : nat) (arena_ptr : Z) (self : Pool) : Pool :=
  match i with
  | O => self
  | S i' =>
    let block_ptr := arena_ptr + Z.of_nat i' * block_size self in
    build_list i' arena_ptr
      (set_free_list block_ptr (set_links (<[block_ptr := free_list self]> (links self)) self))
  end.

(* src: mielin-kernel/src/pool.rs 149-184 Pool::init *)
Definition init (arena_ptr : Z) (self : Pool) : outcome Pool :=
  if negb (initialized self =? 0) then Ret self else
  let! num_blocks := usize_div ARENA_SIZE (block_size self) in
  Ret (build_list (Z.to_nat num_blocks) arena_ptr
         (mkPool (free_list self) (block_size self) (as_u32 num_blocks) (allocated_blocks self)
            (Some arena_ptr) 1 (links self))).

Fixpoint allocate_loop (tries : nat) (weak : nat → bool) (self : Pool) : outcome (option Z * Pool) :=
  match tries with
  | O => Ret (None, self)
  | S tries' =>
    let head := free_list self in
    if head =? 0 then Ret (None, self) else
    match links self !! head with
    | None => Panic
    | Some next =>
      if weak tries'
      then Ret (Some head, set_allocated (wrap32 (allocated_blocks self + 1)) (set_free_list next self))
      else allocate_loop tries' weak self
    end
  end.

(* src: mielin-kernel/src/pool.rs 195-219 Pool::allocate *)
Definition allocate (weak : nat → bool) (self : Pool) : outcome (option Z * Pool) :=
  allocate_loop MAX_RETRIES weak self.

Fixpoint deallocate_loop (tries : nat) (weak : nat → bool) (block : Z) (self : Pool) : Pool :=
  match tries with
  | O => self
  | S tries' =>
    let head := free_list self in
    let self := set_links (<[block := head]> (links self)) self in
    if weak tries'
    then set_allocated (wrap32 (allocated_blocks self - 1)) (set_free_list block self)
    else deallocate_loop tries' weak block self
  end.

(* src: mielin-kernel/src/pool.rs 226-247 Pool::deallocate *)
Definition deallocate (weak : nat → bool) (ptr : Z) (self : Pool) : Pool :=
  deallocate_loop MAX_RETRIES weak ptr self.

(* src: mielin-kernel/src/pool.rs 265-267 Pool::free_blocks *)
Definition free_blocks (self : Pool) : Z :=
  saturating_sub (total_blocks self) (allocated_blocks self).

(* src: mielin-kernel/src/pool.rs 270-272 Pool::is_exhausted *)
Definition is_exhausted (self : Pool) : bool := free_list self =? 0.

End Pool.

(** ** The allocator over the size classes *)

(* src: mielin-kernel/src/pool.rs 283-287 PoolAllocator *)
Record PoolAllocator : Type := mkPoolAllocator {
  pools : list Pool;
  total_allocations : Z;
  total_deallocations : Z;
}.

(* src: mielin-kernel/src/pool.rs 379-386 PoolAllocation *)
Record PoolAllocation : Type := mkPoolAllocation {
  ptr : Z;
  alloc_block_size : BlockSize;
  requested_size : Z;
}.

#[export] Instance PoolAllocation_eq_dec : EqDecision PoolAllocation.
Proof. solve_decision. Defined.

(* src: mielin-kernel/src/pool.rs 390-392 PoolAllocation::actual_size *)
Definition actual_size (a : PoolAllocation) : Z := BlockSize.bytes (alloc_block_size a).

(* src: mielin-kernel/src/pool.rs 413-418 PoolSizeStats *)
Record PoolSizeStats : Type := mkPoolSizeStats {
  ps_block_size : Z;
  ps_total_blocks : Z;
  ps_allocated_blocks : Z;
  ps_free_blocks : Z;
}.

(* src: mielin-kernel/src/pool.rs 422-426 PoolStats *)
Record PoolStats : Type := mkPoolStats {
  st_pools : list PoolSizeStats;
  st_total_allocations : Z;
  st_total_deallocations : Z;
}.

(** [iter().map(|p| p.block_size * f(p)).sum()]. *)
Fixpoint sum_of (f : PoolSizeStats → Z) (l : list PoolSizeStats) : outcome Z :=
  match l with
  | [] => Ret 0
  | p :: l' =>
    let! x := usize_mul (ps_block_size p) (f p) in
    let! r := sum_of f l' in
    usize_add x r
  end.

Module PoolStats.

(* src: mielin-kernel/src/pool.rs 430-435 PoolStats::total_memory *)
Definition total_memory (self : PoolStats) : outcome Z := sum_of ps_total_blocks (st_pools self).

(* src: mielin-kernel/src/pool.rs 438-443 PoolStats::allocated_memory *)
Definition allocated_memory (self : PoolStats) : outcome Z :=
  sum_of ps_allocated_blocks (st_pools self).

(* src: mielin-kernel/src/pool.rs 446-451 PoolStats::free_memory *)
Definition free_memory (self : PoolStats) : outcome Z := sum_of ps_free_blocks (st_pools self).

End PoolStats.

Module PoolAllocator.

(* src: mielin-kernel/src/pool.rs 291-305 PoolAllocator::new *)
Definition new : PoolAllocator :=
  mkPoolAllocator
    [Pool.new 32; Pool.new 64; Pool.new 128; Pool.new 256; Pool.new 512; Pool.new 1024;
     Pool.new 4096] 0 0.

(** [arenas] are the addresses the system heap gives to the successive pools. *)
Fixpoint init_pools (arenas : nat → Z) (i : nat) (ps : list Pool) : outcome (list Pool) :=
  match ps with
  | [] => Ret []
  | p :: ps' =>
    let! p' := Pool.init (arenas i) p in
    let! ps'' := init_pools arenas (S i) ps' in
    Ret (p' :: ps'')
  end.

(* src: mielin-kernel/src/pool.rs 308-312 PoolAllocator::init *)
Definition init (arenas : nat → Z) (self : PoolAllocator) : outcome PoolAllocator :=
  let! ps := init_pools arenas 0 (pools self) in
  Ret (mkPoolAllocator ps (total_allocations self) (total_deallocations self)).

(* src: mielin-kernel/src/pool.rs 317-329 PoolAllocator::allocate *)
Definition allocate (weak : nat → bool) (self : PoolAllocator) (size : Z)
    : outcome (option PoolAllocation * PoolAllocator) :=
  match BlockSize.for_size size with
  | None => Ret (None, self)
  | Some block_size =>
    let! pool := arr_get (pools self) (BlockSize.index block_size) in
    let! (r, pool') := Pool.allocate weak pool in
    let! ps := arr_set (pools self) (BlockSize.index block_size) pool' in
    match r with
    | None => Ret (None, mkPoolAllocator ps (total_allocations self) (total_deallocations self))
    | Some ptr =>
      Ret (Some (mkPoolAllocation ptr block_size size),
           mkPoolAllocator ps (wrap64 (total_allocations self + 1)) (total_deallocations self))
    end
  end.

(* src: mielin-kernel/src/pool.rs 335-339 PoolAllocator::deallocate *)
Definition deallocate (weak : nat → bool) (self : PoolAllocator) (allocation : PoolAllocation)
    : outcome PoolAllocator :=
  let! pool := arr_get (pools self) (BlockSize.index (alloc_block_size allocation)) in
  let! ps := arr_set (pools self) (BlockSize.index (alloc_block_size allocation))
               (Pool.deallocate weak (ptr allocation) pool) in
  Ret (mkPoolAllocator ps (total_allocations self) (wrap64 (total_deallocations self + 1))).

(* src: mielin-kernel/src/pool.rs 347-364 PoolAllocator::stats *)
Definition stats (self : PoolAllocator) : PoolStats :=
  mkPoolStats
    ((λ p, mkPoolSizeStats (block_size p) (total_blocks p) (allocated_blocks p)
             (Pool.free_blocks p)) <$> pools self)
    (total_allocations self) (total_deallocations self).

End PoolAllocator.

(** ** The pool shared by threads

    [allocate] and [deallocate] as the atomic accesses of their loops, one per
    step, with the number of tries left; a failed exchange is an exchange that
    finds another head, or a spurious failure. *)

Inductive pc : Type :=
| Idle
| AllocLoad (tries : nat)
| AllocNext (tries : nat) (head : Z)
| AllocCas (tries : nat) (head next : Z)
| DeallocLoad (tries : nat) (block : Z)
| DeallocLink (tries : nat) (block head : Z)
| DeallocCas (tries : nat) (block head : Z).

(** [held] lists the blocks handed out and not yet given back. *)
Record world : Type := mkWorld {
  w_pool : Pool;
  w_threads : nat → pc;
  w_held : list Z;
}.

Definition upd_thread (i : nat) (c : pc) (t : nat → pc) : nat → pc :=
  λ j, if decide (j = i) then c else t j.

Definition allocating (c : pc) : bool :=
  match c with AllocLoad _ | AllocNext _ _ | AllocCas _ _ _ => true | _ => false end.

(** One atomic step of thread [i].  With [single] set, a thread may only enter
    [allocate] while no other thread is inside it. *)
(* src: mielin-kernel/src/pool.rs 195-247 Pool::allocate, Pool::deallocate *)
Inductive pool_step (single : bool) : relation world :=
| ps_enter_alloc p t h i :
    t i = Idle → (single = true → ∀ j, allocating (t j) = false) →
    pool_step single (mkWorld p t h) (mkWorld p (upd_thread i (AllocLoad Pool.MAX_RETRIES) t) h)
| ps_alloc_giveup p t h i :
    t i = AllocLoad 0 →
    pool_step single (mkWorld p t h) (mkWorld p (upd_thread i Idle t) h)
| ps_alloc_null p t h i n :
    t i = AllocLoad (S n) → free_list p = 0 →
    pool_step single (mkWorld p t h) (mkWorld p (upd_thread i Idle t) h)
| ps_alloc_head p t h i n :
    t i = AllocLoad (S n) → free_list p ≠ 0 →
    pool_step single (mkWorld p t h) (mkWorld p (upd_thread i (AllocNext n (free_list p)) t) h)
| ps_alloc_next p t h i n hd nx :
    t i = AllocNext n hd → links p !! hd = Some nx →
    pool_step single (mkWorld p t h) (mkWorld p (upd_thread i (AllocCas n hd nx) t) h)
| ps_alloc_cas_ok p t h i n hd nx :
    t i = AllocCas n hd nx → free_list p = hd →
    pool_step single (mkWorld p t h)
      (mkWorld (set_allocated (wrap32 (allocated_blocks p + 1)) (set_free_list nx p))
               (upd_thread i Idle t) (hd :: h))
| ps_alloc_cas_fail p t h i n hd nx :
    t i = AllocCas n hd nx →
    pool_step single (mkWorld p t h) (mkWorld p (upd_thread i (AllocLoad n) t) h)
| ps_enter_dealloc p t h1 h2 i b :
    t i = Idle →
    pool_step single (mkWorld p t (h1 ++ b :: h2))
      (mkWorld p (upd_thread i (DeallocLoad Pool.MAX_RETRIES b) t) (h1 ++ h2))
| ps_dealloc_giveup p t h i b :
    t i = DeallocLoad 0 b →
    pool_step single (mkWorld p t h) (mkWorld p (upd_thread i Idle t) h)
| ps_dealloc_head p t h i n b :
    t i = DeallocLoad (S n) b →
    pool_step single (mkWorld p t h) (mkWorld p (upd_thread i (DeallocLink n b (free_list p)) t) h)
| ps_dealloc_link p t h i n b hd :
    t i = DeallocLink n b hd →
    pool_step single (mkWorld p t h)
      (mkWorld (set_links (<[b := hd]> (links p)) p) (upd_thread i (DeallocCas n b hd) t) h)
| ps_dealloc_cas_ok p t h i n b hd :
    t i = DeallocCas n b hd → free_list p = hd →
    pool_step single (mkWorld p t h)
      (mkWorld (set_allocated (wrap32 (allocated_blocks p - 1)) (set_free_list b p))
               (upd_thread i Idle t) h)
| ps_dealloc_cas_fail p t h i n b hd :
    t i = DeallocCas n b hd →
    pool_step single (mkWorld p t h) (mkWorld p (upd_thread i (DeallocLoad n b) t) h)
(** The holder of a block overwrites its first word. *)
| ps_user_write p t h b w :
    b ∈ h →
    pool_step single (mkWorld p t h) (mkWorld (set_links (<[b := w]> (links p)) p) t h).
