(* ===== verification/PoolInv.v ===== *)
(** * The pools' invariants

    The free list as the list it represents ([chain]), a pool as the partition
    of its blocks into free and used ones ([pool_ok]), what each operation does
    to the partition, and the allocator over the seven classes ([pa_ok]). *)

From stdpp Require Import base tactics option list numbers gmap sorting.
From S2P Require Import Prelude Pool.

(** ** The free list *)

(** The list that starts at the address [h] visits the blocks [l] and ends. *)
Fixpoint chain (m : FreeBlock) (h : Z) (l : list Z) : Prop :=
  match l with
  | [] => h = 0
  | b :: l' => h = b ∧ b ≠ 0 ∧ ∃ nx, m !! b = Some nx ∧ chain m nx l'
  end.

Lemma chain_nonnull m h l : chain m h l → h ≠ 0 ↔ l ≠ [].
Proof. destruct l; simpl; [naive_solver|]. intros (-> & ? & _). done. Qed.

(** Writing a block that is not on the list leaves the list. *)
Lemma chain_insert m h l b w : b ∉ l → chain m h l → chain (<[b := w]> m) h l.
Proof.
  revert h. induction l as [|x l IH]; intros h Hb Hc; [done|]. destruct Hc as (-> & Hx & nx & Hm & Hc).
  apply not_elem_of_cons in Hb as [Hne Hb]. split_and!; [done|done|]. exists nx.
  split; [by rewrite lookup_insert_ne|by apply IH].
Qed.

Lemma chain_push m h l b : b ≠ 0 → b ∉ l → chain m h l → chain (<[b := h]> m) b (b :: l).
Proof.
  intros Hb Hl Hc. split_and!; [done|done|]. exists h. split; [by rewrite lookup_insert_eq|].
  by apply chain_insert.
Qed.

(** ** The blocks of an arena *)

Definition blocks (base bs : Z) (n : nat) : list Z := (λ i, base + Z.of_nat i * bs) <$> seq 0 n.

Lemma elem_of_blocks base bs n b :
  b ∈ blocks base bs n ↔ ∃ i, (i < n)%nat ∧ b = base + Z.of_nat i * bs.
Proof.
  unfold blocks. rewrite list_elem_of_fmap. split.
  - intros (i & -> & Hi%elem_of_seq). exists i. split; [lia|done].
  - intros (i & Hi & ->). exists i. split; [done|]. apply elem_of_seq. lia.
Qed.

Lemma length_blocks base bs n : length (blocks base bs n) = n.
Proof. unfold blocks. by rewrite length_fmap, length_seq. Qed.

Lemma NoDup_blocks base bs n : 0 < bs → NoDup (blocks base bs n).
Proof.
  intros Hbs. unfold blocks. apply NoDup_fmap_2; [|apply NoDup_seq].
  intros i j Hij. apply Nat2Z.inj. nia.
Qed.

(** Two blocks that are not the same do not overlap. *)
Lemma blocks_disjoint base bs n b c :
  0 < bs → b ∈ blocks base bs n → c ∈ blocks base bs n → b ≠ c → b + bs <= c ∨ c + bs <= b.
Proof.
  intros Hbs (i & _ & ->)%elem_of_blocks (j & _ & ->)%elem_of_blocks Hne.
  destruct (decide (i = j)) as [->|Hij]; [done|].
  assert (Z.of_nat i + 1 <= Z.of_nat j ∨ Z.of_nat j + 1 <= Z.of_nat i) as [|] by lia; [left|right]; nia.
Qed.

Lemma blocks_in_arena base bs n b :
  0 < bs → b ∈ blocks base bs n → base <= b ∧ b + bs <= base + Z.of_nat n * bs.
Proof. intros Hbs (i & Hi & ->)%elem_of_blocks. nia. Qed.

(** ** The partition of a pool *)

Definition num_blocks (bs : Z) : Z := Pool.ARENA_SIZE / bs.

(** The block sizes a pool is made with. *)
Definition valid_size (bs : Z) : Prop := ∃ b, bs = BlockSize.bytes b.

Record pool_ok (base bs : Z) (p : Pool) (free used : list Z) : Prop := {
  po_size : block_size p = bs;
  po_init : initialized p = 1;
  po_arena : arena p = Some base;
  po_total : total_blocks p = num_blocks bs;
  po_chain : chain (links p) (free_list p) free;
  po_perm : free ++ used ≡ₚ blocks base bs (Z.to_nat (num_blocks bs));
  po_alloc : allocated_blocks p = Z.of_nat (length used);
}.

Lemma num_blocks_range bs : valid_size bs → 16 <= num_blocks bs <= 2048.
Proof. intros [[] ->]; vm_compute; split; congruence. Qed.

Lemma num_blocks_mul bs : valid_size bs → num_blocks bs * bs = Pool.ARENA_SIZE.
Proof. by intros [[] ->]. Qed.

Lemma valid_size_pos bs : valid_size bs → 32 <= bs.
Proof. intros [[] ->]; vm_compute; congruence. Qed.

Section pool.
Context (base bs : Z) (Hbase : 0 < base) (Hbs : valid_size bs).

Lemma pool_nodup p free used : pool_ok base bs p free used → NoDup (free ++ used).
Proof. intros Hp. rewrite (po_perm _ _ _ _ _ Hp). apply NoDup_blocks. pose proof (valid_size_pos _ Hbs). lia. Qed.

Lemma pool_in_blocks p free used b :
  pool_ok base bs p free used → b ∈ free ++ used → b ∈ blocks base bs (Z.to_nat (num_blocks bs)).
Proof. intros Hp. by rewrite (po_perm _ _ _ _ _ Hp). Qed.

Lemma pool_nonnull p free used b : pool_ok base bs p free used → b ∈ free ++ used → b ≠ 0.
Proof.
  intros Hp Hb. pose proof (valid_size_pos _ Hbs).
  apply (pool_in_blocks _ _ _ _ Hp), blocks_in_arena in Hb; lia.
Qed.

Lemma pool_counts p free used :
  pool_ok base bs p free used → Z.of_nat (length free) + Z.of_nat (length used) = num_blocks bs.
Proof.
  intros Hp. pose proof (Permutation_length (po_perm _ _ _ _ _ Hp)) as Hl.
  rewrite length_app, length_blocks in Hl. pose proof (num_blocks_range _ Hbs). lia.
Qed.

(** ** Initialization *)

Lemma build_list_spec i p l :
  block_size p = bs → chain (links p) (free_list p) l →
  (∀ b, b ∈ l → base + Z.of_nat i * bs <= b) →
  ∃ h m, Pool.build_list i base p = set_free_list h (set_links m p) ∧ chain m h (blocks base bs i ++ l).
Proof.
  pose proof (valid_size_pos _ Hbs) as Hpos.
  revert p l. induction i as [|i IH]; intros p l Hsz Hc Hl; cbn [Pool.build_list].
  - exists (free_list p), (links p). by destruct p.
  - rewrite Hsz. set (b := base + Z.of_nat i * bs).
    assert (b ∉ l) by (intros Hb%Hl; unfold b in *; lia).
    destruct (IH (set_free_list b (set_links (<[b := free_list p]> (links p)) p)) (b :: l))
      as (h & m & -> & Hm).
    + done.
    + apply chain_push; [unfold b; lia|done|done].
    + intros c [->|Hc'%Hl]%elem_of_cons; unfold b; lia.
    + exists h, m. split; [by destruct p|]. unfold blocks. rewrite seq_S, fmap_app, <-app_assoc. exact Hm.
Qed.

Lemma init_spec :
  ∃ p, Pool.init base (Pool.new bs) = Ret p ∧
    pool_ok base bs p (blocks base bs (Z.to_nat (num_blocks bs))) [].
Proof.
  pose proof (valid_size_pos _ Hbs). pose proof (num_blocks_range _ Hbs) as Hn.
  unfold Pool.init. simpl. rewrite usize_div_ok by lia. cbn [obind]. fold (num_blocks bs).
  rewrite as_u32_small by lia. eexists. split; [done|].
  edestruct (build_list_spec (Z.to_nat (num_blocks bs))) as (h & m & -> & Hm); [| | |split; try done].
  - done.
  - by instantiate (1 := []).
  - by intros b ?%not_elem_of_nil.
  - simpl. by rewrite app_nil_r in Hm.
  - by rewrite app_nil_r.
Qed.

(** A second [init] does nothing. *)
Lemma init_again base' p free used : pool_ok base bs p free used → Pool.init base' p = Ret p.
Proof. intros Hp. unfold Pool.init. by rewrite (po_init _ _ _ _ _ Hp). Qed.

(** ** Allocation and deallocation *)

(** One of the exchanges of the retry loop goes through. *)
Definition goes_through (weak : nat → bool) (tries : nat) : bool := existsb weak (seq 0 tries).

Lemma goes_through_S weak n : goes_through weak (S n) = goes_through weak n || weak n.
Proof. unfold goes_through. rewrite seq_S, existsb_app. simpl. by rewrite orb_false_r. Qed.

Lemma allocate_loop_spec weak n p free used :
  pool_ok base bs p free used →
  match free with
  | b :: free' =>
      if goes_through weak n
      then ∃ p', Pool.allocate_loop n weak p = Ret (Some b, p') ∧ pool_ok base bs p' free' (b :: used)
      else Pool.allocate_loop n weak p = Ret (None, p)
  | [] => Pool.allocate_loop n weak p = Ret (None, p)
  end.
Proof.
  intros Hp. pose proof (pool_counts _ _ _ Hp) as Hcnt. pose proof (num_blocks_range _ Hbs) as Hn.
  pose proof (po_chain _ _ _ _ _ Hp) as Hc. destruct free as [|b free].
  - destruct n; [done|]. simpl in *. by rewrite Hc.
  - destruct Hc as (Hh & Hb & nx & Hm & Hc). induction n as [|n IH]; [done|].
    rewrite goes_through_S. simpl. rewrite Hh, (proj2 (Z.eqb_neq _ _) Hb), Hm.
    destruct (weak n); rewrite ?orb_true_r, ?orb_false_r; [|exact IH].
    eexists. split; [done|]. split; simpl; try apply Hp; [done| |].
    + rewrite <-(po_perm _ _ _ _ _ Hp). by rewrite <-Permutation_middle.
    + rewrite (po_alloc _ _ _ _ _ Hp), wrap32_small; simpl in *; lia.
Qed.

Lemma deallocate_loop_spec weak n p free used b used' :
  pool_ok base bs p free used → used ≡ₚ b :: used' →
  if goes_through weak n
  then pool_ok base bs (Pool.deallocate_loop n weak b p) (b :: free) used'
  else pool_ok base bs (Pool.deallocate_loop n weak b p) free used.
Proof.
  intros Hp Hu. revert p Hp. induction n as [|n IH]; intros p Hp; [done|]. rewrite goes_through_S. simpl.
  assert (b ∈ used) as Hin by (rewrite Hu; set_solver).
  assert (b ∉ free) as Hfree.
  { intros Hf. pose proof (pool_nodup _ _ _ Hp) as Hnd. apply NoDup_app in Hnd as (_ & Hd & _). by apply (Hd b). }
  assert (b ≠ 0) by (eapply pool_nonnull; [done|set_solver]).
  set (q := set_links _ p). assert (pool_ok base bs q free used) as Hq.
  { split; simpl; try apply Hp. apply chain_insert; [done|apply Hp]. }
  destruct (weak n); rewrite ?orb_true_r, ?orb_false_r; [|by apply IH].
  pose proof (Permutation_length Hu) as Hlen. pose proof (pool_counts _ _ _ Hp). pose proof (num_blocks_range _ Hbs).
  split; simpl; try apply Hp.
  - apply (chain_push (links p) (free_list p)); [done|done|apply Hp].
  - rewrite <-(po_perm _ _ _ _ _ Hp), Hu. simpl. by rewrite Permutation_middle.
  - rewrite (po_alloc _ _ _ _ _ Hp). simpl in *. rewrite wrap32_small; lia.
Qed.

End pool.

(** ** Size classes *)

Lemma for_size_smallest size :
  0 <= size →
  match BlockSize.for_size size with
  | Some b => 0 < size <= BlockSize.bytes b ∧
              ∀ c, size <= BlockSize.bytes c → BlockSize.bytes b <= BlockSize.bytes c
  | None => size = 0 ∨ 4096 < size
  end.
Proof.
  intros Hs. unfold BlockSize.for_size.
  repeat (case_bool; [first [lia | split; [simpl; lia | intros []; simpl; lia]]|]). lia.
Qed.

Lemma index_range b : 0 <= BlockSize.index b < 7.
Proof. by destruct b. Qed.

Lemma index_inj b c : Z.to_nat (BlockSize.index b) = Z.to_nat (BlockSize.index c) → b = c.
Proof. by destruct b, c. Qed.

(** ** The allocator *)

Section allocator.
Context (arenas : nat → Z) (Hpos : ∀ i, 0 < arenas i).

Definition arena_of (b : BlockSize) : Z := arenas (Z.to_nat (BlockSize.index b)).

(** Every class has its pool, with its partition. *)
Record pa_ok (pa : PoolAllocator) (free used : BlockSize → list Z) : Prop := {
  pk_len : length (pools pa) = 7%nat;
  pk_pool : ∀ b, ∃ p, pools pa !! Z.to_nat (BlockSize.index b) = Some p ∧
    pool_ok (arena_of b) (BlockSize.bytes b) p (free b) (used b);
}.

Definition fupd {A} (b : BlockSize) (x : A) (f : BlockSize → A) : BlockSize → A :=
  λ c, if decide (c = b) then x else f c.

Lemma fupd_eq {A} b (x : A) f : fupd b x f b = x.
Proof. unfold fupd. by rewrite decide_True. Qed.

Lemma fupd_ne {A} b c (x : A) f : c ≠ b → fupd b x f c = f c.
Proof. intros. unfold fupd. by rewrite decide_False. Qed.

Lemma valid_bytes b : valid_size (BlockSize.bytes b).
Proof. by exists b. Qed.

Lemma pa_get pa free used b :
  pa_ok pa free used →
  ∃ p, arr_get (pools pa) (BlockSize.index b) = Ret p ∧
    pools pa !! Z.to_nat (BlockSize.index b) = Some p ∧
    pool_ok (arena_of b) (BlockSize.bytes b) p (free b) (used b) ∧
    ∀ q, arr_set (pools pa) (BlockSize.index b) q = Ret (<[Z.to_nat (BlockSize.index b) := q]> (pools pa)).
Proof.
  intros Hok. destruct (pk_pool _ _ _ Hok b) as (p & Hp & Hpo). pose proof (index_range b).
  exists p. split; [apply arr_get_ok; [lia|done]|]. split_and!; [done..|]. intros q.
  apply arr_set_ok. rewrite (pk_len _ _ _ Hok). lia.
Qed.

Lemma pa_set pa free used b q fr us ta td :
  pa_ok pa free used → pool_ok (arena_of b) (BlockSize.bytes b) q fr us →
  pa_ok (mkPoolAllocator (<[Z.to_nat (BlockSize.index b) := q]> (pools pa)) ta td)
    (fupd b fr free) (fupd b us used).
Proof.
  intros Hok Hq. pose proof (index_range b). split; simpl.
  - by rewrite length_insert, (pk_len _ _ _ Hok).
  - intros c. destruct (decide (c = b)) as [->|Hne].
    + exists q. rewrite !fupd_eq, list_lookup_insert_eq by (rewrite (pk_len _ _ _ Hok); lia). done.
    + rewrite !fupd_ne, list_lookup_insert_ne by (try done; by intros ?%index_inj).
      apply (pk_pool _ _ _ Hok).
Qed.

Lemma pa_ok_ext pa free used free' used' ta td :
  pa_ok pa free used → (∀ b, free' b = free b) → (∀ b, used' b = used b) →
  pa_ok (mkPoolAllocator (pools pa) ta td) free' used'.
Proof.
  intros [Hl Hp] Hf Hu. split; [done|]. intros b. simpl. rewrite Hf, Hu. apply Hp.
Qed.

Lemma pa_allocate_spec weak pa free used size :
  pa_ok pa free used →
  match BlockSize.for_size size with
  | None => PoolAllocator.allocate weak pa size = Ret (None, pa)
  | Some b =>
      match free b with
      | x :: fr =>
          if goes_through weak Pool.MAX_RETRIES
          then ∃ pa', PoolAllocator.allocate weak pa size = Ret (Some (mkPoolAllocation x b size), pa') ∧
                 pa_ok pa' (fupd b fr free) (fupd b (x :: used b) used)
          else PoolAllocator.allocate weak pa size = Ret (None, pa)
      | [] => PoolAllocator.allocate weak pa size = Ret (None, pa)
      end
  end.
Proof.
  intros Hok. unfold PoolAllocator.allocate. destruct (BlockSize.for_size size) as [b|]; [|done].
  destruct (pa_get pa free used b Hok) as (p & -> & Hl & Hp & Hset). cbn [obind]. unfold Pool.allocate.
  pose proof (allocate_loop_spec _ _ (valid_bytes b) weak Pool.MAX_RETRIES p _ _ Hp) as Ha.
  assert (mkPoolAllocator (<[Z.to_nat (BlockSize.index b):=p]> (pools pa))
            (total_allocations pa) (total_deallocations pa) = pa) as Hid.
  { rewrite list_insert_id by done. by destruct pa. }
  destruct (free b) as [|x fr]; [rewrite Ha; cbn [obind]; by rewrite Hset; cbn [obind]; rewrite Hid|].
  destruct (goes_through _ _); [|rewrite Ha; cbn [obind]; by rewrite Hset; cbn [obind]; rewrite Hid].
  destruct Ha as (p' & -> & Hp'). cbn [obind]. rewrite Hset. cbn [obind].
  eexists. split; [done|]. by apply pa_set.
Qed.

Lemma pa_deallocate_spec weak pa free used a us :
  pa_ok pa free used → used (alloc_block_size a) ≡ₚ ptr a :: us →
  ∃ pa', PoolAllocator.deallocate weak pa a = Ret pa' ∧
    if goes_through weak Pool.MAX_RETRIES
    then pa_ok pa' (fupd (alloc_block_size a) (ptr a :: free (alloc_block_size a)) free)
               (fupd (alloc_block_size a) us used)
    else pa_ok pa' free used.
Proof.
  intros Hok Hu. unfold PoolAllocator.deallocate. set (b := alloc_block_size a) in *.
  destruct (pa_get pa free used b Hok) as (p & -> & Hl & Hp & Hset). cbn [obind]. rewrite Hset. cbn [obind].
  eexists. split; [done|]. unfold Pool.deallocate.
  pose proof (deallocate_loop_spec _ _ (Hpos _) (valid_bytes b) weak Pool.MAX_RETRIES p _ _ _ _ Hp Hu) as Hd.
  destruct (goes_through _ _); [by apply pa_set|].
  apply (pa_set _ _ _ _ _ _ _ (total_allocations pa) (wrap64 (total_deallocations pa + 1)) Hok) in Hd.
  eapply (pa_ok_ext _ _ _ _ _ _ _ Hd); intros c; unfold fupd; case_decide; subst; done.
Qed.

(** ** Runs with the live allocations *)

Definition class_ptrs (b : BlockSize) (live : list PoolAllocation) : list Z :=
  ptr <$> filter (λ a, alloc_block_size a = b) live.

(** Clients hold the allocations in [live] and give each back at most once. *)
Inductive pa_step : relation (PoolAllocator * list PoolAllocation) :=
| pa_alloc weak pa live size r pa' :
    0 <= size → PoolAllocator.allocate weak pa size = Ret (r, pa') →
    pa_step (pa, live) (pa', match r with Some a => a :: live | None => live end)
| pa_dealloc weak pa live1 a live2 pa' :
    PoolAllocator.deallocate weak pa a = Ret pa' →
    pa_step (pa, live1 ++ a :: live2) (pa', live1 ++ live2).

Definition pa_inv (w : PoolAllocator * list PoolAllocation) : Prop :=
  ∃ free used, pa_ok w.1 free used ∧ (∀ b, class_ptrs b w.2 ⊆+ used b) ∧
    ∀ a, a ∈ w.2 → 0 < requested_size a <= actual_size a.

Lemma class_ptrs_cons b a live :
  class_ptrs b (a :: live) =
    if decide (alloc_block_size a = b) then ptr a :: class_ptrs b live else class_ptrs b live.
Proof. unfold class_ptrs. rewrite filter_cons. by case_decide. Qed.

Lemma class_ptrs_perm b l1 l2 : l1 ≡ₚ l2 → class_ptrs b l1 ≡ₚ class_ptrs b l2.
Proof. intros Hl. unfold class_ptrs. by rewrite Hl. Qed.

Lemma pa_alloc_inv weak pa live size r pa' :
  pa_inv (pa, live) → 0 <= size → PoolAllocator.allocate weak pa size = Ret (r, pa') →
  pa_inv (pa', match r with Some a => a :: live | None => live end).
Proof.
  intros (free & used & Hok & Hsub & Hsz) Hs Heq.
  pose proof (pa_allocate_spec weak pa free used size Hok) as Ha. pose proof (for_size_smallest size Hs) as Hfs.
  destruct (BlockSize.for_size size) as [b|];
    [|rewrite Ha in Heq; injection Heq as <- <-; by exists free, used].
  destruct (free b) as [|x fr]; [rewrite Ha in Heq; injection Heq as <- <-; by exists free, used|].
  destruct (goes_through _ _); [|rewrite Ha in Heq; injection Heq as <- <-; by exists free, used].
  destruct Ha as (pa1 & Ha & Hok1). rewrite Ha in Heq. injection Heq as <- <-.
  exists (fupd b fr free), (fupd b (x :: used b) used). split_and!; [done|..]; simpl.
  - intros c. rewrite class_ptrs_cons. simpl. case_decide as Hc; subst.
    + rewrite fupd_eq. by apply submseteq_skip.
    + by rewrite fupd_ne by done.
  - intros a [->|Ha']%elem_of_cons; [|by apply Hsz]. unfold actual_size. simpl. lia.
Qed.

Lemma pa_dealloc_step weak pa live1 a live2 :
  pa_inv (pa, live1 ++ a :: live2) →
  ∃ pa', PoolAllocator.deallocate weak pa a = Ret pa' ∧ pa_inv (pa', live1 ++ live2).
Proof.
  intros (free & used & Hok & Hsub & Hsz). simpl in *. set (b := alloc_block_size a).
  assert (∀ c, class_ptrs c (live1 ++ a :: live2) ≡ₚ class_ptrs c (a :: live1 ++ live2)) as Hp.
  { intros c. apply class_ptrs_perm. by rewrite Permutation_middle. }
  assert (ptr a :: class_ptrs b (live1 ++ live2) ⊆+ used b) as Hb.
  { specialize (Hsub b). rewrite Hp, class_ptrs_cons, decide_True in Hsub by done. done. }
  assert (ptr a ∈ used b) as Hin.
  { eapply elem_of_submseteq; [|exact Hb]. set_solver. }
  apply elem_of_Permutation in Hin as [us Hus].
  destruct (pa_deallocate_spec weak pa free used a us Hok Hus) as (pa' & Heq & Hok').
  exists pa'. split; [done|]. destruct (goes_through _ _).
  - eexists _, _. split_and!; [exact Hok'|..]; simpl.
    + intros c. destruct (decide (c = b)) as [->|Hne].
      * rewrite fupd_eq. rewrite Hus in Hb. by apply (submseteq_app_inv_l _ _ [ptr a]).
      * rewrite fupd_ne by done. rewrite <-Hsub, Hp, class_ptrs_cons, decide_False by done. done.
    + intros a' Ha'. apply Hsz. set_solver.
  - exists free, used. split_and!; [done|..]; simpl.
    + intros c. rewrite <-Hsub, Hp, class_ptrs_cons. case_decide; [|done]. by apply submseteq_cons.
    + intros a' Ha'. apply Hsz. set_solver.
Qed.

Lemma pa_step_inv w w' : pa_step w w' → pa_inv w → pa_inv w'.
Proof.
  destruct 1 as [weak pa live size r pa' Hs Heq|weak pa live1 a live2 pa' Heq]; intros Hi.
  - by eapply pa_alloc_inv.
  - destruct (pa_dealloc_step weak _ _ _ _ Hi) as (pa1 & Heq1 & Hi1). congruence.
Qed.

Lemma pa_init_ok :
  ∃ pa, PoolAllocator.init arenas PoolAllocator.new = Ret pa ∧
    pa_ok pa (λ b, blocks (arena_of b) (BlockSize.bytes b) (Z.to_nat (num_blocks (BlockSize.bytes b)))) (λ _, []).
Proof.
  destruct (init_spec (arenas 0) 32 (Hpos _) (valid_bytes B32)) as (p0 & H0 & O0).
  destruct (init_spec (arenas 1) 64 (Hpos _) (valid_bytes B64)) as (p1 & H1 & O1).
  destruct (init_spec (arenas 2) 128 (Hpos _) (valid_bytes B128)) as (p2 & H2 & O2).
  destruct (init_spec (arenas 3) 256 (Hpos _) (valid_bytes B256)) as (p3 & H3 & O3).
  destruct (init_spec (arenas 4) 512 (Hpos _) (valid_bytes B512)) as (p4 & H4 & O4).
  destruct (init_spec (arenas 5) 1024 (Hpos _) (valid_bytes K1)) as (p5 & H5 & O5).
  destruct (init_spec (arenas 6) 4096 (Hpos _) (valid_bytes K4)) as (p6 & H6 & O6).
  unfold PoolAllocator.init. cbn [pools PoolAllocator.new PoolAllocator.init_pools].
  rewrite H0, H1, H2, H3, H4, H5, H6. cbn [obind].
  eexists. split; [done|]. split; [done|]. by intros []; eexists; (split; [reflexivity|assumption]).
Qed.

(** ** Live allocations *)

(** With no address twice in a class, an allocation sits at one place. *)
Lemma class_ptrs_inj live b i j a c :
  NoDup (class_ptrs b live) → live !! i = Some a → live !! j = Some c →
  alloc_block_size a = b → alloc_block_size c = b → ptr a = ptr c → i = j.
Proof.
  revert i j. induction live as [|x live IH]; intros i j Hn Hi Hj Ha Hc Heq; [done|].
  assert (∀ k y, live !! k = Some y → alloc_block_size y = b → ptr y ∈ class_ptrs b live) as Hin.
  { intros k y Hk Hy. unfold class_ptrs. apply list_elem_of_fmap. exists y. split; [done|].
    apply list_elem_of_filter. split; [done|]. by eapply list_elem_of_lookup_2. }
  rewrite class_ptrs_cons in Hn.
  destruct i as [|i], j as [|j]; simplify_eq/=; [done|..].
  - rewrite decide_True in Hn by done. apply NoDup_cons in Hn as [Hx _]. destruct Hx. rewrite Heq. by eapply Hin.
  - rewrite decide_True in Hn by done. apply NoDup_cons in Hn as [Hx _]. destruct Hx. rewrite <-Heq. by eapply Hin.
  - f_equal. eapply IH; [|done..]. case_decide; [by apply NoDup_cons in Hn as [_ ?]|done].
Qed.

Section live.
Context (pa : PoolAllocator) (live : list PoolAllocation) (free used : BlockSize → list Z).
Context (Hok : pa_ok pa free used) (Hsub : ∀ b, class_ptrs b live ⊆+ used b).

Lemma live_in_blocks a :
  a ∈ live →
  ptr a ∈ blocks (arena_of (alloc_block_size a)) (actual_size a) (Z.to_nat (num_blocks (actual_size a))).
Proof.
  intros Ha. destruct (pk_pool _ _ _ Hok (alloc_block_size a)) as (p & _ & Hp).
  eapply pool_in_blocks; [exact Hp|]. apply elem_of_app. right.
  eapply elem_of_submseteq; [|apply Hsub]. unfold class_ptrs. apply list_elem_of_fmap.
  exists a. split; [done|]. by apply list_elem_of_filter.
Qed.

Lemma live_in_arena a :
  a ∈ live → arena_of (alloc_block_size a) <= ptr a ∧
    ptr a + actual_size a <= arena_of (alloc_block_size a) + Pool.ARENA_SIZE.
Proof.
  intros Ha%live_in_blocks. pose proof (valid_size_pos _ (valid_bytes (alloc_block_size a))).
  pose proof (num_blocks_range _ (valid_bytes (alloc_block_size a))).
  pose proof (num_blocks_mul _ (valid_bytes (alloc_block_size a))). unfold actual_size in *.
  apply blocks_in_arena in Ha; lia.
Qed.

Lemma class_nodup b : NoDup (class_ptrs b live).
Proof.
  destruct (pk_pool _ _ _ Hok b) as (p & _ & Hp).
  pose proof (pool_nodup _ _ (valid_bytes b) _ _ _ Hp) as Hn. apply NoDup_app in Hn as (_ & _ & Hn).
  destruct (submseteq_Permutation _ _ (Hsub b)) as [k Hk]. rewrite Hk in Hn. by apply NoDup_app in Hn as (? & _).
Qed.

Lemma same_class_disjoint i j a c :
  live !! i = Some a → live !! j = Some c → i ≠ j → alloc_block_size a = alloc_block_size c →
  ptr a + actual_size a <= ptr c ∨ ptr c + actual_size c <= ptr a.
Proof.
  intros Hi Hj Hij Hb. pose proof (live_in_blocks a (list_elem_of_lookup_2 _ _ _ Hi)) as Ha.
  pose proof (live_in_blocks c (list_elem_of_lookup_2 _ _ _ Hj)) as Hc.
  unfold actual_size in *. rewrite <-Hb in *.
  eapply blocks_disjoint; [|done|done|]; [pose proof (valid_size_pos _ (valid_bytes (alloc_block_size a))); lia|].
  intros Heq. destruct Hij. eapply class_ptrs_inj; [apply class_nodup|done..].
Qed.
End live.

Lemma pa_allocate_total weak pa free used size :
  pa_ok pa free used → ∃ r, PoolAllocator.allocate weak pa size = Ret r.
Proof.
  intros Hok. pose proof (pa_allocate_spec weak pa free used size Hok) as Ha.
  destruct (BlockSize.for_size size) as [b|]; [|eauto]. destruct (free b); [eauto|].
  destruct (goes_through _ _); [destruct Ha as (pa' & -> & _)|]; eauto.
Qed.

(** ** Statistics *)

Lemma pool_stat_sums b p fr us :
  pool_ok (arena_of b) (BlockSize.bytes b) p fr us →
  block_size p = BlockSize.bytes b ∧ BlockSize.bytes b * total_blocks p = Pool.ARENA_SIZE ∧
  Pool.free_blocks p = total_blocks p - allocated_blocks p ∧ 0 <= allocated_blocks p <= total_blocks p.
Proof.
  intros Hp. pose proof (pool_counts _ _ (valid_bytes b) _ _ _ Hp).
  pose proof (num_blocks_mul _ (valid_bytes b)).
  unfold Pool.free_blocks, saturating_sub. rewrite (po_size _ _ _ _ _ Hp), (po_total _ _ _ _ _ Hp), (po_alloc _ _ _ _ _ Hp).
  split_and!; lia.
Qed.

Definition total_bytes (l : list Pool) (f : Pool → Z) : Z :=
  foldr (λ p acc, block_size p * f p + acc) 0 l.

Lemma sum_of_ok (l : list Pool) (f : Pool → Z) g :
  Forall (λ p, 0 <= block_size p * f p <= Pool.ARENA_SIZE) l → (length l <= 7)%nat →
  (∀ p, g (mkPoolSizeStats (block_size p) (total_blocks p) (allocated_blocks p) (Pool.free_blocks p)) = f p) →
  sum_of g ((λ p, mkPoolSizeStats (block_size p) (total_blocks p) (allocated_blocks p) (Pool.free_blocks p)) <$> l)
    = Ret (total_bytes l f) ∧ 0 <= total_bytes l f <= Z.of_nat (length l) * Pool.ARENA_SIZE.
Proof.
  unfold Pool.ARENA_SIZE. intros Hl Hlen Hg. induction Hl as [|p l Hp Hl IH]; [done|].
  destruct IH as [IH Hb]; [simpl in *; lia|]. rewrite fmap_cons. cbn [sum_of ps_block_size total_bytes foldr length] in *.
  fold (total_bytes l f). rewrite Hg. rewrite usize_mul_ok by lia. cbn [obind]. rewrite IH. cbn [obind]. rewrite usize_add_ok by lia. split; [done|lia].
Qed.

Lemma pa_all_pools pa free used :
  pa_ok pa free used →
  Forall (λ p, block_size p * total_blocks p = Pool.ARENA_SIZE ∧ 0 <= block_size p ∧
               Pool.free_blocks p = total_blocks p - allocated_blocks p ∧
               0 <= allocated_blocks p <= total_blocks p) (pools pa).
Proof.
  intros Hok. apply Forall_lookup. intros i p Hi. pose proof (lookup_lt_Some _ _ _ Hi) as Hlt.
  rewrite (pk_len _ _ _ Hok) in Hlt.
  assert (∃ b, i = Z.to_nat (BlockSize.index b)) as [b ->].
  { do 7 (destruct i as [|i]; [by (exists B32 + exists B64 + exists B128 + exists B256 + exists B512 + exists K1 + exists K4)|]). lia. }
  destruct (pk_pool _ _ _ Hok b) as (p' & Hp' & Hpo). rewrite Hi in Hp'. injection Hp' as <-.
  destruct (pool_stat_sums b p _ _ Hpo) as (-> & Ht & Hf & Ha). pose proof (valid_size_pos _ (valid_bytes b)).
  split_and!; [exact Ht|lia|exact Hf|lia..].
Qed.

Lemma pa_stats pa free used :
  pa_ok pa free used →
  PoolStats.total_memory (PoolAllocator.stats pa) = Ret (7 * Pool.ARENA_SIZE) ∧
  ∃ a f, PoolStats.allocated_memory (PoolAllocator.stats pa) = Ret a ∧
    PoolStats.free_memory (PoolAllocator.stats pa) = Ret f ∧ a + f = 7 * Pool.ARENA_SIZE.
Proof.
  intros Hok. pose proof (pa_all_pools _ _ _ Hok) as Hall. pose proof (pk_len _ _ _ Hok) as Hlen.
  assert (total_bytes (pools pa) total_blocks = 7 * Pool.ARENA_SIZE ∧
    total_bytes (pools pa) allocated_blocks + total_bytes (pools pa) Pool.free_blocks = 7 * Pool.ARENA_SIZE) as [Ht Hs].
  { change 7 with (Z.of_nat 7). rewrite <-Hlen. clear -Hall.
    induction Hall as [|p l (Ht & _ & Hf & _) _ [IH1 IH2]]; [done|]. simpl. rewrite Hf. split; nia. }
  unfold PoolStats.total_memory, PoolStats.allocated_memory, PoolStats.free_memory, PoolAllocator.stats. simpl.
  destruct (sum_of_ok (pools pa) total_blocks ps_total_blocks) as [-> _]; [|lia|done|].
  { eapply Forall_impl; [exact Hall|]. simpl. intros p (Hp & _). unfold Pool.ARENA_SIZE in *. lia. }
  destruct (sum_of_ok (pools pa) allocated_blocks ps_allocated_blocks) as [-> _]; [|lia|done|].
  { eapply Forall_impl; [exact Hall|]. simpl. intros p (Hp & ? & _ & ?). nia. }
  destruct (sum_of_ok (pools pa) Pool.free_blocks ps_free_blocks) as [-> _]; [|lia|done|].
  { eapply Forall_impl; [exact Hall|]. simpl. intros p (Hp & ? & -> & ?). nia. }
  split; [by rewrite Ht|]. eauto.
Qed.

End allocator.
