(* ===== verification/PoolProps.v ===== *)
(** * A pool shared by threads

    The invariant of [pool_step] when at most one thread is inside [allocate]
    at any time, with threads inside [deallocate] unrestricted. *)

From stdpp Require Import base tactics option list numbers gmap relations.
From S2P Require Import Prelude Pool PoolInv.

(** The block a thread is giving back. *)
Definition in_flight (c : pc) : option Z :=
  match c with
  | DeallocLoad _ b | DeallocLink _ b _ | DeallocCas _ b _ => Some b
  | _ => None
  end.

(** What the local variables of a thread tell about the shared state. *)
Definition pc_ok (p : Pool) (free : list Z) (c : pc) : Prop :=
  match c with
  | AllocNext _ hd => hd ∈ free
  | AllocCas _ hd nx => hd ∈ free ∧ links p !! hd = Some nx
  | DeallocCas _ b hd => links p !! b = Some hd
  | _ => True
  end.

Record conc_inv (B : list Z) (w : world) (free : list Z) : Prop := {
  ci_chain : chain (links (w_pool w)) (free_list (w_pool w)) free;
  ci_nodup : NoDup (free ++ w_held w);
  ci_arena : ∀ b, b ∈ free ++ w_held w → b ∈ B;
  ci_flight : ∀ i b, in_flight (w_threads w i) = Some b → b ∈ B ∧ b ∉ free ++ w_held w;
  ci_flight_inj : ∀ i j b, in_flight (w_threads w i) = Some b → in_flight (w_threads w j) = Some b → i = j;
  ci_pc : ∀ i, pc_ok (w_pool w) free (w_threads w i);
  ci_single : ∀ i j, allocating (w_threads w i) = true → allocating (w_threads w j) = true → i = j;
}.

Lemma upd_eq i c t : upd_thread i c t i = c.
Proof. unfold upd_thread. by rewrite decide_True. Qed.

Lemma upd_cases i c t j :
  (j = i ∧ upd_thread i c t j = c) ∨ (j ≠ i ∧ upd_thread i c t j = t j).
Proof. unfold upd_thread. case_decide; naive_solver. Qed.

(** Every block on the list has its link. *)
Lemma chain_lookup m h l b : chain m h l → b ∈ l → ∃ nx, m !! b = Some nx.
Proof.
  revert h. induction l as [|x l IH]; intros h Hc Hb; [by apply not_elem_of_nil in Hb|].
  destruct Hc as (-> & _ & nx & Hm & Hc). apply elem_of_cons in Hb as [->|Hb]; eauto.
Qed.

Section conc.
Context (B : list Z) (HB : ∀ b, b ∈ B → b ≠ 0).

(** A step of one thread that leaves the pool and what is held: its new
    position must be justified, introduce no block in flight and not enter
    [allocate] anew. *)
Lemma conc_local p t h free i c :
  conc_inv B (mkWorld p t h) free → pc_ok p free c →
  (in_flight c = None ∨ in_flight c = in_flight (t i)) →
  (allocating c = true → allocating (t i) = true ∨ ∀ j, allocating (t j) = false) →
  conc_inv B (mkWorld p (upd_thread i c t) h) free.
Proof.
  intros [Hc Hn Ha Hf Hi Hp Hs] Hpc Hfl Hal. split; simpl in *; try done.
  - intros j b. destruct (upd_cases i c t j) as [[-> ->]|[_ ->]]; [|apply Hf].
    intros Hb. apply (Hf i). destruct Hfl; congruence.
  - intros j k b. destruct (upd_cases i c t j) as [[-> ->]|[? ->]], (upd_cases i c t k) as [[-> ->]|[? ->]];
      try done; try by apply Hi.
    + intros Hb. apply (Hi i). destruct Hfl; congruence.
    + intros Hb Hb'. apply (Hi j i b); [done|]. destruct Hfl; congruence.
  - intros j. destruct (upd_cases i c t j) as [[-> ->]|[_ ->]]; [done|apply Hp].
  - intros j k. destruct (upd_cases i c t j) as [[-> ->]|[? ->]], (upd_cases i c t k) as [[-> ->]|[? ->]];
      try done; try by apply Hs.
    + intros Hx Hy. destruct (Hal Hx) as [Hz|Hz]; [by apply Hs|]. by rewrite Hz in Hy.
    + intros Hx Hy. destruct (Hal Hy) as [Hz|Hz]; [by apply Hs|]. by rewrite Hz in Hx.
Qed.

(** Writing the link of a block off the list, whose owner is thread [i] or
    whose holder is a client, keeps the other threads' positions justified. *)
Lemma pc_ok_write p free c b w :
  b ∉ free → in_flight c ≠ Some b → pc_ok p free c → pc_ok (set_links (<[b := w]> (links p)) p) free c.
Proof.
  intros Hb Hc. destruct c; simpl in *; try done.
  - intros [Hin Hl]. split; [done|]. rewrite lookup_insert_ne; [done|]. by intros ->.
  - intros Hl. rewrite lookup_insert_ne; [done|]. by intros ->.
Qed.

Lemma conc_alloc_ok p t h free i n hd nx x :
  conc_inv B (mkWorld p t h) free → t i = AllocCas n hd nx → free_list p = hd →
  ∃ free', conc_inv B (mkWorld (set_allocated x (set_free_list nx p)) (upd_thread i Idle t) (hd :: h)) free'.
Proof.
  intros [Hc Hn Ha Hf Hi Hp Hs] Ht Hh. simpl in *.
  pose proof (Hp i) as Hpi. rewrite Ht in Hpi. destruct Hpi as [Hin Hl].
  destruct free as [|b free]; [by apply not_elem_of_nil in Hin|].
  destruct Hc as (Hb & Hb0 & nx' & Hm & Hc). assert (b = hd) as -> by congruence.
  assert (nx' = nx) as -> by congruence.
  assert ((hd :: free) ++ h ≡ₚ free ++ hd :: h) as Hperm by by rewrite <-Permutation_middle.
  exists free. split; simpl.
  - done.
  - by rewrite <-Hperm.
  - intros b. rewrite <-Hperm. apply Ha.
  - intros j b. rewrite <-Hperm. destruct (upd_cases i Idle t j) as [[-> ->]|[_ ->]]; [done|apply Hf].
  - intros j k b. destruct (upd_cases i Idle t j) as [[-> ->]|[_ ->]], (upd_cases i Idle t k) as [[-> ->]|[_ ->]];
      try done. apply Hi.
  - intros j. destruct (upd_cases i Idle t j) as [[-> ->]|[Hne ->]]; [done|]. specialize (Hp j).
    assert (allocating (t j) = false) as Hj.
    { destruct (allocating (t j)) eqn:Hj; [|done]. destruct Hne. apply Hs; [done|by rewrite Ht]. }
    destruct (t j); done.
  - intros j k. destruct (upd_cases i Idle t j) as [[-> ->]|[_ ->]], (upd_cases i Idle t k) as [[-> ->]|[_ ->]];
      try done. apply Hs.
Qed.

Lemma conc_enter_dealloc p t h1 h2 free i n b :
  conc_inv B (mkWorld p t (h1 ++ b :: h2)) free → t i = Idle →
  conc_inv B (mkWorld p (upd_thread i (DeallocLoad n b) t) (h1 ++ h2)) free.
Proof.
  intros [Hc Hn Ha Hf Hi Hp Hs] Ht. simpl in *. set (c := DeallocLoad n b).
  assert (free ++ h1 ++ b :: h2 ≡ₚ b :: free ++ h1 ++ h2) as Hperm.
  { rewrite !app_assoc. by rewrite <-Permutation_middle. }
  rewrite Hperm in Hn. apply NoDup_cons in Hn as [Hnb Hn].
  assert (∀ j, in_flight (t j) ≠ Some b) as Hnot.
  { intros j Hj. destruct (Hf j b Hj) as [_ Hx]. apply Hx. rewrite Hperm. set_solver. }
  split; simpl; try done.
  - intros x Hx. apply Ha. rewrite Hperm. set_solver.
  - intros j x. destruct (upd_cases i c t j) as [[-> ->]|[_ ->]].
    + intros [= <-]. split; [apply Ha; rewrite Hperm; set_solver|done].
    + intros Hx. destruct (Hf j x Hx) as [? Hx']. split; [done|]. rewrite Hperm in Hx'. set_solver.
  - intros j k x. destruct (upd_cases i c t j) as [[-> ->]|[? ->]], (upd_cases i c t k) as [[-> ->]|[? ->]]; try done.
    + intros [= <-] Hk. by destruct (Hnot k).
    + intros Hk [= <-]. by destruct (Hnot j).
    + apply Hi.
  - intros j. destruct (upd_cases i c t j) as [[-> ->]|[_ ->]]; [done|apply Hp].
  - intros j k. destruct (upd_cases i c t j) as [[-> ->]|[? ->]], (upd_cases i c t k) as [[-> ->]|[? ->]]; try done.
    apply Hs.
Qed.

Lemma conc_dealloc_link p t h free i n b hd :
  conc_inv B (mkWorld p t h) free → t i = DeallocLink n b hd →
  conc_inv B (mkWorld (set_links (<[b := hd]> (links p)) p) (upd_thread i (DeallocCas n b hd) t) h) free.
Proof.
  intros [Hc Hn Ha Hf Hi Hp Hs] Ht. simpl in *. set (c := DeallocCas n b hd).
  assert (in_flight (t i) = Some b) as Hfi by by rewrite Ht.
  destruct (Hf i b Hfi) as [HbB Hb]. assert (b ∉ free) by set_solver.
  split; simpl; try done.
  - by apply chain_insert.
  - intros j x. destruct (upd_cases i c t j) as [[-> ->]|[_ ->]]; [|apply Hf]. by intros [= <-].
  - intros j k x. destruct (upd_cases i c t j) as [[-> ->]|[? ->]], (upd_cases i c t k) as [[-> ->]|[? ->]]; try done.
    + intros [= <-]. by apply (Hi i).
    + intros Hk [= <-]. by apply (Hi j i b).
    + apply Hi.
  - intros j. destruct (upd_cases i c t j) as [[-> ->]|[Hne ->]]; [simpl; by rewrite lookup_insert_eq|].
    apply pc_ok_write; [done| |apply Hp]. intros Hj. by destruct Hne; apply (Hi j i b).
  - intros j k. destruct (upd_cases i c t j) as [[-> ->]|[? ->]], (upd_cases i c t k) as [[-> ->]|[? ->]]; try done.
    apply Hs.
Qed.

Lemma conc_dealloc_ok p t h free i n b hd x :
  conc_inv B (mkWorld p t h) free → t i = DeallocCas n b hd → free_list p = hd →
  conc_inv B (mkWorld (set_allocated x (set_free_list b p)) (upd_thread i Idle t) h) (b :: free).
Proof.
  intros [Hc Hn Ha Hf Hi Hp Hs] Ht Hh. simpl in *.
  assert (in_flight (t i) = Some b) as Hfi by by rewrite Ht.
  destruct (Hf i b Hfi) as [HbB Hb]. pose proof (Hp i) as Hpi. rewrite Ht in Hpi. simpl in Hpi.
  split; simpl.
  - split_and!; [done|by apply HB|]. exists hd. by rewrite <-Hh in *.
  - by apply NoDup_cons.
  - intros y [->|Hy]%elem_of_cons; [done|by apply Ha].
  - intros j y. destruct (upd_cases i Idle t j) as [[-> ->]|[Hne ->]]; [done|]. intros Hy.
    destruct (Hf j y Hy) as [? Hy']. split; [done|]. rewrite not_elem_of_cons. split; [|done].
    intros ->. by destruct Hne; apply (Hi j i b).
  - intros j k y. destruct (upd_cases i Idle t j) as [[-> ->]|[? ->]], (upd_cases i Idle t k) as [[-> ->]|[? ->]]; try done.
    apply Hi.
  - intros j. destruct (upd_cases i Idle t j) as [[-> ->]|[Hne ->]]; [done|]. specialize (Hp j).
    destruct (t j); simpl in *; set_solver.
  - intros j k. destruct (upd_cases i Idle t j) as [[-> ->]|[? ->]], (upd_cases i Idle t k) as [[-> ->]|[? ->]]; try done.
    apply Hs.
Qed.

Lemma conc_user_write p t h free b w :
  conc_inv B (mkWorld p t h) free → b ∈ h →
  conc_inv B (mkWorld (set_links (<[b := w]> (links p)) p) t h) free.
Proof.
  intros [Hc Hn Ha Hf Hi Hp Hs] Hb. simpl in *.
  assert (b ∉ free). { apply NoDup_app in Hn as (_ & Hd & _). intros Hx. by apply (Hd b). }
  split; simpl; try done.
  - by apply chain_insert.
  - intros j. apply pc_ok_write; [done| |apply Hp]. intros Hj. destruct (Hf j b Hj) as [_ Hx]. set_solver.
Qed.

Lemma conc_step w w' free :
  pool_step true w w' → conc_inv B w free → ∃ free', conc_inv B w' free'.
Proof.
  destruct 1 as
    [p t h i Ht Hsg|p t h i Ht|p t h i n Ht Hz|p t h i n Ht Hz|p t h i n hd nx Ht Hl|p t h i n hd nx Ht Hh
    |p t h i n hd nx Ht|p t h1 h2 i b Ht|p t h i b Ht|p t h i n b Ht|p t h i n b hd Ht|p t h i n b hd Ht Hh
    |p t h i n b hd Ht|p t h b w Hb]; intros Hinv.
  - exists free. apply conc_local; simpl; rewrite ?Ht; naive_solver.
  - exists free. apply conc_local; simpl; rewrite ?Ht; naive_solver.
  - exists free. apply conc_local; simpl; rewrite ?Ht; naive_solver.
  - exists free. apply conc_local; simpl; rewrite ?Ht; [done| |naive_solver..].
    pose proof (ci_chain _ _ _ Hinv) as Hc. simpl in Hc. destruct free as [|b free]; [done|].
    destruct Hc as (-> & _). set_solver.
  - exists free. pose proof (ci_pc _ _ _ Hinv i) as Hp. simpl in Hp. rewrite Ht in Hp.
    apply conc_local; simpl; rewrite ?Ht; naive_solver.
  - by eapply conc_alloc_ok.
  - exists free. apply conc_local; simpl; rewrite ?Ht; naive_solver.
  - exists free. by apply conc_enter_dealloc.
  - exists free. apply conc_local; simpl; rewrite ?Ht; naive_solver.
  - exists free. apply conc_local; simpl; rewrite ?Ht; naive_solver.
  - exists free. by apply conc_dealloc_link.
  - exists (b :: free). by eapply conc_dealloc_ok.
  - exists free. apply conc_local; simpl; rewrite ?Ht; naive_solver.
  - exists free. by apply conc_user_write.
Qed.

End conc.

(** * Properties of the pools *)

(** Arena addresses for the witnesses, 64 KiB apart. *)
Definition demo_arenas (i : nat) : Z := 65536 * (Z.of_nat i + 1).

Lemma demo_arenas_pos i : 0 < demo_arenas i.
Proof. unfold demo_arenas. lia. Qed.

Lemma pa_run_inv arenas pa0 w :
  (∀ i, 0 < arenas i) → PoolAllocator.init arenas PoolAllocator.new = Ret pa0 →
  rtc pa_step (pa0, []) w → pa_inv arenas w.
Proof.
  intros Hpos Hinit. revert w. apply rtc_ind_r.
  - destruct (pa_init_ok arenas Hpos) as (pa & Heq & Hok). rewrite Hinit in Heq. injection Heq as ->.
    eexists _, _. split_and!; [exact Hok| |].
    + intros b. done.
    + by intros a ?%not_elem_of_nil.
  - intros w1 w2 _ Hs Hi. by eapply pa_step_inv.
Qed.

(** C8. After initialization over disjoint arenas and any sequence of
    allocations and deallocations, with exchanges failing at will, two live
    allocations never overlap and each fits its block, which lies in the arena
    of its class; and neither operation can panic. *)
Theorem live_allocations_disjoint arenas pa0 pa live :
  (∀ i, 0 < arenas i) →
  (∀ i j, i ≠ j → arenas i + Pool.ARENA_SIZE <= arenas j ∨ arenas j + Pool.ARENA_SIZE <= arenas i) →
  PoolAllocator.init arenas PoolAllocator.new = Ret pa0 →
  rtc pa_step (pa0, []) (pa, live) →
  (∀ a, a ∈ live → 0 < requested_size a <= actual_size a ∧
     arena_of arenas (alloc_block_size a) <= ptr a ∧
     ptr a + actual_size a <= arena_of arenas (alloc_block_size a) + Pool.ARENA_SIZE) ∧
  (∀ i j a c, live !! i = Some a → live !! j = Some c → i ≠ j →
     ptr a + actual_size a <= ptr c ∨ ptr c + actual_size c <= ptr a) ∧
  (∀ weak size, 0 <= size → ∃ r, PoolAllocator.allocate weak pa size = Ret r) ∧
  (∀ weak a, a ∈ live → ∃ pa', PoolAllocator.deallocate weak pa a = Ret pa').
Proof.
  intros Hpos Hdisj Hinit Hrun. pose proof (pa_run_inv _ _ _ Hpos Hinit Hrun) as Hinv.
  pose proof Hinv as (free & used & Hok & Hsub & Hsz). cbn [fst snd] in *.
  assert (∀ a, a ∈ live → arena_of arenas (alloc_block_size a) <= ptr a ∧
            ptr a + actual_size a <= arena_of arenas (alloc_block_size a) + Pool.ARENA_SIZE) as Hin.
  { intros a Ha. by eapply live_in_arena. }
  split_and!.
  - intros a Ha. split; [by apply Hsz|by apply Hin].
  - intros i j a c Hi Hj Hij. destruct (decide (alloc_block_size a = alloc_block_size c)) as [Hb|Hb].
    + eapply same_class_disjoint; eauto.
    + apply list_elem_of_lookup_2, Hin in Hi. apply list_elem_of_lookup_2, Hin in Hj.
      assert (Z.to_nat (BlockSize.index (alloc_block_size a)) ≠ Z.to_nat (BlockSize.index (alloc_block_size c)))
        as Hne by by intros ?%index_inj.
      destruct (Hdisj _ _ Hne); unfold arena_of in *; lia.
  - intros weak size Hs. by eapply pa_allocate_total.
  - intros weak a (l1 & l2 & ->)%list_elem_of_split.
    destruct (pa_dealloc_step arenas Hpos weak _ _ _ _ Hinv) as (pa' & ? & _). eauto.
Qed.

(** Two allocations of the 64-byte class from a fresh allocator. *)
Definition demo_two (init : outcome PoolAllocator) : option (PoolAllocation * PoolAllocation) :=
  match init with
  | Ret pa0 =>
    match PoolAllocator.allocate (λ _, true) pa0 50 with
    | Ret (Some a1, pa1) =>
      match PoolAllocator.allocate (λ _, true) pa1 60 with
      | Ret (Some a2, _) => Some (a1, a2)
      | _ => None
      end
    | _ => None
    end
  | _ => None
  end.

Lemma demo_two_eq :
  demo_two (PoolAllocator.init demo_arenas PoolAllocator.new) =
    Some (mkPoolAllocation 131072 B64 50, mkPoolAllocation 131136 B64 60).
Proof. vm_compute. reflexivity. Qed.

Lemma live_allocations_disjoint_witness :
  ∃ a1 a2, demo_two (PoolAllocator.init demo_arenas PoolAllocator.new) = Some (a1, a2) ∧
    (ptr a1 + actual_size a1 <= ptr a2 ∨ ptr a2 + actual_size a2 <= ptr a1).
Proof.
  eexists _, _. split; [exact demo_two_eq|]. pose proof demo_two_eq as Hd.
  destruct (PoolAllocator.init demo_arenas PoolAllocator.new) as [pa0| |] eqn:H0;
    cbn [demo_two] in Hd; try discriminate.
  destruct (PoolAllocator.allocate (λ _, true) pa0 50) as [[[a1|] pa1]| |] eqn:H1; try discriminate.
  destruct (PoolAllocator.allocate (λ _, true) pa1 60) as [[[a2|] pa2]| |] eqn:H2; try discriminate.
  injection Hd as -> ->.
  destruct (live_allocations_disjoint demo_arenas pa0 pa2
    [mkPoolAllocation 131136 B64 60; mkPoolAllocation 131072 B64 50] demo_arenas_pos) as (_ & Hdis & _).
  - unfold demo_arenas, Pool.ARENA_SIZE. lia.
  - exact H0.
  - eapply rtc_l; [apply (pa_alloc _ _ _ _ _ _ (ltac:(lia) : 0 <= 50) H1)|].
    eapply rtc_l; [apply (pa_alloc _ _ _ _ _ _ (ltac:(lia) : 0 <= 60) H2)|]. apply rtc_refl.
  - by apply (Hdis 1%nat 0%nat).
Defined.

(** [PoolAllocator::allocate] serves a request from the smallest class that
    holds it, with the block given back last; it returns [None] exactly when
    the size is 0 or more than 4096, when the pool of that class has no free
    block, or when every exchange of the retry loop failed. *)
Theorem pool_allocate_smallest_class arenas pa free used weak size :
  pa_ok arenas pa free used → 0 <= size →
  match PoolAllocator.allocate weak pa size with
  | Ret (Some a, pa') =>
      requested_size a = size ∧ 0 < size <= actual_size a ∧
      (∀ c, size <= BlockSize.bytes c → actual_size a <= BlockSize.bytes c) ∧
      head (free (alloc_block_size a)) = Some (ptr a) ∧
      pa_ok arenas pa' (fupd (alloc_block_size a) (tail (free (alloc_block_size a))) free)
        (fupd (alloc_block_size a) (ptr a :: used (alloc_block_size a)) used)
  | Ret (None, pa') =>
      pa' = pa ∧ (size = 0 ∨ 4096 < size ∨ goes_through weak Pool.MAX_RETRIES = false ∨
                  ∃ b, BlockSize.for_size size = Some b ∧ free b = [])
  | _ => False
  end.
Proof.
  intros Hok Hs. pose proof (pa_allocate_spec arenas weak pa free used size Hok) as Ha.
  pose proof (for_size_smallest size Hs) as Hfs.
  destruct (BlockSize.for_size size) as [b|] eqn:Hb; [|rewrite Ha; split; [done|lia]].
  destruct (free b) as [|x fr] eqn:Hfr; [rewrite Ha; split; [done|]; eauto 6|].
  destruct (goes_through _ _) eqn:Hg; [|rewrite Ha; auto].
  destruct Ha as (pa' & -> & Hok'). unfold actual_size. simpl. rewrite Hfr. naive_solver.
Qed.

Lemma pool_allocate_smallest_class_witness :
  ∃ pa a pa', PoolAllocator.init demo_arenas PoolAllocator.new = Ret pa ∧
    PoolAllocator.allocate (λ n, Nat.eqb n 10) pa 100 = Ret (Some a, pa') ∧
    100 <= actual_size a <= BlockSize.bytes B128.
Proof.
  destruct (pa_init_ok demo_arenas demo_arenas_pos) as (pa & Hi & Hok).
  pose proof (pool_allocate_smallest_class demo_arenas pa _ _ (λ n, Nat.eqb n 10) 100 Hok ltac:(lia)) as H.
  destruct (PoolAllocator.allocate _ pa 100) as [[[a|] pa']| |] eqn:Ha; [|exfalso..|done|done].
  - exists pa, a, pa'. destruct H as (_ & H & Hc & _). split_and!; [done|done|lia|]. apply Hc. by simpl.
  - destruct H as (_ & [H|[H|[H|(b & [= <-] & H)]]]); [done|done|..].
    + by vm_compute in H.
    + by vm_compute in H.
Defined.

(** A block allocated and given back is the next one allocated, and the
    free list and the counters are as before. *)
Theorem pool_lifo_roundtrip base bs p free used b p1 weak :
  0 < base → valid_size bs → pool_ok base bs p free used →
  Pool.allocate weak p = Ret (Some b, p1) →
  ∃ p2, Pool.deallocate weak b p1 = p2 ∧ pool_ok base bs p2 free used ∧
    free_list p2 = free_list p ∧ allocated_blocks p2 = allocated_blocks p ∧
    ∃ p3, Pool.allocate weak p2 = Ret (Some b, p3).
Proof.
  intros Hbase Hbs Hok Ha. unfold Pool.allocate, Pool.deallocate in *.
  pose proof (allocate_loop_spec _ _ Hbs weak Pool.MAX_RETRIES p free used Hok) as Hal.
  destruct free as [|x fr]; [congruence|]. destruct (goes_through _ _) eqn:Hg; [|congruence].
  destruct Hal as (p' & Heq & Hok1). rewrite Ha in Heq. injection Heq as <- <-.
  pose proof (deallocate_loop_spec _ _ Hbase Hbs weak Pool.MAX_RETRIES p1 _ _ b used Hok1 (reflexivity _)) as Hd.
  rewrite Hg in Hd. eexists. split; [done|]. split; [done|].
  pose proof (po_chain _ _ _ _ _ Hok) as [Hh _]. pose proof (po_chain _ _ _ _ _ Hd) as [Hh' _].
  split; [congruence|]. split; [by rewrite (po_alloc _ _ _ _ _ Hok), (po_alloc _ _ _ _ _ Hd)|].
  pose proof (allocate_loop_spec _ _ Hbs weak Pool.MAX_RETRIES _ _ _ Hd) as Hal'. rewrite Hg in Hal'.
  destruct Hal' as (p3 & -> & _). eauto.
Qed.

Lemma pool_lifo_roundtrip_witness :
  ∃ p p1, Pool.init 4096 (Pool.new 64) = Ret p ∧ Pool.allocate (λ _, true) p = Ret (Some 4096, p1) ∧
    free_list (Pool.deallocate (λ _, true) 4096 p1) = free_list p.
Proof.
  destruct (init_spec 4096 64 ltac:(lia) (valid_bytes B64)) as (p & Hi & Hok).
  pose proof (allocate_loop_spec _ _ (valid_bytes B64) (λ _, true) Pool.MAX_RETRIES p _ _ Hok) as (p1 & Ha & _).
  exists p, p1. split; [done|]. split; [exact Ha|].
  destruct (pool_lifo_roundtrip 4096 64 p _ _ 4096 p1 (λ _, true) ltac:(lia) (valid_bytes B64) Hok Ha)
    as (p2 & <- & _ & Hf & _). exact Hf.
Defined.

(** Threads on a shared pool, at the granularity of its atomic accesses and
    with clients writing to the blocks they hold: while at most one thread at a
    time is inside [allocate], and any number inside [deallocate], no block is
    handed out twice, every block handed out lies in the arena, and every link
    [allocate] reads was written by the pool. *)
Theorem pool_single_allocator_safe base bs p0 w :
  0 < base → valid_size bs → Pool.init base (Pool.new bs) = Ret p0 →
  rtc (pool_step true) (mkWorld p0 (λ _, Idle) []) w →
  NoDup (w_held w) ∧
  (∀ b, b ∈ w_held w → b ∈ blocks base bs (Z.to_nat (num_blocks bs))) ∧
  (∀ i n hd, w_threads w i = AllocNext n hd → ∃ nx, links (w_pool w) !! hd = Some nx).
Proof.
  intros Hbase Hbs Hinit Hrun. destruct (init_spec base bs Hbase Hbs) as (p & Heq & Hok).
  rewrite Hinit in Heq. injection Heq as <-. set (B := blocks base bs (Z.to_nat (num_blocks bs))) in *.
  assert (∀ b, b ∈ B → b ≠ 0) as HB.
  { intros b Hb. eapply (pool_nonnull _ _ Hbase Hbs _ _ _ _ Hok). by rewrite app_nil_r. }
  assert (∃ free, conc_inv B w free) as (free & Hi).
  { revert w Hrun. apply (rtc_ind_r (λ w, ∃ free, conc_inv B w free)).
    - exists B. split; simpl; try done; [apply Hok|..].
      + rewrite app_nil_r. pose proof (valid_size_pos _ Hbs). apply NoDup_blocks. lia.
      + by intros b; rewrite app_nil_r.
    - intros w1 w2 _ Hs [free Hi]. by eapply conc_step. }
  pose proof (ci_nodup _ _ _ Hi) as Hnd. apply NoDup_app in Hnd as (_ & _ & Hnd). split_and!; [done|..].
  - intros b Hb. apply (ci_arena _ _ _ Hi). set_solver.
  - intros i n hd Ht. pose proof (ci_pc _ _ _ Hi i) as Hp. rewrite Ht in Hp.
    eapply chain_lookup; [apply Hi|done].
Qed.

Lemma pool_single_allocator_safe_witness :
  ∃ p0 w, Pool.init 4096 (Pool.new 4096) = Ret p0 ∧
    rtc (pool_step true) (mkWorld p0 (λ _, Idle) []) w ∧ w_held w = [4096] ∧ NoDup (w_held w).
Proof.
  destruct (init_spec 4096 4096 ltac:(lia) (valid_bytes K4)) as (p0 & Hinit & Hok).
  destruct (po_chain _ _ _ _ _ Hok) as (Hh & Hnz & nx & Hl & _).
  assert (rtc (pool_step true) (mkWorld p0 (λ _, Idle) [])
    (mkWorld (set_allocated (wrap32 (allocated_blocks p0 + 1)) (set_free_list nx p0))
       (upd_thread 0 Idle (upd_thread 0 (AllocCas 999 4096 nx)
          (upd_thread 0 (AllocNext 999 (free_list p0)) (upd_thread 0 (AllocLoad 1000) (λ _, Idle)))))
       [4096])) as Hrun.
  { eapply rtc_l; [by apply (ps_enter_alloc true _ _ _ 0%nat)|].
    eapply rtc_l; [eapply (ps_alloc_head true _ _ _ 0%nat); [apply upd_eq|by rewrite Hh]|].
    eapply rtc_l; [eapply (ps_alloc_next true _ _ _ 0%nat); [apply upd_eq|rewrite Hh; exact Hl]|].
    eapply rtc_l; [eapply (ps_alloc_cas_ok true _ _ _ 0%nat); [apply upd_eq|reflexivity]|]. rewrite Hh. apply rtc_refl. }
  exists p0. eexists. split; [exact Hinit|]. split; [exact Hrun|]. split; [reflexivity|].
  apply (pool_single_allocator_safe 4096 4096 p0 _ ltac:(lia) (valid_bytes K4) Hinit Hrun).
Defined.

(** Whole operations of one thread that nobody interrupts. *)
Lemma aba_prefix i p t h nx :
  t i = Idle → free_list p ≠ 0 → links p !! free_list p = Some nx →
  rtc (pool_step false) (mkWorld p t h)
    (mkWorld p (upd_thread i (AllocCas 999 (free_list p) nx)
                 (upd_thread i (AllocNext 999 (free_list p)) (upd_thread i (AllocLoad 1000) t))) h).
Proof.
  intros Ht Hh Hl. eapply rtc_l; [by apply (ps_enter_alloc false _ _ _ i)|].
  eapply rtc_l; [eapply (ps_alloc_head false _ _ _ i); [apply upd_eq|done]|].
  eapply rtc_l; [eapply (ps_alloc_next false _ _ _ i); [apply upd_eq|done]|]. apply rtc_refl.
Qed.

Lemma aba_alloc i p t h nx :
  t i = Idle → free_list p ≠ 0 → links p !! free_list p = Some nx →
  rtc (pool_step false) (mkWorld p t h)
    (mkWorld (set_allocated (wrap32 (allocated_blocks p + 1)) (set_free_list nx p))
       (upd_thread i Idle (upd_thread i (AllocCas 999 (free_list p) nx)
          (upd_thread i (AllocNext 999 (free_list p)) (upd_thread i (AllocLoad 1000) t))))
       (free_list p :: h)).
Proof.
  intros Ht Hh Hl. etrans; [by apply (aba_prefix i)|].
  eapply rtc_l; [eapply (ps_alloc_cas_ok false _ _ _ i); [apply upd_eq|done]|]. apply rtc_refl.
Qed.

Lemma aba_dealloc i h1 h2 b p t :
  t i = Idle →
  rtc (pool_step false) (mkWorld p t (h1 ++ b :: h2))
    (mkWorld (set_allocated (wrap32 (allocated_blocks p - 1))
                (set_free_list b (set_links (<[b := free_list p]> (links p)) p)))
       (upd_thread i Idle (upd_thread i (DeallocCas 999 b (free_list p))
          (upd_thread i (DeallocLink 999 b (free_list p)) (upd_thread i (DeallocLoad 1000 b) t))))
       (h1 ++ h2)).
Proof.
  intros Ht. eapply rtc_l; [by apply (ps_enter_dealloc false _ _ _ _ i)|].
  eapply rtc_l; [eapply (ps_dealloc_head false _ _ _ i); apply upd_eq|].
  eapply rtc_l; [eapply (ps_dealloc_link false _ _ _ i); apply upd_eq|].
  eapply rtc_l; [eapply (ps_dealloc_cas_ok false _ _ _ i); [apply upd_eq|done]|]. apply rtc_refl.
Qed.

Lemma aba_run p a b rest :
  a ≠ b → chain (links p) (free_list p) (a :: b :: rest) →
  ∃ w, rtc (pool_step false) (mkWorld p (λ _, Idle) []) w ∧ w_held w = [b; a; b].
Proof.
  intros Hab (Ha & Ha0 & nx & Hla & -> & Hb0 & c & Hlb & _).
  eexists. split.
  - etrans; [apply (aba_prefix 0%nat); [done|by rewrite Ha|by rewrite Ha]|]. rewrite Ha.
    etrans; [apply (aba_alloc 1%nat); [done|by rewrite Ha|by rewrite Ha]|]. rewrite Ha.
    etrans; [apply (aba_alloc 1%nat); [done|done|exact Hlb]|].
    etrans; [apply (aba_dealloc 1%nat [b] [] a); done|].
    eapply rtc_l; [eapply (ps_alloc_cas_ok false _ _ _ 0%nat); [done|done]|].
    apply (aba_alloc 1%nat); [done|done|]. simpl. rewrite lookup_insert_ne by done. exact Hlb.
  - done.
Qed.

(** With two threads inside [allocate] the same step system hands one block
    out twice, for every pool: a thread that has read a head and its link is
    overtaken by another one that takes that block and the next and gives the
    first back, and the exchange of the first thread then succeeds on the old
    head. *)
Theorem pool_concurrent_allocate_aba base bs :
  0 < base → valid_size bs →
  ∃ p0 w, Pool.init base (Pool.new bs) = Ret p0 ∧
    rtc (pool_step false) (mkWorld p0 (λ _, Idle) []) w ∧
    w_held w = [base + bs; base; base + bs] ∧ ¬ NoDup (w_held w).
Proof.
  intros Hbase Hbs. destruct (init_spec base bs Hbase Hbs) as (p & Hinit & Hok).
  pose proof (num_blocks_range _ Hbs). pose proof (valid_size_pos _ Hbs).
  pose proof (po_chain _ _ _ _ _ Hok) as Hc.
  destruct (Z.to_nat (num_blocks bs)) as [|[|n]] eqn:Hn; [lia|lia|].
  unfold blocks in Hc. cbn [seq fmap list_fmap] in Hc.
  destruct (λ H, aba_run p _ _ _ H Hc) as (w & Hrun & Hw); [lia|]. exists p, w.
  replace (base + Z.of_nat 0 * bs) with base in Hw by lia.
  replace (base + Z.of_nat 1 * bs) with (base + bs) in Hw by lia.
  split_and!; [done|done|done|]. rewrite Hw. intros Hd%NoDup_cons. set_solver.
Qed.

Lemma pool_concurrent_allocate_aba_witness :
  ∃ p0 w, Pool.init 4096 (Pool.new 64) = Ret p0 ∧
    rtc (pool_step false) (mkWorld p0 (λ _, Idle) []) w ∧ ¬ NoDup (w_held w).
Proof.
  destruct (pool_concurrent_allocate_aba 4096 64 ltac:(lia) (valid_bytes B64)) as (p0 & w & H1 & H2 & _ & H3).
  exists p0, w. exact (conj H1 (conj H2 H3)).
Defined.

(** In every reachable state the statistics account for all 448 KiB of the
    seven arenas: free and allocated memory add up to the total. *)
Theorem pool_stats_account arenas pa0 pa live :
  (∀ i, 0 < arenas i) → PoolAllocator.init arenas PoolAllocator.new = Ret pa0 →
  rtc pa_step (pa0, []) (pa, live) →
  PoolStats.total_memory (PoolAllocator.stats pa) = Ret (7 * Pool.ARENA_SIZE) ∧
  ∃ a f, PoolStats.allocated_memory (PoolAllocator.stats pa) = Ret a ∧
    PoolStats.free_memory (PoolAllocator.stats pa) = Ret f ∧ a + f = 7 * Pool.ARENA_SIZE.
Proof.
  intros Hpos Hinit Hrun. destruct (pa_run_inv _ _ _ Hpos Hinit Hrun) as (free & used & Hok & _).
  exact (pa_stats arenas pa free used Hok).
Qed.

Lemma pool_stats_account_witness :
  ∃ pa, PoolAllocator.init demo_arenas PoolAllocator.new = Ret pa ∧
    PoolStats.total_memory (PoolAllocator.stats pa) = Ret 458752.
Proof.
  destruct (pa_init_ok demo_arenas demo_arenas_pos) as (pa & Hi & _). exists pa. split; [exact Hi|].
  apply (pool_stats_account demo_arenas pa pa [] demo_arenas_pos Hi (rtc_refl _ _)).
Defined.
