(* ===== verification/Percpu.v ===== *)
(** * Per-CPU data and load balancing (mielin-kernel/src/percpu.rs)

    One scheduler, seven pools and the counters of each CPU, the array of all
    CPUs, and the balancer that moves tasks between their schedulers.

    The statics of the module are the record [PerCpus].  A function of the module
    takes the lock of one scheduler at a time; the model runs each function from
    its start to its end.  [weak] and [arenas] are as for the pools. *)

From stdpp Require Import base tactics option list numbers.
From Stdlib Require Import SpecFloat.
From S2P Require Import Prelude Float Errors Scheduler Pool.

(* src: mielin-kernel/src/percpu.rs 74-74 MAX_CPUS *)
Definition MAX_CPUS : Z := 16.

(** ** Counters of one CPU *)

Module CpuStats.

(* src: mielin-kernel/src/percpu.rs 240-257 CpuStats *)
Record CpuStats : Type := mk {
  tasks_spawned : Z;
  tasks_terminated : Z;
  schedule_calls : Z;
  yield_calls : Z;
  allocations : Z;
  deallocations : Z;
  bytes_allocated : Z;
  bytes_deallocated : Z;
}.

(* src: mielin-kernel/src/percpu.rs 260-271 CpuStats::new *)
Definition new : CpuStats := mk 0 0 0 0 0 0 0 0.

(* src: mielin-kernel/src/percpu.rs 273-275 CpuStats::record_spawn *)
Definition record_spawn (s : CpuStats) : CpuStats :=
  mk (wrap64 (tasks_spawned s + 1)) (tasks_terminated s) (schedule_calls s) (yield_calls s)
     (allocations s) (deallocations s) (bytes_allocated s) (bytes_deallocated s).

(* src: mielin-kernel/src/percpu.rs 277-279 CpuStats::record_terminate *)
Definition record_terminate (s : CpuStats) : CpuStats :=
  mk (tasks_spawned s) (wrap64 (tasks_terminated s + 1)) (schedule_calls s) (yield_calls s)
     (allocations s) (deallocations s) (bytes_allocated s) (bytes_deallocated s).

(* src: mielin-kernel/src/percpu.rs 281-283 CpuStats::record_schedule *)
Definition record_schedule (s : CpuStats) : CpuStats :=
  mk (tasks_spawned s) (tasks_terminated s) (wrap64 (schedule_calls s + 1)) (yield_calls s)
     (allocations s) (deallocations s) (bytes_allocated s) (bytes_deallocated s).

(* src: mielin-kernel/src/percpu.rs 285-287 CpuStats::record_yield *)
Definition record_yield (s : CpuStats) : CpuStats :=
  mk (tasks_spawned s) (tasks_terminated s) (schedule_calls s) (wrap64 (yield_calls s + 1))
     (allocations s) (deallocations s) (bytes_allocated s) (bytes_deallocated s).

(* src: mielin-kernel/src/percpu.rs 289-293 CpuStats::record_allocation *)
Definition record_allocation (size : Z) (s : CpuStats) : CpuStats :=
  mk (tasks_spawned s) (tasks_terminated s) (schedule_calls s) (yield_calls s)
     (wrap64 (allocations s + 1)) (deallocations s) (wrap64 (bytes_allocated s + size))
     (bytes_deallocated s).

(* src: mielin-kernel/src/percpu.rs 295-299 CpuStats::record_deallocation *)
Definition record_deallocation (size : Z) (s : CpuStats) : CpuStats :=
  mk (tasks_spawned s) (tasks_terminated s) (schedule_calls s) (yield_calls s)
     (allocations s) (wrap64 (deallocations s + 1)) (bytes_allocated s)
     (wrap64 (bytes_deallocated s + size)).

End CpuStats.
Abbreviation CpuStats := CpuStats.CpuStats.

Module CpuStatsSnapshot.

(* src: mielin-kernel/src/percpu.rs 317-334 CpuStatsSnapshot *)
Record CpuStatsSnapshot : Type := mk {
  tasks_spawned : Z;
  tasks_terminated : Z;
  schedule_calls : Z;
  yield_calls : Z;
  allocations : Z;
  deallocations : Z;
  bytes_allocated : Z;
  bytes_deallocated : Z;
}.

(* src: mielin-kernel/src/percpu.rs 301-312 CpuStats::snapshot *)
Definition snapshot (s : CpuStats) : CpuStatsSnapshot :=
  mk (CpuStats.tasks_spawned s) (CpuStats.tasks_terminated s) (CpuStats.schedule_calls s)
     (CpuStats.yield_calls s) (CpuStats.allocations s) (CpuStats.deallocations s)
     (CpuStats.bytes_allocated s) (CpuStats.bytes_deallocated s).

(* src: mielin-kernel/src/percpu.rs 338-344 CpuStatsSnapshot::utilization *)
Definition utilization (s : CpuStatsSnapshot) : outcome spec_float :=
  let! total := usize_add (schedule_calls s) (yield_calls s) in
  if total =? 0 then Ret f64_zero
  else Ret (f64_div (f64_of_u64 (schedule_calls s)) (f64_of_u64 total)).

(* src: mielin-kernel/src/percpu.rs 347-349 CpuStatsSnapshot::memory_utilization *)
Definition memory_utilization (s : CpuStatsSnapshot) : outcome Z :=
  i64_sub (as_i64 (bytes_allocated s)) (as_i64 (bytes_deallocated s)).

End CpuStatsSnapshot.
Abbreviation CpuStatsSnapshot := CpuStatsSnapshot.CpuStatsSnapshot.

(** ** One CPU *)

(* src: mielin-kernel/src/percpu.rs 80-91 PerCpu *)
Record PerCpu : Type := mkPerCpu {
  cpu_id : Z;
  scheduler : Scheduler;
  cpu_pools : list Pool;
  cpu_stats : CpuStats;
  online : Z;
}.

Definition set_scheduler (s : Scheduler) (c : PerCpu) : PerCpu :=
  mkPerCpu (cpu_id c) s (cpu_pools c) (cpu_stats c) (online c).
Definition set_stats (f : CpuStats → CpuStats) (c : PerCpu) : PerCpu :=
  mkPerCpu (cpu_id c) (scheduler c) (cpu_pools c) (f (cpu_stats c)) (online c).
Definition set_pools (ps : list Pool) (c : PerCpu) : PerCpu :=
  mkPerCpu (cpu_id c) (scheduler c) ps (cpu_stats c) (online c).

Module PerCpu.

(* src: mielin-kernel/src/percpu.rs 95-111 PerCpu::new *)
Definition new (cpu_id : Z) : PerCpu :=
  mkPerCpu cpu_id Scheduler.new
    [Pool.new (BlockSize.bytes B32); Pool.new (BlockSize.bytes B64);
     Pool.new (BlockSize.bytes B128); Pool.new (BlockSize.bytes B256);
     Pool.new (BlockSize.bytes B512); Pool.new (BlockSize.bytes K1);
     Pool.new (BlockSize.bytes K4)]
    CpuStats.new 0.

(* src: mielin-kernel/src/percpu.rs 114-128 PerCpu::init *)
Definition init (arenas : nat → Z) (self : PerCpu) : outcome PerCpu :=
  let! ps := PoolAllocator.init_pools arenas 0 (cpu_pools self) in
  Ret (mkPerCpu (cpu_id self) Scheduler.new ps (cpu_stats self) 1).

(* src: mielin-kernel/src/percpu.rs 131-133 PerCpu::is_online *)
Definition is_online (self : PerCpu) : bool := negb (online self =? 0).

(* src: mielin-kernel/src/percpu.rs 146-155 PerCpu::spawn_task_with_affinity *)
Definition spawn_task_with_affinity (self : PerCpu) (priority : Z) (cpu_affinity : option Z)
    : outcome (result Z KernelError * PerCpu) :=
  let! (r, s) := Scheduler.spawn_task_with_affinity (scheduler self) priority cpu_affinity in
  let self1 := set_scheduler s self in
  match r with
  | Err e => Ret (Err e, self1)
  | Ok task_id => Ret (Ok task_id, set_stats CpuStats.record_spawn self1)
  end.

(* src: mielin-kernel/src/percpu.rs 141-143 PerCpu::spawn_task *)
Definition spawn_task (self : PerCpu) (priority : Z) : outcome (result Z KernelError * PerCpu) :=
  spawn_task_with_affinity self priority None.

(* src: mielin-kernel/src/percpu.rs 158-160 PerCpu::spawn_task_pinned *)
Definition spawn_task_pinned (self : PerCpu) (priority : Z) : outcome (result Z KernelError * PerCpu) :=
  spawn_task_with_affinity self priority (Some (cpu_id self)).

(* src: mielin-kernel/src/percpu.rs 163-170 PerCpu::schedule *)
Definition schedule (self : PerCpu) : outcome (option Z * PerCpu) :=
  let! (r, s) := Scheduler.schedule (scheduler self) in
  let self1 := set_scheduler s self in
  Ret (r, if r is Some _ then set_stats CpuStats.record_schedule self1 else self1).

(* src: mielin-kernel/src/percpu.rs 173-177 PerCpu::yield_current *)
Definition yield_current (self : PerCpu) : outcome PerCpu :=
  let! s := Scheduler.yield_task (scheduler self) in
  Ret (set_stats CpuStats.record_yield (set_scheduler s self)).

(* src: mielin-kernel/src/percpu.rs 180-184 PerCpu::terminate_task *)
Definition terminate_task (self : PerCpu) (task_id : Z) : PerCpu :=
  set_stats CpuStats.record_terminate
    (set_scheduler (Scheduler.terminate_task (scheduler self) task_id) self).

(* src: mielin-kernel/src/percpu.rs 187-190 PerCpu::active_tasks *)
Definition active_tasks (self : PerCpu) : Z := Scheduler.active_tasks (scheduler self).

(* src: mielin-kernel/src/percpu.rs 193-196 PerCpu::scheduler_metrics *)
Definition scheduler_metrics (self : PerCpu) := Scheduler.metrics_snapshot (scheduler self).

(* src: mielin-kernel/src/percpu.rs 199-201 PerCpu::stats *)
Definition stats (self : PerCpu) : CpuStatsSnapshot := CpuStatsSnapshot.snapshot (cpu_stats self).

(* src: mielin-kernel/src/percpu.rs 204-210 PerCpu::allocate *)
Definition allocate (weak : nat → bool) (self : PerCpu) (size : Z) : outcome (option Z * PerCpu) :=
  match BlockSize.for_size size with
  | None => Ret (None, self)
  | Some block_size =>
    let! pool := arr_get (cpu_pools self) (BlockSize.index block_size) in
    let! (r, pool') := Pool.allocate weak pool in
    let! ps := arr_set (cpu_pools self) (BlockSize.index block_size) pool' in
    match r with
    | None => Ret (None, set_pools ps self)
    | Some ptr => Ret (Some ptr, set_stats (CpuStats.record_allocation size) (set_pools ps self))
    end
  end.

(* src: mielin-kernel/src/percpu.rs 213-222 PerCpu::deallocate *)
Definition deallocate (weak : nat → bool) (self : PerCpu) (ptr size : Z) : outcome PerCpu :=
  match BlockSize.for_size size with
  | None => Ret self
  | Some block_size =>
    let! pool := arr_get (cpu_pools self) (BlockSize.index block_size) in
    let! ps := arr_set (cpu_pools self) (BlockSize.index block_size) (Pool.deallocate weak ptr pool) in
    Ret (set_stats (CpuStats.record_deallocation size) (set_pools ps self))
  end.

(* src: mielin-kernel/src/percpu.rs 225-228 PerCpu::pool_stats *)
Definition pool_stats (self : PerCpu) (block_size : BlockSize) : outcome (Z * Z) :=
  let! pool := arr_get (cpu_pools self) (BlockSize.index block_size) in
  Ret (total_blocks pool, allocated_blocks pool).

End PerCpu.

(** ** All CPUs *)

(** The statics [PER_CPU], [CURRENT_CPU_ID], [NUM_ONLINE_CPUS],
    [LOAD_BALANCE_STATS], [WORK_STEALS], [FAILED_STEALS] and
    [BALANCE_ITERATIONS]. *)
Record PerCpus : Type := mkPerCpus {
  cpus : list PerCpu;
  current_id : Z;
  num_online : Z;
  migrations : Z;
  work_steals : Z;
  failed_steals : Z;
  balance_iterations : Z;
}.

Definition set_cpus (l : list PerCpu) (w : PerCpus) : PerCpus :=
  mkPerCpus l (current_id w) (num_online w) (migrations w) (work_steals w) (failed_steals w)
    (balance_iterations w).

(** [PER_CPU[i]] after a change made through its reference. *)
Definition put_cpu (i : Z) (c : PerCpu) (w : PerCpus) : PerCpus :=
  set_cpus (<[Z.to_nat i := c]> (cpus w)) w.

(* src: mielin-kernel/src/percpu.rs 354-371 PER_CPU *)
Definition boot_state : PerCpus :=
  mkPerCpus (PerCpu.new <$> seqZ 0 MAX_CPUS) 0 1 0 0 0 0.

Fixpoint init_cpus (arenas : nat → nat → Z) (i n : nat) (l : list PerCpu) : outcome (list PerCpu) :=
  match n, l with
  | S n', c :: l' =>
    let! c' := PerCpu.init (arenas i) c in
    let! l'' := init_cpus arenas (S i) n' l' in
    Ret (c' :: l'')
  | _, _ => Ret l
  end.

(* src: mielin-kernel/src/percpu.rs 385-397 init *)
Definition init (arenas : nat → nat → Z) (num_cpus : Z) (w : PerCpus)
    : outcome (result unit KernelError * PerCpus) :=
  if (num_cpus =? 0) || (MAX_CPUS <? num_cpus) then Ret (Err HardwareNotSupported, w) else
  let! l := init_cpus arenas 0 (Z.to_nat num_cpus) (cpus w) in
  Ret (Ok tt, mkPerCpus l (current_id w) num_cpus (migrations w) (work_steals w) (failed_steals w)
                (balance_iterations w)).

(* src: mielin-kernel/src/percpu.rs 401-404 current_cpu *)
Definition current_cpu (w : PerCpus) : outcome PerCpu := arr_get (cpus w) (current_id w).

(* src: mielin-kernel/src/percpu.rs 408-410 current_cpu_id *)
Definition current_cpu_id (w : PerCpus) : Z := current_id w.

(* src: mielin-kernel/src/percpu.rs 414-418 set_current_cpu_id *)
Definition set_current_cpu_id (cpu_id : Z) (w : PerCpus) : PerCpus :=
  if cpu_id <? MAX_CPUS
  then mkPerCpus (cpus w) cpu_id (num_online w) (migrations w) (work_steals w) (failed_steals w)
         (balance_iterations w)
  else w.

(** The array has [MAX_CPUS] entries, so that after the first test the access is
    in range. *)
(* src: mielin-kernel/src/percpu.rs 421-429 get_cpu *)
Definition get_cpu (w : PerCpus) (cpu_id : Z) : result PerCpu KernelError :=
  if MAX_CPUS <=? cpu_id then Err HardwareNotSupported else
  match cpus w !! Z.to_nat cpu_id with
  | Some c => if PerCpu.is_online c then Ok c else Err HardwareNotSupported
  | None => Err HardwareNotSupported
  end.

(* src: mielin-kernel/src/percpu.rs 432-434 num_online_cpus *)
Definition num_online_cpus (w : PerCpus) : Z := num_online w.

(** [get_cpu(cpu_id)?] followed by a call on the CPU. *)
Definition on_cpu {A} (w : PerCpus) (cpu_id : Z)
    (op : PerCpu → outcome (result A KernelError * PerCpu)) : outcome (result A KernelError * PerCpus) :=
  match get_cpu w cpu_id with
  | Err e => Ret (Err e, w)
  | Ok cpu => let! (r, cpu') := op cpu in Ret (r, put_cpu cpu_id cpu' w)
  end.

(* src: mielin-kernel/src/percpu.rs 437-440 spawn_on_cpu *)
Definition spawn_on_cpu (w : PerCpus) (cpu_id priority : Z) : outcome (result Z KernelError * PerCpus) :=
  on_cpu w cpu_id (λ cpu, PerCpu.spawn_task cpu priority).

(* src: mielin-kernel/src/percpu.rs 443-450 spawn_on_cpu_with_affinity *)
Definition spawn_on_cpu_with_affinity (w : PerCpus) (cpu_id priority : Z) (affinity : option Z)
    : outcome (result Z KernelError * PerCpus) :=
  on_cpu w cpu_id (λ cpu, PerCpu.spawn_task_with_affinity cpu priority affinity).

(* src: mielin-kernel/src/percpu.rs 453-456 spawn_on_cpu_pinned *)
Definition spawn_on_cpu_pinned (w : PerCpus) (cpu_id priority : Z) : outcome (result Z KernelError * PerCpus) :=
  on_cpu w cpu_id (λ cpu, PerCpu.spawn_task_pinned cpu priority).

(** ** Statistics over the CPUs *)

(* src: mielin-kernel/src/percpu.rs 459-478 GlobalStats *)
Record GlobalStats : Type := mkGlobalStats {
  total_tasks_spawned : Z;
  total_tasks_terminated : Z;
  total_schedule_calls : Z;
  total_yield_calls : Z;
  total_allocations : Z;
  total_deallocations : Z;
  total_bytes_allocated : Z;
  total_bytes_deallocated : Z;
  per_cpu_stats : list (option CpuStatsSnapshot);
}.

(** The body of the loop for the CPU [i]. *)
Definition add_stats (i : Z) (st : CpuStatsSnapshot) (g : GlobalStats) : outcome GlobalStats :=
  let! a := usize_add (total_tasks_spawned g) (CpuStatsSnapshot.tasks_spawned st) in
  let! b := usize_add (total_tasks_terminated g) (CpuStatsSnapshot.tasks_terminated st) in
  let! c := usize_add (total_schedule_calls g) (CpuStatsSnapshot.schedule_calls st) in
  let! d := usize_add (total_yield_calls g) (CpuStatsSnapshot.yield_calls st) in
  let! e := usize_add (total_allocations g) (CpuStatsSnapshot.allocations st) in
  let! f := usize_add (total_deallocations g) (CpuStatsSnapshot.deallocations st) in
  let! x := usize_add (total_bytes_allocated g) (CpuStatsSnapshot.bytes_allocated st) in
  let! y := usize_add (total_bytes_deallocated g) (CpuStatsSnapshot.bytes_deallocated st) in
  let! l := arr_set (per_cpu_stats g) i (Some st) in
  Ret (mkGlobalStats a b c d e f x y l).

Fixpoint global_loop (n : nat) (i : Z) (l : list PerCpu) (g : GlobalStats) : outcome GlobalStats :=
  match n, l with
  | S n', cpu :: l' =>
    let! g' := if PerCpu.is_online cpu then add_stats i (PerCpu.stats cpu) g else Ret g in
    global_loop n' (i + 1) l' g'
  | _, _ => Ret g
  end.

(* src: mielin-kernel/src/percpu.rs 481-511 global_stats *)
Definition global_stats (w : PerCpus) : outcome GlobalStats :=
  let num_cpus := num_online_cpus w in
  global_loop (Z.to_nat num_cpus) 0 (cpus w)
    (mkGlobalStats 0 0 0 0 0 0 0 0 (replicate (Z.to_nat MAX_CPUS) None)).

(** ** Load balancing *)

(* src: mielin-kernel/src/percpu.rs 519-526 LoadBalanceStrategy *)
Inductive LoadBalanceStrategy : Type := WorkStealing | PushMigration | RoundRobin.

(* src: mielin-kernel/src/percpu.rs 530-539 LoadBalanceStats *)
Record LoadBalanceStats : Type := mkLoadBalanceStats {
  lb_migrations : Z;
  lb_work_steals : Z;
  lb_failed_steals : Z;
  lb_balance_iterations : Z;
}.

(* src: mielin-kernel/src/percpu.rs 547-554 load_balance_stats *)
Definition load_balance_stats (w : PerCpus) : LoadBalanceStats :=
  mkLoadBalanceStats (migrations w) (work_steals w) (failed_steals w) (balance_iterations w).

(** [for i in 0..num_cpus] with the best CPU so far and its number of tasks;
    [better active best] is the test that replaces it. *)
Fixpoint search_cpu (better : Z → Z → bool) (w : PerCpus) (n : nat) (i : Z)
    (found : option Z) (best : Z) : option Z :=
  match n with
  | O => found
  | S n' =>
    match get_cpu w i with
    | Ok cpu =>
      let active := PerCpu.active_tasks cpu in
      if better active best then search_cpu better w n' (i + 1) (Some i) active
      else search_cpu better w n' (i + 1) found best
    | Err _ => search_cpu better w n' (i + 1) found best
    end
  end.

(* src: mielin-kernel/src/percpu.rs 557-573 find_busiest_cpu *)
Definition find_busiest_cpu (w : PerCpus) : option Z :=
  search_cpu (λ active max_tasks, max_tasks <? active) w (Z.to_nat (num_online_cpus w)) 0 None 0.

(* src: mielin-kernel/src/percpu.rs 576-592 find_idlest_cpu *)
Definition find_idlest_cpu (w : PerCpus) : option Z :=
  search_cpu (λ active min_tasks, active <? min_tasks) w (Z.to_nat (num_online_cpus w)) 0 None U64_MAX.

Fixpoint task_counts (w : PerCpus) (n : nat) (i : Z) : list spec_float :=
  match n with
  | O => []
  | S n' =>
    match get_cpu w i with
    | Ok cpu => f64_of_u64 (PerCpu.active_tasks cpu) :: task_counts w n' (i + 1)
    | Err _ => task_counts w n' (i + 1)
    end
  end.

(* src: mielin-kernel/src/percpu.rs 596-626 load_imbalance_score *)
Definition load_imbalance_score (w : PerCpus) : spec_float :=
  let num_cpus := num_online_cpus w in
  if num_cpus <=? 1 then f64_zero else
  let counts := task_counts w (Z.to_nat num_cpus) 0 in
  match counts with
  | [] => f64_zero
  | _ =>
    let len := f64_of_u64 (Z.of_nat (length counts)) in
    let mean := f64_div (f64_sum counts) len in
    f64_div (f64_sum ((λ x, let diff := f64_sub x mean in f64_mul diff diff) <$> counts)) len
  end.

Definition add_migration (w : PerCpus) : PerCpus :=
  mkPerCpus (cpus w) (current_id w) (num_online w) (wrap64 (migrations w + 1)) (work_steals w)
    (failed_steals w) (balance_iterations w).
Definition add_steal (w : PerCpus) : PerCpus :=
  mkPerCpus (cpus w) (current_id w) (num_online w) (migrations w) (wrap64 (work_steals w + 1))
    (failed_steals w) (balance_iterations w).
Definition add_failed_steal (w : PerCpus) : PerCpus :=
  mkPerCpus (cpus w) (current_id w) (num_online w) (migrations w) (work_steals w)
    (wrap64 (failed_steals w + 1)) (balance_iterations w).
Definition add_iteration (w : PerCpus) : PerCpus :=
  mkPerCpus (cpus w) (current_id w) (num_online w) (migrations w) (work_steals w)
    (failed_steals w) (wrap64 (balance_iterations w + 1)).

(** The destination's scheduler is locked after the extraction, which matters
    when both are the same CPU. *)
(* src: mielin-kernel/src/percpu.rs 644-677 migrate_task *)
Definition migrate_task (w : PerCpus) (task_id from_cpu to_cpu : Z) : bool * PerCpus :=
  match get_cpu w from_cpu with
  | Err _ => (false, w)
  | Ok source_cpu =>
    match get_cpu w to_cpu with
    | Err _ => (false, w)
    | Ok _ =>
      let '(task, s1) := Scheduler.extract_task (scheduler source_cpu) task_id in
      let w1 := put_cpu from_cpu (set_scheduler s1 source_cpu) w in
      match task with
      | None => (false, w1)
      | Some task =>
        match cpus w1 !! Z.to_nat to_cpu with
        | None => (false, w1)
        | Some dest_cpu =>
          let '(success, s2) := Scheduler.inject_task (scheduler dest_cpu) task in
          let w2 := put_cpu to_cpu (set_scheduler s2 dest_cpu) w1 in
          (success, if success : bool then add_migration w2 else w2)
        end
      end
    end
  end.

Fixpoint migrate_all (w : PerCpus) (ids : list Z) (from_cpu to_cpu migrated : Z) : Z * PerCpus :=
  match ids with
  | [] => (migrated, w)
  | task_id :: ids' =>
    let '(ok, w') := migrate_task w task_id from_cpu to_cpu in
    migrate_all w' ids' from_cpu to_cpu (if ok : bool then migrated + 1 else migrated)
  end.

(* src: mielin-kernel/src/percpu.rs 680-749 balance_work_stealing *)
Definition balance_work_stealing (w : PerCpus) : Z * PerCpus :=
  match find_busiest_cpu w with
  | None => (0, add_failed_steal w)
  | Some busiest =>
    match find_idlest_cpu w with
    | None => (0, add_failed_steal w)
    | Some idlest =>
      if busiest =? idlest then (0, w) else
      match get_cpu w busiest, get_cpu w idlest with
      | Ok busiest_cpu, Ok idlest_cpu =>
        let busiest_tasks := PerCpu.active_tasks busiest_cpu in
        let idlest_tasks := PerCpu.active_tasks idlest_cpu in
        if (busiest_tasks <=? idlest_tasks) || (busiest_tasks - idlest_tasks <? 2)
        then (0, add_failed_steal w) else
        let migratable := Scheduler.migratable_tasks (scheduler busiest_cpu) busiest in
        match migratable with
        | [] => (0, add_failed_steal w)
        | _ =>
          let to_migrate :=
            Z.min (Z.max ((busiest_tasks - idlest_tasks) / 2) 1) (Z.of_nat (length migratable)) in
          let '(migrated, w1) :=
            migrate_all w (take (Z.to_nat to_migrate) migratable) busiest idlest 0 in
          (migrated, if 0 <? migrated then add_steal w1 else add_failed_steal w1)
        end
      | _, _ => (0, w)
      end
    end
  end.

(* src: mielin-kernel/src/percpu.rs 752-756 balance_push_migration *)
Definition balance_push_migration : Z := 0.

(* src: mielin-kernel/src/percpu.rs 759-763 balance_round_robin *)
Definition balance_round_robin : Z := 0.

(* src: mielin-kernel/src/percpu.rs 631-639 balance_load *)
Definition balance_load (w : PerCpus) (strategy : LoadBalanceStrategy) : Z * PerCpus :=
  let w1 := add_iteration w in
  match strategy with
  | WorkStealing => balance_work_stealing w1
  | PushMigration => (balance_push_migration, w1)
  | RoundRobin => (balance_round_robin, w1)
  end.
