(* ===== verification/PercpuProps.v ===== *)
(** * Properties of the per-CPU layer

    The balancer neither loses nor duplicates a task: the tasks of all the CPUs
    are a multiset that [balance_load] keeps, whatever the identifiers the
    schedulers gave out. *)

From stdpp Require Import base tactics option list numbers.
From S2P Require Import Prelude Errors Scheduler SchedulerInv Pool Percpu.

(** ** The tasks of a table and of all CPUs *)

Definition occupied (ts : slots) : list Task := omap (λ o, o) ts.

(** What a task keeps when it moves: all but its state, which becomes [Ready]. *)
Definition identity (t : Task) : Z * Z * option Z := (id t, priority t, cpu_affinity t).

Definition cpu_tasks (c : PerCpu) : list (Z * Z * option Z) :=
  identity <$> occupied (tasks (scheduler c)).

Definition all_tasks (l : list PerCpu) : list (Z * Z * option Z) := l ≫= cpu_tasks.

Lemma occupied_empty_slot ts k t :
  ts !! k = Some (Some t) → occupied ts ≡ₚ t :: occupied (<[k := None]> ts).
Proof.
  revert k. induction ts as [|[x|] ts IH]; intros [|k] Hk; simplify_eq/=; [done|..].
  - rewrite (IH k Hk). constructor.
  - by apply IH.
Qed.

Lemma occupied_fill_slot ts k t :
  ts !! k = Some None → occupied (<[k := Some t]> ts) ≡ₚ t :: occupied ts.
Proof.
  revert k. induction ts as [|[x|] ts IH]; intros [|k] Hk; simplify_eq/=; [|done|].
  - rewrite (IH k Hk). constructor.
  - by apply IH.
Qed.

Lemma active_occupied s : Scheduler.active_tasks s = Z.of_nat (length (occupied (tasks s))).
Proof.
  unfold Scheduler.active_tasks. induction (tasks s) as [|[t|] ts IH]; [done|..]; rewrite count_if_cons, IH.
  - change (occupied (Some t :: ts)) with (t :: occupied ts). cbn [length]. lia.
  - change (occupied (None :: ts)) with (occupied ts). lia.
Qed.

Lemma occupied_le ts : (length (occupied ts) <= length ts)%nat.
Proof.
  induction ts as [|[t|] ts IH]; [done|..].
  - change (occupied (Some t :: ts)) with (t :: occupied ts). cbn [length]. lia.
  - change (occupied (None :: ts)) with (occupied ts). cbn [length]. lia.
Qed.

Lemma extract_occupied s i t s' :
  Scheduler.extract_task s i = (Some t, s') →
  length (tasks s') = length (tasks s) ∧ occupied (tasks s) ≡ₚ t :: occupied (tasks s').
Proof.
  unfold Scheduler.extract_task. destruct (find_first _ _) as [u|] eqn:Hf; [|done].
  destruct (Scheduler.migratable u); [|done].
  destruct (update_first _ _ _) as [ts|] eqn:Hu; [|done]. intros [= <- <-].
  apply find_first_some in Hf as (k & Hk & Hp & Hlt).
  apply update_first_some in Hu as (k' & u' & Hk' & Hp' & -> & Hlt').
  destruct (first_unique _ _ _ _ _ _ Hk Hp Hlt Hk' Hp' Hlt') as [-> ->]. simpl.
  split; [by rewrite length_insert|by apply occupied_empty_slot].
Qed.

Lemma extract_none s i s' : Scheduler.extract_task s i = (None, s') → s' = s.
Proof. unfold Scheduler.extract_task. repeat case_match; naive_solver. Qed.

Lemma inject_occupied s t :
  match Scheduler.inject_task s t with
  | (true, s') => length (tasks s') = length (tasks s) ∧
                  occupied (tasks s') ≡ₚ set_state t Ready :: occupied (tasks s)
  | (false, s') => s' = s ∧ Scheduler.active_tasks s = Z.of_nat (length (tasks s))
  end.
Proof.
  unfold Scheduler.inject_task. destruct (fill_first _ _) as [ts|] eqn:Hf.
  - apply fill_first_some in Hf as (k & Hk & -> & _). simpl.
    split; [by rewrite length_insert|by apply occupied_fill_slot].
  - split; [done|]. unfold Scheduler.active_tasks. apply count_if_all. intros k [u|] Hk; [done|].
    by destruct (proj1 (fill_first_none _ _) Hf k).
Qed.

Lemma all_tasks_insert l i c c' :
  l !! i = Some c → ∀ x y, x ++ cpu_tasks c ≡ₚ y ++ cpu_tasks c' →
  x ++ all_tasks l ≡ₚ y ++ all_tasks (<[i := c']> l).
Proof.
  revert i. induction l as [|d l IH]; intros [|i] Hi x y Hxy; simplify_eq/=.
  - by rewrite !(assoc_L (++)), Hxy.
  - rewrite (Permutation_app_swap_app x), (Permutation_app_swap_app y).
    f_equiv. by apply IH.
Qed.

(** ** Migration *)

Definition cpus_ok (w : PerCpus) : Prop :=
  length (cpus w) = Z.to_nat MAX_CPUS ∧
  Forall (λ c, length (tasks (scheduler c)) = Z.to_nat MAX_TASKS) (cpus w).

Lemma get_cpu_ok w i c :
  get_cpu w i = Ok c ↔ i < MAX_CPUS ∧ cpus w !! Z.to_nat i = Some c ∧ PerCpu.is_online c = true.
Proof.
  unfold get_cpu. destruct (Z.leb_spec MAX_CPUS i); [split; [done|intros (? & _); lia]|].
  destruct (cpus w !! Z.to_nat i) as [d|] eqn:E; [|naive_solver].
  destruct (PerCpu.is_online d) eqn:Hd; (split; [intros [= <-]; done|]); intros (_ & [= <-] & ?); congruence.
Qed.

(** [n] tasks went from CPU [f] to CPU [t] and nothing else happened. *)
Record moved (f t n : Z) (w w' : PerCpus) : Prop := {
  mv_ok : cpus_ok w';
  mv_none : n = 0 → cpus w' = cpus w;
  mv_tasks : all_tasks (cpus w') ≡ₚ all_tasks (cpus w);
  mv_from : ∀ c, get_cpu w f = Ok c → ∃ c', get_cpu w' f = Ok c' ∧
              PerCpu.active_tasks c' = PerCpu.active_tasks c - n;
  mv_to : ∀ c, get_cpu w t = Ok c → ∃ c', get_cpu w' t = Ok c' ∧
              PerCpu.active_tasks c' = PerCpu.active_tasks c + n;
  mv_others : ∀ j, j ≠ Z.to_nat f → j ≠ Z.to_nat t → cpus w' !! j = cpus w !! j;
}.

Lemma moved_refl f t w w' : cpus_ok w → cpus w' = cpus w → moved f t 0 w w'.
Proof.
  intros Hok E. assert (∀ i, get_cpu w' i = get_cpu w i) as Hg by (intros; unfold get_cpu; by rewrite E).
  split; rewrite ?E; try done; [by unfold cpus_ok; rewrite E|..];
    intros c Hc; exists c; rewrite Hg; split; (done || lia).
Qed.

Lemma moved_trans f t n m w1 w2 w3 :
  0 <= n → 0 <= m → moved f t n w1 w2 → moved f t m w2 w3 → moved f t (n + m) w1 w3.
Proof.
  intros Hn Hm [_ N1 T1 F1 O1 X1] [K N2 T2 F2 O2 X2]. split.
  - done.
  - intros. rewrite N2, N1; (done || lia).
  - by rewrite T2.
  - intros c Hc. destruct (F1 c Hc) as (c1 & Hc1 & ?). destruct (F2 c1 Hc1) as (c2 & ? & ?).
    exists c2. split; [done|lia].
  - intros c Hc. destruct (O1 c Hc) as (c1 & Hc1 & ?). destruct (O2 c1 Hc1) as (c2 & ? & ?).
    exists c2. split; [done|lia].
  - intros j ??. by rewrite X2, X1.
Qed.

Lemma set_scheduler_same c : set_scheduler (scheduler c) c = c.
Proof. by destruct c. Qed.

Lemma active_permutation c s x :
  occupied (tasks (scheduler c)) ≡ₚ x :: occupied (tasks s) →
  PerCpu.active_tasks (set_scheduler s c) = PerCpu.active_tasks c - 1.
Proof. intros H%Permutation_length. unfold PerCpu.active_tasks. simpl. rewrite !active_occupied, H. simpl. lia. Qed.

Lemma active_permutation' c s x :
  occupied (tasks s) ≡ₚ x :: occupied (tasks (scheduler c)) →
  PerCpu.active_tasks (set_scheduler s c) = PerCpu.active_tasks c + 1.
Proof. intros H%Permutation_length. unfold PerCpu.active_tasks. simpl. rewrite !active_occupied, H. simpl. lia. Qed.

(** A task taken out of the scheduler [f] and put, ready, into the scheduler [t]. *)
Lemma moved_one w f t cf ct s1 s2 task w' :
  cpus_ok w → 0 <= f → 0 <= t → f ≠ t → get_cpu w f = Ok cf → get_cpu w t = Ok ct →
  length (tasks s1) = length (tasks (scheduler cf)) → length (tasks s2) = length (tasks (scheduler ct)) →
  occupied (tasks (scheduler cf)) ≡ₚ task :: occupied (tasks s1) →
  occupied (tasks s2) ≡ₚ set_state task Ready :: occupied (tasks (scheduler ct)) →
  cpus w' = <[Z.to_nat t := set_scheduler s2 ct]> (<[Z.to_nat f := set_scheduler s1 cf]> (cpus w)) →
  moved f t 1 w w'.
Proof.
  intros [Hlen Hall] Hf0 Ht0 Hne Hf Ht L1 L2 P1 P2 E.
  assert (Z.to_nat f ≠ Z.to_nat t) as Hn by lia.
  apply get_cpu_ok in Hf as (Hf & Hlf & Hof). apply get_cpu_ok in Ht as (Ht & Hlt & Hot).
  assert (<[Z.to_nat f := set_scheduler s1 cf]> (cpus w) !! Z.to_nat t = Some ct) as Hlt1
    by by rewrite list_lookup_insert_ne.
  split.
  - split; rewrite E, ?length_insert; [done|]. pose proof (Forall_lookup_1 _ _ _ _ Hall Hlf).
    pose proof (Forall_lookup_1 _ _ _ _ Hall Hlt). do 2 (apply Forall_insert; [|simpl in *; congruence]). done.
  - done.
  - rewrite E. symmetry. etransitivity; [|apply (all_tasks_insert _ _ _ (set_scheduler s2 ct) Hlt1 [identity task] [])].
    + apply (all_tasks_insert _ _ _ (set_scheduler s1 cf) Hlf [] [identity task]).
      unfold cpu_tasks. simpl. by rewrite P1.
    + unfold cpu_tasks. simpl. by rewrite P2.
  - intros c (_ & Hc & _)%get_cpu_ok. simplify_eq. exists (set_scheduler s1 cf).
    split; [|by eapply active_permutation]. apply get_cpu_ok. split_and!; [done| |done].
    rewrite E, list_lookup_insert_ne by done. apply list_lookup_insert_eq. by eapply lookup_lt_Some.
  - intros c (_ & Hc & _)%get_cpu_ok. simplify_eq. exists (set_scheduler s2 ct).
    split; [|by eapply active_permutation']. apply get_cpu_ok. split_and!; [done| |done].
    rewrite E. apply list_lookup_insert_eq. rewrite length_insert. by eapply lookup_lt_Some.
  - intros j Hjf Hjt. by rewrite E, !list_lookup_insert_ne.
Qed.

Lemma migrate_task_moved w i f t cf ct :
  cpus_ok w → 0 <= f → 0 <= t → f ≠ t → get_cpu w f = Ok cf → get_cpu w t = Ok ct →
  PerCpu.active_tasks ct < MAX_TASKS →
  let '(ok, w') := migrate_task w i f t in moved f t (if ok : bool then 1 else 0) w w'.
Proof.
  intros Hok Hf0 Ht0 Hne Hf Ht Hroom. unfold migrate_task. rewrite Hf, Ht.
  pose proof Hf as (_ & Hlf & _)%get_cpu_ok. pose proof Ht as (_ & Hlt & _)%get_cpu_ok.
  destruct (Scheduler.extract_task _ _) as [[task|] s1] eqn:He.
  - apply extract_occupied in He as [L1 P1].
    unfold put_cpu at 1. cbn [cpus set_cpus]. rewrite list_lookup_insert_ne, Hlt by lia.
    pose proof (inject_occupied (scheduler ct) task) as Hi.
    destruct (Scheduler.inject_task (scheduler ct) task) as [[] s2].
    + destruct Hi as [L2 P2]. by eapply moved_one.
    + exfalso. destruct Hi as [_ Hi]. unfold PerCpu.active_tasks in Hroom.
      pose proof (Forall_lookup_1 _ _ _ _ (proj2 Hok) Hlt) as Hl. simpl in Hl. rewrite Hl in Hi. slia.
  - apply extract_none in He as ->. apply moved_refl; [done|]. simpl.
    rewrite set_scheduler_same. by apply list_insert_id.
Qed.

Lemma migrate_all_moved ids : ∀ w f t m cf ct,
  cpus_ok w → 0 <= f → 0 <= t → f ≠ t → get_cpu w f = Ok cf → get_cpu w t = Ok ct →
  PerCpu.active_tasks ct + Z.of_nat (length ids) <= MAX_TASKS →
  let '(m', w') := migrate_all w ids f t m in
  m <= m' <= m + Z.of_nat (length ids) ∧ moved f t (m' - m) w w'.
Proof.
  induction ids as [|i ids IH]; intros w f t m cf ct Hok Hf0 Ht0 Hne Hf Ht Hroom; simpl.
  - split; [lia|]. rewrite Z.sub_diag. by apply moved_refl.
  - cbn [length] in Hroom. pose proof (migrate_task_moved w i f t cf ct Hok Hf0 Ht0 Hne Hf Ht ltac:(lia)) as H1.
    destruct (migrate_task w i f t) as [ok w1].
    destruct (mv_from _ _ _ _ _ H1 cf Hf) as (cf1 & Hf1 & _). destruct (mv_to _ _ _ _ _ H1 ct Ht) as (ct1 & Ht1 & Ha).
    specialize (IH w1 f t (if ok then m + 1 else m) cf1 ct1 (mv_ok _ _ _ _ _ H1) Hf0 Ht0 Hne Hf1 Ht1).
    destruct (migrate_all w1 ids f t (if ok then m + 1 else m)) as [m' w2].
    destruct IH as [Hm H2]; [destruct ok; lia|]. split; [destruct ok; lia|].
    replace (m' - m) with ((if ok then 1 else 0) + (m' - (if ok then m + 1 else m))) by (destruct ok; lia).
    eapply moved_trans; [destruct ok; lia|destruct ok; lia|done|done].
Qed.

(** ** The search for the busiest and the idlest CPU *)

Lemma search_cpu_spec better (key : Z → Z) w (Hb : ∀ a b, better a b = (key b <? key a)) n : ∀ i found best,
  match search_cpu better w n i found best with
  | None => found = None ∧
      ∀ j c, i <= j < i + Z.of_nat n → get_cpu w j = Ok c → key (PerCpu.active_tasks c) <= key best
  | Some b => ∃ v, key best <= key v ∧
      ((found = Some b ∧ v = best) ∨
       (i <= b < i + Z.of_nat n ∧ ∃ c, get_cpu w b = Ok c ∧ PerCpu.active_tasks c = v)) ∧
      ∀ j c, i <= j < i + Z.of_nat n → get_cpu w j = Ok c → key (PerCpu.active_tasks c) <= key v
  end.
Proof.
  induction n as [|n IH]; intros i found best; cbn [search_cpu].
  { destruct found as [b|]; [exists best|]; split_and!; try done; try lia; auto. }
  assert (∀ j : Z, i <= j < i + Z.of_nat (S n) → j = i ∨ i + 1 <= j < i + 1 + Z.of_nat n) as Hj by lia.
  destruct (get_cpu w i) as [cpu|e] eqn:Hi; [rewrite Hb; destruct (Z.ltb_spec (key best) (key (PerCpu.active_tasks cpu)))|].
  - specialize (IH (i + 1) (Some i) (PerCpu.active_tasks cpu)). destruct (search_cpu _ _ _ _ _ _) as [b|]; [|naive_solver].
    destruct IH as (v & Hv & Hwho & Hall). exists v. split_and!; [lia| |].
    + right. destruct Hwho as [[[= <-] ->]|[? ?]]; [split; [lia|eauto]|split; [lia|done]].
    + intros j c [->|?]%Hj Hc; [rewrite Hi in Hc; injection Hc as <-; lia|by eapply Hall].
  - specialize (IH (i + 1) found best). destruct (search_cpu _ _ _ _ _ _) as [b|].
    + destruct IH as (v & Hv & Hwho & Hall). exists v. split_and!; [done| |].
      * destruct Hwho as [?|[? ?]]; [by left|right; split; [lia|done]].
      * intros j c [->|?]%Hj Hc; [rewrite Hi in Hc; injection Hc as <-; lia|by eapply Hall].
    + destruct IH as [? Hall]. split; [done|]. intros j c [->|?]%Hj Hc; [rewrite Hi in Hc; injection Hc as <-; lia|by eapply Hall].
  - specialize (IH (i + 1) found best). destruct (search_cpu _ _ _ _ _ _) as [b|].
    + destruct IH as (v & Hv & Hwho & Hall). exists v. split_and!; [done| |].
      * destruct Hwho as [?|[? ?]]; [by left|right; split; [lia|done]].
      * intros j c [->|?]%Hj Hc; [congruence|by eapply Hall].
    + destruct IH as [? Hall]. split; [done|]. intros j c [->|?]%Hj Hc; [congruence|by eapply Hall].
Qed.

Lemma find_busiest_spec w b :
  find_busiest_cpu w = Some b →
  0 <= b ∧ ∃ cb, get_cpu w b = Ok cb ∧
    ∀ j c, 0 <= j < num_online w → get_cpu w j = Ok c → PerCpu.active_tasks c <= PerCpu.active_tasks cb.
Proof.
  intros E. pose proof (search_cpu_spec (λ active max_tasks, max_tasks <? active) (λ x, x) w (λ _ _, eq_refl)
    (Z.to_nat (num_online_cpus w)) 0 None 0) as H. unfold find_busiest_cpu in E. rewrite E in H.
  destruct H as (v & _ & [[[=] _]|(Hb & cb & Hcb & <-)] & Hall). split; [lia|]. exists cb. split; [done|].
  intros j c Hj. apply Hall. unfold num_online_cpus. lia.
Qed.

Lemma find_idlest_spec w i :
  find_idlest_cpu w = Some i →
  0 <= i ∧ ∃ ci, get_cpu w i = Ok ci ∧
    ∀ j c, 0 <= j < num_online w → get_cpu w j = Ok c → PerCpu.active_tasks ci <= PerCpu.active_tasks c.
Proof.
  intros E. pose proof (search_cpu_spec (λ active min_tasks, active <? min_tasks) Z.opp w
    ltac:(intros a b; simpl; destruct (Z.ltb_spec a b), (Z.ltb_spec (- b) (- a)); done || lia)
    (Z.to_nat (num_online_cpus w)) 0 None U64_MAX) as H. unfold find_idlest_cpu in E. rewrite E in H.
  destruct H as (v & _ & [[[=] _]|(Hi & ci & Hci & <-)] & Hall). split; [lia|]. exists ci. split; [done|].
  intros j c Hj Hc. specialize (Hall j c ltac:(unfold num_online_cpus; lia) Hc). lia.
Qed.

(** What a round of balancing that moved [r] tasks did. *)
Definition balanced (w : PerCpus) (r : Z) (w' : PerCpus) : Prop :=
  cpus_ok w' ∧ all_tasks (cpus w') ≡ₚ all_tasks (cpus w) ∧ 0 <= r ∧ (r = 0 → cpus w' = cpus w) ∧
  (0 < r → ∃ b i cb ci cb' ci',
     get_cpu w b = Ok cb ∧ get_cpu w i = Ok ci ∧
     (∀ j c, 0 <= j < num_online w → get_cpu w j = Ok c →
        PerCpu.active_tasks ci <= PerCpu.active_tasks c <= PerCpu.active_tasks cb) ∧
     get_cpu w' b = Ok cb' ∧ get_cpu w' i = Ok ci' ∧
     PerCpu.active_tasks cb' = PerCpu.active_tasks cb - r ∧
     PerCpu.active_tasks ci' = PerCpu.active_tasks ci + r ∧
     PerCpu.active_tasks ci' <= PerCpu.active_tasks cb' ∧
     (∀ j, j ≠ Z.to_nat b → j ≠ Z.to_nat i → cpus w' !! j = cpus w !! j)).

Lemma balanced_none w w' : cpus_ok w → cpus w' = cpus w → balanced w 0 w'.
Proof. intros Hok E. unfold balanced, cpus_ok in *. rewrite E. naive_solver lia. Qed.

Lemma active_max w i c : cpus_ok w → get_cpu w i = Ok c → PerCpu.active_tasks c <= MAX_TASKS.
Proof.
  intros [_ Hall] (_ & Hc & _)%get_cpu_ok. pose proof (Forall_lookup_1 _ _ _ _ Hall Hc) as Hl. simpl in Hl.
  unfold PerCpu.active_tasks, Scheduler.active_tasks.
  pose proof (count_if_range (λ t : option Task, if t is Some _ then true else false) (tasks (scheduler c))). slia.
Qed.

Lemma balance_work_stealing_spec w :
  cpus_ok w → let '(r, w') := balance_work_stealing w in balanced w r w'.
Proof.
  intros Hok. unfold balance_work_stealing.
  destruct (find_busiest_cpu w) as [b|] eqn:Hb; [|by apply balanced_none].
  destruct (find_idlest_cpu w) as [i|] eqn:Hi; [|by apply balanced_none].
  destruct (Z.eqb_spec b i) as [|Hne]; [by apply balanced_none|].
  apply find_busiest_spec in Hb as (Hb0 & cb & Hcb & Hmax). apply find_idlest_spec in Hi as (Hi0 & ci & Hci & Hmin).
  rewrite Hcb, Hci.
  destruct (Z.leb_spec (PerCpu.active_tasks cb) (PerCpu.active_tasks ci)); [by apply balanced_none|].
  destruct (Z.ltb_spec (PerCpu.active_tasks cb - PerCpu.active_tasks ci) 2); [by apply balanced_none|]. cbn [orb].
  set (d := PerCpu.active_tasks cb - PerCpu.active_tasks ci) in *.
  pose proof (Z.div_mod d 2 ltac:(lia)) as Hdm. pose proof (Z.mod_pos_bound d 2 ltac:(lia)).
  destruct (Scheduler.migratable_tasks (scheduler cb) b) as [|x l] eqn:Hl; [by apply balanced_none|]. rewrite <-Hl. clear x l Hl.
  set (ids := Scheduler.migratable_tasks (scheduler cb) b).
  set (n := Z.to_nat (Z.min (Z.max (d / 2) 1) (Z.of_nat (length ids)))).
  assert (Z.of_nat (length (take n ids)) <= d / 2) as Hlen by (rewrite length_take; lia).
  pose proof (active_max w b cb Hok Hcb).
  pose proof (migrate_all_moved (take n ids) w b i 0 cb ci Hok Hb0 Hi0 Hne Hcb Hci ltac:(lia)) as Hm.
  destruct (migrate_all w (take n ids) b i 0) as [r w1]. destruct Hm as [Hr Hm]. rewrite Z.sub_0_r in Hm.
  assert (balanced w r w1) as (Hx1 & Hx2 & Hx3 & Hx4 & Hx5).
  { destruct (mv_from _ _ _ _ _ Hm cb Hcb) as (cb' & Hcb' & ?). destruct (mv_to _ _ _ _ _ Hm ci Hci) as (ci' & Hci' & ?).
    split_and!; [apply Hm|apply Hm|lia|apply Hm|]. intros _. exists b, i, cb, ci, cb', ci'.
    split_and!; try done; [|lia|apply Hm]. intros j c Hj Hc. split; [by eapply Hmin|by eapply Hmax]. }
  case_match; split_and!; done.
Qed.

(** Load balancing, whatever the strategy, neither loses nor duplicates a
    task: the tasks of all the CPUs are the same before and after, up to the
    state of the ones that moved.  When [r > 0] tasks moved, they went from a CPU
    that had the most tasks to one that had the fewest, which does not end up
    with more than the CPU they came from, and the other CPUs are untouched;
    when none moved every CPU is as it was. *)
Theorem balance_load_conserves w strategy :
  cpus_ok w → let '(r, w') := balance_load w strategy in balanced w r w'.
Proof.
  intros Hok. unfold balance_load. destruct strategy; [|by apply balanced_none..].
  exact (balance_work_stealing_spec (add_iteration w) Hok).
Qed.

(** Two CPUs, the first with five tasks. *)
Definition spawn_five (c : PerCpu) : PerCpu :=
  foldl (λ c p, match PerCpu.spawn_task c p with Ret (_, c') => c' | _ => c end) c [10; 20; 30; 40; 50].

Definition two_cpus : PerCpus :=
  match init (λ i k, 1048576 * Z.of_nat (S i) + 65536 * Z.of_nat k) 2 boot_state with
  | Ret (_, w) =>
    match cpus w with c :: l => set_cpus (spawn_five c :: l) w | [] => w end
  | _ => boot_state
  end.

Definition online_loads (w : PerCpus) : list Z :=
  PerCpu.active_tasks <$> filter (λ c, PerCpu.is_online c = true) (cpus w).

Lemma two_cpus_ok : cpus_ok two_cpus.
Proof.
  assert ((λ c, length (tasks (scheduler c))) <$> cpus two_cpus = replicate 16 64%nat) as E
    by (vm_compute; reflexivity).
  split.
  - by rewrite <-(length_fmap (λ c, length (tasks (scheduler c)))), E.
  - apply (Forall_fmap (λ c, length (tasks (scheduler c))) (λ n, n = 64%nat)). rewrite E. by apply Forall_replicate.
Qed.

Lemma balance_load_conserves_witness :
  online_loads two_cpus = [5; 0] ∧
  (balance_load two_cpus WorkStealing).1 = 2 ∧ online_loads (balance_load two_cpus WorkStealing).2 = [3; 2] ∧
  all_tasks (cpus (balance_load two_cpus WorkStealing).2) ≡ₚ all_tasks (cpus two_cpus).
Proof.
  split; [vm_compute; reflexivity|]. split; [vm_compute; reflexivity|]. split; [vm_compute; reflexivity|].
  pose proof (balance_load_conserves two_cpus WorkStealing two_cpus_ok) as H.
  destruct (balance_load two_cpus WorkStealing) as [r w']. exact (proj1 (proj2 H)).
Defined.

(** [migrate_task] on its own does not look for room first: a task sent to a CPU
    whose table is full is gone from its source and from every other CPU. *)
Lemma migrate_to_full_cpu_loses w i f t cf ct task s1 :
  cpus_ok w → 0 <= f → 0 <= t → f ≠ t → get_cpu w f = Ok cf → get_cpu w t = Ok ct →
  Scheduler.extract_task (scheduler cf) i = (Some task, s1) →
  PerCpu.active_tasks ct = MAX_TASKS →
  let '(ok, w') := migrate_task w i f t in
  ok = false ∧ all_tasks (cpus w) ≡ₚ identity task :: all_tasks (cpus w').
Proof.
  intros Hok Hf0 Ht0 Hne Hf Ht He Hfull. unfold migrate_task. rewrite Hf, Ht, He.
  pose proof Hf as (_ & Hlf & _)%get_cpu_ok. pose proof Ht as (_ & Hlt & _)%get_cpu_ok.
  apply extract_occupied in He as [L1 P1]. unfold put_cpu at 1. cbn [cpus set_cpus].
  rewrite list_lookup_insert_ne, Hlt by lia. pose proof (inject_occupied (scheduler ct) task) as Hi.
  destruct (Scheduler.inject_task (scheduler ct) task) as [[] s2].
  - exfalso. destruct Hi as [L2 P2]. apply Permutation_length in P2. cbn [length] in P2.
    unfold PerCpu.active_tasks in Hfull. rewrite active_occupied in Hfull.
    pose proof (Forall_lookup_1 _ _ _ _ (proj2 Hok) Hlt) as Hl. simpl in Hl.
    pose proof (occupied_le (tasks s2)). slia.
  - destruct Hi as [-> _]. split; [done|]. simpl. rewrite set_scheduler_same.
    rewrite (list_insert_id _ (Z.to_nat t)) by by rewrite list_lookup_insert_ne by lia.
    apply (all_tasks_insert _ _ _ (set_scheduler s1 cf) Hlf [] [identity task]).
    unfold cpu_tasks. simpl. by rewrite P1.
Qed.
