(* ===== verification/Numa.v ===== *)
(** * Non-uniform memory (mielin-kernel/src/numa.rs)

    Nodes with their CPUs and pages, the distances between them, and allocation under
    a policy.  The static [NUMA_STATE] is a record that is passed along.  Its fields are
    atomics: [alloc_step] and [dealloc_step] are single accesses of a thread that
    allocates on a node or frees; the functions of the source's names are calls that
    nobody interrupts. *)

From stdpp Require Import base tactics option list numbers.
From Stdlib Require Import SpecFloat.
From S2P Require Import Prelude Float.

(* src: mielin-kernel/src/numa.rs 70-70 MAX_NUMA_NODES *)
Definition MAX_NUMA_NODES : Z := 8.
(* src: mielin-kernel/src/numa.rs 73-73 MAX_CPUS_PER_NODE *)
Definition MAX_CPUS_PER_NODE : Z := 32.
(* src: mielin-kernel/src/numa.rs 76-76 MAX_CPUS *)
Definition MAX_CPUS : Z := MAX_NUMA_NODES * MAX_CPUS_PER_NODE.
(* src: mielin-kernel/src/numa.rs 79-79 LOCAL_DISTANCE *)
Definition LOCAL_DISTANCE : Z := 10.
(* src: mielin-kernel/src/numa.rs 82-82 REMOTE_DISTANCE *)
Definition REMOTE_DISTANCE : Z := 20.
(* src: mielin-kernel/src/numa.rs 85-85 UNREACHABLE_DISTANCE *)
Definition UNREACHABLE_DISTANCE : Z := 255.
(* src: mielin-kernel/src/numa.rs 88-88 DEFAULT_PAGES_PER_NODE *)
Definition DEFAULT_PAGES_PER_NODE : Z := 256.

(* src: mielin-kernel/src/numa.rs 96-145 NumaError *)
Inductive NumaError : Type :=
| NotInitialized
| AlreadyInitialized
| InvalidNodeId (node_id max_node_id : Z)
| NodeOffline (node_id : Z)
| OutOfMemory (node_id requested available : Z)
| InvalidCpuId (cpu_id max_cpu_id : Z)
| CpuNotMapped (cpu_id : Z)
| InvalidAllocation
| TopologyNotSupported
| CrossNodeAccess (source_node target_node : Z).

(* src: mielin-kernel/src/numa.rs 210-210 NodeId *)
Definition NodeId : Type := Z.

Module NodeId.

(* src: mielin-kernel/src/numa.rs 214-216 NodeId::new *)
Definition new (id : Z) : NodeId := id.
(* src: mielin-kernel/src/numa.rs 219-221 NodeId::as_usize *)
Definition as_usize (self : NodeId) : Z := self.
(* src: mielin-kernel/src/numa.rs 224-226 NodeId::is_valid *)
Definition is_valid (self : NodeId) : bool := self <? MAX_NUMA_NODES.

End NodeId.

(** ** Policies *)

(* src: mielin-kernel/src/numa.rs 247-259 NumaPolicy *)
Inductive NumaPolicy : Type :=
| Local
| Bind (node : NodeId)
| Interleave
| Preferred (node : NodeId)
| FirstTouch.

Module NumaPolicy.

(* src: mielin-kernel/src/numa.rs 263-265 NumaPolicy::prefers_local *)
Definition prefers_local (self : NumaPolicy) : bool :=
  match self with Local | FirstTouch => true | _ => false end.

(* src: mielin-kernel/src/numa.rs 268-273 NumaPolicy::required_node *)
Definition required_node (self : NumaPolicy) : option NodeId :=
  match self with Bind node => Some node | _ => None end.

(* src: mielin-kernel/src/numa.rs 276-278 NumaPolicy::allows_fallback *)
Definition allows_fallback (self : NumaPolicy) : bool :=
  match self with Local | Preferred _ | FirstTouch => true | _ => false end.

End NumaPolicy.

(** ** Counters of a node *)

Module NodeMemoryStats.

(* src: mielin-kernel/src/numa.rs 287-304 NodeMemoryStats *)
Record NodeMemoryStats : Type := mk {
  total_pages : Z;
  free_pages : Z;
  allocations : Z;
  deallocations : Z;
  local_allocations : Z;
  remote_allocations : Z;
  pages_migrated_in : Z;
  pages_migrated_out : Z;
}.

(* src: mielin-kernel/src/numa.rs 307-318 NodeMemoryStats::new *)
Definition new : NodeMemoryStats := mk 0 0 0 0 0 0 0 0.

(* src: mielin-kernel/src/numa.rs 320-329 NodeMemoryStats::reset *)
Definition reset (total : Z) : NodeMemoryStats := mk total total 0 0 0 0 0 0.

(** The three accesses of [record_allocation], in their order. *)
(* src: mielin-kernel/src/numa.rs 332-332 NodeMemoryStats::record_allocation *)
Definition count_allocation (s : NodeMemoryStats) : NodeMemoryStats :=
  mk (total_pages s) (free_pages s) (wrap64 (allocations s + 1)) (deallocations s)
     (local_allocations s) (remote_allocations s) (pages_migrated_in s) (pages_migrated_out s).
(* src: mielin-kernel/src/numa.rs 333-333 NodeMemoryStats::record_allocation *)
Definition take_pages (pages : Z) (s : NodeMemoryStats) : NodeMemoryStats :=
  mk (total_pages s) (wrap64 (free_pages s - pages)) (allocations s) (deallocations s)
     (local_allocations s) (remote_allocations s) (pages_migrated_in s) (pages_migrated_out s).
(* src: mielin-kernel/src/numa.rs 334-338 NodeMemoryStats::record_allocation *)
Definition count_locality (is_local : bool) (s : NodeMemoryStats) : NodeMemoryStats :=
  if is_local
  then mk (total_pages s) (free_pages s) (allocations s) (deallocations s)
          (wrap64 (local_allocations s + 1)) (remote_allocations s) (pages_migrated_in s) (pages_migrated_out s)
  else mk (total_pages s) (free_pages s) (allocations s) (deallocations s)
          (local_allocations s) (wrap64 (remote_allocations s + 1)) (pages_migrated_in s) (pages_migrated_out s).

(* src: mielin-kernel/src/numa.rs 331-339 NodeMemoryStats::record_allocation *)
Definition record_allocation (pages : Z) (is_local : bool) (s : NodeMemoryStats) : NodeMemoryStats :=
  count_locality is_local (take_pages pages (count_allocation s)).

(** The two accesses of [record_deallocation]. *)
(* src: mielin-kernel/src/numa.rs 342-342 NodeMemoryStats::record_deallocation *)
Definition count_deallocation (s : NodeMemoryStats) : NodeMemoryStats :=
  mk (total_pages s) (free_pages s) (allocations s) (wrap64 (deallocations s + 1))
     (local_allocations s) (remote_allocations s) (pages_migrated_in s) (pages_migrated_out s).
(* src: mielin-kernel/src/numa.rs 343-343 NodeMemoryStats::record_deallocation *)
Definition give_pages (pages : Z) (s : NodeMemoryStats) : NodeMemoryStats :=
  mk (total_pages s) (wrap64 (free_pages s + pages)) (allocations s) (deallocations s)
     (local_allocations s) (remote_allocations s) (pages_migrated_in s) (pages_migrated_out s).

(* src: mielin-kernel/src/numa.rs 341-344 NodeMemoryStats::record_deallocation *)
Definition record_deallocation (pages : Z) (s : NodeMemoryStats) : NodeMemoryStats :=
  give_pages pages (count_deallocation s).

(* src: mielin-kernel/src/numa.rs 346-349 NodeMemoryStats::record_migration_in *)
Definition record_migration_in (pages : Z) (s : NodeMemoryStats) : NodeMemoryStats :=
  mk (total_pages s) (free_pages s) (allocations s) (deallocations s)
     (local_allocations s) (remote_allocations s) (wrap64 (pages_migrated_in s + pages)) (pages_migrated_out s).

(* src: mielin-kernel/src/numa.rs 351-354 NodeMemoryStats::record_migration_out *)
Definition record_migration_out (pages : Z) (s : NodeMemoryStats) : NodeMemoryStats :=
  mk (total_pages s) (free_pages s) (allocations s) (deallocations s)
     (local_allocations s) (remote_allocations s) (pages_migrated_in s) (wrap64 (pages_migrated_out s + pages)).

End NodeMemoryStats.
Abbreviation NodeMemoryStats := NodeMemoryStats.NodeMemoryStats.

Module NodeStatsSnapshot.

(* src: mielin-kernel/src/numa.rs 484-507 NodeStatsSnapshot *)
Record NodeStatsSnapshot : Type := mk {
  node_id : NodeId;
  online : bool;
  cpu_count : Z;
  total_pages : Z;
  free_pages : Z;
  allocations : Z;
  deallocations : Z;
  local_allocations : Z;
  remote_allocations : Z;
  pages_migrated_in : Z;
  pages_migrated_out : Z;
}.

(* src: mielin-kernel/src/numa.rs 511-517 NodeStatsSnapshot::utilization *)
Definition utilization (self : NodeStatsSnapshot) : spec_float :=
  if total_pages self =? 0 then f64_zero
  else f64_div (f64_of_u64 (saturating_sub (total_pages self) (free_pages self))) (f64_of_u64 (total_pages self)).

(* src: mielin-kernel/src/numa.rs 520-526 NodeStatsSnapshot::local_access_ratio *)
Definition local_access_ratio (self : NodeStatsSnapshot) : outcome spec_float :=
  let! total := usize_add (local_allocations self) (remote_allocations self) in
  Ret (if total =? 0 then f64_one else f64_div (f64_of_u64 (local_allocations self)) (f64_of_u64 total)).

(* src: mielin-kernel/src/numa.rs 529-531 NodeStatsSnapshot::net_migration *)
Definition net_migration (self : NodeStatsSnapshot) : outcome Z :=
  i64_sub (as_i64 (pages_migrated_in self)) (as_i64 (pages_migrated_out self)).

End NodeStatsSnapshot.
Abbreviation NodeStatsSnapshot := NodeStatsSnapshot.NodeStatsSnapshot.

Module GlobalNumaStats.

(* src: mielin-kernel/src/numa.rs 536-551 GlobalNumaStats *)
Record GlobalNumaStats : Type := mk {
  online_nodes : Z;
  total_allocations : Z;
  total_local_allocations : Z;
  total_remote_allocations : Z;
  total_pages : Z;
  total_free_pages : Z;
  total_migrations : Z;
}.

(* src: mielin-kernel/src/numa.rs 555-561 GlobalNumaStats::local_access_ratio *)
Definition local_access_ratio (self : GlobalNumaStats) : outcome spec_float :=
  let! total := usize_add (total_local_allocations self) (total_remote_allocations self) in
  Ret (if total =? 0 then f64_one else f64_div (f64_of_u64 (total_local_allocations self)) (f64_of_u64 total)).

(* src: mielin-kernel/src/numa.rs 564-570 GlobalNumaStats::utilization *)
Definition utilization (self : GlobalNumaStats) : spec_float :=
  if total_pages self =? 0 then f64_zero
  else f64_div (f64_of_u64 (saturating_sub (total_pages self) (total_free_pages self))) (f64_of_u64 (total_pages self)).

End GlobalNumaStats.
Abbreviation GlobalNumaStats := GlobalNumaStats.GlobalNumaStats.

(** ** One node *)

(* src: mielin-kernel/src/numa.rs 361-376 NumaNode *)
Record NumaNode : Type := mkNode {
  node_id : NodeId;
  online : bool;
  cpu_mask : Z;
  cpu_count : Z;
  stats : NodeMemoryStats;
  capacity_pages : Z;
  alloc_offset : Z;
}.

Definition set_stats (f : NodeMemoryStats → NodeMemoryStats) (n : NumaNode) : NumaNode :=
  mkNode (node_id n) (online n) (cpu_mask n) (cpu_count n) (f (stats n)) (capacity_pages n) (alloc_offset n).
Definition set_offset (o : Z) (n : NumaNode) : NumaNode :=
  mkNode (node_id n) (online n) (cpu_mask n) (cpu_count n) (stats n) (capacity_pages n) o.

Module NumaNode.

(* src: mielin-kernel/src/numa.rs 380-390 NumaNode::new *)
Definition new (id : Z) : NumaNode := mkNode id false 0 0 NodeMemoryStats.new 0 0.

(* src: mielin-kernel/src/numa.rs 398-400 NumaNode::is_online *)
Definition is_online (self : NumaNode) : bool := online self.

(* src: mielin-kernel/src/numa.rs 408-414 NumaNode::has_cpu *)
Definition has_cpu (self : NumaNode) (cpu_id : Z) : bool :=
  if 64 <=? cpu_id then false else negb (Z.land (cpu_mask self) (Z.shiftl 1 cpu_id) =? 0).

(* src: mielin-kernel/src/numa.rs 417-419 NumaNode::total_pages *)
Definition total_pages (self : NumaNode) : Z := capacity_pages self.

(* src: mielin-kernel/src/numa.rs 422-424 NumaNode::free_pages *)
Definition free_pages (self : NumaNode) : Z := NodeMemoryStats.free_pages (stats self).

(* src: mielin-kernel/src/numa.rs 427-449 NumaNode::allocate *)
Definition allocate (self : NumaNode) (pages : Z) (is_local : bool) : result Z NumaError * NumaNode :=
  if negb (is_online self) then (Err (NodeOffline (node_id self)), self) else
  let available := free_pages self in
  if available <? pages then (Err (OutOfMemory (node_id self) pages available), self) else
  let offset := alloc_offset self in
  let self := set_offset (wrap64 (offset + pages)) self in
  (Ok offset, set_stats (NodeMemoryStats.record_allocation pages is_local) self).

(* src: mielin-kernel/src/numa.rs 452-454 NumaNode::deallocate *)
Definition deallocate (self : NumaNode) (offset pages : Z) : NumaNode :=
  set_stats (NodeMemoryStats.record_deallocation pages) self.

(* src: mielin-kernel/src/numa.rs 457-471 NumaNode::stats *)
Definition stats_snapshot (self : NumaNode) : NodeStatsSnapshot :=
  let s := stats self in
  NodeStatsSnapshot.mk (node_id self) (is_online self) (cpu_count self) (total_pages self) (free_pages self)
    (NodeMemoryStats.allocations s) (NodeMemoryStats.deallocations s)
    (NodeMemoryStats.local_allocations s) (NodeMemoryStats.remote_allocations s)
    (NodeMemoryStats.pages_migrated_in s) (NodeMemoryStats.pages_migrated_out s).

(** *** The same, access by access

    Where a thread in [allocate] is: before it reads [online], before it reads
    [free_pages], before the [fetch_add] of the offset, with the offset before each of
    the three accesses of [record_allocation], and back. *)
(* src: mielin-kernel/src/numa.rs 427-449 NumaNode::allocate *)
Inductive alloc_pc : Type :=
| AOnline
| AFree
| AOffset
| ACount (offset : Z)
| ATake (offset : Z)
| ALocality (offset : Z)
| ADone (r : result Z NumaError).

(* src: mielin-kernel/src/numa.rs 427-449 NumaNode::allocate *)
Definition alloc_step (pages : Z) (is_local : bool) (self : NumaNode) (pc : alloc_pc) : NumaNode * alloc_pc :=
  match pc with
  | AOnline => (self, if is_online self then AFree else ADone (Err (NodeOffline (node_id self))))
  | AFree =>
      let available := free_pages self in
      (self, if available <? pages then ADone (Err (OutOfMemory (node_id self) pages available)) else AOffset)
  | AOffset => (set_offset (wrap64 (alloc_offset self + pages)) self, ACount (alloc_offset self))
  | ACount o => (set_stats NodeMemoryStats.count_allocation self, ATake o)
  | ATake o => (set_stats (NodeMemoryStats.take_pages pages) self, ALocality o)
  | ALocality o => (set_stats (NodeMemoryStats.count_locality is_local) self, ADone (Ok o))
  | ADone r => (self, ADone r)
  end.

(* src: mielin-kernel/src/numa.rs 452-454 NumaNode::deallocate *)
Inductive dealloc_pc : Type := DCount | DGive | DDone.

(* src: mielin-kernel/src/numa.rs 452-454 NumaNode::deallocate *)
Definition dealloc_step (pages : Z) (self : NumaNode) (pc : dealloc_pc) : NumaNode * dealloc_pc :=
  match pc with
  | DCount => (set_stats NodeMemoryStats.count_deallocation self, DGive)
  | DGive => (set_stats (NodeMemoryStats.give_pages pages) self, DDone)
  | DDone => (self, DDone)
  end.

End NumaNode.

(** ** Distances and CPUs *)

(* src: mielin-kernel/src/numa.rs 581-584 DistanceMatrix *)
Definition DistanceMatrix : Type := list (list Z).

Module DistanceMatrix.

(* src: mielin-kernel/src/numa.rs 587-602 DistanceMatrix::new *)
Definition new : DistanceMatrix :=
  let ROW := [LOCAL_DISTANCE; UNREACHABLE_DISTANCE; UNREACHABLE_DISTANCE; UNREACHABLE_DISTANCE;
              UNREACHABLE_DISTANCE; UNREACHABLE_DISTANCE; UNREACHABLE_DISTANCE; UNREACHABLE_DISTANCE] in
  replicate (Z.to_nat MAX_NUMA_NODES) ROW.

(** [self.distances[i][j].store(d)]. *)
Definition store (i j d : Z) (self : DistanceMatrix) : outcome DistanceMatrix :=
  let! row := arr_get self i in
  let! row := arr_set row j d in
  arr_set self i row.

(* src: mielin-kernel/src/numa.rs 604-615 DistanceMatrix::init *)
Definition init (num_nodes : Z) (self : DistanceMatrix) : outcome DistanceMatrix :=
  for_range 0 num_nodes (λ i m,
    for_range 0 num_nodes (λ j m,
      let distance := if i =? j then LOCAL_DISTANCE else REMOTE_DISTANCE in
      store i j distance m) m) self.

(* src: mielin-kernel/src/numa.rs 617-622 DistanceMatrix::get *)
Definition get (self : DistanceMatrix) (from to : NodeId) : outcome Z :=
  if (MAX_NUMA_NODES <=? from) || (MAX_NUMA_NODES <=? to) then Ret UNREACHABLE_DISTANCE else
  let! row := arr_get self from in
  let! d := arr_get row to in
  Ret (as_u8 d).

(* src: mielin-kernel/src/numa.rs 624-628 DistanceMatrix::set *)
Definition set (from to : NodeId) (distance : Z) (self : DistanceMatrix) : outcome DistanceMatrix :=
  if (from <? MAX_NUMA_NODES) && (to <? MAX_NUMA_NODES) then store from to distance self else Ret self.

End DistanceMatrix.

(* src: mielin-kernel/src/numa.rs 636-639 CpuNodeMap *)
Definition CpuNodeMap : Type := list Z.

Module CpuNodeMap.

(* src: mielin-kernel/src/numa.rs 642-648 CpuNodeMap::new *)
Definition new : CpuNodeMap := replicate (Z.to_nat MAX_CPUS) U32_MAX.

(* src: mielin-kernel/src/numa.rs 650-654 CpuNodeMap::set *)
Definition set (cpu_id : Z) (node_id : NodeId) (self : CpuNodeMap) : outcome CpuNodeMap :=
  if cpu_id <? MAX_CPUS then arr_set self cpu_id (as_u32 node_id) else Ret self.

(* src: mielin-kernel/src/numa.rs 656-666 CpuNodeMap::get *)
Definition get (self : CpuNodeMap) (cpu_id : Z) : outcome (option NodeId) :=
  if MAX_CPUS <=? cpu_id then Ret None else
  let! value := arr_get self cpu_id in
  Ret (if value =? U32_MAX then None else Some value).

End CpuNodeMap.

(** ** Affinity of tasks *)

(* src: mielin-kernel/src/numa.rs 675-684 TaskNumaAffinity *)
Record TaskNumaAffinity : Type := mkAffinity {
  preferred_node : option NodeId;
  policy : NumaPolicy;
  allow_migration : bool;
  strict : bool;
}.

Module TaskNumaAffinity.

(* src: mielin-kernel/src/numa.rs 687-694 TaskNumaAffinity::default *)
Definition default : TaskNumaAffinity := mkAffinity None Local true false.
(* src: mielin-kernel/src/numa.rs 699-706 TaskNumaAffinity::bind *)
Definition bind (node : NodeId) : TaskNumaAffinity := mkAffinity (Some node) (Bind node) false true.
(* src: mielin-kernel/src/numa.rs 709-716 TaskNumaAffinity::preferred *)
Definition preferred (node : NodeId) : TaskNumaAffinity := mkAffinity (Some node) (Preferred node) true false.
(* src: mielin-kernel/src/numa.rs 719-721 TaskNumaAffinity::local *)
Definition local : TaskNumaAffinity := default.
(* src: mielin-kernel/src/numa.rs 724-731 TaskNumaAffinity::interleave *)
Definition interleave : TaskNumaAffinity := mkAffinity None Interleave true false.

End TaskNumaAffinity.

(** ** The global state *)

(* src: mielin-kernel/src/numa.rs 739-754 NumaState *)
Record NumaState : Type := mkState {
  initialized : bool;
  nodes : list NumaNode;
  num_online_nodes : Z;
  distances : DistanceMatrix;
  cpu_map : CpuNodeMap;
  default_policy : NumaPolicy;
  interleave_index : Z;
}.

(* src: mielin-kernel/src/numa.rs 757-776 NumaState::new *)
Definition NUMA_STATE : NumaState :=
  mkState false (NumaNode.new <$> [0; 1; 2; 3; 4; 5; 6; 7]) 0 DistanceMatrix.new CpuNodeMap.new Local 0.

Definition set_nodes (ns : list NumaNode) (s : NumaState) : NumaState :=
  mkState (initialized s) ns (num_online_nodes s) (distances s) (cpu_map s) (default_policy s) (interleave_index s).
Definition set_online (initialized : bool) (n : Z) (s : NumaState) : NumaState :=
  mkState initialized (nodes s) n (distances s) (cpu_map s) (default_policy s) (interleave_index s).
Definition set_distances (d : DistanceMatrix) (s : NumaState) : NumaState :=
  mkState (initialized s) (nodes s) (num_online_nodes s) d (cpu_map s) (default_policy s) (interleave_index s).
Definition set_cpu_map (m : CpuNodeMap) (s : NumaState) : NumaState :=
  mkState (initialized s) (nodes s) (num_online_nodes s) (distances s) m (default_policy s) (interleave_index s).
Definition set_default_policy (p : NumaPolicy) (s : NumaState) : NumaState :=
  mkState (initialized s) (nodes s) (num_online_nodes s) (distances s) (cpu_map s) p (interleave_index s).
Definition set_interleave (i : Z) (s : NumaState) : NumaState :=
  mkState (initialized s) (nodes s) (num_online_nodes s) (distances s) (cpu_map s) (default_policy s) i.

(** The stores to [NUMA_STATE.nodes[i]]. *)
Definition with_node (i : Z) (f : NumaNode → NumaNode) (s : NumaState) : outcome NumaState :=
  let! n := arr_get (nodes s) i in
  let! ns := arr_set (nodes s) i (f n) in
  Ret (set_nodes ns s).

(** *** Initialization *)

(** [(i * 4)..(i * 4 + 4)]. *)
(* src: mielin-kernel/src/numa.rs 826-826 init_with_config *)
Definition node_cpus (i : Z) : list Z := [i * 4; i * 4 + 1; i * 4 + 2; i * 4 + 3].

(* src: mielin-kernel/src/numa.rs 837-842 init_with_config *)
Definition mask_of (cpus : list Z) : Z :=
  foldl (λ mask cpu, if cpu <? 64 then Z.lor mask (Z.shiftl 1 cpu) else mask) 0 cpus.

(* src: mielin-kernel/src/numa.rs 849-851 init_with_config *)
Fixpoint map_cpus (cpus : list Z) (i : Z) (m : CpuNodeMap) : outcome CpuNodeMap :=
  match cpus with
  | [] => Ret m
  | cpu :: cpus => let! m := CpuNodeMap.set cpu i m in map_cpus cpus i m
  end.

(** The body of the loop, which [init_with_config] and [detect_topology] share. *)
(* src: mielin-kernel/src/numa.rs 825-852 init_with_config *)
Definition init_node (pages_per_node i : Z) (s : NumaState) : outcome NumaState :=
  let cpus := node_cpus i in
  let! s := with_node i (λ n,
    mkNode (node_id n) true (mask_of cpus) (as_u32 (Z.of_nat (length cpus)))
      (NodeMemoryStats.reset pages_per_node) pages_per_node 0) s in
  let! m := map_cpus cpus i (cpu_map s) in
  Ret (set_cpu_map m s).

(* src: mielin-kernel/src/numa.rs 894-938 detect_topology *)
Definition detect_topology (s : NumaState) : outcome (result Z NumaError * NumaState) :=
  let num_nodes := 2 in
  let s := set_interleave 0 s in
  let! s := for_range 0 num_nodes (init_node DEFAULT_PAGES_PER_NODE) s in
  let! d := DistanceMatrix.init num_nodes (distances s) in
  Ret (Ok num_nodes, set_default_policy Local (set_distances d s)).

(* src: mielin-kernel/src/numa.rs 813-866 init_with_config *)
Definition init_with_config (num_nodes pages_per_node : Z) (s : NumaState) : outcome (result () NumaError * NumaState) :=
  if (num_nodes =? 0) || (MAX_NUMA_NODES <? num_nodes)
  then Ret (Err (InvalidNodeId num_nodes (MAX_NUMA_NODES - 1)), s) else
  let s := set_interleave 0 s in
  let! s := for_range 0 num_nodes (init_node pages_per_node) s in
  let! d := DistanceMatrix.init num_nodes (distances s) in
  let s := set_default_policy Local (set_distances d s) in
  Ret (Ok (), set_online true num_nodes s).

(* src: mielin-kernel/src/numa.rs 870-891 reinit_for_test *)
Definition reinit_for_test (s : NumaState) : outcome (result () NumaError * NumaState) :=
  let num_nodes := num_online_nodes s in
  if num_nodes =? 0 then
    let! (r, s) := detect_topology s in
    Ret (match r with Ok _ => Ok () | Err e => Err e end, s)
  else
  let s := set_interleave 0 s in
  let! s := for_range 0 num_nodes (λ i,
    with_node i (λ n, set_stats (λ _, NodeMemoryStats.reset (NumaNode.total_pages n)) (set_offset 0 n))) s in
  Ret (Ok (), set_default_policy Local s).

(** [std]: whether the build is one for tests or has the feature [std]. *)
(* src: mielin-kernel/src/numa.rs 788-810 init *)
Definition init (std : bool) (s : NumaState) : outcome (result () NumaError * NumaState) :=
  if initialized s then (if std then reinit_for_test s else Ret (Err AlreadyInitialized, s)) else
  let! (r, s) := detect_topology s in
  match r with
  | Err e => Ret (Err e, s)
  | Ok num_nodes => Ret (Ok (), set_online true num_nodes s)
  end.

(** *** Readers *)

(* src: mielin-kernel/src/numa.rs 946-951 num_nodes *)
Definition num_nodes (s : NumaState) : result Z NumaError :=
  if negb (initialized s) then Err NotInitialized else Ok (num_online_nodes s).

(* src: mielin-kernel/src/numa.rs 954-973 get_node *)
Definition get_node (id : NodeId) (s : NumaState) : outcome (result NumaNode NumaError) :=
  if negb (initialized s) then Ret (Err NotInitialized) else
  let max_node := num_online_nodes s in
  if max_node <=? id then Ret (Err (InvalidNodeId id (saturating_sub max_node 1))) else
  let! node := arr_get (nodes s) id in
  Ret (if NumaNode.is_online node then Ok node else Err (NodeOffline id)).

(* src: mielin-kernel/src/numa.rs 976-992 cpu_to_node *)
Definition cpu_to_node (cpu_id : Z) (s : NumaState) : outcome (result NodeId NumaError) :=
  if negb (initialized s) then Ret (Err NotInitialized) else
  if MAX_CPUS <=? cpu_id then Ret (Err (InvalidCpuId cpu_id (MAX_CPUS - 1))) else
  let! o := CpuNodeMap.get (cpu_map s) cpu_id in
  Ret match o with Some n => Ok n | None => Err (CpuNotMapped cpu_id) end.

(* src: mielin-kernel/src/numa.rs 995-1015 get_distance *)
Definition get_distance (from to : NodeId) (s : NumaState) : outcome (result Z NumaError) :=
  if negb (initialized s) then Ret (Err NotInitialized) else
  let max_node := num_online_nodes s in
  if max_node <=? from then Ret (Err (InvalidNodeId from (saturating_sub max_node 1))) else
  if max_node <=? to then Ret (Err (InvalidNodeId to (saturating_sub max_node 1))) else
  let! d := DistanceMatrix.get (distances s) from to in
  Ret (Ok d).

(* src: mielin-kernel/src/numa.rs 1151-1157 get_policy *)
Definition get_policy (s : NumaState) : result NumaPolicy NumaError :=
  if negb (initialized s) then Err NotInitialized else Ok (default_policy s).

(* src: mielin-kernel/src/numa.rs 1180-1182 best_node_for_cpu *)
Definition best_node_for_cpu (cpu_id : Z) (s : NumaState) : outcome (result NodeId NumaError) := cpu_to_node cpu_id s.

(** One round of the search; [best] is the best node so far, [best_distance] its
    distance. *)
(* src: mielin-kernel/src/numa.rs 1194-1205 find_closest_with_memory *)
Definition closest_round (from_node : NodeId) (min_pages : Z) (s : NumaState) (i : Z) (best : option NodeId * Z)
    : outcome (option NodeId * Z) :=
  let '(best_node, best_distance) := best in
  let! r := get_node i s in
  match r with
  | Err _ => Ret best
  | Ok node =>
      if min_pages <=? NumaNode.free_pages node then
        let! distance := DistanceMatrix.get (distances s) from_node i in
        Ret (if distance <? best_distance then (Some i, distance) else best)
      else Ret best
  end.

(* src: mielin-kernel/src/numa.rs 1185-1212 find_closest_with_memory *)
Definition find_closest_with_memory (from_node : NodeId) (min_pages : Z) (s : NumaState) : outcome (result NodeId NumaError) :=
  if negb (initialized s) then Ret (Err NotInitialized) else
  let! (best_node, _) := for_range 0 (num_online_nodes s) (closest_round from_node min_pages s) (None, UNREACHABLE_DISTANCE) in
  Ret match best_node with Some n => Ok n | None => Err (OutOfMemory from_node min_pages 0) end.

(* src: mielin-kernel/src/numa.rs 1215-1218 get_node_stats *)
Definition get_node_stats (id : NodeId) (s : NumaState) : outcome (result NodeStatsSnapshot NumaError) :=
  let! r := get_node id s in
  Ret match r with Ok n => Ok (NumaNode.stats_snapshot n) | Err e => Err e end.

(* src: mielin-kernel/src/numa.rs 1237-1247 get_global_stats *)
Definition add_node_stats (s : NumaState) (i : Z) (g : GlobalNumaStats) : outcome GlobalNumaStats :=
  let! r := get_node i s in
  match r with
  | Err _ => Ret g
  | Ok node =>
      let ns := NumaNode.stats_snapshot node in
      let! a := usize_add (GlobalNumaStats.total_allocations g) (NodeStatsSnapshot.allocations ns) in
      let! l := usize_add (GlobalNumaStats.total_local_allocations g) (NodeStatsSnapshot.local_allocations ns) in
      let! r := usize_add (GlobalNumaStats.total_remote_allocations g) (NodeStatsSnapshot.remote_allocations ns) in
      let! p := usize_add (GlobalNumaStats.total_pages g) (NodeStatsSnapshot.total_pages ns) in
      let! f := usize_add (GlobalNumaStats.total_free_pages g) (NodeStatsSnapshot.free_pages ns) in
      let! x := usize_add (NodeStatsSnapshot.pages_migrated_in ns) (NodeStatsSnapshot.pages_migrated_out ns) in
      let! m := usize_add (GlobalNumaStats.total_migrations g) x in
      Ret (GlobalNumaStats.mk (GlobalNumaStats.online_nodes g) a l r p f m)
  end.

(* src: mielin-kernel/src/numa.rs 1221-1250 get_global_stats *)
Definition get_global_stats (s : NumaState) : outcome (result GlobalNumaStats NumaError) :=
  if negb (initialized s) then Ret (Err NotInitialized) else
  let num_nodes := num_online_nodes s in
  let! g := for_range 0 num_nodes (add_node_stats s) (GlobalNumaStats.mk num_nodes 0 0 0 0 0 0) in
  Ret (Ok g).

(* src: mielin-kernel/src/numa.rs 1253-1269 get_scheduling_hint *)
Definition get_scheduling_hint (memory_node : NodeId) (s : NumaState) : outcome (result (list Z) NumaError) :=
  if negb (initialized s) then Ret (Err NotInitialized) else
  let! r := get_node memory_node s in
  match r with
  | Err e => Ret (Err e)
  | Ok node =>
      let! cpus := for_range 0 64 (λ cpu cpus,
        Ret (if negb (Z.land (cpu_mask node) (Z.shiftl 1 cpu) =? 0) then cpus ++ [cpu] else cpus)) [] in
      Ret (Ok cpus)
  end.

(** *** Operations *)

(* src: mielin-kernel/src/numa.rs 1018-1033 set_distance *)
Definition set_distance (from to : NodeId) (distance : Z) (s : NumaState) : outcome (result () NumaError * NumaState) :=
  if negb (initialized s) then Ret (Err NotInitialized, s) else
  let max_node := num_online_nodes s in
  if (max_node <=? from) || (max_node <=? to)
  then Ret (Err (InvalidNodeId (Z.max from to) (saturating_sub max_node 1)), s) else
  let! d := DistanceMatrix.set from to distance (distances s) in
  Ret (Ok (), set_distances d s).

(* src: mielin-kernel/src/numa.rs 1041-1056 allocate_on_node_with_locality *)
Definition allocate_on_node_with_locality (id : NodeId) (pages : Z) (is_local : bool) (s : NumaState)
    : outcome (result Z NumaError * NumaState) :=
  if negb (initialized s) then Ret (Err NotInitialized, s) else
  if pages =? 0 then Ret (Err InvalidAllocation, s) else
  let! r := get_node id s in
  match r with
  | Err e => Ret (Err e, s)
  | Ok node =>
      let '(r, node) := NumaNode.allocate node pages is_local in
      let! ns := arr_set (nodes s) id node in
      Ret (r, set_nodes ns s)
  end.

(* src: mielin-kernel/src/numa.rs 1036-1038 allocate_on_node *)
Definition allocate_on_node (id : NodeId) (pages : Z) (s : NumaState) : outcome (result Z NumaError * NumaState) :=
  allocate_on_node_with_locality id pages true s.

(** Rounds [i], [i + 1], ... of the loop, as many as are left. *)
(* src: mielin-kernel/src/numa.rs 1115-1120 allocate_fallback *)
Fixpoint fallback_loop (k : nat) (i pages : Z) (s : NumaState) : outcome (option (NodeId * Z) * NumaState) :=
  match k with
  | O => Ret (None, s)
  | S k =>
      let! (r, s) := allocate_on_node_with_locality i pages false s in
      match r with
      | Ok offset => Ret (Some (i, offset), s)
      | Err _ => fallback_loop k (i + 1) pages s
      end
  end.

(* src: mielin-kernel/src/numa.rs 1112-1127 allocate_fallback *)
Definition allocate_fallback (pages : Z) (s : NumaState) : outcome (result (NodeId * Z) NumaError * NumaState) :=
  let! (o, s) := fallback_loop (Z.to_nat (num_online_nodes s)) 0 pages s in
  Ret (match o with Some p => Ok p | None => Err (OutOfMemory 0 pages 0) end, s).

(** [let offset = allocate_on_node_with_locality(..)?; Ok((node_id, offset))]. *)
(* src: mielin-kernel/src/numa.rs 1085-1086 allocate_with_policy *)
Definition allocate_at (id : NodeId) (pages : Z) (is_local : bool) (s : NumaState)
    : outcome (result (NodeId * Z) NumaError * NumaState) :=
  let! (r, s) := allocate_on_node_with_locality id pages is_local s in
  Ret (match r with Ok offset => Ok (id, offset) | Err e => Err e end, s).

(* src: mielin-kernel/src/numa.rs 1073-1109 allocate_with_policy *)
Definition allocate_with_policy (pages : Z) (policy : NumaPolicy) (current_node : option NodeId) (s : NumaState)
    : outcome (result (NodeId * Z) NumaError * NumaState) :=
  if negb (initialized s) then Ret (Err NotInitialized, s) else
  match policy with
  | Local | FirstTouch => allocate_at (default 0 current_node) pages true s
  | Bind id => allocate_at id pages false s
  | Preferred preferred =>
      let! (r, s) := allocate_on_node_with_locality preferred pages true s in
      match r with
      | Ok offset => Ret (Ok (preferred, offset), s)
      | Err _ => allocate_fallback pages s
      end
  | Interleave =>
      let index := interleave_index s in
      let num_nodes := num_online_nodes s in
      let s := set_interleave (wrap64 (index + 1)) s in
      let! id := usize_rem index num_nodes in
      allocate_at id pages false s
  end.

(* src: mielin-kernel/src/numa.rs 1059-1070 allocate *)
Definition allocate (pages : Z) (current_node : option NodeId) (s : NumaState)
    : outcome (result (NodeId * Z) NumaError * NumaState) :=
  if negb (initialized s) then Ret (Err NotInitialized, s) else
  if pages =? 0 then Ret (Err InvalidAllocation, s) else
  allocate_with_policy pages (default_policy s) current_node s.

(* src: mielin-kernel/src/numa.rs 1130-1138 free_on_node *)
Definition free_on_node (id : NodeId) (offset pages : Z) (s : NumaState) : outcome (result () NumaError * NumaState) :=
  if negb (initialized s) then Ret (Err NotInitialized, s) else
  let! r := get_node id s in
  match r with
  | Err e => Ret (Err e, s)
  | Ok node =>
      let! ns := arr_set (nodes s) id (NumaNode.deallocate node offset pages) in
      Ret (Ok (), set_nodes ns s)
  end.

(* src: mielin-kernel/src/numa.rs 1141-1148 set_policy *)
Definition set_policy (policy : NumaPolicy) (s : NumaState) : result () NumaError * NumaState :=
  if negb (initialized s) then (Err NotInitialized, s) else (Ok (), set_default_policy policy s).

(* src: mielin-kernel/src/numa.rs 1160-1177 migrate_pages *)
Definition migrate_pages (from_node to_node : NodeId) (pages : Z) (s : NumaState) : outcome (result () NumaError * NumaState) :=
  if negb (initialized s) then Ret (Err NotInitialized, s) else
  if from_node =? to_node then Ret (Ok (), s) else
  let! rf := get_node from_node s in
  match rf with
  | Err e => Ret (Err e, s)
  | Ok _ =>
      let! rt := get_node to_node s in
      match rt with
      | Err e => Ret (Err e, s)
      | Ok _ =>
          let! s := with_node from_node (set_stats (NodeMemoryStats.record_migration_out pages)) s in
          let! s := with_node to_node (set_stats (NodeMemoryStats.record_migration_in pages)) s in
          Ret (Ok (), s)
      end
  end.
