(* ===== verification/NumaProps.v ===== *)
(** * Properties of the NUMA subsystem

    Where each policy places a request; what the counters of the nodes say over any
    sequence of calls; the blocks that threads get on one node; the closest node. *)

From stdpp Require Import base tactics option list numbers relations.
From S2P Require Import Prelude Numa.
Import NodeMemoryStats(allocations, deallocations, local_allocations, remote_allocations).

(** ** Well-formed states *)

(** The sizes of the arrays of the static. *)
Definition arrays_ok (s : NumaState) : Prop :=
  length (nodes s) = 8%nat ∧ length (distances s) = 8%nat ∧ Forall (λ r, length r = 8%nat) (distances s) ∧
  length (cpu_map s) = 256%nat.

Definition node_ok (i : nat) (nd : NumaNode) : Prop :=
  node_id nd = Z.of_nat i ∧ online nd = true ∧ 0 <= NumaNode.free_pages nd <= U64_MAX ∧ 0 <= alloc_offset nd <= U64_MAX.

(** The subsystem runs with [n] nodes. *)
Record numa_ok (n : nat) (s : NumaState) : Prop := {
  ok_init : initialized s = true;
  ok_arrays : arrays_ok s;
  ok_num : num_online_nodes s = Z.of_nat n ∧ (1 <= n <= 8)%nat;
  ok_nodes : ∀ i nd, (i < n)%nat → nodes s !! i = Some nd → node_ok i nd;
  ok_index : 0 <= interleave_index s <= U64_MAX;
}.

Lemma numa_node n s i : numa_ok n s → (i < n)%nat → ∃ nd, nodes s !! i = Some nd ∧ node_ok i nd.
Proof.
  intros H Hi. destruct (ok_arrays _ _ H) as [Hl _]. pose proof (proj2 (ok_num _ _ H)).
  destruct (lookup_lt_is_Some_2 (nodes s) i) as [nd Hn]; [lia|]. exists nd. split; [done|]. by eapply ok_nodes.
Qed.

Lemma get_node_ok n s i nd :
  numa_ok n s → (i < n)%nat → nodes s !! i = Some nd → get_node (Z.of_nat i) s = Ret (Ok nd).
Proof.
  intros H Hi Hn. pose proof (ok_nodes _ _ H i nd Hi Hn) as (_ & Ho & _).
  unfold get_node. rewrite (ok_init _ _ H), (proj1 (ok_num _ _ H)). simpl.
  destruct (Z.leb_spec (Z.of_nat n) (Z.of_nat i)); [lia|].
  rewrite (arr_get_ok _ _ nd) by (try lia; by rewrite Nat2Z.id). simpl. unfold NumaNode.is_online. by rewrite Ho.
Qed.

Lemma get_node_at n s id nd :
  numa_ok n s → 0 <= id < Z.of_nat n → nodes s !! Z.to_nat id = Some nd → get_node id s = Ret (Ok nd).
Proof. intros H Hi Hn. rewrite <-(Z2Nat.id id) by lia. apply (get_node_ok n); [done|lia|done]. Qed.

Lemma get_node_bad n s id :
  numa_ok n s → Z.of_nat n <= id → get_node id s = Ret (Err (InvalidNodeId id (saturating_sub (Z.of_nat n) 1))).
Proof.
  intros H Hi. unfold get_node. rewrite (ok_init _ _ H), (proj1 (ok_num _ _ H)). simpl.
  by destruct (Z.leb_spec (Z.of_nat n) id); [|lia].
Qed.

(** ** Where policies place requests *)

(** The node when it is one of the [n] and has the pages. *)
Definition fits (s : NumaState) (pages id : Z) : bool :=
  (id <? num_online_nodes s) && match nodes s !! Z.to_nat id with Some nd => pages <=? NumaNode.free_pages nd | None => false end.

Definition only (b : bool) (id : Z) : option Z := if b then Some id else None.

(** Where a request goes, if anywhere: [fit] tells which nodes can take it, [n] is the
    number of nodes and [turn] the index of interleaving. *)
Definition place (fit : Z → bool) (n : nat) (turn : Z) (p : NumaPolicy) (current : option Z) : option Z :=
  match p with
  | Local | FirstTouch => let id := default 0 current in only (fit id) id
  | Bind id => only (fit id) id
  | Preferred id => if fit id then Some id else snd <$> list_find (λ j, fit j = true) (Z.of_nat <$> seq 0 n)
  | Interleave => let id := turn mod Z.of_nat n in only (fit id) id
  end.

(** Whether the allocation counts as local. *)
Definition counted_local (fit : Z → bool) (p : NumaPolicy) : bool :=
  match p with
  | Local | FirstTouch => true
  | Preferred id => fit id
  | Bind _ | Interleave => false
  end.

(** The turn of interleaving moves on, whatever the outcome. *)
Definition next_turn (p : NumaPolicy) (s : NumaState) : NumaState :=
  match p with Interleave => set_interleave (wrap64 (interleave_index s + 1)) s | _ => s end.

(** A node after an allocation. *)
Definition taken (pages : Z) (is_local : bool) (nd : NumaNode) : NumaNode :=
  set_stats (NodeMemoryStats.record_allocation pages is_local) (set_offset (wrap64 (alloc_offset nd + pages)) nd).

Definition named_ok (p : NumaPolicy) (current : option Z) : Prop :=
  match p with Bind id | Preferred id => 0 <= id | _ => True end ∧ 0 <= default 0 current.

Definition put (s : NumaState) (i : nat) (nd : NumaNode) : NumaState := set_nodes (<[i := nd]> (nodes s)) s.

Lemma put_same s i nd : nodes s !! i = Some nd → put s i nd = s.
Proof. intros H. unfold put. rewrite list_insert_id by done. by destruct s. Qed.

Lemma on_node_spec n s id pages loc :
  numa_ok n s → 0 <= id → 0 < pages →
  if fits s pages id
  then ∃ nd, nodes s !! Z.to_nat id = Some nd ∧
    allocate_on_node_with_locality id pages loc s =
      Ret (Ok (alloc_offset nd), put s (Z.to_nat id) (taken pages loc nd))
  else ∃ e, allocate_on_node_with_locality id pages loc s = Ret (Err e, s).
Proof.
  intros H Hid Hp. unfold fits, allocate_on_node_with_locality. rewrite (ok_init _ _ H), (proj1 (ok_num _ _ H)). simpl.
  destruct (Z.eqb_spec pages 0); [lia|]. destruct (Z.ltb_spec id (Z.of_nat n)) as [Hlt|]; simpl.
  2:{ rewrite (get_node_bad n) by done. simpl. eauto. }
  destruct (numa_node n s (Z.to_nat id)) as (nd & Hn & Hok); [done|lia|].
  rewrite Hn, (get_node_at n s id nd) by done. simpl.
  pose proof (proj1 (ok_arrays _ _ H)) as Hl. pose proof (proj2 (ok_num _ _ H)).
  unfold NumaNode.allocate, NumaNode.is_online. destruct Hok as (Hi & -> & _). simpl.
  destruct (Z.leb_spec pages (NumaNode.free_pages nd)), (Z.ltb_spec (NumaNode.free_pages nd) pages); try lia;
    rewrite (arr_set_ok (nodes s)) by lia; simpl; [by eauto|].
  eexists. do 2 f_equal. by apply put_same.
Qed.

(** The loop over the nodes stops at the first that has the pages. *)
Lemma fallback_spec n s pages k i :
  numa_ok n s → 0 < pages →
  match list_find (λ j, fits s pages j = true) (Z.of_nat <$> seq i k) with
  | Some (_, id) => ∃ nd, nodes s !! Z.to_nat id = Some nd ∧
      fallback_loop k (Z.of_nat i) pages s = Ret (Some (id, alloc_offset nd), put s (Z.to_nat id) (taken pages false nd))
  | None => fallback_loop k (Z.of_nat i) pages s = Ret (None, s)
  end.
Proof.
  intros H Hp. revert i. induction k as [|k IH]; intros i; [done|]. cbn [seq fmap list_fmap list_find fallback_loop].
  pose proof (on_node_spec n s (Z.of_nat i) pages false H ltac:(lia) Hp) as Hs.
  destruct (fits s pages (Z.of_nat i)); case_decide; try done; simpl.
  - destruct Hs as (nd & Hn & ->). by exists nd.
  - destruct Hs as (e & ->). simpl. specialize (IH (S i)). rewrite Nat2Z.inj_succ in IH. unfold Z.succ in IH.
    by destruct (list_find _ (Z.of_nat <$> seq (S i) k)) as [[]|].
Qed.

Lemma at_spec n s id pages loc :
  numa_ok n s → 0 <= id → 0 < pages →
  if fits s pages id
  then ∃ nd, nodes s !! Z.to_nat id = Some nd ∧
    allocate_at id pages loc s = Ret (Ok (id, alloc_offset nd), put s (Z.to_nat id) (taken pages loc nd))
  else ∃ e, allocate_at id pages loc s = Ret (Err e, s).
Proof.
  intros H Hid Hp. pose proof (on_node_spec n s id pages loc H Hid Hp) as Hs. unfold allocate_at.
  destruct (fits s pages id); [destruct Hs as (nd & ? & ->)|destruct Hs as (e & ->)]; simpl; eauto.
Qed.

Lemma numa_ok_turn n p s : numa_ok n s → numa_ok n (next_turn p s).
Proof. intros []. destruct p; split; simpl; try done. apply wrap64_range. Qed.

Lemma fits_range n s pages id : numa_ok n s → fits s pages id = true → id < Z.of_nat n.
Proof. intros H. unfold fits. rewrite (proj1 (ok_num _ _ H)). intros [? _]%andb_prop. lia. Qed.

Lemma policy_spec n s pages p current :
  numa_ok n s → 0 < pages → named_ok p current →
  match place (fits s pages) n (interleave_index s) p current with
  | Some id => ∃ nd, nodes s !! Z.to_nat id = Some nd ∧ 0 <= id ∧ fits s pages id = true ∧
      allocate_with_policy pages p current s =
        Ret (Ok (id, alloc_offset nd), next_turn p (put s (Z.to_nat id) (taken pages (counted_local (fits s pages) p) nd)))
  | None => ∃ e, allocate_with_policy pages p current s = Ret (Err e, next_turn p s)
  end.
Proof.
  intros H Hp [Hid Hcur]. unfold allocate_with_policy. rewrite (ok_init _ _ H). cbn [negb].
  assert (∀ id loc, 0 <= id →
    match only (fits s pages id) id with
    | Some j => ∃ nd, nodes s !! Z.to_nat j = Some nd ∧ 0 <= j ∧ fits s pages j = true ∧
        allocate_at id pages loc s = Ret (Ok (j, alloc_offset nd), put s (Z.to_nat j) (taken pages loc nd))
    | None => ∃ e, allocate_at id pages loc s = Ret (Err e, s) end) as Hat.
  { intros id loc Hi. pose proof (at_spec n s id pages loc H Hi Hp) as Hs. unfold only.
    destruct (fits s pages id) eqn:E; [|done]. destruct Hs as (nd & ? & ?). eauto. }
  destruct p as [|id| |id|]; cbn [place next_turn counted_local]; [by apply Hat|by apply Hat|..|by apply Hat].
  - pose proof (ok_num _ _ H) as [Hn Hr]. rewrite Hn. rewrite usize_rem_ok by lia. cbn [obind].
    pose proof (Z.mod_pos_bound (interleave_index s) (Z.of_nat n)).
    pose proof (at_spec n (next_turn Interleave s) (interleave_index s mod Z.of_nat n) pages false
      (numa_ok_turn n Interleave s H) ltac:(lia) Hp) as Hs.
    cbn [next_turn] in Hs. unfold only. unfold fits in *. cbn [num_online_nodes nodes set_interleave] in *.
    destruct (_ && _) eqn:E; [|done]. destruct Hs as (nd & ? & ->). exists nd. split_and!; (done || lia).
  - pose proof (on_node_spec n s id pages true H Hid Hp) as Hs. destruct (fits s pages id) eqn:E.
    + destruct Hs as (nd & ? & ->). eauto 10.
    + destruct Hs as (e & ->). cbn [obind]. unfold allocate_fallback. rewrite (proj1 (ok_num _ _ H)), Nat2Z.id.
      pose proof (fallback_spec n s pages n 0 H Hp) as Hf. change (Z.of_nat 0) with 0 in Hf.
      destruct (list_find _ (Z.of_nat <$> seq 0 n)) as [[j k]|] eqn:El; cbn [fmap option_fmap option_map snd].
      * destruct Hf as (nd & ? & ->). apply list_find_Some in El as (Hj & Hk & _).
        apply list_lookup_fmap_Some in Hj as (x & -> & _). exists nd. split_and!; (done || lia).
      * rewrite Hf. simpl. eauto.
Qed.

(** ** Blocks: the specification *)

Record Block : Type := mkBlock { b_node : Z; b_offset : Z; b_pages : Z }.

Definition pages_on (id : Z) (l : list Block) : Z := sum_by (λ b, if b_node b =? id then b_pages b else 0) l.
Definition blocks_on (id : Z) (l : list Block) : Z := count_if (λ b, b_node b =? id) l.

(** All blocks that were given out, those in use, the policy and the turn. *)
Record Blocks : Type := mkBlocks { given : list Block; live : list Block; sp_policy : NumaPolicy; sp_turn : Z }.

Inductive Call : Type :=
| COnNode (id pages : Z) (loc : bool)
| CDefault (pages : Z) (current : option Z)
| CPolicy (pages : Z) (p : NumaPolicy) (current : option Z)
| CFree (k : nat)
| CSetPolicy (p : NumaPolicy)
| CDistance (from to distance : Z)
| CMigrate (from to pages : Z).

(** A block or a failure, or whether the call succeeded. *)
Inductive Answer : Type := ABlock (o : option (Z * Z)) | ADone (ok : bool).

Definition policy_named (p : NumaPolicy) : Prop := match p with Bind id | Preferred id => 0 <= id | _ => True end.

Definition call_ok (c : Call) : Prop :=
  match c with
  | COnNode id pages _ => 0 <= id ∧ 0 <= pages
  | CDefault pages cur => 0 <= pages ∧ 0 <= default 0 cur
  | CPolicy pages p cur => 0 <= pages ∧ policy_named p ∧ 0 <= default 0 cur
  | CFree _ => True
  | CSetPolicy p => policy_named p
  | CDistance f t d => 0 <= f ∧ 0 <= t ∧ is_byte d
  | CMigrate f t pages => 0 <= f ∧ 0 <= t ∧ 0 <= pages
  end.

(** The pages a call asks for. *)
Definition asked (c : Call) : Z :=
  match c with COnNode _ pages _ | CDefault pages _ | CPolicy pages _ _ => pages | _ => 0 end.

Section spec.
Context (n : nat) (cap : Z).

(** A node can take a request when its pages are not all in use. *)
Definition room (b : Blocks) (pages id : Z) : bool := (id <? Z.of_nat n) && (pages <=? cap - pages_on id (live b)).

Definition give (b : Blocks) (pages : Z) (o : option Z) : Answer * Blocks :=
  match o with
  | None => (ABlock None, b)
  | Some id =>
      let x := mkBlock id (pages_on id (given b)) pages in
      (ABlock (Some (id, b_offset x)), mkBlocks (given b ++ [x]) (live b ++ [x]) (sp_policy b) (sp_turn b))
  end.

Definition spec_policy (pages : Z) (p : NumaPolicy) (current : option Z) (b : Blocks) : Answer * Blocks :=
  let '(a, b') := if pages =? 0 then (ABlock None, b) else give b pages (place (room b pages) n (sp_turn b) p current) in
  (a, match p with Interleave => mkBlocks (given b') (live b') (sp_policy b') (wrap64 (sp_turn b' + 1)) | _ => b' end).

Definition spec_call (c : Call) (b : Blocks) : Answer * Blocks :=
  match c with
  | COnNode id pages _ => give b pages (only (negb (pages =? 0) && room b pages id) id)
  | CDefault pages cur => if pages =? 0 then (ABlock None, b) else spec_policy pages (sp_policy b) cur b
  | CPolicy pages p cur => spec_policy pages p cur b
  | CFree k => (ADone (bool_decide (k < length (live b))%nat), mkBlocks (given b) (delete k (live b)) (sp_policy b) (sp_turn b))
  | CSetPolicy p => (ADone true, mkBlocks (given b) (live b) p (sp_turn b))
  | CDistance f t _ => (ADone ((f <? Z.of_nat n) && (t <? Z.of_nat n)), b)
  | CMigrate f t _ => (ADone ((f =? t) || (f <? Z.of_nat n) && (t <? Z.of_nat n)), b)
  end.

Fixpoint spec_calls (cs : list Call) (b : Blocks) : list Answer * Blocks :=
  match cs with
  | [] => ([], b)
  | c :: cs => let '(a, b) := spec_call c b in let '(l, b) := spec_calls cs b in (a :: l, b)
  end.
End spec.

(** ** The calls on the code

    The caller keeps the blocks it got, and frees one of them. *)
Definition to_answer (r : result (Z * Z) NumaError) : option (Z * Z) := match r with Ok p => Some p | Err _ => None end.
Definition succeeded {A} (r : result A NumaError) : bool := match r with Ok _ => true | Err _ => false end.

Definition keep (pages : Z) (o : option (Z * Z)) (l : list Block) : list Block :=
  match o with Some (id, off) => l ++ [mkBlock id off pages] | None => l end.

Definition code_call (c : Call) (sl : NumaState * list Block) : outcome (Answer * (NumaState * list Block)) :=
  let '(s, l) := sl in
  match c with
  | COnNode id pages loc =>
      let! (r, s) := allocate_on_node_with_locality id pages loc s in
      let o := match r with Ok off => Some (id, off) | Err _ => None end in
      Ret (ABlock o, (s, keep pages o l))
  | CDefault pages cur =>
      let! (r, s) := allocate pages cur s in Ret (ABlock (to_answer r), (s, keep pages (to_answer r) l))
  | CPolicy pages p cur =>
      let! (r, s) := allocate_with_policy pages p cur s in Ret (ABlock (to_answer r), (s, keep pages (to_answer r) l))
  | CFree k =>
      match l !! k with
      | Some b => let! (r, s) := free_on_node (b_node b) (b_offset b) (b_pages b) s in Ret (ADone (succeeded r), (s, delete k l))
      | None => Ret (ADone false, (s, l))
      end
  | CSetPolicy p => let '(r, s) := set_policy p s in Ret (ADone (succeeded r), (s, l))
  | CDistance f t d => let! (r, s) := set_distance f t d s in Ret (ADone (succeeded r), (s, l))
  | CMigrate f t pages => let! (r, s) := migrate_pages f t pages s in Ret (ADone (succeeded r), (s, l))
  end.

Fixpoint code_calls (cs : list Call) (sl : NumaState * list Block) : outcome (list Answer * (NumaState * list Block)) :=
  match cs with
  | [] => Ret ([], sl)
  | c :: cs =>
      let! (a, sl) := code_call c sl in
      let! (l, sl) := code_calls cs sl in
      Ret (a :: l, sl)
  end.

(** *** Blocks stay apart *)

(** Of two blocks of a node, the earlier one lies below the later one. *)
Definition apart (x y : Block) : Prop := b_node x = b_node y → b_offset x + b_pages x <= b_offset y.

Lemma pairs_snoc {A} (R : A → A → Prop) l x : ForallOrdPairs R (l ++ [x]) ↔ ForallOrdPairs R l ∧ Forall (λ y, R y x) l.
Proof.
  induction l as [|y l IH]; cbn [app]; split.
  - intros _. split; constructor.
  - intros _. repeat constructor.
  - intros Hp. inversion Hp as [|? ? Hy Hl]; subst. apply IH in Hl as [Hl Hx].
    apply Forall_app in Hy as [Hy1 Hy2]. apply Forall_cons in Hy2 as [Hyx _].
    split; [by apply FOP_cons|by apply Forall_cons].
  - intros [Hp Hx]. inversion Hp as [|? ? Hy Hl]; subst. apply Forall_cons in Hx as [Hyx Hx]. constructor; [|by apply IH].
    apply Forall_app. split; [done|]. by apply Forall_singleton.
Qed.

Lemma forall_sublist {A} (P : A → Prop) l k : l `sublist_of` k → Forall P k → Forall P l.
Proof. induction 1; inversion 1; subst; [done|constructor|]; auto. Qed.

Lemma pairs_sublist {A} (R : A → A → Prop) l k : l `sublist_of` k → ForallOrdPairs R k → ForallOrdPairs R l.
Proof.
  induction 1 as [|x l k Hs IH|x l k Hs IH]; intros Hp; [done|inversion Hp; subst..].
  - constructor; [by eapply forall_sublist|by apply IH].
  - by apply IH.
Qed.

Lemma pages_on_snoc id l x : pages_on id (l ++ [x]) = pages_on id l + (if b_node x =? id then b_pages x else 0).
Proof. unfold pages_on. rewrite sum_by_app, sum_by_cons. simpl. lia. Qed.

Lemma blocks_on_snoc id l x : blocks_on id (l ++ [x]) = blocks_on id l + (if b_node x =? id then 1 else 0).
Proof. unfold blocks_on. rewrite count_if_app, count_if_cons. change (count_if _ []) with 0. lia. Qed.

Lemma pages_on_delete id l k x :
  l !! k = Some x → pages_on id (delete k l) = pages_on id l - (if b_node x =? id then b_pages x else 0).
Proof.
  intros Hk. rewrite <-(take_drop_middle l k x Hk) at 2. rewrite delete_take_drop. unfold pages_on.
  rewrite !sum_by_app, sum_by_cons. lia.
Qed.

Lemma blocks_on_delete id l k x :
  l !! k = Some x → blocks_on id (delete k l) = blocks_on id l - (if b_node x =? id then 1 else 0).
Proof.
  intros Hk. rewrite <-(take_drop_middle l k x Hk) at 2. rewrite delete_take_drop. unfold blocks_on.
  rewrite !count_if_app, count_if_cons. lia.
Qed.

Lemma blocks_on_sublist id l k : l `sublist_of` k → blocks_on id l <= blocks_on id k.
Proof. unfold blocks_on. induction 1; rewrite ?count_if_cons; [done|..]; case_bool; lia. Qed.

Lemma with_node_put s i nd f :
  arrays_ok s → (i < 8)%nat → nodes s !! i = Some nd → with_node (Z.of_nat i) f s = Ret (put s i (f nd)).
Proof.
  intros [Hl _] Hi Hnd. unfold with_node. rewrite (arr_get_ok _ _ nd) by (rewrite ?Nat2Z.id; done || lia). cbn [obind].
  rewrite arr_set_ok by lia. cbn [obind]. by rewrite Nat2Z.id.
Qed.

Lemma store_ok m i j d :
  length m = 8%nat → Forall (λ r, length r = 8%nat) m → 0 <= i < 8 → 0 <= j < 8 →
  ∃ row, m !! Z.to_nat i = Some row ∧
    DistanceMatrix.store i j d m = Ret (<[Z.to_nat i := <[Z.to_nat j := d]> row]> m).
Proof.
  intros Hl Hr Hi Hj. destruct (arr_get_range m i) as (row & Hrow & E); [lia|]. exists row. split; [done|].
  unfold DistanceMatrix.store. rewrite E. cbn [obind]. pose proof (Forall_lookup_1 _ _ _ _ Hr Hrow). simpl in *.
  rewrite arr_set_ok by lia. cbn [obind]. by rewrite arr_set_ok by lia.
Qed.

Lemma store_shape m i j d :
  length m = 8%nat → Forall (λ r, length r = 8%nat) m → 0 <= i < 8 → 0 <= j < 8 →
  returns (DistanceMatrix.store i j d m) (λ m', length m' = 8%nat ∧ Forall (λ r, length r = 8%nat) m').
Proof.
  intros Hl Hr Hi Hj. destruct (store_ok m i j d) as (row & Hrow & ->); [done..|]. simpl.
  rewrite length_insert. split; [done|]. apply Forall_insert; [done|]. rewrite length_insert. by apply (Forall_lookup_1 _ _ _ _ Hr Hrow).
Qed.

Section refine.
Context (n : nat) (cap : Z).
Hypothesis Hn : (1 <= n <= 8)%nat.
Hypothesis Hcap : 0 <= cap <= U64_MAX.

(** [total] bounds the pages that were asked for so far. *)
Record wf (total : Z) (b : Blocks) : Prop := {
  wf_sub : live b `sublist_of` given b;
  wf_apart : ForallOrdPairs apart (given b);
  wf_block : Forall (λ x, 0 <= b_node x < Z.of_nat n ∧ 0 <= b_offset x ∧ 0 < b_pages x ∧
                          b_offset x + b_pages x <= pages_on (b_node x) (given b)) (given b);
  wf_cap : ∀ id, pages_on id (live b) <= cap;
  wf_total : ∀ id, pages_on id (given b) <= total;
  wf_policy : policy_named (sp_policy b);
  wf_turn : 0 <= sp_turn b <= U64_MAX;
}.

Lemma wf_mono t t' b : t <= t' → wf t b → wf t' b.
Proof. intros Ht []. split; try done. intros id. specialize (wf_total0 id). lia. Qed.

Lemma pages_nonneg id l : Forall (λ x, 0 < b_pages x) l → 0 <= pages_on id l.
Proof.
  intros H. apply sum_by_nonneg. intros x Hx. apply (proj1 (Forall_forall _ _) H) in Hx. simpl in Hx. case_bool; lia.
Qed.

Lemma given_pos t b : wf t b → Forall (λ x, 0 < b_pages x) (given b).
Proof. intros H. eapply Forall_impl; [apply (wf_block _ _ H)|]. simpl. tauto. Qed.

Lemma live_pos t b : wf t b → Forall (λ x, 0 < b_pages x) (live b).
Proof. intros H. eapply forall_sublist; [apply (wf_sub _ _ H)|by eapply given_pos]. Qed.

Lemma give_wf t b pages id :
  wf t b → 0 <= id → 0 < pages → room n cap b pages id = true → wf (t + pages) (snd (give b pages (Some id))).
Proof.
  intros H Hid Hp [Hlt Hle]%andb_prop. simpl. set (x := mkBlock id (pages_on id (given b)) pages).
  assert (∀ j, pages_on j (given b) <= pages_on j (given b ++ [x])) as Hmono.
  { intros j. rewrite pages_on_snoc. simpl. case_bool; lia. }
  pose proof (pages_nonneg id _ (given_pos _ _ H)). destruct H as [Hs Ha Hb Hc Ht Hpol Htu]. split; simpl; try done.
  - by apply sublist_app.
  - apply pairs_snoc. split; [done|]. eapply Forall_impl; [apply Hb|]. intros y (_ & _ & _ & Hy) Heq. simpl in *. by rewrite <-Heq.
  - apply Forall_app. split.
    + eapply Forall_impl; [apply Hb|]. simpl. intros y (? & ? & ? & ?). specialize (Hmono (b_node y)). lia.
    + apply Forall_singleton. simpl. rewrite pages_on_snoc. simpl. rewrite Z.eqb_refl. lia.
  - intros j. rewrite pages_on_snoc. simpl. specialize (Hc j). case_bool; [|lia]. subst. lia.
  - intros j. rewrite pages_on_snoc. simpl. specialize (Ht j). case_bool; lia.
Qed.

Lemma place_some fit turn p cur id : named_ok p cur → 0 <= turn → place fit n turn p cur = Some id → 0 <= id ∧ fit id = true.
Proof.
  intros [Hp Hc] Ht. unfold place, only. destruct p as [|k| |k|]; simpl in Hp.
  1,2,5: destruct (fit _) eqn:E; [|done]; by intros [= <-].
  - destruct (fit _) eqn:E; [|done]. intros [= <-]. split; [|done]. pose proof (Z.mod_pos_bound turn (Z.of_nat n)). lia.
  - destruct (fit k) eqn:E; [by intros [= <-]|]. intros ([j x] & (Hj & Hx & _)%list_find_Some & ->)%fmap_Some.
    apply list_lookup_fmap_Some in Hj as (y & -> & _). simpl. split; [lia|done].
Qed.

Lemma place_ext f g turn p cur :
  named_ok p cur → 0 <= turn → (∀ id, 0 <= id → f id = g id) → place f n turn p cur = place g n turn p cur.
Proof.
  intros [Hp Hc] Ht Hfg. unfold place, only. destruct p as [|k| |k|]; simpl in Hp; rewrite ?Hfg by done; try done.
  - rewrite Hfg; [done|]. pose proof (Z.mod_pos_bound turn (Z.of_nat n)). lia.
  - destruct (g k); [done|]. f_equal. rewrite !list_find_fmap. f_equal. apply list_find_ext.
    intros x. simpl. by rewrite Hfg by lia.
Qed.
(** *** The nodes and the blocks *)

(** What a node's counters say of the blocks. *)
Record node_rel (i : nat) (nd : NumaNode) (b : Blocks) : Prop := {
  nr_capacity : capacity_pages nd = cap ∧ NodeMemoryStats.total_pages (stats nd) = cap;
  nr_free : NumaNode.free_pages nd = cap - pages_on (Z.of_nat i) (live b);
  nr_offset : alloc_offset nd = pages_on (Z.of_nat i) (given b);
  nr_allocs : allocations (stats nd) = blocks_on (Z.of_nat i) (given b);
  nr_deallocs : deallocations (stats nd) = blocks_on (Z.of_nat i) (given b) - blocks_on (Z.of_nat i) (live b);
  nr_locality : local_allocations (stats nd) + remote_allocations (stats nd) = allocations (stats nd) ∧
                0 <= local_allocations (stats nd) ∧ 0 <= remote_allocations (stats nd);
}.

Record rel (s : NumaState) (b : Blocks) : Prop := {
  rel_ok : numa_ok n s;
  rel_policy : default_policy s = sp_policy b;
  rel_turn : interleave_index s = sp_turn b;
  rel_nodes : ∀ i nd, (i < n)%nat → nodes s !! i = Some nd → node_rel i nd b;
}.

Lemma blocks_le_pages id l : Forall (λ x, 0 < b_pages x) l → 0 <= blocks_on id l <= pages_on id l.
Proof.
  unfold blocks_on, pages_on. induction 1 as [|x l Hx _ IH]; [done|]. rewrite count_if_cons, sum_by_cons. case_bool; lia.
Qed.

Lemma fits_room t s b pages id : wf t b → rel s b → 0 <= id → fits s pages id = room n cap b pages id.
Proof.
  intros Hw Hr Hid. unfold fits, room. rewrite (proj1 (ok_num _ _ (rel_ok _ _ Hr))).
  destruct (Z.ltb_spec id (Z.of_nat n)); [|done]. simpl.
  destruct (numa_node n s (Z.to_nat id)) as (nd & Hnd & _); [apply Hr|lia|]. rewrite Hnd.
  rewrite (nr_free _ _ _ (rel_nodes _ _ Hr (Z.to_nat id) nd ltac:(lia) Hnd)), Z2Nat.id by done. done.
Qed.

Lemma numa_ok_put s i nd : numa_ok n s → node_ok i nd → numa_ok n (put s i nd).
Proof.
  intros [Hi [Hl Ha] Hnum Hns Hix] Hnd. split; try done.
  - split; [|done]. simpl. by rewrite length_insert.
  - intros j x Hj. simpl. intros [(-> & -> & _)|[_ Hx]]%list_lookup_insert_Some; [done|by apply Hns].
Qed.

(** One node and its part of the blocks change. *)
Lemma rel_put s b b' i nd :
  rel s b → node_ok i nd → node_rel i nd b' → sp_policy b' = sp_policy b → sp_turn b' = sp_turn b →
  (∀ j, j ≠ Z.of_nat i → pages_on j (live b') = pages_on j (live b) ∧ pages_on j (given b') = pages_on j (given b) ∧
        blocks_on j (live b') = blocks_on j (live b) ∧ blocks_on j (given b') = blocks_on j (given b)) →
  rel (put s i nd) b'.
Proof.
  intros [Hok Hp Ht Hns] Hnd Hnr Hp' Ht' Hj. split; [by apply numa_ok_put|simpl; congruence..|].
  intros j x Hjn. simpl. intros [(-> & -> & _)|[Hne Hx]]%list_lookup_insert_Some; [done|].
  destruct (Hns j x Hjn Hx), (Hj (Z.of_nat j)) as (E1 & E2 & E3 & E4); [lia|].
  split; rewrite ?E1, ?E2, ?E3, ?E4; done.
Qed.

Lemma rel_give t s b pages loc id nd :
  wf t b → t + pages <= U64_MAX → rel s b → 0 <= id → 0 < pages → room n cap b pages id = true →
  nodes s !! Z.to_nat id = Some nd →
  rel (put s (Z.to_nat id) (taken pages loc nd)) (snd (give b pages (Some id))).
Proof.
  intros Hw Ht Hr Hid Hp Hroom Hnd. pose proof Hroom as [Hlt Hle]%andb_prop.
  pose proof (give_wf t b pages id Hw Hid Hp Hroom) as Hw'.
  pose proof (rel_nodes _ _ Hr (Z.to_nat id) nd ltac:(lia) Hnd) as [Hc Hf Ho Ha Hd Hl]. rewrite Z2Nat.id in * by done.
  pose proof (ok_nodes _ _ (rel_ok _ _ Hr) (Z.to_nat id) nd ltac:(lia) Hnd) as (Hni & Hon & _).
  pose proof (wf_total _ _ Hw' id) as Hg. pose proof (blocks_le_pages id _ (given_pos _ _ Hw')) as Hb.
  pose proof (blocks_le_pages id _ (given_pos _ _ Hw)). pose proof (pages_nonneg id _ (live_pos _ _ Hw)).
  simpl in Hg, Hb. rewrite pages_on_snoc in *. rewrite blocks_on_snoc in *. simpl in Hg, Hb. rewrite Z.eqb_refl in *.
  apply (rel_put s b); [done|..|done|done|].
  - unfold node_ok, NumaNode.free_pages, taken in *. destruct loc; simpl; split_and!; done || apply wrap64_range.
  - split; unfold NumaNode.free_pages, taken in *; destruct loc; simpl; rewrite ?Z2Nat.id, ?pages_on_snoc, ?blocks_on_snoc by done; simpl;
      rewrite ?Z.eqb_refl, ?Ho, ?Hf, ?Ha, ?Hd, ?wrap64_small by lia; lia.
  - intros j Hj. simpl. rewrite Z2Nat.id in Hj by done. rewrite !pages_on_snoc, !blocks_on_snoc. simpl.
    destruct (Z.eqb_spec id j); [done|lia].
Qed.

(** *** Every call *)

(** What a call on [s] with the blocks [b] leaves, and what it answers. *)
Definition simulates (t : Z) (m : outcome (Answer * (NumaState * list Block))) (r : Answer * Blocks) : Prop :=
  ∃ s', m = Ret (r.1, (s', live r.2)) ∧ wf t r.2 ∧ rel s' r.2.

Lemma offset_given s b id nd :
  rel s b → 0 <= id < Z.of_nat n → nodes s !! Z.to_nat id = Some nd → alloc_offset nd = pages_on id (given b).
Proof. intros Hr Hid Hnd. rewrite (nr_offset _ _ _ (rel_nodes _ _ Hr (Z.to_nat id) nd ltac:(lia) Hnd)). by rewrite Z2Nat.id by lia. Qed.

Lemma turn_sim t s b p :
  wf t b → rel s b →
  let b' := match p with Interleave => mkBlocks (given b) (live b) (sp_policy b) (wrap64 (sp_turn b + 1)) | _ => b end in
  wf t b' ∧ rel (next_turn p s) b'.
Proof.
  intros Hw Hr. destruct p; try done. split.
  - destruct Hw. split; try done. apply wrap64_range.
  - pose proof Hr as [Hok ? Ht Hns]. split; [by apply (numa_ok_turn n Interleave)|done|simpl; by rewrite Ht|].
    intros i nd Hi Hnd. by destruct (Hns i nd Hi Hnd).
Qed.

Lemma policy_sim t s b pages p cur :
  wf t b → rel s b → named_ok p cur → 0 < pages → t + pages <= U64_MAX →
  simulates (t + pages) (let! (r, s) := allocate_with_policy pages p cur s in Ret (ABlock (to_answer r), (s, keep pages (to_answer r) (live b))))
    (spec_policy n cap pages p cur b).
Proof.
  intros Hw Hr Hp Hpos Ht. unfold spec_policy. destruct (Z.eqb_spec pages 0); [lia|].
  pose proof (policy_spec n s pages p cur (rel_ok _ _ Hr) Hpos Hp) as Hs. rewrite (rel_turn _ _ Hr) in Hs.
  rewrite (place_ext _ (room n cap b pages)) in Hs;
    [|done|apply (wf_turn _ _ Hw)|intros; by eapply fits_room].
  destruct (place _ _ _ _ _) as [id|] eqn:Hpl.
  - apply place_some in Hpl as [Hid Hroom]; [|done|apply (wf_turn _ _ Hw)].
    destruct Hs as (nd & Hnd & _ & Hfit & ->). pose proof (fits_range n s pages id (rel_ok _ _ Hr) Hfit).
    cbn [obind to_answer keep]. rewrite (offset_given s b id nd) by done.
    destruct (turn_sim (t + pages) (put s (Z.to_nat id) (taken pages (counted_local (fits s pages) p) nd))
      (snd (give b pages (Some id))) p) as [? ?]; [by apply give_wf|by eapply rel_give|].
    eexists. split; [|split; done]. by destruct p.
  - destruct Hs as (e & ->). destruct (turn_sim t s b p Hw Hr) as [? ?].
    eexists. cbn [obind to_answer keep give]. split; [by destruct p|]. split; [eapply wf_mono; [|done]; lia|done].
Qed.

Lemma zero_sim t s b p cur :
  wf t b → rel s b → named_ok p cur →
  simulates t (let! (r, s) := allocate_with_policy 0 p cur s in Ret (ABlock (to_answer r), (s, keep 0 (to_answer r) (live b))))
    (spec_policy n cap 0 p cur b).
Proof.
  intros Hw Hr Hp. destruct (turn_sim t s b p Hw Hr) as [Hw' Hr']. exists (next_turn p s).
  split; [|by destruct p]. unfold allocate_with_policy. rewrite (ok_init _ _ (rel_ok _ _ Hr)). cbn [negb].
  assert (∀ s id loc, initialized s = true → allocate_on_node_with_locality id 0 loc s = Ret (Err InvalidAllocation, s)) as H0.
  { intros ? ? ? Hi. unfold allocate_on_node_with_locality. by rewrite Hi. }
  pose proof (ok_init _ _ (rel_ok _ _ Hr)) as Hi. destruct (ok_num _ _ (rel_ok _ _ Hr)) as [Hnum _].
  destruct p; unfold allocate_at; try (by rewrite H0).
  - rewrite Hnum. rewrite usize_rem_ok by lia. cbn [obind]. by rewrite H0.
  - rewrite H0 by done. cbn [obind]. unfold allocate_fallback.
    assert (∀ k i, fallback_loop k i 0 s = Ret (None, s)) as ->; [|done].
    induction k as [|k IH]; intros i; [done|]. cbn [fallback_loop]. rewrite H0 by done. apply IH.
Qed.

Lemma live_block t b x :
  wf t b → x ∈ live b → 0 <= b_node x < Z.of_nat n ∧ 0 < b_pages x.
Proof.
  intros Hw Hx. pose proof (forall_sublist _ _ _ (wf_sub _ _ Hw) (wf_block _ _ Hw)) as Hf.
  apply (proj1 (Forall_forall _ _) Hf) in Hx. tauto.
Qed.

Lemma free_sim t s b k : wf t b → t <= U64_MAX → rel s b → simulates t (code_call (CFree k) (s, live b)) (spec_call n cap (CFree k) b).
Proof.
  intros Hw Ht Hr. unfold code_call, spec_call. destruct (live b !! k) as [x|] eqn:Hk.
  2:{ exists s. apply lookup_ge_None in Hk. rewrite bool_decide_eq_false_2, delete_take_drop, take_ge, drop_ge, app_nil_r by lia. by destruct b. }
  rewrite bool_decide_eq_true_2 by (by eapply lookup_lt_Some).
  destruct (live_block t b x Hw) as [Hx Hpos]; [by eapply list_elem_of_lookup_2|].
  destruct (numa_node n s (Z.to_nat (b_node x))) as (nd & Hnd & Hok); [apply Hr|lia|].
  unfold free_on_node. rewrite (ok_init _ _ (rel_ok _ _ Hr)). cbn [negb]. rewrite (get_node_at n s _ nd) by (done || apply Hr).
  cbn [obind]. pose proof (proj1 (ok_arrays _ _ (rel_ok _ _ Hr))).
  rewrite arr_set_ok by lia. cbn [obind]. eexists. split; [done|].
  pose proof (blocks_on_delete (b_node x) _ k x Hk) as Eb. pose proof (pages_on_delete (b_node x) _ k x Hk) as Ep.
  rewrite Z.eqb_refl in *. pose proof (blocks_on_sublist (b_node x) _ _ (wf_sub _ _ Hw)) as Hsub.
  assert (wf t (mkBlocks (given b) (delete k (live b)) (sp_policy b) (sp_turn b))) as Hw'.
  { destruct Hw as [Hs Ha Hb Hc Htot Hpol Htu]. split; simpl; try done.
    - etrans; [apply sublist_delete|done].
    - intros id. rewrite (pages_on_delete id _ k x Hk). specialize (Hc id). case_bool; lia. }
  pose proof (blocks_le_pages (b_node x) _ (given_pos _ _ Hw)). pose proof (wf_total _ _ Hw (b_node x)).
  pose proof (blocks_le_pages (b_node x) _ (live_pos _ _ Hw')). pose proof (wf_cap _ _ Hw (b_node x)). simpl in *.
  split; [done|]. pose proof (rel_nodes _ _ Hr (Z.to_nat (b_node x)) nd ltac:(lia) Hnd) as [Hc Hf Ho Ha Hd Hl].
  rewrite Z2Nat.id in * by lia. apply (rel_put s b); [done|..|done|done|].
  - unfold node_ok, NumaNode.free_pages, NumaNode.deallocate in *. simpl. destruct Hok as (? & ? & ? & ?).
    split_and!; try done; try lia; apply wrap64_range.
  - split; unfold NumaNode.free_pages, NumaNode.deallocate in *; simpl; rewrite ?Z2Nat.id by lia;
      rewrite ?Hf, ?Hd, ?Eb, ?Ep, ?wrap64_small by lia; lia.
  - intros j Hj. simpl. rewrite Z2Nat.id in Hj by lia. rewrite (pages_on_delete j _ k x Hk), (blocks_on_delete j _ k x Hk).
    destruct (Z.eqb_spec (b_node x) j); [done|lia].
Qed.

(** The counters of migration are not those of the relation. *)
Lemma rel_migrated s b i nd f :
  rel s b → (i < n)%nat → nodes s !! i = Some nd → (∀ st, ∃ a c, f st = NodeMemoryStats.mk (NodeMemoryStats.total_pages st)
    (NodeMemoryStats.free_pages st) (allocations st) (deallocations st) (local_allocations st) (remote_allocations st) a c) →
  rel (put s i (set_stats f nd)) b.
Proof.
  intros Hr Hi Hnd Hf. destruct (Hf (stats nd)) as (a & c & E).
  apply (rel_put s b); [done|..|done|done|done].
  - pose proof (ok_nodes _ _ (rel_ok _ _ Hr) i nd Hi Hnd) as Hok. unfold node_ok, NumaNode.free_pages in *. simpl. by rewrite E.
  - destruct (rel_nodes _ _ Hr i nd Hi Hnd). split; unfold NumaNode.free_pages in *; simpl; by rewrite ?E.
Qed.

Lemma migrate_sim t s b from to pages :
  wf t b → rel s b → 0 <= from → 0 <= to →
  simulates t (code_call (CMigrate from to pages) (s, live b)) (spec_call n cap (CMigrate from to pages) b).
Proof.
  intros Hw Hr Hf Ht. unfold code_call, spec_call, migrate_pages. pose proof (rel_ok _ _ Hr) as Hok.
  rewrite (ok_init _ _ Hok). cbn [negb]. destruct (Z.eqb_spec from to) as [|Hne]; [by exists s|].
  destruct (Z.ltb_spec from (Z.of_nat n)); [|rewrite (get_node_bad n) by done; by exists s].
  destruct (numa_node n s (Z.to_nat from)) as (nf & Hnf & _); [done|lia|]. rewrite (get_node_at n s _ nf) by done. cbn [obind].
  destruct (Z.ltb_spec to (Z.of_nat n)); [|rewrite (get_node_bad n) by done; by exists s].
  destruct (numa_node n s (Z.to_nat to)) as (nt & Hnt & _); [done|lia|]. rewrite (get_node_at n s _ nt) by done. cbn [obind].
  rewrite <-(Z2Nat.id from) at 1 by done. rewrite (with_node_put s _ nf) by (apply Hok || done || lia). cbn [obind].
  assert (rel (put s (Z.to_nat from) (set_stats (NodeMemoryStats.record_migration_out pages) nf)) b) as Hr'.
  { apply rel_migrated; [done|lia|done|]. intros st. by eexists _, _. }
  rewrite <-(Z2Nat.id to) at 1 by done. rewrite (with_node_put _ _ nt); [|apply (rel_ok _ _ Hr')|lia|].
  2:{ simpl. rewrite list_lookup_insert_ne by lia. done. }
  cbn [obind]. eexists. split; [done|]. split; [done|]. apply rel_migrated; [done|lia|..].
  - simpl. rewrite list_lookup_insert_ne by lia. done.
  - intros st. by eexists _, _.
Qed.

Lemma distance_sim t s b from to d :
  wf t b → rel s b → 0 <= from → 0 <= to →
  simulates t (code_call (CDistance from to d) (s, live b)) (spec_call n cap (CDistance from to d) b).
Proof.
  intros Hw Hr Hf Ht. unfold code_call, spec_call, set_distance. pose proof (rel_ok _ _ Hr) as Hok.
  rewrite (ok_init _ _ Hok), (proj1 (ok_num _ _ Hok)). cbn [negb].
  destruct (Z.ltb_spec from (Z.of_nat n)), (Z.leb_spec (Z.of_nat n) from); try lia; [|by exists s].
  destruct (Z.ltb_spec to (Z.of_nat n)), (Z.leb_spec (Z.of_nat n) to); try lia; [|by exists s]. cbn [orb andb].
  destruct (ok_arrays _ _ Hok) as (Hl & Hd & Hrows & Hm). unfold DistanceMatrix.set, MAX_NUMA_NODES.
  destruct (Z.ltb_spec from 8), (Z.ltb_spec to 8); try lia. cbn [andb].
  destruct (proj1 (returns_ret _ _) (store_shape (distances s) from to d Hd Hrows ltac:(lia) ltac:(lia))) as (m & -> & ? & ?).
  cbn [obind]. eexists. split; [done|]. split; [done|]. destruct Hr as [[Hi Ha Hnum Hns Hix] Hp Htu Hnr].
  split; [split; try done|done..].
Qed.

Lemma call_sim t s b c :
  wf t b → rel s b → 0 <= t → call_ok c → t + asked c <= U64_MAX →
  simulates (t + asked c) (code_call c (s, live b)) (spec_call n cap c b).
Proof.
  intros Hw Hr Ht Hc Hle. destruct c as [id pages loc|pages cur|pages p cur|k|p|f g d|f g pages]; cbn [asked] in *;
    rewrite ?Z.add_0_r in *.
  - destruct Hc as [Hid Hp]. unfold code_call, spec_call. pose proof (rel_ok _ _ Hr) as Hok.
    destruct (Z.eqb_spec pages 0) as [->|Hne]; cbn [negb andb only].
    { unfold allocate_on_node_with_locality. rewrite (ok_init _ _ Hok). cbn. exists s. by rewrite Z.add_0_r. }
    pose proof (on_node_spec n s id pages loc Hok Hid ltac:(lia)) as Hs. rewrite (fits_room t s b) in Hs by done.
    destruct (room n cap b pages id) eqn:Hroom; cbn [only].
    + destruct Hs as (nd & Hnd & ->). pose proof Hroom as [Hlt _]%andb_prop. cbn [obind keep].
      rewrite (offset_given s b id nd) by (done || lia). eexists. split; [done|].
      split; [apply give_wf|eapply rel_give]; by try lia.
    + destruct Hs as (e & ->). exists s. split; [done|]. split; [|done]. eapply wf_mono; [|done]. lia.
  - destruct Hc as [Hp Hcur]. unfold code_call, spec_call, allocate. rewrite (ok_init _ _ (rel_ok _ _ Hr)). cbn [negb].
    destruct (Z.eqb_spec pages 0) as [->|Hne]; [exists s; by rewrite Z.add_0_r|].
    rewrite (rel_policy _ _ Hr). apply policy_sim; [done|done| |lia|done]. split; [apply Hw|done].
  - destruct Hc as (Hp & Hn1 & Hcur). destruct (decide (pages = 0)) as [->|].
    + rewrite Z.add_0_r. by apply zero_sim.
    + apply policy_sim; by try lia.
  - by apply free_sim.
  - unfold code_call, spec_call, set_policy. rewrite (ok_init _ _ (rel_ok _ _ Hr)). eexists. split; [done|].
    split; [by destruct Hw|]. destruct Hr as [[] ? ? Hnr]. split; [done..|]. intros i nd Hi Hnd. by destruct (Hnr i nd Hi Hnd).
  - destruct Hc as (? & ? & _). by apply distance_sim.
  - destruct Hc as (? & ? & _). by apply migrate_sim.
Qed.

Lemma asked_nonneg c : call_ok c → 0 <= asked c.
Proof. destruct c; simpl; intros Hc; try lia; apply Hc. Qed.

Lemma calls_sim t s b cs :
  wf t b → rel s b → 0 <= t → Forall call_ok cs → t + sum_by asked cs <= U64_MAX →
  ∃ s', code_calls cs (s, live b) = Ret ((spec_calls n cap cs b).1, (s', live (spec_calls n cap cs b).2)) ∧
    wf (t + sum_by asked cs) (spec_calls n cap cs b).2 ∧ rel s' (spec_calls n cap cs b).2.
Proof.
  intros Hw Hr Ht Hcs. revert t s b Hw Hr Ht. induction Hcs as [|c cs Hc Hcs IH]; intros t s b Hw Hr Ht Hle.
  { exists s. split; [done|]. split; [|done]. eapply wf_mono; [|done]. simpl. lia. }
  rewrite sum_by_cons in *. pose proof (asked_nonneg c Hc).
  assert (0 <= sum_by asked cs).
  { apply sum_by_nonneg. intros x Hx. apply (proj1 (Forall_forall _ _) Hcs) in Hx. by apply asked_nonneg. }
  destruct (call_sim t s b c) as (s1 & E1 & Hw1 & Hr1); [done..|lia|]. cbn [code_calls spec_calls].
  rewrite E1. cbn [obind]. destruct (spec_call n cap c b) as [a b1]. cbn [fst snd] in *.
  destruct (IH (t + asked c) s1 b1) as (s2 & E2 & Hw2 & Hr2); [done..|lia|lia|]. rewrite E2. cbn [obind].
  destruct (spec_calls n cap cs b1) as [l b2]. cbn [fst snd] in *. exists s2. split; [done|]. split; [|done].
  eapply wf_mono; [|done]. lia.
Qed.
End refine.

(** ** Initialization *)

(** The static, whatever was called before: its arrays, and the nodes' numbers. *)
Definition static_ok (s : NumaState) : Prop :=
  arrays_ok s ∧ ∀ i nd, nodes s !! i = Some nd → node_id nd = Z.of_nat i.

Definition fresh (cap : Z) (i : nat) : NumaNode :=
  mkNode (Z.of_nat i) true (mask_of (node_cpus (Z.of_nat i))) 4 (NodeMemoryStats.reset cap) cap 0.

Lemma map_cpus_ok cpus i m :
  length m = 256%nat → Forall (λ c, 0 <= c < 256) cpus →
  returns (map_cpus cpus i m) (λ m', length m' = 256%nat ∧
    ∀ c, m' !! c = if bool_decide (Z.of_nat c ∈ cpus) then Some (as_u32 i) else m !! c).
Proof.
  intros Hl Hc. revert m Hl. induction Hc as [|c cpus Hc Hcs IH]; intros m Hl.
  { cbn [map_cpus returns]. split; [done|]. intros c. by rewrite bool_decide_eq_false_2 by (by intros ?%elem_of_nil). }
  cbn [map_cpus]. unfold CpuNodeMap.set. change MAX_CPUS with 256. destruct (Z.ltb_spec c 256); [|lia].
  rewrite arr_set_ok by lia. cbn [obind]. eapply returns_mono; [apply IH; by rewrite length_insert|].
  intros m' [Hl' Hm]. split; [done|]. intros k. rewrite Hm. destruct (decide (Z.of_nat k ∈ cpus)).
  - rewrite !bool_decide_eq_true_2; [done|by right|done].
  - rewrite bool_decide_eq_false_2 by done. destruct (decide (Z.of_nat k = c)) as [<-|Hne].
    + rewrite bool_decide_eq_true_2 by left. rewrite Nat2Z.id, list_lookup_insert_eq by lia. done.
    + rewrite bool_decide_eq_false_2 by (intros [E|?]%elem_of_cons; [by apply Hne|done]). by rewrite list_lookup_insert_ne by lia.
Qed.

(** The state after [i] rounds of the loop over the nodes. *)
Definition after_nodes (cap : Z) (s0 : NumaState) (i : Z) (s : NumaState) : Prop :=
  static_ok s ∧ initialized s = initialized s0 ∧ num_online_nodes s = num_online_nodes s0 ∧ distances s = distances s0 ∧
  interleave_index s = interleave_index s0 ∧
  (∀ j, Z.of_nat j < i → nodes s !! j = Some (fresh cap j)) ∧
  (∀ c, Z.of_nat c < 4 * i → cpu_map s !! c = Some (Z.of_nat c / 4)) ∧
  (∀ c, 4 * i <= Z.of_nat c → cpu_map s !! c = cpu_map s0 !! c).

Lemma init_node_ok cap s0 i s :
  0 <= i < 8 → after_nodes cap s0 i s → returns (init_node cap i s) (after_nodes cap s0 (i + 1)).
Proof.
  intros Hi ((Ha & Hids) & Hinit & Hnum & Hd & Hix & Hns & Hc1 & Hc2).
  destruct (lookup_lt_is_Some_2 (nodes s) (Z.to_nat i)) as [nd Hnd]; [destruct Ha; lia|].
  unfold init_node. rewrite <-(Z2Nat.id i) at 1 by lia. rewrite (with_node_put _ _ nd) by (done || lia). cbn [obind].
  eapply returns_bind; [apply map_cpus_ok; [apply Ha|unfold node_cpus; repeat constructor; lia]|].
  intros m [Hl Hm]. cbn [returns]. rewrite as_u32_small in Hm by lia. destruct Ha as (Ha1 & Ha2 & Ha3 & Ha4).
  unfold after_nodes, static_ok, arrays_ok. cbn [nodes distances cpu_map initialized num_online_nodes interleave_index set_cpu_map put set_nodes].
  split_and!; try done.
  - by rewrite length_insert.
  - intros j x [(<- & <- & _)|[_ Hx]]%list_lookup_insert_Some; [|by apply Hids]. simpl. by rewrite (Hids _ _ Hnd).
  - intros j Hj. destruct (decide (j = Z.to_nat i)) as [->|].
    + rewrite list_lookup_insert_eq by lia. unfold fresh. rewrite (Hids _ _ Hnd), Z2Nat.id by lia. done.
    + rewrite list_lookup_insert_ne by done. apply Hns. lia.
  - intros c Hc. rewrite Hm. case_bool_decide as Hin; unfold node_cpus in Hin; rewrite !elem_of_cons, elem_of_nil in Hin.
    + f_equal. Z.div_mod_to_equations. lia.
    + apply Hc1. lia.
  - intros c Hc. rewrite Hm. case_bool_decide as Hin; unfold node_cpus in Hin; rewrite !elem_of_cons, elem_of_nil in Hin; [lia|]. apply Hc2. lia.
Qed.

(** The cells of the matrix. *)
Definition cell (m : list (list Z)) (i j : Z) : option Z := m !! Z.to_nat i ≫= λ r, r !! Z.to_nat j.
Definition square (m : list (list Z)) : Prop := length m = 8%nat ∧ Forall (λ r, length r = 8%nat) m.

Lemma store_cell m i j d :
  square m → 0 <= i < 8 → 0 <= j < 8 →
  returns (DistanceMatrix.store i j d m) (λ m', square m' ∧
    ∀ x y, 0 <= x → 0 <= y → cell m' x y = if (x =? i) && (y =? j) then Some d else cell m x y).
Proof.
  intros [Hl Hr] Hi Hj. pose proof (store_shape m i j d Hl Hr Hi Hj) as Hs.
  destruct (store_ok m i j d) as (row & Hrow & E); [done..|]. rewrite E in *. cbn [returns] in *. split; [done|].
  intros x y Hx Hy. unfold cell. pose proof (Forall_lookup_1 _ _ _ _ Hr Hrow) as Hlr. cbv beta in Hlr.
  destruct (Z.eqb_spec x i) as [->|]; cbn [andb].
  - rewrite list_lookup_insert_eq by lia. cbn [mbind option_bind]. rewrite Hrow. cbn [mbind option_bind].
    destruct (Z.eqb_spec y j) as [->|]; [by rewrite list_lookup_insert_eq by lia|by rewrite list_lookup_insert_ne by lia].
  - by rewrite list_lookup_insert_ne by lia.
Qed.

Definition default_distance (i j : Z) : Z := if i =? j then LOCAL_DISTANCE else REMOTE_DISTANCE.

Lemma distances_init m n :
  square m → 0 <= n <= 8 →
  returns (DistanceMatrix.init n m) (λ m', square m' ∧
    ∀ i j, 0 <= i < n → 0 <= j < n → cell m' i j = Some (default_distance i j)).
Proof.
  intros Hm Hn. unfold DistanceMatrix.init.
  eapply returns_mono; [apply (for_range_rule (λ i m', square m' ∧
    ∀ x y, 0 <= x < i → 0 <= y < n → cell m' x y = Some (default_distance x y)))|].
  - lia.
  - split; [done|]. intros. lia.
  - intros i m1 Hi [Hs1 H1]. eapply returns_mono; [apply (for_range_rule (λ j m', square m' ∧
      (∀ x y, 0 <= x < i → 0 <= y < n → cell m' x y = Some (default_distance x y)) ∧
      (∀ y, 0 <= y < j → cell m' i y = Some (default_distance i y))))|].
    + lia.
    + split_and!; [apply Hs1..|done|]. intros. lia.
    + intros j m2 Hj (Hs2 & H2 & H3). eapply returns_mono; [apply store_cell; [done|lia|lia]|].
      intros m3 [Hs3 Hc]. split; [done|]. split.
      * intros x y Hx Hy. rewrite Hc by lia. destruct (Z.eqb_spec x i); [lia|]. by apply H2.
      * intros y Hy. rewrite Hc by lia. rewrite Z.eqb_refl. destruct (Z.eqb_spec y j) as [->|]; [done|]. apply H3. lia.
    + intros m2 (Hs2 & H2 & H3). split; [done|]. intros x y Hx Hy. destruct (decide (x = i)) as [->|]; [by apply H3|].
      apply H2; lia.
  - intros m' H. exact H.
Qed.

(** What [init_with_config] leaves. *)
Record initial (n : nat) (cap : Z) (s : NumaState) : Prop := {
  in_ok : numa_ok n s;
  in_nodes : ∀ i, (i < n)%nat → nodes s !! i = Some (fresh cap i);
  in_cpus : ∀ c, Z.of_nat c < 4 * Z.of_nat n → cpu_map s !! c = Some (Z.of_nat c / 4);
  in_distances : ∀ i j, 0 <= i < Z.of_nat n → 0 <= j < Z.of_nat n → cell (distances s) i j = Some (default_distance i j);
  in_policy : default_policy s = Local;
  in_turn : interleave_index s = 0;
}.

Lemma init_with_config_ok n cap s0 :
  static_ok s0 → (1 <= n <= 8)%nat → 0 <= cap <= U64_MAX →
  ∃ s, init_with_config (Z.of_nat n) cap s0 = Ret (Ok (), s) ∧ initial n cap s ∧ static_ok s ∧
    ∀ c, 4 * Z.of_nat n <= Z.of_nat c → cpu_map s !! c = cpu_map s0 !! c.
Proof.
  intros Hs0 Hn Hcap. unfold init_with_config, MAX_NUMA_NODES. destruct (Z.eqb_spec (Z.of_nat n) 0); [lia|].
  destruct (Z.ltb_spec 8 (Z.of_nat n)); [lia|]. cbn [orb].
  assert (returns (for_range 0 (Z.of_nat n) (init_node cap) (set_interleave 0 s0))
    (after_nodes cap (set_interleave 0 s0) (Z.of_nat n))) as (s1 & -> & Hs1)%returns_ret.
  { apply (for_range_rule (after_nodes cap (set_interleave 0 s0))); [lia| |intros; apply init_node_ok; [lia|done]].
    unfold after_nodes. split_and!; try done; intros; lia. }
  destruct Hs1 as (Hst & _ & _ & Hd & Hix & Hns & Hc1 & Hc2). cbn [obind].
  assert (square (distances s1)) as Hsq by (destruct Hst as ((? & ? & ? & ?) & _); by split).
  destruct (proj1 (returns_ret _ _) (distances_init _ (Z.of_nat n) Hsq ltac:(lia))) as (m & -> & Hm & Hcell). cbn [obind].
  destruct Hst as [(Ha1 & Ha2 & Ha3 & Ha4) Hids], Hm as [Hm1 Hm2].
  eexists. split; [done|]. split; [|split; [|done]].
  - split; cbn [default_policy interleave_index cpu_map distances nodes set_online set_default_policy set_distances]; try done.
    + split; try done.
      * intros i nd Hi. cbn. rewrite Hns by lia. intros [= <-]. unfold node_ok. simpl. unfold NumaNode.free_pages. simpl. lia.
      * cbn. rewrite Hix. simpl. lia.
    + intros i Hi. apply Hns. lia.
  - by split.
Qed.

Lemma initial_rel n cap s :
  0 <= cap → initial n cap s → wf n cap 0 (mkBlocks [] [] Local 0) ∧ rel n cap s (mkBlocks [] [] Local 0).
Proof.
  intros Hcap [Hok Hns _ _ Hp Ht]. split.
  - split; simpl; try done; constructor.
  - split; [done..|]. intros i nd Hi. rewrite Hns by done. intros [= <-].
    split; simpl; unfold NumaNode.free_pages; simpl; unfold pages_on, blocks_on, sum_by, count_if; simpl; done || lia.
Qed.

(** ** The specification is kept *)

(** C19. The nodes refine their blocks.  After [init_with_config], whatever is allocated
    (on a node, under the default policy or under a given one), freed, migrated or
    configured, as long as the requests add up to less than 2^64 pages, no call panics
    and every answer is that of the specification: a request goes where its policy
    says, it succeeds exactly when that node has the pages, and it gets the pages
    after all those the node ever gave.  Blocks in use never overlap and never exceed a
    node's capacity; a node's free pages are its capacity less the blocks in use, and its
    counters are the numbers of blocks that were given and returned. *)
Theorem numa_refines n cap s0 calls :
  static_ok s0 → (1 <= n <= 8)%nat → 0 <= cap <= U64_MAX → Forall call_ok calls → sum_by asked calls <= U64_MAX →
  ∃ s1 s2 answers b,
    init_with_config (Z.of_nat n) cap s0 = Ret (Ok (), s1) ∧
    spec_calls n cap calls (mkBlocks [] [] Local 0) = (answers, b) ∧
    code_calls calls (s1, []) = Ret (answers, (s2, live b)) ∧
    ForallOrdPairs apart (live b) ∧ (∀ id, pages_on id (live b) <= cap) ∧
    ∀ i nd, (i < n)%nat → nodes s2 !! i = Some nd → node_rel cap i nd b.
Proof.
  intros Hs0 Hn Hcap Hcalls Hsum. destruct (init_with_config_ok n cap s0) as (s1 & E1 & Hin & _); [done..|].
  destruct (initial_rel n cap s1 ltac:(lia) Hin) as [Hw Hr].
  destruct (calls_sim n cap Hn Hcap 0 s1 _ calls Hw Hr) as (s2 & E2 & Hw2 & Hr2); [done..|].
  destruct (spec_calls n cap calls _) as [answers b]. exists s1, s2, answers, b. split_and!; try done.
  - eapply pairs_sublist; [apply Hw2|apply Hw2].
  - apply Hw2.
  - apply Hr2.
Qed.

(** Two nodes of four pages: interleaving, a preferred node that is full, a node that is
    full, and a block that is freed. *)
Lemma numa_refines_witness :
  ∃ s1 s2 answers b,
    init_with_config 2 4 NUMA_STATE = Ret (Ok (), s1) ∧
    spec_calls 2 4 [CPolicy 3 Interleave None; CPolicy 2 (Preferred 0) None; CPolicy 3 (Bind 1) None; CFree 0; CDefault 4 (Some 0)]
      (mkBlocks [] [] Local 0) = (answers, b) ∧
    code_calls [CPolicy 3 Interleave None; CPolicy 2 (Preferred 0) None; CPolicy 3 (Bind 1) None; CFree 0; CDefault 4 (Some 0)]
      (s1, []) = Ret (answers, (s2, live b)) ∧
    ForallOrdPairs apart (live b) ∧ (∀ id, pages_on id (live b) <= 4) ∧
    ∀ i nd, (i < 2)%nat → nodes s2 !! i = Some nd → node_rel 4 i nd b.
Proof.
  apply (numa_refines 2 4 NUMA_STATE).
  - split; [by repeat constructor|]. intros i nd Hi. do 8 (destruct i as [|i]; [by injection Hi as <-|]). done.
  - lia.
  - lia.
  - repeat constructor; simpl; lia.
  - vm_compute. done.
Defined.

(** ** The closest node *)

(** [i] has the pages, at a distance below 255. *)
Definition candidate (s : NumaState) (from pages i d : Z) : Prop :=
  cell (distances s) from i = Some d ∧ d < UNREACHABLE_DISTANCE ∧
  ∃ nd, nodes s !! Z.to_nat i = Some nd ∧ pages <= NumaNode.free_pages nd.

(** What the search knows after the nodes below [k]. *)
Definition nearest (s : NumaState) (from pages k : Z) (best : option Z * Z) : Prop :=
  match best with
  | (None, d) => d = UNREACHABLE_DISTANCE ∧ ∀ i e, 0 <= i < k → ~ candidate s from pages i e
  | (Some j, d) => 0 <= j < k ∧ candidate s from pages j d ∧
      (∀ i e, 0 <= i < k → candidate s from pages i e → d <= e) ∧
      (∀ i e, 0 <= i < j → candidate s from pages i e → d < e)
  end.

Lemma distance_get s from to d :
  0 <= from < 8 → 0 <= to < 8 → cell (distances s) from to = Some d → is_byte d →
  DistanceMatrix.get (distances s) from to = Ret d.
Proof.
  intros Hf Ht Hc Hd. unfold DistanceMatrix.get, MAX_NUMA_NODES.
  destruct (Z.leb_spec 8 from), (Z.leb_spec 8 to); try lia. cbn [orb]. unfold cell in Hc.
  apply bind_Some in Hc as (row & Hr & Hc).
  rewrite (arr_get_ok _ _ row) by (done || lia). cbn [obind]. rewrite (arr_get_ok _ _ d) by (done || lia). cbn [obind].
  by rewrite as_u8_small.
Qed.

(** The distances are bytes. *)
Definition byte_distances (s : NumaState) : Prop :=
  ∀ i j, 0 <= i < 8 → 0 <= j < 8 → ∃ d, cell (distances s) i j = Some d ∧ is_byte d.

Lemma closest_round_ok n s from pages k best :
  numa_ok n s → byte_distances s → 0 <= from < 8 → 0 <= k < Z.of_nat n → nearest s from pages k best →
  returns (closest_round from pages s k best) (nearest s from pages (k + 1)).
Proof.
  intros Hok Hb Hf Hk Hbest. pose proof (proj2 (ok_num _ _ Hok)).
  destruct (numa_node n s (Z.to_nat k)) as (nd & Hnd & _); [done|lia|].
  destruct (Hb from k) as (d & Hd & Hbd); [done|lia|].
  assert (∀ e, candidate s from pages k e ↔ e = d ∧ d < UNREACHABLE_DISTANCE ∧ pages <= NumaNode.free_pages nd) as Hcand.
  { intros e. unfold candidate. rewrite Hd, Hnd. naive_solver. }
  assert (∀ i, i < k + 1 ↔ i < k ∨ i = k) as Hlt by lia.
  unfold closest_round. destruct best as [o bd]. rewrite (get_node_at n s k nd) by done. cbn [obind].
  assert (¬ (pages <= NumaNode.free_pages nd ∧ d < bd) → nearest s from pages (k + 1) (o, bd)) as Hskip.
  { intros Hno. destruct o as [j|]; simpl in *.
    - destruct Hbest as (Hj & Hc & Hmin & Hfst). split_and!; try done; try lia. intros i e [Hi0 [Hi| ->]%Hlt] He; [by apply (Hmin i)|].
      apply Hcand in He as (-> & ? & ?). lia.
    - destruct Hbest as (-> & Hnone). split; [done|]. intros i e [Hi0 [Hi| ->]%Hlt] He; [by apply (Hnone i e)|].
      apply Hcand in He as (-> & ? & ?). lia. }
  destruct (Z.leb_spec pages (NumaNode.free_pages nd)); [|cbn; apply Hskip; lia].
  rewrite (distance_get s from k d) by (done || lia). cbn [obind]. destruct (Z.ltb_spec d bd); [|cbn; apply Hskip; lia].
  cbn. assert (d < UNREACHABLE_DISTANCE) by (destruct o; simpl in Hbest; [destruct Hbest as (_ & (_ & ? & _) & _)|destruct Hbest as [-> _]]; lia).
  split_and!; try lia; [by apply Hcand|..].
  - intros i e [Hi0 [Hi| ->]%Hlt] He; [|apply Hcand in He; lia].
    destruct o; simpl in Hbest; [destruct Hbest as (_ & _ & Hmin & _); specialize (Hmin i e (conj Hi0 Hi) He); lia|].
    destruct Hbest as [_ Hnone]. by destruct (Hnone i e (conj Hi0 Hi)).
  - intros i e Hi He. destruct o; simpl in Hbest.
    + destruct Hbest as (_ & _ & Hmin & _). specialize (Hmin i e Hi He). lia.
    + destruct Hbest as [_ Hnone]. by destruct (Hnone i e Hi).
Qed.

(** The search finds the nearest node with the pages, the first of those at the same
    distance, and fails only when there is none that can be reached. *)
Theorem closest_is_nearest n s from pages :
  numa_ok n s → byte_distances s → 0 <= from < 8 →
  ∃ best, nearest s from pages (Z.of_nat n) best ∧
    find_closest_with_memory from pages s = Ret (match best.1 with Some i => Ok i | None => Err (OutOfMemory from pages 0) end).
Proof.
  intros Hok Hb Hf. unfold find_closest_with_memory. rewrite (ok_init _ _ Hok), (proj1 (ok_num _ _ Hok)). cbn [negb].
  assert (returns (for_range 0 (Z.of_nat n) (closest_round from pages s) (None, UNREACHABLE_DISTANCE))
    (nearest s from pages (Z.of_nat n))) as ([o d] & -> & H)%returns_ret.
  { apply (for_range_rule (nearest s from pages)); [lia|..].
    - split; [done|]. intros. lia.
    - intros. by apply (closest_round_ok n). }
  exists (o, d). by split.
Qed.

(** ** Threads on one node *)

(** A thread allocates or frees, and is somewhere in its call. *)
Inductive Thread : Type :=
| TAlloc (pages : Z) (is_local : bool) (pc : NumaNode.alloc_pc)
| TFree (pages : Z) (pc : NumaNode.dealloc_pc).

Definition thread_step (nd : NumaNode) (t : Thread) : NumaNode * Thread :=
  match t with
  | TAlloc p l pc => let '(nd, pc) := NumaNode.alloc_step p l nd pc in (nd, TAlloc p l pc)
  | TFree p pc => let '(nd, pc) := NumaNode.dealloc_step p nd pc in (nd, TFree p pc)
  end.

(** One access of one of the threads. *)
Inductive step : NumaNode * list Thread → NumaNode * list Thread → Prop :=
| step_thread nd ts k t nd' t' :
    ts !! k = Some t → thread_step nd t = (nd', t') → step (nd, ts) (nd', <[k := t']> ts).

(** The call that nobody interrupts is the accesses one after the other. *)
Lemma allocate_steps nd p l :
  let run := Nat.iter 6 (λ '(nd, t), thread_step nd t) in
  let '(r, nd') := NumaNode.allocate nd p l in
  run (nd, TAlloc p l NumaNode.AOnline) = (nd', TAlloc p l (NumaNode.ADone r)).
Proof.
  unfold NumaNode.allocate. cbn. destruct (NumaNode.is_online nd); [|done]. cbn. by destruct (NumaNode.free_pages nd <? p).
Qed.

Definition starting (t : Thread) : Prop :=
  match t with
  | TAlloc p _ NumaNode.AOnline => 0 < p
  | TFree p NumaNode.DCount => 0 < p
  | _ => False
  end.

(** The block that a thread got, from its [fetch_add] on. *)
Definition got (t : Thread) : option (Z * Z) :=
  match t with
  | TAlloc p _ (NumaNode.ACount o | NumaNode.ATake o | NumaNode.ALocality o | NumaNode.ADone (Ok o)) => Some (o, p)
  | _ => None
  end.

Definition wants (t : Thread) : Z := match t with TAlloc p _ _ => p | TFree _ _ => 0 end.
Definition claimed (t : Thread) : Z := match got t with Some (_, p) => p | None => 0 end.
Definition took (t : Thread) : Z :=
  match t with TAlloc p _ (NumaNode.ALocality _ | NumaNode.ADone (Ok _)) => p | _ => 0 end.
Definition gave (t : Thread) : Z := match t with TFree p NumaNode.DDone => p | _ => 0 end.
Definition returned (t : Thread) : Z := match t with TFree p _ => p | TAlloc _ _ _ => 0 end.
Definition refused (t : Thread) : Prop :=
  match t with TAlloc _ _ (NumaNode.ADone (Err _)) => True | _ => False end.

Definition thread_wf (t : Thread) : Prop := match t with TAlloc p _ _ | TFree p _ => 0 < p end.

Record threads_ok (nd0 : NumaNode) (c : NumaNode * list Thread) : Prop := {
  th_online : online c.1 = true;
  th_wf : Forall thread_wf c.2;
  th_offset : alloc_offset c.1 = alloc_offset nd0 + sum_by claimed c.2;
  th_free : NumaNode.free_pages c.1 = wrap64 (NumaNode.free_pages nd0 - sum_by took c.2 + sum_by gave c.2);
  th_got : ∀ k t o p, c.2 !! k = Some t → got t = Some (o, p) → alloc_offset nd0 <= o ∧ o + p <= alloc_offset c.1;
  th_apart : ∀ j k t u o p o' p', c.2 !! j = Some t → c.2 !! k = Some u → j ≠ k → got t = Some (o, p) → got u = Some (o', p') →
    o + p <= o' ∨ o' + p' <= o;
}.

Lemma sums_le ts : Forall thread_wf ts → 0 <= sum_by took ts <= sum_by claimed ts ∧ sum_by claimed ts <= sum_by wants ts ∧
  0 <= sum_by gave ts <= sum_by returned ts.
Proof.
  intros H. induction H as [|t ts Ht _ IH]; [done|]. rewrite !sum_by_cons.
  assert (0 <= took t <= claimed t ∧ claimed t <= wants t ∧ 0 <= gave t <= returned t); [|lia].
  destruct t as [p l []|p []]; try destruct r; cbn in *; lia.
Qed.

(** A step keeps what a thread wants; only the [fetch_add] moves the offset, and the
    thread that does it gets the pages it moves over. *)
Lemma thread_step_effect nd t nd' t' :
  thread_wf t → thread_step nd t = (nd', t') →
  thread_wf t' ∧ wants t' = wants t ∧ returned t' = returned t ∧ online nd' = online nd ∧
  NumaNode.free_pages nd' = (if (took t' =? took t) && (gave t' =? gave t) then NumaNode.free_pages nd
    else wrap64 (NumaNode.free_pages nd - (took t' - took t) + (gave t' - gave t))) ∧
  ((got t' = got t ∧ alloc_offset nd' = alloc_offset nd) ∨
   (got t = None ∧ got t' = Some (alloc_offset nd, wants t) ∧ alloc_offset nd' = wrap64 (alloc_offset nd + wants t))).
Proof.
  intros Ht. destruct t as [p l pc|p pc]; [destruct pc as [| | |o|o|o|[]]|destruct pc]; cbn in *; intros [= <- <-]; cbn;
    try destruct (NumaNode.is_online nd); try destruct (NumaNode.free_pages nd <? p); try destruct l; cbn;
    rewrite ?Z.eqb_refl; cbn; split_and!; try done; try (by left); try (by right).
  all: destruct (Z.eqb_spec p 0); [lia|]; rewrite ?andb_false_r; cbn [andb]; unfold NumaNode.free_pages; f_equal; lia.
Qed.

Lemma wrap64_shift a d : wrap64 (wrap64 a + d) = wrap64 (a + d).
Proof. unfold wrap64. by rewrite Z.add_mod_idemp_l by lia. Qed.

Lemma threads_step_ok nd0 c c' :
  0 <= alloc_offset nd0 → alloc_offset nd0 + sum_by wants c.2 <= U64_MAX →
  threads_ok nd0 c → step c c' → threads_ok nd0 c' ∧ sum_by wants c'.2 = sum_by wants c.2 ∧ sum_by returned c'.2 = sum_by returned c.2.
Proof.
  intros H0 Hw Hok Hstep. destruct Hstep as [nd ts k t nd' t' Hk Hst]. destruct Hok as [Hon Hwf Hoff Hfree Hgot Hap]. cbn [fst snd] in *.
  pose proof (Forall_lookup_1 _ _ _ _ Hwf Hk) as Ht.
  destruct (thread_step_effect nd t nd' t' Ht Hst) as (Ht' & Hwa & Hre & Hon' & Hfr & Hg).
  assert (Forall thread_wf (<[k := t']> ts)) as Hwf' by by apply Forall_insert.
  pose proof (sums_le _ Hwf'). pose proof (sums_le _ Hwf).
  pose proof (sum_by_insert wants _ _ _ t' Hk) as Sw. pose proof (sum_by_insert claimed _ _ _ t' Hk) as Sc.
  pose proof (sum_by_insert took _ _ _ t' Hk) as St. pose proof (sum_by_insert gave _ _ _ t' Hk) as Sg.
  pose proof (sum_by_insert returned _ _ _ t' Hk) as Sr.
  assert (0 <= claimed t' - claimed t ∧ alloc_offset nd' = alloc_offset nd + (claimed t' - claimed t)) as [Hgrow Ho].
  { assert (0 <= wants t) by (destruct t; simpl in *; lia). destruct Hg as [[E ->]|(E1 & E2 & ->)].
    - assert (claimed t' = claimed t) by (unfold claimed; by rewrite E). lia.
    - assert (claimed t = 0) by (unfold claimed; by rewrite E1). assert (claimed t' = wants t) by (unfold claimed; by rewrite E2).
      rewrite wrap64_small by lia. lia. }
  split; [|split; cbn [snd]; lia]. split; cbn [fst snd]; try done; try congruence; try lia.
  - rewrite Hfr, Hfree, St, Sg. destruct (Z.eqb_spec (took t') (took t)), (Z.eqb_spec (gave t') (gave t)); cbn [andb];
      [f_equal; lia|rewrite <-Z.add_opp_r, <-Z.add_assoc, wrap64_shift; f_equal; lia..].
  - intros j u o p Hj Hu. destruct (decide (j = k)) as [->|].
    + rewrite list_lookup_insert_eq in Hj by (by eapply lookup_lt_Some). injection Hj as <-.
      destruct Hg as [[E _]|(E1 & E2 & _)].
      * rewrite E in Hu. destruct (Hgot k t o p Hk Hu). lia.
      * assert (claimed t = 0) by (unfold claimed; by rewrite E1). assert (claimed t' = wants t) by (unfold claimed; by rewrite E2).
        rewrite E2 in Hu. injection Hu as <- <-. lia.
    + rewrite list_lookup_insert_ne in Hj by done. destruct (Hgot j u o p Hj Hu). lia.
  - intros i j u v o p o' p' Hi Hj Hij Hu Hv.
    assert (∀ x w o1 p1, x ≠ k → ts !! x = Some w → got w = Some (o1, p1) → ∀ o2 p2, got t' = Some (o2, p2) →
      o1 + p1 <= o2 ∨ o2 + p2 <= o1) as Hnew.
    { intros x w o1 p1 Hx Hw1 Hg1 o2 p2 Hg2. destruct Hg as [[E _]|(E1 & E2 & _)].
      - rewrite E in Hg2. by apply (Hap x k w t o1 p1 o2 p2).
      - rewrite E2 in Hg2. injection Hg2 as <- <-. left. by apply (Hgot x w). }
    destruct (decide (i = k)) as [->|]; [|destruct (decide (j = k)) as [->|]].
    + rewrite list_lookup_insert_eq in Hi by (by eapply lookup_lt_Some). injection Hi as <-.
      rewrite list_lookup_insert_ne in Hj by done. destruct (Hnew j v o' p' (not_eq_sym Hij) Hj Hv o p Hu); [by right|by left].
    + rewrite list_lookup_insert_eq in Hj by (by eapply lookup_lt_Some). injection Hj as <-.
      rewrite list_lookup_insert_ne in Hi by done. by apply (Hnew i u o p Hij Hi Hu).
    + rewrite list_lookup_insert_ne in Hi by done. rewrite list_lookup_insert_ne in Hj by done. by apply (Hap i j u v o p o' p').
Qed.

Definition running (t : Thread) : Prop := ¬ refused t.

Lemma pending_le ts k t : Forall thread_wf ts → ts !! k = Some t → wants t - took t <= sum_by wants ts - sum_by took ts.
Proof.
  intros Hwf. revert k. induction Hwf as [|u ts Hu Hwf IH]; intros [|k] Hk; [done|done|..]; rewrite !sum_by_cons; simpl in Hk.
  - injection Hk as ->. pose proof (sums_le _ Hwf). lia.
  - specialize (IH k Hk). pose proof (sums_le [u] ltac:(by constructor)) as Hl. rewrite !sum_by_cons in Hl. simpl in Hl. lia.
Qed.

(** When the pages that are wanted are there, nobody is refused. *)
Lemma step_running nd0 c c' :
  0 <= NumaNode.free_pages nd0 → sum_by wants c.2 <= NumaNode.free_pages nd0 →
  NumaNode.free_pages nd0 + sum_by returned c.2 <= U64_MAX →
  threads_ok nd0 c → step c c' → Forall running c.2 → Forall running c'.2.
Proof.
  intros H0 Hw Hr Hok Hstep Hrun. destruct Hstep as [nd ts k t nd' t' Hk Hst]. destruct Hok as [Hon Hwf _ Hfree _ _]. cbn [fst snd] in *.
  apply Forall_insert; [done|]. pose proof (Forall_lookup_1 _ _ _ _ Hrun Hk) as Ht. pose proof (sums_le _ Hwf).
  pose proof (pending_le ts k t Hwf Hk) as Hp. rewrite wrap64_small in Hfree by lia.
  destruct t as [p l pc|p pc]; [|by destruct pc; injection Hst as <- <-].
  destruct pc; cbn in Hst; injection Hst as <- <-; try by intros [].
  - unfold NumaNode.is_online. rewrite Hon. by intros [].
  - cbn in Hp. destruct (Z.ltb_spec (NumaNode.free_pages nd) p); [lia|by intros []].
  - done.
Qed.

(** C20. Threads share a node: whatever the order of the single accesses of those that
    allocate and those that free, the pages that two threads get never overlap, and the
    node's offset has moved exactly over the pages that were given.  As long as the
    threads want no more pages in total than the node has, nobody is refused, and the
    free pages are those at the start, less those taken, plus those given back. *)
Theorem threads_disjoint nd ts nd' ts' :
  online nd = true → 0 <= alloc_offset nd → 0 <= NumaNode.free_pages nd → Forall starting ts →
  alloc_offset nd + sum_by wants ts <= U64_MAX → NumaNode.free_pages nd + sum_by returned ts <= U64_MAX →
  rtc step (nd, ts) (nd', ts') →
  (∀ j k t u o p o' p', ts' !! j = Some t → ts' !! k = Some u → j ≠ k → got t = Some (o, p) → got u = Some (o', p') →
     o + p <= o' ∨ o' + p' <= o) ∧
  alloc_offset nd' = alloc_offset nd + sum_by claimed ts' ∧
  (sum_by wants ts <= NumaNode.free_pages nd →
     Forall running ts' ∧ NumaNode.free_pages nd' = NumaNode.free_pages nd - sum_by took ts' + sum_by gave ts').
Proof.
  intros Hon Ho Hf Hst Hw Hr Hrun.
  assert (Forall thread_wf ts ∧ Forall running ts ∧ sum_by claimed ts = 0 ∧ sum_by took ts = 0 ∧ sum_by gave ts = 0 ∧
    ∀ k t, ts !! k = Some t → got t = None) as (Hwf & Hru & Hc & Ht & Hg & Hn).
  { clear -Hst. induction Hst as [|t ts Ht _ (? & ? & ? & ? & ? & Hn)]; [by repeat constructor|]. rewrite !sum_by_cons.
    destruct t as [p l []|p []]; simpl in Ht; try done; split_and!; try (by constructor); try done.
    all: first [by constructor; [intros []|] | intros [|k] u; [by intros [= <-]|apply Hn]]. }
  pose proof (sums_le _ Hwf). set (Q := λ c : NumaNode * list Thread, threads_ok nd c ∧ sum_by wants c.2 = sum_by wants ts ∧
    sum_by returned c.2 = sum_by returned ts ∧ (sum_by wants ts <= NumaNode.free_pages nd → Forall running c.2)).
  assert (Q (nd', ts')) as (Hok & Hw' & Hr' & Hrn).
  { apply (rtc_preserves step Q (nd, ts)); [|done|].
    - intros c c' (Hok & Hw1 & Hr1 & Hru1) Hs. destruct (threads_step_ok nd c c') as (Hok' & Hw2 & Hr2); [done|lia|done|done|].
      split_and!; [done|lia|lia|]. intros Hle. eapply (step_running nd c); [done|lia|lia|done..|by apply Hru1].
    - split_and!; [|done..]. split; cbn [fst snd]; try done; try lia.
      + rewrite Ht, Hg. symmetry. rewrite wrap64_small; lia.
      + intros k t o p Hk Ht1. by rewrite (Hn k t Hk) in Ht1.
      + intros j k t u o p o' p' Hj _ _ Ht1. by rewrite (Hn j t Hj) in Ht1. }
  destruct Hok as [_ Hwf' Hoff Hfree _ Hap]. cbn [fst snd] in *. split_and!; [done|done|]. intros Hle. split; [by apply Hrn|].
  rewrite Hfree, wrap64_small; [done|]. pose proof (sums_le _ Hwf'). lia.
Qed.

(** Two threads on a node of eight pages, one access of each in turn. *)
Lemma threads_disjoint_witness :
  let nd := fresh 8 0 in
  let start := [TAlloc 3 true NumaNode.AOnline; TAlloc 5 false NumaNode.AOnline] in
  ∃ nd' ts', rtc step (nd, start) (nd', ts') ∧ got <$> ts' = [Some (0, 3); Some (3, 5)] ∧
    Forall running ts' ∧ NumaNode.free_pages nd' = 8 - sum_by took ts' + sum_by gave ts'.
Proof.
  eexists _, _. split.
  - do 3 (eapply rtc_l; [eapply (step_thread _ _ 0); reflexivity|]; cbn;
          eapply rtc_l; [eapply (step_thread _ _ 1); reflexivity|]; cbn).
    reflexivity.
  - split; [reflexivity|]. eapply (threads_disjoint (fresh 8 0) [TAlloc 3 true NumaNode.AOnline; TAlloc 5 false NumaNode.AOnline]).
    + reflexivity.
    + vm_compute. discriminate.
    + vm_compute. discriminate.
    + repeat constructor.
    + vm_compute. discriminate.
    + vm_compute. discriminate.
    + do 3 (eapply rtc_l; [eapply (step_thread _ _ 0); reflexivity|]; cbn;
            eapply rtc_l; [eapply (step_thread _ _ 1); reflexivity|]; cbn).
      reflexivity.
    + vm_compute. discriminate.
Defined.

(** ** CPUs *)

Lemma mask_bit cpus c : 0 <= c < 64 → Forall (λ x, 0 <= x) cpus → Z.testbit (mask_of cpus) c = bool_decide (c ∈ cpus).
Proof.
  intros Hc Hcs. unfold mask_of. enough (∀ m, Z.testbit (foldl (λ mask cpu, if cpu <? 64 then Z.lor mask (Z.shiftl 1 cpu) else mask) m cpus) c
    = Z.testbit m c || bool_decide (c ∈ cpus)) as -> by by rewrite Z.bits_0.
  induction Hcs as [|x cpus Hx _ IH]; intros m; cbn [foldl].
  { rewrite bool_decide_eq_false_2 by (by intros ?%elem_of_nil). by rewrite orb_false_r. }
  rewrite IH. assert (bool_decide (c ∈ x :: cpus) = (x =? c) || bool_decide (c ∈ cpus)) as ->.
  { apply eq_bool_prop_intro. rewrite orb_True, !bool_decide_spec, elem_of_cons, Is_true_true, Z.eqb_eq. naive_solver. }
  rewrite orb_assoc. f_equal. destruct (Z.ltb_spec x 64).
  - rewrite Z.lor_spec, Z.shiftl_1_l, Z.pow2_bits_eqb by lia. done.
  - destruct (Z.eqb_spec x c); [lia|]. by rewrite orb_false_r.
Qed.

Lemma hint_loop mask k :
  0 <= k → returns (for_range 0 k (λ cpu cpus, Ret (if negb (Z.land mask (Z.shiftl 1 cpu) =? 0) then cpus ++ [cpu] else cpus)) [])
    (λ l, ∀ x, x ∈ l ↔ 0 <= x < k ∧ Z.testbit mask x = true).
Proof.
  intros Hk. apply (for_range_rule (λ k l, ∀ x, x ∈ l ↔ 0 <= x < k ∧ Z.testbit mask x = true)); [done| |].
  - intros x. rewrite elem_of_nil. split; [done|lia].
  - intros j l Hj IH. cbn [returns]. intros x. rewrite test_bit by lia.
    destruct (Z.testbit mask j) eqn:E; rewrite ?elem_of_app, ?list_elem_of_singleton, IH; split.
    + by intros [[? ?]| ->]; (split; [lia|]).
    + intros [? ?]. destruct (decide (x = j)); [by right|]. left. split; [lia|done].
    + intros [? ?]. split; [lia|done].
    + intros [? Hb]. split; [|done]. assert (x ≠ j) by congruence. lia.
Qed.

(** After initialization the hint for a node lists exactly the CPUs that are mapped to it. *)
Theorem hint_lists_cpus n cap s0 i c :
  static_ok s0 → (1 <= n <= 8)%nat → 0 <= cap <= U64_MAX → 0 <= i < Z.of_nat n → 0 <= c < 4 * Z.of_nat n →
  ∃ s l, init_with_config (Z.of_nat n) cap s0 = Ret (Ok (), s) ∧ get_scheduling_hint i s = Ret (Ok l) ∧
    (c ∈ l ↔ cpu_to_node c s = Ret (Ok i)).
Proof.
  intros Hs0 Hn Hcap Hi Hc. destruct (init_with_config_ok n cap s0) as (s & E & [Hok Hns Hcp _ _ _] & _); [done..|].
  exists s. unfold get_scheduling_hint. rewrite (ok_init _ _ Hok). cbn [negb].
  pose proof (Hns (Z.to_nat i) ltac:(lia)) as Hnd. rewrite (get_node_at n s i _ Hok Hi Hnd). cbn [obind].
  destruct (proj1 (returns_ret _ _) (hint_loop (cpu_mask (fresh cap (Z.to_nat i))) 64 ltac:(lia))) as (l & -> & Hl0).
  assert (∀ x, x ∈ l ↔ 0 <= x < 64 ∧ x ∈ node_cpus i) as Hl.
  { intros x. rewrite Hl0. simpl cpu_mask. rewrite Z2Nat.id by lia.
    split; intros [Hx Hb]; (split; [done|]); rewrite mask_bit, ?bool_decide_eq_true in *; try done; unfold node_cpus; repeat constructor; lia. }
  exists l. split_and!; [done|done|]. rewrite Hl. unfold cpu_to_node, CpuNodeMap.get. rewrite (ok_init _ _ Hok). cbn [negb].
  change MAX_CPUS with 256. destruct (Z.leb_spec 256 c); [lia|]. pose proof (Hcp (Z.to_nat c) ltac:(lia)) as Hm.
  rewrite (arr_get_ok _ c _ (proj1 Hc) Hm), Z2Nat.id by lia. cbn [obind].
  assert (c / 4 < 8) by (Z.div_mod_to_equations; lia). destruct (Z.eqb_spec (c / 4) U32_MAX); [lia|].
  unfold node_cpus. rewrite !elem_of_cons, elem_of_nil. split.
  - intros [_ Hin]. do 2 f_equal. Z.div_mod_to_equations. lia.
  - intros [= Hd]. Z.div_mod_to_equations. lia.
Qed.

(** ** Runs that show what the code does otherwise *)

(** The state that a call leaves. *)
Definition after {A} (m : outcome (A * NumaState)) : NumaState := match m with Ret (_, s) => s | _ => NUMA_STATE end.
Definition answer_of {A} (m : outcome (A * NumaState)) : option A := match m with Ret (a, _) => Some a | _ => None end.
Definition started (n cap : Z) : NumaState := after (init_with_config n cap NUMA_STATE).

(** Freed pages are counted but never given again: after four pages are taken, freed and
    taken once more, a node of four pages hands out its pages 4 to 7. *)
Lemma offsets_pass_capacity :
  let s1 := after (allocate_on_node 0 4 (started 1 4)) in
  let s2 := after (free_on_node 0 0 4 s1) in
  answer_of (allocate_on_node 0 4 s2) = Some (Ok 4) ∧ NumaNode.total_pages <$> nodes s2 !! 0%nat = Some 4.
Proof. split; vm_compute; reflexivity. Qed.

(** [allows_fallback] says that [Local] falls back to other nodes; the allocation does not. *)
Lemma local_does_not_fall_back :
  let s := after (allocate_with_policy 5 Local (Some 0) (started 2 8)) in
  NumaPolicy.allows_fallback Local = true ∧ fits s 5 1 = true ∧
  answer_of (allocate_with_policy 5 Local (Some 0) s) = Some (Err (OutOfMemory 0 5 3)) ∧
  answer_of (allocate_with_policy 5 (Preferred 0) (Some 0) s) = Some (Ok (1, 0)).
Proof. split_and!; vm_compute; reflexivity. Qed.

(** A configuration with fewer nodes leaves the CPUs of the others mapped to nodes that are
    not there any more. *)
Lemma cpus_of_missing_nodes :
  let s := after (init_with_config 2 8 (started 4 8)) in
  cpu_to_node 12 s = Ret (Ok 3) ∧ get_node 3 s = Ret (Err (InvalidNodeId 3 1)).
Proof. split; vm_compute; reflexivity. Qed.

(** A block that is freed twice gives its node more free pages than it has. *)
Lemma double_free_exceeds_capacity :
  let s1 := after (allocate_on_node 0 3 (started 1 4)) in
  let s2 := after (free_on_node 0 0 3 s1) in
  let s3 := after (free_on_node 0 0 3 s2) in
  answer_of (free_on_node 0 0 3 s2) = Some (Ok ()) ∧ NumaNode.free_pages <$> nodes s3 !! 0%nat = Some 7.
Proof. split; vm_compute; reflexivity. Qed.

(** Locality is what the policy says, not where the caller is: bound to its own node it is
    remote, and preferring another node it is local. *)
Lemma locality_of_policy :
  let s1 := after (allocate_with_policy 1 (Bind 0) (Some 0) (started 2 8)) in
  let s2 := after (allocate_with_policy 1 (Preferred 1) (Some 0) s1) in
  (λ nd, remote_allocations (stats nd)) <$> nodes s1 !! 0%nat = Some 1 ∧
  (λ nd, local_allocations (stats nd)) <$> nodes s2 !! 1%nat = Some 1.
Proof. split; vm_compute; reflexivity. Qed.

(** The search does not check where it starts: from a node that is not there it reports
    node 0, at the local distance of the rows that were never initialized. *)
Lemma search_from_missing_node :
  find_closest_with_memory 5 1 (started 2 8) = Ret (Ok 0) ∧ get_node 5 (started 2 8) = Ret (Err (InvalidNodeId 5 1)) ∧
  DistanceMatrix.get (distances (started 2 8)) 5 0 = Ret LOCAL_DISTANCE ∧
  DistanceMatrix.get (distances (started 2 8)) 5 5 = Ret UNREACHABLE_DISTANCE.
Proof. split_and!; vm_compute; reflexivity. Qed.

(** The free pages are read before they are taken: two threads that each want all the
    pages of a node both get them, and the count of free pages wraps around. *)
Lemma free_pages_race :
  ∃ nd ts, rtc step (fresh 4 0, [TAlloc 4 true NumaNode.AOnline; TAlloc 4 true NumaNode.AOnline]) (nd, ts) ∧
    ts = [TAlloc 4 true (NumaNode.ADone (Ok 0)); TAlloc 4 true (NumaNode.ADone (Ok 4))] ∧
    NumaNode.free_pages nd = U64_MAX - 3.
Proof.
  eexists _, _. split.
  - do 6 (eapply rtc_l; [eapply (step_thread _ _ 0); reflexivity|]; cbn;
          eapply rtc_l; [eapply (step_thread _ _ 1); reflexivity|]; cbn).
    reflexivity.
  - split; [reflexivity|]. vm_compute. reflexivity.
Qed.
