(* ===== verification/Power.v ===== *)
(** * Power management of the kernel (mielin-kernel/src/power.rs)

    Performance states, sleep states and policies of CPUs.  The file has the definitions
    first, then the theorems.

    The static [POWER_STATE] is a record that is passed along.  A change of the performance
    state is a sequence of single accesses to atomics ([set_step]); the functions of the
    source's names are calls that nobody interrupts.  The instructions that halt a CPU are
    not modelled. *)

From stdpp Require Import base tactics option list numbers relations.
From S2P Require Import Prelude.

(* src: mielin-kernel/src/power.rs 42-59 PowerError *)
Inductive PowerError : Type :=
  NotInitialized | AlreadyInitialized | InvalidCpu | InvalidPState | InvalidCState | InvalidPolicy | HardwareNotSupported | OperationFailed.

(* src: mielin-kernel/src/power.rs 81-90 PowerPolicy *)
Inductive PowerPolicy : Type := Performance | Balanced | PowerSaver | Custom.

(* src: mielin-kernel/src/power.rs 97-106 PState *)
Record PState : Type := mkPState { state : Z; frequency_mhz : Z; voltage_mv : Z; power_mw : Z }.

(* src: mielin-kernel/src/power.rs 125-136 CState *)
Inductive CState : Type := C0 | C1 | C2 | C3 | C6.

Module CState.

(* src: mielin-kernel/src/power.rs 140-148 CState::value *)
Definition value (self : CState) : Z := match self with C0 => 0 | C1 => 1 | C2 => 2 | C3 => 3 | C6 => 6 end.
(* src: mielin-kernel/src/power.rs 151-159 CState::wakeup_latency_us *)
Definition wakeup_latency_us (self : CState) : Z := match self with C0 => 0 | C1 => 1 | C2 => 80 | C3 => 200 | C6 => 300 end.
(* src: mielin-kernel/src/power.rs 162-170 CState::power_savings_percent *)
Definition power_savings_percent (self : CState) : Z := match self with C0 => 0 | C1 => 20 | C2 => 50 | C3 => 70 | C6 => 90 end.

End CState.

(* src: mielin-kernel/src/power.rs 175-198 CpuPowerState *)
Record CpuPowerState : Type := mkCpu {
  current_pstate : Z;
  target_pstate : Z;
  current_cstate : Z;
  pstate_time : list Z;
  cstate_time : list Z;
  pstate_transitions : Z;
  cstate_transitions : Z;
  current_frequency_mhz : Z;
  current_voltage_mv : Z;
  estimated_power_mw : Z;
}.

Definition set_target (p t : Z) (c : CpuPowerState) : CpuPowerState :=
  mkCpu p t (current_cstate c) (pstate_time c) (cstate_time c) (pstate_transitions c) (cstate_transitions c)
    (current_frequency_mhz c) (current_voltage_mv c) (estimated_power_mw c).
Definition set_current (p : Z) (c : CpuPowerState) : CpuPowerState := set_target p (target_pstate c) c.
Definition set_counts (p k : Z) (c : CpuPowerState) : CpuPowerState :=
  mkCpu (current_pstate c) (target_pstate c) (current_cstate c) (pstate_time c) (cstate_time c) p k
    (current_frequency_mhz c) (current_voltage_mv c) (estimated_power_mw c).
Definition set_sleep (s : Z) (c : CpuPowerState) : CpuPowerState :=
  mkCpu (current_pstate c) (target_pstate c) s (pstate_time c) (cstate_time c) (pstate_transitions c) (cstate_transitions c)
    (current_frequency_mhz c) (current_voltage_mv c) (estimated_power_mw c).
Definition set_frequency (x : Z) (c : CpuPowerState) : CpuPowerState :=
  mkCpu (current_pstate c) (target_pstate c) (current_cstate c) (pstate_time c) (cstate_time c) (pstate_transitions c) (cstate_transitions c)
    x (current_voltage_mv c) (estimated_power_mw c).
Definition set_voltage (x : Z) (c : CpuPowerState) : CpuPowerState :=
  mkCpu (current_pstate c) (target_pstate c) (current_cstate c) (pstate_time c) (cstate_time c) (pstate_transitions c) (cstate_transitions c)
    (current_frequency_mhz c) x (estimated_power_mw c).
Definition set_power (x : Z) (c : CpuPowerState) : CpuPowerState :=
  mkCpu (current_pstate c) (target_pstate c) (current_cstate c) (pstate_time c) (cstate_time c) (pstate_transitions c) (cstate_transitions c)
    (current_frequency_mhz c) (current_voltage_mv c) x.
(** The three stores of a performance state's numbers. *)
Definition set_numbers (p : PState) (c : CpuPowerState) : CpuPowerState :=
  set_power (power_mw p) (set_voltage (voltage_mv p) (set_frequency (frequency_mhz p) c)).

(* src: mielin-kernel/src/power.rs 201-231 CpuPowerState::new *)
Definition new_cpu : CpuPowerState := mkCpu 0 0 0 (replicate 8 0) (replicate 7 0) 0 0 0 0 0.

(* src: mielin-kernel/src/power.rs 235-235 MAX_CPUS *)
Definition MAX_CPUS : Z := 16.
(* src: mielin-kernel/src/power.rs 238-238 MAX_PSTATES *)
Definition MAX_PSTATES : Z := 8.

(* src: mielin-kernel/src/power.rs 241-260 PowerState *)
Record PowerState : Type := mkPower {
  initialized : bool;
  policy : PowerPolicy;
  num_cpus : Z;
  cpu_states : list CpuPowerState;
  pstates : list (list (option PState));
  dvfs_enabled : bool;
  total_pstate_transitions : Z;
  total_cstate_transitions : Z;
  total_energy_saved_mj : Z;
}.

(* src: mielin-kernel/src/power.rs 263-279 PowerState::new *)
Definition POWER_STATE : PowerState :=
  mkPower false Balanced 0 (replicate 16 new_cpu) (replicate 16 (replicate 8 None)) false 0 0 0.

Definition set_init (b : bool) (s : PowerState) : PowerState :=
  mkPower b (policy s) (num_cpus s) (cpu_states s) (pstates s) (dvfs_enabled s) (total_pstate_transitions s) (total_cstate_transitions s) (total_energy_saved_mj s).
Definition set_pol (p : PowerPolicy) (s : PowerState) : PowerState :=
  mkPower (initialized s) p (num_cpus s) (cpu_states s) (pstates s) (dvfs_enabled s) (total_pstate_transitions s) (total_cstate_transitions s) (total_energy_saved_mj s).
Definition set_num (n : Z) (s : PowerState) : PowerState :=
  mkPower (initialized s) (policy s) n (cpu_states s) (pstates s) (dvfs_enabled s) (total_pstate_transitions s) (total_cstate_transitions s) (total_energy_saved_mj s).
Definition set_cpus (l : list CpuPowerState) (s : PowerState) : PowerState :=
  mkPower (initialized s) (policy s) (num_cpus s) l (pstates s) (dvfs_enabled s) (total_pstate_transitions s) (total_cstate_transitions s) (total_energy_saved_mj s).
Definition set_table (t : list (list (option PState))) (s : PowerState) : PowerState :=
  mkPower (initialized s) (policy s) (num_cpus s) (cpu_states s) t (dvfs_enabled s) (total_pstate_transitions s) (total_cstate_transitions s) (total_energy_saved_mj s).
Definition set_dvfs (b : bool) (s : PowerState) : PowerState :=
  mkPower (initialized s) (policy s) (num_cpus s) (cpu_states s) (pstates s) b (total_pstate_transitions s) (total_cstate_transitions s) (total_energy_saved_mj s).
Definition set_totals (p c : Z) (s : PowerState) : PowerState :=
  mkPower (initialized s) (policy s) (num_cpus s) (cpu_states s) (pstates s) (dvfs_enabled s) p c (total_energy_saved_mj s).

(** The stores to [POWER_STATE.cpu_states[cpu]]. *)
Definition with_cpu (cpu : Z) (f : CpuPowerState → CpuPowerState) (s : PowerState) : outcome PowerState :=
  let! c := arr_get (cpu_states s) cpu in
  let! l := arr_set (cpu_states s) cpu (f c) in
  Ret (set_cpus l s).

(** ** Initialization *)

(* src: mielin-kernel/src/power.rs 345-358 detect_num_cpus *)
Definition detect_num_cpus : Z := 1.

(* src: mielin-kernel/src/power.rs 368-377 detect_pstates *)
Definition default_pstates : list (option PState) :=
  [Some (mkPState 0 3000 1200 45000); Some (mkPState 1 2400 1100 25000); Some (mkPState 2 1800 1000 15000);
   Some (mkPState 3 1200 900 8000); None; None; None; None].

(* src: mielin-kernel/src/power.rs 361-393 detect_pstates *)
Definition detect_pstates (cpu : Z) (s : PowerState) : outcome (result () PowerError * PowerState) :=
  if MAX_CPUS <=? cpu then Ret (Err InvalidCpu, s) else
  let! t := arr_set (pstates s) cpu default_pstates in
  let s := set_table t s in
  let! s := with_cpu cpu (λ c, set_power 45000 (set_voltage 1200 (set_frequency 3000 (set_target 0 0 c)))) s in
  Ret (Ok (), s).

(** A loop of fallible calls, [for cpu in i..hi { f(cpu)?; }], with [k] rounds left. *)
Fixpoint try_loop (k : nat) (i : Z) (f : Z → PowerState → outcome (result () PowerError * PowerState)) (s : PowerState)
    : outcome (result () PowerError * PowerState) :=
  match k with
  | O => Ret (Ok (), s)
  | S k => let! (r, s) := f i s in match r with Ok _ => try_loop k (i + 1) f s | Err e => Ret (Err e, s) end
  end.

(** One round of the loop that resets CPUs. *)
(* src: mielin-kernel/src/power.rs 298-318 init *)
Definition reset_cpu (cpu : Z) (s : PowerState) : outcome PowerState :=
  let! s := with_cpu cpu (set_target 0 0) s in
  let! row := arr_get (pstates s) cpu in
  let! p0 := arr_get row 0 in
  match p0 with Some p => with_cpu cpu (set_numbers p) s | None => Ret s end.

(** [std]: whether the build is one for tests or has the feature [std]. *)
(* src: mielin-kernel/src/power.rs 286-342 init *)
Definition init (std : bool) (s : PowerState) : outcome (result () PowerError * PowerState) :=
  if initialized s then
    if std then
      let s := set_pol Balanced s in
      let! s := for_range 0 (num_cpus s) reset_cpu s in
      Ret (Ok (), s)
    else Ret (Err AlreadyInitialized, s)
  else
  let s := set_num detect_num_cpus s in
  let! (r, s) := try_loop (Z.to_nat (num_cpus s)) 0 detect_pstates s in
  match r with
  | Err e => Ret (Err e, s)
  | Ok _ => Ret (Ok (), set_init true (set_pol Balanced s))
  end.

(** ** Performance states *)

(* src: mielin-kernel/src/power.rs 493-515 apply_pstate_to_hardware *)
Definition apply_pstate_to_hardware (cpu : Z) (p : PState) : result () PowerError := Ok ().

(* src: mielin-kernel/src/power.rs 444-490 set_cpu_pstate *)
Definition set_cpu_pstate (cpu pstate : Z) (s : PowerState) : outcome (result () PowerError * PowerState) :=
  if negb (initialized s) then Ret (Err NotInitialized, s) else
  if MAX_CPUS <=? cpu then Ret (Err InvalidCpu, s) else
  if MAX_PSTATES <=? pstate then Ret (Err InvalidPState, s) else
  let! row := arr_get (pstates s) cpu in
  let! info := arr_get row pstate in
  match info with
  | None => Ret (Err InvalidPState, s)
  | Some info =>
      let! c := arr_get (cpu_states s) cpu in
      let old_pstate := current_pstate c in
      let! s := with_cpu cpu (set_current pstate) s in
      if negb (old_pstate =? pstate) then
        let! s := with_cpu cpu (λ c, set_counts (wrap64 (pstate_transitions c + 1)) (cstate_transitions c) c) s in
        let s := set_totals (wrap64 (total_pstate_transitions s + 1)) (total_cstate_transitions s) s in
        let! s := with_cpu cpu (set_numbers info) s in
        Ret (apply_pstate_to_hardware cpu info, s)
      else Ret (Ok (), s)
  end.

(** The accesses of a change on one CPU, from the [swap] on: [PSwap], the count and the
    total, then the three stores. *)
Inductive set_pc : Type := PSwap | PCount | PFrequency | PVoltage | PPower | PBack.

(* src: mielin-kernel/src/power.rs 461-487 set_cpu_pstate *)
Definition set_step (pstate : Z) (info : PState) (c : CpuPowerState) (pc : set_pc) : CpuPowerState * set_pc :=
  match pc with
  | PSwap => (set_current pstate c, if current_pstate c =? pstate then PBack else PCount)
  | PCount => (set_counts (wrap64 (pstate_transitions c + 1)) (cstate_transitions c) c, PFrequency)
  | PFrequency => (set_frequency (frequency_mhz info) c, PVoltage)
  | PVoltage => (set_voltage (voltage_mv info) c, PPower)
  | PPower => (set_power (power_mw info) c, PBack)
  | PBack => (c, PBack)
  end.

(* src: mielin-kernel/src/power.rs 413-432 apply_policy_to_cpu *)
Definition apply_policy_to_cpu (p : PowerPolicy) (cpu : Z) (s : PowerState) : outcome (result () PowerError * PowerState) :=
  if MAX_CPUS <=? cpu then Ret (Err InvalidCpu, s) else
  let! target := match p with
    | Performance => Ret 0
    | Balanced => Ret 1
    | PowerSaver => Ret 2
    | Custom => let! c := arr_get (cpu_states s) cpu in Ret (current_pstate c)
    end in
  set_cpu_pstate cpu target s.

(* src: mielin-kernel/src/power.rs 396-410 set_policy *)
Definition set_policy (p : PowerPolicy) (s : PowerState) : outcome (result () PowerError * PowerState) :=
  if negb (initialized s) then Ret (Err NotInitialized, s) else
  let s := set_pol p s in
  try_loop (Z.to_nat (num_cpus s)) 0 (apply_policy_to_cpu p) s.

(* src: mielin-kernel/src/power.rs 435-441 get_policy *)
Definition get_policy (s : PowerState) : result PowerPolicy PowerError :=
  if negb (initialized s) then Err NotInitialized else Ok (policy s).

(** A reader of one CPU. *)
Definition read_cpu {A} (cpu : Z) (f : CpuPowerState → A) (s : PowerState) : outcome (result A PowerError) :=
  if negb (initialized s) then Ret (Err NotInitialized) else
  if MAX_CPUS <=? cpu then Ret (Err InvalidCpu) else
  let! c := arr_get (cpu_states s) cpu in Ret (Ok (f c)).

(* src: mielin-kernel/src/power.rs 518-530 get_cpu_pstate *)
Definition get_cpu_pstate (cpu : Z) (s : PowerState) : outcome (result Z PowerError) := read_cpu cpu current_pstate s.
(* src: mielin-kernel/src/power.rs 533-545 get_cpu_frequency *)
Definition get_cpu_frequency (cpu : Z) (s : PowerState) : outcome (result Z PowerError) := read_cpu cpu current_frequency_mhz s.

(** ** Sleep states, scaling and statistics *)

(* src: mielin-kernel/src/power.rs 548-573 enter_cstate *)
Definition enter_cstate (cpu : Z) (cstate : CState) (s : PowerState) : outcome (result () PowerError * PowerState) :=
  if negb (initialized s) then Ret (Err NotInitialized, s) else
  if MAX_CPUS <=? cpu then Ret (Err InvalidCpu, s) else
  let! c := arr_get (cpu_states s) cpu in
  let old_cstate := current_cstate c in
  let! s := with_cpu cpu (set_sleep (CState.value cstate)) s in
  if negb (old_cstate =? CState.value cstate) then
    let! s := with_cpu cpu (λ c, set_counts (pstate_transitions c) (wrap64 (cstate_transitions c + 1)) c) s in
    Ret (Ok (), set_totals (total_pstate_transitions s) (wrap64 (total_cstate_transitions s + 1)) s)
  else Ret (Ok (), s).

(* src: mielin-kernel/src/power.rs 641-648 enable_dvfs *)
Definition enable_dvfs (s : PowerState) : result () PowerError * PowerState :=
  if negb (initialized s) then (Err NotInitialized, s) else (Ok (), set_dvfs true s).
(* src: mielin-kernel/src/power.rs 651-658 disable_dvfs *)
Definition disable_dvfs (s : PowerState) : result () PowerError * PowerState :=
  if negb (initialized s) then (Err NotInitialized, s) else (Ok (), set_dvfs false s).

Module PowerStats.

(* src: mielin-kernel/src/power.rs 667-680 PowerStats *)
Record PowerStats : Type := mk {
  num_cpus : Z; policy : PowerPolicy; dvfs_enabled : bool;
  total_pstate_transitions : Z; total_cstate_transitions : Z; total_energy_saved_mj : Z }.

(* src: mielin-kernel/src/power.rs 683-696 get_stats *)
Definition get_stats (s : PowerState) : result PowerStats PowerError :=
  if negb (initialized s) then Err NotInitialized else
  Ok (mk (Power.num_cpus s) (Power.policy s) (Power.dvfs_enabled s) (Power.total_pstate_transitions s)
        (Power.total_cstate_transitions s) (Power.total_energy_saved_mj s)).

End PowerStats.

Module CpuPowerStats.

(* src: mielin-kernel/src/power.rs 700-717 CpuPowerStats *)
Record CpuPowerStats : Type := mk {
  cpu : Z; pstate : Z; cstate : Z; frequency : Z; voltage : Z; power : Z; ptransitions : Z; ctransitions : Z }.

(* src: mielin-kernel/src/power.rs 720-741 get_cpu_stats *)
Definition get_cpu_stats (cpu : Z) (s : PowerState) : outcome (result CpuPowerStats PowerError) :=
  read_cpu cpu (λ c, mk cpu (current_pstate c) (as_u8 (current_cstate c)) (current_frequency_mhz c) (current_voltage_mv c)
    (estimated_power_mw c) (pstate_transitions c) (cstate_transitions c)) s.

End CpuPowerStats.

(** * Theorems *)

(** ** One CPU *)

(** The CPU runs at the numbers of the performance state it is in, which is one of those
    that were detected. *)
Definition at_pstate (c : CpuPowerState) : Prop :=
  ∃ info, 0 <= current_pstate c ∧ default_pstates !! Z.to_nat (current_pstate c) = Some (Some info) ∧
    state info = current_pstate c ∧ current_frequency_mhz c = frequency_mhz info ∧
    current_voltage_mv c = voltage_mv info ∧ estimated_power_mw c = power_mw info.

(** A CPU that was not detected: only its sleep state changes. *)
Definition undetected (c : CpuPowerState) : Prop :=
  current_pstate c = 0 ∧ current_frequency_mhz c = 0 ∧ current_voltage_mv c = 0 ∧ estimated_power_mw c = 0 ∧ pstate_transitions c = 0.

Lemma default_pstate i info : default_pstates !! i = Some (Some info) → (i < 4)%nat ∧ state info = Z.of_nat i.
Proof. do 8 (destruct i as [|i]; [cbn; intros [= <-]; cbn; lia || done|]). done. Qed.

(** The states get slower, and need less, from one to the next. *)
Lemma pstates_ordered i j p q :
  (i < j)%nat → default_pstates !! i = Some (Some p) → default_pstates !! j = Some (Some q) →
  frequency_mhz q < frequency_mhz p ∧ voltage_mv q < voltage_mv p ∧ power_mw q < power_mw p.
Proof.
  intros Hij Hp Hq. destruct (default_pstate _ _ Hp) as [Hi _]. destruct (default_pstate _ _ Hq) as [Hj _].
  destruct j as [|[|[|[|]]]]; [lia|..|lia]; destruct i as [|[|[|]]]; try lia; cbn in *; simplify_eq; cbn; lia.
Qed.

Lemma wrap64_count a b x : wrap64 a = wrap64 b → wrap64 (a - x + wrap64 (x + 1)) = wrap64 (wrap64 b + 1).
Proof.
  unfold wrap64. intros H. rewrite <-Zplus_mod_idemp_l, Zminus_mod, H, <-Zminus_mod, Zplus_mod_idemp_l, Zplus_mod_idemp_r, Zplus_mod_idemp_l.
  f_equal. lia.
Qed.

(** ** The invariant of the subsystem *)

Definition table (b : bool) : list (list (option PState)) :=
  (if b then default_pstates else replicate 8 None) :: replicate 15 (replicate 8 None).

Record consistent (s : PowerState) : Prop := {
  ok_num : num_cpus s = if initialized s then detect_num_cpus else 0;
  ok_table : pstates s = table (initialized s);
  ok_length : length (cpu_states s) = 16%nat;
  ok_cpus : ∀ i c, cpu_states s !! i = Some c → if initialized s && (i =? 0)%nat then at_pstate c else undetected c;
  ok_ptotal : total_pstate_transitions s = wrap64 (sum_by pstate_transitions (cpu_states s));
  ok_ctotal : total_cstate_transitions s = wrap64 (sum_by cstate_transitions (cpu_states s));
}.

Lemma POWER_STATE_consistent : consistent POWER_STATE.
Proof.
  split; [reflexivity..| |reflexivity|reflexivity]. intros i c Hc. cbn [initialized POWER_STATE andb] in *.
  apply lookup_replicate in Hc as [-> _]. done.
Qed.

Lemma with_cpu_ok cpu f s c :
  0 <= cpu → cpu_states s !! Z.to_nat cpu = Some c →
  with_cpu cpu f s = Ret (set_cpus (<[Z.to_nat cpu := f c]> (cpu_states s)) s).
Proof.
  intros Hc H. unfold with_cpu. rewrite (arr_get_ok _ _ _ Hc H). cbn. apply lookup_lt_Some in H.
  rewrite arr_set_ok by lia. done.
Qed.

Lemma set_cpus_twice l f i s : set_cpus (<[i := f]> (cpu_states (set_cpus l s))) (set_cpus l s) = set_cpus (<[i := f]> l) s.
Proof. done. Qed.

(** An update of one CPU keeps the invariant when the CPU stays as its kind of CPU is, and
    the totals count what the CPU counts. *)
Lemma consistent_update s i c c' p t :
  consistent s → cpu_states s !! i = Some c →
  (if initialized s && (i =? 0)%nat then at_pstate c' else undetected c') →
  p = wrap64 (sum_by pstate_transitions (cpu_states s) - pstate_transitions c + pstate_transitions c') →
  t = wrap64 (sum_by cstate_transitions (cpu_states s) - cstate_transitions c + cstate_transitions c') →
  consistent (set_totals p t (set_cpus (<[i := c']> (cpu_states s)) s)).
Proof.
  intros [? ? ? Hcpus ? ?] Hc Hc' -> ->. split; cbn -[sum_by wrap64]; [done|done|by rewrite length_insert| | |]; [|by rewrite (sum_by_insert _ _ _ c)..].
  intros j d [(<- & <- & _)|(_ & Hd)]%list_lookup_insert_Some; [done|by apply Hcpus].
Qed.

(** ** The operations *)

Lemma table_row cpu : 0 <= cpu < 16 → arr_get (table true) cpu = Ret (if cpu =? 0 then default_pstates else replicate 8 None).
Proof.
  intros Hc. apply arr_get_ok; [lia|]. destruct (Z.eqb_spec cpu 0) as [->|Hne]; [done|].
  replace (Z.to_nat cpu) with (S (Z.to_nat (cpu - 1))) by lia. unfold table. rewrite lookup_cons_ne_0 by lia. cbn [Nat.pred]. apply lookup_replicate_2. lia.
Qed.

Lemma row_pstate cpu p :
  0 <= p < 8 → ∃ o, arr_get (if cpu =? 0 then default_pstates else replicate 8 None) p = Ret o ∧
    match o with
    | Some info => cpu = 0 ∧ p < 4 ∧ default_pstates !! Z.to_nat p = Some (Some info)
    | None => cpu <> 0 ∨ 4 <= p
    end.
Proof.
  intros Hp. destruct (Z.eqb_spec cpu 0) as [->|Hne].
  - destruct (arr_get_range default_pstates p) as (o & Ho & ->); [by cbn|]. exists o. split; [done|]. destruct o as [info|].
    + destruct (default_pstate _ _ Ho). split_and!; [done|lia|done].
    + right. destruct (Z.ltb_spec p 4); [|lia].
      assert (p = 0 ∨ p = 1 ∨ p = 2 ∨ p = 3) as [-> | [-> | [-> | ->]]] by lia; done.
  - exists None. split; [|by left]. apply arr_get_ok; [lia|]. apply lookup_replicate_2. lia.
Qed.

(** What a change of the performance state answers. *)
Definition pstate_answer (s : PowerState) (cpu p : Z) : result () PowerError :=
  if negb (initialized s) then Err NotInitialized else
  if 16 <=? cpu then Err InvalidCpu else
  if (cpu =? 0) && (p <? 4) then Ok () else Err InvalidPState.

(** The two states differ at most in one CPU and in the totals. *)
Definition only_cpu (cpu : Z) (s s' : PowerState) : Prop :=
  initialized s' = initialized s ∧ policy s' = policy s ∧ dvfs_enabled s' = dvfs_enabled s ∧
  ∀ i, i ≠ Z.to_nat cpu → cpu_states s' !! i = cpu_states s !! i.

Lemma only_cpu_refl cpu s : only_cpu cpu s s.
Proof. done. Qed.

Lemma only_cpu_update cpu c p t s : only_cpu cpu s (set_totals p t (set_cpus (<[Z.to_nat cpu := c]> (cpu_states s)) s)).
Proof. split_and!; [done..|]. intros i Hi. cbn. by rewrite list_lookup_insert_ne. Qed.

(** The CPU after a change to an available state: the counter moves only when the state
    does. *)
Definition changed (p : Z) (info : PState) (c : CpuPowerState) : CpuPowerState :=
  if current_pstate c =? p then set_current p c
  else set_numbers info (set_counts (wrap64 (pstate_transitions c + 1)) (cstate_transitions c) (set_current p c)).

Lemma changed_at_pstate p info c :
  0 <= p → default_pstates !! Z.to_nat p = Some (Some info) → at_pstate c → at_pstate (changed p info c).
Proof.
  intros Hp Hi Hc. unfold changed. destruct (Z.eqb_spec (current_pstate c) p) as [<-|Hne]; [done|].
  exists info. destruct (default_pstate _ _ Hi) as [_ Hs]. cbn. split_and!; [done|done|lia|done..].
Qed.

(** A change to an available state, in one step. *)
Lemma set_cpu_pstate_run p info s c :
  consistent s → initialized s = true → 0 <= p → cpu_states s !! 0%nat = Some c →
  default_pstates !! Z.to_nat p = Some (Some info) →
  set_cpu_pstate 0 p s = Ret (Ok (), set_totals
    (if current_pstate c =? p then total_pstate_transitions s else wrap64 (total_pstate_transitions s + 1)) (total_cstate_transitions s)
    (set_cpus (<[0%nat := changed p info c]> (cpu_states s)) s)).
Proof.
  intros Hs Hi Hp Hc Hinfo. destruct (default_pstate _ _ Hinfo) as [Hlt _].
  unfold set_cpu_pstate, MAX_CPUS, MAX_PSTATES, changed. rewrite Hi, (ok_table s Hs), Hi, table_row by lia. cbn [negb Z.leb Z.compare Z.eqb obind].
  rewrite (proj2 (Z.leb_gt _ _)) by lia. rewrite (arr_get_ok _ p _ Hp Hinfo). cbn [obind].
  rewrite (arr_get_ok _ 0 c) by done. cbn [obind]. rewrite (with_cpu_ok 0 _ s c) by done. cbn [obind].
  destruct (Z.eqb_spec (current_pstate c) p) as [Heq|Hne]; cbn [negb]; [by destruct s|].
  pose proof (lookup_lt_Some _ _ _ Hc) as Hl.
  rewrite (with_cpu_ok 0 _ _ (set_current p c)) by (done || apply list_lookup_insert_eq; done). cbn [obind].
  rewrite (with_cpu_ok 0 _ _ (set_counts (wrap64 (pstate_transitions c + 1)) (cstate_transitions c) (set_current p c)))
    by (done || (cbn; apply list_lookup_insert_eq; by rewrite length_insert)).
  cbn -[wrap64]. by rewrite !list_insert_insert_eq.
Qed.

Lemma set_cpu_pstate_ok cpu p s :
  consistent s → 0 <= cpu → 0 <= p →
  returns (set_cpu_pstate cpu p s) (λ '(r, s'), consistent s' ∧ only_cpu cpu s s' ∧ r = pstate_answer s cpu p ∧
    (r = Ok () → ∃ c, cpu_states s' !! 0%nat = Some c ∧ current_pstate c = p)).
Proof.
  intros Hs Hcpu Hp. unfold pstate_answer. destruct (initialized s) eqn:Hi; cbn [negb]; [|unfold set_cpu_pstate; by rewrite Hi].
  destruct (Z.leb_spec 16 cpu); [unfold set_cpu_pstate, MAX_CPUS; rewrite Hi, (proj2 (Z.leb_le _ _)) by lia; done|].
  destruct (Z.leb_spec 8 p).
  { unfold set_cpu_pstate, MAX_CPUS, MAX_PSTATES. rewrite Hi, (proj2 (Z.leb_gt 16 _)), (proj2 (Z.leb_le 8 _)), (proj2 (Z.ltb_ge p 4)) by lia.
    by rewrite andb_false_r. }
  destruct (row_pstate cpu p) as ([info|] & Ho & Hcase); [lia|..].
  - destruct Hcase as (-> & Hp4 & Hinfo). destruct (lookup_lt_is_Some_2 (cpu_states s) 0) as [c Hc]; [rewrite (ok_length s Hs); lia|].
    pose proof (ok_cpus s Hs _ _ Hc) as Hat. rewrite Hi in Hat. cbn [andb Nat.eqb] in Hat.
    rewrite (set_cpu_pstate_run p info s c), (proj2 (Z.ltb_lt p 4)) by (done || lia). cbn [returns Z.eqb andb].
    split_and!; [|apply (only_cpu_update 0)|done|].
    + apply (consistent_update s 0 c); [done|done|rewrite Hi; by apply changed_at_pstate|..]; unfold changed; rewrite ?(ok_ptotal s Hs), ?(ok_ctotal s Hs).
      * destruct (current_pstate c =? p); cbn -[wrap64 sum_by]; [apply (f_equal wrap64); lia|]. symmetry. by apply wrap64_count.
      * destruct (current_pstate c =? p); cbn -[wrap64 sum_by]; apply (f_equal wrap64); lia.
    + intros _. eexists. split; [cbn; apply list_lookup_insert_eq; by eapply lookup_lt_Some|]. unfold changed. by destruct (current_pstate c =? p).
  - unfold set_cpu_pstate, MAX_CPUS, MAX_PSTATES. rewrite Hi, (ok_table s Hs), Hi, table_row by lia.
    rewrite !(proj2 (Z.leb_gt _ _)) by lia. cbn [negb obind]. rewrite Ho. cbn [obind returns].
    by destruct (Z.eqb_spec cpu 0), (Z.ltb_spec p 4); try lia.
Qed.

Lemma enter_cstate_ok cpu k s :
  consistent s → 0 <= cpu →
  returns (enter_cstate cpu k s) (λ '(r, s'), consistent s' ∧ only_cpu cpu s s' ∧
    r = if negb (initialized s) then Err NotInitialized else if 16 <=? cpu then Err InvalidCpu else Ok ()).
Proof.
  intros Hs Hcpu. unfold enter_cstate, MAX_CPUS. destruct (initialized s) eqn:Hi; cbn [negb]; [|done]. destruct (Z.leb_spec 16 cpu); [done|].
  destruct (lookup_lt_is_Some_2 (cpu_states s) (Z.to_nat cpu)) as [c Hc]; [rewrite (ok_length s Hs); lia|].
  pose proof (ok_cpus s Hs _ _ Hc) as Hat. pose proof (lookup_lt_Some _ _ _ Hc) as Hl.
  rewrite (arr_get_ok _ cpu c) by done. cbn [obind]. rewrite (with_cpu_ok cpu _ s c) by done. cbn [obind].
  destruct (Z.eqb_spec (current_cstate c) (CState.value k)); cbn [negb].
  - cbn [returns]. replace (set_cpus _ s) with (set_totals (total_pstate_transitions s) (total_cstate_transitions s)
      (set_cpus (<[Z.to_nat cpu := set_sleep (CState.value k) c]> (cpu_states s)) s)) by (by destruct s).
    split_and!; [|apply only_cpu_update|done]. rewrite (ok_ptotal s Hs), (ok_ctotal s Hs).
    apply (consistent_update s _ c); [done|done|by destruct (_ && _)|..]; cbn -[wrap64 sum_by]; apply (f_equal wrap64); lia.
  - rewrite (with_cpu_ok cpu _ _ (set_sleep (CState.value k) c)) by (done || by apply list_lookup_insert_eq).
    cbn [obind returns]. rewrite set_cpus_twice, list_insert_insert_eq. split_and!; [|apply only_cpu_update|done].
    apply (consistent_update s _ c); [done|done|by destruct (_ && _)|..]; cbn -[wrap64 sum_by]; rewrite ?(ok_ptotal s Hs), ?(ok_ctotal s Hs); [apply (f_equal wrap64); lia|].
    symmetry. by apply wrap64_count.
Qed.

Lemma consistent_scalars s b p : consistent s → consistent (set_pol p s) ∧ consistent (set_dvfs b s).
Proof. by intros []. Qed.

(** The performance state a policy asks for, from the one the CPU is in. *)
Definition policy_pstate (p : PowerPolicy) (now : Z) : Z := match p with Performance => 0 | Balanced => 1 | PowerSaver => 2 | Custom => now end.

Lemma apply_policy_target p s c :
  cpu_states s !! 0%nat = Some c → apply_policy_to_cpu p 0 s = set_cpu_pstate 0 (policy_pstate p (current_pstate c)) s.
Proof. intros Hc. unfold apply_policy_to_cpu. destruct p; [done..|]. by rewrite (arr_get_ok _ 0 c). Qed.

Lemma set_policy_ok p s :
  consistent s →
  returns (set_policy p s) (λ '(r, s'), consistent s' ∧ initialized s' = initialized s ∧
    if initialized s
    then r = Ok () ∧ policy s' = p ∧ ∀ c, cpu_states s !! 0%nat = Some c →
      ∃ c', cpu_states s' !! 0%nat = Some c' ∧ current_pstate c' = policy_pstate p (current_pstate c)
    else r = Err NotInitialized ∧ s' = s).
Proof.
  intros Hs. unfold set_policy. destruct (initialized s) eqn:Hi; cbn [negb]; [|done].
  assert (num_cpus (set_pol p s) = 1) as -> by (cbn [num_cpus set_pol]; rewrite (ok_num s Hs), Hi; done).
  change (Z.to_nat 1) with 1%nat. cbn [try_loop].
  destruct (lookup_lt_is_Some_2 (cpu_states s) 0) as [c Hc]; [rewrite (ok_length s Hs); lia|].
  pose proof (ok_cpus s Hs _ _ Hc) as Hat. rewrite Hi in Hat. destruct Hat as (info & Hge & Hinfo & _).
  destruct (default_pstate _ _ Hinfo) as [Hlt _]. rewrite (apply_policy_target p _ c) by done.
  set (t := policy_pstate p (current_pstate c)). assert (0 <= t < 4) as Ht by (unfold t; destruct p; cbn; lia).
  eapply returns_bind; [apply (set_cpu_pstate_ok 0 t); [by apply (consistent_scalars s true)|lia..]|].
  intros [r s'] (Hs' & (Hi' & Hp' & _ & _) & -> & Hr). unfold pstate_answer in *. cbn [initialized set_pol] in *. rewrite Hi in *.
  cbn [negb Z.leb Z.compare Z.eqb andb] in *. rewrite (proj2 (Z.ltb_lt t 4)) in * by lia.
  cbn [returns]. split_and!; [done|done|done|done|]. intros c0 Hc0. rewrite Hc in Hc0. injection Hc0 as <-. by apply Hr.
Qed.

(** The numbers of the first state are the constants that initialization stores. *)
Lemma first_at_pstate c : at_pstate (set_numbers (mkPState 0 3000 1200 45000) (set_target 0 0 c)).
Proof. by eexists. Qed.

Definition first (c : CpuPowerState) : CpuPowerState := set_numbers (mkPState 0 3000 1200 45000) (set_target 0 0 c).

Lemma reset_cpu_run s c :
  consistent s → initialized s = true → cpu_states s !! 0%nat = Some c →
  reset_cpu 0 s = Ret (set_cpus (<[0%nat := first c]> (cpu_states s)) s).
Proof.
  intros Hs Hi Hc. unfold reset_cpu. rewrite (with_cpu_ok 0 _ s c) by done. cbn [obind].
  change (pstates (set_cpus _ s)) with (pstates s). rewrite (ok_table s Hs), Hi, table_row by lia. cbn [obind Z.eqb].
  rewrite (arr_get_ok _ 0 (Some (mkPState 0 3000 1200 45000))) by done. cbn [obind].
  rewrite (with_cpu_ok 0 _ _ (set_target 0 0 c)) by (done || (apply list_lookup_insert_eq; by eapply lookup_lt_Some)).
  by rewrite set_cpus_twice, list_insert_insert_eq.
Qed.

Lemma detect_pstates_run s c :
  consistent s → cpu_states s !! 0%nat = Some c →
  detect_pstates 0 (set_num 1 s) = Ret (Ok (), set_table (table true) (set_cpus (<[0%nat := first c]> (cpu_states s)) (set_num 1 s))).
Proof.
  intros Hs Hc. unfold detect_pstates, MAX_CPUS. cbn [Z.leb Z.compare]. change (pstates (set_num 1 s)) with (pstates s).
  rewrite (ok_table s Hs), arr_set_ok by (by cbn). cbn [obind]. rewrite (with_cpu_ok 0 _ _ c) by done. done.
Qed.

Lemma init_ok std s :
  consistent s →
  returns (init std s) (λ '(r, s'), consistent s' ∧ initialized s' = true ∧
    r = (if initialized s && negb std then Err AlreadyInitialized else Ok ()) ∧
    (r = Ok () → policy s' = Balanced ∧ ∃ c, cpu_states s' !! 0%nat = Some c ∧ current_pstate c = 0)).
Proof.
  intros Hs. unfold init. destruct (lookup_lt_is_Some_2 (cpu_states s) 0) as [c Hc]; [rewrite (ok_length s Hs); lia|].
  pose proof (lookup_lt_Some _ _ _ Hc) as Hl. pose proof (first_at_pstate c) as Hat.
  destruct (initialized s) eqn:Hi; [destruct std; [|done]|].
  - assert (consistent (set_pol Balanced s)) as Hs' by apply (consistent_scalars s true), Hs.
    assert (num_cpus (set_pol Balanced s) = 1) as -> by (cbn [num_cpus set_pol]; rewrite (ok_num s Hs), Hi; done).
    unfold for_range. change (Z.to_nat (1 - 0)) with 1%nat. cbn [for_loop]. rewrite (reset_cpu_run _ c) by done. cbn [obind returns].
    split_and!; [|done|done|intros _; split; [done|]; exists (first c); split; [by apply list_lookup_insert_eq|done]].
    apply (consistent_update (set_pol Balanced s) 0 c (first c) (total_pstate_transitions s) (total_cstate_transitions s)); [done|done|by cbn; rewrite Hi|..];
      rewrite ?(ok_ptotal s Hs), ?(ok_ctotal s Hs); cbn -[wrap64 sum_by]; apply (f_equal wrap64); lia.
  - change (num_cpus (set_num detect_num_cpus s)) with 1. change (Z.to_nat 1) with 1%nat. cbn [try_loop]. unfold detect_num_cpus.
    rewrite (detect_pstates_run s c) by done. cbn [obind returns].
    split_and!; [|done|done|intros _; split; [done|]; exists (first c); split; [by apply list_lookup_insert_eq|done]].
    destruct Hs as [_ _ Hlen Hcpus Hp Hk]. rewrite Hi in Hcpus. cbn [andb] in Hcpus.
    split; cbn -[wrap64 sum_by first]; [done|done|by rewrite length_insert| | |].
    + intros i d [(<- & <- & _)|(Hne & Hd)]%list_lookup_insert_Some; [done|]. destruct i; [done|]. by apply (Hcpus (S i)).
    + rewrite (sum_by_insert _ _ _ c) by done. rewrite Hp. apply (f_equal wrap64). cbn -[sum_by]. lia.
    + rewrite (sum_by_insert _ _ _ c) by done. rewrite Hk. apply (f_equal wrap64). cbn -[sum_by]. lia.
Qed.

(** ** Sequences of calls *)

Inductive call : Type :=
| CInit (std : bool)
| CPolicy (p : PowerPolicy)
| CPState (cpu p : Z)
| CSleep (cpu : Z) (k : CState)
| CDvfs (b : bool).

(** The arguments are values of [usize]. *)
Definition call_ok (k : call) : Prop :=
  match k with CPState cpu p => 0 <= cpu ∧ 0 <= p | CSleep cpu _ => 0 <= cpu | _ => True end.

Definition apply_call (k : call) (s : PowerState) : outcome (result () PowerError * PowerState) :=
  match k with
  | CInit std => init std s
  | CPolicy p => set_policy p s
  | CPState cpu p => set_cpu_pstate cpu p s
  | CSleep cpu k => enter_cstate cpu k s
  | CDvfs b => Ret (if b then enable_dvfs s else disable_dvfs s)
  end.

Fixpoint apply_calls (l : list call) (s : PowerState) : outcome PowerState :=
  match l with [] => Ret s | k :: l => let! (_, s) := apply_call k s in apply_calls l s end.

Lemma apply_call_ok k s : call_ok k → consistent s → returns (apply_call k s) (λ '(_, s'), consistent s').
Proof.
  intros Hk Hs. destruct k as [std|p|cpu p|cpu c|b]; cbn [apply_call call_ok] in *.
  - eapply returns_mono; [by apply init_ok|]. intros [r s'] H. apply H.
  - eapply returns_mono; [by apply set_policy_ok|]. intros [r s'] H. apply H.
  - eapply returns_mono; [apply set_cpu_pstate_ok; naive_solver|]. intros [r s'] H. apply H.
  - eapply returns_mono; [apply enter_cstate_ok; naive_solver|]. intros [r s'] H. apply H.
  - unfold enable_dvfs, disable_dvfs. cbn [returns]. destruct b, (negb _); [done|by apply (consistent_scalars s _ Balanced)|done|by apply (consistent_scalars s _ Balanced)].
Qed.

Lemma apply_calls_ok l s : Forall call_ok l → consistent s → returns (apply_calls l s) consistent.
Proof.
  intros Hl. revert s. induction Hl as [|k l Hk _ IH]; intros s Hs; [done|].
  cbn [apply_calls]. eapply returns_bind; [by apply apply_call_ok|]. intros [r s'] Hs'. by apply IH.
Qed.

(** C32. The power state stays consistent over any sequence of calls from the initial
    static, and no call panics: the CPU that was detected runs at the frequency, voltage and
    power of the performance state that it reports, which is one of the available ones; the
    other CPUs never leave their initial numbers; and the two totals are the sums of the
    CPUs' counts of transitions, up to the wrap-around of the counters. *)
Theorem power_consistent l : Forall call_ok l → returns (apply_calls l POWER_STATE) consistent.
Proof. intros Hl. apply apply_calls_ok; [done|apply POWER_STATE_consistent]. Qed.

Lemma power_consistent_witness :
  returns (apply_calls [CInit false; CPolicy PowerSaver; CSleep 3 C6; CPState 0 3; CInit false; CPState 9 1] POWER_STATE) consistent.
Proof. apply power_consistent. repeat (apply list.Forall_cons; split; [cbn; lia|]); apply Forall_nil_2. Defined.

(** After initialization a policy is applied: the detected CPU is in the policy's
    performance state and runs at its frequency. *)
Theorem policy_applied l p :
  Forall call_ok l →
  returns (let! s := apply_calls l POWER_STATE in let! (_, s) := init true s in let! (_, s) := set_policy p s in
           let! n := get_cpu_pstate 0 s in let! f := get_cpu_frequency 0 s in Ret (get_policy s, n, f))
    (λ x, x = (Ok p, Ok (policy_pstate p 0), Ok (match p with Performance | Custom => 3000 | Balanced => 2400 | PowerSaver => 1800 end))).
Proof.
  intros Hl. eapply returns_bind; [apply apply_calls_ok; [done|apply POWER_STATE_consistent]|]. intros s Hs.
  eapply returns_bind; [by apply (init_ok true)|]. intros [r1 s1] (Hs1 & Hi1 & Hr & H1). rewrite andb_false_r in Hr.
  destruct (H1 Hr) as (_ & c & Hc & Hc0). eapply returns_bind; [by apply (set_policy_ok p)|].
  intros [r2 s2] (Hs2 & Hi2 & H2). rewrite Hi1 in H2, Hi2. destruct H2 as (_ & <- & H2). destruct (H2 c Hc) as (c2 & Hc2 & Hp2).
  unfold get_cpu_pstate, get_cpu_frequency, get_policy, read_cpu. rewrite Hi2. cbn [negb MAX_CPUS Z.leb Z.compare].
  rewrite (arr_get_ok _ 0 c2) by done. cbn [obind returns]. rewrite Hp2, Hc0. do 2 f_equal.
  pose proof (ok_cpus s2 Hs2 _ _ Hc2) as Hat. rewrite Hi2 in Hat. destruct Hat as (info & _ & Hinfo & _ & -> & _).
  rewrite Hp2, Hc0 in Hinfo. by destruct (policy s2); injection Hinfo as <-.
Qed.

(** ** What the module does not do *)

(** The policy after initialization is [Balanced], but the CPU is not in that policy's
    state: it stays at the fastest until somebody sets the policy again. *)
Lemma balanced_but_fastest :
  returns (let! (_, s) := init false POWER_STATE in let! p := get_cpu_pstate 0 s in Ret (get_policy s, p)) (λ x, x = (Ok Balanced, Ok 0)).
Proof. reflexivity. Qed.

(** A CPU beyond the detected ones is not an error for the readers and the sleep states:
    it is reported to run at 0 MHz, and its sleeps are counted in the totals. *)
Lemma undetected_cpu_answers :
  returns (let! (_, s) := init false POWER_STATE in let! (r, s) := enter_cstate 7 C3 s in let! f := get_cpu_frequency 7 s in
           Ret (r, f, num_cpus s, total_cstate_transitions s)) (λ x, x = (Ok (), Ok 0, 1, 1)).
Proof. reflexivity. Qed.

(** The CPU that returns from a sleep state still reports that state: nothing stores [C0],
    so the second of two sleeps in the same state is not counted. *)
Lemma awake_but_asleep :
  returns (let! (_, s) := init false POWER_STATE in let! (_, s) := enter_cstate 0 C1 s in let! (_, s) := enter_cstate 0 C1 s in
           let! st := CpuPowerStats.get_cpu_stats 0 s in
           Ret (match st with Ok st => Some (CpuPowerStats.cstate st, CpuPowerStats.ctransitions st) | Err _ => None end))
    (λ x, x = Some (1, 1)).
Proof. reflexivity. Qed.

(** Two threads that set the state of one CPU, each after its [swap]: the threads take turns
    by the numbers in the list. *)
Fixpoint two_threads (turns : list bool) (p q : Z) (a b : PState) (c : CpuPowerState) (pcs : set_pc * set_pc) : CpuPowerState * (set_pc * set_pc) :=
  match turns with
  | [] => (c, pcs)
  | t :: turns =>
      if t then let '(c, x) := set_step p a c pcs.1 in two_threads turns p q a b c (x, pcs.2)
      else let '(c, y) := set_step q b c pcs.2 in two_threads turns p q a b c (pcs.1, y)
  end.

(** A thread alone makes the change that the call makes. *)
Lemma set_step_alone p info c q b :
  two_threads [true; true; true; true; true] p q info b c (PSwap, PBack) = (changed p info c, (PBack, PBack)).
Proof. unfold changed. cbn -[wrap64]. by destruct (current_pstate c =? p). Qed.

(** Two changes at once leave a CPU whose performance state is not the one of its
    frequency: the numbers are stored after the state, without a lock. *)
Lemma racing_changes :
  let P1 := mkPState 1 2400 1100 25000 in let P3 := mkPState 3 1200 900 8000 in
  let '(c, pcs) := two_threads [true; false; false; false; false; false; true; true; true; true] 1 3 P1 P3 (first new_cpu) (PSwap, PSwap) in
  pcs = (PBack, PBack) ∧ current_pstate c = 3 ∧ current_frequency_mhz c = 2400 ∧ ¬ at_pstate c.
Proof. cbn -[at_pstate]. split_and!; [done..|]. intros (info & _ & [= <-] & _ & [=] & _). Qed.
