(* ===== verification/Heap.v ===== *)
(** * The kernel heap (mielin-kernel/src/heap.rs)

    The bump allocator, the heap that sends small requests to the block pools
    and the others to the bump allocator, the out-of-memory path, the profiling
    hook with the built-in profiler, and the statistics.

    The heap is written against the interface [SmallAllocator], which the pools
    implement.  The out-of-memory handler is a function the client installs and
    is a parameter.  Headers and client bytes that the code writes are the maps
    [h_headers] and [h_mem].  Between the load of [next] and its
    compare-exchange no other thread runs, so the exchange, a strong one,
    succeeds at the first try. *)

From stdpp Require Import base tactics option list numbers gmap.
From S2P Require Import Prelude Pool.

(** ** Layouts (core::alloc::Layout) *)

Record Layout : Type := mkLayout {
  size : Z;
  align : Z;
}.

#[export] Instance Layout_eq_dec : EqDecision Layout.
Proof. solve_decision. Defined.

(** [is_power_of_two] on [usize]. *)
Definition is_power_of_two (n : Z) : bool := (0 <? n) && (Z.land n (n - 1) =? 0).

(** [Layout::from_size_align]: the alignment is a power of two, and the size
    rounded up to it does not exceed [isize::MAX]. *)
Definition from_size_align (size align : Z) : option Layout :=
  if is_power_of_two align && (size <=? 9223372036854775807 - (align - 1))
  then Some (mkLayout size align) else None.

(** ** Constants and headers *)

(* src: mielin-kernel/src/heap.rs 39-39 MAX_POOL_SIZE *)
Definition MAX_POOL_SIZE : Z := 4096.
(* src: mielin-kernel/src/heap.rs 42-42 DEFAULT_HEAP_SIZE *)
Definition DEFAULT_HEAP_SIZE : Z := 1024 * 1024.
(* src: mielin-kernel/src/heap.rs 45-45 MIN_ALIGNMENT *)
Definition MIN_ALIGNMENT : Z := 8.

(* src: mielin-kernel/src/heap.rs 49-56 AllocationHeader *)
Record AllocationHeader : Type := mkHeader {
  hdr_size : Z;
  hdr_align : Z;
  hdr_magic : Z;
}.

(** [size_of::<AllocationHeader>()]: two [usize] and a [u32], padded to 8. *)
Definition header_size : Z := 24.

Module AllocationHeader.
(* src: mielin-kernel/src/heap.rs 59-59 AllocationHeader::MAGIC *)
Definition MAGIC : Z := 3735928559.
(* src: mielin-kernel/src/heap.rs 61-67 AllocationHeader::new *)
Definition new (size align : Z) : AllocationHeader := mkHeader size align MAGIC.
(* src: mielin-kernel/src/heap.rs 70-72 AllocationHeader::is_valid *)
Definition is_valid (self : AllocationHeader) : bool := hdr_magic self =? MAGIC.
End AllocationHeader.

(* src: mielin-kernel/src/heap.rs 494-501 align_up *)
Definition align_up (addr align : Z) : outcome Z :=
  let! remainder := usize_rem addr align in
  if remainder =? 0 then Ret addr
  else let! s := usize_add addr align in usize_sub s remainder.

(** ** The bump allocator *)

(* src: mielin-kernel/src/heap.rs 79-88 BumpAllocator *)
Record BumpAllocator : Type := mkBump {
  heap_start : Z;
  heap_end : Z;
  next : Z;
  allocations : Z;
}.

Module BumpAllocator.

(* src: mielin-kernel/src/heap.rs 91-98 BumpAllocator::new *)
Definition new : BumpAllocator := mkBump 0 0 0 0.

(* src: mielin-kernel/src/heap.rs 104-110 BumpAllocator::init *)
Definition init (self : BumpAllocator) (heap_start heap_size : Z) : outcome BumpAllocator :=
  let! e := usize_add heap_start heap_size in
  Ret (mkBump heap_start e heap_start 0).

(* src: mielin-kernel/src/heap.rs 114-116 BumpAllocator::is_initialized *)
Definition is_initialized (self : BumpAllocator) : bool := negb (heap_start self =? 0).

(* src: mielin-kernel/src/heap.rs 119-148 BumpAllocator::allocate *)
Definition allocate (self : BumpAllocator) (layout : Layout) : outcome (option Z * BumpAllocator) :=
  let! alloc_start := align_up (next self) (align layout) in
  match checked_add alloc_start (size layout) with
  | None => Ret (None, self)
  | Some alloc_end =>
    if heap_end self <? alloc_end then Ret (None, self) else
    let! aligned_start := align_up (next self) (align layout) in
    match checked_add aligned_start (size layout) with
    | None => Ret (None, self)
    | Some new_end =>
      if heap_end self <? new_end then Ret (None, self) else
      Ret (if aligned_start =? 0 then None else Some aligned_start,
           mkBump (heap_start self) (heap_end self) new_end (wrap64 (allocations self + 1)))
    end
  end.

(* src: mielin-kernel/src/heap.rs 151-159 BumpAllocator::deallocate *)
Definition deallocate (self : BumpAllocator) : BumpAllocator :=
  let prev := allocations self in
  mkBump (heap_start self) (heap_end self)
    (if prev =? 1 then heap_start self else next self) (wrap64 (prev - 1)).

(* src: mielin-kernel/src/heap.rs 162-166 BumpAllocator::used *)
Definition used (self : BumpAllocator) : Z := saturating_sub (next self) (heap_start self).

(* src: mielin-kernel/src/heap.rs 169-173 BumpAllocator::free *)
Definition free (self : BumpAllocator) : Z := saturating_sub (heap_end self) (next self).

(* src: mielin-kernel/src/heap.rs 176-180 BumpAllocator::total *)
Definition total (self : BumpAllocator) : Z := saturating_sub (heap_end self) (heap_start self).

End BumpAllocator.

(** ** Out-of-memory counters *)

(* src: mielin-kernel/src/heap.rs 574-581 OomStats *)
Record OomStats : Type := mkOomStats {
  oom_count : Z;
  recovery_count : Z;
  failed_count : Z;
}.

(* src: mielin-kernel/src/heap.rs 598-605 record_oom *)
Definition record_oom (recovered : bool) (o : OomStats) : OomStats :=
  if recovered
  then mkOomStats (wrap64 (oom_count o + 1)) (wrap64 (recovery_count o + 1)) (failed_count o)
  else mkOomStats (wrap64 (oom_count o + 1)) (recovery_count o) (wrap64 (failed_count o + 1)).

(** ** Profiling *)

(* src: mielin-kernel/src/heap.rs 613-643 AllocationEvent *)
Inductive AllocationEvent : Type :=
| EvAlloc (size align ptr : Z) (is_pool : bool)
| EvDealloc (ptr size : Z)
| EvRealloc (old_ptr old_size new_ptr new_size : Z).

(* src: mielin-kernel/src/heap.rs 725-744 ProfilingStats *)
Record ProfilingStats : Type := mkProfile {
  alloc_count : Z;
  dealloc_count : Z;
  realloc_count : Z;
  total_bytes_allocated : Z;
  total_bytes_deallocated : Z;
  current_bytes : Z;
  peak_bytes : Z;
  pool_allocs : Z;
  bump_allocs : Z;
}.

(** The loop that raises the peak ends with the larger value. *)
Definition raise_peak (current peak : Z) : Z := if peak <? current then current else peak.

(* src: mielin-kernel/src/heap.rs 761-828 builtin_profiler *)
Definition builtin_profiler (event : AllocationEvent) (s : ProfilingStats) : outcome ProfilingStats :=
  match event with
  | EvAlloc size _ _ is_pool =>
    let! current := usize_add (current_bytes s) size in
    Ret (mkProfile (wrap64 (alloc_count s + 1)) (dealloc_count s) (realloc_count s)
           (wrap64 (total_bytes_allocated s + size)) (total_bytes_deallocated s)
           (wrap64 (current_bytes s + size)) (raise_peak current (peak_bytes s))
           (if is_pool then wrap64 (pool_allocs s + 1) else pool_allocs s)
           (if is_pool then bump_allocs s else wrap64 (bump_allocs s + 1)))
  | EvDealloc _ size =>
    Ret (mkProfile (alloc_count s) (wrap64 (dealloc_count s + 1)) (realloc_count s)
           (total_bytes_allocated s) (wrap64 (total_bytes_deallocated s + size))
           (wrap64 (current_bytes s - Z.min size (current_bytes s))) (peak_bytes s)
           (pool_allocs s) (bump_allocs s))
  | EvRealloc _ old_size _ new_size =>
    if old_size <? new_size then
      let! diff := usize_sub new_size old_size in
      let! current := usize_add (current_bytes s) diff in
      Ret (mkProfile (alloc_count s) (dealloc_count s) (wrap64 (realloc_count s + 1))
             (wrap64 (total_bytes_allocated s + diff)) (total_bytes_deallocated s)
             (wrap64 (current_bytes s + diff)) (raise_peak current (peak_bytes s))
             (pool_allocs s) (bump_allocs s))
    else
      let! diff := usize_sub old_size new_size in
      Ret (mkProfile (alloc_count s) (dealloc_count s) (wrap64 (realloc_count s + 1))
             (total_bytes_allocated s) (wrap64 (total_bytes_deallocated s + diff))
             (wrap64 (current_bytes s - Z.min diff (current_bytes s))) (peak_bytes s)
             (pool_allocs s) (bump_allocs s))
  end.

(* src: mielin-kernel/src/heap.rs 846-856 reset_profiling_stats *)
Definition reset_profiling_stats : ProfilingStats := mkProfile 0 0 0 0 0 0 0 0 0.

(** ** What the heap needs of the pools *)

Class SmallAllocator (P : Type) : Type := {
  sa_init : P → outcome P;
  sa_allocate : (nat → bool) → P → Z → outcome (option PoolAllocation * P);
  sa_deallocate : (nat → bool) → P → PoolAllocation → outcome P;
  sa_stats : P → PoolStats;
}.

(** ** The heap allocator *)

(* src: mielin-kernel/src/heap.rs 205-218 HeapAllocator *)
Record HeapAllocator : Type := mkHeapAllocator {
  bump : BumpAllocator;
  initialized : bool;
  pool_allocations : Z;
  pool_deallocations : Z;
  bump_allocations : Z;
  bump_deallocations : Z;
}.

(* src: mielin-kernel/src/heap.rs 421-442 HeapStats *)
Record HeapStats : Type := mkHeapStats {
  hs_pool_total : Z;
  hs_pool_used : Z;
  hs_pool_free : Z;
  hs_pool_allocations : Z;
  hs_pool_deallocations : Z;
  hs_bump_total : Z;
  hs_bump_used : Z;
  hs_bump_free : Z;
  hs_bump_allocations : Z;
  hs_bump_deallocations : Z;
}.

Module HeapStats.
(* src: mielin-kernel/src/heap.rs 446-448 HeapStats::total *)
Definition total (s : HeapStats) : outcome Z := usize_add (hs_pool_total s) (hs_bump_total s).
(* src: mielin-kernel/src/heap.rs 451-453 HeapStats::used *)
Definition used (s : HeapStats) : outcome Z := usize_add (hs_pool_used s) (hs_bump_used s).
(* src: mielin-kernel/src/heap.rs 456-458 HeapStats::free *)
Definition free (s : HeapStats) : outcome Z := usize_add (hs_pool_free s) (hs_bump_free s).
(* src: mielin-kernel/src/heap.rs 461-463 HeapStats::total_allocations *)
Definition total_allocations (s : HeapStats) : outcome Z :=
  usize_add (hs_pool_allocations s) (hs_bump_allocations s).
(* src: mielin-kernel/src/heap.rs 466-468 HeapStats::total_deallocations *)
Definition total_deallocations (s : HeapStats) : outcome Z :=
  usize_add (hs_pool_deallocations s) (hs_bump_deallocations s).
(* src: mielin-kernel/src/heap.rs 471-474 HeapStats::active_allocations *)
Definition active_allocations (s : HeapStats) : outcome Z :=
  let! a := total_allocations s in
  let! d := total_deallocations s in
  Ret (saturating_sub a d).
End HeapStats.

(** The heap with the statics of its module: the pools, the out-of-memory and
    profiling counters, the hook, and the memory written. *)
Record Heap (P : Type) : Type := mkHeap {
  h_alloc : HeapAllocator;
  h_pool : P;
  h_oom : OomStats;
  h_profiling : bool;
  h_hook : option (AllocationEvent → ProfilingStats → outcome ProfilingStats);
  h_profile : ProfilingStats;
  h_headers : gmap Z AllocationHeader;
  h_mem : gmap Z Z;
}.
Arguments mkHeap {P}.
Arguments h_alloc {P}.
Arguments h_pool {P}.
Arguments h_oom {P}.
Arguments h_profiling {P}.
Arguments h_hook {P}.
Arguments h_profile {P}.
Arguments h_headers {P}.
Arguments h_mem {P}.

Module HeapAllocator.
Section heap.
Context {P : Type} `{SmallAllocator P}.

(** The installed out-of-memory handler; it may give memory back. *)
Variable oom_handler : Layout → Heap P → outcome (bool * Heap P).

Definition set_alloc (a : HeapAllocator) (h : Heap P) : Heap P :=
  mkHeap a (h_pool h) (h_oom h) (h_profiling h) (h_hook h) (h_profile h) (h_headers h) (h_mem h).
Definition set_pool (p : P) (h : Heap P) : Heap P :=
  mkHeap (h_alloc h) p (h_oom h) (h_profiling h) (h_hook h) (h_profile h) (h_headers h) (h_mem h).
Definition set_oom (o : OomStats) (h : Heap P) : Heap P :=
  mkHeap (h_alloc h) (h_pool h) o (h_profiling h) (h_hook h) (h_profile h) (h_headers h) (h_mem h).
Definition set_profile (s : ProfilingStats) (h : Heap P) : Heap P :=
  mkHeap (h_alloc h) (h_pool h) (h_oom h) (h_profiling h) (h_hook h) s (h_headers h) (h_mem h).
Definition set_headers (m : gmap Z AllocationHeader) (h : Heap P) : Heap P :=
  mkHeap (h_alloc h) (h_pool h) (h_oom h) (h_profiling h) (h_hook h) (h_profile h) m (h_mem h).
Definition set_mem (m : gmap Z Z) (h : Heap P) : Heap P :=
  mkHeap (h_alloc h) (h_pool h) (h_oom h) (h_profiling h) (h_hook h) (h_profile h) (h_headers h) m.

Definition set_bump (b : BumpAllocator) (a : HeapAllocator) : HeapAllocator :=
  mkHeapAllocator b (initialized a) (pool_allocations a) (pool_deallocations a)
    (bump_allocations a) (bump_deallocations a).

(* src: mielin-kernel/src/heap.rs 222-231 HeapAllocator::new *)
Definition new : HeapAllocator := mkHeapAllocator BumpAllocator.new false 0 0 0 0.

(* src: mielin-kernel/src/heap.rs 239-247 HeapAllocator::init *)
Definition init (h : Heap P) (heap_start heap_size : Z) : outcome (Heap P) :=
  let! p := sa_init (h_pool h) in
  let a := h_alloc h in
  let! b := BumpAllocator.init (bump a) heap_start heap_size in
  Ret (set_alloc
         (mkHeapAllocator b true (pool_allocations a) (pool_deallocations a)
            (bump_allocations a) (bump_deallocations a))
         (set_pool p h)).

(* src: mielin-kernel/src/heap.rs 255-270 HeapAllocator::stats *)
Definition stats (h : Heap P) : outcome HeapStats :=
  let pool_stats := sa_stats (h_pool h) in
  let a := h_alloc h in
  let! pool_total := PoolStats.total_memory pool_stats in
  let! pool_used := PoolStats.allocated_memory pool_stats in
  let! pool_free := PoolStats.free_memory pool_stats in
  Ret (mkHeapStats pool_total pool_used pool_free (pool_allocations a) (pool_deallocations a)
         (BumpAllocator.total (bump a)) (BumpAllocator.used (bump a)) (BumpAllocator.free (bump a))
         (bump_allocations a) (bump_deallocations a)).

(* src: mielin-kernel/src/heap.rs 712-721 call_hook *)
Definition call_hook (event : AllocationEvent) (h : Heap P) : outcome (Heap P) :=
  if h_profiling h then
    match h_hook h with
    | Some hook => let! s := hook event (h_profile h) in Ret (set_profile s h)
    | None => Ret h
    end
  else Ret h.

(** [max_padding] of [alloc_with_retry]. *)
Definition max_padding (align : Z) : outcome Z :=
  if header_size <? align then
    let! r := usize_rem header_size align in usize_sub align r
  else Ret 0.

(** The request served by the bump allocator; [failed] is what follows when it
    has no room. *)
(* src: mielin-kernel/src/heap.rs 298-338 HeapAllocator::alloc_with_retry *)
Definition bump_path (layout : Layout) (failed : Heap P → outcome (Z * Heap P)) (h : Heap P)
    : outcome (Z * Heap P) :=
  let size := size layout in
  let align := Z.max (align layout) MIN_ALIGNMENT in
  let! padding := max_padding align in
  let! hp := usize_add header_size padding in
  let! total_size := usize_add hp size in
  let alloc_layout := default layout (from_size_align total_size 8) in
  let a := h_alloc h in
  let! (r, b) := BumpAllocator.allocate (bump a) alloc_layout in
  let h1 := set_alloc (set_bump b a) h in
  match r with
  | Some base_addr =>
    let! after := usize_add base_addr header_size in
    let! data_addr := align_up after align in
    let! header_addr := usize_sub data_addr header_size in
    let h2 := set_headers (<[header_addr := AllocationHeader.new total_size align]> (h_headers h1)) h1 in
    let h3 := set_alloc (mkHeapAllocator b (initialized a) (pool_allocations a) (pool_deallocations a)
                           (wrap64 (bump_allocations a + 1)) (bump_deallocations a)) h2 in
    let! h4 := call_hook (EvAlloc size align data_addr false) h3 in
    Ret (data_addr, h4)
  | None => failed h1
  end.

(** One attempt: nothing before initialization, then the pools for small
    requests of standard alignment, then the bump allocator. *)
Definition attempt (weak : nat → bool) (layout : Layout) (failed : Heap P → outcome (Z * Heap P))
    (h : Heap P) : outcome (Z * Heap P) :=
  if negb (initialized (h_alloc h)) then Ret (0, h) else
  let align := Z.max (align layout) MIN_ALIGNMENT in
  if (size layout <=? MAX_POOL_SIZE) && (align <=? MIN_ALIGNMENT) then
    let! (r, p) := sa_allocate weak (h_pool h) (size layout) in
    let h1 := set_pool p h in
    match r with
    | Some alloc =>
      let a := h_alloc h1 in
      let h2 := set_alloc (mkHeapAllocator (bump a) (initialized a) (wrap64 (pool_allocations a + 1))
                             (pool_deallocations a) (bump_allocations a) (bump_deallocations a)) h1 in
      let! h3 := call_hook (EvAlloc (size layout) align (ptr alloc) true) h2 in
      Ret (ptr alloc, h3)
    | None => bump_path layout failed h1
    end
  else bump_path layout failed h.

Definition oom_result (h : Heap P) : outcome (Z * Heap P) :=
  Ret (0, set_oom (record_oom false (h_oom h)) h).

(* src: mielin-kernel/src/heap.rs 275-349 HeapAllocator::alloc_with_retry *)
Definition alloc_with_retry (weak : nat → bool) (h : Heap P) (layout : Layout) (allow_retry : bool)
    : outcome (Z * Heap P) :=
  attempt weak layout
    (λ h1,
      if allow_retry then
        let! (retry, h2) := oom_handler layout h1 in
        if retry
        then attempt weak layout oom_result (set_oom (record_oom true (h_oom h2)) h2)
        else oom_result h2
      else oom_result h1) h.

(* src: mielin-kernel/src/heap.rs 353-355 HeapAllocator::alloc *)
Definition alloc (weak : nat → bool) (h : Heap P) (layout : Layout) : outcome (Z * Heap P) :=
  alloc_with_retry weak h layout true.

(* src: mielin-kernel/src/heap.rs 357-388 HeapAllocator::dealloc *)
Definition dealloc (weak : nat → bool) (h : Heap P) (ptr : Z) (layout : Layout) : outcome (Heap P) :=
  if (ptr =? 0) || negb (initialized (h_alloc h)) then Ret h else
  let size := size layout in
  let! h1 := call_hook (EvDealloc ptr size) h in
  let a := h_alloc h1 in
  match (if size <=? MAX_POOL_SIZE then BlockSize.for_size size else None) with
  | Some block_size =>
    let! p := sa_deallocate weak (h_pool h1) (mkPoolAllocation ptr block_size size) in
    Ret (set_alloc (mkHeapAllocator (bump a) (initialized a) (pool_allocations a)
                      (wrap64 (pool_deallocations a + 1)) (bump_allocations a) (bump_deallocations a))
           (set_pool p h1))
  | None =>
    Ret (set_alloc (mkHeapAllocator (BumpAllocator.deallocate (bump a)) (initialized a)
                      (pool_allocations a) (pool_deallocations a) (bump_allocations a)
                      (wrap64 (bump_deallocations a + 1))) h1)
  end.

(** [copy_nonoverlapping]: bytes never written stay unwritten. *)
Fixpoint copy_bytes (n : nat) (src dst : Z) (m : gmap Z Z) : gmap Z Z :=
  match n with
  | O => m
  | S n' =>
    let m' := copy_bytes n' src dst m in
    match m !! (src + Z.of_nat n') with
    | Some x => <[dst + Z.of_nat n' := x]> m'
    | None => delete (dst + Z.of_nat n') m'
    end
  end.

(* src: mielin-kernel/src/heap.rs 390-411 HeapAllocator::realloc *)
Definition realloc (weak : nat → bool) (h : Heap P) (ptr : Z) (layout : Layout) (new_size : Z)
    : outcome (Z * Heap P) :=
  let new_layout := mkLayout new_size (align layout) in
  let! (new_ptr, h1) := alloc weak h new_layout in
  if negb (new_ptr =? 0) && negb (ptr =? 0) then
    let copy_size := Z.min (size layout) new_size in
    let h2 := set_mem (copy_bytes (Z.to_nat copy_size) ptr new_ptr (h_mem h1)) h1 in
    let! h3 := call_hook (EvRealloc ptr (size layout) new_ptr new_size) h2 in
    let! h4 := dealloc weak h3 ptr layout in
    Ret (new_ptr, h4)
  else Ret (new_ptr, h1).

(* src: mielin-kernel/src/heap.rs 525-527 default_oom_handler *)
Definition default_oom_handler (_layout : Layout) (h : Heap P) : outcome (bool * Heap P) :=
  Ret (false, h).

(** The statics of the module before [init], with the pools as given. *)
Definition boot (p : P) : Heap P :=
  mkHeap new p (mkOomStats 0 0 0) false None reset_profiling_stats ∅ ∅.

(* src: mielin-kernel/src/heap.rs 688-690 set_allocation_hook *)
Definition set_allocation_hook (hook : AllocationEvent → ProfilingStats → outcome ProfilingStats)
    (h : Heap P) : Heap P :=
  mkHeap (h_alloc h) (h_pool h) (h_oom h) (h_profiling h) (Some hook) (h_profile h) (h_headers h) (h_mem h).

(* src: mielin-kernel/src/heap.rs 693-695 clear_allocation_hook *)
Definition clear_allocation_hook (h : Heap P) : Heap P :=
  mkHeap (h_alloc h) (h_pool h) (h_oom h) (h_profiling h) None (h_profile h) (h_headers h) (h_mem h).

(* src: mielin-kernel/src/heap.rs 701-703 enable_profiling *)
Definition enable_profiling (enabled : bool) (h : Heap P) : Heap P :=
  mkHeap (h_alloc h) (h_pool h) (h_oom h) enabled (h_hook h) (h_profile h) (h_headers h) (h_mem h).

End heap.
End HeapAllocator.

(** The pools as the heap's small allocator; [arenas] is where the system heap
    puts them. *)
#[export] Instance pools_small_allocator (arenas : nat → Z) : SmallAllocator PoolAllocator := {|
  sa_init := PoolAllocator.init arenas;
  sa_allocate := PoolAllocator.allocate;
  sa_deallocate := PoolAllocator.deallocate;
  sa_stats := PoolAllocator.stats;
|}.
