(* ===== verification/HeapInv.v ===== *)
(** * The heap's invariants

    Alignment arithmetic, the bump allocator with its live blocks ([bump_ok]),
    the laws the heap expects of its small allocator ([SmallAllocatorLaws],
    which the pools satisfy), and the heap with its live pointers ([heap_ok]). *)

From stdpp Require Import base tactics option list numbers gmap relations.
From S2P Require Import Prelude Pool PoolInv Heap.

(** ** Alignment *)

Lemma align_up_spec addr al :
  0 <= addr → 0 < al → addr + al <= U64_MAX →
  ∃ r, align_up addr al = Ret r ∧ addr <= r < addr + al ∧ r mod al = 0.
Proof.
  intros Ha Hal Hmax. unfold align_up. pose proof (Z.mod_pos_bound addr al Hal) as Hb.
  pose proof (Z.mod_le addr al Ha Hal). rewrite usize_rem_ok by lia. cbn [obind].
  destruct (Z.eqb_spec (addr mod al) 0) as [H0|H0]; [exists addr; split; [done|lia]|].
  rewrite usize_add_ok by lia. cbn [obind]. rewrite usize_sub_ok by lia.
  eexists. split; [done|]. split; [lia|].
  replace (addr + al - addr mod al) with ((addr / al + 1) * al) by (pose proof (Z.div_mod addr al); lia).
  apply Z.mod_mul. lia.
Qed.

Lemma align_up_aligned addr al : 0 < al → addr mod al = 0 → align_up addr al = Ret addr.
Proof. intros Hal H0. unfold align_up. rewrite usize_rem_ok by lia. cbn [obind]. by rewrite H0. Qed.

(** ** The bump allocator *)

(** A reserved range of bytes: start and length. *)
Abbreviation range := (Z * Z)%type.

Definition ranges_disjoint (x y : range) : Prop := x.1 + x.2 <= y.1 ∨ y.1 + y.2 <= x.1.

Definition sum_len (l : list range) : Z := foldr (λ r acc, r.2 + acc) 0 l.

Record bump_ok (b : BumpAllocator) (live : list range) : Prop := {
  bo_start : 0 < heap_start b <= next b;
  bo_end : next b <= heap_end b <= 9223372036854775744;
  bo_in : ∀ r, r ∈ live → heap_start b <= r.1 ∧ 0 < r.2 ∧ r.1 + r.2 <= next b;
  bo_disj : ∀ i j r s, live !! i = Some r → live !! j = Some s → i ≠ j → ranges_disjoint r s;
  bo_sum : sum_len live <= next b - heap_start b;
  bo_count : allocations b = Z.of_nat (length live);
  bo_reset : live = [] → next b = heap_start b;
}.

Lemma sum_len_app l1 l2 : sum_len (l1 ++ l2) = sum_len l1 + sum_len l2.
Proof. induction l1 as [|r l1 IH]; simpl; [done|]. unfold sum_len in *. simpl. rewrite IH. lia. Qed.

Lemma sum_len_length l : (∀ r, r ∈ l → 0 < r.2) → Z.of_nat (length l) <= sum_len l.
Proof.
  induction l as [|r l IH]; intros Hl; [done|]. unfold sum_len in *. simpl.
  assert (0 < r.2) by (apply Hl; set_solver). assert (Z.of_nat (length l) <= foldr (λ r acc, r.2 + acc) 0 l).
  { apply IH. intros. apply Hl. set_solver. } lia.
Qed.

Lemma bump_count_bound b live : bump_ok b live → 0 <= allocations b < U64_MAX.
Proof.
  intros Hb. rewrite (bo_count _ _ Hb). pose proof (sum_len_length live) as Hl.
  pose proof (bo_sum _ _ Hb). pose proof (bo_start _ _ Hb). pose proof (bo_end _ _ Hb).
  assert (Z.of_nat (length live) <= sum_len live) by (apply Hl; intros; by apply (bo_in _ _ Hb)). lia.
Qed.

(** Allocation either takes an aligned range above all live ones, or reports
    that the rest of the region is too small. *)
Lemma bump_allocate_spec b live l :
  bump_ok b live → 0 < size l <= U64_MAX → 0 < align l <= 4611686018427387904 →
  ∃ start, next b <= start < next b + align l ∧ start mod align l = 0 ∧
    if start + size l <=? heap_end b
    then ∃ b', BumpAllocator.allocate b l = Ret (Some start, b') ∧ next b' = start + size l ∧
           heap_start b' = heap_start b ∧ heap_end b' = heap_end b ∧ bump_ok b' ((start, size l) :: live)
    else BumpAllocator.allocate b l = Ret (None, b).
Proof.
  intros Hb Hs Ha. pose proof (bo_start _ _ Hb). pose proof (bo_end _ _ Hb).
  pose proof (bump_count_bound _ _ Hb).
  destruct (align_up_spec (next b) (align l)) as (start & Hup & Hr & Hm); [lia..|].
  exists start. split; [done|]. split; [done|]. unfold BumpAllocator.allocate. rewrite Hup. cbn [obind].
  unfold checked_add. destruct (Z.leb_spec (start + size l) U64_MAX);
    [|destruct (Z.leb_spec (start + size l) (heap_end b)); [lia|done]].
  destruct (Z.ltb_spec (heap_end b) (start + size l)), (Z.leb_spec (start + size l) (heap_end b)); try lia; [done|].
  destruct (Z.eqb_spec start 0); [lia|].
  eexists. split; [done|]. simpl. split_and!; [done|done|done|].
  split; simpl; [lia|lia|..].
  - intros r [->|Hr']%elem_of_cons; simpl; [lia|]. apply (bo_in _ _ Hb) in Hr'. lia.
  - intros [|i] [|j] r s Hi Hj Hij; simplify_eq/=; unfold ranges_disjoint; simpl.
    + right. apply list_elem_of_lookup_2, (bo_in _ _ Hb) in Hj. lia.
    + left. apply list_elem_of_lookup_2, (bo_in _ _ Hb) in Hi. lia.
    + eapply (bo_disj _ _ Hb); [done|done|lia].
  - pose proof (bo_sum _ _ Hb). unfold sum_len in *. simpl. lia.
  - rewrite (bo_count _ _ Hb) in *. rewrite wrap64_small; lia.
  - done.
Qed.

Lemma bump_allocate_region b l r b' :
  BumpAllocator.allocate b l = Ret (r, b') → heap_start b' = heap_start b ∧ heap_end b' = heap_end b.
Proof.
  unfold BumpAllocator.allocate. destruct (align_up _ _); [|done..]. cbn [obind].
  destruct (checked_add _ _); [|by intros [= _ <-]]. case_match; by intros [= _ <-].
Qed.

(** Indices of a list with one element taken out. *)
Lemma lookup_remove {A} (l1 l2 : list A) x i y :
  (l1 ++ l2) !! i = Some y →
  ∃ k, (l1 ++ x :: l2) !! k = Some y ∧ k = if decide (i < length l1)%nat then i else S i.
Proof.
  intros Hi. eexists. split; [|reflexivity]. case_decide.
  - rewrite lookup_app_l in * by lia. done.
  - rewrite lookup_app_r in * by lia. replace (S i - length l1)%nat with (S (i - length l1)) by lia. done.
Qed.

Lemma bump_deallocate_spec b l1 r l2 :
  bump_ok b (l1 ++ r :: l2) → bump_ok (BumpAllocator.deallocate b) (l1 ++ l2).
Proof.
  intros Hb. pose proof (bump_count_bound _ _ Hb). pose proof (bo_start _ _ Hb). pose proof (bo_end _ _ Hb).
  pose proof (bo_count _ _ Hb) as Hc. rewrite length_app in Hc. simpl in Hc.
  assert (0 < r.2) by (apply (bo_in _ _ Hb); set_solver).
  pose proof (bo_sum _ _ Hb) as Hs. rewrite sum_len_app in Hs. change (sum_len (r :: l2)) with (r.2 + sum_len l2) in Hs.
  unfold BumpAllocator.deallocate. split; simpl.
  - case_bool; lia.
  - case_bool; lia.
  - intros s Hs'. destruct (Z.eqb_spec (allocations b) 1).
    + assert (length l1 = 0%nat ∧ length l2 = 0%nat) as [?%nil_length_inv ?%nil_length_inv] by lia.
      subst. by apply not_elem_of_nil in Hs'.
    + apply (bo_in _ _ Hb). set_solver.
  - intros i j s t Hi Hj Hij. destruct (lookup_remove l1 l2 r i s Hi) as (k & Hk & ->).
    destruct (lookup_remove l1 l2 r j t Hj) as (k' & Hk' & ->).
    eapply (bo_disj _ _ Hb); [done|done|]. repeat case_decide; lia.
  - rewrite sum_len_app. destruct (Z.eqb_spec (allocations b) 1).
    + assert (length l1 = 0%nat ∧ length l2 = 0%nat) as [?%nil_length_inv ?%nil_length_inv] by lia.
      subst. simpl. lia.
    + lia.
  - rewrite Hc, wrap64_small, length_app by lia. lia.
  - intros [-> ->]%app_eq_nil. simpl in Hc. by rewrite Hc.
Qed.

(** ** The interface to the pools *)

(** What the heap relies on: the live allocations are those handed out and not
    given back; they stay inside the region of the small allocator, never
    overlap, and giving one back takes it off the list. *)
Class SmallAllocatorLaws (P : Type) `{SmallAllocator P} : Type := {
  sa_ok : P → list PoolAllocation → Prop;
  sa_region : Z → Prop;
  sa_allocate_law weak p live n :
    sa_ok p live → 0 <= n →
    returns (sa_allocate weak p n) (λ '(r, p'),
      match r with
      | Some a => sa_ok p' (a :: live) ∧ requested_size a = n ∧
                  BlockSize.for_size n = Some (alloc_block_size a) ∧ ptr a ≠ 0
      | None => sa_ok p' live
      end);
  sa_deallocate_law weak p l1 a l2 :
    sa_ok p (l1 ++ a :: l2) → returns (sa_deallocate weak p a) (λ p', sa_ok p' (l1 ++ l2));
  sa_disjoint p live i j a c :
    sa_ok p live → live !! i = Some a → live !! j = Some c → i ≠ j →
    ranges_disjoint (ptr a, requested_size a) (ptr c, requested_size c);
  sa_inside p live a x :
    sa_ok p live → a ∈ live → ptr a <= x < ptr a + requested_size a → sa_region x;
}.

(** The pools over disjoint arenas satisfy the laws. *)
Section pools_laws.
Context (arenas : nat → Z) (Hpos : ∀ i, 0 < arenas i).
Context (Hdisj : ∀ i j, i ≠ j → ranges_disjoint (arenas i, Pool.ARENA_SIZE) (arenas j, Pool.ARENA_SIZE)).

Definition in_arenas (x : Z) : Prop :=
  ∃ b, arena_of arenas b <= x < arena_of arenas b + Pool.ARENA_SIZE.

Lemma pools_allocate_law weak p live n :
  pa_inv arenas (p, live) → 0 <= n →
  returns (PoolAllocator.allocate weak p n) (λ '(r, p'),
    match r with
    | Some a => pa_inv arenas (p', a :: live) ∧ requested_size a = n ∧
                BlockSize.for_size n = Some (alloc_block_size a) ∧ ptr a ≠ 0
    | None => pa_inv arenas (p', live)
    end).
Proof.
  intros Hi Hn. pose proof Hi as (free & used & Hok & _).
  destruct (pa_allocate_total arenas weak p free used n Hok) as [[r p'] Heq]. rewrite Heq. simpl.
  pose proof (pa_alloc_inv arenas weak p live n r p' Hi Hn Heq) as Hi'.
  destruct r as [a|]; [|done]. split; [done|].
  pose proof (pa_allocate_spec arenas weak p free used n Hok) as Ha.
  destruct (BlockSize.for_size n) as [b|]; [|congruence]. destruct (free b); [congruence|].
  destruct (goes_through _ _); [|congruence]. destruct Ha as (p1 & Ha & _). rewrite Ha in Heq.
  injection Heq as <- <-. simpl. split_and!; [done|done|].
  destruct Hi' as (free' & used' & Hok' & Hsub' & _). simpl in *.
  pose proof (live_in_arena arenas _ _ _ _ Hok' Hsub' _ (list_elem_of_here _ _)) as Hin. simpl in Hin.
  pose proof (Hpos (Z.to_nat (BlockSize.index b))). unfold arena_of in Hin. lia.
Qed.

Lemma pools_disjoint p live i j a c :
  pa_inv arenas (p, live) → live !! i = Some a → live !! j = Some c → i ≠ j →
  ranges_disjoint (ptr a, requested_size a) (ptr c, requested_size c).
Proof.
  intros (free & used & Hok & Hsub & Hsz) Hi Hj Hij. simpl in *. unfold ranges_disjoint. simpl.
  pose proof (Hsz a (list_elem_of_lookup_2 _ _ _ Hi)). pose proof (Hsz c (list_elem_of_lookup_2 _ _ _ Hj)).
  destruct (decide (alloc_block_size a = alloc_block_size c)) as [Hb|Hb].
  - pose proof (same_class_disjoint arenas _ _ _ _ Hok Hsub i j a c Hi Hj Hij Hb). lia.
  - apply list_elem_of_lookup_2, (live_in_arena arenas _ _ _ _ Hok Hsub) in Hi.
    apply list_elem_of_lookup_2, (live_in_arena arenas _ _ _ _ Hok Hsub) in Hj.
    assert (Z.to_nat (BlockSize.index (alloc_block_size a)) ≠ Z.to_nat (BlockSize.index (alloc_block_size c)))
      as Hne by by intros ?%index_inj.
    destruct (Hdisj _ _ Hne); unfold arena_of in *; simpl in *; lia.
Qed.

Lemma pools_deallocate_law weak p l1 a l2 :
  pa_inv arenas (p, l1 ++ a :: l2) →
  returns (PoolAllocator.deallocate weak p a) (λ p', pa_inv arenas (p', l1 ++ l2)).
Proof.
  intros Hi. destruct (pa_dealloc_step arenas Hpos weak p l1 a l2 Hi) as (p' & -> & Hi'). done.
Qed.

Lemma pools_inside p live a x :
  pa_inv arenas (p, live) → a ∈ live → ptr a <= x < ptr a + requested_size a → in_arenas x.
Proof.
  intros (free & used & Hok & Hsub & Hsz) Ha Hx. simpl in *. pose proof (Hsz a Ha).
  exists (alloc_block_size a). pose proof (live_in_arena arenas _ _ _ _ Hok Hsub a Ha). lia.
Qed.

Definition pools_laws : @SmallAllocatorLaws PoolAllocator (pools_small_allocator arenas) :=
  @Build_SmallAllocatorLaws _ (pools_small_allocator arenas)
    (λ p live, pa_inv arenas (p, live)) in_arenas
    pools_allocate_law pools_deallocate_law pools_disjoint pools_inside.
End pools_laws.

(** ** The heap *)

(** The class that [dealloc] derives from the layout; [None] is the bump
    allocator. *)
Definition class_of (l : Layout) : option BlockSize :=
  if size l <=? MAX_POOL_SIZE then BlockSize.for_size (size l) else None.

(** The layouts of the kernel's own types: alignment up to 8. *)
Definition std_layout (l : Layout) : Prop :=
  0 <= size l <= 9223372036854775807 ∧ 0 < align l <= 8.

Definition pool_part (live : list (Z * Layout)) : list PoolAllocation :=
  omap (λ '(p, l), (λ b, mkPoolAllocation p b (size l)) <$> class_of l) live.

(** A bump allocation reserves its header and its data. *)
Definition bump_part (live : list (Z * Layout)) : list range :=
  omap (λ '(p, l), if class_of l is None then Some (p - header_size, header_size + size l) else None) live.

Section heap_inv.
Context {P : Type} `{SmallAllocatorLaws P}.
Implicit Types (h : Heap P) (live : list (Z * Layout)).

Record heap_ok h live : Prop := {
  ho_init : initialized (h_alloc h) = true;
  ho_pool : sa_ok (h_pool h) (pool_part live);
  ho_bump : bump_ok (bump (h_alloc h)) (bump_part live);
  ho_ptr : ∀ p l, (p, l) ∈ live → p ≠ 0 ∧ std_layout l;
  ho_sep : ∀ x, heap_start (bump (h_alloc h)) <= x < heap_end (bump (h_alloc h)) → ¬ sa_region x;
}.

(** The hook only changes the profile. *)
Lemma call_hook_frame ev h h' :
  HeapAllocator.call_hook ev h = Ret h' →
  h_alloc h' = h_alloc h ∧ h_pool h' = h_pool h ∧ h_oom h' = h_oom h ∧ h_mem h' = h_mem h.
Proof.
  unfold HeapAllocator.call_hook. destruct (h_profiling h); [|by intros [= <-]].
  destruct (h_hook h) as [f|]; [|by intros [= <-]]. destruct (f ev (h_profile h)); by intros [= <-].
Qed.

Lemma heap_ok_frame h h' live :
  heap_ok h live → h_pool h' = h_pool h → initialized (h_alloc h') = initialized (h_alloc h) →
  bump (h_alloc h') = bump (h_alloc h) → heap_ok h' live.
Proof. intros [Hi Hp Hb Hn Hs] Ep Ei Eb. split; rewrite ?Ep, ?Ei, ?Eb; done. Qed.

Lemma std_max_align l : std_layout l → Z.max (align l) MIN_ALIGNMENT = 8.
Proof. unfold std_layout, MIN_ALIGNMENT. lia. Qed.

(** The bump path on a standard layout: the header and the data take exactly
    what was reserved, or the failure branch runs on the heap as it was. *)
Lemma bump_path_spec h live l failed :
  heap_ok h live → std_layout l →
  (∃ base b' h1, BumpAllocator.allocate (bump (h_alloc h)) (mkLayout (header_size + size l) 8) = Ret (Some base, b') ∧
     next (bump (h_alloc h)) <= base ∧ base mod 8 = 0 ∧
     bump_ok b' ((base, header_size + size l) :: bump_part live) ∧
     heap_start b' = heap_start (bump (h_alloc h)) ∧ heap_end b' = heap_end (bump (h_alloc h)) ∧
     h_pool h1 = h_pool h ∧ bump (h_alloc h1) = b' ∧ initialized (h_alloc h1) = true ∧ h_mem h1 = h_mem h ∧
     HeapAllocator.bump_path l failed h =
       let! h2 := HeapAllocator.call_hook (EvAlloc (size l) 8 (base + header_size) false) h1 in
       Ret (base + header_size, h2)) ∨
  HeapAllocator.bump_path l failed h = failed h.
Proof.
  intros Hok Hl. pose proof (ho_bump _ _ Hok) as Hb. pose proof (bo_start _ _ Hb). pose proof (bo_end _ _ Hb).
  unfold HeapAllocator.bump_path, HeapAllocator.max_padding. rewrite (std_max_align _ Hl).
  destruct Hl as [Hs Ha]. cbn [obind]. change (header_size <? 8) with false. cbn [obind]. unfold header_size in *.
  rewrite usize_add_ok by lia. cbn [obind]. rewrite Z.add_0_r, usize_add_ok by lia. cbn [obind].
  unfold from_size_align. change (is_power_of_two 8) with true. cbn [andb].
  destruct (Z.leb_spec (24 + size l) (9223372036854775807 - (8 - 1))) as [Hfit|Hbig]; cbn [default].
  - destruct (bump_allocate_spec _ _ (mkLayout (24 + size l) 8) Hb) as (start & Hr & Hm & Hif); simpl in *; [lia..|].
    destruct (Z.leb_spec (start + (24 + size l)) (heap_end (bump (h_alloc h)))).
    + left. destruct Hif as (b' & Heq & Hn & Hst & He & Hb'). eexists start, b', _. split; [done|].
      split; [lia|]. split; [done|]. split; [done|]. split; [done|]. split; [done|].
      rewrite Heq. cbn [obind]. rewrite usize_add_ok by lia. cbn [obind].
      rewrite align_up_aligned; [|lia|]. 2:{ rewrite Z.add_mod, Hm by lia. done. }
      cbn [obind]. rewrite usize_sub_ok by lia. cbn [obind].
      split; [|split; [|split; [|split; [|reflexivity]]]]; try done. simpl. apply (ho_init _ _ Hok).
    + right. rewrite Hif. cbn [obind]. f_equal. destruct h as [[] ? ? ? ? ? ? ?]. done.
  - right. destruct (bump_allocate_spec _ _ l Hb) as (start & Hr & Hm & Hif); [lia|lia|].
    destruct (Z.leb_spec (start + size l) (heap_end (bump (h_alloc h)))); [lia|].
    rewrite Hif. cbn [obind]. f_equal. destruct h as [[] ? ? ? ? ? ? ?]. done.
Qed.

(** No room: the rest of the region is smaller than header and data. *)
Definition no_room h l : Prop :=
  heap_end (bump (h_alloc h)) < next (bump (h_alloc h)) + header_size + size l.

Lemma bump_path_no_room h live l failed :
  heap_ok h live → std_layout l → no_room h l → HeapAllocator.bump_path l failed h = failed h.
Proof.
  intros Hok Hl Hn. destruct (bump_path_spec h live l failed Hok Hl)
    as [(base & b' & h1 & _ & Hge & _ & Hb' & _ & He & _)|]; [|done].
  pose proof (bo_in _ _ Hb' _ (list_elem_of_here _ _)). pose proof (bo_end _ _ Hb').
  unfold no_room in Hn. simpl in *. lia.
Qed.

(** A pointer from the bump allocator joins the live ones. *)
Lemma heap_ok_bump h h1 live l base b' :
  heap_ok h live → std_layout l → class_of l = None →
  bump_ok b' ((base, header_size + size l) :: bump_part live) →
  heap_start b' = heap_start (bump (h_alloc h)) → heap_end b' = heap_end (bump (h_alloc h)) →
  h_pool h1 = h_pool h → bump (h_alloc h1) = b' → initialized (h_alloc h1) = true →
  heap_ok h1 ((base + header_size, l) :: live) ∧ base + header_size ≠ 0.
Proof.
  intros [Hi Hp Hb Hn Hs] Hl Hc Hb' Hst He Ep Eb Ei.
  assert (0 < base) as Hpos.
  { pose proof (bo_in _ _ Hb' _ (list_elem_of_here _ _)) as Hin. pose proof (bo_start _ _ Hb'). simpl in *. lia. }
  split; [|unfold header_size; lia]. split.
  - done.
  - rewrite Ep. unfold pool_part in *. simpl. by rewrite Hc.
  - rewrite Eb. unfold bump_part in *. simpl. rewrite Hc. by replace (base + header_size - header_size) with base by lia.
  - intros p l' [[= -> ->]|Hin]%elem_of_cons; [split; [unfold header_size; lia|done]|by eapply Hn].
  - rewrite Eb, Hst, He. done.
Qed.

Lemma heap_ok_pool h h1 live l a p' :
  heap_ok h live → std_layout l → sa_ok p' (a :: pool_part live) → requested_size a = size l →
  class_of l = Some (alloc_block_size a) → ptr a ≠ 0 →
  h_pool h1 = p' → bump (h_alloc h1) = bump (h_alloc h) → initialized (h_alloc h1) = true →
  heap_ok h1 ((ptr a, l) :: live).
Proof.
  intros [Hi Hp Hb Hn Hs] Hl Ha Hsz Hc Hnz Ep Eb Ei. split.
  - done.
  - rewrite Ep. unfold pool_part in *. simpl. rewrite Hc. simpl. rewrite <-Hsz. by destruct a.
  - rewrite Eb. unfold bump_part in *. simpl. by rewrite Hc.
  - intros p l' [[= -> ->]|Hin]%elem_of_cons; [done|by eapply Hn].
  - by rewrite Eb.
Qed.

Abbreviation heap_alloc := (HeapAllocator.alloc HeapAllocator.default_oom_handler).

(** One operation of a client that holds the pointers in [live]: it asks for a
    standard layout, and a request of a pool size is not served by the bump
    allocator; it gives a pointer back with its layout. *)
Inductive heap_step : relation (Heap P * list (Z * Layout)) :=
| hs_alloc weak h live l p h' :
    std_layout l → heap_alloc weak h l = Ret (p, h') →
    (class_of l ≠ None → bump (h_alloc h') = bump (h_alloc h)) →
    heap_step (h, live) (h', if p =? 0 then live else (p, l) :: live)
| hs_dealloc weak h live1 p l live2 h' :
    HeapAllocator.dealloc weak h p l = Ret h' →
    heap_step (h, live1 ++ (p, l) :: live2) (h', live1 ++ live2).

Lemma oom_result_ok h live p h' :
  heap_ok h live → HeapAllocator.oom_result h = Ret (p, h') → p = 0 ∧ heap_ok h' live.
Proof. intros Hok [= <- <-]. split; [done|]. by eapply heap_ok_frame. Qed.

Lemma bump_step_ok h live l failed p h' :
  heap_ok h live → std_layout l →
  (∀ h0 p0 h0', heap_ok h0 live → failed h0 = Ret (p0, h0') → p0 = 0 ∧ heap_ok h0' live) →
  HeapAllocator.bump_path l failed h = Ret (p, h') →
  (class_of l ≠ None → bump (h_alloc h') = bump (h_alloc h)) →
  heap_ok h' (if p =? 0 then live else (p, l) :: live).
Proof.
  intros Hok Hl Hf Heq Hsame. destruct (bump_path_spec h live l failed Hok Hl)
    as [(base & b' & h1 & Hal & _ & Hm & Hb' & Hst & He & Ep & Eb & Ei & _ & Hbp)|Hbp]; rewrite Hbp in Heq.
  2:{ destruct (Hf _ _ _ Hok Heq) as [-> Hok']. done. }
  destruct (HeapAllocator.call_hook _ h1) as [h2| |] eqn:Hh; simplify_eq/=.
  destruct (call_hook_frame _ _ _ Hh) as (Ea & Ep2 & _).
  destruct (class_of l) eqn:Hc.
  - exfalso. rewrite Ea in Hsame. specialize (Hsame ltac:(done)).
    pose proof (bo_count _ _ Hb') as Hcnt. rewrite Hsame, (bo_count _ _ (ho_bump _ _ Hok)) in Hcnt. simpl in Hcnt. lia.
  - destruct (heap_ok_bump h h1 live l base _ Hok Hl Hc Hb' Hst He Ep eq_refl Ei) as [Hok1 Hnz].
    rewrite (proj2 (Z.eqb_neq _ _) Hnz). eapply heap_ok_frame; [exact Hok1|congruence..].
Qed.

Lemma class_of_small l : size l <= MAX_POOL_SIZE → class_of l = BlockSize.for_size (size l).
Proof. intros Hs. unfold class_of. by rewrite (proj2 (Z.leb_le _ _) Hs). Qed.

Lemma heap_alloc_ok weak h live l p h' :
  heap_ok h live → std_layout l → heap_alloc weak h l = Ret (p, h') →
  (class_of l ≠ None → bump (h_alloc h') = bump (h_alloc h)) →
  heap_ok h' (if p =? 0 then live else (p, l) :: live).
Proof.
  intros Hok Hl Heq Hsame. unfold HeapAllocator.alloc, HeapAllocator.alloc_with_retry, HeapAllocator.attempt in Heq.
  rewrite (ho_init _ _ Hok), (std_max_align _ Hl) in Heq. change (8 <=? MIN_ALIGNMENT) with true in Heq.
  cbn [negb] in Heq. rewrite andb_true_r in Heq.
  assert (∀ h0 p0 h0', heap_ok h0 live →
    (let! (retry, h2) := HeapAllocator.default_oom_handler l h0 in
     if retry then HeapAllocator.attempt weak l HeapAllocator.oom_result
                     (HeapAllocator.set_oom (record_oom true (h_oom h2)) h2)
     else HeapAllocator.oom_result h2) = Ret (p0, h0') → p0 = 0 ∧ heap_ok h0' live) as Hf.
  { intros h0 p0 h0' Hok0 Hd0. simpl in Hd0. by eapply oom_result_ok. }
  destruct (Z.leb_spec (size l) MAX_POOL_SIZE) as [Hsm|Hlg]; [|eapply bump_step_ok; [exact Hok|exact Hl|exact Hf|exact Heq|exact Hsame]].
  pose proof (sa_allocate_law weak (h_pool h) (pool_part live) (size l) (ho_pool _ _ Hok) ltac:(destruct Hl; lia)) as Hal.
  destruct (sa_allocate weak (h_pool h) (size l)) as [[[a|] p']| |]; cbn [returns] in Hal; try done; cbn [obind] in Heq.
  - destruct Hal as (Ha & Hrs & Hfs & Hnz).
    destruct (HeapAllocator.call_hook _ _) as [h2| |] eqn:Hh; simplify_eq/=.
    destruct (call_hook_frame _ _ _ Hh) as (Ea & Ep & _). rewrite (proj2 (Z.eqb_neq _ _) Hnz).
    eapply (heap_ok_pool h); try done; [by rewrite class_of_small|by rewrite Ea|by rewrite Ea; apply (ho_init _ _ Hok)].
  - eapply (bump_step_ok (HeapAllocator.set_pool p' h)); [|done|exact Hf|exact Heq|done].
    destruct Hok. by split.
Qed.

Lemma pool_part_app l1 l2 : pool_part (l1 ++ l2) = pool_part l1 ++ pool_part l2.
Proof. apply omap_app. Qed.
Lemma bump_part_app l1 l2 : bump_part (l1 ++ l2) = bump_part l1 ++ bump_part l2.
Proof. apply omap_app. Qed.

Lemma heap_dealloc_ok weak h live1 p l live2 :
  heap_ok h (live1 ++ (p, l) :: live2) →
  ∀ h', HeapAllocator.dealloc weak h p l = Ret h' → heap_ok h' (live1 ++ live2).
Proof.
  intros Hok h' Heq. unfold HeapAllocator.dealloc in Heq.
  destruct (ho_ptr _ _ Hok p l) as [Hnz _]; [set_solver|].
  rewrite (ho_init _ _ Hok), (proj2 (Z.eqb_neq _ _) Hnz) in Heq. cbn [orb negb] in Heq.
  destruct (HeapAllocator.call_hook _ h) as [h1| |] eqn:Hh; simplify_eq/=.
  destruct (call_hook_frame _ _ _ Hh) as (Ea & Ep & _). fold (class_of l) in Heq.
  destruct Hok as [Hi Hp Hb Hn Hs]. rewrite pool_part_app in Hp. rewrite bump_part_app in Hb. simpl in Hp, Hb.
  destruct (class_of l) as [b|] eqn:Hc.
  - pose proof (sa_deallocate_law weak _ _ _ _ Hp) as Hd. rewrite Ep in Heq.
    destruct (sa_deallocate _ _ _) as [p'| |]; cbn [returns] in Hd; [|done..].
    simplify_eq/=. split; simpl; rewrite ?pool_part_app, ?bump_part_app, ?Ea; try done.
    intros q l' Hq. apply (Hn q l'). set_solver.
  - simplify_eq/=. split; simpl; rewrite ?pool_part_app, ?bump_part_app, ?Ea, ?Ep; try done.
    + by eapply bump_deallocate_spec.
    + intros q l' Hq. apply (Hn q l'). set_solver.
Qed.

Lemma heap_step_ok w w' : heap_step w w' → heap_ok w.1 w.2 → heap_ok w'.1 w'.2.
Proof.
  destruct 1; simpl; intros Hok; [by eapply heap_alloc_ok|by eapply heap_dealloc_ok].
Qed.

(** The ends of the bump region never move. *)
Lemma bump_path_region l failed h p h' :
  (∀ h0 p0 h0', failed h0 = Ret (p0, h0') →
     heap_start (bump (h_alloc h0')) = heap_start (bump (h_alloc h0)) ∧
     heap_end (bump (h_alloc h0')) = heap_end (bump (h_alloc h0))) →
  HeapAllocator.bump_path l failed h = Ret (p, h') →
  heap_start (bump (h_alloc h')) = heap_start (bump (h_alloc h)) ∧
  heap_end (bump (h_alloc h')) = heap_end (bump (h_alloc h)).
Proof.
  intros Hf Heq. unfold HeapAllocator.bump_path in Heq.
  repeat match type of Heq with
  | obind (BumpAllocator.allocate _ _) _ = _ =>
      destruct (BumpAllocator.allocate _ _) as [?| |] eqn:Hb; cbn [obind] in Heq; try discriminate Heq
  | obind ?m _ = _ => destruct m as [?| |] eqn:?; cbn [obind] in Heq; try discriminate Heq
  | (let (_, _) := ?r in _) = _ => destruct r as [[?|] ?]
  end; apply bump_allocate_region in Hb.
  - injection Heq as <- <-.
    match goal with Hh : HeapAllocator.call_hook _ _ = Ret _ |- _ =>
      apply call_hook_frame in Hh as (-> & _) end. done.
  - apply Hf in Heq. simpl in *. destruct Heq, Hb. split; congruence.
Qed.

Lemma heap_alloc_region weak h l p h' :
  heap_alloc weak h l = Ret (p, h') →
  heap_start (bump (h_alloc h')) = heap_start (bump (h_alloc h)) ∧
  heap_end (bump (h_alloc h')) = heap_end (bump (h_alloc h)).
Proof.
  intros Heq. unfold HeapAllocator.alloc, HeapAllocator.alloc_with_retry, HeapAllocator.attempt in Heq.
  destruct (negb _); [by injection Heq as _ <-|].
  assert (∀ h0 p0 h0', HeapAllocator.oom_result (P := P) h0 = Ret (p0, h0') →
     heap_start (bump (h_alloc h0')) = heap_start (bump (h_alloc h0)) ∧
     heap_end (bump (h_alloc h0')) = heap_end (bump (h_alloc h0))) as Hg by by intros ??? [= _ <-].
  destruct (_ && _).
  - destruct (sa_allocate _ _ _) as [[[a|] p']| |]; cbn [obind] in Heq; try done.
    + destruct (HeapAllocator.call_hook _ _) as [h2| |] eqn:Hh; simplify_eq/=.
      by destruct (call_hook_frame _ _ _ Hh) as (-> & _).
    + eapply (bump_path_region _ _ _ _ _ (λ h0, Hg h0)) in Heq. done.
  - eapply (bump_path_region _ _ _ _ _ (λ h0, Hg h0)) in Heq. done.
Qed.

Lemma heap_dealloc_region weak h p l h' :
  HeapAllocator.dealloc weak h p l = Ret h' →
  heap_start (bump (h_alloc h')) = heap_start (bump (h_alloc h)) ∧
  heap_end (bump (h_alloc h')) = heap_end (bump (h_alloc h)).
Proof.
  unfold HeapAllocator.dealloc. destruct (_ || _); [by intros [= <-]|].
  destruct (HeapAllocator.call_hook _ h) as [h1| |] eqn:Hh; [|done..]. cbn [obind].
  destruct (call_hook_frame _ _ _ Hh) as (Ea & _).
  destruct (if size l <=? MAX_POOL_SIZE then _ else _).
  - destruct (sa_deallocate _ _ _); [|done..]. intros [= <-]. simpl. by rewrite Ea.
  - intros [= <-]. simpl. by rewrite Ea.
Qed.

(** An allocation that succeeds comes from an initialized heap. *)
Lemma heap_alloc_init weak h l p h' :
  heap_alloc weak h l = Ret (p, h') → p ≠ 0 → initialized (h_alloc h) = true.
Proof.
  unfold HeapAllocator.alloc, HeapAllocator.alloc_with_retry, HeapAllocator.attempt.
  destruct (initialized (h_alloc h)); [done|]. simpl. naive_solver.
Qed.

(** A deallocation reports its event and then leaves the profile alone. *)
Lemma dealloc_profile weak h p l h' :
  p ≠ 0 → initialized (h_alloc h) = true → HeapAllocator.dealloc weak h p l = Ret h' →
  ∃ h1, HeapAllocator.call_hook (EvDealloc p (size l)) h = Ret h1 ∧ h_profile h' = h_profile h1.
Proof.
  intros Hp Hi. unfold HeapAllocator.dealloc. rewrite Hi, (proj2 (Z.eqb_neq p 0) Hp). cbn [orb negb].
  destruct (HeapAllocator.call_hook _ h) as [h1| |]; [|done..]. cbn [obind].
  destruct (if size l <=? MAX_POOL_SIZE then _ else _).
  - destruct (sa_deallocate _ _ _); [|done..]. intros [= <-]. by exists h1.
  - intros [= <-]. by exists h1.
Qed.

Lemma dealloc_mem weak h p l h' : HeapAllocator.dealloc weak h p l = Ret h' → h_mem h' = h_mem h.
Proof.
  unfold HeapAllocator.dealloc. destruct (_ || _); [by intros [= <-]|].
  destruct (HeapAllocator.call_hook _ h) as [h1| |] eqn:Hh; [|done..]. cbn [obind].
  destruct (call_hook_frame _ _ _ Hh) as (_ & _ & _ & Em).
  destruct (if size l <=? MAX_POOL_SIZE then _ else _).
  - destruct (sa_deallocate _ _ _); [|done..]. by intros [= <-].
  - by intros [= <-].
Qed.

(** A pool pointer and a bump pointer do not overlap: the regions are apart. *)
Lemma pool_bump_disjoint h live p l b q k :
  heap_ok h live → (p, l) ∈ live → (q, k) ∈ live → class_of l = Some b → class_of k = None →
  0 <= size l → 0 <= size k → ranges_disjoint (p, size l) (q, size k).
Proof.
  intros Hok Hp Hq Hcl Hck Hl Hk. unfold ranges_disjoint. simpl.
  assert ((q - header_size, header_size + size k) ∈ bump_part live) as Hb.
  { unfold bump_part. apply list_elem_of_omap. exists (q, k). split; [done|]. by rewrite Hck. }
  assert (mkPoolAllocation p b (size l) ∈ pool_part live) as Ha.
  { unfold pool_part. apply list_elem_of_omap. exists (p, l). split; [done|]. by rewrite Hcl. }
  pose proof (bo_in _ _ (ho_bump _ _ Hok) _ Hb) as Hin. pose proof (bo_end _ _ (ho_bump _ _ Hok)).
  unfold header_size in *. simpl in *.
  assert (size l ≠ 0) by (intros Hz; unfold class_of in Hcl; by rewrite Hz in Hcl).
  destruct (decide (p + size l <= q)) as [|Hpq]; [by left|]. right.
  destruct (decide (q + size k <= p)) as [|Hqp]; [done|]. exfalso.
  apply (ho_sep _ _ Hok (Z.max p (q - 1))); [lia|].
  eapply sa_inside; [apply (ho_pool _ _ Hok)|exact Ha|]. simpl. lia.
Qed.

(** ** Profiling and contents *)

(** A successful allocation reports one event, through the hook if there is one. *)
Lemma bump_path_event l failed h p h' :
  (∀ h0 p0 h0', failed h0 = Ret (p0, h0') → p0 = 0) →
  HeapAllocator.bump_path l failed h = Ret (p, h') → p ≠ 0 →
  ∃ ev h1, HeapAllocator.call_hook ev h1 = Ret h' ∧ (∃ al b, ev = EvAlloc (size l) al p b) ∧
    h_profiling h1 = h_profiling h ∧ h_hook h1 = h_hook h ∧ h_profile h1 = h_profile h ∧
    h_mem h1 = h_mem h ∧ initialized (h_alloc h1) = initialized (h_alloc h).
Proof.
  intros Hf Heq Hp. unfold HeapAllocator.bump_path in Heq.
  repeat match type of Heq with
  | obind ?m _ = _ => destruct m as [?| |] eqn:?; cbn [obind] in Heq; try discriminate Heq
  | (let (_, _) := ?r in _) = _ => destruct r as [[?|] ?]
  end.
  - match goal with Hh : HeapAllocator.call_hook _ _ = Ret _ |- _ =>
      injection Heq as <- <-; eexists _, _; split; [exact Hh|] end.
    split; [by eexists _, _|done].
  - by apply Hf in Heq.
Qed.

Lemma heap_alloc_event weak h l p h' :
  heap_alloc weak h l = Ret (p, h') → p ≠ 0 →
  ∃ ev h1, HeapAllocator.call_hook ev h1 = Ret h' ∧ (∃ al b, ev = EvAlloc (size l) al p b) ∧
    h_profiling h1 = h_profiling h ∧ h_hook h1 = h_hook h ∧ h_profile h1 = h_profile h ∧
    h_mem h1 = h_mem h ∧ initialized (h_alloc h1) = initialized (h_alloc h).
Proof.
  intros Heq Hp. unfold HeapAllocator.alloc, HeapAllocator.alloc_with_retry, HeapAllocator.attempt in Heq.
  destruct (negb _); [naive_solver|].
  assert (∀ h0 p0 h0', HeapAllocator.oom_result (P := P) h0 = Ret (p0, h0') → p0 = 0) as Hg by (by intros ??? [= <- _]).
  destruct (_ && _).
  - destruct (sa_allocate _ _ _) as [[[a|] p']| |]; cbn [obind] in Heq; try done.
    + destruct (HeapAllocator.call_hook _ _) as [h2| |] eqn:Hh; simplify_eq/=.
      eexists _, _. split; [exact Hh|]. split; [by eexists _, _|done].
    + eapply (bump_path_event _ _ _ _ _ (λ h0, Hg h0)) in Heq; done.
  - eapply (bump_path_event _ _ _ _ _ (λ h0, Hg h0)) in Heq; done.
Qed.

End heap_inv.

(** Copied bytes arrive, and nothing outside the destination changes. *)
Lemma copy_bytes_lookup n src dst m x :
  HeapAllocator.copy_bytes n src dst m !! x =
    if decide (dst <= x < dst + Z.of_nat n) then m !! (src + (x - dst)) else m !! x.
Proof.
  induction n as [|n IH]; cbn [HeapAllocator.copy_bytes].
  - by rewrite decide_False by lia.
  - destruct (decide (x = dst + Z.of_nat n)) as [->|Hne].
    + rewrite decide_True by lia. replace (src + (dst + Z.of_nat n - dst)) with (src + Z.of_nat n) by lia.
      destruct (m !! (src + Z.of_nat n)); [by rewrite lookup_insert_eq|by rewrite lookup_delete_eq].
    + assert (HeapAllocator.copy_bytes n src dst m !! x =
        if decide (dst <= x < dst + Z.of_nat (S n)) then m !! (src + (x - dst)) else m !! x) as Hx.
      { rewrite IH. repeat case_decide; done || lia. }
      destruct (m !! (src + Z.of_nat n)); [by rewrite lookup_insert_ne|by rewrite lookup_delete_ne].
Qed.
