(* ===== verification/HeapProps.v ===== *)
(** * Properties of the heap *)

From stdpp Require Import base tactics option list numbers gmap relations.
From S2P Require Import Prelude Pool PoolInv Heap HeapInv.

(** Disjoint live pointers, from the interface alone. *)
Section from_interface.
Context {P : Type} `{SmallAllocatorLaws P}.

Lemma pool_part_lookup (live : list (Z * Layout)) i p l b :
  live !! i = Some (p, l) → class_of l = Some b →
  ∃ k, pool_part live !! k = Some (mkPoolAllocation p b (size l)) ∧
    k = length (pool_part (take i live)).
Proof.
  intros Hi Hc. eexists. split; [|reflexivity].
  assert (pool_part live = pool_part (take i live) ++ pool_part ((p, l) :: drop (S i) live)) as Heq
    by by rewrite <-pool_part_app, take_drop_middle.
  rewrite Heq, lookup_app_r, Nat.sub_diag by lia. simpl. by rewrite Hc.
Qed.

Lemma bump_part_lookup (live : list (Z * Layout)) i p l :
  live !! i = Some (p, l) → class_of l = None →
  ∃ k, bump_part live !! k = Some (p - header_size, header_size + size l) ∧
    k = length (bump_part (take i live)).
Proof.
  intros Hi Hc. eexists. split; [|reflexivity].
  assert (bump_part live = bump_part (take i live) ++ bump_part ((p, l) :: drop (S i) live)) as Heq
    by by rewrite <-bump_part_app, take_drop_middle.
  rewrite Heq, lookup_app_r, Nat.sub_diag by lia. simpl. by rewrite Hc.
Qed.

(** Different positions of the live list are different positions of its parts. *)
Lemma take_lt (live : list (Z * Layout)) i j p l :
  live !! i = Some (p, l) → (i < j)%nat →
  ∃ rest, take j live = take i live ++ (p, l) :: rest.
Proof.
  intros Hi Hij. exists (drop (S i) (take j live)).
  assert (take j live !! i = Some (p, l)) as Hi' by by rewrite lookup_take_lt by lia.
  rewrite <-(take_drop_middle _ _ _ Hi') at 1. by rewrite take_take, Nat.min_l by lia.
Qed.

Lemma heap_ok_disjoint_lt (h : Heap P) live i j p l q k :
  heap_ok h live → live !! i = Some (p, l) → live !! j = Some (q, k) → (i < j)%nat →
  0 <= size l → 0 <= size k → ranges_disjoint (p, size l) (q, size k).
Proof.
  intros Hok Hi Hj Hij Hl Hk. destruct (take_lt live i j p l Hi Hij) as [rest Hrest].
  destruct (class_of l) as [b|] eqn:Hcl, (class_of k) as [c|] eqn:Hck.
  - destruct (pool_part_lookup _ _ _ _ _ Hi Hcl) as (x & Hx & ->).
    destruct (pool_part_lookup _ _ _ _ _ Hj Hck) as (y & Hy & ->).
    apply (sa_disjoint _ _ _ _ _ _ (ho_pool _ _ Hok) Hx Hy).
    rewrite Hrest, pool_part_app, length_app. simpl. rewrite Hcl. simpl. lia.
  - eapply pool_bump_disjoint; eauto using list_elem_of_lookup_2.
  - apply or_comm. eapply (pool_bump_disjoint h live q k c p l); eauto using list_elem_of_lookup_2.
  - destruct (bump_part_lookup _ _ _ _ Hi Hcl) as (x & Hx & ->).
    destruct (bump_part_lookup _ _ _ _ Hj Hck) as (y & Hy & ->).
    destruct (bo_disj _ _ (ho_bump _ _ Hok) _ _ _ _ Hx Hy) as [Hd|Hd]; unfold ranges_disjoint, header_size in *; simpl in *; [|lia..].
    rewrite Hrest, bump_part_app, length_app. simpl. rewrite Hcl. simpl. lia.
Qed.

(** The bump region stays where [init] put it. *)
Lemma heap_step_region w w' :
  heap_step (P := P) w w' → heap_ok w.1 w.2 →
  heap_start (bump (h_alloc w'.1)) = heap_start (bump (h_alloc w.1)) ∧
  heap_end (bump (h_alloc w'.1)) = heap_end (bump (h_alloc w.1)).
Proof.
  destruct 1 as [weak h live l p h' Hl Heq _|weak h live1 p l live2 h' Heq]; simpl; intros Hok.
  - by eapply heap_alloc_region.
  - by eapply heap_dealloc_region.
Qed.

Lemma heap_run_ok (h0 h : Heap P) live start e :
  heap_ok h0 [] → heap_start (bump (h_alloc h0)) = start → heap_end (bump (h_alloc h0)) = e →
  rtc heap_step (h0, []) (h, live) →
  heap_ok h live ∧ heap_start (bump (h_alloc h)) = start ∧ heap_end (bump (h_alloc h)) = e.
Proof.
  intros Hok Hs He Hrun.
  enough (∀ w, rtc heap_step (h0, []) w → heap_ok w.1 w.2 ∧ heap_start (bump (h_alloc w.1)) = start ∧
    heap_end (bump (h_alloc w.1)) = e) as Hw by exact (Hw _ Hrun).
  apply rtc_ind_r; [done|]. intros w1 w2 _ Hstep (Hok1 & Hs1 & He1).
  destruct (heap_step_region _ _ Hstep Hok1). split; [by eapply heap_step_ok|]. split; congruence.
Qed.
End from_interface.

Lemma omap_nil_all {A B} (f : A → option B) (l : list A) : (∀ x, x ∈ l → f x = None) → omap f l = [].
Proof.
  induction l as [|x l IH]; intros Hl; [done|]. cbn. rewrite (Hl x) by set_solver.
  apply IH. intros. apply Hl. set_solver.
Qed.

(** ** The heap over the pools *)

Section pools.
Context (arenas : nat → Z).

(** What [init] asks of its caller, and the system heap provides: the arenas and
    the bump region are separate. *)
Record heap_env (start len : Z) : Prop := {
  he_pos : ∀ i, 0 < arenas i;
  he_arenas : ∀ i j, i ≠ j → ranges_disjoint (arenas i, Pool.ARENA_SIZE) (arenas j, Pool.ARENA_SIZE);
  he_region : 0 < start ∧ 0 <= len ∧ start + len <= 9223372036854775744;
  he_apart : ∀ i, ranges_disjoint (arenas i, Pool.ARENA_SIZE) (start, len);
}.

#[local] Existing Instance pools_small_allocator.

Lemma heap_init_ok start len (He : heap_env start len) :
  ∃ h0, HeapAllocator.init (H := pools_small_allocator arenas)
          (HeapAllocator.boot PoolAllocator.new) start len = Ret h0 ∧
    heap_start (bump (h_alloc h0)) = start ∧ heap_end (bump (h_alloc h0)) = start + len ∧
    heap_ok (H0 := pools_laws arenas (he_pos _ _ He) (he_arenas _ _ He)) h0 [].
Proof.
  destruct He as [Hpos Harenas (Hs & Hl & Hmax) Hapart]. simpl.
  unfold HeapAllocator.init. cbn [sa_init pools_small_allocator h_pool HeapAllocator.boot].
  destruct (pa_init_ok arenas Hpos) as (pa & -> & Hok). cbn [obind].
  unfold BumpAllocator.init. rewrite usize_add_ok by lia. cbn [obind].
  eexists. split; [done|]. split; [done|]. split; [done|]. split.
  - done.
  - eexists _, _. split_and!; [exact Hok|intros b; done|by intros a ?%not_elem_of_nil].
  - split; simpl; try done; try lia. by intros r ?%not_elem_of_nil.
  - by intros p l ?%not_elem_of_nil.
  - simpl. intros x Hx [b Hb]. unfold arena_of in Hb.
    destruct (Hapart (Z.to_nat (BlockSize.index b))); simpl in *; lia.
Qed.

(** C13. After [init] over separate arenas and a bump region, and any sequence of
    allocations and deallocations of layouts of alignment at most 8 in which
    the pools do not run dry, the ranges of two live pointers never overlap;
    those that came from the bump allocator lie, with their headers, inside the
    region; and when none of these is left the whole region is free again. *)
Theorem heap_live_disjoint start len h0 h live :
  heap_env start len →
  HeapAllocator.init (H := pools_small_allocator arenas)
    (HeapAllocator.boot PoolAllocator.new) start len = Ret h0 →
  rtc (heap_step (H := pools_small_allocator arenas)) (h0, []) (h, live) →
  (∀ i j p l q k, live !! i = Some (p, l) → live !! j = Some (q, k) → i ≠ j →
     p + size l <= q ∨ q + size k <= p) ∧
  (∀ p l, (p, l) ∈ live → class_of l = None →
     start <= p - header_size ∧ p + size l <= start + len) ∧
  ((∀ p l, (p, l) ∈ live → class_of l ≠ None) →
     BumpAllocator.used (bump (h_alloc h)) = 0 ∧ BumpAllocator.free (bump (h_alloc h)) = len).
Proof.
  intros He Hinit Hrun. destruct (heap_init_ok start len He) as (h0' & Heq & Hst & Hen & Hok0).
  rewrite Hinit in Heq. injection Heq as <-.
  assert (heap_ok (H0 := pools_laws arenas (he_pos _ _ He) (he_arenas _ _ He)) h live ∧
          heap_start (bump (h_alloc h)) = start ∧ heap_end (bump (h_alloc h)) = start + len) as (Hok & Hs & He').
  { by eapply heap_run_ok. }
  split_and!.
  - intros i j p l q k Hi Hj Hij.
    destruct (ho_ptr _ _ Hok p l (list_elem_of_lookup_2 _ _ _ Hi)) as [_ [[? _] _]].
    destruct (ho_ptr _ _ Hok q k (list_elem_of_lookup_2 _ _ _ Hj)) as [_ [[? _] _]].
    assert (i < j ∨ j < i)%nat as [Hlt|Hlt] by lia; [|apply or_comm];
      eapply (heap_ok_disjoint_lt (H0 := pools_laws arenas (he_pos _ _ He) (he_arenas _ _ He)));
        first [exact Hok | exact Hi | exact Hj | exact Hlt | done].
  - intros p l Hin Hc. assert ((p - header_size, header_size + size l) ∈ bump_part live) as Hb.
    { unfold bump_part. apply list_elem_of_omap. exists (p, l). split; [done|]. by rewrite Hc. }
    pose proof (bo_in _ _ (ho_bump _ _ Hok) _ Hb). pose proof (bo_end _ _ (ho_bump _ _ Hok)).
    unfold header_size in *. simpl in *. lia.
  - intros Hall. assert (bump_part live = []) as Hnil.
    { apply omap_nil_all. intros [p l] Hin. specialize (Hall p l Hin). by destruct (class_of l). }
    pose proof (ho_bump _ _ Hok) as Hb. rewrite Hnil in Hb. pose proof (bo_reset _ _ Hb eq_refl).
    destruct (he_region _ _ He). unfold BumpAllocator.used, BumpAllocator.free, saturating_sub. lia.
Qed.

End pools.

(** Arena addresses for the witnesses, above a small bump region. *)
Definition test_arenas (i : nat) : Z := 65536 * (Z.of_nat i + 1).

Lemma test_env : heap_env test_arenas 1024 60000.
Proof. split; unfold test_arenas, ranges_disjoint, Pool.ARENA_SIZE; simpl; lia. Qed.

Definition test_laws : @SmallAllocatorLaws PoolAllocator (pools_small_allocator test_arenas) :=
  pools_laws test_arenas (he_pos _ _ _ test_env) (he_arenas _ _ _ test_env).

(** The heap after [init] on that region, over the initialized pools [pa]. *)
Definition test_heap (pa : PoolAllocator) : Heap PoolAllocator :=
  mkHeap (mkHeapAllocator (mkBump 1024 61024 1024 0) true 0 0 0 0) pa (mkOomStats 0 0 0) false None
    reset_profiling_stats ∅ ∅.

Lemma test_init :
  ∃ pa free used, pa_ok test_arenas pa free used ∧
    HeapAllocator.init (H := pools_small_allocator test_arenas)
      (HeapAllocator.boot PoolAllocator.new) 1024 60000 = Ret (test_heap pa).
Proof.
  destruct (pa_init_ok test_arenas (he_pos _ _ _ test_env)) as (pa & Hpa & Hok). eexists pa, _, _. split; [exact Hok|].
  unfold HeapAllocator.init. cbn [sa_init pools_small_allocator h_pool HeapAllocator.boot]. by rewrite Hpa.
Qed.

Lemma heap_live_disjoint_witness :
  ∃ pa h, HeapAllocator.init (H := pools_small_allocator test_arenas)
            (HeapAllocator.boot PoolAllocator.new) 1024 60000 = Ret (test_heap pa) ∧
    rtc (heap_step (H := pools_small_allocator test_arenas)) (test_heap pa, [])
      (h, [(6072, mkLayout 6000 8); (1048, mkLayout 5000 4)]) ∧ 1048 + 5000 <= 6072.
Proof.
  destruct test_init as (pa & _ & _ & _ & Hinit).
  assert (∃ h, rtc (heap_step (H := pools_small_allocator test_arenas)) (test_heap pa, [])
    (h, [(6072, mkLayout 6000 8); (1048, mkLayout 5000 4)])) as [h Hrun].
  { eexists. eapply rtc_l.
    { eapply (hs_alloc (λ _, true) _ _ (mkLayout 5000 4)); [unfold std_layout; simpl; lia|reflexivity|by intros []]. }
    eapply rtc_l.
    { eapply (hs_alloc (λ _, true) _ _ (mkLayout 6000 8)); [unfold std_layout; simpl; lia|reflexivity|by intros []]. }
    apply rtc_refl. }
  exists pa, h. split; [exact Hinit|]. split; [exact Hrun|].
  destruct (heap_live_disjoint test_arenas 1024 60000 _ h _ test_env Hinit Hrun) as [Hd _].
  specialize (Hd 1%nat 0%nat _ _ _ _ eq_refl eq_refl ltac:(lia)). simpl in Hd. lia.
Defined.

(** The bump path overruns its reservation for a layout of alignment 16: when
    the next free address is a multiple of 16, the pointer returned is aligned
    and its range ends 8 bytes above the end of what was reserved, where the
    header of the following allocation goes. *)
Theorem bump_path_overrun {P} `{SmallAllocator P} handler weak (h : Heap P) n :
  initialized (h_alloc h) = true → h_profiling h = false →
  0 < next (bump (h_alloc h)) → next (bump (h_alloc h)) mod 16 = 0 → 0 <= n →
  next (bump (h_alloc h)) + 24 + n <= heap_end (bump (h_alloc h)) <= 9223372036854775744 →
  ∃ p h', HeapAllocator.alloc handler weak h (mkLayout n 16) = Ret (p, h') ∧
    p mod 16 = 0 ∧ p + n = next (bump (h_alloc h')) + 8.
Proof.
  intros Hi Hprof Hn0 Hm Hn Hend. set (b := bump (h_alloc h)) in *.
  unfold HeapAllocator.alloc, HeapAllocator.alloc_with_retry, HeapAllocator.attempt.
  rewrite Hi. cbn [negb align]. change (16 `max` MIN_ALIGNMENT) with 16. change (16 <=? MIN_ALIGNMENT) with false.
  rewrite andb_false_r. unfold HeapAllocator.bump_path, HeapAllocator.max_padding. cbn [align size].
  change (16 `max` MIN_ALIGNMENT) with 16. change (header_size <? 16) with false. cbn [obind]. unfold header_size.
  rewrite usize_add_ok by lia. cbn [obind]. rewrite Z.add_0_r, usize_add_ok by lia. cbn [obind].
  unfold from_size_align. change (is_power_of_two 8) with true. cbn [andb].
  rewrite (proj2 (Z.leb_le _ _)) by lia. cbn [default]. fold b.
  assert (next b mod 8 = 0) as Hm8.
  { apply Z.mod_divide in Hm as [k Hk]; [|lia]. apply Z.mod_divide; [lia|]. exists (k * 2). lia. }
  unfold BumpAllocator.allocate. cbn [align size]. rewrite align_up_aligned by (done || lia). cbn [obind].
  unfold checked_add. cbn [id size]. case_bool; [lia|].
  destruct (Z.leb_spec (next b + (24 + n)) U64_MAX); [|lia]. case_bool; [lia|]. cbn [obind]. rewrite usize_add_ok by lia. cbn [obind].
  assert (align_up (next b + 24) 16 = Ret (next b + 32)) as ->.
  { unfold align_up. rewrite usize_rem_ok by lia. cbn [obind].
    assert ((next b + 24) mod 16 = 8) as ->. { rewrite Z.add_mod, Hm by lia. done. }
    cbn. rewrite usize_add_ok by lia. cbn [obind]. rewrite usize_sub_ok by lia. f_equal. lia. }
  cbn [obind]. rewrite usize_sub_ok by lia. cbn [obind].
  unfold HeapAllocator.call_hook. cbn [h_profiling HeapAllocator.set_alloc HeapAllocator.set_headers].
  rewrite Hprof. cbn [obind]. eexists _, _. split; [done|]. simpl. split; [|lia].
  rewrite Z.add_mod, Hm by lia. done.
Qed.

Lemma bump_path_overrun_witness :
  ∃ pa p h', HeapAllocator.alloc (H := pools_small_allocator test_arenas)
               HeapAllocator.default_oom_handler (λ _, true) (test_heap pa) (mkLayout 8192 16) = Ret (p, h') ∧
    p + 8192 = next (bump (h_alloc h')) + 8.
Proof.
  destruct test_init as (pa & _). exists pa.
  destruct (bump_path_overrun (H := pools_small_allocator test_arenas) HeapAllocator.default_oom_handler
    (λ _, true) (test_heap pa) 8192) as (p & h' & Heq & _ & Hp); try reflexivity; [simpl; lia..|].
  exists p, h'. split; [exact Heq|exact Hp].
Defined.

(** [dealloc] decides by the size alone where a pointer goes: with a size of
    1 to 4096 it pushes any pointer, one that the bump allocator served for its
    alignment or because the pool was dry included, on the free list of the
    size class, the next request of that class gets it, and the bump allocator
    does not count it back. *)
Theorem dealloc_small_feeds_pool arenas handler (h : Heap PoolAllocator) free used p l b :
  pa_ok arenas (h_pool h) free used → initialized (h_alloc h) = true → h_profiling h = false →
  p ≠ 0 → class_of l = Some b →
  ∃ h2, HeapAllocator.dealloc (H := pools_small_allocator arenas) (λ _, true) h p l = Ret h2 ∧
    bump (h_alloc h2) = bump (h_alloc h) ∧
    ∀ n, 0 <= n <= 4096 → BlockSize.for_size n = Some b →
      ∃ h3, HeapAllocator.alloc (H := pools_small_allocator arenas) handler (λ _, true) h2 (mkLayout n 8) = Ret (p, h3).
Proof.
  intros Hok Hi Hprof Hp Hc. unfold HeapAllocator.dealloc. rewrite Hi, (proj2 (Z.eqb_neq _ _) Hp). cbn [orb negb].
  unfold HeapAllocator.call_hook. rewrite Hprof. cbn [obind]. fold (class_of l). rewrite Hc.
  cbn [sa_deallocate pools_small_allocator]. unfold PoolAllocator.deallocate. cbn [alloc_block_size ptr].
  destruct (pa_get arenas _ _ _ b Hok) as (q & Hg & Hl & _ & Hset). pose proof (index_range b) as Hr.
  rewrite Hg. cbn [obind]. rewrite Hset. cbn [obind]. eexists. split; [done|]. split; [done|].
  intros n Hn Hfs. unfold HeapAllocator.alloc, HeapAllocator.alloc_with_retry, HeapAllocator.attempt.
  cbn [h_alloc HeapAllocator.set_alloc HeapAllocator.set_pool initialized]. rewrite Hi. cbn [negb align size].
  change (8 `max` MIN_ALIGNMENT) with 8. change (8 <=? MIN_ALIGNMENT) with true.
  rewrite (proj2 (Z.leb_le n MAX_POOL_SIZE)) by (unfold MAX_POOL_SIZE; lia). cbn [andb].
  cbn [sa_allocate pools_small_allocator h_pool]. unfold PoolAllocator.allocate. rewrite Hfs. cbn [pools].
  rewrite (arr_get_ok _ _ (Pool.deallocate (λ _, true) p q)) by
    (try lia; apply list_lookup_insert_eq; rewrite (pk_len _ _ _ _ Hok); lia).
  cbn [obind].
  assert (Pool.allocate (λ _, true) (Pool.deallocate (λ _, true) p q) =
    Ret (Some p, set_allocated (wrap32 (allocated_blocks (Pool.deallocate (λ _, true) p q) + 1))
                   (set_free_list (free_list q) (Pool.deallocate (λ _, true) p q)))) as ->.
  { unfold Pool.allocate, Pool.deallocate. cbn. rewrite (proj2 (Z.eqb_neq _ _) Hp).
    by rewrite lookup_insert_eq. }
  cbn [obind pools h_pool HeapAllocator.set_alloc HeapAllocator.set_pool].
  rewrite arr_set_ok by (rewrite length_insert, (pk_len _ _ _ _ Hok); lia). cbn [obind].
  unfold HeapAllocator.call_hook. cbn [h_profiling HeapAllocator.set_alloc HeapAllocator.set_pool].
  rewrite Hprof. cbn [obind]. eauto.
Qed.

Lemma dealloc_small_feeds_pool_witness :
  ∃ pa p h1 h2 h3,
    HeapAllocator.alloc (H := pools_small_allocator test_arenas)
      HeapAllocator.default_oom_handler (λ _, true) (test_heap pa) (mkLayout 100 16) = Ret (p, h1) ∧
    HeapAllocator.dealloc (H := pools_small_allocator test_arenas) (λ _, true) h1 p (mkLayout 100 16) = Ret h2 ∧
    allocations (bump (h_alloc h2)) = 1 ∧
    HeapAllocator.alloc (H := pools_small_allocator test_arenas)
      HeapAllocator.default_oom_handler (λ _, true) h2 (mkLayout 120 8) = Ret (p, h3).
Proof.
  destruct test_init as (pa & free & used & Hok & _).
  assert (∃ h1, HeapAllocator.alloc (H := pools_small_allocator test_arenas)
      HeapAllocator.default_oom_handler (λ _, true) (test_heap pa) (mkLayout 100 16) = Ret (1056, h1) ∧
      h_pool h1 = pa ∧ initialized (h_alloc h1) = true ∧ h_profiling h1 = false ∧
      allocations (bump (h_alloc h1)) = 1) as (h1 & Ha & Ep & Ei & Ef & Ec).
  { eexists. split; [reflexivity|]. done. }
  destruct (dealloc_small_feeds_pool test_arenas HeapAllocator.default_oom_handler h1 free used 1056
    (mkLayout 100 16) B128) as (h2 & Hd & Hb & Hall);
    [rewrite Ep; exact Hok|exact Ei|exact Ef|lia|reflexivity|].
  destruct (Hall 120 ltac:(lia) eq_refl) as [h3 Ha3].
  exists pa, 1056, h1, h2, h3. split; [exact Ha|]. split; [exact Hd|]. split; [rewrite Hb; exact Ec|exact Ha3].
Defined.

(** When the bump allocator has no room for a large request, the handler
    runs exactly once; if it declines, null is returned and one failure is
    counted; if it asks for a retry and there is still no room, null is
    returned and a recovery and a failure are counted, two events in all. *)
Theorem alloc_oom_path {P} `{SmallAllocatorLaws P} handler weak (h : Heap P) live l h2 live2 retry :
  heap_ok h live → std_layout l → MAX_POOL_SIZE < size l → no_room h l →
  handler l h = Ret (retry, h2) → (retry = true → heap_ok h2 live2 ∧ no_room h2 l) →
  HeapAllocator.alloc handler weak h l =
    Ret (0, HeapAllocator.set_oom
              (if retry then record_oom false (record_oom true (h_oom h2)) else record_oom false (h_oom h2)) h2).
Proof.
  intros Hok Hstd Hl Hn Hh Hretry. unfold HeapAllocator.alloc, HeapAllocator.alloc_with_retry, HeapAllocator.attempt.
  rewrite (ho_init _ _ Hok). cbn [negb]. rewrite (proj2 (Z.leb_gt _ _)) by lia. cbn [andb].
  rewrite (bump_path_no_room h live l _ Hok Hstd Hn), Hh. cbn [obind]. destruct retry; [|done].
  destruct (Hretry eq_refl) as [Hok2 Hn2]. cbn [h_alloc HeapAllocator.set_oom].
  rewrite (ho_init _ _ Hok2). cbn [negb]. rewrite (bump_path_no_room _ live2); [done| |done|done].
  by eapply heap_ok_frame.
Qed.

Lemma alloc_oom_path_witness :
  ∃ pa h', HeapAllocator.alloc (H := pools_small_allocator test_arenas)
             (λ _ h, Ret (true, h)) (λ _, true) (test_heap pa) (mkLayout 70000 8) = Ret (0, h') ∧
    h_oom h' = mkOomStats 2 1 1.
Proof.
  destruct test_init as (pa & _ & _ & _ & Hinit).
  destruct (heap_init_ok test_arenas 1024 60000 test_env) as (h0 & Hi & _ & _ & Hok).
  rewrite Hinit in Hi. injection Hi as <-. exists pa.
  eexists. split; [apply (alloc_oom_path (H0 := test_laws) (λ _ h, Ret (true, h)) (λ _, true) (test_heap pa) [] (mkLayout 70000 8)
      (test_heap pa) [] true)|].
  - exact Hok.
  - unfold std_layout. simpl. lia.
  - unfold MAX_POOL_SIZE. simpl. lia.
  - unfold no_room, header_size. simpl. lia.
  - reflexivity.
  - intros _. split; [exact Hok|]. unfold no_room, header_size. simpl. lia.
  - reflexivity.
Defined.

(** [realloc] keeps the contents: when it returns a new pointer, the new block
    does not overlap the old one (which [copy_nonoverlapping] requires), its
    first bytes, up to the smaller of the two sizes, are those of the old block,
    and no byte outside the new block changes. *)
Theorem realloc_preserves {P} `{SmallAllocatorLaws P} weak (h : Heap P) live1 live2 ptr l new_size q h' :
  heap_ok h (live1 ++ (ptr, l) :: live2) → 0 <= new_size <= 9223372036854775807 →
  HeapAllocator.realloc HeapAllocator.default_oom_handler weak h ptr l new_size = Ret (q, h') → q ≠ 0 →
  (∀ h1, HeapAllocator.alloc HeapAllocator.default_oom_handler weak h (mkLayout new_size (align l)) = Ret (q, h1) →
     class_of (mkLayout new_size (align l)) ≠ None → bump (h_alloc h1) = bump (h_alloc h)) →
  (ptr + size l <= q ∨ q + new_size <= ptr) ∧
  (∀ i, 0 <= i < Z.min (size l) new_size → h_mem h' !! (q + i) = h_mem h !! (ptr + i)) ∧
  (∀ x, ¬ q <= x < q + new_size → h_mem h' !! x = h_mem h !! x).
Proof.
  intros Hok Hns Heq Hq Hsame. unfold HeapAllocator.realloc in Heq.
  destruct (ho_ptr _ _ Hok ptr l) as [Hp Hstd]; [set_solver|].
  destruct (HeapAllocator.alloc _ _ _ _) as [[q1 h1]| |] eqn:Ha; cbn [obind] in Heq; try done.
  rewrite (proj2 (Z.eqb_neq ptr 0) Hp), andb_true_r in Heq.
  destruct (Z.eqb_spec q1 0) as [->|Hq1]; cbn [negb] in Heq; [naive_solver|].
  destruct (HeapAllocator.call_hook _ _) as [h3| |] eqn:Hh; cbn [obind] in Heq; try done.
  destruct (HeapAllocator.dealloc _ _ _ _) as [h4| |] eqn:Hd; simplify_eq/=.
  assert (h_mem h' = HeapAllocator.copy_bytes (Z.to_nat (Z.min (size l) new_size)) ptr q (h_mem h)) as ->.
  { apply dealloc_mem in Hd as ->. apply call_hook_frame in Hh as (_ & _ & _ & ->). simpl.
    destruct (heap_alloc_event _ _ _ _ _ Ha Hq) as (ev & h5 & Hev & _ & _ & _ & _ & Hm & _).
    by apply call_hook_frame in Hev as (_ & _ & _ & ->); rewrite Hm. }
  pose proof Hstd as [[Hsz _] Hal]. split; [|split; intros; rewrite copy_bytes_lookup].
  - assert (std_layout (mkLayout new_size (align l))) as Hstd' by done.
    pose proof (heap_alloc_ok _ _ _ _ _ _ Hok Hstd' Ha (Hsame _ eq_refl)) as Hok1.
    rewrite (proj2 (Z.eqb_neq q 0) Hq) in Hok1.
    enough (ranges_disjoint (q, new_size) (ptr, size l)) as [Hlt|Hlt]; [right; exact Hlt|left; exact Hlt|].
    apply (heap_ok_disjoint_lt h1 _ 0%nat (S (length live1)) q (mkLayout new_size (align l)) ptr l Hok1);
      simpl; [done| |lia|lia|lia].
    rewrite lookup_app_r, Nat.sub_diag by lia. done.
  - rewrite decide_True by lia. f_equal. lia.
  - rewrite decide_False by lia. done.
Qed.

(** Without a hook, moving a large block succeeds once the new one is there. *)
Lemma realloc_large_returns {P} `{SmallAllocator P} weak (h : Heap P) ptr l n q h1 :
  HeapAllocator.alloc HeapAllocator.default_oom_handler weak h (mkLayout n (align l)) = Ret (q, h1) →
  h_profiling h1 = false → q ≠ 0 → ptr ≠ 0 → class_of l = None →
  ∃ h2, HeapAllocator.realloc HeapAllocator.default_oom_handler weak h ptr l n = Ret (q, h2).
Proof.
  intros Ha Hpr Hq Hp Hc. unfold HeapAllocator.realloc. rewrite Ha. cbn [obind].
  rewrite (proj2 (Z.eqb_neq q 0) Hq), (proj2 (Z.eqb_neq ptr 0) Hp). cbn [andb negb].
  unfold HeapAllocator.call_hook. cbn [h_profiling HeapAllocator.set_mem]. rewrite Hpr. cbn [obind].
  unfold HeapAllocator.dealloc, HeapAllocator.call_hook. rewrite (proj2 (Z.eqb_neq ptr 0) Hp). cbn [orb].
  destruct (negb _); [by eexists|]. cbn [h_profiling HeapAllocator.set_mem]. rewrite Hpr. cbn [obind].
  fold (class_of l). rewrite Hc. by eexists.
Qed.

Lemma realloc_preserves_witness :
  ∃ pa h1 h2, HeapAllocator.alloc (H := pools_small_allocator test_arenas)
      HeapAllocator.default_oom_handler (λ _, true) (test_heap pa) (mkLayout 5000 8) = Ret (1048, h1) ∧
    HeapAllocator.realloc (H := pools_small_allocator test_arenas)
      HeapAllocator.default_oom_handler (λ _, true) (HeapAllocator.set_mem {[ 1048 := 7 ]} h1)
      1048 (mkLayout 5000 8) 9000 = Ret (6072, h2) ∧
    h_mem h2 !! 6072 = Some 7.
Proof.
  destruct test_init as (pa & _ & _ & _ & Hinit).
  destruct (heap_init_ok test_arenas 1024 60000 test_env) as (h0 & Hi & _ & _ & Hok0).
  rewrite Hinit in Hi. injection Hi as <-. exists pa.
  assert (∃ h1, HeapAllocator.alloc (H := pools_small_allocator test_arenas)
      HeapAllocator.default_oom_handler (λ _, true) (test_heap pa) (mkLayout 5000 8) = Ret (1048, h1) ∧
    ∃ h1', HeapAllocator.alloc (H := pools_small_allocator test_arenas)
      HeapAllocator.default_oom_handler (λ _, true) (HeapAllocator.set_mem {[ 1048 := 7 ]} h1)
      (mkLayout 9000 8) = Ret (6072, h1') ∧ h_profiling h1' = false) as (h1 & H1 & h1' & H1' & Hpr).
  { eexists. split; [reflexivity|]. eexists. split; reflexivity. }
  destruct (realloc_large_returns (H := pools_small_allocator test_arenas) (λ _, true) _ 1048 (mkLayout 5000 8)
    9000 _ _ H1' Hpr ltac:(lia) ltac:(lia) eq_refl) as [h2 H2].
  exists h1, h2. split; [exact H1|]. split; [exact H2|].
  assert (std_layout (mkLayout 5000 8)) as Hl by (unfold std_layout; simpl; lia).
  pose proof (heap_alloc_ok (H0 := test_laws) _ _ _ _ _ _ Hok0 Hl H1 ltac:(by intros [])) as Hok1.
  apply (heap_ok_frame (H0 := test_laws) _ (HeapAllocator.set_mem {[ 1048 := 7 ]} h1)) in Hok1; [|done..].
  destruct (realloc_preserves (H0 := test_laws) (λ _, true) _ [] [] 1048 (mkLayout 5000 8) 9000 6072 h2 Hok1 ltac:(lia) H2 ltac:(lia))
    as (_ & Hc & _); [by intros ? _ []|].
  specialize (Hc 0 ltac:(simpl; lia)). exact Hc.
Defined.

(** ** The built-in profiler *)

Definition profile_ok (s : ProfilingStats) : Prop := 0 <= current_bytes s <= peak_bytes s ∧ peak_bytes s <= U64_MAX.

Lemma wrap64_sub_min c d : 0 <= c <= U64_MAX → 0 <= d → wrap64 (c - Z.min d c) = Z.max 0 (c - d).
Proof. intros. rewrite wrap64_small; lia. Qed.

(** The built-in profiler never reports a peak below the current usage,
    whatever events it sees, and it panics only when the usage would leave 64
    bits. *)
Theorem profiler_peak_bounds ev s s' :
  profile_ok s → (match ev with
                  | EvAlloc n _ _ _ | EvDealloc _ n => 0 <= n <= U64_MAX
                  | EvRealloc _ o _ n => 0 <= o <= U64_MAX ∧ 0 <= n <= U64_MAX
                  end) →
  (builtin_profiler ev s = Ret s' → profile_ok s' ∧ peak_bytes s <= peak_bytes s') ∧
  (builtin_profiler ev s = Panic → ∃ d, 0 < d ∧ U64_MAX < current_bytes s + d).
Proof.
  unfold profile_ok. intros Hs Hev. destruct ev as [n al p b|p n|p o q n]; simpl.
  - destruct (decide (current_bytes s + n <= U64_MAX)).
    + rewrite usize_add_ok by lia. cbn [obind]. split; [|done]. intros [= <-]. simpl.
      unfold raise_peak. rewrite wrap64_small by lia. case_bool; lia.
    + unfold usize_add. rewrite checked_panic by lia. split; [done|]. intros _. exists n. lia.
  - split; [|done]. intros [= <-]. simpl. rewrite wrap64_sub_min by lia. lia.
  - destruct (Z.ltb_spec o n).
    + rewrite usize_sub_ok by lia. cbn [obind]. destruct (decide (current_bytes s + (n - o) <= U64_MAX)).
      * rewrite usize_add_ok by lia. cbn [obind]. split; [|done]. intros [= <-]. simpl.
        unfold raise_peak. rewrite wrap64_small by lia. case_bool; lia.
      * unfold usize_add. rewrite checked_panic by lia. split; [done|]. intros _. exists (n - o). lia.
    + rewrite usize_sub_ok by lia. cbn [obind]. split; [|done]. intros [= <-]. simpl. rewrite wrap64_sub_min by lia. lia.
Qed.

Lemma profiler_peak_bounds_witness :
  ∃ s', builtin_profiler (EvRealloc 1 10 2 30) (mkProfile 1 0 0 10 0 10 15 1 0) = Ret s' ∧ profile_ok s'.
Proof.
  eexists. split; [reflexivity|].
  eapply (profiler_peak_bounds (EvRealloc 1 10 2 30) (mkProfile 1 0 0 10 0 10 15 1 0)).
  - unfold profile_ok. simpl. lia.
  - simpl. lia.
  - reflexivity.
Defined.

(** What one event does to the usage. *)
Lemma hook_current {P} ev (h h' : Heap P) :
  h_profiling h = true → h_hook h = Some builtin_profiler → HeapAllocator.call_hook ev h = Ret h' →
  builtin_profiler ev (h_profile h) = Ret (h_profile h') ∧
  h_profiling h' = true ∧ h_hook h' = Some builtin_profiler ∧
  initialized (h_alloc h') = initialized (h_alloc h).
Proof.
  intros Hp Hk. unfold HeapAllocator.call_hook. rewrite Hp, Hk.
  destruct (builtin_profiler ev (h_profile h)); [|done..]. by intros [= <-].
Qed.

(** [realloc] reports the growth of a block to the profiler twice: the event
    of the new block and that of the old one already account for it, and the
    realloc event adds the difference again, so the usage the built-in
    profiler keeps grows by twice the difference. *)
Theorem realloc_profiled_twice {P} `{SmallAllocator P} weak (h : Heap P) ptr l new_size q h' :
  h_profiling h = true → h_hook h = Some builtin_profiler →
  0 <= size l < new_size → size l <= current_bytes (h_profile h) →
  current_bytes (h_profile h) + 2 * new_size <= U64_MAX → ptr ≠ 0 → q ≠ 0 →
  HeapAllocator.realloc HeapAllocator.default_oom_handler weak h ptr l new_size = Ret (q, h') →
  current_bytes (h_profile h') = current_bytes (h_profile h) + 2 * (new_size - size l).
Proof.
  intros Hp Hk Hs Hc Hmax Hptr Hq Heq. unfold HeapAllocator.realloc in Heq.
  destruct (HeapAllocator.alloc _ _ _ _) as [[q1 h1]| |] eqn:Ha; cbn [obind] in Heq; try done.
  rewrite (proj2 (Z.eqb_neq ptr 0) Hptr), andb_true_r in Heq.
  destruct (Z.eqb_spec q1 0) as [->|Hq1]; cbn [negb] in Heq; [naive_solver|].
  destruct (HeapAllocator.call_hook (EvRealloc _ _ _ _) _) as [h3| |] eqn:Hr; cbn [obind] in Heq; try done.
  destruct (HeapAllocator.dealloc _ _ _ _) as [h4| |] eqn:Hd; simplify_eq/=.
  pose proof (heap_alloc_init _ _ _ _ _ Ha Hq) as Hinit.
  destruct (heap_alloc_event _ _ _ _ _ Ha Hq) as (ev & h5 & Hev & (al & b & ->) & E1 & E2 & E3 & _ & E5).
  rewrite Hp in E1. rewrite Hk in E2. destruct (hook_current _ _ _ E1 E2 Hev) as (P1 & F1 & F2 & F3).
  destruct (hook_current _ _ _ (F1 : h_profiling (HeapAllocator.set_mem _ h1) = true) F2 Hr) as (P2 & G1 & G2 & G3).
  rewrite E3 in P1. cbn [h_profile HeapAllocator.set_mem] in P2.
  cbn [h_alloc HeapAllocator.set_mem] in G3.
  assert (initialized (h_alloc h3) = true) as Hi3 by congruence.
  destruct (dealloc_profile _ _ _ _ _ Hptr Hi3 Hd) as (h6 & Hev6 & Hprof).
  destruct (hook_current _ _ _ G1 G2 Hev6) as (P3 & _). rewrite Hprof.
  cbn in P1. rewrite usize_add_ok in P1 by lia. cbn [obind] in P1. injection P1 as P1.
  rewrite <-P1 in P2. cbn in P2. rewrite (proj2 (Z.ltb_lt _ _)) in P2 by lia.
  rewrite usize_sub_ok in P2 by lia. cbn [obind] in P2. rewrite wrap64_small in P2 by lia.
  rewrite usize_add_ok in P2 by lia. cbn [obind] in P2. injection P2 as P2.
  rewrite <-P2 in P3. cbn in P3. injection P3 as P3. rewrite <-P3. cbn [current_bytes].
  rewrite ?(wrap64_small (current_bytes (h_profile h) + new_size)) by lia.
  rewrite (wrap64_small (current_bytes (h_profile h) + new_size + (new_size - size l))) by lia.
  rewrite wrap64_small; lia.
Qed.

(** A profiled heap with one block of no bytes, at 1048. *)
Definition profiled_heap (pa : PoolAllocator) : Heap PoolAllocator :=
  match HeapAllocator.alloc (H := pools_small_allocator test_arenas) HeapAllocator.default_oom_handler (λ _, true)
          (HeapAllocator.enable_profiling true (HeapAllocator.set_allocation_hook builtin_profiler (test_heap pa)))
          (mkLayout 0 8) with
  | Ret (_, h) => h
  | _ => test_heap pa
  end.

Definition ret_ptr {P} (o : outcome (Z * Heap P)) : option Z :=
  match o with Ret (p, _) => Some p | _ => None end.

Lemma realloc_profiled_twice_witness :
  ∃ pa h2,
    HeapAllocator.realloc (H := pools_small_allocator test_arenas)
      HeapAllocator.default_oom_handler (λ _, true) (profiled_heap pa) 1048 (mkLayout 0 8) 5000 = Ret (1072, h2) ∧
    current_bytes (h_profile h2) = 10000.
Proof.
  destruct test_init as (pa & _). exists pa.
  assert (ret_ptr (HeapAllocator.realloc (H := pools_small_allocator test_arenas)
    HeapAllocator.default_oom_handler (λ _, true) (profiled_heap pa) 1048 (mkLayout 0 8) 5000) = Some 1072) as Hq
    by (vm_compute; reflexivity).
  destruct (HeapAllocator.realloc _ _ _ _ _ _) as [[q h2]| |] eqn:H2; cbn [ret_ptr] in Hq; try discriminate Hq.
  injection Hq as ->. exists h2. split; [reflexivity|].
  assert (current_bytes (h_profile (profiled_heap pa)) = 0) as Hc by (vm_compute; reflexivity).
  rewrite (realloc_profiled_twice (H := pools_small_allocator test_arenas) (λ _, true) (profiled_heap pa) 1048
    (mkLayout 0 8) 5000 1072 h2 eq_refl eq_refl); rewrite ?Hc; try exact H2; simpl; lia.
Defined.
