(* ===== verification/Ipc.v ===== *)
(** * Inter-processor communication (mielin-kernel/src/ipc.rs)

    Pending interrupts, the message queue, the matrix of queues between CPUs,
    and the barrier as the atomic steps of the CPUs that wait at it.

    [cpu] is the caller's CPU number and [num_cpus] the number of CPUs on line,
    which the code reads from the per-CPU module.  A queue slot is behind a lock
    of its own that is held for one access. *)

From stdpp Require Import base tactics option list numbers relations.
From S2P Require Import Prelude Percpu.

(* src: mielin-kernel/src/ipc.rs 76-76 MAX_MESSAGES_PER_CPU *)
Definition MAX_MESSAGES_PER_CPU : Z := 256.

(** ** Interrupts *)

(* src: mielin-kernel/src/ipc.rs 81-96 IpiType *)
Inductive IpiType : Type :=
| Wakeup | Reschedule | TlbFlush | CacheInvalidate | IpiFunctionCall | Halt | Custom.

#[export] Instance IpiType_eq_dec : EqDecision IpiType.
Proof. solve_decision. Defined.

(** [ipi_type as u8]. *)
Definition ipi_u8 (t : IpiType) : Z :=
  match t with
  | Wakeup => 0
  | Reschedule => 1
  | TlbFlush => 2
  | CacheInvalidate => 3
  | IpiFunctionCall => 4
  | Halt => 5
  | Custom => 255
  end.

(* src: mielin-kernel/src/ipc.rs 113-122 IpiState *)
Record IpiState : Type := mkIpi {
  pending : Z;
  sent_count : Z;
  received_count : Z;
  error_count : Z;
}.

(* src: mielin-kernel/src/ipc.rs 100-109 IpiStats *)
Record IpiStats : Type := mkIpiStats {
  is_sent : Z;
  is_received : Z;
  is_pending_bits : Z;
  is_errors : Z;
}.

Module IpiState.

(* src: mielin-kernel/src/ipc.rs 125-132 IpiState::new *)
Definition new : IpiState := mkIpi 0 0 0 0.

(* src: mielin-kernel/src/ipc.rs 135-143 IpiState::set_pending *)
Definition set_pending (self : IpiState) (t : IpiType) : IpiState :=
  let type_val := ipi_u8 t in
  mkIpi (if type_val <? 32 then Z.lor (pending self) (Z.shiftl 1 type_val) else pending self)
        (sent_count self) (wrap64 (received_count self + 1)) (error_count self).

(* src: mielin-kernel/src/ipc.rs 146-153 IpiState::is_pending *)
Definition is_pending (self : IpiState) (t : IpiType) : bool :=
  let type_val := ipi_u8 t in
  if 32 <=? type_val then false
  else negb (Z.land (pending self) (Z.shiftl 1 type_val) =? 0).

(** [!bit] on [u32]. *)
Definition not32 (x : Z) : Z := 4294967295 - x.

(* src: mielin-kernel/src/ipc.rs 156-162 IpiState::clear_pending *)
Definition clear_pending (self : IpiState) (t : IpiType) : IpiState :=
  let type_val := ipi_u8 t in
  mkIpi (if type_val <? 32 then Z.land (pending self) (not32 (Z.shiftl 1 type_val)) else pending self)
        (sent_count self) (received_count self) (error_count self).

(* src: mielin-kernel/src/ipc.rs 165-172 IpiState::stats *)
Definition stats (self : IpiState) : IpiStats :=
  mkIpiStats (sent_count self) (received_count self) (pending self) (error_count self).

End IpiState.

(* src: mielin-kernel/src/ipc.rs 176-193 IPI_STATES *)
Definition IPI_STATES : list IpiState := replicate (Z.to_nat MAX_CPUS) IpiState.new.

(* src: mielin-kernel/src/ipc.rs 210-229 send_ipi *)
Definition send_ipi (s : list IpiState) (target_cpu : Z) (t : IpiType) : outcome (bool * list IpiState) :=
  if MAX_CPUS <=? target_cpu then Ret (false, s) else
  let! state := arr_get s target_cpu in
  let! s' := arr_set s target_cpu (IpiState.set_pending state t) in
  Ret (true, s').

(* src: mielin-kernel/src/ipc.rs 232-244 send_ipi_all_but_self *)
Definition send_ipi_all_but_self (cpu num_cpus : Z) (s : list IpiState) (t : IpiType)
    : outcome (Z * list IpiState) :=
  for_range 0 num_cpus (λ c '(sent, s),
    if negb (c =? cpu) then
      let! (ok, s') := send_ipi s c t in
      if ok : bool then let! sent' := usize_add sent 1 in Ret (sent', s') else Ret (sent, s')
    else Ret (sent, s)) (0, s).

(* src: mielin-kernel/src/ipc.rs 247-258 send_ipi_all *)
Definition send_ipi_all (num_cpus : Z) (s : list IpiState) (t : IpiType) : outcome (Z * list IpiState) :=
  for_range 0 num_cpus (λ c '(sent, s),
    let! (ok, s') := send_ipi s c t in
    if ok : bool then let! sent' := usize_add sent 1 in Ret (sent', s') else Ret (sent, s')) (0, s).

(* src: mielin-kernel/src/ipc.rs 261-264 is_ipi_pending *)
Definition is_ipi_pending (cpu : Z) (s : list IpiState) (t : IpiType) : outcome bool :=
  let! state := arr_get s cpu in Ret (IpiState.is_pending state t).

(* src: mielin-kernel/src/ipc.rs 269-279 handle_ipi *)
Definition handle_ipi (cpu : Z) (s : list IpiState) (t : IpiType) : outcome (bool * list IpiState) :=
  let! state := arr_get s cpu in
  if IpiState.is_pending state t then
    let! s' := arr_set s cpu (IpiState.clear_pending state t) in Ret (true, s')
  else Ret (false, s).

(* src: mielin-kernel/src/ipc.rs 282-287 ipi_stats *)
Definition ipi_stats (s : list IpiState) (cpu_id : Z) : outcome (option IpiStats) :=
  if MAX_CPUS <=? cpu_id then Ret None else
  let! state := arr_get s cpu_id in Ret (Some (IpiState.stats state)).

(** ** Messages *)

(* src: mielin-kernel/src/ipc.rs 292-307 MessageType *)
Inductive MessageType : Type :=
| TaskMigration | MemoryAlloc | MemoryFree | MsgFunctionCall | Data | Ack | MsgError.

#[export] Instance MessageType_eq_dec : EqDecision MessageType.
Proof. solve_decision. Defined.

(* src: mielin-kernel/src/ipc.rs 312-323 Message *)
Record Message : Type := mkMessage {
  msg_type : MessageType;
  from_cpu : Z;
  to_cpu : Z;
  seq : Z;
  data : list Z;
}.

#[export] Instance Message_eq_dec : EqDecision Message.
Proof. solve_decision. Defined.

Module Message.

(* src: mielin-kernel/src/ipc.rs 327-335 Message::new *)
Definition new (t : MessageType) (from_cpu to_cpu : Z) : Message :=
  mkMessage t (as_u8 from_cpu) (as_u8 to_cpu) 0 (replicate 7 0).

Definition set_data0 (x : Z) (m : Message) : Message :=
  mkMessage (msg_type m) (from_cpu m) (to_cpu m) (seq m) (<[0%nat := x]> (data m)).

(* src: mielin-kernel/src/ipc.rs 338-342 Message::task_migration *)
Definition task_migration (from_cpu to_cpu task_id : Z) : Message :=
  set_data0 task_id (new TaskMigration from_cpu to_cpu).

(* src: mielin-kernel/src/ipc.rs 345-349 Message::memory_alloc *)
Definition memory_alloc (from_cpu to_cpu size : Z) : Message :=
  set_data0 size (new MemoryAlloc from_cpu to_cpu).

(* src: mielin-kernel/src/ipc.rs 352-356 Message::ack *)
Definition ack (from to seq : Z) : Message :=
  let m := new Ack from to in mkMessage (msg_type m) (from_cpu m) (to_cpu m) seq (data m).

End Message.

(** ** The message queue *)

(* src: mielin-kernel/src/ipc.rs 360-375 MessageQueue *)
Record MessageQueue : Type := mkQueue {
  buffer : list (option Message);
  write_idx : Z;
  read_idx : Z;
  count : Z;
  sent : Z;
  received : Z;
  full_count : Z;
}.

(* src: mielin-kernel/src/ipc.rs 453-462 MessageQueueStats *)
Record MessageQueueStats : Type := mkQueueStats {
  qs_pending : Z;
  qs_sent : Z;
  qs_received : Z;
  qs_full_count : Z;
}.

Module MessageQueue.

(* src: mielin-kernel/src/ipc.rs 378-388 MessageQueue::new *)
Definition new : MessageQueue := mkQueue (replicate (Z.to_nat MAX_MESSAGES_PER_CPU) None) 0 0 0 0 0 0.

(* src: mielin-kernel/src/ipc.rs 391-410 MessageQueue::enqueue *)
Definition enqueue (self : MessageQueue) (msg : Message) : outcome (bool * MessageQueue) :=
  if MAX_MESSAGES_PER_CPU <=? count self then
    Ret (false, mkQueue (buffer self) (write_idx self) (read_idx self) (count self) (sent self)
                        (received self) (wrap32 (full_count self + 1)))
  else
    let idx := write_idx self in
    let! i1 := usize_add idx 1 in
    let! next_idx := usize_rem i1 MAX_MESSAGES_PER_CPU in
    let! buf := arr_set (buffer self) idx (Some msg) in
    Ret (true, mkQueue buf next_idx (read_idx self) (wrap64 (count self + 1)) (wrap64 (sent self + 1))
                       (received self) (full_count self)).

(* src: mielin-kernel/src/ipc.rs 413-433 MessageQueue::dequeue *)
Definition dequeue (self : MessageQueue) : outcome (option Message * MessageQueue) :=
  if count self =? 0 then Ret (None, self) else
  let idx := read_idx self in
  let! i1 := usize_add idx 1 in
  let! next_idx := usize_rem i1 MAX_MESSAGES_PER_CPU in
  let! msg := arr_get (buffer self) idx in
  let! buf := arr_set (buffer self) idx None in
  match msg with
  | Some m =>
    Ret (Some m, mkQueue buf (write_idx self) next_idx (wrap64 (count self - 1)) (sent self)
                         (wrap64 (received self + 1)) (full_count self))
  | None =>
    Ret (None, mkQueue buf (write_idx self) (read_idx self) (count self) (sent self)
                       (received self) (full_count self))
  end.

(* src: mielin-kernel/src/ipc.rs 436-438 MessageQueue::len *)
Definition len (self : MessageQueue) : Z := count self.

(* src: mielin-kernel/src/ipc.rs 441-448 MessageQueue::stats *)
Definition stats (self : MessageQueue) : MessageQueueStats :=
  mkQueueStats (count self) (sent self) (received self) (full_count self).

End MessageQueue.

(** ** The matrix of queues, row by sender *)

(* src: mielin-kernel/src/ipc.rs 465-754 MESSAGE_QUEUES *)
Definition MESSAGE_QUEUES : list (list MessageQueue) :=
  replicate (Z.to_nat MAX_CPUS) (replicate (Z.to_nat MAX_CPUS) MessageQueue.new).

(** [&MESSAGE_QUEUES[from][to]], read and written back. *)
Definition queue_get (qs : list (list MessageQueue)) (from to : Z) : outcome MessageQueue :=
  let! row := arr_get qs from in arr_get row to.
Definition queue_set (qs : list (list MessageQueue)) (from to : Z) (q : MessageQueue)
    : outcome (list (list MessageQueue)) :=
  let! row := arr_get qs from in
  let! row' := arr_set row to q in
  arr_set qs from row'.

(** The statics of the module. *)
Record Ipc : Type := mkIpc {
  ipis : list IpiState;
  queues : list (list MessageQueue);
}.

Definition boot : Ipc := mkIpc IPI_STATES MESSAGE_QUEUES.

(* src: mielin-kernel/src/ipc.rs 766-781 send_message *)
Definition send_message (cpu : Z) (s : Ipc) (target_cpu : Z) (msg : Message) : outcome (bool * Ipc) :=
  if MAX_CPUS <=? target_cpu then Ret (false, s) else
  let! queue := queue_get (queues s) cpu target_cpu in
  let! (ok, queue') := MessageQueue.enqueue queue msg in
  let! qs := queue_set (queues s) cpu target_cpu queue' in
  if ok : bool then
    let! (_, ipis') := send_ipi (ipis s) target_cpu IpiFunctionCall in
    Ret (true, mkIpc ipis' qs)
  else Ret (false, mkIpc (ipis s) qs).

(** The loop of [receive_message], from the row [from]. *)
Fixpoint receive_loop (n : nat) (from cpu : Z) (qs : list (list MessageQueue))
    : outcome (option Message * list (list MessageQueue)) :=
  match n with
  | O => Ret (None, qs)
  | S n' =>
    if negb (from =? cpu) then
      let! queue := queue_get qs from cpu in
      let! (r, queue') := MessageQueue.dequeue queue in
      let! qs' := queue_set qs from cpu queue' in
      match r with
      | Some msg => Ret (Some msg, qs')
      | None => receive_loop n' (from + 1) cpu qs'
      end
    else receive_loop n' (from + 1) cpu qs
  end.

(* src: mielin-kernel/src/ipc.rs 786-800 receive_message *)
Definition receive_message (cpu : Z) (s : Ipc) : outcome (option Message * Ipc) :=
  let! (r, qs) := receive_loop (Z.to_nat MAX_CPUS) 0 cpu (queues s) in
  Ret (r, mkIpc (ipis s) qs).

(* src: mielin-kernel/src/ipc.rs 803-811 receive_message_from *)
Definition receive_message_from (cpu : Z) (s : Ipc) (from_cpu : Z) : outcome (option Message * Ipc) :=
  if MAX_CPUS <=? from_cpu then Ret (None, s) else
  let! queue := queue_get (queues s) from_cpu cpu in
  let! (r, queue') := MessageQueue.dequeue queue in
  let! qs := queue_set (queues s) from_cpu cpu queue' in
  Ret (r, mkIpc (ipis s) qs).

(* src: mielin-kernel/src/ipc.rs 814-825 pending_messages *)
Definition pending_messages (cpu : Z) (s : Ipc) : outcome Z :=
  for_range 0 MAX_CPUS (λ from total,
    if negb (from =? cpu) then
      let! queue := queue_get (queues s) from cpu in usize_add total (MessageQueue.len queue)
    else Ret total) 0.

(* src: mielin-kernel/src/ipc.rs 828-834 message_queue_stats *)
Definition message_queue_stats (s : Ipc) (from_cpu to_cpu : Z) : outcome (option MessageQueueStats) :=
  if (MAX_CPUS <=? from_cpu) || (MAX_CPUS <=? to_cpu) then Ret None else
  let! queue := queue_get (queues s) from_cpu to_cpu in Ret (Some (MessageQueue.stats queue)).

(** ** The barrier *)

(* src: mielin-kernel/src/ipc.rs 839-846 CpuBarrier *)
Record CpuBarrier : Type := mkBarrier {
  b_count : Z;
  b_waiting : Z;
  b_generation : Z;
}.

Module CpuBarrier.

(* src: mielin-kernel/src/ipc.rs 850-856 CpuBarrier::new *)
Definition new (count : Z) : CpuBarrier := mkBarrier count 0 0.

(* src: mielin-kernel/src/ipc.rs 878-881 CpuBarrier::reset *)
Definition reset (self : CpuBarrier) (count : Z) : CpuBarrier := mkBarrier count 0 (b_generation self).

(** Where a CPU is inside [wait]: outside, after the load of the generation,
    after the increment (with the value it returned), before each of the two
    stores of the last CPU, and in the loop of the others. *)
Inductive bpc : Type :=
| Outside
| Loaded (gen : Z)
| Counted (gen waiting : Z)
| StoreWaiting
| BumpGeneration
| Spin (gen : Z).

(** The next atomic access of [wait] at a position, on the barrier; a CPU that
    spins while the generation has not changed stays where it is. *)
(* src: mielin-kernel/src/ipc.rs 861-875 CpuBarrier::wait *)
Definition wait_step (c : bpc) (b : CpuBarrier) : bpc * CpuBarrier :=
  match c with
  | Outside => (Loaded (b_generation b), b)
  | Loaded gen => (Counted gen (b_waiting b), mkBarrier (b_count b) (wrap64 (b_waiting b + 1)) (b_generation b))
  | Counted gen waiting => (if waiting + 1 =? b_count b then StoreWaiting else Spin gen, b)
  | StoreWaiting => (BumpGeneration, mkBarrier (b_count b) 0 (b_generation b))
  | BumpGeneration => (Outside, mkBarrier (b_count b) (b_waiting b) (wrap64 (b_generation b + 1)))
  | Spin gen => (if b_generation b =? gen then Spin gen else Outside, b)
  end.

End CpuBarrier.
