(* ===== verification/IpcProps.v ===== *)
(** * Invariants of inter-processor communication

    The ring of a message queue as the list of its messages ([queue_ok]), the
    matrix of queues as a family of channels ([ipc_ok]), and the barrier with
    the rounds of its CPUs ([barrier_ok]). *)

From stdpp Require Import base tactics option list numbers relations.
From S2P Require Import Prelude Percpu Ipc.

Ltac ilia := unfold MAX_CPUS, MAX_MESSAGES_PER_CPU in *; lia.

(** ** The ring *)

Abbreviation ring := (slot 256).

Record queue_ok (q : MessageQueue) (l : list Message) : Prop := {
  qo_len : length (buffer q) = 256%nat;
  qo_read : 0 <= read_idx q < 256;
  qo_write : write_idx q = (read_idx q + Z.of_nat (length l)) mod 256;
  qo_count : count q = Z.of_nat (length l);
  qo_bound : (length l <= 256)%nat;
  qo_slots : ∀ k m, l !! k = Some m → buffer q !! ring (read_idx q) (Z.of_nat k) = Some (Some m);
  qo_total : wrap64 (sent q - received q) = count q;
}.

Lemma new_queue_ok : queue_ok MessageQueue.new [].
Proof. split; try done. simpl. lia. Qed.

(** The counters of both ends, one step on. *)
Lemma wrap64_sub_succ a b : wrap64 (wrap64 (a + 1) - b) = wrap64 (wrap64 (a - b) + 1).
Proof. unfold wrap64. rewrite Zminus_mod_idemp_l, Z.add_mod_idemp_l by lia. f_equal. lia. Qed.
Lemma wrap64_sub_pred a b : wrap64 (a - wrap64 (b + 1)) = wrap64 (wrap64 (a - b) - 1).
Proof. unfold wrap64. rewrite Zminus_mod_idemp_r, Zminus_mod_idemp_l by lia. f_equal. lia. Qed.

Lemma enqueue_spec q l m :
  queue_ok q l →
  ∃ q', if decide (length l < 256)%nat
        then MessageQueue.enqueue q m = Ret (true, q') ∧ queue_ok q' (l ++ [m])
        else MessageQueue.enqueue q m = Ret (false, q') ∧ queue_ok q' l.
Proof.
  intros Hq. pose proof (qo_count _ _ Hq) as Hc. pose proof (qo_write _ _ Hq) as Hw.
  unfold MessageQueue.enqueue, MAX_MESSAGES_PER_CPU. destruct (decide (length l < 256)%nat) as [Hlt|Hge].
  - rewrite (proj2 (Z.leb_gt _ _)) by lia. pose proof (Z.mod_pos_bound (read_idx q + Z.of_nat (length l)) 256).
    rewrite usize_add_ok by lia. cbn [obind]. rewrite usize_rem_ok by lia. cbn [obind].
    rewrite arr_set_ok by (rewrite (qo_len _ _ Hq); lia). cbn [obind]. eexists. split; [done|].
    split; simpl; try apply Hq.
    + by rewrite length_insert, (qo_len _ _ Hq).
    + rewrite length_app, Hw, Z.add_mod_idemp_l by lia. simpl. f_equal. lia.
    + rewrite Hc, length_app, wrap64_small by lia. simpl. lia.
    + rewrite length_app. simpl. lia.
    + intros k m' [Hl|[Hk Hl]]%lookup_app_Some.
      * pose proof (lookup_lt_Some _ _ _ Hl). rewrite list_lookup_insert_ne; [by apply (qo_slots _ _ Hq)|].
        rewrite Hw. fold (ring (read_idx q) (Z.of_nat (length l))). intros ?%slot_inj; lia.
      * apply list_lookup_singleton_Some in Hl as [Hz ->]. replace k with (length l) by lia. rewrite Hw. fold (ring (read_idx q) (Z.of_nat (length l))).
        rewrite list_lookup_insert_eq; [done|]. rewrite (qo_len _ _ Hq). apply (slot_lt 256); lia.
    + rewrite wrap64_sub_succ, (qo_total _ _ Hq). done.
  - rewrite (proj2 (Z.leb_le _ _)) by lia. eexists. split; [done|]. split; simpl; apply Hq.
Qed.

Lemma dequeue_spec q l :
  queue_ok q l →
  match l with
  | [] => MessageQueue.dequeue q = Ret (None, q)
  | m :: l' => ∃ q', MessageQueue.dequeue q = Ret (Some m, q') ∧ queue_ok q' l'
  end.
Proof.
  intros Hq. pose proof (qo_count _ _ Hq) as Hc. pose proof (qo_read _ _ Hq).
  unfold MessageQueue.dequeue, MAX_MESSAGES_PER_CPU. destruct l as [|m l]; [by rewrite Hc|].
  simpl in Hc. rewrite (proj2 (Z.eqb_neq _ _)) by lia.
  rewrite usize_add_ok by lia. cbn [obind]. rewrite usize_rem_ok by lia. cbn [obind].
  assert (ring (read_idx q) 0 = Z.to_nat (read_idx q)) as Hr0.
  { apply slot_0; lia. }
  pose proof (qo_slots _ _ Hq 0 m eq_refl) as H0. change (Z.of_nat 0) with 0 in H0. rewrite Hr0 in H0.
  rewrite (arr_get_ok _ _ (Some m)) by (done || lia). cbn [obind].
  rewrite arr_set_ok by (rewrite (qo_len _ _ Hq); lia). cbn [obind]. eexists. split; [done|].
  pose proof (qo_bound _ _ Hq) as Hb. simpl in Hb.
  split; simpl.
  - by rewrite length_insert, (qo_len _ _ Hq).
  - apply Z.mod_pos_bound. lia.
  - rewrite (qo_write _ _ Hq), Z.add_mod_idemp_l by lia. simpl. f_equal. lia.
  - rewrite Hc, wrap64_small by lia. lia.
  - lia.
  - intros k m' Hk. pose proof (lookup_lt_Some _ _ _ Hk). rewrite slot_succ by lia.
    replace (Z.of_nat k + 1) with (Z.of_nat (S k)) by lia.
    rewrite list_lookup_insert_ne; [by apply (qo_slots _ _ Hq (S k))|].
    rewrite <-Hr0. intros ?%slot_inj; lia.
  - rewrite wrap64_sub_pred, (qo_total _ _ Hq). done.
Qed.

(** ** The channels between CPUs *)

Definition cpu_id (c : Z) : Prop := 0 <= c < MAX_CPUS.

Record ipc_ok (s : Ipc) (ch : Z → Z → list Message) : Prop := {
  io_ipis : length (ipis s) = Z.to_nat MAX_CPUS;
  io_rows : length (queues s) = Z.to_nat MAX_CPUS;
  io_queue : ∀ f, cpu_id f → ∃ row, queues s !! Z.to_nat f = Some row ∧
    length row = Z.to_nat MAX_CPUS ∧
    ∀ t, cpu_id t → ∃ q, row !! Z.to_nat t = Some q ∧ queue_ok q (ch f t);
}.

Definition ch_upd (f t : Z) (l : list Message) (ch : Z → Z → list Message) : Z → Z → list Message :=
  λ f' t', if decide (f' = f ∧ t' = t) then l else ch f' t'.

Lemma ch_upd_same ch f t f' t' : ch_upd f t (ch f t) ch f' t' = ch f' t'.
Proof. unfold ch_upd. case_decide as Hd; [by destruct Hd as [-> ->]|done]. Qed.

Lemma ipc_ok_ext s ch ch' : ipc_ok s ch → (∀ f t, ch' f t = ch f t) → ipc_ok s ch'.
Proof.
  intros [Hi Hr Hq] Hext. split; [done|done|]. intros f Hf. destruct (Hq f Hf) as (row & ? & ? & Ht).
  exists row. split; [done|]. split; [done|]. intros t Htt. rewrite Hext. by apply Ht.
Qed.

Lemma queue_get_ok s ch f t :
  ipc_ok s ch → cpu_id f → cpu_id t → ∃ q, queue_get (queues s) f t = Ret q ∧ queue_ok q (ch f t).
Proof.
  intros Hok Hf Ht. destruct (io_queue _ _ Hok f Hf) as (row & Hrow & _ & Hall). destruct (Hall t Ht) as (q & Hq & Hqok).
  exists q. split; [|done]. unfold queue_get. unfold cpu_id in *.
  rewrite (arr_get_ok _ _ row) by (done || lia). cbn [obind]. apply arr_get_ok; [lia|done].
Qed.

Lemma queue_set_ok s ch f t q l is' :
  ipc_ok s ch → cpu_id f → cpu_id t → queue_ok q l → length is' = Z.to_nat MAX_CPUS →
  ∃ qs, queue_set (queues s) f t q = Ret qs ∧ ipc_ok (mkIpc is' qs) (ch_upd f t l ch).
Proof.
  intros Hok Hf Ht Hq His. destruct (io_queue _ _ Hok f Hf) as (row & Hrow & Hlen & Hall).
  unfold queue_set. pose proof (io_rows _ _ Hok) as Hrows. unfold cpu_id in *.
  rewrite (arr_get_ok _ _ row) by (done || lia). cbn [obind].
  rewrite arr_set_ok by (rewrite Hlen; lia). cbn [obind]. rewrite arr_set_ok by (rewrite Hrows; lia).
  eexists. split; [done|]. split; simpl; [done|by rewrite length_insert|].
  intros f' Hf'. unfold cpu_id in *. destruct (decide (f' = f)) as [->|Hne].
  - eexists. rewrite lookup_upd_eq by lia. split; [done|]. rewrite length_insert. split; [done|].
    intros t' Ht'. destruct (decide (t' = t)) as [->|Hnt].
    + exists q. rewrite lookup_upd_eq by (rewrite Hlen; lia). unfold ch_upd. by rewrite decide_True.
    + destruct (Hall t' Ht') as (q' & Hq' & Hok'). exists q'. rewrite lookup_upd_ne by lia.
      unfold ch_upd. rewrite decide_False by naive_solver. done.
  - rewrite lookup_upd_ne by lia. destruct (io_queue _ _ Hok f' Hf') as (row' & ? & ? & Hall').
    exists row'. split; [done|]. split; [done|]. intros t' Ht'. destruct (Hall' t' Ht') as (q' & ? & ?).
    exists q'. unfold ch_upd. rewrite decide_False by naive_solver. done.
Qed.

Lemma boot_ok : ipc_ok boot (λ _ _, []).
Proof.
  split; try done. intros f Hf. unfold cpu_id, boot, MESSAGE_QUEUES in *. cbn [queues].
  eexists. rewrite lookup_replicate_2 by ilia. split; [done|]. split; [done|].
  intros t Ht. exists MessageQueue.new. rewrite lookup_replicate_2 by ilia. split; [done|apply new_queue_ok].
Qed.

(** ** Interrupts *)

Lemma send_ipi_ok s c t :
  length s = Z.to_nat MAX_CPUS → cpu_id c →
  ∃ st, s !! Z.to_nat c = Some st ∧
    send_ipi s c t = Ret (true, <[Z.to_nat c := IpiState.set_pending st t]> s).
Proof.
  intros Hl Hc. unfold cpu_id in *. destruct (arr_get_range s c) as (st & Hst & Hg); [rewrite Hl; lia|].
  exists st. split; [done|]. unfold send_ipi. rewrite (proj2 (Z.leb_gt _ _)) by lia. rewrite Hg. cbn [obind].
  by rewrite arr_set_ok by (rewrite Hl; lia).
Qed.

(** A pending interrupt is its bit. *)
Lemma is_pending_bit st t :
  IpiState.is_pending st t = negb (bool_decide (t = Custom)) && Z.testbit (pending st) (ipi_u8 t).
Proof.
  unfold IpiState.is_pending. destruct (decide (t = Custom)) as [->|Hne]; [done|].
  rewrite bool_decide_eq_false_2 by done. assert (0 <= ipi_u8 t < 32) by (by destruct t).
  rewrite (proj2 (Z.leb_gt _ _)) by lia. rewrite land_bit by lia. cbn [negb andb].
  destruct (Z.testbit _ _); [|done]. assert (0 < 2 ^ ipi_u8 t) by (apply Z.pow_pos_nonneg; lia).
  by rewrite (proj2 (Z.eqb_neq _ _)) by lia.
Qed.

Lemma ipi_u8_inj t u : ipi_u8 t = ipi_u8 u → t = u.
Proof. by destruct t, u. Qed.

Lemma not32_bits v w : 0 <= v < 32 → 0 <= w < 32 →
  Z.testbit (IpiState.not32 (Z.shiftl 1 v)) w = negb (v =? w).
Proof.
  intros Hv Hw. unfold IpiState.not32. rewrite Z.shiftl_1_l. change 4294967295 with (Z.ones 32).
  assert (Z.ldiff (2 ^ v) (Z.ones 32) = 0) as Hl.
  { apply Z.bits_inj'. intros x Hx. rewrite Z.ldiff_spec, Z.pow2_bits_eqb, Z.bits_0 by lia.
    destruct (Z.eqb_spec v x); [|done]. subst. rewrite Z.ones_spec_low by lia. done. }
  rewrite Z.sub_nocarry_ldiff by done. rewrite Z.ldiff_spec, Z.ones_spec_low, Z.pow2_bits_eqb by lia. done.
Qed.

Lemma set_pending_is st t u :
  IpiState.is_pending (IpiState.set_pending st t) u =
    (bool_decide (u = t) && negb (bool_decide (t = Custom))) || IpiState.is_pending st u.
Proof.
  rewrite !is_pending_bit. unfold IpiState.set_pending. cbn [pending].
  destruct (decide (t = Custom)) as [->|Hne].
  { change (ipi_u8 Custom <? 32) with false. cbn [pending]. rewrite (bool_decide_eq_true_2 (Custom = Custom)) by done.
    by rewrite andb_false_r. }
  assert (0 <= ipi_u8 t < 32) by (by destruct t). rewrite (proj2 (Z.ltb_lt _ _)) by lia. cbn [pending].
  rewrite Z.lor_spec, Z.shiftl_1_l, Z.pow2_bits_eqb by lia. rewrite (bool_decide_eq_false_2 (t = Custom)) by done.
  destruct (decide (u = t)) as [->|Hut].
  - rewrite Z.eqb_refl, !bool_decide_eq_false_2, bool_decide_eq_true_2 by done. by rewrite orb_true_r.
  - rewrite (bool_decide_eq_false_2 (u = t)) by done.
    destruct (Z.eqb_spec (ipi_u8 t) (ipi_u8 u)) as [He|]; [by apply ipi_u8_inj in He; subst|]. by rewrite orb_false_r.
Qed.

Lemma clear_pending_is st t u :
  IpiState.is_pending (IpiState.clear_pending st t) u = negb (bool_decide (u = t)) && IpiState.is_pending st u.
Proof.
  rewrite !is_pending_bit. unfold IpiState.clear_pending. cbn [pending].
  destruct (decide (t = Custom)) as [->|Hne].
  { change (ipi_u8 Custom <? 32) with false. cbn [pending]. by destruct (bool_decide (u = Custom)). }
  assert (0 <= ipi_u8 t < 32) by (by destruct t). rewrite (proj2 (Z.ltb_lt _ _)) by lia. cbn [pending].
  destruct (decide (u = Custom)) as [->|Hu].
  { rewrite (bool_decide_eq_true_2 (Custom = Custom)) by done. by rewrite andb_false_r. }
  assert (0 <= ipi_u8 u < 32) by (by destruct u). rewrite Z.land_spec, not32_bits by lia.
  rewrite (bool_decide_eq_false_2 (u = Custom)) by done. cbn [negb andb].
  destruct (decide (u = t)) as [->|Hut].
  - rewrite Z.eqb_refl, bool_decide_eq_true_2 by done. by rewrite andb_false_r.
  - rewrite (bool_decide_eq_false_2 (u = t)) by done.
    destruct (Z.eqb_spec (ipi_u8 t) (ipi_u8 u)) as [He|]; [by apply ipi_u8_inj in He; subst|]. by rewrite andb_true_r.
Qed.

(** ** Receiving from any CPU *)

Lemma receive_loop_spec n from cpu s ch :
  ipc_ok s ch → cpu_id cpu → 0 <= from → from + Z.of_nat n = MAX_CPUS →
  (∃ f m l qs, from <= f < MAX_CPUS ∧ f ≠ cpu ∧ ch f cpu = m :: l ∧
     (∀ g, from <= g < f → g ≠ cpu → ch g cpu = []) ∧
     receive_loop n from cpu (queues s) = Ret (Some m, qs) ∧
     ipc_ok (mkIpc (ipis s) qs) (ch_upd f cpu l ch)) ∨
  ((∀ g, from <= g < MAX_CPUS → g ≠ cpu → ch g cpu = []) ∧
   ∃ qs, receive_loop n from cpu (queues s) = Ret (None, qs) ∧ ipc_ok (mkIpc (ipis s) qs) ch).
Proof.
  intros Hok Hcpu. revert from s Hok. induction n as [|n IH]; intros from s Hok Hfrom Hn; cbn [receive_loop].
  { right. split; [lia|]. exists (queues s). split; [done|]. by destruct s. }
  assert (∀ P : Z → Prop, P from → (∀ g, from + 1 <= g → P g) → ∀ g, from <= g → P g) as Hsplit.
  { intros P Hp Hg g ?. destruct (decide (g = from)) as [->|]; [done|]. apply Hg. lia. }
  destruct (Z.eqb_spec from cpu) as [->|Hne]; cbn [negb].
  { destruct (IH (cpu + 1) s Hok) as [(f & m & l & qs & ? & ? & ? & Hlt & Hr & Hok')|(Hall & Hr)]; [lia|lia|left|right].
    - exists f, m, l, qs. split_and!; try done; try lia. intros g ? ?. apply Hlt; lia.
    - split; [|done]. intros g ? ?. apply Hall; lia. }
  assert (cpu_id from) as Hf by (unfold cpu_id; lia).
  destruct (queue_get_ok s ch from cpu Hok Hf Hcpu) as (q & Hg & Hq). rewrite Hg. cbn [obind].
  pose proof (dequeue_spec q _ Hq) as Hd. destruct (ch from cpu) as [|m l] eqn:Hch.
  - rewrite Hd. cbn [obind].
    destruct (queue_set_ok s ch from cpu q [] (ipis s) Hok Hf Hcpu Hq (io_ipis _ _ Hok)) as (qs & -> & Hok1). cbn [obind].
    assert (ipc_ok (mkIpc (ipis s) qs) ch) as Hok2.
    { eapply ipc_ok_ext; [exact Hok1|]. intros. rewrite <-Hch. by rewrite ch_upd_same. }
    destruct (IH (from + 1) _ Hok2) as [(f & m & l & qs' & ? & ? & ? & Hlt & Hr & Hok')|(Hall & Hr)]; [lia|lia|left|right].
    + exists f, m, l, qs'. split_and!; try done; try lia. intros g ? ?.
      destruct (decide (g = from)) as [->|]; [done|]. apply Hlt; lia.
    + split; [|done]. intros g ? ?. destruct (decide (g = from)) as [->|]; [done|]. apply Hall; lia.
  - destruct Hd as (q' & -> & Hq'). cbn [obind].
    destruct (queue_set_ok s ch from cpu q' l (ipis s) Hok Hf Hcpu Hq' (io_ipis _ _ Hok)) as (qs & -> & Hok1). cbn [obind].
    left. exists from, m, l, qs. split_and!; try done; try lia.
Qed.

(** ** The barrier *)

Import CpuBarrier.

(** A CPU with the number of times it arrived at and left the barrier. *)
Record bcpu : Type := mkCpu { c_pc : bpc; c_arr : Z; c_left : Z }.

Definition cpu_step (x : bcpu) (b : CpuBarrier) : bcpu * CpuBarrier :=
  let '(c', b') := wait_step (c_pc x) b in
  (mkCpu c' (match c_pc x with Loaded _ => c_arr x + 1 | _ => c_arr x end)
     (match c_pc x, c' with Outside, _ => c_left x | _, Outside => c_left x + 1 | _, _ => c_left x end), b').

(** One CPU makes one atomic access. *)
Inductive barrier_step : relation (CpuBarrier * list bcpu) :=
| bstep b cs i x x' b' :
    cs !! i = Some x → cpu_step x b = (x', b') → barrier_step (b, cs) (b', <[i := x']> cs).

Definition barrier_start (n : nat) : CpuBarrier * list bcpu :=
  (CpuBarrier.new (Z.of_nat n), replicate n (mkCpu Outside 0 0)).

(** [g] rounds are over; a CPU that has arrived in the next one. *)
Definition arrived (g : Z) (x : bcpu) : bool := c_arr x =? g + 1.

(** The CPU whose arrival completed the round. *)
Definition is_last (n : Z) (x : bcpu) : bool :=
  match c_pc x with
  | Counted _ w => w + 1 =? n
  | StoreWaiting | BumpGeneration => true
  | _ => false
  end.

Definition is_bump (x : bcpu) : bool := if c_pc x is BumpGeneration then true else false.

(** A CPU in the round after [g], or still leaving the one before. *)
Definition cpu_ok (n g : Z) (x : bcpu) : Prop :=
  let cur := c_arr x = g + 1 ∧ c_left x = g in
  let old := c_arr x = g ∧ c_left x = g - 1 in
  match c_pc x with
  | Outside => c_arr x = g ∧ c_left x = g
  | Loaded gen => c_arr x = g ∧ c_left x = g ∧ gen = wrap64 g
  | Counted gen w => (cur ∧ gen = wrap64 g) ∨ (old ∧ gen = wrap64 (g - 1) ∧ w + 1 ≠ n)
  | StoreWaiting | BumpGeneration => cur
  | Spin gen => (cur ∧ gen = wrap64 g) ∨ (old ∧ gen = wrap64 (g - 1))
  end.

Record barrier_ok (n g : Z) (s : CpuBarrier * list bcpu) : Prop := {
  bk_n : 0 < n <= U64_MAX ∧ Z.of_nat (length s.2) = n ∧ b_count s.1 = n;
  bk_gen : b_generation s.1 = wrap64 g;
  bk_cpu : ∀ i x, s.2 !! i = Some x → cpu_ok n g x;
  bk_all : ∀ i x, s.2 !! i = Some x → is_last n x = true → count_if (arrived g) s.2 = n;
  bk_last : ∀ i j x y, s.2 !! i = Some x → s.2 !! j = Some y →
    is_last n x = true → is_last n y = true → i = j;
  bk_exists : count_if (arrived g) s.2 = n → ∃ i x, s.2 !! i = Some x ∧ is_last n x = true;
  bk_waiting : ∀ i x, s.2 !! i = Some x → is_bump x = true → b_waiting s.1 = 0;
  bk_count : (∀ i x, s.2 !! i = Some x → is_bump x = false) → b_waiting s.1 = count_if (arrived g) s.2;
}.

Lemma insert_cases {A} (l : list A) i j x y z :
  l !! i = Some z → <[i := x]> l !! j = Some y → (j = i ∧ y = x) ∨ (j ≠ i ∧ l !! j = Some y).
Proof.
  intros Hi Hj. destruct (decide (j = i)) as [->|Hne].
  - rewrite list_lookup_insert_eq in Hj by (by eapply lookup_lt_Some). left. split; [done|congruence].
  - rewrite list_lookup_insert_ne in Hj by done. by right.
Qed.

Lemma wrap64_pred_ne g : wrap64 g ≠ wrap64 (g - 1).
Proof.
  unfold wrap64. intros Heq. assert (1 mod 18446744073709551616 = 0) as H1; [|done].
  replace 1 with (g - (g - 1)) by lia. rewrite Zminus_mod, Heq, Z.sub_diag. done.
Qed.

Section barrier.
Context (n g : Z) (b : CpuBarrier) (cs : list bcpu) (i : nat) (x : bcpu).
Context (Hok : barrier_ok n g (b, cs)) (Hi : cs !! i = Some x).

(** A step that changes neither the barrier nor who has arrived, and keeps the
    roles. *)
Lemma barrier_local x' :
  cpu_ok n g x' → arrived g x' = arrived g x → is_last n x' = is_last n x →
  is_bump x' = is_bump x → barrier_ok n g (b, <[i := x']> cs).
Proof.
  intros Hx' Ha Hl Hb. destruct Hok as [Hn Hg Hc Hall Hlast Hex Hw Hcnt]. simpl in *.
  assert (count_if (arrived g) (<[i := x']> cs) = count_if (arrived g) cs) as Hcount.
  { rewrite (count_if_insert _ _ _ x) by done. rewrite Ha. lia. }
  split; simpl; rewrite ?Hcount, ?length_insert; try done.
  - intros j y [[-> ->]|[? Hj]]%(insert_cases _ _ _ _ _ _ Hi); [done|by eapply Hc].
  - intros j y [[-> ->]|[? Hj]]%(insert_cases _ _ _ _ _ _ Hi); [rewrite Hl|]; by eapply Hall.
  - intros j k y z [[-> ->]|[? Hj]]%(insert_cases _ _ _ _ _ _ Hi) [[-> ->]|[? Hk]]%(insert_cases _ _ _ _ _ _ Hi);
      rewrite ?Hl; try done; by eapply Hlast.
  - intros Heq. destruct (Hex Heq) as (j & y & Hj & Hy). destruct (decide (j = i)) as [->|Hne].
    + exists i, x'. rewrite list_lookup_insert_eq by (by eapply lookup_lt_Some). split; [done|]. congruence.
    + exists j, y. by rewrite list_lookup_insert_ne.
  - intros j y [[-> ->]|[? Hj]]%(insert_cases _ _ _ _ _ _ Hi); [rewrite Hb|]; by eapply Hw.
  - intros Hno. apply Hcnt. intros j y Hj. destruct (decide (j = i)) as [->|Hne].
    + rewrite <-(Hno i x') by (by apply list_lookup_insert_eq; eapply lookup_lt_Some). congruence.
    + apply (Hno j). by rewrite list_lookup_insert_ne.
Qed.

(** The arrival of a CPU: it sees as many waiting as have arrived before it. *)
Lemma barrier_arrive gen :
  c_pc x = Loaded gen →
  barrier_ok n g (mkBarrier (b_count b) (wrap64 (b_waiting b + 1)) (b_generation b),
                  <[i := mkCpu (Counted gen (b_waiting b)) (c_arr x + 1) (c_left x)]> cs).
Proof.
  intros Hpc. destruct Hok as [Hn Hg Hc Hall Hlast Hex Hw Hcnt]. simpl in *. destruct Hn as (Hn & Hlen & Hbc).
  pose proof (Hc i x Hi) as Hx. unfold cpu_ok in Hx. rewrite Hpc in Hx. destruct Hx as (Ha & Hl & Hgen).
  assert (arrived g x = false) as Hna by (unfold arrived; lia).
  pose proof (count_if_lt (arrived g) cs i x Hi Hna) as Hlt. pose proof (count_if_range (arrived g) cs).
  assert (∀ j y, cs !! j = Some y → is_last n y = false) as Hnone.
  { intros j y Hj. destruct (is_last n y) eqn:Hy; [|done]. rewrite (Hall j y Hj Hy) in Hlt. lia. }
  assert (∀ y, is_bump y = true → is_last n y = true) as Hbl by (intros [[] ? ?]; done).
  assert (b_waiting b = count_if (arrived g) cs) as Hwait.
  { apply Hcnt. intros j y Hj. destruct (is_bump y) eqn:Hy; [|done]. apply Hbl in Hy. by rewrite (Hnone j y Hj) in Hy. }
  set (x' := mkCpu (Counted gen (b_waiting b)) (c_arr x + 1) (c_left x)).
  assert (count_if (arrived g) (<[i := x']> cs) = count_if (arrived g) cs + 1) as Hcount.
  { rewrite (count_if_insert _ _ _ x), Hna by done. assert (arrived g x' = true) as -> by (unfold arrived; simpl; lia). lia. }
  assert (is_last n x' = (b_waiting b + 1 =? n)) as Hlx by done.
  split; simpl; rewrite ?Hcount, ?length_insert.
  - done.
  - done.
  - intros j y [[-> ->]|[? Hj]]%(insert_cases _ _ _ _ _ _ Hi); [|by eapply Hc]. left. simpl. lia.
  - intros j y [[-> ->]|[? Hj]]%(insert_cases _ _ _ _ _ _ Hi); [rewrite Hlx; lia|]. by rewrite (Hnone j y Hj).
  - intros j k y z [[-> ->]|[? Hj]]%(insert_cases _ _ _ _ _ _ Hi) [[-> ->]|[? Hk]]%(insert_cases _ _ _ _ _ _ Hi);
      try done; intros; exfalso; [rewrite (Hnone k z Hk) in *|rewrite (Hnone j y Hj) in *..]; done.
  - intros Heq. exists i, x'. rewrite list_lookup_insert_eq by (by eapply lookup_lt_Some). split; [done|]. rewrite Hlx. lia.
  - intros j y [[-> ->]|[? Hj]]%(insert_cases _ _ _ _ _ _ Hi); [done|]. intros Hy%Hbl. by rewrite (Hnone j y Hj) in Hy.
  - intros _. rewrite wrap64_small; lia.
Qed.

(** The last CPU clears the count. *)
Lemma barrier_clear :
  c_pc x = StoreWaiting →
  barrier_ok n g (mkBarrier (b_count b) 0 (b_generation b), <[i := mkCpu BumpGeneration (c_arr x) (c_left x)]> cs).
Proof.
  intros Hpc. set (x' := mkCpu BumpGeneration (c_arr x) (c_left x)).
  destruct Hok as [Hn Hg Hc Hall Hlast Hex Hw Hcnt]. simpl in *.
  assert (is_last n x = true) as Hlx by (unfold is_last; by rewrite Hpc).
  assert (count_if (arrived g) (<[i := x']> cs) = count_if (arrived g) cs) as Hcount.
  { rewrite (count_if_insert _ _ _ x) by done. change (arrived g x') with (arrived g x). lia. }
  split; simpl; rewrite ?Hcount, ?length_insert; try done.
  - intros j y [[-> ->]|[? Hj]]%(insert_cases _ _ _ _ _ _ Hi); [|by eapply Hc].
    pose proof (Hc i x Hi) as Hx. unfold cpu_ok in *. rewrite Hpc in Hx. done.
  - intros j y [[-> ->]|[? Hj]]%(insert_cases _ _ _ _ _ _ Hi); [|by eapply Hall]. intros _. by apply (Hall i x).
  - intros j k y z [[-> ->]|[? Hj]]%(insert_cases _ _ _ _ _ _ Hi) [[-> ->]|[? Hk]]%(insert_cases _ _ _ _ _ _ Hi) Hy Hz;
      [done|by apply (Hlast i k x z)|by apply (Hlast j i y x)|by apply (Hlast j k y z)].
  - intros _. exists i, x'. by rewrite list_lookup_insert_eq by (by eapply lookup_lt_Some).
  - intros Hno. specialize (Hno i x'). rewrite list_lookup_insert_eq in Hno by (by eapply lookup_lt_Some).
    by specialize (Hno eq_refl).
Qed.

(** The last CPU opens the barrier: the next round begins. *)
Lemma barrier_open :
  c_pc x = BumpGeneration →
  barrier_ok n (g + 1) (mkBarrier (b_count b) (b_waiting b) (wrap64 (b_generation b + 1)),
                        <[i := mkCpu Outside (c_arr x) (c_left x + 1)]> cs).
Proof.
  intros Hpc. set (x' := mkCpu Outside (c_arr x) (c_left x + 1)).
  destruct Hok as [Hn Hg Hc Hall Hlast Hex Hw Hcnt]. simpl in *. destruct Hn as (Hn & Hlen & Hbc).
  assert (is_last n x = true) as Hlx by (unfold is_last; by rewrite Hpc).
  pose proof (Hall i x Hi Hlx) as Hfull. rewrite <-Hlen in Hfull.
  pose proof (count_if_full _ _ Hfull) as Harr.
  assert (∀ j y, cs !! j = Some y → j ≠ i → cpu_ok n (g + 1) y ∧ is_last n y = false ∧ c_arr y = g + 1) as Hother.
  { intros j y Hj Hne. pose proof (Hc j y Hj) as Hy. pose proof (Harr j y Hj) as Hay. unfold arrived in Hay.
    assert (is_last n y = false) as Hly.
    { destruct (is_last n y) eqn:Hly; [|done]. destruct Hne. by apply (Hlast j i y x). }
    split_and!; [|done|lia]. unfold cpu_ok, is_last in *. replace (g + 1 - 1) with g by lia.
    destruct (c_pc y); try done; lia. }
  assert (c_arr x = g + 1 ∧ c_left x = g) as Hx by (specialize (Hc i x Hi); unfold cpu_ok in Hc; by rewrite Hpc in Hc).
  assert (count_if (arrived (g + 1)) (<[i := x']> cs) = 0) as Hcount.
  { apply count_if_none. intros j y [[-> ->]|[? Hj]]%(insert_cases _ _ _ _ _ _ Hi); unfold arrived; simpl; [lia|].
    destruct (Hother j y) as (_ & _ & ?); [done|done|]. lia. }
  split; simpl; rewrite ?Hcount, ?length_insert.
  - done.
  - rewrite Hg. unfold wrap64. by rewrite Z.add_mod_idemp_l by lia.
  - intros j y [[-> ->]|[? Hj]]%(insert_cases _ _ _ _ _ _ Hi); [unfold cpu_ok; simpl; lia|by apply (Hother j)].
  - intros j y [[-> ->]|[? Hj]]%(insert_cases _ _ _ _ _ _ Hi); [done|]. destruct (Hother j y) as (_ & -> & _); done.
  - intros j k y z [[-> ->]|[? Hj]]%(insert_cases _ _ _ _ _ _ Hi) _; [done|]. destruct (Hother j y) as (_ & -> & _); done.
  - lia.
  - intros j y [[-> ->]|[? Hj]]%(insert_cases _ _ _ _ _ _ Hi); [done|]. intros _. by apply (Hw i x Hi); unfold is_bump; rewrite Hpc.
  - intros _. apply (Hw i x Hi). unfold is_bump. by rewrite Hpc.
Qed.
End barrier.

Lemma barrier_step_ok n g s s' :
  barrier_step s s' → barrier_ok n g s → ∃ g', barrier_ok n g' s'.
Proof.
  destruct 1 as [b cs i x x' b' Hi Hs]; intros Hok. unfold cpu_step in Hs.
  pose proof (bk_cpu _ _ _ Hok i x Hi) as Hx. pose proof (bk_gen _ _ _ Hok) as Hg.
  destruct (bk_n _ _ _ Hok) as (_ & _ & Hbc). simpl in Hg, Hbc. unfold cpu_ok in Hx.
  destruct (c_pc x) as [|gen|gen w| | |gen] eqn:Hpc; cbn in Hs; injection Hs as <- <-.
  - exists g. apply (barrier_local n g _ cs i x); unfold cpu_ok, arrived, is_last, is_bump; rewrite ?Hpc; try done. simpl. lia.
  - exists g. by apply barrier_arrive.
  - exists g. destruct (Z.eqb_spec (w + 1) (b_count b)) as [Hlast|Hlast]; simpl;
      apply (barrier_local n g _ cs i x); try done; unfold cpu_ok, arrived, is_last, is_bump; rewrite ?Hpc; simpl; try lia; done || lia.
  - exists g. by apply barrier_clear.
  - exists (g + 1). by apply barrier_open.
  - exists g. destruct (Z.eqb_spec (b_generation b) gen) as [Heq|Hne]; simpl;
      apply (barrier_local n g _ cs i x); try done; unfold cpu_ok, arrived, is_last, is_bump; rewrite ?Hpc; simpl; try done; try lia.
Qed.

Lemma barrier_start_ok n : (0 < n)%nat → Z.of_nat n <= U64_MAX → barrier_ok (Z.of_nat n) 0 (barrier_start n).
Proof.
  intros Hn Hmax. unfold barrier_start.
  assert (count_if (arrived 0) (replicate n (mkCpu Outside 0 0)) = 0) as Hc by by apply count_if_replicate.
  split; simpl; rewrite ?Hc; try done; try (intros i x [-> _]%lookup_replicate; done).
  - rewrite length_replicate. lia.
  - intros i j x y [-> _]%lookup_replicate. done.
  - lia.
Qed.

(** With every CPU inside [wait], one of them is not just spinning. *)
Lemma barrier_progress n g s :
  barrier_ok n g s → (∀ i x, s.2 !! i = Some x → c_pc x ≠ Outside) →
  ∃ i x, s.2 !! i = Some x ∧ c_pc (cpu_step x s.1).1 ≠ c_pc x.
Proof.
  intros Hok Hin. destruct (bk_n _ _ _ Hok) as (Hn & Hlen & Hbc). pose proof (bk_gen _ _ _ Hok) as Hg.
  destruct (decide (count_if (arrived g) s.2 = n)) as [Hfull|Hnot].
  - destruct (bk_exists _ _ _ Hok Hfull) as (i & x & Hi & Hl). exists i, x. split; [done|].
    unfold is_last, cpu_step in *. destruct (c_pc x) as [| |gen w| | |]; simpl; try done. by rewrite Hbc, Hl.
  - destruct (count_if_missing (arrived g) s.2) as (i & x & Hi & Hna); [lia|]. exists i, x. split; [done|].
    pose proof (bk_cpu _ _ _ Hok i x Hi) as Hx. specialize (Hin i x Hi). unfold arrived in Hna. unfold cpu_ok, cpu_step in *.
    destruct (c_pc x) as [|gen|gen w| | |gen]; simpl; try done.
    + case_bool; done.
    + destruct Hx as [[Hc _]|[_ ->]]; [lia|]. rewrite Hg. case_bool; [|done]. by destruct (wrap64_pred_ne g).
Qed.

(** * Properties of inter-processor communication *)

(** A message queue is a FIFO queue of at most 256 messages: with the
    messages [l] in it, [enqueue] appends when there are fewer than 256 and
    refuses otherwise, [dequeue] takes the oldest and reports an empty queue;
    neither panics, and the sent and received counters differ, modulo 2^64, by
    what is in the queue. *)
Theorem message_queue_fifo q l m :
  queue_ok q l →
  (∃ q', if decide (length l < 256)%nat
         then MessageQueue.enqueue q m = Ret (true, q') ∧ queue_ok q' (l ++ [m])
         else MessageQueue.enqueue q m = Ret (false, q') ∧ queue_ok q' l) ∧
  match l with
  | [] => MessageQueue.dequeue q = Ret (None, q)
  | x :: l' => ∃ q', MessageQueue.dequeue q = Ret (Some x, q') ∧ queue_ok q' l'
  end ∧
  wrap64 (sent q - received q) = Z.of_nat (length l).
Proof.
  intros Hq. split; [by apply enqueue_spec|]. split; [by apply dequeue_spec|].
  rewrite <-(qo_count _ _ Hq). apply Hq.
Qed.

Lemma message_queue_fifo_witness :
  ∃ q', MessageQueue.enqueue MessageQueue.new (Message.ack 1 2 7) = Ret (true, q') ∧ queue_ok q' [Message.ack 1 2 7].
Proof.
  destruct (message_queue_fifo MessageQueue.new [] (Message.ack 1 2 7) new_queue_ok) as [[q' Hq] _].
  exists q'. exact Hq.
Defined.

(** [send_message] appends to the channel from the caller to the target and
    raises the target's function-call interrupt; it refuses, changing no
    channel and raising nothing, exactly when 256 messages are in that channel
    or there is no such CPU. *)
Theorem send_message_channel cpu s ch target msg :
  ipc_ok s ch → cpu_id cpu → 0 <= target →
  ∃ ok s', send_message cpu s target msg = Ret (ok, s') ∧
    (ok = true ↔ target < MAX_CPUS ∧ (length (ch cpu target) < 256)%nat) ∧
    if ok : bool
    then ipc_ok s' (ch_upd cpu target (ch cpu target ++ [msg]) ch) ∧
         is_ipi_pending target (ipis s') IpiFunctionCall = Ret true
    else ipc_ok s' ch ∧ ipis s' = ipis s.
Proof.
  intros Hok Hcpu Ht. unfold send_message. destruct (Z.leb_spec MAX_CPUS target) as [Hbig|Hlt].
  { exists false, s. split; [done|]. split; [split; [done|lia]|done]. }
  assert (cpu_id target) as Hct by (unfold cpu_id; lia).
  destruct (queue_get_ok s ch cpu target Hok Hcpu Hct) as (q & -> & Hq). cbn [obind].
  destruct (enqueue_spec q _ msg Hq) as [q' He]. destruct (decide (length (ch cpu target) < 256)%nat) as [Hl|Hl];
    destruct He as [-> Hq']; cbn [obind].
  - destruct (send_ipi_ok (ipis s) target IpiFunctionCall (io_ipis _ _ Hok) Hct) as (st & Hst & Hsend).
    destruct (queue_set_ok s ch cpu target q' (ch cpu target ++ [msg])
      (<[Z.to_nat target:=IpiState.set_pending st IpiFunctionCall]> (ipis s)) Hok Hcpu Hct Hq')
      as (qs & -> & Hok'); [by rewrite length_insert, (io_ipis _ _ Hok)|]. cbn [obind].
    rewrite Hsend. cbn [obind]. eexists true, _. split; [done|]. split; [done|]. split; [done|].
    unfold is_ipi_pending. cbn [ipis]. unfold cpu_id in Hct.
    rewrite (arr_get_ok _ _ (IpiState.set_pending st IpiFunctionCall)); [|lia|].
    + cbn [obind]. by rewrite set_pending_is.
    + apply lookup_upd_eq. rewrite (io_ipis _ _ Hok). lia.
  - destruct (queue_set_ok s ch cpu target q' (ch cpu target) (ipis s) Hok Hcpu Hct Hq' (io_ipis _ _ Hok))
      as (qs & -> & Hok'). cbn [obind]. eexists false, _. split; [done|]. split; [split; [done|by intros [_ ?]]|].
    split; [|done]. eapply ipc_ok_ext; [exact Hok'|]. intros. by rewrite ch_upd_same.
Qed.

Lemma send_message_channel_witness :
  ∃ s', send_message 0 boot 3 (Message.task_migration 0 3 42) = Ret (true, s') ∧
    is_ipi_pending 3 (ipis s') IpiFunctionCall = Ret true.
Proof.
  destruct (send_message_channel 0 boot (λ _ _, []) 3 (Message.task_migration 0 3 42) boot_ok)
    as (ok & s' & Hs & Hiff & Hpost); [unfold cpu_id, MAX_CPUS; lia|lia|].
  assert (ok = true) as ->. { apply Hiff. unfold MAX_CPUS. simpl. lia. }
  exists s'. split; [exact Hs|]. apply Hpost.
Defined.

(** [receive_message] takes the oldest message of the first non-empty channel
    to the caller, in the order of the sending CPUs, leaving out the caller's
    channel to itself, and returns [None] exactly when all of these are empty:
    a message a CPU sent to itself stays where it is. *)
Theorem receive_message_channel cpu s ch :
  ipc_ok s ch → cpu_id cpu →
  ∃ r s', receive_message cpu s = Ret (r, s') ∧ ipis s' = ipis s ∧
    match r with
    | Some m => ∃ f l, cpu_id f ∧ f ≠ cpu ∧ ch f cpu = m :: l ∧
        (∀ g, 0 <= g < f → g ≠ cpu → ch g cpu = []) ∧ ipc_ok s' (ch_upd f cpu l ch)
    | None => (∀ g, cpu_id g → g ≠ cpu → ch g cpu = []) ∧ ipc_ok s' ch
    end.
Proof.
  intros Hok Hcpu. unfold receive_message.
  destruct (receive_loop_spec (Z.to_nat MAX_CPUS) 0 cpu s ch Hok Hcpu)
    as [(f & m & l & qs & Hf & Hne & Hch & Hlt & -> & Hok')|(Hall & qs & -> & Hok')]; [lia|done|..]; cbn [obind].
  - eexists (Some m), _. split; [done|]. split; [done|]. exists f, l. done.
  - eexists None, _. split; [done|]. split; [done|]. split; [exact Hall|done].
Qed.

(** After CPU 2 sent itself a message and CPU 5 sent one to CPU 2. *)
Definition demo_ipc : Ipc :=
  match send_message 2 boot 2 (Message.ack 2 2 1) with
  | Ret (_, s) => match send_message 5 s 2 (Message.ack 5 2 9) with Ret (_, s') => s' | _ => s end
  | _ => boot
  end.

Lemma receive_message_channel_witness :
  ∃ s', receive_message 2 demo_ipc = Ret (Some (Message.ack 5 2 9), s') ∧ ipis s' = ipis demo_ipc.
Proof.
  assert (ipc_ok demo_ipc (ch_upd 5 2 [Message.ack 5 2 9] (ch_upd 2 2 [Message.ack 2 2 1] (λ _ _, [])))) as Hok.
  { unfold demo_ipc.
    destruct (send_message_channel 2 boot (λ _ _, []) 2 (Message.ack 2 2 1) boot_ok) as (o1 & s1 & -> & Hi1 & H1);
      [unfold cpu_id, MAX_CPUS; lia|lia|].
    assert (o1 = true) as ->. { apply Hi1. unfold MAX_CPUS. simpl. lia. } destruct H1 as [Hok1 _].
    destruct (send_message_channel 5 s1 _ 2 (Message.ack 5 2 9) Hok1) as (o2 & s2 & -> & Hi2 & H2);
      [unfold cpu_id, MAX_CPUS; lia|lia|].
    assert (o2 = true) as ->. { apply Hi2. unfold MAX_CPUS. simpl. lia. } exact (proj1 H2). }
  destruct (receive_message_channel 2 demo_ipc _ Hok) as (r & s' & Hr & Hi & Hpost); [unfold cpu_id, MAX_CPUS; lia|].
  exists s'. destruct r as [m|].
  - split; [|exact Hi]. rewrite Hr. destruct Hpost as (f & l & _ & Hne & Hch & _). unfold ch_upd in Hch.
    destruct (decide (f = 5 ∧ 2 = 2)) as [_|H5]; [by injection Hch as <- <-|].
    destruct (decide (f = 2 ∧ 2 = 2)) as [[-> _]|_]; [done|discriminate].
  - destruct Hpost as [Hall _]. specialize (Hall 5 ltac:(unfold cpu_id, MAX_CPUS; lia) ltac:(lia)). discriminate Hall.
Defined.

(** Interrupts: [send_ipi] makes exactly that type pending on that CPU,
    except [Custom], which it accepts and never shows as pending; [handle_ipi]
    reports whether the type was pending on the caller and clears exactly it. *)
Theorem ipi_pending_exact s c t :
  length s = Z.to_nat MAX_CPUS → cpu_id c →
  (∃ s', send_ipi s c t = Ret (true, s') ∧ ∀ d u, cpu_id d →
     ∃ x, is_ipi_pending d s u = Ret x ∧
       is_ipi_pending d s' u = Ret ((bool_decide (d = c ∧ u = t) && negb (bool_decide (t = Custom))) || x)) ∧
  (∃ was s', is_ipi_pending c s t = Ret was ∧ handle_ipi c s t = Ret (was, s') ∧ ∀ d u, cpu_id d →
     ∃ x, is_ipi_pending d s u = Ret x ∧
       is_ipi_pending d s' u = Ret (negb (bool_decide (d = c ∧ u = t)) && x)).
Proof.
  intros Hl Hc. destruct (send_ipi_ok s c t Hl Hc) as (st & Hst & Hsend). pose proof Hc as Hc'. unfold cpu_id in Hc'.
  assert (∀ d u, cpu_id d → ∃ sd, s !! Z.to_nat d = Some sd ∧ is_ipi_pending d s u = Ret (IpiState.is_pending sd u)) as Hget.
  { intros d u Hd. unfold cpu_id in Hd. destruct (arr_get_range s d) as (sd & ? & Hg); [rewrite Hl; lia|].
    exists sd. split; [done|]. unfold is_ipi_pending. by rewrite Hg. }
  assert (∀ st' d u, cpu_id d → is_ipi_pending d (<[Z.to_nat c := st']> s) u =
    if decide (d = c) then Ret (IpiState.is_pending st' u) else is_ipi_pending d s u) as Hupd.
  { intros st' d u Hd. unfold cpu_id in Hd. unfold is_ipi_pending, arr_get. destruct (Z.ltb_spec d 0); [lia|].
    case_decide as Hdc; [subst; by rewrite lookup_upd_eq by (rewrite Hl; lia)|by rewrite lookup_upd_ne by lia]. }
  split.
  - eexists. split; [exact Hsend|]. intros d u Hd. destruct (Hget d u Hd) as (sd & Hsd & Hx). eexists. split; [exact Hx|].
    rewrite Hupd by done. case_decide as Hdc.
    + subst. rewrite set_pending_is. assert (sd = st) as -> by congruence.
      by rewrite (bool_decide_ext (c = c ∧ u = t) (u = t)) by naive_solver.
    + rewrite bool_decide_eq_false_2 by naive_solver. done.
  - destruct (Hget c t Hc) as (sc & Hsc & Hwas). unfold handle_ipi.
    rewrite (arr_get_ok _ _ sc) by (done || lia). cbn [obind].
    destruct (IpiState.is_pending sc t) eqn:Hp; eexists _, _; (split; [exact Hwas|]).
    + rewrite arr_set_ok by (rewrite Hl; lia). cbn [obind]. split; [done|]. intros d u Hd.
      destruct (Hget d u Hd) as (sd & Hsd & Hx). eexists. split; [exact Hx|]. rewrite Hupd by done. case_decide as Hdc.
      * subst. rewrite clear_pending_is. assert (sd = sc) as -> by congruence.
        by rewrite (bool_decide_ext (c = c ∧ u = t) (u = t)) by naive_solver.
      * rewrite bool_decide_eq_false_2 by naive_solver. done.
    + split; [done|]. intros d u Hd. destruct (Hget d u Hd) as (sd & Hsd & Hx). eexists. split; [exact Hx|]. rewrite Hx.
      case_bool_decide as Hdu; [|done]. destruct Hdu as [-> ->]. assert (sd = sc) as -> by congruence. by rewrite Hp.
Qed.

Lemma ipi_pending_exact_witness :
  ∃ s', send_ipi IPI_STATES 3 Halt = Ret (true, s') ∧ is_ipi_pending 3 s' Halt = Ret true.
Proof.
  destruct (ipi_pending_exact IPI_STATES 3 Halt) as [(s' & Hs & Hall) _]; [reflexivity|unfold cpu_id, MAX_CPUS; lia|].
  exists s'. split; [exact Hs|]. destruct (Hall 3 Halt) as (x & _ & Hx); [unfold cpu_id, MAX_CPUS; lia|]. exact Hx.
Defined.

(** C39. The barrier with as many CPUs as its count, under every interleaving of
    the atomic accesses of [wait] and for any number of uses: no CPU has left
    the barrier more often than any other has arrived at it; and when all of
    them are inside [wait], some CPU can move on. *)
Theorem barrier_safe_and_live n s :
  (0 < n)%nat → Z.of_nat n <= U64_MAX → rtc barrier_step (barrier_start n) s →
  (∀ i j x y, s.2 !! i = Some x → s.2 !! j = Some y → c_left x <= c_arr y) ∧
  ((∀ i x, s.2 !! i = Some x → c_pc x ≠ CpuBarrier.Outside) →
     ∃ i x, s.2 !! i = Some x ∧ c_pc (cpu_step x s.1).1 ≠ c_pc x).
Proof.
  intros Hn Hmax Hrun. assert (∃ g, barrier_ok (Z.of_nat n) g s) as [g Hok].
  { revert s Hrun. apply (rtc_ind_r (λ s, ∃ g, barrier_ok (Z.of_nat n) g s)).
    - exists 0. by apply barrier_start_ok.
    - intros s1 s2 _ Hstep [g Hok]. by eapply barrier_step_ok. }
  split; [|by apply (barrier_progress (Z.of_nat n) g)].
  intros i j x y Hi Hj. pose proof (bk_cpu _ _ _ Hok i x Hi) as Hx. pose proof (bk_cpu _ _ _ Hok j y Hj) as Hy.
  unfold cpu_ok in *. destruct (c_pc x), (c_pc y); lia.
Qed.

Lemma barrier_safe_and_live_witness :
  ∃ s, rtc barrier_step (barrier_start 2) s ∧
    ∀ i j x y, s.2 !! i = Some x → s.2 !! j = Some y → c_left x <= c_arr y.
Proof.
  assert (∃ s, rtc barrier_step (barrier_start 2) s ∧ fmap c_arr s.2 = [1; 0]) as (s & Hrun & _).
  { eexists. split.
    - eapply rtc_l; [eapply (bstep _ _ 0%nat); reflexivity|]. eapply rtc_l; [eapply (bstep _ _ 0%nat); reflexivity|]. apply rtc_refl.
    - reflexivity. }
  exists s. split; [exact Hrun|]. apply (barrier_safe_and_live 2 s ltac:(lia) ltac:(lia) Hrun).
Defined.
