(* ===== verification/LockFree.v ===== *)
(** * Lock-free structures (mielin-kernel/src/lockfree.rs)

    The linked queue and stack with their heap-allocated nodes, the counter, the
    sequence lock and the ring buffer.  Each operation is a function on the
    state, for a caller nobody interrupts; the sequence lock and the ring buffer
    are also given as the single accesses of their operations ([..._step]), for
    the interleavings.

    A node lives at an address that the system heap gives to [Box::new] and that
    is an argument; [free] takes it away, and an access to a node that is not
    there is the one the model refuses ([Panic]).  [loop]s run on fuel. *)

From stdpp Require Import base tactics option list numbers gmap relations.
From S2P Require Import Prelude.

(** ** Nodes *)

(* src: mielin-kernel/src/lockfree.rs 26-29 Node *)
Record Node (T : Type) : Type := mkNode {
  node_data : option T;
  node_next : Z;
}.
Arguments mkNode {T}.
Arguments node_data {T}.
Arguments node_next {T}.

Module Node.
(* src: mielin-kernel/src/lockfree.rs 32-37 Node::new *)
Definition new {T} (data : T) : Node T := mkNode (Some data) 0.
(* src: mielin-kernel/src/lockfree.rs 39-44 Node::sentinel *)
Definition sentinel {T} : Node T := mkNode None 0.
End Node.

(** ** The queue *)

(* src: mielin-kernel/src/lockfree.rs 63-67 LockFreeQueue *)
Record LockFreeQueue (T : Type) : Type := mkLFQueue {
  q_head : Z;
  q_tail : Z;
  q_len : Z;
  q_nodes : gmap Z (Node T);
}.
Arguments mkLFQueue {T}.
Arguments q_head {T}.
Arguments q_tail {T}.
Arguments q_len {T}.
Arguments q_nodes {T}.

Module LockFreeQueue.
Section queue.
Context {T : Type}.

(* src: mielin-kernel/src/lockfree.rs 71-78 LockFreeQueue::new *)
Definition new (sentinel : Z) : LockFreeQueue T :=
  mkLFQueue sentinel sentinel 0 {[ sentinel := Node.sentinel ]}.

Fixpoint push_loop (fuel : nat) (node : Z) (self : LockFreeQueue T) : outcome (LockFreeQueue T) :=
  match fuel with
  | O => Timeout
  | S fuel' =>
    let tail := q_tail self in
    match q_nodes self !! tail with
    | None => Panic
    | Some tail_ref =>
      let next := node_next tail_ref in
      if next =? 0 then
        Ret (mkLFQueue (q_head self) node (wrap64 (q_len self + 1))
               (<[tail := mkNode (node_data tail_ref) node]> (q_nodes self)))
      else push_loop fuel' node (mkLFQueue (q_head self) next (q_len self) (q_nodes self))
    end
  end.

(* src: mielin-kernel/src/lockfree.rs 83-124 LockFreeQueue::push *)
Definition push (fuel : nat) (node : Z) (self : LockFreeQueue T) (data : T) : outcome (LockFreeQueue T) :=
  push_loop fuel node
    (mkLFQueue (q_head self) (q_tail self) (q_len self) (<[node := Node.new data]> (q_nodes self))).

(* src: mielin-kernel/src/lockfree.rs 130-175 LockFreeQueue::pop *)
Fixpoint pop (fuel : nat) (self : LockFreeQueue T) : outcome (option T * LockFreeQueue T) :=
  match fuel with
  | O => Timeout
  | S fuel' =>
    let head := q_head self in
    let tail := q_tail self in
    match q_nodes self !! head with
    | None => Panic
    | Some head_ref =>
      let next := node_next head_ref in
      if head =? tail then
        if next =? 0 then Ret (None, self)
        else pop fuel' (mkLFQueue head next (q_len self) (q_nodes self))
      else if negb (next =? 0) then
        match delete head (q_nodes self) !! next with
        | None => Panic
        | Some next_ref =>
          Ret (node_data next_ref,
               mkLFQueue next tail (wrap64 (q_len self - 1))
                 (<[next := mkNode None (node_next next_ref)]> (delete head (q_nodes self))))
        end
      else pop fuel' self
    end
  end.

(* src: mielin-kernel/src/lockfree.rs 178-180 LockFreeQueue::is_empty *)
Definition is_empty (self : LockFreeQueue T) : bool := q_len self =? 0.

(** [while self.pop().is_some() {}], at most [n] times. *)
Fixpoint drain (n : nat) (self : LockFreeQueue T) : outcome (LockFreeQueue T) :=
  match n with
  | O => Timeout
  | S n' =>
    let! (r, self') := pop 1 self in
    match r with Some _ => drain n' self' | None => Ret self' end
  end.

(** What is left allocated after [drop]. *)
(* src: mielin-kernel/src/lockfree.rs 197-210 LockFreeQueue::drop *)
Definition drop (n : nat) (self : LockFreeQueue T) : outcome (gmap Z (Node T)) :=
  let! self' := drain n self in
  let head := q_head self' in
  Ret (if negb (head =? 0) then delete head (q_nodes self') else q_nodes self').

End queue.
End LockFreeQueue.

(** ** The stack *)

(* src: mielin-kernel/src/lockfree.rs 234-237 LockFreeStack *)
Record LockFreeStack (T : Type) : Type := mkLFStack {
  s_top : Z;
  s_len : Z;
  s_nodes : gmap Z (Node T);
}.
Arguments mkLFStack {T}.
Arguments s_top {T}.
Arguments s_len {T}.
Arguments s_nodes {T}.

Module LockFreeStack.
Section stack.
Context {T : Type}.

(* src: mielin-kernel/src/lockfree.rs 241-246 LockFreeStack::new *)
Definition new : LockFreeStack T := mkLFStack 0 0 ∅.

(* src: mielin-kernel/src/lockfree.rs 249-270 LockFreeStack::push *)
Definition push (node : Z) (self : LockFreeStack T) (data : T) : LockFreeStack T :=
  let top := s_top self in
  mkLFStack node (wrap64 (s_len self + 1)) (<[node := mkNode (Some data) top]> (s_nodes self)).

(* src: mielin-kernel/src/lockfree.rs 273-298 LockFreeStack::pop *)
Definition pop (self : LockFreeStack T) : outcome (option T * LockFreeStack T) :=
  let top := s_top self in
  if top =? 0 then Ret (None, self) else
  match s_nodes self !! top with
  | None => Panic
  | Some top_ref =>
    Ret (node_data top_ref,
         mkLFStack (node_next top_ref) (wrap64 (s_len self - 1)) (delete top (s_nodes self)))
  end.

(* src: mielin-kernel/src/lockfree.rs 301-303 LockFreeStack::is_empty *)
Definition is_empty (self : LockFreeStack T) : bool := s_top self =? 0.

End stack.
End LockFreeStack.

(** ** The counter *)

(* src: mielin-kernel/src/lockfree.rs 332-337 AtomicCounter *)
Record AtomicCounter : Type := mkCounter {
  c_value : Z;
  c_total_increments : Z;
  c_total_decrements : Z;
  c_peak_value : Z;
}.

Module AtomicCounter.

(* src: mielin-kernel/src/lockfree.rs 341-348 AtomicCounter::new *)
Definition new : AtomicCounter := mkCounter 0 0 0 0.

(* src: mielin-kernel/src/lockfree.rs 351-358 AtomicCounter::with_value *)
Definition with_value (initial : Z) : AtomicCounter := mkCounter initial 0 0 initial.

(** [fetch_add] wraps; the value returned is the old one plus [val], checked. *)
(* src: mielin-kernel/src/lockfree.rs 371-391 AtomicCounter::add *)
Definition add (self : AtomicCounter) (val : Z) : outcome (Z * AtomicCounter) :=
  let! new_val := usize_add (c_value self) val in
  Ret (new_val,
       mkCounter (wrap64 (c_value self + val)) (wrap64 (c_total_increments self + 1))
         (c_total_decrements self)
         (if new_val <=? c_peak_value self then c_peak_value self else new_val)).

(* src: mielin-kernel/src/lockfree.rs 394-408 AtomicCounter::sub *)
Definition sub (self : AtomicCounter) (val : Z) : Z * AtomicCounter :=
  let new_val := saturating_sub (c_value self) val in
  (new_val, mkCounter new_val (c_total_increments self) (wrap64 (c_total_decrements self + 1))
              (c_peak_value self)).

(* src: mielin-kernel/src/lockfree.rs 361-363 AtomicCounter::increment *)
Definition increment (self : AtomicCounter) : outcome (Z * AtomicCounter) := add self 1.

(* src: mielin-kernel/src/lockfree.rs 366-368 AtomicCounter::decrement *)
Definition decrement (self : AtomicCounter) : Z * AtomicCounter := sub self 1.

(* src: mielin-kernel/src/lockfree.rs 416-433 AtomicCounter::set *)
Definition set (self : AtomicCounter) (val : Z) : AtomicCounter :=
  mkCounter val (c_total_increments self) (c_total_decrements self)
    (if val <=? c_peak_value self then c_peak_value self else val).

(* src: mielin-kernel/src/lockfree.rs 451-456 AtomicCounter::reset_stats *)
Definition reset_stats (self : AtomicCounter) : AtomicCounter :=
  mkCounter (c_value self) 0 0 (c_value self).

End AtomicCounter.

(** ** The sequence lock *)

(** The protected value is a sequence of words, copied one at a time. *)
(* src: mielin-kernel/src/lockfree.rs 483-486 SeqLock *)
Record SeqLock : Type := mkSeqLock {
  sequence : Z;
  sl_data : list Z;
}.

Module SeqLock.

(* src: mielin-kernel/src/lockfree.rs 490-495 SeqLock::new *)
Definition new (data : list Z) : SeqLock := mkSeqLock 0 data.

(** [seq & 1 != 0]. *)
Definition is_odd (seq : Z) : bool := negb (Z.land seq 1 =? 0).

(* src: mielin-kernel/src/lockfree.rs 500-523 SeqLock::read *)
Fixpoint read (fuel : nat) (self : SeqLock) : outcome (list Z) :=
  match fuel with
  | O => Timeout
  | S fuel' => if is_odd (sequence self) then read fuel' self else Ret (sl_data self)
  end.

(* src: mielin-kernel/src/lockfree.rs 529-557 SeqLock::write *)
Definition write (self : SeqLock) (data : list Z) : SeqLock :=
  mkSeqLock (wrap64 (wrap64 (sequence self + 1) + 1)) data.

(* src: mielin-kernel/src/lockfree.rs 562-579 SeqLock::try_read *)
Definition try_read (self : SeqLock) : option (list Z) :=
  if is_odd (sequence self) then None else Some (sl_data self).

(** A writer: outside, after the load of the sequence, with [k] words written,
    and a reader: outside, with the words it has copied since it read an even
    sequence. *)
Inductive wpc : Type :=
| WOut
| WLoaded (new : list Z) (seq : Z)
| WCopy (new : list Z) (k : nat).

Inductive rpc : Type :=
| ROut
| RCopy (seq1 : Z) (copied : list Z).

(** One access of [write]: the exchange that fails goes back to the load. *)
(* src: mielin-kernel/src/lockfree.rs 529-557 SeqLock::write *)
Definition write_step (c : wpc) (self : SeqLock) : option (wpc * SeqLock) :=
  match c with
  | WOut => None
  | WLoaded new seq =>
    Some (if sequence self =? seq
          then (WCopy new 0, mkSeqLock (wrap64 (seq + 1)) (sl_data self))
          else (WLoaded new (sequence self), self))
  | WCopy new k =>
    Some (match new !! k with
          | Some w => (WCopy new (S k), mkSeqLock (sequence self) (<[k := w]> (sl_data self)))
          | None => (WOut, mkSeqLock (wrap64 (sequence self + 1)) (sl_data self))
          end)
  end.

(** One access of [read]; the second component is the value it returns. *)
(* src: mielin-kernel/src/lockfree.rs 500-523 SeqLock::read *)
Definition read_step (c : rpc) (self : SeqLock) : rpc * option (list Z) :=
  match c with
  | ROut => (if is_odd (sequence self) then ROut else RCopy (sequence self) [], None)
  | RCopy seq1 copied =>
    match sl_data self !! length copied with
    | Some w => (RCopy seq1 (copied ++ [w]), None)
    | None => if seq1 =? sequence self then (ROut, Some copied) else (ROut, None)
    end
  end.

End SeqLock.

(** ** The ring buffer *)

(** [N] is the length of the array. *)
(* src: mielin-kernel/src/lockfree.rs 597-601 RingBuffer *)
Record RingBuffer (T : Type) : Type := mkRing {
  rb_buffer : list (option T);
  rb_head : Z;
  rb_tail : Z;
}.
Arguments mkRing {T}.
Arguments rb_buffer {T}.
Arguments rb_head {T}.
Arguments rb_tail {T}.

Module RingBuffer.
Section ring.
Context {T : Type} (N : Z).

(* src: mielin-kernel/src/lockfree.rs 607-613 RingBuffer::new *)
Definition new : RingBuffer T := mkRing (replicate (Z.to_nat N) None) 0 0.

(* src: mielin-kernel/src/lockfree.rs 618-636 RingBuffer::try_push *)
Definition try_push (self : RingBuffer T) (item : T) : outcome (result unit T * RingBuffer T) :=
  let tail := rb_tail self in
  let head := rb_head self in
  let! t1 := usize_add tail 1 in
  let! next_tail := usize_rem t1 N in
  if next_tail =? head then Ret (Err item, self) else
  let! buf := arr_set (rb_buffer self) tail (Some item) in
  Ret (Ok tt, mkRing buf head next_tail).

(* src: mielin-kernel/src/lockfree.rs 641-656 RingBuffer::try_pop *)
Definition try_pop (self : RingBuffer T) : outcome (option T * RingBuffer T) :=
  let head := rb_head self in
  let tail := rb_tail self in
  if head =? tail then Ret (None, self) else
  let! item := arr_get (rb_buffer self) head in
  let! buf := arr_set (rb_buffer self) head None in
  let! h1 := usize_add head 1 in
  let! next_head := usize_rem h1 N in
  Ret (item, mkRing buf next_head tail).

(* src: mielin-kernel/src/lockfree.rs 659-661 RingBuffer::is_empty *)
Definition is_empty (self : RingBuffer T) : bool := rb_head self =? rb_tail self.

(* src: mielin-kernel/src/lockfree.rs 664-668 RingBuffer::is_full *)
Definition is_full (self : RingBuffer T) : outcome bool :=
  let! t1 := usize_add (rb_tail self) 1 in
  let! r := usize_rem t1 N in
  Ret (r =? rb_head self).

(* src: mielin-kernel/src/lockfree.rs 671-675 RingBuffer::len *)
Definition len (self : RingBuffer T) : outcome Z :=
  let! a := usize_add (rb_tail self) N in
  let! b := usize_sub a (rb_head self) in
  usize_rem b N.

(* src: mielin-kernel/src/lockfree.rs 678-680 RingBuffer::capacity *)
Definition capacity : outcome Z := usize_sub N 1.

(** Where the producer and the consumer are: the values each has loaded, before
    the access it makes next. *)
Inductive ppc : Type :=
| PTail (item : T)
| PHead (item : T) (tail : Z)
| PWrite (item : T) (tail next_tail : Z)
| PStore (item : T) (next_tail : Z).

Inductive cpc : Type :=
| CHead
| CTail (head : Z)
| CTake (head : Z)
| CStore (head : Z) (item : option T).

(** One access of [try_push]: the next position or the answer. *)
(* src: mielin-kernel/src/lockfree.rs 618-636 RingBuffer::try_push *)
Definition push_step (c : ppc) (self : RingBuffer T)
    : outcome ((ppc + result unit T) * RingBuffer T) :=
  match c with
  | PTail item => Ret (inl (PHead item (rb_tail self)), self)
  | PHead item tail =>
    let! t1 := usize_add tail 1 in
    let! next_tail := usize_rem t1 N in
    if next_tail =? rb_head self then Ret (inr (Err item), self)
    else Ret (inl (PWrite item tail next_tail), self)
  | PWrite item tail next_tail =>
    let! buf := arr_set (rb_buffer self) tail (Some item) in
    Ret (inl (PStore item next_tail), mkRing buf (rb_head self) (rb_tail self))
  | PStore _ next_tail => Ret (inr (Ok tt), mkRing (rb_buffer self) (rb_head self) next_tail)
  end.

(** One access of [try_pop]. *)
(* src: mielin-kernel/src/lockfree.rs 641-656 RingBuffer::try_pop *)
Definition pop_step (c : cpc) (self : RingBuffer T)
    : outcome ((cpc + option T) * RingBuffer T) :=
  match c with
  | CHead => Ret (inl (CTail (rb_head self)), self)
  | CTail head =>
    if head =? rb_tail self then Ret (inr None, self) else Ret (inl (CTake head), self)
  | CTake head =>
    let! item := arr_get (rb_buffer self) head in
    let! buf := arr_set (rb_buffer self) head None in
    Ret (inl (CStore head item), mkRing buf (rb_head self) (rb_tail self))
  | CStore head item =>
    let! h1 := usize_add head 1 in
    let! next_head := usize_rem h1 N in
    Ret (inr item, mkRing (rb_buffer self) next_head (rb_tail self))
  end.

End ring.
End RingBuffer.
