(* ===== verification/LockFreeProps.v ===== *)
(** * Invariants of the lock-free structures

    The ring buffer between one producer and one consumer ([rb_inv]), the
    sequence lock between one writer and many readers ([sl_inv]), and the linked
    queue as the list of its items ([lfq_ok]). *)

From stdpp Require Import base tactics option list numbers gmap relations.
From S2P Require Import Prelude LockFree.

(** ** The ring buffer *)

Section ring.
Import RingBuffer.
Context {T : Type} (N : Z) (HN : 0 < N <= 4294967296).

(** The buffer, the two positions, and what was pushed and popped so far. *)
Record rb_world : Type := mkRbWorld {
  w_ring : RingBuffer T;
  w_prod : option (@ppc T);
  w_cons : option (@cpc T);
  w_pushed : list T;
  w_popped : list T;
}.

Definition rb_init : rb_world := mkRbWorld (RingBuffer.new N) None None [] [].

(** One access by either side.  A push counts when its last store is done, a pop
    too. *)
Inductive rb_step : relation rb_world :=
| rb_start_push r c item us os :
    rb_step (mkRbWorld r None c us os) (mkRbWorld r (Some (PTail item)) c us os)
| rb_push r r' p p' c us os :
    push_step N p r = Ret (inl p', r') →
    rb_step (mkRbWorld r (Some p) c us os) (mkRbWorld r' (Some p') c us os)
| rb_push_full r r' p c us os item :
    push_step N p r = Ret (inr (Err item), r') →
    rb_step (mkRbWorld r (Some p) c us os) (mkRbWorld r' None c us os)
| rb_push_done r r' item nt c us os :
    push_step N (PStore item nt) r = Ret (inr (Ok tt), r') →
    rb_step (mkRbWorld r (Some (PStore item nt)) c us os) (mkRbWorld r' None c (us ++ [item]) os)
| rb_start_pop r p us os :
    rb_step (mkRbWorld r p None us os) (mkRbWorld r p (Some CHead) us os)
| rb_pop r r' p c c' us os :
    pop_step N c r = Ret (inl c', r') →
    rb_step (mkRbWorld r p (Some c) us os) (mkRbWorld r' p (Some c') us os)
| rb_pop_done r r' p c us os x :
    pop_step N c r = Ret (inr x, r') →
    rb_step (mkRbWorld r p (Some c) us os) (mkRbWorld r' p None us (os ++ option_list x)).

(** What each side knows, [q] being the items between the two indices. *)
Definition prod_ok (r : RingBuffer T) (q : list T) (p : option ppc) : Prop :=
  match p with
  | Some (PHead _ t) => t = rb_tail r
  | Some (PWrite _ t nt) => t = rb_tail r ∧ nt = (rb_tail r + 1) mod N ∧ Z.of_nat (length q) < N - 1
  | Some (PStore item nt) =>
      nt = (rb_tail r + 1) mod N ∧ Z.of_nat (length q) < N - 1 ∧
      rb_buffer r !! Z.to_nat (rb_tail r) = Some (Some item)
  | _ => True
  end.

Definition cons_ok (r : RingBuffer T) (q : list T) (c : option cpc) : Prop :=
  match c with
  | Some (CTail h) => h = rb_head r
  | Some (CTake h) => h = rb_head r ∧ q ≠ []
  | Some (CStore h it) => h = rb_head r ∧ it = head q ∧ q ≠ []
  | _ => True
  end.

(** The consumer has emptied the slot at the head and not moved on yet. *)
Definition taken (c : option (@cpc T)) : bool := if c is Some (CStore _ _) then true else false.

Record rb_inv (w : rb_world) (q : list T) : Prop := {
  ri_len : length (rb_buffer (w_ring w)) = Z.to_nat N;
  ri_head : 0 <= rb_head (w_ring w) < N;
  ri_tail : rb_tail (w_ring w) = (rb_head (w_ring w) + Z.of_nat (length q)) mod N;
  ri_bound : Z.of_nat (length q) < N;
  ri_hist : w_pushed w = w_popped w ++ q;
  ri_slots : ∀ k x, q !! k = Some x → (k = 0%nat ∧ taken (w_cons w) = true) ∨
    rb_buffer (w_ring w) !! slot N (rb_head (w_ring w)) (Z.of_nat k) = Some (Some x);
  ri_prod : prod_ok (w_ring w) q (w_prod w);
  ri_cons : cons_ok (w_ring w) q (w_cons w);
}.

Lemma rb_init_inv : rb_inv rb_init [].
Proof.
  split; simpl; try done; try lia.
  - by rewrite length_replicate.
Qed.

Lemma tail_slot (r : RingBuffer T) (q : list T) :
  rb_tail r = (rb_head r + Z.of_nat (length q)) mod N → Z.to_nat (rb_tail r) = slot N (rb_head r) (Z.of_nat (length q)).
Proof. intros ->. done. Qed.

(** The producer's accesses. *)
Lemma push_step_inv (r : RingBuffer T) p c us os q :
  rb_inv (mkRbWorld r (Some p) c us os) q →
  match p with
  | PTail item => push_step N p r = Ret (inl (PHead item (rb_tail r)), r)
  | PHead item t =>
      if decide (Z.of_nat (length q) = N - 1) then push_step N p r = Ret (inr (Err item), r)
      else push_step N p r = Ret (inl (PWrite item t ((rb_tail r + 1) mod N)), r)
  | PWrite item t nt =>
      push_step N p r = Ret (inl (PStore item nt), mkRing (<[Z.to_nat (rb_tail r) := Some item]> (rb_buffer r)) (rb_head r) (rb_tail r))
  | PStore item nt => push_step N p r = Ret (inr (Ok tt), mkRing (rb_buffer r) (rb_head r) nt)
  end.
Proof.
  intros [Hlen Hh Ht Hb _ _ Hp _]. simpl in *.
  assert (0 <= rb_tail r < N) as Htr by (rewrite Ht; apply Z.mod_pos_bound; lia).
  destruct p as [item|item t|item t nt|item nt]; simpl; [done| | |done].
  - simpl in Hp. subst t. rewrite usize_add_ok by lia. cbn [obind]. rewrite usize_rem_ok by lia. cbn [obind].
    assert ((rb_tail r + 1) mod N = rb_head r ↔ Z.of_nat (length q) = N - 1) as Hiff.
    { rewrite Ht, Z.add_mod_idemp_l by lia. split.
      - intros Heq. assert (slot N (rb_head r) (Z.of_nat (length q) + 1 - (if decide (Z.of_nat (length q) = N - 1) then N else 0)) = slot N (rb_head r) 0) as Hs.
        { rewrite slot_0 by lia. unfold slot. rewrite <-Heq at 2. f_equal. case_decide; [|f_equal; lia].
          replace (rb_head r + (Z.of_nat (length q) + 1 - N)) with (rb_head r + Z.of_nat (length q) + 1 + (-1) * N) by lia.
          rewrite Z.mod_add by lia. done. }
        apply slot_inj in Hs; [|lia|case_decide; lia|lia]. case_decide; lia.
      - intros ->. replace (rb_head r + (N - 1) + 1) with (rb_head r + 1 * N) by lia. rewrite Z.mod_add by lia.
        apply Z.mod_small. lia. }
    case_decide as Hd; destruct (Z.eqb_spec ((rb_tail r + 1) mod N) (rb_head r)); tauto || done.
  - destruct Hp as (-> & _). rewrite arr_set_ok by (rewrite Hlen; lia). done.
Qed.

Lemma push_write_inv r c us os q item t nt :
  rb_inv (mkRbWorld r (Some (PWrite item t nt)) c us os) q →
  rb_inv (mkRbWorld (mkRing (<[Z.to_nat (rb_tail r) := Some item]> (rb_buffer r)) (rb_head r) (rb_tail r))
            (Some (PStore item nt)) c us os) q.
Proof.
  intros [Hlen Hh Ht Hb Hi Hs Hp Hc]. simpl in *. destruct Hp as (_ & -> & Hroom).
  split; simpl; try done.
  - by rewrite length_insert.
  - intros k x Hk. destruct (Hs k x Hk) as [|Hk']; [by left|]. right. pose proof (lookup_lt_Some _ _ _ Hk).
    rewrite list_lookup_insert_ne; [done|]. rewrite (tail_slot r q Ht). intros Heq%slot_inj; lia.
  - split; [done|]. split; [done|]. rewrite (tail_slot r q Ht). apply list_lookup_insert_eq.
    rewrite Hlen. apply slot_lt. lia.
Qed.

Lemma push_store_inv r c us os q item nt :
  rb_inv (mkRbWorld r (Some (PStore item nt)) c us os) q →
  rb_inv (mkRbWorld (mkRing (rb_buffer r) (rb_head r) nt) None c (us ++ [item]) os) (q ++ [item]).
Proof.
  intros [Hlen Hh Ht Hb Hi Hs Hp Hc]. simpl in *. destruct Hp as (-> & Hroom & Hw).
  split; simpl; try done.
  - rewrite Ht, Z.add_mod_idemp_l, length_app by lia. simpl. f_equal. lia.
  - rewrite length_app. simpl. lia.
  - by rewrite Hi, app_assoc.
  - intros k x [Hk|[Hk Hl]]%lookup_app_Some; [by apply Hs|]. right.
    apply list_lookup_singleton_Some in Hl as [Hz <-]. replace k with (length q) by lia.
    by rewrite <-(tail_slot r q Ht).
  - destruct c as [[|h|h|h it]|]; simpl in *; try done.
    + split; [tauto|]. destruct q; naive_solver.
    + destruct Hc as (-> & -> & Hne). destruct q; [done|]. simpl. done.
Qed.

(** The consumer's accesses. *)
Lemma pop_take_inv r p us os q h :
  rb_inv (mkRbWorld r p (Some (CTake h)) us os) q →
  ∃ x q' buf, q = x :: q' ∧ pop_step N (CTake h) r = Ret (inl (CStore h (Some x)), mkRing buf (rb_head r) (rb_tail r)) ∧
    rb_inv (mkRbWorld (mkRing buf (rb_head r) (rb_tail r)) p (Some (CStore h (Some x))) us os) q.
Proof.
  intros [Hlen Hh Ht Hb Hi Hs Hp Hc]. simpl in *. destruct Hc as (-> & Hne). destruct q as [|x q]; [done|].
  destruct (Hs 0%nat x eq_refl) as [[_ ?]|H0]; [done|]. change (Z.of_nat 0) with 0 in H0. rewrite slot_0 in H0 by lia.
  rewrite (arr_get_ok _ _ (Some x)) by (done || lia). cbn [obind]. rewrite arr_set_ok by (rewrite Hlen; lia). cbn [obind].
  eexists x, q, _. split; [done|]. split; [done|]. split; simpl; try done.
  - by rewrite length_insert.
  - intros k y Hk. pose proof (lookup_lt_Some _ _ _ Hk). destruct k as [|k]; [by left|]. right.
    destruct (Hs (S k) y Hk) as [[? _]|Hk']; [done|]. rewrite list_lookup_insert_ne; [done|].
    rewrite <-(slot_0 N (rb_head r)) by lia. intros Heq%slot_inj; simpl in *; lia.
  - destruct p as [[]|]; simpl in *; try done. destruct Hp as (Hnt & Hroom & Hw). split; [done|]. split; [done|].
    rewrite list_lookup_insert_ne; [done|]. rewrite (tail_slot r (x :: q) Ht), <-(slot_0 N (rb_head r)) by lia.
    intros Heq%slot_inj; simpl in *; lia.
Qed.

Lemma pop_store_inv r p us os q h it :
  rb_inv (mkRbWorld r p (Some (CStore h it)) us os) q →
  ∃ x q', q = x :: q' ∧ it = Some x ∧
    pop_step N (CStore h it) r = Ret (inr it, mkRing (rb_buffer r) ((rb_head r + 1) mod N) (rb_tail r)) ∧
    rb_inv (mkRbWorld (mkRing (rb_buffer r) ((rb_head r + 1) mod N) (rb_tail r)) p None us (os ++ [x])) q'.
Proof.
  intros [Hlen Hh Ht Hb Hi Hs Hp Hc]. simpl in *. destruct Hc as (-> & -> & Hne). destruct q as [|x q]; [done|].
  rewrite usize_add_ok by lia. cbn [obind]. rewrite usize_rem_ok by lia. cbn [obind].
  exists x, q. split; [done|]. split; [done|]. split; [done|]. split; simpl in *; try done.
  - apply Z.mod_pos_bound. lia.
  - rewrite Ht, Z.add_mod_idemp_l by lia. f_equal. lia.
  - lia.
  - by rewrite Hi, <-app_assoc.
  - intros k y Hk. right. rewrite slot_succ by lia. replace (Z.of_nat k + 1) with (Z.of_nat (S k)) by lia.
    destruct (Hs (S k) y Hk) as [[? _]|Hk']; done.
  - destruct p as [[]|]; simpl in *; try done; [|]; split_and!; naive_solver lia.
Qed.

(** A step that only moves one side on. *)
Lemma rb_inv_move (r : RingBuffer T) p c p' c' us os q :
  rb_inv (mkRbWorld r p c us os) q → prod_ok r q p' → cons_ok r q c' → taken c' = taken c →
  rb_inv (mkRbWorld r p' c' us os) q.
Proof. intros [Hlen Hh Ht Hb Hi Hs Hp Hc] Hp' Hc' Htk. split; simpl in *; try done. by rewrite Htk. Qed.

Lemma tail_head_eq (r : RingBuffer T) (q : list T) :
  0 <= rb_head r < N → Z.of_nat (length q) < N →
  rb_tail r = (rb_head r + Z.of_nat (length q)) mod N → rb_head r = rb_tail r ↔ q = [].
Proof.
  intros Hh Hb Ht. rewrite Ht. split.
  - intros Heq. assert (slot N (rb_head r) 0 = slot N (rb_head r) (Z.of_nat (length q))) as Hs.
    { rewrite slot_0 by lia. unfold slot. by rewrite <-Heq. }
    apply slot_inj in Hs; [|lia..]. apply nil_length_inv. lia.
  - intros ->. simpl. rewrite Z.add_0_r, Z.mod_small; lia.
Qed.

Lemma rb_push_inv r r' p p' c us os q :
  rb_inv (mkRbWorld r (Some p) c us os) q → push_step N p r = Ret (inl p', r') →
  rb_inv (mkRbWorld r' (Some p') c us os) q.
Proof.
  intros Hi Hs. pose proof (push_step_inv _ _ _ _ _ _ Hi) as Hp.
  destruct p as [item|item t|item t nt|item nt].
  - rewrite Hp in Hs. simplify_eq. by apply (rb_inv_move _ _ _ _ _ _ _ _ Hi); [|apply Hi|].
  - pose proof (ri_prod _ _ Hi) as Ht. simpl in Ht. pose proof (ri_bound _ _ Hi).
    case_decide; rewrite Hp in Hs; simplify_eq. apply (rb_inv_move _ _ _ _ _ _ _ _ Hi); [|apply Hi|done]. simpl. lia.
  - rewrite Hp in Hs. simplify_eq. by eapply push_write_inv.
  - by rewrite Hp in Hs.
Qed.

Lemma rb_pop_inv r r' p c c' us os q :
  rb_inv (mkRbWorld r p (Some c) us os) q → pop_step N c r = Ret (inl c', r') →
  rb_inv (mkRbWorld r' p (Some c') us os) q.
Proof.
  intros Hi Hs. pose proof (tail_head_eq r q (ri_head _ _ Hi) (ri_bound _ _ Hi) (ri_tail _ _ Hi)) as Hiff.
  destruct c as [|h|h|h it].
  - simpl in Hs. simplify_eq. by apply (rb_inv_move _ _ _ _ _ _ _ _ Hi); [apply Hi| |].
  - pose proof (ri_cons _ _ Hi) as Hh. simpl in Hh, Hs. destruct (Z.eqb_spec h (rb_tail r)); simplify_eq.
    apply (rb_inv_move _ _ _ _ _ _ _ _ Hi); [apply Hi| |done]. simpl. tauto.
  - destruct (pop_take_inv _ _ _ _ _ _ Hi) as (x & q' & buf & -> & Heq & Hi'). rewrite Heq in Hs. by simplify_eq.
  - destruct (pop_store_inv _ _ _ _ _ _ _ Hi) as (x & q' & _ & _ & Heq & _). by rewrite Heq in Hs.
Qed.

Lemma rb_step_inv w w' q : rb_step w w' → rb_inv w q → ∃ q', rb_inv w' q'.
Proof.
  destruct 1 as [r c item us os|r r' p p' c us os Hs|r r' p c us os item Hs|r r' item nt c us os Hs
    |r p us os|r r' p c c' us os Hs|r r' p c us os x Hs]; intros Hi.
  - exists q. by apply (rb_inv_move _ _ _ _ _ _ _ _ Hi); [|apply Hi|].
  - exists q. by eapply rb_push_inv.
  - exists q. pose proof (push_step_inv _ _ _ _ _ _ Hi) as Hp. destruct p as [i|i t|i t nt|i nt];
      [by rewrite Hp in Hs| |by rewrite Hp in Hs|by rewrite Hp in Hs].
    case_decide; rewrite Hp in Hs; simplify_eq. by apply (rb_inv_move _ _ _ _ _ _ _ _ Hi); [|apply Hi|].
  - exists (q ++ [item]). pose proof (push_step_inv _ _ _ _ _ _ Hi) as Hp. simpl in Hp.
    simpl in Hs. simplify_eq. by apply push_store_inv.
  - exists q. by apply (rb_inv_move _ _ _ _ _ _ _ _ Hi); [apply Hi| |].
  - exists q. by eapply rb_pop_inv.
  - destruct c as [|h|h|h it].
    + done.
    + exists q. simpl in Hs. destruct (Z.eqb_spec h (rb_tail r)); simplify_eq. simpl. rewrite app_nil_r.
      by apply (rb_inv_move _ _ _ _ _ _ _ _ Hi); [apply Hi| |].
    + destruct (pop_take_inv _ _ _ _ _ _ Hi) as (y & q' & buf & _ & Heq & _). by rewrite Heq in Hs.
    + destruct (pop_store_inv _ _ _ _ _ _ _ Hi) as (y & q' & -> & -> & Heq & Hi'). rewrite Heq in Hs. simplify_eq. by exists q'.
Qed.

Lemma rb_run_inv w : rtc rb_step rb_init w → ∃ q, rb_inv w q.
Proof.
  revert w. apply (rtc_ind_r (λ w, ∃ q, rb_inv w q)); [exists []; apply rb_init_inv|].
  intros w1 w2 _ Hs [q Hi]. by eapply rb_step_inv.
Qed.

(** An operation that nobody interrupts is its accesses in order. *)
Lemma try_push_steps (r : RingBuffer T) item :
  try_push N r item =
    let! (c1, r1) := push_step N (PTail item) r in
    match c1 with
    | inr a => Ret (a, r1)
    | inl p1 =>
      let! (c2, r2) := push_step N p1 r1 in
      match c2 with
      | inr a => Ret (a, r2)
      | inl p2 =>
        let! (c3, r3) := push_step N p2 r2 in
        match c3 with
        | inr a => Ret (a, r3)
        | inl p3 => let! (c4, r4) := push_step N p3 r3 in
                    match c4 with inr a => Ret (a, r4) | inl _ => Panic end
        end
      end
    end.
Proof.
  unfold try_push. simpl. destruct (usize_add _ _); [|done..]. simpl. destruct (usize_rem _ _); [|done..]. simpl.
  case_bool; [done|]. simpl. by destruct (arr_set _ _ _).
Qed.
End ring.
Arguments rb_world : clear implicits.

(** ** The sequence lock *)

Section seqlock.
Import SeqLock.
Context (n : nat).

(** The lock, its single writer and its readers, with three ghosts: the argument
    of the writer's latest call of [write], the argument of the last call that is
    over (the initial value before the first) and the number of changes of the
    sequence. The ghosts follow the calls and never the memory. *)
Record sl_world : Type := mkSlWorld {
  sl_lock : SeqLock;
  sl_writer : wpc;
  sl_readers : nat → rpc;
  sl_arg : list Z;
  sl_value : list Z;
  sl_count : Z;
}.

Definition sl_init (data : list Z) : sl_world := mkSlWorld (SeqLock.new data) WOut (λ _, ROut) data data 0.

(** One access; the label is the value a reader returns with it. *)
Inductive sl_step : sl_world → option (list Z) → sl_world → Prop :=
| sl_start_write l rs a v c new :
    length new = n →
    sl_step (mkSlWorld l WOut rs a v c) None (mkSlWorld l (WLoaded new (sequence l)) rs new v c)
| sl_write l w l' w' rs a v c :
    write_step w l = Some (w', l') →
    sl_step (mkSlWorld l w rs a v c) None
      (mkSlWorld l' w' rs a (if w' is WOut then a else v)
         (if decide (sequence l' = sequence l) then c else c + 1))
| sl_read l w rs a v c i r' res :
    read_step (rs i) l = (r', res) →
    sl_step (mkSlWorld l w rs a v c) res (mkSlWorld l w (λ j, if decide (j = i) then r' else rs j) a v c).

Definition sl_run (w w' : sl_world) : Prop := rtc (λ a b, ∃ res, sl_step a res b) w w'.

Definition writer_ok (w : wpc) (data a v : list Z) (c : Z) : Prop :=
  match w with
  | WOut => Z.even c = true ∧ data = v
  | WLoaded new _ => Z.even c = true ∧ data = v ∧ length new = n ∧ new = a
  | WCopy new k => Z.even c = false ∧ length new = n ∧ (k <= n)%nat ∧ data = take k new ++ drop k v ∧ new = a
  end.

(** A reader whose sequence is still the current one has copied a prefix of the
    current value. *)
Definition reader_ok (r : rpc) (v : list Z) (c : Z) : Prop :=
  match r with
  | ROut => True
  | RCopy s1 copied =>
      0 <= s1 <= c ∧ Z.even s1 = true ∧ (length copied <= n)%nat ∧ (s1 = c → copied = take (length copied) v)
  end.

Record sl_inv (w : sl_world) : Prop := {
  si_seq : sequence (sl_lock w) = sl_count w ∧ 0 <= sl_count w;
  si_data : length (sl_data (sl_lock w)) = n ∧ length (sl_value w) = n;
  si_writer : writer_ok (sl_writer w) (sl_data (sl_lock w)) (sl_arg w) (sl_value w) (sl_count w);
  si_readers : ∀ i, reader_ok (sl_readers w i) (sl_value w) (sl_count w);
}.

Lemma is_odd_even c : is_odd c = negb (Z.even c).
Proof.
  unfold is_odd. change 1 with (Z.ones 1). rewrite Z.land_ones by lia. rewrite Zeven_mod. simpl. done.
Qed.

Lemma reader_later r v v' c : reader_ok r v c → reader_ok r v' (c + 1).
Proof. destruct r as [|s1 copied]; simpl; [done|]. intros (? & ? & ? & _). split_and!; try done; lia. Qed.

Lemma sl_write_inv l w l' w' rs a v c :
  sl_inv (mkSlWorld l w rs a v c) → c < U64_MAX → write_step w l = Some (w', l') →
  sl_inv (mkSlWorld l' w' rs a (if w' is WOut then a else v)
            (if decide (sequence l' = sequence l) then c else c + 1)).
Proof.
  intros [[Hs Hc] [Hd Hv] Hw Hr] Hmax Hstep. simpl in *. destruct w as [|new seq|new k]; simpl in Hstep; [done|..].
  - destruct Hw as (He & Hdv & Hn & Ha). destruct (Z.eqb_spec (sequence l) seq) as [<-|Hne]; injection Hstep as <- <-.
    + cbn [sequence]. rewrite Hs, wrap64_small, decide_False by lia. split; simpl; [lia|done| |].
      * split_and!; [|done|lia|by rewrite Hdv|done]. by rewrite <-Z.negb_odd, Z.odd_add, <-Z.negb_even, He.
      * intros i. by eapply reader_later.
    + rewrite decide_True by done. by split.
  - destruct Hw as (He & Hn & Hk & Hdata & Ha). destruct (new !! k) as [x|] eqn:Hx; injection Hstep as <- <-; cbn [sequence].
    + rewrite decide_True by done. split; simpl; [done|by rewrite length_insert|..]; [|done].
      pose proof (lookup_lt_Some _ _ _ Hx). split_and!; [done|done|lia| |done].
      rewrite Hdata. erewrite (take_S_r _ _ _ Hx).
      rewrite insert_app_r_alt by (rewrite length_take; lia). rewrite length_take, Nat.min_l, Nat.sub_diag by lia.
      rewrite <-app_assoc. f_equal. destruct (lookup_lt_is_Some_2 v k) as [y Hy]; [lia|].
      by rewrite (drop_S v y k Hy).
    + apply lookup_ge_None_1 in Hx. assert (k = n) as -> by lia.
      rewrite take_ge, drop_ge, app_nil_r in Hdata by lia.
      rewrite Hs, wrap64_small, decide_False by lia. split; simpl; [lia|by rewrite <-Ha| |].
      * split; [|by rewrite Hdata]. by rewrite <-Z.negb_odd, Z.odd_add, <-Z.negb_even, He.
      * intros i. by eapply reader_later.
Qed.

(** A reader that returns, returns the current value. *)
Lemma sl_read_inv l w rs a v c i r' res :
  sl_inv (mkSlWorld l w rs a v c) → read_step (rs i) l = (r', res) →
  sl_inv (mkSlWorld l w (λ j, if decide (j = i) then r' else rs j) a v c) ∧
  (∀ x, res = Some x → x = v ∧ Z.even c = true).
Proof.
  intros [[Hs Hc] [Hd Hv] Hw Hr] Hstep. simpl in *.
  assert (Z.even c = true → sl_data l = v) as Hdv.
  { destruct w; simpl in Hw; [tauto|tauto|]. destruct Hw as (He & _). congruence. }
  enough (reader_ok r' v c ∧ ∀ x, res = Some x → x = v ∧ Z.even c = true) as [Hok Hres].
  { split; [|done]. split; simpl; try done. intros j. case_decide; [done|apply Hr]. }
  specialize (Hr i). destruct (rs i) as [|s1 copied]; simpl in Hstep.
  - rewrite Hs, is_odd_even in Hstep. destruct (Z.even c) eqn:He; simpl in Hstep; injection Hstep as <- <-; [|done].
    split; [|done]. simpl. split_and!; [lia|lia|done|lia|done].
  - destruct Hr as (Hle & He & Hlen & Hpre). destruct (sl_data l !! length copied) as [x|] eqn:Hx.
    + injection Hstep as <- <-. split; [|done]. pose proof (lookup_lt_Some _ _ _ Hx).
      simpl. split_and!; [lia|lia|done|rewrite length_app; simpl; lia|].
      intros ->. rewrite length_app, Nat.add_1_r. rewrite Hdv in Hx by done.
      rewrite (take_S_r _ _ _ Hx), <-Hpre by done. done.
    + apply lookup_ge_None_1 in Hx. destruct (Z.eqb_spec s1 (sequence l)) as [->|Hne]; injection Hstep as <- <-; [|done].
      split; [done|]. intros x [= <-]. rewrite Hs in *. split; [|done]. rewrite Hpre by done. apply take_ge. lia.
Qed.

Lemma sl_step_count w res w' : sl_step w res w' → sl_count w <= sl_count w' <= sl_count w + 1.
Proof. destruct 1; simpl; [lia|case_decide; lia|lia]. Qed.

Lemma sl_step_inv w res w' :
  sl_step w res w' → sl_inv w → sl_count w < U64_MAX →
  sl_inv w' ∧ (∀ x, res = Some x → x = sl_value w ∧ Z.even (sl_count w) = true).
Proof.
  destruct 1 as [l rs a v c new Hn|l w l' w' rs a v c Hw|l w rs a v c i r' res Hr]; simpl; intros Hi Hmax.
  - split; [|done]. destruct Hi as [Hs Hd [He Hv] Hr]. by split.
  - split; [|done]. by eapply sl_write_inv.
  - by eapply sl_read_inv.
Qed.

Lemma sl_run_inv data w :
  length data = n → sl_run (sl_init data) w → sl_count w < U64_MAX → sl_inv w.
Proof.
  intros Hn Hrun. revert w Hrun. apply (rtc_ind_r (λ w, sl_count w < U64_MAX → sl_inv w)).
  - intros _. split; simpl; try done; lia.
  - intros w1 w2 _ [res Hstep] IH Hmax. pose proof (sl_step_count _ _ _ Hstep).
    eapply sl_step_inv; [exact Hstep|apply IH; lia|lia].
Qed.
End seqlock.

(** ** The linked queue *)

Section lfq.
Context {T : Type}.
Implicit Types (m : gmap Z (Node T)) (ads : list (Z * T)) (q : LockFreeQueue T).

(** From the node [h], whose own data does not matter, the links lead through
    the nodes [ads] with their items, and end. *)
Fixpoint path m (h : Z) ads : Prop :=
  match ads with
  | [] => ∃ d, m !! h = Some (mkNode d 0)
  | (a, x) :: r => (∃ d, m !! h = Some (mkNode d a)) ∧ a ≠ 0 ∧ (∃ nx, m !! a = Some (mkNode (Some x) nx)) ∧ path m a r
  end.

Definition addrs q ads : list Z := q_head q :: ads.*1.

Record lfq_ok q ads : Prop := {
  lq_path : path (q_nodes q) (q_head q) ads;
  lq_nodup : NoDup (addrs q ads);
  lq_tail : last (addrs q ads) = Some (q_tail q);
  lq_dom : dom (q_nodes q) = list_to_set (addrs q ads);
  lq_len : q_len q = wrap64 (Z.of_nat (length ads));
  lq_head : q_head q ≠ 0;
}.

Lemma path_frame m m' h ads :
  (∀ a, a ∈ h :: ads.*1 → m' !! a = m !! a) → path m h ads → path m' h ads.
Proof.
  revert h. induction ads as [|[a x] r IH]; intros h Hm; simpl.
  - rewrite Hm by set_solver. done.
  - intros (Hh & Ha & Hd & Hp). rewrite !Hm by set_solver. split_and!; try done. apply IH; [|done]. set_solver.
Qed.

(** Linking a fresh node behind the last one. *)
Lemma path_push m h ads t node x :
  path m h ads → NoDup (h :: ads.*1) → last (h :: ads.*1) = Some t → node ∉ h :: ads.*1 → node ≠ 0 →
  ∃ d, m !! t = Some (mkNode d 0) ∧
    path (<[t := mkNode d node]> (<[node := mkNode (Some x) 0]> m)) h (ads ++ [(node, x)]).
Proof.
  revert h. induction ads as [|[a y] r IH]; intros h; simpl.
  - intros [d Hd] _ [= <-] Hn H0. exists d. split; [done|]. assert (node ≠ h) by set_solver.
    split; [exists d; by rewrite lookup_insert_eq|]. split; [done|].
    rewrite lookup_insert_ne, lookup_insert_eq by done. eauto.
  - intros (Hh & Ha & [nx Hd] & Hp) Hnd Hl Hn H0. apply NoDup_cons in Hnd as [Hha Hnd].
    destruct (IH a Hp Hnd Hl) as (d & Ht & Hp'); [set_solver|done|]. exists d. split; [done|].
    assert (t ∈ a :: r.*1) as Htin by (apply last_Some_elem_of in Hl; done).
    assert (t ≠ h) by set_solver. assert (node ≠ h) by set_solver. assert (node ≠ a) by set_solver.
    split; [|split; [done|split; [|done]]].
    + by rewrite !lookup_insert_ne by done.
    + destruct (decide (t = a)) as [->|Hta].
      * rewrite lookup_insert_eq. eexists. f_equal. f_equal. congruence.
      * rewrite !lookup_insert_ne by done. eauto.
Qed.

Lemma lfq_new_ok s : s ≠ 0 → lfq_ok (LockFreeQueue.new s) [].
Proof.
  intros Hs. split; simpl; try done.
  - exists None. by rewrite lookup_singleton_eq.
  - apply NoDup_singleton.
  - unfold addrs. simpl. rewrite dom_singleton_L. set_solver.
Qed.

Lemma lfq_push_ok q ads fuel node x :
  lfq_ok q ads → node ∉ dom (q_nodes q) → node ≠ 0 → (0 < fuel)%nat →
  ∃ q', LockFreeQueue.push fuel node q x = Ret q' ∧ q_head q' = q_head q ∧ lfq_ok q' (ads ++ [(node, x)]).
Proof.
  intros [Hp Hnd Ht Hd Hl Hh] Hn H0 Hf. destruct fuel as [|fuel]; [lia|]. unfold addrs in *.
  rewrite Hd, elem_of_list_to_set in Hn.
  destruct (path_push _ _ _ _ node x Hp Hnd Ht Hn H0) as (d & Hm & Hp').
  assert (node ≠ q_tail q) by (intros ->; apply last_Some_elem_of in Ht; done).
  unfold LockFreeQueue.push. cbn [LockFreeQueue.push_loop q_tail q_nodes].
  rewrite lookup_insert_ne, Hm by done. cbn. eexists. split; [done|]. split; [done|]. split; simpl.
  - done.
  - unfold addrs. cbn [q_head]. rewrite fmap_app. simpl. rewrite app_comm_cons. apply NoDup_app. split_and!; [done| |apply NoDup_singleton]. set_solver.
  - unfold addrs. cbn [q_head]. rewrite fmap_app. simpl. by rewrite app_comm_cons, last_snoc.
  - unfold addrs. rewrite !dom_insert_L, Hd. cbn [q_head]. rewrite fmap_app. simpl.
    apply last_Some_elem_of in Ht. rewrite list_to_set_app_L. simpl. set_solver.
  - rewrite Hl, length_app. unfold wrap64. rewrite Z.add_mod_idemp_l by lia. f_equal. simpl. lia.
  - done.
Qed.

Lemma lfq_pop_ok q ads fuel :
  lfq_ok q ads → (0 < fuel)%nat →
  match ads with
  | [] => LockFreeQueue.pop fuel q = Ret (None, q)
  | (a, x) :: r => ∃ q', LockFreeQueue.pop fuel q = Ret (Some x, q') ∧ q_head q' = a ∧ lfq_ok q' r
  end.
Proof.
  intros [Hp Hnd Ht Hd Hl Hh] Hf. destruct fuel as [|fuel]; [lia|]. unfold addrs in *. cbn [LockFreeQueue.pop].
  destruct ads as [|[a x] r]; simpl in *.
  - injection Ht as Ht. destruct Hp as [d ->]. rewrite <-Ht, Z.eqb_refl. done.
  - destruct Hp as ([d ->] & Ha & [nx Hm] & Hp). apply NoDup_cons in Hnd as [Hha Hnd]. cbn [node_next].
    assert (q_head q ≠ q_tail q) as Hht by (intros Heq; apply last_Some_elem_of in Ht; rewrite <-Heq in Ht; done).
    rewrite (proj2 (Z.eqb_neq _ _) Hht), (proj2 (Z.eqb_neq _ _) Ha). cbn [negb].
    assert (q_head q ≠ a) as Hne by set_solver. rewrite lookup_delete_ne, Hm by done.
    eexists. split; [done|]. split; [done|]. split; simpl; try done.
    + destruct r as [|[b y] r]; simpl in *.
      * exists None. rewrite lookup_insert_eq. destruct Hp as [d' Hd']. congruence.
      * destruct Hp as ([d' Hd'] & Hb & [nx' Hm'] & Hp). rewrite lookup_insert_eq. split; [exists None; congruence|].
        apply NoDup_cons in Hnd as [Hab Hnd]. assert (a ≠ b) by set_solver. assert (q_head q ≠ b) by set_solver.
        split; [done|]. rewrite lookup_insert_ne, lookup_delete_ne by done. split; [eauto|].
        eapply path_frame; [|exact Hp]. intros c Hc. rewrite lookup_insert_ne, lookup_delete_ne by set_solver. done.
    + unfold addrs. simpl. rewrite dom_insert_L, dom_delete_L, Hd. set_solver.
    + rewrite Hl. unfold wrap64. rewrite Zminus_mod_idemp_l. f_equal. lia.
Qed.

(** Dropping the queue frees every node. *)
Lemma lfq_drop_ok q ads k :
  lfq_ok q ads → (length ads < k)%nat → LockFreeQueue.drop k q = Ret ∅.
Proof.
  unfold LockFreeQueue.drop. revert q ads. induction k as [|k IH]; intros q ads Hok Hk; [lia|].
  cbn [LockFreeQueue.drain]. pose proof (lfq_pop_ok q ads 1 Hok ltac:(lia)) as Hpop. destruct ads as [|[a x] r].
  - rewrite Hpop. cbn [obind]. rewrite (proj2 (Z.eqb_neq _ _) (lq_head _ _ Hok)). cbn [negb].
    f_equal. apply map_eq. intros i. rewrite lookup_empty. destruct (decide (i = q_head q)) as [->|Hne].
    + by rewrite lookup_delete_eq.
    + rewrite lookup_delete_ne by done. apply not_elem_of_dom. rewrite (lq_dom _ _ Hok). unfold addrs. set_solver.
  - destruct Hpop as (q' & -> & _ & Hok'). cbn [obind]. apply (IH q' r Hok'). simpl in Hk. lia.
Qed.
End lfq.

(** * Properties of the lock-free structures *)

(** C10. The ring buffer between one producer and one consumer, under every
    interleaving of their single accesses: what was popped is always a prefix
    of what was pushed, so items come out in order, none twice and none lost;
    at most [N - 1] of them are inside; no access panics; a push is refused
    only when [N - 1] items are inside, and a pop comes back empty-handed only
    when none is. *)
Theorem ring_buffer_spsc {T} (N : Z) (w : rb_world T) :
  0 < N <= 4294967296 → rtc (rb_step N) (rb_init N) w →
  ∃ q, w_pushed w = w_popped w ++ q ∧ Z.of_nat (length q) <= N - 1 ∧
    (∀ p, w_prod w = Some p → ∃ c' r', RingBuffer.push_step N p (w_ring w) = Ret (c', r') ∧
       ∀ item, c' = inr (Err item) → Z.of_nat (length q) = N - 1) ∧
    (∀ c, w_cons w = Some c → ∃ c' r', RingBuffer.pop_step N c (w_ring w) = Ret (c', r') ∧
       (c' = inr None → q = []) ∧ (∀ x, c' = inr (Some x) → head q = Some x)).
Proof.
  intros HN Hrun. destruct (rb_run_inv N HN w Hrun) as [q Hi]. exists q.
  split; [apply Hi|]. split; [pose proof (ri_bound _ _ _ Hi); lia|]. destruct w as [r p c us os]. split; simpl.
  - intros p' ->. pose proof (push_step_inv N HN _ _ _ _ _ _ Hi) as Hp.
    destruct p' as [i|i t|i t nt|i nt]; [|case_decide|..]; eexists _, _; (split; [exact Hp|]); naive_solver.
  - intros c' ->. pose proof (tail_head_eq N HN r q (ri_head _ _ _ Hi) (ri_bound _ _ _ Hi) (ri_tail _ _ _ Hi)) as Hiff.
    destruct c' as [|h|h|h it].
    + by eexists _, _.
    + pose proof (ri_cons _ _ _ Hi) as Hh. simpl in Hh |- *. subst h.
      destruct (Z.eqb_spec (rb_head r) (rb_tail r)); eexists _, _; (split; [reflexivity|]); naive_solver.
    + destruct (pop_take_inv N HN _ _ _ _ _ _ Hi) as (x & q' & buf & _ & Heq & _). eexists _, _. by split.
    + destruct (pop_store_inv N HN _ _ _ _ _ _ _ Hi) as (x & q' & -> & -> & Heq & _). eexists _, _.
      split; [exact Heq|]. naive_solver.
Qed.

Lemma ring_buffer_spsc_witness :
  ∃ w : rb_world Z, rtc (rb_step 4) (rb_init 4) w ∧ w_pushed w = [7] ∧
    ∃ q, w_pushed w = w_popped w ++ q ∧ Z.of_nat (length q) <= 3.
Proof.
  assert (∃ w : rb_world Z, rtc (rb_step 4) (rb_init 4) w ∧ w_pushed w = [7]) as (w & Hrun & Hw).
  { eexists. split.
    - eapply rtc_l; [apply (rb_start_push 4 _ _ 7)|].
      do 3 (eapply rtc_l; [eapply rb_push; reflexivity|]). eapply rtc_l; [eapply rb_push_done; reflexivity|]. apply rtc_refl.
    - reflexivity. }
  exists w. split; [exact Hrun|]. split; [exact Hw|].
  destruct (ring_buffer_spsc 4 w ltac:(lia) Hrun) as (q & Hq & Hb & _). exists q. split; [exact Hq|lia].
Defined.

(** C37. The sequence lock with one writer at a time and any number of readers,
    both word by word: whatever the interleaving, as long as the sequence has not
    wrapped around, a read that returns gives the argument of the last call of
    write that was over when it returned (the initial value before the first),
    all words of it and never a mixture of two, and that is what the lock's memory
    holds; between two writes the memory holds the argument of the last one. The
    words are copied in order, one access each, in a sequentially consistent
    memory. *)
Theorem seqlock_read_consistent n data w :
  length data = n → sl_run n (sl_init data) w → sl_count w < U64_MAX →
  (∀ res w' x, sl_step n w res w' → res = Some x → x = sl_value w ∧ sl_data (sl_lock w) = x) ∧
  (sl_writer w = SeqLock.WOut → sl_data (sl_lock w) = sl_value w).
Proof.
  intros Hn Hrun Hmax. pose proof (sl_run_inv n data w Hn Hrun Hmax) as Hi.
  pose proof (si_writer _ _ Hi) as Hw. split.
  - intros res w' x Hstep Hres. destruct (sl_step_inv n w res w' Hstep Hi Hmax) as [_ Hx].
    destruct (Hx x Hres) as [-> He]. split; [done|].
    destruct (sl_writer w); simpl in Hw; [tauto|tauto|]. destruct Hw as (He' & _). congruence.
  - intros Ho. rewrite Ho in Hw. apply Hw.
Qed.

(** From the value [1; 2], a call of [write] with [5; 6] runs to its end and a
    reader then copies both words: it gets the argument. *)
Lemma seqlock_read_consistent_witness :
  ∃ w w', sl_run 2 (sl_init [1; 2]) w ∧ sl_step 2 w (Some [5; 6]) w' ∧
    sl_value w = [5; 6] ∧ sl_data (sl_lock w) = [5; 6].
Proof.
  assert (∃ w w', sl_run 2 (sl_init [1; 2]) w ∧ sl_count w = 2 ∧ sl_step 2 w (Some [5; 6]) w') as (w & w' & Hrun & Hc & Hs).
  { eexists _, _. split; [|split].
    - eapply rtc_l; [eexists; apply (sl_start_write 2 _ _ _ _ _ [5; 6] eq_refl)|].
      do 4 (eapply rtc_l; [eexists; eapply sl_write; reflexivity|]).
      do 3 (eapply rtc_l; [eexists; eapply (sl_read 2 _ _ _ _ _ _ 0%nat); reflexivity|]). apply rtc_refl.
    - reflexivity.
    - eapply (sl_read 2 _ _ _ _ _ _ 0%nat); reflexivity. }
  destruct (seqlock_read_consistent 2 [1; 2] w eq_refl Hrun ltac:(rewrite Hc; done)) as [Hread _].
  destruct (Hread _ _ _ Hs eq_refl) as [Hv Hd].
  exists w, w'. split; [exact Hrun|]. split; [exact Hs|]. split; [symmetry; exact Hv|exact Hd].
Defined.

(** The linked queue, for callers nobody interrupts: [push] appends, [pop]
    takes the oldest item or reports an empty queue, both in one turn of their
    loops and without touching a node that was freed, and [drop] frees every
    node. *)
Theorem lockfree_queue_fifo {T} (q : LockFreeQueue T) ads node x fuel :
  lfq_ok q ads → node ∉ dom (q_nodes q) → node ≠ 0 → (0 < fuel)%nat →
  (∃ q', LockFreeQueue.push fuel node q x = Ret q' ∧ lfq_ok q' (ads ++ [(node, x)])) ∧
  match ads with
  | [] => LockFreeQueue.pop fuel q = Ret (None, q)
  | (a, y) :: r => ∃ q', LockFreeQueue.pop fuel q = Ret (Some y, q') ∧ lfq_ok q' r
  end ∧
  LockFreeQueue.drop (S (length ads)) q = Ret ∅.
Proof.
  intros Hok Hn H0 Hf. split; [|split].
  - destruct (lfq_push_ok q ads fuel node x Hok Hn H0 Hf) as (q' & ? & _ & ?). eauto.
  - pose proof (lfq_pop_ok q ads fuel Hok Hf) as Hp. destruct ads as [|[a y] r]; [done|].
    destruct Hp as (q' & ? & _ & ?). eauto.
  - by apply (lfq_drop_ok q ads); [|lia].
Qed.

Lemma lockfree_queue_fifo_witness :
  ∃ q' : LockFreeQueue Z, LockFreeQueue.push 1 200 (LockFreeQueue.new 100) 5 = Ret q' ∧ lfq_ok q' [(200, 5)].
Proof.
  destruct (lockfree_queue_fifo (LockFreeQueue.new (T := Z) 100) [] 200 5 1) as [H _].
  - by apply lfq_new_ok.
  - simpl. rewrite dom_singleton_L. set_solver.
  - lia.
  - lia.
  - exact H.
Defined.

(** A producer that has loaded the tail of an empty queue holds the address of a
    node that one push and one pop of others free. *)
Lemma queue_tail_can_be_freed {T} (q : LockFreeQueue T) node x :
  lfq_ok q [] → node ∉ dom (q_nodes q) → node ≠ 0 →
  ∃ q1 q2, LockFreeQueue.push 1 node q x = Ret q1 ∧ LockFreeQueue.pop 1 q1 = Ret (Some x, q2) ∧
    q_nodes q2 !! q_tail q = None.
Proof.
  intros Hok Hn H0. destruct (lfq_push_ok q [] 1 node x Hok Hn H0) as (q1 & Hp & _ & Hok1); [lia|].
  destruct (lfq_pop_ok q1 _ 1 Hok1) as (q2 & Hq & Hh & Hok2); [lia|]. exists q1, q2. split; [done|]. split; [done|].
  apply not_elem_of_dom. rewrite (lq_dom _ _ Hok2). rewrite (lq_dom _ _ Hok) in Hn.
  pose proof (lq_tail _ _ Hok) as Ht. unfold addrs in *. simpl in *. injection Ht as <-. rewrite Hh. set_solver.
Qed.
