(* ===== verification/Rt.v ===== *)
(** * Real-time primitives (mielin-kernel/src/rt.rs)

    The mutex with priority inheritance, the priority-ceiling mutex and the
    earliest-deadline-first scheduler.  The mutexes reach the scheduler through
    the interface [TaskPriorities], which the global scheduler implements.

    [lock] of a mutex that is taken spins: [lock_enter] is its part up to the
    loop and [lock_spin] one turn of the loop, so that a run interleaves them
    with the other tasks. *)

From stdpp Require Import base tactics option list numbers.
From Stdlib Require Import SpecFloat.
From S2P Require Import Prelude Float Errors Scheduler.

(** ** What the mutexes need of the scheduler *)

Class TaskPriorities (S : Type) : Type := {
  (* get_task_priority and set_task_priority of the scheduler *)
  tp_get : S → Z → result Z KernelError;
  tp_set : S → Z → Z → result unit KernelError * S;
}.

#[export] Instance global_priorities : TaskPriorities Global.global := {|
  tp_get := Global.get_task_priority;
  tp_set := Global.set_task_priority;
|}.

(** [usize::MAX], no owner. *)
Abbreviation NO_OWNER := U64_MAX (only parsing).

(** ** Priority inheritance *)

(* src: mielin-kernel/src/rt.rs 43-63 RtMutex *)
Record RtMutex : Type := mkRtMutex {
  rt_id : Z;
  owner : Z;
  original_priority : Z;
  boosted_priority : Z;
  locked : bool;
  waiters_count : Z;
  waiters : list (Z * Z);
  lock_count : Z;
  unlock_count : Z;
  inversions_prevented : Z;
}.

(* src: mielin-kernel/src/rt.rs 230-236 RtMutexStats *)
Record RtMutexStats : Type := mkRtStats {
  rs_id : Z;
  rs_lock_count : Z;
  rs_unlock_count : Z;
  rs_inversions_prevented : Z;
  rs_current_waiters : Z;
}.

(** How far [lock] got before its loop. *)
Inductive lock_entry : Type :=
| Acquired
| Waiting (task_priority : Z)
| Failed (e : KernelError).

Module RtMutex.
Section rt.
Context {S : Type} `{TaskPriorities S}.

(* src: mielin-kernel/src/rt.rs 461-464 get_task_priority *)
Definition get_task_priority (s : S) (task_id : Z) : result Z KernelError := tp_get s task_id.
(* src: mielin-kernel/src/rt.rs 467-469 boost_task_priority *)
Definition boost_task_priority (s : S) (task_id new_priority : Z) : result unit KernelError * S :=
  tp_set s task_id new_priority.
(* src: mielin-kernel/src/rt.rs 472-474 restore_task_priority *)
Definition restore_task_priority (s : S) (task_id original_priority : Z) : result unit KernelError * S :=
  tp_set s task_id original_priority.

(* src: mielin-kernel/src/rt.rs 67-80 RtMutex::new *)
Definition new (id : Z) : RtMutex := mkRtMutex id NO_OWNER 0 0 false 0 [] 0 0 0.

(** Taking the lock: the flag, the owner and the count. *)
Definition take (task_id : Z) (m : RtMutex) : RtMutex :=
  mkRtMutex (rt_id m) task_id (original_priority m) (boosted_priority m) true (waiters_count m)
    (waiters m) (wrap64 (lock_count m + 1)) (unlock_count m) (inversions_prevented m).

Definition set_priorities (orig boost : Z) (m : RtMutex) : RtMutex :=
  mkRtMutex (rt_id m) (owner m) orig boost (locked m) (waiters_count m)
    (waiters m) (lock_count m) (unlock_count m) (inversions_prevented m).

(* src: mielin-kernel/src/rt.rs 85-129 RtMutex::lock *)
Definition lock_enter (m : RtMutex) (s : S) (task_id : Z) : lock_entry * RtMutex * S :=
  if negb (locked m) then
    let m1 := take task_id m in
    match get_task_priority s task_id with
    | Err e => (Failed e, m1, s)
    | Ok task_priority => (Acquired, set_priorities task_priority task_priority m1, s)
    end
  else
    match get_task_priority s task_id with
    | Err e => (Failed e, m, s)
    | Ok task_priority =>
      let m1 := mkRtMutex (rt_id m) (owner m) (original_priority m) (boosted_priority m) (locked m)
                  (wrap64 (waiters_count m + 1)) (waiters m ++ [(task_id, task_priority)])
                  (lock_count m) (unlock_count m) (inversions_prevented m) in
      let owner_id := owner m1 in
      if negb (owner_id =? NO_OWNER) && (boosted_priority m1 <? task_priority) then
        let m2 := set_priorities (original_priority m1) task_priority m1 in
        match boost_task_priority s owner_id task_priority with
        | (Err e, s') => (Failed e, m2, s')
        | (Ok _, s') =>
          (Waiting task_priority,
           mkRtMutex (rt_id m2) (owner m2) (original_priority m2) (boosted_priority m2) (locked m2)
             (waiters_count m2) (waiters m2) (lock_count m2) (unlock_count m2)
             (wrap64 (inversions_prevented m2 + 1)), s')
        end
      else (Waiting task_priority, m1, s)
    end.

(** One turn of the loop of a waiting task; [true] when it has the lock. *)
(* src: mielin-kernel/src/rt.rs 132-159 RtMutex::lock *)
Definition lock_spin (m : RtMutex) (task_id task_priority : Z) : bool * RtMutex :=
  if negb (locked m) then
    let m1 := take task_id m in
    (true,
     mkRtMutex (rt_id m1) (owner m1) task_priority task_priority (locked m1)
       (wrap64 (waiters_count m1 - 1)) (filter (λ w, w.1 ≠ task_id) (waiters m1))
       (lock_count m1) (unlock_count m1) (inversions_prevented m1))
  else (false, m).

(** [waiters.iter().map(|(_, p)| *p).max().unwrap_or(0)]. *)
Definition max_waiter (ws : list (Z * Z)) : Z := foldr (λ w acc, Z.max w.2 acc) 0 ws.

(* src: mielin-kernel/src/rt.rs 162-195 RtMutex::unlock *)
Definition unlock (m : RtMutex) (s : S) (task_id : Z) : result unit KernelError * RtMutex * S :=
  if negb (owner m =? task_id) then (Err (TaskNotFound task_id), m, s) else
  let original := original_priority m in
  let release s :=
    (Ok tt,
     mkRtMutex (rt_id m) NO_OWNER 0 (max_waiter (waiters m)) false (waiters_count m)
       (waiters m) (lock_count m) (wrap64 (unlock_count m + 1)) (inversions_prevented m), s) in
  if original <? boosted_priority m then
    match restore_task_priority s task_id original with
    | (Err e, s') => (Err e, m, s')
    | (Ok _, s') => release s'
    end
  else release s.

(* src: mielin-kernel/src/rt.rs 198-200 RtMutex::is_locked *)
Definition is_locked (m : RtMutex) : bool := locked m.

(* src: mielin-kernel/src/rt.rs 203-210 RtMutex::get_owner *)
Definition get_owner (m : RtMutex) : option Z := if owner m =? NO_OWNER then None else Some (owner m).

(* src: mielin-kernel/src/rt.rs 213-221 RtMutex::get_stats *)
Definition get_stats (m : RtMutex) : RtMutexStats :=
  mkRtStats (rt_id m) (lock_count m) (unlock_count m) (inversions_prevented m) (waiters_count m).

End rt.
End RtMutex.

(** ** Priority ceiling *)

(* src: mielin-kernel/src/rt.rs 246-256 PcpMutex *)
Record PcpMutex : Type := mkPcp {
  ceiling : Z;
  pcp_owner : Z;
  pcp_locked : bool;
  pcp_lock_count : Z;
  pcp_unlock_count : Z;
}.

Module PcpMutex.
Section pcp.
Context {S : Type} `{TaskPriorities S}.

(* src: mielin-kernel/src/rt.rs 260-268 PcpMutex::new *)
Definition new (ceiling : Z) : PcpMutex := mkPcp ceiling NO_OWNER false 0 0.

(** The check before the loop. *)
(* src: mielin-kernel/src/rt.rs 273-280 PcpMutex::lock *)
Definition lock_check (m : PcpMutex) (s : S) (task_id : Z) : result unit KernelError :=
  match tp_get s task_id with
  | Err e => Err e
  | Ok task_priority => if task_priority <? ceiling m then Err (TaskNotFound task_id) else Ok tt
  end.

(** One turn of the loop. *)
(* src: mielin-kernel/src/rt.rs 282-294 PcpMutex::lock *)
Definition lock_spin (m : PcpMutex) (task_id : Z) : bool * PcpMutex :=
  if negb (pcp_locked m)
  then (true, mkPcp (ceiling m) task_id true (wrap64 (pcp_lock_count m + 1)) (pcp_unlock_count m))
  else (false, m).

(* src: mielin-kernel/src/rt.rs 297-308 PcpMutex::unlock *)
Definition unlock (m : PcpMutex) (task_id : Z) : result unit KernelError * PcpMutex :=
  if negb (pcp_owner m =? task_id) then (Err (TaskNotFound task_id), m)
  else (Ok tt, mkPcp (ceiling m) NO_OWNER false (pcp_lock_count m) (wrap64 (pcp_unlock_count m + 1))).

(* src: mielin-kernel/src/rt.rs 311-313 PcpMutex::get_ceiling *)
Definition get_ceiling (m : PcpMutex) : Z := ceiling m.

End pcp.
End PcpMutex.

(** ** Earliest deadline first *)

(* src: mielin-kernel/src/rt.rs 322-333 DeadlineParams *)
Record DeadlineParams : Type := mkDeadline {
  task_id : Z;
  period_us : Z;
  wcet_us : Z;
  deadline_us : Z;
  absolute_deadline_us : Z;
}.

Module DeadlineParams.

(* src: mielin-kernel/src/rt.rs 337-345 DeadlineParams::new *)
Definition new (task_id period_us wcet_us deadline_us : Z) : DeadlineParams :=
  mkDeadline task_id period_us wcet_us deadline_us 0.

(* src: mielin-kernel/src/rt.rs 348-350 DeadlineParams::is_valid *)
Definition is_valid (p : DeadlineParams) : bool :=
  (deadline_us p <=? period_us p) && (wcet_us p <=? deadline_us p).

(* src: mielin-kernel/src/rt.rs 353-355 DeadlineParams::utilization *)
Definition utilization (p : DeadlineParams) : spec_float :=
  f64_div (f64_of_u64 (wcet_us p)) (f64_of_u64 (period_us p)).

End DeadlineParams.

(* src: mielin-kernel/src/rt.rs 362-371 EdfScheduler *)
Record EdfScheduler : Type := mkEdf {
  max_tasks : Z;
  edf_tasks : list DeadlineParams;
  total_utilization : spec_float;
  deadline_misses : Z;
}.

Module EdfScheduler.

(* src: mielin-kernel/src/rt.rs 375-382 EdfScheduler::new *)
Definition new (max_tasks : Z) : EdfScheduler := mkEdf max_tasks [] (f64_of_u64 0) 0.

(* src: mielin-kernel/src/rt.rs 387-409 EdfScheduler::add_task *)
Definition add_task (self : EdfScheduler) (params : DeadlineParams)
    : result unit KernelError * EdfScheduler :=
  if negb (DeadlineParams.is_valid params) then (Err InvalidPageCount, self) else
  if max_tasks self <=? Z.of_nat (length (edf_tasks self)) then (Err TaskSpawnFailed, self) else
  let new_util := f64_add (total_utilization self) (DeadlineParams.utilization params) in
  if SFltb f64_one new_util then (Err InvalidPageCount, self)
  else (Ok tt, mkEdf (max_tasks self) (edf_tasks self ++ [params]) new_util (deadline_misses self)).

(** [iter().min_by_key(..)]: the first of the smallest. *)
Fixpoint min_deadline (best : DeadlineParams) (l : list DeadlineParams) : DeadlineParams :=
  match l with
  | [] => best
  | t :: l' =>
    min_deadline (if absolute_deadline_us t <? absolute_deadline_us best then t else best) l'
  end.

(* src: mielin-kernel/src/rt.rs 412-418 EdfScheduler::schedule *)
Definition schedule (self : EdfScheduler) : option Z :=
  match edf_tasks self with
  | [] => None
  | t :: l => Some (task_id (min_deadline t l))
  end.

(** [iter_mut().find(..)] with the new deadline of the first match. *)
Fixpoint release_first (id now : Z) (l : list DeadlineParams) : outcome (option (list DeadlineParams)) :=
  match l with
  | [] => Ret None
  | t :: l' =>
    if task_id t =? id then
      let! d := usize_add now (deadline_us t) in
      Ret (Some (mkDeadline (task_id t) (period_us t) (wcet_us t) (deadline_us t) d :: l'))
    else
      let! r := release_first id now l' in
      Ret (cons t <$> r)
  end.

(* src: mielin-kernel/src/rt.rs 421-431 EdfScheduler::release_task *)
Definition release_task (self : EdfScheduler) (id current_time_us : Z)
    : outcome (result unit KernelError * EdfScheduler) :=
  let! r := release_first id current_time_us (edf_tasks self) in
  match r with
  | None => Ret (Err (TaskNotFound id), self)
  | Some ts => Ret (Ok tt, mkEdf (max_tasks self) ts (total_utilization self) (deadline_misses self))
  end.

(* src: mielin-kernel/src/rt.rs 434-443 EdfScheduler::check_deadline *)
Definition check_deadline (self : EdfScheduler) (id current_time_us : Z) : bool * EdfScheduler :=
  match list_find (λ t, task_id t = id) (edf_tasks self) with
  | Some (_, task) =>
    if absolute_deadline_us task <? current_time_us
    then (true, mkEdf (max_tasks self) (edf_tasks self) (total_utilization self)
                  (wrap64 (deadline_misses self + 1)))
    else (false, self)
  | None => (false, self)
  end.

(* src: mielin-kernel/src/rt.rs 446-448 EdfScheduler::get_utilization *)
Definition get_utilization (self : EdfScheduler) : spec_float := total_utilization self.

(* src: mielin-kernel/src/rt.rs 451-453 EdfScheduler::get_deadline_misses *)
Definition get_deadline_misses (self : EdfScheduler) : Z := deadline_misses self.

End EdfScheduler.
