(* ===== verification/RtProps.v ===== *)
(** * Properties of the real-time primitives

    The laws the mutexes expect of the scheduler, which the global scheduler
    satisfies, runs of a mutex with priority inheritance, and the
    earliest-deadline-first scheduler. *)

From stdpp Require Import base tactics option list numbers relations.
From Stdlib Require Import SpecFloat.
From S2P Require Import Prelude Float Errors Scheduler SchedulerInv Rt.

(** ** The interface to the scheduler *)

Class TaskPrioritiesLaws (S : Type) `{TaskPriorities S} : Prop := {
  tp_set_get s i p s' :
    tp_set s i p = (Ok tt, s') → tp_get s' i = Ok p ∧ ∀ j, j ≠ i → tp_get s' j = tp_get s j;
  tp_set_total s i p q :
    tp_get s i = Ok q → ∃ s', tp_set s i p = (Ok tt, s');
}.

#[export] Instance global_priorities_laws : TaskPrioritiesLaws Global.global.
Proof.
  split; simpl; intros [s|] i p; simpl; try done.
  - intros s'. pose proof (set_task_priority_spec s i p) as Hs.
    destruct (Scheduler.set_task_priority s i p) as [[[]|e] s1]; intros [= <-].
    destruct Hs as (Hi & Hj & _). split; [exact Hi|]. intros j Hne. specialize (Hj j Hne).
    unfold Scheduler.get_task in Hj. simpl. unfold Scheduler.get_task_priority. by rewrite Hj.
  - intros q Hq. pose proof (set_task_priority_spec s i p) as Hs.
    destruct (Scheduler.set_task_priority s i p) as [[[]|e] s1]; [eauto|].
    destruct Hs as (_ & _ & Hn). simpl in Hq. congruence.
Qed.

(** ** Runs of a mutex with priority inheritance *)

Section rt_runs.
Context {S : Type} `{TaskPrioritiesLaws S}.
(** The tasks and their own priorities. *)
Context (task : Z → Prop) (base : Z → Z).

(** The mutex, the scheduler, the tasks in the loop of [lock] with the priority
    they read, and the priorities of those that came since the lock was taken. *)
Record rt_world : Type := mkRtWorld {
  rw_mutex : RtMutex;
  rw_sched : S;
  rw_waiting : list (Z * Z);
  rw_came : list Z;
}.

(** A task that is neither holding nor waiting asks for the lock, a waiting task
    tries again, the holder lets go. *)
Inductive rt_step : relation rt_world :=
| rt_acquire m s ws cs t m' s' :
    task t → t ∉ ws.*1 → owner m ≠ t → RtMutex.lock_enter m s t = (Acquired, m', s') →
    rt_step (mkRtWorld m s ws cs) (mkRtWorld m' s' ws [])
| rt_wait m s ws cs t p m' s' :
    task t → t ∉ ws.*1 → owner m ≠ t → RtMutex.lock_enter m s t = (Waiting p, m', s') →
    rt_step (mkRtWorld m s ws cs) (mkRtWorld m' s' ((t, p) :: ws) (cs ++ [p]))
| rt_retry m s ws1 t p ws2 cs m' :
    RtMutex.lock_spin m t p = (true, m') →
    rt_step (mkRtWorld m s (ws1 ++ (t, p) :: ws2) cs) (mkRtWorld m' s (ws1 ++ ws2) [])
| rt_unlock m s ws cs t m' s' :
    task t → RtMutex.unlock m s t = (Ok tt, m', s') →
    rt_step (mkRtWorld m s ws cs) (mkRtWorld m' s' ws []).

Record rt_ok (w : rt_world) : Prop := {
  ro_owner : if locked (rw_mutex w)
             then task (owner (rw_mutex w)) ∧ original_priority (rw_mutex w) = base (owner (rw_mutex w)) ∧
                  boosted_priority (rw_mutex w) = foldr Z.max (original_priority (rw_mutex w)) (rw_came w)
             else owner (rw_mutex w) = U64_MAX;
  ro_prio : ∀ t, task t → tp_get (rw_sched w) t =
    Ok (if locked (rw_mutex w) && (t =? owner (rw_mutex w)) then boosted_priority (rw_mutex w) else base t);
  ro_wait : ∀ t p, (t, p) ∈ rw_waiting w → task t ∧ p = base t ∧ (locked (rw_mutex w) = true → t ≠ owner (rw_mutex w));
  ro_nodup : NoDup (rw_waiting w).*1;
}.

Context (Htask : ∀ t, task t → t ≠ U64_MAX).

Lemma foldr_max_snoc x l p : foldr Z.max x (l ++ [p]) = Z.max p (foldr Z.max x l).
Proof. induction l as [|y l IH]; simpl; [done|]. rewrite IH. lia. Qed.

Lemma foldr_max_ge x l : x <= foldr Z.max x l ∧ ∀ p, p ∈ l → p <= foldr Z.max x l.
Proof.
  induction l as [|y l [IH1 IH2]]; simpl; [split; [lia|set_solver]|].
  split; [lia|]. intros p [->|Hp]%elem_of_cons; [lia|]. specialize (IH2 p Hp). lia.
Qed.

Lemma rt_acquire_ok m s ws cs t m' s' :
  rt_ok (mkRtWorld m s ws cs) → task t → t ∉ ws.*1 →
  RtMutex.lock_enter m s t = (Acquired, m', s') → rt_ok (mkRtWorld m' s' ws []).
Proof.
  intros [Ho Hp Hw Hn] Ht Hnt. simpl in *. unfold RtMutex.lock_enter, RtMutex.get_task_priority.
  destruct (locked m) eqn:Hl; cbn [negb].
  { rewrite (Hp t Ht). repeat case_match; naive_solver. }
  rewrite (Hp t Ht). cbn [andb]. intros [= <- <-]. split; simpl.
  - done.
  - intros u Hu. rewrite (Hp u Hu). cbn [andb]. destruct (Z.eqb_spec u t); [by subst|done].
  - intros u p Hup. destruct (Hw u p Hup) as (? & ? & _). split_and!; try done. intros _ ->.
    apply Hnt, list_elem_of_fmap. by exists (t, p).
  - done.
Qed.

Lemma rt_wait_ok m s ws cs t p m' s' :
  rt_ok (mkRtWorld m s ws cs) → task t → t ∉ ws.*1 → owner m ≠ t →
  RtMutex.lock_enter m s t = (Waiting p, m', s') → rt_ok (mkRtWorld m' s' ((t, p) :: ws) (cs ++ [p])).
Proof.
  intros [Ho Hp Hw Hn] Ht Hnt Hot. simpl in *. unfold RtMutex.lock_enter, RtMutex.get_task_priority.
  destruct (locked m) eqn:Hl; cbn [negb]; [|rewrite (Hp t Ht); naive_solver].
  destruct Ho as (Hto & Horig & Hboost). rewrite (Hp t Ht). cbn [andb].
  rewrite (proj2 (Z.eqb_neq t (owner m))) by done. cbn [boosted_priority owner].
  rewrite (proj2 (Z.eqb_neq (owner m) U64_MAX)) by auto. cbn [negb andb].
  assert (∀ u q, (u, q) ∈ (t, base t) :: ws → task u ∧ q = base u ∧ (true = true → u ≠ owner m)) as Hw'.
  { intros u q [[= -> ->]|Hin]%elem_of_cons; [done|by apply Hw]. }
  assert (NoDup ((t, base t) :: ws).*1) as Hn' by (by apply NoDup_cons).
  destruct (Z.ltb_spec (boosted_priority m) (base t)) as [Hlt|Hge].
  - unfold RtMutex.boost_task_priority. specialize (Hp (owner m) Hto) as Hpo. rewrite Z.eqb_refl in Hpo.
    destruct (tp_set_total s (owner m) (base t) _ Hpo) as [s1 Hs1]. rewrite Hs1. intros [= <- <- <-].
    destruct (tp_set_get _ _ _ _ Hs1) as [Hi Hj]. split; simpl; try done.
    + rewrite ?Hl. split_and!; [done|done|]. rewrite foldr_max_snoc, <-Hboost. lia.
    + intros u Hu. rewrite ?Hl. cbn [andb]. destruct (Z.eqb_spec u (owner m)) as [->|Hne]; [done|].
      rewrite Hj, (Hp u Hu) by done. by rewrite (proj2 (Z.eqb_neq u (owner m))) by done.
  - intros [= <- <- <-]. split; simpl; try done; rewrite ?Hl; try done.
    split_and!; [done|done|]. rewrite foldr_max_snoc, <-Hboost. lia.
Qed.

Lemma rt_retry_ok m s ws1 t p ws2 cs m' :
  rt_ok (mkRtWorld m s (ws1 ++ (t, p) :: ws2) cs) → RtMutex.lock_spin m t p = (true, m') →
  rt_ok (mkRtWorld m' s (ws1 ++ ws2) []).
Proof.
  intros [Ho Hp Hw Hn]. simpl in *. unfold RtMutex.lock_spin. destruct (locked m) eqn:Hl; [done|]. intros [= <-].
  destruct (Hw t p) as (Ht & -> & _); [set_solver|].
  rewrite fmap_app, fmap_cons in Hn. cbn [fst] in Hn. rewrite <-Permutation_middle in Hn. apply NoDup_cons in Hn as [Hnt Hn].
  split; simpl.
  - done.
  - intros u Hu. rewrite (Hp u Hu). cbn [andb]. destruct (Z.eqb_spec u t); [by subst|done].
  - intros u q Hin. destruct (Hw u q) as (? & ? & _); [set_solver|]. split_and!; try done. intros _ ->.
    apply Hnt. rewrite <-fmap_app. apply list_elem_of_fmap. by exists (t, q).
  - by rewrite fmap_app.
Qed.

Lemma rt_unlock_ok m s ws cs t m' s' :
  rt_ok (mkRtWorld m s ws cs) → task t → RtMutex.unlock m s t = (Ok tt, m', s') →
  rt_ok (mkRtWorld m' s' ws []).
Proof.
  intros [Ho Hp Hw Hn] Ht. simpl in *. unfold RtMutex.unlock, RtMutex.restore_task_priority.
  destruct (Z.eqb_spec (owner m) t) as [Hot|]; [|done]. cbn [negb].
  destruct (locked m) eqn:Hl; [|by destruct (Htask t Ht); rewrite <-Hot].
  destruct Ho as (Hto & Horig & Hboost). rewrite Hot in *.
  assert (∀ u q, (u, q) ∈ ws → task u ∧ q = base u ∧ (false = true → u ≠ U64_MAX)) as Hw'.
  { intros u q Hin. destruct (Hw u q Hin) as (? & ? & _). done. }
  pose proof (foldr_max_ge (original_priority m) cs) as [Hge _]. rewrite <-Hboost in Hge.
  destruct (Z.ltb_spec (original_priority m) (boosted_priority m)) as [Hlt|Hle].
  - pose proof (Hp t Ht) as Hpo. destruct (tp_set_total s t (original_priority m) _ Hpo) as [s1 Hs1]. rewrite Hs1.
    destruct (tp_set_get _ _ _ _ Hs1) as [Hi Hj]. intros [= <- <-]. split; simpl; try done.
    intros u Hu. destruct (decide (u = t)) as [->|Hne]; [by rewrite Hi, Horig|].
    rewrite Hj, (Hp u Hu) by done. by rewrite (proj2 (Z.eqb_neq u t)) by done.
  - intros [= <- <-]. split; simpl; try done. intros u Hu. rewrite (Hp u Hu). cbn [andb].
    destruct (Z.eqb_spec u t) as [->|]; [|done]. f_equal. lia.
Qed.

Lemma rt_step_ok w w' : rt_step w w' → rt_ok w → rt_ok w'.
Proof.
  destruct 1; intros Hok; [by eapply rt_acquire_ok|by eapply rt_wait_ok|by eapply rt_retry_ok|by eapply rt_unlock_ok].
Qed.

Lemma rt_new_ok mid s :
  (∀ t, task t → tp_get s t = Ok (base t)) → rt_ok (mkRtWorld (RtMutex.new mid) s [] []).
Proof. intros Hs. split; simpl; [done|done|set_solver|constructor]. Qed.

(** Priority inheritance, over every run of a mutex in which tasks ask for
    the lock, wait for it, take it over and let go of it in any order: when the
    mutex is free every task has its own priority; while it is held exactly one
    task's priority is changed, the holder's, to the largest of its own and of
    those of the tasks that started waiting since it took the lock; and a task
    that waits is never the holder. *)
Theorem rt_mutex_inheritance mid s w :
  (∀ t, task t → tp_get s t = Ok (base t)) →
  rtc rt_step (mkRtWorld (RtMutex.new mid) s [] []) w →
  if RtMutex.is_locked (rw_mutex w) then
    ∃ o, RtMutex.get_owner (rw_mutex w) = Some o ∧ task o ∧
      tp_get (rw_sched w) o = Ok (foldr Z.max (base o) (rw_came w)) ∧
      (∀ p, p ∈ rw_came w → p <= foldr Z.max (base o) (rw_came w)) ∧
      (∀ t, task t → t ≠ o → tp_get (rw_sched w) t = Ok (base t)) ∧
      o ∉ (rw_waiting w).*1
  else RtMutex.get_owner (rw_mutex w) = None ∧
       ∀ t, task t → tp_get (rw_sched w) t = Ok (base t).
Proof.
  intros Hs Hrun. assert (rt_ok w) as [Ho Hp Hw _].
  { remember (mkRtWorld _ _ _ _) as w0 eqn:E. assert (rt_ok w0) as Hw0 by (subst; by apply rt_new_ok).
    clear E. induction Hrun as [|??? Hst _ IH]; [done|]. apply IH. by eapply rt_step_ok. }
  unfold RtMutex.is_locked, RtMutex.get_owner. destruct (locked (rw_mutex w)) eqn:Hl; cbn [andb] in Hp.
  - destruct Ho as (Hto & Horig & Hb). exists (owner (rw_mutex w)).
    rewrite (proj2 (Z.eqb_neq _ _) (Htask _ Hto)), <-Horig, <-Hb. split_and!; try done.
    + by rewrite (Hp _ Hto), Z.eqb_refl.
    + rewrite Hb. apply foldr_max_ge.
    + intros t Ht Hne. by rewrite (Hp t Ht), (proj2 (Z.eqb_neq _ _) Hne).
    + intros ([t p] & E & Hin)%list_elem_of_fmap. by destruct (Hw t p Hin) as (_ & _ & []).
  - by rewrite Ho.
Qed.
End rt_runs.

(** Three tasks of the global scheduler, for the witnesses: task 0 takes the
    lock, and tasks 1 and 2 wait for it. *)
Definition three_tasks : Global.global :=
  match Scheduler.spawn_task Scheduler.new 5 with
  | Ret (_, s1) =>
    match Scheduler.spawn_task s1 9 with
    | Ret (_, s2) => match Scheduler.spawn_task s2 7 with Ret (_, s3) => Some s3 | _ => None end
    | _ => None
    end
  | _ => None
  end.

Definition three_base (t : Z) : Z := if t =? 0 then 5 else if t =? 1 then 9 else 7.

Definition three_waiting : RtMutex * Global.global :=
  let '(_, m1, g1) := RtMutex.lock_enter (RtMutex.new 1) three_tasks 0 in
  let '(_, m2, g2) := RtMutex.lock_enter m1 g1 1 in
  let '(_, m3, g3) := RtMutex.lock_enter m2 g2 2 in (m3, g3).

Lemma three_waiting_run :
  rtc (rt_step (λ t, 0 <= t <= 2)) (mkRtWorld (RtMutex.new 1) three_tasks [] [])
      (mkRtWorld three_waiting.1 three_waiting.2 [(2, 7); (1, 9)] [9; 7]).
Proof.
  eapply rtc_l; [eapply (rt_acquire _ _ _ _ _ 0); [lia|set_solver|done|vm_compute; reflexivity]|].
  eapply rtc_l; [eapply (rt_wait _ _ _ _ _ 1); [lia|set_solver|done|vm_compute; reflexivity]|].
  eapply rtc_l; [eapply (rt_wait _ _ _ _ _ 2); [lia| |done|vm_compute; reflexivity]|].
  { simpl. intros ?%list_elem_of_singleton. done. }
  vm_compute. apply rtc_refl.
Qed.

Lemma rt_mutex_inheritance_witness :
  RtMutex.get_owner three_waiting.1 = Some 0 ∧ Global.get_task_priority three_waiting.2 0 = Ok 9.
Proof.
  destruct (rt_mutex_inheritance (λ t, 0 <= t <= 2) three_base
    ltac:(simpl; intros; lia) 1 three_tasks _
    ltac:(simpl; intros t Ht; assert (t = 0 ∨ t = 1 ∨ t = 2) as [->|[->| ->]] by lia; vm_compute; reflexivity)
    three_waiting_run) as (o & Ho & _ & Hp & _).
  assert (o = 0) as -> by (vm_compute in Ho; by injection Ho). split; [exact Ho|exact Hp].
Defined.

(** *** Two limits of the mutex *)

(** A task the scheduler does not know gets an error from [lock], and the mutex
    stays locked with it as the owner. *)
Lemma lock_unknown_task_keeps_lock {S} `{TaskPriorities S} m (s : S) t e :
  locked m = false → tp_get s t = Err e →
  ∃ m', RtMutex.lock_enter m s t = (Failed e, m', s) ∧ locked m' = true ∧ owner m' = t.
Proof.
  intros Hl Ht. unfold RtMutex.lock_enter, RtMutex.get_task_priority. rewrite Hl, Ht. simpl. eauto.
Qed.

(** Task 0 lets go, task 2 of priority 7 takes over, and keeps its own priority
    although task 1 of priority 9 still waits: the boost is not inherited. *)
Lemma handoff_drops_inheritance :
  ∃ m g, rtc (rt_step (λ t, 0 <= t <= 2)) (mkRtWorld (RtMutex.new 1) three_tasks [] [])
           (mkRtWorld m g [(1, 9)] []) ∧
    RtMutex.get_owner m = Some 2 ∧ Global.get_task_priority g 2 = Ok 7 ∧ waiters m = [(1, 9)].
Proof.
  do 2 eexists. split.
  - etransitivity; [apply three_waiting_run|].
    eapply rtc_l; [eapply (rt_unlock _ _ _ _ _ 0); [lia|vm_compute; reflexivity]|].
    eapply rtc_l; [eapply (rt_retry _ _ _ [] 2 7 [(1, 9)]); vm_compute; reflexivity|]. apply rtc_refl.
  - split_and!; vm_compute; reflexivity.
Qed.

(** ** Earliest deadline first *)

Lemma min_deadline_spec l : ∀ l0 best l1,
  Forall (λ u, absolute_deadline_us best < absolute_deadline_us u) l0 →
  Forall (λ u, absolute_deadline_us best <= absolute_deadline_us u) l1 →
  ∃ la lb, l0 ++ best :: l1 ++ l = la ++ EdfScheduler.min_deadline best l :: lb ∧
    Forall (λ u, absolute_deadline_us (EdfScheduler.min_deadline best l) < absolute_deadline_us u) la ∧
    Forall (λ u, absolute_deadline_us (EdfScheduler.min_deadline best l) <= absolute_deadline_us u) lb.
Proof.
  induction l as [|t l IH]; intros l0 best l1 H0 H1; simpl.
  - exists l0, l1. by rewrite app_nil_r.
  - destruct (Z.ltb_spec (absolute_deadline_us t) (absolute_deadline_us best)) as [Hlt|Hge].
    + destruct (IH (l0 ++ best :: l1) t []) as (la & lb & E & Ha & Hb); [|done|].
      * apply Forall_app; split; [|constructor; [lia|]]; eapply Forall_impl; eauto; simpl; lia.
      * exists la, lb. rewrite <-app_assoc in E. done.
    + destruct (IH l0 best (l1 ++ [t])) as (la & lb & E & Ha & Hb); [done|by apply Forall_app; auto|].
      exists la, lb. rewrite <-app_assoc in E. done.
Qed.

(** Earliest deadline first: [schedule] answers nothing exactly when there
    is no task, and otherwise the task with the smallest absolute deadline, the
    one added first among equals. *)
Theorem edf_schedule_earliest self :
  match EdfScheduler.schedule self with
  | None => edf_tasks self = []
  | Some i =>
    ∃ l1 t l2, edf_tasks self = l1 ++ t :: l2 ∧ task_id t = i ∧
      Forall (λ u, absolute_deadline_us t < absolute_deadline_us u) l1 ∧
      Forall (λ u, absolute_deadline_us t <= absolute_deadline_us u) l2
  end.
Proof.
  unfold EdfScheduler.schedule. destruct (edf_tasks self) as [|t l]; [done|].
  destruct (min_deadline_spec l [] t []) as (la & lb & E & Ha & Hb); [done..|]. eauto 10.
Qed.

(** What the operations of the scheduler do to it. *)
Inductive edf_step : relation EdfScheduler :=
| edf_add self p r self' : EdfScheduler.add_task self p = (r, self') → edf_step self self'
| edf_release self i now r self' :
    EdfScheduler.release_task self i now = Ret (r, self') → edf_step self self'
| edf_check self i now r self' : EdfScheduler.check_deadline self i now = (r, self') → edf_step self self'.

Definition edf_load (l : list DeadlineParams) : spec_float :=
  foldl (λ u p, f64_add u (DeadlineParams.utilization p)) (f64_of_u64 0) l.

Record edf_ok (n : Z) (self : EdfScheduler) : Prop := {
  eo_max : max_tasks self = n;
  eo_len : Z.of_nat (length (edf_tasks self)) <= Z.max 0 n;
  eo_valid : Forall (λ p, DeadlineParams.is_valid p = true) (edf_tasks self);
  eo_load : total_utilization self = edf_load (edf_tasks self);
  eo_bound : SFltb f64_one (total_utilization self) = false;
}.

(** Releasing a task changes absolute deadlines only. *)
Lemma release_first_static i now l l' :
  EdfScheduler.release_first i now l = Ret (Some l') →
  Forall2 (λ p q, task_id p = task_id q ∧ period_us p = period_us q ∧ wcet_us p = wcet_us q ∧
                  deadline_us p = deadline_us q) l l'.
Proof.
  revert l'. induction l as [|t l IH]; intros l'; simpl; [done|].
  destruct (task_id t =? i).
  - destruct (usize_add now (deadline_us t)) as [d| |]; simpl; try done. intros [= <-].
    constructor; [done|]. by apply Forall_Forall2_diag, Forall_true.
  - destruct (EdfScheduler.release_first i now l) as [[l1|]| |]; simpl; try done. intros [= <-].
    constructor; [done|]. by apply IH.
Qed.

Lemma static_load l l' u :
  Forall2 (λ p q, task_id p = task_id q ∧ period_us p = period_us q ∧ wcet_us p = wcet_us q ∧
                  deadline_us p = deadline_us q) l l' →
  foldl (λ u p, f64_add u (DeadlineParams.utilization p)) u l' =
  foldl (λ u p, f64_add u (DeadlineParams.utilization p)) u l ∧
  (Forall (λ p, DeadlineParams.is_valid p = true) l → Forall (λ p, DeadlineParams.is_valid p = true) l').
Proof.
  intros Hl. revert u. induction Hl as [|p q l l' (? & Hp & Hw & Hd) _ IH]; intros u; simpl; [done|].
  split.
  - destruct (IH (f64_add u (DeadlineParams.utilization p))) as [<- _].
    unfold DeadlineParams.utilization. by rewrite Hp, Hw.
  - intros [Hv Hvs]%Forall_cons. constructor; [|by apply (IH u)].
    unfold DeadlineParams.is_valid in *. by rewrite <-Hp, <-Hw, <-Hd.
Qed.

Lemma edf_step_ok n self self' : edf_step self self' → edf_ok n self → edf_ok n self'.
Proof.
  intros Hst [Hm Hlen Hv Hl Hb]. destruct Hst as [self p r self' Hs|self i now r self' Hs|self i now r self' Hs].
  - unfold EdfScheduler.add_task in Hs. destruct (DeadlineParams.is_valid p) eqn:Hp; simpl in Hs; simplify_eq; [|done].
    case_match eqn:Hfull; simplify_eq; [done|]. case_match eqn:Hu; simplify_eq; [done|].
    split; simpl; try done.
    + rewrite length_app. simpl. lia.
    + apply Forall_app; auto.
    + unfold edf_load. by rewrite foldl_app, Hl.
  - unfold EdfScheduler.release_task in Hs.
    destruct (EdfScheduler.release_first _ _ _) as [[l'|]| |] eqn:E; simpl in Hs; simplify_eq; [|done].
    apply release_first_static in E. destruct (static_load _ _ (f64_of_u64 0) E) as [El Ev].
    split; simpl; auto.
    + by rewrite <-(Forall2_length _ _ _ E).
    + unfold edf_load. by rewrite El.
  - unfold EdfScheduler.check_deadline in Hs. repeat case_match; simplify_eq; done.
Qed.

(** Admission, over every run of a fresh scheduler: it never holds more
    than [max_tasks] tasks, each has [wcet <= deadline <= period], the total it
    keeps is the [f64] sum of their utilizations in the order they came, and the
    test [total > 1.0] is false of it. *)
Theorem edf_admission n self :
  rtc edf_step (EdfScheduler.new n) self →
  max_tasks self = n ∧ Z.of_nat (length (edf_tasks self)) <= Z.max 0 n ∧
  Forall (λ p, wcet_us p <= deadline_us p <= period_us p) (edf_tasks self) ∧
  total_utilization self = edf_load (edf_tasks self) ∧
  SFltb f64_one (total_utilization self) = false.
Proof.
  intros Hrun. assert (edf_ok n self) as [? ? Hv ? ?].
  { remember (EdfScheduler.new n) as s0 eqn:E. assert (edf_ok n s0) as Hs0.
    { subst. split; simpl; [done|lia|constructor|reflexivity|reflexivity]. }
    clear E. induction Hrun; [done|]. eauto using edf_step_ok. }
  split_and!; try done. eapply Forall_impl; [exact Hv|]. unfold DeadlineParams.is_valid. simpl. lia.
Qed.

Definition edf_demo : EdfScheduler :=
  (EdfScheduler.add_task (EdfScheduler.add_task (EdfScheduler.new 4)
    (DeadlineParams.new 0 100 30 50)).2 (DeadlineParams.new 1 10 5 10)).2.

Lemma edf_admission_witness :
  length (edf_tasks edf_demo) = 2%nat ∧ total_utilization edf_demo = edf_load (edf_tasks edf_demo) ∧
  EdfScheduler.add_task edf_demo (DeadlineParams.new 2 4 1 4) = (Err InvalidPageCount, edf_demo).
Proof.
  split; [reflexivity|]. split; [|vm_compute; reflexivity]. apply (edf_admission 4 edf_demo).
  eapply rtc_l; [eapply (edf_add _ (DeadlineParams.new 0 100 30 50)), surjective_pairing|].
  eapply rtc_l; [eapply (edf_add _ (DeadlineParams.new 1 10 5 10)), surjective_pairing|]. apply rtc_refl.
Defined.

(** A task with a zero period, deadline and run time is valid; it has the
    utilization [0.0 / 0.0], after which the test never fails: every further
    valid task is admitted while there is room. *)
Lemma edf_zero_period_disables_admission n i p self :
  0 < n → (EdfScheduler.add_task (EdfScheduler.new n) (DeadlineParams.new i 0 0 0)) = (Ok tt, self) →
  total_utilization self = S754_nan ∧
  (1 < n → DeadlineParams.is_valid p = true → (EdfScheduler.add_task self p).1 = Ok tt).
Proof.
  intros Hn. unfold EdfScheduler.add_task at 1. cbn [DeadlineParams.is_valid].
  change (max_tasks (EdfScheduler.new n) <=? Z.of_nat (length (edf_tasks (EdfScheduler.new n)))) with (n <=? 0).
  rewrite (proj2 (Z.leb_gt n 0)) by lia. intros Hs. vm_compute in Hs. injection Hs as <-.
  split; [done|]. intros Hn1 Hp. unfold EdfScheduler.add_task. rewrite Hp. cbn [negb max_tasks edf_tasks length].
  rewrite (proj2 (Z.leb_gt n _)) by (simpl; lia). by destruct (DeadlineParams.utilization p).
Qed.
