(* ===== verification/Frames.v ===== *)
(** * Physical frames

    What the virtual-memory code promises itself of the page allocator, as an
    interface, and the proof that the global page allocator keeps the promise. *)

From stdpp Require Import base tactics option list numbers.
From S2P Require Import Prelude Errors Memory MemoryFreeList MemoryCorrect.
Import MemoryManager.

(** The calls of memory.rs that vmm.rs makes. *)
Class FrameAllocator (F : Type) : Type := {
  frame_alloc : F → outcome (result Z KernelError * F);
  frame_alloc_n : F → Z → outcome (result Z KernelError * F);
  frame_free : F → Z → outcome (result unit KernelError * F);
}.

(** The first address that no frame reaches: an entry has room for 52 bits. *)
Definition FRAME_LIMIT : Z := 2 ^ 52.

(** A frame starts at a multiple of the page size. *)
Definition is_frame (a : Z) : Prop := 0 <= a < FRAME_LIMIT ∧ a mod 4096 = 0.

(** [n] frames from [base] on. *)
Definition frame_in (base n a : Z) : Prop := is_frame a ∧ base <= a < base + n * 4096.

Class FrameAllocatorLaws (F : Type) `{FrameAllocator F} : Type := {
  frames_ok : F → Prop;
  frame_used : F → Z → Prop;
  frame_used_frame f a : frame_used f a → is_frame a;
  frame_alloc_n_law f n : frames_ok f → 0 <= n →
    returns (frame_alloc_n f n) (λ '(r, f'), frames_ok f' ∧
      match r with
      | Ok base => 1 <= n ∧ is_frame base ∧ is_frame (base + (n - 1) * 4096) ∧
          (∀ a, frame_in base n a → ¬ frame_used f a) ∧
          (∀ a, frame_used f' a ↔ frame_used f a ∨ frame_in base n a)
      | Err _ => ∀ a, frame_used f' a ↔ frame_used f a
      end);
  frame_alloc_one f : frame_alloc f = frame_alloc_n f 1;
  frame_free_law f a : frames_ok f → is_frame a →
    returns (frame_free f a) (λ '(_, f'), frames_ok f' ∧
      ∀ b, b ≠ a → (frame_used f' b ↔ frame_used f b));
}.

(** ** The global page allocator *)

#[export] Instance global_frames : FrameAllocator Memory.Global.state := {|
  frame_alloc := Memory.Global.allocate_page;
  frame_alloc_n := Memory.Global.allocate_pages;
  frame_free := Memory.Global.free_page;
|}.

Definition global_ok (g : Memory.Global.state) : Prop :=
  match g with Some mm => mm_wf mm | None => True end.

Definition global_used (g : Memory.Global.state) (a : Z) : Prop :=
  match g with
  | Some mm => a mod PAGE_SIZE = 0 ∧ 0 <= a < MAX_PAGES * PAGE_SIZE ∧ allocated_at mm (a / PAGE_SIZE)
  | None => False
  end.

(** A frame and its page number. *)
Lemma frame_page a : is_frame a → a = a / 4096 * 4096 ∧ 0 <= a / 4096.
Proof.
  intros [Ha Hm]. pose proof (Z.div_mod a 4096 ltac:(lia)). split; [lia|]. apply Z.div_pos; lia.
Qed.

Lemma frame_in_page s n a : frame_in (s * 4096) n a ↔ is_frame a ∧ s <= a / 4096 < s + n.
Proof.
  split; intros [Ha Hr]; (split; [done|]); destruct (frame_page a Ha) as [E ?]; lia.
Qed.

Lemma page_states mm l p : mm_inv mm l → 0 <= p < MAX_PAGES → page_at mm p = Some Free ∨ allocated_at mm p.
Proof.
  intros Hi Hp. destruct (lookup_lt_is_Some_2 (pages mm) (Z.to_nat p)) as [[|n] Hx].
  - rewrite (inv_pages_len _ _ Hi). mlia.
  - by left.
  - right. by exists n.
Qed.

Lemma global_used_frame g a : global_used g a → is_frame a.
Proof. destruct g as [mm|]; [|done]. intros (Hm & Ha & _). unfold is_frame, FRAME_LIMIT. mlia. Qed.

(** Allocation: the run was free, and nothing but the run changes. *)
Lemma global_alloc_law g n :
  global_ok g → 0 <= n →
  returns (Memory.Global.allocate_pages g n) (λ '(r, g'), global_ok g' ∧
    match r with
    | Ok base => 1 <= n ∧ is_frame base ∧ is_frame (base + (n - 1) * 4096) ∧
        (∀ a, frame_in base n a → ¬ global_used g a) ∧
        (∀ a, global_used g' a ↔ global_used g a ∨ frame_in base n a)
    | Err _ => ∀ a, global_used g' a ↔ global_used g a
    end).
Proof.
  unfold Memory.Global.allocate_pages, with_global. destruct g as [mm|]; [|done]. intros [l Hi] Hn.
  pose proof (allocate_pages_spec mm l n Hi Hn) as H.
  destruct (allocate_pages mm n) as [[[addr|e] mm']| |]; [|..|done|done]; destruct H as [Hwf H]; simpl; (split; [done|]).
  - destruct H as (s & -> & Hn1 & (Hs0 & Hs1 & Hfree) & Hat & _). change PAGE_SIZE with 4096 in *.
    assert (∀ k, 0 <= k < MAX_PAGES → is_frame (k * 4096)) as Hfr.
    { intros k Hk. split; [unfold FRAME_LIMIT; mlia|]. apply Z.mod_mul. lia. }
    split; [done|]. split; [apply Hfr; lia|].
    split; [replace (s * 4096 + (n - 1) * 4096) with ((s + n - 1) * 4096) by lia; apply Hfr; lia|]. split.
    + intros a [Ha Hr]%frame_in_page (_ & _ & k & Hk). rewrite (Hfree (a / 4096) Hr) in Hk. done.
    + intros a. rewrite frame_in_page. unfold allocated_at. split.
      * intros (Hm & Ha & k & Hk). assert (is_frame a) as Hfa by (unfold is_frame, FRAME_LIMIT; mlia).
        destruct (frame_page a Hfa) as [E Hp]. rewrite Hat in Hk by mlia.
        case_bool_decide; [right; done|]. left. eauto.
      * intros [(Hm & Ha & k & Hk)|[Hfa Hr]].
        -- split_and!; try done; try lia. exists k. rewrite Hat by (pose proof (Z.div_pos a 4096); pose proof (Z.div_lt_upper_bound a 4096 MAX_PAGES); mlia).
           case_bool_decide; [|done]. rewrite Hfree in Hk by done. done.
        -- destruct (frame_page a Hfa) as [E Hp]. split_and!; try (apply Hfa || lia).
           rewrite Hat, bool_decide_eq_true_2 by lia. eauto.
  - destruct H as (Hp & _). unfold allocated_at, page_at. by rewrite Hp.
Qed.

Lemma frame_fits a : is_frame a → MemoryCorrect.free_fits a 1.
Proof. intros [Ha _]. right. unfold FRAME_LIMIT in Ha. pose proof (Z.div_le_upper_bound a PAGE_SIZE a ltac:(done) ltac:(unfold PAGE_SIZE; lia)). lia. Qed.

Lemma global_free_law g a :
  global_ok g → is_frame a →
  returns (Memory.Global.free_page g a) (λ '(_, g'), global_ok g' ∧
    ∀ b, b ≠ a → (global_used g' b ↔ global_used g b)).
Proof.
  unfold Memory.Global.free_page, with_global. destruct g as [mm|]; [|done]. intros [l Hi] Ha.
  pose proof (free_pages_spec mm l a 1 Hi ltac:(apply Ha) ltac:(lia) (frame_fits a Ha)) as H. unfold free_page.
  destruct (free_pages mm a 1) as [[r mm']| |]; [|done..]. destruct H as [Hwf H]. simpl. split; [done|].
  destruct r as [[]|e]; [|by destruct H as [-> _]]. destruct H as (_ & _ & _ & _ & Hat & _).
  intros b Hb. change PAGE_SIZE with 4096 in *. destruct (frame_page a Ha) as [Ea ?].
  enough (b mod 4096 = 0 → 0 <= b < MAX_PAGES * 4096 → (allocated_at mm' (b / 4096) ↔ allocated_at mm (b / 4096))) by tauto.
  intros Hm Hr.
  pose proof (Z.div_mod b 4096 ltac:(lia)). unfold allocated_at.
  rewrite Hat by (split; [apply Z.div_pos; lia|apply Z.div_lt_upper_bound; mlia]).
  rewrite bool_decide_eq_false_2; [done|]. intros ?. apply Hb. lia.
Qed.

#[export] Instance global_frames_laws : FrameAllocatorLaws Memory.Global.state := {|
  frames_ok := global_ok;
  frame_used := global_used;
  frame_used_frame := global_used_frame;
  frame_alloc_n_law := global_alloc_law;
  frame_alloc_one f := eq_refl;
  frame_free_law := global_free_law;
|}.
