(* ===== verification/Vmm.v ===== *)
(** * Virtual memory (mielin-kernel/src/vmm.rs)

    Four-level page tables in physical memory, address spaces, copy-on-write and
    demand paging, huge pages, device memory and shared regions.

    Physical memory is a function from addresses of 64-bit words to their values
    ([mem]); a page table is the 512 words of a frame.  The frames come from the
    interface [FrameAllocator].  A method of an address space runs in the monad
    [M]: it threads the address space and the statics of the module, and an error
    leaves what was done so far.  Loading the page-table register and flushing the
    TLB are instructions; of the flush the counter remains. *)

From stdpp Require Import base tactics option list numbers gmap.
From S2P Require Import Prelude Errors Frames.

(* src: mielin-kernel/src/vmm.rs 56-56 PAGE_SIZE *)
Definition PAGE_SIZE : Z := 4096.
(* src: mielin-kernel/src/vmm.rs 59-59 HUGE_PAGE_2MB *)
Definition HUGE_PAGE_2MB : Z := 2 * 1024 * 1024.
(* src: mielin-kernel/src/vmm.rs 62-62 HUGE_PAGE_1GB *)
Definition HUGE_PAGE_1GB : Z := 1024 * 1024 * 1024.
(* src: mielin-kernel/src/vmm.rs 65-65 ENTRIES_PER_TABLE *)
Definition ENTRIES_PER_TABLE : Z := 512.
(* src: mielin-kernel/src/vmm.rs 68-68 MAX_ADDRESS_SPACES *)
Definition MAX_ADDRESS_SPACES : Z := 256.

(** [!x] on 64 bits. *)
Definition not64 (x : Z) : Z := U64_MAX - x.

(** ** Page sizes and errors *)

(* src: mielin-kernel/src/vmm.rs 72-79 HugePageSize *)
Inductive HugePageSize : Type := Size4KB | Size2MB | Size1GB.

Module HugePageSize.

(* src: mielin-kernel/src/vmm.rs 83-89 HugePageSize::bytes *)
Definition bytes (s : HugePageSize) : Z :=
  match s with Size4KB => PAGE_SIZE | Size2MB => HUGE_PAGE_2MB | Size1GB => HUGE_PAGE_1GB end.

(* src: mielin-kernel/src/vmm.rs 93-99 HugePageSize::page_table_level *)
Definition page_table_level (s : HugePageSize) : Z :=
  match s with Size4KB => 3 | Size2MB => 2 | Size1GB => 1 end.

(* src: mielin-kernel/src/vmm.rs 102-104 HugePageSize::is_aligned *)
Definition is_aligned (s : HugePageSize) (addr : Z) : bool := Z.land addr (bytes s - 1) =? 0.

End HugePageSize.

(* src: mielin-kernel/src/vmm.rs 109-140 VmmError *)
Inductive VmmError : Type :=
| NotInitialized | AlreadyInitialized | InvalidVirtualAddress | InvalidPhysicalAddress
| AlreadyMapped | NotMapped | VmmOutOfMemory | InvalidEntry | AddressSpaceLimitExceeded
| InvalidPermissions | TlbShootdownFailed | PageFault | WriteProtectionViolation
| InvalidPageSize | UnalignedHugePage.

#[export] Instance VmmError_eq_dec : EqDecision VmmError.
Proof. solve_decision. Defined.

(** ** Flags and entries *)

(** [PageTableFlags(u64)] is its number. *)
Module PageTableFlags.

(* src: mielin-kernel/src/vmm.rs 173-173 PageTableFlags::PRESENT *)
Definition PRESENT : Z := 1.
(* src: mielin-kernel/src/vmm.rs 175-175 PageTableFlags::WRITABLE *)
Definition WRITABLE : Z := 2.
(* src: mielin-kernel/src/vmm.rs 177-177 PageTableFlags::USER *)
Definition USER : Z := 4.
(* src: mielin-kernel/src/vmm.rs 179-179 PageTableFlags::WRITE_THROUGH *)
Definition WRITE_THROUGH : Z := 8.
(* src: mielin-kernel/src/vmm.rs 181-181 PageTableFlags::CACHE_DISABLE *)
Definition CACHE_DISABLE : Z := 16.
(* src: mielin-kernel/src/vmm.rs 183-183 PageTableFlags::ACCESSED *)
Definition ACCESSED : Z := 32.
(* src: mielin-kernel/src/vmm.rs 185-185 PageTableFlags::DIRTY *)
Definition DIRTY : Z := 64.
(* src: mielin-kernel/src/vmm.rs 187-187 PageTableFlags::HUGE *)
Definition HUGE : Z := 128.
(* src: mielin-kernel/src/vmm.rs 189-189 PageTableFlags::GLOBAL *)
Definition GLOBAL : Z := 256.
(* src: mielin-kernel/src/vmm.rs 191-191 PageTableFlags::COW *)
Definition COW : Z := 512.
(* src: mielin-kernel/src/vmm.rs 193-193 PageTableFlags::DEMAND *)
Definition DEMAND : Z := 1024.
(* src: mielin-kernel/src/vmm.rs 195-195 PageTableFlags::MMIO *)
Definition MMIO : Z := 2048.
(* src: mielin-kernel/src/vmm.rs 197-197 PageTableFlags::SHARED *)
Definition SHARED : Z := 4096.
(* src: mielin-kernel/src/vmm.rs 199-199 PageTableFlags::NO_EXECUTE *)
Definition NO_EXECUTE : Z := 9223372036854775808.

(* src: mielin-kernel/src/vmm.rs 202-204 PageTableFlags::empty *)
Definition empty : Z := 0.

(* src: mielin-kernel/src/vmm.rs 207-209 PageTableFlags::is_empty *)
Definition is_empty (f : Z) : bool := f =? 0.

(* src: mielin-kernel/src/vmm.rs 212-214 PageTableFlags::contains *)
Definition contains (f other : Z) : bool := Z.land f other =? other.

(* src: mielin-kernel/src/vmm.rs 217-219 PageTableFlags::union *)
Definition union (f other : Z) : Z := Z.lor f other.

(* src: mielin-kernel/src/vmm.rs 230-232 PageTableFlags::bitor *)
Definition bitor (f g : Z) : Z := Z.lor f g.

(* src: mielin-kernel/src/vmm.rs 238-240 PageTableFlags::bitand *)
Definition bitand (f g : Z) : Z := Z.land f g.

(* src: mielin-kernel/src/vmm.rs 246-248 PageTableFlags::not *)
Definition not (f : Z) : Z := not64 f.

End PageTableFlags.
Import PageTableFlags.

(** The bits of an entry that hold the frame: 12 to 51. *)
Definition ADDR_MASK : Z := 4503599627366400.
Definition FLAGS_MASK : Z := 18442240474082185215.

(** [PageTableEntry(u64)] is its number. *)
Module PageTableEntry.

(* src: mielin-kernel/src/vmm.rs 258-260 PageTableEntry::new *)
Definition new : Z := 0.

(* src: mielin-kernel/src/vmm.rs 263-265 PageTableEntry::is_present *)
Definition is_present (e : Z) : bool := negb (Z.land e PRESENT =? 0).

(* src: mielin-kernel/src/vmm.rs 268-270 PageTableEntry::phys_addr *)
Definition phys_addr (e : Z) : Z := Z.land e ADDR_MASK.

(* src: mielin-kernel/src/vmm.rs 274-276 PageTableEntry::flags *)
Definition flags (e : Z) : Z := Z.land e FLAGS_MASK.

(* src: mielin-kernel/src/vmm.rs 279-281 PageTableEntry::set *)
Definition set (phys_addr flags : Z) : Z := Z.lor (Z.land phys_addr ADDR_MASK) flags.

(* src: mielin-kernel/src/vmm.rs 284-286 PageTableEntry::clear *)
Definition clear : Z := 0.

End PageTableEntry.

(** ** Physical memory *)

Abbreviation memory := (Z → Z).

Definition mem_write (a v : Z) (m : memory) : memory := λ b, if b =? a then v else m b.

(** The words of the frame at [a] are zeroed, or copied from the frame at [src]. *)
Definition mem_zero (a : Z) (m : memory) : memory :=
  λ b, if (a <=? b) && (b <? a + PAGE_SIZE) then 0 else m b.
Definition mem_copy (src dst : Z) (m : memory) : memory :=
  λ b, if (dst <=? b) && (b <? dst + PAGE_SIZE) then m (src + (b - dst)) else m b.

(** Where the entry [index] of the table at [table] lies. *)
Definition entry_addr (table index : Z) : Z := table + 8 * index.

(** ** Reference counts of frames *)

(** [refcounts: BTreeMap<usize, AtomicUsize>]. *)
(* src: mielin-kernel/src/vmm.rs 327-330 PageRefCount *)
Definition PageRefCount : Type := gmap Z Z.

Module PageRefCount.

(* src: mielin-kernel/src/vmm.rs 341-347 PageRefCount::inc_ref *)
Definition inc_ref (self : PageRefCount) (phys_addr : Z) : PageRefCount :=
  <[phys_addr := wrap64 (default 0 (self !! phys_addr) + 1)]> self.

(* src: mielin-kernel/src/vmm.rs 351-362 PageRefCount::dec_ref *)
Definition dec_ref (self : PageRefCount) (phys_addr : Z) : outcome (Z * PageRefCount) :=
  match self !! phys_addr with
  | Some count =>
    if count =? 1 then Ret (0, delete phys_addr self)
    else
      let! r := usize_sub count 1 in
      Ret (r, <[phys_addr := wrap64 (count - 1)]> self)
  | None => Ret (0, self)
  end.

(* src: mielin-kernel/src/vmm.rs 365-370 PageRefCount::get_ref *)
Definition get_ref (self : PageRefCount) (phys_addr : Z) : Z := default 0 (self !! phys_addr).

End PageRefCount.

(** ** Shared regions *)

(* src: mielin-kernel/src/vmm.rs 381-394 SharedMemoryRegion *)
Record SharedMemoryRegion : Type := mkRegion {
  sr_id : Z;
  sr_virt_addr : Z;
  sr_size : Z;
  sr_phys_addr : Z;
  sr_flags : Z;
  sr_refcount : Z;
}.

(* src: mielin-kernel/src/vmm.rs 417-422 SharedMemoryRegistry *)
Record SharedMemoryRegistry : Type := mkRegistry {
  regions : gmap Z SharedMemoryRegion;
  next_id : Z;
}.

Definition set_refcount (n : Z) (r : SharedMemoryRegion) : SharedMemoryRegion :=
  mkRegion (sr_id r) (sr_virt_addr r) (sr_size r) (sr_phys_addr r) (sr_flags r) n.

Module SharedMemoryRegistry.

(* src: mielin-kernel/src/vmm.rs 425-430 SharedMemoryRegistry::new *)
Definition new : SharedMemoryRegistry := mkRegistry ∅ 0.

(* src: mielin-kernel/src/vmm.rs 433-447 SharedMemoryRegistry::create_region *)
Definition create_region (self : SharedMemoryRegistry) (virt_addr size phys_addr flags : Z)
    : Z * SharedMemoryRegistry :=
  let id := next_id self in
  (id, mkRegistry (<[id := mkRegion id virt_addr size phys_addr flags 1]> (regions self))
         (wrap64 (next_id self + 1))).

(* src: mielin-kernel/src/vmm.rs 450-452 SharedMemoryRegistry::get_region *)
Definition get_region (self : SharedMemoryRegistry) (id : Z) : option SharedMemoryRegion :=
  regions self !! id.

(* src: mielin-kernel/src/vmm.rs 455-462 SharedMemoryRegistry::inc_ref *)
Definition inc_ref (self : SharedMemoryRegistry) (id : Z)
    : result unit VmmError * SharedMemoryRegistry :=
  match regions self !! id with
  | Some region =>
    (Ok tt, mkRegistry (<[id := set_refcount (Z.min (sr_refcount region + 1) U64_MAX) region]> (regions self))
              (next_id self))
  | None => (Err InvalidEntry, self)
  end.

(* src: mielin-kernel/src/vmm.rs 466-477 SharedMemoryRegistry::dec_ref *)
Definition dec_ref (self : SharedMemoryRegistry) (id : Z)
    : result bool VmmError * SharedMemoryRegistry :=
  match regions self !! id with
  | Some region =>
    let n := saturating_sub (sr_refcount region) 1 in
    if n =? 0 then (Ok true, mkRegistry (delete id (regions self)) (next_id self))
    else (Ok false, mkRegistry (<[id := set_refcount n region]> (regions self)) (next_id self))
  | None => (Err InvalidEntry, self)
  end.

End SharedMemoryRegistry.

(** ** The statics of the module *)

(** The atomic counters of [VmmState]. *)
Inductive counter : Type :=
| next_asid | active_spaces | total_mapped_pages | total_tlb_flushes | total_cow_faults
| total_cow_copies | total_cow_fast_path | total_demand_faults | total_demand_pages
| total_huge_2mb_pages | total_huge_1gb_pages | total_mmio_regions | total_mmio_pages
| total_shared_regions | total_shared_pages.

#[export] Instance counter_eq_dec : EqDecision counter.
Proof. solve_decision. Defined.

(* src: mielin-kernel/src/vmm.rs 1391-1424 VmmState *)
Record VmmState : Type := mkVmmState {
  vmm_initialized : bool;
  counters : counter → Z;
}.

Module VmmState.

(* src: mielin-kernel/src/vmm.rs 1427-1446 VmmState::new *)
Definition new : VmmState :=
  mkVmmState false (λ c, if decide (c = next_asid) then 1 else 0).

(** [fetch_add] and [fetch_sub] of a counter. *)
Definition add (c : counter) (n : Z) (s : VmmState) : VmmState :=
  mkVmmState (vmm_initialized s)
    (λ d, if decide (d = c) then wrap64 (counters s c + n) else counters s d).

End VmmState.

(* src: mielin-kernel/src/vmm.rs 1453-1463 init *)
Definition init (s : VmmState) : result unit VmmError * VmmState :=
  if vmm_initialized s then (Ok tt, s) else (Ok tt, mkVmmState true (counters s)).

(* src: mielin-kernel/src/vmm.rs 1466-1477 allocate_asid *)
Definition allocate_asid (s : VmmState) : result Z VmmError * VmmState :=
  let asid := counters s next_asid in
  let s1 := VmmState.add next_asid 1 s in
  if MAX_ADDRESS_SPACES <=? asid then (Err AddressSpaceLimitExceeded, s1)
  else (Ok asid, VmmState.add active_spaces 1 s1).

(* src: mielin-kernel/src/vmm.rs 1480-1484 free_asid *)
Definition free_asid (asid : Z) (s : VmmState) : VmmState := VmmState.add active_spaces (-1) s.

(* src: mielin-kernel/src/vmm.rs 1551-1582 VmmStats *)
Record VmmStats : Type := mkVmmStats {
  st_initialized : bool;
  st_counter : counter → Z;
}.

(* src: mielin-kernel/src/vmm.rs 1585-1605 get_stats *)
Definition get_stats (s : VmmState) : VmmStats := mkVmmStats (vmm_initialized s) (counters s).

(* src: mielin-kernel/src/vmm.rs 484-491 AddressSpace *)
Record AddressSpace : Type := mkSpace {
  root_table_phys : Z;
  asid : Z;
  mapped_pages : Z;
}.

(** Physical memory, the page allocator, [PAGE_REFCOUNT], [SHARED_MEMORY] and
    [VMM_STATE]. *)
Record Vm (F : Type) : Type := mkVm {
  mem : memory;
  frames : F;
  page_refcount : PageRefCount;
  shared_memory : SharedMemoryRegistry;
  vmm_state : VmmState;
}.
Arguments mkVm {F}.
Arguments mem {F}.
Arguments frames {F}.
Arguments page_refcount {F}.
Arguments shared_memory {F}.
Arguments vmm_state {F}.

Module AddressSpace.
Section vmm.
Context {F : Type} `{FrameAllocator F}.

Definition set_mem (m : memory) (w : Vm F) : Vm F :=
  mkVm m (frames w) (page_refcount w) (shared_memory w) (vmm_state w).
Definition set_frames (f : F) (w : Vm F) : Vm F :=
  mkVm (mem w) f (page_refcount w) (shared_memory w) (vmm_state w).
Definition set_refs (r : PageRefCount) (w : Vm F) : Vm F :=
  mkVm (mem w) (frames w) r (shared_memory w) (vmm_state w).
Definition set_shared (r : SharedMemoryRegistry) (w : Vm F) : Vm F :=
  mkVm (mem w) (frames w) (page_refcount w) r (vmm_state w).
Definition set_state (s : VmmState) (w : Vm F) : Vm F :=
  mkVm (mem w) (frames w) (page_refcount w) (shared_memory w) s.

(** *** Methods *)

Definition M (A : Type) : Type := AddressSpace * Vm F → outcome (result A VmmError * (AddressSpace * Vm F)).

Definition ret {A} (a : A) : M A := λ c, Ret (Ok a, c).
Definition throw {A} (e : VmmError) : M A := λ c, Ret (Err e, c).
Definition bind {A B} (m : M A) (k : A → M B) : M B := λ c,
  let! (r, c') := m c in
  match r with Ok a => k a c' | Err e => Ret (Err e, c') end.
(** The result of a call, error or not, without leaving the method. *)
Definition catch {A} (m : M A) : M (result A VmmError) := λ c,
  let! (r, c') := m c in Ret (Ok r, c').
Definition lift {A} (o : outcome A) : M A := λ c, let! a := o in Ret (Ok a, c).
Definition get_self : M AddressSpace := λ c, Ret (Ok c.1, c).
Definition get_vm : M (Vm F) := λ c, Ret (Ok c.2, c).
Definition modify_vm (f : Vm F → Vm F) : M unit := λ c, Ret (Ok tt, (c.1, f c.2)).

#[export] Instance M_ret : MRet M := @ret.
#[export] Instance M_bind : MBind M := λ A B k m, bind m k.

(** [self.mapped_pages.fetch_add(n)]. *)
Definition add_mapped (n : Z) : M unit := λ c,
  Ret (Ok tt, (mkSpace (root_table_phys c.1) (asid c.1) (wrap64 (mapped_pages c.1 + n)), c.2)).

Definition count (c : counter) (n : Z) : M unit :=
  modify_vm (λ w, set_state (VmmState.add c n (vmm_state w)) w).

(** [memory::allocate_page().map_err(|_| VmmError::OutOfMemory)?]. *)
Definition allocate_page : M Z := λ c,
  let! (r, f) := frame_alloc (frames c.2) in
  Ret (match r with Ok a => Ok a | Err _ => Err VmmOutOfMemory end, (c.1, set_frames f c.2)).

Definition allocate_pages (n : Z) : M Z := λ c,
  let! (r, f) := frame_alloc_n (frames c.2) n in
  Ret (match r with Ok a => Ok a | Err _ => Err VmmOutOfMemory end, (c.1, set_frames f c.2)).

(** [let _ = memory::free_page(a)]. *)
Definition free_page (a : Z) : M unit := λ c,
  let! (_, f) := frame_free (frames c.2) a in Ret (Ok tt, (c.1, set_frames f c.2)).

(** [table.entry(index).ok_or(InvalidEntry)?] and its value. *)
(* src: mielin-kernel/src/vmm.rs 305-307 PageTable::entry *)
Definition entry (table index : Z) : M Z := λ c,
  if index <? ENTRIES_PER_TABLE then Ret (Ok (mem c.2 (entry_addr table index)), c)
  else Ret (Err InvalidEntry, c).

Definition write_entry (table index v : Z) : M unit :=
  modify_vm (λ w, set_mem (mem_write (entry_addr table index) v (mem w)) w).

(* src: mielin-kernel/src/vmm.rs 315-319 PageTable::zero *)
Definition zero (table : Z) : M unit := modify_vm (λ w, set_mem (mem_zero table (mem w)) w).

(* src: mielin-kernel/src/vmm.rs 1516-1523 flush_tlb *)
Definition flush_tlb (virt_addr : Z) : M unit := count total_tlb_flushes 1.

(* src: mielin-kernel/src/vmm.rs 1350-1357 AddressSpace::page_table_indices *)
Definition page_table_indices (virt_addr : Z) : list Z :=
  [Z.land (Z.shiftr virt_addr 39) 511; Z.land (Z.shiftr virt_addr 30) 511;
   Z.land (Z.shiftr virt_addr 21) 511; Z.land (Z.shiftr virt_addr 12) 511].

(** [addr & 0xfff != 0] and [addr & !0xfff]. *)
Definition misaligned (addr : Z) : bool := negb (Z.land addr 4095 =? 0).
Definition page_of (addr : Z) : Z := Z.land addr (not64 4095).

(** The step of the walks that create tables: the entry's table, allocated and
    zeroed when the entry is not present. *)
Definition next_table (table index : Z) : M Z :=
  e ← entry table index;
  (if PageTableEntry.is_present e then ret tt
   else
     next ← allocate_page;
     zero next ;;
     write_entry table index (PageTableEntry.set next (Z.lor (Z.lor PRESENT WRITABLE) USER))) ;;
  e' ← entry table index;
  ret (PageTableEntry.phys_addr e').

(** The walk to the final level of the methods that create no tables: the table
    and the index of the entry. *)
Fixpoint walk (indices : list Z) (level table : Z) : M (Z * Z) :=
  match indices with
  | [] => throw NotMapped
  | index :: rest =>
    e ← entry table index;
    if level <? 3 then
      if PageTableEntry.is_present e then walk rest (level + 1) (PageTableEntry.phys_addr e)
      else throw NotMapped
    else ret (table, index)
  end.

(** The same walk, with the check of the final entry. *)
Definition walk_present (virt_addr : Z) : M (Z * Z * Z) :=
  self ← get_self;
  '(table, index) ← walk (page_table_indices virt_addr) 0 (root_table_phys self);
  e ← entry table index;
  if PageTableEntry.is_present e then ret (table, index, e) else throw NotMapped.

(** *** Mapping *)

(* src: mielin-kernel/src/vmm.rs 495-511 AddressSpace::new *)
Definition new (w : Vm F) : outcome (result AddressSpace VmmError * Vm F) :=
  let! (r, f) := frame_alloc (frames w) in
  match r with
  | Err _ => Ret (Err VmmOutOfMemory, set_frames f w)
  | Ok root_page =>
    let w1 := set_mem (mem_zero root_page (mem w)) (set_frames f w) in
    let '(a, s) := allocate_asid (vmm_state w1) in
    let w2 := set_state s w1 in
    match a with
    | Err e => Ret (Err e, w2)
    | Ok asid => Ret (Ok (mkSpace root_page asid 0), w2)
    end
  end.

Fixpoint map_walk (phys_addr flags : Z) (indices : list Z) (level table : Z) : M unit :=
  match indices with
  | [] => ret tt
  | index :: rest =>
    if level <? 3 then
      next ← next_table table index;
      map_walk phys_addr flags rest (level + 1) next
    else
      e ← entry table index;
      if PageTableEntry.is_present e then throw AlreadyMapped
      else
        write_entry table index (PageTableEntry.set phys_addr (bitor flags PRESENT)) ;;
        add_mapped 1 ;;
        map_walk phys_addr flags rest (level + 1) table
  end.

(* src: mielin-kernel/src/vmm.rs 514-566 AddressSpace::map *)
Definition map (virt_addr phys_addr flags : Z) : M unit :=
  if misaligned virt_addr || misaligned phys_addr then throw InvalidVirtualAddress else
  self ← get_self;
  map_walk phys_addr flags (page_table_indices virt_addr) 0 (root_table_phys self).

(* src: mielin-kernel/src/vmm.rs 569-600 AddressSpace::unmap *)
Definition unmap (virt_addr : Z) : M Z :=
  if misaligned virt_addr then throw InvalidVirtualAddress else
  '(table, index, e) ← walk_present virt_addr;
  write_entry table index PageTableEntry.clear ;;
  add_mapped (-1) ;;
  ret (PageTableEntry.phys_addr e).

(* src: mielin-kernel/src/vmm.rs 603-627 AddressSpace::translate *)
Definition translate (virt_addr : Z) : M Z :=
  let page_offset := Z.land virt_addr 4095 in
  let virt_page := page_of virt_addr in
  '(_, _, e) ← walk_present virt_page;
  ret (Z.lor (PageTableEntry.phys_addr e) page_offset).

(* src: mielin-kernel/src/vmm.rs 790-812 AddressSpace::get_flags *)
Definition get_flags (virt_addr : Z) : M Z :=
  '(_, _, e) ← walk_present (page_of virt_addr);
  ret (PageTableEntry.flags e).

(* src: mielin-kernel/src/vmm.rs 815-842 AddressSpace::protect *)
Definition protect (virt_addr new_flags : Z) : M unit :=
  '(table, index, e) ← walk_present (page_of virt_addr);
  write_entry table index (PageTableEntry.set (PageTableEntry.phys_addr e) (bitor new_flags PRESENT)) ;;
  flush_tlb (page_of virt_addr).

(** *** Copy on write *)

(* src: mielin-kernel/src/vmm.rs 645-660 AddressSpace::map_cow *)
Definition map_cow (virt_addr phys_addr flags : Z) : M unit :=
  let cow_flags := bitor (bitand flags (PageTableFlags.not WRITABLE)) COW in
  map virt_addr phys_addr cow_flags ;;
  modify_vm (λ w, set_refs (PageRefCount.inc_ref (page_refcount w) phys_addr) w).

(* src: mielin-kernel/src/vmm.rs 670-757 AddressSpace::handle_cow_fault *)
Definition handle_cow_fault (virt_addr : Z) : M unit :=
  count total_cow_faults 1 ;;
  let virt_page := page_of virt_addr in
  old_phys_addr ← translate virt_page;
  '(table, index, e) ← walk_present virt_page;
  let flags := PageTableEntry.flags e in
  if negb (contains flags COW) then throw WriteProtectionViolation else
  w ← get_vm;
  let new_flags := bitor (bitand flags (PageTableFlags.not COW)) WRITABLE in
  if PageRefCount.get_ref (page_refcount w) old_phys_addr <=? 1 then
    count total_cow_fast_path 1 ;;
    write_entry table index (PageTableEntry.set old_phys_addr new_flags) ;;
    flush_tlb virt_page
  else
    new_phys_addr ← allocate_page;
    modify_vm (λ w, set_mem (mem_copy old_phys_addr new_phys_addr (mem w)) w) ;;
    count total_cow_copies 1 ;;
    write_entry table index (PageTableEntry.set new_phys_addr new_flags) ;;
    w ← get_vm;
    '(remaining, refs) ← lift (PageRefCount.dec_ref (page_refcount w) old_phys_addr);
    modify_vm (set_refs refs) ;;
    (if remaining =? 0 then free_page old_phys_addr else ret tt) ;;
    flush_tlb virt_page.

(** The walk of the source's [walk_and_copy_cow] is not there: it returns at
    once. *)
(* src: mielin-kernel/src/vmm.rs 775-787 AddressSpace::walk_and_copy_cow *)
Definition walk_and_copy_cow (new_space : AddressSpace) : M unit := ret tt.

(** A function that is not a method, called from one. *)
Definition with_vm {A} (f : Vm F → outcome (result A VmmError * Vm F)) : M A := λ c,
  let! (r, w) := f c.2 in Ret (r, (c.1, w)).

(* src: mielin-kernel/src/vmm.rs 764-772 AddressSpace::fork *)
Definition fork : M AddressSpace :=
  new_space ← with_vm new;
  walk_and_copy_cow new_space ;;
  ret new_space.

(** *** Demand paging *)

Fixpoint demand_walk (flags : Z) (indices : list Z) (level table : Z) : M unit :=
  match indices with
  | [] => ret tt
  | index :: rest =>
    if level <? 3 then
      next ← next_table table index;
      demand_walk flags rest (level + 1) next
    else
      _ ← entry table index;
      write_entry table index (PageTableEntry.set 0 (bitor flags DEMAND)) ;;
      demand_walk flags rest (level + 1) table
  end.

(** [for i in 0..n], with [?] in the body. *)
Fixpoint for_each (n : nat) (i : Z) (body : Z → M unit) : M unit :=
  match n with
  | O => ret tt
  | S n' => body i ;; for_each n' (i + 1) body
  end.

(** [base + (i * PAGE_SIZE)]. *)
Definition page_at (base i : Z) : M Z :=
  off ← lift (usize_mul i PAGE_SIZE); lift (usize_add base off).

(* src: mielin-kernel/src/vmm.rs 848-896 AddressSpace::map_demand *)
Definition map_demand (virt_addr page_count flags : Z) : M unit :=
  if misaligned virt_addr then throw InvalidVirtualAddress else
  for_each (Z.to_nat page_count) 0 (λ i,
    addr ← page_at virt_addr i;
    self ← get_self;
    demand_walk flags (page_table_indices addr) 0 (root_table_phys self)).

(* src: mielin-kernel/src/vmm.rs 905-958 AddressSpace::handle_demand_fault *)
Definition handle_demand_fault (virt_addr : Z) : M unit :=
  count total_demand_faults 1 ;;
  let virt_page := page_of virt_addr in
  self ← get_self;
  '(table, index) ← walk (page_table_indices virt_page) 0 (root_table_phys self);
  e ← entry table index;
  let flags := PageTableEntry.flags e in
  if negb (contains flags DEMAND) then throw PageFault else
  phys_addr ← allocate_page;
  zero phys_addr ;;
  count total_demand_pages 1 ;;
  write_entry table index
    (PageTableEntry.set phys_addr (bitor (bitand flags (PageTableFlags.not DEMAND)) PRESENT)) ;;
  add_mapped 1 ;;
  flush_tlb virt_page.

(* src: mielin-kernel/src/vmm.rs 961-968 AddressSpace::is_demand_paged *)
Definition is_demand_paged (virt_addr : Z) : M bool :=
  flags ← catch (get_flags virt_addr);
  match flags with
  | Ok f => ret (contains f DEMAND)
  | Err NotMapped => ret false
  | Err e => throw e
  end.

(** *** Huge pages *)

Fixpoint huge_walk (phys_addr flags : Z) (page_size : HugePageSize) (indices : list Z)
    (level table : Z) : M unit :=
  match indices with
  | [] => throw InvalidPageSize
  | index :: rest =>
    if level =? HugePageSize.page_table_level page_size then
      e ← entry table index;
      if PageTableEntry.is_present e then throw AlreadyMapped
      else
        write_entry table index
          (PageTableEntry.set phys_addr (bitor (bitor flags PRESENT) HUGE)) ;;
        (match page_size with
         | Size2MB => count total_huge_2mb_pages 1
         | Size1GB => count total_huge_1gb_pages 1
         | Size4KB => ret tt
         end) ;;
        add_mapped (HugePageSize.bytes page_size / PAGE_SIZE)
    else
      next ← next_table table index;
      huge_walk phys_addr flags page_size rest (level + 1) next
  end.

(* src: mielin-kernel/src/vmm.rs 980-1063 AddressSpace::map_huge *)
Definition map_huge (virt_addr phys_addr : Z) (page_size : HugePageSize) (flags : Z) : M unit :=
  match page_size with
  | Size4KB => throw InvalidPageSize
  | _ =>
    if negb (HugePageSize.is_aligned page_size virt_addr) ||
       negb (HugePageSize.is_aligned page_size phys_addr)
    then throw UnalignedHugePage
    else
      self ← get_self;
      huge_walk phys_addr flags page_size (page_table_indices virt_addr) 0 (root_table_phys self)
  end.

Fixpoint huge_loop (indices : list Z) (level table : Z) : M (option HugePageSize) :=
  match indices with
  | [] => ret None
  | index :: rest =>
    e ← entry table index;
    if negb (PageTableEntry.is_present e) then ret None
    else if contains (PageTableEntry.flags e) HUGE then
      if level =? 1 then ret (Some Size1GB)
      else if level =? 2 then ret (Some Size2MB)
      else throw InvalidEntry
    else if level <? 3 then huge_loop rest (level + 1) (PageTableEntry.phys_addr e)
    else ret (Some Size4KB)
  end.

(* src: mielin-kernel/src/vmm.rs 1066-1097 AddressSpace::is_huge_page *)
Definition is_huge_page (virt_addr : Z) : M (option HugePageSize) :=
  self ← get_self;
  huge_loop (page_table_indices virt_addr) 0 (root_table_phys self).

(** *** Device memory *)

(** [size.div_ceil(PAGE_SIZE)]. *)
Definition num_pages (size : Z) : Z := (size + (PAGE_SIZE - 1)) / PAGE_SIZE.

(** [self.map(virt + i * PAGE_SIZE, phys + i * PAGE_SIZE, flags)?] for each page. *)
Definition map_range (n virt_addr phys_addr flags : Z) : M unit :=
  for_each (Z.to_nat n) 0 (λ i,
    page_virt ← page_at virt_addr i;
    page_phys ← page_at phys_addr i;
    map page_virt page_phys flags).

(* src: mielin-kernel/src/vmm.rs 1112-1154 AddressSpace::map_mmio *)
Definition map_mmio (virt_addr phys_addr size : Z) (writable : bool) : M Z :=
  if misaligned virt_addr || misaligned phys_addr then throw InvalidVirtualAddress else
  let n := num_pages size in
  let flags := bitor (bitor (bitor (bitor PRESENT CACHE_DISABLE) WRITE_THROUGH) NO_EXECUTE) MMIO in
  let flags := if writable then bitor flags WRITABLE else flags in
  map_range n virt_addr phys_addr flags ;;
  count total_mmio_regions 1 ;;
  count total_mmio_pages n ;;
  ret n.

Fixpoint unmap_loop (n : nat) (i virt_addr unmapped : Z) : M Z :=
  match n with
  | O => ret unmapped
  | S n' =>
    page_virt ← page_at virt_addr i;
    r ← catch (unmap page_virt);
    match r with
    | Ok _ => unmap_loop n' (i + 1) virt_addr (unmapped + 1)
    | Err NotMapped => unmap_loop n' (i + 1) virt_addr unmapped
    | Err e => throw e
    end
  end.

(* src: mielin-kernel/src/vmm.rs 1164-1190 AddressSpace::unmap_mmio *)
Definition unmap_mmio (virt_addr size : Z) : M Z :=
  if misaligned virt_addr then throw InvalidVirtualAddress else
  unmapped ← unmap_loop (Z.to_nat (num_pages size)) 0 virt_addr 0;
  count total_mmio_regions (-1) ;;
  count total_mmio_pages (- unmapped) ;;
  ret unmapped.

(* src: mielin-kernel/src/vmm.rs 1193-1196 AddressSpace::is_mmio *)
Definition is_mmio (virt_addr : Z) : M bool :=
  flags ← get_flags virt_addr; ret (contains flags MMIO).

(** *** Shared regions *)

(* src: mielin-kernel/src/vmm.rs 1210-1251 AddressSpace::create_shared_region *)
Definition create_shared_region (virt_addr size flags : Z) : M Z :=
  if misaligned virt_addr then throw InvalidVirtualAddress else
  let n := num_pages size in
  base_phys ← allocate_pages n;
  let shared_flags := bitor flags SHARED in
  map_range n virt_addr base_phys shared_flags ;;
  w ← get_vm;
  let '(region_id, reg) :=
    SharedMemoryRegistry.create_region (shared_memory w) virt_addr size base_phys shared_flags in
  modify_vm (set_shared reg) ;;
  count total_shared_regions 1 ;;
  count total_shared_pages n ;;
  ret region_id.

(* src: mielin-kernel/src/vmm.rs 1263-1294 AddressSpace::attach_shared_region *)
Definition attach_shared_region (region_id virt_addr : Z) : M Z :=
  if misaligned virt_addr then throw InvalidVirtualAddress else
  w ← get_vm;
  match SharedMemoryRegistry.get_region (shared_memory w) region_id with
  | None => throw InvalidEntry
  | Some region =>
    let '(r, reg) := SharedMemoryRegistry.inc_ref (shared_memory w) region_id in
    modify_vm (set_shared reg) ;;
    match r with
    | Err e => throw e
    | Ok _ =>
      let n := num_pages (sr_size region) in
      map_range n virt_addr (sr_phys_addr region) (sr_flags region) ;;
      ret n
    end
  end.

(* src: mielin-kernel/src/vmm.rs 1305-1346 AddressSpace::detach_shared_region *)
Definition detach_shared_region (region_id virt_addr : Z) : M unit :=
  w ← get_vm;
  match SharedMemoryRegistry.get_region (shared_memory w) region_id with
  | None => throw InvalidEntry
  | Some region =>
    let '(r, reg) := SharedMemoryRegistry.dec_ref (shared_memory w) region_id in
    modify_vm (set_shared reg) ;;
    match r with
    | Err e => throw e
    | Ok should_free =>
      let n := num_pages (sr_size region) in
      for_each (Z.to_nat n) 0 (λ i,
        page_virt ← page_at virt_addr i;
        _ ← catch (unmap page_virt); ret tt) ;;
      if should_free : bool then
        for_each (Z.to_nat n) 0 (λ i,
          page_phys ← page_at (sr_phys_addr region) i;
          free_page page_phys) ;;
        count total_shared_regions (-1) ;;
        count total_shared_pages (- n)
      else ret tt
    end
  end.

(* src: mielin-kernel/src/vmm.rs 1383-1387 AddressSpace::drop *)
Definition drop (self : AddressSpace) (w : Vm F) : Vm F :=
  set_state (free_asid (asid self) (vmm_state w)) w.

End vmm.
End AddressSpace.
