(* ===== verification/VmmInv.v ===== *)
(** * The page-table invariant

    The frames that hold page tables, each with the root it belongs to and the
    path of indices that leads to it, and what the writes of the methods do to the
    entries that the walks end at. *)

From stdpp Require Import base tactics option list numbers gmap.
From S2P Require Import Prelude Errors Frames Vmm.
Import PageTableFlags AddressSpace.

Definition in_range (i : Z) : Prop := 0 <= i < 512.

(** ** Bits of an entry *)

Lemma frame_mask a : is_frame a → Z.land a ADDR_MASK = a.
Proof.
  intros Ha. destruct (frame_page a Ha) as [E H0]. destruct Ha as [Ha _].
  replace ADDR_MASK with (Z.shiftl (Z.ones 40) 12) by reflexivity.
  replace a with (Z.shiftl (a / 4096) 12) at 1 by (rewrite Z.shiftl_mul_pow2; lia).
  rewrite <-Z.shiftl_land, Z.land_ones, Z.mod_small, Z.shiftl_mul_pow2; [lia|lia| |lia].
  split; [lia|]. apply Z.div_lt_upper_bound; unfold FRAME_LIMIT in *; lia.
Qed.

(** [set] keeps the frame when the flags have no bit in the address field. *)
Lemma phys_addr_set a f :
  PageTableEntry.phys_addr (PageTableEntry.set a f) = Z.lor (Z.land a ADDR_MASK) (Z.land f ADDR_MASK).
Proof.
  unfold PageTableEntry.phys_addr, PageTableEntry.set. rewrite Z.land_lor_distr_l.
  by rewrite <-(Z.land_assoc a), Z.land_diag.
Qed.

Lemma phys_addr_set_frame a f :
  is_frame a → Z.land f ADDR_MASK = 0 → PageTableEntry.phys_addr (PageTableEntry.set a f) = a.
Proof. intros Ha Hf. by rewrite phys_addr_set, Hf, Z.lor_0_r, frame_mask. Qed.

Lemma is_present_bit e : PageTableEntry.is_present e = Z.testbit e 0.
Proof.
  unfold PageTableEntry.is_present, PRESENT. replace 1 with (Z.ones 1) by reflexivity.
  rewrite Z.land_ones, Z.bit0_odd by lia. change (2 ^ 1) with 2. rewrite Zmod_odd. by destruct (Z.odd e).
Qed.

Lemma set_present a f : PageTableEntry.is_present (PageTableEntry.set a f) = PageTableEntry.is_present f.
Proof.
  rewrite !is_present_bit. unfold PageTableEntry.set. by rewrite Z.lor_spec, Z.land_spec, andb_false_r.
Qed.

Lemma bitor_present f : PageTableEntry.is_present (bitor f PRESENT) = true.
Proof. rewrite is_present_bit. unfold bitor. rewrite Z.lor_spec. apply orb_true_r. Qed.

(** ** Tables *)

Section tables.
Context {F : Type} `{FrameAllocatorLaws F}.
Implicit Types (m : memory) (w : Vm F).

(** The table that a path of indices leads to from the table at [b]. *)
Fixpoint table_at m (b : Z) (p : list Z) : option Z :=
  match p with
  | [] => Some b
  | i :: p' =>
    let e := m (entry_addr b i) in
    if PageTableEntry.is_present e then table_at m (PageTableEntry.phys_addr e) p' else None
  end.

(** The entry at the end of a walk; 0 when a table on the way is missing. *)
Definition leaf m (r : Z) (p : list Z) (i : Z) : Z :=
  match table_at m r p with Some b => m (entry_addr b i) | None => 0 end.

(** The tables of all address spaces: root and path. *)
Abbreviation tables := (gmap Z (Z * list Z)).

Definition path_ok (p : list Z) : Prop := (length p <= 3)%nat ∧ Forall in_range p.

Record vm_ok (w : Vm F) (T : tables) : Prop := {
  vo_frames : frames_ok (frames w);
  vo_used : ∀ b r p, T !! b = Some (r, p) → frame_used (frames w) b;
  vo_path : ∀ b r p, T !! b = Some (r, p) → path_ok p ∧ T !! r = Some (r, []) ∧ table_at (mem w) r p = Some b;
  vo_next : ∀ b r p i, T !! b = Some (r, p) → (length p < 3)%nat → in_range i →
    PageTableEntry.is_present (mem w (entry_addr b i)) = true →
    T !! PageTableEntry.phys_addr (mem w (entry_addr b i)) = Some (r, p ++ [i]);
}.

Lemma table_at_app m b p q : table_at m b (p ++ q) = table_at m b p ≫= λ b', table_at m b' q.
Proof. revert b. induction p as [|i p IH]; intros b; simpl; [done|]. case_match; [apply IH|done]. Qed.

Lemma path_ok_snoc p i : path_ok (p ++ [i]) ↔ (length p < 3)%nat ∧ path_ok p ∧ in_range i.
Proof.
  unfold path_ok. rewrite length_app, Forall_app, Forall_singleton. simpl. split; [|naive_solver lia].
  intros (? & ? & ?). split_and!; try done; lia.
Qed.

Lemma vo_frame w T b x : vm_ok w T → T !! b = Some x → is_frame b.
Proof. destruct x as [r p]. intros Hok Hb. eapply frame_used_frame, (vo_used _ _ Hok), Hb. Qed.

(** What a path from a root leads to is a table of that root and path. *)
Lemma table_at_table w T r p b :
  vm_ok w T → T !! r = Some (r, []) → path_ok p → table_at (mem w) r p = Some b → T !! b = Some (r, p).
Proof.
  intros Hok Hr. revert b. induction p as [|i p IH] using rev_ind; intros b Hp; [by intros [= <-]|].
  apply path_ok_snoc in Hp as (Hl & Hp & Hi). rewrite table_at_app.
  destruct (table_at (mem w) r p) as [b'|] eqn:E; simpl; [|done].
  destruct (PageTableEntry.is_present _) eqn:Hpr; [|done]. intros [= <-].
  eapply vo_next; eauto.
Qed.

(** Entries of different tables, and different entries, are different words. *)
Lemma entry_addr_inj b b' i i' :
  is_frame b → is_frame b' → in_range i → in_range i' → entry_addr b i = entry_addr b' i' → b = b' ∧ i = i'.
Proof.
  intros Hb Hb' Hi Hi' E. destruct (frame_page b Hb) as [Eb _]. destruct (frame_page b' Hb') as [Eb' _].
  unfold entry_addr, in_range in *. assert (b / 4096 = b' / 4096) by lia. split; lia.
Qed.

Lemma entry_in_frame b i a :
  is_frame b → is_frame a → in_range i → a <= entry_addr b i < a + 4096 → b = a.
Proof.
  intros Hb Ha Hi E. destruct (frame_page b Hb) as [Eb _]. destruct (frame_page a Ha) as [Ea _].
  unfold entry_addr, in_range in *. assert (b / 4096 = a / 4096) by lia. lia.
Qed.

(** Memory that agrees on the entries of the upper levels has the same tables. *)
Definition same_upper (T : tables) m m' : Prop :=
  ∀ b r p i, T !! b = Some (r, p) → (length p < 3)%nat → in_range i → m' (entry_addr b i) = m (entry_addr b i).

Lemma same_upper_table_at w T m' r p :
  vm_ok w T → same_upper T (mem w) m' → T !! r = Some (r, []) → path_ok p →
  table_at m' r p = table_at (mem w) r p.
Proof.
  intros Hok Hs Hr. induction p as [|i p IH] using rev_ind; intros Hp; [done|].
  apply path_ok_snoc in Hp as (Hl & Hp & Hi). rewrite !table_at_app, IH by done.
  destruct (table_at (mem w) r p) as [b|] eqn:E; simpl; [|done].
  erewrite Hs; [done|by eapply table_at_table|done|done].
Qed.

Lemma vm_ok_upper w w' T :
  vm_ok w T → same_upper T (mem w) (mem w') → frames_ok (frames w') →
  (∀ b r p, T !! b = Some (r, p) → frame_used (frames w') b) → vm_ok w' T.
Proof.
  intros Hok Hs Hf Hu. split; [done|done|..].
  - intros b r p Hb. destruct (vo_path _ _ Hok _ _ _ Hb) as (Hp & Hr & E).
    split_and!; try done. by rewrite (same_upper_table_at w T).
  - intros b r p i Hb Hl Hi. erewrite (Hs b r p i) by done. by eapply vo_next.
Qed.

(** ** The three kinds of writes *)

(** A write to an entry of the last level changes that entry and no other. *)
Lemma leaf_write w T t r p i v w' :
  vm_ok w T → T !! t = Some (r, p) → length p = 3%nat → in_range i →
  mem w' = mem_write (entry_addr t i) v (mem w) → frames w' = frames w →
  vm_ok w' T ∧
  ∀ r' p' i', T !! r' = Some (r', []) → path_ok p' → length p' = 3%nat → in_range i' →
    leaf (mem w') r' p' i' = if decide (r' = r ∧ p' = p ∧ i' = i) then v else leaf (mem w) r' p' i'.
Proof.
  intros Hok Ht Hl Hi Em Ef. pose proof (vo_frame _ _ _ _ Hok Ht) as Hft.
  assert (same_upper T (mem w) (mem w')) as Hs.
  { intros b r' p' j Hb Hl' Hj. rewrite Em. unfold mem_write. destruct (Z.eqb_spec (entry_addr b j) (entry_addr t i)) as [E|]; [|done].
    apply entry_addr_inj in E as [-> _]; [|by eapply vo_frame|done..]. rewrite Ht in Hb. simplify_eq. lia. }
  split.
  { eapply vm_ok_upper; [done|done|by rewrite Ef; apply Hok|]. rewrite Ef. apply Hok. }
  intros r' p' i' Hr' Hp' Hl' Hi'. unfold leaf. rewrite (same_upper_table_at w T) by done.
  destruct (table_at (mem w) r' p') as [b|] eqn:E.
  - pose proof (table_at_table _ _ _ _ _ Hok Hr' Hp' E) as Hb. rewrite Em. unfold mem_write.
    destruct (Z.eqb_spec (entry_addr b i') (entry_addr t i)) as [Ea|Ea].
    + apply entry_addr_inj in Ea as [-> ->]; [|by eapply vo_frame|done..]. rewrite Ht in Hb. simplify_eq.
      by rewrite decide_True.
    + rewrite decide_False; [done|]. intros (-> & -> & ->). destruct (vo_path _ _ Hok _ _ _ Ht) as (_ & _ & Ht').
      rewrite Ht' in E. by simplify_eq.
  - rewrite decide_False; [done|]. intros (-> & -> & ->). destruct (vo_path _ _ Hok _ _ _ Ht) as (_ & _ & Ht'). congruence.
Qed.

(** A write to a frame that holds no table changes no entry. *)
Lemma foreign_write w T a w' :
  vm_ok w T → is_frame a → T !! a = None →
  (∀ x, ¬ a <= x < a + 4096 → mem w' x = mem w x) →
  frames_ok (frames w') → (∀ b r p, T !! b = Some (r, p) → frame_used (frames w') b) →
  vm_ok w' T ∧
  ∀ r' p' i', T !! r' = Some (r', []) → path_ok p' → in_range i' → leaf (mem w') r' p' i' = leaf (mem w) r' p' i'.
Proof.
  intros Hok Ha HTa Hm Hf Hu.
  assert (∀ b x i, T !! b = Some x → in_range i → mem w' (entry_addr b i) = mem w (entry_addr b i)) as Hsame.
  { intros b x i Hb Hi. apply Hm. intros Hin. apply entry_in_frame in Hin as ->; [congruence|by eapply vo_frame|done..]. }
  assert (same_upper T (mem w) (mem w')) as Hs by (intros b r p i Hb _ Hi; by eapply Hsame).
  split; [by eapply vm_ok_upper|]. intros r' p' i' Hr' Hp' Hi'. unfold leaf. rewrite (same_upper_table_at w T) by done.
  destruct (table_at (mem w) r' p') as [b|] eqn:E; [|done]. by eapply Hsame, Hi'; eapply table_at_table.
Qed.

(** A pointer to a fresh zeroed table changes no entry of the last level. *)
Section add_table.
Context (w w' : Vm F) (T : tables) (b r : Z) (p : list Z) (i a : Z).
Context (Hok : vm_ok w T) (Hb : T !! b = Some (r, p)) (Hl : (length p < 3)%nat) (Hi : in_range i).
Context (Hnp : PageTableEntry.is_present (mem w (entry_addr b i)) = false).
Context (Ha : is_frame a) (HTa : T !! a = None).
Context (Em : mem w' = mem_write (entry_addr b i)
           (PageTableEntry.set a (Z.lor (Z.lor PRESENT WRITABLE) USER)) (mem_zero a (mem w))).
Context (Hf : frames_ok (frames w')) (Hua : frame_used (frames w') a).
Context (Hu : ∀ b r p, T !! b = Some (r, p) → frame_used (frames w') b).

Local Abbreviation T' := (<[a := (r, p ++ [i])]> T).

Lemma at_new_entry : mem w' (entry_addr b i) = PageTableEntry.set a (Z.lor (Z.lor PRESENT WRITABLE) USER).
Proof using All. rewrite Em. unfold mem_write. by rewrite Z.eqb_refl. Qed.

Lemma at_present : PageTableEntry.is_present (mem w' (entry_addr b i)) = true.
Proof using All. rewrite at_new_entry, set_present. reflexivity. Qed.

Lemma at_phys : PageTableEntry.phys_addr (mem w' (entry_addr b i)) = a.
Proof using All. rewrite at_new_entry. by apply phys_addr_set_frame. Qed.

Lemma at_old b' x j :
  T !! b' = Some x → in_range j → (b', j) ≠ (b, i) → mem w' (entry_addr b' j) = mem w (entry_addr b' j).
Proof using All.
  intros Hb' Hj Hne. rewrite Em. unfold mem_write, mem_zero. destruct (Z.eqb_spec (entry_addr b' j) (entry_addr b i)) as [E|_].
  { apply entry_addr_inj in E as [-> ->]; [done|by eapply vo_frame|by eapply vo_frame|done..]. }
  destruct (Z.leb_spec a (entry_addr b' j)), (Z.ltb_spec (entry_addr b' j) (a + PAGE_SIZE)); simpl; try done.
  assert (b' = a) as ->; [|congruence]. eapply entry_in_frame; [by eapply vo_frame|done|done|unfold PAGE_SIZE in *; lia].
Qed.

Lemma at_fresh j : in_range j → mem w' (entry_addr a j) = 0.
Proof using All.
  intros Hj. rewrite Em. unfold mem_write, mem_zero. destruct (Z.eqb_spec (entry_addr a j) (entry_addr b i)) as [E|_].
  { apply entry_addr_inj in E as [-> ->]; [congruence|done|by eapply vo_frame|done..]. }
  unfold entry_addr, PAGE_SIZE, in_range in *.
  destruct (Z.leb_spec a (a + 8 * j)), (Z.ltb_spec (a + 8 * j) (a + 4096)); simpl; done || lia.
Qed.

(** Present pointers of the old tables are unchanged. *)
Lemma at_mono r' q x :
  T !! r' = Some (r', []) → path_ok q → table_at (mem w) r' q = Some x → table_at (mem w') r' q = Some x.
Proof using All.
  intros Hr'. revert x. induction q as [|j q IH] using rev_ind; intros x Hq; [done|].
  apply path_ok_snoc in Hq as (Hlq & Hq & Hj). rewrite !table_at_app.
  destruct (table_at (mem w) r' q) as [y|] eqn:E; simpl; [|done]. rewrite (IH y) by done. simpl.
  pose proof (table_at_table _ _ _ _ _ Hok Hr' Hq E) as Hy.
  destruct (decide ((y, j) = (b, i))) as [[= -> ->]|Hne]; [by rewrite Hnp|]. by erewrite at_old.
Qed.

Lemma at_ok : vm_ok w' T'.
Proof using All.
  assert (∀ x y, T !! x = Some y → T' !! x = Some y) as Hsub.
  { intros x y Hx. rewrite lookup_insert_ne; [done|]. intros ->. congruence. }
  split; [done|..]; intros b' r' q.
  - intros [[<- [= <- <-]]|[_ Hb']]%lookup_insert_Some; [done|by eapply Hu].
  - intros [[<- [= <- <-]]|[_ Hb']]%lookup_insert_Some.
    + destruct (vo_path _ _ Hok _ _ _ Hb) as (Hp & Hr & E). split_and!; [by apply path_ok_snoc|by apply Hsub|].
      rewrite table_at_app, (at_mono r p b) by done. simpl. by rewrite at_present, at_phys.
    + destruct (vo_path _ _ Hok _ _ _ Hb') as (Hp & Hr & E). split_and!; [done|by apply Hsub|by apply at_mono].
  - intros j. intros [[<- [= <- <-]]|[_ Hb']]%lookup_insert_Some Hlq Hj; [by rewrite at_fresh|].
    destruct (decide ((b', j) = (b, i))) as [[= -> ->]|Hne].
    + rewrite Hb in Hb'. injection Hb' as <- <-. rewrite at_phys. intros _. apply lookup_insert_eq.
    + rewrite (at_old b' (r', q) j) by done. intros Hpr. apply Hsub. by eapply vo_next.
Qed.

Lemma at_leaf r' q j :
  T !! r' = Some (r', []) → path_ok q → length q = 3%nat → in_range j → leaf (mem w') r' q j = leaf (mem w) r' q j.
Proof using All.
  intros Hr' Hq Hlq Hj. unfold leaf. destruct (table_at (mem w) r' q) as [y|] eqn:E.
  - rewrite (at_mono r' q y) by done. pose proof (table_at_table _ _ _ _ _ Hok Hr' Hq E) as Hy.
    erewrite at_old; [done|done|done|]. intros [= -> ->]. rewrite Hb in Hy. injection Hy as _ <-. lia.
  - destruct (table_at (mem w') r' q) as [y|] eqn:E'; [|done].
    assert (T' !! r' = Some (r', [])) as Hr1.
    { rewrite lookup_insert_ne; [done|]. intros ->. congruence. }
    pose proof (table_at_table _ _ _ _ _ at_ok Hr1 Hq E') as Hy.
    apply lookup_insert_Some in Hy as [[<- _]|[_ Hy]]; [by apply at_fresh|].
    apply (vo_path _ _ Hok) in Hy as (_ & _ & Hy). congruence.
Qed.
End add_table.
End tables.

(** * What the methods of an address space do *)

Import PageTableFlags AddressSpace.

(** ** Page numbers *)

(** The 36 bits of an address that the tables look at. *)
Definition vpn (va : Z) : Z := (va / 4096) mod 2 ^ 36.

Definition key_path (k : Z) : list Z := [k / 2 ^ 27 mod 512; k / 2 ^ 18 mod 512; k / 2 ^ 9 mod 512].
Definition key_slot (k : Z) : Z := k mod 512.
Definition key_ok (k : Z) : Prop := 0 <= k < 2 ^ 36.

Lemma vpn_ok va : key_ok (vpn va).
Proof. apply Z.mod_pos_bound. lia. Qed.

Lemma key_path_ok k : path_ok (key_path k) ∧ length (key_path k) = 3%nat.
Proof. split; [split; [done|]|done]. unfold key_path, in_range. repeat constructor; apply Z.mod_pos_bound; lia. Qed.

Lemma key_slot_ok k : in_range (key_slot k).
Proof. apply Z.mod_pos_bound. lia. Qed.

Lemma key_inj k k' : key_ok k → key_ok k' → key_path k = key_path k' → key_slot k = key_slot k' → k = k'.
Proof. unfold key_ok, key_path, key_slot. intros ?? [=] ?. Z.div_mod_to_equations. lia. Qed.

(** Nine bits of the low 36 bits of a number. *)
Lemma mod_field x n : 0 <= n <= 27 → (x mod 2 ^ 36) / 2 ^ n mod 2 ^ 9 = x / 2 ^ n mod 2 ^ 9.
Proof.
  intros Hn. apply Z.bits_inj'. intros i Hi. destruct (Z.ltb_spec i 9).
  - rewrite !Z.mod_pow2_bits_low, !Z.div_pow2_bits, Z.mod_pow2_bits_low by lia. done.
  - by rewrite !Z.mod_pow2_bits_high by lia.
Qed.

Lemma indices_key va : page_table_indices va = key_path (vpn va) ++ [key_slot (vpn va)].
Proof.
  unfold page_table_indices, key_path, key_slot, vpn. simpl. change 511 with (Z.ones 9).
  rewrite !Z.land_ones, !Z.shiftr_div_pow2 by lia. change (2 ^ 9) with 512.
  change 4096 with (2 ^ 12). change 512 with (2 ^ 9).
  rewrite !mod_field, !Z.div_div by lia. rewrite <-(Z.div_1_r ((va / 2 ^ 12) mod 2 ^ 36)).
  change 1 with (2 ^ 0). by rewrite mod_field, Z.div_1_r by lia.
Qed.

(** The page that [addr & !0xfff] starts is the page of [addr]. *)
Lemma page_of_div va : 0 <= va <= U64_MAX → page_of va = va / 4096 * 4096.
Proof.
  intros Hva. unfold page_of. change (not64 4095) with (Z.shiftl (Z.ones 52) 12).
  apply Z.bits_inj'. intros n Hn. rewrite Z.land_spec, Z.shiftl_spec by lia.
  change 4096 with (2 ^ 12). rewrite <-Z.shiftl_mul_pow2, <-Z.shiftr_div_pow2, Z.shiftl_spec by lia.
  destruct (Z.ltb_spec n 12).
  - rewrite (Z.testbit_neg_r _ (n - 12)), andb_false_r by lia. by rewrite Z.testbit_neg_r by lia.
  - rewrite Z.shiftr_spec by lia. replace (n - 12 + 12) with n by lia.
    destruct (Z.ltb_spec n 64).
    + rewrite Z.ones_spec_low by lia. apply andb_true_r.
    + rewrite (Z.bits_above_log2 va n); [done|lia|].
      destruct (decide (va = 0)) as [->|]; [simpl; lia|]. apply Z.log2_lt_pow2; [lia|].
      apply Z.lt_le_trans with (2 ^ 64); [lia|]. apply Z.pow_le_mono_r; lia.
Qed.

Lemma vpn_page_of va : 0 <= va <= U64_MAX → vpn (page_of va) = vpn va.
Proof. intros Hva. unfold vpn. rewrite page_of_div, Z.div_mul by lia. done. Qed.

Lemma misaligned_mod a : misaligned a = negb (a mod 4096 =? 0).
Proof. unfold misaligned. change 4095 with (Z.ones 12). by rewrite Z.land_ones. Qed.

(** ** Running methods *)

Section monad.
Context {F : Type} `{FrameAllocator F}.
Local Abbreviation M := (AddressSpace.M (F:=F)).

Lemma returns_mbind {A B} (m : M A) (k : A → M B) c Q :
  returns (m c) (λ '(r, c'), match r with Ok a => returns (k a c') Q | Err e => Q (Err e, c') end) →
  returns ((m ≫= k) c) Q.
Proof. unfold mbind, M_bind, bind. by destruct (m c) as [[[] ?]| |]. Qed.

Lemma mbind_assoc {A B C} (m : M A) (f : A → M B) (g : B → M C) c :
  ((m ≫= f) ≫= g) c = (m ≫= λ x, f x ≫= g) c.
Proof. unfold mbind, M_bind, bind. by destruct (m c) as [[[] ?]| |]. Qed.

Lemma mbind_ext {A B} (m : M A) (f g : A → M B) c : (∀ a c', f a c' = g a c') → (m ≫= f) c = (m ≫= g) c.
Proof. intros Hfg. unfold mbind, M_bind, bind. destruct (m c) as [[[] ?]| |]; simpl; auto. Qed.

Lemma mbind_ok {A B} (m : M A) (k : A → M B) c a c' : m c = Ret (Ok a, c') → (m ≫= k) c = k a c'.
Proof. unfold mbind, M_bind, bind. by intros ->. Qed.

Lemma mbind_err {A B} (m : M A) (k : A → M B) c e c' : m c = Ret (Err e, c') → (m ≫= k) c = Ret (Err e, c').
Proof. unfold mbind, M_bind, bind. by intros ->. Qed.

Lemma entry_ok t i (c : AddressSpace * Vm F) : in_range i → entry t i c = Ret (Ok (mem c.2 (entry_addr t i)), c).
Proof. intros Hi. unfold entry, ENTRIES_PER_TABLE. destruct (Z.ltb_spec i 512); [done|]. unfold in_range in Hi. lia. Qed.
End monad.

(** ** Effects of the methods *)

Section methods.
Context {F : Type} `{FrameAllocatorLaws F}.
Implicit Types (w : Vm F) (s : AddressSpace).

(** The entry of page [k] in the space with the root [r]. *)
Definition entry_of w (r k : Z) : Z := leaf (mem w) r (key_path k) (key_slot k).

Definition is_root (T : gmap Z (Z * list Z)) (r : Z) : Prop := T !! r = Some (r, []).

(** No entry of the spaces in [T] changed. *)
Definition same_entries (T : gmap Z (Z * list Z)) w w' : Prop :=
  ∀ r k, is_root T r → key_ok k → entry_of w' r k = entry_of w r k.

(** The entry of page [k0] in the space [r0] became [v], and no other changed. *)
Definition one_entry (T : gmap Z (Z * list Z)) (r0 k0 v : Z) w w' : Prop :=
  ∀ r k, is_root T r → key_ok k →
    entry_of w' r k = if decide (r = r0 ∧ k = k0) then v else entry_of w r k.

(** What the walks leave alone. *)
Definition same_rest w w' : Prop :=
  page_refcount w' = page_refcount w ∧ shared_memory w' = shared_memory w ∧ vmm_state w' = vmm_state w.

Lemma is_root_mono T T' r : T ⊆ T' → is_root T r → is_root T' r.
Proof. intros Hsub Hr. by eapply lookup_weaken. Qed.

Lemma same_entries_trans T T' w1 w2 w3 :
  T ⊆ T' → same_entries T w1 w2 → same_entries T' w2 w3 → same_entries T w1 w3.
Proof. intros Hsub H1 H2 r k Hr Hk. rewrite H2; [by apply H1|by eapply is_root_mono|done]. Qed.

Lemma same_then_one T T' r0 k0 v w1 w2 w3 :
  T ⊆ T' → same_entries T w1 w2 → one_entry T' r0 k0 v w2 w3 → one_entry T r0 k0 v w1 w3.
Proof. intros Hsub H1 H2 r k Hr Hk. rewrite H2 by (by eapply is_root_mono || done). case_decide; [done|]. by apply H1. Qed.

Lemma same_rest_trans w1 w2 w3 : same_rest w1 w2 → same_rest w2 w3 → same_rest w1 w3.
Proof. intros (?&?&?) (?&?&?). repeat split; congruence. Qed.

(** *** Allocation *)

Lemma allocate_page_spec s w T :
  vm_ok w T →
  returns (allocate_page (s, w)) (λ '(res, (s', w')), s' = s ∧ same_rest w w' ∧ mem w' = mem w ∧
    vm_ok w' T ∧
    match res with
    | Ok a => is_frame a ∧ T !! a = None ∧ frame_used (frames w') a ∧ ¬ frame_used (frames w) a
    | Err e => e = VmmOutOfMemory
    end).
Proof.
  intros Hok. unfold allocate_page. rewrite frame_alloc_one. simpl.
  pose proof (frame_alloc_n_law (frames w) 1 (vo_frames _ _ Hok) ltac:(lia)) as Ha.
  destruct (frame_alloc_n (frames w) 1) as [[r f]| |]; [|done..]. destruct Ha as [Hf Ha]. simpl.
  assert (∀ b, frame_used (frames w) b → frame_used f b) as Hmono.
  { destruct r as [a|e]; [destruct Ha as (_ & _ & _ & _ & Hu)|rename Ha into Hu]; intros b Hb; apply Hu; auto. }
  split_and!; [done|done|done|..].
  - eapply vm_ok_upper; [done|by intros ?|done|]. intros b r' p Hb. by eapply Hmono, vo_used.
  - destruct r as [a|e]; [|done]. destruct Ha as (_ & Hfa & _ & Hfresh & Hu).
    assert (frame_in a 1 a) as Hin by (split; [done|lia]). split_and!; [done| |apply Hu; auto|by apply Hfresh].
    destruct (T !! a) as [[r p]|] eqn:E; [|done]. destruct (Hfresh a Hin). by eapply vo_used.
Qed.

(** *** Walks *)

Lemma next_table_spec s w T b r p i :
  vm_ok w T → T !! b = Some (r, p) → (length p < 3)%nat → in_range i →
  returns (next_table b i (s, w)) (λ '(res, (s', w')), s' = s ∧ same_rest w w' ∧
    ∃ T', T ⊆ T' ∧ vm_ok w' T' ∧ same_entries T w w' ∧
      match res with Ok n => T' !! n = Some (r, p ++ [i]) | Err e => e = VmmOutOfMemory end).
Proof.
  intros Hok Hb Hl Hi. unfold next_table. rewrite (mbind_ok _ _ _ _ _ (entry_ok b i (s, w) Hi)). simpl.
  destruct (PageTableEntry.is_present (mem w (entry_addr b i))) eqn:Hp.
  - rewrite (mbind_ok _ _ _ tt (s, w)) by done. rewrite (mbind_ok _ _ _ _ _ (entry_ok b i (s, w) Hi)). simpl.
    split_and!; [done|done|]. exists T. split_and!; [done|done|by intros ?|]. by eapply vo_next.
  - rewrite mbind_assoc. apply returns_mbind. pose proof (allocate_page_spec s w T Hok) as Ha.
    destruct (allocate_page (s, w)) as [[[a|e] [s1 w1]]| |]; [..|done|done]; destruct Ha as (-> & Hr & Em & Hok1 & Ha).
    + destruct Ha as (Hfa & HTa & Hua & _). simpl. unfold zero, write_entry, modify_vm.
      assert (PageTableEntry.is_present (mem w1 (entry_addr b i)) = false) as Hp1 by by rewrite Em.
      match goal with |- returns _ ?Q => set (Post := Q) end.
      unfold mbind, M_bind, bind. simpl. rewrite entry_ok by done. simpl.
      set (w2 := set_mem _ _).
      assert (mem w2 = mem_write (entry_addr b i) (PageTableEntry.set a (Z.lor (Z.lor PRESENT WRITABLE) USER))
                (mem_zero a (mem w1))) as Em2 by done.
      assert (∀ b' r' p', T !! b' = Some (r', p') → frame_used (frames w2) b') as Hu by apply Hok1.
      pose proof (at_ok w1 w2 T b r p i a Hok1 Hb Hl Hi Hp1 Hfa HTa Em2 (vo_frames _ _ Hok1) Hua Hu) as Hok2.
      pose proof (at_phys w1 w2 T b r p i a Hok1 Hb Hl Hi Hp1 Hfa HTa Em2 (vo_frames _ _ Hok1) Hua Hu) as Hph.
      split_and!; [done|exact Hr|]. exists (<[a:=(r, p ++ [i])]> T).
      split_and!; [by apply insert_subseteq|done| |].
      * intros r' k Hr' Hk. destruct (key_path_ok k). unfold entry_of.
        rewrite (at_leaf w1 w2 T b r p i a Hok1 Hb Hl Hi Hp1 Hfa HTa Em2 (vo_frames _ _ Hok1) Hua Hu) by (done || apply key_slot_ok).
        by rewrite Em.
      * change (mem_write _ _ _) with (mem w2). rewrite Hph. apply lookup_insert_eq.
    + split_and!; [done|done|]. exists T. split_and!; [done|done| |done].
      intros r' k Hr' Hk. unfold entry_of. by rewrite Em.
Qed.

(** The three upper levels of the walks that create tables. *)
Fixpoint descend (b : Z) (p : list Z) : M (F:=F) Z :=
  match p with [] => mret b | i :: p' => t ← next_table b i; descend t p' end.

Lemma descend_spec s r p : ∀ q w T b,
  vm_ok w T → T !! b = Some (r, q) → (length q + length p <= 3)%nat → Forall in_range p →
  returns (descend b p (s, w)) (λ '(res, (s', w')), s' = s ∧ same_rest w w' ∧
    ∃ T', T ⊆ T' ∧ vm_ok w' T' ∧ same_entries T w w' ∧
      match res with Ok n => T' !! n = Some (r, q ++ p) | Err e => e = VmmOutOfMemory end).
Proof.
  induction p as [|i p IH]; intros q w T b Hok Hb Hl Hp; cbn [descend].
  { split_and!; [done|done|]. exists T. rewrite app_nil_r. done. }
  apply Forall_cons in Hp as [Hi Hp]. cbn [length] in Hl. apply returns_mbind.
  pose proof (next_table_spec s w T b r q i Hok Hb ltac:(lia) Hi) as Hn.
  destruct (next_table b i (s, w)) as [[[n|e] [s1 w1]]| |]; [..|done|done];
    destruct Hn as (-> & Hr & T1 & Hsub & Hok1 & Hsame & Hn); [|split_and!; eauto 10].
  pose proof (IH (q ++ [i]) w1 T1 n Hok1 Hn) as Hd. rewrite length_app in Hd. specialize (Hd ltac:(simpl; lia) Hp).
  cbn [returns]. eapply returns_mono; [exact Hd|]. intros [res [s2 w2]] (-> & Hr2 & T2 & Hsub2 & Hok2 & Hsame2 & Hres).
  split_and!; [done|by eapply same_rest_trans|]. exists T2.
  split_and!; [by etrans|done|by eapply same_entries_trans|]. destruct res; [|done]. by rewrite <-(assoc_L (++)) in Hres.
Qed.

(** The entry of a page, once its table is there. *)
Lemma entry_of_table w T t r k :
  vm_ok w T → T !! t = Some (r, key_path k) → entry_of w r k = mem w (entry_addr t (key_slot k)).
Proof. intros Hok Ht. unfold entry_of, leaf. by destruct (vo_path _ _ Hok _ _ _ Ht) as (_ & _ & ->). Qed.

(** Writing the entry of page [k] of the space [r]. *)
Lemma write_entry_spec w T t r k v w' :
  vm_ok w T → T !! t = Some (r, key_path k) → key_ok k →
  mem w' = mem_write (entry_addr t (key_slot k)) v (mem w) → frames w' = frames w →
  vm_ok w' T ∧ one_entry T r k v w w'.
Proof.
  intros Hok Ht Hk Em Ef. destruct (key_path_ok k) as [_ Hlen].
  destruct (leaf_write w T t r (key_path k) (key_slot k) v w' Hok Ht Hlen (key_slot_ok k) Em Ef) as [Hok' Hleaf].
  split; [done|]. intros r' k' Hr' Hk'. unfold entry_of.
  destruct (key_path_ok k'). rewrite Hleaf by (done || apply key_slot_ok).
  destruct (decide (r' = r ∧ k' = k)) as [[-> ->]|Hne]; [by rewrite decide_True|].
  rewrite decide_False; [done|]. intros (-> & ? & ?). apply Hne. split; [done|]. by apply key_inj.
Qed.

(** *** Mapping *)

(** A walk that creates tables on the upper levels goes down and then on. *)
Lemma walk_descend {A} (f : list Z → Z → Z → M (F:=F) A) :
  (∀ i rest level t c, level < 3 → f (i :: rest) level t c = (n ← next_table t i; f rest (level + 1) n) c) →
  ∀ p rest level t c, level + Z.of_nat (length p) <= 3 →
    f (p ++ rest) level t c = (n ← descend t p; f rest (level + Z.of_nat (length p)) n) c.
Proof.
  intros Hf. induction p as [|i p IH]; intros rest level t c Hl.
  { simpl. by rewrite Z.add_0_r. }
  cbn [length] in *. cbn [app descend]. rewrite Hf by lia. rewrite mbind_assoc.
  apply mbind_ext. intros n c'. rewrite IH by lia. apply mbind_ext. intros n' c''. f_equal. lia.
Qed.

Lemma map_walk_step pa fl i rest level t (c : AddressSpace * Vm F) :
  level < 3 → map_walk pa fl (i :: rest) level t c = (n ← next_table t i; map_walk pa fl rest (level + 1) n) c.
Proof. intros Hl. cbn [map_walk]. by rewrite (proj2 (Z.ltb_lt _ _) Hl). Qed.

Lemma demand_walk_step fl i rest level t (c : AddressSpace * Vm F) :
  level < 3 → demand_walk fl (i :: rest) level t c = (n ← next_table t i; demand_walk fl rest (level + 1) n) c.
Proof. intros Hl. cbn [demand_walk]. by rewrite (proj2 (Z.ltb_lt _ _) Hl). Qed.

(** What [map] does, on every branch. *)
Definition map_post (T : gmap Z (Z * list Z)) (va pa fl : Z) s w
    (res : result unit VmmError) s' w' : Prop :=
  let r := root_table_phys s in
  match res with
  | Ok _ =>
    va mod 4096 = 0 ∧ pa mod 4096 = 0 ∧ PageTableEntry.is_present (entry_of w r (vpn va)) = false ∧
    one_entry T r (vpn va) (PageTableEntry.set pa (bitor fl PRESENT)) w w' ∧
    s' = mkSpace r (asid s) (wrap64 (mapped_pages s + 1))
  | Err e =>
    same_entries T w w' ∧ s' = s ∧
    (e = InvalidVirtualAddress ∧ (va mod 4096 ≠ 0 ∨ pa mod 4096 ≠ 0) ∨
     e = AlreadyMapped ∧ PageTableEntry.is_present (entry_of w r (vpn va)) = true ∨
     e = VmmOutOfMemory)
  end.

Lemma map_spec s w T va pa fl :
  vm_ok w T → is_root T (root_table_phys s) →
  returns (map va pa fl (s, w)) (λ '(res, (s', w')), same_rest w w' ∧
    ∃ T', T ⊆ T' ∧ vm_ok w' T' ∧ map_post T va pa fl s w res s' w').
Proof.
  intros Hok Hr. unfold map, map_post. rewrite !misaligned_mod.
  destruct (Z.eqb_spec (va mod 4096) 0) as [Hva|]; cbn [negb orb].
  2:{ split; [done|]. exists T. split_and!; [done|done|by intros ?|done|auto]. }
  destruct (Z.eqb_spec (pa mod 4096) 0) as [Hpa|]; cbn [negb orb].
  2:{ split; [done|]. exists T. split_and!; [done|done|by intros ?|done|auto]. }
  rewrite (mbind_ok _ _ _ s (s, w)) by done. rewrite indices_key, (walk_descend _ (map_walk_step pa fl)) by done.
  apply returns_mbind. destruct (key_path_ok (vpn va)) as [[_ Hrange] _].
  pose proof (descend_spec s (root_table_phys s) (key_path (vpn va)) [] w T _ Hok Hr ltac:(done) Hrange) as Hd.
  destruct (descend _ _ _) as [[[t|e] [s1 w1]]| |]; [..|done|done];
    destruct Hd as (-> & Hrest & T1 & Hsub & Hok1 & Hsame & Ht); cbn [returns].
  2:{ split; [done|]. exists T1. subst. split_and!; auto. }
  change (0 + Z.of_nat (length (key_path (vpn va)))) with 3. cbn [map_walk app Z.ltb Z.compare Pos.compare Pos.compare_cont] in *.
  rewrite (mbind_ok _ _ _ _ _ (entry_ok t _ (s, w1) (key_slot_ok _))). cbn [snd].
  rewrite <-(entry_of_table w1 T1 t _ _ Hok1 Ht), (Hsame _ _ Hr (vpn_ok va)).
  destruct (PageTableEntry.is_present (entry_of w (root_table_phys s) (vpn va))) eqn:Hp.
  { split; [done|]. exists T1. split_and!; auto. }
  unfold write_entry, modify_vm, add_mapped, mbind, M_bind, bind. simpl.
  set (w2 := set_mem _ w1). destruct (write_entry_spec w1 T1 t (root_table_phys s) (vpn va)
    (PageTableEntry.set pa (bitor fl PRESENT)) w2 Hok1 Ht (vpn_ok va) eq_refl eq_refl) as [Hok2 Hone].
  split; [exact Hrest|]. exists T1. split_and!; try done. by eapply same_then_one.
Qed.

(** *** Looking up *)

Lemma walk_path i p : ∀ level t (c : AddressSpace * Vm F),
  in_range i → Forall in_range p → level + Z.of_nat (length p) = 3 →
  walk (p ++ [i]) level t c =
  Ret (match table_at (mem c.2) t p with Some b => Ok (b, i) | None => Err NotMapped end, c).
Proof.
  induction p as [|j p IH]; intros level t c Hi Hp Hl; cbn [app walk table_at].
  - simpl in Hl. rewrite (mbind_ok _ _ _ _ _ (entry_ok t i c Hi)). by replace level with 3 by lia.
  - apply Forall_cons in Hp as [Hj Hp]. cbn [length] in Hl.
    rewrite (mbind_ok _ _ _ _ _ (entry_ok t j c Hj)), (proj2 (Z.ltb_lt level 3)) by lia.
    destruct (PageTableEntry.is_present _); [|done]. apply IH; [done|done|lia].
Qed.

Lemma walk_spec s w va :
  walk (page_table_indices va) 0 (root_table_phys s) (s, w) =
  Ret (match table_at (mem w) (root_table_phys s) (key_path (vpn va)) with
       | Some t => Ok (t, key_slot (vpn va)) | None => Err NotMapped end, (s, w)).
Proof.
  rewrite indices_key, walk_path; [done|apply key_slot_ok|apply key_path_ok|done].
Qed.

Lemma walk_present_spec s w T va :
  vm_ok w T → is_root T (root_table_phys s) →
  let e := entry_of w (root_table_phys s) (vpn va) in
  if PageTableEntry.is_present e then
    ∃ t, walk_present va (s, w) = Ret (Ok (t, key_slot (vpn va), e), (s, w)) ∧
         T !! t = Some (root_table_phys s, key_path (vpn va))
  else walk_present va (s, w) = Ret (Err NotMapped, (s, w)).
Proof.
  intros Hok Hr. cbv zeta. unfold walk_present. rewrite (mbind_ok _ _ _ s (s, w)) by done.
  pose proof (walk_spec s w va) as Hw. unfold entry_of, leaf.
  destruct (table_at (mem w) (root_table_phys s) (key_path (vpn va))) as [t|] eqn:E; [|by rewrite (mbind_err _ _ _ _ _ Hw)].
  rewrite (mbind_ok _ _ _ _ _ Hw), (mbind_ok _ _ _ _ _ (entry_ok t _ (s, w) (key_slot_ok _))). simpl.
  destruct (PageTableEntry.is_present _); [|done]. exists t. split; [done|].
  apply (table_at_table w T); [done|done|apply key_path_ok|done].
Qed.

(** [translate], [get_flags], [is_mmio] and [is_demand_paged] read the entry. *)
Lemma translate_spec s w T va :
  vm_ok w T → is_root T (root_table_phys s) → 0 <= va <= U64_MAX →
  let e := entry_of w (root_table_phys s) (vpn va) in
  translate va (s, w) =
  Ret (if PageTableEntry.is_present e then Ok (Z.lor (PageTableEntry.phys_addr e) (va mod 4096))
       else Err NotMapped, (s, w)).
Proof.
  intros Hok Hr Hva. cbv zeta. unfold translate. pose proof (walk_present_spec s w T (page_of va) Hok Hr) as Hw.
  cbv zeta in Hw. rewrite vpn_page_of in Hw by done. destruct (PageTableEntry.is_present _).
  - destruct Hw as (t & Hw & _). rewrite (mbind_ok _ _ _ _ _ Hw). change 4095 with (Z.ones 12). by rewrite Z.land_ones.
  - by rewrite (mbind_err _ _ _ _ _ Hw).
Qed.

Lemma get_flags_spec s w T va :
  vm_ok w T → is_root T (root_table_phys s) → 0 <= va <= U64_MAX →
  let e := entry_of w (root_table_phys s) (vpn va) in
  get_flags va (s, w) =
  Ret (if PageTableEntry.is_present e then Ok (PageTableEntry.flags e) else Err NotMapped, (s, w)).
Proof.
  intros Hok Hr Hva. cbv zeta. unfold get_flags. pose proof (walk_present_spec s w T (page_of va) Hok Hr) as Hw.
  cbv zeta in Hw. rewrite vpn_page_of in Hw by done. destruct (PageTableEntry.is_present _).
  - destruct Hw as (t & Hw & _). by rewrite (mbind_ok _ _ _ _ _ Hw).
  - by rewrite (mbind_err _ _ _ _ _ Hw).
Qed.

Lemma unmap_spec s w T va :
  vm_ok w T → is_root T (root_table_phys s) →
  returns (unmap va (s, w)) (λ '(res, (s', w')), same_rest w w' ∧ vm_ok w' T ∧
    let r := root_table_phys s in
    match res with
    | Ok a =>
      va mod 4096 = 0 ∧ PageTableEntry.is_present (entry_of w r (vpn va)) = true ∧
      a = PageTableEntry.phys_addr (entry_of w r (vpn va)) ∧
      one_entry T r (vpn va) 0 w w' ∧ s' = mkSpace r (asid s) (wrap64 (mapped_pages s - 1))
    | Err e =>
      w' = w ∧ s' = s ∧
      (e = InvalidVirtualAddress ∧ va mod 4096 ≠ 0 ∨
       e = NotMapped ∧ va mod 4096 = 0 ∧ PageTableEntry.is_present (entry_of w r (vpn va)) = false)
    end).
Proof.
  intros Hok Hr. unfold unmap. rewrite misaligned_mod.
  destruct (Z.eqb_spec (va mod 4096) 0) as [Hva|]; cbn [negb]; [|split_and!; auto; done].
  pose proof (walk_present_spec s w T va Hok Hr) as Hw. cbv zeta in *.
  destruct (PageTableEntry.is_present _) eqn:Hp.
  - destruct Hw as (t & Hw & Ht). rewrite (mbind_ok _ _ _ _ _ Hw). unfold write_entry, modify_vm, add_mapped, mbind, M_bind, bind. simpl.
    set (w2 := set_mem _ w). destruct (write_entry_spec w T t (root_table_phys s) (vpn va) PageTableEntry.clear w2
      Hok Ht (vpn_ok va) eq_refl eq_refl) as [Hok2 Hone]. split_and!; done.
  - rewrite (mbind_err _ _ _ _ _ Hw). simpl. split_and!; auto; done.
Qed.

Lemma protect_spec s w T va fl :
  vm_ok w T → is_root T (root_table_phys s) → 0 <= va <= U64_MAX →
  returns (protect va fl (s, w)) (λ '(res, (s', w')), s' = s ∧ vm_ok w' T ∧ page_refcount w' = page_refcount w ∧
    let r := root_table_phys s in let e := entry_of w r (vpn va) in
    match res with
    | Ok _ => PageTableEntry.is_present e = true ∧
        one_entry T r (vpn va) (PageTableEntry.set (PageTableEntry.phys_addr e) (bitor fl PRESENT)) w w'
    | Err err => w' = w ∧ err = NotMapped ∧ PageTableEntry.is_present e = false
    end).
Proof.
  intros Hok Hr Hva. unfold protect. pose proof (walk_present_spec s w T (page_of va) Hok Hr) as Hw. cbv zeta in *.
  rewrite vpn_page_of in Hw by done. destruct (PageTableEntry.is_present _) eqn:Hp.
  - destruct Hw as (t & Hw & Ht). rewrite (mbind_ok _ _ _ _ _ Hw).
    unfold write_entry, flush_tlb, count, modify_vm, mbind, M_bind, bind. simpl.
    match goal with |- context [mem_write _ ?v _] => set (v0 := v) end. set (w2 := set_state _ _).
    destruct (write_entry_spec w T t (root_table_phys s) (vpn va) v0 w2
      Hok Ht (vpn_ok va) eq_refl eq_refl) as [Hok2 Hone]. split_and!; done.
  - rewrite (mbind_err _ _ _ _ _ Hw). done.
Qed.
End methods.
