(* ===== verification/VmmRefine.v ===== *)
(** * Faults, ranges and the specification of address spaces

    Copy-on-write and demand faults, new address spaces, the loops over the pages of
    a range; then the calls on any number of address spaces, what each is promised to
    do, and that the code does it. *)

From stdpp Require Import base tactics option list numbers gmap.
From S2P Require Import Prelude Errors Frames Vmm VmmInv.
Import PageTableFlags AddressSpace.

Section faults.
Context {F : Type} `{FrameAllocatorLaws F}.
Implicit Types (w : Vm F) (s : AddressSpace).

(** Counts that were never wrapped. *)
Definition refs_ok w : Prop := ∀ a c, page_refcount w !! a = Some c → 1 <= c <= U64_MAX.

(** A frame taken from the allocator and filled: the state in between. *)
Lemma fill_frame w T a (f : memory → memory) :
  vm_ok w T → is_frame a → T !! a = None → frame_used (frames w) a →
  (∀ x, ¬ a <= x < a + 4096 → f (mem w) x = mem w x) →
  vm_ok (set_mem (f (mem w)) w) T ∧ same_entries T w (set_mem (f (mem w)) w).
Proof.
  intros Hok Ha HTa Hu Hf.
  destruct (foreign_write w T a (set_mem (f (mem w)) w) Hok Ha HTa Hf (vo_frames _ _ Hok) (vo_used _ _ Hok)) as [Hok' Hl].
  split; [done|]. intros r k Hr Hk. unfold entry_of. destruct (key_path_ok k).
  apply Hl; [done|done|apply key_slot_ok].
Qed.

Lemma vm_ok_state w T st : vm_ok w T → vm_ok (set_state st w) T.
Proof. intros [? ? ? ?]. by split. Qed.

Lemma vm_ok_refs w T rc : vm_ok w T → vm_ok (set_refs rc w) T.
Proof. intros [? ? ? ?]. by split. Qed.

Lemma vm_ok_shared w T sh : vm_ok w T → vm_ok (set_shared sh w) T.
Proof. intros [? ? ? ?]. by split. Qed.

(** Words of a frame that holds no table survive a write to an entry. *)
Lemma write_entry_outside w T t i v a x :
  vm_ok w T → is_Some (T !! t) → in_range i → is_frame a → T !! a = None → 0 <= x < 4096 →
  mem_write (entry_addr t i) v (mem w) (a + x) = mem w (a + x).
Proof.
  intros Hok [y Ht] Hi Ha HTa Hx. unfold mem_write. destruct (Z.eqb_spec (a + x) (entry_addr t i)) as [E|]; [|done].
  assert (t = a) as ->; [|congruence]. eapply entry_in_frame; [by eapply vo_frame|done|done|lia].
Qed.

(** The words of the frames that hold no table, those in [P] apart. *)
Definition same_data (T : gmap Z (Z * list Z)) (P : Z → Prop) w w' : Prop :=
  ∀ b x, is_frame b → T !! b = None → ¬ P b → 0 <= x < 4096 → mem w' (b + x) = mem w (b + x).

(** What [handle_cow_fault] does, on every branch. *)
Definition cow_post (T : gmap Z (Z * list Z)) (va : Z) s w (res : result unit VmmError) s' w' : Prop :=
  let r := root_table_phys s in
  let e := entry_of w r (vpn va) in
  let old := PageTableEntry.phys_addr e in
  let fl := bitor (bitand (PageTableEntry.flags e) (PageTableFlags.not COW)) WRITABLE in
  s' = s ∧
  match res with
  | Ok _ =>
    PageTableEntry.is_present e = true ∧ contains (PageTableEntry.flags e) COW = true ∧
    if PageRefCount.get_ref (page_refcount w) old <=? 1 then
      page_refcount w' = page_refcount w ∧ one_entry T r (vpn va) (PageTableEntry.set old fl) w w' ∧
      same_data T (λ _, False) w w'
    else
      ∃ a, is_frame a ∧ ¬ frame_used (frames w) a ∧ one_entry T r (vpn va) (PageTableEntry.set a fl) w w' ∧
        (∀ x, 0 <= x < 4096 → mem w' (a + x) = mem w (old + x)) ∧ same_data T (eq a) w w' ∧
        page_refcount w' = <[old := PageRefCount.get_ref (page_refcount w) old - 1]> (page_refcount w)
  | Err err =>
    same_entries T w w' ∧ page_refcount w' = page_refcount w ∧
    (err = NotMapped ∧ PageTableEntry.is_present e = false ∨
     err = WriteProtectionViolation ∧ contains (PageTableEntry.flags e) COW = false ∨
     err = VmmOutOfMemory)
  end.

Lemma dec_ref_many (refs : PageRefCount) a :
  1 < PageRefCount.get_ref refs a <= U64_MAX →
  PageRefCount.dec_ref refs a =
  Ret (PageRefCount.get_ref refs a - 1, <[a := PageRefCount.get_ref refs a - 1]> refs).
Proof.
  unfold PageRefCount.get_ref, PageRefCount.dec_ref. destruct (refs !! a) as [c|]; simpl; [|lia]. intros Hc.
  destruct (Z.eqb_spec c 1); [lia|]. rewrite usize_sub_ok by lia. simpl. by rewrite wrap64_small by lia.
Qed.

(** The branch that copies: after the check of the count. *)
Lemma cow_copy_spec s w T va t (nf : Z) :
  vm_ok w T → is_root T (root_table_phys s) → refs_ok w →
  let r := root_table_phys s in
  let old := PageTableEntry.phys_addr (entry_of w r (vpn va)) in
  T !! t = Some (r, key_path (vpn va)) → 1 < PageRefCount.get_ref (page_refcount w) old →
  returns ((new_phys_addr ← allocate_page;
            modify_vm (λ w, set_mem (mem_copy old new_phys_addr (mem w)) w) ;;
            count total_cow_copies 1 ;;
            write_entry t (key_slot (vpn va)) (PageTableEntry.set new_phys_addr nf) ;;
            w ← get_vm;
            '(remaining, refs) ← lift (PageRefCount.dec_ref (page_refcount w) old);
            modify_vm (set_refs refs) ;;
            (if remaining =? 0 then free_page old else ret tt) ;;
            flush_tlb (page_of va)) (s, w))
    (λ '(res, (s', w')), vm_ok w' T ∧ s' = s ∧
      match res with
      | Ok _ => ∃ a, is_frame a ∧ ¬ frame_used (frames w) a ∧ one_entry T r (vpn va) (PageTableEntry.set a nf) w w' ∧
          (∀ x, 0 <= x < 4096 → mem w' (a + x) = mem w (old + x)) ∧ same_data T (eq a) w w' ∧
          page_refcount w' = <[old := PageRefCount.get_ref (page_refcount w) old - 1]> (page_refcount w)
      | Err err => same_entries T w w' ∧ page_refcount w' = page_refcount w ∧ err = VmmOutOfMemory
      end).
Proof.
  intros Hok Hr Hrefs. cbv zeta. set (r := root_table_phys s) in *.
  set (old := PageTableEntry.phys_addr (entry_of w r (vpn va))). intros Ht Hc.
  apply returns_mbind. pose proof (allocate_page_spec s w T Hok) as Ha.
  destruct (allocate_page (s, w)) as [[[a|e] [s1 w1]]| |]; [..|done|done]; destruct Ha as (-> & (Hrf & _) & Em & Hok1 & Ha); cbn [returns].
  2:{ split_and!; try done. intros r' k Hr' Hk. unfold entry_of. by rewrite Em. }
  destruct Ha as (Hfa & HTa & Hua & Hfr).
  assert (PageRefCount.get_ref (page_refcount w) old <= U64_MAX) as Hmax.
  { unfold PageRefCount.get_ref in *. destruct (page_refcount w !! old) as [c|] eqn:E; simpl in *; [apply (Hrefs _ _ E)|lia]. }
  unfold write_entry, flush_tlb, count, modify_vm, get_vm, lift, mbind, M_bind, bind. simpl.
  rewrite Hrf, dec_ref_many by lia. simpl. destruct (Z.eqb_spec (PageRefCount.get_ref (page_refcount w) old - 1) 0); [lia|]. simpl.
  destruct (fill_frame w1 T a (mem_copy old a) Hok1 Hfa HTa Hua) as [Hok2 Hsame2].
  { intros x Hx. unfold mem_copy, PAGE_SIZE. destruct (Z.leb_spec a x), (Z.ltb_spec x (a + 4096)); simpl; done || lia. }
  set (w2 := set_mem (mem_copy old a (mem w1)) w1) in *. set (w3 := set_state _ _).
  destruct (write_entry_spec w2 T t r (vpn va) (PageTableEntry.set a nf) w3 Hok2 Ht (vpn_ok va) eq_refl eq_refl) as [Hok3 Hone].
  split_and!; [done|done|]. exists a. split_and!; [done|done| | | |done].
  - eapply same_then_one; [done| |exact Hone]. eapply same_entries_trans; [done| |exact Hsame2].
    intros r' k Hr' Hk. unfold entry_of. by rewrite Em.
  - intros x Hx. transitivity (mem w2 (a + x)).
    { apply (write_entry_outside w2 T); [done|by eexists|apply key_slot_ok|done..]. }
    simpl. unfold mem_copy, PAGE_SIZE. rewrite Em.
    destruct (Z.leb_spec a (a + x)), (Z.ltb_spec (a + x) (a + 4096)); simpl; try lia. f_equal. lia.
  - intros b x Hb HTb Hne Hx. transitivity (mem w2 (b + x)).
    { apply (write_entry_outside w2 T); [done|by eexists|apply key_slot_ok|done..]. }
    simpl. unfold mem_copy, PAGE_SIZE. rewrite Em. destruct (frame_page a Hfa), (frame_page b Hb).
    destruct (Z.leb_spec a (b + x)), (Z.ltb_spec (b + x) (a + 4096)); simpl; try done. destruct Hne. lia.
Qed.

Lemma cow_fault_spec s w T va :
  vm_ok w T → is_root T (root_table_phys s) → 0 <= va <= U64_MAX → refs_ok w →
  returns (handle_cow_fault va (s, w)) (λ '(res, (s', w')), vm_ok w' T ∧ cow_post T va s w res s' w').
Proof.
  intros Hok Hr Hva Hrefs. unfold handle_cow_fault, cow_post.
  set (w1 := set_state (VmmState.add total_cow_faults 1 (vmm_state w)) w).
  rewrite (mbind_ok _ _ _ tt (s, w1)) by done. cbv zeta.
  pose proof (vm_ok_state w T _ Hok : vm_ok w1 T) as Hok1.
  assert (0 <= page_of va <= U64_MAX) as Hpg.
  { rewrite page_of_div by done. pose proof (Z.div_mod va 4096 ltac:(lia)). pose proof (Z.mod_pos_bound va 4096 ltac:(lia)).
    pose proof (Z.div_pos va 4096 ltac:(lia) ltac:(lia)). lia. }
  pose proof (translate_spec s w1 T (page_of va) Hok1 Hr Hpg) as Htr. cbv zeta in Htr.
  pose proof (walk_present_spec s w1 T (page_of va) Hok1 Hr) as Hw. cbv zeta in Hw.
  rewrite vpn_page_of in Htr, Hw by done. change (entry_of w1) with (entry_of w) in Htr, Hw.
  rewrite page_of_div in Htr by done. rewrite Z.mod_mul, Z.lor_0_r, <-page_of_div in Htr by (done || lia).
  set (r := root_table_phys s) in *. set (e := entry_of w r (vpn va)) in *.
  destruct (PageTableEntry.is_present e) eqn:Hp.
  2:{ rewrite (mbind_err _ _ _ _ _ Htr). simpl. split_and!; auto; by intros ?. }
  destruct Hw as (t & Hw & Ht). rewrite (mbind_ok _ _ _ _ _ Htr), (mbind_ok _ _ _ _ _ Hw).
  destruct (contains (PageTableEntry.flags e) COW) eqn:Hcow; cbn [negb].
  2:{ split_and!; auto; by intros ?. }
  rewrite (mbind_ok _ _ _ w1 (s, w1)) by done. change (page_refcount w1) with (page_refcount w).
  destruct (Z.leb_spec (PageRefCount.get_ref (page_refcount w) (PageTableEntry.phys_addr e)) 1) as [Hle|Hgt].
  - unfold write_entry, flush_tlb, count, modify_vm, mbind, M_bind, bind. simpl.
    match goal with |- context [mem_write _ ?v _] => set (v0 := v) end. set (w2 := set_state _ _).
    destruct (write_entry_spec w1 T t r (vpn va) v0 w2 Hok1 Ht (vpn_ok va) eq_refl eq_refl) as [Hok2 Hone].
    split_and!; try done. intros b x Hb HTb _ Hx.
    apply (write_entry_outside w1 T); [done|by eexists|apply key_slot_ok|done..].
  - eapply returns_mono; [by apply (cow_copy_spec s w1 T va t)|].
    intros [[[]|err] [s' w']]; cbv zeta; [intros (? & -> & a & ?)|intros (? & -> & ? & ? & ->)]; split_and!; auto.
    exists a. done.
Qed.

(** What [handle_demand_fault] does, on every branch. *)
Definition demand_post (T : gmap Z (Z * list Z)) (va : Z) s w (res : result unit VmmError) s' w' : Prop :=
  let r := root_table_phys s in
  let e := entry_of w r (vpn va) in
  let fl := bitor (bitand (PageTableEntry.flags e) (PageTableFlags.not DEMAND)) PRESENT in
  page_refcount w' = page_refcount w ∧
  match res with
  | Ok _ =>
    contains (PageTableEntry.flags e) DEMAND = true ∧
    s' = mkSpace r (asid s) (wrap64 (mapped_pages s + 1)) ∧
    ∃ a, is_frame a ∧ T !! a = None ∧ one_entry T r (vpn va) (PageTableEntry.set a fl) w w' ∧
      (∀ x, 0 <= x < 4096 → mem w' (a + x) = 0)
  | Err err =>
    s' = s ∧ same_entries T w w' ∧
    ((err = NotMapped ∨ err = PageFault) ∧ contains (PageTableEntry.flags e) DEMAND = false ∨
     err = VmmOutOfMemory)
  end.

Lemma demand_fault_spec s w T va :
  vm_ok w T → is_root T (root_table_phys s) → 0 <= va <= U64_MAX →
  returns (handle_demand_fault va (s, w)) (λ '(res, (s', w')), vm_ok w' T ∧ demand_post T va s w res s' w').
Proof.
  intros Hok Hr Hva. unfold handle_demand_fault, demand_post.
  set (w1 := set_state (VmmState.add total_demand_faults 1 (vmm_state w)) w).
  rewrite (mbind_ok _ _ _ tt (s, w1)) by done. cbv zeta. rewrite (mbind_ok _ _ _ s (s, w1)) by done.
  pose proof (vm_ok_state w T _ Hok : vm_ok w1 T) as Hok1. pose proof (walk_spec s w1 (page_of va)) as Hw.
  rewrite vpn_page_of in Hw by done. change (mem w1) with (mem w) in Hw. set (r := root_table_phys s) in *.
  destruct (table_at (mem w) r (key_path (vpn va))) as [t|] eqn:Et.
  2:{ rewrite (mbind_err _ _ _ _ _ Hw). unfold entry_of, leaf. rewrite Et.
      split_and!; try done. left. auto. }
  rewrite (mbind_ok _ _ _ _ _ Hw), (mbind_ok _ _ _ _ _ (entry_ok t _ (s, w1) (key_slot_ok _))). cbn [snd].
  assert (T !! t = Some (r, key_path (vpn va))) as Ht by (apply (table_at_table w T); [done|done|apply key_path_ok|done]).
  change (mem w1) with (mem w). rewrite <-(entry_of_table w T t r _ Hok Ht). set (e := entry_of w r (vpn va)).
  destruct (contains (PageTableEntry.flags e) DEMAND) eqn:Hd; cbn [negb].
  2:{ split_and!; try done. left. auto. }
  apply returns_mbind. pose proof (allocate_page_spec s w1 T Hok1) as Ha.
  destruct (allocate_page (s, w1)) as [[[a|err] [s1 w2]]| |]; [..|done|done]; destruct Ha as (-> & (Hrf & _) & Em & Hok2 & Ha); cbn [returns].
  2:{ split_and!; try done; [|by right]. intros r' k Hr' Hk. unfold entry_of. by rewrite Em. }
  destruct Ha as (Hfa & HTa & Hua & _). destruct (fill_frame w2 T a (mem_zero a) Hok2 Hfa HTa Hua) as [Hok3 Hsame3].
  { intros x Hx. unfold mem_zero, PAGE_SIZE. destruct (Z.leb_spec a x), (Z.ltb_spec x (a + 4096)); simpl; done || lia. }
  unfold zero, write_entry, flush_tlb, count, modify_vm, add_mapped, mbind, M_bind, bind. simpl.
  match goal with |- context [mem_write _ ?v _] => set (v0 := v) end.
  set (w3 := set_mem (mem_zero a (mem w2)) w2) in *. set (w4 := set_state _ _).
  destruct (write_entry_spec w3 T t r (vpn va) v0 w4 Hok3 Ht (vpn_ok va) eq_refl eq_refl) as [Hok4 Hone].
  split_and!; [done|exact Hrf|done|done|]. exists a. split_and!; [done|done| |].
  - eapply same_then_one; [done| |exact Hone]. eapply same_entries_trans; [done| |exact Hsame3].
    intros r' k Hr' Hk. unfold entry_of. by rewrite Em.
  - intros x Hx. transitivity (mem w3 (a + x)).
    { apply (write_entry_outside w3 T); [done|by eexists|apply key_slot_ok|done..]. }
    simpl. unfold mem_zero, PAGE_SIZE. destruct (Z.leb_spec a (a + x)), (Z.ltb_spec (a + x) (a + 4096)); simpl; done || lia.
Qed.

(** *** New spaces *)

Lemma new_spec w T :
  vm_ok w T →
  returns (AddressSpace.new w) (λ '(res, w'), page_refcount w' = page_refcount w ∧ same_entries T w w' ∧
    match res with
    | Ok s => T !! root_table_phys s = None ∧ mapped_pages s = 0 ∧
        vm_ok w' (<[root_table_phys s := (root_table_phys s, [])]> T) ∧
        ∀ k, key_ok k → entry_of w' (root_table_phys s) k = 0
    | Err e => vm_ok w' T ∧ (e = VmmOutOfMemory ∨ e = AddressSpaceLimitExceeded)
    end).
Proof.
  intros Hok. unfold AddressSpace.new. pose proof (allocate_page_spec (mkSpace 0 0 0) w T Hok) as Ha.
  unfold allocate_page in Ha. cbn [fst snd] in Ha. destruct (frame_alloc (frames w)) as [[[a|e] f]| |]; [..|done|done]; simpl in *.
  2:{ destruct Ha as (_ & _ & _ & Hok1 & _). split_and!; auto. by intros ?. }
  destruct Ha as (_ & _ & _ & Hok1 & Hfa & HTa & Hua & _).
  destruct (fill_frame (set_frames f w) T a (mem_zero a) Hok1 Hfa HTa Hua) as [Hok2 Hsame].
  { intros x Hx. unfold mem_zero, PAGE_SIZE. destruct (Z.leb_spec a x), (Z.ltb_spec x (a + 4096)); simpl; done || lia. }
  assert (∀ i, in_range i → mem_zero a (mem w) (entry_addr a i) = 0) as Hz.
  { intros i Hi. unfold mem_zero, entry_addr, PAGE_SIZE, in_range in *.
    destruct (Z.leb_spec a (a + 8 * i)), (Z.ltb_spec (a + 8 * i) (a + 4096)); simpl; done || lia. }
  simpl in *. destruct (allocate_asid _) as [[n|e] st] eqn:Eas; simpl; split_and!; try done.
  - destruct Hok2 as [? Hu Hp Hn]. split; simpl in *; [done|..].
    + intros b r p [[<- [= <- <-]]|[_ Hb]]%lookup_insert_Some; [done|by eapply Hu].
    + intros b r p [[<- [= <- <-]]|[_ Hb]]%lookup_insert_Some.
      * split_and!; [split; [simpl; lia|constructor]|apply lookup_insert_eq|done].
      * destruct (Hp b r p Hb) as (? & ? & ?). split_and!; try done. rewrite lookup_insert_ne; [done|congruence].
    + intros b r p i [[<- [= <- <-]]|[_ Hb]]%lookup_insert_Some Hl Hi; [by rewrite Hz|].
      intros Hpr. pose proof (Hn b r p i Hb Hl Hi Hpr). rewrite lookup_insert_ne; [done|]. congruence.
  - intros k Hk. unfold entry_of, leaf, key_path. simpl. rewrite Hz; [done|apply Z.mod_pos_bound; lia].
  - by apply vm_ok_state.
  - unfold allocate_asid in Eas. case_match; simplify_eq; auto.
Qed.
End faults.

(** * A system of address spaces *)

Import PageTableFlags AddressSpace.

(** ** Calls *)

Inductive call : Type :=
| CNew
| CMap (i : nat) (va pa fl : Z)
| CUnmap (i : nat) (va : Z)
| CTranslate (i : nat) (va : Z)
| CGetFlags (i : nat) (va : Z)
| CProtect (i : nat) (va fl : Z)
| CMapCow (i : nat) (va pa fl : Z)
| CCowFault (i : nat) (va : Z)
| CMapDemand (i : nat) (va n fl : Z)
| CDemandFault (i : nat) (va : Z).

(** The arguments are 64-bit numbers, and the pages of a range end below 2^64. *)
Definition call_ok (c : call) : Prop :=
  match c with
  | CNew => True
  | CMapDemand _ va n _ => 0 <= va ∧ 0 <= n ∧ va + n * 4096 <= U64_MAX + 1
  | CMap _ va _ _ | CUnmap _ va | CTranslate _ va | CGetFlags _ va | CProtect _ va _ | CMapCow _ va _ _
  | CCowFault _ va | CDemandFault _ va => 0 <= va <= U64_MAX
  end.

(** ** The promise *)

Abbreviation view := (Z → Z).

Definition put (k v : Z) (f : view) : view := λ k', if decide (k' = k) then v else f k'.

(** The entry of the [j] pages from [va] on becomes [v]. *)
Fixpoint put_range (va v : Z) (j : nat) (f : view) : view :=
  match j with O => f | S j' => put (vpn (va + Z.of_nat j' * 4096)) v (put_range va v j' f) end.

(** What a call in a space does to its view, and the results it may have. *)
Definition view_step (c : call) (f : view) (res : result Z VmmError) (f' : view) : Prop :=
  match c with
  | CNew => False
  | CMap _ va pa fl | CMapCow _ va pa fl =>
    let fl' := match c with CMapCow _ _ _ _ => bitor (bitand fl (PageTableFlags.not WRITABLE)) COW | _ => fl end in
    match res with
    | Ok _ => va mod 4096 = 0 ∧ pa mod 4096 = 0 ∧ PageTableEntry.is_present (f (vpn va)) = false ∧
        f' = put (vpn va) (PageTableEntry.set pa (bitor fl' PRESENT)) f
    | Err e => f' = f ∧
        (e = InvalidVirtualAddress ∧ (va mod 4096 ≠ 0 ∨ pa mod 4096 ≠ 0) ∨
         e = AlreadyMapped ∧ PageTableEntry.is_present (f (vpn va)) = true ∨ e = VmmOutOfMemory)
    end
  | CUnmap _ va =>
    match res with
    | Ok a => va mod 4096 = 0 ∧ PageTableEntry.is_present (f (vpn va)) = true ∧
        a = PageTableEntry.phys_addr (f (vpn va)) ∧ f' = put (vpn va) 0 f
    | Err e => f' = f ∧
        (e = InvalidVirtualAddress ∧ va mod 4096 ≠ 0 ∨
         e = NotMapped ∧ va mod 4096 = 0 ∧ PageTableEntry.is_present (f (vpn va)) = false)
    end
  | CTranslate _ va => f' = f ∧
    res = if PageTableEntry.is_present (f (vpn va)) then Ok (Z.lor (PageTableEntry.phys_addr (f (vpn va))) (va mod 4096))
          else Err NotMapped
  | CGetFlags _ va => f' = f ∧
    res = if PageTableEntry.is_present (f (vpn va)) then Ok (PageTableEntry.flags (f (vpn va))) else Err NotMapped
  | CProtect _ va fl =>
    match res with
    | Ok _ => PageTableEntry.is_present (f (vpn va)) = true ∧
        f' = put (vpn va) (PageTableEntry.set (PageTableEntry.phys_addr (f (vpn va))) (bitor fl PRESENT)) f
    | Err e => f' = f ∧ e = NotMapped ∧ PageTableEntry.is_present (f (vpn va)) = false
    end
  | CCowFault _ va =>
    let e := f (vpn va) in
    match res with
    | Ok _ => PageTableEntry.is_present e = true ∧ contains (PageTableEntry.flags e) COW = true ∧
        ∃ a, (a = PageTableEntry.phys_addr e ∨ is_frame a) ∧
          f' = put (vpn va) (PageTableEntry.set a (bitor (bitand (PageTableEntry.flags e) (PageTableFlags.not COW)) WRITABLE)) f
    | Err err => f' = f ∧
        (err = NotMapped ∧ PageTableEntry.is_present e = false ∨
         err = WriteProtectionViolation ∧ contains (PageTableEntry.flags e) COW = false ∨ err = VmmOutOfMemory)
    end
  | CMapDemand _ va n fl =>
    match res with
    | Ok _ => va mod 4096 = 0 ∧ f' = put_range va (PageTableEntry.set 0 (bitor fl DEMAND)) (Z.to_nat n) f
    | Err e => e = InvalidVirtualAddress ∧ va mod 4096 ≠ 0 ∧ f' = f ∨
        e = VmmOutOfMemory ∧ ∃ j, (j < Z.to_nat n)%nat ∧ f' = put_range va (PageTableEntry.set 0 (bitor fl DEMAND)) j f
    end
  | CDemandFault _ va =>
    let e := f (vpn va) in
    match res with
    | Ok _ => contains (PageTableEntry.flags e) DEMAND = true ∧
        ∃ a, is_frame a ∧
          f' = put (vpn va) (PageTableEntry.set a (bitor (bitand (PageTableEntry.flags e) (PageTableFlags.not DEMAND)) PRESENT)) f
    | Err err => f' = f ∧
        ((err = NotMapped ∨ err = PageFault) ∧ contains (PageTableEntry.flags e) DEMAND = false ∨ err = VmmOutOfMemory)
    end
  end.

Definition call_space (c : call) : option nat :=
  match c with
  | CNew => None
  | CMap i _ _ _ | CUnmap i _ | CTranslate i _ | CGetFlags i _ | CProtect i _ _ | CMapCow i _ _ _
  | CCowFault i _ | CMapDemand i _ _ _ | CDemandFault i _ => Some i
  end.

(** One call on all the views: a call in a space touches its view alone, and a
    new space is empty. *)
Inductive spec_step (σ : list view) : call → result Z VmmError → list view → Prop :=
| spec_new i : i = Z.of_nat (length σ) → spec_step σ CNew (Ok i) (σ ++ [λ _, 0])
| spec_new_err e : e = VmmOutOfMemory ∨ e = AddressSpaceLimitExceeded → spec_step σ CNew (Err e) σ
| spec_call c i f res f' : call_space c = Some i → σ !! i = Some f → view_step c f res f' →
    spec_step σ c res (<[i := f']> σ)
| spec_none c i : call_space c = Some i → σ !! i = None → spec_step σ c (Err NotInitialized) σ.

Inductive spec_run : list view → list call → list (result Z VmmError) → list view → Prop :=
| spec_nil σ : spec_run σ [] [] σ
| spec_cons σ c res σ1 cs rs σ2 : spec_step σ c res σ1 → spec_run σ1 cs rs σ2 → spec_run σ (c :: cs) (res :: rs) σ2.

(** ** The code *)

Section system.
Context {F : Type} `{FrameAllocatorLaws F}.
Implicit Types (w : Vm F) (s : AddressSpace) (ss : list AddressSpace).

(** The method of the call on its space. *)
Definition method (c : call) : M (F:=F) Z :=
  match c with
  | CNew => throw NotInitialized
  | CMap _ va pa fl => map va pa fl ;; ret 0
  | CUnmap _ va => unmap va
  | CTranslate _ va => translate va
  | CGetFlags _ va => get_flags va
  | CProtect _ va fl => protect va fl ;; ret 0
  | CMapCow _ va pa fl => map_cow va pa fl ;; ret 0
  | CCowFault _ va => handle_cow_fault va ;; ret 0
  | CMapDemand _ va n fl => map_demand va n fl ;; ret 0
  | CDemandFault _ va => handle_demand_fault va ;; ret 0
  end.

(** The spaces are numbered as they are made. *)
Definition exec (c : call) (ss : list AddressSpace) (w : Vm F)
    : outcome (result Z VmmError * (list AddressSpace * Vm F)) :=
  match call_space c with
  | None =>
    let! (r, w') := new w in
    match r with
    | Ok s => Ret (Ok (Z.of_nat (length ss)), (ss ++ [s], w'))
    | Err e => Ret (Err e, (ss, w'))
    end
  | Some i =>
    match ss !! i with
    | None => Ret (Err NotInitialized, (ss, w))
    | Some s => let! (r, (s', w')) := method c (s, w) in Ret (r, (<[i := s']> ss, w'))
    end
  end.

Fixpoint exec_all (cs : list call) (ss : list AddressSpace) (w : Vm F)
    : outcome (list (result Z VmmError) * (list AddressSpace * Vm F)) :=
  match cs with
  | [] => Ret ([], (ss, w))
  | c :: cs' =>
    let! (r, (ss1, w1)) := exec c ss w in
    let! (rs, sys) := exec_all cs' ss1 w1 in
    Ret (r :: rs, sys)
  end.

(** ** The simulation *)

(** No count is above the number of calls made. *)
Definition refs_le (n : Z) w : Prop := ∀ a c, page_refcount w !! a = Some c → 1 <= c <= n.

Lemma refs_le_ok n w : n <= U64_MAX → refs_le n w → refs_ok w.
Proof. intros Hn Hr a c Ha. specialize (Hr a c Ha). lia. Qed.

Lemma refs_le_mono n n' w w' : n <= n' → page_refcount w' = page_refcount w → refs_le n w → refs_le n' w'.
Proof. intros Hn E Hr a c Ha. rewrite E in Ha. specialize (Hr a c Ha). lia. Qed.

Definition shows (T : gmap Z (Z * list Z)) w s (f : view) : Prop :=
  is_root T (root_table_phys s) ∧ ∀ k, key_ok k → entry_of w (root_table_phys s) k = f k.

Record sim (n : Z) ss w (σ : list view) : Prop := {
  sim_refs : refs_le n w;
  sim_roots : NoDup (root_table_phys <$> ss);
  sim_tables : ∃ T, vm_ok w T ∧ Forall2 (shows T w) ss σ;
}.

Lemma one_entry_put T w w' s f k v :
  one_entry T (root_table_phys s) k v w w' → shows T w s f →
  ∀ k', key_ok k' → entry_of w' (root_table_phys s) k' = put k v f k'.
Proof.
  intros Ho [Hr Hs] k' Hk'. rewrite Ho by done. unfold put.
  destruct (decide (k' = k)) as [->|]; [by rewrite decide_True|]. rewrite decide_False by tauto. by apply Hs.
Qed.

(** The effect of a method on its own space and on the others. *)
Definition changes (T : gmap Z (Z * list Z)) s w (f' : view) s' w' : Prop :=
  root_table_phys s' = root_table_phys s ∧
  (∃ T', T ⊆ T' ∧ vm_ok w' T') ∧
  (∀ k, key_ok k → entry_of w' (root_table_phys s) k = f' k) ∧
  (∀ r k, is_root T r → r ≠ root_table_phys s → key_ok k → entry_of w' r k = entry_of w r k).

Lemma changes_same T T' s w f s' w' :
  T ⊆ T' → vm_ok w' T' → root_table_phys s' = root_table_phys s → shows T w s f → same_entries T w w' →
  changes T s w f s' w'.
Proof.
  intros Hsub Hok Hr [Hroot Hs] Hsame. split_and!; [done|by exists T'| |].
  - intros k Hk. rewrite Hsame by done. by apply Hs.
  - intros r k ? _ ?. by apply Hsame.
Qed.

Lemma changes_one T T' s w f s' w' k v :
  T ⊆ T' → vm_ok w' T' → root_table_phys s' = root_table_phys s → shows T w s f →
  one_entry T (root_table_phys s) k v w w' → changes T s w (put k v f) s' w'.
Proof.
  intros Hsub Hok Hr Hs Hone. split_and!; [done|by exists T'| |].
  - by eapply one_entry_put.
  - intros r k' ? ? ?. rewrite Hone by done. rewrite decide_False; [done|tauto].
Qed.

(** One method keeps the simulation. *)
Lemma sim_update n' ss w σ i s f f' s' w' T :
  vm_ok w T → Forall2 (shows T w) ss σ → NoDup (root_table_phys <$> ss) →
  ss !! i = Some s → σ !! i = Some f → refs_le n' w' → changes T s w f' s' w' →
  sim n' (<[i := s']> ss) w' (<[i := f']> σ).
Proof.
  intros Hok Hall Hnd Hs Hf Hrefs (Hr & (T' & Hsub & Hok') & Hown & Hother).
  assert (i < length ss)%nat as Hi by by eapply lookup_lt_Some.
  split; [done| |].
  - rewrite list_fmap_insert, Hr, list_insert_id; [done|]. by rewrite list_lookup_fmap, Hs.
  - exists T'. split; [done|]. apply Forall2_same_length_lookup. split.
    { rewrite !length_insert. by eapply Forall2_length. }
    intros j s2 f2 H1 H2. destruct (decide (j = i)) as [->|Hj].
    + rewrite list_lookup_insert_eq in H1 by done. rewrite list_lookup_insert_eq in H2 by by rewrite <-(Forall2_length _ _ _ Hall). simplify_eq.
      destruct (Forall2_lookup_lr _ _ _ _ _ _ Hall Hs Hf) as [Hroot _]. unfold shows. rewrite Hr.
      split; [by eapply is_root_mono|done].
    + rewrite list_lookup_insert_ne in H1 by done. rewrite list_lookup_insert_ne in H2 by done.
      destruct (Forall2_lookup_lr _ _ _ _ _ _ Hall H1 H2) as [Hroot Hsh]. split; [by eapply is_root_mono|].
      intros k Hk. rewrite Hother; [by apply Hsh|done| |done]. intros E. apply Hj.
      eapply (NoDup_lookup (root_table_phys <$> ss)); [done|by rewrite list_lookup_fmap, H1|].
      rewrite list_lookup_fmap, Hs. simpl. by rewrite E.
Qed.

Lemma changes_shows T T' s w f f' s' w' :
  T ⊆ T' → vm_ok w' T' → shows T w s f → changes T s w f' s' w' → shows T' w' s' f'.
Proof. intros Hsub Hok [Hroot _] (Hr & _ & Hown & _). unfold shows. rewrite Hr. split; [by eapply is_root_mono|done]. Qed.

(** *** Demand paging of a range *)

Lemma demand_page_spec s w T f va fl :
  vm_ok w T → shows T w s f →
  returns (demand_walk fl (page_table_indices va) 0 (root_table_phys s) (s, w)) (λ '(res, (s', w')),
    s' = s ∧ page_refcount w' = page_refcount w ∧
    match res with
    | Ok _ => changes T s w (put (vpn va) (PageTableEntry.set 0 (bitor fl DEMAND)) f) s w'
    | Err e => e = VmmOutOfMemory ∧ changes T s w f s w'
    end).
Proof.
  intros Hok Hs. pose proof Hs as [Hr _]. rewrite indices_key, (walk_descend _ (demand_walk_step fl)) by done.
  apply returns_mbind. destruct (key_path_ok (vpn va)) as [[_ Hrange] _].
  pose proof (descend_spec s (root_table_phys s) (key_path (vpn va)) [] w T _ Hok Hr ltac:(done) Hrange) as Hd.
  destruct (descend _ _ _) as [[[t|e] [s1 w1]]| |]; [..|done|done];
    destruct Hd as (-> & (Hrf & _) & T1 & Hsub & Hok1 & Hsame & Ht); cbn [returns].
  2:{ split_and!; [done|done|done|]. by eapply changes_same. }
  change (0 + Z.of_nat (length (key_path (vpn va)))) with 3. cbn [demand_walk app Z.ltb Z.compare Pos.compare Pos.compare_cont] in *.
  rewrite (mbind_ok _ _ _ _ _ (entry_ok t _ (s, w1) (key_slot_ok _))).
  unfold write_entry, modify_vm, mbind, M_bind, bind. simpl.
  set (v := PageTableEntry.set _ _). set (w2 := set_mem _ w1).
  destruct (write_entry_spec w1 T1 t (root_table_phys s) (vpn va) v w2 Hok1 Ht (vpn_ok va) eq_refl eq_refl) as [Hok2 Hone].
  split_and!; [done|exact Hrf|]. eapply changes_one; [done|done|done|done|]. by eapply same_then_one.
Qed.

Lemma changes_trans T T1 s w f1 s1 w1 f2 s2 w2 :
  T ⊆ T1 → is_root T (root_table_phys s) →
  changes T s w f1 s1 w1 → changes T1 s1 w1 f2 s2 w2 → changes T s w f2 s2 w2.
Proof.
  intros Hsub Hr (Hr1 & _ & Hown1 & Ho1) (Hr2 & (T2 & Hsub2 & Hok2) & Hown2 & Ho2). rewrite Hr1 in *.
  split_and!; [done|exists T2; split; [by etrans|done]|done|].
  intros r k Hrr Hne Hk. rewrite Ho2 by (done || by eapply is_root_mono). by apply Ho1.
Qed.

Lemma page_at_ok base i (c : AddressSpace * Vm F) :
  0 <= base → 0 <= i → base + i * 4096 <= U64_MAX → page_at base i c = Ret (Ok (base + i * 4096), c).
Proof.
  intros. unfold page_at, lift, mbind, M_bind, bind. unfold PAGE_SIZE. rewrite usize_mul_ok by lia. simpl.
  rewrite usize_add_ok by lia. done.
Qed.

Lemma demand_range_spec va fl : ∀ n j s w T f,
  vm_ok w T → shows T w s (put_range va (PageTableEntry.set 0 (bitor fl DEMAND)) j f) →
  0 <= va → va + Z.of_nat (j + n) * 4096 <= U64_MAX + 1 →
  returns (for_each n (Z.of_nat j) (λ i,
      addr ← page_at va i; self ← get_self;
      demand_walk fl (page_table_indices addr) 0 (root_table_phys self)) (s, w)) (λ '(res, (s', w')),
    page_refcount w' = page_refcount w ∧ ∃ j',
    match res with Ok _ => j' = (j + n)%nat | Err e => e = VmmOutOfMemory ∧ (j' < j + n)%nat end ∧
    changes T s w (put_range va (PageTableEntry.set 0 (bitor fl DEMAND)) j' f) s' w').
Proof.
  induction n as [|n IH]; intros j s w T f Hok Hs Hva Hle; cbn [for_each].
  { split; [done|]. exists j. split; [lia|]. eapply changes_same; done || by intros ?. }
  rewrite mbind_assoc, (mbind_ok _ _ _ (va + Z.of_nat j * 4096) (s, w)) by (apply page_at_ok; lia).
  rewrite mbind_assoc, (mbind_ok _ _ _ s (s, w)) by done. apply returns_mbind.
  pose proof (demand_page_spec s w T _ (va + Z.of_nat j * 4096) fl Hok Hs) as Hd.
  destruct (demand_walk _ _ _ _ _) as [[[[]|e] [s1 w1]]| |]; [..|done|done]; destruct Hd as (-> & Hrf & Hd).
  2:{ destruct Hd as [-> Hc]. split; [done|]. exists j. split_and!; [done|lia|done]. }
  pose proof Hd as (_ & (T1 & Hsub & Hok1) & _).
  replace (Z.of_nat j + 1) with (Z.of_nat (S j)) by lia. cbn [returns].
  eapply returns_mono; [apply (IH (S j) s w1 T1 f Hok1); [|done|lia]|].
  - by apply (changes_shows T T1 s w _ _ s w1 Hsub Hok1 Hs Hd).
  - intros [res [s' w']] (Hrf' & j' & Hres & Hc). split; [congruence|]. exists j'. split.
    { destruct res; [lia|]. split; [tauto|lia]. }
    eapply changes_trans; [done|by destruct Hs|done|done].
Qed.

(** *** Every method *)

(** A method whose result is dropped. *)
Lemma returns_unit (m : M (F:=F) unit) c Q :
  returns (m c) (λ '(r, c'), Q (match r with Ok _ => Ok 0 | Err e => Err e end, c')) → returns ((m ;; ret 0) c) Q.
Proof. intros Hm. apply returns_mbind. eapply returns_mono; [exact Hm|]. by intros [[]]. Qed.

Definition method_post (n : Z) (T : gmap Z (Z * list Z)) (c : call) (f : view) s w : _ → Prop :=
  λ '(res, (s', w')), ∃ f', view_step c f res f' ∧ changes T s w f' s' w' ∧ refs_le (n + 1) w'.

Lemma map_cow_spec n s w T f i va pa fl :
  vm_ok w T → shows T w s f → refs_le n w → 0 <= n < U64_MAX →
  returns (method (CMapCow i va pa fl) (s, w)) (method_post n T (CMapCow i va pa fl) f s w).
Proof.
  intros Hok Hs Hrefs Hn. pose proof Hs as [Hr Hsk]. apply returns_unit. apply returns_mbind.
  eapply returns_mono; [by apply (map_spec s w T)|]. unfold map_post. rewrite Hsk by apply vpn_ok.
  intros [[[]|e] [s1 w1]] ((Hrf & _) & T1 & Hsub & Hok1 & Hpost); simpl.
  - destruct Hpost as (? & ? & ? & Hone & ->). eexists. split_and!; [done..| |].
    + eapply changes_one; [done| |done|done|exact Hone]. by apply vm_ok_refs.
    + intros a c. unfold PageRefCount.inc_ref. simpl. rewrite Hrf.
      intros [[<- <-]|[_ Ha]]%lookup_insert_Some; [|specialize (Hrefs _ _ Ha); lia].
      destruct (page_refcount w !! pa) as [c|] eqn:E; simpl; [specialize (Hrefs _ _ E)|]; rewrite wrap64_small by lia; lia.
  - destruct Hpost as (Hsame & -> & He). exists f. split_and!; [done|done|by eapply changes_same|].
    eapply refs_le_mono; [|exact Hrf|exact Hrefs]. lia.
Qed.

Lemma cow_method_spec n s w T f i va :
  vm_ok w T → shows T w s f → refs_le n w → 0 <= n < U64_MAX → 0 <= va <= U64_MAX →
  returns (method (CCowFault i va) (s, w)) (method_post n T (CCowFault i va) f s w).
Proof.
  intros Hok Hs Hrefs Hn Hva. pose proof Hs as [Hr Hsk]. apply returns_unit.
  eapply returns_mono; [apply (cow_fault_spec s w T va Hok Hr Hva); apply (refs_le_ok n); [lia|done]|].
  unfold cow_post. rewrite Hsk by apply vpn_ok.
  intros [[[]|e] [s1 w1]] (Hok1 & -> & Hpost); simpl in *.
  - destruct Hpost as (? & ? & Hpost). destruct (Z.leb_spec (PageRefCount.get_ref (page_refcount w) (PageTableEntry.phys_addr (f (vpn va)))) 1) as [|Hgt].
    + destruct Hpost as (Hrf & Hone & _). eexists. split_and!; [done|done|by eauto|by eapply changes_one|].
      eapply refs_le_mono; [|done|done]. lia.
    + destruct Hpost as (a & Ha & _ & Hone & _ & _ & Hrf). eexists. split_and!; [done|done|by eauto|by eapply changes_one|].
      intros b c. rewrite Hrf. intros [[<- <-]|[_ Hb]]%lookup_insert_Some; [|specialize (Hrefs _ _ Hb); lia].
      unfold PageRefCount.get_ref in *. destruct (page_refcount w !! _) as [c|] eqn:E; simpl in *; [specialize (Hrefs _ _ E)|]; lia.
  - destruct Hpost as (Hsame & Hrf & He). exists f. split_and!; [done|done|by eapply changes_same|].
    eapply refs_le_mono; [|done|done]. lia.
Qed.

Lemma method_spec n c i s w T f :
  call_ok c → call_space c = Some i → vm_ok w T → shows T w s f → refs_le n w → 0 <= n < U64_MAX →
  returns (method c (s, w)) (method_post n T c f s w).
Proof.
  intros Hc Hi Hok Hs Hrefs Hn. pose proof Hs as [Hr Hsk].
  assert (∀ w', page_refcount w' = page_refcount w → refs_le (n + 1) w') as Hkeep by (intros; eapply refs_le_mono; [|done|done]; lia).
  destruct c as [|? va pa fl|? va|? va|? va|? va fl|? va pa fl|? va|? va m fl|? va]; simpl in Hc; [done|..].
  - apply returns_unit. eapply returns_mono; [by apply (map_spec s w T)|]. unfold map_post. rewrite Hsk by apply vpn_ok.
    intros [[[]|e] [s1 w1]] ((Hrf & _) & T1 & Hsub & Hok1 & Hpost); simpl.
    + destruct Hpost as (? & ? & ? & Hone & ->). eexists. split_and!; [done..|by eapply changes_one|by auto].
    + destruct Hpost as (Hsame & -> & He). exists f. split_and!; [done|done|by eapply changes_same|by auto].
  - eapply returns_mono; [by apply (unmap_spec s w T)|]. cbv zeta. rewrite Hsk by apply vpn_ok.
    intros [[a|e] [s1 w1]] ((Hrf & _) & Hok1 & Hpost); simpl.
    + destruct Hpost as (? & ? & ? & Hone & ->). eexists. split_and!; [done..|by eapply changes_one|by auto].
    + destruct Hpost as (-> & -> & He). exists f. split_and!; [done|done|by eapply changes_same|by auto].
  - cbn [method]. rewrite (translate_spec s w T va Hok Hr Hc), Hsk by apply vpn_ok. cbn [method_post returns]. exists f. cbn [view_step].
    split_and!; [done|done|by eapply changes_same|by auto].
  - cbn [method]. rewrite (get_flags_spec s w T va Hok Hr Hc), Hsk by apply vpn_ok. cbn [method_post returns]. exists f. cbn [view_step].
    split_and!; [done|done|by eapply changes_same|by auto].
  - apply returns_unit. eapply returns_mono; [by apply (protect_spec s w T va fl)|]. cbv zeta. rewrite Hsk by apply vpn_ok.
    intros [[[]|e] [s1 w1]] (-> & Hok1 & Hrf & Hpost); simpl.
    + destruct Hpost as (? & Hone). eexists. split_and!; [done..|by eapply changes_one|by auto].
    + destruct Hpost as (-> & -> & He). exists f. split_and!; [done..|by eapply changes_same|by auto].
  - by apply map_cow_spec.
  - by apply cow_method_spec.
  - apply returns_unit. unfold map_demand. rewrite misaligned_mod.
    destruct (Z.eqb_spec (va mod 4096) 0) as [Ha|Ha]; cbn [negb].
    2:{ exists f. split_and!; [by left|by eapply changes_same|by auto]. }
    eapply returns_mono; [apply (demand_range_spec va fl (Z.to_nat m) 0 s w T f); [done|done|lia|lia]|].
    intros [[[]|e] [s1 w1]] (Hrf & j & Hj & Hch); (eexists; split_and!; [|exact Hch|by auto]); simpl; [by subst j|].
    right. split; [tauto|]. exists j. split; [lia|done].
  - apply returns_unit. eapply returns_mono; [by apply (demand_fault_spec s w T va)|]. unfold demand_post. rewrite Hsk by apply vpn_ok.
    intros [[[]|e] [s1 w1]] (Hok1 & Hrf & Hpost); simpl.
    + destruct Hpost as (? & -> & a & ? & ? & Hone & _). eexists. split_and!; [done|by eauto|by eapply changes_one|by auto].
    + destruct Hpost as (-> & Hsame & He). exists f. split_and!; [done|done|by eapply changes_same|by auto].
Qed.

(** *** Every call *)

Lemma new_sim n ss w σ :
  sim n ss w σ → 0 <= n →
  returns (exec CNew ss w) (λ '(res, (ss', w')), ∃ σ', spec_step σ CNew res σ' ∧ sim (n + 1) ss' w' σ').
Proof.
  intros [Hrefs Hnd (T & Hok & Hall)] Hn. unfold exec. simpl. pose proof (new_spec w T Hok) as Hnew.
  destruct (new w) as [[[s|e] w1]| |]; [..|done|done]; destruct Hnew as (Hrf & Hsame & Hnew); simpl.
  - destruct Hnew as (HT & _ & Hok1 & Hz).
    assert (T ⊆ <[root_table_phys s := (root_table_phys s, [])]> T) as Hsub by by apply insert_subseteq.
    exists (σ ++ [λ _, 0]). split; [constructor; by rewrite (Forall2_length _ _ _ Hall)|]. split.
    + eapply refs_le_mono; [|done|done]. lia.
    + rewrite fmap_app. apply NoDup_app. split_and!; [done| |apply NoDup_singleton].
      intros r (s2 & -> & (j & Hj)%list_elem_of_lookup)%list_elem_of_fmap E%list_elem_of_singleton.
      destruct (Forall2_lookup_l _ _ _ _ _ Hall Hj) as (f & _ & [Hroot _]). unfold is_root in Hroot. congruence.
    + eexists. split; [done|]. apply Forall2_app; [|repeat constructor; [apply lookup_insert_eq|done]].
      eapply Forall2_impl; [done|]. intros s2 f [Hroot Hsh]. split; [by eapply is_root_mono|].
      intros k Hk. rewrite Hsame by done. by apply Hsh.
  - destruct Hnew as [Hok1 He]. exists σ. split; [by constructor|]. split; [eapply refs_le_mono; [|done|done]; lia|done|].
    exists T. split; [done|]. eapply Forall2_impl; [done|]. intros s2 f [Hroot Hsh]. split; [done|].
    intros k Hk. rewrite Hsame by done. by apply Hsh.
Qed.

Lemma exec_sim n c ss w σ :
  call_ok c → sim n ss w σ → 0 <= n < U64_MAX →
  returns (exec c ss w) (λ '(res, (ss', w')), ∃ σ', spec_step σ c res σ' ∧ sim (n + 1) ss' w' σ').
Proof.
  intros Hc Hsim Hn. destruct (call_space c) as [i|] eqn:Ei.
  2:{ destruct c; try done. apply new_sim; [done|lia]. }
  destruct Hsim as [Hrefs Hnd (T & Hok & Hall)]. unfold exec. rewrite Ei.
  destruct (ss !! i) as [s|] eqn:Es.
  - destruct (Forall2_lookup_l _ _ _ _ _ Hall Es) as (f & Ef & Hsh).
    pose proof (method_spec n c i s w T f Hc Ei Hok Hsh Hrefs Hn) as Hm.
    destruct (method c (s, w)) as [[res [s' w']]| |]; [|done|done]. destruct Hm as (f' & Hv & Hch & Hr'). simpl.
    exists (<[i := f']> σ). split; [by econstructor|]. by eapply sim_update.
  - exists σ. split.
    { apply spec_none with i; [done|]. apply lookup_ge_None. rewrite <-(Forall2_length _ _ _ Hall). by apply lookup_ge_None. }
    split; [eapply refs_le_mono; [|done|done]; lia|done|eauto].
Qed.

Lemma exec_all_sim cs : ∀ n ss w σ,
  Forall call_ok cs → sim n ss w σ → 0 <= n → n + Z.of_nat (length cs) <= U64_MAX →
  returns (exec_all cs ss w) (λ '(rs, (ss', w')), ∃ σ', spec_run σ cs rs σ' ∧
    sim (n + Z.of_nat (length cs)) ss' w' σ').
Proof.
  induction cs as [|c cs IH]; intros n ss w σ Hcs Hsim Hn Hle.
  { exists σ. split; [constructor|]. simpl. by rewrite Z.add_0_r. }
  apply Forall_cons in Hcs as [Hc Hcs]. cbn [length exec_all] in *.
  pose proof (exec_sim n c ss w σ Hc Hsim ltac:(lia)) as He.
  destruct (exec c ss w) as [[res [ss1 w1]]| |]; [|done|done]. destruct He as (σ1 & Hst & Hsim1). simpl.
  pose proof (IH (n + 1) ss1 w1 σ1 Hcs Hsim1 ltac:(lia) ltac:(lia)) as Ha.
  destruct (exec_all cs ss1 w1) as [[rs [ss2 w2]]| |]; [|done|done]. destruct Ha as (σ2 & Hrun & Hsim2). simpl.
  exists σ2. split; [by econstructor|]. by replace (n + Z.of_nat (S (length cs))) with (n + 1 + Z.of_nat (length cs)) by lia.
Qed.

(** Nothing is mapped when the allocator is ready and no space was made. *)
Lemma sim_init w : frames_ok (frames w) → page_refcount w = ∅ → sim 0 [] w [].
Proof.
  intros Hf Hr. split; [|by constructor|].
  - intros a c. rewrite Hr. intros Ha. simplify_map_eq.
  - exists ∅. split; [|constructor]. split; [done|..]; intros; simplify_map_eq.
Qed.
End system.
