(* ===== verification/VmmProps.v ===== *)
(** * Theorems on virtual memory

    The refinement of the address spaces to functions from pages to entries, what
    follows of it for the calls of a client, and what the flag bits of an entry do
    to the frame it names. *)

From stdpp Require Import base tactics option list numbers gmap.
From S2P Require Import Prelude Errors Memory MemoryCorrect Frames Vmm VmmInv VmmRefine.
Import PageTableFlags AddressSpace.

(** ** Entries *)

Lemma flags_in_mask f : 0 <= f <= U64_MAX → Z.land f ADDR_MASK = 0 → Z.land f FLAGS_MASK = f.
Proof.
  intros Hf H0. apply Z.bits_inj'. intros n Hn. rewrite Z.land_spec.
  destruct (Z.ltb_spec n 64) as [Hlt|Hge].
  - replace FLAGS_MASK with (Z.lxor (Z.ones 64) ADDR_MASK) by reflexivity.
    rewrite Z.lxor_spec, Z.ones_spec_low by lia.
    assert (Z.testbit (Z.land f ADDR_MASK) n = false) as Hb by by rewrite H0, Z.bits_0.
    rewrite Z.land_spec in Hb. by destruct (Z.testbit f n), (Z.testbit ADDR_MASK n).
  - destruct (decide (f = 0)) as [->|]; [by rewrite Z.bits_0|]. rewrite (Z.bits_above_log2 f n); [done|lia|].
    apply Z.log2_lt_pow2; [lia|]. apply Z.lt_le_trans with (2 ^ 64); [lia|]. apply Z.pow_le_mono_r; lia.
Qed.

Lemma flags_set a f :
  0 <= f <= U64_MAX → Z.land f ADDR_MASK = 0 → PageTableEntry.flags (PageTableEntry.set a f) = f.
Proof.
  intros Hf H0. unfold PageTableEntry.flags, PageTableEntry.set. rewrite Z.land_lor_distr_l, (flags_in_mask f) by done.
  rewrite <-Z.land_assoc. change (Z.land ADDR_MASK FLAGS_MASK) with 0. by rewrite Z.land_0_r.
Qed.

Lemma land_mask_bitor f g : Z.land f ADDR_MASK = 0 → Z.land g ADDR_MASK = 0 → Z.land (bitor f g) ADDR_MASK = 0.
Proof. intros Hf Hg. unfold bitor. by rewrite Z.land_lor_distr_l, Hf, Hg. Qed.

Lemma bitor_present_bounds f : 0 <= f <= U64_MAX → 0 <= bitor f PRESENT <= U64_MAX.
Proof.
  intros Hf. unfold bitor, PRESENT. pose proof (lor_range f 1 64 ltac:(lia) ltac:(lia) ltac:(lia)). lia.
Qed.

(** A frame and an offset in it do not overlap. *)
Lemma lor_offset a x : a mod 4096 = 0 → 0 <= x < 4096 → Z.lor a x = a + x.
Proof.
  intros Ha Hx. pose proof (Z.div_mod a 4096 ltac:(lia)) as E. rewrite Ha, Z.add_0_r, Z.mul_comm in E.
  rewrite E. apply (lor_low (a / 4096) x 12); lia.
Qed.

Lemma vpn_offset va x : va mod 4096 = 0 → 0 <= x < 4096 → vpn (va + x) = vpn va ∧ (va + x) mod 4096 = x.
Proof.
  intros Hva Hx. unfold vpn. assert ((va + x) / 4096 = va / 4096 ∧ (va + x) mod 4096 = x) as [-> ->]; [|done].
  Z.div_mod_to_equations. lia.
Qed.

Lemma put_eq k v f : put k v f k = v.
Proof. unfold put. by rewrite decide_True. Qed.

(** ** The theorems *)

Section theorems.
Context {F : Type} `{FrameAllocatorLaws F}.
Implicit Types (w : Vm F) (s : AddressSpace) (ss : list AddressSpace).

(** C2. Any sequence of the ten calls [new], [map], [unmap], [translate],
    [get_flags], [protect], [map_cow], [handle_cow_fault], [map_demand] and
    [handle_demand_fault] (not [fork], huge pages or device mappings), on any number
    of address spaces made by them, over a well-formed frame allocator and from a
    state without reference counts, with 64-bit arguments: if every range given to
    [map_demand] ends at or below 2^64 (a range beyond overflows and panics), all
    calls return, and do what the specification says: each space is a function from
    page numbers to entries, a call changes the function of its own space only, and
    only at the pages it names.  At the end [translate] reads every space's
    function. *)
Theorem spaces_refine cs w :
  frames_ok (frames w) → page_refcount w = ∅ → Forall call_ok cs → Z.of_nat (length cs) <= U64_MAX →
  returns (exec_all cs [] w) (λ '(rs, (ss', w')), ∃ σ',
    spec_run [] cs rs σ' ∧ length σ' = length ss' ∧
    ∀ i s f va, ss' !! i = Some s → σ' !! i = Some f → 0 <= va <= U64_MAX →
      translate va (s, w') =
      Ret (if PageTableEntry.is_present (f (vpn va)) then Ok (Z.lor (PageTableEntry.phys_addr (f (vpn va))) (va mod 4096))
           else Err NotMapped, (s, w'))).
Proof.
  intros Hf Hr Hcs Hlen. eapply returns_mono.
  { apply (exec_all_sim cs 0 [] w [] Hcs); [by apply sim_init|lia|lia]. }
  intros [rs [ss' w']] (σ' & Hrun & [_ _ (T & Hok & Hall)]). exists σ'.
  split_and!; [done|by rewrite (Forall2_length _ _ _ Hall)|]. intros i s f va Hs Hσ Hva.
  destruct (Forall2_lookup_lr _ _ _ _ _ _ Hall Hs Hσ) as [Hroot Hsh].
  rewrite (translate_spec s w' T va Hok Hroot Hva), Hsh by apply vpn_ok. done.
Qed.

(** A call of space [i], in a run of the specification. *)
Lemma spec_call_inv σ c cs rs σ' i :
  spec_run σ (c :: cs) rs σ' → call_space c = Some i → is_Some (σ !! i) →
  ∃ res rs' f f', rs = res :: rs' ∧ σ !! i = Some f ∧ view_step c f res f' ∧
    spec_run (<[i := f']> σ) cs rs' σ' ∧ <[i := f']> σ !! i = Some f'.
Proof.
  intros Hrun Hc [f Hf]. inversion Hrun as [|? ? res σ1 ? rs' ? Hst Hrest]; simplify_eq.
  destruct Hst as [| |c i' f0 res f' Hi Hσ Hv|c i' Hi Hσ]; [done|done| |congruence].
  assert (i' = i) as -> by congruence. exists res, rs', f0, f'. split_and!; try done.
  apply list_lookup_insert_eq. by eapply lookup_lt_Some.
Qed.

(** Map, translate, get the flags, unmap, translate: in any state the calls
    reach, a page that [map] accepts translates with every offset to the frame it
    was mapped to, has the flags it was mapped with, is unmapped to that frame and
    is not mapped then. *)
Theorem map_unmap_roundtrip n ss w σ i va pa fl x :
  sim n ss w σ → 0 <= n → n + 5 <= U64_MAX → (i < length ss)%nat →
  0 <= va → va + 4096 <= U64_MAX → is_frame pa → 0 <= fl <= U64_MAX → Z.land fl ADDR_MASK = 0 → 0 <= x < 4096 →
  returns (exec_all [CMap i va pa fl; CTranslate i (va + x); CGetFlags i (va + x); CUnmap i va; CTranslate i (va + x)] ss w)
    (λ '(rs, _), match rs with
     | Ok _ :: rs' => rs' = [Ok (pa + x); Ok (bitor fl PRESENT); Ok pa; Err NotMapped]
     | _ => True
     end).
Proof.
  intros Hsim Hn0 Hn Hi Hva Hva2 Hpa Hfl Hmask Hx. eapply returns_mono.
  { apply (exec_all_sim _ n ss w σ); [|done|done|simpl; lia]. repeat constructor; simpl; lia. }
  intros [rs [ss' w']] (σ' & Hrun & _).
  assert (is_Some (σ !! i)) as Hi' by (apply lookup_lt_is_Some; destruct Hsim as [_ _ (T & _ & Hall)]; by rewrite <-(Forall2_length _ _ _ Hall)).
  destruct (spec_call_inv _ _ _ _ _ i Hrun eq_refl Hi') as (r1 & rs1 & f & f1 & -> & Hf & H1 & Hrun1 & Hf1).
  destruct (spec_call_inv _ _ _ _ _ i Hrun1 eq_refl (mk_is_Some _ _ Hf1)) as (r2 & rs2 & f1' & f2 & -> & Hf1' & H2 & Hrun2 & Hf2).
  destruct (spec_call_inv _ _ _ _ _ i Hrun2 eq_refl (mk_is_Some _ _ Hf2)) as (r3 & rs3 & f2' & f3 & -> & Hf2' & H3 & Hrun3 & Hf3).
  destruct (spec_call_inv _ _ _ _ _ i Hrun3 eq_refl (mk_is_Some _ _ Hf3)) as (r4 & rs4 & f3' & f4 & -> & Hf3' & H4 & Hrun4 & Hf4).
  destruct (spec_call_inv _ _ _ _ _ i Hrun4 eq_refl (mk_is_Some _ _ Hf4)) as (r5 & rs5 & f4' & f5 & -> & Hf4' & H5 & Hrun5 & Hf5).
  inversion Hrun5; subst rs5. simplify_eq. destruct r1 as [v|]; [|done]. cbn [view_step] in *.
  destruct H1 as (Hal & _ & _ & ->). destruct (vpn_offset va x Hal Hx) as [Hk Hm]. rewrite Hk, Hm in *.
  assert (Z.land (bitor fl PRESENT) ADDR_MASK = 0) as Hmask' by by apply land_mask_bitor.
  pose proof (bitor_present_bounds fl Hfl). destruct H2 as [-> ->]. destruct H3 as [-> ->].
  rewrite put_eq, set_present, bitor_present, phys_addr_set_frame, flags_set in * by done.
  destruct r4 as [a|e]; [|destruct H4 as [_ [(_ & ?)|(_ & _ & ?)]]; done].
  destruct H4 as (_ & _ & -> & ->). destruct H5 as [-> ->]. rewrite put_eq, lor_offset by (apply Hpa || done). done.
Qed.

(** The flags a copy-on-write fault leaves. *)
Lemma cow_flags_mask e :
  let fl := bitor (bitand (PageTableEntry.flags e) (PageTableFlags.not COW)) WRITABLE in
  0 <= fl <= U64_MAX ∧ Z.land fl ADDR_MASK = 0 ∧ contains fl COW = false ∧ contains fl WRITABLE = true ∧
  PageTableEntry.is_present fl = PageTableEntry.is_present e.
Proof.
  cbv zeta. unfold bitor, bitand, PageTableEntry.flags, contains. split; [|split_and!].
  - match goal with |- _ <= ?x <= _ => assert (x = x mod 2 ^ 64) as -> end.
    { rewrite <-Z.land_ones, Z.land_lor_distr_l, <-!Z.land_assoc by lia.
      by change (Z.land (PageTableFlags.not COW) (Z.ones 64)) with (PageTableFlags.not COW). }
    pose proof (Z.mod_pos_bound (Z.lor (Z.land (Z.land e FLAGS_MASK) (PageTableFlags.not COW)) WRITABLE) (2 ^ 64) ltac:(lia)).
    lia.
  - rewrite Z.land_lor_distr_l, <-!Z.land_assoc. change (Z.land FLAGS_MASK _) with 0. by rewrite Z.land_0_r.
  - rewrite Z.land_lor_distr_l, <-!Z.land_assoc. change (Z.land (PageTableFlags.not COW) COW) with 0.
    by rewrite !Z.land_0_r.
  - apply Z.eqb_eq, Z.bits_inj'. intros k Hk. rewrite Z.land_spec, Z.lor_spec.
    by destruct (Z.testbit WRITABLE k); rewrite ?orb_true_r, ?andb_false_r.
  - rewrite !is_present_bit, Z.lor_spec, !Z.land_spec. change (Z.testbit WRITABLE 0) with false.
    change (Z.testbit FLAGS_MASK 0) with true. change (Z.testbit (PageTableFlags.not COW) 0) with true.
    by rewrite !andb_true_r, orb_false_r.
Qed.

Lemma phys_addr_frame e : is_frame (PageTableEntry.phys_addr e).
Proof.
  assert (PageTableEntry.phys_addr e = (e / 2 ^ 12) mod 2 ^ 40 * 2 ^ 12) as ->.
  { unfold PageTableEntry.phys_addr. change ADDR_MASK with (Z.shiftl (Z.ones 40) 12).
    rewrite <-Z.shiftr_div_pow2, <-Z.land_ones, <-Z.shiftl_mul_pow2 by lia.
    apply Z.bits_inj'. intros n Hn. rewrite Z.shiftl_land, !Z.land_spec.
    destruct (Z.ltb_spec n 12); [by rewrite !Z.shiftl_spec_low, andb_false_r by lia|]. f_equal.
    rewrite Z.shiftl_spec, Z.shiftr_spec by lia. f_equal. lia. }
  pose proof (Z.mod_pos_bound (e / 2 ^ 12) (2 ^ 40) ltac:(lia)). unfold is_frame, FRAME_LIMIT.
  split; [|by apply Z.mod_mul]. change (2 ^ 52) with (2 ^ 40 * 2 ^ 12). lia.
Qed.

(** C12. A copy-on-write fault that returns has made the page writable and
    private: its frame has the contents the page had; it is a new one, which the
    allocator had not given out, when other mappings count on the old frame (whose
    count drops by one and whose contents stay), and the old one otherwise.  No
    other page of any address space changes. *)
Theorem cow_fault_private w T s va s' w' :
  vm_ok w T → is_root T (root_table_phys s) → refs_ok w → 0 <= va <= U64_MAX →
  handle_cow_fault va (s, w) = Ret (Ok tt, (s', w')) →
  let r := root_table_phys s in
  let old := PageTableEntry.phys_addr (entry_of w r (vpn va)) in
  let rc := PageRefCount.get_ref (page_refcount w) old in
  T !! old = None →
  ∃ a fl, translate va (s', w') = Ret (Ok (a + va mod 4096), (s', w')) ∧
    get_flags va (s', w') = Ret (Ok fl, (s', w')) ∧ contains fl WRITABLE = true ∧ contains fl COW = false ∧
    (∀ x, 0 <= x < 4096 → mem w' (a + x) = mem w (old + x) ∧ mem w' (old + x) = mem w (old + x)) ∧
    (if rc <=? 1 then a = old ∧ page_refcount w' = page_refcount w
     else ¬ frame_used (frames w) a ∧ page_refcount w' = <[old := rc - 1]> (page_refcount w)) ∧
    (∀ r' k, is_root T r' → key_ok k → ¬ (r' = r ∧ k = vpn va) → entry_of w' r' k = entry_of w r' k).
Proof.
  intros Hok Hr Hrefs Hva E. cbv zeta. intros HT. pose proof (cow_fault_spec s w T va Hok Hr Hva Hrefs) as Hs.
  rewrite E in Hs. destruct Hs as (Hok' & -> & Hp & _ & Hs). cbv zeta in Hs.
  set (e := entry_of w (root_table_phys s) (vpn va)) in *. set (old := PageTableEntry.phys_addr e) in *.
  destruct (cow_flags_mask e) as (Hfl & Hm & Hc & Hw & Hpr). set (fl := bitor _ _) in *.
  assert (∀ a, is_frame a → one_entry T (root_table_phys s) (vpn va) (PageTableEntry.set a fl) w w' →
    translate va (s, w') = Ret (Ok (a + va mod 4096), (s, w')) ∧ get_flags va (s, w') = Ret (Ok fl, (s, w')) ∧
    ∀ r' k, is_root T r' → key_ok k → ¬ (r' = root_table_phys s ∧ k = vpn va) → entry_of w' r' k = entry_of w r' k) as Hone.
  { intros a Ha Hone. rewrite (translate_spec s w' T va), (get_flags_spec s w' T va) by done. cbv zeta.
    rewrite Hone, decide_True by (done || apply vpn_ok). rewrite set_present, Hpr, Hp, phys_addr_set_frame, flags_set by done.
    rewrite lor_offset by (apply Ha || apply Z.mod_pos_bound; lia). split_and!; [done|done|].
    intros r' k Hr' Hk Hne. by rewrite Hone, decide_False. }
  pose proof (phys_addr_frame e : is_frame old) as Hold. destruct (_ <=? 1).
  - destruct Hs as (Hrf & Ho & Hd). destruct (Hone old Hold Ho) as (?&?&?). exists old, fl. split_and!; try done.
    intros x Hx. split; apply Hd; try done; naive_solver.
  - destruct Hs as (a & Ha & Hu & Ho & Hcp & Hd & Hrf). destruct (Hone a Ha Ho) as (?&?&?). exists a, fl. split_and!; try done.
    intros x Hx. split; [by apply Hcp|]. destruct (decide (a = old)) as [<-|Hne]; [by apply Hcp|]. by apply Hd.
Qed.

(** The flag [SHARED] is bit 12 of an entry, in the field of the frame: a
    frame at a multiple of 8192 that is mapped with it, as every other page of a
    shared region is, translates to the frame after it. *)
Theorem shared_flag_moves_frame n ss w σ i va pa fl x :
  sim n ss w σ → 0 <= n → n + 2 <= U64_MAX → (i < length ss)%nat →
  0 <= va → va + 4096 <= U64_MAX → is_frame pa → pa mod 8192 = 0 → Z.land fl ADDR_MASK = 0 → 0 <= x < 4096 →
  returns (exec_all [CMap i va pa (bitor fl SHARED); CTranslate i (va + x)] ss w)
    (λ '(rs, _), match rs with Ok _ :: rs' => rs' = [Ok (pa + 4096 + x)] | _ => True end).
Proof.
  intros Hsim Hn0 Hn Hi Hva Hva2 Hpa Hpa2 Hmask Hx. eapply returns_mono.
  { apply (exec_all_sim _ n ss w σ); [|done|done|simpl; lia]. repeat constructor; simpl; lia. }
  intros [rs [ss' w']] (σ' & Hrun & _).
  assert (is_Some (σ !! i)) as Hi' by (apply lookup_lt_is_Some; destruct Hsim as [_ _ (T & _ & Hall)]; by rewrite <-(Forall2_length _ _ _ Hall)).
  destruct (spec_call_inv _ _ _ _ _ i Hrun eq_refl Hi') as (r1 & rs1 & f & f1 & -> & Hf & H1 & Hrun1 & Hf1).
  destruct (spec_call_inv _ _ _ _ _ i Hrun1 eq_refl (mk_is_Some _ _ Hf1)) as (r2 & rs2 & f1' & f2 & -> & Hf1' & H2 & Hrun2 & Hf2).
  inversion Hrun2; subst rs2. simplify_eq. destruct r1 as [v|]; [|done]. cbn [view_step] in *.
  destruct H1 as (Hal & _ & _ & ->). destruct (vpn_offset va x Hal Hx) as [Hk Hm]. rewrite Hk, Hm in *.
  destruct H2 as [-> ->]. rewrite put_eq, set_present, bitor_present, phys_addr_set, frame_mask by done.
  unfold bitor. rewrite !Z.land_lor_distr_l, Hmask. change (Z.lor (Z.lor 0 (Z.land SHARED ADDR_MASK)) _) with 4096.
  assert (Z.lor pa 4096 = pa + 4096) as ->.
  { rewrite <-Z.lxor_lor, <-Z.add_nocarry_lxor; [done|..].
    all: apply Z.bits_inj'; intros k Hk'; rewrite Z.land_spec, Z.bits_0; change 4096 with (2 ^ 12);
      destruct (decide (k = 12)) as [->|]; [|rewrite Z.pow2_bits_false by done; apply andb_false_r].
    all: rewrite (Z.div_mod pa 8192), Hpa2, Z.add_0_r, Z.mul_comm by lia; change 8192 with (2 ^ 13);
      by rewrite Z.mul_pow2_bits_low by lia. }
  rewrite lor_offset; [done| |done]. destruct Hpa as [_ Hpa]. Z.div_mod_to_equations. lia.
Qed.

(** *** What the methods do not do *)

(** [is_demand_paged] answers through [get_flags], which reads present pages only:
    a page that waits for its first fault is not present, so the answer is no. *)
Lemma is_demand_paged_spec s w T va :
  vm_ok w T → is_root T (root_table_phys s) → 0 <= va <= U64_MAX →
  let e := entry_of w (root_table_phys s) (vpn va) in
  is_demand_paged va (s, w) =
  Ret (Ok (PageTableEntry.is_present e && contains (PageTableEntry.flags e) DEMAND), (s, w)).
Proof.
  intros Hok Hr Hva. cbv zeta. unfold is_demand_paged, catch, mbind, M_bind, bind.
  rewrite (get_flags_spec s w T va Hok Hr Hva). cbn [obind]. by destruct (PageTableEntry.is_present _).
Qed.

(** The space that [fork] returns maps no page, whatever the parent maps. *)
Lemma fork_maps_nothing s w T :
  vm_ok w T →
  returns (fork (s, w)) (λ '(res, (s', w')), s' = s ∧
    match res with Ok child => ∀ k, key_ok k → entry_of w' (root_table_phys child) k = 0 | Err _ => True end).
Proof.
  intros Hok. unfold fork. apply returns_mbind. unfold with_vm. pose proof (new_spec w T Hok) as Hn. cbn [snd].
  destruct (new w) as [[[child|e] w1]| |]; [..|done|done]; destruct Hn as (_ & _ & Hn); simpl; [|done].
  split; [done|]. by destruct Hn as (_ & _ & _ & Hz).
Qed.
End theorems.

(** ** On the kernel's page allocator *)

(** Memory of 77s, the page allocator after boot, no address space. *)
Definition vm0 : Vm Memory.Global.state :=
  mkVm (λ _, 77) (Some boot) ∅ SharedMemoryRegistry.new VmmState.new.

Lemma vm0_sim : sim 0 [] vm0 [].
Proof. apply sim_init; [|done]. apply boot_wf. Qed.

Lemma spaces_refine_witness :
  let cs := [CNew; CNew; CMap 0 28672 20480 2; CMapCow 1 28672 1048576 2; CMapCow 0 32768 1048576 2;
             CCowFault 1 28672; CTranslate 0 28700; CTranslate 1 28672; CTranslate 1 32768] in
  returns (exec_all cs [] vm0) (λ '(rs, (ss', w')), ∃ σ', spec_run [] cs rs σ' ∧ length σ' = length ss') ∧
  match exec_all cs [] vm0 with
  | Ret (rs, _) => rs = [Ok 0; Ok 1; Ok 0; Ok 0; Ok 0; Ok 0; Ok 20508; Ok 32768; Err NotMapped]
  | _ => False
  end.
Proof.
  cbv zeta. split; [|by vm_compute]. eapply returns_mono.
  - apply (spaces_refine (F:=Memory.Global.state)); [apply boot_wf|done| |done]. repeat constructor; simpl; lia.
  - intros [rs [ss' w']] (σ' & ? & ? & _). by exists σ'.
Defined.

(** The state after a sequence of calls. *)
Definition after (cs : list call) : list AddressSpace * Vm Memory.Global.state :=
  match exec_all cs [] vm0 with Ret (_, sys) => sys | _ => ([], vm0) end.

Lemma after_sim cs :
  Forall call_ok cs → Z.of_nat (length cs) <= U64_MAX →
  ∃ σ, sim (Z.of_nat (length cs)) (after cs).1 (after cs).2 σ.
Proof.
  intros Hcs Hl. pose proof (exec_all_sim cs 0 [] vm0 [] Hcs vm0_sim ltac:(lia) ltac:(lia)) as Hs.
  unfold after. destruct (exec_all cs [] vm0) as [[rs [ss w]]| |]; [|done|done].
  destruct Hs as (σ & _ & Hs). by exists σ.
Qed.

Lemma map_unmap_roundtrip_witness :
  let '(ss, w) := after [CNew] in
  returns (exec_all [CMap 0 28672 1048576 6; CTranslate 0 (28672 + 5); CGetFlags 0 (28672 + 5); CUnmap 0 28672; CTranslate 0 (28672 + 5)] ss w)
    (λ '(rs, _), match rs with Ok _ :: rs' => rs' = [Ok 1048581; Ok 7; Ok 1048576; Err NotMapped] | _ => True end) ∧
  match exec_all [CMap 0 28672 1048576 6] ss w with Ret (rs, _) => rs = [Ok 0] | _ => False end.
Proof.
  destruct (after_sim [CNew]) as [σ Hs]; [repeat constructor|done|]. split; [|by vm_compute].
  apply (map_unmap_roundtrip 1 _ _ σ 0 28672 1048576 6 5 Hs); try done; vm_compute; lia.
Defined.

Lemma shared_flag_moves_frame_witness :
  let '(ss, w) := after [CNew] in
  returns (exec_all [CMap 0 28672 1048576 (bitor 6 SHARED); CTranslate 0 (28672 + 5)] ss w)
    (λ '(rs, _), match rs with Ok _ :: rs' => rs' = [Ok (1048576 + 4096 + 5)] | _ => True end) ∧
  match exec_all [CMap 0 28672 1048576 (bitor 6 SHARED)] ss w with Ret (rs, _) => rs = [Ok 0] | _ => False end.
Proof.
  destruct (after_sim [CNew]) as [σ Hs]; [repeat constructor|done|]. split; [|by vm_compute].
  apply (shared_flag_moves_frame 1 _ _ σ 0 28672 1048576 6 5 Hs); try done; vm_compute; lia.
Defined.

(** Two spaces share the frame at 1048576 copy-on-write. *)
Definition shared_calls : list call :=
  [CNew; CNew; CMapCow 0 28672 1048576 2; CMapCow 1 28672 1048576 2].

Definition result_ok {A} (o : outcome (result A VmmError * (AddressSpace * Vm Memory.Global.state))) : bool :=
  match o with Ret (Ok _, _) => true | _ => false end.

Lemma cow_fault_private_witness :
  let '(ss, w) := after shared_calls in
  ∃ s s' w' a, ss !! 1%nat = Some s ∧ handle_cow_fault 28672 (s, w) = Ret (Ok tt, (s', w')) ∧
    translate 28672 (s', w') = Ret (Ok a, (s', w')) ∧
    (∀ x, 0 <= x < 4096 → mem w' (a + x) = mem w (1048576 + x)) ∧
    page_refcount w' = <[1048576 := 1]> (page_refcount w).
Proof.
  destruct (after_sim shared_calls) as [σ Hs]; [repeat constructor; simpl; lia|done|].
  destruct Hs as [Hrefs _ (T & Hok & Hall)].
  assert (match (after shared_calls).1 !! 1%nat with
          | Some s => (PageTableEntry.phys_addr (entry_of (after shared_calls).2 (root_table_phys s) (vpn 28672)) =? 1048576) &&
              result_ok (handle_cow_fault 28672 (s, (after shared_calls).2)) &&
              (PageRefCount.get_ref (page_refcount (after shared_calls).2) 1048576 =? 2)
          | None => false end = true) as Hrun by (vm_compute; reflexivity).
  destruct (after shared_calls) as [ss w] eqn:E. cbn [fst snd] in *.
  destruct (ss !! 1%nat) as [s|] eqn:Es; [|done].
  apply andb_true_iff in Hrun as [[Hold%Z.eqb_eq Hrun]%andb_true_iff Hrc%Z.eqb_eq].
  destruct (handle_cow_fault 28672 (s, w)) as [[[[]|] [s' w']]| |] eqn:Ef; [|discriminate Hrun..].
  destruct (Forall2_lookup_l _ _ _ _ _ Hall Es) as (f & _ & [Hr _]).
  change (Z.of_nat (length shared_calls)) with 4 in Hrefs.
  assert (T !! 1048576 = None) as HT.
  { destruct (T !! 1048576) as [[r p]|] eqn:ET; [|reflexivity].
    assert (¬ frame_used (frames (after shared_calls).2) 1048576) as Hn by (vm_compute; naive_solver).
    rewrite E in Hn. destruct Hn. by eapply vo_used. }
  clear E. assert (refs_ok w) as Hro by by apply (refs_le_ok 4).
  assert (0 <= 28672 <= U64_MAX) as Hva by done.
  pose proof (cow_fault_private w T s 28672 s' w' Hok Hr Hro Hva Ef) as Hp. cbv zeta in Hp. rewrite Hold, Hrc in Hp.
  destruct (Hp HT) as (a & fl & Ht & _ & _ & _ & Hc & [_ Hrf] & _).
  exists s, s', w', a. split_and!; [done|done| | |exact Hrf].
  - rewrite Ht. f_equal. f_equal. f_equal. change (28672 mod 4096) with 0. lia.
  - intros x Hx. by apply Hc.
Defined.

(** *** Runs of the methods the calls leave out *)

(** A method on the first space of the state after some calls. *)
Definition on_first {A} (m : M (F:=Memory.Global.state) A) (cs : list call) : option (result A VmmError) :=
  match after cs with
  | (s :: _, w) => match m (s, w) with Ret (r, _) => Some r | _ => None end
  | _ => None
  end.

(** The two pages of a shared region.  In the first run the second page, whose
    frame is 8192, translates to 12288, which holds a page table; in the second run
    both pages translate to the frame at 20480. *)
Lemma shared_region_alias :
  on_first (create_shared_region 28672 8192 2 ;; a ← translate 28672; b ← translate 32768; mret (a, b)) [CNew]
  = Some (Ok (4096, 12288)) ∧
  on_first (map 28672 1048576 2 ;; unmap 28672 ;; create_shared_region 28672 8192 2 ;;
            a ← translate 28672; b ← translate 32768; mret (a, b)) [CNew]
  = Some (Ok (20480, 20480)).
Proof. split; vm_compute; reflexivity. Qed.

(** [translate] goes through a huge page as if it were a table. *)
Lemma huge_page_not_translated :
  on_first (map_huge 2097152 4194304 Size2MB 2 ;; k ← is_huge_page 2097152;
            r ← catch (translate 2097152); mret (k, r)) [CNew]
  = Some (Ok (Some Size2MB, Ok 0)).
Proof. vm_compute. reflexivity. Qed.

(** An attach that cannot map its pages leaves the region's count raised: after
    it two detaches are needed before the region is gone. *)
Lemma attach_failure_keeps_count :
  on_first (id ← create_shared_region 28672 4096 2; r ← catch (attach_shared_region id 28672);
            detach_shared_region id 28672 ;; w ← get_vm;
            mret (r, sr_refcount <$> SharedMemoryRegistry.get_region (shared_memory w) id)) [CNew]
  = Some (Ok (Err AlreadyMapped, Some 1)).
Proof. vm_compute. reflexivity. Qed.
