(* ===== verification/Bytes.v ===== *)
(** * Bytes, strings and fallible code

    What the protocol stacks share: [Result] in code that can panic, slices of
    bytes, UTF-8, and reading from the middle of a slice. *)

From stdpp Require Import base tactics option list numbers.
From S2P Require Import Prelude.

(** ** [Result] in code that can panic *)

Definition rbind {A B E} (m : outcome (result A E)) (k : A → outcome (result B E)) : outcome (result B E) :=
  let! r := m in match r with Ok a => k a | Err e => Ret (Err e) end.

Notation "'let?' x ':=' m 'in' k" := (rbind m (λ x, k))
  (at level 10, x pattern, m at level 100, k at level 200,
   format "'[v' 'let?'  x  ':='  m  'in' '/' k ']'") : rust_scope.

(** [opt.ok_or(e)?] and [res.map_err(|_| e)?]. *)
Definition ok_or {A E} (e : E) (o : option A) : outcome (result A E) :=
  Ret match o with Some a => Ok a | None => Err e end.

Lemma rbind_ok {A B E} (m : outcome (result A E)) (k : A → outcome (result B E)) a :
  m = Ret (Ok a) → rbind m k = k a.
Proof. by intros ->. Qed.

Lemma rbind_assoc {A B C E} (m : outcome (result A E)) (f : A → outcome (result B E)) (g : B → outcome (result C E)) :
  rbind (rbind m f) g = rbind m (λ a, rbind (f a) g).
Proof. by destruct m as [[]| |]. Qed.

(** Checked arithmetic of the narrow integers. *)
Definition u8_add (a b : Z) : outcome Z := checked U8_MAX (a + b).
Definition u16_add (a b : Z) : outcome Z := checked U16_MAX (a + b).
Definition u16_sub (a b : Z) : outcome Z := checked U16_MAX (a - b).
Definition u32_mul (a b : Z) : outcome Z := checked U32_MAX (a * b).

(** The code does not run for ever; it panics only if [P], and returns [Q]. *)
Definition ends {A} (P : Prop) (m : outcome A) (Q : A → Prop) : Prop :=
  match m with Ret a => Q a | Panic => P | Timeout => False end.

Lemma ends_rbind {A B E} P (m : outcome (result A E)) (k : A → outcome (result B E)) Q :
  ends P m (λ r, match r with Ok a => ends P (k a) Q | Err e => Q (Err e) end) → ends P (rbind m k) Q.
Proof. by destruct m as [[]| |]. Qed.

Lemma ends_mono {A} P (m : outcome A) (Q R : A → Prop) : ends P m Q → (∀ a, Q a → R a) → ends P m R.
Proof. destruct m; simpl; auto. Qed.

(** ** Bytes and strings *)

(** [l[a..b]]. *)
Definition slice (l : list Z) (a b : Z) : outcome (list Z) :=
  if (0 <=? a) && (a <=? b) && (b <=? Z.of_nat (length l))
  then Ret (take (Z.to_nat (b - a)) (drop (Z.to_nat a) l)) else Panic.

(** [core::str::from_utf8] accepts: shortest forms, no surrogates, below U+110000. *)
Definition between (a x b : Z) : bool := (a <=? x) && (x <=? b).

Fixpoint utf8_valid (l : list Z) : bool :=
  match l with
  | [] => true
  | b0 :: r =>
    if b0 <? 128 then utf8_valid r
    else if between 194 b0 223 then
      match r with b1 :: r' => between 128 b1 191 && utf8_valid r' | _ => false end
    else if between 224 b0 239 then
      match r with
      | b1 :: b2 :: r' =>
        between (if b0 =? 224 then 160 else 128) b1 (if b0 =? 237 then 159 else 191) &&
        between 128 b2 191 && utf8_valid r'
      | _ => false
      end
    else if between 240 b0 244 then
      match r with
      | b1 :: b2 :: b3 :: r' =>
        between (if b0 =? 240 then 144 else 128) b1 (if b0 =? 244 then 143 else 191) &&
        between 128 b2 191 && between 128 b3 191 && utf8_valid r'
      | _ => false
      end
    else false
  end.

(** [s.split(c)] for an ASCII character. *)
Fixpoint split_on (c : Z) (s : list Z) : list (list Z) :=
  match s with
  | [] => [[]]
  | b :: s' =>
    if b =? c then [] :: split_on c s'
    else match split_on c s' with seg :: segs => (b :: seg) :: segs | [] => [[b]] end
  end.

Definition is_empty {A} (l : list A) : bool := match l with [] => true | _ => false end.

(** [from_str] of an unsigned type: an optional sign, then at least one digit. *)
Fixpoint parse_digits (max acc : Z) (s : list Z) : option Z :=
  match s with
  | [] => Some acc
  | c :: s' =>
    if between 48 c 57 then
      let acc := acc * 10 + (c - 48) in
      if acc <=? max then parse_digits max acc s' else None
    else None
  end.
Definition parse_uint (max : Z) (s : list Z) : option Z :=
  match s with
  | [] => None
  | c :: s' => if (c =? 43) && negb (is_empty s') then parse_digits max 0 s' else parse_digits max 0 s
  end.

(** ASCII characters that the code writes. *)
Abbreviation chr_slash := 47.
Abbreviation chr_amp := 38.

Abbreviation zlen l := (Z.of_nat (length l)).

(** ** Reading from the middle of a slice *)

Lemma arr_get_app {A} (pre rest : list A) x i : i = zlen pre → arr_get (pre ++ x :: rest) i = Ret x.
Proof. intros ->. apply arr_get_ok; [lia|]. rewrite Nat2Z.id, lookup_app_r, Nat.sub_diag by lia. done. Qed.

Lemma slice_app (pre mid post : list Z) a b :
  a = zlen pre → b = zlen pre + zlen mid → slice (pre ++ mid ++ post) a b = Ret mid.
Proof.
  intros -> ->. unfold slice. rewrite !length_app.
  destruct (Z.leb_spec 0 (zlen pre)), (Z.leb_spec (zlen pre) (zlen pre + zlen mid)),
    (Z.leb_spec (zlen pre + zlen mid) (Z.of_nat (length pre + (length mid + length post)))); try lia; simpl.
  rewrite Nat2Z.id, drop_app_length. replace (Z.to_nat (zlen pre + zlen mid - zlen pre)) with (length mid) by lia.
  by rewrite take_app_length.
Qed.

(** [l[n..]]. *)
Lemma slice_tail (l : list Z) n : 0 <= n <= zlen l → slice l n (zlen l) = Ret (drop (Z.to_nat n) l).
Proof.
  intros Hn. unfold slice. destruct (Z.leb_spec 0 n), (Z.leb_spec n (zlen l)); try lia. rewrite Z.leb_refl. cbn [andb].
  f_equal. apply take_ge. rewrite length_drop. lia.
Qed.

Ltac ltb_false := rewrite (proj2 (Z.ltb_ge _ _)) by (rewrite ?length_app; simpl; lia).
Ltac leb_false := rewrite (proj2 (Z.leb_gt _ _)) by (rewrite ?length_app; simpl; lia).
