(* ===== verification/Heapless.v ===== *)
(** * Vectors and strings of fixed capacity

    The embedded runtime keeps its data in [heapless::Vec] and [heapless::String].
    The crate is not part of the repository: its types and the functions that are
    called are an interface here, and what its documentation says of them are the
    laws.  A vector shows its elements as a slice; a push into a full vector and an
    extension that does not fit fail and leave it as it is. *)

From stdpp Require Import base tactics option list numbers.
From S2P Require Import Prelude Bytes.

(** ** The interface *)

Class Heapless : Type := {
  Vec : Type → Z → Type;
  vec_new {A N} : Vec A N;
  vec_push {A N} : Vec A N → A → option (Vec A N);
  vec_extend {A N} : Vec A N → list A → option (Vec A N);
  vec_clear {A N} : Vec A N → Vec A N;
  vec_retain {A N} : (A → bool) → Vec A N → Vec A N;
  vec_slice {A N} : Vec A N → list A;
  (** The vector after its slice was written through [&mut]. *)
  vec_write {A N} : Vec A N → list A → Vec A N;
  Str : Z → Type;
  str_new {N} : Str N;
  str_push {N} : Str N → list Z → option (Str N);
  str_clear {N} : Str N → Str N;
  str_bytes {N} : Str N → list Z;
}.

Definition vlen {A} {N : Z} `{Heapless} (v : Vec A N) : Z := Z.of_nat (length (vec_slice v)).

Class HeaplessLaws `{Heapless} : Prop := {
  vec_capacity {A N} (v : Vec A N) : 0 <= N → vlen v <= N;
  slice_new {A N} : vec_slice (vec_new : Vec A N) = [];
  push_law {A N} (v : Vec A N) a :
    match vec_push v a with
    | Some v' => vlen v + 1 <= N ∧ vec_slice v' = vec_slice v ++ [a]
    | None => N < vlen v + 1
    end;
  extend_law {A N} (v : Vec A N) l :
    match vec_extend v l with
    | Some v' => vlen v + Z.of_nat (length l) <= N ∧ vec_slice v' = vec_slice v ++ l
    | None => N < vlen v + Z.of_nat (length l)
    end;
  slice_clear {A N} (v : Vec A N) : vec_slice (vec_clear v) = [];
  slice_retain {A N} f (v : Vec A N) : vec_slice (vec_retain f v) = base.filter (λ x, f x = true) (vec_slice v);
  slice_write {A N} (v : Vec A N) l : length l = length (vec_slice v) → vec_slice (vec_write v l) = l;
  bytes_new {N} : str_bytes (str_new : Str N) = [];
  str_push_law {N} (s : Str N) l :
    match str_push s l with
    | Some s' => Z.of_nat (length (str_bytes s)) + Z.of_nat (length l) <= N ∧ str_bytes s' = str_bytes s ++ l
    | None => N < Z.of_nat (length (str_bytes s)) + Z.of_nat (length l)
    end;
  bytes_clear {N} (s : Str N) : str_bytes (str_clear s) = [];
}.

(** [let _ = v.push(x)] and the like: a failure changes nothing. *)
Definition keep {A} (old : A) (new : option A) : A := match new with Some x => x | None => old end.

Section laws.
Context `{HeaplessLaws}.

Lemma extend_fits {A N} (v : Vec A N) l :
  vlen v + Z.of_nat (length l) <= N → ∃ v', vec_extend v l = Some v' ∧ vec_slice v' = vec_slice v ++ l.
Proof. intros Hl. pose proof (extend_law v l) as E. destruct (vec_extend v l) as [v'|]; [|lia]. exists v'. naive_solver. Qed.

Lemma push_fits {A N} (v : Vec A N) a :
  vlen v + 1 <= N → ∃ v', vec_push v a = Some v' ∧ vec_slice v' = vec_slice v ++ [a].
Proof. intros Hl. pose proof (push_law v a) as E. destruct (vec_push v a) as [v'|]; [|lia]. exists v'. naive_solver. Qed.

Lemma str_push_fits {N} (s : Str N) l :
  Z.of_nat (length (str_bytes s)) + Z.of_nat (length l) <= N →
  ∃ s', str_push s l = Some s' ∧ str_bytes s' = str_bytes s ++ l.
Proof. intros Hl. pose proof (str_push_law s l) as E. destruct (str_push s l) as [s'|]; [|lia]. exists s'. naive_solver. Qed.

(** A push is an extension by one element. *)
Lemma push_extend {A N} (v : Vec A N) a :
  vec_slice <$> vec_push v a = vec_slice <$> vec_extend v [a].
Proof.
  pose proof (push_law v a) as E1. pose proof (extend_law v [a]) as E2. simpl in E2.
  destruct (vec_push v a), (vec_extend v [a]); simpl; [|lia|lia|done].
  destruct E1 as [_ ->], E2 as [_ ->]. done.
Qed.
End laws.

(** ** An implementation: lists, cut at the capacity *)

Module Lists.

Record lvec (A : Type) (N : Z) : Type := mkVec { elems : list A; elems_fit : 0 <= N → Z.of_nat (length elems) <= N }.
Arguments mkVec {A N}.
Arguments elems {A N}.

Definition empty {A N} : lvec A N := mkVec [] (λ H, H).

(** A vector with the elements of [l], when they fit. *)
Definition make {A N} (l : list A) : option (lvec A N) :=
  match decide (Z.of_nat (length l) <= N) with left H => Some (mkVec l (λ _, H)) | right _ => None end.

Lemma make_spec {A N} (l : list A) :
  match make (N:=N) l with
  | Some v => Z.of_nat (length l) <= N ∧ elems v = l
  | None => N < Z.of_nat (length l)
  end.
Proof. unfold make. destruct (decide _); simpl; [done|lia]. Qed.

#[export] Instance heapless : Heapless := {|
  Vec A N := lvec A N;
  vec_new A N := empty;
  vec_push A N v a := make (elems v ++ [a]);
  vec_extend A N v l := make (elems v ++ l);
  vec_clear A N v := empty;
  vec_retain A N f v := mkVec (base.filter (λ x, f x = true) (elems v))
    (λ H, Z.le_trans _ _ _ (inj_le _ _ (length_filter _ _)) (elems_fit _ _ v H));
  vec_slice A N v := elems v;
  vec_write A N v l :=
    match decide (length l = length (elems v)) with
    | left H => mkVec l (λ HN, Z.le_trans _ _ _ (Z.eq_le_incl _ _ (f_equal Z.of_nat H)) (elems_fit _ _ v HN))
    | right _ => v
    end;
  Str N := list Z;
  str_new N := [];
  str_push N s l := if decide (Z.of_nat (length (s ++ l)) <= N) then Some (s ++ l) else None;
  str_clear N s := [];
  str_bytes N s := s;
|}.

#[export] Instance heapless_laws : HeaplessLaws.
Proof.
  split; intros; unfold vlen; simpl; rewrite ?app_nil_l; try done.
  - by apply elems_fit.
  - pose proof (make_spec (N:=N) (elems v ++ [a])) as E. rewrite length_app in E. simpl in E.
    destruct (make _); [split; [lia|]|lia]. by destruct E.
  - pose proof (make_spec (N:=N) (elems v ++ l)) as E. rewrite length_app in E.
    destruct (make _); [split; [lia|]|lia]. by destruct E.
  - by case_decide.
  - case_decide as Hd; rewrite length_app in Hd; [split; [lia|done]|lia].
Qed.

End Lists.
