(* ===== verification/Coap.v ===== *)
(** * CoAP (mielin-rt/src/coap.rs)

    Messages of the Constrained Application Protocol: header, options, the encoder
    and the decoder, requests and responses, the client with its pending requests
    and the server with its resources.  Bytes are integers from 0 to 255; a string
    is its UTF-8 bytes.  A slice has at most [isize::MAX] bytes, so that the sums
    of an offset and a length stay below 2^64; they are written with [+]. *)

From stdpp Require Import base tactics option list numbers.
From S2P Require Import Prelude Bytes Heapless.

(* src: mielin-rt/src/coap.rs 38-38 COAP_VERSION *)
Definition COAP_VERSION : Z := 1.
(* src: mielin-rt/src/coap.rs 47-47 MAX_MESSAGE_SIZE *)
Definition MAX_MESSAGE_SIZE : Z := 1152.
(* src: mielin-rt/src/coap.rs 50-50 MAX_TOKEN_LENGTH *)
Definition MAX_TOKEN_LENGTH : Z := 8.
(* src: mielin-rt/src/coap.rs 53-53 MAX_RETRANSMIT *)
Definition MAX_RETRANSMIT : Z := 4.
(* src: mielin-rt/src/coap.rs 56-56 ACK_TIMEOUT_MS *)
Definition ACK_TIMEOUT_MS : Z := 2000.

(* src: mielin-rt/src/coap.rs 1255-1296 CoapError *)
Inductive CoapError : Type :=
| InvalidMessageType | InvalidMethod | InvalidResponseCode | UnknownOption | UnsupportedVersion
| TokenTooLong | MessageTooShort | OptionTooLarge | TooManyOptions | PayloadTooLarge
| EncodingFailed | InvalidOptionValue | InvalidOptionDelta | InvalidOptionLength | InvalidPayload
| ErrUnsupportedContentFormat | PathTooLong | TooManyResources | ResourceNotFound
| TooManyPendingRequests.

#[export] Instance CoapError_eq_dec : EqDecision CoapError.
Proof. solve_decision. Defined.

(** ** Codes *)

(* src: mielin-rt/src/coap.rs 64-73 MessageType *)
Inductive MessageType : Type := Confirmable | NonConfirmable | Acknowledgment | Reset.

#[export] Instance MessageType_eq_dec : EqDecision MessageType.
Proof. solve_decision. Defined.

Module MessageType.

(* src: mielin-rt/src/coap.rs 77-85 MessageType::from_u8 *)
Definition from_u8 (value : Z) : result MessageType CoapError :=
  match Z.land value 3 with
  | 0 => Ok Confirmable
  | 1 => Ok NonConfirmable
  | 2 => Ok Acknowledgment
  | 3 => Ok Reset
  | _ => Err InvalidMessageType
  end.

(* src: mielin-rt/src/coap.rs 88-90 MessageType::to_u8 *)
Definition to_u8 (t : MessageType) : Z :=
  match t with Confirmable => 0 | NonConfirmable => 1 | Acknowledgment => 2 | Reset => 3 end.

End MessageType.

(* src: mielin-rt/src/coap.rs 96-105 Method *)
Inductive Method : Type := Get | Post | Put | Delete.

#[export] Instance Method_eq_dec : EqDecision Method.
Proof. solve_decision. Defined.

Module Method.

(* src: mielin-rt/src/coap.rs 109-117 Method::from_code *)
Definition from_code (code : Z) : result Method CoapError :=
  match code with
  | 1 => Ok Get | 2 => Ok Post | 3 => Ok Put | 4 => Ok Delete | _ => Err InvalidMethod
  end.

(* src: mielin-rt/src/coap.rs 120-122 Method::to_code *)
Definition to_code (m : Method) : Z := match m with Get => 1 | Post => 2 | Put => 3 | Delete => 4 end.

End Method.

(* src: mielin-rt/src/coap.rs 127-175 ResponseCode *)
Inductive ResponseCode : Type :=
| Created | Deleted | Valid | Changed | Content
| BadRequest | Unauthorized | BadOption | Forbidden | NotFound | MethodNotAllowed | NotAcceptable
| PreconditionFailed | RequestEntityTooLarge | UnsupportedContentFormat
| InternalServerError | NotImplemented | BadGateway | ServiceUnavailable | GatewayTimeout
| ProxyingNotSupported.

Module ResponseCode.

(* src: mielin-rt/src/coap.rs 179-204 ResponseCode::from_u8 *)
Definition from_u8 (code : Z) : result ResponseCode CoapError :=
  match code with
  | 65 => Ok Created | 66 => Ok Deleted | 67 => Ok Valid | 68 => Ok Changed | 69 => Ok Content
  | 128 => Ok BadRequest | 129 => Ok Unauthorized | 130 => Ok BadOption | 131 => Ok Forbidden
  | 132 => Ok NotFound | 133 => Ok MethodNotAllowed | 134 => Ok NotAcceptable
  | 140 => Ok PreconditionFailed | 141 => Ok RequestEntityTooLarge | 143 => Ok UnsupportedContentFormat
  | 160 => Ok InternalServerError | 161 => Ok NotImplemented | 162 => Ok BadGateway
  | 163 => Ok ServiceUnavailable | 164 => Ok GatewayTimeout | 165 => Ok ProxyingNotSupported
  | _ => Err InvalidResponseCode
  end.

(* src: mielin-rt/src/coap.rs 207-209 ResponseCode::to_u8 *)
Definition to_u8 (c : ResponseCode) : Z :=
  match c with
  | Created => 65 | Deleted => 66 | Valid => 67 | Changed => 68 | Content => 69
  | BadRequest => 128 | Unauthorized => 129 | BadOption => 130 | Forbidden => 131
  | NotFound => 132 | MethodNotAllowed => 133 | NotAcceptable => 134
  | PreconditionFailed => 140 | RequestEntityTooLarge => 141 | UnsupportedContentFormat => 143
  | InternalServerError => 160 | NotImplemented => 161 | BadGateway => 162
  | ServiceUnavailable => 163 | GatewayTimeout => 164 | ProxyingNotSupported => 165
  end.

(* src: mielin-rt/src/coap.rs 212-214 ResponseCode::class *)
Definition class (c : ResponseCode) : Z := Z.shiftr (to_u8 c) 5.

(* src: mielin-rt/src/coap.rs 217-219 ResponseCode::detail *)
Definition detail (c : ResponseCode) : Z := Z.land (to_u8 c) 31.

(* src: mielin-rt/src/coap.rs 222-224 ResponseCode::is_success *)
Definition is_success (c : ResponseCode) : bool := class c =? 2.

(* src: mielin-rt/src/coap.rs 227-229 ResponseCode::is_client_error *)
Definition is_client_error (c : ResponseCode) : bool := class c =? 4.

(* src: mielin-rt/src/coap.rs 232-234 ResponseCode::is_server_error *)
Definition is_server_error (c : ResponseCode) : bool := class c =? 5.

End ResponseCode.

(* src: mielin-rt/src/coap.rs 240-279 OptionNumber *)
Inductive OptionNumber : Type :=
| IfMatch | UriHost | ETag | IfNoneMatch | UriPort | LocationPath | UriPath | ContentFormatOption
| MaxAge | UriQuery | Accept | LocationQuery | ProxyUri | ProxyScheme | Size1 | Observe
| Block2 | Block1 | Size2.

Module OptionNumber.

(* src: mielin-rt/src/coap.rs 283-306 OptionNumber::from_u16 *)
Definition from_u16 (value : Z) : result OptionNumber CoapError :=
  match value with
  | 1 => Ok IfMatch | 3 => Ok UriHost | 4 => Ok ETag | 5 => Ok IfNoneMatch | 6 => Ok Observe
  | 7 => Ok UriPort | 8 => Ok LocationPath | 11 => Ok UriPath | 12 => Ok ContentFormatOption
  | 14 => Ok MaxAge | 15 => Ok UriQuery | 17 => Ok Accept | 20 => Ok LocationQuery | 23 => Ok Block2
  | 27 => Ok Block1 | 28 => Ok Size2 | 35 => Ok ProxyUri | 39 => Ok ProxyScheme | 60 => Ok Size1
  | _ => Err UnknownOption
  end.

(* src: mielin-rt/src/coap.rs 309-311 OptionNumber::to_u16 *)
Definition to_u16 (n : OptionNumber) : Z :=
  match n with
  | IfMatch => 1 | UriHost => 3 | ETag => 4 | IfNoneMatch => 5 | UriPort => 7 | LocationPath => 8
  | UriPath => 11 | ContentFormatOption => 12 | MaxAge => 14 | UriQuery => 15 | Accept => 17
  | LocationQuery => 20 | ProxyUri => 35 | ProxyScheme => 39 | Size1 => 60 | Observe => 6
  | Block2 => 23 | Block1 => 27 | Size2 => 28
  end.

End OptionNumber.

(* src: mielin-rt/src/coap.rs 317-332 ContentFormat *)
Inductive ContentFormat : Type :=
| TextPlain | ApplicationLinkFormat | ApplicationXml | ApplicationOctetStream | ApplicationExi
| ApplicationJson | ApplicationCbor.

Module ContentFormat.

(* src: mielin-rt/src/coap.rs 336-347 ContentFormat::from_u16 *)
Definition from_u16 (value : Z) : result ContentFormat CoapError :=
  match value with
  | 0 => Ok TextPlain | 40 => Ok ApplicationLinkFormat | 41 => Ok ApplicationXml
  | 42 => Ok ApplicationOctetStream | 47 => Ok ApplicationExi | 50 => Ok ApplicationJson
  | 60 => Ok ApplicationCbor | _ => Err ErrUnsupportedContentFormat
  end.

(* src: mielin-rt/src/coap.rs 350-352 ContentFormat::to_u16 *)
Definition to_u16 (f : ContentFormat) : Z :=
  match f with
  | TextPlain => 0 | ApplicationLinkFormat => 40 | ApplicationXml => 41 | ApplicationOctetStream => 42
  | ApplicationExi => 47 | ApplicationJson => 50 | ApplicationCbor => 60
  end.

End ContentFormat.

(** ** The header *)

(* src: mielin-rt/src/coap.rs 430-441 CoapHeader *)
Record CoapHeader : Type := mkHeader {
  version : Z;
  msg_type : MessageType;
  token_length : Z;
  code : Z;
  message_id : Z;
}.

Module CoapHeader.

(* src: mielin-rt/src/coap.rs 445-453 CoapHeader::new *)
Definition new (msg_type : MessageType) (code message_id : Z) : CoapHeader :=
  mkHeader COAP_VERSION msg_type 0 code message_id.

(* src: mielin-rt/src/coap.rs 456-462 CoapHeader::with_token_length *)
Definition with_token_length (self : CoapHeader) (length : Z) : result CoapHeader CoapError :=
  if as_u8 MAX_TOKEN_LENGTH <? length then Err TokenTooLong
  else Ok (mkHeader (version self) (msg_type self) length (code self) (message_id self)).

(* src: mielin-rt/src/coap.rs 465-472 CoapHeader::encode *)
Definition encode (self : CoapHeader) : list Z :=
  let byte0 := Z.lor (Z.lor (as_u8 (Z.shiftl (version self) 6))
                            (as_u8 (Z.shiftl (MessageType.to_u8 (msg_type self)) 4)))
                     (Z.land (token_length self) 15) in
  let byte1 := code self in
  let byte2 := as_u8 (Z.shiftr (message_id self) 8) in
  let byte3 := as_u8 (message_id self) in
  [byte0; byte1; byte2; byte3].

(* src: mielin-rt/src/coap.rs 475-502 CoapHeader::decode *)
Definition decode (bytes : list Z) : outcome (result CoapHeader CoapError) :=
  if Z.of_nat (length bytes) <? 4 then Ret (Err MessageTooShort) else
  let! b0 := arr_get bytes 0 in
  let version := Z.shiftr b0 6 in
  if negb (version =? COAP_VERSION) then Ret (Err UnsupportedVersion) else
  let? msg_type := Ret (MessageType.from_u8 (Z.land (Z.shiftr b0 4) 3)) in
  let token_length := Z.land b0 15 in
  if as_u8 MAX_TOKEN_LENGTH <? token_length then Ret (Err TokenTooLong) else
  let! code := arr_get bytes 1 in
  let! b2 := arr_get bytes 2 in
  let! b3 := arr_get bytes 3 in
  let message_id := Z.lor (as_u16 (Z.shiftl b2 8)) b3 in
  Ret (Ok (mkHeader version msg_type token_length code message_id)).

End CoapHeader.

(** ** Options and messages *)

Section types.
Context `{Heapless}.

(* src: mielin-rt/src/coap.rs 357-362 CoapOption *)
Record CoapOption : Type := mkOption {
  number : Z;
  value : Vec Z 256;
}.

(* src: mielin-rt/src/coap.rs 507-516 CoapMessage *)
Record CoapMessage : Type := mkMessage {
  header : CoapHeader;
  token : Vec Z 8;
  options : Vec CoapOption 16;
  payload : Vec Z 1024;
}.

(* src: mielin-rt/src/coap.rs 779-788 CoapRequest *)
Record CoapRequest : Type := mkRequest {
  rq_method : Method;
  rq_uri_path : Str 256;
  rq_uri_query : Str 256;
  rq_token : Vec Z 8;
  rq_content_format : option ContentFormat;
  rq_accept : option ContentFormat;
  rq_observe : option bool;
  rq_payload : Vec Z 1024;
}.

(* src: mielin-rt/src/coap.rs 918-927 CoapResponse *)
Record CoapResponse : Type := mkResponse {
  rs_code : ResponseCode;
  rs_token : Vec Z 8;
  rs_options : Vec CoapOption 16;
  rs_payload : Vec Z 1024;
}.

(* src: mielin-rt/src/coap.rs 973-982 PendingRequest *)
Record PendingRequest : Type := mkPending {
  pr_message_id : Z;
  pr_message : Vec Z MAX_MESSAGE_SIZE;
  retransmit_count : Z;
  timeout_ms : Z;
}.

(* src: mielin-rt/src/coap.rs 964-969 CoapClient *)
Record CoapClient : Type := mkClient {
  next_id : Z;
  pending : Vec PendingRequest 8;
}.

(* src: mielin-rt/src/coap.rs 1083-1094 CoapResource *)
Record CoapResource : Type := mkResource {
  path : Str 64;
  methods : Vec Method 4;
  resource_type : option (Str 32);
  interface : option (Str 32);
  observable : bool;
}.

(* src: mielin-rt/src/coap.rs 1141-1144 CoapServer *)
Record CoapServer : Type := mkServer {
  resources : Vec CoapResource 16;
}.
End types.

Module CoapOption.
Section option.
Context `{Heapless}.

(* src: mielin-rt/src/coap.rs 366-375 CoapOption::new *)
Definition new (n : OptionNumber) (bytes : list Z) : result CoapOption CoapError :=
  match vec_extend vec_new bytes with
  | Some vec => Ok (mkOption (OptionNumber.to_u16 n) vec)
  | None => Err OptionTooLarge
  end.

(* src: mielin-rt/src/coap.rs 378-380 CoapOption::uri_path *)
Definition uri_path (path : list Z) : result CoapOption CoapError := new UriPath path.

(* src: mielin-rt/src/coap.rs 383-393 CoapOption::content_format *)
Definition content_format (format : ContentFormat) : result CoapOption CoapError :=
  let value := ContentFormat.to_u16 format in
  if value <? 256 then new ContentFormatOption [as_u8 value]
  else new ContentFormatOption [as_u8 (Z.shiftr value 8); as_u8 value].

(* src: mielin-rt/src/coap.rs 396-399 CoapOption::observe *)
Definition observe (register : bool) : result CoapOption CoapError :=
  let value := if register then 0 else 1 in
  new Observe [value].

(** [seconds.to_be_bytes()]. *)
Definition be_bytes (x : Z) : list Z :=
  [as_u8 (Z.shiftr x 24); as_u8 (Z.shiftr x 16); as_u8 (Z.shiftr x 8); as_u8 x].

(** [iter().position(|&b| b != 0)]. *)
Fixpoint position_nonzero (l : list Z) : option nat :=
  match l with
  | [] => None
  | b :: l' => if negb (b =? 0) then Some O else S <$> position_nonzero l'
  end.

(* src: mielin-rt/src/coap.rs 402-407 CoapOption::max_age *)
Definition max_age (seconds : Z) : result CoapOption CoapError :=
  let bytes := be_bytes seconds in
  let start := default 3%nat (position_nonzero bytes) in
  new MaxAge (drop start bytes).

(* src: mielin-rt/src/coap.rs 410-420 CoapOption::as_u32 *)
Definition as_u32 (self : CoapOption) : result Z CoapError :=
  if 4 <? vlen (value self) then Err InvalidOptionValue
  else Ok (fold_left (λ result byte, Z.lor (Prelude.as_u32 (Z.shiftl result 8)) byte) (vec_slice (value self)) 0).

(* src: mielin-rt/src/coap.rs 423-425 CoapOption::as_str *)
Definition as_str (self : CoapOption) : result (list Z) CoapError :=
  if utf8_valid (vec_slice (value self)) then Ok (vec_slice (value self)) else Err InvalidOptionValue.

End option.
End CoapOption.

Module CoapMessage.
Section message.
Context `{Heapless}.

(* src: mielin-rt/src/coap.rs 520-527 CoapMessage::new *)
Definition new (msg_type : MessageType) (code message_id : Z) : CoapMessage :=
  mkMessage (CoapHeader.new msg_type code message_id) vec_new vec_new vec_new.

(* src: mielin-rt/src/coap.rs 530-542 CoapMessage::with_token *)
Definition with_token (self : CoapMessage) (bytes : list Z) : result CoapMessage CoapError :=
  if MAX_TOKEN_LENGTH <? Z.of_nat (length bytes) then Err TokenTooLong else
  match vec_extend (vec_clear (token self)) bytes with
  | None => Err TokenTooLong
  | Some t =>
    let h := header self in
    Ok (mkMessage (mkHeader (version h) (msg_type h) (as_u8 (Z.of_nat (length bytes))) (code h) (message_id h))
          t (options self) (payload self))
  end.

(* src: mielin-rt/src/coap.rs 545-549 CoapMessage::add_option *)
Definition add_option (self : CoapMessage) (option : CoapOption) : result CoapMessage CoapError :=
  match vec_push (options self) option with
  | Some os => Ok (mkMessage (header self) (token self) os (payload self))
  | None => Err TooManyOptions
  end.

(* src: mielin-rt/src/coap.rs 552-558 CoapMessage::with_payload *)
Definition with_payload (self : CoapMessage) (bytes : list Z) : result CoapMessage CoapError :=
  match vec_extend (vec_clear (payload self)) bytes with
  | Some p => Ok (mkMessage (header self) (token self) (options self) p)
  | None => Err PayloadTooLarge
  end.

(** The two loops of [sort_options] over the slice. *)
Definition bubble (l : list CoapOption) : outcome (list CoapOption) :=
  let len := Z.of_nat (length l) in
  for_range 0 len (λ i l,
    let! a := usize_sub len 1 in
    let! hi := usize_sub a i in
    for_range 0 hi (λ j l,
      let! x := arr_get l j in
      let! y := arr_get l (j + 1) in
      if number y <? number x then
        let! l1 := arr_set l j y in arr_set l1 (j + 1) x
      else Ret l) l) l.

(* src: mielin-rt/src/coap.rs 561-571 CoapMessage::sort_options *)
Definition sort_options (self : CoapMessage) : outcome CoapMessage :=
  let! l := bubble (vec_slice (options self)) in
  Ret (mkMessage (header self) (token self) (vec_write (options self) l) (payload self)).

(** [buffer.push(b)] and [buffer.extend_from_slice(l)] with [EncodingFailed]. *)
Definition put (buffer : Vec Z MAX_MESSAGE_SIZE) (b : Z) : outcome (result (Vec Z MAX_MESSAGE_SIZE) CoapError) :=
  ok_or EncodingFailed (vec_push buffer b).
Definition put_all (buffer : Vec Z MAX_MESSAGE_SIZE) (l : list Z) : outcome (result (Vec Z MAX_MESSAGE_SIZE) CoapError) :=
  ok_or EncodingFailed (vec_extend buffer l).

(** The nibble of a delta or a length, and the bytes that extend it. *)
(* src: mielin-rt/src/coap.rs 596-602 CoapMessage::encode (nibble) *)
Definition nibble (n : Z) : Z :=
  if n <? 13 then as_u8 n else if n <? 269 then 13 else 14.

(* src: mielin-rt/src/coap.rs 620-633 CoapMessage::encode (extended delta) *)
Definition put_extended (sub : Z → Z → outcome Z) (buffer : Vec Z MAX_MESSAGE_SIZE) (nib n : Z)
    : outcome (result (Vec Z MAX_MESSAGE_SIZE) CoapError) :=
  if nib =? 13 then
    let! d := sub n 13 in put buffer (as_u8 d)
  else if nib =? 14 then
    let! extended := sub n 269 in
    let? buffer := put buffer (as_u8 (Z.shiftr extended 8)) in
    put buffer (as_u8 extended)
  else Ret (Ok buffer).

(* src: mielin-rt/src/coap.rs 592-656 CoapMessage::encode (options) *)
Fixpoint encode_options (os : list CoapOption) (prev_option_number : Z) (buffer : Vec Z MAX_MESSAGE_SIZE)
    : outcome (result (Vec Z MAX_MESSAGE_SIZE) CoapError) :=
  match os with
  | [] => Ret (Ok buffer)
  | option :: os' =>
    let! delta := u16_sub (number option) prev_option_number in
    let delta_nibble := nibble delta in
    let length := vlen (value option) in
    let length_nibble := nibble length in
    let option_header := Z.lor (as_u8 (Z.shiftl delta_nibble 4)) length_nibble in
    let? buffer := put buffer option_header in
    let? buffer := put_extended u16_sub buffer delta_nibble delta in
    let? buffer := put_extended usize_sub buffer length_nibble length in
    let? buffer := put_all buffer (vec_slice (value option)) in
    encode_options os' (number option) buffer
  end.

(** The message that remains in [&mut self] has its options sorted, when the header
    and the token fit. *)
(* src: mielin-rt/src/coap.rs 574-667 CoapMessage::encode *)
Definition encode (self : CoapMessage)
    : outcome (result (Vec Z MAX_MESSAGE_SIZE) CoapError * CoapMessage) :=
  match vec_extend vec_new (CoapHeader.encode (header self)) with
  | None => Ret (Err EncodingFailed, self)
  | Some buffer =>
    match vec_extend buffer (vec_slice (token self)) with
    | None => Ret (Err EncodingFailed, self)
    | Some buffer =>
      let! self := sort_options self in
      let! r :=
        (let? buffer := encode_options (vec_slice (options self)) 0 buffer in
         if negb (is_empty (vec_slice (payload self))) then
           let? buffer := put buffer 255 in
           put_all buffer (vec_slice (payload self))
         else Ret (Ok buffer)) in
      Ret (r, self)
    end
  end.

(** The extended delta: the value and the offset behind it. *)
(* src: mielin-rt/src/coap.rs 703-718 CoapMessage::decode (extended delta) *)
Definition extended_delta (bytes : list Z) (offset delta : Z) : outcome (result (Z * Z) CoapError) :=
  let len := Z.of_nat (length bytes) in
  if delta =? 13 then
    if len <=? offset then Ret (Err MessageTooShort) else
    let! b := arr_get bytes offset in
    let! d := u16_add b 13 in
    Ret (Ok (d, offset + 1))
  else if delta =? 14 then
    if len <=? offset + 1 then Ret (Err MessageTooShort) else
    let! b0 := arr_get bytes offset in
    let! b1 := arr_get bytes (offset + 1) in
    let! low := u16_add b1 269 in
    Ret (Ok (Z.lor (as_u16 (Z.shiftl b0 8)) low, offset + 2))
  else if delta =? 15 then Ret (Err InvalidOptionDelta)
  else Ret (Ok (delta, offset)).

(* src: mielin-rt/src/coap.rs 720-735 CoapMessage::decode (extended length) *)
Definition extended_length (bytes : list Z) (offset len0 : Z) : outcome (result (Z * Z) CoapError) :=
  let len := Z.of_nat (length bytes) in
  if len0 =? 13 then
    if len <=? offset then Ret (Err MessageTooShort) else
    let! b := arr_get bytes offset in
    Ret (Ok (b + 13, offset + 1))
  else if len0 =? 14 then
    if len <=? offset + 1 then Ret (Err MessageTooShort) else
    let! b0 := arr_get bytes offset in
    let! b1 := arr_get bytes (offset + 1) in
    Ret (Ok (Z.lor (Z.shiftl b0 8) b1 + 269, offset + 2))
  else if len0 =? 15 then Ret (Err InvalidOptionLength)
  else Ret (Ok (len0, offset)).

(* src: mielin-rt/src/coap.rs 696-757 CoapMessage::decode (options) *)
Fixpoint decode_options (fuel : nat) (bytes : list Z) (offset prev_option_number : Z) (os : Vec CoapOption 16)
    : outcome (result (Z * Vec CoapOption 16) CoapError) :=
  match fuel with
  | O => Timeout
  | S fuel' =>
    if negb (offset <? Z.of_nat (length bytes)) then Ret (Ok (offset, os)) else
    let! option_header := arr_get bytes offset in
    if option_header =? 255 then Ret (Ok (offset, os)) else
    let offset := offset + 1 in
    let delta := Z.land (Z.shiftr option_header 4) 15 in
    let len0 := Z.land option_header 15 in
    let? (delta, offset) := extended_delta bytes offset delta in
    let? (length, offset) := extended_length bytes offset len0 in
    if Z.of_nat (Datatypes.length bytes) <? offset + length then Ret (Err MessageTooShort) else
    let! option_number := u16_add prev_option_number delta in
    let! v := slice bytes offset (offset + length) in
    let? value := ok_or OptionTooLarge (vec_extend vec_new v) in
    let? os := ok_or TooManyOptions (vec_push os (mkOption option_number value)) in
    decode_options fuel' bytes (offset + length) option_number os
  end.

(* src: mielin-rt/src/coap.rs 670-774 CoapMessage::decode *)
Definition decode (bytes : list Z) : outcome (result CoapMessage CoapError) :=
  let len := Z.of_nat (length bytes) in
  if len <? 4 then Ret (Err MessageTooShort) else
  let? header := CoapHeader.decode bytes in
  let offset := 4 in
  let token_end := offset + token_length header in
  if len <? token_end then Ret (Err MessageTooShort) else
  let! t := slice bytes offset token_end in
  let? token := ok_or TokenTooLong (vec_extend vec_new t) in
  let? (offset, options) := decode_options (S (length bytes)) bytes token_end 0 vec_new in
  let! more := (if offset <? len then let! b := arr_get bytes offset in Ret (b =? 255) else Ret false) in
  if more : bool then
    let! p := slice bytes (offset + 1) len in
    let? payload := ok_or PayloadTooLarge (vec_extend vec_new p) in
    Ret (Ok (mkMessage header token options payload))
  else Ret (Ok (mkMessage header token options vec_new)).

End message.
End CoapMessage.

(** ** Requests and responses *)

Module CoapRequest.
Section request.
Context `{Heapless}.

(* src: mielin-rt/src/coap.rs 792-803 CoapRequest::new *)
Definition new (method : Method) : CoapRequest :=
  mkRequest method str_new str_new vec_new None None None vec_new.

(* src: mielin-rt/src/coap.rs 806-810 CoapRequest::with_uri_path *)
Definition with_uri_path (self : CoapRequest) (path : list Z) : CoapRequest :=
  let s := str_clear (rq_uri_path self) in
  mkRequest (rq_method self) (keep s (str_push s path)) (rq_uri_query self) (rq_token self)
    (rq_content_format self) (rq_accept self) (rq_observe self) (rq_payload self).

(* src: mielin-rt/src/coap.rs 813-817 CoapRequest::with_uri_query *)
Definition with_uri_query (self : CoapRequest) (query : list Z) : CoapRequest :=
  let s := str_clear (rq_uri_query self) in
  mkRequest (rq_method self) (rq_uri_path self) (keep s (str_push s query)) (rq_token self)
    (rq_content_format self) (rq_accept self) (rq_observe self) (rq_payload self).

(* src: mielin-rt/src/coap.rs 820-824 CoapRequest::with_token *)
Definition with_token (self : CoapRequest) (token : list Z) : CoapRequest :=
  let t := vec_clear (rq_token self) in
  mkRequest (rq_method self) (rq_uri_path self) (rq_uri_query self) (keep t (vec_extend t token))
    (rq_content_format self) (rq_accept self) (rq_observe self) (rq_payload self).

(* src: mielin-rt/src/coap.rs 827-830 CoapRequest::with_content_format *)
Definition with_content_format (self : CoapRequest) (format : ContentFormat) : CoapRequest :=
  mkRequest (rq_method self) (rq_uri_path self) (rq_uri_query self) (rq_token self)
    (Some format) (rq_accept self) (rq_observe self) (rq_payload self).

(* src: mielin-rt/src/coap.rs 833-836 CoapRequest::with_accept *)
Definition with_accept (self : CoapRequest) (format : ContentFormat) : CoapRequest :=
  mkRequest (rq_method self) (rq_uri_path self) (rq_uri_query self) (rq_token self)
    (rq_content_format self) (Some format) (rq_observe self) (rq_payload self).

(* src: mielin-rt/src/coap.rs 839-842 CoapRequest::with_observe *)
Definition with_observe (self : CoapRequest) (register : bool) : CoapRequest :=
  mkRequest (rq_method self) (rq_uri_path self) (rq_uri_query self) (rq_token self)
    (rq_content_format self) (rq_accept self) (Some register) (rq_payload self).

(* src: mielin-rt/src/coap.rs 845-851 CoapRequest::with_payload *)
Definition with_payload (self : CoapRequest) (bytes : list Z) : result CoapRequest CoapError :=
  match vec_extend (vec_clear (rq_payload self)) bytes with
  | Some p =>
    Ok (mkRequest (rq_method self) (rq_uri_path self) (rq_uri_query self) (rq_token self)
          (rq_content_format self) (rq_accept self) (rq_observe self) p)
  | None => Err PayloadTooLarge
  end.

(** [?] where nothing can panic. *)
Definition then_ok {A B} (r : result A CoapError) (k : A → result B CoapError) : result B CoapError :=
  match r with Ok a => k a | Err e => Err e end.

(** An option for each segment of a string that is not empty. *)
Fixpoint add_segments (n : OptionNumber) (segs : list (list Z)) (message : CoapMessage)
    : result CoapMessage CoapError :=
  match segs with
  | [] => Ok message
  | segment :: segs' =>
    if is_empty segment then add_segments n segs' message
    else then_ok (CoapOption.new n segment) (λ o,
         then_ok (CoapMessage.add_option message o) (add_segments n segs'))
  end.

Definition add_some {A} (x : option A) (make : A → result CoapOption CoapError) (message : CoapMessage)
    : result CoapMessage CoapError :=
  match x with
  | None => Ok message
  | Some a => then_ok (make a) (CoapMessage.add_option message)
  end.

Definition accept_option (format : ContentFormat) : result CoapOption CoapError :=
  let value := ContentFormat.to_u16 format in
  if value <? 256 then CoapOption.new Accept [as_u8 value]
  else CoapOption.new Accept [as_u8 (Z.shiftr value 8); as_u8 value].

(* src: mielin-rt/src/coap.rs 854-913 CoapRequest::build *)
Definition build (self : CoapRequest) (message_id : Z) : result CoapMessage CoapError :=
  let message := CoapMessage.new Confirmable (Method.to_code (rq_method self)) message_id in
  then_ok (if is_empty (vec_slice (rq_token self)) then Ok message
           else CoapMessage.with_token message (vec_slice (rq_token self))) (λ message,
  then_ok (if is_empty (str_bytes (rq_uri_path self)) then Ok message
           else add_segments UriPath (split_on chr_slash (str_bytes (rq_uri_path self))) message) (λ message,
  then_ok (if is_empty (str_bytes (rq_uri_query self)) then Ok message
           else add_segments UriQuery (split_on chr_amp (str_bytes (rq_uri_query self))) message) (λ message,
  then_ok (add_some (rq_content_format self) CoapOption.content_format message) (λ message,
  then_ok (add_some (rq_accept self) accept_option message) (λ message,
  then_ok (add_some (rq_observe self) CoapOption.observe message) (λ message,
  if is_empty (vec_slice (rq_payload self)) then Ok message
  else CoapMessage.with_payload message (vec_slice (rq_payload self)))))))).

End request.
End CoapRequest.

Module CoapResponse.
Section response.
Context `{Heapless}.

(* src: mielin-rt/src/coap.rs 931-940 CoapResponse::from_message *)
Definition from_message (message : CoapMessage) : result CoapResponse CoapError :=
  match ResponseCode.from_u8 (code (header message)) with
  | Ok code => Ok (mkResponse code (token message) (options message) (payload message))
  | Err e => Err e
  end.

(* src: mielin-rt/src/coap.rs 943-945 CoapResponse::payload_str *)
Definition payload_str (self : CoapResponse) : result (list Z) CoapError :=
  if utf8_valid (vec_slice (rs_payload self)) then Ok (vec_slice (rs_payload self)) else Err InvalidPayload.

(* src: mielin-rt/src/coap.rs 948-952 CoapResponse::find_option *)
Definition find_option (self : CoapResponse) (n : OptionNumber) : option CoapOption :=
  List.find (λ opt, number opt =? OptionNumber.to_u16 n) (vec_slice (rs_options self)).

(* src: mielin-rt/src/coap.rs 955-959 CoapResponse::content_format *)
Definition content_format (self : CoapResponse) : option ContentFormat :=
  opt ← find_option self ContentFormatOption;
  val ← match CoapOption.as_u32 opt with Ok v => Some v | Err _ => None end;
  match ContentFormat.from_u16 (as_u16 val) with Ok f => Some f | Err _ => None end.

End response.
End CoapResponse.

(** ** The client *)

Module CoapClient.
Section client.
Context `{Heapless}.

(* src: mielin-rt/src/coap.rs 986-991 CoapClient::new *)
Definition new : CoapClient := mkClient 1 vec_new.

(* src: mielin-rt/src/coap.rs 994-998 CoapClient::next_message_id *)
Definition next_message_id (self : CoapClient) : Z * CoapClient :=
  (next_id self, mkClient (as_u16 (next_id self + 1)) (pending self)).

(* src: mielin-rt/src/coap.rs 1001-1008 CoapClient::prepare_request *)
Definition prepare_request (self : CoapClient) (request : CoapRequest)
    : outcome (result (Vec Z MAX_MESSAGE_SIZE) CoapError * CoapClient) :=
  let '(message_id, self) := next_message_id self in
  match CoapRequest.build request message_id with
  | Err e => Ret (Err e, self)
  | Ok message => let! (r, _) := CoapMessage.encode message in Ret (r, self)
  end.

(* src: mielin-rt/src/coap.rs 1011-1026 CoapClient::add_pending *)
Definition add_pending (self : CoapClient) (message_id : Z) (message : Vec Z MAX_MESSAGE_SIZE)
    : result unit CoapError * CoapClient :=
  match vec_push (pending self) (mkPending message_id message 0 ACK_TIMEOUT_MS) with
  | Some p => (Ok tt, mkClient (next_id self) p)
  | None => (Err TooManyPendingRequests, self)
  end.

(* src: mielin-rt/src/coap.rs 1029-1031 CoapClient::remove_pending *)
Definition remove_pending (self : CoapClient) (message_id : Z) : CoapClient :=
  mkClient (next_id self) (vec_retain (λ req, negb (pr_message_id req =? message_id)) (pending self)).

(** One pending request in the loop of [process_timeouts], and whether it is sent
    again. *)
(* src: mielin-rt/src/coap.rs 1041-1052 CoapClient::process_timeouts (loop body) *)
Definition tick (elapsed_ms : Z) (p : PendingRequest) : outcome (PendingRequest * bool) :=
  if elapsed_ms <? timeout_ms p then
    let! t := u32_sub (timeout_ms p) elapsed_ms in
    Ret (mkPending (pr_message_id p) (pr_message p) (retransmit_count p) t, false)
  else if retransmit_count p <? MAX_RETRANSMIT then
    let! c := u8_add (retransmit_count p) 1 in
    let! pow := checked U32_MAX (2 ^ c) in
    let! t := u32_mul ACK_TIMEOUT_MS pow in
    Ret (mkPending (pr_message_id p) (pr_message p) c t, true)
  else Ret (p, false).

Fixpoint ticks (elapsed_ms : Z) (ps : list PendingRequest) (out : Vec (Vec Z MAX_MESSAGE_SIZE) 8)
    : outcome (list PendingRequest * Vec (Vec Z MAX_MESSAGE_SIZE) 8) :=
  match ps with
  | [] => Ret ([], out)
  | p :: ps' =>
    let! (p', again) := tick elapsed_ms p in
    let! (ps'', out) := ticks elapsed_ms ps' (if again : bool then keep out (vec_push out (pr_message p)) else out) in
    Ret (p' :: ps'', out)
  end.

(* src: mielin-rt/src/coap.rs 1034-1060 CoapClient::process_timeouts *)
Definition process_timeouts (self : CoapClient) (elapsed_ms : Z)
    : outcome (Vec (Vec Z MAX_MESSAGE_SIZE) 8 * CoapClient) :=
  let! (ps, to_retransmit) := ticks elapsed_ms (vec_slice (pending self)) vec_new in
  let p := vec_retain (λ req, retransmit_count req <=? MAX_RETRANSMIT) (vec_write (pending self) ps) in
  Ret (to_retransmit, mkClient (next_id self) p).

(* src: mielin-rt/src/coap.rs 1063-1072 CoapClient::parse_response *)
Definition parse_response (self : CoapClient) (bytes : list Z)
    : outcome (result CoapResponse CoapError * CoapClient) :=
  let! r := CoapMessage.decode bytes in
  match r with
  | Err e => Ret (Err e, self)
  | Ok message =>
    let self := if decide (msg_type (header message) = Acknowledgment)
                then remove_pending self (message_id (header message)) else self in
    Ret (CoapResponse.from_message message, self)
  end.

End client.
End CoapClient.

(** ** The server *)

Module CoapResource.
Section resource.
Context `{Heapless}.

(* src: mielin-rt/src/coap.rs 1098-1111 CoapResource::new *)
Definition new (p : list Z) : result CoapResource CoapError :=
  match str_push str_new p with
  | Some s => Ok (mkResource s vec_new None None false)
  | None => Err PathTooLong
  end.

(* src: mielin-rt/src/coap.rs 1114-1117 CoapResource::with_method *)
Definition with_method (self : CoapResource) (method : Method) : CoapResource :=
  mkResource (path self) (keep (methods self) (vec_push (methods self) method))
    (resource_type self) (interface self) (observable self).

(* src: mielin-rt/src/coap.rs 1120-1125 CoapResource::with_resource_type *)
Definition with_resource_type (self : CoapResource) (rt : list Z) : CoapResource :=
  mkResource (path self) (methods self) (Some (keep str_new (str_push str_new rt)))
    (interface self) (observable self).

(* src: mielin-rt/src/coap.rs 1128-1131 CoapResource::with_observable *)
Definition with_observable (self : CoapResource) (obs : bool) : CoapResource :=
  mkResource (path self) (methods self) (resource_type self) (interface self) obs.

(* src: mielin-rt/src/coap.rs 1134-1136 CoapResource::is_method_allowed *)
Definition is_method_allowed (self : CoapResource) (method : Method) : bool :=
  bool_decide (method ∈ vec_slice (methods self)).

End resource.
End CoapResource.

Module CoapServer.
Section server.
Context `{Heapless}.

(* src: mielin-rt/src/coap.rs 1148-1152 CoapServer::new *)
Definition new : CoapServer := mkServer vec_new.

(* src: mielin-rt/src/coap.rs 1155-1159 CoapServer::register_resource *)
Definition register_resource (self : CoapServer) (resource : CoapResource) : result CoapServer CoapError :=
  match vec_push (resources self) resource with
  | Some rs => Ok (mkServer rs)
  | None => Err TooManyResources
  end.

(* src: mielin-rt/src/coap.rs 1162-1164 CoapServer::find_resource *)
Definition find_resource (self : CoapServer) (p : list Z) : option CoapResource :=
  List.find (λ res, bool_decide (str_bytes (path res) = p)) (vec_slice (resources self)).

(** The path that the loop of [handle_request] puts together. *)
(* src: mielin-rt/src/coap.rs 1174-1180 CoapServer::handle_request (path) *)
Fixpoint request_path (os : list CoapOption) (uri_path : Str 256) : result (Str 256) CoapError :=
  match os with
  | [] => Ok uri_path
  | option :: os' =>
    if number option =? OptionNumber.to_u16 UriPath then
      let uri_path := keep uri_path (str_push uri_path [chr_slash]) in
      match CoapOption.as_str option with
      | Ok s => request_path os' (keep uri_path (str_push uri_path s))
      | Err e => Err e
      end
    else request_path os' uri_path
  end.

(** An acknowledgement with the token of the request. *)
Definition reply (request : CoapMessage) (c : ResponseCode) : result CoapMessage CoapError :=
  let response := CoapMessage.new Acknowledgment (ResponseCode.to_u8 c) (message_id (header request)) in
  if is_empty (vec_slice (token request)) then Ok response
  else CoapMessage.with_token response (vec_slice (token request)).

(* src: mielin-rt/src/coap.rs 1167-1217 CoapServer::handle_request *)
Definition handle_request (self : CoapServer) (request_bytes : list Z) : outcome (result CoapMessage CoapError) :=
  let? request := CoapMessage.decode request_bytes in
  let? method := Ret (Method.from_code (code (header request))) in
  let? uri_path := Ret (request_path (vec_slice (options request)) str_new) in
  let? resource := ok_or ResourceNotFound (find_resource self (str_bytes uri_path)) in
  if negb (CoapResource.is_method_allowed resource method) then Ret (reply request MethodNotAllowed)
  else Ret (reply request Content).

(** [let _ = result.push_str(s)]. *)
Definition emit (s : list Z) (out : Str 1024) : Str 1024 := keep out (str_push out s).

Fixpoint link_format (first : bool) (rs : list CoapResource) (out : Str 1024) : Str 1024 :=
  match rs with
  | [] => out
  | r :: rs' =>
    let out := if first then out else emit [44] out in
    let out := emit [62] (emit (str_bytes (path r)) (emit [60] out)) in
    let out := match resource_type r with
               | Some rt => emit [34] (emit (str_bytes rt) (emit [59; 114; 116; 61; 34] out))
               | None => out
               end in
    let out := if observable r then emit [59; 111; 98; 115] out else out in
    link_format false rs' out
  end.

(* src: mielin-rt/src/coap.rs 1220-1244 CoapServer::generate_core_link_format *)
Definition generate_core_link_format (self : CoapServer) : Str 1024 :=
  link_format true (vec_slice (resources self)) str_new.

End server.
End CoapServer.
