(* ===== verification/CoapWire.v ===== *)
(** * What the CoAP encoder writes and the decoder reads

    The bytes of a message as a function of the message, and the two directions:
    the encoder writes them, with the options in ascending order, and the decoder
    reads them back. *)

From stdpp Require Import base tactics option list numbers sorting.
From S2P Require Import Prelude Sorting Bytes Heapless Coap.
Import CoapMessage.

(** ** Sorting *)

Section sort.
Context `{Heapless}.
Implicit Types (l : list CoapOption).

(** [b] and everything behind it is above what is before it. *)
Definition sorted_from (lo : Z) l : Prop :=
  ∀ a b x y, 0 <= a < b → lo <= b → l !! Z.to_nat a = Some x → l !! Z.to_nat b = Some y → number x <= number y.

(** In another order, but for the options of one number. *)
Definition rearranged l l' : Prop := l' ≡ₚ l ∧ same_order number l l'.

Lemma rearranged_refl l : rearranged l l.
Proof. by split. Qed.

Lemma rearranged_trans l1 l2 l3 : rearranged l1 l2 → rearranged l2 l3 → rearranged l1 l3.
Proof. intros [P1 O1] [P2 O2]. split; [by etrans|]. intros n. by rewrite O2, O1. Qed.

(** Exchanging neighbours of different numbers. *)
Lemma swap_rearranged l j x y :
  l !! j = Some x → l !! S j = Some y → number x ≠ number y → rearranged l (<[S j := x]> (<[j := y]> l)).
Proof.
  intros Hx Hy Hne. pose proof (take_drop_middle l j x Hx) as E.
  assert (drop (S j) l = y :: drop (S (S j)) l) as E2 by by apply drop_S.
  rewrite E2 in E. pose proof (lookup_lt_Some _ _ _ Hx) as Hlt.
  assert (length (take j l) = j) as Hlen by (rewrite length_take; lia).
  rewrite <-E at 2. rewrite insert_app_r_alt, insert_app_r_alt by lia. rewrite Hlen, Nat.sub_diag. replace (S j - j)%nat with 1%nat by lia. simpl.
  rewrite <-E at 1. split.
  - apply Permutation_app_head. constructor.
  - intros n. rewrite <-E at 2. rewrite !list.filter_app, !filter_cons. f_equal.
    repeat case_decide; congruence.
Qed.

(** One step of the inner loop. *)
Definition bubble_step (j : Z) l : outcome (list CoapOption) :=
  let! x := arr_get l j in
  let! y := arr_get l (j + 1) in
  if number y <? number x then let! l1 := arr_set l j y in arr_set l1 (j + 1) x else Ret l.

(** The greatest of the first options is at [j]. *)
Definition max_at (j : Z) l : Prop :=
  ∀ a x y, 0 <= a < j → l !! Z.to_nat a = Some x → l !! Z.to_nat j = Some y → number x <= number y.

Lemma bubble_step_spec l j hi :
  0 <= j < hi → hi < Z.of_nat (length l) → sorted_from (hi + 1) l → max_at j l →
  returns (bubble_step j l) (λ l', rearranged l l' ∧ length l' = length l ∧ sorted_from (hi + 1) l' ∧ max_at (j + 1) l').
Proof.
  intros Hj Hhi Hs Hm. unfold bubble_step.
  destruct (arr_get_range l j ltac:(lia)) as (x & Hx & ->). destruct (arr_get_range l (j + 1) ltac:(lia)) as (y & Hy & ->). simpl.
  destruct (Z.ltb_spec (number y) (number x)) as [Hlt|Hge].
  - rewrite arr_set_ok by lia. simpl. rewrite arr_set_ok by (rewrite length_insert; lia). simpl.
    replace (Z.to_nat (j + 1)) with (S (Z.to_nat j)) in * by lia.
    split_and!; [by apply swap_rearranged; [| |lia]|by rewrite !length_insert|..].
    + intros a b u v Ha Hb Hu Hv. rewrite list_lookup_insert_ne in Hv by lia. rewrite list_lookup_insert_ne in Hv by lia.
      apply list_lookup_insert_Some in Hu as [(? & <- & _)|[? Hu]]; [by apply (Hs j b x v); [lia|lia|..]|].
      apply list_lookup_insert_Some in Hu as [(? & <- & _)|[? Hu]]; [|by apply (Hs a b u v); [lia|lia|..]].
      apply (Hs (j + 1) b y v); [lia|lia| |done]. by replace (Z.to_nat (j + 1)) with (S (Z.to_nat j)) by lia.
    + intros a u v Ha Hu Hv. replace (Z.to_nat (j + 1)) with (S (Z.to_nat j)) in * by lia.
      rewrite list_lookup_insert_eq in Hv by (rewrite length_insert; lia). injection Hv as <-.
      rewrite list_lookup_insert_ne in Hu by lia.
      apply list_lookup_insert_Some in Hu as [(? & <- & _)|[? Hu]]; [lia|]. apply (Hm a u x); [lia|done..].
  - split_and!; [apply rearranged_refl|done|done|]. intros a u v Ha Hu Hv. assert (v = y) as -> by congruence.
    destruct (decide (a = j)) as [->|]; [assert (u = x) as -> by congruence; lia|].
    pose proof (Hm a u x ltac:(lia) Hu Hx). lia.
Qed.

Lemma bubble_spec l :
  Z.of_nat (length l) <= U64_MAX →
  returns (bubble l) (λ l', rearranged l l' ∧ length l' = length l ∧ sorted_from 0 l').
Proof.
  intros Hlen. unfold bubble. set (len := Z.of_nat (length l)) in *. eapply returns_mono.
  - apply (for_range_rule (λ i l', rearranged l l' ∧ length l' = length l ∧ sorted_from (len - i) l')); [lia| |].
    + split_and!; [apply rearranged_refl|done|]. intros a b x y Ha Hb _ Hy. apply lookup_lt_Some in Hy. lia.
    + intros i l1 Hi (Hr & Hl & Hs). rewrite usize_sub_ok by lia. simpl. rewrite usize_sub_ok by lia. simpl.
      eapply returns_mono.
      * apply (for_range_rule (λ j l', rearranged l l' ∧ length l' = length l ∧ sorted_from (len - i) l' ∧ max_at j l')); [lia| |].
        { split_and!; try done. intros a ? ? ?. lia. }
        intros j l2 Hj (Hr2 & Hl2 & Hs2 & Hm2). eapply returns_mono.
        { apply (bubble_step_spec l2 j (len - 1 - i)); [done|lia| |done]. by replace (len - 1 - i + 1) with (len - i) by lia. }
        intros l3 (Hr3 & Hl3 & Hs3 & Hm3). split_and!; [by eapply rearranged_trans|congruence| |done].
        by replace (len - i) with (len - 1 - i + 1) by lia.
      * intros l2 (Hr2 & Hl2 & Hs2 & Hm2). split_and!; [done|done|]. intros a b x y Ha Hb Hx Hy.
        destruct (decide (b = len - 1 - i)) as [->|]; [by apply (Hm2 a x y); [lia|..]|]. apply (Hs2 a b x y); [lia|lia|done..].
  - simpl. intros l' (? & ? & Hs). split_and!; [done|done|]. by replace (len - len) with 0 in Hs by lia.
Qed.

(** The same as a condition on neighbours. *)
Lemma sorted_from_Sorted l : sorted_from 0 l → StronglySorted (λ x y, number x <= number y) l.
Proof.
  induction l as [|x l IH]; intros Hs; [constructor|]. constructor.
  - apply IH. intros a b u v Ha Hb Hu Hv. apply (Hs (a + 1) (b + 1) u v); [lia|lia|..].
    + by replace (Z.to_nat (a + 1)) with (S (Z.to_nat a)) by lia.
    + by replace (Z.to_nat (b + 1)) with (S (Z.to_nat b)) by lia.
  - apply Forall_lookup. intros i y Hy. apply (Hs 0 (Z.of_nat i + 1) x y); [lia|lia|done|].
    by replace (Z.to_nat (Z.of_nat i + 1)) with (S i) by lia.
Qed.
End sort.

(** ** The bytes of a message *)

(** The bytes that extend the nibble of [n]. *)
Definition ext_bytes (n : Z) : list Z :=
  if n <? 13 then [] else if n <? 269 then [n - 13] else [(n - 269) / 256; (n - 269) mod 256].

Definition nib (n : Z) : Z := if n <? 13 then n else if n <? 269 then 13 else 14.

(** An option whose number is [delta] above the one before. *)
Definition option_wire (delta : Z) (v : list Z) : list Z :=
  let len := Z.of_nat (length v) in
  (nib delta * 16 + nib len) :: ext_bytes delta ++ ext_bytes len ++ v.

Fixpoint options_wire (prev : Z) (os : list (Z * list Z)) : list Z :=
  match os with
  | [] => []
  | (n, v) :: os' => option_wire (n - prev) v ++ options_wire n os'
  end.

Definition payload_wire (p : list Z) : list Z := if is_empty p then [] else 255 :: p.

Definition header_wire (h : CoapHeader) : list Z :=
  [64 + MessageType.to_u8 (msg_type h) * 16 + token_length h; code h; message_id h / 256; message_id h mod 256].

Section wire.
Context `{HeaplessLaws}.

Definition view (o : CoapOption) : Z * list Z := (number o, vec_slice (value o)).
Definition views (os : list CoapOption) : list (Z * list Z) := view <$> os.

Definition wire (m : CoapMessage) : list Z :=
  header_wire (header m) ++ vec_slice (token m) ++ options_wire 0 (views (vec_slice (options m))) ++
  payload_wire (vec_slice (payload m)).

(** Messages as [new], [with_token] and [add_option] make them: version 1, a
    token of the length in the header, 16-bit numbers. *)
Record msg_ok (m : CoapMessage) : Prop := {
  ok_version : version (header m) = COAP_VERSION;
  ok_token : token_length (header m) = vlen (token m);
  ok_id : 0 <= message_id (header m) <= U16_MAX;
  ok_numbers : Forall (λ o, 0 <= number o <= U16_MAX) (vec_slice (options m));
}.

(** Equality of messages as Rust compares them: headers, and slices. *)
Definition msg_eq (m m' : CoapMessage) : Prop :=
  header m = header m' ∧ vec_slice (token m) = vec_slice (token m') ∧
  views (vec_slice (options m)) = views (vec_slice (options m')) ∧ vec_slice (payload m) = vec_slice (payload m').

#[export] Instance msg_eq_equivalence : Equivalence msg_eq.
Proof.
  split.
  - done.
  - intros ? ? (? & ? & ? & ?). done.
  - intros ? ? ? (? & ? & ? & ?) (? & ? & ? & ?). repeat split; congruence.
Qed.

#[export] Instance wire_proper : Proper (msg_eq ==> eq) wire.
Proof. intros m m' (E1 & E2 & E3 & E4). unfold wire. by rewrite E1, E2, E3, E4. Qed.

(** ** Encoding *)

(** [m] appends [l] to the buffer, or fails when it does not fit. *)
Definition appends (m : outcome (result (Vec Z MAX_MESSAGE_SIZE) CoapError)) (b : Vec Z MAX_MESSAGE_SIZE) (l : list Z) : Prop :=
  if vlen b + Z.of_nat (length l) <=? MAX_MESSAGE_SIZE
  then ∃ b', m = Ret (Ok b') ∧ vec_slice b' = vec_slice b ++ l
  else m = Ret (Err EncodingFailed).

Lemma put_all_appends b l : appends (put_all b l) b l.
Proof.
  unfold appends, put_all, ok_or. pose proof (extend_law b l) as E. destruct (vec_extend b l) as [b'|]; case_bool; try lia; [|done].
  exists b'. naive_solver.
Qed.

Lemma put_appends b x : appends (put b x) b [x].
Proof.
  unfold appends, put, ok_or. pose proof (push_law b x) as E. simpl. destruct (vec_push b x) as [b'|]; case_bool; try lia; [|done].
  exists b'. naive_solver.
Qed.

Lemma appends_nil b : appends (Ret (Ok b)) b [].
Proof.
  unfold appends. pose proof (vec_capacity b). case_bool; [exists b; by rewrite app_nil_r|].
  simpl in *. unfold MAX_MESSAGE_SIZE in *. lia.
Qed.

Lemma appends_bind m k b l1 l2 :
  appends m b l1 → (∀ b', vec_slice b' = vec_slice b ++ l1 → appends (k b') b' l2) → appends (rbind m k) b (l1 ++ l2).
Proof.
  unfold appends. intros Hm Hk. rewrite length_app. destruct (Z.leb_spec (vlen b + Z.of_nat (length l1)) MAX_MESSAGE_SIZE) as [Hle|].
  - destruct Hm as (b' & -> & Hb'). simpl. specialize (Hk b' Hb').
    assert (vlen b' = vlen b + Z.of_nat (length l1)) as E by (unfold vlen; rewrite Hb', length_app; lia).
    rewrite E in Hk. replace (vlen b + Z.of_nat (length l1 + length l2)) with (vlen b + Z.of_nat (length l1) + Z.of_nat (length l2)) by lia.
    destruct (_ <=? _); [|done]. destruct Hk as (b'' & -> & Hb''). exists b''. by rewrite Hb'', Hb', (assoc_L (++)).
  - rewrite Hm. case_bool; [lia|done].
Qed.

Lemma nibble_nib n : 0 <= n → nibble n = nib n.
Proof. intros. unfold nibble, nib. repeat case_bool; try done. apply as_u8_small. lia. Qed.

Lemma put_extended_appends sub b n :
  0 <= n <= 65535 → (∀ k, 0 <= k <= n → sub n k = Ret (n - k)) → appends (put_extended sub b (nib n) n) b (ext_bytes n).
Proof.
  intros Hn Hsub. unfold put_extended, ext_bytes, nib. destruct (Z.ltb_spec n 13); [|destruct (Z.ltb_spec n 269)].
  - destruct (Z.eqb_spec n 13); [lia|]. destruct (Z.eqb_spec n 14); [lia|]. apply appends_nil.
  - simpl. rewrite Hsub by lia. simpl. rewrite as_u8_small by lia. apply put_appends.
  - cbn [Z.eqb Pos.eqb]. rewrite Hsub by lia. cbn [obind]. destruct (be16_split (n - 269)) as [-> ->]; [lia|].
    apply (appends_bind _ _ _ [_] [_]); [apply put_appends|]. intros b' _. apply put_appends.
Qed.

Lemma nib_range n : 0 <= n → 0 <= nib n <= 14.
Proof. intros. unfold nib. repeat case_bool; lia. Qed.

Lemma option_header_sum d l : 0 <= d <= 14 → 0 <= l <= 14 → Z.lor (as_u8 (Z.shiftl d 4)) l = d * 16 + l.
Proof.
  intros. rewrite Z.shiftl_mul_pow2 by lia. change (2 ^ 4) with 16. rewrite as_u8_small by lia.
  apply (lor_low d l 4); lia.
Qed.

Lemma encode_options_appends os : ∀ prev b,
  StronglySorted (λ x y, number x <= number y) os → Forall (λ o, prev <= number o <= U16_MAX) os → 0 <= prev →
  appends (encode_options os prev b) b (options_wire prev (views os)).
Proof.
  induction os as [|o os IH]; intros prev b Hs Hn Hp; [apply appends_nil|].
  apply StronglySorted_inv in Hs as [Hs Hall]. apply Forall_cons in Hn as [Ho Hn]. cbn [encode_options views fmap list_fmap view options_wire].
  unfold u16_sub at 1. rewrite checked_ok by lia. cbn [obind]. unfold option_wire.
  assert (0 <= vlen (value o) <= 256) as Hv by (pose proof (vec_capacity (value o)); unfold vlen in *; lia).
  rewrite !nibble_nib by lia. rewrite option_header_sum by (apply nib_range; lia).
  cbn [app]. apply (appends_bind _ _ _ [_]); [apply put_appends|]. intros b1 _.
  rewrite <-!(assoc_L (++)). apply appends_bind.
  { apply put_extended_appends; [lia|]. intros k Hk. apply checked_ok. lia. }
  intros b2 _. apply appends_bind.
  { apply put_extended_appends; [unfold vlen in *; lia|]. intros k Hk. apply checked_ok. unfold vlen in *. lia. }
  intros b3 _. apply appends_bind; [apply put_all_appends|]. intros b4 _. apply IH; [done| |lia].
  apply Forall_and; split; [done|]. eapply Forall_impl; [exact Hn|]. simpl. lia.
Qed.

Lemma header_encode m : msg_ok m → CoapHeader.encode (header m) = header_wire (header m).
Proof.
  intros [Hv Ht Hid _]. unfold CoapHeader.encode, header_wire. rewrite Hv. destruct (be16_split _ Hid) as [-> ->].
  assert (0 <= token_length (header m) <= 8) as Htl.
  { rewrite Ht. pose proof (vec_capacity (token m)). unfold vlen in *. lia. }
  do 2 f_equal. change 15 with (Z.ones 4). rewrite Z.land_ones, Z.mod_small by lia.
  set (tl := token_length (header m)) in *. clearbody tl.
  assert (∀ t, Z.lor (Z.lor (as_u8 (Z.shiftl COAP_VERSION 6)) (as_u8 (Z.shiftl (MessageType.to_u8 t) 4))) tl =
               (4 + MessageType.to_u8 t) * 16 + tl) as ->; [|lia].
  intros t. etrans; [|apply (lor_low (4 + MessageType.to_u8 t) tl 4); lia]. f_equal. by destruct t.
Qed.

(** [encode] returns, with the options of [self] sorted and, when they fit, the
    bytes of the sorted message. *)
Lemma encode_spec m :
  msg_ok m →
  returns (encode m) (λ '(r, m'), msg_ok m' ∧ header m' = header m ∧ token m' = token m ∧ payload m' = payload m ∧
    rearranged (vec_slice (options m)) (vec_slice (options m')) ∧
    StronglySorted (λ x y, number x <= number y) (vec_slice (options m')) ∧
    match r with
    | Ok b => vec_slice b = wire m'
    | Err e => e = EncodingFailed ∧ MAX_MESSAGE_SIZE < Z.of_nat (length (wire m'))
    end).
Proof.
  intros Hok. unfold encode. rewrite header_encode by done.
  assert (vlen (token m) <= 8) as Htl by by apply vec_capacity.
  destruct (extend_fits (vec_new : Vec Z MAX_MESSAGE_SIZE) (header_wire (header m))) as (b1 & -> & Hb1).
  { unfold vlen. rewrite slice_new. done. }
  rewrite slice_new, app_nil_l in Hb1.
  destruct (extend_fits b1 (vec_slice (token m))) as (b2 & -> & Hb2).
  { unfold vlen in *. rewrite Hb1. simpl. unfold MAX_MESSAGE_SIZE. lia. }
  pose proof (vec_capacity (options m)) as Hcap. unfold vlen in Hcap.
  unfold sort_options. pose proof (bubble_spec (vec_slice (options m)) ltac:(lia)) as Hbs.
  destruct (bubble _) as [l| |]; [|done|done]. destruct Hbs as (Hr & Hl & Hs). cbn [obind].
  set (m' := mkMessage _ _ _ _). assert (vec_slice (options m') = l) as El by by apply slice_write.
  apply sorted_from_Sorted in Hs. destruct Hok as [Hv Ht Hid Hn].
  assert (Forall (λ o, 0 <= number o <= U16_MAX) l) as Hnl by (destruct Hr as [Hp _]; by rewrite Hp).
  assert (msg_ok m') as Hok' by (split; try done; by rewrite El).
  match goal with |- context [rbind ?x ?y] => assert (appends (rbind x y) b2 (options_wire 0 (views l) ++ payload_wire (vec_slice (payload m)))) as Ha end.
  { rewrite El. apply appends_bind; [by apply encode_options_appends|]. intros b3 _. unfold payload_wire. change (payload m') with (payload m).
    destruct (is_empty (vec_slice (payload m))); cbn [negb]; [apply appends_nil|].
    apply (appends_bind _ _ _ [_]); [apply put_appends|]. intros b4 _. apply put_all_appends. }
  assert (wire m' = vec_slice b2 ++ options_wire 0 (views l) ++ payload_wire (vec_slice (payload m))) as Ew.
  { unfold wire. rewrite El, Hb2, Hb1. by rewrite <-!(assoc_L (++)). }
  unfold appends in Ha. unfold vlen in Ha. destruct (Z.leb_spec (Z.of_nat (length (vec_slice b2)) +
    Z.of_nat (length (options_wire 0 (views l) ++ payload_wire (vec_slice (payload m))))) MAX_MESSAGE_SIZE) as [|Hgt].
  - destruct Ha as (b' & -> & Hb'). cbn [obind returns]. rewrite El, Ew. split_and!; done.
  - rewrite Ha. cbn [obind returns]. rewrite El, Ew, length_app. split_and!; try done. lia.
Qed.
End wire.

(** * The CoAP decoder *)

Import CoapMessage.

Section decode.
Context `{HeaplessLaws}.

(** ** What the encoder wrote *)

Lemma extended_delta_wire pre rest d off :
  0 <= d < 525 → off = zlen pre →
  extended_delta (pre ++ ext_bytes d ++ rest) off (nib d) = Ret (Ok (d, off + zlen (ext_bytes d))).
Proof.
  intros Hd ->. unfold extended_delta, nib, ext_bytes. destruct (Z.ltb_spec d 13); [|destruct (Z.ltb_spec d 269)].
  - destruct (Z.eqb_spec d 13); [lia|]. destruct (Z.eqb_spec d 14); [lia|]. destruct (Z.eqb_spec d 15); [lia|].
    simpl. by rewrite Z.add_0_r.
  - cbn [Z.eqb Pos.eqb]. leb_false. cbn [app]. rewrite arr_get_app by done. cbn [obind]. unfold u16_add.
    rewrite checked_ok by lia. cbn [obind]. do 3 f_equal. lia.
  - cbn [Z.eqb Pos.eqb]. leb_false. cbn [app]. rewrite arr_get_app by done. cbn [obind].
    rewrite (cons_middle _ pre), (assoc_L (++)), arr_get_app by (rewrite length_app; simpl; lia). cbn [obind].
    assert ((d - 269) / 256 = 0 ∧ (d - 269) mod 256 = d - 269) as [-> ->] by (Z.div_mod_to_equations; lia).
    unfold u16_add. rewrite checked_ok by lia. cbn [obind]. change (as_u16 (Z.shiftl 0 8)) with 0.
    rewrite Z.lor_0_l. do 3 f_equal. lia.
Qed.

Lemma extended_length_wire pre rest n off :
  0 <= n <= 65535 → off = zlen pre →
  extended_length (pre ++ ext_bytes n ++ rest) off (nib n) = Ret (Ok (n, off + zlen (ext_bytes n))).
Proof.
  intros Hn ->. unfold extended_length, nib, ext_bytes. destruct (Z.ltb_spec n 13); [|destruct (Z.ltb_spec n 269)].
  - destruct (Z.eqb_spec n 13); [lia|]. destruct (Z.eqb_spec n 14); [lia|]. destruct (Z.eqb_spec n 15); [lia|].
    simpl. by rewrite Z.add_0_r.
  - cbn [Z.eqb Pos.eqb]. leb_false. cbn [app]. rewrite arr_get_app by done. cbn [obind]. do 3 f_equal. lia.
  - cbn [Z.eqb Pos.eqb]. leb_false. cbn [app]. rewrite arr_get_app by done. cbn [obind].
    rewrite (cons_middle _ pre), (assoc_L (++)), arr_get_app by (rewrite length_app; simpl; lia). cbn [obind].
    rewrite Z.shiftl_mul_pow2 by lia. rewrite (lor_low _ _ 8) by (Z.div_mod_to_equations; lia).
    do 3 f_equal. change (2 ^ 8) with 256. Z.div_mod_to_equations. lia.
Qed.

Lemma option_header_split d l :
  0 <= d <= 14 → 0 <= l <= 14 →
  Z.land (Z.shiftr (d * 16 + l) 4) 15 = d ∧ Z.land (d * 16 + l) 15 = l ∧ d * 16 + l ≠ 255.
Proof.
  intros. change 15 with (Z.ones 4). rewrite !Z.land_ones, Z.shiftr_div_pow2 by lia. change (2 ^ 4) with 16.
  Z.div_mod_to_equations. lia.
Qed.

(** The end of the options: the end of the bytes or the payload marker. *)
Definition stops (rest : list Z) : Prop := rest = [] ∨ ∃ p, rest = 255 :: p.

Lemma decode_options_wire os : ∀ fuel pre rest prev acc,
  StronglySorted (λ x y, x.1 <= y.1) os →
  Forall (λ o, prev <= o.1 < 525 ∧ zlen o.2 <= 256) os → 0 <= prev → vlen acc + zlen os <= 16 → stops rest → (length os < fuel)%nat →
  ∃ acc', decode_options fuel (pre ++ options_wire prev os ++ rest) (zlen pre) prev acc =
    Ret (Ok (zlen (pre ++ options_wire prev os), acc')) ∧ views (vec_slice acc') = views (vec_slice acc) ++ os.
Proof.
  induction os as [|[n v] os IH]; intros fuel pre rest prev acc Hs Ho Hp Hacc Hstop Hfuel.
  - destruct fuel as [|fuel]; [simpl in Hfuel; lia|]. exists acc. cbn [options_wire decode_options app]. rewrite !app_nil_r.
    split; [|done]. destruct Hstop as [->|[p ->]].
    + rewrite app_nil_r, Z.ltb_irrefl. done.
    + rewrite (proj2 (Z.ltb_lt _ _)) by (rewrite length_app; simpl; lia). cbn [negb]. by rewrite arr_get_app.
  - destruct fuel as [|fuel]; [simpl in Hfuel; lia|]. apply StronglySorted_inv in Hs as [Hs Hall].
    apply Forall_cons in Ho as [[Hn Hv] Ho]. simpl in Hn, Hv. cbn [options_wire decode_options length] in *.
    set (d := n - prev). assert (0 <= d < 525) as Hd by lia.
    unfold option_wire. cbn [app]. rewrite (proj2 (Z.ltb_lt _ _)) by (rewrite length_app; simpl; lia). cbn [negb].
    rewrite arr_get_app by done. cbn [obind].
    destruct (option_header_split (nib d) (nib (zlen v))) as (E1 & E2 & E3); [apply nib_range; lia..|].
    rewrite (proj2 (Z.eqb_neq _ _) E3), E1, E2. rewrite <-!(assoc_L (++)).
    set (tail := options_wire n os ++ rest).
    change (?x :: ext_bytes d ++ ?l) with ([x] ++ ext_bytes d ++ l).
    rewrite (assoc_L (++) pre). set (pre1 := pre ++ [_]). assert (zlen pre + 1 = zlen pre1) as -> by (unfold pre1; rewrite length_app; simpl; lia).
    rewrite extended_delta_wire by done. cbn [rbind obind].
    rewrite (assoc_L (++) pre1). set (pre2 := pre1 ++ _). assert (zlen pre1 + zlen (ext_bytes d) = zlen pre2) as -> by (unfold pre2; rewrite length_app; lia).
    rewrite extended_length_wire by lia. cbn [rbind obind].
    rewrite (assoc_L (++) pre2). set (pre3 := pre2 ++ _). assert (zlen pre2 + zlen (ext_bytes (zlen v)) = zlen pre3) as -> by (unfold pre3; rewrite length_app; lia).
    ltb_false. unfold u16_add. rewrite checked_ok by lia. cbn [obind]. rewrite slice_app by done. cbn [obind].
    destruct (extend_fits (vec_new : Vec Z 256) v) as (vv & Ev & Hvv); [unfold vlen; rewrite slice_new; simpl; lia|].
    rewrite slice_new, app_nil_l in Hvv. rewrite Ev. cbn [ok_or rbind obind].
    destruct (push_fits acc (mkOption (prev + d) vv)) as (acc1 & Ea & Ha); [lia|]. rewrite Ea. cbn [ok_or rbind obind].
    replace (prev + d) with n in * by lia.
    rewrite (assoc_L (++) pre3). set (pre4 := pre3 ++ v). assert (zlen pre3 + zlen v = zlen pre4) as -> by (unfold pre4; rewrite length_app; lia).
    destruct (IH fuel pre4 rest n acc1) as (acc' & E & Hv'); try done.
    + apply Forall_and; split; [|apply Forall_and in Ho as [_ Ho]; exact Ho].
      apply Forall_and in Ho as [Ho _]. apply Forall_and; split; [|eapply Forall_impl; [exact Ho|]; simpl; lia].
      eapply Forall_impl; [exact Hall|]. simpl. lia.
    + lia.
    + unfold vlen in *. rewrite Ha, length_app. simpl. lia.
    + lia.
    + unfold tail. exists acc'. rewrite E. split.
      * do 3 f_equal. unfold pre4, pre3, pre2, pre1. rewrite !length_app. simpl. rewrite ?length_app. lia.
      * rewrite Hv', Ha. unfold views. rewrite fmap_app, <-(assoc_L (++)). simpl. unfold view. simpl. by rewrite Hvv.
Qed.

Lemma header_decode m rest : msg_ok m → CoapHeader.decode (header_wire (header m) ++ rest) = Ret (Ok (header m)).
Proof.
  intros [Hv Ht Hid _]. unfold CoapHeader.decode, header_wire. cbn [app].
  assert (0 <= token_length (header m) <= 8) as Htl.
  { rewrite Ht. pose proof (vec_capacity (token m)). unfold vlen in *. lia. }
  rewrite (proj2 (Z.ltb_ge _ _)) by (simpl; lia).
  rewrite (arr_get_ok _ 0 (64 + MessageType.to_u8 (msg_type (header m)) * 16 + token_length (header m))) by done.
  cbn [obind]. set (b0 := 64 + _ + _).
  remember (MessageType.to_u8 (msg_type (header m))) as t eqn:Et.
  assert (0 <= t <= 3) as Htr by (rewrite Et; destruct (msg_type (header m)); simpl; lia).
  assert (Z.shiftr b0 6 = 1 ∧ Z.land (Z.shiftr b0 4) 3 = t ∧ Z.land b0 15 = token_length (header m)) as (-> & -> & ->).
  { unfold b0. change 15 with (Z.ones 4). change 3 with (Z.ones 2). rewrite !Z.land_ones, !Z.shiftr_div_pow2 by lia.
    change (2 ^ 6) with 64. change (2 ^ 4) with 16. change (2 ^ 2) with 4. Z.div_mod_to_equations. lia. }
  assert (MessageType.from_u8 t = Ok (msg_type (header m))) as -> by (rewrite Et; by destruct (msg_type (header m))).
  cbn [negb Z.eqb COAP_VERSION Pos.eqb rbind obind]. change (as_u8 MAX_TOKEN_LENGTH) with 8. rewrite (proj2 (Z.ltb_ge 8 _)) by lia.
  rewrite (arr_get_ok _ 1 (code (header m))), (arr_get_ok _ 2 (message_id (header m) / 256)), (arr_get_ok _ 3 (message_id (header m) mod 256)) by done.
  cbn [obind]. rewrite be16 by (unfold is_byte; Z.div_mod_to_equations; lia).
  destruct (header m) as [ver mt tl c id]. simpl in *. subst ver. do 3 f_equal. Z.div_mod_to_equations. lia.
Qed.

Lemma views_sorted os :
  StronglySorted (λ x y, number x <= number y) os → StronglySorted (λ x y, x.1 <= y.1) (views os).
Proof. induction 1 as [|o os _ IH Hall]; constructor; [done|]. by apply Forall_fmap. Qed.

Lemma options_wire_length os prev : (length os <= length (options_wire prev os))%nat.
Proof.
  revert prev. induction os as [|[n v] os IH]; intros prev; simpl; [lia|]. rewrite !length_app. specialize (IH n). lia.
Qed.

Lemma decode_wire m :
  msg_ok m → StronglySorted (λ x y, number x <= number y) (vec_slice (options m)) →
  Forall (λ o, number o < 525) (vec_slice (options m)) →
  ∃ m', decode (wire m) = Ret (Ok m') ∧ msg_eq m' m.
Proof.
  intros Hok Hs Hn. pose proof Hok as [Hv Ht Hid Hnum]. unfold decode, wire.
  set (tk := vec_slice (token m)). set (os := vec_slice (options m)). set (pl := vec_slice (payload m)).
  set (ow := options_wire 0 (views os)).
  assert (vlen (token m) <= 8) as Htk by by apply vec_capacity. assert (vlen (options m) <= 16) as Hos by by apply vec_capacity.
  assert (vlen (payload m) <= 1024) as Hpl by by apply vec_capacity. unfold vlen in *. fold tk os pl in Htk, Hos, Hpl, Ht.
  assert (zlen (header_wire (header m)) = 4) as Hh by done. ltb_false. rewrite header_decode by done. cbn [rbind obind].
  rewrite Ht. ltb_false. rewrite slice_app by (rewrite ?Hh; done). cbn [obind].
  destruct (extend_fits (vec_new : Vec Z 8) tk) as (tk' & Et & Htk'); [unfold vlen; rewrite slice_new; simpl; lia|].
  rewrite slice_new, app_nil_l in Htk'. rewrite Et. cbn [ok_or rbind obind].
  rewrite (assoc_L (++) (header_wire _)). set (pre := header_wire (header m) ++ tk).
  assert (4 + zlen tk = zlen pre) as -> by (unfold pre; rewrite length_app; lia).
  destruct (decode_options_wire (views os) (S (length (pre ++ ow ++ payload_wire pl))) pre (payload_wire pl) 0 vec_new)
    as (os' & Eo & Hos').
  - by apply views_sorted.
  - apply Forall_fmap. apply Forall_and; split; [|apply Forall_true; intros o; apply (vec_capacity (value o)); lia].
    apply Forall_and; split; [|done]. eapply Forall_impl; [exact Hnum|]. simpl. lia.
  - lia.
  - unfold vlen. rewrite slice_new. unfold views. rewrite length_fmap. simpl. lia.
  - unfold stops, payload_wire. destruct pl; [by left|right; eauto].
  - rewrite !length_app. pose proof (options_wire_length (views os) 0). unfold ow. lia.
  - fold ow in Eo. rewrite Eo. cbn [rbind obind]. rewrite slice_new in Hos'. simpl in Hos'.
    assert (zlen (pre ++ ow) = zlen (pre ++ ow)) as Hoff by done. rewrite (assoc_L (++) pre).
    unfold payload_wire. destruct (is_empty pl) eqn:Epl.
    + assert (pl = []) as Epl' by by destruct pl. rewrite app_nil_r, Z.ltb_irrefl. cbn [obind].
      eexists. split; [done|]. split_and!; simpl; [done|done|done|]. rewrite slice_new. by fold pl.
    + rewrite (proj2 (Z.ltb_lt _ _)) by (rewrite !length_app; simpl; lia). rewrite arr_get_app by done. cbn [obind Z.eqb Pos.eqb].
      change (255 :: pl) with ([255] ++ pl). rewrite (assoc_L (++) (pre ++ ow)), <-(app_nil_r ((_ ++ _) ++ pl)), <-(assoc_L (++) _ pl).
      rewrite slice_app by (rewrite !length_app; simpl; lia). cbn [obind].
      destruct (extend_fits (vec_new : Vec Z 1024) pl) as (pl' & Ep & Hpl'); [unfold vlen; rewrite slice_new; simpl; lia|].
      rewrite slice_new, app_nil_l in Hpl'. rewrite Ep. cbn [ok_or rbind obind]. eexists. split; [done|]. split_and!; done.
Qed.

(** ** Any bytes *)

(** Some byte is the header of an option with a delta of two bytes. *)
Definition long_delta (bytes : list Z) : Prop := Exists (λ b, 224 <= b <= 239) bytes.

Lemma extended_delta_ends bytes off h :
  Forall is_byte bytes → 0 <= off → is_byte h → h ∈ bytes →
  ends False (extended_delta bytes off (Z.land (Z.shiftr h 4) 15)) (λ r,
    match r with
    | Ok (d, off') => 0 <= d <= U16_MAX ∧ off <= off' ∧ (long_delta bytes ∨ d <= 268)
    | Err _ => True
    end).
Proof.
  intros Hb Hoff Hh Hin. unfold extended_delta, is_byte in *.
  assert (Z.land (Z.shiftr h 4) 15 = h / 16) as ->.
  { change 15 with (Z.ones 4). rewrite Z.land_ones, Z.shiftr_div_pow2 by lia. change (2 ^ 4) with 16. apply Z.mod_small. Z.div_mod_to_equations. lia. }
  assert (0 <= h / 16 <= 15) as Hr by (Z.div_mod_to_equations; lia).
  destruct (Z.eqb_spec (h / 16) 13); [|destruct (Z.eqb_spec (h / 16) 14)].
  - destruct (Z.leb_spec (zlen bytes) off); [done|]. destruct (arr_get_range bytes off) as (b & Hl & ->); [lia|].
    pose proof (Forall_lookup_1 _ _ _ _ Hb Hl) as Hbb. simpl in *. unfold u16_add. rewrite checked_ok by lia. simpl. lia.
  - destruct (Z.leb_spec (zlen bytes) (off + 1)); [done|]. destruct (arr_get_range bytes off) as (b0 & Hl0 & ->); [lia|].
    destruct (arr_get_range bytes (off + 1)) as (b1 & Hl1 & ->); [lia|].
    pose proof (Forall_lookup_1 _ _ _ _ Hb Hl0) as Hb0. pose proof (Forall_lookup_1 _ _ _ _ Hb Hl1) as Hb1. simpl in *.
    unfold u16_add. rewrite checked_ok by lia. simpl. split; [|split; [lia|]].
    + assert (0 <= as_u16 (Z.shiftl b0 8) < 2 ^ 16) as Hr0 by (apply Z.mod_pos_bound; lia).
      pose proof (lor_range _ (b1 + 269) 16 ltac:(lia) Hr0 ltac:(lia)). lia.
    + left. apply Exists_exists. exists h. split; [done|]. Z.div_mod_to_equations. lia.
  - destruct (Z.eqb_spec (h / 16) 15); simpl; [done|]. split_and!; lia.
Qed.

Lemma extended_length_ends bytes off n :
  Forall is_byte bytes → 0 <= off → 0 <= n →
  ends False (extended_length bytes off n) (λ r,
    match r with Ok (len, off') => 0 <= len ∧ off <= off' | Err _ => True end).
Proof.
  intros Hb Hoff Hn. unfold extended_length, is_byte in *.
  destruct (Z.eqb_spec n 13); [|destruct (Z.eqb_spec n 14)].
  - destruct (Z.leb_spec (zlen bytes) off); [done|]. destruct (arr_get_range bytes off) as (b & Hl & ->); [lia|].
    pose proof (Forall_lookup_1 _ _ _ _ Hb Hl). simpl in *. lia.
  - destruct (Z.leb_spec (zlen bytes) (off + 1)); [done|]. destruct (arr_get_range bytes off) as (b0 & Hl0 & ->); [lia|].
    destruct (arr_get_range bytes (off + 1)) as (b1 & Hl1 & ->); [lia|].
    pose proof (Forall_lookup_1 _ _ _ _ Hb Hl0). pose proof (Forall_lookup_1 _ _ _ _ Hb Hl1). simpl in *.
    assert (0 <= Z.lor (Z.shiftl b0 8) b1); [|lia]. apply Z.lor_nonneg. split; [|lia]. apply Z.shiftl_nonneg. lia.
  - destruct (Z.eqb_spec n 15); simpl; [done|lia].
Qed.

(** Options in ascending order of 16-bit numbers, none above [n]. *)
Definition ascending (n : Z) (os : list CoapOption) : Prop :=
  StronglySorted (λ x y, number x <= number y) os ∧ Forall (λ o, 0 <= number o <= n) os.

Lemma ascending_snoc n os o : ascending n os → n <= number o → 0 <= n → ascending (number o) (os ++ [o]).
Proof.
  intros [Hs Hn] Ho Hn0. split.
  - induction Hs as [|x os Hs IH Hall]; simpl; [by repeat constructor|]. apply Forall_cons in Hn as [Hx Hn]. constructor; [by apply IH|].
    apply Forall_app. split; [done|]. constructor; [lia|constructor].
  - apply Forall_app. split; [eapply Forall_impl; [exact Hn|]; simpl; lia|]. constructor; [lia|constructor].
Qed.

Lemma decode_options_ends bytes : ∀ fuel off prev acc,
  Forall is_byte bytes → 0 <= off <= zlen bytes → zlen bytes - off < Z.of_nat fuel → 0 <= prev <= U16_MAX →
  ascending prev (vec_slice acc) → (long_delta bytes ∨ prev <= 268 * vlen acc) →
  ends (long_delta bytes) (decode_options fuel bytes off prev acc) (λ r,
    match r with Ok (off', acc') => 0 <= off' ∧ ascending U16_MAX (vec_slice acc') | Err _ => True end).
Proof.
  induction fuel as [|fuel IH]; intros off prev acc Hb Hoff Hf Hp Ha Hl; cbn [decode_options]; [lia|].
  assert (ascending U16_MAX (vec_slice acc)) as Hmax by (destruct Ha as [Hs Hn]; split; [done|]; eapply Forall_impl; [exact Hn|]; simpl; lia).
  destruct (Z.ltb_spec off (zlen bytes)) as [Hlt|]; cbn [negb]; [|split; [lia|done]].
  destruct (arr_get_range bytes off) as (h & Hh & ->); [lia|]. cbn [obind].
  pose proof (Forall_lookup_1 _ _ _ _ Hb Hh) as Hhb. destruct (h =? 255); [split; [lia|done]|].
  apply ends_rbind. pose proof (extended_delta_ends bytes (off + 1) h Hb ltac:(lia) Hhb (list_elem_of_lookup_2 _ _ _ Hh)) as Hd.
  destruct (extended_delta _ _ _) as [[[d off1]|]| |]; [|done|done|done]. destruct Hd as (Hd & Hoff1 & Hlong). cbn [ends].
  apply ends_rbind. assert (0 <= Z.land h 15) as Hl0 by (apply Z.land_nonneg; lia).
  pose proof (extended_length_ends bytes off1 (Z.land h 15) Hb ltac:(lia) Hl0) as He.
  destruct (extended_length _ _ _) as [[[len off2]|]| |]; [|done|done|done]. destruct He as (Hlen & Hoff2). cbn [ends].
  destruct (Z.ltb_spec (zlen bytes) (off2 + len)); [done|].
  assert (vlen acc <= 16) as Hcap by by apply vec_capacity.
  unfold u16_add. destruct (Z.leb_spec (prev + d) U16_MAX); [rewrite checked_ok by lia|rewrite checked_panic by lia; simpl; destruct Hl, Hlong; (done || lia)].
  cbn [obind]. unfold slice. destruct (Z.leb_spec 0 off2), (Z.leb_spec off2 (off2 + len)), (Z.leb_spec (off2 + len) (zlen bytes)); try lia.
  cbn [andb obind]. destruct (vec_extend _ _) as [v|]; [|done]. cbn [ok_or rbind obind].
  pose proof (push_law acc (mkOption (prev + d) v)) as Hpush. destruct (vec_push acc _) as [acc1|]; [|done]. cbn [ok_or rbind obind].
  destruct Hpush as [Hcap1 Hacc1]. apply IH; [done|lia|lia|lia|rewrite Hacc1; by apply (ascending_snoc prev); [|simpl; lia|lia]|].
  destruct Hl; [by left|]. destruct Hlong; [by left|right]. unfold vlen in *. rewrite Hacc1, length_app. simpl. lia.
Qed.

(** What [decode] accepts. *)
Lemma decode_ends bytes :
  Forall is_byte bytes →
  ends (long_delta bytes) (decode bytes) (λ r,
    match r with
    | Ok m => msg_ok m ∧ is_byte (code (header m)) ∧ StronglySorted (λ x y, number x <= number y) (vec_slice (options m))
    | Err _ => True
    end).
Proof.
  intros Hb. unfold decode. destruct (Z.ltb_spec (zlen bytes) 4); [done|]. apply ends_rbind.
  unfold CoapHeader.decode. ltb_false.
  destruct (arr_get_range bytes 0) as (b0 & Hb0 & ->); [lia|]. destruct (arr_get_range bytes 1) as (b1 & Hb1 & ->); [lia|].
  destruct (arr_get_range bytes 2) as (b2 & Hb2 & ->); [lia|]. destruct (arr_get_range bytes 3) as (b3 & Hb3 & ->); [lia|].
  pose proof (Forall_lookup_1 _ _ _ _ Hb Hb0) as Hr0. pose proof (Forall_lookup_1 _ _ _ _ Hb Hb1) as Hr1.
  pose proof (Forall_lookup_1 _ _ _ _ Hb Hb2) as Hr2. pose proof (Forall_lookup_1 _ _ _ _ Hb Hb3) as Hr3. cbn [obind].
  destruct (Z.eqb_spec (Z.shiftr b0 6) COAP_VERSION) as [Hv|]; cbn [negb]; [|done].
  destruct (MessageType.from_u8 _) as [t|e]; cbn [rbind obind]; [|done]. change (as_u8 MAX_TOKEN_LENGTH) with 8.
  destruct (Z.ltb_spec 8 (Z.land b0 15)) as [|Htl]; [done|]. cbn [ends token_length].
  assert (0 <= Z.land b0 15) as Htl0 by (apply Z.land_nonneg; lia).
  destruct (Z.ltb_spec (zlen bytes) (4 + Z.land b0 15)); [done|].
  unfold slice at 1. destruct (Z.leb_spec 4 (4 + Z.land b0 15)), (Z.leb_spec (4 + Z.land b0 15) (zlen bytes)); try lia. cbn [andb Z.leb Z.compare obind].
  pose proof (extend_law (vec_new : Vec Z 8) (take (Z.to_nat (4 + Z.land b0 15 - 4)) (drop (Z.to_nat 4) bytes))) as Ht.
  destruct (vec_extend _ _) as [tk|]; [|done]. cbn [ok_or rbind obind]. destruct Ht as [_ Ht]. rewrite slice_new, app_nil_l in Ht.
  apply ends_rbind. eapply ends_mono.
  { apply (decode_options_ends bytes); [done|lia|lia|lia|rewrite slice_new; repeat constructor|].
    right. unfold vlen. rewrite slice_new. simpl. lia. }
  set (h := mkHeader _ _ _ _ _). intros [[off os]|e]; [|done]. intros [Hoff [Hs Hn]].
  assert (∀ p, msg_ok (mkMessage h tk os p)) as Hok.
  { intros p. split; [done| |simpl|done].
    - simpl. unfold vlen. rewrite Ht, length_take, length_drop. lia.
    - rewrite be16 by done. unfold is_byte in *. lia. }
  destruct (Z.ltb_spec off (zlen bytes)); cbn [obind]; [|split_and!; done].
  destruct (arr_get_range bytes off) as (b & _ & ->); [lia|]. cbn [obind]. destruct (b =? 255); [|split_and!; done].
  unfold slice. destruct (Z.leb_spec 0 (off + 1)), (Z.leb_spec (off + 1) (zlen bytes)); try lia. rewrite Z.leb_refl. cbn [andb obind].
  destruct (vec_extend _ _) as [p|]; cbn [ok_or rbind obind ends]; [|done]. split_and!; done.
Qed.
End decode.
