(* ===== verification/CoapProps.v ===== *)
(** * Theorems on CoAP *)

From stdpp Require Import base tactics option list numbers sorting sets.
From S2P Require Import Prelude Sorting Bytes Heapless Coap CoapWire.
Import CoapMessage.

Section theorems.
Context `{HeaplessLaws}.

(** C6. A well-formed message whose option numbers are below 525 is encoded, and
    what was encoded is decoded to the same message with the options in the order
    of their numbers; encoding fails only when the bytes do not fit the buffer. *)
Theorem coap_roundtrip m :
  msg_ok m → Forall (λ o, number o < 525) (vec_slice (options m)) →
  returns (encode m) (λ '(r, m'),
    rearranged (vec_slice (options m)) (vec_slice (options m')) ∧
    header m' = header m ∧ token m' = token m ∧ payload m' = payload m ∧
    match r with
    | Ok buffer => ∃ m'', decode (vec_slice buffer) = Ret (Ok m'') ∧ msg_eq m'' m'
    | Err e => e = EncodingFailed ∧ MAX_MESSAGE_SIZE < zlen (wire m')
    end).
Proof.
  intros Hok Hn. eapply returns_mono; [by apply encode_spec|].
  intros [r m'] (Hok' & Hh & Ht & Hp & Hr & Hs & Hres). split_and!; [done..|]. destruct r as [b|e]; [|done].
  rewrite Hres. apply decode_wire; [done|done|]. destruct Hr as [Hperm _]. by rewrite Hperm.
Qed.

(** The decoder ends on any bytes: its loop does not need more rounds than there
    are bytes, no index is out of range, and it panics only on messages with an
    option whose delta takes two bytes. *)
Theorem coap_decode_terminates bytes :
  Forall is_byte bytes → decode bytes ≠ Timeout ∧ (decode bytes = Panic → long_delta bytes).
Proof. intros Hb. pose proof (decode_ends bytes Hb) as Hd. by destruct (decode bytes). Qed.

(** What the decoder accepts is a well-formed message: version 1, at most eight
    bytes of token, as many as the header says, a code of one byte and option
    numbers of 16 bits in ascending order. *)
Theorem coap_decode_well_formed bytes m :
  Forall is_byte bytes → decode bytes = Ret (Ok m) →
  msg_ok m ∧ is_byte (code (header m)) ∧ 0 <= token_length (header m) <= MAX_TOKEN_LENGTH ∧
  StronglySorted (λ x y, number x <= number y) (vec_slice (options m)).
Proof.
  intros Hb E. pose proof (decode_ends bytes Hb) as Hd. rewrite E in Hd. destruct Hd as (Hok & Hc & Hs).
  split_and!; try done; rewrite (ok_token _ Hok); [unfold vlen; lia|]. by apply vec_capacity.
Qed.

(** ** Sorting against a reference *)

(** The bubble sort of the encoder is the stable sort: options are ordered by
    number, and those of one number keep their order, as insertion one by one would
    leave them. *)
Theorem coap_sort_is_stable_sort m :
  sort_options m = Ret (mkMessage (header m) (token m)
    (vec_write (options m) (sort_by_key number (vec_slice (options m)))) (payload m)).
Proof.
  unfold sort_options. assert (vlen (options m) <= 16) as Hc by by apply vec_capacity.
  pose proof (bubble_spec (vec_slice (options m)) ltac:(unfold vlen in Hc; lia)) as Hb.
  destruct (bubble _) as [l| |]; [|done|done]. destruct Hb as ([_ Ho] & _ & Hs). simpl. do 3 f_equal.
  apply sorted_from_Sorted in Hs. destruct (sort_by_key_spec number (vec_slice (options m))) as [Hs' Ho'].
  apply (ascends_unique number); [done|done|]. intros n. by rewrite Ho, Ho'.
Qed.

(** ** From the client to the server *)

(** The path of a list of segments. *)
Definition join (segs : list (list Z)) : list Z := concat ((λ s, chr_slash :: s) <$> segs).

(** A segment of a path: some bytes of UTF-8 without a slash. *)
Definition segment_ok (s : list Z) : Prop := s ≠ [] ∧ chr_slash ∉ s ∧ utf8_valid s = true.

Lemma split_segment s rest :
  chr_slash ∉ s →
  split_on chr_slash (s ++ rest) = match split_on chr_slash rest with seg :: segs => (s ++ seg) :: segs | [] => [s] end.
Proof.
  induction s as [|b s IH]; intros Hs; simpl.
  - destruct rest as [|c rest]; simpl; [done|]. destruct (c =? 47); [done|]. by destruct (split_on 47 rest).
  - apply not_elem_of_cons in Hs as [Hb Hs]. destruct (Z.eqb_spec b 47); [congruence|]. rewrite IH by done. by destruct (split_on 47 rest).
Qed.

Lemma split_join segs : Forall segment_ok segs → split_on chr_slash (join segs) = [] :: segs.
Proof.
  induction 1 as [|s segs (Hne & Hs & _) _ IH]; [done|]. change (join (s :: segs)) with (47 :: s ++ join segs).
  cbn [split_on Z.eqb Pos.eqb]. f_equal. rewrite split_segment, IH by done. by rewrite app_nil_r.
Qed.

Lemma join_length segs : Forall segment_ok segs → (2 * length segs <= length (join segs))%nat ∧ Forall (λ s, length s <= length (join segs))%nat segs.
Proof.
  induction 1 as [|s segs (Hne & _) _ [IH1 IH2]]; [done|]. change (join (s :: segs)) with (47 :: s ++ join segs). cbn [length]. rewrite length_app.
  split; [destruct s; [done|simpl in *; lia]|]. constructor; [lia|]. eapply Forall_impl; [exact IH2|]. simpl. lia.
Qed.

Lemma add_segments_ok n segs : ∀ m,
  Forall (λ s, s ≠ [] ∧ zlen s <= 256) segs → vlen (options m) + zlen segs <= 16 →
  ∃ m', CoapRequest.add_segments n segs m = Ok m' ∧ header m' = header m ∧ token m' = token m ∧ payload m' = payload m ∧
    views (vec_slice (options m')) = views (vec_slice (options m)) ++ ((λ s, (OptionNumber.to_u16 n, s)) <$> segs).
Proof.
  induction segs as [|s segs IH]; intros m Hs Hm; cbn [CoapRequest.add_segments].
  { exists m. by rewrite app_nil_r. }
  apply Forall_cons in Hs as [[Hne Hlen] Hs]. cbn [length] in Hm.
  assert (is_empty s = false) as -> by by destruct s. unfold CoapOption.new.
  destruct (extend_fits (vec_new : Vec Z 256) s) as (v & -> & Hv); [unfold vlen; rewrite slice_new; simpl; lia|].
  rewrite slice_new, app_nil_l in Hv. cbn [CoapRequest.then_ok]. unfold CoapMessage.add_option.
  destruct (push_fits (options m) (mkOption (OptionNumber.to_u16 n) v)) as (os & -> & Hos); [lia|]. cbn [CoapRequest.then_ok].
  destruct (IH (mkMessage (header m) (token m) os (payload m)) Hs) as (m' & E & Eh & Et & Ep & Ev).
  { cbn [options]. unfold vlen in *. rewrite Hos, length_app. simpl. lia. }
  exists m'. split_and!; [done..|]. rewrite Ev. cbn [options]. rewrite Hos. unfold views. rewrite fmap_app, <-(assoc_L (++)). simpl.
  unfold view. simpl. by rewrite Hv.
Qed.

(** The message of a request for a path, with a token. *)
Lemma build_path method segs tok id :
  Forall segment_ok segs → segs ≠ [] → zlen segs <= 16 → zlen (join segs) <= 256 → zlen tok <= 8 → 0 <= id <= U16_MAX →
  let rq := CoapRequest.with_token (CoapRequest.with_uri_path (CoapRequest.new method) (join segs)) tok in
  ∃ m, CoapRequest.build rq id = Ok m ∧ msg_ok m ∧ vec_slice (token m) = tok ∧ vec_slice (payload m) = [] ∧
    header m = mkHeader COAP_VERSION Confirmable (zlen tok) (Method.to_code method) id ∧
    views (vec_slice (options m)) = (λ s, (OptionNumber.to_u16 UriPath, s)) <$> segs.
Proof.
  intros Hsegs Hne Hn Hj Ht Hid. cbv zeta. unfold CoapRequest.with_token, CoapRequest.with_uri_path, CoapRequest.new. cbn [rq_method rq_uri_path rq_uri_query rq_token rq_content_format rq_accept rq_observe rq_payload].
  destruct (str_push_fits (str_clear (str_new : Str 256)) (join segs)) as (sp & -> & Hsp); [rewrite bytes_clear; simpl; lia|].
  rewrite bytes_clear, app_nil_l in Hsp.
  destruct (extend_fits (vec_clear (vec_new : Vec Z 8)) tok) as (tv & -> & Htv); [unfold vlen; rewrite slice_clear; simpl; lia|].
  rewrite slice_clear, app_nil_l in Htv. cbn [keep]. unfold CoapRequest.build.
  cbn [rq_method rq_uri_path rq_uri_query rq_token rq_content_format rq_accept rq_observe rq_payload CoapRequest.add_some].
  rewrite Htv, Hsp, bytes_new, slice_new. cbn [is_empty].
  set (m0 := new _ _ _).
  assert (∃ m1, (if is_empty tok then Ok m0 else with_token m0 tok) = Ok m1 ∧ vec_slice (token m1) = tok ∧
    header m1 = mkHeader COAP_VERSION Confirmable (zlen tok) (Method.to_code method) id ∧ vec_slice (options m1) = [] ∧ vec_slice (payload m1) = [])
    as (m1 & -> & Ht1 & Hh1 & Ho1 & Hp1).
  { destruct tok as [|b tok]; [exists m0; split_and!; [done|apply slice_new|done|apply slice_new..]|]. cbn [is_empty]. unfold with_token.
    destruct (Z.ltb_spec MAX_TOKEN_LENGTH (zlen (b :: tok))); [unfold MAX_TOKEN_LENGTH in *; lia|].
    destruct (extend_fits (vec_clear (token m0)) (b :: tok)) as (tv' & -> & Htv'); [unfold vlen; rewrite slice_clear; simpl in *; lia|].
    rewrite slice_clear, app_nil_l in Htv'. eexists. split; [done|]. simpl. rewrite as_u8_small by (simpl in *; lia).
    split_and!; [done|done|apply slice_new|apply slice_new]. }
  cbn [CoapRequest.then_ok]. destruct (is_empty (join segs)) eqn:Ej; [destruct segs; done|].
  rewrite split_join by done. cbn [CoapRequest.add_segments is_empty].
  destruct (join_length segs Hsegs) as [_ Hlens].
  destruct (add_segments_ok UriPath segs m1) as (m2 & -> & Hh2 & Ht2 & Hp2 & Ho2).
  { apply Forall_forall. intros s Hs. rewrite !Forall_forall in *. destruct (Hsegs s Hs). split; [done|]. specialize (Hlens s Hs). lia. }
  { unfold vlen. rewrite Ho1. simpl. lia. }
  cbn [CoapRequest.then_ok]. exists m2. rewrite Ht2, Hp2, Hh2, Hh1. split; [done|]. split; [|split_and!; [done|done|done|by rewrite Ho2, Ho1]].
  split; rewrite ?Hh2, ?Hh1; [done| |done|].
  - simpl. unfold vlen. by rewrite Ht2, Ht1.
  - assert (Forall (λ o, 0 <= o.1 <= U16_MAX) (views (vec_slice (options m2)))) as Hf.
    { rewrite Ho2, Ho1. simpl. apply Forall_fmap, Forall_true. simpl. lia. }
    by apply Forall_fmap in Hf.
Qed.

Lemma request_path_ok segs : ∀ os (acc : Str 256),
  views os = (λ s, (OptionNumber.to_u16 UriPath, s)) <$> segs → Forall segment_ok segs →
  zlen (str_bytes acc) + zlen (join segs) <= 256 →
  ∃ p, CoapServer.request_path os acc = Ok p ∧ str_bytes p = str_bytes acc ++ join segs.
Proof.
  induction segs as [|s segs IH]; intros [|o os] acc Hv Hs Hl; try done.
  { exists acc. by rewrite app_nil_r. }
  apply Forall_cons in Hs as [(_ & _ & Hu) Hs]. injection Hv as Hnum Hval Hv. change (join (s :: segs)) with (47 :: s ++ join segs) in *.
  cbn [length] in Hl. rewrite length_app in Hl. cbn [CoapServer.request_path].
  rewrite Hnum. cbn [Z.eqb Pos.eqb]. destruct (str_push_fits acc [47]) as (a1 & -> & Ha1); [simpl; lia|]. cbn [keep].
  unfold CoapOption.as_str. rewrite Hval, Hu.
  destruct (str_push_fits a1 s) as (a2 & -> & Ha2); [rewrite Ha1, length_app; simpl; lia|]. cbn [keep].
  destruct (IH os a2) as (p & Ep & Hp); [done|done|rewrite Ha2, Ha1, !length_app; simpl; lia|].
  exists p. split; [done|]. rewrite Hp, Ha2, Ha1, <-!(assoc_L (++)). done.
Qed.

Lemma path_wire_length segs : ∀ prev,
  prev = 0 ∨ prev = 11 → Forall (λ s, zlen s <= 256) segs →
  zlen (options_wire prev ((λ s, (11, s)) <$> segs)) <= zlen (join segs) + zlen segs.
Proof.
  induction segs as [|s segs IH]; intros prev Hp Hs; [done|]. apply Forall_cons in Hs as [Hl Hs].
  change (join (s :: segs)) with (47 :: s ++ join segs). rewrite fmap_cons. cbn [options_wire length]. specialize (IH 11 ltac:(auto) Hs).
  rewrite length_app. unfold option_wire. cbn [length]. rewrite !length_app.
  assert (length (ext_bytes (11 - prev)) = 0%nat) as -> by by destruct Hp as [-> | ->].
  assert (length (ext_bytes (zlen s)) <= 1)%nat as He; [|lia]. unfold ext_bytes. repeat case_bool; simpl; lia.
Qed.

(** Options of one number are left as they are. *)
Lemma rearranged_same l l' n : rearranged l l' → Forall (λ o, number o = n) l → l' = l.
Proof.
  intros [Hp Ho] Hn. specialize (Ho n). assert (Forall (λ o, number o = n) l') as Hn' by by rewrite Hp.
  assert (∀ k, Forall (λ o, number o = n) k → base.filter (λ o, number o = n) k = k) as Hf.
  { induction 1 as [|o k Ho' _ IH]; [done|]. by rewrite filter_cons_True, IH. }
  by rewrite !Hf in Ho.
Qed.

(** C14. A request that the client prepares for a path '/s1/../sk' of 1 to 16
    non-empty segments of UTF-8 and at most 256 bytes, with a token of at most 8
    bytes, arrives: the client encodes it, the server decodes it, puts the path
    together again, and answers for the resource registered under it with an
    acknowledgement that has the identifier and the token of the request; or says that
    there is no such resource. (Other paths, as '/' or 'temp', are put together
    differently or not encoded.) *)
Theorem request_reaches_resource client server method segs tok :
  Forall segment_ok segs → segs ≠ [] → zlen segs <= 16 → zlen (join segs) <= 256 → zlen tok <= 8 →
  0 <= next_id client <= U16_MAX →
  let rq := CoapRequest.with_token (CoapRequest.with_uri_path (CoapRequest.new method) (join segs)) tok in
  ∃ buffer, CoapClient.prepare_request client rq = Ret (Ok buffer, mkClient (as_u16 (next_id client + 1)) (pending client)) ∧
  match CoapServer.find_resource server (join segs) with
  | None => CoapServer.handle_request server (vec_slice buffer) = Ret (Err ResourceNotFound)
  | Some resource =>
    ∃ m, CoapServer.handle_request server (vec_slice buffer) = Ret (Ok m) ∧ vec_slice (token m) = tok ∧
      header m = mkHeader COAP_VERSION Acknowledgment (zlen tok)
        (ResponseCode.to_u8 (if CoapResource.is_method_allowed resource method then Content else MethodNotAllowed)) (next_id client)
  end.
Proof.
  intros Hsegs Hne Hn Hj Ht Hid. cbv zeta. set (rq := CoapRequest.with_token _ tok).
  destruct (build_path method segs tok (next_id client) Hsegs Hne Hn Hj Ht Hid) as (m & Hb & Hok & Htok & Hpl & Hh & Hv).
  fold rq in Hb. unfold CoapClient.prepare_request, CoapClient.next_message_id. cbn [next_id pending]. rewrite Hb.
  assert (Forall (λ o, number o = 11) (vec_slice (options m))) as Hnum.
  { assert (Forall (λ o, o.1 = 11) (views (vec_slice (options m)))) as Hf by (rewrite Hv; by apply Forall_fmap, Forall_true).
    by apply Forall_fmap in Hf. }
  pose proof (encode_spec m Hok) as He. destruct (encode m) as [[r m']| |]; [|done|done].
  destruct He as (Hok' & Hh' & Ht' & Hp' & Hr & Hs' & Hres). pose proof (rearranged_same _ _ 11 Hr Hnum) as Eo. cbn [obind].
  assert (zlen (wire m') <= MAX_MESSAGE_SIZE) as Hwl.
  { unfold wire. rewrite !length_app, Hh', Ht', Hp', Htok, Hpl, Eo, Hv.
    destruct (join_length segs Hsegs) as [_ Hl2].
    assert (Forall (λ s, zlen s <= 256) segs) as Hl3 by (eapply Forall_impl; [exact Hl2|]; simpl; lia).
    pose proof (path_wire_length segs 0 ltac:(auto) Hl3) as Hw. change (OptionNumber.to_u16 UriPath) with 11. unfold MAX_MESSAGE_SIZE. simpl length at 1 4. lia. }
  destruct r as [buffer|e]; [|lia]. exists buffer. split; [done|]. rewrite Hres.
  destruct (decode_wire m' Hok' Hs') as (m'' & Ed & (Eh & Et & Ev & _)).
  { rewrite Eo. eapply Forall_impl; [exact Hnum|]. simpl. lia. }
  unfold CoapServer.handle_request. rewrite Ed. cbn [rbind obind]. rewrite Eh, Hh', Hh. cbn [code].
  assert (Method.from_code (Method.to_code method) = Ok method) as -> by by destruct method. cbn [rbind obind].
  rewrite Eo, Hv in Ev.
  destruct (request_path_ok segs (vec_slice (options m'')) str_new Ev Hsegs) as (p & -> & Hp); [rewrite bytes_new; simpl; lia|].
  rewrite bytes_new, app_nil_l in Hp. cbn [rbind obind]. rewrite Hp.
  destruct (CoapServer.find_resource server (join segs)) as [res|]; [|done]. cbn [ok_or rbind obind].
  assert (∀ c, ∃ m, CoapServer.reply m'' c = Ok m ∧ vec_slice (token m) = tok ∧
    header m = mkHeader COAP_VERSION Acknowledgment (zlen tok) (ResponseCode.to_u8 c) (next_id client)) as Hreply.
  { intros c. unfold CoapServer.reply. rewrite Et, Ht', Htok, Eh, Hh', Hh. cbn [message_id].
    destruct tok as [|b tok]; cbn [is_empty]; [eexists; split_and!; [done|apply slice_new|done]|]. unfold with_token.
    destruct (Z.ltb_spec MAX_TOKEN_LENGTH (zlen (b :: tok))); [unfold MAX_TOKEN_LENGTH in *; lia|].
    destruct (extend_fits (vec_clear (token (new Acknowledgment (ResponseCode.to_u8 c) (next_id client)))) (b :: tok)) as (tv & -> & Htv);
      [unfold vlen; rewrite slice_clear; simpl in *; lia|].
    rewrite slice_clear, app_nil_l in Htv. eexists. split_and!; [done|done|]. simpl. by rewrite as_u8_small by (simpl in *; lia). }
  destruct (CoapResource.is_method_allowed res method); cbn [negb].
  - destruct (Hreply Content) as (mr & -> & ? & ?). by exists mr.
  - destruct (Hreply MethodNotAllowed) as (mr & -> & ? & ?). by exists mr.
Qed.

(** ** Retransmission *)

Definition pending_ok (p : PendingRequest) : Prop :=
  0 <= retransmit_count p <= MAX_RETRANSMIT ∧ 0 <= timeout_ms p <= U32_MAX.

(** What stays of a pending request. *)
Definition request_of (p : PendingRequest) : Z * Vec Z MAX_MESSAGE_SIZE := (pr_message_id p, pr_message p).

Definition total_count (ps : list PendingRequest) : Z := foldr (λ p n, retransmit_count p + n) 0 ps.

Lemma total_count_cons p ps : total_count (p :: ps) = retransmit_count p + total_count ps.
Proof. done. Qed.

Lemma tick_spec e p :
  pending_ok p → 0 <= e →
  returns (CoapClient.tick e p) (λ '(p', again), pending_ok p' ∧ request_of p' = request_of p ∧
    retransmit_count p' = retransmit_count p + (if again then 1 else 0) ∧
    (again = true ↔ timeout_ms p <= e ∧ retransmit_count p < MAX_RETRANSMIT) ∧
    (again = true → timeout_ms p' = ACK_TIMEOUT_MS * 2 ^ retransmit_count p')).
Proof.
  intros [Hc Ht] He. unfold CoapClient.tick, MAX_RETRANSMIT in *. destruct (Z.ltb_spec e (timeout_ms p)).
  - rewrite u32_sub_ok by lia. simpl. unfold pending_ok, MAX_RETRANSMIT. simpl. split_and!; try done; try lia.
  - destruct (Z.ltb_spec (retransmit_count p) 4).
    + unfold u8_add. rewrite checked_ok by lia. cbn [obind].
      assert (2 ^ (retransmit_count p + 1) <= 2 ^ 4) by (apply Z.pow_le_mono_r; lia).
      assert (0 < 2 ^ (retransmit_count p + 1)) by (apply Z.pow_pos_nonneg; lia).
      rewrite checked_ok by lia. cbn [obind]. unfold u32_mul, ACK_TIMEOUT_MS. rewrite checked_ok by lia. cbn [obind returns].
      unfold pending_ok, MAX_RETRANSMIT. cbn [retransmit_count timeout_ms]. split_and!; try done; try lia.
    + simpl. unfold pending_ok, MAX_RETRANSMIT. split_and!; try done; try lia. 
Qed.

Lemma ticks_spec e ps : ∀ (out : Vec (Vec Z MAX_MESSAGE_SIZE) 8),
  Forall pending_ok ps → 0 <= e → vlen out + zlen ps <= 8 →
  returns (CoapClient.ticks e ps out) (λ '(ps', out'), Forall pending_ok ps' ∧ request_of <$> ps' = request_of <$> ps ∧
    vlen out' - vlen out = total_count ps' - total_count ps ∧ 0 <= vlen out' - vlen out ∧ vlen out' - vlen out <= zlen ps).
Proof.
  induction ps as [|p ps IH]; intros out Hps He Hl; cbn [CoapClient.ticks].
  { simpl. split_and!; (done || lia). }
  apply Forall_cons in Hps as [Hp Hps]. pose proof (tick_spec e p Hp He) as Ht. cbn [length] in Hl.
  destruct (CoapClient.tick e p) as [[p' again]| |]; [|done|done]. destruct Ht as (Hp' & Er & Ec & _ & _). cbn [obind].
  set (out1 := if again then _ else _).
  assert (vlen out1 = vlen out + (if again then 1 else 0)) as Ho1.
  { unfold out1. destruct again; [|lia]. destruct (push_fits out (pr_message p)) as (o & -> & Ho); [lia|].
    cbn [keep]. unfold vlen. rewrite Ho, length_app. simpl. lia. }
  pose proof (IH out1 Hps He ltac:(destruct again; lia)) as Hi. destruct (CoapClient.ticks e ps out1) as [[ps' out']| |]; [|done|done].
  destruct Hi as (Hps' & Ers & Et & Hlo & Hhi). cbn [obind returns]. rewrite !fmap_cons, !total_count_cons. cbn [length].
  split_and!; [by constructor|by rewrite Er, Ers|destruct again; lia|destruct again; lia|destruct again; lia].
Qed.

(** The calls of [process_timeouts], and how many messages were sent again. *)
Fixpoint run_timeouts (client : CoapClient) (es : list Z) (sent : Z) : outcome (Z * CoapClient) :=
  match es with
  | [] => Ret (sent, client)
  | e :: es' =>
    let! (out, client') := CoapClient.process_timeouts client e in
    run_timeouts client' es' (sent + vlen out)
  end.

Lemma process_timeouts_spec client e :
  Forall pending_ok (vec_slice (pending client)) → 0 <= e →
  returns (CoapClient.process_timeouts client e) (λ '(out, client'),
    Forall pending_ok (vec_slice (pending client')) ∧
    request_of <$> vec_slice (pending client') = request_of <$> vec_slice (pending client) ∧
    vlen out = total_count (vec_slice (pending client')) - total_count (vec_slice (pending client))).
Proof.
  intros Hp He. unfold CoapClient.process_timeouts. assert (vlen (pending client) <= 8) as Hcap by by apply vec_capacity.
  pose proof (ticks_spec e (vec_slice (pending client)) vec_new Hp He) as Ht.
  unfold vlen at 1 in Ht. rewrite slice_new in Ht. specialize (Ht ltac:(unfold vlen in Hcap; simpl; lia)).
  destruct (CoapClient.ticks _ _ _) as [[ps out]| |]; [|done|done]. destruct Ht as (Hps & Er & Et & _). cbn [obind returns pending].
  rewrite slice_retain, slice_write by (by rewrite <-(length_fmap request_of), Er, length_fmap).
  assert (base.filter (λ x, (retransmit_count x <=? MAX_RETRANSMIT) = true) ps = ps) as ->.
  { clear -Hps. induction Hps as [|p ps [Hc _] _ IH]; [done|]. rewrite filter_cons_True, IH; [done|]. apply Z.leb_le. lia. }
  split_and!; [done|done|]. unfold vlen at 2 in Et. rewrite slice_new in Et. simpl in Et. lia.
Qed.

Lemma total_count_bounds ps : Forall pending_ok ps → 0 <= total_count ps <= MAX_RETRANSMIT * zlen ps.
Proof. unfold MAX_RETRANSMIT. induction 1 as [|p ps [Hc _] _ IH]; [done|]. rewrite total_count_cons. cbn [length]. unfold MAX_RETRANSMIT in *. lia. Qed.

(** However the time passes, [process_timeouts] returns, a pending request is
    sent again at most [MAX_RETRANSMIT] times, and none is ever given up: the
    pending requests at the end are those of the beginning. *)
Theorem retransmissions_bounded client es :
  Forall pending_ok (vec_slice (pending client)) → Forall (λ e, 0 <= e <= U32_MAX) es →
  returns (run_timeouts client es 0) (λ '(sent, client'),
    request_of <$> vec_slice (pending client') = request_of <$> vec_slice (pending client) ∧
    0 <= total_count (vec_slice (pending client')) <= MAX_RETRANSMIT * vlen (pending client) ∧
    sent = total_count (vec_slice (pending client')) - total_count (vec_slice (pending client))).
Proof.
  intros Hp Hes. assert (∀ sent, returns (run_timeouts client es sent) (λ '(sent', client'),
    Forall pending_ok (vec_slice (pending client')) ∧
    request_of <$> vec_slice (pending client') = request_of <$> vec_slice (pending client) ∧
    sent' = sent + total_count (vec_slice (pending client')) - total_count (vec_slice (pending client)))) as Hrun.
  - revert client Hp. induction Hes as [|e es He _ IH]; intros client Hp sent; cbn [run_timeouts]; [split_and!; [done|done|lia]|].
    pose proof (process_timeouts_spec client e Hp ltac:(lia)) as Ht.
    destruct (CoapClient.process_timeouts client e) as [[out client1]| |]; [|done|done]. destruct Ht as (Hp1 & Er & Ho). cbn [obind].
    eapply returns_mono; [apply (IH client1 Hp1)|]. intros [sent' client'] (? & ? & ?). split_and!; [done|congruence|lia].
  - eapply returns_mono; [apply (Hrun 0)|]. intros [sent client'] (Hok & Er & Es). split_and!; [done|..|lia].
    + by apply total_count_bounds.
    + assert (zlen (vec_slice (pending client')) = vlen (pending client)) as <- by (unfold vlen; by rewrite <-(length_fmap request_of), Er, length_fmap).
      by apply total_count_bounds.
Qed.

(** ** Option values *)

Lemma as_u32_step r b : 0 <= r < 2 ^ 24 → is_byte b → Z.lor (as_u32 (Z.shiftl r 8)) b = r * 256 + b.
Proof.
  unfold is_byte. intros. rewrite Z.shiftl_mul_pow2 by lia. change (2 ^ 8) with 256. rewrite as_u32_small by lia.
  apply (lor_low r b 8); lia.
Qed.

(** At most four bytes do not overflow. *)
Lemma as_u32_fold l : ∀ r,
  Forall is_byte l → 0 <= r → (r + 1) * 256 ^ zlen l <= 2 ^ 32 →
  fold_left (λ result byte, Z.lor (as_u32 (Z.shiftl result 8)) byte) l r = fold_left (λ r b, r * 256 + b) l r.
Proof.
  induction l as [|b l IH]; intros r Hl Hr Hle; [done|]. apply Forall_cons in Hl as [Hb Hl]. unfold is_byte in Hb.
  cbn [length fold_left] in *. rewrite Nat2Z.inj_succ, Z.pow_succ_r in Hle by lia.
  assert (0 < 256 ^ zlen l) by (apply Z.pow_pos_nonneg; lia). rewrite as_u32_step by (unfold is_byte; nia). apply IH; [done|lia|nia].
Qed.

Lemma be_bytes_value x :
  0 <= x <= U32_MAX →
  ∃ a b c d, CoapOption.be_bytes x = [a; b; c; d] ∧ is_byte a ∧ is_byte b ∧ is_byte c ∧ is_byte d ∧
    x = ((a * 256 + b) * 256 + c) * 256 + d.
Proof.
  intros Hx. unfold CoapOption.be_bytes. do 4 eexists. split; [done|]. split_and!; try apply as_u8_range.
  unfold as_u8. rewrite !Z.shiftr_div_pow2 by lia. change (2 ^ 24) with 16777216. change (2 ^ 16) with 65536. change (2 ^ 8) with 256.
  Z.div_mod_to_equations. lia.
Qed.

(** The option that [max_age] makes, without the leading zeros of the number,
    has the number as its value. *)
Theorem max_age_roundtrip seconds :
  0 <= seconds <= U32_MAX →
  ∃ o, CoapOption.max_age seconds = Ok o ∧ number o = OptionNumber.to_u16 MaxAge ∧ CoapOption.as_u32 o = Ok seconds.
Proof.
  intros Hs. destruct (be_bytes_value seconds Hs) as (a & b & c & d & E & Ha & Hb & Hc & Hd & Ev).
  unfold CoapOption.max_age, CoapOption.new. rewrite E.
  match goal with |- context [drop ?n _] => set (k := n) end.
  assert (k <= 3)%nat as Hk by (unfold k; simpl; repeat case_bool; simpl; lia).
  destruct (extend_fits (vec_new : Vec Z 256) (drop k [a; b; c; d])) as (v & -> & Hv).
  { unfold vlen. rewrite slice_new, length_drop. simpl. lia. }
  rewrite slice_new, app_nil_l in Hv. eexists. split_and!; [done|done|]. unfold CoapOption.as_u32, vlen. cbn [value].
  rewrite Hv. rewrite (proj2 (Z.ltb_ge _ _)) by (rewrite length_drop; simpl; lia). f_equal.
  rewrite as_u32_fold; [|by apply Forall_drop; rewrite !Forall_cons|lia|].
  2:{ rewrite length_drop. cbn [length]. transitivity (256 ^ 4); [|done]. rewrite Z.mul_1_l. apply Z.pow_le_mono_r; lia. }
  unfold k, is_byte in *. cbn [CoapOption.position_nonzero].
  destruct (Z.eqb_spec a 0); [destruct (Z.eqb_spec b 0); [destruct (Z.eqb_spec c 0); [destruct (Z.eqb_spec d 0)|]|]|];
    cbn [negb fmap option_fmap option_map default from_option id drop fold_left]; lia.
Qed.
End theorems.

(** ** On vectors that are lists *)

#[local] Existing Instance Lists.heapless.
#[local] Existing Instance Lists.heapless_laws.

(** GET /a/bc with a token and a few options more. *)
Definition sample_request : CoapRequest :=
  CoapRequest.with_accept (CoapRequest.with_observe
    (CoapRequest.with_token (CoapRequest.with_uri_path (CoapRequest.new Get) (join [[97]; [98; 99]])) [1; 2]) true) ApplicationJson.

Definition sample : CoapMessage :=
  match CoapRequest.build sample_request 513 with Ok m => m | Err _ => new Confirmable 0 0 end.

Lemma sample_ok : msg_ok sample.
Proof. split; vm_compute; [done|done|done|]. repeat constructor; done. Qed.

Lemma coap_roundtrip_witness :
  returns (encode sample) (λ '(r, m'), match r with
    | Ok buffer => ∃ m'', decode (vec_slice buffer) = Ret (Ok m'') ∧ msg_eq m'' m'
    | Err e => False
    end).
Proof.
  assert (match encode sample with Ret (Ok b, _) => true | _ => false end = true) as Hb by (vm_compute; reflexivity).
  assert (Forall (λ o, number o < 525) (vec_slice (options sample))) as Hn by (vm_compute; repeat constructor).
  pose proof (coap_roundtrip sample sample_ok Hn) as Hr. destruct (encode sample) as [[[b|e] m']| |]; [|discriminate Hb..].
  by destruct Hr as (_ & _ & _ & _ & Hr).
Defined.

Lemma coap_decode_terminates_witness : Forall is_byte [64; 1; 0; 7; 255] ∧ decode [64; 1; 0; 7; 255] ≠ Timeout.
Proof.
  assert (Forall is_byte [64; 1; 0; 7; 255]) as Hb by (repeat constructor; unfold is_byte; lia).
  split; [done|]. by apply coap_decode_terminates.
Defined.

Lemma coap_decode_well_formed_witness :
  ∃ m, decode [66; 1; 0; 7; 1; 2; 177; 97; 255; 5] = Ret (Ok m) ∧ msg_ok m.
Proof.
  assert (Forall is_byte [66; 1; 0; 7; 1; 2; 177; 97; 255; 5]) as Hb by (repeat constructor; unfold is_byte; lia).
  assert (match decode [66; 1; 0; 7; 1; 2; 177; 97; 255; 5] with Ret (Ok _) => true | _ => false end = true) as Hr by (vm_compute; reflexivity).
  destruct (decode _) as [[m|e]| |] eqn:E; [|discriminate Hr..]. exists m. split; [done|].
  by destruct (coap_decode_well_formed _ m Hb E).
Defined.

Lemma coap_sort_is_stable_sort_witness :
  match sort_options sample with Ret m => number <$> vec_slice (options m) = [6; 11; 11; 17] | _ => False end.
Proof. rewrite (coap_sort_is_stable_sort sample). vm_compute. reflexivity. Defined.

(** A server with GET and POST on /a/bc. *)
Definition sample_server : CoapServer :=
  match CoapResource.new (join [[97]; [98; 99]]) with
  | Ok r => match CoapServer.register_resource CoapServer.new (CoapResource.with_method (CoapResource.with_method r Get) Post) with
            | Ok s => s | Err _ => CoapServer.new end
  | Err _ => CoapServer.new
  end.

Lemma request_reaches_resource_witness :
  ∃ buffer m, CoapClient.prepare_request CoapClient.new
      (CoapRequest.with_token (CoapRequest.with_uri_path (CoapRequest.new Put) (join [[97]; [98; 99]])) [7]) =
    Ret (Ok buffer, mkClient 2 vec_new) ∧
  CoapServer.handle_request sample_server (vec_slice buffer) = Ret (Ok m) ∧ vec_slice (token m) = [7] ∧
  code (header m) = 133 ∧ message_id (header m) = 1.
Proof.
  assert (Forall segment_ok [[97]; [98; 99]]) as Hs by (repeat constructor; try done; set_solver).
  destruct (request_reaches_resource CoapClient.new sample_server Put [[97]; [98; 99]] [7] Hs) as (buffer & E & Hr);
    [done|done|done|done|done|].
  exists buffer. destruct (CoapServer.find_resource sample_server (join [[97]; [98; 99]])) as [r|] eqn:Er; [|by vm_compute in Er].
  destruct Hr as (m & Em & Ht & Hh). exists m. split_and!; [exact E|done|done|rewrite Hh|rewrite Hh]; [|done].
  vm_compute in Er. injection Er as <-. vm_compute. reflexivity.
Defined.

(** A client with one pending request. *)
Definition sample_client : CoapClient := snd (CoapClient.add_pending CoapClient.new 1 vec_new).

Lemma retransmissions_bounded_witness :
  let es := [2000; 5000; 9000; 20000; 40000; 40000; 40000] in
  returns (run_timeouts sample_client es 0) (λ '(sent, client'), 0 <= sent <= 4) ∧
  match run_timeouts sample_client es 0 with
  | Ret (sent, client') => sent = 4 ∧ vlen (pending client') = 1
  | _ => False
  end.
Proof.
  cbv zeta. split; [|vm_compute; done].
  assert (vec_slice (pending sample_client) = [mkPending 1 vec_new 0 ACK_TIMEOUT_MS]) as Hp by reflexivity.
  eapply returns_mono.
  - apply retransmissions_bounded; [|repeat constructor; lia]. rewrite Hp. apply Forall_singleton.
    unfold pending_ok, MAX_RETRANSMIT, ACK_TIMEOUT_MS. simpl. lia.
  - intros [sent client'] (_ & Ht & ->). unfold vlen in Ht. rewrite Hp in *. unfold MAX_RETRANSMIT in Ht. cbn [length] in Ht.
    change (total_count [mkPending 1 vec_new 0 ACK_TIMEOUT_MS]) with 0. lia.
Defined.

Lemma max_age_roundtrip_witness :
  ∃ o, CoapOption.max_age 3600 = Ok o ∧ CoapOption.as_u32 o = Ok 3600 ∧ vec_slice (value o) = [14; 16].
Proof.
  destruct (max_age_roundtrip 3600 ltac:(lia)) as (o & E & _ & Ev). exists o. split_and!; [done|done|].
  vm_compute in E. by injection E as <-.
Defined.

(** ** Where the code departs from the protocol *)

(** The high byte of a long delta is combined with [|] after 269 is added to the
    low byte: option 525 comes back as option 269. *)
Lemma long_delta_not_read_back :
  match encode (match CoapMessage.add_option (new Confirmable 1 0) (mkOption 525 vec_new) with Ok m => m | Err _ => new Confirmable 1 0 end) with
  | Ret (Ok buffer, _) =>
    match decode (vec_slice buffer) with Ret (Ok m) => number <$> vec_slice (options m) = [269] | _ => False end
  | _ => False
  end.
Proof. vm_compute. reflexivity. Qed.

(** Two long deltas in a message from the network overflow the option number. *)
Lemma decode_panics_on_overflow : decode [64; 1; 0; 0; 224; 255; 0; 224; 255; 0] = Panic.
Proof. vm_compute. reflexivity. Qed.

(** A payload marker with nothing behind it is accepted. *)
Lemma empty_payload_accepted :
  match decode [64; 1; 0; 0; 255] with Ret (Ok m) => vec_slice (payload m) = [] | _ => False end.
Proof. vm_compute. reflexivity. Qed.

(** A token of nine bytes is dropped from a request without an error. *)
Lemma long_token_dropped :
  vec_slice (rq_token (CoapRequest.with_token (CoapRequest.new Get) [1; 2; 3; 4; 5; 6; 7; 8; 9])) = [].
Proof. vm_compute. reflexivity. Qed.
