(* ===== verification/Mqttsn.v ===== *)
(** * MQTT-SN (mielin-rt/src/mqttsn.rs)

    Messages of MQTT for sensor networks, their encoder and decoder, and the client
    with its connection state and its topics. *)

From stdpp Require Import base tactics option list numbers.
From S2P Require Import Prelude Bytes Heapless.

(* src: mielin-rt/src/mqttsn.rs 38-38 MQTTSN_PROTOCOL_VERSION *)
Definition MQTTSN_PROTOCOL_VERSION : Z := 1.
(* src: mielin-rt/src/mqttsn.rs 44-44 MAX_MESSAGE_LENGTH *)
Definition MAX_MESSAGE_LENGTH : Z := 256.
(* src: mielin-rt/src/mqttsn.rs 47-47 MAX_CLIENT_ID_LENGTH *)
Definition MAX_CLIENT_ID_LENGTH : Z := 23.
(* src: mielin-rt/src/mqttsn.rs 50-50 MAX_TOPIC_NAME_LENGTH *)
Definition MAX_TOPIC_NAME_LENGTH : Z := 64.
(* src: mielin-rt/src/mqttsn.rs 53-53 DEFAULT_BROADCAST_RADIUS *)
Definition DEFAULT_BROADCAST_RADIUS : Z := 1.

(* src: mielin-rt/src/mqttsn.rs 1339-1374 MqttsnError *)
Inductive MqttsnError : Type :=
| InvalidMessageType | InvalidQoS | InvalidTopicIdType | InvalidReturnCode | BufferTooSmall
| MessageTooLong | MessageTooShort | InvalidLength | InvalidUtf8 | ClientIdTooLong
| TopicNameTooLong | PayloadTooLarge | NotConnected | RegistrationRejected | UnexpectedMessage
| TooManyTopics | UnsupportedMessageType.

#[export] Instance MqttsnError_eq_dec : EqDecision MqttsnError.
Proof. solve_decision. Defined.

(** ** Codes *)

(* src: mielin-rt/src/mqttsn.rs 58-113 MessageType *)
Inductive MessageType : Type :=
| TAdvertise | TSearchGw | TGwInfo | TConnect | TConnAck | TWillTopicReq | TWillTopic | TWillMsgReq
| TWillMsg | TRegister | TRegAck | TPublish | TPubAck | TPubComp | TPubRec | TPubRel | TSubscribe
| TSubAck | TUnsubscribe | TUnsubAck | TPingReq | TPingResp | TDisconnect | TWillTopicUpd
| TWillTopicResp | TWillMsgUpd | TWillMsgResp.

Module MessageType.

(* src: mielin-rt/src/mqttsn.rs 117-148 MessageType::from_u8 *)
Definition from_u8 (value : Z) : result MessageType MqttsnError :=
  match value with
  | 0 => Ok TAdvertise | 1 => Ok TSearchGw | 2 => Ok TGwInfo | 4 => Ok TConnect | 5 => Ok TConnAck
  | 6 => Ok TWillTopicReq | 7 => Ok TWillTopic | 8 => Ok TWillMsgReq | 9 => Ok TWillMsg
  | 10 => Ok TRegister | 11 => Ok TRegAck | 12 => Ok TPublish | 13 => Ok TPubAck | 14 => Ok TPubComp
  | 15 => Ok TPubRec | 16 => Ok TPubRel | 18 => Ok TSubscribe | 19 => Ok TSubAck
  | 20 => Ok TUnsubscribe | 21 => Ok TUnsubAck | 22 => Ok TPingReq | 23 => Ok TPingResp
  | 24 => Ok TDisconnect | 26 => Ok TWillTopicUpd | 27 => Ok TWillTopicResp | 28 => Ok TWillMsgUpd
  | 29 => Ok TWillMsgResp
  | _ => Err InvalidMessageType
  end.

(* src: mielin-rt/src/mqttsn.rs 151-153 MessageType::to_u8 *)
Definition to_u8 (t : MessageType) : Z :=
  match t with
  | TAdvertise => 0 | TSearchGw => 1 | TGwInfo => 2 | TConnect => 4 | TConnAck => 5
  | TWillTopicReq => 6 | TWillTopic => 7 | TWillMsgReq => 8 | TWillMsg => 9 | TRegister => 10
  | TRegAck => 11 | TPublish => 12 | TPubAck => 13 | TPubComp => 14 | TPubRec => 15 | TPubRel => 16
  | TSubscribe => 18 | TSubAck => 19 | TUnsubscribe => 20 | TUnsubAck => 21 | TPingReq => 22
  | TPingResp => 23 | TDisconnect => 24 | TWillTopicUpd => 26 | TWillTopicResp => 27
  | TWillMsgUpd => 28 | TWillMsgResp => 29
  end.

End MessageType.

(* src: mielin-rt/src/mqttsn.rs 159-168 QoS *)
Inductive QoS : Type := Level0 | Level1 | Level2 | LevelMinus1.

#[export] Instance QoS_eq_dec : EqDecision QoS.
Proof. solve_decision. Defined.

Module QoS.

(* src: mielin-rt/src/mqttsn.rs 172-180 QoS::from_u8 *)
Definition from_u8 (value : Z) : result QoS MqttsnError :=
  match value with
  | 0 => Ok Level0 | 1 => Ok Level1 | 2 => Ok Level2 | 3 => Ok LevelMinus1 | _ => Err InvalidQoS
  end.

(* src: mielin-rt/src/mqttsn.rs 183-185 QoS::to_u8 *)
Definition to_u8 (q : QoS) : Z := match q with Level0 => 0 | Level1 => 1 | Level2 => 2 | LevelMinus1 => 3 end.

End QoS.

(* src: mielin-rt/src/mqttsn.rs 191-198 TopicIdType *)
Inductive TopicIdType : Type := Normal | Predefined | Short.

#[export] Instance TopicIdType_eq_dec : EqDecision TopicIdType.
Proof. solve_decision. Defined.

Module TopicIdType.

(* src: mielin-rt/src/mqttsn.rs 202-209 TopicIdType::from_flags *)
Definition from_flags (flags : Z) : result TopicIdType MqttsnError :=
  match Z.land (Z.shiftr flags 1) 3 with
  | 0 => Ok Normal | 1 => Ok Predefined | 2 => Ok Short | _ => Err InvalidTopicIdType
  end.

(* src: mielin-rt/src/mqttsn.rs 212-214 TopicIdType::to_flags *)
Definition to_flags (t : TopicIdType) : Z :=
  as_u8 (Z.shiftl (match t with Normal => 0 | Predefined => 1 | Short => 2 end) 1).

End TopicIdType.

(* src: mielin-rt/src/mqttsn.rs 220-229 ReturnCode *)
Inductive ReturnCode : Type :=
| Accepted | RejectedCongestion | RejectedInvalidTopicId | RejectedNotSupported.

Module ReturnCode.

(* src: mielin-rt/src/mqttsn.rs 233-241 ReturnCode::from_u8 *)
Definition from_u8 (value : Z) : result ReturnCode MqttsnError :=
  match value with
  | 0 => Ok Accepted | 1 => Ok RejectedCongestion | 2 => Ok RejectedInvalidTopicId
  | 3 => Ok RejectedNotSupported | _ => Err InvalidReturnCode
  end.

(* src: mielin-rt/src/mqttsn.rs 244-246 ReturnCode::to_u8 *)
Definition to_u8 (c : ReturnCode) : Z :=
  match c with
  | Accepted => 0 | RejectedCongestion => 1 | RejectedInvalidTopicId => 2 | RejectedNotSupported => 3
  end.

(* src: mielin-rt/src/mqttsn.rs 249-251 ReturnCode::is_accepted *)
Definition is_accepted (c : ReturnCode) : bool := match c with Accepted => true | _ => false end.

End ReturnCode.

(* src: mielin-rt/src/mqttsn.rs 256-269 Flags *)
Record Flags : Type := mkFlags {
  dup : bool;
  qos : QoS;
  retain : bool;
  will : bool;
  clean_session : bool;
  topic_id_type : TopicIdType;
}.

Module Flags.

(* src: mielin-rt/src/mqttsn.rs 273-282 Flags::new *)
Definition new : Flags := mkFlags false Level0 false false false Normal.

(* src: mielin-rt/src/mqttsn.rs 285-309 Flags::encode *)
Definition encode (self : Flags) : Z :=
  let flags := 0 in
  let flags := if dup self then Z.lor flags 128 else flags in
  let flags := Z.lor flags (as_u8 (Z.shiftl (Z.land (QoS.to_u8 (qos self)) 3) 5)) in
  let flags := if retain self then Z.lor flags 16 else flags in
  let flags := if will self then Z.lor flags 8 else flags in
  let flags := if clean_session self then Z.lor flags 4 else flags in
  Z.lor flags (TopicIdType.to_flags (topic_id_type self)).

(* src: mielin-rt/src/mqttsn.rs 312-328 Flags::decode *)
Definition decode (byte : Z) : result Flags MqttsnError :=
  let dup := negb (Z.land byte 128 =? 0) in
  match QoS.from_u8 (Z.land (Z.shiftr byte 5) 3) with
  | Err e => Err e
  | Ok qos =>
    let retain := negb (Z.land byte 16 =? 0) in
    let will := negb (Z.land byte 8 =? 0) in
    let clean_session := negb (Z.land byte 4 =? 0) in
    match TopicIdType.from_flags byte with
    | Err e => Err e
    | Ok topic_id_type => Ok (mkFlags dup qos retain will clean_session topic_id_type)
    end
  end.

End Flags.

(** ** Messages *)

Section types.
Context `{Heapless}.

(* src: mielin-rt/src/mqttsn.rs 440-447 SubscribeTopic *)
Inductive SubscribeTopic : Type :=
| Name (name : Str MAX_TOPIC_NAME_LENGTH)
| Id (id : Z)
| ShortName (b0 b1 : Z).

(* src: mielin-rt/src/mqttsn.rs 339-436 MqttsnMessage *)
Inductive MqttsnMessage : Type :=
| Advertise (gateway_id duration : Z)
| SearchGw (radius : Z)
| GwInfo (gateway_id : Z) (gateway_address : option (Vec Z 16))
| Connect (flags : Flags) (protocol_id duration : Z) (client_id : Vec Z MAX_CLIENT_ID_LENGTH)
| ConnAck (return_code : ReturnCode)
| Register (topic_id msg_id : Z) (topic_name : Str MAX_TOPIC_NAME_LENGTH)
| RegAck (topic_id msg_id : Z) (return_code : ReturnCode)
| Publish (flags : Flags) (topic_id msg_id : Z) (data : Vec Z 192)
| PubAck (topic_id msg_id : Z) (return_code : ReturnCode)
| Subscribe (flags : Flags) (msg_id : Z) (topic : SubscribeTopic)
| SubAck (flags : Flags) (topic_id msg_id : Z) (return_code : ReturnCode)
| Unsubscribe (flags : Flags) (msg_id : Z) (topic : SubscribeTopic)
| UnsubAck (msg_id : Z)
| PingReq (client_id : option (Vec Z MAX_CLIENT_ID_LENGTH))
| PingResp
| Disconnect (duration : option Z)
| WillTopic (flags : Flags) (will_topic : Str MAX_TOPIC_NAME_LENGTH)
| WillMsg (will_msg : Vec Z 192).

(* src: mielin-rt/src/mqttsn.rs 1073-1078 TopicRegistration *)
Record TopicRegistration : Type := mkTopic {
  name : Str MAX_TOPIC_NAME_LENGTH;
  id : Z;
}.

(* src: mielin-rt/src/mqttsn.rs 1060-1069 MqttsnClient *)
Record MqttsnClient : Type := mkClient {
  client_id : Vec Z MAX_CLIENT_ID_LENGTH;
  msg_id : Z;
  topics : Vec TopicRegistration 16;
  connected : bool;
}.
End types.

Module MqttsnMessage.
Section message.
Context `{Heapless}.

Abbreviation buffer := (Vec Z MAX_MESSAGE_LENGTH).

(* src: mielin-rt/src/mqttsn.rs 451-472 MqttsnMessage::message_type *)
Definition message_type (self : MqttsnMessage) : MessageType :=
  match self with
  | Advertise _ _ => TAdvertise
  | SearchGw _ => TSearchGw
  | GwInfo _ _ => TGwInfo
  | Connect _ _ _ _ => TConnect
  | ConnAck _ => TConnAck
  | Register _ _ _ => TRegister
  | RegAck _ _ _ => TRegAck
  | Publish _ _ _ _ => TPublish
  | PubAck _ _ _ => TPubAck
  | Subscribe _ _ _ => TSubscribe
  | SubAck _ _ _ _ => TSubAck
  | Unsubscribe _ _ _ => TUnsubscribe
  | UnsubAck _ => TUnsubAck
  | PingReq _ => TPingReq
  | PingResp => TPingResp
  | Disconnect _ => TDisconnect
  | WillTopic _ _ => TWillTopic
  | WillMsg _ => TWillMsg
  end.

(** [buffer.push(b)] and [buffer.extend_from_slice(l)], each with
    [BufferTooSmall]. *)
Inductive piece : Type := Push (b : Z) | Extend (l : list Z).

Fixpoint put (b : buffer) (ps : list piece) : result buffer MqttsnError :=
  match ps with
  | [] => Ok b
  | p :: ps' =>
    match match p with Push x => vec_push b x | Extend l => vec_extend b l end with
    | Some b' => put b' ps'
    | None => Err BufferTooSmall
    end
  end.

(** [x.to_be_bytes()] of a [u16], and back. *)
Definition be (x : Z) : list Z := [as_u8 (Z.shiftr x 8); as_u8 x].
Definition from_be (hi lo : Z) : Z := Z.lor (as_u16 (Z.shiftl hi 8)) lo.

Definition topic_pieces (t : SubscribeTopic) : list piece :=
  match t with
  | Name name => [Extend (str_bytes name)]
  | Id id => [Extend (be id)]
  | ShortName b0 b1 => [Extend [b0; b1]]
  end.

(** What is written for each message, behind length and type. *)
(* src: mielin-rt/src/mqttsn.rs 487-736 MqttsnMessage::encode (fields) *)
Definition fields (self : MqttsnMessage) : list piece :=
  match self with
  | Advertise gateway_id duration => [Push gateway_id; Extend (be duration)]
  | SearchGw radius => [Push radius]
  | GwInfo gateway_id gateway_address =>
    Push gateway_id :: match gateway_address with Some addr => [Extend (vec_slice addr)] | None => [] end
  | Connect flags protocol_id duration client_id =>
    [Push (Flags.encode flags); Push protocol_id; Extend (be duration); Extend (vec_slice client_id)]
  | ConnAck return_code => [Push (ReturnCode.to_u8 return_code)]
  | Register topic_id msg_id topic_name =>
    [Extend (be topic_id); Extend (be msg_id); Extend (str_bytes topic_name)]
  | RegAck topic_id msg_id return_code =>
    [Extend (be topic_id); Extend (be msg_id); Push (ReturnCode.to_u8 return_code)]
  | Publish flags topic_id msg_id data =>
    [Push (Flags.encode flags); Extend (be topic_id); Extend (be msg_id); Extend (vec_slice data)]
  | PubAck topic_id msg_id return_code =>
    [Extend (be topic_id); Extend (be msg_id); Push (ReturnCode.to_u8 return_code)]
  | Subscribe flags msg_id topic => Push (Flags.encode flags) :: Extend (be msg_id) :: topic_pieces topic
  | SubAck flags topic_id msg_id return_code =>
    [Push (Flags.encode flags); Extend (be topic_id); Extend (be msg_id); Push (ReturnCode.to_u8 return_code)]
  | Unsubscribe flags msg_id topic => Push (Flags.encode flags) :: Extend (be msg_id) :: topic_pieces topic
  | UnsubAck msg_id => [Extend (be msg_id)]
  | PingReq client_id => match client_id with Some id => [Extend (vec_slice id)] | None => [] end
  | PingResp => []
  | Disconnect duration => match duration with Some dur => [Extend (be dur)] | None => [] end
  | WillTopic flags will_topic => [Push (Flags.encode flags); Extend (str_bytes will_topic)]
  | WillMsg will_msg => [Extend (vec_slice will_msg)]
  end.

(* src: mielin-rt/src/mqttsn.rs 475-746 MqttsnMessage::encode *)
Definition encode (self : MqttsnMessage) : outcome (result buffer MqttsnError) :=
  let? b := Ret (put vec_new [Push 0; Push (MessageType.to_u8 (message_type self))]) in
  let? b := Ret (put b (fields self)) in
  let len := vlen b in
  if 255 <? len then Ret (Err MessageTooLong) else
  let! l := arr_set (vec_slice b) 0 (as_u8 len) in
  Ret (Ok (vec_write b l)).

(** A [u16] from two bytes of the slice. *)
Definition read_be (payload : list Z) (i : Z) : outcome Z :=
  let! hi := arr_get payload i in let! lo := arr_get payload (i + 1) in Ret (from_be hi lo).

(** The rest of the slice as a bounded vector, or as a string. *)
Definition read_vec {N : Z} (e : MqttsnError) (payload : list Z) (from : Z) : outcome (result (Vec Z N) MqttsnError) :=
  let! l := slice payload from (zlen payload) in ok_or e (vec_extend vec_new l).

Definition read_str {N : Z} (payload : list Z) (from : Z) : outcome (result (Str N) MqttsnError) :=
  let! l := slice payload from (zlen payload) in
  if utf8_valid l then ok_or TopicNameTooLong (str_push str_new l) else Ret (Err InvalidUtf8).

(* src: mielin-rt/src/mqttsn.rs 908-930 MqttsnMessage::decode (topic) *)
Definition read_topic (payload : list Z) (t : TopicIdType) : outcome (result SubscribeTopic MqttsnError) :=
  match t with
  | Normal => let? topic_name := read_str payload 3 in Ret (Ok (Name topic_name))
  | Predefined =>
    if zlen payload <? 5 then Ret (Err MessageTooShort) else
    let! id := read_be payload 3 in Ret (Ok (Id id))
  | Short =>
    if zlen payload <? 5 then Ret (Err MessageTooShort) else
    let! b0 := arr_get payload 3 in let! b1 := arr_get payload 4 in Ret (Ok (ShortName b0 b1))
  end.

(** The fields of each message. *)
(* src: mielin-rt/src/mqttsn.rs 762-1053 MqttsnMessage::decode (fields) *)
Definition decode_fields (msg_type : MessageType) (payload : list Z) : outcome (result MqttsnMessage MqttsnError) :=
  let len := zlen payload in
  match msg_type with
  | TAdvertise =>
    if len <? 3 then Ret (Err MessageTooShort) else
    let! gateway_id := arr_get payload 0 in
    let! duration := read_be payload 1 in
    Ret (Ok (Advertise gateway_id duration))
  | TSearchGw =>
    if is_empty payload then Ret (Err MessageTooShort) else
    let! radius := arr_get payload 0 in Ret (Ok (SearchGw radius))
  | TGwInfo =>
    if is_empty payload then Ret (Err MessageTooShort) else
    let! gateway_id := arr_get payload 0 in
    let? gateway_address :=
      (if 1 <? len then let? addr := read_vec BufferTooSmall payload 1 in Ret (Ok (Some addr)) else Ret (Ok None)) in
    Ret (Ok (GwInfo gateway_id gateway_address))
  | TConnect =>
    if len <? 4 then Ret (Err MessageTooShort) else
    let! b := arr_get payload 0 in
    let? flags := Ret (Flags.decode b) in
    let! protocol_id := arr_get payload 1 in
    let! duration := read_be payload 2 in
    let? client_id := read_vec ClientIdTooLong payload 4 in
    Ret (Ok (Connect flags protocol_id duration client_id))
  | TConnAck =>
    if is_empty payload then Ret (Err MessageTooShort) else
    let! b := arr_get payload 0 in
    let? return_code := Ret (ReturnCode.from_u8 b) in Ret (Ok (ConnAck return_code))
  | TRegister =>
    if len <? 4 then Ret (Err MessageTooShort) else
    let! topic_id := read_be payload 0 in
    let! msg_id := read_be payload 2 in
    let? topic_name := read_str payload 4 in
    Ret (Ok (Register topic_id msg_id topic_name))
  | TRegAck =>
    if len <? 5 then Ret (Err MessageTooShort) else
    let! topic_id := read_be payload 0 in
    let! msg_id := read_be payload 2 in
    let! b := arr_get payload 4 in
    let? return_code := Ret (ReturnCode.from_u8 b) in Ret (Ok (RegAck topic_id msg_id return_code))
  | TPublish =>
    if len <? 5 then Ret (Err MessageTooShort) else
    let! b := arr_get payload 0 in
    let? flags := Ret (Flags.decode b) in
    let! topic_id := read_be payload 1 in
    let! msg_id := read_be payload 3 in
    let? data := read_vec PayloadTooLarge payload 5 in
    Ret (Ok (Publish flags topic_id msg_id data))
  | TPubAck =>
    if len <? 5 then Ret (Err MessageTooShort) else
    let! topic_id := read_be payload 0 in
    let! msg_id := read_be payload 2 in
    let! b := arr_get payload 4 in
    let? return_code := Ret (ReturnCode.from_u8 b) in Ret (Ok (PubAck topic_id msg_id return_code))
  | TSubscribe =>
    if len <? 3 then Ret (Err MessageTooShort) else
    let! b := arr_get payload 0 in
    let? flags := Ret (Flags.decode b) in
    let! msg_id := read_be payload 1 in
    let? topic := read_topic payload (topic_id_type flags) in
    Ret (Ok (Subscribe flags msg_id topic))
  | TSubAck =>
    if len <? 6 then Ret (Err MessageTooShort) else
    let! b := arr_get payload 0 in
    let? flags := Ret (Flags.decode b) in
    let! topic_id := read_be payload 1 in
    let! msg_id := read_be payload 3 in
    let! b := arr_get payload 5 in
    let? return_code := Ret (ReturnCode.from_u8 b) in Ret (Ok (SubAck flags topic_id msg_id return_code))
  | TUnsubscribe =>
    if len <? 3 then Ret (Err MessageTooShort) else
    let! b := arr_get payload 0 in
    let? flags := Ret (Flags.decode b) in
    let! msg_id := read_be payload 1 in
    let? topic := read_topic payload (topic_id_type flags) in
    Ret (Ok (Unsubscribe flags msg_id topic))
  | TUnsubAck =>
    if len <? 2 then Ret (Err MessageTooShort) else
    let! msg_id := read_be payload 0 in Ret (Ok (UnsubAck msg_id))
  | TPingReq =>
    let? client_id :=
      (if negb (is_empty payload) then let? id := read_vec ClientIdTooLong payload 0 in Ret (Ok (Some id))
       else Ret (Ok None)) in
    Ret (Ok (PingReq client_id))
  | TPingResp => Ret (Ok PingResp)
  | TDisconnect =>
    if 2 <=? len then let! duration := read_be payload 0 in Ret (Ok (Disconnect (Some duration)))
    else Ret (Ok (Disconnect None))
  | TWillTopic =>
    if is_empty payload then Ret (Err MessageTooShort) else
    let! b := arr_get payload 0 in
    let? flags := Ret (Flags.decode b) in
    let? will_topic := read_str payload 1 in
    Ret (Ok (WillTopic flags will_topic))
  | TWillMsg => let? will_msg := read_vec PayloadTooLarge payload 0 in Ret (Ok (WillMsg will_msg))
  | _ => Ret (Err UnsupportedMessageType)
  end.

(* src: mielin-rt/src/mqttsn.rs 749-1055 MqttsnMessage::decode *)
Definition decode (bytes : list Z) : outcome (result MqttsnMessage MqttsnError) :=
  if zlen bytes <? 2 then Ret (Err MessageTooShort) else
  let! length := arr_get bytes 0 in
  if negb (length =? zlen bytes) then Ret (Err InvalidLength) else
  let! b := arr_get bytes 1 in
  let? msg_type := Ret (MessageType.from_u8 b) in
  let! payload := slice bytes 2 (zlen bytes) in
  decode_fields msg_type payload.

End message.
End MqttsnMessage.

(** ** The client *)

Module MqttsnClient.
Section client.
Context `{Heapless}.
Abbreviation buffer := (Vec Z MAX_MESSAGE_LENGTH).

(* src: mielin-rt/src/mqttsn.rs 1082-1097 MqttsnClient::new *)
Definition new (bytes : list Z) : result MqttsnClient MqttsnError :=
  if MAX_CLIENT_ID_LENGTH <? zlen bytes then Err ClientIdTooLong else
  match vec_extend vec_new bytes with
  | Some id => Ok (mkClient id 1 vec_new false)
  | None => Err ClientIdTooLong
  end.

(* src: mielin-rt/src/mqttsn.rs 1100-1104 MqttsnClient::next_msg_id *)
Definition next_msg_id (self : MqttsnClient) : Z * MqttsnClient :=
  (msg_id self, mkClient (client_id self) (as_u16 (msg_id self + 1)) (topics self) (connected self)).

(* src: mielin-rt/src/mqttsn.rs 1107-1112 MqttsnClient::search_gateway *)
Definition search_gateway : outcome (result buffer MqttsnError) :=
  MqttsnMessage.encode (SearchGw DEFAULT_BROADCAST_RADIUS).

(* src: mielin-rt/src/mqttsn.rs 1115-1131 MqttsnClient::connect *)
Definition connect (self : MqttsnClient) (duration : Z) (clean : bool) : outcome (result buffer MqttsnError) :=
  let f := Flags.new in
  let flags := mkFlags (dup f) (qos f) (retain f) (will f) clean (topic_id_type f) in
  MqttsnMessage.encode (Connect flags MQTTSN_PROTOCOL_VERSION duration (client_id self)).

Definition set_connected (b : bool) (self : MqttsnClient) : MqttsnClient :=
  mkClient (client_id self) (msg_id self) (topics self) b.

(* src: mielin-rt/src/mqttsn.rs 1134-1144 MqttsnClient::handle_connack *)
Definition handle_connack (self : MqttsnClient) (bytes : list Z) : outcome (result bool MqttsnError * MqttsnClient) :=
  let! r := MqttsnMessage.decode bytes in
  match r with
  | Err e => Ret (Err e, self)
  | Ok (ConnAck return_code) =>
    let b := ReturnCode.is_accepted return_code in Ret (Ok b, set_connected b self)
  | Ok _ => Ret (Err UnexpectedMessage, self)
  end.

Definition find_topic (self : MqttsnClient) (n : list Z) : option TopicRegistration :=
  List.find (λ t, bool_decide (str_bytes (name t) = n)) (vec_slice (topics self)).

(* src: mielin-rt/src/mqttsn.rs 1147-1174 MqttsnClient::register_topic *)
Definition register_topic (self : MqttsnClient) (topic_name : list Z)
    : outcome (result (buffer * Z) MqttsnError * MqttsnClient) :=
  if negb (connected self) then Ret (Err NotConnected, self) else
  match find_topic self topic_name with
  | Some reg => Ret (Ok (vec_new, id reg), self)
  | None =>
    let '(mid, self) := next_msg_id self in
    match str_push str_new topic_name with
    | None => Ret (Err TopicNameTooLong, self)
    | Some name =>
      let! r := MqttsnMessage.encode (Register 0 mid name) in
      Ret (match r with Ok b => Ok (b, mid) | Err e => Err e end, self)
    end
  end.

(* src: mielin-rt/src/mqttsn.rs 1177-1194 MqttsnClient::handle_regack *)
Definition handle_regack (bytes : list Z) : outcome (result Z MqttsnError) :=
  let? message := MqttsnMessage.decode bytes in
  match message with
  | RegAck topic_id _ return_code =>
    if ReturnCode.is_accepted return_code then Ret (Ok topic_id) else Ret (Err RegistrationRejected)
  | _ => Ret (Err UnexpectedMessage)
  end.

(* src: mielin-rt/src/mqttsn.rs 1197-1211 MqttsnClient::add_topic *)
Definition add_topic (self : MqttsnClient) (n : list Z) (topic_id : Z) : result unit MqttsnError * MqttsnClient :=
  match str_push str_new n with
  | None => (Err TopicNameTooLong, self)
  | Some topic_name =>
    match vec_push (topics self) (mkTopic topic_name topic_id) with
    | Some ts => (Ok tt, mkClient (client_id self) (msg_id self) ts (connected self))
    | None => (Err TooManyTopics, self)
    end
  end.

(* src: mielin-rt/src/mqttsn.rs 1214-1249 MqttsnClient::publish *)
Definition publish (self : MqttsnClient) (topic_id : Z) (data : list Z) (q : QoS) (r : bool)
    : outcome (result buffer MqttsnError * MqttsnClient) :=
  if negb (connected self) then Ret (Err NotConnected, self) else
  let f := Flags.new in
  let flags := mkFlags (dup f) q r (will f) (clean_session f) Normal in
  let '(mid, self) := if decide (q = Level0) then (0, self) else next_msg_id self in
  match vec_extend vec_new data with
  | None => Ret (Err PayloadTooLarge, self)
  | Some payload =>
    let! r := MqttsnMessage.encode (Publish flags topic_id mid payload) in Ret (r, self)
  end.

(* src: mielin-rt/src/mqttsn.rs 1252-1278 MqttsnClient::subscribe *)
Definition subscribe (self : MqttsnClient) (topic_name : list Z) (q : QoS)
    : outcome (result buffer MqttsnError * MqttsnClient) :=
  if negb (connected self) then Ret (Err NotConnected, self) else
  let f := Flags.new in
  let flags := mkFlags (dup f) q (retain f) (will f) (clean_session f) Normal in
  let '(mid, self) := next_msg_id self in
  match str_push str_new topic_name with
  | None => Ret (Err TopicNameTooLong, self)
  | Some name => let! r := MqttsnMessage.encode (Subscribe flags mid (Name name)) in Ret (r, self)
  end.

(* src: mielin-rt/src/mqttsn.rs 1281-1305 MqttsnClient::unsubscribe *)
Definition unsubscribe (self : MqttsnClient) (topic_name : list Z)
    : outcome (result buffer MqttsnError * MqttsnClient) :=
  if negb (connected self) then Ret (Err NotConnected, self) else
  let '(mid, self) := next_msg_id self in
  match str_push str_new topic_name with
  | None => Ret (Err TopicNameTooLong, self)
  | Some name => let! r := MqttsnMessage.encode (Unsubscribe Flags.new mid (Name name)) in Ret (r, self)
  end.

(* src: mielin-rt/src/mqttsn.rs 1308-1311 MqttsnClient::ping *)
Definition ping : outcome (result buffer MqttsnError) := MqttsnMessage.encode (PingReq None).

(* src: mielin-rt/src/mqttsn.rs 1314-1321 MqttsnClient::disconnect *)
Definition disconnect (self : MqttsnClient) (duration : option Z)
    : outcome (result buffer MqttsnError * MqttsnClient) :=
  let! r := MqttsnMessage.encode (Disconnect duration) in Ret (r, set_connected false self).

(* src: mielin-rt/src/mqttsn.rs 1324-1326 MqttsnClient::is_connected *)
Definition is_connected (self : MqttsnClient) : bool := connected self.

(* src: mielin-rt/src/mqttsn.rs 1329-1334 MqttsnClient::get_topic_id *)
Definition get_topic_id (self : MqttsnClient) (n : list Z) : option Z := id <$> find_topic self n.

End client.
End MqttsnClient.
