(* ===== verification/MqttsnProps.v ===== *)
(** * Theorems on MQTT-SN *)

From stdpp Require Import base tactics option list numbers.
From S2P Require Import Prelude Bytes Heapless Mqttsn.
Import MqttsnMessage.

(** ** Flags *)

Lemma flags_read_back f : Flags.decode (Flags.encode f) = Ok f ↔ clean_session f = bool_decide (topic_id_type f = Short).
Proof. destruct f as [[] [] [] [] [] []]; vm_compute; naive_solver. Qed.

(** The flags byte is read back as it was written exactly when the flag for a
    clean session is set for short topics and for no others: the topic type is
    written into bits 1 and 2, and bit 2 is the flag's. *)
Theorem flags_roundtrip_iff f :
  Flags.decode (Flags.encode f) = Ok f ↔ clean_session f = bool_decide (topic_id_type f = Short).
Proof. apply flags_read_back. Qed.

(** A clean session makes a predefined topic undecodable, and a normal one short. *)
Lemma clean_session_changes_topic f :
  clean_session f = true →
  match Flags.decode (Flags.encode f) with
  | Ok f' => topic_id_type f' = Short
  | Err e => topic_id_type f = Predefined ∧ e = InvalidTopicIdType
  end.
Proof. destruct f as [[] [] [] [] [] []]; vm_compute; done. Qed.

(** ** The bytes of a message *)

Section mqttsn.
Context `{HeaplessLaws}.

Definition piece_bytes (p : piece) : list Z := match p with Push b => [b] | Extend l => l end.
Definition flat (ps : list piece) : list Z := concat (piece_bytes <$> ps).

Lemma put_fits ps : ∀ b,
  vlen b + zlen (flat ps) <= MAX_MESSAGE_LENGTH → ∃ b', put b ps = Ok b' ∧ vec_slice b' = vec_slice b ++ flat ps.
Proof.
  induction ps as [|p ps IH]; intros b Hl; cbn [put].
  { exists b. by rewrite app_nil_r. }
  change (flat (p :: ps)) with (piece_bytes p ++ flat ps) in *. rewrite length_app in Hl.
  assert (∃ b1, match p with Push x => vec_push b x | Extend l => vec_extend b l end = Some b1 ∧ vec_slice b1 = vec_slice b ++ piece_bytes p) as (b1 & -> & Hb1).
  { destruct p; [apply push_fits|apply extend_fits]; cbn [piece_bytes length] in *; lia. }
  destruct (IH b1) as (b' & E & Hb'); [unfold vlen in *; rewrite Hb1, length_app; lia|].
  exists b'. split; [done|]. by rewrite Hb', Hb1, (assoc_L (++)).
Qed.

Definition wire (m : MqttsnMessage) : list Z :=
  (2 + zlen (flat (fields m))) :: MessageType.to_u8 (message_type m) :: flat (fields m).

(** The strings of a message are UTF-8 of at most their capacity, as
    [heapless::String] keeps them. *)
Definition str_ok {N} (s : Str N) : Prop := utf8_valid (str_bytes s) = true ∧ zlen (str_bytes s) <= N.

Definition u16_ok (x : Z) : Prop := 0 <= x <= U16_MAX.

(** The topic is of the kind that the flags say. *)
Definition topic_ok (f : Flags) (t : SubscribeTopic) : Prop :=
  match t with
  | Name name => str_ok name ∧ topic_id_type f = Normal
  | Id id => u16_ok id ∧ topic_id_type f = Predefined
  | ShortName b0 b1 => is_byte b0 ∧ is_byte b1 ∧ topic_id_type f = Short
  end.

Definition flags_ok (f : Flags) : Prop := clean_session f = bool_decide (topic_id_type f = Short).

Definition message_ok (m : MqttsnMessage) : Prop :=
  match m with
  | Advertise gateway_id duration => is_byte gateway_id ∧ u16_ok duration
  | SearchGw radius => is_byte radius
  | GwInfo gateway_id gateway_address => is_byte gateway_id ∧ (vec_slice <$> gateway_address) ≠ Some []
  | Connect flags protocol_id duration client_id => flags_ok flags ∧ is_byte protocol_id ∧ u16_ok duration
  | ConnAck _ | PingResp | WillMsg _ => True
  | Register topic_id msg_id topic_name => u16_ok topic_id ∧ u16_ok msg_id ∧ str_ok topic_name
  | RegAck topic_id msg_id _ | PubAck topic_id msg_id _ => u16_ok topic_id ∧ u16_ok msg_id
  | Publish flags topic_id msg_id data => flags_ok flags ∧ u16_ok topic_id ∧ u16_ok msg_id
  | Subscribe flags msg_id topic | Unsubscribe flags msg_id topic => flags_ok flags ∧ u16_ok msg_id ∧ topic_ok flags topic
  | SubAck flags topic_id msg_id _ => flags_ok flags ∧ u16_ok topic_id ∧ u16_ok msg_id
  | UnsubAck msg_id => u16_ok msg_id
  | PingReq client_id => (vec_slice <$> client_id) ≠ Some []
  | Disconnect duration => match duration with Some d => u16_ok d | None => True end
  | WillTopic flags will_topic => flags_ok flags ∧ str_ok will_topic
  end.

(** Equality as Rust compares: vectors and strings by their contents. *)
Definition topic_eq (t t' : SubscribeTopic) : Prop :=
  match t, t' with
  | Name n, Name n' => str_bytes n = str_bytes n'
  | Id i, Id i' => i = i'
  | ShortName a b, ShortName a' b' => a = a' ∧ b = b'
  | _, _ => False
  end.

Definition message_eq (m m' : MqttsnMessage) : Prop :=
  match m, m' with
  | GwInfo g a, GwInfo g' a' => g = g' ∧ vec_slice <$> a = vec_slice <$> a'
  | Connect f p d c, Connect f' p' d' c' => f = f' ∧ p = p' ∧ d = d' ∧ vec_slice c = vec_slice c'
  | Register t i n, Register t' i' n' => t = t' ∧ i = i' ∧ str_bytes n = str_bytes n'
  | Publish f t i d, Publish f' t' i' d' => f = f' ∧ t = t' ∧ i = i' ∧ vec_slice d = vec_slice d'
  | Subscribe f i t, Subscribe f' i' t' => f = f' ∧ i = i' ∧ topic_eq t t'
  | Unsubscribe f i t, Unsubscribe f' i' t' => f = f' ∧ i = i' ∧ topic_eq t t'
  | PingReq c, PingReq c' => vec_slice <$> c = vec_slice <$> c'
  | WillTopic f t, WillTopic f' t' => f = f' ∧ str_bytes t = str_bytes t'
  | WillMsg d, WillMsg d' => vec_slice d = vec_slice d'
  | _, _ => m = m'
  end.

(** ** Encoding *)

Lemma be_length x : zlen (be x) = 2.
Proof. done. Qed.

Lemma vec_length {A N} (v : Vec A N) : 0 <= N → zlen (vec_slice v) <= N.
Proof. apply vec_capacity. Qed.

Lemma fields_length m : message_ok m → zlen (flat (fields m)) <= 197.
Proof.
  intros Hm. unfold flat, MAX_CLIENT_ID_LENGTH, MAX_TOPIC_NAME_LENGTH in *.
  destruct m as [|?|g a|f p d c|?|t i n|?|f t i d|?|f i t|?|f i t|?|c| |d|f t|w]; simpl in *;
    rewrite ?app_nil_r; try lia.
  - destruct a as [a|]; simpl; rewrite ?app_nil_r; [pose proof (vec_length a)|]; lia.
  - pose proof (vec_length c). unfold MAX_CLIENT_ID_LENGTH in *. lia.
  - destruct Hm as (_ & _ & _ & Hn). unfold MAX_TOPIC_NAME_LENGTH in *. lia.
  - pose proof (vec_length d). lia.
  - destruct t as [n| |]; simpl in *; rewrite ?app_nil_r; [|lia..]. destruct Hm as (_ & _ & (_ & Hn) & _). unfold MAX_TOPIC_NAME_LENGTH in *. lia.
  - destruct t as [n| |]; simpl in *; rewrite ?app_nil_r; [|lia..]. destruct Hm as (_ & _ & (_ & Hn) & _). unfold MAX_TOPIC_NAME_LENGTH in *. lia.
  - destruct c as [c|]; simpl; rewrite ?app_nil_r; [pose proof (vec_length c)|]; unfold MAX_CLIENT_ID_LENGTH in *; lia.
  - destruct d; simpl; lia.
  - destruct Hm as (_ & _ & Hn). unfold MAX_TOPIC_NAME_LENGTH in *. lia.
  - pose proof (vec_length w). lia.
Qed.

Lemma encode_wire m : message_ok m → ∃ b, encode m = Ret (Ok b) ∧ vec_slice b = wire m.
Proof.
  intros Hm. pose proof (fields_length m Hm) as Hl. unfold encode.
  destruct (put_fits [Push 0; Push (MessageType.to_u8 (message_type m))] vec_new) as (b1 & -> & Hb1).
  { unfold vlen. rewrite slice_new. done. }
  rewrite slice_new in Hb1. cbn [rbind obind].
  destruct (put_fits (fields m) b1) as (b2 & -> & Hb2); [unfold vlen; rewrite Hb1; simpl; unfold MAX_MESSAGE_LENGTH; lia|].
  cbn [rbind obind]. assert (vlen b2 = 2 + zlen (flat (fields m))) as Hv by (unfold vlen; rewrite Hb2, Hb1, !length_app; simpl; lia).
  rewrite Hv, (proj2 (Z.ltb_ge _ _)) by lia. rewrite arr_set_ok by (fold (vlen b2); lia). cbn [obind].
  rewrite as_u8_small by lia. eexists. split; [done|]. rewrite slice_write by by rewrite length_insert. by rewrite Hb2, Hb1.
Qed.

(** ** Decoding *)

Lemma from_be_be x : u16_ok x → from_be (as_u8 (Z.shiftr x 8)) (as_u8 x) = x.
Proof.
  intros Hx. unfold from_be. rewrite be16 by apply as_u8_range. destruct (be16_split x Hx) as [-> ->]. Z.div_mod_to_equations. lia.
Qed.

Lemma read_vec_ok {N} e payload n :
  0 <= n <= zlen payload → zlen (drop (Z.to_nat n) payload) <= N →
  ∃ v : Vec Z N, read_vec e payload n = Ret (Ok v) ∧ vec_slice v = drop (Z.to_nat n) payload.
Proof.
  intros Hn Hl. unfold read_vec. rewrite slice_tail by done. cbn [obind].
  destruct (extend_fits (vec_new : Vec Z N) (drop (Z.to_nat n) payload)) as (v & -> & Hv).
  { unfold vlen. by rewrite slice_new. }
  exists v. by rewrite Hv, slice_new.
Qed.

Lemma read_str_ok {N} payload n :
  0 <= n <= zlen payload → zlen (drop (Z.to_nat n) payload) <= N → utf8_valid (drop (Z.to_nat n) payload) = true →
  ∃ s : Str N, read_str payload n = Ret (Ok s) ∧ str_bytes s = drop (Z.to_nat n) payload.
Proof.
  intros Hn Hl Hu. unfold read_str. rewrite slice_tail by done. cbn [obind]. rewrite Hu.
  destruct (str_push_fits (str_new : Str N) (drop (Z.to_nat n) payload)) as (v & -> & Hv).
  { by rewrite bytes_new. }
  exists v. by rewrite Hv, bytes_new.
Qed.

Lemma decode_header m : decode (wire m) = decode_fields (message_type m) (flat (fields m)).
Proof.
  unfold decode, wire. ltb_false. change (arr_get (?a :: ?b :: ?l) 0) with (Ret a). cbn [obind].
  assert ((2 + zlen (flat (fields m)) =? zlen (2 + zlen (flat (fields m)) :: MessageType.to_u8 (message_type m) :: flat (fields m))) = true) as ->
    by (apply Z.eqb_eq; cbn [length]; lia).
  cbn [negb]. change (arr_get (?a :: ?b :: ?l) 1) with (Ret b). cbn [obind].
  assert (MessageType.from_u8 (MessageType.to_u8 (message_type m)) = Ok (message_type m)) as -> by by destruct (message_type m).
  cbn [rbind obind]. rewrite slice_tail by (cbn [length]; lia). done.
Qed.

Lemma read_topic_ok f t payload b m1 m2 :
  topic_ok f t → payload = b :: m1 :: m2 :: flat (topic_pieces t) →
  ∃ t', read_topic payload (topic_id_type f) = Ret (Ok t') ∧ topic_eq t' t.
Proof.
  intros Ht ->. destruct t as [n|i|b0 b1]; simpl in Ht; unfold flat; simpl.
  - destruct Ht as [[Hu Hl] ->]. rewrite app_nil_r.
    destruct (read_str_ok (N:=MAX_TOPIC_NAME_LENGTH) (b :: m1 :: m2 :: str_bytes n) 3) as (s & Es & Hs); [cbn [length]; lia|done|done|].
    cbn [read_topic]. rewrite Es. by exists (Name s).
  - destruct Ht as [Hi ->]. cbn [read_topic]. ltb_false. eexists. split; [done|]. simpl. by apply from_be_be.
  - destruct Ht as (_ & _ & ->). cbn [read_topic]. ltb_false. eexists. split; done.
Qed.

(** *** Reading from the front *)

Lemma get0 {A} (a : A) l : arr_get (a :: l) 0 = Ret a.
Proof. done. Qed.
Lemma get1 {A} (a b : A) l : arr_get (a :: b :: l) 1 = Ret b.
Proof. done. Qed.
Lemma get4 {A} (a b c d e : A) l : arr_get (a :: b :: c :: d :: e :: l) 4 = Ret e.
Proof. done. Qed.
Lemma get5 {A} (a b c d e f : A) l : arr_get (a :: b :: c :: d :: e :: f :: l) 5 = Ret f.
Proof. done. Qed.
Lemma be0 hi lo l : read_be (hi :: lo :: l) 0 = Ret (from_be hi lo).
Proof. done. Qed.
Lemma be1 a hi lo l : read_be (a :: hi :: lo :: l) 1 = Ret (from_be hi lo).
Proof. done. Qed.
Lemma be2 a b hi lo l : read_be (a :: b :: hi :: lo :: l) 2 = Ret (from_be hi lo).
Proof. done. Qed.
Lemma be3 a b c hi lo l : read_be (a :: b :: c :: hi :: lo :: l) 3 = Ret (from_be hi lo).
Proof. done. Qed.

Lemma flags_back f : flags_ok f → Flags.decode (Flags.encode f) = Ok f.
Proof. apply flags_read_back. Qed.
Lemma code_back c : ReturnCode.from_u8 (ReturnCode.to_u8 c) = Ok c.
Proof. by destruct c. Qed.

#[local] Hint Rewrite @get0 @get1 @get4 @get5 be0 be1 be2 be3 code_back app_nil_r : mqtt.
#[local] Hint Rewrite flags_back from_be_be using done : mqtt.

(** The fields in a row, and the reads of the decoder from them. *)
Ltac fields := cbn [message_type decode_fields fields flat piece_bytes fmap list_fmap concat app topic_pieces be is_empty negb].
Ltac reads := repeat (progress (autorewrite with mqtt; cbn [obind rbind]; try ltb_false)).
Ltac found := eexists; split; [reflexivity|]; simpl; autorewrite with mqtt.

(** The messages with nothing behind their fixed fields. *)
Lemma decode_fixed m :
  message_ok m →
  match m with
  | Advertise _ _ | SearchGw _ | ConnAck _ | RegAck _ _ _ | PubAck _ _ _ | SubAck _ _ _ _ | UnsubAck _ | PingResp | Disconnect _ =>
    ∃ m', decode_fields (message_type m) (flat (fields m)) = Ret (Ok m') ∧ message_eq m' m
  | _ => True
  end.
Proof.
  destruct m; simpl message_ok; intros Hm; try done; destruct_and?; unfold flat.
  all: try (fields; reads; found; done).
  destruct duration as [d|]; fields; found; done.
Qed.

(** Those that end in bytes. *)
Lemma decode_bytes m :
  message_ok m →
  match m with
  | GwInfo _ _ | Connect _ _ _ _ | Publish _ _ _ _ | PingReq _ | WillMsg _ =>
    ∃ m', decode_fields (message_type m) (flat (fields m)) = Ret (Ok m') ∧ message_eq m' m
  | _ => True
  end.
Proof.
  destruct m as [| |g a|f p d c| | | |f t i d| | | | | |c| | | |w]; simpl message_ok; intros Hm; try done; destruct_and?; unfold flat; fields.
  - destruct a as [a|]; fields; reads; [|found; done].
    assert (vec_slice a ≠ []) as Hne by (simpl in *; congruence).
    rewrite (proj2 (Z.ltb_lt _ _)) by (cbn [length]; destruct (vec_slice a); [done|simpl; lia]).
    destruct (read_vec_ok (N:=16) BufferTooSmall (g :: vec_slice a) 1) as (v & -> & Hv); [cbn [length]; lia|by apply vec_capacity|].
    cbn [rbind obind]. found. by rewrite Hv.
  - destruct (read_vec_ok (N:=MAX_CLIENT_ID_LENGTH) ClientIdTooLong (Flags.encode f :: p :: as_u8 (Z.shiftr d 8) :: as_u8 d :: vec_slice c) 4)
      as (v & E & Hv); [cbn [length]; lia|by apply vec_capacity|].
    reads. rewrite E. cbn [rbind obind]. found. by rewrite Hv.
  - destruct (read_vec_ok (N:=192) PayloadTooLarge (Flags.encode f :: as_u8 (Z.shiftr t 8) :: as_u8 t :: as_u8 (Z.shiftr i 8) :: as_u8 i :: vec_slice d) 5)
      as (v & E & Hv); [cbn [length]; lia|by apply vec_capacity|].
    reads. rewrite E. cbn [rbind obind]. found. by rewrite Hv.
  - destruct c as [c|]; fields; [|found; done]. autorewrite with mqtt.
    assert (is_empty (vec_slice c) = false) as -> by (destruct (vec_slice c) eqn:E; [simpl in Hm; congruence|done]). cbn [negb].
    destruct (read_vec_ok (N:=MAX_CLIENT_ID_LENGTH) ClientIdTooLong (vec_slice c) 0) as (v & -> & Hv); [lia|by apply vec_capacity|].
    cbn [rbind obind]. found. by rewrite Hv.
  - autorewrite with mqtt. destruct (read_vec_ok (N:=192) PayloadTooLarge (vec_slice w) 0) as (v & -> & Hv); [lia|by apply vec_capacity|].
    cbn [rbind obind]. found. by rewrite Hv.
Qed.

(** Those that end in a topic. *)
Lemma decode_topics m :
  message_ok m →
  match m with
  | Register _ _ _ | Subscribe _ _ _ | Unsubscribe _ _ _ | WillTopic _ _ =>
    ∃ m', decode_fields (message_type m) (flat (fields m)) = Ret (Ok m') ∧ message_eq m' m
  | _ => True
  end.
Proof.
  destruct m as [| | | | |t i n| | | |f i t| |f i t| | | | |f t|]; simpl message_ok; intros Hm; try done.
  - destruct Hm as (? & ? & Hu & Hl). unfold flat; fields.
    destruct (read_str_ok (N:=MAX_TOPIC_NAME_LENGTH) (as_u8 (Z.shiftr t 8) :: as_u8 t :: as_u8 (Z.shiftr i 8) :: as_u8 i :: str_bytes n) 4)
      as (v & E & Hv); [cbn [length]; lia|done|done|].
    reads. rewrite E. cbn [rbind obind]. found. by rewrite Hv.
  - destruct Hm as (? & ? & Ht).
    destruct (read_topic_ok f t _ (Flags.encode f) (as_u8 (Z.shiftr i 8)) (as_u8 i) Ht eq_refl) as (t' & E & Et).
    unfold flat in *; fields. reads. rewrite E. cbn [rbind obind]. found. done.
  - destruct Hm as (? & ? & Ht).
    destruct (read_topic_ok f t _ (Flags.encode f) (as_u8 (Z.shiftr i 8)) (as_u8 i) Ht eq_refl) as (t' & E & Et).
    unfold flat in *; fields. reads. rewrite E. cbn [rbind obind]. found. done.
  - destruct Hm as (? & Hu & Hl). unfold flat; fields.
    destruct (read_str_ok (N:=MAX_TOPIC_NAME_LENGTH) (Flags.encode f :: str_bytes t) 1) as (v & E & Hv); [cbn [length]; lia|done|done|].
    reads. rewrite E. cbn [rbind obind]. found. by rewrite Hv.
Qed.

Lemma mqttsn_decode_wire m : message_ok m → ∃ m', decode (wire m) = Ret (Ok m') ∧ message_eq m' m.
Proof.
  intros Hm. rewrite decode_header. pose proof (decode_fixed m Hm). pose proof (decode_bytes m Hm). pose proof (decode_topics m Hm).
  by destruct m.
Qed.

(** C9. Every message in the following range is encoded into at most 255 bytes,
    and the bytes are decoded to the same message: its numbers fit their fields, its
    strings are UTF-8, its topic is of the kind its flags say, a gateway address or a
    client id of a ping that is present is not empty (an empty one is decoded as
    absent), and its flags have the clean-session bit set exactly when the topic type
    is the short one. Other flags do not survive even their own encoding
    ([flags_read_back]), because the short type and the clean session share a bit: a
    [Connect] with a clean session and the normal topic type is not covered. *)
Theorem mqttsn_roundtrip m :
  message_ok m →
  ∃ b, encode m = Ret (Ok b) ∧ vlen b <= 255 ∧ ∃ m', decode (vec_slice b) = Ret (Ok m') ∧ message_eq m' m.
Proof.
  intros Hm. destruct (encode_wire m Hm) as (b & Eb & Hb). exists b. unfold vlen. rewrite Hb. split_and!; [done| |by apply mqttsn_decode_wire].
  pose proof (fields_length m Hm). unfold wire. cbn [length]. lia.
Qed.

(** ** Any bytes *)

(** Flags that were read are consistent. *)
Lemma flags_decode_ok b f : is_byte b → Flags.decode b = Ok f → flags_ok f.
Proof.
  intros Hb E. assert (∃ n, b = Z.of_nat n ∧ (n < 256)%nat) as (n & -> & Hn) by (exists (Z.to_nat b); unfold is_byte in Hb; lia).
  set (good := λ n, match Flags.decode (Z.of_nat n) with Ok f => bool_decide (flags_ok f) | Err _ => true end).
  assert (forallb good (seq 0 256) = true) as Hall by (vm_compute; reflexivity).
  rewrite forallb_forall in Hall. specialize (Hall n). unfold good in Hall. rewrite E in Hall.
  apply (bool_decide_eq_true_1 (flags_ok f)), Hall, in_seq. lia.
Qed.

Lemma from_be_ok hi lo : is_byte hi → is_byte lo → u16_ok (from_be hi lo).
Proof. intros. unfold from_be, u16_ok. rewrite be16 by done. unfold is_byte in *. lia. Qed.

Lemma read_vec_ends {N} e payload n Q :
  0 <= n <= zlen payload → (∀ e, Q (Err e)) → (∀ v : Vec Z N, vec_slice v = drop (Z.to_nat n) payload → Q (Ok v)) →
  ends False (read_vec e payload n) Q.
Proof.
  intros Hn He Hv. unfold read_vec. rewrite slice_tail by done. cbn [obind]. unfold ok_or.
  pose proof (extend_law (vec_new : Vec Z N) (drop (Z.to_nat n) payload)) as E. destruct (vec_extend _ _) as [v|]; [|apply He].
  apply Hv. destruct E as [_ ->]. by rewrite slice_new.
Qed.

Lemma read_str_ends {N} payload n Q :
  0 <= n <= zlen payload → (∀ e, Q (Err e)) → (∀ s : Str N, str_ok s → Q (Ok s)) → ends False (read_str payload n) Q.
Proof.
  intros Hn He Hv. unfold read_str. rewrite slice_tail by done. cbn [obind]. destruct (utf8_valid _) eqn:Hu; [|apply He]. unfold ok_or.
  pose proof (str_push_law (str_new : Str N) (drop (Z.to_nat n) payload)) as E. destruct (str_push _ _) as [v|]; [|apply He].
  apply Hv. rewrite bytes_new in E. destruct E as [Hl Eb]. unfold str_ok. rewrite Eb. done.
Qed.

Lemma read_topic_ends payload f Q :
  Forall is_byte payload → 3 <= zlen payload → (∀ e, Q (Err e)) → (∀ t, topic_ok f t → Q (Ok t)) →
  ends False (read_topic payload (topic_id_type f)) Q.
Proof.
  intros Hb Hl He Ht. unfold read_topic. destruct (topic_id_type f) eqn:Ef.
  - apply ends_rbind, read_str_ends; [lia|done|]. intros s Hs. by apply Ht.
  - destruct (Z.ltb_spec (zlen payload) 5); [apply He|]. destruct payload as [|a [|b [|c [|d [|e l]]]]]; simpl in *; try lia.
    apply Ht. decompose_Forall_hyps. split; [by apply from_be_ok|done].
  - destruct (Z.ltb_spec (zlen payload) 5); [apply He|]. destruct payload as [|a [|b [|c [|d [|e l]]]]]; simpl in *; try lia.
    apply Ht. decompose_Forall_hyps. done.
Qed.

Definition accepted_ok (r : result MqttsnMessage MqttsnError) : Prop :=
  match r with Ok m => message_ok m | Err _ => True end.

Lemma decode_fields_ends t payload : Forall is_byte payload → ends False (decode_fields t payload) accepted_ok.
Proof.
  intros Hb. assert (∀ (e : MqttsnError) , accepted_ok (Err e)) as He by done.
  assert (∀ (p q r s u : Z) l n, n <= 5 → (zlen (p :: q :: r :: s :: u :: l) <? n) = false) as H5 by (intros; apply Z.ltb_ge; cbn [length]; lia).
  destruct t; cbn [decode_fields]; try done.
  - destruct payload as [|a [|b [|c l]]]; try done. ltb_false. reads. decompose_Forall_hyps. split; [done|]. by apply from_be_ok.
  - destruct payload as [|a l]; [done|]. by decompose_Forall_hyps.
  - destruct payload as [|a l]; [done|]. cbn [is_empty]. reads. decompose_Forall_hyps. apply ends_rbind.
    destruct (Z.ltb_spec 1 (Z.of_nat (S (length l)))) as [Hl|]; [|simpl; split; [done|congruence]].
    apply ends_rbind, read_vec_ends; [cbn [length]; lia|done|]. intros v Hv. split; [done|]. cbn [fmap option_fmap option_map]. rewrite Hv. simpl.
    rewrite drop_0. intros [= ->]. simpl in Hl. lia.
  - destruct payload as [|a [|b [|c [|d l]]]]; try done. ltb_false. reads. decompose_Forall_hyps.
    destruct (Flags.decode a) as [f|] eqn:Hf; [|done]. apply flags_decode_ok in Hf; [|done]. reads.
    apply ends_rbind, read_vec_ends; [cbn [length]; lia|done|]. intros v _. simpl. split_and!; [done|done|by apply from_be_ok].
  - destruct payload as [|a l]; [done|]. cbn [is_empty]. reads. by destruct (ReturnCode.from_u8 a).
  - destruct payload as [|a l]; [done|]. cbn [is_empty]. reads. decompose_Forall_hyps.
    destruct (Flags.decode a) as [f|] eqn:Hf; [|done]. apply flags_decode_ok in Hf; [|done].
    apply ends_rbind, read_str_ends; [cbn [length]; lia|done|]. intros s Hs. done.
  - apply ends_rbind, read_vec_ends; [lia|done|]. done.
  - destruct payload as [|a [|b [|c [|d l]]]]; try done. ltb_false. reads. decompose_Forall_hyps.
    apply ends_rbind, read_str_ends; [cbn [length]; lia|done|]. intros s Hs. simpl. split_and!; [by apply from_be_ok..|done].
  - destruct payload as [|a [|b [|c [|d [|e l]]]]]; try done. rewrite H5 by lia. reads. decompose_Forall_hyps.
    destruct (ReturnCode.from_u8 e); simpl; [|done]. split; by apply from_be_ok.
  - destruct payload as [|a [|b [|c [|d [|e l]]]]]; try done. rewrite H5 by lia. reads. decompose_Forall_hyps.
    destruct (Flags.decode a) as [f|] eqn:Hf; [|done]. apply flags_decode_ok in Hf; [|done]. reads.
    apply ends_rbind, read_vec_ends; [cbn [length]; lia|done|]. intros v _. simpl. split_and!; [done|by apply from_be_ok..].
  - destruct payload as [|a [|b [|c [|d [|e l]]]]]; try done. rewrite H5 by lia. reads. decompose_Forall_hyps.
    destruct (ReturnCode.from_u8 e); simpl; [|done]. split; by apply from_be_ok.
  - destruct payload as [|a [|b [|c l]]]; try done. ltb_false. reads. decompose_Forall_hyps.
    destruct (Flags.decode a) as [f|] eqn:Hf; [|done]. apply flags_decode_ok in Hf; [|done]. reads.
    apply ends_rbind, read_topic_ends; [by repeat (apply Forall_cons_2; [done|])|cbn [length]; lia|done|]. intros t Ht. simpl. split_and!; [done|by apply from_be_ok|done].
  - destruct payload as [|a [|b [|c [|d [|e [|g l]]]]]]; try done. ltb_false. reads. decompose_Forall_hyps.
    destruct (Flags.decode a) as [f|] eqn:Hf; [|done]. apply flags_decode_ok in Hf; [|done]. reads.
    destruct (ReturnCode.from_u8 g); simpl; [|done]. split_and!; [done|by apply from_be_ok..].
  - destruct payload as [|a [|b [|c l]]]; try done. ltb_false. reads. decompose_Forall_hyps.
    destruct (Flags.decode a) as [f|] eqn:Hf; [|done]. apply flags_decode_ok in Hf; [|done]. reads.
    apply ends_rbind, read_topic_ends; [by repeat (apply Forall_cons_2; [done|])|cbn [length]; lia|done|]. intros t Ht. simpl. split_and!; [done|by apply from_be_ok|done].
  - destruct payload as [|a [|b l]]; try done. ltb_false. reads. decompose_Forall_hyps. by apply from_be_ok.
  - destruct (is_empty payload) eqn:Ee; cbn [negb]; [done|]. apply ends_rbind.
    apply ends_rbind, read_vec_ends; [lia|done|]. intros v Hv. change ((vec_slice <$> Some v) ≠ Some []). cbn [fmap option_fmap option_map]. rewrite Hv, drop_0. intros [= ->]. done.
  - destruct payload as [|a [|b l]]; try done. rewrite (proj2 (Z.leb_le _ _)) by (cbn [length]; lia). reads. decompose_Forall_hyps. by apply from_be_ok.
Qed.

(** C38. The decoder returns on any bytes, and what it accepts is a message whose
    fields are in range: flags and topic agree, strings are UTF-8 and fit, numbers
    have 16 bits. *)
Theorem mqttsn_decode_safe bytes :
  Forall is_byte bytes →
  returns (decode bytes) (λ r, match r with Ok m => message_ok m | Err _ => True end).
Proof.
  intros Hb. assert (ends False (decode bytes) accepted_ok) as Hd; [|by destruct (decode bytes)].
  unfold decode. destruct bytes as [|a [|b l]]; try done. ltb_false. reads. destruct (a =? _); cbn [negb]; [|done].
  destruct (MessageType.from_u8 b) as [t|]; cbn [rbind obind]; [|done]. rewrite slice_tail by (cbn [length]; lia). cbn [obind].
  apply decode_fields_ends. by decompose_Forall_hyps.
Qed.

(** ** The client *)

Definition publish_flags (q : QoS) (r : bool) : Flags := mkFlags false q r false false Normal.

(** What a connected client publishes arrives: the message is encoded, and
    decoded at the other end as a publication of the data on the topic, with the
    quality of service and the next message identifier, or 0 where none is needed. *)
Theorem publish_delivers client topic data q r :
  connected client = true → u16_ok topic → u16_ok (Mqttsn.msg_id client) → zlen data <= 192 →
  let mid := if decide (q = Level0) then 0 else Mqttsn.msg_id client in
  ∃ b client' payload, MqttsnClient.publish client topic data q r = Ret (Ok b, client') ∧
    decode (vec_slice b) = Ret (Ok (Publish (publish_flags q r) topic mid payload)) ∧ vec_slice payload = data ∧
    Mqttsn.msg_id client' = (if decide (q = Level0) then Mqttsn.msg_id client else as_u16 (Mqttsn.msg_id client + 1)) ∧
    connected client' = true.
Proof.
  intros Hc Ht Hi Hd. cbv zeta. unfold MqttsnClient.publish. rewrite Hc. cbn [negb].
  destruct (extend_fits (vec_new : Vec Z 192) data) as (p & Ep & Hp); [unfold vlen; rewrite slice_new; simpl; lia|].
  rewrite slice_new, app_nil_l in Hp.
  set (mid := if decide (q = Level0) then 0 else Mqttsn.msg_id client).
  assert (message_ok (Publish (publish_flags q r) topic mid p)) as Hm.
  { split_and!; [done|done|]. unfold mid, u16_ok in *. case_decide; lia. }
  destruct (encode_wire _ Hm) as (b & Eb & Hb). destruct (mqttsn_decode_wire _ Hm) as (m' & Ed & Em). rewrite <-Hb in Ed.
  destruct m' as [| | | | | | |f' t' i' d'| | | | | | | | | |]; try done. simpl in Em. destruct Em as (-> & -> & -> & Ed').
  exists b. unfold mid in *. destruct (decide (q = Level0)) as [->|]; cbn [MqttsnClient.next_msg_id]; rewrite Ep;
    change (mkFlags (dup Flags.new) ?q r (will Flags.new) (clean_session Flags.new) Normal) with (publish_flags q r); rewrite Eb; cbn [obind];
    do 2 eexists; (split; [done|]); (split; [exact Ed|]); simpl; by rewrite Ed'.
Qed.
End mqttsn.

(** ** On vectors that are lists *)

#[local] Existing Instance Lists.heapless.
#[local] Existing Instance Lists.heapless_laws.

Definition topic_name : Str MAX_TOPIC_NAME_LENGTH := [116; 47; 195; 169].

Lemma mqttsn_roundtrip_witness :
  ∃ b, encode (Register 0 258 topic_name) = Ret (Ok b) ∧ vec_slice b = [10; 10; 0; 0; 1; 2; 116; 47; 195; 169] ∧
  ∃ m', decode (vec_slice b) = Ret (Ok m') ∧ message_eq m' (Register 0 258 topic_name).
Proof.
  assert (message_ok (Register 0 258 topic_name)) as Hm by (repeat split; vm_compute; done).
  destruct (mqttsn_roundtrip _ Hm) as (b & Eb & _ & Hd). exists b. split_and!; [done| |done].
  vm_compute in Eb. injection Eb as <-. reflexivity.
Defined.

Lemma mqttsn_decode_safe_witness : returns (decode [5; 24; 0; 9; 7]) (λ r, r = Ok (Disconnect (Some 9))) ∧ returns (decode [5; 24; 0; 9; 7]) (λ _, True).
Proof.
  split; [vm_compute; done|]. eapply returns_mono; [apply mqttsn_decode_safe|done].
  repeat (apply Forall_cons_2; [unfold is_byte; lia|]). constructor.
Defined.

Definition sample_client : MqttsnClient := mkClient vec_new 65535 vec_new true.

Lemma publish_delivers_witness :
  ∃ b client' payload, MqttsnClient.publish sample_client 7 [1; 2; 3] Level1 true = Ret (Ok b, client') ∧
    decode (vec_slice b) = Ret (Ok (Publish (publish_flags Level1 true) 7 65535 payload)) ∧ vec_slice payload = [1; 2; 3] ∧
    Mqttsn.msg_id client' = 0.
Proof.
  destruct (publish_delivers sample_client 7 [1; 2; 3] Level1 true) as (b & c' & p & E & Ed & Hp & Hi & _); try done.
  exists b, c', p. done.
Defined.

(** ** Where the code departs from the protocol *)

(** The connect message of a client that asks for a clean session carries flags
    that say short topic name. *)
Lemma connect_clean_session_garbled :
  match MqttsnClient.connect sample_client 60 true with
  | Ret (Ok b) =>
    match decode (vec_slice b) with Ret (Ok (Connect f _ _ _)) => topic_id_type f = Short | _ => False end
  | _ => False
  end.
Proof. vm_compute. reflexivity. Qed.

(** [register_topic] returns the identifier of its message, not of the topic, when
    the topic is new, and the identifier of the topic when it is not. *)
Lemma register_topic_returns_msg_id :
  match MqttsnClient.register_topic sample_client [116] with
  | Ret (Ok (_, n), client') =>
    n = 65535 ∧
    match MqttsnClient.add_topic client' [116] 42 with
    | (_, client'') => match MqttsnClient.register_topic client'' [116] with Ret (Ok (_, n'), _) => n' = 42 | _ => False end
    end
  | _ => False
  end.
Proof. vm_compute. done. Qed.
