(* ===== verification/Quorum.v ===== *)
(** * Quorum voting (mielin-cells/src/ha/quorum.rs)

    A proposal, the votes on it and the decision.  The two locks of a voter are the
    fields [votes] and [decision]; a call is the sequence of its critical sections,
    so that calls of several threads interleave ([vote_step]), and [cast_vote] is
    the call that nobody interrupts.  A lock is poisoned only by a panic under it,
    which the model does not continue after.  What the clock shows and the order in
    which a hash map lists its values are arguments. *)

From stdpp Require Import base tactics option list numbers gmap strings.
From Stdlib Require Import SpecFloat.
From S2P Require Import Prelude Float.

(* src: mielin-cells/src/ha/quorum.rs 11-11 NodeId *)
Definition NodeId : Type := string.

(* src: mielin-cells/src/ha/quorum.rs 14-25 QuorumError *)
Inductive QuorumError : Type :=
| QuorumNotReached (current required : Z)
| VoteTimeout
| InvalidVote (why : string)
| AlreadyVoted
| AlreadyDecided.

(* src: mielin-cells/src/ha/quorum.rs 31-42 QuorumPolicy *)
Inductive QuorumPolicy : Type :=
| SimpleMajority
| SuperMajority
| Unanimous
| Custom (threshold : spec_float)
| Weighted (threshold : spec_float).

Module QuorumPolicy.

(* src: mielin-cells/src/ha/quorum.rs 46-58 QuorumPolicy::required_votes *)
Definition required_votes (self : QuorumPolicy) (total_nodes : Z) : outcome Z :=
  match self with
  | SimpleMajority => usize_add (total_nodes / 2) 1
  | SuperMajority => let! d := usize_mul total_nodes 2 in usize_add (d / 3) 1
  | Unanimous => Ret total_nodes
  | Custom threshold | Weighted threshold =>
    Ret (Z.max (f64_ceil_usize (f64_mul threshold (f64_of_u64 total_nodes))) 1)
  end.

End QuorumPolicy.

(* src: mielin-cells/src/ha/quorum.rs 63-70 QuorumConfig *)
Record QuorumConfig : Type := mkConfig {
  policy : QuorumPolicy;
  vote_timeout : Z;
  min_participants : Z;
}.

(* src: mielin-cells/src/ha/quorum.rs 73-79 QuorumConfig::default *)
Definition default_config : QuorumConfig := mkConfig SimpleMajority 30000 2.

(* src: mielin-cells/src/ha/quorum.rs 84-93 QuorumVote *)
Record QuorumVote : Type := mkVote {
  node_id : NodeId;
  vote : bool;
  weight : spec_float;
  timestamp : Z;
}.

(* src: mielin-cells/src/ha/quorum.rs 97-110 QuorumDecision *)
Record QuorumDecision : Type := mkDecision {
  passed : bool;
  total_votes : Z;
  yes_votes : Z;
  no_votes : Z;
  required : Z;
  decided_at : Z;
}.

(* src: mielin-cells/src/ha/quorum.rs 113-124 QuorumVoter *)
Record QuorumVoter : Type := mkVoter {
  config : QuorumConfig;
  total_nodes : Z;
  votes : gmap NodeId QuorumVote;
  decision : option QuorumDecision;
  start_time : Z;
}.

Definition set_votes (v : gmap NodeId QuorumVote) (self : QuorumVoter) : QuorumVoter :=
  mkVoter (config self) (total_nodes self) v (decision self) (start_time self).
Definition set_decision (d : option QuorumDecision) (self : QuorumVoter) : QuorumVoter :=
  mkVoter (config self) (total_nodes self) (votes self) d (start_time self).

Module QuorumVoter.

(* src: mielin-cells/src/ha/quorum.rs 128-136 QuorumVoter::new *)
Definition new (config : QuorumConfig) (total_nodes now : Z) : QuorumVoter :=
  mkVoter config total_nodes ∅ None now.

(* src: mielin-cells/src/ha/quorum.rs 261-263 QuorumVoter::required_votes *)
Definition required_votes (self : QuorumVoter) : outcome Z :=
  QuorumPolicy.required_votes (policy (config self)) (total_nodes self).

Section voter.
Context (iter : gmap NodeId QuorumVote → list QuorumVote).

(** The yes and no votes: heads, or whole parts of the weights. *)
(* src: mielin-cells/src/ha/quorum.rs 183-194 QuorumVoter::check_quorum (tally) *)
Definition tally (self : QuorumVoter) : Z * Z :=
  let yes := base.filter (λ v, vote v = true) (iter (votes self)) in
  let no := base.filter (λ v, vote v = false) (iter (votes self)) in
  match policy (config self) with
  | Weighted _ => (f64_as_usize (f64_sum (weight <$> yes)), f64_as_usize (f64_sum (weight <$> no)))
  | _ => (Z.of_nat (length yes), Z.of_nat (length no))
  end.

(** The votes stay locked for reading until the decision is written. *)
(* src: mielin-cells/src/ha/quorum.rs 170-218 QuorumVoter::check_quorum *)
Definition check_quorum (now : Z) (self : QuorumVoter) : outcome QuorumVoter :=
  let! required_votes := required_votes self in
  let total_votes := Z.of_nat (size (votes self)) in
  if total_votes <? min_participants (config self) then Ret self else
  let '(yes_votes, no_votes) := tally self in
  let passed := required_votes <=? yes_votes in
  let! rest := usize_sub (total_nodes self) required_votes in
  let failed := rest <? no_votes in
  if passed || failed || (total_votes =? total_nodes self) then
    Ret (set_decision (Some (mkDecision passed total_votes yes_votes no_votes required_votes now)) self)
  else Ret self.

(** The critical sections of a call of [cast_vote]. *)
Inductive vote_pc : Type :=
| ReadDecision (v : QuorumVote)
| InsertVote (v : QuorumVote)
| CheckQuorum
| Voted (r : result unit QuorumError).

(* src: mielin-cells/src/ha/quorum.rs 139-167 QuorumVoter::cast_vote *)
Definition vote_step (now : Z) (pc : vote_pc) (self : QuorumVoter) : outcome (vote_pc * QuorumVoter) :=
  match pc with
  | ReadDecision v =>
    match decision self with
    | Some _ => Ret (Voted (Err AlreadyDecided), self)
    | None => Ret (InsertVote v, self)
    end
  | InsertVote v =>
    match votes self !! node_id v with
    | Some _ => Ret (Voted (Err AlreadyVoted), self)
    | None => Ret (CheckQuorum, set_votes (<[node_id v := v]> (votes self)) self)
    end
  | CheckQuorum => let! self := check_quorum now self in Ret (Voted (Ok tt), self)
  | Voted r => Ret (Voted r, self)
  end.

(** The call without interruption. *)
Definition cast_vote (now : Z) (v : QuorumVote) (self : QuorumVoter)
    : outcome (result unit QuorumError * QuorumVoter) :=
  let! (pc1, s1) := vote_step now (ReadDecision v) self in
  let! (pc2, s2) := vote_step now pc1 s1 in
  let! (pc3, s3) := vote_step now pc2 s2 in
  match pc3 with Voted r => Ret (r, s3) | _ => Timeout end.

End voter.

(* src: mielin-cells/src/ha/quorum.rs 221-227 QuorumVoter::get_decision *)
Definition get_decision (self : QuorumVoter) : option QuorumDecision := decision self.

(** One round of the loop of [wait_for_decision]: [None] goes round again. *)
(* src: mielin-cells/src/ha/quorum.rs 230-244 QuorumVoter::wait_for_decision *)
Definition wait_round (now : Z) (self : QuorumVoter) : option (result QuorumDecision QuorumError) :=
  if start_time self + vote_timeout (config self) <? now then Some (Err VoteTimeout)
  else Ok <$> get_decision self.

(* src: mielin-cells/src/ha/quorum.rs 247-249 QuorumVoter::is_timeout *)
Definition is_timeout (now : Z) (self : QuorumVoter) : bool :=
  vote_timeout (config self) <? now - start_time self.

(* src: mielin-cells/src/ha/quorum.rs 252-258 QuorumVoter::vote_count *)
Definition vote_count (self : QuorumVoter) : Z := Z.of_nat (size (votes self)).

End QuorumVoter.
