(* ===== verification/QuorumProps.v ===== *)
(** * Theorems on quorum voting *)

From stdpp Require Import base tactics option list numbers gmap strings relations.
From Stdlib Require Import SpecFloat.
From S2P Require Import Prelude Float Quorum.
Import QuorumVoter.

(** ** Thresholds *)

(** The required votes of the three fixed policies: between one and all of the
    nodes, and more than half of them, so that any two quorums share a node. *)
Theorem required_votes_bounds p n :
  p = SimpleMajority ∨ p = SuperMajority ∨ p = Unanimous → 1 <= n <= U64_MAX / 2 →
  returns (QuorumPolicy.required_votes p n) (λ r, 1 <= r <= n ∧ n < 2 * r ∧
    (p = SuperMajority → 2 * n < 3 * r) ∧ (p = Unanimous → r = n)).
Proof.
  intros Hp Hn. assert (2 * n <= U64_MAX) by (change (U64_MAX / 2) with 9223372036854775807 in Hn; lia).
  destruct Hp as [->|[->| ->]]; simpl.
  - rewrite usize_add_ok by (Z.div_mod_to_equations; lia). simpl. split_and!; try done; Z.div_mod_to_equations; lia.
  - rewrite usize_mul_ok by lia. simpl. rewrite usize_add_ok by (Z.div_mod_to_equations; lia). simpl. split_and!; try done; Z.div_mod_to_equations; lia.
  - split_and!; try done; lia.
Qed.

Lemma required_votes_bounds_witness : returns (QuorumPolicy.required_votes SuperMajority 9) (λ r, 1 <= r <= 9) ∧ QuorumPolicy.required_votes SuperMajority 9 = Ret 7.
Proof. split; [|done]. eapply returns_mono; [apply (required_votes_bounds SuperMajority 9); [auto|done]|]. simpl. tauto. Defined.

(** ** Voters that interleave *)

Section voting.
Context (iter : gmap NodeId QuorumVote → list QuorumVote).
Context (iter_values : ∀ m, iter m ≡ₚ (map_to_list m).*2).

Definition yes (m : gmap NodeId QuorumVote) : Z := Z.of_nat (length (base.filter (λ v, vote v = true) (iter m))).
Definition no (m : gmap NodeId QuorumVote) : Z := Z.of_nat (length (base.filter (λ v, vote v = false) (iter m))).

Definition by_heads (s : QuorumVoter) : Prop := match policy (config s) with Weighted _ => False | _ => True end.

Lemma iter_insert m k v : m !! k = None → iter (<[k := v]> m) ≡ₚ v :: iter m.
Proof. intros Hk. rewrite !iter_values, map_to_list_insert by done. done. Qed.

Lemma yes_insert m k v : m !! k = None → yes (<[k := v]> m) = yes m + (if vote v then 1 else 0).
Proof. intros Hk. unfold yes. rewrite (iter_insert m k v Hk), filter_cons. destruct (vote v); case_decide; simpl; done || lia. Qed.

Lemma no_insert m k v : m !! k = None → no (<[k := v]> m) = no m + (if vote v then 0 else 1).
Proof. intros Hk. unfold no. rewrite (iter_insert m k v Hk), filter_cons. destruct (vote v); case_decide; simpl; done || lia. Qed.

Lemma yes_no_size m : yes m + no m = Z.of_nat (size m).
Proof.
  unfold yes, no. rewrite iter_values. rewrite <-length_map_to_list, <-(length_fmap snd (map_to_list m)).
  induction ((map_to_list m).*2) as [|v l IH]; [done|]. rewrite !filter_cons. destruct (vote v); repeat case_decide; simpl; done || lia.
Qed.

Lemma tally_heads s : by_heads s → tally iter s = (yes (votes s), no (votes s)).
Proof. unfold by_heads, tally. by destruct (policy (config s)). Qed.

(** What the votes decide when [req] are required. *)
Record decides (req : Z) (s : QuorumVoter) : Prop := {
  dec_enough : min_participants (config s) <= Z.of_nat (size (votes s));
  dec_cause : req <= yes (votes s) ∨ total_nodes s - req < no (votes s) ∨ Z.of_nat (size (votes s)) = total_nodes s;
}.

Lemma check_quorum_spec now req s :
  by_heads s → required_votes s = Ret req → 0 <= req <= total_nodes s → total_nodes s <= U64_MAX →
  ∃ s', check_quorum iter now s = Ret s' ∧
  (decides req s ∧ s' = set_decision (Some (mkDecision (req <=? yes (votes s)) (Z.of_nat (size (votes s)))
      (yes (votes s)) (no (votes s)) req now)) s ∨
   ¬ decides req s ∧ s' = s).
Proof.
  intros Hh Hreq Hr Ht. unfold check_quorum. rewrite Hreq. cbn [obind].
  destruct (Z.ltb_spec (Z.of_nat (size (votes s))) (min_participants (config s))).
  { exists s. split; [done|]. right. split; [|done]. intros [? _]. lia. }
  rewrite tally_heads by done. rewrite usize_sub_ok by lia. cbn [obind].
  destruct (Z.leb_spec req (yes (votes s))), (Z.ltb_spec (total_nodes s - req) (no (votes s))), (Z.eqb_spec (Z.of_nat (size (votes s))) (total_nodes s)); cbn [orb];
    (eexists; split; [done|]); first [left; split; [split; [lia|tauto]|done]|right; split; [intros [_ ?]; lia|done]].
Qed.

(** *** Runs *)

(** Any number of calls of [cast_vote] on one voter, by nodes of [members]. *)
Record system : Type := mkSystem { voter : QuorumVoter; calls : list vote_pc }.

Inductive sys_step : system → system → Prop :=
| run_call s pcs i pc now pc' s' :
    pcs !! i = Some pc → vote_step iter now pc s = Ret (pc', s') →
    sys_step (mkSystem s pcs) (mkSystem s' (<[i := pc']> pcs)).

Definition from_members (members : gset NodeId) (pc : vote_pc) : Prop :=
  match pc with ReadDecision v | InsertVote v => node_id v ∈ members | _ => True end.

Record sys_ok (members : gset NodeId) (req : Z) (x : system) : Prop := {
  ok_heads : by_heads (voter x);
  ok_req : required_votes (voter x) = Ret req;
  ok_range : 0 <= req <= total_nodes (voter x) ∧ total_nodes (voter x) <= U64_MAX;
  ok_members : Z.of_nat (size members) <= total_nodes (voter x);
  ok_calls : Forall (from_members members) (calls x);
  ok_dom : dom (votes (voter x)) ⊆ members;
  (** A decision stands for what the votes say. *)
  ok_decision d : decision (voter x) = Some d → decides req (voter x) ∧ passed d = (req <=? yes (votes (voter x)));
  (** Votes that decide have been noticed, or are about to be. *)
  ok_noticed : decides req (voter x) → is_Some (decision (voter x)) ∨ CheckQuorum ∈ calls x;
}.

Lemma size_members members req x : sys_ok members req x → Z.of_nat (size (votes (voter x))) <= total_nodes (voter x).
Proof.
  intros Hok. etrans; [|apply (ok_members _ _ _ Hok)]. apply inj_le. rewrite <-size_dom. apply subseteq_size, Hok.
Qed.

(** A vote of a member keeps what was decided. *)
Lemma insert_keeps members req s v pcs :
  sys_ok members req (mkSystem s pcs) → votes s !! node_id v = None → node_id v ∈ members →
  let s' := set_votes (<[node_id v := v]> (votes s)) s in
  decides req s → decides req s' ∧ (req <=? yes (votes s')) = (req <=? yes (votes s)).
Proof.
  intros Hok Hn Hm. cbv zeta. pose proof Hok as [_ _ [Hr _] Hmem _ Hdom _ _]. cbn [voter] in *.
  pose proof (yes_no_size (votes s)) as Hyn. pose proof (size_members _ _ _ Hok) as Hsz. cbn [voter] in Hsz.
  assert (Z.of_nat (size (votes s)) + 1 <= Z.of_nat (size members)) as Hlt.
  { rewrite <-size_dom. assert (size ({[node_id v]} ∪ dom (votes s)) <= size members)%nat as Hs by (apply subseteq_size; set_solver).
    rewrite size_union, size_singleton in Hs by (apply not_elem_of_dom in Hn; set_solver). lia. }
  intros [He Hc]. split; [split|]; simpl; rewrite ?yes_insert, ?no_insert, ?map_size_insert_None by done; cbn [votes].
  - lia.
  - destruct (vote v); lia.
  - destruct (Z.leb_spec req (yes (votes s))), (vote v); simpl; try (apply Z.leb_le; lia); apply Z.leb_gt; lia.
Qed.

Lemma elem_insert {A} (l : list A) i x y : x ∈ l → l !! i ≠ Some x → x ∈ <[i := y]> l.
Proof.
  intros (j & Hj)%list_elem_of_lookup Hne. apply list_elem_of_lookup. exists j.
  rewrite list_lookup_insert_ne; [done|]. by intros ->.
Qed.

Lemma step_ok members req x x' : sys_ok members req x → sys_step x x' → sys_ok members req x'.
Proof.
  intros Hok Hst. destruct Hst as [s pcs i pc now pc' s' Hpc Hvote].
  pose proof Hok as [Hh Hq [Hr Hu] Hmem Hcalls Hdom Hdec Hnot]. cbn [voter calls] in *.
  pose proof (Forall_lookup_1 _ _ _ _ Hcalls Hpc) as Hfrom.
  assert (∀ pc', from_members members pc' → Forall (from_members members) (<[i := pc']> pcs)) as Hcalls' by (intros; by apply Forall_insert).
  destruct pc as [v|v| |r]; cbn [vote_step] in Hvote.
  - destruct (decision s) as [d|] eqn:Ed; injection Hvote as <- <-; split; cbn [voter calls]; rewrite ?Ed; auto.
    + by apply Hcalls'.
    + intros Hd. destruct (Hnot Hd) as [|]; [by left|right]. apply elem_insert; [done|]. congruence.
  - destruct (votes s !! node_id v) as [w|] eqn:Ev; injection Hvote as <- <-.
    + split; cbn [voter calls]; auto; [by apply Hcalls'|]. intros Hd. destruct (Hnot Hd); [by left|right]. apply elem_insert; [done|]. congruence.
    + simpl in Hfrom. pose proof (insert_keeps members req s v pcs Hok Ev Hfrom) as Hk. split; cbn [voter calls]; auto; try done; [by apply Hcalls'|..].
      * simpl. set_solver.
      * intros d Hd. destruct (Hdec d Hd) as [Hdd Hp]. destruct (Hk Hdd) as [Hd' Ep]. split; [done|]. by rewrite Ep.
      * intros _. right. apply list_elem_of_lookup. exists i. apply list_lookup_insert_eq. by eapply lookup_lt_Some.
  - destruct (check_quorum_spec now req s Hh Hq Hr Hu) as (s1 & E & Hc). rewrite E in Hvote. injection Hvote as <- <-.
    destruct Hc as [[Hd ->]|[Hd ->]]; split; cbn [voter calls]; auto; try done; try by apply Hcalls'.
    intros d [= <-]. split; [|done]. by destruct Hd.
  - injection Hvote as <- <-. by rewrite list_insert_id.
Qed.

(** The outcome of a decision survives a step. *)
Lemma step_outcome members req x x' d :
  sys_ok members req x → sys_step x x' → decision (voter x) = Some d →
  ∃ d', decision (voter x') = Some d' ∧ passed d' = passed d.
Proof.
  intros Hx Hst Hd. destruct (ok_decision _ _ _ Hx _ Hd) as [_ Ep]. destruct Hst as [s pcs i pc now pc' s' Hpc Hvote]. cbn [voter] in *.
  destruct pc as [v|v| |r]; cbn [vote_step] in Hvote.
  - rewrite Hd in Hvote. injection Hvote as <- <-. eauto.
  - destruct (votes s !! node_id v); injection Hvote as <- <-; by eauto.
  - destruct Hx as [Hh Hq [Hr Hu] _ _ _ _ _]. destruct (check_quorum_spec now req s Hh Hq Hr Hu) as (s1 & E & Hc).
    rewrite E in Hvote. injection Hvote as <- <-. destruct Hc as [[_ ->]|[_ ->]]; [|by eauto]. eexists. split; [done|]. by rewrite Ep.
  - injection Hvote as <- <-. eauto.
Qed.

Lemma run_outcome members req x x' d :
  sys_ok members req x → rtc sys_step x x' → decision (voter x) = Some d →
  ∃ d', decision (voter x') = Some d' ∧ passed d' = passed d.
Proof.
  intros Hx Hrun. revert d Hx. induction Hrun as [|x y z Hst _ IH]; intros d Hx Hd; [by eauto|].
  destruct (step_outcome _ _ _ _ _ Hx Hst Hd) as (d1 & Hd1 & E1).
  destruct (IH d1 (step_ok _ _ _ _ Hx Hst) Hd1) as (d2 & Hd2 & E2). exists d2. split; [done|congruence].
Qed.

Lemma step_returns members req x i pc now :
  sys_ok members req x → calls x !! i = Some pc → ∃ pc' s', vote_step iter now pc (voter x) = Ret (pc', s').
Proof.
  intros [Hh Hq [Hr Hu] _ _ _ _ _] _. destruct pc as [v|v| |r]; cbn [vote_step].
  - destruct (decision (voter x)); by do 2 eexists.
  - destruct (votes (voter x) !! node_id v); by do 2 eexists.
  - destruct (check_quorum_spec now req (voter x) Hh Hq Hr Hu) as (s1 & -> & _). by do 2 eexists.
  - by do 2 eexists.
Qed.

Definition finished (x : system) : Prop := Forall (λ pc, match pc with Voted _ => True | _ => False end) (calls x).

(** C3. For a policy that counts votes (simple majority, super-majority,
    unanimous or a custom fraction, not the weighted one) that requires at least one and
    at most [total] votes, with at least one participant required and all votes from
    members of a group of at most [total] nodes: however the calls of the members
    interleave, a step of a call returns; a decision, once made, keeps its outcome;
    and when all calls have returned there is a decision exactly if the votes decide,
    passed exactly if enough of them say yes. The weighted policy is left out because
    there a call that is under way can change the outcome
    ([weighted_decision_flips]), and more required votes than nodes because the check
    then panics ([threshold_above_one_panics]). *)
Theorem quorum_decision (members : gset NodeId) req cfg total now vs x :
  match policy cfg with Weighted _ => False | _ => True end →
  QuorumPolicy.required_votes (policy cfg) total = Ret req → 1 <= req <= total → total <= U64_MAX →
  Z.of_nat (size members) <= total → Forall (λ v, node_id v ∈ members) vs → 1 <= min_participants cfg →
  rtc sys_step (mkSystem (new cfg total now) (ReadDecision <$> vs)) x →
  (∀ i pc now', calls x !! i = Some pc → ∃ pc' s', vote_step iter now' pc (voter x) = Ret (pc', s')) ∧
  (∀ x' d, rtc sys_step x x' → decision (voter x) = Some d → ∃ d', decision (voter x') = Some d' ∧ passed d' = passed d) ∧
  (finished x →
    match decision (voter x) with
    | Some d => decides req (voter x) ∧ passed d = (req <=? yes (votes (voter x)))
    | None => ¬ decides req (voter x)
    end).
Proof.
  intros Hh Hq Hr Hu Hm Hvs Hmin Hrun. assert (sys_ok members req x) as Hok.
  { apply (rtc_preserves _ (sys_ok members req) _ _ (step_ok members req) Hrun). split; cbn [voter calls]; try done.
    - simpl. lia.
    - by apply Forall_fmap.
    - intros [He _]. simpl in He. rewrite map_size_empty in He. lia. }
  split_and!.
  - intros i pc now'. by eapply step_returns.
  - intros x' d. by eapply run_outcome.
  - intros Hfin. destruct (decision (voter x)) as [d|] eqn:Ed; [by apply Hok|].
    intros Hd. destruct (ok_noticed _ _ _ Hok Hd) as [[d' Hd']|Hc]; [congruence|].
    unfold finished in Hfin. rewrite Forall_forall in Hfin. by apply (Hfin _ Hc).
Qed.
End voting.

(** ** A run of three voters *)

Definition values (m : gmap NodeId QuorumVote) : list QuorumVote := (map_to_list m).*2.

(** The calls move in the order of a schedule. *)
Fixpoint schedule (order : list nat) (x : system) : option system :=
  match order with
  | [] => Some x
  | i :: order' =>
    pc ← calls x !! i;
    match vote_step values 0 pc (voter x) with
    | Ret (pc', s') => schedule order' (mkSystem s' (<[i := pc']> (calls x)))
    | _ => None
    end
  end.

Lemma schedule_run order : ∀ x x', schedule order x = Some x' → rtc (sys_step values) x x'.
Proof.
  induction order as [|i order IH]; intros [s pcs] x' E; [injection E as <-; by apply rtc_refl|]. cbn [schedule calls voter] in E.
  destruct (pcs !! i) as [pc|] eqn:Epc; [|done]. cbn [mbind option_bind] in E.
  destruct (vote_step values 0 pc s) as [[pc' s']| |] eqn:Ev; [|done|done]. eapply rtc_l; [by econstructor|by apply IH].
Qed.

Definition vote_of (n : NodeId) (b : bool) : QuorumVote := mkVote n b f64_one 0.

Definition three_votes : list QuorumVote := [vote_of "a" true; vote_of "b" false; vote_of "c" true].

(** All three pass the first check before any of them votes. *)
Definition three_run : option system :=
  schedule [0; 1; 2; 0; 1; 2; 1; 0; 2]%nat (mkSystem (new default_config 3 0) (ReadDecision <$> three_votes)).

Lemma quorum_decision_witness :
  match three_run with
  | Some x => finished x ∧ match decision (voter x) with Some d => passed d = true ∧ decides values 2 (voter x) | None => False end
  | None => False
  end.
Proof.
  assert (match three_run with
          | Some x => forallb (λ pc, match pc with Voted _ => true | _ => false end) (calls x) && match decision (voter x) with Some d => passed d | None => false end
          | None => false end = true) as Hc by (vm_compute; reflexivity).
  destruct three_run as [x|] eqn:E; [|discriminate Hc]. apply andb_true_iff in Hc as [Hf Hd].
  pose proof (schedule_run _ _ _ E) as Hrun.
  destruct (quorum_decision values (λ m, reflexivity _) (list_to_set ["a"; "b"; "c"]%string) 2 default_config 3 0 three_votes x) as (_ & _ & Hres); try done.
  - repeat (apply Forall_cons_2; [set_solver|]). constructor.
  - assert (finished x) as Hfin.
    { unfold finished. apply Forall_forall. intros pc Hpc. rewrite forallb_forall in Hf. specialize (Hf pc).
      apply list_elem_of_In in Hpc. specialize (Hf Hpc). by destruct pc. }
    split; [done|]. specialize (Hres Hfin). destruct (decision (voter x)) as [d|]; [|discriminate Hd]. by destruct Hres.
Defined.

(** ** Where the code does not decide *)

(** With the default configuration a single node never decides: two participants
    are asked for. *)
Lemma single_node_never_decides :
  match cast_vote values 0 (vote_of "a" true) (new default_config 1 0) with
  | Ret (Ok _, s) => decision s = None ∧ vote_count s = total_nodes s
  | _ => False
  end.
Proof. vm_compute. done. Qed.

(** A threshold of 2.0 requires more votes than there are nodes, and the check for
    a failed vote underflows. *)
Lemma threshold_above_one_panics :
  cast_vote values 0 (vote_of "a" true) (new (mkConfig (Custom (f64_of_u64 2)) 0 1) 3 0) = Panic.
Proof. vm_compute. reflexivity. Qed.

(** With weights, a vote that was under way when the vote was decided changes the outcome. *)
Lemma weighted_decision_flips :
  let cfg := mkConfig (Weighted (f64_lit 1 2)) 0 1 in
  let heavy n b := mkVote n b (f64_of_u64 5) 0 in
  let x := mkSystem (new cfg 3 0) (ReadDecision <$> [heavy "a" false; heavy "b" true]) in
  let outcome o := (λ x, passed <$> decision (voter x)) <$> schedule o x in
  outcome [0; 1; 0; 0]%nat = Some (Some false) ∧ outcome [0; 1; 0; 0; 1; 1]%nat = Some (Some true).
Proof. split; vm_compute; reflexivity. Qed.
