(* ===== verification/Leader.v ===== *)
(** * Leader election (mielin-cells/src/ha/leader.rs)

    A node's view of elections: its state, term and vote.  Each field is behind its
    own lock.  A vote request is handled in critical sections, which interleave with
    those of other requests ([vote_step]); [handle_vote_request] and the other
    methods are the calls that nobody interrupts.  A lock is poisoned only by a
    panic under it.  What the clock shows is an argument. *)

From stdpp Require Import base tactics option list numbers gmap strings.
From S2P Require Import Prelude.

(* src: mielin-cells/src/ha/leader.rs 12-12 NodeId *)
Definition NodeId : Type := string.
(* src: mielin-cells/src/ha/leader.rs 15-15 LeaderTerm *)
Definition LeaderTerm : Type := Z.

(* src: mielin-cells/src/ha/leader.rs 18-32 LeaderError *)
Inductive LeaderError : Type :=
| ElectionTimeout
| InvalidTerm (expected actual : LeaderTerm)
| SplitVote
| NodeNotFound (why : string)
| AlreadyHasLeader.

(* src: mielin-cells/src/ha/leader.rs 36-43 LeaderState *)
Inductive LeaderState : Type := Follower | Candidate | Leader.

#[export] Instance LeaderState_eq_dec : EqDecision LeaderState.
Proof. solve_decision. Defined.

(* src: mielin-cells/src/ha/leader.rs 47-54 VoteRequest *)
Record VoteRequest : Type := mkRequest {
  rq_term : LeaderTerm;
  candidate_id : NodeId;
  timestamp : Z;
}.

(* src: mielin-cells/src/ha/leader.rs 58-65 VoteResponse *)
Record VoteResponse : Type := mkResponse {
  rs_term : LeaderTerm;
  vote_granted : bool;
  rs_node_id : NodeId;
}.

(* src: mielin-cells/src/ha/leader.rs 69-78 LeaderElection *)
Record LeaderElection : Type := mkElection {
  leader_id : NodeId;
  el_term : LeaderTerm;
  participants : list NodeId;
  elected_at : Z;
}.

(* src: mielin-cells/src/ha/leader.rs 82-89 ElectionConfig *)
Record ElectionConfig : Type := mkConfig {
  election_timeout : Z;
  heartbeat_interval : Z;
  min_quorum_size : Z;
}.

(* src: mielin-cells/src/ha/leader.rs 92-98 ElectionConfig::default *)
Definition default_config : ElectionConfig := mkConfig 150 50 2.

(* src: mielin-cells/src/ha/leader.rs 102-121 LeaderElector *)
Record LeaderElector : Type := mkElector {
  node_id : NodeId;
  state : LeaderState;
  term : LeaderTerm;
  current_leader : option NodeId;
  voted_for : option NodeId;
  last_heartbeat : Z;
  cluster_nodes : gset NodeId;
  config : ElectionConfig;
  vote_history : gmap LeaderTerm VoteRequest;
}.

Definition set_state (x : LeaderState) (s : LeaderElector) : LeaderElector :=
  mkElector (node_id s) x (term s) (current_leader s) (voted_for s) (last_heartbeat s) (cluster_nodes s) (config s) (vote_history s).
Definition set_term (x : LeaderTerm) (s : LeaderElector) : LeaderElector :=
  mkElector (node_id s) (state s) x (current_leader s) (voted_for s) (last_heartbeat s) (cluster_nodes s) (config s) (vote_history s).
Definition set_leader (x : option NodeId) (s : LeaderElector) : LeaderElector :=
  mkElector (node_id s) (state s) (term s) x (voted_for s) (last_heartbeat s) (cluster_nodes s) (config s) (vote_history s).
Definition set_voted (x : option NodeId) (s : LeaderElector) : LeaderElector :=
  mkElector (node_id s) (state s) (term s) (current_leader s) x (last_heartbeat s) (cluster_nodes s) (config s) (vote_history s).
Definition set_heartbeat (x : Z) (s : LeaderElector) : LeaderElector :=
  mkElector (node_id s) (state s) (term s) (current_leader s) (voted_for s) x (cluster_nodes s) (config s) (vote_history s).
Definition set_nodes (x : gset NodeId) (s : LeaderElector) : LeaderElector :=
  mkElector (node_id s) (state s) (term s) (current_leader s) (voted_for s) (last_heartbeat s) x (config s) (vote_history s).
Definition set_history (x : gmap LeaderTerm VoteRequest) (s : LeaderElector) : LeaderElector :=
  mkElector (node_id s) (state s) (term s) (current_leader s) (voted_for s) (last_heartbeat s) (cluster_nodes s) (config s) x.

Module LeaderElector.

(* src: mielin-cells/src/ha/leader.rs 125-137 LeaderElector::new *)
Definition new (node_id : NodeId) (config : ElectionConfig) (now : Z) : LeaderElector :=
  mkElector node_id Follower 0 None None now ∅ config ∅.

(* src: mielin-cells/src/ha/leader.rs 140-146 LeaderElector::add_node *)
Definition add_node (n : NodeId) (self : LeaderElector) : LeaderElector :=
  set_nodes ({[n]} ∪ cluster_nodes self) self.

(* src: mielin-cells/src/ha/leader.rs 149-155 LeaderElector::remove_node *)
Definition remove_node (n : NodeId) (self : LeaderElector) : LeaderElector :=
  set_nodes (cluster_nodes self ∖ {[n]}) self.

(* src: mielin-cells/src/ha/leader.rs 182-184 LeaderElector::is_leader *)
Definition is_leader (self : LeaderElector) : bool := bool_decide (state self = Leader).

(* src: mielin-cells/src/ha/leader.rs 371-392 LeaderElector::become_leader *)
Definition become_leader (now : Z) (t : LeaderTerm) (self : LeaderElector) : LeaderElector :=
  set_heartbeat now (set_term t (set_leader (Some (node_id self)) (set_state Leader self))).

(* src: mielin-cells/src/ha/leader.rs 187-253 LeaderElector::start_election *)
Definition start_election (now : Z) (self : LeaderElector)
    : outcome (result LeaderElection LeaderError * LeaderElector) :=
  let! new_term := usize_add (term self) 1 in
  let self := set_term new_term self in
  let self := set_state Candidate self in
  let self := set_voted (Some (node_id self)) self in
  let request := mkRequest new_term (node_id self) 0 in
  let self := set_history (<[new_term := request]> (vote_history self)) self in
  let nodes := cluster_nodes self in
  let! cluster_size := usize_add (Z.of_nat (size nodes)) 1 in
  let! votes_needed := usize_add (cluster_size / 2) 1 in
  let votes_received := cluster_size in
  if votes_needed <=? votes_received then
    let self := become_leader now new_term self in
    Ret (Ok (mkElection (node_id self) new_term (node_id self :: elements nodes) now), self)
  else Ret (Err SplitVote, self).

(** The critical sections of [handle_vote_request]: [t] and [v] are the term and
    the vote that were read. *)
Inductive vote_pc : Type :=
| ReadTerm (r : VoteRequest)
| ReadVote (r : VoteRequest) (t : LeaderTerm)
| WriteTerm (r : VoteRequest) (v : option NodeId)
| WriteNewVote (r : VoteRequest) (v : option NodeId)
| WriteState (r : VoteRequest) (v : option NodeId)
| WriteVote (r : VoteRequest)
| Respond (granted : bool)
| Responded (r : VoteResponse).

(* src: mielin-cells/src/ha/leader.rs 256-298 LeaderElector::handle_vote_request *)
Definition vote_step (pc : vote_pc) (self : LeaderElector) : vote_pc * LeaderElector :=
  match pc with
  | ReadTerm r => (ReadVote r (term self), self)
  | ReadVote r t =>
    let v := voted_for self in
    if rq_term r <? t then (Respond false, self)
    else if t <? rq_term r then (WriteTerm r v, self)
    else
      match v with
      | None => (WriteVote r, self)
      | Some c => (Respond (bool_decide (c = candidate_id r)), self)
      end
  | WriteTerm r v => (WriteNewVote r v, set_term (rq_term r) self)
  | WriteNewVote r v => (WriteState r v, set_voted (Some (candidate_id r)) self)
  | WriteState r v =>
    (match v with None => WriteVote r | Some _ => Respond true end, set_state Follower self)
  | WriteVote r => (Respond true, set_voted (Some (candidate_id r)) self)
  | Respond granted => (Responded (mkResponse (term self) granted (node_id self)), self)
  | Responded r => (Responded r, self)
  end.

Fixpoint vote_run (fuel : nat) (pc : vote_pc) (self : LeaderElector) : outcome (VoteResponse * LeaderElector) :=
  match pc, fuel with
  | Responded r, _ => Ret (r, self)
  | _, O => Timeout
  | _, S fuel' => let '(pc', self') := vote_step pc self in vote_run fuel' pc' self'
  end.

(** Seven sections are the longest path. *)
Definition handle_vote_request (r : VoteRequest) (self : LeaderElector) : outcome (VoteResponse * LeaderElector) :=
  vote_run 7 (ReadTerm r) self.

(* src: mielin-cells/src/ha/leader.rs 301-345 LeaderElector::receive_heartbeat *)
Definition receive_heartbeat (now : Z) (leader : NodeId) (t : LeaderTerm) (self : LeaderElector)
    : result unit LeaderError * LeaderElector :=
  let current_term := term self in
  if t <? current_term then (Err (InvalidTerm current_term t), self) else
  let self := if current_term <? t then set_voted None (set_term t self) else self in
  (Ok tt, set_heartbeat now (set_leader (Some leader) (set_state Follower self))).

(* src: mielin-cells/src/ha/leader.rs 348-354 LeaderElector::check_timeout *)
Definition check_timeout (now : Z) (self : LeaderElector) : bool :=
  election_timeout (config self) <? now - last_heartbeat self.

(* src: mielin-cells/src/ha/leader.rs 357-368 LeaderElector::step_down *)
Definition step_down (self : LeaderElector) : LeaderElector := set_leader None (set_state Follower self).

(* src: mielin-cells/src/ha/leader.rs 395-408 LeaderElector::send_heartbeat *)
Definition send_heartbeat (now : Z) (self : LeaderElector) : result unit LeaderError * LeaderElector :=
  if is_leader self then (Ok tt, set_heartbeat now self)
  else (Err (NodeNotFound "Only leader can send heartbeats"), self).

(* src: mielin-cells/src/ha/leader.rs 411-418 LeaderElector::cluster_size *)
Definition cluster_size (self : LeaderElector) : outcome Z := usize_add (Z.of_nat (size (cluster_nodes self))) 1.

End LeaderElector.

(** * Theorems on leader election *)

Import LeaderElector.

(** ** One vote in a term *)

Inductive event : Type :=
| EVote (r : VoteRequest)
| EHeartbeat (leader : NodeId) (t : LeaderTerm)
| EElection
| EStepDown
| ESend
| EAdd (n : NodeId)
| ERemove (n : NodeId).

(** A method call, and the vote it gives: for a candidate in a term. *)
Definition handle (now : Z) (e : event) (s : LeaderElector) : outcome (option (LeaderTerm * NodeId) * LeaderElector) :=
  match e with
  | EVote r =>
    let! (resp, s') := handle_vote_request r s in
    Ret (if vote_granted resp then Some (rq_term r, candidate_id r) else None, s')
  | EHeartbeat leader t => Ret (None, snd (receive_heartbeat now leader t s))
  | EElection => let! (_, s') := start_election now s in Ret (Some (term s', node_id s), s')
  | EStepDown => Ret (None, step_down s)
  | ESend => Ret (None, snd (send_heartbeat now s))
  | EAdd n => Ret (None, add_node n s)
  | ERemove n => Ret (None, remove_node n s)
  end.

Fixpoint handle_all (es : list (Z * event)) (s : LeaderElector) : outcome (list (LeaderTerm * NodeId) * LeaderElector) :=
  match es with
  | [] => Ret ([], s)
  | (now, e) :: es' =>
    let! (v, s1) := handle now e s in
    let! (vs, s2) := handle_all es' s1 in
    Ret (match v with Some x => x :: vs | None => vs end, s2)
  end.

(** What [handle_vote_request] does, on every branch. *)
Lemma handle_vote_request_spec r s :
  handle_vote_request r s =
  let t := term s in
  if rq_term r <? t then Ret (mkResponse t false (node_id s), s)
  else if t <? rq_term r then
    let s' := set_state Follower (set_voted (Some (candidate_id r)) (set_term (rq_term r) s)) in
    Ret (mkResponse (rq_term r) true (node_id s), s')
  else match voted_for s with
       | None => Ret (mkResponse t true (node_id s), set_voted (Some (candidate_id r)) s)
       | Some c => Ret (mkResponse t (bool_decide (c = candidate_id r)) (node_id s), s)
       end.
Proof.
  unfold handle_vote_request. cbn [vote_run vote_step]. destruct (rq_term r <? term s); [done|].
  destruct (term s <? rq_term r); [by destruct (voted_for s)|]. by destruct (voted_for s).
Qed.

Lemma usize_add_cases a b : (usize_add a b = Ret (a + b) ∧ 0 <= a + b <= U64_MAX) ∨ usize_add a b = Panic.
Proof.
  unfold usize_add. destruct (checked U64_MAX (a + b)) as [x| |] eqn:E; [left|by right|].
  - apply checked_ret in E as [-> ?]. done.
  - unfold checked in E. by destruct (_ && _).
Qed.

(** An election that does not overflow the term is won, whatever the others do. *)
Lemma start_election_cases now s :
  start_election now s = Panic ∨
  ∃ el s', start_election now s = Ret (Ok el, s') ∧ leader_id el = node_id s ∧ term s' = term s + 1 ∧
    voted_for s' = Some (node_id s) ∧ state s' = Leader ∧ current_leader s' = Some (node_id s) ∧ node_id s' = node_id s.
Proof.
  unfold start_election. destruct (usize_add_cases (term s) 1) as [[-> Hr1]| ->]; [|by left]. cbn [obind]. cbv zeta. cbn [cluster_nodes set_history set_voted set_state set_term].
  destruct (usize_add_cases (Z.of_nat (size (cluster_nodes s))) 1) as [[-> Hr2]| ->]; [|by left]. cbn [obind].
  destruct (usize_add_cases ((Z.of_nat (size (cluster_nodes s)) + 1) / 2) 1) as [[-> Hr3]| ->]; [|by left]. cbn [obind].
  rewrite (proj2 (Z.leb_le _ _)) by (Z.div_mod_to_equations; lia). right. do 2 eexists. split_and!; done.
Qed.

(** The votes given so far are for the current term at most, and the one of the
    current term is the one on record. *)
Definition votes_ok (vs : list (LeaderTerm * NodeId)) (s : LeaderElector) : Prop :=
  ∀ t c, (t, c) ∈ vs → t <= term s ∧ (t = term s → voted_for s = Some c).

Lemma handle_votes now e s vs :
  votes_ok vs s →
  match handle now e s with
  | Ret (v, s') => votes_ok (match v with Some x => x :: vs | None => vs end) s' ∧ term s <= term s' ∧
      (∀ t c, v = Some (t, c) → term s <= t ∧ ((t, c) ∈ vs ∨ ∀ c', (t, c') ∉ vs))
  | Panic => e = EElection
  | Timeout => False
  end.
Proof.
  intros Hv. destruct e as [r|l t| | | |n|n]; cbn [handle].
  - rewrite handle_vote_request_spec. cbv zeta. destruct (Z.ltb_spec (rq_term r) (term s)); [by split_and!|].
    destruct (Z.ltb_spec (term s) (rq_term r)).
    + cbn [obind vote_granted]. split_and!; [|simpl; lia|].
      * intros t c [[= -> ->]|Hin]%elem_of_cons; [done|]. destruct (Hv t c Hin). simpl. split; lia.
      * intros t c [= <- <-]. split; [lia|]. right. intros c' Hin. destruct (Hv _ _ Hin). lia.
    + assert (rq_term r = term s) as Et by lia. destruct (voted_for s) as [c0|] eqn:Ev; cbn [obind vote_granted].
      * case_bool_decide as Hc; [|by split_and!]. subst c0. split_and!; [|simpl; lia|].
        -- intros t c [[= -> ->]|Hin]%elem_of_cons; [by rewrite Et|by apply Hv].
        -- intros t c [= <- <-]. split; [lia|]. destruct (decide ((rq_term r, candidate_id r) ∈ vs)) as [|Hn]; [by left|right].
           intros c' Hin. destruct (Hv _ _ Hin) as [_ Hc']. specialize (Hc' Et). congruence.
      * split_and!; [|simpl; lia|].
        -- intros t c [[= -> ->]|Hin]%elem_of_cons; [simpl; by rewrite Et|]. destruct (Hv t c Hin) as [Hle Hc]. simpl. split; [done|].
           intros ->. specialize (Hc eq_refl). congruence.
        -- intros t c [= <- <-]. split; [lia|]. right. intros c' Hin. destruct (Hv _ _ Hin) as [_ Hc]. specialize (Hc Et). congruence.
  - unfold receive_heartbeat. destruct (Z.ltb_spec t (term s)); [by split_and!|]. destruct (Z.ltb_spec (term s) t); cbn [snd].
    + split_and!; [|simpl; lia|done]. intros t' c Hin. destruct (Hv t' c Hin). simpl. split; lia.
    + split_and!; [|simpl; lia|done]. intros t' c Hin. destruct (Hv t' c Hin). simpl. split; [lia|done].
  - destruct (start_election_cases now s) as [->|(el & s' & -> & _ & Ht & Hvf & _)]; [done|]. cbn [obind]. split_and!; [|lia|].
    + intros t c [[= -> ->]|Hin]%elem_of_cons; [done|]. destruct (Hv t c Hin). split; lia.
    + intros t c [= <- <-]. split; [lia|]. right. intros c' Hin. destruct (Hv _ _ Hin). lia.
  - split_and!; [|simpl; lia|done]. done.
  - unfold send_heartbeat. destruct (is_leader s); cbn [snd]; split_and!; try done; simpl; lia.
  - split_and!; [|simpl; lia|done]. done.
  - split_and!; [|simpl; lia|done]. done.
Qed.

(** Two votes for one term are for one candidate. *)
Definition one_vote (vs : list (LeaderTerm * NodeId)) : Prop := ∀ t c c', (t, c) ∈ vs → (t, c') ∈ vs → c = c'.

Lemma handle_all_votes es : ∀ s old,
  votes_ok old s → one_vote old →
  match handle_all es s with
  | Ret (vs, s') => one_vote (old ++ vs) ∧ term s <= term s'
  | Panic => Exists (λ e, e.2 = EElection) es
  | Timeout => False
  end.
Proof.
  induction es as [|[now e] es IH]; intros s old Hok Hone; cbn [handle_all].
  { rewrite app_nil_r. split; [done|lia]. }
  pose proof (handle_votes now e s old Hok) as Hh. destruct (handle now e s) as [[v s1]| |]; cbn [obind]; [|by left|done].
  destruct Hh as (Hok1 & Hle & Hnew).
  set (old1 := match v with Some x => x :: old | None => old end) in *.
  assert (one_vote old1) as Hone1.
  { destruct v as [[t c]|]; [|done]. destruct (Hnew t c eq_refl) as [_ Hd]. intros t' c1 c2 H1 H2. unfold old1 in H1, H2.
    apply elem_of_cons in H1 as [H1|H1]; apply elem_of_cons in H2 as [H2|H2]; simplify_eq; try done.
    - destruct Hd as [Hd|Hd]; [by eapply Hone|by destruct (Hd c2)].
    - destruct Hd as [Hd|Hd]; [by eapply Hone|by destruct (Hd c1)].
    - by eapply Hone. }
  specialize (IH s1 old1 Hok1 Hone1). destruct (handle_all es s1) as [[vs s2]| |]; cbn [obind]; [|by right|done].
  destruct IH as [IH1 IH2]. split; [|lia]. intros t c c' H1 H2. apply (IH1 t); destruct v as [x|]; unfold old1; try done; set_solver.
Qed.

(** Whatever calls a node gets, in whatever order, it gives at most one
    candidate its vote in a term, its own included, and its term never goes back;
    only an election that overflows the term stops it. *)
Theorem one_vote_per_term id cfg now es :
  match handle_all es (new id cfg now) with
  | Ret (vs, s) => (∀ t c c', (t, c) ∈ vs → (t, c') ∈ vs → c = c') ∧ 0 <= term s
  | Panic => Exists (λ e, e.2 = EElection) es
  | Timeout => False
  end.
Proof.
  assert (votes_ok [] (new id cfg now)) as Hok by (intros t c Hin; by apply elem_of_nil in Hin).
  assert (one_vote []) as Hone by (intros t c c' Hin; by apply elem_of_nil in Hin).
  pose proof (handle_all_votes es (new id cfg now) [] Hok Hone) as Hall. by destruct (handle_all _ _) as [[vs s]| |].
Qed.

(** ** Where the code departs from an election *)

(** The requests of two candidates that arrive at the same time: both read the
    vote of the term before either writes it, and both are granted. *)
Definition race : vote_pc * vote_pc * LeaderElector :=
  let s0 := snd (receive_heartbeat 0 "c" 1 (new "n" default_config 0)) in
  let '(a1, s1) := vote_step (ReadTerm (mkRequest 1 "a" 0)) s0 in
  let '(b1, s2) := vote_step (ReadTerm (mkRequest 1 "b" 0)) s1 in
  let '(a2, s3) := vote_step a1 s2 in
  let '(b2, s4) := vote_step b1 s3 in
  let '(a3, s5) := vote_step a2 s4 in
  let '(b3, s6) := vote_step b2 s5 in
  let '(a4, s7) := vote_step a3 s6 in
  let '(b4, s8) := vote_step b3 s7 in
  (a4, b4, s8).

(** Vote requests that interleave can make a node vote for two candidates in
    one term. *)
Theorem concurrent_requests_vote_twice :
  ∃ s, race = (Responded (mkResponse 1 true "n"), Responded (mkResponse 1 true "n"), s) ∧ voted_for s = Some "b"%string.
Proof. eexists. split; reflexivity. Qed.

(** Two nodes that know of each other both win the first term. *)
Lemma two_leaders_in_one_term :
  match start_election 0 (add_node "b" (new "a" default_config 0)), start_election 0 (add_node "a" (new "b" default_config 0)) with
  | Ret (Ok x, s), Ret (Ok y, s') => is_leader s = true ∧ is_leader s' = true ∧ el_term x = el_term y ∧ leader_id x ≠ leader_id y
  | _, _ => False
  end.
Proof. vm_compute. done. Qed.

(** A leader that grants a vote of a later term follows, and still names itself as
    the leader. *)
Lemma deposed_leader_names_itself :
  match start_election 0 (new "a" default_config 0) with
  | Ret (_, s) =>
    match handle_vote_request (mkRequest 5 "b" 0) s with
    | Ret (_, s') => state s' = Follower ∧ current_leader s' = Some "a"%string
    | _ => False
    end
  | _ => False
  end.
Proof. vm_compute. done. Qed.

(** A request with the greatest term is granted, and the next election panics. *)
Lemma greatest_term_blocks_elections :
  match handle_vote_request (mkRequest U64_MAX "b" 0) (new "a" default_config 0) with
  | Ret (r, s) => vote_granted r = true ∧ start_election 0 s = Panic
  | _ => False
  end.
Proof. vm_compute. done. Qed.
