(* ===== verification/Flow.v ===== *)
(** * Flow control (mielin-mesh/wire/src/flow.rs)

    The token bucket, back-pressure and congestion control of a connection.  They
    are shared by tasks: a call is the sequence of its accesses to atomics and of
    its critical sections ([consume_step], [set_step], [cc_step]); the functions of
    the source's names are the calls that nobody interrupts.  Times are in
    nanoseconds, except where the source uses another unit; what the clock shows,
    and whether a [compare_exchange_weak] goes through, are arguments. *)

From stdpp Require Import base tactics option list numbers gmap.
From Stdlib Require Import SpecFloat.
From S2P Require Import Prelude Float.

(** ** Token bucket *)

(* src: mielin-mesh/wire/src/flow.rs 22-29 TokenBucketConfig *)
Record TokenBucketConfig : Type := mkBucketConfig {
  capacity : Z;
  refill_rate : Z;
  initial_tokens : Z;
}.

Module TokenBucketConfig.

(* src: mielin-mesh/wire/src/flow.rs 32-38 TokenBucketConfig::default *)
Definition default : TokenBucketConfig := mkBucketConfig 1000000 10000000 1000000.

(* src: mielin-mesh/wire/src/flow.rs 43-49 TokenBucketConfig::high_throughput *)
Definition high_throughput : TokenBucketConfig := mkBucketConfig 10000000 100000000 10000000.

(* src: mielin-mesh/wire/src/flow.rs 52-58 TokenBucketConfig::low_latency *)
Definition low_latency : TokenBucketConfig := mkBucketConfig 100000 1000000 100000.

(* src: mielin-mesh/wire/src/flow.rs 61-67 TokenBucketConfig::embedded *)
Definition embedded : TokenBucketConfig := mkBucketConfig 10000 100000 10000.

End TokenBucketConfig.

(* src: mielin-mesh/wire/src/flow.rs 72-79 TokenBucket *)
Record TokenBucket : Type := mkBucket {
  bucket_config : TokenBucketConfig;
  tokens : Z;
  last_refill : Z;
}.

Module TokenBucket.

(* src: mielin-mesh/wire/src/flow.rs 83-89 TokenBucket::new *)
Definition new (config : TokenBucketConfig) (now : Z) : TokenBucket :=
  mkBucket config (initial_tokens config) now.

(* src: mielin-mesh/wire/src/flow.rs 92-94 TokenBucket::default_bucket *)
Definition default_bucket (now : Z) : TokenBucket := new TokenBucketConfig.default now.

Definition set_tokens (t : Z) (self : TokenBucket) : TokenBucket :=
  mkBucket (bucket_config self) t (last_refill self).
Definition set_last (t : Z) (self : TokenBucket) : TokenBucket :=
  mkBucket (bucket_config self) (tokens self) t.

(** The tokens that a time is worth. *)
(* src: mielin-mesh/wire/src/flow.rs 141-141 TokenBucket::refill (new_tokens) *)
Definition new_tokens (config : TokenBucketConfig) (time : Z) : Z :=
  f64_as_usize (f64_mul (as_secs_f64 time) (f64_of_u64 (refill_rate config))).

(** A call of [try_consume], which begins with [refill]. *)
Inductive consume_pc : Type :=
| RefillLock (amount : Z)
| RefillLoad (amount new : Z)
| RefillExchange (amount new current : Z)
| ConsumeLoad (amount : Z)
| ConsumeExchange (amount current : Z)
| Consumed (amount : Z) (ok : bool).

(** The section under the lock reads the clock twice, at [t1] and at [t2]. *)
(* src: mielin-mesh/wire/src/flow.rs 97-157 TokenBucket::try_consume, TokenBucket::refill *)
Definition consume_step (t1 t2 : Z) (weak : bool) (pc : consume_pc) (self : TokenBucket) : outcome (consume_pc * TokenBucket) :=
  match pc with
  | RefillLock amount =>
    let new := new_tokens (bucket_config self) (elapsed (last_refill self) t1) in
    Ret (if 0 <? new then RefillLoad amount new else ConsumeLoad amount, set_last t2 self)
  | RefillLoad amount new => Ret (RefillExchange amount new (tokens self), self)
  | RefillExchange amount new current =>
    let! sum := usize_add current new in
    let new_value := Z.min sum (capacity (bucket_config self)) in
    if weak && (tokens self =? current) then Ret (ConsumeLoad amount, set_tokens new_value self)
    else Ret (RefillExchange amount new (tokens self), self)
  | ConsumeLoad amount => Ret (ConsumeExchange amount (tokens self), self)
  | ConsumeExchange amount current =>
    if current <? amount then Ret (Consumed amount false, self)
    else if weak && (tokens self =? current) then Ret (Consumed amount true, set_tokens (current - amount) self)
    else Ret (ConsumeExchange amount (tokens self), self)
  | Consumed _ _ => Ret (pc, self)
  end.

(** Without interference five steps are enough. *)
Fixpoint consume_run (fuel : nat) (t1 t2 : Z) (pc : consume_pc) (self : TokenBucket) : outcome (bool * TokenBucket) :=
  match pc with
  | Consumed _ ok => Ret (ok, self)
  | _ =>
    match fuel with
    | O => Timeout
    | S fuel' => let! (pc', self') := consume_step t1 t2 true pc self in consume_run fuel' t1 t2 pc' self'
    end
  end.

(* src: mielin-mesh/wire/src/flow.rs 97-116 TokenBucket::try_consume *)
Definition try_consume (t1 t2 amount : Z) (self : TokenBucket) : outcome (bool * TokenBucket) :=
  consume_run 5 t1 t2 (RefillLock amount) self.

(** How long [consume] sleeps before it tries again, in seconds. *)
(* src: mielin-mesh/wire/src/flow.rs 126-129 TokenBucket::consume (wait) *)
Definition wait_duration (amount : Z) (self : TokenBucket) : outcome spec_float :=
  let tokens_needed := saturating_sub amount (tokens self) in
  let wait_secs := f64_div (f64_of_u64 tokens_needed) (f64_of_u64 (refill_rate (bucket_config self))) in
  from_secs_f64 (f64_max wait_secs (f64_lit 1 1000)).

(** [consume], with the times at which it wakes up and tries. *)
(* src: mielin-mesh/wire/src/flow.rs 119-132 TokenBucket::consume *)
Fixpoint consume (times : list (Z * Z)) (amount : Z) (self : TokenBucket) : outcome TokenBucket :=
  match times with
  | [] => Timeout
  | (t1, t2) :: times' =>
    let! (ok, self) := try_consume t1 t2 amount self in
    if ok then Ret self else
    let! _ := wait_duration amount self in
    consume times' amount self
  end.

(* src: mielin-mesh/wire/src/flow.rs 160-162 TokenBucket::available *)
Definition available (self : TokenBucket) : Z := tokens self.

(* src: mielin-mesh/wire/src/flow.rs 165-167 TokenBucket::fill_ratio *)
Definition fill_ratio (self : TokenBucket) : spec_float :=
  f64_div (f64_of_u64 (tokens self)) (f64_of_u64 (capacity (bucket_config self))).

End TokenBucket.

(** ** Back-pressure *)

(** [NoPressure] is [BackpressureLevel::None]. *)
(* src: mielin-mesh/wire/src/flow.rs 186-197 BackpressureLevel *)
Inductive BackpressureLevel : Type := NoPressure | Light | Moderate | Heavy | Critical.

#[export] Instance BackpressureLevel_eq_dec : EqDecision BackpressureLevel.
Proof. solve_decision. Defined.

Module BackpressureLevel.

(** [level as u64]. *)
Definition as_u64 (self : BackpressureLevel) : Z :=
  match self with NoPressure => 0 | Light => 1 | Moderate => 2 | Heavy => 3 | Critical => 4 end.

(* src: mielin-mesh/wire/src/flow.rs 201-209 BackpressureLevel::rate_multiplier *)
Definition rate_multiplier (self : BackpressureLevel) : spec_float :=
  match self with
  | NoPressure => f64_one
  | Light => f64_lit 8 10
  | Moderate => f64_lit 5 10
  | Heavy => f64_lit 2 10
  | Critical => f64_zero
  end.

(* src: mielin-mesh/wire/src/flow.rs 212-224 BackpressureLevel::from_fill_ratio *)
Definition from_fill_ratio (ratio : spec_float) : BackpressureLevel :=
  if SFltb ratio (f64_lit 5 10) then NoPressure
  else if SFltb ratio (f64_lit 7 10) then Light
  else if SFltb ratio (f64_lit 85 100) then Moderate
  else if SFltb ratio (f64_lit 95 100) then Heavy
  else Critical.

End BackpressureLevel.

(* src: mielin-mesh/wire/src/flow.rs 244-257 BackpressureReason *)
Inductive BackpressureReason : Type :=
| QueueFull | MemoryPressure | CpuOverload | NetworkCongestion | DownstreamPressure | Unknown.

(** The sixteen bytes of a peer. *)
Definition PeerId : Type := list Z.

(* src: mielin-mesh/wire/src/flow.rs 229-240 BackpressureSignal *)
Record BackpressureSignal : Type := mkSignal {
  sig_peer_id : PeerId;
  level : BackpressureLevel;
  suggested_rate : Z;
  timestamp : Z;
  reason : BackpressureReason;
}.

Module BackpressureSignal.

(** [now] is the time in milliseconds since the epoch. *)
(* src: mielin-mesh/wire/src/flow.rs 261-280 BackpressureSignal::new *)
Definition new (now : Z) (peer : PeerId) (level : BackpressureLevel) (reason : BackpressureReason) : BackpressureSignal :=
  let suggested_rate :=
    match level with
    | NoPressure => U64_MAX
    | Light => 8000000
    | Moderate => 4000000
    | Heavy => 1000000
    | Critical => 0
    end in
  mkSignal peer level suggested_rate now reason.

(* src: mielin-mesh/wire/src/flow.rs 283-290 BackpressureSignal::is_recent *)
Definition is_recent (now threshold_ms : Z) (self : BackpressureSignal) : bool :=
  saturating_sub now (timestamp self) <? threshold_ms.

End BackpressureSignal.

(* src: mielin-mesh/wire/src/flow.rs 295-306 BackpressureController *)
Record BackpressureController : Type := mkBackpressure {
  outbound : Z;
  inbound : Z;
  paused : bool;
  pending_signals : list BackpressureSignal;
  received_signals : gmap PeerId BackpressureSignal;
}.

Module BackpressureController.

(* src: mielin-mesh/wire/src/flow.rs 316-324 BackpressureController::new *)
Definition new : BackpressureController := mkBackpressure 0 0 false [] ∅.

(** The two stores of a call of [set_outbound_level]. *)
Inductive set_pc : Type := StoreLevel (l : BackpressureLevel) | StorePaused (l : BackpressureLevel) | LevelSet.

(* src: mielin-mesh/wire/src/flow.rs 327-331 BackpressureController::set_outbound_level *)
Definition set_step (pc : set_pc) (self : BackpressureController) : set_pc * BackpressureController :=
  match pc with
  | StoreLevel l =>
    (StorePaused l, mkBackpressure (BackpressureLevel.as_u64 l) (inbound self) (paused self) (pending_signals self) (received_signals self))
  | StorePaused l =>
    (LevelSet, mkBackpressure (outbound self) (inbound self) (bool_decide (l = Critical)) (pending_signals self) (received_signals self))
  | LevelSet => (LevelSet, self)
  end.

(* src: mielin-mesh/wire/src/flow.rs 327-331 BackpressureController::set_outbound_level *)
Definition set_outbound_level (l : BackpressureLevel) (self : BackpressureController) : BackpressureController :=
  let '(pc, self) := set_step (StoreLevel l) self in snd (set_step pc self).

(** The match of both readers. *)
(* src: mielin-mesh/wire/src/flow.rs 334-342 BackpressureController::outbound_level *)
Definition outbound_level (self : BackpressureController) : BackpressureLevel :=
  if outbound self =? 0 then NoPressure
  else if outbound self =? 1 then Light
  else if outbound self =? 2 then Moderate
  else if outbound self =? 3 then Heavy
  else Critical.

(* src: mielin-mesh/wire/src/flow.rs 345-347 BackpressureController::set_inbound_level *)
Definition set_inbound_level (l : BackpressureLevel) (self : BackpressureController) : BackpressureController :=
  mkBackpressure (outbound self) (BackpressureLevel.as_u64 l) (paused self) (pending_signals self) (received_signals self).

(* src: mielin-mesh/wire/src/flow.rs 350-358 BackpressureController::inbound_level *)
Definition inbound_level (self : BackpressureController) : BackpressureLevel :=
  if inbound self =? 0 then NoPressure
  else if inbound self =? 1 then Light
  else if inbound self =? 2 then Moderate
  else if inbound self =? 3 then Heavy
  else Critical.

(* src: mielin-mesh/wire/src/flow.rs 361-363 BackpressureController::is_paused *)
Definition is_paused (self : BackpressureController) : bool := paused self.

Definition set_received (r : gmap PeerId BackpressureSignal) (self : BackpressureController) : BackpressureController :=
  mkBackpressure (outbound self) (inbound self) (paused self) (pending_signals self) r.

(* src: mielin-mesh/wire/src/flow.rs 366-368 BackpressureController::queue_signal *)
Definition queue_signal (s : BackpressureSignal) (self : BackpressureController) : BackpressureController :=
  mkBackpressure (outbound self) (inbound self) (paused self) (pending_signals self ++ [s]) (received_signals self).

(* src: mielin-mesh/wire/src/flow.rs 371-373 BackpressureController::take_pending_signals *)
Definition take_pending_signals (self : BackpressureController) : list BackpressureSignal * BackpressureController :=
  (pending_signals self, mkBackpressure (outbound self) (inbound self) (paused self) [] (received_signals self)).

(* src: mielin-mesh/wire/src/flow.rs 376-379 BackpressureController::receive_signal *)
Definition receive_signal (s : BackpressureSignal) (self : BackpressureController) : BackpressureController :=
  set_received (<[sig_peer_id s := s]> (received_signals self)) self.

(* src: mielin-mesh/wire/src/flow.rs 382-384 BackpressureController::peer_signal *)
Definition peer_signal (peer : PeerId) (self : BackpressureController) : option BackpressureSignal :=
  received_signals self !! peer.

(* src: mielin-mesh/wire/src/flow.rs 387-399 BackpressureController::effective_rate_multiplier *)
Definition effective_rate_multiplier (now : Z) (peer : PeerId) (self : BackpressureController) : spec_float :=
  let multiplier := BackpressureLevel.rate_multiplier (outbound_level self) in
  match peer_signal peer self with
  | Some s =>
    if BackpressureSignal.is_recent now 5000 s then f64_min multiplier (BackpressureLevel.rate_multiplier (level s)) else multiplier
  | None => multiplier
  end.

(* src: mielin-mesh/wire/src/flow.rs 402-405 BackpressureController::cleanup_old_signals *)
Definition cleanup_old_signals (now max_age_ms : Z) (self : BackpressureController) : BackpressureController :=
  set_received (base.filter (λ kv, BackpressureSignal.is_recent now max_age_ms kv.2 = true) (received_signals self)) self.

End BackpressureController.

(** ** Congestion control *)

(** [NoControl] is [CongestionAlgorithm::None]. *)
(* src: mielin-mesh/wire/src/flow.rs 414-423 CongestionAlgorithm *)
Inductive CongestionAlgorithm : Type := NoControl | Aimd | Cubic | Bbr.

(* src: mielin-mesh/wire/src/flow.rs 433-448 CongestionConfig *)
Record CongestionConfig : Type := mkCongestionConfig {
  algorithm : CongestionAlgorithm;
  initial_window : Z;
  min_window : Z;
  max_window : Z;
  aimd_increase : Z;
  aimd_decrease : spec_float;
  rtt_alpha : spec_float;
}.

(* src: mielin-mesh/wire/src/flow.rs 451-461 CongestionConfig::default *)
Definition default_congestion_config : CongestionConfig :=
  mkCongestionConfig Aimd 64000 4000 16000000 16000 (f64_lit 5 10) (f64_lit 125 1000).

(* src: mielin-mesh/wire/src/flow.rs 466-473 CongestionState *)
Inductive CongestionState : Type := SlowStart | CongestionAvoidance | Recovery.

(* src: mielin-mesh/wire/src/flow.rs 483-504 CongestionController *)
Record CongestionController : Type := mkCongestion {
  cc_config : CongestionConfig;
  cwnd : Z;
  ssthresh : Z;
  cc_state : CongestionState;
  srtt : Z;
  rttvar : Z;
  bytes_in_flight : Z;
  acks_received : Z;
  packets_lost : Z;
  last_reduction : option Z;
}.

(** [Ord::clamp], which asserts that the bounds are in order. *)
Definition clamp (x lo hi : Z) : outcome Z := if hi <? lo then Panic else Ret (Z.max lo (Z.min x hi)).

(** [(a as i64 - b as i64).unsigned_abs()], with the subtraction checked. *)
Definition i64_abs_diff (a b : Z) : outcome Z :=
  let d := as_i64 a - as_i64 b in
  if (-9223372036854775808 <=? d) && (d <=? 9223372036854775807) then Ret (Z.abs d) else Panic.

Module CongestionController.

(* src: mielin-mesh/wire/src/flow.rs 508-521 CongestionController::new *)
Definition new (config : CongestionConfig) : CongestionController :=
  mkCongestion config (initial_window config) (max_window config) SlowStart 0 0 0 0 0 None.

(* src: mielin-mesh/wire/src/flow.rs 524-526 CongestionController::default_controller *)
Definition default_controller : CongestionController := new default_congestion_config.

Definition set_cwnd (x : Z) (s : CongestionController) : CongestionController :=
  mkCongestion (cc_config s) x (ssthresh s) (cc_state s) (srtt s) (rttvar s) (bytes_in_flight s) (acks_received s) (packets_lost s) (last_reduction s).
Definition set_ssthresh (x : Z) (s : CongestionController) : CongestionController :=
  mkCongestion (cc_config s) (cwnd s) x (cc_state s) (srtt s) (rttvar s) (bytes_in_flight s) (acks_received s) (packets_lost s) (last_reduction s).
Definition set_state (x : CongestionState) (s : CongestionController) : CongestionController :=
  mkCongestion (cc_config s) (cwnd s) (ssthresh s) x (srtt s) (rttvar s) (bytes_in_flight s) (acks_received s) (packets_lost s) (last_reduction s).
Definition set_srtt (x : Z) (s : CongestionController) : CongestionController :=
  mkCongestion (cc_config s) (cwnd s) (ssthresh s) (cc_state s) x (rttvar s) (bytes_in_flight s) (acks_received s) (packets_lost s) (last_reduction s).
Definition set_rttvar (x : Z) (s : CongestionController) : CongestionController :=
  mkCongestion (cc_config s) (cwnd s) (ssthresh s) (cc_state s) (srtt s) x (bytes_in_flight s) (acks_received s) (packets_lost s) (last_reduction s).
Definition set_in_flight (x : Z) (s : CongestionController) : CongestionController :=
  mkCongestion (cc_config s) (cwnd s) (ssthresh s) (cc_state s) (srtt s) (rttvar s) x (acks_received s) (packets_lost s) (last_reduction s).
Definition set_acks (x : Z) (s : CongestionController) : CongestionController :=
  mkCongestion (cc_config s) (cwnd s) (ssthresh s) (cc_state s) (srtt s) (rttvar s) (bytes_in_flight s) x (packets_lost s) (last_reduction s).
Definition set_lost (x : Z) (s : CongestionController) : CongestionController :=
  mkCongestion (cc_config s) (cwnd s) (ssthresh s) (cc_state s) (srtt s) (rttvar s) (bytes_in_flight s) (acks_received s) x (last_reduction s).
Definition set_reduction (x : option Z) (s : CongestionController) : CongestionController :=
  mkCongestion (cc_config s) (cwnd s) (ssthresh s) (cc_state s) (srtt s) (rttvar s) (bytes_in_flight s) (acks_received s) (packets_lost s) x.

(* src: mielin-mesh/wire/src/flow.rs 534-538 CongestionController::available_window *)
Definition available_window (self : CongestionController) : Z := saturating_sub (cwnd self) (bytes_in_flight self).

(* src: mielin-mesh/wire/src/flow.rs 541-543 CongestionController::can_send *)
Definition can_send (bytes : Z) (self : CongestionController) : bool := bytes <=? available_window self.

(* src: mielin-mesh/wire/src/flow.rs 546-548 CongestionController::record_sent *)
Definition record_sent (bytes : Z) (self : CongestionController) : CongestionController :=
  set_in_flight (wrap64 (bytes_in_flight self + bytes)) self.

(** The average [(1.0 - alpha) * old + alpha * sample], cut off to an integer. *)
(* src: mielin-mesh/wire/src/flow.rs 600-600 CongestionController::update_rtt (new_srtt) *)
Definition average (config : CongestionConfig) (old sample : Z) : Z :=
  f64_as_usize (f64_add (f64_mul (f64_sub f64_one (rtt_alpha config)) (f64_of_u64 old))
                        (f64_mul (rtt_alpha config) (f64_of_u64 sample))).

(** The window and the state after an acknowledgement. *)
(* src: mielin-mesh/wire/src/flow.rs 617-634 CongestionController::aimd_ack (new_cwnd) *)
Definition grow (config : CongestionConfig) (st : CongestionState) (bytes cwnd ssthresh : Z) : outcome (Z * CongestionState) :=
  match st with
  | SlowStart =>
    let! new := usize_add cwnd bytes in
    Ret (new, if ssthresh <=? new then CongestionAvoidance else SlowStart)
  | CongestionAvoidance | Recovery =>
    let! p := usize_mul (aimd_increase config) bytes in
    let! q := usize_div p cwnd in
    let! new := usize_add cwnd (Z.max q 1) in
    Ret (new, st)
  end.

(** Calls of [record_ack] and [record_loss]: where they are. *)
Inductive cc_pc : Type :=
| AckLoad (bytes rtt_us : Z)
| AckSub (bytes rtt_us m : Z)
| AckCount (bytes rtt_us : Z)
| RttLoad (bytes rtt_us : Z)
| RttFirst (bytes rtt_us : Z)
| RttFirstVar (bytes rtt_us : Z)
| RttStore (bytes rtt_us srtt : Z)
| RttVarLoad (bytes rtt_us srtt : Z)
| RttVarStore (bytes rtt_us srtt rttvar : Z)
| AckCwnd (bytes : Z)
| AckSsthresh (bytes cwnd : Z)
| AckState (bytes cwnd ssthresh : Z)
| LossLoad (bytes : Z)
| LossSub (m : Z)
| LossCount
| LossLock
| LossCwnd
| LossStore (cwnd : Z)
| LossSsthresh (new_cwnd : Z)
| LossState
| Recorded.

(** After the round-trip time the window is updated, unless nothing controls it. *)
Definition after_rtt (config : CongestionConfig) (bytes : Z) : cc_pc :=
  match algorithm config with NoControl => Recorded | Aimd | Cubic | Bbr => AckCwnd bytes end.

(** One access.  The store of the window at the end of [aimd_ack] is made under the
    lock of the state, which is not read without it. *)
(* src: mielin-mesh/wire/src/flow.rs 551-664 CongestionController::record_ack, record_loss, update_rtt, aimd_ack, aimd_loss *)
Definition cc_step (now : Z) (pc : cc_pc) (self : CongestionController) : outcome (cc_pc * CongestionController) :=
  let config := cc_config self in
  match pc with
  | AckLoad bytes rtt_us => Ret (AckSub bytes rtt_us (Z.min bytes (bytes_in_flight self)), self)
  | AckSub bytes rtt_us m => Ret (AckCount bytes rtt_us, set_in_flight (wrap64 (bytes_in_flight self - m)) self)
  | AckCount bytes rtt_us => Ret (RttLoad bytes rtt_us, set_acks (wrap64 (acks_received self + 1)) self)
  | RttLoad bytes rtt_us =>
    Ret (if srtt self =? 0 then RttFirst bytes rtt_us else RttStore bytes rtt_us (srtt self), self)
  | RttFirst bytes rtt_us => Ret (RttFirstVar bytes rtt_us, set_srtt rtt_us self)
  | RttFirstVar bytes rtt_us => Ret (after_rtt config bytes, set_rttvar (rtt_us / 2) self)
  | RttStore bytes rtt_us srtt => Ret (RttVarLoad bytes rtt_us srtt, set_srtt (average config srtt rtt_us) self)
  | RttVarLoad bytes rtt_us srtt => Ret (RttVarStore bytes rtt_us srtt (rttvar self), self)
  | RttVarStore bytes rtt_us srtt rttvar =>
    let! diff := i64_abs_diff rtt_us srtt in
    Ret (after_rtt config bytes, set_rttvar (average config rttvar diff) self)
  | AckCwnd bytes => Ret (AckSsthresh bytes (cwnd self), self)
  | AckSsthresh bytes cwnd => Ret (AckState bytes cwnd (ssthresh self), self)
  | AckState bytes cwnd ssthresh =>
    let! (new_cwnd, st) := grow config (cc_state self) bytes cwnd ssthresh in
    let! c := clamp new_cwnd (min_window config) (max_window config) in
    Ret (Recorded, set_cwnd c (set_state st self))
  | LossLoad bytes => Ret (LossSub (Z.min bytes (bytes_in_flight self)), self)
  | LossSub m => Ret (LossCount, set_in_flight (wrap64 (bytes_in_flight self - m)) self)
  | LossCount =>
    Ret (match algorithm config with NoControl => Recorded | Aimd | Cubic | Bbr => LossLock end,
         set_lost (wrap64 (packets_lost self + 1)) self)
  | LossLock =>
    let recent := match last_reduction self with Some last => elapsed last now <? 100000000 | None => false end in
    if recent then Ret (Recorded, self) else Ret (LossCwnd, set_reduction (Some now) self)
  | LossCwnd => Ret (LossStore (cwnd self), self)
  | LossStore cwnd =>
    let new_cwnd := f64_as_usize (f64_mul (f64_of_u64 cwnd) (aimd_decrease config)) in
    let! c := clamp new_cwnd (min_window config) (max_window config) in
    Ret (LossSsthresh c, set_cwnd c self)
  | LossSsthresh new_cwnd => Ret (LossState, set_ssthresh new_cwnd self)
  | LossState => Ret (Recorded, set_state Recovery self)
  | Recorded => Ret (Recorded, self)
  end.

Fixpoint cc_run (fuel : nat) (now : Z) (pc : cc_pc) (self : CongestionController) : outcome CongestionController :=
  match pc with
  | Recorded => Ret self
  | _ =>
    match fuel with
    | O => Timeout
    | S fuel' => let! (pc', self') := cc_step now pc self in cc_run fuel' now pc' self'
    end
  end.

(** No call has more than ten accesses. *)
(* src: mielin-mesh/wire/src/flow.rs 551-571 CongestionController::record_ack *)
Definition record_ack (bytes rtt_us : Z) (self : CongestionController) : outcome CongestionController :=
  cc_run 10 0 (AckLoad bytes rtt_us) self.

(* src: mielin-mesh/wire/src/flow.rs 574-587 CongestionController::record_loss *)
Definition record_loss (now bytes : Z) (self : CongestionController) : outcome CongestionController :=
  cc_run 10 now (LossLoad bytes) self.

(* src: mielin-mesh/wire/src/flow.rs 695-705 CongestionController::reset *)
Definition reset (self : CongestionController) : CongestionController :=
  mkCongestion (cc_config self) (initial_window (cc_config self)) (max_window (cc_config self)) SlowStart 0 0 0
    (acks_received self) (packets_lost self) None.

End CongestionController.

(** ** The flow controller of a connection *)

(* src: mielin-mesh/wire/src/flow.rs 725-734 FlowController *)
Record FlowController : Type := mkFlow {
  rate_limiter : TokenBucket;
  backpressure : BackpressureController;
  congestion : CongestionController;
  peer_id : PeerId;
}.

Module FlowController.

(* src: mielin-mesh/wire/src/flow.rs 738-749 FlowController::new *)
Definition new (peer_id : PeerId) (rate_config : TokenBucketConfig) (congestion_config : CongestionConfig) (now : Z) : FlowController :=
  mkFlow (TokenBucket.new rate_config now) BackpressureController.new (CongestionController.new congestion_config) peer_id.

(* src: mielin-mesh/wire/src/flow.rs 752-758 FlowController::default_controller *)
Definition default_controller (peer_id : PeerId) (now : Z) : FlowController :=
  new peer_id TokenBucketConfig.default default_congestion_config now.

Definition set_limiter (b : TokenBucket) (self : FlowController) : FlowController :=
  mkFlow b (backpressure self) (congestion self) (peer_id self).
Definition set_congestion (c : CongestionController) (self : FlowController) : FlowController :=
  mkFlow (rate_limiter self) (backpressure self) c (peer_id self).

(* src: mielin-mesh/wire/src/flow.rs 761-774 FlowController::can_send *)
Definition can_send (t1 t2 bytes : Z) (self : FlowController) : outcome (bool * FlowController) :=
  if BackpressureController.is_paused (backpressure self) then Ret (false, self)
  else if negb (CongestionController.can_send bytes (congestion self)) then Ret (false, self)
  else
    let! (ok, b) := TokenBucket.try_consume t1 t2 bytes (rate_limiter self) in
    Ret (ok, set_limiter b self).

(** A call of [wait_to_send] sleeps between its polls. *)
Inductive wait_pc : Type := WaitResume | WaitWindow | WaitTokens | Ready.

(* src: mielin-mesh/wire/src/flow.rs 777-790 FlowController::wait_to_send *)
Definition wait_step (t1 t2 bytes : Z) (pc : wait_pc) (self : FlowController) : outcome (wait_pc * FlowController) :=
  match pc with
  | WaitResume => Ret (if BackpressureController.is_paused (backpressure self) then WaitResume else WaitWindow, self)
  | WaitWindow => Ret (if CongestionController.can_send bytes (congestion self) then WaitTokens else WaitWindow, self)
  | WaitTokens =>
    let! (ok, b) := TokenBucket.try_consume t1 t2 bytes (rate_limiter self) in
    if ok then Ret (Ready, set_limiter b self) else
    let! _ := TokenBucket.wait_duration bytes b in
    Ret (WaitTokens, set_limiter b self)
  | Ready => Ret (Ready, self)
  end.

(* src: mielin-mesh/wire/src/flow.rs 793-795 FlowController::record_sent *)
Definition record_sent (bytes : Z) (self : FlowController) : FlowController :=
  set_congestion (CongestionController.record_sent bytes (congestion self)) self.

(* src: mielin-mesh/wire/src/flow.rs 798-800 FlowController::record_ack *)
Definition record_ack (bytes rtt_us : Z) (self : FlowController) : outcome FlowController :=
  let! c := CongestionController.record_ack bytes rtt_us (congestion self) in Ret (set_congestion c self).

(* src: mielin-mesh/wire/src/flow.rs 803-805 FlowController::record_loss *)
Definition record_loss (now bytes : Z) (self : FlowController) : outcome FlowController :=
  let! c := CongestionController.record_loss now bytes (congestion self) in Ret (set_congestion c self).

(* src: mielin-mesh/wire/src/flow.rs 808-815 FlowController::effective_rate *)
Definition effective_rate (now : Z) (self : FlowController) : Z :=
  let base_rate := refill_rate (bucket_config (rate_limiter self)) in
  let multiplier := BackpressureController.effective_rate_multiplier now (peer_id self) (backpressure self) in
  f64_as_usize (f64_mul (f64_of_u64 base_rate) multiplier).

End FlowController.
