(* ===== verification/FlowProps.v ===== *)
(** * Theorems on flow control *)

From stdpp Require Import base tactics option list numbers gmap relations.
From Stdlib Require Import SpecFloat.
From S2P Require Import Prelude Float Flow.
Import TokenBucket.

Lemma f64_as_usize_range x : 0 <= f64_as_usize x <= U64_MAX.
Proof. unfold f64_as_usize. destruct x as [|[]| |]; try lia. unfold clamp_usize. lia. Qed.

Lemma new_tokens_range config t : 0 <= new_tokens config t <= U64_MAX.
Proof. apply f64_as_usize_range. Qed.

(** ** Consumers that interleave *)

(** A bucket, the calls on it and what the clock shows. *)
Record bucket_system : Type := mkBucketSystem {
  bucket : TokenBucket;
  consumers : list consume_pc;
  clock : Z;
}.

(** A call begins, or makes its next access; the clock does not go back. *)
Inductive bucket_step : bucket_system → bucket_system → Prop :=
| bucket_call b pcs t amount :
    0 <= amount <= U64_MAX → bucket_step (mkBucketSystem b pcs t) (mkBucketSystem b (pcs ++ [RefillLock amount]) t)
| bucket_move b pcs t i pc t1 t2 weak pc' b' :
    pcs !! i = Some pc → t <= t1 → t1 <= t2 → consume_step t1 t2 weak pc b = Ret (pc', b') →
    bucket_step (mkBucketSystem b pcs t) (mkBucketSystem b' (<[i := pc']> pcs) t2).

(** The tokens a call was given, and those it still has to put in. *)
Definition grant (pc : consume_pc) : Z := match pc with Consumed a true => a | _ => 0 end.
Definition pending_refill (pc : consume_pc) : Z :=
  match pc with RefillLoad _ n | RefillExchange _ n _ => n | _ => 0 end.

Definition pc_ok (pc : consume_pc) : Prop :=
  match pc with
  | RefillLock a | ConsumeLoad a | Consumed a _ => 0 <= a
  | RefillLoad a n => 0 <= a ∧ 0 <= n
  | RefillExchange a n c => 0 <= a ∧ 0 <= n ∧ 0 <= c
  | ConsumeExchange a c => 0 <= a ∧ 0 <= c
  end.

Section bucket.
Context (config : TokenBucketConfig) (start : Z).
Context (capacity_ok : 0 <= capacity config) (initial_ok : 0 <= initial_tokens config).

Definition credit (ds : list Z) : Z := sum_by (new_tokens config) ds.

Record bucket_ok (x : bucket_system) : Prop := {
  ok_config : bucket_config (bucket x) = config;
  ok_tokens : 0 <= tokens (bucket x) <= Z.max (capacity config) (initial_tokens config);
  ok_last : start <= last_refill (bucket x) <= clock x;
  ok_pcs : Forall pc_ok (consumers x);
  ok_credit : ∃ ds, Forall (λ d, 0 <= d) ds ∧ sum_by id ds <= last_refill (bucket x) - start ∧
    sum_by grant (consumers x) + sum_by pending_refill (consumers x) + tokens (bucket x) <= initial_tokens config + credit ds;
}.

(** A move that keeps the tokens of the call and of the bucket, but for what the
    times [ns] are worth. *)
Lemma bucket_ok_move b pcs t i pc t1 t2 pc' b' ns :
  bucket_ok (mkBucketSystem b pcs t) → pcs !! i = Some pc → t <= t1 → t1 <= t2 →
  pc_ok pc' → bucket_config b' = config → 0 <= tokens b' <= Z.max (capacity config) (initial_tokens config) →
  last_refill b' = last_refill b ∨ last_refill b' = t2 → Forall (λ d, 0 <= d) ns → sum_by id ns <= last_refill b' - last_refill b →
  grant pc' + pending_refill pc' + tokens b' <= grant pc + pending_refill pc + tokens b + credit ns →
  bucket_ok (mkBucketSystem b' (<[i := pc']> pcs) t2).
Proof.
  intros [_ _ Hl Hp (ds & Hds & Hsum & Hcr)] Hi H1 H2 Hpc' Hc' Ht' Hl' Hn Hn' Hle. cbn [bucket consumers clock] in *.
  split; cbn [bucket consumers clock]; try done; [|by apply Forall_insert|].
  { pose proof (sum_by_nonneg id ns ltac:(by apply Forall_forall)). lia. }
  rewrite (sum_by_insert grant _ _ _ pc' Hi), (sum_by_insert pending_refill _ _ _ pc' Hi).
  exists (ns ++ ds). unfold credit in *. rewrite !sum_by_app. split_and!; [by apply Forall_app|lia|lia].
Qed.

Local Ltac moves H ns :=
  apply (bucket_ok_move _ _ _ _ _ _ _ _ _ ns H ltac:(eassumption) ltac:(eassumption) ltac:(eassumption));
  cbn [pc_ok grant pending_refill set_tokens set_last bucket_config tokens last_refill]; try change (credit []) with 0; try change (sum_by id []) with 0; try done; try lia; auto; try (by constructor).

Lemma bucket_step_ok x y : bucket_ok x → bucket_step x y → bucket_ok y.
Proof.
  intros Hok Hst. pose proof Hok as [Hc Ht Hl Hp (ds & Hds & Hsum & Hcr)].
  destruct Hst as [b pcs t a Ha|b pcs t i pc t1 t2 weak pc' b' Hi H1 H2 E]; cbn [bucket consumers clock] in *.
  { split; cbn [bucket consumers clock]; try done; [apply Forall_app; split; [done|]; apply Forall_singleton; simpl; lia|].
    exists ds. rewrite !sum_by_app. simpl. split_and!; [done|done|lia]. }
  pose proof (Forall_lookup_1 _ _ _ _ Hp Hi) as Hpc.
  destruct pc as [a|a n|a n c|a|a c|a ok]; cbn [consume_step pc_ok] in E, Hpc.
  - injection E as <- <-. rewrite Hc. set (d := elapsed (last_refill b) t1) in *. pose proof (new_tokens_range config d).
    assert (0 <= d <= t1 - last_refill b) by (unfold d, elapsed, saturating_sub; lia).
    assert (credit [d] = new_tokens config d) by apply Z.add_0_r. assert (sum_by id [d] = d) by apply Z.add_0_r.
    destruct (Z.ltb_spec 0 (new_tokens config d)); moves Hok [d].
    all: repeat constructor; lia.
  - injection E as <- <-. moves Hok (@nil Z).
  - destruct (usize_add c n) as [sum| |] eqn:Es; [|done|done]. apply checked_ret in Es as [-> Hs]. cbn [obind] in E.
    destruct (weak && (tokens b =? c)) eqn:Ew; injection E as <- <-; [|moves Hok (@nil Z)].
    apply andb_true_iff in Ew as [_ Ew%Z.eqb_eq]. rewrite Hc. moves Hok (@nil Z).
  - injection E as <- <-. moves Hok (@nil Z).
  - destruct (Z.ltb_spec c a); [injection E as <- <-; moves Hok (@nil Z)|].
    destruct (weak && (tokens b =? c)) eqn:Ew; injection E as <- <-; [|moves Hok (@nil Z)].
    apply andb_true_iff in Ew as [_ Ew%Z.eqb_eq]. moves Hok (@nil Z).
  - injection E as <- <-. destruct ok; moves Hok (@nil Z).
Qed.

(** C7. However the calls of [try_consume] interleave, the bucket never holds more
    than its capacity (or what it started with), and the tokens that were given out
    are covered by those it started with and those that disjoint stretches of the
    time that has passed are worth; a call can always go on, except that adding the
    new tokens may overflow 64 bits. *)
Theorem bucket_rate_bound x :
  rtc bucket_step (mkBucketSystem (new config start) [] start) x →
  0 <= tokens (bucket x) <= Z.max (capacity config) (initial_tokens config) ∧
  (∃ ds, Forall (λ d, 0 <= d) ds ∧ sum_by id ds <= clock x - start ∧
    sum_by grant (consumers x) + tokens (bucket x) <= initial_tokens config + sum_by (new_tokens config) ds) ∧
  (∀ i pc t1 t2 weak, consumers x !! i = Some pc →
    match consume_step t1 t2 weak pc (bucket x) with
    | Ret _ => True
    | Panic => ∃ a n c, pc = RefillExchange a n c ∧ U64_MAX < c + n
    | Timeout => False
    end).
Proof.
  intros Hrun. assert (bucket_ok x) as [Hc Ht Hl Hp (ds & Hds & Hsum & Hcr)].
  { apply (rtc_preserves _ bucket_ok _ _ bucket_step_ok Hrun). split; simpl; [done|lia|lia|constructor|]. exists []. unfold credit. simpl. split_and!; [constructor|lia|lia]. }
  split; [done|]. split; [exists ds; split_and!; [done|lia|]|].
  - assert (0 <= sum_by pending_refill (consumers x)); [|unfold credit in *; lia]. apply sum_by_nonneg. intros pc Hpc.
    rewrite Forall_forall in Hp. specialize (Hp pc Hpc). destruct pc; simpl in *; lia.
  - intros i pc t1 t2 weak Hi. pose proof (Forall_lookup_1 _ _ _ _ Hp Hi) as Hpc.
    destruct pc as [a|a n|a n c|a|a c|a ok]; cbn [consume_step] in *; try done.
    + unfold usize_add. destruct (decide (c + n <= U64_MAX)).
      * rewrite checked_ok by (simpl in Hpc; lia). cbn [obind]. by destruct (_ && _).
      * rewrite checked_panic by lia. exists a, n, c. split; [done|lia].
    + destruct (c <? a); [done|]. by destruct (_ && _).
Qed.
End bucket.

(** *** A run of two consumers *)

Inductive bucket_act : Type := ACall (amount : Z) | AMove (i : nat) (t : Z) (weak : bool).

Definition bucket_do (a : bucket_act) (x : bucket_system) : option bucket_system :=
  match a with
  | ACall amount => if (0 <=? amount) && (amount <=? U64_MAX) then Some (mkBucketSystem (bucket x) (consumers x ++ [RefillLock amount]) (clock x)) else None
  | AMove i t weak =>
    pc ← consumers x !! i;
    if t <? clock x then None else
    match consume_step t t weak pc (bucket x) with
    | Ret (pc', b') => Some (mkBucketSystem b' (<[i := pc']> (consumers x)) t)
    | _ => None
    end
  end.

Lemma bucket_do_run acts : ∀ x y, foldl (λ o a, o ≫= bucket_do a) (Some x) acts = Some y → rtc bucket_step x y.
Proof.
  induction acts as [|a acts IH]; intros x y E; [injection E as <-; by apply rtc_refl|]. cbn [foldl] in E.
  destruct (Some x ≫= bucket_do a) as [z|] eqn:Ez.
  - eapply rtc_l; [|by apply IH]. destruct x as [b pcs t]. cbn [mbind option_bind] in Ez. destruct a as [amount|i t' weak]; cbn [bucket_do bucket consumers clock] in Ez.
    + destruct (_ && _) eqn:Ea; [|done]. injection Ez as <-. constructor. lia.
    + destruct (pcs !! i) as [pc|] eqn:Ei; [|done]. cbn [mbind option_bind] in Ez. destruct (Z.ltb_spec t' t); [done|].
      destruct (consume_step t' t' weak pc b) as [[pc' b']| |] eqn:Es; [|done|done]. injection Ez as <-. by eapply bucket_move; [..|exact Es].
  - exfalso. clear Ez IH. induction acts as [|a' acts IH']; [done|]. by apply IH'.
Qed.

Definition small_config : TokenBucketConfig := mkBucketConfig 10 1000 10.

(** Both calls see ten tokens; the second one's exchange fails, and four tokens and
    the two of two milliseconds are not enough for it. *)
Definition two_consumers : list bucket_act :=
  [ACall 6; ACall 7; AMove 0 0 true; AMove 0 0 true; AMove 0 0 true; AMove 1 2000000 true; AMove 1 2000000 true;
   AMove 1 2000000 false; AMove 1 2000000 true; AMove 1 2000000 true; AMove 1 2000000 true].

Lemma bucket_rate_bound_witness :
  match foldl (λ o a, o ≫= bucket_do a) (Some (mkBucketSystem (new small_config 0) [] 0)) two_consumers with
  | Some x => consumers x = [Consumed 6 true; Consumed 7 false] ∧ tokens (bucket x) = 6 ∧ 0 <= tokens (bucket x) <= 10
  | None => False
  end.
Proof.
  assert (match foldl (λ o a, o ≫= bucket_do a) (Some (mkBucketSystem (new small_config 0) [] 0)) two_consumers with
    | Some x => consumers x = [Consumed 6 true; Consumed 7 false] ∧ tokens (bucket x) = 6 | None => False end) as Hc by (vm_compute; done).
  destruct (foldl _ _ two_consumers) as [x|] eqn:E; [|done]. apply bucket_do_run in E. destruct Hc as [H1 H2].
  split_and!; [done|done|..].
  all: destruct (bucket_rate_bound small_config 0 ltac:(done) ltac:(done) x E) as ([??] & _); simpl in *; lia.
Defined.

(** ** Where the bucket does not do what it is for *)

(** A task that asks for a token every five milliseconds. *)
Fixpoint poll (n : nat) (t : Z) (b : TokenBucket) : outcome (bool * TokenBucket) :=
  match n with
  | O => Ret (false, b)
  | S n' => let t := t + 5000000 in let! (ok, b) := try_consume t t 1 b in if ok then Ret (true, b) else poll n' t b
  end.

(** At a hundred tokens a second it never gets one: each refill starts the time
    anew, and half a token is dropped. *)
Lemma polling_starves n : ∀ t,
  poll n t (mkBucket (mkBucketConfig 10 100 0) 0 t) = Ret (false, mkBucket (mkBucketConfig 10 100 0) 0 (t + 5000000 * Z.of_nat n)).
Proof.
  induction n as [|n IH]; intros t; cbn [poll]; [by rewrite Z.add_0_r|].
  assert (try_consume (t + 5000000) (t + 5000000) 1 (mkBucket (mkBucketConfig 10 100 0) 0 t) =
    Ret (false, mkBucket (mkBucketConfig 10 100 0) 0 (t + 5000000))) as ->.
  { unfold try_consume. cbn [consume_run consume_step obind bucket_config last_refill].
    replace (elapsed t (t + 5000000)) with 5000000 by (unfold elapsed, saturating_sub; lia).
    replace (0 <? new_tokens _ 5000000) with false by (vm_compute; reflexivity). done. }
  cbn [obind]. rewrite IH. do 3 f_equal. lia.
Qed.

(** [consume] of more than the capacity tries forever. *)
Lemma consume_above_capacity config amount times : ∀ b,
  bucket_config b = config → capacity config < amount → tokens b <= capacity config → 0 <= tokens b →
  match consume times amount b with Ret _ => False | _ => True end.
Proof.
  induction times as [|[t1 t2] times IH]; intros b Hc Ha Ht H0; [done|]. cbn [consume].
  assert (match try_consume t1 t2 amount b with
    | Ret (ok, b') => ok = false ∧ bucket_config b' = config ∧ 0 <= tokens b' <= capacity config | Panic => True | Timeout => False end) as Hs.
  { unfold try_consume. cbn [consume_run consume_step obind bucket_config last_refill].
    pose proof (new_tokens_range (bucket_config b) (elapsed (last_refill b) t1)) as Hn.
    set (n := new_tokens _ _) in *. destruct (0 <? n); cbn [consume_run consume_step obind tokens set_last bucket_config].
    - destruct (usize_add (tokens b) n) as [s| |] eqn:Es; [|done|by unfold usize_add, checked in Es; destruct (_ && _)].
      apply checked_ret in Es as [-> Hs]. cbn [obind andb]. rewrite Z.eqb_refl. cbn [consume_run consume_step obind tokens set_tokens bucket_config].
      destruct (Z.ltb_spec (Z.min (tokens b + n) (capacity (bucket_config b))) amount); [|rewrite Hc in *; lia].
      cbn [obind consume_run tokens set_tokens set_last bucket_config]. rewrite Hc. split_and!; [done|done|lia|lia].
    - destruct (Z.ltb_spec (tokens b) amount); [|lia]. cbn [obind consume_run tokens set_last bucket_config]. split_and!; [done|done|lia|lia]. }
  destruct (try_consume t1 t2 amount b) as [[ok b']| |]; [|done|done]. destruct Hs as (-> & Hc' & Ht'). cbn [obind].
  destruct (wait_duration amount b'); cbn [obind]; [|done|done]. apply IH; try done; lia.
Qed.

(** A rate that is meant as no limit overflows the addition of the new tokens. *)
Lemma unlimited_rate_panics : try_consume 2000000000 2000000000 1 (new (mkBucketConfig 100 U64_MAX 100) 0) = Panic.
Proof. vm_compute. reflexivity. Qed.

(** Without refill [consume] panics instead of waiting. *)
Lemma zero_rate_wait_panics : consume [(1, 1)] 5 (new (mkBucketConfig 10 0 1) 0) = Panic.
Proof. vm_compute. reflexivity. Qed.

(** Two calls of [set_outbound_level] that interleave: the level says no pressure
    and sending stays paused. *)
Lemma pause_outlives_level :
  let '(a1, s1) := BackpressureController.set_step (BackpressureController.StoreLevel Critical) BackpressureController.new in
  let '(b1, s2) := BackpressureController.set_step (BackpressureController.StoreLevel NoPressure) s1 in
  let '(b2, s3) := BackpressureController.set_step b1 s2 in
  let '(a2, s4) := BackpressureController.set_step a1 s3 in
  a2 = BackpressureController.LevelSet ∧ b2 = BackpressureController.LevelSet ∧
  BackpressureController.outbound_level s4 = NoPressure ∧ BackpressureController.is_paused s4 = true.
Proof. vm_compute. done. Qed.

(** ** Acknowledgements and losses that interleave *)

Import CongestionController.

(** A controller, the packets that were sent and not settled yet, and the calls. *)
Record cc_system : Type := mkCcSystem {
  controller : CongestionController;
  packets : list Z;
  records : list cc_pc;
}.

Section congestion.
Context (config : CongestionConfig) (packet_max : Z).

(** A packet is sent; an acknowledgement or a loss of a packet comes in, once for
    each packet; a call makes its next access. *)
Inductive cc_system_step : cc_system → cc_system → Prop :=
| cc_send s ps pcs bytes :
    0 <= bytes <= packet_max → bytes_in_flight s + bytes <= U64_MAX →
    cc_system_step (mkCcSystem s ps pcs) (mkCcSystem (record_sent bytes s) (bytes :: ps) pcs)
| cc_ack s ps ps' pcs bytes rtt :
    ps ≡ₚ bytes :: ps' → 0 <= rtt <= U64_MAX → cc_system_step (mkCcSystem s ps pcs) (mkCcSystem s ps' (pcs ++ [AckLoad bytes rtt]))
| cc_loss s ps ps' pcs bytes :
    ps ≡ₚ bytes :: ps' → cc_system_step (mkCcSystem s ps pcs) (mkCcSystem s ps' (pcs ++ [LossLoad bytes]))
| cc_move s ps pcs i pc now pc' s' :
    pcs !! i = Some pc → cc_step now pc s = Ret (pc', s') → cc_system_step (mkCcSystem s ps pcs) (mkCcSystem s' ps (<[i := pc']> pcs)).

(** The bytes that a call has still to take from those in flight. *)
Definition unsettled (pc : cc_pc) : Z :=
  match pc with AckLoad b _ | AckSub b _ _ | LossLoad b | LossSub b => b | _ => 0 end.

Definition in_window (c : Z) : Prop := min_window config <= c <= max_window config.
Definition packet_ok (b : Z) : Prop := 0 <= b <= packet_max.

(** What a call has read: the bytes in flight covered its own packet, and the window
    was in its bounds. *)
Definition record_ok (pc : cc_pc) : Prop :=
  match pc with
  | AckLoad b _ | AckCount b _ | RttLoad b _ | RttFirst b _ | RttFirstVar b _ | RttStore b _ _ | RttVarLoad b _ _
  | RttVarStore b _ _ _ | AckCwnd b | LossLoad b | LossSub b => packet_ok b
  | AckSub b _ m => packet_ok b ∧ m = b
  | AckSsthresh b c | AckState b c _ => packet_ok b ∧ in_window c
  | LossStore c | LossSsthresh c => in_window c
  | _ => True
  end.

Record config_ok : Prop := {
  window_ok : 1 <= min_window config <= max_window config;
  initial_window_ok : in_window (initial_window config);
  increase_ok : 0 <= aimd_increase config;
  increase_fits : max_window config + 1 + (aimd_increase config + 1) * packet_max <= U64_MAX;
}.

Record cc_ok (x : cc_system) : Prop := {
  ok_cc_config : cc_config (controller x) = config;
  ok_cwnd : in_window (cwnd (controller x));
  ok_ssthresh : in_window (ssthresh (controller x));
  ok_flight : bytes_in_flight (controller x) = sum_by id (packets x) + sum_by unsettled (records x);
  ok_flight_range : bytes_in_flight (controller x) <= U64_MAX;
  ok_packets : Forall packet_ok (packets x);
  ok_records : Forall record_ok (records x);
}.

Lemma unsettled_nonneg pcs : Forall record_ok pcs → ∀ pc, pc ∈ pcs → 0 <= unsettled pc.
Proof. rewrite Forall_forall. intros Hp pc Hpc. specialize (Hp pc Hpc). destruct pc; cbn [record_ok unsettled] in *; unfold packet_ok in *; lia. Qed.

Lemma packets_nonneg ps : Forall packet_ok ps → 0 <= sum_by id ps.
Proof. rewrite Forall_forall. intros Hp. apply sum_by_nonneg. intros b Hb. destruct (Hp b Hb). done. Qed.

Lemma clamp_window x : config_ok → ∃ c, clamp x (min_window config) (max_window config) = Ret c ∧ in_window c.
Proof.
  intros [Hw _ _ _]. unfold clamp, in_window. destruct (Z.ltb_spec (max_window config) (min_window config)); [lia|].
  eexists. split; [done|]. lia.
Qed.

(** Growth does not overflow. *)
Lemma grow_returns st bytes c ss : config_ok → packet_ok bytes → in_window c → ∃ r, grow config st bytes c ss = Ret r.
Proof.
  intros [Hw _ Hi Hf] [Hb Hb'] Hc. unfold in_window in *. assert (0 <= aimd_increase config * bytes <= aimd_increase config * packet_max) by nia.
  assert (∃ r, (let! p := usize_mul (aimd_increase config) bytes in let! q := usize_div p c in
    let! new := usize_add c (Z.max q 1) in Ret (new, st)) = Ret r) as Hlin.
  { rewrite usize_mul_ok by nia. cbn [obind]. rewrite usize_div_ok by lia. cbn [obind].
    set (a := aimd_increase config * bytes) in *. assert (1 <= c) by lia. assert (0 <= a / c <= a) by (split; [apply Z.div_pos; lia|apply Z.div_le_upper_bound; [lia|nia]]).
    rewrite usize_add_ok by lia. eauto. }
  destruct st; [|exact Hlin|exact Hlin]. cbn [grow]. rewrite usize_add_ok by nia. eauto.
Qed.

Lemma after_rtt_ok bytes : packet_ok bytes → record_ok (after_rtt config bytes) ∧ unsettled (after_rtt config bytes) = 0.
Proof. unfold after_rtt. by destruct (algorithm config). Qed.

Lemma cc_ok_move s ps pcs i pc pc' s' :
  cc_ok (mkCcSystem s ps pcs) → pcs !! i = Some pc → cc_config s' = config → in_window (cwnd s') → in_window (ssthresh s') →
  bytes_in_flight s' = bytes_in_flight s - unsettled pc + unsettled pc' → unsettled pc' <= unsettled pc → record_ok pc' →
  cc_ok (mkCcSystem s' ps (<[i := pc']> pcs)).
Proof.
  intros [_ _ _ Hf Hr Hps Hpcs] Hi Hc Hw Hs Hb Hu Hpc. cbn [controller packets records] in *.
  split; cbn [controller packets records]; try done; [|lia|by apply Forall_insert].
  rewrite (sum_by_insert unsettled _ _ _ pc' Hi). lia.
Qed.

(** A call's own packet is among the bytes in flight. *)
Lemma own_in_flight x i pc : cc_ok x → records x !! i = Some pc → unsettled pc <= bytes_in_flight (controller x).
Proof.
  intros [_ _ _ Hf _ Hps Hpcs] Hi. pose proof (packets_nonneg _ Hps).
  pose proof (sum_by_elem unsettled _ _ _ (unsettled_nonneg _ Hpcs) Hi). lia.
Qed.

Local Ltac record H :=
  eapply (cc_ok_move _ _ _ _ _ _ _ H ltac:(eassumption)); cbn [unsettled record_ok cc_config cwnd ssthresh bytes_in_flight set_cwnd set_ssthresh
    set_state set_srtt set_rttvar set_in_flight set_acks set_lost set_reduction]; try done; try lia.

Lemma cc_move_ok s ps pcs i pc now pc' s' :
  config_ok → cc_ok (mkCcSystem s ps pcs) → pcs !! i = Some pc → cc_step now pc s = Ret (pc', s') →
  cc_ok (mkCcSystem s' ps (<[i := pc']> pcs)).
Proof.
  intros Hconf Hok Hi E. pose proof (own_in_flight _ _ _ Hok Hi) as Hown. pose proof Hok as [Hc Hw Hs Hf Hr Hps Hpcs].
  cbn [controller packets records] in *. pose proof (Forall_lookup_1 _ _ _ _ Hpcs Hi) as Hpc.
  destruct pc; cbn [cc_step record_ok unsettled] in *; cbv zeta in E; rewrite ?Hc in E.
  all: try (injection E as <- <-; record Hok; fail).
  - injection E as <- <-. rewrite Z.min_l by lia. record Hok.
  - injection E as <- <-. destruct Hpc as [Hb ->]. rewrite wrap64_small by (destruct Hb; lia). record Hok; by destruct Hb.
  - injection E as <- <-. destruct (srtt s =? 0); record Hok.
  - injection E as <- <-. destruct (after_rtt_ok bytes Hpc) as [H1 H2]. record Hok.
  - destruct (i64_abs_diff _ _) as [d| |]; [|done|done]. cbn [obind] in E. injection E as <- <-.
    destruct (after_rtt_ok bytes Hpc) as [H1 H2]. record Hok.
  - destruct (grow _ _ _ _ _) as [[n st]| |]; [|done|done]. cbn [obind] in E.
    destruct (clamp_window n Hconf) as (c & Ec & Hcw). rewrite Ec in E. cbn [obind] in E. injection E as <- <-. record Hok.
  - injection E as <- <-. rewrite Z.min_l by lia. record Hok.
  - injection E as <- <-. rewrite wrap64_small by (unfold packet_ok in Hpc; lia). record Hok; by destruct Hpc.
  - injection E as <- <-. destruct (algorithm config); record Hok.
  - destruct (match last_reduction s with Some _ => _ | None => _ end); injection E as <- <-; record Hok.
  - destruct (clamp_window (f64_as_usize (f64_mul (f64_of_u64 cwnd) (aimd_decrease config))) Hconf) as (c & Ec & Hcw).
    rewrite Ec in E. cbn [obind] in E. injection E as <- <-. record Hok.
Qed.

Lemma cc_step_ok x y : config_ok → cc_ok x → cc_system_step x y → cc_ok y.
Proof.
  intros Hconf Hok Hst. destruct Hst as [s ps pcs b Hb Hle|s ps ps' pcs b rtt Hp Hrtt|s ps ps' pcs b Hp|]; [..|by eapply cc_move_ok].
  all: destruct Hok as [Hc Hw Hs Hf Hr Hps Hpcs]; cbn [controller packets records] in *.
  - assert (0 <= bytes_in_flight s) by (pose proof (packets_nonneg _ Hps); pose proof (sum_by_nonneg _ _ (unsettled_nonneg _ Hpcs)); lia).
    split; cbn [controller packets records record_sent set_in_flight cc_config cwnd ssthresh bytes_in_flight]; try done.
    + rewrite wrap64_small, sum_by_cons by lia. unfold id at 1. lia.
    + apply wrap64_range.
    + by constructor.
  - rewrite Hp in Hps. apply Forall_cons in Hps as [Hb Hps]. rewrite (sum_by_Permutation id _ _ Hp), sum_by_cons in Hf. unfold id at 1 in Hf.
    split; cbn [controller packets records]; try done; [rewrite sum_by_app; simpl; lia|apply Forall_app; split; [done|by apply Forall_singleton]].
  - rewrite Hp in Hps. apply Forall_cons in Hps as [Hb Hps]. rewrite (sum_by_Permutation id _ _ Hp), sum_by_cons in Hf. unfold id at 1 in Hf.
    split; cbn [controller packets records]; try done; [rewrite sum_by_app; simpl; lia|apply Forall_app; split; [done|by apply Forall_singleton]].
Qed.

(** C11. For a configuration with 1 <= min_window <= max_window, an initial window
    between them and max_window + 1 + (aimd_increase + 1) * packet_max below 2^64,
    where no packet has more than packet_max bytes and the bytes in flight stay below
    2^64: however acknowledgements, losses and sends interleave, when each packet is
    settled at most once, the window and the slow-start threshold stay in their
    bounds, the bytes in flight are exactly those sent and not settled, and a call can
    always go on, except that the difference of two round-trip times may overflow 63
    bits. (With other configurations the window can start outside of its bounds, or
    the clamp and the additions panic.) *)
Theorem congestion_window_safe x :
  config_ok → rtc cc_system_step (mkCcSystem (new config) [] []) x →
  in_window (cwnd (controller x)) ∧ in_window (ssthresh (controller x)) ∧
  bytes_in_flight (controller x) = sum_by id (packets x) + sum_by unsettled (records x) ∧
  (∀ i pc now, records x !! i = Some pc →
    match cc_step now pc (controller x) with
    | Ret _ => True
    | Panic => ∃ b rtt s v, pc = RttVarStore b rtt s v ∧ i64_abs_diff rtt s = Panic
    | Timeout => False
    end).
Proof.
  intros Hconf Hrun. assert (cc_ok x) as Hok.
  { apply (rtc_preserves _ cc_ok _ _ (λ x y, cc_step_ok x y Hconf) Hrun). destruct Hconf as [Hw Hi Hinc Hf].
    split; simpl; try done; unfold in_window in *; lia. }
  pose proof Hok as [Hc Hw Hs Hf Hr Hps Hpcs]. split_and!; [done..|]. intros i pc now Hi.
  pose proof (Forall_lookup_1 _ _ _ _ Hpcs Hi) as Hpc. destruct pc; cbn [cc_step record_ok] in *; cbv zeta; rewrite ?Hc; try done.
  - unfold i64_abs_diff. destruct (_ && _) eqn:E; [done|]. do 4 eexists. split; [done|]. cbv zeta. by rewrite E.
  - destruct Hpc as [Hb Hcw]. destruct (grow_returns (cc_state (controller x)) bytes cwnd ssthresh Hconf Hb Hcw) as [[n st] ->].
    cbn [obind]. by destruct (clamp_window n Hconf) as (c & -> & _).
  - by destruct (match last_reduction _ with Some _ => _ | None => _ end).
  - by destruct (clamp_window (f64_as_usize (f64_mul (f64_of_u64 cwnd) (aimd_decrease config))) Hconf) as (c & -> & _).
Qed.
End congestion.

(** *** A run of two packets *)

Inductive cc_act : Type := CSend (bytes : Z) | CAck (k : nat) (rtt : Z) | CLoss (k : nat) | CMove (i : nat).

Definition cc_do (packet_max : Z) (a : cc_act) (x : cc_system) : option cc_system :=
  match a with
  | CSend b =>
    if (0 <=? b) && (b <=? packet_max) && (bytes_in_flight (controller x) + b <=? U64_MAX)
    then Some (mkCcSystem (record_sent b (controller x)) (b :: packets x) (records x)) else None
  | CAck k rtt =>
    b ← packets x !! k;
    if (0 <=? rtt) && (rtt <=? U64_MAX) then Some (mkCcSystem (controller x) (delete k (packets x)) (records x ++ [AckLoad b rtt])) else None
  | CLoss k => b ← packets x !! k; Some (mkCcSystem (controller x) (delete k (packets x)) (records x ++ [LossLoad b]))
  | CMove i =>
    pc ← records x !! i;
    match cc_step 0 pc (controller x) with
    | Ret (pc', s') => Some (mkCcSystem s' (packets x) (<[i := pc']> (records x)))
    | _ => None
    end
  end.

Lemma cc_do_step packet_max a x y : cc_do packet_max a x = Some y → cc_system_step packet_max x y.
Proof.
  destruct x as [s ps pcs], a as [b|k rtt|k|i]; cbn [cc_do controller packets records].
  - destruct (_ && _) eqn:E; [|done]. intros [= <-]. constructor; lia.
  - destruct (ps !! k) as [b|] eqn:Ek; [|done]. cbn [mbind option_bind]. destruct (_ && _) eqn:E; [|done]. intros [= <-].
    constructor; [by apply delete_Permutation|lia].
  - destruct (ps !! k) as [b|] eqn:Ek; [|done]. intros [= <-]. constructor. by apply delete_Permutation.
  - destruct (pcs !! i) as [pc|] eqn:Ei; [|done]. cbn [mbind option_bind]. destruct (cc_step 0 pc s) as [[pc' s']| |] eqn:E; [|done|done].
    intros [= <-]. by eapply cc_move.
Qed.

Fixpoint cc_do_all (packet_max : Z) (acts : list cc_act) (x : cc_system) : option cc_system :=
  match acts with [] => Some x | a :: acts' => y ← cc_do packet_max a x; cc_do_all packet_max acts' y end.

Lemma cc_do_run packet_max acts : ∀ x y, cc_do_all packet_max acts x = Some y → rtc (cc_system_step packet_max) x y.
Proof.
  induction acts as [|a acts IH]; intros x y E; [injection E as <-; by apply rtc_refl|]. cbn [cc_do_all] in E.
  destruct (cc_do packet_max a x) as [z|] eqn:Ez; [|done]. cbn [mbind option_bind] in E. eapply rtc_l; [by eapply cc_do_step|by apply IH].
Qed.

(** Two packets are sent; one is acknowledged and one is lost, access by access. *)
Definition two_packets : list cc_act :=
  [CSend 1000; CSend 500; CSend 200; CAck 2 8000; CLoss 1] ++ mjoin (replicate 12 [CMove 0; CMove 1]).

Lemma congestion_window_safe_witness :
  match cc_do_all 1500 two_packets (mkCcSystem default_controller [] []) with
  | Some x => records x = [Recorded; Recorded] ∧ bytes_in_flight (controller x) = 200 ∧ in_window default_congestion_config (cwnd (controller x))
  | None => False
  end.
Proof.
  assert (match cc_do_all 1500 two_packets (mkCcSystem default_controller [] []) with
    | Some x => records x = [Recorded; Recorded] ∧ packets x = [200] | None => False end) as Hc by (vm_compute; done).
  destruct (cc_do_all _ _ _) as [x|] eqn:E; [|done]. apply cc_do_run in E. destruct Hc as [H1 H2].
  destruct (congestion_window_safe default_congestion_config 1500 x) as (Hw & _ & Hf & _); [|exact E|].
  { split; [|unfold in_window|..]; vm_compute; repeat split; discriminate. }
  rewrite H1, H2 in Hf. split_and!; [done| |exact Hw]. rewrite Hf. reflexivity.
Defined.

(** A packet that is reported lost while its acknowledgement is being handled: the
    check against the bytes in flight is made twice, and the count goes below zero
    and wraps around; nothing is sent any more. *)
Lemma spurious_loss_wraps :
  let s := record_sent 1000 default_controller in
  match cc_step 0 (AckLoad 1000 5) s, cc_step 0 (LossLoad 1000) s with
  | Ret (a, _), Ret (l, _) =>
    match cc_step 0 a s with
    | Ret (_, s1) => match cc_step 0 l s1 with Ret (_, s2) => bytes_in_flight s2 = 18446744073709550616 ∧ available_window s2 = 0 | _ => False end
    | _ => False
    end
  | _, _ => False
  end.
Proof. vm_compute. done. Qed.

(** A sample of more than 63 bits is negative, and its difference to the average
    overflows. *)
Lemma huge_rtt_panics :
  match CongestionController.record_ack 1000 5 default_controller with
  | Ret s => CongestionController.record_ack 1000 9223372036854775808 s = Panic
  | _ => False
  end.
Proof. vm_compute. reflexivity. Qed.

(** ** Admission *)

(** The tokens after a refill. *)
Definition refilled (t : Z) (b : TokenBucket) : Z :=
  let n := new_tokens (bucket_config b) (elapsed (last_refill b) t) in
  if 0 <? n then Z.min (tokens b + n) (capacity (bucket_config b)) else tokens b.

Lemma try_consume_spec t1 t2 amount b :
  0 <= tokens b → tokens b + new_tokens (bucket_config b) (elapsed (last_refill b) t1) <= U64_MAX →
  try_consume t1 t2 amount b =
  Ret (amount <=? refilled t1 b, mkBucket (bucket_config b) (if amount <=? refilled t1 b then refilled t1 b - amount else refilled t1 b) t2).
Proof.
  intros H0 Hn. unfold try_consume, refilled. cbv zeta. set (n := new_tokens _ _) in *.
  assert (0 <= n) by apply new_tokens_range.
  assert (∀ t b', tokens b' = t → bucket_config b' = bucket_config b → last_refill b' = t2 →
    consume_run 2 t1 t2 (ConsumeLoad amount) b' = Ret (amount <=? t, mkBucket (bucket_config b) (if amount <=? t then t - amount else t) t2)) as Hgo.
  { intros t [c' t' l'] Et Ec El. cbn [tokens bucket_config last_refill] in *. subst. cbn [consume_run consume_step obind tokens andb]. rewrite Z.eqb_refl.
    destruct (Z.ltb_spec t amount), (Z.leb_spec amount t); done || lia. }
  cbn [consume_run consume_step obind]. fold n. destruct (0 <? n).
  - cbn [consume_run consume_step obind tokens set_last bucket_config]. rewrite usize_add_ok by lia. cbn [obind andb]. rewrite Z.eqb_refl.
    by apply Hgo.
  - cbn [consume_run consume_step obind set_last tokens bucket_config andb]. rewrite Z.eqb_refl.
    destruct (Z.ltb_spec (tokens b) amount), (Z.leb_spec amount (tokens b)); done || lia.
Qed.

(** A flow controller lets bytes go exactly when it is not paused, the window
    has room for them and the refilled bucket has the tokens; then it takes these
    tokens, and once the bytes are recorded as sent those in flight are within the
    window.  Otherwise no token is taken. *)
Theorem can_send_admits t1 t2 bytes fc :
  let b := rate_limiter fc in
  0 <= bytes → 0 <= tokens b → tokens b + new_tokens (bucket_config b) (elapsed (last_refill b) t1) <= U64_MAX →
  0 <= bytes_in_flight (congestion fc) → cwnd (congestion fc) <= U64_MAX →
  ∃ ok fc', FlowController.can_send t1 t2 bytes fc = Ret (ok, fc') ∧
    ok = negb (paused (backpressure fc)) && (bytes <=? available_window (congestion fc)) && (bytes <=? refilled t1 b) ∧
    backpressure fc' = backpressure fc ∧ congestion fc' = congestion fc ∧
    (if ok then tokens (rate_limiter fc') = refilled t1 b - bytes ∧
       (0 < bytes → let sent := congestion (FlowController.record_sent bytes fc') in
         bytes_in_flight sent = bytes_in_flight (congestion fc) + bytes ∧ bytes_in_flight sent <= cwnd sent)
     else tokens b <= tokens (rate_limiter fc') ∨ capacity (bucket_config b) <= tokens (rate_limiter fc')).
Proof.
  cbv zeta. intros Hb H0 Hn Hf Hw. unfold FlowController.can_send, BackpressureController.is_paused, CongestionController.can_send.
  destruct (paused (backpressure fc)); [exists false, fc; split_and!; try done; by left|].
  destruct (Z.leb_spec bytes (available_window (congestion fc))) as [Ha|Ha]; cbn [negb andb]; [|exists false, fc; split_and!; try done; by left].
  rewrite try_consume_spec by done. cbn [obind]. eexists _, _. split_and!; [done|done|done|done|]. cbn [FlowController.set_limiter rate_limiter tokens].
  destruct (bytes <=? refilled t1 (rate_limiter fc)); cbn [tokens].
  - split; [done|]. intros Hpos. unfold available_window, saturating_sub in Ha.
    cbn [FlowController.record_sent FlowController.set_limiter FlowController.set_congestion congestion CongestionController.record_sent set_in_flight bytes_in_flight cwnd].
    rewrite wrap64_small by lia. lia.
  - unfold refilled. cbv zeta. pose proof (new_tokens_range (bucket_config (rate_limiter fc)) (elapsed (last_refill (rate_limiter fc)) t1)).
    destruct (0 <? _); lia.
Qed.

Lemma can_send_admits_witness :
  ∃ fc', FlowController.can_send 1000 1000 2000 (FlowController.default_controller [] 0) = Ret (true, fc') ∧
    tokens (rate_limiter fc') = 998000 ∧ congestion fc' = default_controller.
Proof.
  destruct (can_send_admits 1000 1000 2000 (FlowController.default_controller [] 0)) as (ok & fc' & E & Eok & _ & Ec & Hok); [vm_compute; discriminate..|].
  exists fc'. vm_compute in Eok. subst ok. split_and!; [exact E| |exact Ec]. destruct Hok as [Ht _]. rewrite Ht. vm_compute. reflexivity.
Defined.
