(* ===== verification/Hash.v ===== *)
(** * Hash tables

    The order in which a [HashMap] or a [HashSet] lists its entries is the argument
    of the loops over it; here are the laws it obeys and what such loops do, whatever
    the order.  Also counts that are kept by key. *)

From stdpp Require Import base tactics option list numbers gmap.
From S2P Require Import Prelude.

(** ** Order *)

(** A [HashMap] and a [HashSet] are listed in some order. *)
Class HashOrder : Type := {
  hash_list {K} `{Countable K} {V} : gmap K V → list (K * V);
  hash_elems {K} `{Countable K} : gset K → list K;
}.

Class HashOrderLaws `{HashOrder} : Prop := {
  hash_list_perm {K} `{Countable K} {V} (m : gmap K V) : hash_list m ≡ₚ map_to_list m;
  hash_elems_perm {K} `{Countable K} (X : gset K) : hash_elems X ≡ₚ elements X;
}.

(** An order there is. *)
Definition sorted_order : HashOrder := {|
  hash_list := λ K _ _ V m, map_to_list m;
  hash_elems := λ K _ _ X, elements X;
|}.

Lemma sorted_order_laws : HashOrderLaws (H := sorted_order).
Proof. by split. Qed.

Section hash.
Context `{HashOrderLaws} {K : Type} `{Countable K} {V : Type}.
Implicit Types (m : gmap K V).

Lemma elem_of_hash_list m k v : (k, v) ∈ hash_list m ↔ m !! k = Some v.
Proof. by rewrite hash_list_perm, elem_of_map_to_list. Qed.

Lemma NoDup_hash_list m : NoDup (hash_list m).*1.
Proof. rewrite hash_list_perm. apply NoDup_fst_map_to_list. Qed.

(** A loop over the entries that changes, for each key, the entry of that key of a
    map: what is there at the end. *)
Lemma hash_fold_lookup {W} (f : K → V → option W → option W) (l : list (K * V)) : ∀ (acc : gmap K W) k,
  NoDup l.*1 →
  foldl (λ acc '(k, v), partial_alter (f k v) k acc) acc l !! k =
  match list_find (λ p, p.1 = k) l with Some (_, (_, v)) => f k v (acc !! k) | None => acc !! k end.
Proof.
  induction l as [|[k' v'] l IH]; intros acc k Hnd; [done|]. cbn [foldl list_find fst]. cbn [fmap list_fmap] in Hnd. apply NoDup_cons in Hnd as [Hk Hnd].
  rewrite IH by done. destruct (decide (k' = k)) as [->|Hne].
  - destruct (list_find _ l) as [[i [k2 v2]]|] eqn:E; [|by rewrite lookup_partial_alter_eq].
    apply list_find_Some in E as (E & Ek & _). simpl in Ek. subst k2. destruct Hk. apply list_elem_of_fmap. exists (k, v2). split; [done|]. by eapply list_elem_of_lookup_2.
  - destruct (list_find _ l) as [[i [k2 v2]]|]; cbn [fmap option_fmap option_map prod_map]; by rewrite lookup_partial_alter_ne.
Qed.

Lemma hash_list_find m k : list_find (λ p, p.1 = k) (hash_list m) ≫= (λ p, Some p.2.2) = m !! k.
Proof.
  destruct (m !! k) as [v|] eqn:E.
  - apply elem_of_hash_list, list_elem_of_lookup in E as [i Ei].
    destruct (list_find_elem_of (λ p : K * V, p.1 = k) (hash_list m) (k, v)) as [[j [k2 v2]] Ej]; [by eapply list_elem_of_lookup_2|done|].
    rewrite Ej. simpl. apply list_find_Some in Ej as (Ej & Ek & _). simpl in Ek. subst k2.
    apply list_elem_of_lookup_2, elem_of_hash_list in Ej. apply list_elem_of_lookup_2, elem_of_hash_list in Ei. congruence.
  - destruct (list_find _ _) as [[j [k2 v2]]|] eqn:Ej; [|done]. apply list_find_Some in Ej as (Ej & Ek & _). simpl in Ek. subst k2.
    apply list_elem_of_lookup_2, elem_of_hash_list in Ej. congruence.
Qed.

(** The two together: a loop over a hash map. *)
Lemma hash_loop_lookup {W} (f : K → V → option W → option W) m (acc : gmap K W) k :
  foldl (λ acc '(k, v), partial_alter (f k v) k acc) acc (hash_list m) !! k =
  match m !! k with Some v => f k v (acc !! k) | None => acc !! k end.
Proof.
  rewrite hash_fold_lookup by apply NoDup_hash_list. rewrite <-(hash_list_find m k). by destruct (list_find _ _) as [[i [k' v]]|].
Qed.
End hash.

(** ** Counts by key *)

Section counts.
Context {K : Type} `{Countable K}.
Implicit Types (m : gmap K Z).

(** A missing count is zero. *)
Definition count_of m (k : K) : Z := default 0 (m !! k).

(** Only what was counted is listed. *)
Definition positive m : Prop := map_Forall (λ _ v, 1 <= v) m.

Lemma count_nonneg m k : positive m → 0 <= count_of m k.
Proof. intros Hm. unfold count_of. destruct (m !! k) as [v|] eqn:E; [|done]. pose proof (Hm k v E). simpl in *. lia. Qed.

Lemma count_insert m k v j : count_of (<[k := v]> m) j = if decide (j = k) then v else count_of m j.
Proof. unfold count_of. case_decide as Hj; [subst; by rewrite lookup_insert_eq|by rewrite lookup_insert_ne]. Qed.

Lemma positive_eq m1 m2 : positive m1 → positive m2 → (∀ k, count_of m1 k = count_of m2 k) → m1 = m2.
Proof.
  intros H1 H2 Hg. apply map_eq. intros k. specialize (Hg k). unfold count_of in Hg.
  destruct (m1 !! k) as [x|] eqn:Ex, (m2 !! k) as [y|] eqn:Ey; simpl in Hg; try done; [by f_equal|..].
  - pose proof (H1 k x Ex). simpl in *. lia.
  - pose proof (H2 k y Ey). simpl in *. lia.
Qed.

(** Counts are compared by comparing those that are listed. *)
Lemma count_le_listed `{HashOrderLaws} (m : gmap K Z) (f : K → Z) :
  (∀ k, 0 <= f k) → (∀ kv, In kv (hash_list m) → kv.2 <= f kv.1) ↔ ∀ k, count_of m k <= f k.
Proof.
  intros Hf. split.
  - intros Hall k. unfold count_of. destruct (m !! k) as [v|] eqn:E; [|apply Hf].
    by apply (Hall (k, v)), list_elem_of_In, elem_of_hash_list.
  - intros Hall [k v] Hin%list_elem_of_In%elem_of_hash_list. specialize (Hall k). unfold count_of in Hall. by rewrite Hin in Hall.
Qed.

(** The loop that takes the greater count of each key. *)
Lemma max_loop_lookup `{HashOrderLaws} (m1 m2 : gmap K Z) k :
  foldl (λ c '(k, v), <[k := Z.max (default 0 (c !! k)) v]> c) m1 (hash_list m2) !! k =
  match m2 !! k with Some v => Some (Z.max (count_of m1 k) v) | None => m1 !! k end.
Proof.
  pose proof (hash_loop_lookup (λ _ v o, Some (Z.max (default 0 o) v)) m2 m1 k) as E. unfold count_of. rewrite <-E. clear E.
  generalize (hash_list m2) as l. intros l. f_equal. revert m1. induction l as [|[j v] l IH]; intros m1; [done|].
  cbn [foldl]. rewrite IH. f_equal. apply map_eq. intros i.
  destruct (decide (j = i)) as [->|]; [by rewrite lookup_insert_eq, lookup_partial_alter_eq|by rewrite lookup_insert_ne, lookup_partial_alter_ne].
Qed.
End counts.
