(* ===== verification/Dht.v ===== *)
(** * Distributed hash table (mielin-mesh/core/src/dht.rs)

    The routing table of a node, the cache of lookups, the tracker of churn, the
    replica of the table, and the state of an iterative lookup.  A node is identified
    by a UUID, a type of a third-party crate: sixteen bytes ([Uuid]).  Times are in
    nanoseconds; what the clock shows is an argument, and one call reads one time.
    [String] addresses are lists of bytes. *)

From stdpp Require Import base tactics option list numbers gmap.
From Stdlib Require Import SpecFloat.
From S2P Require Import Prelude Float Sorting Hash.

(** ** Identifiers *)

Class Uuid (N : Type) : Type := { as_bytes : N → list Z }.

Class UuidLaws (N : Type) `{Uuid N} : Prop := {
  as_bytes_length n : length (as_bytes n) = 16%nat;
  as_bytes_byte n : Forall is_byte (as_bytes n);
  as_bytes_inj n m : as_bytes n = as_bytes m → n = m;
}.

(** [x << 8] of a [u128]. *)
Definition u128_shl8 (x : Z) : Z := Z.shiftl x 8 mod 2 ^ 128.

(* src: mielin-mesh/core/src/dht.rs 810-819 xor_distance *)
Definition xor_distance {N} `{Uuid N} (a b : N) : Z :=
  foldl (λ result '(x, y), Z.lor (u128_shl8 result) (Z.lxor x y)) 0 (zip (as_bytes a) (as_bytes b)).

(* src: mielin-mesh/core/src/dht.rs 15-15 K_BUCKET_SIZE *)
Definition K_BUCKET_SIZE : Z := 20.

Definition from_secs (s : Z) : Z := s * 1000000000.

(* src: mielin-mesh/core/src/dht.rs 16-16 PEER_TIMEOUT *)
Definition PEER_TIMEOUT : Z := from_secs 300.
(* src: mielin-mesh/core/src/dht.rs 19-19 DEFAULT_CACHE_TTL *)
Definition DEFAULT_CACHE_TTL : Z := from_secs 300.
(* src: mielin-mesh/core/src/dht.rs 22-22 DEFAULT_LOOKUP_PARALLELISM *)
Definition DEFAULT_LOOKUP_PARALLELISM : Z := 3.
(* src: mielin-mesh/core/src/dht.rs 25-25 MAX_LOOKUP_ITERATIONS *)
Definition MAX_LOOKUP_ITERATIONS : Z := 20.
(* src: mielin-mesh/core/src/dht.rs 28-28 CHURN_WINDOW *)
Definition CHURN_WINDOW : Z := from_secs 60.
(* src: mielin-mesh/core/src/dht.rs 31-31 DEFAULT_LOOKUP_CACHE_SIZE *)
Definition DEFAULT_LOOKUP_CACHE_SIZE : Z := 1000.

(* src: mielin-mesh/core/src/dht.rs 43-49 PeerInfo *)
Record PeerInfo (N : Type) : Type := mkPeer {
  node_id : N;
  address : list Z;
  last_seen : Z;
  latency_ms : option Z;
  reliability_score : Z;
}.
Arguments mkPeer {N}.
Arguments node_id {N}.
Arguments address {N}.
Arguments last_seen {N}.
Arguments latency_ms {N}.
Arguments reliability_score {N}.

(* src: mielin-mesh/core/src/dht.rs 81-92 CachedLookup *)
Record CachedLookup (N : Type) : Type := mkCached {
  cached_target : N;
  cached_results : list N;
  cached_at : Z;
  ttl : Z;
  entry_hits : Z;
}.
Arguments mkCached {N}.
Arguments cached_target {N}.
Arguments cached_results {N}.
Arguments cached_at {N}.
Arguments ttl {N}.
Arguments entry_hits {N}.

(* src: mielin-mesh/core/src/dht.rs 132-141 CacheStats *)
Record CacheStats : Type := mkCacheStats { hits : Z; misses : Z; evictions : Z; insertions : Z }.

(* src: mielin-mesh/core/src/dht.rs 119-128 LookupCache *)
Record LookupCache (N : Type) `{Countable N} : Type := mkCache {
  entries : gmap N (CachedLookup N);
  default_ttl : Z;
  max_size : Z;
  stats : CacheStats;
}.
Arguments mkCache {N _ _}.
Arguments entries {N _ _}.
Arguments default_ttl {N _ _}.
Arguments max_size {N _ _}.
Arguments stats {N _ _}.

(* src: mielin-mesh/core/src/dht.rs 262-273 LookupConfig *)
Record LookupConfig : Type := mkLookupConfig {
  parallelism : Z;
  result_count : Z;
  max_iterations : Z;
  use_cache : bool;
  query_timeout : Z;
}.

(* src: mielin-mesh/core/src/dht.rs 313-330 LookupState *)
Record LookupState (N : Type) : Type := mkLookup {
  target : N;
  config : LookupConfig;
  queried : list N;
  pending : list N;
  results : list N;
  started_at : Z;
  iteration : Z;
  complete : bool;
}.
Arguments mkLookup {N}.
Arguments target {N}.
Arguments config {N}.
Arguments queried {N}.
Arguments pending {N}.
Arguments results {N}.
Arguments started_at {N}.
Arguments iteration {N}.
Arguments complete {N}.

(* src: mielin-mesh/core/src/dht.rs 429-436 ChurnTracker *)
Record ChurnTracker (N : Type) : Type := mkChurn {
  arrivals : list (Z * N);
  departures : list (Z * N);
  window : Z;
}.
Arguments mkChurn {N}.
Arguments arrivals {N}.
Arguments departures {N}.
Arguments window {N}.

(* src: mielin-mesh/core/src/dht.rs 534-541 RoutingReplica *)
Record RoutingReplica (N : Type) `{Countable N} : Type := mkReplica {
  replica_entries : gmap N (PeerInfo N);
  last_sync : Z;
  max_entries : Z;
}.
Arguments mkReplica {N _ _}.
Arguments replica_entries {N _ _}.
Arguments last_sync {N _ _}.
Arguments max_entries {N _ _}.

(* src: mielin-mesh/core/src/dht.rs 33-40 Dht *)
Record Dht (N : Type) `{Countable N} : Type := mkDht {
  local_id : N;
  routing_table : gmap N (PeerInfo N);
  lookup_cache : LookupCache N;
  churn_tracker : ChurnTracker N;
}.
Arguments mkDht {N _ _}.
Arguments local_id {N _ _}.
Arguments routing_table {N _ _}.
Arguments lookup_cache {N _ _}.
Arguments churn_tracker {N _ _}.

Module PeerInfo.
Section peer.
Context {N : Type}.
Implicit Types (self : PeerInfo N).

(* src: mielin-mesh/core/src/dht.rs 52-60 PeerInfo::new *)
Definition new (now : Z) (node_id : N) (address : list Z) : PeerInfo N := mkPeer node_id address now None 100.

(* src: mielin-mesh/core/src/dht.rs 62-64 PeerInfo::is_alive *)
Definition is_alive (now : Z) self : bool := elapsed (last_seen self) now <? PEER_TIMEOUT.

(* src: mielin-mesh/core/src/dht.rs 66-68 PeerInfo::update_seen *)
Definition update_seen (now : Z) self : PeerInfo N :=
  mkPeer (node_id self) (address self) now (latency_ms self) (reliability_score self).

(* src: mielin-mesh/core/src/dht.rs 70-72 PeerInfo::set_latency *)
Definition set_latency (latency : Z) self : PeerInfo N :=
  mkPeer (node_id self) (address self) (last_seen self) (Some latency) (reliability_score self).

End peer.
End PeerInfo.

(** ** Lookup cache *)

Module LookupCache.
Section cache.
Context {N : Type} `{Countable N} `{HashOrder}.
Implicit Types (self : LookupCache N).

(* src: mielin-mesh/core/src/dht.rs 107-109 CachedLookup::is_valid *)
Definition is_valid (now : Z) (entry : CachedLookup N) : bool := elapsed (cached_at entry) now <? ttl entry.

(* src: mielin-mesh/core/src/dht.rs 159-166 LookupCache::new *)
Definition new (max_size : Z) : LookupCache N := mkCache ∅ DEFAULT_CACHE_TTL max_size (mkCacheStats 0 0 0 0).

(* src: mielin-mesh/core/src/dht.rs 169-176 LookupCache::with_ttl *)
Definition with_ttl (max_size ttl : Z) : LookupCache N := mkCache ∅ ttl max_size (mkCacheStats 0 0 0 0).

Definition set_entries (e : gmap N (CachedLookup N)) self : LookupCache N := mkCache e (default_ttl self) (max_size self) (stats self).
Definition set_stats (s : CacheStats) self : LookupCache N := mkCache (entries self) (default_ttl self) (max_size self) s.

Definition count_hit (s : CacheStats) : CacheStats := mkCacheStats (wrap64 (hits s + 1)) (misses s) (evictions s) (insertions s).
Definition count_miss (s : CacheStats) : CacheStats := mkCacheStats (hits s) (wrap64 (misses s + 1)) (evictions s) (insertions s).
Definition count_eviction (s : CacheStats) : CacheStats := mkCacheStats (hits s) (misses s) (wrap64 (evictions s + 1)) (insertions s).
Definition count_insertion (s : CacheStats) : CacheStats := mkCacheStats (hits s) (misses s) (evictions s) (wrap64 (insertions s + 1)).

(* src: mielin-mesh/core/src/dht.rs 238-240 LookupCache::cleanup_expired *)
Definition cleanup_expired (now : Z) self : LookupCache N :=
  set_entries (base.filter (λ kv, is_valid now kv.2 = true) (entries self)) self.

(* src: mielin-mesh/core/src/dht.rs 179-192 LookupCache::get *)
Definition get (now : Z) (target : N) self : outcome (option (list N) * LookupCache N) :=
  let self := cleanup_expired now self in
  match entries self !! target with
  | Some entry =>
    if is_valid now entry then
      let! h := usize_add (entry_hits entry) 1 in
      let entry' := mkCached (cached_target entry) (cached_results entry) (cached_at entry) (ttl entry) h in
      Ret (Some (cached_results entry), set_stats (count_hit (stats self)) (set_entries (<[target := entry']> (entries self)) self))
    else Ret (None, set_stats (count_miss (stats self)) self)
  | None => Ret (None, set_stats (count_miss (stats self)) self)
  end.

(* src: mielin-mesh/core/src/dht.rs 243-253 LookupCache::evict_lru *)
Definition evict_lru self : LookupCache N :=
  match min_by_key (λ kv, cached_at kv.2) (hash_list (entries self)) with
  | Some (oldest_key, _) => set_stats (count_eviction (stats self)) (set_entries (delete oldest_key (entries self)) self)
  | None => self
  end.

(* src: mielin-mesh/core/src/dht.rs 200-209 LookupCache::insert_with_ttl *)
Definition insert_with_ttl (now : Z) (target : N) (results : list N) (ttl : Z) self : LookupCache N :=
  let self :=
    if (max_size self <=? Z.of_nat (size (entries self))) && negb (bool_decide (is_Some (entries self !! target)))
    then evict_lru self else self in
  set_stats (count_insertion (stats self)) (set_entries (<[target := mkCached target results now ttl 0]> (entries self)) self).

(* src: mielin-mesh/core/src/dht.rs 195-197 LookupCache::insert *)
Definition insert (now : Z) (target : N) (results : list N) self : LookupCache N :=
  insert_with_ttl now target results (default_ttl self) self.

(* src: mielin-mesh/core/src/dht.rs 212-214 LookupCache::invalidate *)
Definition invalidate (target : N) self : LookupCache N := set_entries (delete target (entries self)) self.

(* src: mielin-mesh/core/src/dht.rs 217-220 LookupCache::invalidate_containing *)
Definition invalidate_containing (n : N) self : LookupCache N :=
  set_entries (base.filter (λ kv, n ∉ cached_results kv.2) (entries self)) self.

(* src: mielin-mesh/core/src/dht.rs 223-225 LookupCache::clear *)
Definition clear self : LookupCache N := set_entries ∅ self.

(* src: mielin-mesh/core/src/dht.rs 228-230 LookupCache::len *)
Definition len self : Z := Z.of_nat (size (entries self)).

End cache.
End LookupCache.

(* src: mielin-mesh/core/src/dht.rs 145-154 CacheStats::hit_rate *)
Definition hit_rate (self : CacheStats) : outcome spec_float :=
  let! total := usize_add (hits self) (misses self) in
  Ret (if total =? 0 then f64_zero else f64_div (f64_of_u64 (hits self)) (f64_of_u64 total)).

(** ** Iterative lookups *)

Module LookupConfig.

(* src: mielin-mesh/core/src/dht.rs 276-284 LookupConfig::default *)
Definition default : LookupConfig :=
  mkLookupConfig DEFAULT_LOOKUP_PARALLELISM K_BUCKET_SIZE MAX_LOOKUP_ITERATIONS true (from_secs 5).

(* src: mielin-mesh/core/src/dht.rs 289-297 LookupConfig::fast *)
Definition fast : LookupConfig := mkLookupConfig 5 K_BUCKET_SIZE 10 true (from_secs 2).

(* src: mielin-mesh/core/src/dht.rs 300-308 LookupConfig::thorough *)
Definition thorough : LookupConfig := mkLookupConfig 3 (K_BUCKET_SIZE * 2) MAX_LOOKUP_ITERATIONS false (from_secs 10).

End LookupConfig.

Module LookupState.
Section lookup.
Context {N : Type} `{EqDecision N} `{Uuid N}.
Implicit Types (self : LookupState N).

Definition distance self (n : N) : Z := xor_distance (target self) n.

(* src: mielin-mesh/core/src/dht.rs 334-349 LookupState::new *)
Definition new (now : Z) (target : N) (initial_nodes : list N) (config : LookupConfig) : LookupState N :=
  let pending := dedup (sort_by_key (xor_distance target) initial_nodes) in
  mkLookup target config [] pending [] now 0 false.

(** The loop ends when the batch is full or nothing is pending. *)
(* src: mielin-mesh/core/src/dht.rs 354-359 LookupState::next_batch (loop) *)
Fixpoint batch_loop (parallelism : Z) (queried pending batch : list N) : list N * list N :=
  if Z.of_nat (length batch) <? parallelism then
    match pending with
    | [] => (batch, [])
    | node :: pending' => batch_loop parallelism queried pending' (if decide (node ∈ queried) then batch else batch ++ [node])
    end
  else (batch, pending).

(* src: mielin-mesh/core/src/dht.rs 352-361 LookupState::next_batch *)
Definition next_batch self : list N * LookupState N :=
  let '(batch, pending) := batch_loop (parallelism (config self)) (queried self) (pending self) [] in
  (batch, mkLookup (target self) (config self) (queried self) pending (results self) (started_at self) (iteration self) (complete self)).

(** One node of a response. *)
(* src: mielin-mesh/core/src/dht.rs 369-378 LookupState::process_responses (node) *)
Definition add_node (target : N) (queried pending : list N) (node : N) : list N :=
  if decide (node ∈ queried ∨ node ∈ pending) then pending
  else insert_at (search_by_key (xor_distance target) pending (xor_distance target node)) node pending.

(** One response. *)
(* src: mielin-mesh/core/src/dht.rs 365-380 LookupState::process_responses (response) *)
Definition add_response (target : N) (st : list N * list N) (response : N * list N) : list N * list N :=
  let '(queried, pending) := st in
  let '(from, nodes) := response in
  let queried := queried ++ [from] in
  (queried, foldl (add_node target queried) pending nodes).

(* src: mielin-mesh/core/src/dht.rs 404-415 LookupState::update_results *)
Definition update_results (target : N) (queried pending : list N) (result_count : Z) : list N :=
  take (Z.to_nat result_count) (dedup (sort_by_key (xor_distance target) (queried ++ pending))).

(** Whether the pending nodes are no closer than the results. *)
(* src: mielin-mesh/core/src/dht.rs 392-400 LookupState::process_responses (convergence) *)
Definition converged (target : N) (pending results : list N) (result_count : Z) : bool :=
  match results, pending with
  | best_result :: _, best_pending :: _ =>
    (xor_distance target best_result <=? xor_distance target best_pending) && (result_count <=? Z.of_nat (length results))
  | _, _ => false
  end.

(* src: mielin-mesh/core/src/dht.rs 364-401 LookupState::process_responses *)
Definition process_responses (responses : list (N * list N)) self : outcome (LookupState N) :=
  let '(queried, pending) := foldl (add_response (target self)) (queried self, pending self) responses in
  let results := update_results (target self) queried pending (result_count (config self)) in
  let! iteration := usize_add (iteration self) 1 in
  let complete := complete self || (match pending with [] => true | _ => false end || (max_iterations (config self) <=? iteration)) in
  let complete := complete || converged (target self) pending results (result_count (config self)) in
  Ret (mkLookup (target self) (config self) queried pending results (started_at self) iteration complete).

End lookup.
End LookupState.

(** ** Churn *)

Module ChurnTracker.
Section churn.
Context {N : Type}.
Implicit Types (self : ChurnTracker N).

(* src: mielin-mesh/core/src/dht.rs 440-446 ChurnTracker::new *)
Definition new : ChurnTracker N := mkChurn [] [] CHURN_WINDOW.

(* src: mielin-mesh/core/src/dht.rs 449-455 ChurnTracker::with_window *)
Definition with_window (window : Z) : ChurnTracker N := mkChurn [] [] window.

Definition recent (now window : Z) (l : list (Z * N)) : list (Z * N) := base.filter (λ tn, elapsed tn.1 now < window) l.

(* src: mielin-mesh/core/src/dht.rs 513-519 ChurnTracker::cleanup *)
Definition cleanup (now : Z) self : ChurnTracker N :=
  mkChurn (recent now (window self) (arrivals self)) (recent now (window self) (departures self)) (window self).

(* src: mielin-mesh/core/src/dht.rs 458-461 ChurnTracker::record_arrival *)
Definition record_arrival (now : Z) (n : N) self : ChurnTracker N :=
  let self := cleanup now self in mkChurn (arrivals self ++ [(now, n)]) (departures self) (window self).

(* src: mielin-mesh/core/src/dht.rs 464-467 ChurnTracker::record_departure *)
Definition record_departure (now : Z) (n : N) self : ChurnTracker N :=
  let self := cleanup now self in mkChurn (arrivals self) (departures self ++ [(now, n)]) (window self).

(* src: mielin-mesh/core/src/dht.rs 470-475 ChurnTracker::arrival_count *)
Definition arrival_count (now : Z) self : Z := Z.of_nat (length (recent now (window self) (arrivals self))).

(* src: mielin-mesh/core/src/dht.rs 478-483 ChurnTracker::departure_count *)
Definition departure_count (now : Z) self : Z := Z.of_nat (length (recent now (window self) (departures self))).

(* src: mielin-mesh/core/src/dht.rs 486-490 ChurnTracker::churn_rate *)
Definition churn_rate (now : Z) self : outcome spec_float :=
  let! total := usize_add (arrival_count now self) (departure_count now self) in
  let window_mins := f64_div (as_secs_f64 (window self)) (f64_of_u64 60) in
  Ret (f64_div (f64_of_u64 total) window_mins).

(* src: mielin-mesh/core/src/dht.rs 493-495 ChurnTracker::is_high_churn *)
Definition is_high_churn (now : Z) (threshold : spec_float) self : outcome bool :=
  let! rate := churn_rate now self in Ret (SFltb threshold rate).

(* src: mielin-mesh/core/src/dht.rs 499-510 ChurnTracker::recommended_cache_ttl *)
Definition recommended_cache_ttl (now : Z) self : outcome Z :=
  let! rate := churn_rate now self in
  Ret (if SFltb rate (f64_of_u64 1) then from_secs 600
       else if SFltb rate (f64_of_u64 5) then from_secs 300
       else if SFltb rate (f64_of_u64 10) then from_secs 60
       else from_secs 15).

End churn.
End ChurnTracker.

(** ** Replica of the routing table *)

Module RoutingReplica.
Section replica.
Context {N : Type} `{Countable N} `{HashOrder}.
Implicit Types (self : RoutingReplica N).

(* src: mielin-mesh/core/src/dht.rs 545-551 RoutingReplica::new *)
Definition new (now max_entries : Z) : RoutingReplica N := mkReplica ∅ now max_entries.

(** Each round removes an entry. *)
(* src: mielin-mesh/core/src/dht.rs 559-571 RoutingReplica::sync_from (trim) *)
Fixpoint trim (fuel : nat) (max_entries : Z) (e : gmap N (PeerInfo N)) : outcome (gmap N (PeerInfo N)) :=
  if max_entries <? Z.of_nat (size e) then
    match fuel with
    | O => Timeout
    | S fuel' =>
      match min_by_key (λ kv, last_seen kv.2) (hash_list e) with
      | Some (oldest, _) => trim fuel' max_entries (delete oldest e)
      | None => Ret e
      end
    end
  else Ret e.

(* src: mielin-mesh/core/src/dht.rs 554-572 RoutingReplica::sync_from *)
Definition sync_from (now : Z) (primary : gmap N (PeerInfo N)) self : outcome (RoutingReplica N) :=
  let! e := trim (size primary) (max_entries self) primary in
  Ret (mkReplica e now (max_entries self)).

(* src: mielin-mesh/core/src/dht.rs 575-577 RoutingReplica::get *)
Definition get (n : N) self : option (PeerInfo N) := replica_entries self !! n.

End replica.
End RoutingReplica.

(** ** The table *)

Module Dht.
Section dht.
Context {N : Type} `{Countable N} `{HashOrder} `{Uuid N}.
Implicit Types (self : Dht N).

(* src: mielin-mesh/core/src/dht.rs 610-617 Dht::with_cache_size *)
Definition with_cache_size (local_id : N) (cache_size : Z) : Dht N :=
  mkDht local_id ∅ (LookupCache.new cache_size) ChurnTracker.new.

(* src: mielin-mesh/core/src/dht.rs 600-607 Dht::new *)
Definition new (local_id : N) : Dht N := mkDht local_id ∅ (LookupCache.new DEFAULT_LOOKUP_CACHE_SIZE) ChurnTracker.new.

Definition set_table (t : gmap N (PeerInfo N)) self : Dht N := mkDht (local_id self) t (lookup_cache self) (churn_tracker self).
Definition set_cache (c : LookupCache N) self : Dht N := mkDht (local_id self) (routing_table self) c (churn_tracker self).
Definition set_churn (c : ChurnTracker N) self : Dht N := mkDht (local_id self) (routing_table self) (lookup_cache self) c.

(* src: mielin-mesh/core/src/dht.rs 642-644 Dht::evict_old_peers *)
Definition evict_old_peers (now : Z) self : Dht N :=
  set_table (base.filter (λ kv, PeerInfo.is_alive now kv.2 = true) (routing_table self)) self.

(* src: mielin-mesh/core/src/dht.rs 627-640 Dht::insert_peer *)
Definition insert_peer (now : Z) (peer : PeerInfo N) self : Dht N :=
  if decide (node_id peer = local_id self) then self else
  let is_new := negb (bool_decide (is_Some (routing_table self !! node_id peer))) in
  let self := set_table (<[node_id peer := peer]> (routing_table self)) self in
  let self := evict_old_peers now self in
  if is_new then
    let self := set_churn (ChurnTracker.record_arrival now (node_id peer) (churn_tracker self)) self in
    set_cache (LookupCache.invalidate_containing (node_id peer) (lookup_cache self)) self
  else self.

(* src: mielin-mesh/core/src/dht.rs 647-658 Dht::find_closest_uncached *)
Definition find_closest_uncached (target : N) (k : Z) self : list N :=
  let peers := (hash_list (routing_table self)).*1 in
  let peers := sort_by_key (xor_distance (local_id self)) peers in
  let peers := if decide (target = local_id self) then peers else sort_by_key (xor_distance target) peers in
  take (Z.to_nat k) peers.

(* src: mielin-mesh/core/src/dht.rs 664-683 Dht::find_closest *)
Definition find_closest (now : Z) (target : N) (k : Z) self : outcome (list N * Dht N) :=
  let! (cached, self) :=
    if k =? K_BUCKET_SIZE then
      let! (c, cache) := LookupCache.get now target (lookup_cache self) in Ret (c, set_cache cache self)
    else Ret (None, self) in
  match cached with
  | Some c => Ret (c, self)
  | None =>
    let result := find_closest_uncached target k self in
    if (k =? K_BUCKET_SIZE) && match result with [] => false | _ => true end then
      let! ttl := ChurnTracker.recommended_cache_ttl now (churn_tracker self) in
      Ret (result, set_cache (LookupCache.insert_with_ttl now target result ttl (lookup_cache self)) self)
    else Ret (result, self)
  end.

(* src: mielin-mesh/core/src/dht.rs 688-690 Dht::find_closest_fresh *)
Definition find_closest_fresh (target : N) (k : Z) self : list N := find_closest_uncached target k self.

(** The alive peers whose latency is known, the fastest first. *)
Definition by_latency (now : Z) (l : list (N * PeerInfo N)) : list (N * PeerInfo N) :=
  sort_by_key (λ kv, default 0 (latency_ms kv.2)) (base.filter (λ kv, PeerInfo.is_alive now kv.2 = true ∧ is_Some (latency_ms kv.2)) l).

(* src: mielin-mesh/core/src/dht.rs 692-703 Dht::find_closest_by_latency *)
Definition find_closest_by_latency (now : Z) (k : Z) self : list N :=
  (take (Z.to_nat k) (by_latency now (hash_list (routing_table self)))).*1.

(* src: mielin-mesh/core/src/dht.rs 756-766 Dht::get_peers_by_latency *)
Definition get_peers_by_latency (now : Z) self : list (PeerInfo N) := (by_latency now (hash_list (routing_table self))).*2.

(* src: mielin-mesh/core/src/dht.rs 705-707 Dht::get_peer *)
Definition get_peer (n : N) self : option (PeerInfo N) := routing_table self !! n.

(* src: mielin-mesh/core/src/dht.rs 713-715 Dht::peer_count *)
Definition peer_count self : Z := Z.of_nat (size (routing_table self)).

(* src: mielin-mesh/core/src/dht.rs 717-722 Dht::update_peer_latency *)
Definition update_peer_latency (now : Z) (n : N) (latency : Z) self : Dht N :=
  match routing_table self !! n with
  | Some peer => set_table (<[n := PeerInfo.update_seen now (PeerInfo.set_latency latency peer)]> (routing_table self)) self
  | None => self
  end.

(* src: mielin-mesh/core/src/dht.rs 726-737 Dht::route_to *)
Definition route_to (now : Z) (target : N) self : option (PeerInfo N) :=
  match routing_table self !! target with
  | Some peer => Some peer
  | None =>
    min_by_key (λ peer, xor_distance target (node_id peer))
      (base.filter (λ peer, PeerInfo.is_alive now peer = true) (hash_list (routing_table self)).*2)
  end.

(* src: mielin-mesh/core/src/dht.rs 740-746 Dht::get_all_addresses *)
Definition get_all_addresses (now : Z) self : list (list Z) :=
  address <$> base.filter (λ peer, PeerInfo.is_alive now peer = true) (hash_list (routing_table self)).*2.

(* src: mielin-mesh/core/src/dht.rs 749-753 Dht::get_address *)
Definition get_address (n : N) self : option (list Z) := address <$> routing_table self !! n.

(* src: mielin-mesh/core/src/dht.rs 769-777 Dht::remove_peer *)
Definition remove_peer (now : Z) (n : N) self : option (PeerInfo N) * Dht N :=
  match routing_table self !! n with
  | Some removed =>
    let self := set_table (delete n (routing_table self)) self in
    let self := set_churn (ChurnTracker.record_departure now n (churn_tracker self)) self in
    (Some removed, set_cache (LookupCache.invalidate_containing n (lookup_cache self)) self)
  | None => (None, self)
  end.

(* src: mielin-mesh/core/src/dht.rs 800-802 Dht::clear_cache *)
Definition clear_cache self : Dht N := set_cache (LookupCache.clear (lookup_cache self)) self.

End dht.
End Dht.
