(* ===== verification/DhtProps.v ===== *)
(** * Distance, lookups and tables: what the operations keep

    Lemmas on the model of [dht.rs]: the distance is the exclusive or of two
    128-bit numbers, a lookup keeps its pending nodes in order, trimming a table keeps
    the entries seen last. *)

From stdpp Require Import base tactics option list numbers gmap sorting sets.
From S2P Require Import Prelude Float Sorting Hash Dht.

(** ** Distance *)

(** Bytes as a number, high byte first. *)
Definition be_value (l : list Z) : Z := foldl (λ r x, r * 256 + x) 0 l.

Lemma bytes_snoc l x : Forall is_byte (l ++ [x]) → Forall is_byte l ∧ is_byte x.
Proof. intros [Hl Hx]%Forall_app. by rewrite Forall_singleton in Hx. Qed.

Lemma be_value_snoc l x : be_value (l ++ [x]) = be_value l * 256 + x.
Proof. unfold be_value. by rewrite foldl_app. Qed.

Lemma be_value_bound l : Forall is_byte l → 0 <= be_value l < 2 ^ (8 * Z.of_nat (length l)).
Proof.
  induction l as [|x l IH] using rev_ind; [done|]. intros [Hl Hx]%bytes_snoc. unfold is_byte in Hx.
  rewrite be_value_snoc, length_app. simpl length. replace (8 * Z.of_nat (length l + 1)) with (8 * Z.of_nat (length l) + 8) by lia.
  rewrite Z.pow_add_r by lia. change (2 ^ 8) with 256. specialize (IH Hl). lia.
Qed.

Lemma be_value_inj l : ∀ l', length l = length l' → Forall is_byte l → Forall is_byte l' → be_value l = be_value l' → l = l'.
Proof.
  induction l as [|x l IH] using rev_ind; intros l'; destruct l' as [|y l' _] using rev_ind; rewrite ?length_app; simpl; try lia; [done|].
  intros Hlen [Hl Hx]%bytes_snoc [Hl' Hy]%bytes_snoc. unfold is_byte in Hx, Hy. rewrite !be_value_snoc. intros E.
  assert (x = y) as -> by lia. f_equal. apply IH; [lia|done..|lia].
Qed.

Lemma lxor_bound k a b : 0 <= k → 0 <= a < 2 ^ k → 0 <= b < 2 ^ k → 0 <= Z.lxor a b < 2 ^ k.
Proof.
  intros Hk [Ha Ha'] [Hb Hb']. assert (0 <= Z.lxor a b) by (apply Z.lxor_nonneg; lia). split; [done|].
  apply Z.bounded_iff_bits_nonneg; [done..|]. intros i Hi. rewrite Z.lxor_spec.
  rewrite Z.bounded_iff_bits_nonneg in Ha', Hb' by done. by rewrite Ha', Hb'.
Qed.

(** The exclusive or of two numbers, byte by byte. *)
Lemma lxor_byte a b x y :
  0 <= a → 0 <= b → is_byte x → is_byte y →
  Z.lxor (a * 256 + x) (b * 256 + y) = Z.lxor a b * 256 + Z.lxor x y.
Proof.
  unfold is_byte. intros Ha Hb Hx Hy. pose proof (lxor_bound 8 x y) as Hxy. change (2 ^ 8) with 256 in Hxy.
  change 256 with (2 ^ 8). rewrite <-!(lor_low _ _ 8) by (first [lia|apply Z.lxor_nonneg; lia]). rewrite <-!Z.shiftl_mul_pow2 by lia.
  apply Z.bits_inj'. intros i Hi. rewrite !Z.lxor_spec, !Z.lor_spec, !Z.lxor_spec.
  destruct (Z.lt_ge_cases i 8); [by rewrite !Z.shiftl_spec_low|].
  assert (∀ z, 0 <= z < 2 ^ 8 → Z.testbit z i = false) as Hz.
  { intros z [? Hz]. rewrite Z.bounded_iff_bits_nonneg in Hz by lia. by apply Hz. }
  rewrite !Z.shiftl_spec, Z.lxor_spec, (Hz x), (Hz y) by lia. by rewrite !orb_false_r.
Qed.

Lemma xor_loop l : ∀ l',
  length l = length l' → (length l <= 16)%nat → Forall is_byte l → Forall is_byte l' →
  foldl (λ r '(x, y), Z.lor (u128_shl8 r) (Z.lxor x y)) 0 (zip l l') = Z.lxor (be_value l) (be_value l').
Proof.
  induction l as [|x l IH] using rev_ind; intros l'; destruct l' as [|y l' _] using rev_ind; rewrite ?length_app; simpl; try lia; [done|].
  intros Hlen H16 [Hl Hx]%bytes_snoc [Hl' Hy]%bytes_snoc.
  pose proof (be_value_bound l Hl) as Bl. pose proof (be_value_bound l' Hl') as Bl'. assert (length l = length l') as Hll by lia.
  rewrite zip_with_app, foldl_app, IH, !be_value_snoc by (done || lia). simpl. rewrite lxor_byte by (done || lia). unfold u128_shl8.
  rewrite <-Hll in Bl'. pose proof (λ Hk, lxor_bound _ _ _ Hk Bl Bl') as B. specialize (B ltac:(lia)). pose proof (lxor_bound 8 x y) as Bxy. change (2 ^ 8) with 256 in Bxy. unfold is_byte in Hx, Hy.
  assert (2 ^ (8 * Z.of_nat (length l)) <= 2 ^ 120) by (apply Z.pow_le_mono_r; lia).
  rewrite Z.shiftl_mul_pow2, Z.mod_small by lia. apply (lor_low _ _ 8); lia.
Qed.

Section distance.
Context {N : Type} `{UuidLaws N}.
Implicit Types (a b c : N).

(** The identifier as a 128-bit number. *)
Definition id_value a : Z := be_value (as_bytes a).

Lemma id_value_nonneg a : 0 <= id_value a.
Proof. apply be_value_bound, as_bytes_byte. Qed.

Lemma id_value_inj a b : id_value a = id_value b → a = b.
Proof. intros E. apply as_bytes_inj, be_value_inj; [by rewrite !as_bytes_length|apply as_bytes_byte..|done]. Qed.

Lemma xor_distance_lxor a b : xor_distance a b = Z.lxor (id_value a) (id_value b).
Proof. apply xor_loop; rewrite ?as_bytes_length; done || apply as_bytes_byte. Qed.

Lemma xor_distance_inj t a b : xor_distance t a = xor_distance t b → a = b.
Proof.
  rewrite !xor_distance_lxor. intros E. apply id_value_inj.
  rewrite <-(Z.lxor_0_l (id_value a)), <-(Z.lxor_0_l (id_value b)), <-(Z.lxor_nilpotent (id_value t)), !Z.lxor_assoc. by rewrite E.
Qed.

Lemma xor_triangle x y z : 0 <= x → 0 <= y → 0 <= z → Z.lxor x z <= Z.lxor x y + Z.lxor y z.
Proof.
  intros. rewrite <-(Z.add_lxor_2land (Z.lxor x y) (Z.lxor y z)).
  assert (Z.lxor (Z.lxor x y) (Z.lxor y z) = Z.lxor x z) as ->.
  { by rewrite Z.lxor_assoc, <-(Z.lxor_assoc y y z), Z.lxor_nilpotent, Z.lxor_0_l. }
  assert (0 <= Z.land (Z.lxor x y) (Z.lxor y z)); [|lia]. apply Z.land_nonneg. left. apply Z.lxor_nonneg. lia.
Qed.

(** The elements in the order of their distance: there is one such list. *)
Lemma sorted_by_distance t l l' :
  ascends (xor_distance t) l → ascends (xor_distance t) l' → l ≡ₚ l' → l = l'.
Proof.
  intros Hs Hs' Hp. eapply StronglySorted_unique_strong; [|done..]. simpl. intros x y _ _ ? ?. apply (xor_distance_inj t). lia.
Qed.
End distance.

(** ** The closest nodes *)

Section closest.
Context {N : Type} `{UuidLaws N}.
Implicit Types (t n m : N) (l r : list N).

(** [r] lists the [k] nodes of a set that are closest to [t], or all of them if they
    are fewer, the closest first. *)
Definition closest_of t (k : nat) (known : N → Prop) r : Prop :=
  ascends (xor_distance t) r ∧ NoDup r ∧ (length r <= k)%nat ∧ (∀ n, n ∈ r → known n) ∧
  ∀ n, known n → n ∉ r → length r = k ∧ ∀ m, m ∈ r → xor_distance t m < xor_distance t n.

Lemma closest_take t k l :
  ascends (xor_distance t) l → NoDup l → closest_of t k (λ n, n ∈ l) (take k l).
Proof.
  intros Hs Hnd. split_and!; [by apply ascends_take_ascends|by eapply sublist_NoDup; [|apply sublist_take]|rewrite length_take; lia| |].
  - intros n Hn. rewrite <-(take_drop k l), elem_of_app. by left.
  - intros n Hn Hout. assert (n ∈ drop k l) as Hd by (rewrite <-(take_drop k l), elem_of_app in Hn; tauto). split.
    + rewrite length_take. destruct (decide (k <= length l)%nat); [lia|]. rewrite drop_ge in Hd by lia. by apply elem_of_nil in Hd.
    + intros m Hm. pose proof (ascends_take _ _ _ _ _ Hs Hm Hd). destruct (decide (xor_distance t m = xor_distance t n)) as [E|]; [|lia].
      apply xor_distance_inj in E as ->. done.
Qed.

Lemma closest_ext t k (known known' : N → Prop) r :
  (∀ n, known n ↔ known' n) → closest_of t k known r → closest_of t k known' r.
Proof. intros Hk (? & ? & ? & Hin & Hout). split_and!; [done..| |]; intros n; rewrite <-Hk; auto. Qed.

Lemma closest_dedup `{!EqDecision N} t k l :
  closest_of t k (λ n, n ∈ l) (take k (dedup (sort_by_key (xor_distance t) l))).
Proof.
  destruct (sort_by_key_spec (xor_distance t) l) as [Hs _]. destruct (dedup_ascends (xor_distance t) _ (xor_distance_inj t) Hs) as [Hs' Hnd].
  eapply closest_ext; [|by apply closest_take]. intros n. simpl. by rewrite elem_of_dedup, sort_by_key_perm.
Qed.
End closest.

(** ** Iterative lookups *)

Section lookup.
Context {N : Type} `{EqDecision N} `{UuidLaws N}.
Implicit Types (t n : N) (q p : list N) (self : LookupState N).

Lemma batch_loop_spec par q p : ∀ b,
  Z.of_nat (length b) <= par →
  (LookupState.batch_loop par q p b).1 = take (Z.to_nat par) (b ++ base.filter (λ n, n ∉ q) p) ∧
  ∃ taken, p = taken ++ (LookupState.batch_loop par q p b).2.
Proof.
  induction p as [|n p IH]; intros b Hb; simpl.
  - rewrite app_nil_r, take_ge by lia. destruct (_ <? _); (split; [done|by exists []]).
  - destruct (Z.ltb_spec (Z.of_nat (length b)) par) as [Hlt|]; simpl.
    + assert (Z.of_nat (length (if decide (n ∈ q) then b else b ++ [n])) <= par) as Hle by (case_decide; rewrite ?length_app; simpl; lia).
      destruct (IH _ Hle) as [IH1 [taken IH2]]. split; [|exists (n :: taken); simpl; congruence]. rewrite IH1. f_equal.
      rewrite filter_cons. destruct (decide (n ∈ q)), (decide (n ∉ q)); try tauto. by rewrite <-app_assoc.
    + split; [|by exists []]. rewrite take_app_le, take_ge by lia. done.
Qed.

(** What a lookup keeps: the pending nodes are listed once, the closest first. *)
Definition in_order t p : Prop := ascends (xor_distance t) p ∧ NoDup p.

Lemma in_order_suffix t taken p : in_order t (taken ++ p) → in_order t p.
Proof.
  intros [Hs Hnd]. split; [|by apply NoDup_app in Hnd as (_ & _ & ?)]. induction taken; [done|]. simpl in *.
  apply StronglySorted_inv in Hs as [Hs _]. apply NoDup_cons in Hnd as [_ ?]. auto.
Qed.

Lemma in_order_take t k p : in_order t p → in_order t (take k p).
Proof. intros [Hs Hnd]. split; [by apply ascends_take_ascends|]. by eapply sublist_NoDup; [|apply sublist_take]. Qed.

Lemma in_order_filter t (P : N → Prop) `{!∀ n, Decision (P n)} p : in_order t p → in_order t (base.filter P p).
Proof.
  intros [Hs Hnd]. split; [|by apply NoDup_filter]. clear Hnd. induction Hs as [|n p Hs IH Hall]; [constructor|]. rewrite filter_cons.
  case_decide; [|done]. constructor; [done|]. rewrite Forall_forall in Hall |- *. intros m [_ Hm]%list_elem_of_filter. by apply Hall.
Qed.

Lemma add_node_spec t q p n :
  in_order t p → in_order t (LookupState.add_node t q p n) ∧
  ∀ m, m ∈ q ∨ m ∈ LookupState.add_node t q p n ↔ m ∈ q ∨ m ∈ p ∨ m = n.
Proof.
  intros [Hs Hnd]. unfold LookupState.add_node. case_decide as Hn; [split; [done|]; set_solver|]. split.
  - split; [by apply insert_at_search|]. rewrite insert_at_perm. apply NoDup_cons. tauto.
  - intros m. rewrite insert_at_perm, elem_of_cons. tauto.
Qed.

Lemma add_nodes_spec t q nodes : ∀ p,
  in_order t p → in_order t (foldl (LookupState.add_node t q) p nodes) ∧
  ∀ m, m ∈ q ∨ m ∈ foldl (LookupState.add_node t q) p nodes ↔ m ∈ q ∨ m ∈ p ∨ m ∈ nodes.
Proof.
  induction nodes as [|n nodes IH]; intros p Hp; simpl; [split; [done|set_solver]|].
  destruct (add_node_spec t q p n Hp) as [Hp' E]. destruct (IH _ Hp') as [Hp'' E']. split; [done|]. intros m. rewrite E', elem_of_cons. specialize (E m). tauto.
Qed.

(** The nodes that responses name. *)
Definition named (rs : list (N * list N)) n : Prop := ∃ from nodes, (from, nodes) ∈ rs ∧ (n = from ∨ n ∈ nodes).

Lemma add_responses_spec t rs : ∀ q p,
  in_order t p →
  let '(q', p') := foldl (LookupState.add_response t) (q, p) rs in
  in_order t p' ∧ q' = q ++ rs.*1 ∧ ∀ m, m ∈ q' ∨ m ∈ p' ↔ m ∈ q ∨ m ∈ p ∨ named rs m.
Proof.
  unfold named. induction rs as [|[from nodes] rs IH]; intros q p Hp; simpl; [split_and!; [done|by rewrite app_nil_r|set_solver]|].
  destruct (add_nodes_spec t (q ++ [from]) nodes p Hp) as [Hp' E].
  specialize (IH (q ++ [from]) _ Hp'). destruct (foldl _ (q ++ [from], _) rs) as [q' p']. destruct IH as (IH1 & -> & IH3).
  split_and!; [done|by rewrite <-app_assoc|]. intros m. rewrite IH3. specialize (E m). setoid_rewrite elem_of_cons. rewrite elem_of_app, list_elem_of_singleton in *.
  split; [intros [?|[?|?]]|]; naive_solver.
Qed.
End lookup.

(** ** The replica *)

Section replica.
Context {N : Type} `{Countable N} `{HashOrderLaws}.
Implicit Types (e : gmap N (PeerInfo N)).

(** [e'] holds the entries of [e] that were seen last. *)
Definition seen_last e e' : Prop :=
  e' ⊆ e ∧ ∀ k p k' p', e' !! k = Some p → e !! k' = Some p' → e' !! k' = None → last_seen p' <= last_seen p.

Lemma hash_list_size {V} (m : gmap N V) : length (hash_list m) = size m.
Proof. by rewrite hash_list_perm, length_map_to_list. Qed.

(** The entry that is removed. *)
Lemma oldest_spec {V} (f : V → Z) (m : gmap N V) :
  match min_by_key (λ kv, f kv.2) (hash_list m) with
  | Some (k, v) => m !! k = Some v ∧ ∀ k' v', m !! k' = Some v' → f v <= f v'
  | None => m = ∅
  end.
Proof.
  pose proof (min_by_key_spec (λ kv, f kv.2) (hash_list m)) as Hs. destruct (min_by_key _ _) as [[k v]|].
  - destruct Hs as [Hin Hmin]. split; [by apply elem_of_hash_list|]. intros k' v' Hk. by apply (Hmin (k', v')), elem_of_hash_list.
  - apply map_size_empty_inv. by rewrite <-hash_list_size, Hs.
Qed.

Lemma delete_size {V} (m : gmap N V) k v : m !! k = Some v → size m = S (size (delete k m)).
Proof. intros E. rewrite <-(insert_delete_id m k v) at 1 by done. apply map_size_insert_None, lookup_delete_eq. Qed.

Lemma trim_spec max fuel : ∀ e, 0 <= max → (size e <= fuel)%nat →
  returns (RoutingReplica.trim fuel max e) (λ e', seen_last e e' ∧ Z.of_nat (size e') = Z.min (Z.of_nat (size e)) max).
Proof.
  induction fuel as [|fuel IH]; intros e Hmax Hf; simpl; (destruct (Z.ltb_spec max (Z.of_nat (size e))); [|split; [split; [done|by intros * E E' E''; congruence]|lia]]); [lia|].
  pose proof (oldest_spec last_seen e) as Ho. destruct (min_by_key _ _) as [[k p]|]; [|subst e; rewrite map_size_empty in *; lia].
  destruct Ho as [Ek Hmin]. pose proof (delete_size e k p Ek). eapply returns_mono; [apply IH; lia|]. simpl. intros e' [[Hsub Hlast] Hsz].
  split; [|lia]. split; [etrans; [done|apply delete_subseteq]|]. intros j q j' q' Ej Ej' En.
  destruct (decide (j' = k)) as [->|]; [|apply (Hlast j q j' q'); [done| |done]; by rewrite lookup_delete_ne].
  rewrite Ej' in Ek. injection Ek as ->. apply (Hmin j). apply (lookup_weaken _ _ _ _ Ej) in Hsub. by apply lookup_delete_Some in Hsub as [_ ?].
Qed.
End replica.

(** ** The lookup cache and the table *)

Section table.
Context {N : Type} `{Countable N} `{HashOrderLaws} `{UuidLaws N}.
Implicit Types (n t : N) (c : LookupCache N) (d : Dht N).

(** Nodes near [t], none of them the local node, the closest first. *)
Definition answer (local t : N) (r : list N) : Prop := ascends (xor_distance t) r ∧ NoDup r ∧ local ∉ r.

(** An entry of the cache; it was read at most [b] times. *)
Definition entry_ok (local : N) (b : Z) t (e : CachedLookup N) : Prop :=
  cached_target e = t ∧ answer local t (cached_results e) ∧ 1 <= Z.of_nat (length (cached_results e)) <= K_BUCKET_SIZE ∧ 0 <= entry_hits e <= b.

Definition cache_ok (local : N) (b : Z) c : Prop :=
  map_Forall (entry_ok local b) (entries c) ∧ Z.of_nat (size (entries c)) <= Z.max 1 (max_size c).

Lemma cache_ok_subset local b b' c c' :
  entries c' ⊆ entries c → max_size c' = max_size c → b <= b' → cache_ok local b c → cache_ok local b' c'.
Proof.
  intros Hsub Hm Hb [Hf Hsz]. split.
  - intros t e Ht. destruct (Hf t e) as (? & ? & ? & ?); [by eapply lookup_weaken|]. split_and!; (done || lia).
  - rewrite Hm. apply map_subseteq_size in Hsub. lia.
Qed.

Lemma cache_get_ok local b now t c :
  cache_ok local b c → 0 <= b < U64_MAX →
  returns (LookupCache.get now t c) (λ '(o, c'), cache_ok local (b + 1) c' ∧ max_size c' = max_size c ∧
    (∀ r, o = Some r → ∃ e, entries c !! t = Some e ∧ cached_results e = r ∧ elapsed (cached_at e) now < ttl e) ∧
    ∀ k e', entries c' !! k = Some e' → ∃ e, entries c !! k = Some e ∧ cached_results e = cached_results e').
Proof.
  intros Hok Hb. unfold LookupCache.get. set (c1 := LookupCache.cleanup_expired now c).
  assert (entries c1 ⊆ entries c) as Hsub by apply map_filter_subseteq.
  assert (cache_ok local (b + 1) c1) as Hok1 by (apply (cache_ok_subset local b _ c); [done|done|lia|done]).
  destruct (entries c1 !! t) as [e|] eqn:Et; [|split_and!; [done|done|done|]; intros k e' ?; exists e'; split; [by eapply lookup_weaken|done]].
  assert (entries c !! t = Some e) as Et' by by eapply lookup_weaken. unfold LookupCache.is_valid. destruct (Z.ltb_spec (elapsed (cached_at e) now) (ttl e)) as [Hv|].
  - destruct (proj1 Hok t e Et') as (Ht & Ha & Hl & Hh). rewrite usize_add_ok by lia. cbn [obind returns]. split_and!; [|done|intros r [= <-]; by exists e|].
    + split; [|cbn [entries LookupCache.set_stats LookupCache.set_entries]; rewrite map_size_insert_Some by (by eexists); apply Hok1].
      apply map_Forall_insert_2; [|apply Hok1]. split_and!; simpl; (done || lia).
    + cbn [entries LookupCache.set_stats LookupCache.set_entries]. intros k e'. destruct (decide (k = t)) as [->|].
      * rewrite lookup_insert_eq. intros [= <-]. by exists e.
      * rewrite lookup_insert_ne by done. intros ?. exists e'. split; [by eapply lookup_weaken|done].
  - split_and!; [done|done|done|]. intros k e' ?. exists e'. split; [by eapply lookup_weaken|done].
Qed.

Lemma evict_lru_ok c :
  entries (LookupCache.evict_lru c) ⊆ entries c ∧ max_size (LookupCache.evict_lru c) = max_size c ∧ size (entries (LookupCache.evict_lru c)) = Nat.pred (size (entries c)).
Proof.
  unfold LookupCache.evict_lru. pose proof (oldest_spec cached_at (entries c)) as Ho. destruct (min_by_key _ _) as [[k e]|].
  - split_and!; [apply delete_subseteq|done|]. simpl. destruct Ho as [Ek _]. by rewrite (delete_size _ _ _ Ek).
  - by rewrite Ho.
Qed.

(** An insertion removes at most one other entry. *)
Lemma insert_entries now t r ttl c :
  ∃ m, m ⊆ entries c ∧ entries (LookupCache.insert_with_ttl now t r ttl c) = <[t := mkCached t r now ttl 0]> m ∧
    max_size (LookupCache.insert_with_ttl now t r ttl c) = max_size c ∧
    (Z.of_nat (size (entries c)) <= Z.max 1 (max_size c) → Z.of_nat (size (<[t := mkCached t r now ttl 0]> m)) <= Z.max 1 (max_size c)).
Proof.
  unfold LookupCache.insert_with_ttl. set (c1 := if _ && _ then _ else c). exists (entries c1).
  assert (entries c1 ⊆ entries c ∧ max_size c1 = max_size c ∧ (Z.of_nat (size (entries c)) <= Z.max 1 (max_size c) → Z.of_nat (size (<[t := mkCached t r now ttl 0]> (entries c1))) <= Z.max 1 (max_size c))) as (Hsub & Hm & Hsz); [|done].
  subst c1. destruct (evict_lru_ok c) as (E1 & E2 & E3). rewrite map_size_insert.
  destruct (Z.leb_spec (max_size c) (Z.of_nat (size (entries c)))), (bool_decide_reflect (is_Some (entries c !! t))) as [[e Ee]|Hn]; simpl;
    (split_and!; [done|done|]); rewrite ?Ee, ?(proj2 (eq_None_not_Some _) Hn); unfold id; try lia. destruct (entries (LookupCache.evict_lru c) !! t); lia.
Qed.

Lemma cache_insert_ok local b now t r ttl c :
  cache_ok local b c → 0 <= b → answer local t r → 1 <= Z.of_nat (length r) <= K_BUCKET_SIZE →
  cache_ok local b (LookupCache.insert_with_ttl now t r ttl c).
Proof.
  intros [Hf Hsz] Hb Ha Hl. destruct (insert_entries now t r ttl c) as (m & Hsub & Ee & Em & Hs). split; rewrite ?Ee, ?Em; [|auto].
  apply map_Forall_insert_2; [split_and!; simpl; (done || lia)|]. intros k e Hk. apply Hf. by eapply lookup_weaken.
Qed.

Lemma cache_insert_unknown n now t r ttl c :
  map_Forall (λ _ e, n ∉ cached_results e) (entries c) → n ∉ r →
  map_Forall (λ _ e, n ∉ cached_results e) (entries (LookupCache.insert_with_ttl now t r ttl c)).
Proof.
  intros Hf Hn. destruct (insert_entries now t r ttl c) as (m & Hsub & -> & _). apply map_Forall_insert_2; [done|].
  intros k e Hk. apply (Hf k). by eapply lookup_weaken.
Qed.

(** What [find_closest_uncached] sorts: the keys of the table. *)
Definition peers d : list N := sort_by_key (xor_distance (local_id d)) (hash_list (routing_table d)).*1.

Lemma uncached_take t k d :
  ∃ l, Dht.find_closest_uncached t k d = take (Z.to_nat k) l ∧ ascends (xor_distance t) l ∧ l ≡ₚ (map_to_list (routing_table d)).*1.
Proof.
  unfold Dht.find_closest_uncached. assert (peers d ≡ₚ (map_to_list (routing_table d)).*1) as Hp by (unfold peers; by rewrite sort_by_key_perm, hash_list_perm).
  case_decide as E; eexists; (split; [done|]).
  - subst t. split; [apply sort_by_key_spec|done].
  - split; [apply sort_by_key_spec|]. by rewrite sort_by_key_perm.
Qed.

Lemma uncached_closest t k d :
  closest_of t (Z.to_nat k) (λ n, is_Some (routing_table d !! n)) (Dht.find_closest_uncached t k d).
Proof.
  destruct (uncached_take t k d) as (l & -> & Hs & Hp). eapply closest_ext; [|apply closest_take; [done|]].
  - intros n. simpl. rewrite Hp, list_elem_of_fmap. split; [intros ([? ?] & -> & ?%elem_of_map_to_list); by eexists|].
    intros [p Hn]. exists (n, p). split; [done|]. by apply elem_of_map_to_list.
  - rewrite Hp. apply NoDup_fst_map_to_list.
Qed.

(** *** Histories of a table *)

(** The operations that change a table, with the time at which they are called. *)
Inductive event : Type :=
| InsertPeer (now : Z) (peer : PeerInfo N)
| RemovePeer (now : Z) (n : N)
| UpdateLatency (now : Z) (n : N) (latency : Z)
| FindClosest (now : Z) (t : N) (k : Z)
| ClearCache.

Definition dht_step d (e : event) : outcome (Dht N) :=
  match e with
  | InsertPeer now peer => Ret (Dht.insert_peer now peer d)
  | RemovePeer now n => Ret (Dht.remove_peer now n d).2
  | UpdateLatency now n latency => Ret (Dht.update_peer_latency now n latency d)
  | FindClosest now t k => let! (_, d') := Dht.find_closest now t k d in Ret d'
  | ClearCache => Ret (Dht.clear_cache d)
  end.

Fixpoint dht_run d (es : list event) : outcome (Dht N) :=
  match es with
  | [] => Ret d
  | e :: es' => let! d' := dht_step d e in dht_run d' es'
  end.

(** A table after at most [b] operations. *)
Record dht_ok (b : Z) d : Prop := {
  ok_table : map_Forall (λ n p, node_id p = n ∧ n ≠ local_id d) (routing_table d);
  ok_cache : cache_ok (local_id d) b (lookup_cache d);
  ok_churn : Z.of_nat (length (arrivals (churn_tracker d))) + Z.of_nat (length (departures (churn_tracker d))) <= b;
}.

(** Nothing in the table or the cache names [n]. *)
Definition unknown n d : Prop :=
  routing_table d !! n = None ∧ map_Forall (λ _ e, n ∉ cached_results e) (entries (lookup_cache d)).

Lemma recent_length now w (l : list (Z * N)) : (length (ChurnTracker.recent now w l) <= length l)%nat.
Proof. apply length_filter. Qed.

Lemma churn_rate_ok now (c : ChurnTracker N) b :
  Z.of_nat (length (arrivals c)) + Z.of_nat (length (departures c)) <= b → b <= U64_MAX →
  returns (ChurnTracker.recommended_cache_ttl now c) (λ _, True).
Proof.
  intros Hb Hm. unfold ChurnTracker.recommended_cache_ttl, ChurnTracker.churn_rate, ChurnTracker.arrival_count, ChurnTracker.departure_count.
  pose proof (recent_length now (window c) (arrivals c)). pose proof (recent_length now (window c) (departures c)). by rewrite usize_add_ok by lia.
Qed.

Lemma dht_ok_mono b b' d : b <= b' → dht_ok b d → dht_ok b' d.
Proof. intros Hb [? ? ?]. split; [done| |lia]. by apply (cache_ok_subset _ b _ (lookup_cache d)). Qed.

Lemma answer_uncached t k d :
  map_Forall (λ n p, node_id p = n ∧ n ≠ local_id d) (routing_table d) → answer (local_id d) t (Dht.find_closest_uncached t k d).
Proof.
  intros Ht. destruct (uncached_closest t k d) as (? & ? & _ & Hin & _). split_and!; [done..|]. intros [p Hp]%Hin. by destruct (Ht _ _ Hp).
Qed.

(** An answer of [find_closest] is what the cache holds for the target, still valid, or
    computed from the table. *)
Lemma find_closest_ok b now t k d :
  dht_ok b d → 0 <= b < U64_MAX →
  returns (Dht.find_closest now t k d) (λ '(r, d'),
    dht_ok (b + 1) d' ∧ local_id d' = local_id d ∧ answer (local_id d) t r ∧
    (r = Dht.find_closest_uncached t k d ∨
     k = K_BUCKET_SIZE ∧ ∃ e, entries (lookup_cache d) !! t = Some e ∧ cached_results e = r ∧ elapsed (cached_at e) now < ttl e) ∧
    ∀ n, unknown n d → unknown n d' ∧ n ∉ r).
Proof.
  intros [Ht Hc Hch] Hb. pose proof (λ k, answer_uncached t k d Ht) as Ha. unfold Dht.find_closest.
  assert (∀ n, unknown n d → n ∉ Dht.find_closest_uncached t k d) as Hun.
  { intros n [Hn _] Hin. apply uncached_closest in Hin as [p Hp]. congruence. }
  destruct (Z.eqb_spec k K_BUCKET_SIZE) as [->|Hk]; [|split_and!; [by apply (dht_ok_mono b); [lia|]|done|apply Ha|by left|intros n Hn; split; [done|by apply Hun]]].
  pose proof (cache_get_ok _ b now t _ Hc Hb) as Hget. destruct (LookupCache.get _ _ _) as [[o c']| |]; [|done..]. destruct Hget as (Hc' & _ & Ho & Hsub).
  assert (∀ n, unknown n d → unknown n (Dht.set_cache c' d)) as Hun'.
  { intros n [Hn Hall]. split; [done|]. intros k e (e0 & He0 & <-)%Hsub. by eapply Hall. }
  cbn [obind]. destruct o as [r|].
  { destruct (Ho r eq_refl) as (e & He & Er & Hv). split_and!; [split; [done|done|simpl; lia]|done| |right; split; [done|by exists e]|].
    - rewrite <-Er. apply (proj1 Hc t e He).
    - intros n Hn. split; [auto|]. destruct Hn as [_ Hall]. rewrite <-Er. by eapply Hall. }
  change (Dht.find_closest_uncached t K_BUCKET_SIZE (Dht.set_cache c' d)) with (Dht.find_closest_uncached t K_BUCKET_SIZE d).
  destruct (uncached_closest t K_BUCKET_SIZE d) as (_ & _ & Hlen & _). specialize (Ha K_BUCKET_SIZE). set (r := Dht.find_closest_uncached _ _ _) in *.
  destruct r as [|x r'] eqn:Er; [split_and!; [split; [done|done|simpl; lia]|done|done|by left|intros n Hn; auto]|]. cbn [andb churn_tracker Dht.set_cache Z.eqb K_BUCKET_SIZE].
  pose proof (churn_rate_ok now (churn_tracker d) b Hch ltac:(lia)) as Httl. simpl (_ =? _). cbn match. destruct (ChurnTracker.recommended_cache_ttl _ _) as [ttl| |]; [|done..].
  cbn [obind returns]. rewrite <-Er in *. split_and!; [|done|done|by left|].
  - split; [done| |simpl; lia]. apply cache_insert_ok; [done|lia|done|]. subst r. rewrite Er in *. simpl length in *. change (Z.to_nat K_BUCKET_SIZE) with 20%nat in Hlen. unfold K_BUCKET_SIZE. lia.
  - intros n Hn. split; [|auto]. split; [apply Hn|]. apply cache_insert_unknown; [by apply Hun'|by apply Hun].
Qed.

Lemma snoc_recent_length now w (l : list (Z * N)) x : (length (ChurnTracker.recent now w l ++ [x]) <= S (length l))%nat.
Proof. rewrite length_app. pose proof (recent_length now w l). simpl. lia. Qed.

Lemma insert_peer_ok b now peer d :
  dht_ok b d → dht_ok (b + 1) (Dht.insert_peer now peer d) ∧ local_id (Dht.insert_peer now peer d) = local_id d.
Proof.
  intros [Ht Hc Hch]. unfold Dht.insert_peer. case_decide as Hl; [split; [apply (dht_ok_mono b); [lia|done]|done]|].
  assert (map_Forall (λ n p, node_id p = n ∧ n ≠ local_id d) (base.filter (λ kv, PeerInfo.is_alive now kv.2 = true) (<[node_id peer := peer]> (routing_table d)))) as Ht'.
  { intros n p [Hn _]%map_lookup_filter_Some. revert n p Hn. by apply map_Forall_insert_2. }
  destruct (negb _); (split; [|done]); (split; [exact Ht'| |]); simpl in *.
  - apply (cache_ok_subset _ b _ (lookup_cache d)); [apply map_filter_subseteq|done|lia|done].
  - pose proof (snoc_recent_length now (window (churn_tracker d)) (arrivals (churn_tracker d)) (now, node_id peer)).
    pose proof (recent_length now (window (churn_tracker d)) (departures (churn_tracker d))). lia.
  - apply (cache_ok_subset _ b _ (lookup_cache d)); [done|done|lia|done].
  - lia.
Qed.

Lemma remove_peer_ok b now n d :
  dht_ok b d → dht_ok (b + 1) (Dht.remove_peer now n d).2 ∧ local_id (Dht.remove_peer now n d).2 = local_id d.
Proof.
  intros [Ht Hc Hch]. unfold Dht.remove_peer. destruct (routing_table d !! n) as [p|]; [|split; [apply (dht_ok_mono b); [lia|done]|done]].
  split; [|done]. split; simpl.
  - by apply map_Forall_delete.
  - apply (cache_ok_subset _ b _ (lookup_cache d)); [apply map_filter_subseteq|done|lia|done].
  - pose proof (snoc_recent_length now (window (churn_tracker d)) (departures (churn_tracker d)) (now, n)).
    pose proof (recent_length now (window (churn_tracker d)) (arrivals (churn_tracker d))). lia.
Qed.

Lemma update_latency_ok b now n latency d :
  dht_ok b d → dht_ok (b + 1) (Dht.update_peer_latency now n latency d) ∧ local_id (Dht.update_peer_latency now n latency d) = local_id d.
Proof.
  intros [Ht Hc Hch]. unfold Dht.update_peer_latency. destruct (routing_table d !! n) as [p|] eqn:En; (split; [|done]); (apply (dht_ok_mono b); [lia|]); [|done].
  split; [|done..]. apply map_Forall_insert_2; [|done]. by apply (Ht n p).
Qed.

Lemma dht_step_ok b e d :
  dht_ok b d → 0 <= b < U64_MAX → returns (dht_step d e) (λ d', dht_ok (b + 1) d' ∧ local_id d' = local_id d).
Proof.
  intros Hd Hb. destruct e as [now p|now n|now n l|now t k|]; simpl.
  - by apply insert_peer_ok.
  - by apply remove_peer_ok.
  - by apply update_latency_ok.
  - pose proof (find_closest_ok b now t k d Hd Hb) as Hf. destruct (Dht.find_closest _ _ _ _) as [[r d']| |]; [|done..]. by destruct Hf as (? & ? & _).
  - split; [|done]. apply (dht_ok_mono b); [lia|]. destruct Hd as [? ? ?]. split; [done| |done].
    apply (cache_ok_subset _ b _ (lookup_cache d)); [apply map_empty_subseteq|done|lia|done].
Qed.

Lemma dht_run_ok es : ∀ b d,
  dht_ok b d → 0 <= b → b + Z.of_nat (length es) <= U64_MAX →
  returns (dht_run d es) (λ d', dht_ok (b + Z.of_nat (length es)) d' ∧ local_id d' = local_id d).
Proof.
  induction es as [|e es IH]; intros b d Hd Hb Hl; simpl; [by rewrite Z.add_0_r|]. simpl length in Hl.
  pose proof (dht_step_ok b e d Hd ltac:(lia)) as Hs. destruct (dht_step d e) as [d'| |]; [|done..]. destruct Hs as [Hd' El]. simpl.
  eapply returns_mono; [apply (IH _ _ Hd'); lia|]. simpl. intros d'' [? ?]. split; [|congruence]. by replace (b + Z.of_nat (S (length es))) with (b + 1 + Z.of_nat (length es)) by lia.
Qed.

(** *** A node that is not known *)

Definition inserts n (e : event) : Prop := match e with InsertPeer _ p => node_id p = n | _ => False end.

Lemma dht_step_unknown n b e d :
  dht_ok b d → 0 <= b < U64_MAX → unknown n d → ¬ inserts n e → returns (dht_step d e) (unknown n).
Proof.
  intros Hd Hb [Hn Hall] Hi. destruct e as [now p|now m|now m l|now t k|]; simpl in *.
  - unfold Dht.insert_peer. case_decide; [done|].
    assert (base.filter (λ kv, PeerInfo.is_alive now kv.2 = true) (<[node_id p := p]> (routing_table d)) !! n = None) as Hn'.
    { apply map_lookup_filter_None. left. by rewrite lookup_insert_ne. }
    destruct (negb _); (split; [exact Hn'|]); [|done]. simpl. intros k e [He _]%map_lookup_filter_Some. by eapply Hall.
  - unfold Dht.remove_peer. destruct (routing_table d !! m); [|done]. split; simpl; [by apply lookup_delete_None; right|].
    intros k e [He _]%map_lookup_filter_Some. by eapply Hall.
  - unfold Dht.update_peer_latency. destruct (routing_table d !! m) eqn:Em; [|done]. split; [|done]. simpl. rewrite lookup_insert_ne; [done|congruence].
  - pose proof (find_closest_ok b now t k d Hd Hb) as Hf. destruct (Dht.find_closest _ _ _ _) as [[r d']| |]; [|done..]. simpl.
    destruct Hf as (_ & _ & _ & _ & Hu). by apply Hu.
  - split; [done|]. apply map_Forall_empty.
Qed.

Lemma dht_run_unknown n es : ∀ b d,
  dht_ok b d → 0 <= b → b + Z.of_nat (length es) <= U64_MAX → unknown n d → Forall (λ e, ¬ inserts n e) es →
  returns (dht_run d es) (unknown n).
Proof.
  induction es as [|e es IH]; intros b d Hd Hb Hl Hu Hi; simpl; [done|]. simpl length in Hl. apply Forall_cons in Hi as [Hi Hi'].
  pose proof (dht_step_ok b e d Hd ltac:(lia)) as Hs. pose proof (dht_step_unknown n b e d Hd ltac:(lia) Hu Hi) as Hs'.
  destruct (dht_step d e) as [d'| |]; [|done..]. destruct Hs as [Hd' _]. simpl. apply (IH (b + 1)); (done || lia).
Qed.
End table.

(** * Distributed hash table: theorems *)

(** ** Distance *)

Section distance.
Context {N : Type} `{UuidLaws N}.
Implicit Types (a b c : N).

(** [xor_distance] is the exclusive or of the two identifiers read as 128-bit
    numbers, high byte first, and a metric: zero only between a node and itself, the
    same in both directions, no longer than any detour; and from one node no two
    others are at the same distance. *)
Theorem xor_distance_metric a b c :
  xor_distance a b = Z.lxor (id_value a) (id_value b) ∧ 0 <= xor_distance a b < 2 ^ 128 ∧
  (xor_distance a b = 0 ↔ a = b) ∧ xor_distance a b = xor_distance b a ∧
  xor_distance a c <= xor_distance a b + xor_distance b c ∧
  (xor_distance a b = xor_distance a c → b = c).
Proof.
  assert (∀ n : N, 0 <= id_value n < 2 ^ 128) as Hv.
  { intros n. pose proof (be_value_bound _ (as_bytes_byte n)) as B. by rewrite as_bytes_length in B. }
  split_and!; rewrite ?xor_distance_lxor; [done|..].
  1, 2: by destruct (lxor_bound 128 (id_value a) (id_value b) ltac:(done) (Hv a) (Hv b)).
  - rewrite Z.lxor_eq_0_iff. split; [apply id_value_inj|by intros ->].
  - apply Z.lxor_comm.
  - apply xor_triangle; apply Hv.
  - rewrite <-!xor_distance_lxor. apply xor_distance_inj.
Qed.
End distance.

(** ** The closest peers *)

Section closest.
Context {N : Type} `{Countable N} `{HashOrderLaws} `{UuidLaws N}.
Implicit Types (n t : N) (d : Dht N).

(** [find_closest_uncached] lists the [k] peers of the table that are closest to
    the target, all of them if they are fewer, each once and the closest first: every
    peer that is left out is farther than every peer that is listed.  The answer
    depends on the set of peers only, not on the order in which the hash map lists them
    nor on the first of the two sorts. *)
Theorem find_closest_lists_closest t k d :
  closest_of t (Z.to_nat k) (λ n, is_Some (routing_table d !! n)) (Dht.find_closest_uncached t k d) ∧
  Dht.find_closest_uncached t k d = take (Z.to_nat k) (sort_by_key (xor_distance t) (map_to_list (routing_table d)).*1).
Proof.
  split; [apply uncached_closest|]. destruct (uncached_take t k d) as (l & -> & Hs & Hp). f_equal.
  apply (sorted_by_distance t); [done|apply sort_by_key_spec|]. by rewrite sort_by_key_perm.
Qed.

(** [route_to] takes a direct route if the target is in the table, and otherwise the
    alive peer that is closest to it, if any peer is alive. *)
Lemma route_to_spec now t d :
  match Dht.route_to now t d with
  | Some p => routing_table d !! t = Some p ∨
      routing_table d !! t = None ∧ (∃ n, routing_table d !! n = Some p) ∧ PeerInfo.is_alive now p = true ∧
      ∀ n q, routing_table d !! n = Some q → PeerInfo.is_alive now q = true → xor_distance t (node_id p) <= xor_distance t (node_id q)
  | None => routing_table d !! t = None ∧ ∀ n q, routing_table d !! n = Some q → PeerInfo.is_alive now q = false
  end.
Proof.
  unfold Dht.route_to. destruct (routing_table d !! t) as [p|] eqn:Et; [by left|]. set (l := base.filter _ _).
  assert (∀ q, q ∈ l ↔ PeerInfo.is_alive now q = true ∧ ∃ n, routing_table d !! n = Some q) as Hl.
  { intros q. unfold l. rewrite list_elem_of_filter, list_elem_of_fmap. split.
    - intros [? ([n q'] & -> & Hin%elem_of_hash_list)]. eauto.
    - intros [? [n Hn]]. split; [done|]. exists (n, q). split; [done|]. by apply elem_of_hash_list. }
  pose proof (min_by_key_spec (λ peer, xor_distance t (node_id peer)) l) as Hm. destruct (min_by_key _ _) as [p|].
  - destruct Hm as [[Ha Hin]%Hl Hmin]. right. split_and!; [done..|]. intros n q Hq Hal. apply Hmin, Hl. eauto.
  - split; [done|]. intros n q Hq. apply not_true_iff_false. intros Hal. assert (q ∈ l) as Hin by (apply Hl; eauto). rewrite Hm in Hin. by apply elem_of_nil in Hin.
Qed.

(** *** Histories *)

(** Whatever peers come and go and whatever is looked up, up to 2^64 operations,
    no operation panics and the table stays well formed: every peer is stored under its
    own identifier and the local node is not among them; every cached answer is
    for the target it is stored under, not empty, at most twenty nodes, each once, the
    closest first, without the local node; and the cache never outgrows its bound, or
    one entry if the bound is zero. *)
Theorem dht_history_ok (local : N) cache_size es :
  Z.of_nat (length es) <= U64_MAX →
  returns (dht_run (Dht.with_cache_size local cache_size) es) (λ d,
    dht_ok (Z.of_nat (length es)) d ∧ local_id d = local).
Proof.
  intros Hl. apply (dht_run_ok es 0); [|done..]. split; [apply map_Forall_empty| |done]. split; [apply map_Forall_empty|]. simpl. rewrite map_size_empty. lia.
Qed.

(** Once a peer is removed, no lookup returns it until it is inserted again,
    whatever else happens in between: removing it also drops every cached answer that
    names it. *)
Theorem removed_peer_not_found b now n d es later t k :
  dht_ok b d → 0 <= b → b + 2 + Z.of_nat (length es) <= U64_MAX →
  is_Some (routing_table d !! n) → Forall (λ e, ¬ inserts n e) es →
  returns (dht_run (Dht.remove_peer now n d).2 es) (λ d', returns (Dht.find_closest later t k d') (λ '(r, _), n ∉ r)).
Proof.
  intros Hd Hb Hl [p Hp] Hi. destruct (remove_peer_ok b now n d Hd) as [Hd1 _].
  assert (unknown n (Dht.remove_peer now n d).2) as Hu.
  { unfold Dht.remove_peer. rewrite Hp. split; simpl; [apply lookup_delete_eq|]. by intros t' e [_ ?]%map_lookup_filter_Some. }
  pose proof (dht_run_ok es (b + 1) _ Hd1 ltac:(lia) ltac:(lia)) as Hr. pose proof (dht_run_unknown n es (b + 1) _ Hd1 ltac:(lia) ltac:(lia) Hu Hi) as Hr'.
  destruct (dht_run _ es) as [d'| |]; [|done..]. destruct Hr as [Hd' _]. simpl in *.
  eapply returns_mono; [apply (find_closest_ok (b + 1 + Z.of_nat (length es)) later t k d' Hd'); lia|]. intros [r d''] (_ & _ & _ & _ & Hun). by apply Hun.
Qed.

(** ** The replica *)

(** Synchronizing a replica ends, and keeps as many entries as fit, those that were
    seen last: no entry that was left out was seen after one that was kept. *)
Theorem replica_keeps_seen_last now primary (self : RoutingReplica N) :
  0 <= max_entries self →
  returns (RoutingReplica.sync_from now primary self) (λ r,
    seen_last primary (replica_entries r) ∧ Z.of_nat (size (replica_entries r)) = Z.min (Z.of_nat (size primary)) (max_entries self) ∧
    max_entries r = max_entries self ∧ last_sync r = now).
Proof.
  intros Hm. unfold RoutingReplica.sync_from. pose proof (trim_spec (max_entries self) (size primary) primary Hm ltac:(lia)) as Ht.
  destruct (RoutingReplica.trim _ _ _) as [e| |]; [|done..]. simpl. by destruct Ht.
Qed.
End closest.

(** ** Iterative lookups *)

Section lookup.
Context {N : Type} `{EqDecision N} `{UuidLaws N}.
Implicit Types (n t : N) (s : LookupState N) (cfg : LookupConfig).

(** The caller takes batches and hands in responses, in any order. *)
Inductive lookup_event : Type :=
| NextBatch
| Responses (rs : list (N * list N)).

Fixpoint lookup_run s (es : list lookup_event) : outcome (LookupState N) :=
  match es with
  | [] => Ret s
  | NextBatch :: es' => lookup_run (LookupState.next_batch s).2 es'
  | Responses rs :: es' => let! s' := LookupState.process_responses rs s in lookup_run s' es'
  end.

Fixpoint rounds (es : list lookup_event) : Z :=
  match es with
  | [] => 0
  | NextBatch :: es' => rounds es'
  | Responses _ :: es' => 1 + rounds es'
  end.

Lemma rounds_nonneg es : 0 <= rounds es.
Proof. induction es as [|[]]; simpl; lia. Qed.

(** A lookup after [r] rounds. *)
Record lookup_ok t cfg (r : Z) s : Prop := {
  ok_target : target s = t;
  ok_config : config s = cfg;
  ok_pending : in_order t (pending s);
  ok_iteration : iteration s = r;
  ok_complete : 1 <= r → max_iterations cfg <= r → complete s = true;
}.

Lemma next_batch_ok t cfg r s : 0 <= parallelism cfg → lookup_ok t cfg r s →
  lookup_ok t cfg r (LookupState.next_batch s).2 ∧
  (LookupState.next_batch s).1 = take (Z.to_nat (parallelism cfg)) (base.filter (λ n, n ∉ queried s) (pending s)).
Proof.
  intros Hpar [Et Ec Ep Ei Eco]. unfold LookupState.next_batch. rewrite Ec. destruct (batch_loop_spec (parallelism cfg) (queried s) (pending s) [] Hpar) as [E1 [taken E2]].
  destruct (LookupState.batch_loop _ _ _ _) as [batch p']. simpl in *. split; [|done]. split; simpl; [done..| |done|done]. rewrite E2 in Ep. by eapply in_order_suffix.
Qed.

Lemma process_responses_ok t cfg r rs s : lookup_ok t cfg r s → 0 <= r < U64_MAX →
  returns (LookupState.process_responses rs s) (λ s', lookup_ok t cfg (r + 1) s' ∧ queried s' = queried s ++ rs.*1 ∧
    closest_of t (Z.to_nat (result_count cfg)) (λ n, n ∈ queried s ∨ n ∈ pending s ∨ named rs n) (results s')).
Proof.
  intros [Et Ec Ep Ei Eco] Hr. unfold LookupState.process_responses. rewrite Et, Ec, Ei.
  pose proof (add_responses_spec t rs (queried s) (pending s) Ep) as Ha. destruct (foldl _ _ rs) as [q' p']. destruct Ha as (Hp' & -> & Hm).
  rewrite usize_add_ok by lia. cbn [obind returns]. split_and!; [|done|].
  - split; cbn [target config pending iteration complete]; [done..|]. intros _ Hmax. rewrite (proj2 (Z.leb_le _ _)) by done. by rewrite !orb_true_r.
  - eapply closest_ext; [|apply closest_dedup]. intros n. simpl. by rewrite elem_of_app, Hm.
Qed.

Lemma lookup_run_ok t cfg es : ∀ r s, lookup_ok t cfg r s → 0 <= parallelism cfg → 0 <= r → r + rounds es <= U64_MAX →
  returns (lookup_run s es) (lookup_ok t cfg (r + rounds es)).
Proof.
  induction es as [|[|rs] es IH]; intros r s Hs Hp Hr Hb; simpl in *.
  - by rewrite Z.add_0_r.
  - apply IH; [by apply next_batch_ok|done..].
  - pose proof (rounds_nonneg es). pose proof (process_responses_ok t cfg r rs s Hs ltac:(lia)) as Hpr.
    destruct (LookupState.process_responses rs s) as [s'| |]; [|done..]. destruct Hpr as [Hs' _]. simpl.
    eapply returns_mono; [apply (IH (r + 1) s' Hs'); lia|]. intros s''. by rewrite Z.add_assoc.
Qed.

Lemma lookup_new_ok now t init cfg : lookup_ok t cfg 0 (LookupState.new now t init cfg).
Proof.
  split; simpl; [done..| |done|lia]. destruct (sort_by_key_spec (xor_distance t) init) as [Hs _]. by apply (dedup_ascends (xor_distance t) _ (xor_distance_inj t)).
Qed.

(** A lookup comes to an end: whatever the responses, the counter of rounds counts
    them, and after as many rounds as the configuration allows (and at least one) the
    lookup is complete.  In every round the batch holds the closest pending nodes that
    were not queried, each once, the closest first, at most as many as are queried in
    parallel. *)
Theorem lookup_terminates now t init cfg es :
  0 <= parallelism cfg → rounds es <= U64_MAX →
  returns (lookup_run (LookupState.new now t init cfg) es) (λ s,
    iteration s = rounds es ∧
    (1 <= rounds es → max_iterations cfg <= rounds es → complete s = true) ∧
    in_order t (LookupState.next_batch s).1 ∧
    (LookupState.next_batch s).1 = take (Z.to_nat (parallelism cfg)) (base.filter (λ n, n ∉ queried s) (pending s))).
Proof.
  intros Hp Hr. eapply returns_mono; [by apply (lookup_run_ok t cfg es 0); [apply lookup_new_ok|..]|].
  simpl. intros s Hs. destruct (next_batch_ok t cfg _ s Hp Hs) as [_ E]. destruct Hs as [_ _ Ho Hi Hc]. split_and!; [done..| |done].
  rewrite E. apply in_order_take. by apply in_order_filter.
Qed.

(** After every round the results are the nodes closest to the target, as many as
    are asked for, among all nodes that the lookup has queried, holds pending, or that
    the responses of the round name; each once, the closest first. *)
Theorem lookup_results_closest now t init cfg es rs :
  0 <= parallelism cfg → rounds es < U64_MAX →
  returns (lookup_run (LookupState.new now t init cfg) es) (λ s,
    returns (LookupState.process_responses rs s) (λ s',
      in_order t (pending s') ∧ queried s' = queried s ++ rs.*1 ∧
      closest_of t (Z.to_nat (result_count cfg)) (λ n, n ∈ queried s ∨ n ∈ pending s ∨ named rs n) (results s'))).
Proof.
  intros Hp Hr. eapply returns_mono; [apply (lookup_run_ok t cfg es 0); [apply lookup_new_ok|done|done|lia]|]. intros s Hs. pose proof (rounds_nonneg es).
  eapply returns_mono; [apply (process_responses_ok t cfg _ rs s Hs); lia|]. simpl. intros s' (Hs' & ? & ?). split_and!; [apply Hs'|done..].
Qed.

(** The results include the pending nodes, so that the closest result is never farther
    than the closest pending node: the test for convergence only counts the results. *)
Lemma convergence_only_counts t q p k :
  in_order t p → 1 <= k →
  LookupState.converged t p (LookupState.update_results t q p k) k =
  match p with [] => false | _ => k <=? Z.of_nat (length (LookupState.update_results t q p k)) end.
Proof.
  intros Hp Hk. unfold LookupState.converged. pose proof (closest_dedup t (Z.to_nat k) (q ++ p)) as Hc. fold (LookupState.update_results t q p k) in Hc.
  set (r := LookupState.update_results t q p k) in *. destruct p as [|x p]; [by destruct r|]. destruct Hc as (Hs & _ & _ & _ & Hout).
  assert (x ∈ q ++ x :: p) as Hx by set_solver. destruct r as [|y r].
  - destruct (Hout x Hx) as [Hl _]; [set_solver|]. simpl in Hl. lia.
  - assert (xor_distance t y <= xor_distance t x) as Hle; [|by rewrite (proj2 (Z.leb_le _ _) Hle)].
    destruct (decide (x ∈ y :: r)) as [Hin|Hn]; [|destruct (Hout x Hx Hn) as [_ Hlt]; specialize (Hlt y ltac:(left)); lia].
    apply StronglySorted_inv in Hs as [_ Hall]. rewrite Forall_forall in Hall. apply elem_of_cons in Hin as [->|Hin]; [done|by apply Hall].
Qed.
End lookup.

(** ** A small network *)

(** Eight nodes, told apart by the last byte. *)
Module Small.

Abbreviation node := (bool * bool * bool)%type.

Definition small_bytes (n : node) : list Z := replicate 15 0 ++ [4 * Z.b2z n.1.1 + 2 * Z.b2z n.1.2 + Z.b2z n.2].
Definition small_uuid : Uuid node := {| as_bytes := small_bytes |}.
Existing Instance small_uuid.
Existing Instance sorted_order.

Lemma small_laws : UuidLaws node.
Proof.
  split.
  - done.
  - intros [[[] []] []]; repeat constructor; done.
  - intros [[[] []] []] [[[] []] []] E; vm_compute in E; congruence.
Qed.

Definition n0 : node := (false, false, false).
Definition n1 : node := (false, false, true).
Definition n2 : node := (false, true, false).
Definition n3 : node := (false, true, true).
Definition n4 : node := (true, false, false).
Definition sec : Z := 1000000000.
Definition peer (now : Z) (n : node) : PeerInfo node := PeerInfo.new now n [].

(** n4 knows n1 and n2. *)
Definition table : Dht node := Dht.insert_peer 0 (peer 0 n2) (Dht.insert_peer 0 (peer 0 n1) (Dht.new n4)).

End Small.
Import Small.
#[local] Existing Instance small_uuid.
#[local] Existing Instance sorted_order.
#[local] Existing Instance small_laws.
#[local] Existing Instance sorted_order_laws.

Lemma xor_distance_metric_witness : xor_distance n1 n4 <= xor_distance n1 n2 + xor_distance n2 n4 ∧ xor_distance n1 n4 = 5.
Proof. split; [|done]. destruct (xor_distance_metric n1 n2 n4) as (_ & _ & _ & _ & Ht & _). exact Ht. Defined.

Lemma find_closest_lists_closest_witness :
  Dht.find_closest_uncached n3 1 table = [n2] ∧ closest_of n3 1 (λ n, is_Some (routing_table table !! n)) (Dht.find_closest_uncached n3 1 table).
Proof. split; [by vm_compute|]. exact (proj1 (find_closest_lists_closest n3 1 table)). Defined.

Lemma dht_history_ok_witness :
  returns (dht_run (Dht.with_cache_size n4 1) [InsertPeer 0 (peer 0 n1); FindClosest 1 n2 20; FindClosest 2 n3 20; RemovePeer 3 n1]) (λ d, dht_ok 4 d ∧ local_id d = n4).
Proof. apply (dht_history_ok n4 1 [InsertPeer 0 (peer 0 n1); FindClosest 1 n2 20; FindClosest 2 n3 20; RemovePeer 3 n1]). by vm_compute. Defined.

Lemma table_ok : dht_ok 0 (Dht.insert_peer 0 (peer 0 n4) (Dht.new n4)).
Proof. split; [apply map_Forall_empty| |done]. split; [apply map_Forall_empty|done]. Qed.

Lemma table_ok2 : dht_ok 2 table.
Proof. apply (insert_peer_ok 1), (insert_peer_ok 0), table_ok. Qed.

Lemma removed_peer_not_found_witness :
  returns (dht_run (Dht.remove_peer 5 n1 table).2 [FindClosest 6 n3 20]) (λ d', returns (Dht.find_closest 7 n0 20 d') (λ '(r, _), n1 ∉ r)).
Proof.
  apply (removed_peer_not_found 2 5 n1 table [FindClosest 6 n3 20] 7 n0 20); [apply table_ok2|done|by vm_compute| |].
  - vm_compute. by eexists.
  - repeat constructor. intros [].
Defined.

Lemma replica_keeps_seen_last_witness :
  returns (RoutingReplica.sync_from 9 {[n1 := peer 3 n1; n2 := peer 7 n2]} (RoutingReplica.new 0 1)) (λ r, Z.of_nat (size (replica_entries r)) = 1) ∧
  (let! r := RoutingReplica.sync_from 9 {[n1 := peer 3 n1; n2 := peer 7 n2]} (RoutingReplica.new 0 1) in Ret (bool_decide (is_Some (RoutingReplica.get n2 r)))) = Ret true.
Proof.
  split; [|by vm_compute]. eapply returns_mono; [apply (replica_keeps_seen_last 9 {[n1 := peer 3 n1; n2 := peer 7 n2]} (RoutingReplica.new 0 1)); done|].
  simpl. intros r (_ & E & _). rewrite E. by vm_compute.
Defined.

Definition small_config : LookupConfig := mkLookupConfig 1 2 1 false 0.

Lemma lookup_terminates_witness :
  returns (lookup_run (LookupState.new 0 n0 [n4; n3] small_config) [NextBatch; Responses [(n3, [n1])]]) (λ s, complete s = true).
Proof.
  eapply returns_mono; [apply (lookup_terminates 0 n0 [n4; n3] small_config [NextBatch; Responses [(n3, [n1])]]); done|].
  simpl. intros s (_ & Hc & _). by apply Hc.
Defined.

Lemma lookup_results_closest_witness :
  returns (lookup_run (LookupState.new 0 n0 [n4; n3] small_config) [NextBatch]) (λ s,
    returns (LookupState.process_responses [(n3, [n1])] s) (λ s', in_order n0 (pending s'))).
Proof.
  eapply returns_mono; [apply (lookup_results_closest 0 n0 [n4; n3] small_config [NextBatch] [(n3, [n1])]); done|].
  simpl. intros s Hs. eapply returns_mono; [exact Hs|]. simpl. by intros s' [? _].
Defined.

(** ** What was found *)

(** A lookup of two nodes is complete after its first round although the closest nodes
    it has heard of are still pending. *)
Lemma lookup_stops_early :
  (let! s := lookup_run (LookupState.new 0 n0 [n4] (mkLookupConfig 1 2 20 false 0)) [NextBatch; Responses [(n4, [n1; n2])]] in
   Ret (complete s, pending s, queried s)) = Ret (true, [n1; n2], [n4]).
Proof. by vm_compute. Qed.

(** A peer that joins does not show in a cached answer it belongs to. *)
Lemma new_peer_missing_from_cache :
  (let! (r1, d1) := Dht.find_closest sec n3 20 (Dht.insert_peer 0 (peer 0 n1) (Dht.new n4)) in
   let d2 := Dht.insert_peer (2 * sec) (peer (2 * sec) n3) d1 in
   let! (r2, _) := Dht.find_closest (3 * sec) n3 20 d2 in
   Ret (r1, r2, Dht.find_closest_fresh n3 20 d2)) = Ret ([n1], [n1], [n3; n1]).
Proof. by vm_compute. Qed.

(** A peer that timed out and was evicted is still in a cached answer. *)
Lemma evicted_peer_in_cache :
  (let! (_, d1) := Dht.find_closest (200 * sec) n3 20 (Dht.insert_peer 0 (peer 0 n1) (Dht.new n4)) in
   let d2 := Dht.insert_peer (400 * sec) (peer (400 * sec) n2) d1 in
   let! (r, _) := Dht.find_closest (401 * sec) n3 20 d2 in
   Ret (bool_decide (is_Some (Dht.get_peer n1 d2)), r)) = Ret (false, [n1]).
Proof. by vm_compute. Qed.

(** The entry that is evicted is the first one inserted, used since or not. *)
Lemma evicts_recently_used :
  (let c := LookupCache.insert 2 n2 [n3] (LookupCache.insert 1 n1 [n3] (LookupCache.new 2)) in
   let! (hit, c) := LookupCache.get 3 n1 c in
   let! (o1, c) := LookupCache.get 5 n1 (LookupCache.insert 4 n0 [n3] c) in
   let! (o2, _) := LookupCache.get 5 n2 c in Ret (hit, o1, o2)) = Ret (Some [n3], None, Some [n3]).
Proof. by vm_compute. Qed.

(** A cache of size zero holds one entry. *)
Lemma empty_cache_holds_one : LookupCache.len (LookupCache.insert 1 n1 [n3] (LookupCache.new 0)) = 1.
Proof. by vm_compute. Qed.

(** The direct route leads to a peer that has timed out, although others are alive. *)
Lemma direct_route_dead :
  let d := Dht.update_peer_latency (299 * sec) n2 5 table in
  (PeerInfo.is_alive (400 * sec) <$> Dht.route_to (400 * sec) n1 d, node_id <$> Dht.route_to (400 * sec) n1 d) = (Some false, Some n1) ∧
  Dht.find_closest_by_latency (400 * sec) 20 d = [n2].
Proof. by vm_compute. Qed.
