(* ===== verification/Causal.v ===== *)
(** * Causality

    What the two clocks of the mesh promise (the version vectors of its core and the
    vector clocks of its wire protocol), as an interface, and what follows of it for
    replicas that exchange messages: clocks are ordered exactly as the histories of
    events they stand for. *)

From stdpp Require Import base tactics option list numbers gmap relations.
From S2P Require Import Prelude Hash.

(** ** Clocks *)

Class CausalClock (N C : Type) : Type := {
  clock_empty : C;
  clock_tick : N → C → outcome C;
  (** The first clock after it was merged with the second. *)
  clock_join : C → C → C;
  clock_le : C → C → bool;
}.

Class CausalClockLaws (N C : Type) `{EqDecision N, CausalClock N C} : Type := {
  clock_get : C → N → Z;
  clock_wf : C → Prop;
  clock_get_nonneg c n : clock_wf c → 0 <= clock_get c n;
  clock_empty_law : clock_wf clock_empty ∧ ∀ n, clock_get clock_empty n = 0;
  clock_tick_law n c c' : clock_wf c → clock_tick n c = Ret c' →
    clock_wf c' ∧ ∀ m, clock_get c' m = if decide (m = n) then clock_get c n + 1 else clock_get c m;
  clock_join_law c d : clock_wf c → clock_wf d →
    clock_wf (clock_join c d) ∧ ∀ n, clock_get (clock_join c d) n = Z.max (clock_get c n) (clock_get d n);
  clock_le_law c d : clock_wf c → clock_wf d → clock_le c d = true ↔ ∀ n, clock_get c n <= clock_get d n;
}.

(** ** Replicas *)

(** A clock with the events that it has seen, which are numbered as they happen. *)
Notation stamp C := (C * gset nat)%type.

(** The replicas with their identifiers; the messages that were ever sent, any of
    which may arrive any number of times and in any order, or never; and the replica
    of each event, with its count there. *)
Record world (N C : Type) : Type := mkWorld {
  replicas : list (N * stamp C);
  messages : list (stamp C);
  events : list (N * Z);
}.
Arguments mkWorld {N C}.
Arguments replicas {N C}.
Arguments messages {N C}.
Arguments events {N C}.

Section causality.
Context {N C : Type} `{Countable N, !CausalClock N C, !CausalClockLaws N C}.
Implicit Types (w : world N C).

Inductive world_step : world N C → world N C → Prop :=
| world_event rs ms es i n c h c' :
    rs !! i = Some (n, (c, h)) → clock_tick n c = Ret c' →
    world_step (mkWorld rs ms es)
      (mkWorld (<[i := (n, (c', {[length es]} ∪ h))]> rs) ms (es ++ [(n, clock_get c' n)]))
| world_send rs ms es i n s :
    rs !! i = Some (n, s) → world_step (mkWorld rs ms es) (mkWorld rs (s :: ms) es)
| world_receive rs ms es i n c h c2 h2 :
    rs !! i = Some (n, (c, h)) → (c2, h2) ∈ ms →
    world_step (mkWorld rs ms es) (mkWorld (<[i := (n, (clock_join c c2, h ∪ h2))]> rs) ms es).

Definition world_start (ids : list N) : world N C := mkWorld ((λ n, (n, (clock_empty, ∅))) <$> ids) [] [].

(** Every clock of the system with its events. *)
Definition stamps w : list (stamp C) := (replicas w).*2 ++ messages w.

(** The events of a stamp are those that its clock counts. *)
Definition stamp_ok (es : list (N * Z)) (s : stamp C) : Prop :=
  clock_wf s.1 ∧
  (∀ e, e ∈ s.2 ↔ ∃ n k, es !! e = Some (n, k) ∧ k <= clock_get s.1 n) ∧
  (∀ n k, 1 <= k <= clock_get s.1 n → (n, k) ∈ es).

Record world_ok w : Prop := {
  ok_ids : NoDup (replicas w).*1;
  ok_events : NoDup (events w);
  ok_owned e n k : events w !! e = Some (n, k) → 1 <= k ∧ ∃ i s, replicas w !! i = Some (n, s) ∧ k <= clock_get s.1 n;
  ok_stamps : Forall (stamp_ok (events w)) (stamps w);
}.

Lemma elem_of_stamps w s : s ∈ stamps w ↔ (∃ i n, replicas w !! i = Some (n, s)) ∨ s ∈ messages w.
Proof.
  unfold stamps. rewrite elem_of_app, list_elem_of_fmap. split; (intros [Hs|Hs]; [left|by right]).
  - destruct Hs as ([n s'] & -> & [i Hi]%list_elem_of_lookup). by exists i, n.
  - destruct Hs as (i & n & Hi). exists (n, s). split; [done|by eapply list_elem_of_lookup_2].
Qed.

Lemma same_replica w i j n s s' : world_ok w → replicas w !! i = Some (n, s) → replicas w !! j = Some (n, s') → i = j.
Proof.
  intros Hok Hi Hj. eapply (NoDup_lookup _ i j n (ok_ids w Hok)); by rewrite list_lookup_fmap, ?Hi, ?Hj.
Qed.

(** Nobody counts more events of a replica than it does itself. *)
Lemma own_count_max w i n s s' :
  world_ok w → replicas w !! i = Some (n, s) → s' ∈ stamps w → clock_get s'.1 n <= clock_get s.1 n.
Proof.
  intros Hok Hi Hs'. pose proof (ok_stamps w Hok) as Hall. rewrite Forall_forall in Hall.
  destruct (Hall s' Hs') as (Hwf & _ & Hev). assert (s ∈ stamps w) as Hs by (apply elem_of_stamps; eauto).
  destruct (Hall s Hs) as (Hwf2 & _). pose proof (clock_get_nonneg s.1 n Hwf2).
  destruct (decide (1 <= clock_get s'.1 n)) as [Hk|]; [|lia].
  destruct (list_elem_of_lookup_1 _ _ (Hev n _ (conj Hk (Z.le_refl _)))) as [e He].
  destruct (ok_owned w Hok e n _ He) as (_ & j & s2 & Hj & Hle). assert (i = j) as <- by by eapply same_replica. congruence.
Qed.

Lemma world_ok_update rs ms es i n s s' es' :
  world_ok (mkWorld rs ms es) → rs !! i = Some (n, s) → (∀ m, clock_get s.1 m <= clock_get s'.1 m) → NoDup es' →
  (∀ e m k, es' !! e = Some (m, k) → es !! e = Some (m, k) ∨ (m = n ∧ 1 <= k <= clock_get s'.1 n)) →
  stamp_ok es' s' → (∀ s2, s2 ∈ stamps (mkWorld rs ms es) → stamp_ok es' s2) →
  world_ok (mkWorld (<[i := (n, s')]> rs) ms es').
Proof.
  intros Hok Hi Hgrow Hnd Hes Hs' Hall. pose proof (lookup_lt_Some _ _ _ Hi) as Hlt. split; cbn [replicas messages events].
  - assert (rs.*1 !! i = Some n) as Hn by by rewrite list_lookup_fmap, Hi.
    rewrite list_fmap_insert, list_insert_id by done. apply Hok.
  - done.
  - intros e m k He. destruct (Hes e m k He) as [He'|[-> Hk]].
    + destruct (ok_owned _ Hok e m k He') as (Hk & j & s2 & Hj & Hle). split; [done|]. cbn [replicas] in Hj.
      destruct (decide (i = j)) as [<-|Hne]; [|exists j, s2; by rewrite list_lookup_insert_ne].
      exists i, s'. rewrite list_lookup_insert_eq by done. simplify_eq. split; [done|]. etrans; [exact Hle|apply Hgrow].
    + split; [lia|]. exists i, s'. rewrite list_lookup_insert_eq by done. split; [done|lia].
  - apply Forall_forall. intros s2 [(j & m & Hj)|Hm]%elem_of_stamps; cbn [replicas messages] in *; [|apply Hall, elem_of_stamps; by right].
    apply list_lookup_insert_Some in Hj as [(_ & E & _)|[_ Hj]]; [by simplify_eq|]. apply Hall, elem_of_stamps. left. by exists j, m.
Qed.

(** An event that a stamp does not count is not among its events. *)
Lemma stamp_ok_snoc es s n k : stamp_ok es s → clock_get s.1 n < k → stamp_ok (es ++ [(n, k)]) s.
Proof.
  intros (Hwf & He & Hev) Hlt. split_and!; [done| |intros m j Hj; apply elem_of_app; left; by apply Hev].
  intros e. rewrite He. split; intros (m & j & Hl & Hle); exists m, j.
  - split; [by apply lookup_app_l_Some|done].
  - split; [|done]. apply lookup_app_Some in Hl as [Hl|[Hge Hl]]; [done|].
    apply list_lookup_singleton_Some in Hl as [_ [= -> ->]]. lia.
Qed.

Lemma stamp_ok_event es n c h c' :
  stamp_ok es (c, h) → clock_tick n c = Ret c' → (n, clock_get c' n) ∉ es → stamp_ok (es ++ [(n, clock_get c' n)]) (c', {[length es]} ∪ h).
Proof.
  intros (Hwf & He & Hev) Hc Hnew. cbn [fst snd] in *. destruct (clock_tick_law n c c' Hwf Hc) as [Hwf' Hg].
  pose proof (Hg n) as Hgn. rewrite decide_True in Hgn by done.
  assert (∀ m, clock_get c m <= clock_get c' m) as Hmono by (intros m; rewrite Hg; case_decide; subst; lia).
  split_and!; [done|intros e|intros m k Hk]; cbn [fst snd] in *.
  - rewrite elem_of_union, elem_of_singleton, He. split.
    + intros [->|(m & k & Hl & Hle)]; [exists n, (clock_get c' n); split; [by apply list_lookup_middle|lia]|].
      exists m, k. split; [by apply lookup_app_l_Some|]. specialize (Hmono m). lia.
    + intros (m & k & Hl & Hle). apply lookup_app_Some in Hl as [Hl|[Hge Hl]].
      * destruct (decide (k <= clock_get c m)); [right; eauto|]. rewrite Hg in Hle. case_decide as Hm; [|lia]. subst m.
        destruct Hnew. replace (clock_get c' n) with k by lia. by eapply list_elem_of_lookup_2.
      * apply list_lookup_singleton_Some in Hl as [Hl _]. left. lia.
  - apply elem_of_app. rewrite Hg in Hk. case_decide as Hm; [subst m|left; by apply Hev].
    destruct (decide (k = clock_get c n + 1)) as [->|]; [right; rewrite Hgn; by apply list_elem_of_singleton|left; apply Hev; lia].
Qed.

Lemma stamp_ok_join es c h c2 h2 : stamp_ok es (c, h) → stamp_ok es (c2, h2) → stamp_ok es (clock_join c c2, h ∪ h2).
Proof.
  intros (Hwf & He & Hev) (Hwf2 & He2 & Hev2). cbn [fst snd] in *. destruct (clock_join_law c c2 Hwf Hwf2) as [Hwf' Hg].
  split_and!; [done|intros e|intros m k Hk]; cbn [fst snd] in *.
  - rewrite elem_of_union, He, He2. split.
    + intros [(m & k & Hl & Hle)|(m & k & Hl & Hle)]; exists m, k; (split; [done|rewrite Hg; lia]).
    + intros (m & k & Hl & Hle). rewrite Hg in Hle. destruct (decide (k <= clock_get c m)); [left|right]; exists m, k; (split; [done|lia]).
  - rewrite Hg in Hk. destruct (decide (k <= clock_get c m)); [apply Hev|apply Hev2]; lia.
Qed.

Lemma world_step_ok w w' : world_ok w → world_step w w' → world_ok w'.
Proof.
  intros Hok Hst. assert (∀ s, s ∈ stamps w → stamp_ok (events w) s) as Hall by (by apply Forall_forall, ok_stamps).
  destruct Hst as [rs ms es i n c h c' Hi Hc|rs ms es i n s Hi|rs ms es i n c h c2 h2 Hi Hm]; cbn [events] in Hall.
  - assert ((c, h) ∈ stamps (mkWorld rs ms es)) as Hs by (apply elem_of_stamps; eauto). pose proof (Hall _ Hs) as Hsok.
    destruct (clock_tick_law n c c' (proj1 Hsok) Hc) as [Hwf' Hg]. pose proof (Hg n) as Hgn. rewrite decide_True in Hgn by done.
    pose proof (clock_get_nonneg c n (proj1 Hsok)).
    assert ((n, clock_get c' n) ∉ es) as Hnew.
    { intros [e He]%list_elem_of_lookup. destruct (ok_owned _ Hok e n _ He) as (_ & j & s & Hj & Hle).
      assert (i = j) as <- by by eapply same_replica. cbn [replicas] in Hj. simplify_eq. cbn [fst] in Hle. lia. }
    eapply (world_ok_update rs ms es i n (c, h)); cbn [fst]; try done.
    + intros m. rewrite Hg. case_decide; subst; lia.
    + apply NoDup_app. split_and!; [apply Hok| |apply NoDup_singleton]. intros x Hx ->%list_elem_of_singleton. done.
    + intros e m k He. apply lookup_app_Some in He as [He|[_ He]]; [by left|right].
      apply list_lookup_singleton_Some in He as [_ [= <- <-]]. split; [done|lia].
    + by eapply stamp_ok_event.
    + intros s Hs2. apply stamp_ok_snoc; [by apply Hall|]. pose proof (own_count_max _ i n (c, h) s Hok Hi Hs2) as Hle. cbn [fst] in Hle. lia.
  - split; try apply Hok. apply Forall_forall. intros s2 Hs2. apply Hall, elem_of_stamps. apply elem_of_stamps in Hs2 as [Hs2|Hs2]; [by left|].
    cbn [messages] in *. apply elem_of_cons in Hs2 as [->|Hs2]; [left; by exists i, n|by right].
  - assert ((c, h) ∈ stamps (mkWorld rs ms es)) as Hs by (apply elem_of_stamps; eauto).
    assert ((c2, h2) ∈ stamps (mkWorld rs ms es)) as Hs2 by (apply elem_of_stamps; by right).
    destruct (clock_join_law c c2 (proj1 (Hall _ Hs)) (proj1 (Hall _ Hs2))) as [_ Hg].
    eapply (world_ok_update rs ms es i n (c, h)); cbn [fst]; try done.
    + intros m. rewrite Hg. lia.
    + apply Hok.
    + by left.
    + apply stamp_ok_join; by apply Hall.
Qed.

(** In every state that is reached, clocks are ordered as their events. *)
Lemma clocks_track_causality ids w s1 s2 :
  NoDup ids → rtc world_step (world_start ids) w → s1 ∈ stamps w → s2 ∈ stamps w →
  clock_wf s1.1 ∧ clock_wf s2.1 ∧ (clock_le s1.1 s2.1 = true ↔ s1.2 ⊆ s2.2).
Proof.
  intros Hids Hrun H1 H2. assert (world_ok w) as Hok.
  { apply (rtc_preserves _ world_ok _ _ world_step_ok Hrun). destruct clock_empty_law as [Hwf Hg]. split; cbn [world_start replicas events].
    - by rewrite <-list_fmap_compose, list_fmap_id.
    - constructor.
    - by intros e n k He.
    - apply Forall_forall. intros s [(i & n & Hi)|Hs]%elem_of_stamps; [|by apply elem_of_nil in Hs]. cbn [world_start replicas] in Hi.
      rewrite list_lookup_fmap in Hi. destruct (ids !! i) as [m|]; [|done]. injection Hi as -> <-. split_and!; cbn [fst snd]; [done|..].
      + intros e. split; [by intros ?%elem_of_empty|]. by intros (m & k & He & _).
      + intros m k. rewrite Hg. lia. }
  pose proof (ok_stamps w Hok) as Hall. rewrite Forall_forall in Hall.
  destruct (Hall s1 H1) as (Hwf1 & He1 & Hev1), (Hall s2 H2) as (Hwf2 & He2 & Hev2). rewrite clock_le_law by done.
  split; [done|]. split; [done|]. split.
  - intros Hle e. rewrite He1, He2. intros (n & k & Hl & Hk). exists n, k. split; [done|]. specialize (Hle n). lia.
  - intros Hsub n. pose proof (clock_get_nonneg s2.1 n Hwf2). destruct (decide (1 <= clock_get s1.1 n)) as [Hk|]; [|lia].
    destruct (list_elem_of_lookup_1 _ _ (Hev1 n _ (conj Hk (Z.le_refl _)))) as [e He].
    assert (e ∈ s2.2) as Hin by (apply Hsub, He1; eexists _, _; split; [done|lia]).
    apply He2 in Hin as (m & k & Hl & Hle). simplify_eq. done.
Qed.

(** *** Runs that are computed *)

Inductive world_act : Type := WEvent (i : nat) | WSend (i : nat) | WReceive (i m : nat).

Definition world_do (a : world_act) w : option (world N C) :=
  match a with
  | WEvent i =>
    '(n, (c, h)) ← replicas w !! i;
    match clock_tick n c with
    | Ret c' => Some (mkWorld (<[i := (n, (c', {[length (events w)]} ∪ h))]> (replicas w)) (messages w) (events w ++ [(n, clock_get c' n)]))
    | _ => None
    end
  | WSend i => '(n, s) ← replicas w !! i; Some (mkWorld (replicas w) (s :: messages w) (events w))
  | WReceive i m =>
    '(n, (c, h)) ← replicas w !! i; '(c2, h2) ← messages w !! m;
    Some (mkWorld (<[i := (n, (clock_join c c2, h ∪ h2))]> (replicas w)) (messages w) (events w))
  end.

Fixpoint world_do_all (acts : list world_act) w : option (world N C) :=
  match acts with [] => Some w | a :: acts' => w' ← world_do a w; world_do_all acts' w' end.

Lemma world_do_run acts : ∀ w w', world_do_all acts w = Some w' → rtc world_step w w'.
Proof.
  induction acts as [|a acts IH]; intros [rs ms es] w' E; [injection E as <-; by apply rtc_refl|]. cbn [world_do_all] in E.
  destruct (world_do a _) as [w1|] eqn:E1; [|done]. cbn [mbind option_bind] in E. eapply rtc_l; [|by apply IH].
  destruct a as [i|i|i m]; cbn [world_do replicas messages events] in E1; destruct (rs !! i) as [[n [c h]]|] eqn:Ei; try done; cbn [mbind option_bind] in E1.
  - destruct (clock_tick n c) as [c'| |] eqn:Ec; [|done|done]. injection E1 as <-. by econstructor.
  - injection E1 as <-. by econstructor.
  - destruct (ms !! m) as [[c2 h2]|] eqn:Em; [|done]. injection E1 as <-. econstructor; [done|]. by eapply list_elem_of_lookup_2.
Qed.
End causality.
