(* ===== verification/Version.v ===== *)
(** * Version vectors (mielin-mesh/core/src/version.rs)

    Version vectors, values and maps with versions and the resolution of conflicts,
    and dot contexts.  A node is identified by a UUID, of which the code only uses
    equality and hashing: its type is the parameter [N].  The order in which a hash
    table is listed is the parameter [HashOrder]. *)

From stdpp Require Import base tactics option list numbers gmap.
From S2P Require Import Prelude Hash.

(** A version number has 64 bits. *)
Notation Version := Z (only parsing).

(** ** Version vectors *)

(* src: mielin-mesh/core/src/version.rs 45-47 VersionVector *)
Record VersionVector (N : Type) `{Countable N} : Type := mkVV {
  versions : gmap N Version;
}.
Arguments mkVV {N _ _}.
Arguments versions {N _ _}.

#[export] Instance VersionVector_eq_dec {N : Type} `{Countable N} : EqDecision (VersionVector N).
Proof. refine (λ x y, cast_if (decide (versions x = versions y))); destruct x, y; simpl in *; congruence. Defined.

(* src: mielin-mesh/core/src/version.rs 168-177 Ordering *)
Inductive Ordering : Type := Before | After | Equal | Concurrent.

Module VersionVector.
Section vectors.
Context {N : Type} `{Countable N} `{HashOrder}.
Implicit Types (self other : VersionVector N) (node_id : N).

(* src: mielin-mesh/core/src/version.rs 51-55 VersionVector::new *)
Definition new : VersionVector N := mkVV ∅.

(* src: mielin-mesh/core/src/version.rs 65-67 VersionVector::get *)
Definition get self node_id : Version := default 0 (versions self !! node_id).

(* src: mielin-mesh/core/src/version.rs 70-76 VersionVector::set *)
Definition set self node_id (version : Version) : VersionVector N :=
  mkVV (if 0 <? version then <[node_id := version]> (versions self) else delete node_id (versions self)).

(* src: mielin-mesh/core/src/version.rs 79-83 VersionVector::increment *)
Definition increment self node_id : outcome (Version * VersionVector N) :=
  let! new_version := usize_add (get self node_id) 1 in
  Ret (new_version, mkVV (<[node_id := new_version]> (versions self))).

(* src: mielin-mesh/core/src/version.rs 89-97 VersionVector::dominates *)
Definition dominates self other : bool :=
  forallb (λ '(node_id, other_version), negb (get self node_id <? other_version)) (hash_list (versions other)).

(* src: mielin-mesh/core/src/version.rs 102-104 VersionVector::strictly_dominates *)
Definition strictly_dominates self other : bool := dominates self other && negb (bool_decide (self = other)).

(* src: mielin-mesh/core/src/version.rs 109-111 VersionVector::concurrent_with *)
Definition concurrent_with self other : bool := negb (dominates self other) && negb (dominates other self).

(* src: mielin-mesh/core/src/version.rs 114-121 VersionVector::merge *)
Definition merge self other : VersionVector N :=
  foldl (λ self '(node_id, other_version),
    let my_version := get self node_id in
    if my_version <? other_version then mkVV (<[node_id := other_version]> (versions self)) else self)
    self (hash_list (versions other)).

(* src: mielin-mesh/core/src/version.rs 124-128 VersionVector::merged_with *)
Definition merged_with self other : VersionVector N := merge self other.

(* src: mielin-mesh/core/src/version.rs 136-138 VersionVector::len *)
Definition len self : Z := Z.of_nat (size (versions self)).

(* src: mielin-mesh/core/src/version.rs 148-150 VersionVector::total_version *)
Definition total_version self : outcome Z :=
  foldl (λ acc '(_, v), let! s := acc in usize_add s v) (Ret 0) (hash_list (versions self)).

(* src: mielin-mesh/core/src/version.rs 153-163 VersionVector::compare *)
Definition compare self other : Ordering :=
  if bool_decide (self = other) then Equal
  else if strictly_dominates self other then After
  else if strictly_dominates other self then Before
  else Concurrent.

End vectors.
End VersionVector.

(** ** Values *)

(* src: mielin-mesh/core/src/version.rs 181-190 VersionedValue *)
Record VersionedValue (N : Type) `{Countable N} (T : Type) : Type := mkValue {
  value : T;
  version : VersionVector N;
  timestamp : Z;
  last_modified_by : N;
}.
Arguments mkValue {N _ _ T}.
Arguments value {N _ _ T}.
Arguments version {N _ _ T}.
Arguments timestamp {N _ _ T}.
Arguments last_modified_by {N _ _ T}.

(* src: mielin-mesh/core/src/version.rs 255-267 ConflictResolution *)
Inductive ConflictResolution : Type := LastWriterWins | FirstWriterWins | KeepBoth | PreferLocal | PreferRemote.

(* src: mielin-mesh/core/src/version.rs 270-272 ConflictResolver *)
Record ConflictResolver : Type := mkResolver { strategy : ConflictResolution }.

Module VersionedValue.
Section values.
Context {N : Type} `{Countable N} `{HashOrder} {T : Type}.
Implicit Types (self other : VersionedValue N T) (node_id : N).

(* src: mielin-mesh/core/src/version.rs 194-203 VersionedValue::new *)
Definition new (value : T) node_id (timestamp : Z) : outcome (VersionedValue N T) :=
  let! (_, version) := VersionVector.increment VersionVector.new node_id in
  Ret (mkValue value version timestamp node_id).

(* src: mielin-mesh/core/src/version.rs 206-211 VersionedValue::update *)
Definition update self (new_value : T) node_id (timestamp : Z) : outcome (VersionedValue N T) :=
  let! (_, version) := VersionVector.increment (version self) node_id in
  Ret (mkValue new_value version timestamp node_id).

(* src: mielin-mesh/core/src/version.rs 214-216 VersionedValue::conflicts_with *)
Definition conflicts_with self other : bool := VersionVector.concurrent_with (version self) (version other).

(* src: mielin-mesh/core/src/version.rs 219-221 VersionedValue::compare *)
Definition compare self other : Ordering := VersionVector.compare (version self) (version other).

(* src: mielin-mesh/core/src/version.rs 226-250 VersionedValue::merge_with *)
Definition merge_with self other (resolver : T → T → T) : VersionedValue N T :=
  let merged := VersionVector.merge (version self) (version other) in
  match compare self other with
  | Before => mkValue (value other) merged (timestamp other) (last_modified_by other)
  | After | Equal => mkValue (value self) merged (timestamp self) (last_modified_by self)
  | Concurrent =>
    mkValue (resolver (value self) (value other)) merged (Z.max (timestamp self) (timestamp other)) (last_modified_by self)
  end.

End values.
End VersionedValue.

Module ConflictResolver.
Section resolver.
Context {N : Type} `{Countable N} {T : Type}.

(* src: mielin-mesh/core/src/version.rs 281-300 ConflictResolver::resolve *)
Definition resolve (self : ConflictResolver) (local remote : VersionedValue N T) : T :=
  match strategy self with
  | LastWriterWins => if timestamp remote <=? timestamp local then value local else value remote
  | FirstWriterWins => if timestamp local <=? timestamp remote then value local else value remote
  | PreferLocal | KeepBoth => value local
  | PreferRemote => value remote
  end.

End resolver.

(* src: mielin-mesh/core/src/version.rs 304-306 ConflictResolver::default *)
Definition default : ConflictResolver := mkResolver LastWriterWins.

End ConflictResolver.

(** ** Maps *)

(* src: mielin-mesh/core/src/version.rs 311-318 VersionedMap *)
Record VersionedMap (N : Type) `{Countable N} (K : Type) `{Countable K} (V : Type) : Type := mkMap {
  data : gmap K (VersionedValue N V);
  node_id : N;
}.
Arguments mkMap {N _ _ K _ _ V}.
Arguments data {N _ _ K _ _ V}.
Arguments node_id {N _ _ K _ _ V}.

Module VersionedMap.
Section maps.
Context {N : Type} `{Countable N} {K : Type} `{Countable K} `{HashOrder} {V : Type}.
Implicit Types (self other : VersionedMap N K V).

(* src: mielin-mesh/core/src/version.rs 325-330 VersionedMap::new *)
Definition new (node_id : N) : VersionedMap N K V := mkMap ∅ node_id.

(* src: mielin-mesh/core/src/version.rs 333-335 VersionedMap::get *)
Definition get self (key : K) : option (VersionedValue N V) := data self !! key.

(* src: mielin-mesh/core/src/version.rs 338-340 VersionedMap::contains_key *)
Definition contains_key self (key : K) : bool := bool_decide (is_Some (data self !! key)).

(* src: mielin-mesh/core/src/version.rs 369-376 VersionedMap::insert *)
Definition insert self (key : K) (value : V) (timestamp : Z) : outcome (VersionedMap N K V) :=
  match data self !! key with
  | Some entry =>
    let! entry := VersionedValue.update entry value (node_id self) timestamp in
    Ret (mkMap (<[key := entry]> (data self)) (node_id self))
  | None =>
    let! entry := VersionedValue.new value (node_id self) timestamp in
    Ret (mkMap (<[key := entry]> (data self)) (node_id self))
  end.

(* src: mielin-mesh/core/src/version.rs 379-381 VersionedMap::remove *)
Definition remove self (key : K) : option V * VersionedMap N K V :=
  (value <$> data self !! key, mkMap (delete key (data self)) (node_id self)).

(** What [merge] makes of two values of a key. *)
(* src: mielin-mesh/core/src/version.rs 388-408 VersionedMap::merge (one key) *)
Definition merge_value (resolver : ConflictResolver) (my_value other_value : VersionedValue N V) : VersionedValue N V :=
  VersionedValue.merge_with my_value other_value (λ local remote,
    ConflictResolver.resolve resolver
      (mkValue local VersionVector.new (timestamp my_value) (last_modified_by my_value))
      (mkValue remote VersionVector.new (timestamp other_value) (last_modified_by other_value))).

(* src: mielin-mesh/core/src/version.rs 384-414 VersionedMap::merge *)
Definition merge self other (resolver : ConflictResolver) : VersionedMap N K V :=
  mkMap (foldl (λ data '(key, other_value),
           match data !! key with
           | Some my_value => <[key := merge_value resolver my_value other_value]> data
           | None => <[key := other_value]> data
           end) (data self) (hash_list (data other))) (node_id self).

(* src: mielin-mesh/core/src/version.rs 417-427 VersionedMap::find_conflicts *)
Definition find_conflicts self other : list K :=
  omap (λ '(key, my_value),
    match data other !! key with
    | Some other_value => if VersionedValue.conflicts_with my_value other_value then Some key else None
    | None => None
    end) (hash_list (data self)).

End maps.
End VersionedMap.

(** ** Dot contexts *)

(* src: mielin-mesh/core/src/version.rs 434-439 Dot *)
Record Dot (N : Type) : Type := mkDot { node : N; counter : Z }.
Arguments mkDot {N}.
Arguments node {N}.
Arguments counter {N}.

#[export] Instance Dot_eq_dec {N : Type} `{EqDecision N} : EqDecision (Dot N).
Proof. solve_decision. Defined.
#[export] Instance Dot_countable {N : Type} `{Countable N} : Countable (Dot N).
Proof. by refine (inj_countable' (λ d, (node d, counter d)) (λ '(n, c), mkDot n c) _); intros []. Defined.

(* src: mielin-mesh/core/src/version.rs 450-455 DotContext *)
Record DotContext (N : Type) `{Countable N} : Type := mkContext {
  compact : gmap N Z;
  dots : gset (Dot N);
}.
Arguments mkContext {N _ _}.
Arguments compact {N _ _}.
Arguments dots {N _ _}.

Module DotContext.
Section dots.
Context {N : Type} `{Countable N} `{HashOrder}.
Implicit Types (self other : DotContext N).

(* src: mielin-mesh/core/src/version.rs 459-461 DotContext::new *)
Definition new : DotContext N := mkContext ∅ ∅.

(** [entry(node).or_insert(0)]. *)
Definition compact_of self (n : N) : Z := default 0 (compact self !! n).

(* src: mielin-mesh/core/src/version.rs 464-468 DotContext::next_dot *)
Definition next_dot self (n : N) : outcome (Dot N * DotContext N) :=
  let! c := usize_add (compact_of self n) 1 in
  Ret (mkDot n c, mkContext (<[n := c]> (compact self)) (dots self)).

(* src: mielin-mesh/core/src/version.rs 471-478 DotContext::contains *)
Definition contains self (dot : Dot N) : bool :=
  match compact self !! node dot with
  | Some max => (counter dot <=? max) || bool_decide (dot ∈ dots self)
  | None => bool_decide (dot ∈ dots self)
  end.

(** Each round takes a dot out of the set, so that one round more than its size is
    enough. *)
(* src: mielin-mesh/core/src/version.rs 500-512 DotContext::collapse *)
Fixpoint collapse_loop (fuel : nat) (n : N) (compact_val : Z) (ds : gset (Dot N)) : outcome (Z * gset (Dot N)) :=
  match fuel with
  | O => Timeout
  | S fuel' =>
    let! next := usize_add compact_val 1 in
    if decide (mkDot n next ∈ ds) then collapse_loop fuel' n next (ds ∖ {[mkDot n next]}) else Ret (compact_val, ds)
  end.

(* src: mielin-mesh/core/src/version.rs 500-512 DotContext::collapse *)
Definition collapse self (n : N) : outcome (DotContext N) :=
  match compact self !! n with
  | Some compact_val =>
    let! (c, ds) := collapse_loop (S (size (dots self))) n compact_val (dots self) in
    Ret (mkContext (<[n := c]> (compact self)) ds)
  | None => Ret self
  end.

(* src: mielin-mesh/core/src/version.rs 481-497 DotContext::add *)
Definition add self (dot : Dot N) : outcome (DotContext N) :=
  if contains self dot then Ret self else
  let compact_val := compact_of self (node dot) in
  let! next := usize_add compact_val 1 in
  if counter dot =? next then collapse (mkContext (<[node dot := counter dot]> (compact self)) (dots self)) (node dot)
  else Ret (mkContext (<[node dot := compact_val]> (compact self)) ({[dot]} ∪ dots self)).

(* src: mielin-mesh/core/src/version.rs 515-526 DotContext::merge *)
Definition merge self other : outcome (DotContext N) :=
  let c := foldl (λ c '(n, other_val), <[n := Z.max (default 0 (c !! n)) other_val]> c) (compact self) (hash_list (compact other)) in
  foldl (λ acc dot, let! ctx := acc in add ctx dot) (Ret (mkContext c (dots self))) (hash_elems (dots other)).

End dots.
End DotContext.
