(* ===== verification/VersionProps.v ===== *)
(** * Theorems on version vectors *)

From stdpp Require Import base tactics option list numbers gmap relations.
From S2P Require Import Prelude Hash Causal Version.

(** ** Vectors *)

Section vectors.
Context `{HashOrderLaws} {N : Type} `{Countable N}.
Implicit Types (a b c : VersionVector N) (n : N).
Import VersionVector.

(** A node that is listed has made a change; [set], [increment] and [merge] keep it
    so. *)
Definition vv_ok a : Prop := positive (versions a).

Lemma get_nonneg a n : vv_ok a → 0 <= get a n.
Proof. apply count_nonneg. Qed.

Lemma vv_eq a b : vv_ok a → vv_ok b → (∀ n, get a n = get b n) → a = b.
Proof. destruct a, b. intros Ha Hb Hg. f_equal. by apply positive_eq. Qed.

Lemma new_ok : vv_ok new.
Proof. apply map_Forall_empty. Qed.

Lemma increment_spec a n v b :
  vv_ok a → increment a n = Ret (v, b) → vv_ok b ∧ v = get a n + 1 ∧ ∀ m, get b m = if decide (m = n) then get a n + 1 else get a m.
Proof.
  unfold increment. intros Ha E. destruct (usize_add (get a n) 1) as [x| |] eqn:Ex; [|done|done]. apply checked_ret in Ex as [-> Hr].
  injection E as <- <-. pose proof (get_nonneg a n Ha). split_and!; [by apply map_Forall_insert_2; [lia|]|done|].
  intros m. apply count_insert.
Qed.

Lemma dominates_spec a b : vv_ok a → vv_ok b → dominates a b = true ↔ ∀ n, get b n <= get a n.
Proof.
  intros Ha Hb. rewrite <-(count_le_listed (versions b) (get a)) by (intros; by apply get_nonneg). unfold dominates. rewrite forallb_forall.
  split; intros Hall [n v] Hin; specialize (Hall _ Hin); simpl in *; lia.
Qed.

(** The loop of [merge] alters the entries of the other vector. *)
Lemma merge_lookup a b n :
  versions (merge a b) !! n =
  match versions b !! n with
  | Some v => if default 0 (versions a !! n) <? v then Some v else versions a !! n
  | None => versions a !! n
  end.
Proof.
  unfold merge. pose proof (hash_loop_lookup (λ _ v o, if default 0 o <? v then Some v else o) (versions b) (versions a) n) as E.
  rewrite <-E. clear E. generalize (hash_list (versions b)) as l. intros l. revert a. induction l as [|[k v] l IH]; intros a; [done|].
  cbn [foldl]. rewrite IH. f_equal. unfold get. cbn [versions]. f_equal. apply map_eq. intros m.
  destruct (decide (k = m)) as [->|Hm].
  - rewrite lookup_partial_alter_eq. destruct (_ <? v); [by cbn [versions]; rewrite lookup_insert_eq|done].
  - rewrite lookup_partial_alter_ne by done. destruct (_ <? v); [by cbn [versions]; rewrite lookup_insert_ne|done].
Qed.

Lemma merge_get a b n : vv_ok a → vv_ok b → get (merge a b) n = Z.max (get a n) (get b n).
Proof.
  intros Ha Hb. pose proof (get_nonneg a n Ha). unfold get in *. rewrite merge_lookup. destruct (versions b !! n) as [v|]; simpl in *; [|lia].
  destruct (Z.ltb_spec (default 0 (versions a !! n)) v); simpl; lia.
Qed.

Lemma merge_ok a b : vv_ok a → vv_ok b → vv_ok (merge a b).
Proof.
  intros Ha Hb n v. rewrite merge_lookup. destruct (versions b !! n) as [x|] eqn:E; [|apply Ha].
  destruct (_ <? x); [|apply Ha]. intros [= <-]. by apply (Hb n).
Qed.

#[export] Instance vv_clock : CausalClock N (VersionVector N) := {|
  clock_empty := new;
  clock_tick := λ n c, let! (_, c') := increment c n in Ret c';
  clock_join := merge;
  clock_le := λ c d, dominates d c;
|}.

#[export, refine] Instance vv_clock_laws : CausalClockLaws N (VersionVector N) := {| clock_get := get; clock_wf := vv_ok |}.
Proof.
  - intros. by apply get_nonneg.
  - split; [apply new_ok|done].
  - intros n c c' Hc E. simpl in E. destruct (increment c n) as [[v d]| |] eqn:Ei; [|done|done]. injection E as <-.
    destruct (increment_spec c n v d Hc Ei) as (? & _ & ?). done.
  - intros c d Hc Hd. split; [by apply merge_ok|]. intros n. by apply merge_get.
  - intros c d Hc Hd. by apply dominates_spec.
Defined.

Lemma dominates_antisymm a b : vv_ok a → vv_ok b → dominates a b = true → dominates b a = true → a = b.
Proof.
  intros Ha Hb Hab Hba. apply vv_eq; [done|done|]. intros n. rewrite dominates_spec in Hab, Hba by done. specialize (Hab n). specialize (Hba n). lia.
Qed.

(** [compare] in terms of [dominates]. *)
Lemma compare_spec a b :
  vv_ok a → vv_ok b →
  compare a b = match dominates a b, dominates b a with true, true => Equal | true, false => After | false, true => Before | false, false => Concurrent end.
Proof.
  intros Ha Hb. unfold compare, strictly_dominates. case_bool_decide as Heq.
  - subst b. assert (dominates a a = true) as -> by (apply dominates_spec; [done|done|lia]). done.
  - rewrite (bool_decide_eq_false_2 (b = a)) by congruence. rewrite !andb_true_r.
    destruct (dominates a b) eqn:E1, (dominates b a) eqn:E2; try done. destruct Heq. by apply dominates_antisymm.
Qed.

(** C4. Version vectors track causality.  Replicas with distinct identifiers change
    their value, send it, and merge what they receive, in any order, with messages
    lost, repeated and out of order: for any two of the vectors that are about,
    [compare] tells exactly how the sets of the changes they have seen are related. *)
Theorem version_vectors_track_causality ids w s1 s2 :
  NoDup ids → rtc world_step (world_start (C := VersionVector N) ids) w → s1 ∈ stamps w → s2 ∈ stamps w →
  compare s1.1 s2.1 =
    (if decide (s1.2 ⊆ s2.2) then (if decide (s2.2 ⊆ s1.2) then Equal else Before)
     else (if decide (s2.2 ⊆ s1.2) then After else Concurrent)).
Proof.
  intros Hids Hrun Hs1 Hs2. destruct (clocks_track_causality ids w s1 s2 Hids Hrun Hs1 Hs2) as (Hw1 & Hw2 & H12).
  destruct (clocks_track_causality ids w s2 s1 Hids Hrun Hs2 Hs1) as (_ & _ & H21). cbn [clock_le vv_clock clock_wf vv_clock_laws] in *.
  rewrite compare_spec by done. do 2 case_decide;
    (destruct (dominates s1.1 s2.1) eqn:E1, (dominates s2.1 s1.1) eqn:E2; try done; naive_solver).
Qed.

Lemma merge_comm a b : vv_ok a → vv_ok b → merge a b = merge b a.
Proof. intros Ha Hb. apply vv_eq; [by apply merge_ok..|]. intros n. rewrite !merge_get by done. lia. Qed.

Lemma merge_upper a b : vv_ok a → vv_ok b → dominates (merge a b) a = true.
Proof. intros Ha Hb. apply dominates_spec; [by apply merge_ok|done|]. intros n. rewrite merge_get by done. lia. Qed.

(** [merge] is the least upper bound of two vectors, so that it does not matter
    in which order, how often and in which groups vectors are merged. *)
Theorem version_merge_lub a b c :
  vv_ok a → vv_ok b → vv_ok c →
  vv_ok (merge a b) ∧ dominates (merge a b) a = true ∧ dominates (merge a b) b = true ∧
  (dominates c a = true → dominates c b = true → dominates c (merge a b) = true) ∧
  merge a b = merge b a ∧ merge a (merge b c) = merge (merge a b) c ∧ merge a a = a.
Proof.
  intros Ha Hb Hc. pose proof (merge_ok a b Ha Hb) as Hab. pose proof (merge_ok b c Hb Hc) as Hbc.
  split_and!; [done|by apply merge_upper|rewrite merge_comm by done; by apply merge_upper| |by apply merge_comm|..].
  - rewrite !dominates_spec by done. intros Hx Hy n. rewrite merge_get by done. specialize (Hx n). specialize (Hy n). lia.
  - apply vv_eq; [by apply merge_ok..|]. intros n. rewrite !merge_get by done. lia.
  - apply vv_eq; [by apply merge_ok|done|]. intros n. rewrite merge_get by done. lia.
Qed.
End vectors.

(** ** A run of two replicas *)

#[local] Existing Instance sorted_order.
#[local] Existing Instance sorted_order_laws.

(** Replica 1 changes its value and sends it; replica 2 changes its own value
    before the message arrives, and again after it. *)
Definition two_replicas : option (world Z (VersionVector Z)) :=
  world_do_all [WEvent 0; WSend 0; WEvent 1; WReceive 1 0; WEvent 1; WEvent 0] (world_start [1; 2]).

Lemma version_vectors_track_causality_witness :
  match two_replicas with
  | Some w => ∀ s1 s2 m, stamps w = [s1; s2; m] →
      VersionVector.compare m.1 s2.1 = Before ∧ VersionVector.compare s1.1 s2.1 = Concurrent ∧ VersionVector.compare s1.1 m.1 = After
  | None => False
  end.
Proof.
  assert (match two_replicas with Some w => snd <$> stamps w = [{[0%nat; 3%nat]}; {[0%nat; 1%nat; 2%nat]}; {[0%nat]}] | None => False end) as Hc
    by (vm_compute; reflexivity).
  destruct two_replicas as [w|] eqn:E; [|done]. apply world_do_run in E. intros s1 s2 m Es. rewrite Es in Hc. injection Hc as H1 H2 Hm.
  assert (∀ s, s ∈ [s1; s2; m] → s ∈ stamps w) as Hin by by rewrite Es.
  assert (NoDup [1; 2]) as Hids by (repeat constructor; set_solver).
  rewrite (version_vectors_track_causality [1; 2] w m s2 Hids E), (version_vectors_track_causality [1; 2] w s1 s2 Hids E),
    (version_vectors_track_causality [1; 2] w s1 m Hids E) by (apply Hin; set_solver).
  rewrite H1, H2, Hm. repeat split; vm_compute; reflexivity.
Defined.

Lemma version_merge_lub_witness :
  VersionVector.merge (mkVV {[1 := 2]} : VersionVector Z) (mkVV {[2 := 5]}) = VersionVector.merge (mkVV {[2 := 5]}) (mkVV {[1 := 2]}).
Proof.
  apply (version_merge_lub (mkVV {[1 := 2]}) (mkVV {[2 := 5]}) (mkVV ∅));
    [apply map_Forall_singleton; lia|apply map_Forall_singleton; lia|apply map_Forall_empty].
Defined.

(** ** Maps *)

Section maps.
Context `{HashOrderLaws} {N : Type} `{Countable N} {K : Type} `{Countable K} {V : Type}.
Implicit Types (x y : VersionedValue N V) (A B : VersionedMap N K V) (r : ConflictResolver).
Import VersionedMap.

(** Two replicas agree on a value: all but who is said to have written it. *)
Definition same_value x y : Prop := value x = value y ∧ version x = version y ∧ timestamp x = timestamp y.

Lemma merge_lookup_map A B r k :
  data (merge A B r) !! k =
  match data B !! k with
  | Some y => Some match data A !! k with Some x => merge_value r x y | None => y end
  | None => data A !! k
  end.
Proof.
  unfold merge. cbn [data]. pose proof (hash_loop_lookup (λ _ y o, Some match o with Some x => merge_value r x y | None => y end) (data B) (data A) k) as E.
  rewrite <-E. clear E. generalize (hash_list (data B)) as l, (data A) as d. intros l. induction l as [|[k' y] l IH]; intros d; [done|].
  cbn [foldl]. rewrite IH. f_equal. f_equal. apply map_eq. intros m. destruct (decide (k' = m)) as [->|Hm].
  - rewrite (lookup_partial_alter_eq (M := gmap K)). destruct (d !! m); by rewrite lookup_insert_eq.
  - rewrite (lookup_partial_alter_ne (M := gmap K)) by done. destruct (d !! k'); by rewrite lookup_insert_ne.
Qed.

(** Values that merging can bring together: equal versions have equal values, and
    of concurrent values one has the later time, or they are equal. *)
Definition mergeable x y : Prop :=
  vv_ok (version x) ∧ vv_ok (version y) ∧ (version x = version y → same_value x y) ∧
  (timestamp x = timestamp y → value x = value y).

Lemma merge_value_comm r x y :
  strategy r = LastWriterWins ∨ strategy r = FirstWriterWins → mergeable x y →
  same_value (merge_value r x y) (merge_value r y x) ∧
  VersionVector.dominates (version (merge_value r x y)) (version x) = true ∧
  VersionVector.dominates (version (merge_value r x y)) (version y) = true.
Proof.
  intros Hr (Hx & Hy & Heq & Hts). unfold merge_value, VersionedValue.merge_with, VersionedValue.compare.
  pose proof (merge_comm (version x) (version y) Hx Hy) as Hcomm. pose proof (merge_upper (version x) (version y) Hx Hy) as Hd1.
  pose proof (merge_upper (version y) (version x) Hy Hx) as Hd2. rewrite <-Hcomm in Hd2.
  rewrite !compare_spec by done.
  destruct (VersionVector.dominates (version x) (version y)) eqn:E1, (VersionVector.dominates (version y) (version x)) eqn:E2.
  - destruct (Heq (dominates_antisymm _ _ Hx Hy E1 E2)) as (Ev & _ & Et). by rewrite Hcomm in *.
  - cbn [version value timestamp]. by rewrite Hcomm in *.
  - cbn [version value timestamp]. by rewrite Hcomm in *.
  - cbn [version value timestamp ConflictResolver.resolve]. split; [|done]. unfold ConflictResolver.resolve. split_and!; cbn [value timestamp version]; [|done|lia].
    destruct Hr as [-> | ->]; destruct (Z.leb_spec (timestamp x) (timestamp y)), (Z.leb_spec (timestamp y) (timestamp x)); try done; try lia;
      rewrite Hts by lia; done.
Qed.

(** Two replicas that merge each other's maps, each from the state before, end
    with the same value, version and time for every key, and a version that covers
    both: when conflicts are resolved by time and no two different concurrent values
    have the same time. *)
Theorem versioned_maps_converge A B r :
  strategy r = LastWriterWins ∨ strategy r = FirstWriterWins →
  (∀ k x y, data A !! k = Some x → data B !! k = Some y → mergeable x y) →
  ∀ k, match data (merge A B r) !! k, data (merge B A r) !! k with
  | Some x, Some y => same_value x y ∧
      (∀ z, (data A !! k = Some z ∨ data B !! k = Some z) → vv_ok (version z) → VersionVector.dominates (version x) (version z) = true)
  | None, None => data A !! k = None ∧ data B !! k = None
  | _, _ => False
  end.
Proof.
  intros Hr Hm k. rewrite !merge_lookup_map.
  assert (∀ a : VersionVector N, vv_ok a → VersionVector.dominates a a = true) as Hrefl by (intros a Ha; by apply dominates_spec).
  destruct (data A !! k) as [x|] eqn:EA, (data B !! k) as [y|] eqn:EB.
  - destruct (merge_value_comm r x y Hr (Hm k x y EA EB)) as (Hs & Hd1 & Hd2). split; [done|]. intros z [[= <-]|[= <-]]; done.
  - split; [done|]. intros z [[= <-]|Hz] Hok; [by apply Hrefl|done].
  - split; [done|]. intros z [Hz|[= <-]] Hok; [done|by apply Hrefl].
  - done.
Qed.
End maps.

(** *** Two replicas of a map *)

Definition insert_all (n : Z) (kvs : list (Z * Z * Z)) : outcome (VersionedMap Z Z Z) :=
  foldl (λ acc '(k, v, t), let! m := acc in VersionedMap.insert m k v t) (Ret (VersionedMap.new n)) kvs.

Definition entry (n v t : Z) : VersionedValue Z Z := mkValue v (mkVV {[n := 1]}) t n.

Definition map_a : VersionedMap Z Z Z := mkMap {[7 := entry 1 10 100]} 1.
Definition map_b : VersionedMap Z Z Z := mkMap {[7 := entry 2 20 200; 8 := entry 2 30 210]} 2.

Lemma versioned_maps_converge_witness :
  insert_all 1 [(7, 10, 100)] = Ret map_a ∧ insert_all 2 [(7, 20, 200); (8, 30, 210)] = Ret map_b ∧
  match data (VersionedMap.merge map_a map_b ConflictResolver.default) !! 7, data (VersionedMap.merge map_b map_a ConflictResolver.default) !! 7 with
  | Some x, Some y => same_value x y ∧ value x = 20
  | _, _ => False
  end.
Proof.
  split; [vm_compute; reflexivity|]. split; [vm_compute; reflexivity|].
  assert (match data (VersionedMap.merge map_a map_b ConflictResolver.default) !! 7 with Some x => value x = 20 | None => False end) as Hv by (vm_compute; reflexivity).
  pose proof (versioned_maps_converge map_a map_b ConflictResolver.default) as Hc.
  specialize (Hc ltac:(left; reflexivity)). assert (∀ k x y, data map_a !! k = Some x → data map_b !! k = Some y → mergeable x y) as Hm.
  { intros k x y Hx Hy. unfold map_a, map_b in *. cbn [data] in *. apply lookup_singleton_Some in Hx as [<- <-]. rewrite lookup_insert_eq in Hy. injection Hy as <-.
    split; [|split; [|split]]; [apply map_Forall_singleton; lia|apply map_Forall_singleton; lia|done|done]. }
  specialize (Hc Hm 7).
  destruct (data (VersionedMap.merge map_a map_b _) !! 7), (data (VersionedMap.merge map_b map_a _) !! 7); try done. by destruct Hc.
Defined.

(** ** Where replicas do not agree *)

(** Concurrent values of the same time: each replica keeps its own, and they stay
    apart when they merge again, since the versions are equal. *)
Lemma equal_times_diverge :
  let a := entry 1 10 100 in let b := entry 2 20 100 in
  let r := ConflictResolver.default in
  let a' := VersionedMap.merge_value r a b in let b' := VersionedMap.merge_value r b a in
  value a' = 10 ∧ value b' = 20 ∧ version a' = version b' ∧
  VersionedMap.merge_value r a' b' = a' ∧ VersionedMap.merge_value r b' a' = b'.
Proof. vm_compute. done. Qed.

(** The first writer's value gets the time of the later one, and loses against a
    third value that is older than that. *)
Lemma first_writer_loses :
  let r := mkResolver FirstWriterWins in
  value (VersionedMap.merge_value r (VersionedMap.merge_value r (entry 1 10 100) (entry 2 20 300)) (entry 3 30 200)) = 30.
Proof. vm_compute. reflexivity. Qed.

(** A key that is removed comes back with the next merge. *)
Lemma removed_key_returns :
  data (VersionedMap.merge (snd (VersionedMap.remove map_a 7)) map_a ConflictResolver.default) !! 7 = Some (entry 1 10 100).
Proof. vm_compute. reflexivity. Qed.

(** A key that is removed and written again starts from version one: the new value
    is taken for an old one by a replica that saw two versions, and is lost. *)
Lemma rewrite_after_remove_lost :
  match insert_all 1 [(7, 10, 100); (7, 11, 110)] with
  | Ret m =>
    match VersionedMap.insert (snd (VersionedMap.remove m 7)) 7 12 120 with
    | Ret m' => value <$> data m' !! 7 = Some 12 ∧ value <$> data (VersionedMap.merge m' m ConflictResolver.default) !! 7 = Some 11
    | _ => False
    end
  | _ => False
  end.
Proof. vm_compute. done. Qed.

(** The strategy to keep both values keeps the local one. *)
Lemma keep_both_drops_remote {T} (x y : VersionedValue Z T) : ConflictResolver.resolve (mkResolver KeepBoth) x y = value x.
Proof. done. Qed.

(** ** Dot contexts *)

Section dots.
Context `{HashOrderLaws} {N : Type} `{Countable N}.
Implicit Types (ctx : DotContext N) (X Y : gset (Dot N)) (d : Dot N) (n : N).
Import DotContext.

(** A dot of an operation; the greatest number is left out, after which nothing can
    be counted. *)
Definition dot_ok d : Prop := 1 <= counter d < U64_MAX.

Record ctx_ok ctx X : Prop := {
  ok_compact n : 0 <= compact_of ctx n < U64_MAX;
  ok_dots d : d ∈ dots ctx → dot_ok d;
  ok_seen d : 1 <= counter d → (counter d <= compact_of ctx (node d) ∨ d ∈ dots ctx) ↔ d ∈ X;
}.

Lemma contains_spec ctx d : 1 <= counter d → contains ctx d = true ↔ counter d <= compact_of ctx (node d) ∨ d ∈ dots ctx.
Proof.
  intros Hd. unfold contains, compact_of. destruct (compact ctx !! node d) as [m|]; simpl.
  - by rewrite orb_true_iff, Z.leb_le, bool_decide_eq_true.
  - rewrite bool_decide_eq_true. split; [by right|]. intros [?|?]; [lia|done].
Qed.

Lemma compact_of_insert c ds n v m : compact_of (mkContext (<[n := v]> c) ds) m = if decide (m = n) then v else default 0 (c !! m).
Proof. apply count_insert. Qed.

Lemma collapse_loop_spec n fuel : ∀ c (ds : gset (Dot N)),
  (size ds < fuel)%nat → 0 <= c < U64_MAX → (∀ d, d ∈ ds → dot_ok d) →
  ∃ c' ds', collapse_loop fuel n c ds = Ret (c', ds') ∧ c <= c' < U64_MAX ∧ ds' ⊆ ds ∧
    ∀ d, ((node d = n ∧ counter d <= c') ∨ d ∈ ds') ↔ ((node d = n ∧ counter d <= c) ∨ d ∈ ds).
Proof.
  induction fuel as [|fuel IH]; intros c ds Hf Hc Hds; [lia|]. cbn [collapse_loop]. rewrite usize_add_ok by lia. cbn [obind].
  destruct (decide (mkDot n (c + 1) ∈ ds)) as [Hin|Hout].
  - destruct (Hds _ Hin) as [_ Hlt]. simpl in Hlt.
    destruct (IH (c + 1) (ds ∖ {[mkDot n (c + 1)]})) as (c' & ds' & E & Hc' & Hsub & Hiff); [|lia|set_solver|].
    { assert (size ({[mkDot n (c + 1)]} : gset (Dot N)) <= size ds)%nat as Hsz by (apply subseteq_size; set_solver).
      rewrite size_difference by set_solver. rewrite size_singleton in *. lia. }
    exists c', ds'. split_and!; [done|lia|lia|set_solver|]. intros d. rewrite Hiff, elem_of_difference, elem_of_singleton. destruct d as [m k]. simpl. split.
    + intros [[-> Hk]|[Hd _]]; [|by right]. destruct (decide (k = c + 1)) as [->|]; [by right|left; split; [done|lia]].
    + intros [[-> Hk]|Hd]; [left; split; [done|lia]|]. destruct (decide (mkDot m k = mkDot n (c + 1))) as [[= -> ->]|Hne]; [left; split; [done|lia]|by right].
  - exists c, ds. split_and!; [done|lia|lia|done|done].
Qed.

(** Counting on: the dot after the compact ones, then those that follow it. *)
Lemma collapse_spec ctx X n c :
  ctx_ok ctx X → c = compact_of ctx n + 1 → c < U64_MAX →
  ∃ ctx', collapse (mkContext (<[n := c]> (compact ctx)) (dots ctx)) n = Ret ctx' ∧ ctx_ok ctx' ({[mkDot n c]} ∪ X).
Proof.
  intros [Hcp Hds Hs] Ec Hc. pose proof (Hcp n) as Hn. unfold collapse. cbn [compact dots]. rewrite lookup_insert_eq.
  destruct (collapse_loop_spec n (S (size (dots ctx))) c (dots ctx)) as (c' & ds' & -> & Hc' & Hsub & Hiff); [lia|lia|done|]. cbn [obind].
  eexists. split; [done|]. split.
  - intros m. rewrite insert_insert_eq, compact_of_insert. case_decide; [lia|apply Hcp].
  - intros d Hd. apply Hds, Hsub, Hd.
  - intros d Hd. rewrite insert_insert_eq, compact_of_insert. cbn [dots]. rewrite elem_of_union, elem_of_singleton, <-Hs by done. specialize (Hiff d).
    destruct d as [m k]. cbn [node counter] in *. case_decide as Hm; [subst m|].
    + assert (mkDot n k = mkDot n c ↔ k = c) as -> by naive_solver. unfold compact_of in *. destruct (decide (k <= c)); [|naive_solver lia].
      split; [|naive_solver lia]. intros _. destruct (decide (k = c)); [by left|right; left; lia].
    + assert (mkDot m k ≠ mkDot n c) by naive_solver. unfold compact_of. naive_solver.
Qed.

Lemma add_spec ctx X d : ctx_ok ctx X → dot_ok d → ∃ ctx', add ctx d = Ret ctx' ∧ ctx_ok ctx' ({[d]} ∪ X).
Proof.
  intros Hok [Hd Hd2]. pose proof Hok as [Hcp Hds Hs]. pose proof (Hcp (node d)) as Hn. unfold add. destruct (contains ctx d) eqn:Ec.
  - apply contains_spec, Hs in Ec; [|done|done]. exists ctx. split; [done|]. by assert ({[d]} ∪ X = X) as -> by set_solver.
  - rewrite usize_add_ok by lia. cbn [obind]. destruct (Z.eqb_spec (counter d) (compact_of ctx (node d) + 1)) as [E|E].
    + destruct (collapse_spec ctx X (node d) (counter d) Hok E ltac:(lia)) as (ctx' & -> & Hok'). exists ctx'. by destruct d.
    + eexists. split; [done|]. split.
      * intros m. rewrite compact_of_insert. case_decide; [subst; apply Hcp|apply Hcp].
      * cbn [dots]. intros d' [->%elem_of_singleton|Hd']%elem_of_union; [done|by apply Hds].
      * intros d' Hd'. rewrite compact_of_insert. cbn [dots]. rewrite !elem_of_union, !elem_of_singleton, <-Hs by done.
        assert ((if decide (node d' = node d) then compact_of ctx (node d) else default 0 (compact ctx !! node d')) = compact_of ctx (node d')) as ->
          by (case_decide as Em; [by rewrite Em|done]). tauto.
Qed.

Lemma merge_compact ctx ctx2 n :
  default 0 (foldl (λ c '(n, v), <[n := Z.max (default 0 (c !! n)) v]> c) (compact ctx) (hash_list (compact ctx2)) !! n) =
  match compact ctx2 !! n with Some v => Z.max (compact_of ctx n) v | None => compact_of ctx n end.
Proof.
  rewrite max_loop_lookup. by destruct (compact ctx2 !! n).
Qed.

Lemma add_all_spec (l : list (Dot N)) : ∀ ctx X,
  ctx_ok ctx X → (∀ d, d ∈ l → dot_ok d) →
  ∃ ctx', foldl (λ acc d, let! ctx := acc in add ctx d) (Ret ctx) l = Ret ctx' ∧ ctx_ok ctx' (list_to_set l ∪ X).
Proof.
  induction l as [|d l IH]; intros ctx X Hok Hl.
  - exists ctx. split; [done|]. by assert (list_to_set [] ∪ X = X) as -> by set_solver.
  - cbn [foldl obind]. destruct (add_spec ctx X d Hok (Hl d ltac:(left))) as (ctx1 & -> & Hok1).
    destruct (IH ctx1 _ Hok1 ltac:(set_solver)) as (ctx' & E & Hok'). exists ctx'. split; [done|].
    by assert (list_to_set (d :: l) ∪ X = list_to_set l ∪ ({[d]} ∪ X)) as -> by set_solver.
Qed.

Lemma merge_spec ctx X ctx2 Y : ctx_ok ctx X → ctx_ok ctx2 Y → ∃ ctx', merge ctx ctx2 = Ret ctx' ∧ ctx_ok ctx' (X ∪ Y).
Proof.
  intros [Hcp Hds Hs] [Hcp2 Hds2 Hs2]. unfold merge. set (c := foldl _ (compact ctx) _).
  assert (∀ n, compact_of (mkContext c (dots ctx)) n = Z.max (compact_of ctx n) (compact_of ctx2 n)) as Hc.
  { intros n. unfold compact_of at 1. cbn [compact]. unfold c. rewrite merge_compact. pose proof (Hcp n). unfold compact_of at 4. destruct (compact ctx2 !! n); simpl; lia. }
  set (W := base.filter (λ d, counter d <= compact_of ctx2 (node d) ∨ d ∉ dots ctx2) Y).
  destruct (add_all_spec (hash_elems (dots ctx2)) (mkContext c (dots ctx)) (X ∪ W)) as (ctx' & -> & Hok').
  - split.
    + intros n. rewrite Hc. specialize (Hcp n). specialize (Hcp2 n). lia.
    + done.
    + intros d Hd. rewrite Hc. cbn [dots]. rewrite elem_of_union, <-Hs by done. unfold W. rewrite elem_of_filter, <-Hs2 by done.
      destruct (decide (counter d <= compact_of ctx2 (node d))) as [Hle|Hgt]; [|]; split; intros; naive_solver lia.
  - intros d Hd. rewrite hash_elems_perm, elem_of_elements in Hd. by apply Hds2.
  - exists ctx'. split; [done|]. destruct Hok' as [H1' H2' H3']. split; [done|done|]. intros d Hd. rewrite H3' by done.
    rewrite !elem_of_union, elem_of_list_to_set, hash_elems_perm, elem_of_elements. unfold W. rewrite elem_of_filter. pose proof (Hs2 d Hd).
    destruct (decide (d ∈ dots ctx2)); naive_solver.
Qed.

(** The contexts that operations lead to, each with the dots it was given. *)
Inductive reached : DotContext N → gset (Dot N) → Prop :=
| reached_new : reached new ∅
| reached_add ctx X d ctx' : reached ctx X → dot_ok d → add ctx d = Ret ctx' → reached ctx' ({[d]} ∪ X)
| reached_next ctx X n d ctx' : reached ctx X → next_dot ctx n = Ret (d, ctx') → counter d < U64_MAX → reached ctx' ({[d]} ∪ X)
| reached_merge ctx X ctx2 Y ctx' : reached ctx X → reached ctx2 Y → merge ctx ctx2 = Ret ctx' → reached ctx' (X ∪ Y).

Lemma reached_ok ctx X : reached ctx X → ctx_ok ctx X.
Proof.
  induction 1 as [|ctx X d ctx' _ IH Hd E|ctx X n d ctx' _ IH E Hd|ctx X ctx2 Y ctx' _ IH1 _ IH2 E].
  - split; [done|set_solver|]. intros d Hd. unfold compact_of. cbn [new compact dots]. rewrite lookup_empty. simpl. set_solver by lia.
  - destruct (add_spec ctx X d IH Hd) as (? & E' & ?). congruence.
  - unfold next_dot in E. destruct (usize_add _ 1) as [c| |] eqn:Ec; [|done|done]. apply checked_ret in Ec as [-> _]. injection E as <- <-. cbn [counter] in Hd.
    destruct IH as [Hcp Hds Hs]. pose proof (Hcp n) as Hn. split.
    + intros m. rewrite compact_of_insert. case_decide; [lia|apply Hcp].
    + done.
    + intros [m k] Hk. rewrite compact_of_insert. cbn [dots]. rewrite elem_of_union, elem_of_singleton, <-Hs by done. cbn [node counter] in *.
      unfold compact_of in *. case_decide as Hm; [subst m|naive_solver].
      assert (mkDot n k = mkDot n (default 0 (compact ctx !! n) + 1) ↔ k = default 0 (compact ctx !! n) + 1) as -> by naive_solver.
      destruct (decide (mkDot n k ∈ dots ctx)); [tauto|]. split; [intros [?|?]; [|done]|intros [->|[?|?]]; [..|done]]; lia.
  - destruct (merge_spec ctx X ctx2 Y IH1 IH2) as (? & E' & ?). congruence.
Qed.

(** A dot context is a set of dots: after any operations, those of merged
    contexts included, it contains exactly the dots that were added or handed out,
    and additions and merges return. *)
Theorem dot_context_refines_set ctx X :
  reached ctx X →
  (∀ d, 1 <= counter d → contains ctx d = true ↔ d ∈ X) ∧
  (∀ d, dot_ok d → ∃ ctx', add ctx d = Ret ctx') ∧
  (∀ ctx2 Y, reached ctx2 Y → ∃ ctx', merge ctx ctx2 = Ret ctx').
Proof.
  intros Hr%reached_ok. split_and!.
  - intros d Hd. rewrite contains_spec by done. by apply Hr.
  - intros d Hd. destruct (add_spec ctx X d Hr Hd) as (ctx' & ? & _). eauto.
  - intros ctx2 Y Hr2%reached_ok. destruct (merge_spec ctx X ctx2 Y Hr Hr2) as (ctx' & ? & _). eauto.
Qed.
End dots.

Definition add_all (l : list (Dot Z)) : outcome (DotContext Z) := foldl (λ acc d, let! ctx := acc in DotContext.add ctx d) (Ret DotContext.new) l.

Lemma dot_context_refines_set_witness :
  match add_all [mkDot 1 3; mkDot 1 1; mkDot 1 2] with
  | Ret ctx => compact ctx = {[1 := 3]} ∧ dots ctx = ∅ ∧ DotContext.contains ctx (mkDot 1 2) = true ∧ ¬ DotContext.contains ctx (mkDot 1 4) = true
  | _ => False
  end.
Proof.
  assert (match DotContext.add DotContext.new (mkDot 1 3) with Ret c => match DotContext.add c (mkDot 1 1) with Ret c' => ∃ c'', DotContext.add c' (mkDot 1 2) = Ret c'' | _ => False end | _ => False end) as Hc
    by (vm_compute; eexists; reflexivity).
  assert (match add_all [mkDot 1 3; mkDot 1 1; mkDot 1 2] with Ret ctx => compact ctx = {[1 := 3]} ∧ dots ctx = ∅ | _ => False end) as Hv by (vm_compute; done).
  unfold add_all in *. cbn [foldl obind] in *. destruct (DotContext.add DotContext.new (mkDot 1 3)) as [c1| |] eqn:E1; [|done|done]. cbn [obind] in *.
  destruct (DotContext.add c1 (mkDot 1 1)) as [c2| |] eqn:E2; [|done|done]. cbn [obind] in *. destruct Hc as [c3 E3]. rewrite E3 in *. destruct Hv as [Hv1 Hv2].
  destruct (dot_context_refines_set c3 ({[mkDot 1 2]} ∪ ({[mkDot 1 1]} ∪ ({[mkDot 1 3]} ∪ ∅)))) as (Hin & _).
  { eapply reached_add; [eapply reached_add; [eapply reached_add; [apply reached_new|..]|..]|..]; [| exact E1 | | exact E2| |exact E3]; split; simpl; lia. }
  split_and!; [done|done|..]; rewrite Hin by (simpl; lia); set_solver.
Defined.

(** [next_dot] can hand out a dot that was seen: one that arrived before those it
    follows on. *)
Lemma next_dot_not_fresh :
  match add_all [mkDot 1 2] with
  | Ret ctx => match DotContext.next_dot ctx 1 with
    | Ret (_, ctx') => match DotContext.next_dot ctx' 1 with Ret (d, _) => DotContext.contains ctx d = true | _ => False end
    | _ => False end
  | _ => False
  end.
Proof. vm_compute. reflexivity. Qed.

(** Dots that a merge covers stay in the set of single dots. *)
Lemma merge_keeps_covered_dots :
  match add_all [mkDot 1 2], add_all [mkDot 1 1; mkDot 1 2; mkDot 1 3] with
  | Ret a, Ret b => match DotContext.merge a b with Ret c => compact c = {[1 := 3]} ∧ dots c = {[mkDot 1 2]} | _ => False end
  | _, _ => False
  end.
Proof. vm_compute. done. Qed.
