(* ===== verification/Gossip.v ===== *)
(** * Gossip (mielin-mesh/wire/src/gossip.rs)

    Vector clocks, and the state that nodes spread: what a service keeps and how it
    handles messages.  A handler holds its locks from its start to its end.  Nothing
    is sent yet: the answers to a pull and to a digest are computed and dropped, and
    are definitions of their own here.  What the clock shows, which peers are healthy
    and the order of a hash table are arguments; times are in milliseconds. *)

From stdpp Require Import base tactics option list numbers gmap strings relations.
From S2P Require Import Prelude Hash Causal.

(** The sixteen bytes of a node. *)
Definition NodeId : Type := list Z.

(* src: mielin-mesh/wire/src/gossip.rs 34-37 VectorClock *)
Record VectorClock : Type := mkClock {
  clocks : gmap NodeId Z;
}.

#[export] Instance VectorClock_eq_dec : EqDecision VectorClock.
Proof. refine (λ x y, cast_if (decide (clocks x = clocks y))); destruct x, y; simpl in *; congruence. Defined.

Module VectorClock.
Section clocks.
Context `{HashOrder}.
Implicit Types (self other : VectorClock) (node_id : NodeId).

(* src: mielin-mesh/wire/src/gossip.rs 41-45 VectorClock::new *)
Definition new : VectorClock := mkClock ∅.

(* src: mielin-mesh/wire/src/gossip.rs 48-51 VectorClock::increment *)
Definition increment self node_id : outcome VectorClock :=
  let! counter := usize_add (default 0 (clocks self !! node_id)) 1 in
  Ret (mkClock (<[node_id := counter]> (clocks self))).

(* src: mielin-mesh/wire/src/gossip.rs 54-59 VectorClock::merge *)
Definition merge self other : VectorClock :=
  mkClock (foldl (λ c '(node_id, version), <[node_id := Z.max (default 0 (c !! node_id)) version]> c)
    (clocks self) (hash_list (clocks other))).

(** The first loop: [None] when it returns false, otherwise whether some entry is
    less. *)
(* src: mielin-mesh/wire/src/gossip.rs 66-74 VectorClock::happens_before (loop) *)
Fixpoint compare_entries (l : list (NodeId * Z)) other (strictly_less : bool) : option bool :=
  match l with
  | [] => Some strictly_less
  | (node_id, self_version) :: l' =>
    let other_version := default 0 (clocks other !! node_id) in
    if other_version <? self_version then None
    else compare_entries l' other (strictly_less || (self_version <? other_version))
  end.

(* src: mielin-mesh/wire/src/gossip.rs 62-84 VectorClock::happens_before *)
Definition happens_before self other : bool :=
  match compare_entries (hash_list (clocks self)) other false with
  | None => false
  | Some strictly_less =>
    foldl (λ strictly_less '(node_id, _), strictly_less || negb (bool_decide (is_Some (clocks self !! node_id))))
      strictly_less (hash_list (clocks other))
  end.

(* src: mielin-mesh/wire/src/gossip.rs 87-89 VectorClock::is_concurrent *)
Definition is_concurrent self other : bool :=
  negb (happens_before self other) && negb (happens_before other self) && negb (bool_decide (self = other)).

(* src: mielin-mesh/wire/src/gossip.rs 92-94 VectorClock::get_version *)
Definition get_version self node_id : Z := default 0 (clocks self !! node_id).

End clocks.
End VectorClock.

(* src: mielin-mesh/wire/src/gossip.rs 105-115 GossipState *)
Record GossipState : Type := mkState {
  key : string;
  value : list Z;
  version : VectorClock;
  updated_at : Z;
}.

(* src: mielin-mesh/wire/src/gossip.rs 119-140 GossipMessage *)
Inductive GossipMessage : Type :=
| Push (node_id : NodeId) (states : list GossipState)
| Pull (node_id : NodeId) (known_versions : gmap string VectorClock)
| PullResponse (node_id : NodeId) (states : list GossipState)
| AntiEntropy (node_id : NodeId) (digests : gmap string VectorClock).

(* src: mielin-mesh/wire/src/gossip.rs 144-157 GossipConfig *)
Record GossipConfig : Type := mkGossipConfig {
  gossip_interval : Z;
  fanout : Z;
  state_expiration : Z;
  enable_anti_entropy : bool;
  anti_entropy_interval : Z;
  max_message_size : Z;
}.

(* src: mielin-mesh/wire/src/gossip.rs 160-169 GossipConfig::default *)
Definition default_gossip_config : GossipConfig := mkGossipConfig 5000 3 60000 true 30000 1048576.

(* src: mielin-mesh/wire/src/gossip.rs 174-187 GossipStats *)
Record GossipStats : Type := mkStats {
  rounds : Z;
  messages_sent : Z;
  messages_received : Z;
  states_propagated : Z;
  conflicts_detected : Z;
  state_count : Z;
}.

(** The services that are not gossip's own and the channel that is reserved for
    later are left out. *)
(* src: mielin-mesh/wire/src/gossip.rs 190-205 GossipService *)
Record GossipService : Type := mkService {
  config : GossipConfig;
  local_node_id : NodeId;
  states : gmap string GossipState;
  stats : GossipStats;
}.

Module GossipService.
Section service.
Context `{HashOrder}.
Implicit Types (self : GossipService).

(* src: mielin-mesh/wire/src/gossip.rs 209-234 GossipService::new *)
Definition new (config : GossipConfig) (local_node_id : NodeId) : GossipService :=
  mkService config local_node_id ∅ (mkStats 0 0 0 0 0 0).

Definition set_states (s : gmap string GossipState) self : GossipService :=
  mkService (config self) (local_node_id self) s (stats self).
Definition set_stats (s : GossipStats) self : GossipService :=
  mkService (config self) (local_node_id self) (states self) s.

(* src: mielin-mesh/wire/src/gossip.rs 258-278 GossipService::put *)
Definition put (now : Z) (k : string) (v : list Z) self : outcome GossipService :=
  let state := default (mkState k [] VectorClock.new now) (states self !! k) in
  let! version := VectorClock.increment (version state) (local_node_id self) in
  Ret (set_states (<[k := mkState (key state) v version now]> (states self)) self).

(* src: mielin-mesh/wire/src/gossip.rs 281-284 GossipService::get *)
Definition get (k : string) self : option (list Z) := value <$> states self !! k.

(* src: mielin-mesh/wire/src/gossip.rs 287-290 GossipService::keys *)
Definition keys self : list string := (hash_list (states self)).*1.

(* src: mielin-mesh/wire/src/gossip.rs 293-297 GossipService::stats *)
Definition get_stats self : GossipStats :=
  let s := stats self in
  mkStats (rounds s) (messages_sent s) (messages_received s) (states_propagated s) (conflicts_detected s) (Z.of_nat (size (states self))).

(** One state of a push: what becomes of the table and of the count of conflicts. *)
(* src: mielin-mesh/wire/src/gossip.rs 455-482 GossipService::handle_push (loop body) *)
Definition push_one (incoming : GossipState) (st : gmap string GossipState * Z) : outcome (gmap string GossipState * Z) :=
  let '(states, conflicts) := st in
  match states !! key incoming with
  | Some local =>
    if VectorClock.happens_before (version incoming) (version local) then Ret st
    else if VectorClock.happens_before (version local) (version incoming) then Ret (<[key incoming := incoming]> states, conflicts)
    else if VectorClock.is_concurrent (version incoming) (version local) then
      let! conflicts := usize_add conflicts 1 in
      let merged := mkState (key incoming) (value incoming) (VectorClock.merge (version incoming) (version local)) (updated_at incoming) in
      Ret (<[key merged := merged]> states, conflicts)
    else Ret st
  | None => Ret (<[key incoming := incoming]> states, conflicts)
  end.

(* src: mielin-mesh/wire/src/gossip.rs 447-487 GossipService::handle_push *)
Definition handle_push (incoming_states : list GossipState) self : outcome GossipService :=
  let s := stats self in
  let! (states', conflicts) :=
    foldl (λ acc incoming, let! st := acc in push_one incoming st) (Ret (states self, conflicts_detected s)) incoming_states in
  let! received := usize_add (messages_received s) 1 in
  Ret (mkService (config self) (local_node_id self) states'
    (mkStats (rounds s) (messages_sent s) received (states_propagated s) conflicts (state_count s))).

(** The states a peer lacks. *)
(* src: mielin-mesh/wire/src/gossip.rs 490-520 GossipService::handle_pull *)
Definition handle_pull (known_versions : gmap string VectorClock) self : list GossipState :=
  omap (λ '(k, local),
    match known_versions !! k with
    | Some known => if VectorClock.happens_before known (version local) then Some local else None
    | None => Some local
    end) (hash_list (states self)).

(** The keys this node needs and the states it has newer. *)
(* src: mielin-mesh/wire/src/gossip.rs 523-570 GossipService::handle_anti_entropy *)
Definition handle_anti_entropy (digests : gmap string VectorClock) self : list string * list GossipState :=
  let '(needed, newer) :=
    foldl (λ '(needed, newer) '(k, remote),
      match states self !! k with
      | Some local =>
        if VectorClock.happens_before remote (version local) then (needed, newer ++ [local])
        else if VectorClock.happens_before (version local) remote then (needed ++ [k], newer)
        else (needed, newer)
      | None => (needed ++ [k], newer)
      end) ([], []) (hash_list digests) in
  (needed, foldl (λ newer '(k, local), match digests !! k with Some _ => newer | None => newer ++ [local] end)
             newer (hash_list (states self))).

(** Only a push changes anything. *)
(* src: mielin-mesh/wire/src/gossip.rs 426-444 GossipService::handle_message *)
Definition handle_message (message : GossipMessage) self : outcome GossipService :=
  match message with
  | Push _ incoming | PullResponse _ incoming => handle_push incoming self
  | Pull _ _ | AntiEntropy _ _ => Ret self
  end.

(** A gossip round with some healthy peers: the states that are sent, and to how
    many. *)
(* src: mielin-mesh/wire/src/gossip.rs 312-352 GossipService::start_gossip_rounds (round) *)
Definition gossip_round (now healthy_peers : Z) self : outcome (list GossipState * GossipService) :=
  if healthy_peers =? 0 then Ret ([], self) else
  let peer_count := Z.min healthy_peers (fanout (config self)) in
  let recent := base.filter (λ s, saturating_sub now (updated_at s) < state_expiration (config self)) (hash_list (states self)).*2 in
  match recent with
  | [] => Ret ([], self)
  | _ =>
    let s := stats self in
    let! r := usize_add (rounds s) 1 in
    let! m := usize_add (messages_sent s) peer_count in
    let! n := usize_mul (Z.of_nat (length recent)) peer_count in
    let! p := usize_add (states_propagated s) n in
    Ret (recent, set_stats (mkStats r m (messages_received s) p (conflicts_detected s) (state_count s)) self)
  end.

(** A round of the expiration task. *)
(* src: mielin-mesh/wire/src/gossip.rs 408-420 GossipService::start_state_expiration (round) *)
Definition expire_round (now : Z) self : GossipService :=
  set_states (base.filter (λ kv, saturating_sub now (updated_at kv.2) < state_expiration (config self)) (states self)) self.

End service.
End GossipService.

(** * Theorems *)

Import VectorClock.

(** ** Vector clocks *)

Section clocks.
Context `{HashOrderLaws}.
Implicit Types (a b c : VectorClock) (n : NodeId).

Definition vc_ok a : Prop := positive (clocks a).

Lemma version_nonneg a n : vc_ok a → 0 <= get_version a n.
Proof. apply count_nonneg. Qed.

Lemma vc_eq a b : vc_ok a → vc_ok b → (∀ n, get_version a n = get_version b n) → a = b.
Proof. destruct a, b. intros Ha Hb Hg. f_equal. by apply positive_eq. Qed.

Lemma merge_version a b n : vc_ok a → vc_ok b → get_version (merge a b) n = Z.max (get_version a n) (get_version b n).
Proof.
  intros Ha Hb. pose proof (version_nonneg a n Ha). unfold get_version at 1. unfold merge. cbn [clocks]. rewrite max_loop_lookup.
  unfold get_version, count_of in *. destruct (clocks b !! n); simpl in *; lia.
Qed.

Lemma merge_vc_ok a b : vc_ok a → vc_ok b → vc_ok (merge a b).
Proof.
  intros Ha Hb n v. unfold merge. cbn [clocks]. rewrite max_loop_lookup. destruct (clocks b !! n) as [x|] eqn:E; [|apply Ha].
  intros [= <-]. pose proof (Hb n x E). simpl in *. lia.
Qed.

(** The loop over the clock's own entries. *)
Lemma compare_entries_spec b l : ∀ less,
  compare_entries l b less =
  if forallb (λ kv, kv.2 <=? get_version b kv.1) l then Some (less || existsb (λ kv, kv.2 <? get_version b kv.1) l) else None.
Proof.
  induction l as [|[n v] l IH]; intros less; cbn [compare_entries forallb existsb fst snd]; [by rewrite orb_false_r|].
  change (default 0 (clocks b !! n)) with (get_version b n). rewrite IH, orb_assoc.
  destruct (Z.ltb_spec (get_version b n) v), (Z.leb_spec v (get_version b n)); done || lia.
Qed.

Lemma missing_spec (m : gmap NodeId Z) l : ∀ less,
  foldl (λ less '(n, _), less || negb (bool_decide (is_Some (m !! n)))) less l =
  less || existsb (λ kv : NodeId * Z, negb (bool_decide (is_Some (m !! kv.1)))) l.
Proof. induction l as [|[n v] l IH]; intros less; cbn [foldl existsb fst]; [by rewrite orb_false_r|]. by rewrite IH, orb_assoc. Qed.

(** [happens_before] is the strict order of the entries. *)
Lemma happens_before_spec a b :
  vc_ok a → vc_ok b → happens_before a b = true ↔ (∀ n, get_version a n <= get_version b n) ∧ a ≠ b.
Proof.
  intros Ha Hb. rewrite <-(count_le_listed (clocks a) (get_version b)) by (intros; by apply version_nonneg).
  unfold happens_before. rewrite compare_entries_spec. destruct (forallb _ _) eqn:El.
  2: { split; [done|]. intros [Hall _]. apply not_true_iff_false in El. destruct El. apply forallb_forall. intros kv Hin. specialize (Hall kv Hin). lia. }
  rewrite forallb_forall in El. assert (∀ kv, In kv (hash_list (clocks a)) → kv.2 <= get_version b kv.1) as Hle by (intros kv Hin; specialize (El kv Hin); lia).
  rewrite missing_spec, orb_false_l. split.
  - intros [(kv & Hin & Hlt)%existsb_exists|(kv & Hin & Hlt)%existsb_exists]%orb_true_iff; (split; [done|]); intros <-; destruct kv as [n v];
      apply list_elem_of_In, elem_of_hash_list in Hin; cbn [fst snd] in Hlt.
    + unfold get_version in Hlt. rewrite Hin in Hlt. simpl in Hlt. lia.
    + by rewrite bool_decide_eq_true_2 in Hlt.
  - intros [_ Hne]. destruct (existsb _ (hash_list (clocks a))) eqn:E1; [done|]. rewrite orb_false_l. destruct (existsb _ (hash_list (clocks b))) eqn:E2; [done|]. destruct Hne. apply vc_eq; [done|done|].
    assert (∀ f l, existsb f l = false → ∀ kv : NodeId * Z, In kv l → f kv = false) as Hno.
    { intros f l E kv Hin. apply not_true_iff_false. intros Ht. apply not_true_iff_false in E. apply E, existsb_exists. eauto. }
    intros n. destruct (clocks a !! n) as [v|] eqn:Ea.
    + assert (In (n, v) (hash_list (clocks a))) as Hin by by apply list_elem_of_In, elem_of_hash_list. specialize (Hno _ _ E1 _ Hin). specialize (Hle _ Hin). cbn [fst snd] in *.
      unfold get_version at 1. rewrite Ea. simpl. lia.
    + destruct (clocks b !! n) as [v|] eqn:Eb; [|unfold get_version; by rewrite Ea, Eb].
      assert (In (n, v) (hash_list (clocks b))) as Hin by by apply list_elem_of_In, elem_of_hash_list. specialize (Hno _ _ E2 _ Hin). cbn [fst] in Hno. rewrite Ea in Hno.
      by rewrite bool_decide_eq_false_2 in Hno by by intros [].
Qed.

Lemma vc_increment_spec a n b :
  vc_ok a → increment a n = Ret b → vc_ok b ∧ ∀ m, get_version b m = if decide (m = n) then get_version a n + 1 else get_version a m.
Proof.
  unfold increment. intros Ha E. destruct (usize_add _ 1) as [x| |] eqn:Ex; [|done|done]. apply checked_ret in Ex as [-> Hr].
  injection E as <-. pose proof (version_nonneg a n Ha) as Hn. unfold get_version in Hn. split; [by apply map_Forall_insert_2; [lia|]|].
  intros m. apply count_insert.
Qed.

#[export] Instance vc_clock : CausalClock NodeId VectorClock := {|
  clock_empty := new;
  clock_tick := λ n c, increment c n;
  clock_join := merge;
  clock_le := λ c d, happens_before c d || bool_decide (c = d);
|}.

#[export, refine] Instance vc_clock_laws : CausalClockLaws NodeId VectorClock := {| clock_get := get_version; clock_wf := vc_ok |}.
Proof.
  - intros. by apply version_nonneg.
  - split; [apply map_Forall_empty|done].
  - intros n c c' Hc E. by apply vc_increment_spec.
  - intros c d Hc Hd. split; [by apply merge_vc_ok|]. intros n. by apply merge_version.
  - intros c d Hc Hd. simpl. rewrite orb_true_iff, happens_before_spec, bool_decide_eq_true by done. split.
    + intros [[Hle _]| ->]; done.
    + intros Hle. destruct (decide (c = d)); [by right|by left].
Defined.

(** Vector clocks track causality: nodes count their changes, send their clocks
    and merge those they receive, with messages lost, repeated and out of order.
    One clock happens before another exactly when the changes it has seen are a
    proper part of the other's, and two clocks are concurrent exactly when each has
    seen a change that the other has not. *)
Theorem vector_clocks_track_causality ids w s1 s2 :
  NoDup ids → rtc world_step (world_start (C := VectorClock) ids) w → s1 ∈ stamps w → s2 ∈ stamps w →
  (happens_before s1.1 s2.1 = true ↔ s1.2 ⊂ s2.2) ∧
  (is_concurrent s1.1 s2.1 = true ↔ ¬ s1.2 ⊆ s2.2 ∧ ¬ s2.2 ⊆ s1.2).
Proof.
  intros Hids Hrun Hs1 Hs2. destruct (clocks_track_causality ids w s1 s2 Hids Hrun Hs1 Hs2) as (Hw1 & Hw2 & H12).
  destruct (clocks_track_causality ids w s2 s1 Hids Hrun Hs2 Hs1) as (_ & _ & H21). cbn [clock_le vc_clock clock_wf vc_clock_laws] in *.
  rewrite orb_true_iff, bool_decide_eq_true in H12, H21.
  assert (happens_before s1.1 s2.1 = true → happens_before s2.1 s1.1 = true → s1.1 = s2.1) as Hanti.
  { rewrite !happens_before_spec by done. intros [Hx _] [Hy _]. apply vc_eq; [done|done|]. intros n. specialize (Hx n). specialize (Hy n). lia. }
  assert (∀ x y : VectorClock, vc_ok x → vc_ok y → happens_before x y = true → x ≠ y) as Hirr by (intros x y Hx Hy Hxy; by apply happens_before_spec in Hxy as [_ ?]).
  pose proof (Hirr _ _ Hw1 Hw2). pose proof (Hirr _ _ Hw2 Hw1). unfold is_concurrent. rewrite !andb_true_iff, !negb_true_iff, bool_decide_eq_false.
  rewrite <-!not_true_iff_false. unfold strict. split; [naive_solver|]. rewrite <-H12, <-H21. naive_solver.
Qed.

(** ** Pushes *)

Import GossipService.

Definition states_ok (m : gmap string GossipState) : Prop := map_Forall (λ _ s, vc_ok (version s)) m.

(** A state of a key that was there before or that came in. *)
Definition source (m : gmap string GossipState) (l : list GossipState) (k : string) (s : GossipState) : Prop :=
  m !! k = Some s ∨ (s ∈ l ∧ key s = k).

(** Every state there was is covered by a later one, and every value comes from
    somewhere. *)
Definition covers m l (m' : gmap string GossipState) : Prop :=
  ∀ k s, source m l k s → ∃ s', m' !! k = Some s' ∧ ∀ n, get_version (version s) n <= get_version (version s') n.
Definition stems m l (m' : gmap string GossipState) : Prop := ∀ k s', m' !! k = Some s' → ∃ s, source m l k s ∧ value s' = value s.

(** The entry of a key is replaced. *)
Lemma push_insert m i s :
  states_ok m → vc_ok (version i) → vc_ok (version s) → value s = value i →
  (∀ n, get_version (version i) n <= get_version (version s) n) →
  (∀ o, m !! key i = Some o → ∀ n, get_version (version o) n <= get_version (version s) n) →
  states_ok (<[key i := s]> m) ∧ covers m [i] (<[key i := s]> m) ∧ stems m [i] (<[key i := s]> m).
Proof.
  intros Hm Hi Hs Hv Hle Ho. split_and!.
  - by apply map_Forall_insert_2.
  - intros k o [Hk|[->%list_elem_of_singleton <-]].
    + destruct (decide (key i = k)) as [<-|]; [exists s; rewrite lookup_insert_eq; naive_solver|]. exists o. by rewrite lookup_insert_ne.
    + exists s. by rewrite lookup_insert_eq.
  - intros k o [[<- <-]|[Hne Hk]]%lookup_insert_Some; [exists i; split; [right; split; [by apply list_elem_of_singleton|done]|done]|].
    exists o. split; [by left|done].
Qed.

Lemma push_one_spec i m (cs : Z) :
  states_ok m → vc_ok (version i) → 0 <= cs < U64_MAX →
  ∃ m' cs', push_one i (m, cs) = Ret (m', cs') ∧ cs <= cs' <= cs + 1 ∧ states_ok m' ∧ covers m [i] m' ∧ stems m [i] m'.
Proof.
  intros Hm Hi Hc. unfold push_one. destruct (m !! key i) as [o|] eqn:Eo.
  - pose proof (Hm _ _ Eo) as Ho. simpl in Ho.
    assert ((∀ n, get_version (version i) n <= get_version (version o) n) →
      ∃ m'' cs'', Ret (m, cs) = Ret (m'', cs'') ∧ cs <= cs'' <= cs + 1 ∧ states_ok m'' ∧ covers m [i] m'' ∧ stems m [i] m'') as Hkeep.
    { intros Hle. exists m, cs. split_and!; try done; [lia|..].
      - intros k s [Hk|[->%list_elem_of_singleton <-]]; [by exists s|by exists o].
      - intros k s Hk. exists s. split; [by left|done]. }
    destruct (happens_before (version i) (version o)) eqn:E1.
    { apply happens_before_spec in E1 as [Hle _]; [|done|done]. by apply Hkeep. }
    destruct (happens_before (version o) (version i)) eqn:E2.
    { apply happens_before_spec in E2 as [Hle _]; [|done|done]. eexists _, cs. split; [done|]. split; [lia|].
      apply push_insert; try done. intros o' Ho'. by simplify_eq. }
    unfold is_concurrent. rewrite E1, E2. cbn [negb andb]. case_bool_decide as Heq; cbn [negb].
    { apply Hkeep. intros n. by rewrite Heq. }
    rewrite usize_add_ok by lia. cbn [obind]. eexists _, (cs + 1). split; [done|]. split; [lia|].
    cbn [key]. apply (push_insert m i); cbn [version value]; try done; [by apply merge_vc_ok|..].
    + intros n. rewrite merge_version by done. lia.
    + intros o' Ho' n. simplify_eq. rewrite merge_version by done. lia.
  - eexists _, cs. split; [done|]. split; [lia|]. apply push_insert; try done. intros o Ho. congruence.
Qed.

Lemma push_all_spec l : ∀ m (cs : Z),
  states_ok m → Forall (λ s, vc_ok (version s)) l → 0 <= cs → cs + Z.of_nat (length l) <= U64_MAX →
  ∃ m' cs', foldl (λ acc i, let! st := acc in push_one i st) (Ret (m, cs)) l = Ret (m', cs') ∧
    cs <= cs' <= cs + Z.of_nat (length l) ∧ states_ok m' ∧ covers m l m' ∧ stems m l m'.
Proof.
  induction l as [|i l IH]; intros m cs Hm Hl Hc Hlen.
  - exists m, cs. split_and!; try done; [lia|..].
    + intros k s [Hk|[Hs _]]; [by exists s|by apply elem_of_nil in Hs].
    + intros k s Hk. exists s. split; [by left|done].
  - apply Forall_cons in Hl as [Hi Hl]. cbn [length] in Hlen. cbn [foldl obind].
    destruct (push_one_spec i m cs Hm Hi ltac:(lia)) as (m1 & c1 & -> & Hc1 & Hm1 & Hcov & Hst).
    destruct (IH m1 c1 Hm1 Hl ltac:(lia) ltac:(lia)) as (m' & c' & -> & Hc' & Hm' & Hcov' & Hst').
    exists m', c'. cbn [length]. split_and!; [done|lia|lia|done|..].
    + intros k s Hs. assert (source m [i] k s ∨ source m1 l k s) as [Hsrc|Hsrc].
      { destruct Hs as [Hs|[[->|Hs]%elem_of_cons Hk]]; [left; by left|left; right; split; [by apply list_elem_of_singleton|done]|right; by right]. }
      * destruct (Hcov k s Hsrc) as (s1 & Hs1 & Hle). destruct (Hcov' k s1 (or_introl Hs1)) as (s' & Hs' & Hle').
        exists s'. split; [done|]. intros n. etrans; [apply Hle|apply Hle'].
      * by apply Hcov'.
    + intros k s' Hs'. destruct (Hst' k s' Hs') as (s1 & [Hs1|[Hin Hk]] & Hv); [|exists s1; split; [right; split; [by right|done]|done]].
      destruct (Hst k s1 Hs1) as (s & Hsrc & Hv2). exists s. split; [|congruence].
      destruct Hsrc as [Hs|[->%list_elem_of_singleton Hk]]; [by left|right; split; [by left|done]].
Qed.

(** A push that comes in, whatever it holds, is handled without a panic, and no
    key goes back: what is kept for a key afterwards covers the version that was
    there and every version that came in, and its value is one of theirs. *)
Theorem push_never_goes_back self incoming :
  states_ok (states self) → Forall (λ s, vc_ok (version s)) incoming →
  0 <= conflicts_detected (stats self) → conflicts_detected (stats self) + Z.of_nat (length incoming) <= U64_MAX →
  0 <= messages_received (stats self) < U64_MAX →
  returns (handle_push incoming self) (λ self',
    states_ok (states self') ∧ covers (states self) incoming (states self') ∧ stems (states self) incoming (states self') ∧
    local_node_id self' = local_node_id self ∧ messages_received (stats self') = messages_received (stats self) + 1).
Proof.
  intros Hm Hl Hc Hlen Hr. unfold handle_push.
  destruct (push_all_spec incoming (states self) (conflicts_detected (stats self)) Hm Hl Hc Hlen) as (m' & c' & -> & _ & Hm' & Hcov & Hst).
  cbn [obind]. rewrite usize_add_ok by lia. simpl. done.
Qed.
End clocks.

(** ** Two nodes *)

#[local] Existing Instance sorted_order.
#[local] Existing Instance sorted_order_laws.

Definition node_a : NodeId := replicate 16 1.
Definition node_b : NodeId := replicate 16 2.

Definition two_nodes : option (world NodeId VectorClock) :=
  world_do_all [WEvent 0; WSend 0; WEvent 1; WReceive 1 0; WEvent 0] (world_start [node_a; node_b]).

Lemma vector_clocks_track_causality_witness :
  match two_nodes with
  | Some w => ∀ s1 s2 m, stamps w = [s1; s2; m] → happens_before m.1 s2.1 = true ∧ is_concurrent s1.1 s2.1 = true
  | None => False
  end.
Proof.
  assert (match two_nodes with Some w => snd <$> stamps w = [{[0%nat; 2%nat]}; {[0%nat; 1%nat]}; {[0%nat]}] | None => False end) as Hc
    by (vm_compute; reflexivity).
  destruct two_nodes as [w|] eqn:E; [|done]. apply world_do_run in E. intros s1 s2 m Es. rewrite Es in Hc. injection Hc as H1 H2 Hm.
  assert (∀ s, s ∈ [s1; s2; m] → s ∈ stamps w) as Hin by by rewrite Es.
  assert (NoDup [node_a; node_b]) as Hids by (apply (bool_decide_unpack _); vm_compute; exact I).
  split.
  - apply (vector_clocks_track_causality [node_a; node_b] w m s2 Hids E); [apply Hin; set_solver..|]. rewrite H2, Hm. set_solver.
  - apply (vector_clocks_track_causality [node_a; node_b] w s1 s2 Hids E); [apply Hin; set_solver..|]. rewrite H1, H2. set_solver.
Defined.

(** What a node holds of key [k] after it wrote a value. *)
Definition wrote (n : NodeId) (v : list Z) : GossipService :=
  match GossipService.put 0 "k" v (GossipService.new default_gossip_config n) with Ret s => s | _ => GossipService.new default_gossip_config n end.
Definition state_of (s : GossipService) : list GossipState := (hash_list (states s)).*2.

Lemma push_never_goes_back_witness :
  match GossipService.handle_push (state_of (wrote node_a [1])) (wrote node_b [2]) with
  | Ret s => ∃ st, states s !! "k"%string = Some st ∧ value st = [1] ∧ 1 <= get_version (version st) node_b
  | _ => False
  end.
Proof.
  assert (states_ok (states (wrote node_b [2]))) as Hs.
  { apply map_Forall_singleton. apply map_Forall_singleton. vm_compute. discriminate. }
  pose proof (push_never_goes_back (wrote node_b [2]) (state_of (wrote node_a [1])) Hs) as Hp.
  assert (Forall (λ s, vc_ok (version s)) (state_of (wrote node_a [1]))) as Hl.
  { apply Forall_singleton. apply map_Forall_singleton. vm_compute. discriminate. }
  specialize (Hp Hl ltac:(vm_compute; discriminate) ltac:(vm_compute; discriminate) ltac:(split; vm_compute; [discriminate|reflexivity])).
  assert (match GossipService.handle_push (state_of (wrote node_a [1])) (wrote node_b [2]) with Ret s => value <$> states s !! "k"%string = Some [1] | _ => False end) as Hv
    by (vm_compute; reflexivity).
  destruct (GossipService.handle_push _ _) as [s| |]; [|exact Hp|exact Hp]. destruct Hp as (_ & Hcov & _).
  destruct (Hcov "k"%string (mkState "k" [2] (mkClock {[node_b := 1]}) 0)) as (st & Hst & Hle); [left; vm_compute; reflexivity|].
  exists st. rewrite Hst in Hv. injection Hv as Hv. split; [exact Hst|]. split; [exact Hv|]. specialize (Hle node_b). etrans; [|exact Hle]. vm_compute. discriminate.
Defined.

(** Two nodes that write a key at the same time and push it to each other swap their
    values: the versions are equal then, and they stay apart. *)
Lemma concurrent_push_swaps :
  let a := wrote node_a [1] in let b := wrote node_b [2] in
  match GossipService.handle_push (state_of b) a, GossipService.handle_push (state_of a) b with
  | Ret a', Ret b' =>
    GossipService.get "k" a' = Some [2] ∧ GossipService.get "k" b' = Some [1] ∧
    version <$> states a' !! "k"%string = version <$> states b' !! "k"%string ∧
    match GossipService.handle_push (state_of b') a' with Ret a'' => GossipService.get "k" a'' = Some [2] | _ => False end
  | _, _ => False
  end.
Proof. vm_compute. done. Qed.

(** A pull does not answer with a state that is concurrent with the one the peer
    knows. *)
Lemma pull_leaves_conflicts_out :
  GossipService.handle_pull (version <$> states (wrote node_b [2])) (wrote node_a [1]) = [].
Proof. vm_compute. reflexivity. Qed.
