(* ===== verification/Ack.v ===== *)
(** * Acknowledgement (mielin-mesh/wire/src/ack.rs)

    Reliable delivery: messages are sent again until they are acknowledged, and copies
    that arrive are told apart from new messages.  [AckTracker] returns what is to be
    done, [AckManager] calls a callback, which is an identifier here: the calls are
    part of the result.  Times are microseconds; one call reads the clock once.  The
    static counter of [MessageId::generate] is an argument and a result of the calls
    that use it.  A node is identified by sixteen bytes. *)

From stdpp Require Import base tactics option list numbers gmap.
From Stdlib Require Import SpecFloat.
From S2P Require Import Prelude Float Hash.

Abbreviation NodeBytes := (list Z).

(* src: mielin-mesh/wire/src/ack.rs 20-23 MessageId::generate *)
Definition generate (COUNTER : Z) : Z * Z := (COUNTER, wrap64 (COUNTER + 1)).

(* src: mielin-mesh/wire/src/ack.rs 38-49 AckStatus *)
Inductive AckStatus : Type := Pending | Acknowledged | Failed | Rejected | Expired.

#[global] Instance AckStatus_eq_dec : EqDecision AckStatus.
Proof. solve_decision. Defined.

(* src: mielin-mesh/wire/src/ack.rs 53-64 Acknowledgment *)
Record Acknowledgment : Type := mkAck {
  ack_message_id : Z;
  ack_sender : NodeBytes;
  success : bool;
  error : option (list Z);
  timestamp_us : Z;
}.

(* src: mielin-mesh/wire/src/ack.rs 92-105 AckConfig *)
Record AckConfig : Type := mkAckConfig {
  initial_timeout_us : Z;
  max_timeout_us : Z;
  backoff_multiplier : spec_float;
  max_retries : Z;
  duplicate_window_us : Z;
  max_pending : Z;
}.

(* src: mielin-mesh/wire/src/ack.rs 166-181 PendingMessage *)
Record PendingMessage : Type := mkPending {
  message_id : Z;
  destination : NodeBytes;
  payload : list Z;
  sent_at_us : Z;
  timeout_at_us : Z;
  retry_count : Z;
  status : AckStatus;
}.

(* src: mielin-mesh/wire/src/ack.rs 235-250 AckStats *)
Record AckStats : Type := mkAckStats {
  messages_sent : Z;
  acks_received : Z;
  delivery_failures : Z;
  retries : Z;
  duplicates_detected : Z;
  pending_count : Z;
  avg_rtt_us : Z;
}.

(* src: mielin-mesh/wire/src/ack.rs 216-218 DuplicateEntry *)
Record DuplicateEntry : Type := mkDuplicate { received_at_us : Z }.

(* src: mielin-mesh/wire/src/ack.rs 223-231 AckTracker *)
Record AckTracker : Type := mkTracker {
  config : AckConfig;
  pending : gmap Z PendingMessage;
  seen : gmap (Z * NodeBytes) DuplicateEntry;
  stats : AckStats;
}.

(* src: mielin-mesh/wire/src/ack.rs 426-433 AckResult *)
Inductive AckResult : Type :=
| AckAcknowledged (rtt_us : Z)
| AckRejected (error : option (list Z))
| AckUnknown.

(* src: mielin-mesh/wire/src/ack.rs 437-451 RetryAction *)
Inductive RetryAction : Type :=
| Retry (message_id : Z) (destination : NodeBytes) (payload : list Z) (attempt : Z)
| GiveUp (message_id : Z) (destination : NodeBytes) (attempts : Z).

(* src: mielin-mesh/wire/src/ack.rs 455-462 AckError *)
Inductive AckError : Type := TooManyPending | NotFound | InvalidMessageId.

(* src: mielin-mesh/wire/src/ack.rs 488-499 ReliableMessage *)
Record ReliableMessage (T : Type) : Type := mkReliable {
  reliable_id : Z;
  inner : T;
  reliable_sender : NodeBytes;
  requires_ack : bool;
  reliable_timestamp_us : Z;
}.
Arguments mkReliable {T}.
Arguments reliable_id {T}.
Arguments inner {T}.
Arguments reliable_sender {T}.
Arguments requires_ack {T}.
Arguments reliable_timestamp_us {T}.

Module Acknowledgment.

(* src: mielin-mesh/wire/src/ack.rs 68-76 Acknowledgment::success *)
Definition success (now : Z) (message_id : Z) (sender : NodeBytes) : Acknowledgment := mkAck message_id sender true None now.

(* src: mielin-mesh/wire/src/ack.rs 79-87 Acknowledgment::reject *)
Definition reject (now : Z) (message_id : Z) (sender : NodeBytes) (error : list Z) : Acknowledgment :=
  mkAck message_id sender false (Some error) now.

End Acknowledgment.

Module ReliableMessage.

(* src: mielin-mesh/wire/src/ack.rs 503-511 ReliableMessage::new *)
Definition new {T} (COUNTER now : Z) (inner : T) (sender : NodeBytes) : ReliableMessage T * Z :=
  let '(id, COUNTER) := generate COUNTER in (mkReliable id inner sender true now, COUNTER).

(* src: mielin-mesh/wire/src/ack.rs 514-522 ReliableMessage::fire_and_forget *)
Definition fire_and_forget {T} (COUNTER now : Z) (inner : T) (sender : NodeBytes) : ReliableMessage T * Z :=
  let '(id, COUNTER) := generate COUNTER in (mkReliable id inner sender false now, COUNTER).

End ReliableMessage.

Module AckConfig.

(* src: mielin-mesh/wire/src/ack.rs 108-117 AckConfig::default *)
Definition default : AckConfig := mkAckConfig 100000 30000000 (f64_of_u64 2) 5 60000000 10000.

(* src: mielin-mesh/wire/src/ack.rs 122-131 AckConfig::low_latency *)
Definition low_latency : AckConfig := mkAckConfig 50000 5000000 (f64_lit 3 2) 3 30000000 5000.

(* src: mielin-mesh/wire/src/ack.rs 134-143 AckConfig::high_reliability *)
Definition high_reliability : AckConfig := mkAckConfig 200000 60000000 (f64_of_u64 2) 10 120000000 50000.

(* src: mielin-mesh/wire/src/ack.rs 146-155 AckConfig::embedded *)
Definition embedded : AckConfig := mkAckConfig 500000 10000000 (f64_of_u64 2) 3 30000000 100.

(* src: mielin-mesh/wire/src/ack.rs 158-161 AckConfig::timeout_for_retry *)
Definition timeout_for_retry (self : AckConfig) (attempt : Z) : Z :=
  let timeout := f64_mul (f64_of_u64 (initial_timeout_us self)) (f64_powi (backoff_multiplier self) (as_i32 attempt)) in
  Z.min (f64_as_usize timeout) (max_timeout_us self).

End AckConfig.

Module PendingMessage.

(* src: mielin-mesh/wire/src/ack.rs 185-201 PendingMessage::new *)
Definition new (now : Z) (message_id : Z) (destination : NodeBytes) (payload : list Z) (timeout_us : Z) : outcome PendingMessage :=
  let! timeout_at := usize_add now timeout_us in
  Ret (mkPending message_id destination payload now timeout_at 0 Pending).

(* src: mielin-mesh/wire/src/ack.rs 204-206 PendingMessage::is_timed_out *)
Definition is_timed_out (self : PendingMessage) (now_us : Z) : bool := timeout_at_us self <=? now_us.

(* src: mielin-mesh/wire/src/ack.rs 209-211 PendingMessage::elapsed_us *)
Definition elapsed_us (self : PendingMessage) (now_us : Z) : Z := saturating_sub now_us (sent_at_us self).

(** Field updates. *)
Definition set_status (s : AckStatus) (self : PendingMessage) : PendingMessage :=
  mkPending (message_id self) (destination self) (payload self) (sent_at_us self) (timeout_at_us self) (retry_count self) s.
Definition set_retry (n timeout : Z) (self : PendingMessage) : PendingMessage :=
  mkPending (message_id self) (destination self) (payload self) (sent_at_us self) timeout n (status self).

End PendingMessage.

Module AckStats.

(** [AckStats::default()], derived. *)
Definition default : AckStats := mkAckStats 0 0 0 0 0 0 0.

(** Field updates. *)
Definition set_sent (n : Z) (s : AckStats) : AckStats :=
  mkAckStats n (acks_received s) (delivery_failures s) (retries s) (duplicates_detected s) (pending_count s) (avg_rtt_us s).
Definition set_acks (n : Z) (s : AckStats) : AckStats :=
  mkAckStats (messages_sent s) n (delivery_failures s) (retries s) (duplicates_detected s) (pending_count s) (avg_rtt_us s).
Definition set_failures (n : Z) (s : AckStats) : AckStats :=
  mkAckStats (messages_sent s) (acks_received s) n (retries s) (duplicates_detected s) (pending_count s) (avg_rtt_us s).
Definition set_retries (n : Z) (s : AckStats) : AckStats :=
  mkAckStats (messages_sent s) (acks_received s) (delivery_failures s) n (duplicates_detected s) (pending_count s) (avg_rtt_us s).
Definition set_duplicates (n : Z) (s : AckStats) : AckStats :=
  mkAckStats (messages_sent s) (acks_received s) (delivery_failures s) (retries s) n (pending_count s) (avg_rtt_us s).
Definition set_pending_count (n : Z) (s : AckStats) : AckStats :=
  mkAckStats (messages_sent s) (acks_received s) (delivery_failures s) (retries s) (duplicates_detected s) n (avg_rtt_us s).
Definition set_rtt (n : Z) (s : AckStats) : AckStats :=
  mkAckStats (messages_sent s) (acks_received s) (delivery_failures s) (retries s) (duplicates_detected s) (pending_count s) n.

(** What an acknowledgement does to the statistics, in both trackers: the average round
    trip, the number of acknowledgements, and the number of pending messages. *)
(* src: mielin-mesh/wire/src/ack.rs 292-301 AckTracker::process_ack (statistics) *)
Definition record_ack (rtt now_pending : Z) (s : AckStats) : outcome AckStats :=
  let! avg :=
    if acks_received s =? 0 then Ret rtt
    else let! m := usize_mul (avg_rtt_us s) 7 in let! sum := usize_add m rtt in Ret (sum / 8) in
  let! acks := usize_add (acks_received s) 1 in
  Ret (set_pending_count now_pending (set_acks acks (set_rtt avg s))).

End AckStats.

Module AckTracker.
Section tracker.
Context `{HashOrder}.
Implicit Types (self : AckTracker).

(* src: mielin-mesh/wire/src/ack.rs 254-261 AckTracker::new *)
Definition new (config : AckConfig) : AckTracker := mkTracker config ∅ ∅ AckStats.default.

Definition set_pending (p : gmap Z PendingMessage) self : AckTracker := mkTracker (config self) p (seen self) (stats self).
Definition set_seen (s : gmap (Z * NodeBytes) DuplicateEntry) self : AckTracker := mkTracker (config self) (pending self) s (stats self).
Definition set_stats (s : AckStats) self : AckTracker := mkTracker (config self) (pending self) (seen self) s.
Definition len (p : gmap Z PendingMessage) : Z := Z.of_nat (size p).

(* src: mielin-mesh/wire/src/ack.rs 266-283 AckTracker::register *)
Definition register (COUNTER now : Z) (destination : NodeBytes) (payload : list Z) self : outcome (result Z AckError * AckTracker * Z) :=
  if max_pending (config self) <=? len (pending self) then Ret (Err TooManyPending, self, COUNTER) else
  let '(id, COUNTER) := generate COUNTER in
  let! p := PendingMessage.new now id destination payload (initial_timeout_us (config self)) in
  let self := set_pending (<[id := p]> (pending self)) self in
  let! sent := usize_add (messages_sent (stats self)) 1 in
  Ret (Ok id, set_stats (AckStats.set_pending_count (len (pending self)) (AckStats.set_sent sent (stats self))) self, COUNTER).

(* src: mielin-mesh/wire/src/ack.rs 286-314 AckTracker::process_ack *)
Definition process_ack (now : Z) (ack : Acknowledgment) self : outcome (AckResult * AckTracker) :=
  match pending self !! ack_message_id ack with
  | Some p =>
    let self := set_pending (delete (ack_message_id ack) (pending self)) self in
    let rtt := saturating_sub now (sent_at_us p) in
    let! s := AckStats.record_ack rtt (len (pending self)) (stats self) in
    if success ack then Ret (AckAcknowledged rtt, set_stats s self)
    else
      let! f := usize_add (delivery_failures s) 1 in
      Ret (AckRejected (error ack), set_stats (AckStats.set_failures f s) self)
  | None => Ret (AckUnknown, self)
  end.

(** [now - entry.received_at_us < window], for every entry. *)
Fixpoint all_fresh (now window : Z) (l : list ((Z * NodeBytes) * DuplicateEntry)) (acc : gmap (Z * NodeBytes) DuplicateEntry) : outcome (gmap (Z * NodeBytes) DuplicateEntry) :=
  match l with
  | [] => Ret acc
  | (k, e) :: l' =>
    let! age := usize_sub now (received_at_us e) in
    all_fresh now window l' (if age <? window then acc else delete k acc)
  end.

(* src: mielin-mesh/wire/src/ack.rs 336-340 AckTracker::clean_duplicates *)
Definition clean_duplicates (now_us : Z) self : outcome AckTracker :=
  let! s := all_fresh now_us (duplicate_window_us (config self)) (hash_list (seen self)) (seen self) in
  Ret (set_seen s self).

(* src: mielin-mesh/wire/src/ack.rs 317-333 AckTracker::is_duplicate *)
Definition is_duplicate (now : Z) (id : Z) (sender : NodeBytes) self : outcome (bool * AckTracker) :=
  let key := (id, sender) in
  let! self := clean_duplicates now self in
  match seen self !! key with
  | None => Ret (false, set_seen (<[key := mkDuplicate now]> (seen self)) self)
  | Some _ =>
    let! d := usize_add (duplicates_detected (stats self)) 1 in
    Ret (true, set_stats (AckStats.set_duplicates d (stats self)) self)
  end.

(** What the loop of [get_retries] works on. *)
Record retry_state : Type := mkRetryState { rs_pending : gmap Z PendingMessage; rs_stats : AckStats; rs_actions : list RetryAction }.

(** The body of the loop. *)
(* src: mielin-mesh/wire/src/ack.rs 349-377 AckTracker::get_retries (loop body) *)
Definition retry_one (cfg : AckConfig) (now : Z) (id : Z) (st : retry_state) : outcome retry_state :=
  match rs_pending st !! id with
  | Some p =>
    if PendingMessage.is_timed_out p now then
      if max_retries cfg <=? retry_count p then
        let! attempts := u32_add (retry_count p) 1 in
        let! f := usize_add (delivery_failures (rs_stats st)) 1 in
        Ret (mkRetryState (<[id := PendingMessage.set_status Failed p]> (rs_pending st)) (AckStats.set_failures f (rs_stats st))
               (rs_actions st ++ [GiveUp id (destination p) attempts]))
      else
        let! n := u32_add (retry_count p) 1 in
        let! timeout_at := usize_add now (AckConfig.timeout_for_retry cfg n) in
        let! r := usize_add (retries (rs_stats st)) 1 in
        Ret (mkRetryState (<[id := PendingMessage.set_retry n timeout_at p]> (rs_pending st)) (AckStats.set_retries r (rs_stats st))
               (rs_actions st ++ [Retry id (destination p) (payload p) n]))
    else Ret st
  | None => Ret st
  end.

Fixpoint retry_loop (cfg : AckConfig) (now : Z) (ids : list Z) (st : retry_state) : outcome retry_state :=
  match ids with
  | [] => Ret st
  | id :: ids' => let! st := retry_one cfg now id st in retry_loop cfg now ids' st
  end.

(* src: mielin-mesh/wire/src/ack.rs 343-384 AckTracker::get_retries *)
Definition get_retries (now : Z) self : outcome (list RetryAction * AckTracker) :=
  let message_ids := (hash_list (pending self)).*1 in
  let! st := retry_loop (config self) now message_ids (mkRetryState (pending self) (stats self) []) in
  let p := base.filter (λ kv, status kv.2 ≠ Failed) (rs_pending st) in
  Ret (rs_actions st, set_stats (AckStats.set_pending_count (len p) (rs_stats st)) (set_pending p self)).

(* src: mielin-mesh/wire/src/ack.rs 397-404 AckTracker::cancel *)
Definition cancel (id : Z) self : bool * AckTracker :=
  match pending self !! id with
  | Some _ =>
    let p := delete id (pending self) in
    (true, set_stats (AckStats.set_pending_count (len p) (stats self)) (set_pending p self))
  | None => (false, self)
  end.

(* src: mielin-mesh/wire/src/ack.rs 412-421 AckTracker::expire *)
Definition expire (id : Z) self : bool * AckTracker :=
  match pending self !! id with
  | Some m =>
    let self := set_pending (<[id := PendingMessage.set_status Expired m]> (pending self)) self in
    let p := delete id (pending self) in
    (true, set_stats (AckStats.set_pending_count (len p) (stats self)) (set_pending p self))
  | None => (false, self)
  end.

(* src: mielin-mesh/wire/src/ack.rs 407-409 AckTracker::get_pending *)
Definition get_pending (id : Z) self : option PendingMessage := pending self !! id.

End tracker.
End AckTracker.

(** ** With callbacks *)

Section manager_data.
Context (callback : Type).

(* src: mielin-mesh/wire/src/ack.rs 534-537 PendingDelivery *)
Record PendingDelivery : Type := mkDelivery { message : PendingMessage; on_delivery : option callback }.

(* src: mielin-mesh/wire/src/ack.rs 540-545 AckManager *)
Record AckManager : Type := mkManager {
  mgr_config : AckConfig;
  mgr_pending : gmap Z PendingDelivery;
  mgr_seen : gmap (Z * NodeBytes) DuplicateEntry;
  mgr_stats : AckStats;
}.
End manager_data.
Arguments mkDelivery {callback}.
Arguments message {callback}.
Arguments on_delivery {callback}.
Arguments mkManager {callback}.
Arguments mgr_config {callback}.
Arguments mgr_pending {callback}.
Arguments mgr_seen {callback}.
Arguments mgr_stats {callback}.

Module AckManager.
Section manager.
Context `{HashOrder} {callback : Type}.
Implicit Types (self : AckManager callback).

(* src: mielin-mesh/wire/src/ack.rs 549-556 AckManager::new *)
Definition new (config : AckConfig) : AckManager callback := mkManager config ∅ ∅ AckStats.default.

Definition len (p : gmap Z (PendingDelivery callback)) : Z := Z.of_nat (size p).

(* src: mielin-mesh/wire/src/ack.rs 559-585 AckManager::send_with_callback *)
Definition send_with_callback (COUNTER now : Z) (destination : NodeBytes) (payload : list Z) (cb : callback) self
    : outcome (result Z AckError * AckManager callback * Z) :=
  if max_pending (mgr_config self) <=? len (mgr_pending self) then Ret (Err TooManyPending, self, COUNTER) else
  let '(id, COUNTER) := generate COUNTER in
  let! p := PendingMessage.new now id destination payload (initial_timeout_us (mgr_config self)) in
  let m := <[id := mkDelivery p (Some cb)]> (mgr_pending self) in
  let! sent := usize_add (messages_sent (mgr_stats self)) 1 in
  Ret (Ok id, mkManager (mgr_config self) m (mgr_seen self) (AckStats.set_pending_count (len m) (AckStats.set_sent sent (mgr_stats self))), COUNTER).

(** [callback.take()], called with the result: what is called. *)
Definition call (d : PendingDelivery callback) (r : AckResult) : list (callback * AckResult) :=
  match on_delivery d with Some cb => [(cb, r)] | None => [] end.

(* src: mielin-mesh/wire/src/ack.rs 588-618 AckManager::process_ack *)
Definition process_ack (now : Z) (ack : Acknowledgment) self : outcome (list (callback * AckResult) * AckManager callback) :=
  match mgr_pending self !! ack_message_id ack with
  | Some d =>
    let m := delete (ack_message_id ack) (mgr_pending self) in
    let rtt := saturating_sub now (sent_at_us (message d)) in
    let! s := AckStats.record_ack rtt (len m) (mgr_stats self) in
    let! (r, s) :=
      if success ack then Ret (AckAcknowledged rtt, s)
      else let! f := usize_add (delivery_failures s) 1 in Ret (AckRejected (error ack), AckStats.set_failures f s) in
    Ret (call d r, mkManager (mgr_config self) m (mgr_seen self) s)
  | None => Ret ([], self)
  end.

(* src: mielin-mesh/wire/src/ack.rs 621-639 AckManager::is_duplicate *)
Definition is_duplicate (now : Z) (id : Z) (sender : NodeBytes) self : outcome (bool * AckManager callback) :=
  let key := (id, sender) in
  let! s := AckTracker.all_fresh now (duplicate_window_us (mgr_config self)) (hash_list (mgr_seen self)) (mgr_seen self) in
  match s !! key with
  | None => Ret (false, mkManager (mgr_config self) (mgr_pending self) (<[key := mkDuplicate now]> s) (mgr_stats self))
  | Some _ =>
    let! d := usize_add (duplicates_detected (mgr_stats self)) 1 in
    Ret (true, mkManager (mgr_config self) (mgr_pending self) s (AckStats.set_duplicates d (mgr_stats self)))
  end.

(** What the first loop of [process_retries] works on. *)
Record scan : Type := mkScan {
  sc_pending : gmap Z (PendingDelivery callback);
  sc_stats : AckStats;
  to_retry : list (Z * NodeBytes * list Z);
  to_remove : list Z;
}.

(* src: mielin-mesh/wire/src/ack.rs 647-664 AckManager::process_retries (loop body) *)
Definition scan_one (cfg : AckConfig) (now : Z) (st : scan) (id : Z) (d : PendingDelivery callback) : outcome scan :=
  let p := message d in
  if PendingMessage.is_timed_out p now then
    if max_retries cfg <=? retry_count p then Ret (mkScan (sc_pending st) (sc_stats st) (to_retry st) (to_remove st ++ [id]))
    else
      let! n := u32_add (retry_count p) 1 in
      let! timeout_at := usize_add now (AckConfig.timeout_for_retry cfg n) in
      let! r := usize_add (retries (sc_stats st)) 1 in
      Ret (mkScan (<[id := mkDelivery (PendingMessage.set_retry n timeout_at p) (on_delivery d)]> (sc_pending st))
             (AckStats.set_retries r (sc_stats st)) (to_retry st ++ [(id, destination p, payload p)]) (to_remove st))
  else Ret st.

Fixpoint scan_loop (cfg : AckConfig) (now : Z) (l : list (Z * PendingDelivery callback)) (st : scan) : outcome scan :=
  match l with
  | [] => Ret st
  | (id, d) :: l' => let! st := scan_one cfg now st id d in scan_loop cfg now l' st
  end.

(** "Max retries exceeded". *)
Definition max_retries_exceeded : list Z := [77; 97; 120; 32; 114; 101; 116; 114; 105; 101; 115; 32; 101; 120; 99; 101; 101; 100; 101; 100].

(* src: mielin-mesh/wire/src/ack.rs 667-676 AckManager::process_retries (failures) *)
Fixpoint fail_loop (ids : list Z) (m : gmap Z (PendingDelivery callback)) (s : AckStats) (calls : list (callback * AckResult))
    : outcome (gmap Z (PendingDelivery callback) * AckStats * list (callback * AckResult)) :=
  match ids with
  | [] => Ret (m, s, calls)
  | id :: ids' =>
    match m !! id with
    | Some d =>
      let! f := usize_add (delivery_failures s) 1 in
      fail_loop ids' (delete id m) (AckStats.set_failures f s) (calls ++ call d (AckRejected (Some max_retries_exceeded)))
    | None => fail_loop ids' m s calls
    end
  end.

(* src: mielin-mesh/wire/src/ack.rs 642-680 AckManager::process_retries *)
Definition process_retries (now : Z) self : outcome (list (Z * NodeBytes * list Z) * list (callback * AckResult) * AckManager callback) :=
  let! st := scan_loop (mgr_config self) now (hash_list (mgr_pending self)) (mkScan (mgr_pending self) (mgr_stats self) [] []) in
  let! (m, s, calls) := fail_loop (to_remove st) (sc_pending st) (sc_stats st) [] in
  Ret (to_retry st, calls, mkManager (mgr_config self) m (mgr_seen self) (AckStats.set_pending_count (len m) s)).

End manager.
End AckManager.
