(* ===== verification/AckProps.v ===== *)
(** * Acknowledgement: what the operations keep

    Duplicate detection against the history of what was received, one poll of the
    retries key by key, and the life of one message. *)

From stdpp Require Import base tactics option list numbers gmap.
From Stdlib Require Import SpecFloat.
From S2P Require Import Prelude Float Hash Ack.

(** ** Duplicates *)

(** A reception: when, what, and whether it was taken for a
    duplicate. *)
Abbreviation reception := (Z * (Z * NodeBytes) * bool)%type.

Section duplicates.
Context `{HashOrderLaws}.
Implicit Types (k : Z * NodeBytes) (e : DuplicateEntry).

(** Whether a key is listed with an entry that is too old. *)
Definition stale (now w : Z) (l : list ((Z * NodeBytes) * DuplicateEntry)) k : bool :=
  existsb (λ ke, bool_decide (ke.1 = k) && (w <=? now - received_at_us ke.2)) l.

Lemma all_fresh_lookup (now w : Z) l : ∀ acc,
  Forall (λ ke, 0 <= now - received_at_us ke.2 <= U64_MAX) l →
  returns (AckTracker.all_fresh now w l acc) (λ s, ∀ k, s !! k = if stale now w l k then None else acc !! k).
Proof.
  induction l as [|[k e] l IH]; intros acc Hl; [done|]. apply Forall_cons in Hl as [He Hl]. simpl in He. cbn [AckTracker.all_fresh].
  rewrite usize_sub_ok by lia. cbn [obind]. eapply returns_mono; [by apply IH|]. cbn beta. intros s Hs k'. rewrite Hs. unfold stale. cbn [existsb fst snd].
  fold (stale now w l k'). destruct (stale now w l k'); [by rewrite orb_true_r|]. rewrite orb_false_r.
  destruct (Z.ltb_spec (now - received_at_us e) w), (Z.leb_spec w (now - received_at_us e)), (bool_decide_reflect (k = k')) as [->|]; try lia; simpl; try done.
  - apply lookup_delete_eq.
  - by apply lookup_delete_ne.
Qed.

Lemma stale_seen (now w : Z) (s : gmap (Z * NodeBytes) DuplicateEntry) k :
  stale now w (hash_list s) k = match s !! k with Some e => w <=? now - received_at_us e | None => false end.
Proof.
  apply eq_bool_prop_intro. unfold stale. rewrite !Is_true_true, existsb_exists. split.
  - intros ([k' e] & Hin%list_elem_of_In%elem_of_hash_list & [Hk%bool_decide_eq_true Hw]%andb_true_iff). simpl in *. subst. by rewrite Hin.
  - destruct (s !! k) as [e|] eqn:E; [|done]. intros Hw. exists (k, e). split; [by apply list_elem_of_In, elem_of_hash_list|]. simpl. by rewrite bool_decide_eq_true_2.
Qed.

(** The entries that are still in the window stay. *)
Lemma clean_seen (now w : Z) (s : gmap (Z * NodeBytes) DuplicateEntry) :
  map_Forall (λ _ e, 0 <= now - received_at_us e <= U64_MAX) s →
  returns (AckTracker.all_fresh now w (hash_list s) s) (λ s', ∀ k,
    s' !! k = match s !! k with Some e => if now - received_at_us e <? w then Some e else None | None => None end).
Proof.
  intros Hs. eapply returns_mono; [apply all_fresh_lookup; apply Forall_forall; intros [k' e] Hin%elem_of_hash_list; by eapply Hs|].
  cbn beta. intros s' Hs' k. rewrite Hs', stale_seen. destruct (s !! k) as [e|]; [|done].
  destruct (Z.leb_spec w (now - received_at_us e)), (Z.ltb_spec (now - received_at_us e) w); (done || lia).
Qed.

(** A reception is a duplicate exactly when the same message was accepted less than a
    window before. *)
Fixpoint explained (w : Z) (h : list reception) : Prop :=
  match h with
  | [] => True
  | (t, k, dup) :: h' => (dup = true ↔ ∃ t0, (t0, k, false) ∈ h' ∧ t - t0 < w) ∧ explained w h'
  end.

(** The table of what was seen, after a history that ended at [t]. *)
Record seen_ok (w t : Z) (h : list reception) (s : gmap (Z * NodeBytes) DuplicateEntry) : Prop := {
  seen_listed k e : s !! k = Some e → (received_at_us e, k, false) ∈ h;
  seen_last k e t0 : s !! k = Some e → (t0, k, false) ∈ h → t0 <= received_at_us e;
  seen_gone k t0 : s !! k = None → (t0, k, false) ∈ h → w <= t - t0;
  seen_past t0 k b : (t0, k, b) ∈ h → 0 <= t0 <= t;
}.

Lemma is_duplicate_ok t now id sender h (self : AckTracker) :
  seen_ok (duplicate_window_us (config self)) t h (seen self) → 0 <= t <= now → now <= U64_MAX →
  0 <= duplicates_detected (stats self) < U64_MAX →
  returns (AckTracker.is_duplicate now id sender self) (λ '(dup, self'),
    config self' = config self ∧ pending self' = pending self ∧
    (dup = true ↔ ∃ t0, (t0, (id, sender), false) ∈ h ∧ now - t0 < duplicate_window_us (config self)) ∧
    seen_ok (duplicate_window_us (config self)) now ((now, (id, sender), dup) :: h) (seen self') ∧
    stats self' = AckStats.set_duplicates (duplicates_detected (stats self) + if dup then 1 else 0) (stats self)).
Proof.
  intros [Hl Hla Hg Hp] Ht Hn Hd. set (w := duplicate_window_us (config self)) in *. unfold AckTracker.is_duplicate, AckTracker.clean_duplicates. fold w.
  pose proof (clean_seen now w (seen self)) as Hc. destruct (AckTracker.all_fresh _ _ _ _) as [s'| |];
    try (exfalso; apply Hc; intros k e He; apply Hl, Hp in He; lia).
  simpl in Hc. assert (∀ k, s' !! k = match seen self !! k with Some e => if now - received_at_us e <? w then Some e else None | None => None end) as Hs'
    by (apply Hc; intros k e He; apply Hl, Hp in He; lia). clear Hc. cbn [obind seen AckTracker.set_seen stats].
  assert (∀ k, s' !! k = None → ∀ t0, (t0, k, false) ∈ h → w <= now - t0) as Hnone.
  { intros k Hk t0 Ht0. rewrite Hs' in Hk. destruct (seen self !! k) as [e|] eqn:E; [|specialize (Hg k t0 E Ht0); lia].
    specialize (Hla k e t0 E Ht0). destruct (Z.ltb_spec (now - received_at_us e) w); [done|lia]. }
  assert (∀ k e, s' !! k = Some e → seen self !! k = Some e ∧ now - received_at_us e < w) as Hsome.
  { intros k e Hk. rewrite Hs' in Hk. destruct (seen self !! k) as [e'|]; [|done]. destruct (Z.ltb_spec (now - received_at_us e') w); [|done]. by injection Hk as ->. }
  destruct (s' !! (id, sender)) as [e|] eqn:E; cbn [obind].
  - rewrite usize_add_ok by lia. cbn [obind returns]. destruct (Hsome _ _ E) as [E' Hw]. split_and!; [done|done| | |done].
    + split; [|done]. intros _. exists (received_at_us e). split; [by apply Hl|done].
    + split; cbn [seen AckTracker.set_seen AckTracker.set_stats].
      * intros k e' He'. right. apply Hl. by apply Hsome.
      * intros k e' t0 He' [?|Hin]%elem_of_cons; [done|]. eapply Hla; [by apply Hsome|done].
      * intros k t0 Hk [?|Hin]%elem_of_cons; [done|]. by apply (Hnone k).
      * intros t0 k b [[= -> -> ->]|Hin]%elem_of_cons; [lia|]. apply Hp in Hin. lia.
  - split_and!; [done|done| | |by rewrite Z.add_0_r; destruct self as [? ? ? []]].
    + split; [done|]. intros (t0 & Hin & Hw). specialize (Hnone _ E t0 Hin). lia.
    + split; cbn [seen AckTracker.set_seen].
      * intros k e'. destruct (decide (k = (id, sender))) as [->|]; [rewrite lookup_insert_eq; intros [= <-]; left|].
        rewrite lookup_insert_ne by done. intros He'. right. apply Hl. by apply Hsome.
      * intros k e' t0. destruct (decide (k = (id, sender))) as [->|Hne].
        -- rewrite lookup_insert_eq. intros [= <-] [[= ->]|Hin]%elem_of_cons; simpl; [done|]. apply Hp in Hin. lia.
        -- rewrite lookup_insert_ne by done. intros He' [[= _ ->]|Hin]%elem_of_cons; [done|]. eapply Hla; [by apply Hsome|done].
      * intros k t0. destruct (decide (k = (id, sender))) as [->|Hne]; [by rewrite lookup_insert_eq|].
        rewrite lookup_insert_ne by done. intros Hk [[= _ ->]|Hin]%elem_of_cons; [done|]. by apply (Hnone k).
      * intros t0 k b [[= -> -> ->]|Hin]%elem_of_cons; [lia|]. apply Hp in Hin. lia.
Qed.
End duplicates.

(** ** One poll *)

Section poll.
Context `{HashOrderLaws} (cfg : AckConfig) (now : Z).
Implicit Types (p : PendingMessage) (m : gmap Z PendingMessage).

(** The configuration fits the integers, with room to add a time. *)
Definition config_ok : Prop :=
  0 <= initial_timeout_us cfg <= 2 ^ 60 ∧ 0 <= max_timeout_us cfg <= 2 ^ 60 ∧ 0 <= max_retries cfg < U32_MAX ∧ 0 <= max_pending cfg.

Definition gives_up p : bool := PendingMessage.is_timed_out p now && (max_retries cfg <=? retry_count p).
Definition is_retried p : bool := PendingMessage.is_timed_out p now && (retry_count p <? max_retries cfg).

(** An entry after the loop, and what the loop does about it. *)
Definition polled p : PendingMessage :=
  if gives_up p then PendingMessage.set_status Failed p
  else if is_retried p then PendingMessage.set_retry (retry_count p + 1) (now + AckConfig.timeout_for_retry cfg (retry_count p + 1)) p
  else p.
Definition poll_action p : option (RetryAction) :=
  if gives_up p then Some (GiveUp (message_id p) (destination p) (retry_count p + 1))
  else if is_retried p then Some (Retry (message_id p) (destination p) (payload p) (retry_count p + 1))
  else None.

Lemma timeout_for_retry_max n : 0 <= max_timeout_us cfg → AckConfig.timeout_for_retry cfg n <= max_timeout_us cfg.
Proof. unfold AckConfig.timeout_for_retry. lia. Qed.

Lemma timeout_for_retry_range n : config_ok → 0 <= AckConfig.timeout_for_retry cfg n <= 2 ^ 60.
Proof.
  intros (_ & ? & _). unfold AckConfig.timeout_for_retry. set (t := f64_as_usize _).
  assert (0 <= t); [|lia]. unfold t, f64_as_usize, clamp_usize. destruct (f64_mul _ _) as [|[]| |s mm ee]; lia.
Qed.

(** Statistics during a poll that has looked at [n] entries. *)
Definition poll_stats (n : Z) (s s' : AckStats) : Prop :=
  ∃ f r, s' = AckStats.set_failures f (AckStats.set_retries r s) ∧
    delivery_failures s <= f <= delivery_failures s + n ∧ retries s <= r <= retries s + n.

Lemma retry_one_ok id p st :
  config_ok → 0 <= now <= 2 ^ 60 → AckTracker.rs_pending st !! id = Some p → message_id p = id → 0 <= retry_count p <= max_retries cfg →
  0 <= delivery_failures (AckTracker.rs_stats st) < U64_MAX → 0 <= retries (AckTracker.rs_stats st) < U64_MAX →
  returns (AckTracker.retry_one cfg now id st) (λ st',
    AckTracker.rs_pending st' = <[id := polled p]> (AckTracker.rs_pending st) ∧ AckTracker.rs_actions st' = AckTracker.rs_actions st ++ option_list (poll_action p) ∧ poll_stats 1 (AckTracker.rs_stats st) (AckTracker.rs_stats st')).
Proof.
  intros Hc Hn Hp Hid Hr Hf Hre. unfold AckTracker.retry_one. rewrite Hp. unfold polled, poll_action, gives_up, is_retried. rewrite Hid.
  pose proof (timeout_for_retry_range (retry_count p + 1) Hc) as Ht. destruct Hc as (_ & _ & Hm & _).
  destruct (PendingMessage.is_timed_out p now); cbn [andb].
  - destruct (Z.leb_spec (max_retries cfg) (retry_count p)) as [Hge|Hlt].
    + rewrite u32_add_ok by lia. cbn [obind]. rewrite usize_add_ok by lia. cbn [obind returns AckTracker.rs_pending AckTracker.rs_actions AckTracker.rs_stats]. split_and!; [done|done|].
      exists (delivery_failures (AckTracker.rs_stats st) + 1), (retries (AckTracker.rs_stats st)). split; [by destruct (AckTracker.rs_stats st)|lia].
    + rewrite u32_add_ok by lia. cbn [obind]. rewrite usize_add_ok by lia. cbn [obind]. rewrite usize_add_ok by lia.
      destruct (Z.ltb_spec (retry_count p) (max_retries cfg)); [|lia]. cbn [obind returns AckTracker.rs_pending AckTracker.rs_actions AckTracker.rs_stats]. split_and!; [done|done|].
      exists (delivery_failures (AckTracker.rs_stats st)), (retries (AckTracker.rs_stats st) + 1). split; [by destruct (AckTracker.rs_stats st)|lia].
  - cbn [returns]. split_and!; [by rewrite insert_id|by rewrite app_nil_r|]. exists (delivery_failures (AckTracker.rs_stats st)), (retries (AckTracker.rs_stats st)). split; [by destruct (AckTracker.rs_stats st)|lia].
Qed.

Lemma poll_stats_trans n1 n2 s1 s2 s3 : poll_stats n1 s1 s2 → poll_stats n2 s2 s3 → poll_stats (n1 + n2) s1 s3.
Proof. intros (f & r & -> & ? & ?) (f' & r' & -> & ? & ?). simpl in *. exists f', r'. split; [by destruct s1|lia]. Qed.

Lemma retry_loop_ok ids : ∀ st,
  config_ok → 0 <= now <= 2 ^ 60 → NoDup ids →
  (∀ id, id ∈ ids → ∃ p, AckTracker.rs_pending st !! id = Some p ∧ message_id p = id ∧ 0 <= retry_count p <= max_retries cfg) →
  0 <= delivery_failures (AckTracker.rs_stats st) → delivery_failures (AckTracker.rs_stats st) + Z.of_nat (length ids) <= U64_MAX →
  0 <= retries (AckTracker.rs_stats st) → retries (AckTracker.rs_stats st) + Z.of_nat (length ids) <= U64_MAX →
  returns (AckTracker.retry_loop cfg now ids st) (λ st',
    (∀ id, AckTracker.rs_pending st' !! id = if decide (id ∈ ids) then polled <$> AckTracker.rs_pending st !! id else AckTracker.rs_pending st !! id) ∧
    AckTracker.rs_actions st' = AckTracker.rs_actions st ++ omap (λ id, AckTracker.rs_pending st !! id ≫= poll_action) ids ∧
    poll_stats (Z.of_nat (length ids)) (AckTracker.rs_stats st) (AckTracker.rs_stats st')).
Proof.
  induction ids as [|id ids IH]; intros st Hc Hn Hnd Hids Hf0 Hf Hr0 Hr; cbn [AckTracker.retry_loop].
  - split_and!; [|by rewrite app_nil_r|exists (delivery_failures (AckTracker.rs_stats st)), (retries (AckTracker.rs_stats st)); split; [by destruct (AckTracker.rs_stats st)|lia]].
    intros id. rewrite decide_False; [done|]. by intros ?%elem_of_nil.
  - apply NoDup_cons in Hnd as [Hni Hnd]. simpl length in *. destruct (Hids id ltac:(left)) as (p & Ep & Hid & Hrc).
    pose proof (retry_one_ok id p st Hc Hn Ep Hid Hrc ltac:(lia) ltac:(lia)) as H1. destruct (AckTracker.retry_one cfg now id st) as [st1| |]; [|done..].
    destruct H1 as (E1 & E2 & E3). cbn [obind]. pose proof E3 as (f & r & Es & Hfb & Hrb).
    assert (∀ id', id' ∈ ids → AckTracker.rs_pending st1 !! id' = AckTracker.rs_pending st !! id') as Hsame by (intros id' ?; rewrite E1; apply lookup_insert_ne; by intros ->).
    eapply returns_mono; [apply IH; [done|done|done| |rewrite Es; simpl; lia..]|].
    { intros id' Hin. rewrite (Hsame id' Hin). apply Hids. by right. }
    cbn beta. intros st' (F1 & F2 & F3). split_and!.
    + intros id'. rewrite F1. destruct (decide (id' ∈ ids)) as [Hin|Hin].
      * rewrite decide_True, Hsame; [done|done|by right].
      * rewrite E1. destruct (decide (id' = id)) as [->|Hne]; [by rewrite lookup_insert_eq, decide_True, Ep by left|].
        rewrite lookup_insert_ne, decide_False; [done| |done]. set_solver.
    + rewrite F2, E2, <-app_assoc. f_equal. cbn [omap list_omap]. rewrite Ep. cbn [mbind option_bind].
      rewrite (list_omap_ext _ (λ id, AckTracker.rs_pending st !! id ≫= poll_action) ids ids); [by destruct (poll_action p)|].
      apply Forall2_same_length_lookup_2; [done|]. intros i x y Hx Hy. rewrite Hx in Hy. injection Hy as ->. rewrite Hsame; [done|]. by eapply list_elem_of_lookup_2.
    + replace (Z.of_nat (S (length ids))) with (1 + Z.of_nat (length ids)) by lia. by eapply poll_stats_trans.
Qed.
End poll.

Lemma size_le_lookup {A B} (m1 : gmap Z A) (m2 : gmap Z B) : (∀ k, is_Some (m1 !! k) → is_Some (m2 !! k)) → (size m1 <= size m2)%nat.
Proof. intros Hk. rewrite <-!size_dom. apply subseteq_size. intros k. rewrite !elem_of_dom. apply Hk. Qed.

Section poll_all.
Context `{HashOrderLaws}.

(** A pending message, when [c] is the next identifier and [t] the time. *)
Definition pending_ok (cfg : AckConfig) (c t : Z) (id : Z) (p : PendingMessage) : Prop :=
  message_id p = id ∧ 1 <= id < c ∧ status p = Pending ∧ 0 <= retry_count p <= max_retries cfg ∧ 0 <= sent_at_us p <= t ∧
  timeout_at_us p <= t + Z.max (initial_timeout_us cfg) (max_timeout_us cfg).

Lemma get_retries_ok c t now (self : AckTracker) :
  config_ok (config self) → 0 <= now <= 2 ^ 60 → map_Forall (pending_ok (config self) c t) (pending self) →
  0 <= delivery_failures (stats self) → delivery_failures (stats self) + Z.of_nat (size (pending self)) <= U64_MAX →
  0 <= retries (stats self) → retries (stats self) + Z.of_nat (size (pending self)) <= U64_MAX →
  returns (AckTracker.get_retries now self) (λ '(actions, self'),
    config self' = config self ∧ seen self' = seen self ∧
    (∀ id, pending self' !! id = match pending self !! id with
      | Some p => if gives_up (config self) now p then None else Some (polled (config self) now p) | None => None end) ∧
    actions = omap (λ id, pending self !! id ≫= poll_action (config self) now) (hash_list (pending self)).*1 ∧
    ∃ s', stats self' = AckStats.set_pending_count (Z.of_nat (size (pending self'))) s' ∧ poll_stats (Z.of_nat (size (pending self))) (stats self) s').
Proof.
  intros Hc Hn Hp Hf0 Hf Hr0 Hr. unfold AckTracker.get_retries. set (ids := (hash_list (pending self)).*1).
  assert (length ids = size (pending self)) as Hlen by (unfold ids; rewrite length_fmap, hash_list_perm; apply length_map_to_list).
  assert (∀ id, id ∈ ids ↔ is_Some (pending self !! id)) as Hin.
  { intros id. unfold ids. rewrite list_elem_of_fmap. split; [intros ([? p] & -> & ?%elem_of_hash_list); by eexists|].
    intros [p E]. exists (id, p). split; [done|]. by apply elem_of_hash_list. }
  pose proof (retry_loop_ok (config self) now ids (AckTracker.mkRetryState (pending self) (stats self) []) Hc Hn (NoDup_hash_list _)) as Hl.
  cbn [AckTracker.rs_pending AckTracker.rs_actions AckTracker.rs_stats] in Hl. rewrite Hlen in Hl.
  assert (∀ id, id ∈ ids → ∃ p, pending self !! id = Some p ∧ message_id p = id ∧ 0 <= retry_count p <= max_retries (config self)) as Hids.
  { intros id [p E]%Hin. exists p. by destruct (Hp id p E) as (? & _ & _ & ? & _). }
  specialize (Hl Hids Hf0 Hf Hr0 Hr). destruct (AckTracker.retry_loop _ _ _ _) as [st| |]; [|done..]. destruct Hl as (E1 & E2 & E3). cbn [obind returns].
  split_and!; [done|done| |done|by eexists]. cbn [pending AckTracker.set_pending AckTracker.set_stats]. intros id.
  destruct (pending self !! id) as [p|] eqn:E.
  - specialize (E1 id). rewrite decide_True, E in E1 by (apply Hin; by eexists). destruct (Hp id p E) as (_ & _ & Hs & _).
    destruct (gives_up (config self) now p) eqn:Hg.
    + apply map_lookup_filter_None_2. right. intros p' E'. rewrite E1 in E'. injection E' as <-. unfold polled. rewrite Hg. simpl. by intros [].
    + apply map_lookup_filter_Some_2; [done|]. simpl. unfold polled. rewrite Hg. destruct (is_retried _ _ p); simpl; by rewrite Hs.
  - apply map_lookup_filter_None_2. left. rewrite E1, E. by case_decide.
Qed.
End poll_all.

(** ** The life of a message *)

(** What the user of a tracker sees of one message. *)
Inductive obs : Type := Sent | Retried (attempt : Z) | GaveUp (attempts : Z) | Answered | Dropped.

Inductive life : Type := Fresh | Waiting (retries : Z) | Done.

(** A message is sent, then retried with the attempts numbered from one, and ends once:
    it is answered, dropped, or given up after all its retries. *)
Definition life_step (max : Z) (l : life) (o : obs) : option life :=
  match l, o with
  | Fresh, Sent => Some (Waiting 0)
  | Waiting k, Retried n => if (k <? max) && (n =? k + 1) then Some (Waiting n) else None
  | Waiting k, GaveUp n => if (k =? max) && (n =? max + 1) then Some Done else None
  | Waiting _, (Answered | Dropped) => Some Done
  | _, _ => None
  end.

Fixpoint life_run (max : Z) (l : life) (os : list obs) : option life :=
  match os with
  | [] => Some l
  | o :: os' => match life_step max l o with Some l' => life_run max l' os' | None => None end
  end.

Lemma life_run_app max l os os' : life_run max l (os ++ os') = match life_run max l os with Some l' => life_run max l' os' | None => None end.
Proof. revert l. induction os as [|o os IH]; intros l; simpl; [done|]. by destruct (life_step max l o). Qed.

(** What is seen of the message [id]. *)
Definition of_id (id : Z) (os : list (Z * obs)) : list obs := omap (λ io, if decide (io.1 = id) then Some io.2 else None) os.

Lemma of_id_app id os os' : of_id id (os ++ os') = of_id id os ++ of_id id os'.
Proof. unfold of_id. by rewrite omap_app. Qed.

Lemma of_id_one id id' o : of_id id [(id', o)] = if decide (id' = id) then [o] else [].
Proof. unfold of_id. simpl. by case_decide. Qed.

Definition obs_of_action (a : RetryAction) : Z * obs :=
  match a with Retry id _ _ n => (id, Retried n) | GiveUp id _ n => (id, GaveUp n) end.

Section life.
Context `{HashOrderLaws}.

(** How the message [id] stands, when [c] is the next identifier. *)
Definition life_of (c : Z) (m : gmap Z PendingMessage) (id : Z) : life :=
  match m !! id with
  | Some p => Waiting (retry_count p)
  | None => if id <? c then Done else Fresh
  end.

(** Of the actions of a poll, those on one message. *)
Lemma of_id_actions cfg now (m : gmap Z PendingMessage) id :
  (∀ i p, m !! i = Some p → message_id p = i) →
  of_id id (obs_of_action <$> omap (λ i, m !! i ≫= poll_action cfg now) (hash_list m).*1) =
  option_list (m !! id ≫= λ p, (obs_of_action <$> poll_action cfg now p) ≫= λ io, Some io.2).
Proof.
  intros Hid. assert (∀ i p a, m !! i = Some p → poll_action cfg now p = Some a → (obs_of_action a).1 = i) as Ha.
  { intros i p a E Ea. specialize (Hid i p E). unfold poll_action in Ea. destruct (gives_up cfg now p), (is_retried cfg now p); simplify_eq/=; done. }
  assert (∀ ids, NoDup ids → of_id id (obs_of_action <$> omap (λ i, m !! i ≫= poll_action cfg now) ids) =
    if decide (id ∈ ids) then option_list (m !! id ≫= λ p, (obs_of_action <$> poll_action cfg now p) ≫= λ io, Some io.2) else []) as Hids.
  { induction ids as [|i ids IH]; intros Hnd; [done|]. apply NoDup_cons in Hnd as [Hi Hnd]. specialize (IH Hnd). cbn [omap list_omap].
    destruct (m !! i) as [p|] eqn:E; cbn [mbind option_bind].
    - destruct (poll_action cfg now p) as [a|] eqn:Ea.
      + cbn [fmap list_fmap]. change (of_id id (?x :: ?l)) with (of_id id ([x] ++ l)). rewrite of_id_app, IH.
        destruct (obs_of_action a) as [i' o] eqn:Eo. rewrite of_id_one. pose proof (Ha i p a E Ea) as Hi'. rewrite Eo in Hi'. simpl in Hi'. subst i'.
        destruct (decide (i = id)) as [->|Hne].
        * rewrite decide_False, decide_True by (done || by left). rewrite E. cbn. rewrite Ea. cbn. by rewrite Eo.
        * destruct (decide (id ∈ ids)), (decide (id ∈ i :: ids)); try done; set_solver.
      + rewrite IH. destruct (decide (i = id)) as [->|Hne].
        * rewrite decide_False, decide_True by (done || by left). rewrite E. cbn. by rewrite Ea.
        * destruct (decide (id ∈ ids)), (decide (id ∈ i :: ids)); try done; set_solver.
    - rewrite IH. destruct (decide (i = id)) as [->|Hne].
      + rewrite decide_False, decide_True by (done || by left). by rewrite E.
      + destruct (decide (id ∈ ids)), (decide (id ∈ i :: ids)); try done; set_solver. }
  rewrite Hids by apply NoDup_hash_list. case_decide as Hin; [done|]. destruct (m !! id) as [p|] eqn:E; [|done].
  destruct Hin. apply list_elem_of_fmap. exists (id, p). split; [done|]. by apply elem_of_hash_list.
Qed.
End life.

(** * Acknowledgement: theorems *)

From Stdlib Require Import SpecFloat.

Section tracker.
Context `{HashOrderLaws}.
Implicit Types (self : AckTracker).

(** ** Histories *)

Inductive event : Type :=
| Register (now : Z) (destination : NodeBytes) (payload : list Z)
| ProcessAck (now : Z) (ack : Acknowledgment)
| Poll (now : Z)
| Cancel (id : Z)
| Expire (id : Z)
| Receive (now : Z) (id : Z) (sender : NodeBytes).

(** The state of a history: what was seen of the messages, what was received (the last
    first), the tracker and the static counter. *)
Record history : Type := mkHistory { seen_obs : list (Z * obs); received : list reception; tracker : AckTracker; COUNTER : Z }.

Definition dropped (id : Z) (r : bool * AckTracker) (s : history) : history :=
  mkHistory (seen_obs s ++ if r.1 then [(id, Dropped)] else []) (received s) r.2 (COUNTER s).

Definition event_step (s : history) (e : event) : outcome history :=
  match e with
  | Register now dst pl =>
    let! (r, tr, c) := AckTracker.register (COUNTER s) now dst pl (tracker s) in
    Ret (mkHistory (seen_obs s ++ match r with Ok id => [(id, Sent)] | Err _ => [] end) (received s) tr c)
  | ProcessAck now ack =>
    let! (r, tr) := AckTracker.process_ack now ack (tracker s) in
    Ret (mkHistory (seen_obs s ++ match r with AckUnknown => [] | _ => [(ack_message_id ack, Answered)] end) (received s) tr (COUNTER s))
  | Poll now =>
    let! (actions, tr) := AckTracker.get_retries now (tracker s) in
    Ret (mkHistory (seen_obs s ++ (obs_of_action <$> actions)) (received s) tr (COUNTER s))
  | Cancel id => Ret (dropped id (AckTracker.cancel id (tracker s)) s)
  | Expire id => Ret (dropped id (AckTracker.expire id (tracker s)) s)
  | Receive now id sender =>
    let! (dup, tr) := AckTracker.is_duplicate now id sender (tracker s) in
    Ret (mkHistory (seen_obs s) ((now, (id, sender), dup) :: received s) tr (COUNTER s))
  end.

Fixpoint event_run (s : history) (es : list event) : outcome history :=
  match es with
  | [] => Ret s
  | e :: es' => let! s' := event_step s e in event_run s' es'
  end.

Definition start (cfg : AckConfig) : history := mkHistory [] [] (AckTracker.new cfg) 1.

(** The clock does not go back, and is below 2^60 (in microseconds). *)
Definition event_time (t : Z) (e : event) : Z :=
  match e with Register now _ _ | ProcessAck now _ | Poll now | Receive now _ _ => now | Cancel _ | Expire _ => t end.

Fixpoint ordered (t : Z) (es : list event) : Prop :=
  match es with
  | [] => True
  | e :: es' => t <= event_time t e <= 2 ^ 60 ∧ ordered (event_time t e) es'
  end.

(** What holds at the time [t] after [b] events. *)
Record history_ok (cfg : AckConfig) (b t : Z) (s : history) : Prop := {
  h_config : config (tracker s) = cfg;
  h_counter : 1 <= COUNTER s <= b + 1;
  h_pending : map_Forall (pending_ok cfg (COUNTER s) t) (pending (tracker s));
  h_bound : Z.of_nat (size (pending (tracker s))) <= max_pending cfg;
  h_size : Z.of_nat (size (pending (tracker s))) <= b;
  h_count : pending_count (stats (tracker s)) = Z.of_nat (size (pending (tracker s)));
  h_seen : seen_ok (duplicate_window_us cfg) t (received s) (seen (tracker s));
  h_explained : explained (duplicate_window_us cfg) (received s);
  h_life id : 1 <= id → life_run (max_retries cfg) Fresh (of_id id (seen_obs s)) = Some (life_of (COUNTER s) (pending (tracker s)) id);
  h_sent : 0 <= messages_sent (stats (tracker s)) <= b;
  h_acks : 0 <= acks_received (stats (tracker s)) <= b;
  h_dups : 0 <= duplicates_detected (stats (tracker s)) <= b;
  h_failures : 0 <= delivery_failures (stats (tracker s)) <= b * b;
  h_retries : 0 <= retries (stats (tracker s)) <= b * b;
  h_rtt : 0 <= avg_rtt_us (stats (tracker s)) <= 2 ^ 60;
}.

Lemma start_ok cfg : config_ok cfg → history_ok cfg 0 0 (start cfg).
Proof.
  intros (_ & _ & _ & Hm). split; simpl; rewrite ?map_size_empty; try done; try lia.
  - split; simpl; intros; try by (rewrite lookup_empty in *).
    all: by match goal with Hin : _ ∈ [] |- _ => apply elem_of_nil in Hin end.
  - intros id Hid. unfold life_of. rewrite lookup_empty. destruct (Z.ltb_spec id 1); [lia|done].
Qed.

Lemma pending_ok_mono cfg c c' t t' id p : c <= c' → t <= t' → pending_ok cfg c t id p → pending_ok cfg c' t' id p.
Proof. intros Hc Ht (? & ? & ? & ? & ? & ?). split_and!; (done || lia). Qed.

Lemma seen_ok_mono w t t' h s : t <= t' → seen_ok w t h s → seen_ok w t' h s.
Proof. intros Ht [Ha Hb Hc Hd]. split; [done|done| |]; [intros k t0 Hk Hin; specialize (Hc k t0 Hk Hin); lia|intros t0 k b Hin; specialize (Hd t0 k b Hin); lia]. Qed.

(** The life of the other messages is not touched. *)
Lemma life_extend max os os' (l l' : life) id :
  life_run max Fresh (of_id id os) = Some l → life_run max l (of_id id os') = Some l' →
  life_run max Fresh (of_id id (os ++ os')) = Some l'.
Proof. intros E E'. by rewrite of_id_app, life_run_app, E. Qed.

(** *** One event *)

Lemma removed_ok cfg b t s s' id (o : obs) (st : AckStats) :
  history_ok cfg b t s → is_Some (pending (tracker s) !! id) → (o = Answered ∨ o = Dropped) →
  s' = mkHistory (seen_obs s ++ [(id, o)]) (received s)
    (mkTracker (config (tracker s)) (delete id (pending (tracker s))) (seen (tracker s)) st) (COUNTER s) →
  pending_count st = Z.of_nat (size (delete id (pending (tracker s)))) →
  0 <= messages_sent st <= b + 1 → 0 <= acks_received st <= b + 1 → 0 <= duplicates_detected st <= b + 1 →
  0 <= delivery_failures st <= b * b + 1 → 0 <= retries st <= b * b → 0 <= avg_rtt_us st <= 2 ^ 60 →
  history_ok cfg (b + 1) t s'.
Proof.
  intros Hs [p Hp] Ho -> Hcnt ? ? ? ? ? ?. destruct Hs as [Hcfg Hc Hpend Hb Hsz _ Hseen Hex Hl _ _ _ _ _ _].
  assert (size (delete id (pending (tracker s))) <= size (pending (tracker s)))%nat as Hle by (apply map_subseteq_size, delete_subseteq).
  split; simpl; try (done || lia); try nia.
  - intros i q [_ E]%lookup_delete_Some. by apply Hpend.
  - intros i Hi. destruct (Hpend id p Hp) as (_ & Hid & _). eapply life_extend; [by apply Hl|]. rewrite of_id_one. unfold life_of. case_decide as E.
    + subst i. rewrite Hp, lookup_delete_eq. simpl. destruct (Z.ltb_spec id (COUNTER s)); [|lia]. by destruct Ho as [->| ->].
    + by rewrite lookup_delete_ne.
Qed.

(** Nothing happened. *)
Lemma unchanged_ok cfg b t t' s s' :
  history_ok cfg b t s → t <= t' → s' = mkHistory (seen_obs s ++ []) (received s) (tracker s) (COUNTER s) → history_ok cfg (b + 1) t' s'.
Proof.
  intros Hs Ht ->. rewrite app_nil_r. destruct Hs as [Hcfg Hc Hpend Hb Hsz Hcnt Hseen Hex Hl ? ? ? ? ? ?]. split; simpl; try (done || lia); try nia.
  - intros i q E. eapply pending_ok_mono; [..|by apply Hpend]; lia.
  - by eapply seen_ok_mono.
Qed.

Lemma pending_drop_ok cfg b t s id r :
  history_ok cfg b t s → r = AckTracker.cancel id (tracker s) ∨ r = AckTracker.expire id (tracker s) → history_ok cfg (b + 1) t (dropped id r s).
Proof.
  intros Hs Hr. unfold dropped, AckTracker.cancel, AckTracker.expire in *. destruct (pending (tracker s) !! id) as [p|] eqn:E.
  - assert (r = (true, mkTracker (config (tracker s)) (delete id (pending (tracker s))) (seen (tracker s))
      (AckStats.set_pending_count (Z.of_nat (size (delete id (pending (tracker s))))) (stats (tracker s))))) as ->.
    { destruct Hr as [-> | ->]; [done|]. unfold AckTracker.set_pending, AckTracker.set_stats, AckTracker.len. simpl. by rewrite delete_insert_eq. }
    destruct Hs as [] eqn:Ehs. eapply (removed_ok cfg b t s _ id Dropped); [done|by eexists|by right|done|done|..]; simpl; lia.
  - assert (r = (false, tracker s)) as -> by by destruct Hr as [-> | ->]. by eapply unchanged_ok.
Qed.

Lemma register_ok cfg b t now dst pl s :
  config_ok cfg → history_ok cfg b t s → 0 <= b < 2 ^ 31 → 0 <= t <= now → now <= 2 ^ 60 →
  returns (event_step s (Register now dst pl)) (history_ok cfg (b + 1) now).
Proof.
  intros Hcf Hs Hb Ht Hn. cbn [event_step]. unfold AckTracker.register. destruct (Z.leb_spec (max_pending (config (tracker s))) (AckTracker.len (pending (tracker s)))) as [|Hlt].
  { cbn [obind returns]. eapply (unchanged_ok cfg b t); [done|lia|done]. }
  destruct Hs as [Hcfg Hc Hpend Hbd Hsz _ Hseen Hex Hl ? ? ? ? ? ?]. rewrite Hcfg in *. unfold generate, PendingMessage.new. destruct Hcf as (Hi & _ & Hmr & _).
  rewrite wrap64_small by lia. rewrite usize_add_ok by lia. cbn [obind]. rewrite usize_add_ok by (simpl; lia). cbn [obind returns]. unfold AckTracker.len in *.
  assert (pending (tracker s) !! COUNTER s = None) as Hfresh.
  { destruct (pending (tracker s) !! COUNTER s) as [p|] eqn:E; [|done]. destruct (Hpend _ p E) as (_ & ? & _). lia. }
  set (p := mkPending _ _ _ _ _ _ _). assert (Z.of_nat (size (<[COUNTER s := p]> (pending (tracker s)))) = Z.of_nat (size (pending (tracker s))) + 1) as Esz.
  { rewrite map_size_insert_None by done. lia. }
  split; cbn [seen_obs received tracker COUNTER config pending seen stats AckTracker.set_stats AckTracker.set_pending
    AckStats.set_pending_count AckStats.set_sent pending_count messages_sent acks_received delivery_failures retries duplicates_detected avg_rtt_us]; try (done || lia); try nia.
  - apply map_Forall_insert_2; [split_and!; simpl; (done || lia)|]. intros i q E. eapply pending_ok_mono; [..|by apply Hpend]; lia.
  - by eapply seen_ok_mono; [|done]; lia.
  - intros i Hi1. eapply life_extend; [by apply Hl|]. rewrite of_id_one. unfold life_of. case_decide as E.
    + subst i. rewrite Hfresh, lookup_insert_eq, Z.ltb_irrefl. done.
    + rewrite lookup_insert_ne by done. destruct (pending (tracker s) !! i); [done|]. simpl.
      destruct (Z.ltb_spec i (COUNTER s)), (Z.ltb_spec i (COUNTER s + 1)); (done || lia).
Qed.

Lemma process_ack_ok cfg b t now ack s :
  history_ok cfg b t s → 0 <= b < 2 ^ 31 → 0 <= t <= now → now <= 2 ^ 60 →
  returns (event_step s (ProcessAck now ack)) (history_ok cfg (b + 1) now).
Proof.
  intros Hs Hb Ht Hn. assert (b * b < 2 ^ 62) by nia. cbn [event_step]. unfold AckTracker.process_ack. destruct (pending (tracker s) !! ack_message_id ack) as [p|] eqn:E;
    [|cbn [obind returns]; eapply (unchanged_ok cfg b t); [done|lia|done]].
  assert (history_ok cfg b now s) as Hs'.
  { destruct Hs as [Hcfg Hc Hpend ? ? ? Hseen ? ? ? ? ? ? ? ?]. split; try done; [|by eapply seen_ok_mono; [|done]; lia].
    intros i q Eq. eapply pending_ok_mono; [..|by apply Hpend]; lia. }
  assert (0 <= saturating_sub now (sent_at_us p) <= 2 ^ 60) as Hrtt.
  { destruct Hs as [_ _ Hpend]. destruct (Hpend _ p E) as (_ & _ & _ & _ & ? & _). unfold saturating_sub. lia. }
  set (rtt := saturating_sub now (sent_at_us p)) in *. unfold AckStats.record_ack. cbn [stats AckTracker.set_pending pending].
  assert (∃ avg, (if acks_received (stats (tracker s)) =? 0 then Ret rtt
    else let! m := usize_mul (avg_rtt_us (stats (tracker s))) 7 in let! sum := usize_add m rtt in Ret (sum / 8)) = Ret avg ∧ 0 <= avg <= 2 ^ 60) as (avg & -> & Havg).
  { destruct Hs. destruct (_ =? 0); [by exists rtt|]. rewrite usize_mul_ok by lia. cbn [obind]. rewrite usize_add_ok by lia. eexists. split; [done|]. Z.div_mod_to_equations. lia. }
  destruct Hs' as [] eqn:Ehs. cbn [obind]. rewrite usize_add_ok by lia. cbn [obind]. destruct (success ack).
  - cbn [obind returns]. eapply (removed_ok cfg b now s _ (ack_message_id ack) Answered); [done|by eexists|by left|done|done|..]; simpl; lia.
  - rewrite usize_add_ok by (simpl; lia). cbn [obind returns].
    eapply (removed_ok cfg b now s _ (ack_message_id ack) Answered); [done|by eexists|by left|done|done|..]; simpl; lia.
Qed.

Lemma poll_ok cfg b t now s :
  config_ok cfg → history_ok cfg b t s → 0 <= b < 2 ^ 31 → 0 <= t <= now → now <= 2 ^ 60 →
  returns (event_step s (Poll now)) (history_ok cfg (b + 1) now).
Proof.
  intros Hcf Hs Hb Ht Hn. assert (b * b < 2 ^ 62) by nia. destruct Hs as [Hcfg Hc Hpend Hbd Hsz _ Hseen Hex Hl ? ? ? ? ? ?]. cbn [event_step].
  pose proof (get_retries_ok (COUNTER s) t now (tracker s)) as Hg. rewrite Hcfg in Hg. specialize (Hg Hcf ltac:(lia) Hpend ltac:(lia) ltac:(lia) ltac:(lia) ltac:(lia)).
  destruct (AckTracker.get_retries now (tracker s)) as [[actions tr]| |]; [|done..]. destruct Hg as (E1 & E2 & E3 & -> & st & E5 & (f & r & -> & Hf & Hr)). cbn [obind returns].
  assert (size (pending tr) <= size (pending (tracker s)))%nat as Hle.
  { apply size_le_lookup. intros k [p Hp]. rewrite E3 in Hp. destruct (pending (tracker s) !! k); [by eexists|done]. }
  assert (∀ p, retry_count (polled cfg now p) = if is_retried cfg now p && negb (gives_up cfg now p) then retry_count p + 1 else retry_count p) as Hrc.
  { intros p. unfold polled. by destruct (gives_up cfg now p), (is_retried cfg now p). }
  split; cbn [seen_obs received tracker COUNTER]; rewrite ?E5, ?E2; simpl; try (done || lia); try nia.
  - intros i q Eq. rewrite E3 in Eq. destruct (pending (tracker s) !! i) as [p|] eqn:Ep; [|done]. destruct (Hpend i p Ep) as (? & ? & Hst & ? & ? & ?). pose proof (timeout_for_retry_max cfg (retry_count p + 1) ltac:(apply Hcf)).
    destruct (gives_up cfg now p) eqn:Hgu; [done|]. injection Eq as <-. unfold polled. rewrite Hgu. destruct (is_retried cfg now p) eqn:Hre; [|split_and!; (done || lia)].
    unfold is_retried in Hre. apply andb_true_iff in Hre as [_ Hre%Z.ltb_lt]. split_and!; simpl; (done || lia).
  - by eapply seen_ok_mono; [|done]; lia.
  - intros i Hi. eapply life_extend; [by apply Hl|]. rewrite of_id_actions by (intros j p Ep; by destruct (Hpend j p Ep)). unfold life_of. rewrite E3.
    destruct (pending (tracker s) !! i) as [p|] eqn:Ep; [|done]. destruct (Hpend i p Ep) as (_ & ? & _ & ? & _). cbn [mbind option_bind]. specialize (Hrc p). unfold poll_action.
    destruct (gives_up cfg now p) eqn:Hgu; simpl.
    + unfold gives_up in Hgu. apply andb_true_iff in Hgu as [_ Hgu%Z.leb_le]. destruct (Z.eqb_spec (retry_count p) (max_retries cfg)); [|lia].
      destruct (Z.eqb_spec (retry_count p + 1) (max_retries cfg + 1)); [|lia]. simpl. by destruct (Z.ltb_spec i (COUNTER s)); [|lia].
    + rewrite Hrc. clear Hrc. destruct (is_retried cfg now p) eqn:Hre; [|done]. unfold is_retried in Hre. apply andb_true_iff in Hre as [_ Hre].
      simpl. by rewrite Hre, Z.eqb_refl.
Qed.

Lemma receive_ok cfg b t now id sender s :
  history_ok cfg b t s → 0 <= b < 2 ^ 31 → 0 <= t <= now → now <= 2 ^ 60 →
  returns (event_step s (Receive now id sender)) (history_ok cfg (b + 1) now).
Proof.
  intros Hs Hb Ht Hn. destruct Hs as [Hcfg Hc Hpend Hbd Hsz Hcnt Hseen Hex Hl ? ? ? ? ? ?]. cbn [event_step].
  pose proof (is_duplicate_ok t now id sender (received s) (tracker s)) as Hd. rewrite Hcfg in Hd. specialize (Hd Hseen Ht ltac:(lia) ltac:(lia)).
  destruct (AckTracker.is_duplicate now id sender (tracker s)) as [[dup tr]| |]; [|done..]. destruct Hd as (E1 & E2 & Hdup & Hseen' & E5). cbn [obind returns].
  split; cbn [seen_obs received tracker COUNTER]; rewrite ?E1, ?E2, ?E5; simpl; try (done || lia); try nia.
  - intros i q E. eapply pending_ok_mono; [..|by apply Hpend]; lia.
  - destruct dup; lia.
Qed.

Lemma event_step_ok cfg b t e s :
  config_ok cfg → history_ok cfg b t s → 0 <= b < 2 ^ 31 → 0 <= t <= event_time t e → event_time t e <= 2 ^ 60 →
  returns (event_step s e) (history_ok cfg (b + 1) (event_time t e)).
Proof.
  intros Hcf Hs Hb Ht Hn. destruct e; simpl in Ht, Hn.
  - by eapply register_ok.
  - by eapply process_ack_ok.
  - by eapply poll_ok.
  - simpl. apply pending_drop_ok; auto.
  - simpl. apply pending_drop_ok; auto.
  - by eapply receive_ok.
Qed.

Lemma event_run_ok cfg es : ∀ b t s,
  config_ok cfg → history_ok cfg b t s → 0 <= b → b + Z.of_nat (length es) <= 2 ^ 31 → 0 <= t → ordered t es →
  ∃ t', returns (event_run s es) (history_ok cfg (b + Z.of_nat (length es)) t').
Proof.
  induction es as [|e es IH]; intros b t s Hcf Hs Hb Hl Ht Ho; simpl; [exists t; by rewrite Z.add_0_r|]. simpl length in Hl. destruct Ho as [Ht' Ho].
  pose proof (event_step_ok cfg b t e s Hcf Hs ltac:(lia) ltac:(lia) ltac:(lia)) as He. destruct (event_step s e) as [s'| |]; [|done..].
  destruct (IH (b + 1) _ s' Hcf He ltac:(lia) ltac:(lia) ltac:(lia) Ho) as [t' Hr]. exists t'.
  by replace (b + Z.of_nat (S (length es))) with (b + 1 + Z.of_nat (length es)) by lia.
Qed.

(** *** Theorems *)

(** C15. With timeouts and times of at most 2^60 microseconds, a limit of fewer
    than [u32::MAX] retries (with that many a poll panics, [give_up_panics]), a clock
    that does not go back and at most 2^31 events: whatever is registered,
    acknowledged, polled, cancelled, expired and received, no call panics, and every
    message has the life it should have: it is sent once, then retried with the
    attempts numbered from one and at most [max_retries] times, and it ends once,
    answered, dropped, or given up after its last retry; it is in the table of pending
    messages exactly while it waits, and never more messages wait than are allowed. *)
Theorem messages_live_once cfg es :
  config_ok cfg → ordered 0 es → Z.of_nat (length es) <= 2 ^ 31 →
  returns (event_run (start cfg) es) (λ s,
    (∀ id, 1 <= id → life_run (max_retries cfg) Fresh (of_id id (seen_obs s)) = Some (life_of (COUNTER s) (pending (tracker s)) id)) ∧
    Z.of_nat (size (pending (tracker s))) <= max_pending cfg ∧
    pending_count (stats (tracker s)) = Z.of_nat (size (pending (tracker s)))).
Proof.
  intros Hcf Ho Hl. destruct (event_run_ok cfg es 0 0 (start cfg) Hcf (start_ok cfg Hcf) ltac:(lia) Hl ltac:(lia) Ho) as [t' Hr].
  eapply returns_mono; [exact Hr|]. intros s []. auto.
Qed.

(** The receptions of a history. *)
Definition receptions (es : list event) : list (Z * (Z * NodeBytes)) :=
  omap (λ e, match e with Receive now id sender => Some (now, (id, sender)) | _ => None end) es.

Lemma event_run_received es : ∀ s,
  returns (event_run s es) (λ s', (received s').*1 = reverse (receptions es) ++ (received s).*1) ∨ event_run s es = Panic ∨ event_run s es = Timeout.
Proof.
  induction es as [|e es IH]; intros s; [by left|]. cbn [event_run]. destruct (event_step s e) as [s'| |] eqn:E; cbn [obind]; [|tauto..].
  destruct (IH s') as [Hr|]; [left|tauto]. eapply returns_mono; [exact Hr|]. cbn beta. intros s'' ->.
  assert ((received s').*1 = match e with Receive now id sender => [(now, (id, sender))] | _ => [] end ++ (received s).*1) as ->.
  { destruct e; simpl in E; repeat (match type of E with context [obind ?m _] => destruct m as [[]| |] end; cbn [obind] in E); simplify_eq/=; try done.
    destruct p. by simplify_eq/=. }
  destruct e; simpl; try done. by rewrite reverse_cons, <-app_assoc.
Qed.

(** A reception is reported as a duplicate exactly when the same message of the
    same sender was accepted less than a window before; so within a window a message is
    accepted once, and a message that was never accepted is never refused. *)
Theorem duplicates_exact cfg es :
  config_ok cfg → ordered 0 es → Z.of_nat (length es) <= 2 ^ 31 →
  returns (event_run (start cfg) es) (λ s,
    explained (duplicate_window_us cfg) (received s) ∧ (received s).*1 = reverse (receptions es)).
Proof.
  intros Hcf Ho Hl. destruct (event_run_ok cfg es 0 0 (start cfg) Hcf (start_ok cfg Hcf) ltac:(lia) Hl ltac:(lia) Ho) as [t' Hr].
  destruct (event_run_received es (start cfg)) as [Hr'|[E|E]]; [|by rewrite E in Hr..].
  destruct (event_run (start cfg) es) as [s| |]; [|done..]. simpl in *. split; [by destruct Hr|]. by rewrite Hr', app_nil_r.
Qed.

(** ** Polling ends *)

(** Polls that are far enough apart for every time-out to run out in between. *)
Fixpoint spaced (d t : Z) (ts : list Z) : Prop :=
  match ts with
  | [] => True
  | now :: ts' => t + d <= now <= 2 ^ 60 ∧ spaced d now ts'
  end.

Lemma poll_progress cfg b t now k s :
  config_ok cfg → history_ok cfg b t s → 0 <= b < 2 ^ 31 → 0 <= t →
  t + Z.max (initial_timeout_us cfg) (max_timeout_us cfg) <= now <= 2 ^ 60 →
  map_Forall (λ _ p, k <= retry_count p) (pending (tracker s)) →
  returns (event_step s (Poll now)) (λ s', history_ok cfg (b + 1) now s' ∧ map_Forall (λ _ p, k + 1 <= retry_count p) (pending (tracker s'))).
Proof.
  intros Hcf Hs Hb Ht Hn Hk. assert (b * b < 2 ^ 62) by nia. assert (0 <= Z.max (initial_timeout_us cfg) (max_timeout_us cfg)) by (destruct Hcf as (? & _); lia).
  pose proof (poll_ok cfg b t now s Hcf Hs Hb ltac:(lia) ltac:(lia)) as Hp. destruct Hs as [Hcfg Hc Hpend Hbd Hsz _ Hseen Hex Hl ? ? ? ? ? ?]. cbn [event_step] in *.
  pose proof (get_retries_ok (COUNTER s) t now (tracker s)) as Hg. rewrite Hcfg in Hg. specialize (Hg Hcf ltac:(lia) Hpend ltac:(lia) ltac:(lia) ltac:(lia) ltac:(lia)).
  destruct (AckTracker.get_retries now (tracker s)) as [[actions tr]| |]; [|done..]. destruct Hg as (_ & _ & E3 & _ & _). cbn [obind returns] in *. split; [done|].
  cbn [tracker]. intros i q Eq. rewrite E3 in Eq. destruct (pending (tracker s) !! i) as [p|] eqn:Ep; [|done]. destruct (Hpend i p Ep) as (_ & _ & _ & Hrc & _ & Hto).
  destruct (gives_up cfg now p) eqn:Hgu; [done|]. injection Eq as <-. unfold polled. rewrite Hgu. specialize (Hk i p Ep). simpl in Hk.
  assert (PendingMessage.is_timed_out p now = true) as Hti by (apply Z.leb_le; lia). unfold gives_up, is_retried in *. rewrite Hti in *. cbn [andb] in *.
  destruct (Z.leb_spec (max_retries cfg) (retry_count p)); [done|]. destruct (Z.ltb_spec (retry_count p) (max_retries cfg)); [simpl; lia|lia].
Qed.

Lemma polls_progress cfg ts : ∀ b t k s,
  config_ok cfg → history_ok cfg b t s → 0 <= b → b + Z.of_nat (length ts) <= 2 ^ 31 → 0 <= t →
  spaced (Z.max (initial_timeout_us cfg) (max_timeout_us cfg)) t ts →
  map_Forall (λ _ p, k <= retry_count p) (pending (tracker s)) →
  returns (event_run s (Poll <$> ts)) (λ s', ∃ b' t', history_ok cfg b' t' s' ∧ map_Forall (λ _ p, k + Z.of_nat (length ts) <= retry_count p) (pending (tracker s'))).
Proof.
  induction ts as [|now ts IH]; intros b t k s Hcf Hs Hb Hl Ht Hsp Hk; cbn [fmap list_fmap event_run].
  - exists b, t. split; [done|]. intros i p E. specialize (Hk i p E). simpl in *. lia.
  - simpl length in *. destruct Hsp as [Hn Hsp]. pose proof (poll_progress cfg b t now k s Hcf Hs ltac:(lia) Ht Hn Hk) as Hp.
    destruct (event_step s (Poll now)) as [s1| |]; [|done..]. destruct Hp as [Hs1 Hk1]. cbn [obind]. destruct Hcf as (Hi & Hm & Hcf').
    eapply returns_mono; [apply (IH (b + 1) now (k + 1) s1); (done || lia)|]. cbn beta. intros s' (b' & t' & Hs' & Hk'). exists b', t'. split; [done|].
    intros i p E. specialize (Hk' i p E). simpl in *. lia.
Qed.

(** No message waits for ever: after [max_retries] + 1 polls, each at least the
    longest time-out after the one before, nothing that was pending is pending still. *)
Theorem polling_ends cfg b t s ts :
  config_ok cfg → history_ok cfg b t s → 0 <= b → 0 <= t →
  spaced (Z.max (initial_timeout_us cfg) (max_timeout_us cfg)) t ts →
  Z.of_nat (length ts) = max_retries cfg + 1 → b + Z.of_nat (length ts) <= 2 ^ 31 →
  returns (event_run s (Poll <$> ts)) (λ s', pending (tracker s') = ∅).
Proof.
  intros Hcf Hs Hb Ht Hsp Hlen Hl. eapply returns_mono; [apply (polls_progress cfg ts b t 0 s Hcf Hs Hb Hl Ht Hsp)|].
  - intros i p E. destruct Hs as [_ _ Hpend]. by destruct (Hpend i p E) as (_ & _ & _ & [? _] & _).
  - cbn beta. intros s' (b' & t' & Hs' & Hk). apply map_empty. intros i. destruct (pending (tracker s') !! i) as [p|] eqn:E; [|done].
    destruct Hs' as [_ _ Hpend]. destruct (Hpend i p E) as (_ & _ & _ & ? & _). specialize (Hk i p E). simpl in Hk. lia.
Qed.
End tracker.

(** ** Callbacks *)

Section callbacks.
Context `{HashOrderLaws} {callback : Type}.
Implicit Types (m : gmap Z (PendingDelivery callback)).

(** The callbacks that wait. *)
Definition waiting m : list callback := omap (λ kd, on_delivery kd.2) (map_to_list m).

Lemma waiting_insert m id d : m !! id = None → waiting (<[id := d]> m) ≡ₚ option_list (on_delivery d) ++ waiting m.
Proof. intros E. unfold waiting. rewrite (map_to_list_insert m id d E). simpl. by destruct (on_delivery d). Qed.

Lemma waiting_delete m id d : m !! id = Some d → waiting m ≡ₚ option_list (on_delivery d) ++ waiting (delete id m).
Proof. intros E. rewrite <-waiting_insert by apply lookup_delete_eq. by rewrite insert_delete_id. Qed.

Lemma call_list (d : PendingDelivery callback) r : (AckManager.call d r).*1 = option_list (on_delivery d).
Proof. unfold AckManager.call. by destruct (on_delivery d). Qed.

(** The scan changes no callback. *)
Lemma scan_callbacks cfg now l : ∀ st,
  NoDup l.*1 → (∀ id d, (id, d) ∈ l → AckManager.sc_pending st !! id = Some d) →
  ∀ st', AckManager.scan_loop cfg now l st = Ret st' → waiting (AckManager.sc_pending st') ≡ₚ waiting (AckManager.sc_pending st).
Proof.
  induction l as [|[id d] l IH]; intros st Hnd Hl st' E; [by injection E as ->|]. cbn [fmap list_fmap] in Hnd. apply NoDup_cons in Hnd as [Hid Hnd]. cbn [AckManager.scan_loop] in E.
  destruct (AckManager.scan_one cfg now st id d) as [st1| |] eqn:E1; [|done..]. cbn [obind] in E.
  assert (AckManager.sc_pending st1 = AckManager.sc_pending st ∨ ∃ p, AckManager.sc_pending st1 = <[id := mkDelivery p (on_delivery d)]> (AckManager.sc_pending st)) as Hst1.
  { unfold AckManager.scan_one in E1. destruct (PendingMessage.is_timed_out _ _); [|left; congruence]. destruct (_ <=? _); [left; by simplify_eq/=|].
    repeat (match type of E1 with context [obind ?m _] => destruct m end; cbn [obind] in E1; [|done..]). right. simplify_eq/=. by eexists. }
  assert (waiting (AckManager.sc_pending st1) ≡ₚ waiting (AckManager.sc_pending st)) as Hw.
  { destruct Hst1 as [-> |[p ->]]; [done|]. pose proof (Hl id d ltac:(left)) as Ed. rewrite (waiting_delete _ id d Ed).
    rewrite <-insert_delete_eq, waiting_insert by apply lookup_delete_eq. done. }
  rewrite <-Hw. apply (IH st1); [done| |done]. intros id' d' Hin. assert (id' ≠ id) as Hne by (intros ->; apply Hid; apply list_elem_of_fmap; by exists (id, d')).
  destruct Hst1 as [-> |[p ->]]; [apply Hl; by right|]. rewrite lookup_insert_ne by done. apply Hl. by right.
Qed.

Lemma fail_callbacks ids : ∀ m s calls m' s' calls',
  AckManager.fail_loop ids m s calls = Ret (m', s', calls') → calls.*1 ++ waiting m ≡ₚ calls'.*1 ++ waiting m'.
Proof.
  induction ids as [|id ids IH]; intros m s calls m' s' calls' E; cbn [AckManager.fail_loop] in E; [by injection E as <- <- <-|].
  destruct (m !! id) as [d|] eqn:Ed; [|by eapply IH]. destruct (usize_add _ _); [|done..]. cbn [obind] in E. apply IH in E. rewrite <-E.
  rewrite fmap_app, call_list, <-app_assoc, (waiting_delete m id d Ed). done.
Qed.

(** A poll of the manager loses no callback and calls none twice: those that waited are
    those it calls and those that wait still. *)
Lemma process_retries_callbacks now (self self' : AckManager callback) to_retry calls :
  AckManager.process_retries now self = Ret (to_retry, calls, self') →
  waiting (mgr_pending self) ≡ₚ calls.*1 ++ waiting (mgr_pending self').
Proof.
  unfold AckManager.process_retries. destruct (AckManager.scan_loop _ _ _ _) as [st| |] eqn:E1; [|done..]. cbn [obind].
  destruct (AckManager.fail_loop _ _ _ _) as [[[m s] calls']| |] eqn:E2; [|done..]. cbn [obind]. intros [= <- <- <-]. simpl.
  apply fail_callbacks in E2. simpl in E2. rewrite <-E2. symmetry. apply (scan_callbacks _ _ _ _ (NoDup_hash_list _)) in E1; [done|].
  intros id d Hin. by apply elem_of_hash_list.
Qed.

(** So does an acknowledgement. *)
Lemma process_ack_callbacks now ack (self self' : AckManager callback) calls :
  AckManager.process_ack now ack self = Ret (calls, self') →
  waiting (mgr_pending self) ≡ₚ calls.*1 ++ waiting (mgr_pending self').
Proof.
  unfold AckManager.process_ack. destruct (mgr_pending self !! _) as [d|] eqn:E; [|by intros [= <- <-]].
  destruct (AckStats.record_ack _ _ _); [|done..]. cbn [obind].
  destruct (if success ack then _ else _) as [[r s]| |]; [|done..]. cbn [obind]. intros [= <- <-]. simpl. by rewrite call_list, (waiting_delete _ _ d E).
Qed.
End callbacks.

(** ** Witnesses *)

#[local] Existing Instance sorted_order.
#[local] Existing Instance sorted_order_laws.

Definition small : AckConfig := mkAckConfig 10 20 (f64_of_u64 2) 1 100 2.
Definition small_events : list event :=
  [Register 0 [] [1]; Register 1 [] [2]; Receive 2 7 []; Receive 3 7 []; Poll 10; ProcessAck 12 (Acknowledgment.success 12 1 []); Poll 60; Receive 102 7 []].

Lemma small_ack_ok : config_ok small.
Proof. unfold config_ok. simpl. lia. Qed.

Lemma messages_live_once_witness :
  returns (event_run (start small) small_events) (λ s, Z.of_nat (size (pending (tracker s))) <= 2) ∧
  (let! s := event_run (start small) small_events in Ret (seen_obs s, size (pending (tracker s)))) =
  Ret ([(1, Sent); (2, Sent); (1, Retried 1); (1, Answered); (2, Retried 1)], 1%nat).
Proof.
  split; [|by vm_compute]. eapply returns_mono; [apply (messages_live_once small small_events); [apply small_ack_ok|simpl; lia|simpl; lia]|]. by intros s (_ & Hs & _).
Defined.

Lemma duplicates_exact_witness :
  returns (event_run (start small) small_events) (λ s, explained 100 (received s)) ∧
  (let! s := event_run (start small) small_events in Ret (received s)) = Ret [(102, (7, []), false); (3, (7, []), true); (2, (7, []), false)].
Proof.
  split; [|by vm_compute]. eapply returns_mono; [apply (duplicates_exact small small_events); [apply small_ack_ok|simpl; lia|simpl; lia]|]. by intros s [? _].
Defined.

Lemma polling_ends_witness : returns (event_run (start small) (Poll <$> [20; 40])) (λ s, pending (tracker s) = ∅).
Proof. apply (polling_ends small 0 0 (start small) [20; 40]); [apply small_ack_ok|apply start_ok, small_ack_ok|simpl; lia..]. Defined.

(** ** What was found *)

(** When the retries of one node are due, one after the other, from the first sending. *)
Definition due (cfg : AckConfig) : list Z :=
  (foldl (λ '(ts, t) n, let t' := t + AckConfig.timeout_for_retry cfg (Z.of_nat n) in (ts ++ [t'], t')) ([], 0) (seq 0 (Z.to_nat (max_retries cfg)))).1.

(** With the settings for reliability the last retry leaves later than the receiver
    remembers the first copy, and is accepted as a new message. *)
Lemma reliable_delivers_twice :
  (let cfg := AckConfig.high_reliability in
   let! (_, tr) := AckTracker.is_duplicate 0 1 [] (AckTracker.new cfg) in
   let! (dup, _) := AckTracker.is_duplicate (default 0 (last (due cfg))) 1 [] tr in
   Ret (default 0 (last (due cfg)), dup)) = Ret (162200000, false) ∧
  Forall (λ cfg, default 0 (last (due cfg)) < duplicate_window_us cfg) [AckConfig.default; AckConfig.low_latency; AckConfig.embedded].
Proof. split; [by vm_compute|]. repeat constructor. Qed.

(** A clock that is set back makes the check for duplicates panic. *)
Lemma clock_back_panics :
  (let! (_, tr) := AckTracker.is_duplicate 1000 1 [] (AckTracker.new AckConfig.default) in AckTracker.is_duplicate 999 2 [] tr) = Panic.
Proof. by vm_compute. Qed.

(** With the largest number of retries that can be configured, giving up panics: the
    number of attempts is one more. *)
Lemma give_up_panics :
  let cfg := mkAckConfig 0 0 (f64_of_u64 2) U32_MAX 0 1 in
  let tr := mkTracker cfg {[1 := mkPending 1 [] [] 0 0 U32_MAX Pending]} ∅ AckStats.default in
  AckTracker.get_retries 1 tr = Panic.
Proof. by vm_compute. Qed.
