(* ===== verification/Negotiation.v ===== *)
(** * Protocol versions (mielin-mesh/wire/src/version.rs)

    Versions with their textual form, and the negotiation of a version and of features
    with each peer.  The table of negotiations is behind a lock: a call is the sequence
    of its critical sections.  Strings are lists of bytes. *)

From stdpp Require Import base tactics option list numbers gmap sorting sets.
From S2P Require Import Prelude Bytes.

Abbreviation str := (list Z).

(** ** Versions *)

(* src: mielin-mesh/wire/src/version.rs 11-15 ProtocolVersion *)
Record ProtocolVersion : Type := mkVersion { major : Z; minor : Z; patch : Z }.

#[global] Instance ProtocolVersion_eq_dec : EqDecision ProtocolVersion.
Proof. solve_decision. Defined.

(* src: mielin-mesh/wire/src/version.rs 94-115 ProtocolFeature *)
Inductive ProtocolFeature : Type :=
| BasicMessaging | Compression | PriorityQueues | FlowControl | Acknowledgments
| HealthMonitoring | ProtocolVersioning | WebSocketSupport | SecurityHardening | CustomExtensions.

#[global] Instance ProtocolFeature_eq_dec : EqDecision ProtocolFeature.
Proof. solve_decision. Defined.

(* src: mielin-mesh/wire/src/version.rs 364-379 VersionError *)
Inductive VersionError : Type :=
| InvalidFormat (s : str)
| IncompatibleVersions (ours theirs : list ProtocolVersion)
| FeatureNotSupported (f : ProtocolFeature)
| NegotiationNotFound (peer : str)
| UpgradeFailed (s : str).

(** [u16::from_str]. *)
Definition parse_u16 : str → option Z := parse_uint U16_MAX.

(** A number below 10^fuel in decimal. *)
Fixpoint decimal (fuel : nat) (n : Z) : str :=
  match fuel with
  | O => []
  | S fuel' => if n <? 10 then [48 + n] else decimal fuel' (n / 10) ++ [48 + n mod 10]
  end.

Module ProtocolVersion.

(** [PartialOrd], derived: the fields in their order. *)
Definition lt (a b : ProtocolVersion) : bool :=
  (major a <? major b) || (major a =? major b) && ((minor a <? minor b) || (minor a =? minor b) && (patch a <? patch b)).
Definition le (a b : ProtocolVersion) : bool := negb (lt b a).
(** [std::cmp::min]. *)
Definition min (a b : ProtocolVersion) : ProtocolVersion := if lt b a then b else a.

(* src: mielin-mesh/wire/src/version.rs 28-28 ProtocolVersion::CURRENT *)
Definition CURRENT : ProtocolVersion := mkVersion 0 2 0.
(* src: mielin-mesh/wire/src/version.rs 31-31 ProtocolVersion::MIN_SUPPORTED *)
Definition MIN_SUPPORTED : ProtocolVersion := mkVersion 0 1 0.

(* src: mielin-mesh/wire/src/version.rs 34-47 ProtocolVersion::is_compatible_with *)
Definition is_compatible_with (self other : ProtocolVersion) : bool :=
  if negb (major self =? major other) then false
  else if major self =? 0 then minor self =? minor other
  else true.

(* src: mielin-mesh/wire/src/version.rs 50-63 ProtocolVersion::supports_feature *)
Definition supports_feature (self : ProtocolVersion) (feature : ProtocolFeature) : bool :=
  match feature with
  | BasicMessaging | Compression | PriorityQueues | FlowControl | Acknowledgments | HealthMonitoring => le (mkVersion 0 1 0) self
  | ProtocolVersioning | WebSocketSupport | SecurityHardening | CustomExtensions => le (mkVersion 0 2 0) self
  end.

(* src: mielin-mesh/wire/src/version.rs 66-83 ProtocolVersion::parse *)
Definition parse (s : str) : result ProtocolVersion VersionError :=
  match split_on 46 s with
  | [p0; p1; p2] =>
    match parse_u16 p0 with None => Err (InvalidFormat s) | Some major =>
    match parse_u16 p1 with None => Err (InvalidFormat s) | Some minor =>
    match parse_u16 p2 with None => Err (InvalidFormat s) | Some patch => Ok (mkVersion major minor patch) end end end
  | _ => Err (InvalidFormat s)
  end.

(* src: mielin-mesh/wire/src/version.rs 87-89 ProtocolVersion::fmt *)
Definition to_string (self : ProtocolVersion) : str :=
  decimal 5 (major self) ++ [46] ++ decimal 5 (minor self) ++ [46] ++ decimal 5 (patch self).

End ProtocolVersion.

(** ** Negotiation *)

(* src: mielin-mesh/wire/src/version.rs 119-126 VersionNegotiation *)
Record VersionNegotiation : Type := mkNegotiation {
  supported_versions : list ProtocolVersion;
  supported_features : list ProtocolFeature;
  capabilities : gmap str str;
}.

(* src: mielin-mesh/wire/src/version.rs 192-199 NegotiationResult *)
Record NegotiationResult : Type := mkResult {
  agreed_version : ProtocolVersion;
  enabled_features : list ProtocolFeature;
  upgrade_available : bool;
}.

(* src: mielin-mesh/wire/src/version.rs 203-210 UpgradeRequest *)
Record UpgradeRequest : Type := mkUpgrade { current_version : ProtocolVersion; target_version : ProtocolVersion; reason : str }.

(* src: mielin-mesh/wire/src/version.rs 214-221 UpgradeResponse *)
Record UpgradeResponse : Type := mkUpgradeResponse { accepted : bool; new_version : option ProtocolVersion; error : option str }.

Module VersionNegotiation.

(* src: mielin-mesh/wire/src/version.rs 130-147 VersionNegotiation::current *)
Definition current : VersionNegotiation :=
  mkNegotiation [ProtocolVersion.CURRENT; mkVersion 0 1 0]
    [BasicMessaging; Compression; PriorityQueues; FlowControl; Acknowledgments; HealthMonitoring;
     ProtocolVersioning; WebSocketSupport; SecurityHardening; CustomExtensions] ∅.

(* src: mielin-mesh/wire/src/version.rs 150-153 VersionNegotiation::with_capability *)
Definition with_capability (key value : str) (self : VersionNegotiation) : VersionNegotiation :=
  mkNegotiation (supported_versions self) (supported_features self) (<[key := value]> (capabilities self)).

(** The two loops: the first of our versions that is compatible with one of theirs, with
    the first such. *)
Fixpoint first_compatible (ours theirs : list ProtocolVersion) : option (ProtocolVersion * ProtocolVersion) :=
  match ours with
  | [] => None
  | our_version :: ours' =>
    match List.find (ProtocolVersion.is_compatible_with our_version) theirs with
    | Some their_version => Some (our_version, their_version)
    | None => first_compatible ours' theirs
    end
  end.

(* src: mielin-mesh/wire/src/version.rs 156-187 VersionNegotiation::negotiate *)
Definition negotiate (self other : VersionNegotiation) : result NegotiationResult VersionError :=
  match first_compatible (supported_versions self) (supported_versions other) with
  | Some (our_version, their_version) =>
    let agreed := ProtocolVersion.min our_version their_version in
    let common := base.filter (λ f, f ∈ supported_features other ∧ ProtocolVersion.supports_feature agreed f = true) (supported_features self) in
    Ok (mkResult agreed common (ProtocolVersion.lt agreed our_version || ProtocolVersion.lt agreed their_version))
  | None => Err (IncompatibleVersions (supported_versions self) (supported_versions other))
  end.

End VersionNegotiation.

(* src: mielin-mesh/wire/src/version.rs 224-229 VersionNegotiator *)
Record VersionNegotiator : Type := mkNegotiator {
  negotiation : VersionNegotiation;
  active_negotiations : gmap str NegotiationResult;
}.

Module VersionNegotiator.
Implicit Types (self : VersionNegotiator).

(* src: mielin-mesh/wire/src/version.rs 233-238 VersionNegotiator::new *)
Definition new : VersionNegotiator := mkNegotiator VersionNegotiation.current ∅.

(* src: mielin-mesh/wire/src/version.rs 241-246 VersionNegotiator::with_negotiation *)
Definition with_negotiation (n : VersionNegotiation) : VersionNegotiator := mkNegotiator n ∅.

Definition set_active (a : gmap str NegotiationResult) self : VersionNegotiator := mkNegotiator (negotiation self) a.

(* src: mielin-mesh/wire/src/version.rs 254-266 VersionNegotiator::negotiate_with_peer *)
Definition negotiate_with_peer (peer_id : str) (peer : VersionNegotiation) self : result NegotiationResult VersionError * VersionNegotiator :=
  match VersionNegotiation.negotiate (negotiation self) peer with
  | Ok r => (Ok r, set_active (<[peer_id := r]> (active_negotiations self)) self)
  | Err e => (Err e, self)
  end.

(* src: mielin-mesh/wire/src/version.rs 269-272 VersionNegotiator::get_peer_negotiation *)
Definition get_peer_negotiation (peer_id : str) self : option NegotiationResult := active_negotiations self !! peer_id.

(* src: mielin-mesh/wire/src/version.rs 275-286 VersionNegotiator::is_feature_enabled *)
Definition is_feature_enabled (peer_id : str) (feature : ProtocolFeature) self : result bool VersionError :=
  match active_negotiations self !! peer_id with
  | Some r => Ok (bool_decide (feature ∈ enabled_features r))
  | None => Err (NegotiationNotFound peer_id)
  end.

(* src: mielin-mesh/wire/src/version.rs 289-300 VersionNegotiator::create_upgrade_request *)
Definition create_upgrade_request (current target : ProtocolVersion) (reason : str) : UpgradeRequest := mkUpgrade current target reason.

(** "Target version " and " not supported"; "No active negotiation found". *)
Definition msg_target : str := [84;97;114;103;101;116;32;118;101;114;115;105;111;110;32].
Definition msg_not_supported : str := [32;110;111;116;32;115;117;112;112;111;114;116;101;100].
Definition msg_no_negotiation : str := [78;111;32;97;99;116;105;118;101;32;110;101;103;111;116;105;97;116;105;111;110;32;102;111;117;110;100].

(** The checks, under the lock for reading: the refusal, if there is one. *)
(* src: mielin-mesh/wire/src/version.rs 308-332 VersionNegotiator::handle_upgrade_request (checks) *)
Definition upgrade_check (peer_id : str) (request : UpgradeRequest) self : option UpgradeResponse :=
  if decide (target_version request ∈ supported_versions (negotiation self)) then
    match active_negotiations self !! peer_id with
    | Some _ => None
    | None => Some (mkUpgradeResponse false None (Some msg_no_negotiation))
    end
  else Some (mkUpgradeResponse false None (Some (msg_target ++ ProtocolVersion.to_string (target_version request) ++ msg_not_supported))).

(** The change, under the lock for writing. *)
(* src: mielin-mesh/wire/src/version.rs 335-346 VersionNegotiator::handle_upgrade_request (change) *)
Definition upgrade_apply (peer_id : str) (request : UpgradeRequest) self : UpgradeResponse * VersionNegotiator :=
  (mkUpgradeResponse true (Some (target_version request)) None,
   match active_negotiations self !! peer_id with
   | Some r => set_active (<[peer_id := mkResult (target_version request) (enabled_features r) false]> (active_negotiations self)) self
   | None => self
   end).

(* src: mielin-mesh/wire/src/version.rs 303-347 VersionNegotiator::handle_upgrade_request *)
Definition handle_upgrade_request (peer_id : str) (request : UpgradeRequest) self : UpgradeResponse * VersionNegotiator :=
  match upgrade_check peer_id request self with
  | Some refusal => (refusal, self)
  | None => upgrade_apply peer_id request self
  end.

(* src: mielin-mesh/wire/src/version.rs 350-353 VersionNegotiator::remove_peer *)
Definition remove_peer (peer_id : str) self : VersionNegotiator := set_active (delete peer_id (active_negotiations self)) self.

End VersionNegotiator.

(** * Messages of the wire protocol (mielin-mesh/wire/src/lib.rs)

    The messages, the envelope in which a message is routed over several hops, and the
    errors.  A single-precision number is kept as its bits; the serialization of
    messages is done by a third-party crate and is not modelled. *)

Abbreviation node_id := (list Z).

(* src: mielin-mesh/wire/src/lib.rs 96-105 WireError *)
Inductive WireError : Type :=
| ConnectionFailed (s : str)
| SerializationError (s : str)
| TransportError (s : str)
| InvalidInput (s : str).

(* src: mielin-mesh/wire/src/lib.rs 178-182 NodeRole *)
Inductive NodeRole : Type := Edge | Relay | Core.

(* src: mielin-mesh/wire/src/lib.rs 185-189 PeerDescriptor *)
Record PeerDescriptor : Type := mkDescriptor { descriptor_id : node_id; descriptor_address : str; descriptor_latency_ms : option Z }.

(* src: mielin-mesh/wire/src/websocket.rs 363-372 UpgradeReason *)
Inductive UpgradeReason : Type := QuicNotSupported | ProxyTraversal | BrowserClient | ManualFallback.

(* src: mielin-mesh/wire/src/websocket.rs 352-359 UpgradeToWebSocket *)
Record UpgradeToWebSocket : Type := mkToWebSocket { connection_id : str; websocket_url : str; upgrade_reason : UpgradeReason }.

(* src: mielin-mesh/wire/src/websocket.rs 376-383 UpgradeResponse *)
Record WebSocketResponse : Type := mkWebSocketResponse { ws_accepted : bool; ws_url : option str; ws_error : option str }.

(* src: mielin-mesh/wire/src/lib.rs 108-175 Message *)
Inductive Message : Type :=
| Ping (timestamp : Z)
| Pong (timestamp latency_ms : Z)
| AgentMigration (agent_id : node_id) (snapshot : list Z) (priority : Z)
| MigrationAck (agent_id : node_id) (success : bool) (error_msg : option str)
| Discovery (id : node_id) (role : NodeRole) (capabilities : list str)
| DiscoveryResponse (id : node_id) (peers : list PeerDescriptor)
| LoadInfo (cpu_usage memory_usage : Z) (active_agents : Z)
| AgentQuery (agent_id : node_id)
| RoutedMessage (source destination : node_id) (ttl hop_count : Z) (payload : Message)
| VersionNegotiationRequest (n : VersionNegotiation)
| VersionNegotiationResponse (r : result NegotiationResult str)
| ProtocolUpgrade (request : UpgradeRequest)
| ProtocolUpgradeResponse (response : UpgradeResponse)
| WebSocketUpgrade (upgrade : UpgradeToWebSocket)
| WebSocketUpgradeResponse (response : WebSocketResponse).

Module Message.

(* src: mielin-mesh/wire/src/lib.rs 203-209 Message::is_critical *)
Fixpoint is_critical (self : Message) : bool :=
  match self with
  | AgentMigration _ _ _ => true
  | RoutedMessage _ _ _ _ payload => is_critical payload
  | _ => false
  end.

(* src: mielin-mesh/wire/src/lib.rs 211-217 Message::requires_ack *)
Fixpoint requires_ack (self : Message) : bool :=
  match self with
  | AgentMigration _ _ _ | Discovery _ _ _ => true
  | RoutedMessage _ _ _ _ payload => requires_ack payload
  | _ => false
  end.

(* src: mielin-mesh/wire/src/lib.rs 220-228 Message::route *)
Definition route (source destination : node_id) (self : Message) : Message := RoutedMessage source destination 16 0 self.

(** "TTL expired" and "Not a routed message". *)
Definition msg_expired : str := [84;84;76;32;101;120;112;105;114;101;100].
Definition msg_not_routed : str := [78;111;116;32;97;32;114;111;117;116;101;100;32;109;101;115;115;97;103;101].

(* src: mielin-mesh/wire/src/lib.rs 231-244 Message::forward *)
Definition forward (self : Message) : outcome (result unit WireError * Message) :=
  match self with
  | RoutedMessage source destination ttl hop_count payload =>
    if ttl =? 0 then Ret (Err (TransportError msg_expired), self)
    else
      let! ttl := checked U8_MAX (ttl - 1) in
      let! hop_count := u8_add hop_count 1 in
      Ret (Ok (), RoutedMessage source destination ttl hop_count payload)
  | _ => Ret (Err (TransportError msg_not_routed), self)
  end.

(* src: mielin-mesh/wire/src/lib.rs 247-252 Message::is_for *)
Definition is_for (node : node_id) (self : Message) : bool :=
  match self with
  | RoutedMessage _ destination _ _ _ => bool_decide (destination = node)
  | _ => true
  end.

(* src: mielin-mesh/wire/src/lib.rs 255-260 Message::unwrap_payload *)
Definition unwrap_payload (self : Message) : Message :=
  match self with
  | RoutedMessage _ _ _ _ payload => payload
  | msg => msg
  end.

(** ** Routing over several hops *)

(** Forwarding [n] times in a row; the first refusal ends it. *)
Fixpoint hops (n : nat) (self : Message) : outcome (result unit WireError * Message) :=
  match n with
  | O => Ret (Ok (), self)
  | S n' =>
    let! (r, self') := forward self in
    match r with Ok _ => hops n' self' | Err e => Ret (Err e, self') end
  end.

(** A message that is routed goes over at most sixteen hops, and arrives as it was
    sent. *)
Lemma route_sixteen_hops s d m n :
  returns (hops n (route s d m)) (λ '(r, m'),
    (r = Ok () ↔ (n <= 16)%nat) ∧ unwrap_payload m' = m ∧ is_for d m' = true ∧
    (r = Ok () → m' = RoutedMessage s d (16 - Z.of_nat n) (Z.of_nat n) m)).
Proof.
  assert (∀ n t h, 0 <= t → 0 <= h → t + h <= U8_MAX → returns (hops n (RoutedMessage s d t h m)) (λ '(r, m'),
    (r = Ok () ↔ Z.of_nat n <= t) ∧ unwrap_payload m' = m ∧ is_for d m' = true ∧
    (r = Ok () → m' = RoutedMessage s d (t - Z.of_nat n) (h + Z.of_nat n) m))) as Hk.
  { clear n. induction n as [|n IH]; intros t h Ht Hh Hb; cbn [hops].
    - split_and!; [split; [lia|done]|done|by apply bool_decide_eq_true_2|intros _; f_equal; lia].
    - unfold forward, u8_add. destruct (Z.eqb_spec t 0) as [->|]; cbn [obind].
      + split_and!; [split; [done|lia]|done|by apply bool_decide_eq_true_2|done].
      + rewrite !checked_ok by lia. cbn [obind]. eapply returns_mono; [apply IH; lia|]. intros [r m'] (E1 & E2 & E3 & E4). split_and!; [rewrite E1; lia|done|done|].
        intros ->%E4. f_equal; lia. }
  eapply returns_mono; [apply (Hk n 16 0); lia|]. intros [r m'] (E1 & E2 & E3 & E4). split_and!; try done. rewrite E1. lia.
Qed.

End Message.

(** * Theorems *)

Import ProtocolVersion VersionNegotiation.

(** ** Text *)

Definition is_digit (c : Z) : Prop := 48 <= c <= 57.

Lemma decimal_digits fuel : ∀ n, 0 <= n → Forall is_digit (decimal fuel n).
Proof.
  induction fuel as [|fuel IH]; intros n Hn; simpl; [constructor|]. unfold is_digit. destruct (Z.ltb_spec n 10); [repeat constructor; lia|].
  apply Forall_app. split; [apply IH, Z.div_pos; lia|]. repeat constructor; pose proof (Z.mod_pos_bound n 10); lia.
Qed.

Lemma decimal_not_empty fuel n : decimal (S fuel) n ≠ [].
Proof. simpl. destruct (n <? 10); [done|]. by destruct (decimal fuel (n / 10)). Qed.

Lemma parse_digits_app max a : ∀ acc s, parse_digits max acc (a ++ s) = parse_digits max acc a ≫= λ acc, parse_digits max acc s.
Proof. induction a as [|c a IH]; intros acc s; simpl; [done|]. destruct (between 48 c 57); [|done]. by destruct (_ <=? _). Qed.

Lemma parse_decimal fuel : ∀ n, 0 <= n < 10 ^ Z.of_nat fuel → n <= U16_MAX → parse_digits U16_MAX 0 (decimal fuel n) = Some n.
Proof.
  induction fuel as [|fuel IH]; intros n Hn Hm; [by replace n with 0 by (simpl in Hn; lia)|]. cbn [decimal]. unfold between.
  rewrite Nat2Z.inj_succ, Z.pow_succ_r in Hn by lia.
  assert (∀ acc d, 0 <= d < 10 → acc * 10 + d <= U16_MAX → parse_digits U16_MAX acc [48 + d] = Some (acc * 10 + d)) as Hd.
  { intros acc d Hd Ha. simpl. unfold between. destruct (Z.leb_spec 48 (48 + d)), (Z.leb_spec (48 + d) 57); try lia. cbn [andb].
    replace (48 + d - 48) with d by lia. by destruct (Z.leb_spec (acc * 10 + d) 65535); [|lia]. }
  destruct (Z.ltb_spec n 10); [apply (Hd 0); lia|]. pose proof (Z.div_mod n 10). pose proof (Z.mod_pos_bound n 10).
  rewrite parse_digits_app, IH by (Z.div_mod_to_equations; lia). cbn [mbind option_bind]. rewrite Hd by lia. f_equal. lia.
Qed.

Lemma parse_u16_decimal n : 0 <= n <= U16_MAX → parse_u16 (decimal 5 n) = Some n.
Proof.
  intros Hn. pose proof (decimal_digits 5 n ltac:(lia)) as Hd. pose proof (parse_decimal 5 n ltac:(simpl; lia) ltac:(lia)) as Hp.
  pose proof (decimal_not_empty 4 n). unfold parse_u16, parse_uint. destruct (decimal 5 n) as [|c s]; [done|]. apply Forall_cons in Hd as [Hc _]. unfold is_digit in Hc.
  by destruct (Z.eqb_spec c 43); [lia|].
Qed.

Lemma split_digits l : ∀ s, Forall is_digit l → split_on 46 (l ++ 46 :: s) = l :: split_on 46 s.
Proof.
  induction l as [|c l IH]; intros s Hl; [done|]. apply Forall_cons in Hl as [Hc Hl]. unfold is_digit in Hc. simpl.
  destruct (Z.eqb_spec c 46); [lia|]. by rewrite IH.
Qed.

Lemma split_last l : Forall is_digit l → split_on 46 l = [l].
Proof. induction l as [|c l IH]; intros Hl; [done|]. apply Forall_cons in Hl as [Hc Hl]. unfold is_digit in Hc. simpl. destruct (Z.eqb_spec c 46); [lia|]. by rewrite IH. Qed.

(** The numbers of a version fit in 16 bits. *)
Definition version_ok (v : ProtocolVersion) : Prop := 0 <= major v <= U16_MAX ∧ 0 <= minor v <= U16_MAX ∧ 0 <= patch v <= U16_MAX.

(** A version that is printed is parsed back. *)
Theorem version_text_roundtrip v : version_ok v → parse (to_string v) = Ok v.
Proof.
  intros (H1 & H2 & H3). unfold parse, to_string. cbn [app]. rewrite split_digits by (apply decimal_digits; lia).
  rewrite split_digits, split_last by (apply decimal_digits; lia). rewrite !parse_u16_decimal by done. by destruct v.
Qed.

Lemma version_text_roundtrip_witness : parse (to_string (mkVersion 0 10 65535)) = Ok (mkVersion 0 10 65535).
Proof. apply (version_text_roundtrip (mkVersion 0 10 65535)). unfold version_ok. simpl. lia. Defined.

(** ** Order and compatibility *)

Lemma lt_irrefl v : lt v v = false.
Proof. unfold lt. by rewrite !Z.ltb_irrefl, !Z.eqb_refl. Qed.

Lemma lt_spec a b : lt a b = true ↔ major a < major b ∨ major a = major b ∧ (minor a < minor b ∨ minor a = minor b ∧ patch a < patch b).
Proof. unfold lt. rewrite !orb_true_iff, !andb_true_iff, !orb_true_iff, !andb_true_iff, !Z.ltb_lt, !Z.eqb_eq. done. Qed.

Lemma lt_total a b : lt a b = false → lt b a = false → a = b.
Proof.
  intros H1 H2. assert (¬ lt a b = true ∧ ¬ lt b a = true) as [N1 N2] by by rewrite H1, H2. rewrite lt_spec in N1, N2. destruct a, b; simpl in *. f_equal; lia.
Qed.

Lemma compatible_spec a b : is_compatible_with a b = true ↔ major a = major b ∧ (major a = 0 → minor a = minor b).
Proof.
  unfold is_compatible_with. destruct (Z.eqb_spec (major a) (major b)) as [E|E]; simpl; [|split; [done|lia]].
  destruct (Z.eqb_spec (major a) 0) as [E'|E']; rewrite ?Z.eqb_eq; (split; [|done || lia]); lia.
Qed.

Lemma compatible_sym a b : is_compatible_with a b = is_compatible_with b a.
Proof. apply eq_bool_prop_intro. rewrite !Is_true_true, !compatible_spec. lia. Qed.

Lemma min_comm a b : min a b = min b a.
Proof.
  unfold min. destruct (lt b a) eqn:E1, (lt a b) eqn:E2; try done; [|by apply lt_total].
  apply lt_spec in E1, E2. lia.
Qed.

(** ** Negotiation *)

Lemma find_split {A} (f : A → bool) l x :
  List.find f l = Some x ↔ ∃ l1 l2, l = l1 ++ x :: l2 ∧ f x = true ∧ Forall (λ y, f y = false) l1.
Proof.
  split.
  - induction l as [|y l IH]; [done|]. simpl. destruct (f y) eqn:E; [intros [= ->]; exists [], l; by repeat constructor|].
    intros (l1 & l2 & -> & Hx & Hl)%IH. exists (y :: l1), l2. split_and!; [done|done|]. by constructor.
  - intros (l1 & l2 & -> & Hx & Hl). induction Hl as [|y l1 Hy Hl IH]; simpl; [by rewrite Hx|by rewrite Hy].
Qed.

Lemma find_none {A} (f : A → bool) l : List.find f l = None ↔ Forall (λ y, f y = false) l.
Proof.
  induction l as [|y l IH]; [done|]. simpl. rewrite Forall_cons. destruct (f y) eqn:E; [split; [done|by intros []]|]. rewrite IH. tauto.
Qed.

Lemma first_compatible_split A B o t :
  first_compatible A B = Some (o, t) ↔
  ∃ A1 A2 B1 B2, A = A1 ++ o :: A2 ∧ B = B1 ++ t :: B2 ∧ is_compatible_with o t = true ∧
    Forall (λ a, Forall (λ b, is_compatible_with a b = false) B) A1 ∧ Forall (λ b, is_compatible_with o b = false) B1.
Proof.
  split.
  - induction A as [|a A IH]; [done|]. simpl. destruct (List.find _ B) as [t'|] eqn:E.
    + intros [= -> ->]. apply find_split in E as (B1 & B2 & -> & Ht & HB). exists [], A, B1, B2. by repeat constructor.
    + intros (A1 & A2 & B1 & B2 & -> & -> & Hc & HA & HB)%IH. exists (a :: A1), A2, B1, B2. split_and!; try done. constructor; [by apply find_none|done].
  - intros (A1 & A2 & B1 & B2 & -> & -> & Hc & HA & HB). induction HA as [|a A1 Ha HA IH]; simpl.
    + assert (List.find (is_compatible_with o) (B1 ++ t :: B2) = Some t) as -> by (apply find_split; eauto). done.
    + apply find_none in Ha. by rewrite Ha.
Qed.

Lemma first_compatible_none A B :
  first_compatible A B = None ↔ Forall (λ a, Forall (λ b, is_compatible_with a b = false) B) A.
Proof.
  induction A as [|a A IH]; [done|]. simpl. rewrite Forall_cons. destruct (List.find _ B) as [t|] eqn:E.
  - split; [done|]. intros [Ha _]. apply find_none in Ha. congruence.
  - apply find_none in E. rewrite IH. tauto.
Qed.

(** What is negotiated: the first of our versions that is compatible with any of
    theirs, lowered to the first of theirs that is compatible with it; the features that
    both sides offer and that version has; and the negotiation fails exactly when no
    version of one side is compatible with one of the other. *)
Theorem negotiate_spec a b :
  match negotiate a b with
  | Ok r => ∃ o t, o ∈ supported_versions a ∧ t ∈ supported_versions b ∧ is_compatible_with o t = true ∧
      agreed_version r = min o t ∧ le (agreed_version r) o = true ∧ le (agreed_version r) t = true ∧
      (upgrade_available r = true ↔ o ≠ t) ∧
      ∀ f, f ∈ enabled_features r ↔ f ∈ supported_features a ∧ f ∈ supported_features b ∧ supports_feature (agreed_version r) f = true
  | Err e => e = IncompatibleVersions (supported_versions a) (supported_versions b) ∧
      ∀ o t, o ∈ supported_versions a → t ∈ supported_versions b → is_compatible_with o t = false
  end.
Proof.
  unfold negotiate. destruct (first_compatible _ _) as [[o t]|] eqn:E.
  - apply first_compatible_split in E as (A1 & A2 & B1 & B2 & -> & -> & Hc & _ & _). exists o, t. cbn [agreed_version enabled_features upgrade_available].
    assert (le (min o t) o = true ∧ le (min o t) t = true ∧ (lt (min o t) o || lt (min o t) t = true ↔ o ≠ t)) as (H1 & H2 & H3).
    { unfold le, min. destruct (lt t o) eqn:E; rewrite ?lt_irrefl, ?E; cbn [orb negb].
      - split_and!; [|done|].
        + destruct (lt o t) eqn:E'; [|done]. apply lt_spec in E, E'. lia.
        + split; [|done]. intros _ ->. by rewrite lt_irrefl in E.
      - split_and!; [done|done|]. destruct (lt o t) eqn:E'; [split; [intros _ ->; by rewrite lt_irrefl in E'|done]|]. split; [done|]. intros Hne. by destruct Hne; apply lt_total. }
    split_and!; try done; [set_solver..|]. intros f. rewrite list_elem_of_filter. tauto.
  - rewrite first_compatible_none in E. split; [done|]. intros o t Ho Ht. rewrite Forall_forall in E. specialize (E o Ho). rewrite Forall_forall in E. by apply E.
Qed.

(** Versions are listed in order of preference; here the highest is preferred. *)
Definition descending (l : list ProtocolVersion) : Prop := StronglySorted (λ a b, lt a b = false) l.

Lemma descending_app l1 x l2 y : descending (l1 ++ x :: l2) → y ∈ l2 → lt x y = false.
Proof.
  induction l1 as [|z l1 IH]; intros Hs Hy; apply StronglySorted_inv in Hs as [Hs Hall]; [|by apply IH]. rewrite Forall_forall in Hall. by apply Hall.
Qed.

(** Compatible versions lie next to each other. *)
Lemma compatible_interval o t o' t' :
  is_compatible_with o t = true → is_compatible_with o' t' = true → lt o o' = false → lt t' t = false → is_compatible_with o t' = true.
Proof.
  rewrite !compatible_spec. intros [E1 E2] [E3 E4] L1 L2. assert (¬ lt o o' = true ∧ ¬ lt t' t = true) as [N1 N2] by by rewrite L1, L2. rewrite lt_spec in N1, N2. lia.
Qed.

Lemma first_compatible_sym A B o t :
  descending A → descending B → first_compatible A B = Some (o, t) → first_compatible B A = Some (t, o).
Proof.
  intros HsA HsB E. apply first_compatible_split in E as (A1 & A2 & B1 & B2 & -> & -> & Hc & HA & HB). apply first_compatible_split.
  exists B1, B2, A1, A2. rewrite Forall_forall in HA, HB. split_and!; [done|done|by rewrite compatible_sym| |].
  - apply Forall_forall. intros t' Ht'. apply Forall_forall. intros o' Ho'. rewrite compatible_sym. destruct (is_compatible_with o' t') eqn:Hc'; [|done].
    assert (t' ∈ B1 ++ t :: B2) as HtB by set_solver. apply elem_of_app in Ho' as [Ho'|[->|Ho']%elem_of_cons].
    + specialize (HA o' Ho'). rewrite Forall_forall in HA. specialize (HA t' HtB). congruence.
    + specialize (HB t' Ht'). congruence.
    + assert (lt o o' = false) as L1 by by eapply descending_app.
      assert (lt t' t = false) as L2.
      { apply list_elem_of_split in Ht' as (B11 & B12 & ->). rewrite <-app_assoc in HsB. simpl in HsB. eapply descending_app; [done|]. set_solver. }
      pose proof (compatible_interval o t o' t' Hc Hc' L1 L2). specialize (HB t' Ht'). congruence.
  - apply Forall_forall. intros a Ha. rewrite compatible_sym. specialize (HA a Ha). rewrite Forall_forall in HA. apply HA. set_solver.
Qed.

(** Two peers that each list their versions from the highest down come to the same
    result on both sides, without another message: both fail, or both agree on the same
    version, the same features, and whether an upgrade is available. *)
Theorem negotiation_agrees a b :
  descending (supported_versions a) → descending (supported_versions b) →
  match negotiate a b, negotiate b a with
  | Ok r, Ok r' => agreed_version r = agreed_version r' ∧ upgrade_available r = upgrade_available r' ∧
      ∀ f, f ∈ enabled_features r ↔ f ∈ enabled_features r'
  | Err _, Err _ => True
  | _, _ => False
  end.
Proof.
  intros Ha Hb. unfold negotiate. destruct (first_compatible (supported_versions a) (supported_versions b)) as [[o t]|] eqn:E.
  - rewrite (first_compatible_sym _ _ _ _ Ha Hb E). cbn [agreed_version enabled_features upgrade_available]. rewrite (min_comm t o). split_and!; [done|by rewrite orb_comm|].
    intros f. rewrite !list_elem_of_filter. tauto.
  - destruct (first_compatible (supported_versions b) (supported_versions a)) as [[o t]|] eqn:E'; [|done].
    apply (first_compatible_sym _ _ _ _ Hb Ha) in E'. congruence.
Qed.

Lemma negotiation_agrees_witness :
  match negotiate current (mkNegotiation [mkVersion 1 0 0; mkVersion 0 1 5] [Compression] ∅), negotiate (mkNegotiation [mkVersion 1 0 0; mkVersion 0 1 5] [Compression] ∅) current with
  | Ok r, Ok r' => agreed_version r = agreed_version r' ∧ upgrade_available r = upgrade_available r' ∧ ∀ f, f ∈ enabled_features r ↔ f ∈ enabled_features r'
  | Err _, Err _ => True
  | _, _ => False
  end.
Proof. apply (negotiation_agrees current (mkNegotiation [mkVersion 1 0 0; mkVersion 0 1 5] [Compression] ∅)); repeat constructor. Defined.

(** ** What was found *)

(** The result follows the order of preference, not the version: a higher version that
    both support is passed over, and the two sides agree on different versions. *)
Lemma preference_disagrees :
  let a := mkNegotiation [mkVersion 0 1 0; mkVersion 0 2 0] [] ∅ in
  let b := mkNegotiation [mkVersion 0 2 0; mkVersion 0 1 0] [] ∅ in
  (negotiate a b, negotiate b a) = (Ok (mkResult (mkVersion 0 1 0) [] false), Ok (mkResult (mkVersion 0 2 0) [] false)).
Proof. done. Qed.

(** The current version is not compatible with the oldest one it claims to support. *)
Lemma min_supported_incompatible : is_compatible_with CURRENT MIN_SUPPORTED = false.
Proof. done. Qed.

(** An upgrade to a lower version leaves the features of the higher one enabled. *)
Lemma downgrade_keeps_features :
  let '(_, s) := VersionNegotiator.negotiate_with_peer [1] current VersionNegotiator.new in
  let '(r, s) := VersionNegotiator.handle_upgrade_request [1] (mkUpgrade CURRENT (mkVersion 0 1 0) []) s in
  accepted r = true ∧ VersionNegotiator.is_feature_enabled [1] WebSocketSupport s = Ok true ∧
  supports_feature (mkVersion 0 1 0) WebSocketSupport = false.
Proof. by vm_compute. Qed.

(** A peer that leaves between the two critical sections of an upgrade is answered that
    the upgrade was accepted. *)
Lemma upgrade_race :
  let '(_, s) := VersionNegotiator.negotiate_with_peer [1] current VersionNegotiator.new in
  let request := mkUpgrade CURRENT (mkVersion 0 1 0) [] in
  VersionNegotiator.upgrade_check [1] request s = None ∧
  accepted (VersionNegotiator.upgrade_apply [1] request (VersionNegotiator.remove_peer [1] s)).1 = true ∧
  VersionNegotiator.get_peer_negotiation [1] (VersionNegotiator.upgrade_apply [1] request (VersionNegotiator.remove_peer [1] s)).2 = None.
Proof. by vm_compute. Qed.
