(* ===== verification/PrioQueue.v ===== *)
(** * Message priority queue (mielin-mesh/wire/src/priority.rs)

    Messages wait in a binary heap, or in four queues if the scheduling is fair.  The
    heap of the standard library is the list of its elements, of which it gives out a
    greatest; the order of the other elements is not specified.  Times are
    nanoseconds; one call reads the clock once.  The shared queue runs each of these
    functions under one lock. *)

From stdpp Require Import base tactics option list numbers.
From Stdlib Require Import SpecFloat.
From S2P Require Import Prelude Float Bytes Negotiation.

(* src: mielin-mesh/wire/src/priority.rs 33-43 Priority *)
Inductive Priority : Type := Critical | High | Normal | Low.

#[global] Instance Priority_eq_dec : EqDecision Priority.
Proof. solve_decision. Defined.

Module Priority.

(* src: mielin-mesh/wire/src/priority.rs 47-54 Priority::from_u8 *)
Definition from_u8 (value : Z) : Priority :=
  if value =? 0 then Critical else if value =? 1 then High else if value =? 2 then Normal else Low.

(* src: mielin-mesh/wire/src/priority.rs 57-59 Priority::as_u8 *)
Definition as_u8 (self : Priority) : Z := match self with Critical => 0 | High => 1 | Normal => 2 | Low => 3 end.

(* src: mielin-mesh/wire/src/priority.rs 62-69 Priority::name *)
Definition name (self : Priority) : str :=
  match self with
  | Critical => [99; 114; 105; 116; 105; 99; 97; 108]
  | High => [104; 105; 103; 104]
  | Normal => [110; 111; 114; 109; 97; 108]
  | Low => [108; 111; 119]
  end.

End Priority.

(* src: mielin-mesh/wire/src/priority.rs 74-89 QueuedMessage *)
Record QueuedMessage : Type := mkQueued {
  message : Message;
  priority : Priority;
  sequence : Z;
  enqueued_at : Z;
  destination : option node_id;
  attempts : Z;
  max_attempts : Z;
}.

Module QueuedMessage.

(* src: mielin-mesh/wire/src/priority.rs 93-103 QueuedMessage::new *)
Definition new (now : Z) (message : Message) (priority : Priority) (sequence : Z) : QueuedMessage :=
  mkQueued message priority sequence now None 0 3.

(* src: mielin-mesh/wire/src/priority.rs 106-121 QueuedMessage::with_destination *)
Definition with_destination (now : Z) (message : Message) (priority : Priority) (sequence : Z) (destination : node_id) : QueuedMessage :=
  mkQueued message priority sequence now (Some destination) 0 3.

(* src: mielin-mesh/wire/src/priority.rs 124-126 QueuedMessage::queue_time *)
Definition queue_time (now : Z) (self : QueuedMessage) : Z := elapsed (enqueued_at self) now.

(* src: mielin-mesh/wire/src/priority.rs 129-131 QueuedMessage::can_retry *)
Definition can_retry (self : QueuedMessage) : bool := attempts self <? max_attempts self.

(* src: mielin-mesh/wire/src/priority.rs 134-136 QueuedMessage::increment_attempts *)
Definition increment_attempts (self : QueuedMessage) : outcome QueuedMessage :=
  let! a := u32_add (attempts self) 1 in
  Ret (mkQueued (message self) (priority self) (sequence self) (enqueued_at self) (destination self) a (max_attempts self)).

(* src: mielin-mesh/wire/src/priority.rs 155-162 QueuedMessage::cmp *)
Definition cmp (self other : QueuedMessage) : comparison :=
  match Priority.as_u8 (priority other) ?= Priority.as_u8 (priority self) with
  | Eq => sequence other ?= sequence self
  | ord => ord
  end.

End QueuedMessage.

(* src: mielin-mesh/wire/src/priority.rs 167-180 QueueStats *)
Record QueueStats : Type := mkQueueStats {
  enqueued : Z;
  dequeued : Z;
  dropped : Z;
  current_size : Z;
  by_priority : list Z;
  avg_queue_time_ms : Z;
}.

(* src: mielin-mesh/wire/src/priority.rs 184-190 QueueStats::throughput *)
Definition throughput (self : QueueStats) (elapsed_secs : spec_float) : spec_float :=
  if SFltb f64_zero elapsed_secs then f64_div (f64_of_u64 (dequeued self)) elapsed_secs else f64_zero.

(* src: mielin-mesh/wire/src/priority.rs 195-204 QueueConfig *)
Record QueueConfig : Type := mkQueueConfig {
  max_size : Z;
  max_per_priority : list Z;
  max_age_ms : Z;
  fair_scheduling : bool;
}.

Module QueueConfig.

(* src: mielin-mesh/wire/src/priority.rs 207-214 QueueConfig::default *)
Definition default : QueueConfig := mkQueueConfig 10000 [1000; 2000; 4000; 3000] 30000 true.
(* src: mielin-mesh/wire/src/priority.rs 219-226 QueueConfig::high_throughput *)
Definition high_throughput : QueueConfig := mkQueueConfig 50000 [5000; 10000; 20000; 15000] 60000 true.
(* src: mielin-mesh/wire/src/priority.rs 229-236 QueueConfig::low_latency *)
Definition low_latency : QueueConfig := mkQueueConfig 1000 [200; 300; 300; 200] 5000 false.
(* src: mielin-mesh/wire/src/priority.rs 239-246 QueueConfig::embedded *)
Definition embedded : QueueConfig := mkQueueConfig 100 [25; 25; 30; 20] 10000 false.

End QueueConfig.

(** [BinaryHeap]: push, and pop of a greatest element, the first there is. *)
Module Heap.

Definition greater (a b : QueuedMessage) : bool := match QueuedMessage.cmp a b with Gt => true | _ => false end.
Definition greatest (x : QueuedMessage) (l : list QueuedMessage) : QueuedMessage := foldl (λ m y, if greater y m then y else m) x l.
Definition peek (l : list QueuedMessage) : option QueuedMessage := match l with [] => None | x :: l' => Some (greatest x l') end.

(** Without the first element that is neither greater nor less than [m]. *)
Fixpoint remove (m : QueuedMessage) (l : list QueuedMessage) : list QueuedMessage :=
  match l with
  | [] => []
  | x :: l' => match QueuedMessage.cmp x m with Eq => l' | _ => x :: remove m l' end
  end.
Definition push (x : QueuedMessage) (l : list QueuedMessage) : list QueuedMessage := l ++ [x].
Definition pop (l : list QueuedMessage) : option QueuedMessage * list QueuedMessage :=
  match peek l with Some m => (Some m, remove m l) | None => (None, l) end.

End Heap.

(* src: mielin-mesh/wire/src/priority.rs 250-265 PriorityQueue *)
Record PriorityQueue : Type := mkQueue {
  heap : list QueuedMessage;
  fair_queues : list (list QueuedMessage);
  next_sequence : Z;
  config : QueueConfig;
  priority_counts : list Z;
  stats : QueueStats;
  total_queue_time_ns : Z;
}.

Module PriorityQueue.
Implicit Types (self : PriorityQueue).

Definition empty (config : QueueConfig) : PriorityQueue :=
  mkQueue [] [[]; []; []; []] 0 config [0; 0; 0; 0] (mkQueueStats 0 0 0 0 [0; 0; 0; 0] 0) 0.

(** [BinaryHeap::with_capacity] panics when the elements, of [size] bytes each (which the
    compiler chooses), take more than [isize::MAX] bytes. *)
(* src: mielin-mesh/wire/src/priority.rs 274-289 PriorityQueue::with_config *)
Definition with_config (size : Z) (config : QueueConfig) : outcome PriorityQueue :=
  if 2 ^ 63 - 1 <? max_size config * size then Panic else Ret (empty config).

(* src: mielin-mesh/wire/src/priority.rs 269-271 PriorityQueue::new *)
Definition new (size : Z) : outcome PriorityQueue := with_config size QueueConfig.default.

(** Field updates. *)
Definition set_heap (h : list QueuedMessage) self : PriorityQueue :=
  mkQueue h (fair_queues self) (next_sequence self) (config self) (priority_counts self) (stats self) (total_queue_time_ns self).
Definition set_fair (q : list (list QueuedMessage)) self : PriorityQueue :=
  mkQueue (heap self) q (next_sequence self) (config self) (priority_counts self) (stats self) (total_queue_time_ns self).
Definition set_sequence (n : Z) self : PriorityQueue :=
  mkQueue (heap self) (fair_queues self) n (config self) (priority_counts self) (stats self) (total_queue_time_ns self).
Definition set_counts (c : list Z) self : PriorityQueue :=
  mkQueue (heap self) (fair_queues self) (next_sequence self) (config self) c (stats self) (total_queue_time_ns self).
Definition set_stats (s : QueueStats) self : PriorityQueue :=
  mkQueue (heap self) (fair_queues self) (next_sequence self) (config self) (priority_counts self) s (total_queue_time_ns self).
Definition set_time (t : Z) self : PriorityQueue :=
  mkQueue (heap self) (fair_queues self) (next_sequence self) (config self) (priority_counts self) (stats self) t.

(* src: mielin-mesh/wire/src/priority.rs 441-447 PriorityQueue::len *)
Definition len self : Z :=
  if fair_scheduling (config self) then sum_by (λ q, Z.of_nat (length q)) (fair_queues self) else Z.of_nat (length (heap self)).

(* src: mielin-mesh/wire/src/priority.rs 450-452 PriorityQueue::is_empty *)
Definition is_empty self : bool := len self =? 0.

(* src: mielin-mesh/wire/src/priority.rs 460-462 PriorityQueue::count_by_priority *)
Definition count_by_priority (p : Priority) self : outcome Z := arr_get (priority_counts self) (Priority.as_u8 p).

(* src: mielin-mesh/wire/src/priority.rs 517-547 PriorityQueue::detect_priority *)
Fixpoint detect_priority (m : Message) : Priority :=
  match m with
  | AgentMigration _ _ p => if 8 <=? p then Critical else if 5 <=? p then High else Normal
  | MigrationAck _ success _ => if success then Normal else Critical
  | Discovery _ _ _ | DiscoveryResponse _ _ => High
  | AgentQuery _ => Normal
  | LoadInfo _ _ _ => Low
  | Ping _ | Pong _ _ => Low
  | RoutedMessage _ _ _ _ payload => detect_priority payload
  | VersionNegotiationRequest _ | VersionNegotiationResponse _ | ProtocolUpgrade _ | ProtocolUpgradeResponse _ => High
  | WebSocketUpgrade _ | WebSocketUpgradeResponse _ => Normal
  end.

(** "Queue capacity exceeded"; "Priority " and " capacity exceeded". *)
Definition msg_capacity : str := [81;117;101;117;101;32;99;97;112;97;99;105;116;121;32;101;120;99;101;101;100;101;100].
Definition msg_priority : str := [80;114;105;111;114;105;116;121;32].
Definition msg_exceeded : str := [32;99;97;112;97;99;105;116;121;32;101;120;99;101;101;100;101;100].

Definition drop self (e : WireError) : outcome (result Z WireError * PriorityQueue) :=
  let s := stats self in
  let! d := usize_add (dropped s) 1 in
  Ret (Err e, set_stats (mkQueueStats (enqueued s) (dequeued s) d (current_size s) (by_priority s) (avg_queue_time_ms s)) self).

(** What the two ways to enqueue share: the checks, and the new element with its
    sequence number. *)
(* src: mielin-mesh/wire/src/priority.rs 303-334 PriorityQueue::enqueue_with_priority (body) *)
Definition enqueue_queued (make : Z → QueuedMessage) (p : Priority) self : outcome (result Z WireError * PriorityQueue) :=
  if max_size (config self) <=? len self then drop self (TransportError msg_capacity) else
  let priority_idx := Priority.as_u8 p in
  let! count := arr_get (priority_counts self) priority_idx in
  let! limit := arr_get (max_per_priority (config self)) priority_idx in
  if limit <=? count then drop self (TransportError (msg_priority ++ Priority.name p ++ msg_exceeded)) else
  let seqn := next_sequence self in
  let self := set_sequence (wrap64 (seqn + 1)) self in
  let queued := make seqn in
  let! self :=
    if fair_scheduling (config self) then
      let! q := arr_get (fair_queues self) priority_idx in
      let! qs := arr_set (fair_queues self) priority_idx (q ++ [queued]) in Ret (set_fair qs self)
    else Ret (set_heap (Heap.push queued (heap self)) self) in
  let! c := usize_add count 1 in
  let! cs := arr_set (priority_counts self) priority_idx c in
  let self := set_counts cs self in
  let s := stats self in
  let! e := usize_add (enqueued s) 1 in
  let! b := arr_get (by_priority s) priority_idx in
  let! b := usize_add b 1 in
  let! bs := arr_set (by_priority s) priority_idx b in
  Ret (Ok seqn, set_stats (mkQueueStats e (dequeued s) (dropped s) (len self) bs (avg_queue_time_ms s)) self).

(* src: mielin-mesh/wire/src/priority.rs 298-335 PriorityQueue::enqueue_with_priority *)
Definition enqueue_with_priority (now : Z) (m : Message) (p : Priority) self : outcome (result Z WireError * PriorityQueue) :=
  enqueue_queued (QueuedMessage.new now m p) p self.

(* src: mielin-mesh/wire/src/priority.rs 292-295 PriorityQueue::enqueue *)
Definition enqueue (now : Z) (m : Message) self : outcome (result Z WireError * PriorityQueue) :=
  enqueue_with_priority now m (detect_priority m) self.

(* src: mielin-mesh/wire/src/priority.rs 348-386 PriorityQueue::enqueue_to_with_priority *)
Definition enqueue_to_with_priority (now : Z) (m : Message) (p : Priority) (destination : node_id) self : outcome (result Z WireError * PriorityQueue) :=
  enqueue_queued (λ seqn, QueuedMessage.with_destination now m p seqn destination) p self.

(* src: mielin-mesh/wire/src/priority.rs 338-345 PriorityQueue::enqueue_to *)
Definition enqueue_to (now : Z) (m : Message) (destination : node_id) self : outcome (result Z WireError * PriorityQueue) :=
  enqueue_to_with_priority now m (detect_priority m) destination self.

(* src: mielin-mesh/wire/src/priority.rs 416-424 PriorityQueue::dequeue_fair *)
Fixpoint dequeue_fair (qs : list (list QueuedMessage)) : option QueuedMessage * list (list QueuedMessage) :=
  match qs with
  | [] => (None, [])
  | [] :: qs' => let '(m, qs'') := dequeue_fair qs' in (m, [] :: qs'')
  | (m :: q) :: qs' => (Some m, q :: qs')
  end.

(* src: mielin-mesh/wire/src/priority.rs 389-413 PriorityQueue::dequeue *)
Definition dequeue (now : Z) self : outcome (option QueuedMessage * PriorityQueue) :=
  let '(msg, self) :=
    if fair_scheduling (config self) then let '(m, qs) := dequeue_fair (fair_queues self) in (m, set_fair qs self)
    else let '(m, h) := Heap.pop (heap self) in (m, set_heap h self) in
  match msg with
  | Some m =>
    let priority_idx := Priority.as_u8 (priority m) in
    let! c := arr_get (priority_counts self) priority_idx in
    let! cs := arr_set (priority_counts self) priority_idx (saturating_sub c 1) in
    let self := set_counts cs self in
    let s := stats self in
    let! d := usize_add (dequeued s) 1 in
    let queue_time_ns := wrap64 (QueuedMessage.queue_time now m) in
    let! total := usize_add (total_queue_time_ns self) queue_time_ns in
    let avg := if 0 <? d then total / d / 1000000 else avg_queue_time_ms s in
    Ret (msg, set_time total (set_stats (mkQueueStats (enqueued s) d (dropped s) (len self) (by_priority s) avg) self))
  | None => Ret (None, self)
  end.

(* src: mielin-mesh/wire/src/priority.rs 427-438 PriorityQueue::peek *)
Definition peek self : option QueuedMessage :=
  if fair_scheduling (config self) then (dequeue_fair (fair_queues self)).1 else Heap.peek (heap self).

Definition fresh (max_age now : Z) (m : QueuedMessage) : bool := elapsed (enqueued_at m) now <? max_age.

(** The loop over the four queues: what stays of each, and what each count becomes. *)
(* src: mielin-mesh/wire/src/priority.rs 470-477 PriorityQueue::cleanup_expired (queues) *)
Fixpoint cleanup_queues (max_age now : Z) (idx : Z) (qs : list (list QueuedMessage)) (counts : list Z) (removed : Z)
    : outcome (list (list QueuedMessage) * list Z * Z) :=
  match qs with
  | [] => Ret ([], counts, removed)
  | q :: qs' =>
    let q' := List.filter (fresh max_age now) q in
    let diff := Z.of_nat (length q) - Z.of_nat (length q') in
    let! removed := usize_add removed diff in
    let! c := arr_get counts idx in
    let! counts := arr_set counts idx (saturating_sub c diff) in
    let! (qs'', counts, removed) := cleanup_queues max_age now (idx + 1) qs' counts removed in
    Ret (q' :: qs'', counts, removed)
  end.

(** The loop that rebuilds the heap. *)
(* src: mielin-mesh/wire/src/priority.rs 489-498 PriorityQueue::cleanup_expired (heap) *)
Fixpoint cleanup_heap (expired : list Z) (old : list QueuedMessage) (h : list QueuedMessage) (counts : list Z) (removed : Z)
    : outcome (list QueuedMessage * list Z * Z) :=
  match old with
  | [] => Ret (h, counts, removed)
  | msg :: old' =>
    if decide (sequence msg ∈ expired) then
      let idx := Priority.as_u8 (priority msg) in
      let! c := arr_get counts idx in
      let! counts := arr_set counts idx (saturating_sub c 1) in
      let! removed := usize_add removed 1 in
      cleanup_heap expired old' h counts removed
    else cleanup_heap expired old' (Heap.push msg h) counts removed
  end.

(* src: mielin-mesh/wire/src/priority.rs 465-504 PriorityQueue::cleanup_expired *)
Definition cleanup_expired (now : Z) self : outcome (Z * PriorityQueue) :=
  let max_age := max_age_ms (config self) * 1000000 in
  let! (removed, self) :=
    if fair_scheduling (config self) then
      let! (qs, counts, removed) := cleanup_queues max_age now 0 (fair_queues self) (priority_counts self) 0 in
      Ret (removed, set_counts counts (set_fair qs self))
    else
      let expired := sequence <$> List.filter (λ m, negb (fresh max_age now m)) (heap self) in
      match expired with
      | [] => Ret (0, self)
      | _ =>
        let! (h, counts, removed) := cleanup_heap expired (heap self) [] (priority_counts self) 0 in
        Ret (removed, set_counts counts (set_heap h self))
      end in
  let s := stats self in
  Ret (removed, set_stats (mkQueueStats (enqueued s) (dequeued s) (dropped s) (len self) (by_priority s) (avg_queue_time_ms s)) self).

(* src: mielin-mesh/wire/src/priority.rs 507-514 PriorityQueue::clear *)
Definition clear self : PriorityQueue :=
  let s := stats self in
  mkQueue [] ((λ _, []) <$> fair_queues self) (next_sequence self) (config self) [0; 0; 0; 0]
    (mkQueueStats (enqueued s) (dequeued s) (dropped s) 0 (by_priority s) (avg_queue_time_ms s)) (total_queue_time_ns self).

End PriorityQueue.
