(* ===== verification/PrioQueueProps.v ===== *)
(** * Priority queue: contents, order and counts *)

From stdpp Require Import base tactics option list numbers sorting sets.
From S2P Require Import Prelude Float Sorting Bytes Negotiation PrioQueue.

(** ** Order *)

Abbreviation prio m := (Priority.as_u8 (priority m)).

(** Priority first, then sequence number. *)
Definition key (m : QueuedMessage) : Z := prio m * 18446744073709551616 + sequence m.

Definition seq_ok (m : QueuedMessage) : Prop := 0 <= sequence m <= U64_MAX.

Lemma prio_range p : 0 <= Priority.as_u8 p <= 3.
Proof. by destruct p. Qed.

Lemma prio_inj p p' : Priority.as_u8 p = Priority.as_u8 p' → p = p'.
Proof. by destruct p, p'. Qed.

Lemma cmp_key a b : seq_ok a → seq_ok b → QueuedMessage.cmp a b = (key b ?= key a).
Proof.
  unfold seq_ok, QueuedMessage.cmp, key. intros Ha Hb. destruct (Z.compare_spec (prio b) (prio a)) as [E|E|E].
  - rewrite E. symmetry. destruct (Z.compare_spec (sequence b) (sequence a)); [apply Z.compare_eq_iff|apply Z.compare_lt_iff|apply Z.compare_gt_iff]; lia.
  - symmetry. apply Z.compare_lt_iff. lia.
  - symmetry. apply Z.compare_gt_iff. lia.
Qed.

(** The elements are told apart by their sequence numbers. *)
Definition distinct (l : list QueuedMessage) : Prop := Forall seq_ok l ∧ NoDup (sequence <$> l).

#[global] Instance distinct_proper : Proper ((≡ₚ) ==> iff) distinct.
Proof. intros l l' Hp. unfold distinct. by rewrite Hp. Qed.

Lemma distinct_cons m l : distinct (m :: l) → distinct l.
Proof. intros [Hf Hnd]. apply Forall_cons in Hf as [_ Hf]. apply NoDup_cons in Hnd as [_ Hnd]. done. Qed.

Lemma distinct_eq l a b : distinct l → a ∈ l → b ∈ l → sequence a = sequence b → a = b.
Proof.
  intros [_ Hnd] [i Ha]%list_elem_of_lookup [j Hb]%list_elem_of_lookup E.
  assert ((sequence <$> l) !! i = Some (sequence a)) as Ha' by by rewrite list_lookup_fmap, Ha.
  assert ((sequence <$> l) !! j = Some (sequence a)) as Hb' by (rewrite list_lookup_fmap, Hb, E; done).
  pose proof (NoDup_lookup _ _ _ _ Hnd Ha' Hb'). congruence.
Qed.

Lemma key_eq l a b : distinct l → a ∈ l → b ∈ l → key a = key b → a = b.
Proof.
  intros Hl Ha Hb E. apply (distinct_eq l); try done. destruct Hl as [Hf _]. rewrite Forall_forall in Hf. pose proof (Hf a Ha). pose proof (Hf b Hb).
  unfold key, seq_ok in *. pose proof (prio_range (priority a)). pose proof (prio_range (priority b)). lia.
Qed.

(** There is one way to list them in order. *)
Lemma ordered_unique l l' : distinct l → ascends key l → ascends key l' → l ≡ₚ l' → l = l'.
Proof.
  intros Hd Hs Hs' Hp. eapply StronglySorted_unique_strong; [|done..]. simpl. intros x y Hx Hy H1 H2. apply (key_eq l); [done|done|by rewrite Hp|lia].
Qed.

(** As many numbers as there are below [n]. *)
Lemma distinct_below (l : list Z) n : 0 <= n → NoDup l → Forall (λ x, 0 <= x < n) l → Z.of_nat (length l) <= n.
Proof.
  intros Hn Hnd Hf. assert (l ⊆ seqZ 0 n) as Hsub by (intros x Hx; rewrite Forall_forall in Hf; apply elem_of_seqZ; specialize (Hf x Hx); lia).
  pose proof (submseteq_length _ _ (NoDup_submseteq _ _ Hnd Hsub)) as Hle. rewrite length_seqZ in Hle. lia.
Qed.

(** ** The heap *)

Lemma greatest_spec l : ∀ x, distinct (x :: l) → Heap.greatest x l ∈ x :: l ∧ ∀ y, y ∈ x :: l → key (Heap.greatest x l) <= key y.
Proof.
  unfold Heap.greatest. assert (∀ l x, Forall seq_ok (x :: l) →
    foldl (λ m y, if Heap.greater y m then y else m) x l ∈ x :: l ∧ ∀ y, y ∈ x :: l → key (foldl (λ m y, if Heap.greater y m then y else m) x l) <= key y) as Hg.
  { clear. induction l as [|z l IH]; intros x Hf; cbn [foldl]; [split; [left|]; intros y ->%list_elem_of_singleton; lia|].
    apply Forall_cons in Hf as [Hx Hf]. apply Forall_cons in Hf as [Hz Hf]. unfold Heap.greater at 2 4. rewrite (cmp_key z x Hz Hx).
    destruct (Z.compare_spec (key x) (key z)) as [E|E|E].
    - destruct (IH x) as [H1 H2]; [by constructor|]. split; [set_solver|]. intros y Hy. specialize (H2 x ltac:(left)) as Hx2.
      apply elem_of_cons in Hy as [->|[->|Hy]%elem_of_cons]; [done|lia|]. apply H2. by right.
    - destruct (IH x) as [H1 H2]; [by constructor|]. split; [set_solver|]. intros y Hy. specialize (H2 x ltac:(left)) as Hx2.
      apply elem_of_cons in Hy as [->|[->|Hy]%elem_of_cons]; [done|lia|]. apply H2. by right.
    - destruct (IH z) as [H1 H2]; [by constructor|]. split; [set_solver|]. intros y Hy. specialize (H2 z ltac:(left)) as Hz2.
      apply elem_of_cons in Hy as [->|[->|Hy]%elem_of_cons]; [lia|done|]. apply H2. by right. }
  intros x [Hf _]. by apply Hg.
Qed.

Lemma remove_perm m l : distinct l → m ∈ l → l ≡ₚ m :: Heap.remove m l.
Proof.
  intros Hd Hm. assert (Forall seq_ok l) as Hf by apply Hd. assert (∀ l', l' ⊆ l → m ∈ l' → l' ≡ₚ m :: Heap.remove m l') as Hr; [|by apply Hr].
  rewrite Forall_forall in Hf. induction l' as [|x l' IH]; intros Hsub Hin; [by apply elem_of_nil in Hin|]. cbn [Heap.remove].
  assert (x ∈ l) as Hx by (apply Hsub; left). rewrite (cmp_key x m) by auto. destruct (Z.compare_spec (key m) (key x)) as [E|E|E].
  - by rewrite (key_eq l m x Hd Hm Hx E).
  - apply elem_of_cons in Hin as [->|Hin]; [lia|]. rewrite Permutation_swap, <-IH; [done|set_solver|done].
  - apply elem_of_cons in Hin as [->|Hin]; [lia|]. rewrite Permutation_swap, <-IH; [done|set_solver|done].
Qed.

(** Pop takes the first in order. *)
Lemma heap_pop_spec l q :
  distinct l → ascends key q → q ≡ₚ l →
  match q with
  | [] => Heap.pop l = (None, l) ∧ l = []
  | m :: q' => ∃ l', Heap.pop l = (Some m, l') ∧ l ≡ₚ m :: l' ∧ Heap.peek l = Some m
  end.
Proof.
  intros Hd Hs Hp. unfold Heap.pop. destruct l as [|x l]; [by apply Permutation_nil_r in Hp as ->|]. destruct (greatest_spec l x Hd) as [Hin Hmin]. cbn [Heap.peek].
  destruct q as [|m q]; [by apply Permutation_nil_l in Hp|]. assert (Heap.greatest x l = m) as ->.
  { apply (key_eq (x :: l)); [done|done|rewrite <-Hp; left|]. pose proof (Hmin m ltac:(rewrite <-Hp; left)). rewrite <-Hp in Hin.
    apply StronglySorted_inv in Hs as [_ Hall]. rewrite Forall_forall in Hall. apply elem_of_cons in Hin as [->|Hin]; [done|]. specialize (Hall _ Hin). simpl in Hall. lia. }
  eexists. split_and!; [done| |done]. apply remove_perm; [done|]. rewrite <-Hp. left.
Qed.

(** ** The four queues *)

(** Queue [i] holds the messages of priority [i], the earliest first. *)
Definition queues_ok (qs : list (list QueuedMessage)) : Prop :=
  length qs = 4%nat ∧ ∀ i q, qs !! i = Some q → Forall (λ m, prio m = Z.of_nat i) q ∧ ascends sequence q.

Lemma ascends_concat (i : nat) qs :
  Forall seq_ok (concat qs) →
  (∀ j q, qs !! j = Some q → Forall (λ m, prio m = Z.of_nat (i + j)) q ∧ ascends sequence q) →
  ascends key (concat qs) ∧ Forall (λ m, Z.of_nat i <= prio m) (concat qs).
Proof.
  revert i. induction qs as [|q qs IH]; intros i Hf Hq; [split; constructor|]. simpl in *. apply Forall_app in Hf as [Hf1 Hf2].
  destruct (IH (S i) Hf2) as [IH1 IH2]; [intros j q' E; specialize (Hq (S j) q' E); by rewrite Nat.add_succ_r in Hq|].
  destruct (Hq 0%nat q eq_refl) as [Hp Hs]. rewrite Nat.add_0_r in Hp. split.
  - apply StronglySorted_app_2; [..|done].
    + rewrite !Forall_forall in *. intros x y Hx Hy. specialize (Hp x Hx). specialize (IH2 y Hy). specialize (Hf1 x Hx). specialize (Hf2 y Hy). unfold key, seq_ok in *. simpl in *. lia.
    + clear -Hp Hs. induction Hs as [|x q Hs IH Hall]; [constructor|]. apply Forall_cons in Hp as [Hx Hp]. constructor; [by apply IH|].
      rewrite !Forall_forall in *. intros y Hy. specialize (Hall y Hy). specialize (Hp y Hy). unfold key. simpl in *. lia.
  - apply Forall_app. split; rewrite !Forall_forall in *; intros x Hx; [specialize (Hp x Hx)|specialize (IH2 x Hx)]; simpl in *; lia.
Qed.

Lemma queues_ordered qs : queues_ok qs → Forall seq_ok (concat qs) → ascends key (concat qs).
Proof. intros [_ Hq] Hf. by apply (ascends_concat 0). Qed.

Lemma dequeue_fair_spec qs :
  match concat qs with
  | [] => PriorityQueue.dequeue_fair qs = (None, qs)
  | m :: l => ∃ qs', PriorityQueue.dequeue_fair qs = (Some m, qs') ∧ concat qs' = l ∧ length qs' = length qs ∧
      ∀ i q', qs' !! i = Some q' → ∃ q, qs !! i = Some q ∧ (q' = q ∨ q = m :: q')
  end.
Proof.
  induction qs as [|[|x q] qs IH]; simpl; [done| |].
  - destruct (concat qs) as [|m l]; [by rewrite IH|]. destruct IH as (qs' & -> & E & El & Hq). exists ([] :: qs'). split_and!; [done|done|simpl; lia|].
    intros [|i] q' Ei; simpl in *; [exists []; split; [done|left; congruence]|by apply Hq].
  - exists (q :: qs). split_and!; [done|done|done|]. intros [|i] q' Ei; simpl in *; [eexists; split; [done|right; congruence]|eauto].
Qed.

Lemma concat_insert_snoc (i : nat) (q : list QueuedMessage) m : ∀ qs,
  qs !! i = Some q → concat (<[i := q ++ [m]]> qs) ≡ₚ m :: concat qs.
Proof.
  revert i. intros i qs. revert i. induction qs as [|q' qs IH]; intros [|i] E; simplify_eq/=.
  - rewrite <-app_assoc. symmetry. apply Permutation_middle.
  - rewrite (IH i E). symmetry. apply Permutation_middle.
Qed.

(** ** Counts *)

Definition count (i : Z) (l : list QueuedMessage) : Z := count_if (λ m, prio m =? i) l.
Definition counts_of (l : list QueuedMessage) : list Z := [count 0 l; count 1 l; count 2 l; count 3 l].

#[global] Instance count_proper i : Proper ((≡ₚ) ==> eq) (count i).
Proof. intros l l' Hp. unfold count, count_if. by rewrite Hp. Qed.

#[global] Instance counts_of_proper : Proper ((≡ₚ) ==> eq) counts_of.
Proof. intros l l' Hp. unfold counts_of. by rewrite Hp. Qed.

Lemma count_cons i m l : count i (m :: l) = (if prio m =? i then 1 else 0) + count i l.
Proof. unfold count. by rewrite count_if_cons. Qed.

Lemma counts_lookup p l : arr_get (counts_of l) (Priority.as_u8 p) = Ret (count (Priority.as_u8 p) l).
Proof. by destruct p. Qed.

Lemma counts_set m l c : c = count (prio m) l + 1 → arr_set (counts_of l) (prio m) c = Ret (counts_of (m :: l)).
Proof.
  intros ->. unfold counts_of. rewrite !count_cons. destruct (priority m); cbn [Priority.as_u8];
    generalize (count 0 l) (count 1 l) (count 2 l) (count 3 l); intros; unfold arr_set; simpl; by rewrite Z.add_comm.
Qed.

(** Taking one out. *)
Lemma counts_unset m l c : c = count (prio m) (m :: l) - 1 → arr_set (counts_of (m :: l)) (prio m) c = Ret (counts_of l).
Proof.
  intros ->. unfold counts_of. rewrite !count_cons, Z.eqb_refl. destruct (priority m); cbn [Priority.as_u8];
    generalize (count 0 l) (count 1 l) (count 2 l) (count 3 l); intros; unfold arr_set; simpl; repeat f_equal; lia.
Qed.

Lemma class_count_nonneg i l : 0 <= count i l.
Proof. apply count_if_range. Qed.

Lemma count_le i l : count i l <= Z.of_nat (length l).
Proof. apply count_if_range. Qed.

Lemma count_all i l : Forall (λ m, prio m = i) l → count i l = Z.of_nat (length l).
Proof. intros Hl. apply count_if_all. intros j x E. rewrite Forall_lookup in Hl. apply Z.eqb_eq. by eapply Hl. Qed.

Lemma count_none i j l : Forall (λ m, prio m = j) l → i ≠ j → count i l = 0.
Proof. intros Hl Hne. apply count_if_none. intros k x E. rewrite Forall_lookup in Hl. apply Z.eqb_neq. rewrite (Hl k x E). done. Qed.

Lemma count_app i l l' : count i (l ++ l') = count i l + count i l'.
Proof. apply count_if_app. Qed.

(** The counts of the four queues are their lengths. *)
Lemma counts_queues qs : queues_ok qs → counts_of (concat qs) = (λ q, Z.of_nat (length q)) <$> qs.
Proof.
  intros [Hl Hq]. destruct qs as [|q0 [|q1 [|q2 [|q3 [|]]]]]; try done. clear Hl.
  pose proof (Hq 0%nat q0 eq_refl) as [H0 _]. pose proof (Hq 1%nat q1 eq_refl) as [H1 _]. pose proof (Hq 2%nat q2 eq_refl) as [H2 _]. pose proof (Hq 3%nat q3 eq_refl) as [H3 _].
  simpl in *. rewrite app_nil_r. unfold counts_of. rewrite !count_app.
  rewrite (count_all 0 q0), (count_all 1 q1), (count_all 2 q2), (count_all 3 q3) by done.
  rewrite (count_none 0 1 q1), (count_none 0 2 q2), (count_none 0 3 q3), (count_none 1 0 q0), (count_none 1 2 q2), (count_none 1 3 q3),
    (count_none 2 0 q0), (count_none 2 1 q1), (count_none 2 3 q3), (count_none 3 0 q0), (count_none 3 1 q1), (count_none 3 2 q2) by done.
  repeat f_equal; lia.
Qed.

(** ** Expiration *)

Lemma cleanup_queues_spec max_age now qs : ∀ pre removed,
  0 <= removed → removed + sum_by (λ q, Z.of_nat (length q)) qs <= U64_MAX →
  PriorityQueue.cleanup_queues max_age now (Z.of_nat (length pre)) qs (pre ++ ((λ q, Z.of_nat (length q)) <$> qs)) removed =
  Ret (List.filter (PriorityQueue.fresh max_age now) <$> qs,
    pre ++ ((λ q, Z.of_nat (length q)) <$> (List.filter (PriorityQueue.fresh max_age now) <$> qs)),
    removed + sum_by (λ q, Z.of_nat (length q)) qs - sum_by (λ q, Z.of_nat (length q)) (List.filter (PriorityQueue.fresh max_age now) <$> qs)).
Proof.
  induction qs as [|q qs IH]; intros pre removed Hr Hb; [simpl; repeat f_equal; lia|]. cbn [PriorityQueue.cleanup_queues]. set (q' := List.filter _ q). cbn [sum_by foldr] in Hb.
  assert (length q' <= length q)%nat as Hle by (unfold q'; apply filter_length_le).
  assert (0 <= sum_by (λ q, Z.of_nat (length q)) qs) by (apply sum_by_nonneg; intros; lia). fold (sum_by (λ q, Z.of_nat (length q)) qs) in Hb.
  rewrite usize_add_ok by lia. cbn [obind fmap list_fmap]. rewrite arr_get_app by done. cbn [obind].
  rewrite arr_set_ok by (rewrite length_app; simpl; lia). cbn [obind]. rewrite Nat2Z.id, insert_app_r_alt, Nat.sub_diag by lia. cbn [list_insert insert].
  replace (saturating_sub (Z.of_nat (length q)) (Z.of_nat (length q) - Z.of_nat (length q'))) with (Z.of_nat (length q')) by (unfold saturating_sub; lia).
  specialize (IH (pre ++ [Z.of_nat (length q')]) (removed + (Z.of_nat (length q) - Z.of_nat (length q'))) ltac:(lia) ltac:(lia)).
  rewrite length_app in IH. simpl length in IH. replace (Z.of_nat (length pre + 1)) with (Z.of_nat (length pre) + 1) in IH by lia.
  rewrite <-app_assoc in IH. simpl in IH. simpl. rewrite IH. cbn [obind]. rewrite <-app_assoc. simpl. fold q'. f_equal. f_equal. lia.
Qed.

Lemma cleanup_heap_spec expired old : ∀ h removed,
  0 <= removed → removed + Z.of_nat (length old) <= U64_MAX →
  ∃ k, PriorityQueue.cleanup_heap expired old h (counts_of (h ++ old)) removed =
    Ret (h ++ base.filter (λ m, sequence m ∉ expired) old, counts_of (h ++ base.filter (λ m, sequence m ∉ expired) old), removed + k) ∧
    k = Z.of_nat (length old) - Z.of_nat (length (base.filter (λ m, sequence m ∉ expired) old)).
Proof.
  induction old as [|m old IH]; intros h removed Hr Hb; [exists 0; split; [cbn [PriorityQueue.cleanup_heap]; change (base.filter (λ m, sequence m ∉ expired) []) with (@nil QueuedMessage); by rewrite app_nil_r, Z.add_0_r|done]|]. cbn [PriorityQueue.cleanup_heap]. simpl length in Hb.
  rewrite filter_cons. destruct (decide (sequence m ∈ expired)) as [Hin|Hin].
  - rewrite (decide_False (P := sequence m ∉ expired)) by tauto. rewrite counts_lookup. cbn [obind].
    assert (h ++ m :: old ≡ₚ m :: (h ++ old)) as Hp by (symmetry; apply Permutation_middle).
    assert (counts_of (h ++ m :: old) = counts_of (m :: h ++ old)) as -> by by rewrite Hp. assert (count (prio m) (h ++ m :: old) = count (prio m) (m :: h ++ old)) as -> by by rewrite Hp.
    pose proof (class_count_nonneg (prio m) (h ++ old)). rewrite counts_unset by (rewrite count_cons, Z.eqb_refl; unfold saturating_sub; lia). cbn [obind]. rewrite usize_add_ok by lia. cbn [obind].
    destruct (IH h (removed + 1) ltac:(lia) ltac:(lia)) as (k & -> & ->). eexists. split; [|done]. f_equal. f_equal. simpl length. lia.
  - rewrite (decide_True (P := sequence m ∉ expired)) by done. unfold Heap.push. destruct (IH (h ++ [m]) removed ltac:(lia) ltac:(lia)) as (k & E & ->).
    rewrite <-!app_assoc in E. cbn [app] in E. rewrite E. eexists. split; [done|]. simpl length. lia.
Qed.

(** * Priority queue: theorems *)

(** ** Specification *)

Inductive event : Type :=
| Enqueue (now : Z) (m : Message) (p : Priority) (dest : option node_id)
| Dequeue (now : Z)
| Cleanup (now : Z)
| Clear.

Inductive output : Type :=
| Enqueued (r : result Z WireError)
| Dequeued (m : option QueuedMessage)
| Cleaned (removed : Z)
| Cleared.

Definition make (now : Z) (m : Message) (p : Priority) (dest : option node_id) (n : Z) : QueuedMessage :=
  match dest with None => QueuedMessage.new now m p n | Some d => QueuedMessage.with_destination now m p n d end.

Definition limit (cfg : QueueConfig) (p : Priority) : Z := default 0 (max_per_priority cfg !! Z.to_nat (Priority.as_u8 p)).

(** The messages in the order in which they leave, and the next sequence number.  How the
    messages are kept is not part of the specification. *)
Definition spec_step (cfg : QueueConfig) (s : list QueuedMessage * Z) (e : event) : output * (list QueuedMessage * Z) :=
  let '(q, n) := s in
  match e with
  | Enqueue now m p dest =>
    if max_size cfg <=? Z.of_nat (length q) then (Enqueued (Err (TransportError PriorityQueue.msg_capacity)), s)
    else if limit cfg p <=? count (Priority.as_u8 p) q then
      (Enqueued (Err (TransportError (PriorityQueue.msg_priority ++ Priority.name p ++ PriorityQueue.msg_exceeded))), s)
    else (Enqueued (Ok n), (insert_by key (make now m p dest n) q, n + 1))
  | Dequeue now => match q with [] => (Dequeued None, s) | m :: q' => (Dequeued (Some m), (q', n)) end
  | Cleanup now =>
    let q' := List.filter (PriorityQueue.fresh (max_age_ms cfg * 1000000) now) q in
    (Cleaned (Z.of_nat (length q) - Z.of_nat (length q')), (q', n))
  | Clear => (Cleared, ([], n))
  end.

Fixpoint spec_run (cfg : QueueConfig) (s : list QueuedMessage * Z) (es : list event) : list output * (list QueuedMessage * Z) :=
  match es with
  | [] => ([], s)
  | e :: es' => let '(o, s') := spec_step cfg s e in let '(os, s'') := spec_run cfg s' es' in (o :: os, s'')
  end.

(** The code. *)
Definition queue_step (self : PriorityQueue) (e : event) : outcome (output * PriorityQueue) :=
  match e with
  | Enqueue now m p None => let! (r, self) := PriorityQueue.enqueue_with_priority now m p self in Ret (Enqueued r, self)
  | Enqueue now m p (Some d) => let! (r, self) := PriorityQueue.enqueue_to_with_priority now m p d self in Ret (Enqueued r, self)
  | Dequeue now => let! (m, self) := PriorityQueue.dequeue now self in Ret (Dequeued m, self)
  | Cleanup now => let! (n, self) := PriorityQueue.cleanup_expired now self in Ret (Cleaned n, self)
  | Clear => Ret (Cleared, PriorityQueue.clear self)
  end.

Fixpoint queue_run (self : PriorityQueue) (es : list event) : outcome (list output * PriorityQueue) :=
  match es with
  | [] => Ret ([], self)
  | e :: es' => let! (o, self) := queue_step self e in let! (os, self) := queue_run self es' in Ret (o :: os, self)
  end.

(** ** Refinement *)

Definition contents (self : PriorityQueue) : list QueuedMessage :=
  if fair_scheduling (config self) then concat (fair_queues self) else heap self.

Definition config_ok (cfg : QueueConfig) : Prop :=
  length (max_per_priority cfg) = 4%nat ∧ 0 <= max_size cfg ∧ Forall (λ l, 0 <= l) (max_per_priority cfg).

(** A number of calls [b] and a bound [T] of the clock. *)
Record queue_ok (cfg : QueueConfig) (b T : Z) (self : PriorityQueue) (q : list QueuedMessage) (n : Z) : Prop := {
  q_config : config self = cfg;
  q_sequence : next_sequence self = n;
  q_number : 0 <= n <= b;
  q_messages : Forall (λ m, 0 <= sequence m < n ∧ 0 <= enqueued_at m <= T) q;
  q_distinct : NoDup (sequence <$> q);
  q_fair : fair_scheduling cfg = true → queues_ok (fair_queues self);
  q_queues : length (fair_queues self) = 4%nat;
  q_order : ascends key q;
  q_contents : q ≡ₚ contents self;
  q_counts : priority_counts self = counts_of q;
  q_size : Z.of_nat (length q) <= max_size cfg;
  q_limits p : count (Priority.as_u8 p) q <= limit cfg p;
  q_enqueued : 0 <= enqueued (stats self) <= b;
  q_dequeued : 0 <= dequeued (stats self) <= b;
  q_dropped : 0 <= dropped (stats self) <= b;
  q_current : current_size (stats self) = Z.of_nat (length q);
  q_levels : length (by_priority (stats self)) = 4%nat ∧ Forall (λ c, 0 <= c <= b) (by_priority (stats self));
  q_time : 0 <= total_queue_time_ns self <= b * T;
}.

Lemma queue_distinct cfg b T self q n : queue_ok cfg b T self q n → b <= U64_MAX → distinct q ∧ distinct (contents self).
Proof.
  intros [] Hb. assert (distinct q) as Hd; [|split; [done|by rewrite <-q_contents0]]. split; [|done].
  eapply Forall_impl; [done|]. intros m [? _]. unfold seq_ok. lia.
Qed.

Lemma len_contents self : PriorityQueue.len self = Z.of_nat (length (contents self)).
Proof.
  unfold PriorityQueue.len, contents. destruct (fair_scheduling (config self)); [|done].
  induction (fair_queues self) as [|q' qs IH]; simpl; [done|]. unfold sum_by in *. simpl. rewrite IH, length_app. lia.
Qed.

Lemma queue_len cfg b T self q n : queue_ok cfg b T self q n → PriorityQueue.len self = Z.of_nat (length q).
Proof. intros []. by rewrite len_contents, q_contents0. Qed.

Lemma queue_short cfg b T self q n : queue_ok cfg b T self q n → Z.of_nat (length q) <= n.
Proof.
  intros []. rewrite <-(length_fmap sequence q). apply distinct_below; [lia|done|]. apply Forall_fmap. eapply Forall_impl; [done|]. simpl. tauto.
Qed.

Lemma fresh_queue_ok cfg T : config_ok cfg → 0 <= T → queue_ok cfg 0 T (PriorityQueue.empty cfg) [] 0.
Proof.
  intros (Hl & Hm & Hf) HT. split; simpl; try done; try lia.
  - constructor.
  - intros _. split; [done|]. intros [|[|[|[|i]]]] q E; simplify_eq/=; (split; [done|constructor]).
  - constructor.
  - unfold contents. by destruct (fair_scheduling _).
  - intros p. unfold limit. destruct (max_per_priority cfg !! _) as [l|] eqn:E; [|done]. rewrite Forall_lookup in Hf. by apply Hf in E.
  - split; [done|]. repeat constructor; lia.
Qed.

(** The fair queues hold the messages in order. *)
Lemma fair_concat cfg b T self q n : queue_ok cfg b T self q n → b <= U64_MAX → fair_scheduling cfg = true → q = concat (fair_queues self).
Proof.
  intros Hq Hb Hf. destruct (queue_distinct cfg b T self q n Hq Hb) as [Hd Hd']. destruct Hq. unfold contents in *. rewrite q_config0, Hf in *.
  apply ordered_unique; [done|done|apply queues_ordered; [by apply q_fair0|apply Hd']|done].
Qed.

Lemma peek_head cfg b T self q n : queue_ok cfg b T self q n → b <= U64_MAX → PriorityQueue.peek self = head q.
Proof.
  intros Hq Hb. pose proof (fair_concat cfg b T self q n Hq Hb) as Hfair. destruct (queue_distinct cfg b T self q n Hq Hb) as [Hd Hd']. destruct Hq.
  unfold PriorityQueue.peek, contents in *. rewrite q_config0 in *. destruct (fair_scheduling cfg).
  - rewrite Hfair by done. pose proof (dequeue_fair_spec (fair_queues self)) as Hs. destruct (concat (fair_queues self)); [by rewrite Hs|]. by destruct Hs as (qs' & -> & _).
  - pose proof (heap_pop_spec (heap self) q Hd' q_order0 q_contents0) as Hs. destruct q as [|m q]; [by destruct Hs as [_ ->]|]. by destruct Hs as (l' & _ & _ & ?).
Qed.

(** *** Enqueue *)

Lemma queue_drop_ok cfg b T self q n e : queue_ok cfg b T self q n → 0 <= b < U64_MAX → 0 <= T →
  returns (PriorityQueue.drop self e) (λ '(r, self'), r = Err e ∧ queue_ok cfg (b + 1) T self' q n).
Proof.
  intros Hq Hb HT. unfold PriorityQueue.drop. destruct Hq. rewrite usize_add_ok by lia. cbn [obind returns]. split; [done|].
  split; simpl; try done; try lia; try nia. destruct q_levels0 as [? Hf]. split; [done|]. eapply Forall_impl; [done|]. simpl. lia.
Qed.

(** The element goes into the queue of its priority, or into the heap. *)
Lemma place_ok cfg b T self q n m :
  queue_ok cfg b T self q n → b <= U64_MAX → seq_ok m → sequence m = n →
  returns (if fair_scheduling (config self) then
      let! l := arr_get (fair_queues self) (prio m) in
      let! qs := arr_set (fair_queues self) (prio m) (l ++ [m]) in Ret (PriorityQueue.set_fair qs self)
    else Ret (PriorityQueue.set_heap (Heap.push m (heap self)) self)) (λ self',
    (self' = PriorityQueue.set_fair (fair_queues self') (PriorityQueue.set_heap (heap self') self)) ∧
    (fair_scheduling cfg = true → queues_ok (fair_queues self')) ∧ length (fair_queues self') = 4%nat ∧ contents self' ≡ₚ m :: contents self).
Proof.
  intros Hq Hb Hm Hs. pose proof (fair_concat cfg b T self q n Hq Hb) as Hfair. destruct Hq. unfold contents in *. rewrite q_config0 in *. destruct (fair_scheduling cfg) eqn:Ef.
  - specialize (q_fair0 eq_refl) as [_ Hqs]. pose proof (prio_range (priority m)). destruct (arr_get_range (fair_queues self) (prio m)) as (l & El & ->); [lia|]. cbn [obind].
    rewrite arr_set_ok by lia. cbn [obind returns]. split_and!; [by destruct self| |simpl; by rewrite length_insert|].
    + intros _. split; [simpl; by rewrite length_insert|]. intros i l' Ei. cbn [fair_queues PriorityQueue.set_fair] in Ei. apply list_lookup_insert_Some in Ei as [(<- & <- & _)|[_ Ei]]; [|by apply Hqs].
      destruct (Hqs _ l El) as [Hp Ha]. split; [apply Forall_app; split; [done|]; apply Forall_singleton; lia|].
      apply StronglySorted_app_2; [|done|by repeat constructor]. intros x y Hx ->%list_elem_of_singleton. specialize (Hfair eq_refl). rewrite Forall_forall in q_messages0.
      destruct (q_messages0 x) as [? _]; [rewrite Hfair; apply list_elem_of_In, in_concat; exists l; split; apply list_elem_of_In; [by eapply list_elem_of_lookup_2|done]|]. simpl. lia.
    + cbn [fair_queues PriorityQueue.set_fair config]. rewrite q_config0, Ef. by apply concat_insert_snoc.
  - cbn [returns]. split_and!; [by destruct self|done|done|]. cbn [heap PriorityQueue.set_heap config]. rewrite q_config0, Ef. unfold Heap.push. symmetry. apply Permutation_cons_append.
Qed.

Lemma enqueue_ok cfg b T self q n now msg p dest :
  config_ok cfg → queue_ok cfg b T self q n → 0 <= b < U64_MAX → 0 <= now <= T →
  returns (PriorityQueue.enqueue_queued (make now msg p dest) p self) (λ '(r, self'),
    let '(o, (q', n')) := spec_step cfg (q, n) (Enqueue now msg p dest) in o = Enqueued r ∧ queue_ok cfg (b + 1) T self' q' n').
Proof.
  intros (Hl4 & _ & _) Hq Hb Hn. unfold PriorityQueue.enqueue_queued. rewrite (queue_len _ _ _ _ _ _ Hq). cbn [spec_step]. pose proof Hq as [Hcfg]. rewrite Hcfg.
  destruct (Z.leb_spec (max_size cfg) (Z.of_nat (length q))).
  { eapply returns_mono; [apply (queue_drop_ok cfg b T self q n); (done || lia)|]. intros [r self'] [-> ?]. simpl. by split. }
  rewrite q_counts0, counts_lookup. cbn [obind]. destruct (arr_get_range (max_per_priority cfg) (Priority.as_u8 p)) as (lim & Elim & ->); [pose proof (prio_range p); lia|]. cbn [obind].
  unfold limit. rewrite Elim. cbn [from_option]. change (id lim) with lim. destruct (Z.leb_spec lim (count (Priority.as_u8 p) q)).
  { eapply returns_mono; [apply (queue_drop_ok cfg b T self q n); (done || lia)|]. intros [r self'] [-> ?]. simpl. by split. }
  set (m := make now msg p dest n). assert (priority m = p ∧ sequence m = n ∧ enqueued_at m = now) as (Ep & Es & Et) by by destruct dest.
  rewrite q_sequence0. fold m. pose proof (place_ok cfg b T self q n m Hq ltac:(lia) ltac:(unfold seq_ok; lia) Es) as Hpl.
  change (fair_scheduling (config (PriorityQueue.set_sequence (wrap64 (n + 1)) self))) with (fair_scheduling (config self)).
  change (fair_queues (PriorityQueue.set_sequence (wrap64 (n + 1)) self)) with (fair_queues self). change (heap (PriorityQueue.set_sequence (wrap64 (n + 1)) self)) with (heap self).
  rewrite Ep in Hpl. rewrite wrap64_small by lia. assert (∃ self1, (if fair_scheduling (config self) then
      let! l := arr_get (fair_queues self) (Priority.as_u8 p) in
      let! qs := arr_set (fair_queues self) (Priority.as_u8 p) (l ++ [m]) in Ret (PriorityQueue.set_fair qs (PriorityQueue.set_sequence (n + 1) self))
    else Ret (PriorityQueue.set_heap (Heap.push m (heap self)) (PriorityQueue.set_sequence (n + 1) self))) = Ret (PriorityQueue.set_sequence (n + 1) self1) ∧
    (self1 = PriorityQueue.set_fair (fair_queues self1) (PriorityQueue.set_heap (heap self1) self)) ∧
    (fair_scheduling cfg = true → queues_ok (fair_queues self1)) ∧ length (fair_queues self1) = 4%nat ∧ contents self1 ≡ₚ m :: contents self) as (self1 & -> & Eself & Hfq & H4 & Hcont).
  { destruct (fair_scheduling (config self)).
    - destruct (arr_get _ _) as [l| |]; [|done..]. cbn [obind] in *. destruct (arr_set _ _ _) as [qs| |]; [|done..]. cbn [obind returns] in *. exists (PriorityQueue.set_fair qs self). by split.
    - cbn [returns] in *. exists (PriorityQueue.set_heap (Heap.push m (heap self)) self). by split. }
  cbn [obind]. pose proof (class_count_nonneg (Priority.as_u8 p) q). pose proof (count_le (Priority.as_u8 p) q). pose proof (queue_short cfg b T self q n Hq) as Hln.
  rewrite usize_add_ok by lia. cbn [obind]. assert (priority_counts (PriorityQueue.set_sequence (n + 1) self1) = counts_of q) as -> by (rewrite Eself; done).
  rewrite <-Ep. rewrite (counts_set m q) by done. cbn [obind]. assert (stats (PriorityQueue.set_counts (counts_of (m :: q)) (PriorityQueue.set_sequence (n + 1) self1)) = stats self) as -> by (rewrite Eself; done).
  rewrite usize_add_ok by lia. cbn [obind]. destruct q_levels0 as [Hlv4 Hlv]. rewrite Ep. destruct (arr_get_range (by_priority (stats self)) (Priority.as_u8 p)) as (lv & Elv & ->); [pose proof (prio_range p); lia|].
  cbn [obind]. pose proof Hlv as Hlv'. rewrite Forall_lookup in Hlv'. pose proof (Hlv' _ _ Elv). rewrite usize_add_ok by lia. cbn [obind]. pose proof (prio_range p).
  rewrite arr_set_ok by lia. cbn [obind returns]. split; [done|].
  assert (insert_by key m q ≡ₚ m :: q) as Hperm by apply insert_by_perm.
  set (self2 := PriorityQueue.set_counts _ _).
  assert (contents self2 ≡ₚ m :: contents self) as Hcont2 by (rewrite <-Hcont; unfold self2, contents; simpl; done).
  assert (PriorityQueue.len self2 = Z.of_nat (S (length q))) as -> by (rewrite len_contents, Hcont2; simpl; by rewrite <-q_contents0).
  split; cbn [config next_sequence heap fair_queues priority_counts stats total_queue_time_ns PriorityQueue.set_stats PriorityQueue.set_counts PriorityQueue.set_sequence enqueued dequeued dropped current_size by_priority];
    try (done || lia).
  - unfold self2. simpl. by rewrite Eself.
  - rewrite Hperm. constructor; [split; lia|]. eapply Forall_impl; [done|]. simpl. lia.
  - rewrite Hperm. simpl. constructor; [|done]. rewrite Es. intros (x & Ex & Hx)%list_elem_of_fmap. rewrite Forall_forall in q_messages0. destruct (q_messages0 x Hx). lia.
  - by apply insert_by_ascends.
  - rewrite Hperm, q_contents0. rewrite <-Hcont2. done.
  - unfold self2. simpl. by rewrite Hperm.
  - rewrite Hperm. simpl. lia.
  - intros p'. rewrite Hperm, count_cons, Ep. specialize (q_limits0 p'). destruct (Z.eqb_spec (Priority.as_u8 p) (Priority.as_u8 p')) as [E|E]; [|lia].
    apply prio_inj in E as <-. unfold limit in *. rewrite Elim in *. simpl in *. lia.
  - rewrite Hperm. done.
  - split; [by rewrite length_insert|]. apply Forall_insert; [eapply Forall_impl; [done|]; simpl; lia|lia].
  - unfold self2. simpl. rewrite Eself. simpl. nia.
Qed.

(** *** Dequeue *)

(** What leaves is the first; the two ways to keep the messages. *)
Lemma take_first cfg b T self q n :
  queue_ok cfg b T self q n → b <= U64_MAX →
  let '(m, self') := (if fair_scheduling (config self) then let '(m, qs) := PriorityQueue.dequeue_fair (fair_queues self) in (m, PriorityQueue.set_fair qs self)
    else let '(m, h) := Heap.pop (heap self) in (m, PriorityQueue.set_heap h self)) in
  m = head q ∧ self' = PriorityQueue.set_fair (fair_queues self') (PriorityQueue.set_heap (heap self') self) ∧
  (fair_scheduling cfg = true → queues_ok (fair_queues self')) ∧ length (fair_queues self') = 4%nat ∧ contents self' ≡ₚ tail q.
Proof.
  intros Hq Hb. pose proof (fair_concat cfg b T self q n Hq Hb) as Hfair. destruct (queue_distinct cfg b T self q n Hq Hb) as [Hd Hd']. destruct Hq. unfold contents in *. rewrite q_config0 in *.
  destruct (fair_scheduling cfg) eqn:Ef.
  - specialize (Hfair eq_refl). specialize (q_fair0 eq_refl). pose proof (dequeue_fair_spec (fair_queues self)) as Hs. destruct (concat (fair_queues self)) as [|m l] eqn:Ec.
    + rewrite Hs, Hfair. split_and!; [done|by destruct self|done|done|]. simpl. by rewrite q_config0, Ef, Ec.
    + destruct Hs as (qs' & -> & El & Hlen & Hq'). rewrite Hfair. split_and!; [done|by destruct self| |simpl; lia|simpl; by rewrite q_config0, Ef, El].
      intros _. split; [simpl; lia|]. intros i q' Ei. destruct (Hq' i q' Ei) as (q0 & E0 & Hor). destruct q_fair0 as [_ Hqs]. destruct (Hqs i q0 E0) as [Hp Ha].
      destruct Hor as [-> | ->]; [done|]. apply Forall_cons in Hp as [_ Hp]. apply StronglySorted_inv in Ha as [Ha _]. done.
  - pose proof (heap_pop_spec (heap self) q Hd' q_order0 q_contents0) as Hs. destruct q as [|m q].
    + destruct Hs as [-> Hh]. split_and!; [done|by destruct self|done|done|]. simpl. by rewrite q_config0, Ef, Hh.
    + destruct Hs as (l' & -> & Hp & _). split_and!; [done|by destruct self|done|done|]. simpl. rewrite q_config0, Ef. apply (Permutation_cons_inv (a := m)). by rewrite <-Hp.
Qed.

Lemma dequeue_ok cfg b T self q n now :
  queue_ok cfg b T self q n → 0 <= b < U64_MAX → 0 <= now <= T → (b + 1) * T <= U64_MAX →
  returns (PriorityQueue.dequeue now self) (λ '(r, self'),
    let '(o, (q', n')) := spec_step cfg (q, n) (Dequeue now) in o = Dequeued r ∧ queue_ok cfg (b + 1) T self' q' n').
Proof.
  intros Hq Hb Hn HT. unfold PriorityQueue.dequeue. pose proof (take_first cfg b T self q n Hq ltac:(lia)) as Ht.
  destruct (if fair_scheduling (config self) then _ else _) as [msg self1]. destruct Ht as (-> & Eself & Hfq & H4 & Hcont). destruct Hq. cbn [spec_step].
  destruct q as [|m q]; cbn [head].
  - cbn [returns]. split; [done|]. simpl in Hcont. rewrite Eself in Hcont |- *. split; simpl; try (done || lia); try nia.
    destruct q_levels0 as [? Hf]. split; [done|]. eapply Forall_impl; [done|]. simpl. lia.
  - assert (priority_counts self1 = counts_of (m :: q)) as -> by by rewrite Eself. rewrite counts_lookup. cbn [obind]. pose proof (class_count_nonneg (prio m) q).
    rewrite counts_unset by (rewrite count_cons, Z.eqb_refl; unfold saturating_sub; lia). cbn [obind].
    assert (stats (PriorityQueue.set_counts (counts_of q) self1) = stats self) as -> by by rewrite Eself. rewrite usize_add_ok by lia. cbn [obind].
    apply Forall_cons in q_messages0 as [[_ Hm] Hms]. assert (0 <= QueuedMessage.queue_time now m <= T) as Hqt by (unfold QueuedMessage.queue_time, elapsed, saturating_sub; lia).
    assert (T <= U64_MAX) by nia. rewrite wrap64_small by lia. assert (total_queue_time_ns (PriorityQueue.set_counts (counts_of q) self1) = total_queue_time_ns self) as -> by by rewrite Eself.
    rewrite usize_add_ok by nia. cbn [obind returns]. split; [done|]. apply StronglySorted_inv in q_order0 as [Ho _]. simpl in q_distinct0. apply NoDup_cons in q_distinct0 as [_ Hnd]. simpl in Hcont, q_size0.
    set (self2 := PriorityQueue.set_counts (counts_of q) self1). assert (contents self2 ≡ₚ q) as Hc2 by (rewrite <-Hcont; done).
    assert (PriorityQueue.len self2 = Z.of_nat (length q)) as -> by by rewrite len_contents, Hc2.
    assert (config self2 = cfg ∧ next_sequence self2 = n) as [Ecfg En] by (unfold self2; simpl; by rewrite Eself).
    split; simpl; try (done || lia); try nia.
    + intros p. specialize (q_limits0 p). rewrite count_cons in q_limits0. destruct (_ =? _); lia.
    + destruct q_levels0 as [? Hf]. split; [done|]. eapply Forall_impl; [done|]. simpl. lia.
Qed.

(** *** Expiration *)

Lemma ascends_filter (k : QueuedMessage → Z) (f : QueuedMessage → bool) q : ascends k q → ascends k (List.filter f q).
Proof.
  induction 1 as [|m q Hs IH Hall]; simpl; [constructor|]. destruct (f m); [|done]. constructor; [done|]. rewrite Forall_forall in Hall |- *.
  intros x Hx%list_elem_of_In%filter_In. apply Hall, list_elem_of_In, Hx.
Qed.

Lemma filter_sublist (f : QueuedMessage → bool) q : List.filter f q `sublist_of` q.
Proof. induction q as [|m q IH]; simpl; [constructor|]. destruct (f m); by constructor. Qed.

Lemma filter_bool (f : QueuedMessage → bool) q : List.filter f q = base.filter (λ m, f m = true) q.
Proof. induction q as [|m q IH]; [done|]. rewrite filter_cons. simpl. destruct (f m); case_decide; try done. by rewrite IH. Qed.

Lemma filter_agree (P Q : QueuedMessage → Prop) `{!∀ m, Decision (P m)} `{!∀ m, Decision (Q m)} (l : list QueuedMessage) :
  (∀ m, m ∈ l → P m ↔ Q m) → base.filter P l = base.filter Q l.
Proof.
  induction l as [|m l IH]; intros Hl; [done|]. rewrite !filter_cons. pose proof (Hl m ltac:(left)). rewrite IH by (intros x Hx; apply Hl; by right).
  destruct (decide (P m)), (decide (Q m)); (done || tauto).
Qed.

Lemma filter_sublist_mono (P : QueuedMessage → Prop) `{!∀ m, Decision (P m)} (l l' : list QueuedMessage) : l `sublist_of` l' → base.filter P l `sublist_of` base.filter P l'.
Proof. induction 1 as [|x l l' Hs IH|x l l' Hs IH]; [done|rewrite !filter_cons|rewrite filter_cons]; case_decide; by repeat constructor. Qed.

Lemma NoDup_filter_fmap (f : QueuedMessage → bool) q : NoDup (sequence <$> q) → NoDup (sequence <$> List.filter f q).
Proof.
  induction q as [|m q IH]; simpl; [done|]. intros [Hm Hnd]%NoDup_cons. destruct (f m); [|by apply IH]. simpl. apply NoDup_cons. split; [|by apply IH].
  intros (x & Ex & Hx%list_elem_of_In%filter_In)%list_elem_of_fmap. apply Hm, list_elem_of_fmap. exists x. split; [done|]. by apply list_elem_of_In, Hx.
Qed.

(** What the expiration leaves, in either mode. *)
Definition cleaned (cfg : QueueConfig) (self self1 : PriorityQueue) (q' : list QueuedMessage) : Prop :=
  self1 = PriorityQueue.set_counts (counts_of q') (PriorityQueue.set_fair (fair_queues self1) (PriorityQueue.set_heap (heap self1) self)) ∧
  (fair_scheduling cfg = true → queues_ok (fair_queues self1)) ∧ length (fair_queues self1) = 4%nat ∧ contents self1 ≡ₚ q'.

Lemma filter_queues_ok f qs : queues_ok qs → queues_ok (List.filter f <$> qs).
Proof.
  intros [Hl Hqs]. split; [by rewrite length_fmap|]. intros i l (l0 & -> & E0)%list_lookup_fmap_Some. destruct (Hqs i l0 E0) as [Hp Ha]. split.
  - rewrite Forall_forall in Hp |- *. intros x Hx%list_elem_of_In%filter_In. by apply Hp, list_elem_of_In, Hx.
  - by apply ascends_filter.
Qed.

Lemma sum_lengths (qs : list (list QueuedMessage)) : sum_by (λ l, Z.of_nat (length l)) qs = Z.of_nat (length (concat qs)).
Proof. induction qs as [|x qs IH]; [done|]. unfold sum_by in *. simpl. rewrite IH, length_app. lia. Qed.

Lemma cleanup_fair cfg b T self q n max_age now :
  queue_ok cfg b T self q n → 0 <= b < U64_MAX → Z.of_nat (length q) <= U64_MAX → fair_scheduling cfg = true →
  let q' := List.filter (PriorityQueue.fresh max_age now) q in
  ∃ self1, (let! (qs, counts, removed) := PriorityQueue.cleanup_queues max_age now 0 (fair_queues self) (priority_counts self) 0 in
      Ret (removed, PriorityQueue.set_counts counts (PriorityQueue.set_fair qs self))) = Ret (Z.of_nat (length q) - Z.of_nat (length q'), self1) ∧ cleaned cfg self self1 q'.
Proof.
  intros Hq Hb Hlen Ef q'. pose proof (fair_concat cfg b T self q n Hq ltac:(lia) Ef) as Hfair. destruct Hq. specialize (q_fair0 Ef) as Hqs. rewrite q_counts0, Hfair, counts_queues by done.
  pose proof (cleanup_queues_spec max_age now (fair_queues self) [] 0) as Hc. simpl in Hc. change (Z.of_nat 0) with 0 in Hc. rewrite !sum_lengths, <-Hfair in Hc. rewrite Hc by lia. clear Hc. cbn [obind].
  assert (concat (List.filter (PriorityQueue.fresh max_age now) <$> fair_queues self) = q') as Eq' by (unfold q'; rewrite Hfair; apply concat_filter_map).
  pose proof (filter_queues_ok (PriorityQueue.fresh max_age now) _ Hqs) as Hqs'. eexists. split; [by rewrite Eq', <-Hfair|]. split_and!.
  - rewrite <-counts_queues, Eq' by done. by destruct self.
  - done.
  - simpl. by rewrite length_fmap.
  - unfold contents. simpl. by rewrite q_config0, Ef, Eq'.
Qed.

(** The messages whose sequence numbers are not those of stale messages are the fresh
    ones. *)
Lemma filter_expired f l : distinct l → base.filter (λ m, sequence m ∉ sequence <$> List.filter (λ m, negb (f m)) l) l = List.filter f l.
Proof.
  intros Hd. rewrite (filter_bool f l). apply filter_agree. intros m Hm. rewrite list_elem_of_fmap. split.
  - intros Hno. destruct (f m) eqn:Efm; [done|]. destruct Hno. exists m. split; [done|]. apply list_elem_of_In, filter_In. split; [by apply list_elem_of_In|by rewrite Efm].
  - intros Efm (m' & Es & Hm'%list_elem_of_In%filter_In). destruct Hm' as [Hm' Hn']. rewrite (distinct_eq l m m' Hd Hm) in Efm; [by rewrite Efm in Hn'|by apply list_elem_of_In|done].
Qed.

Lemma filter_none f (l : list QueuedMessage) : List.filter (λ m, negb (f m)) l = [] → List.filter f l = l.
Proof. induction l as [|m l IH]; [done|]. simpl. destruct (f m); [|done]. simpl. intros E. f_equal. by apply IH. Qed.

Lemma cleanup_unfair cfg b T self q n max_age now :
  queue_ok cfg b T self q n → 0 <= b < U64_MAX → Z.of_nat (length q) <= U64_MAX → fair_scheduling cfg = false →
  let q' := List.filter (PriorityQueue.fresh max_age now) q in
  let expired := sequence <$> List.filter (λ m, negb (PriorityQueue.fresh max_age now m)) (heap self) in
  ∃ self1, match expired with
      | [] => Ret (0, self)
      | _ => let! (h, counts, removed) := PriorityQueue.cleanup_heap expired (heap self) [] (priority_counts self) 0 in
        Ret (removed, PriorityQueue.set_counts counts (PriorityQueue.set_heap h self))
      end = Ret (Z.of_nat (length q) - Z.of_nat (length q'), self1) ∧ cleaned cfg self self1 q'.
Proof.
  intros Hq Hb Hlen Ef q' expired. destruct (queue_distinct cfg b T self q n Hq ltac:(lia)) as [_ Hd]. destruct Hq. unfold contents in *. rewrite q_config0, Ef in *. set (f := PriorityQueue.fresh max_age now) in *.
  assert (List.filter f (heap self) ≡ₚ q') as Hpq by (unfold q'; rewrite !filter_bool; by rewrite q_contents0).
  destruct expired as [|x expired'] eqn:Ex.
  - unfold expired in Ex. apply fmap_nil_inv, filter_none in Ex. rewrite Ex in Hpq. assert (length q' = length q) as El by (by rewrite <-Hpq, q_contents0).
    exists self. split; [f_equal; f_equal; lia|]. split_and!; [|intros ?; congruence|done|unfold contents; by rewrite q_config0, Ef].
    assert (counts_of q' = priority_counts self) as -> by (rewrite q_counts0, <-Hpq; by rewrite q_contents0). by destruct self.
  - rewrite <-Ex. rewrite q_counts0. destruct (cleanup_heap_spec expired (heap self) [] 0 ltac:(lia)) as (k & E & ->); [rewrite <-q_contents0; lia|].
    assert (base.filter (λ m, sequence m ∉ expired) (heap self) = List.filter f (heap self)) as Eh by (apply (filter_expired f); exact Hd). rewrite Eh in E. cbn [app] in E. assert (counts_of (heap self) = counts_of q) as Ecq by by rewrite q_contents0. rewrite Ecq in E. rewrite E. cbn [obind].
    eexists. split; [f_equal; f_equal; rewrite Hpq, q_contents0; lia|]. split_and!; [|intros ?; congruence|done|unfold contents; simpl; by rewrite q_config0, Ef].
    assert (counts_of (List.filter f (heap self)) = counts_of q') as -> by (by rewrite Hpq). by destruct self.
Qed.

Lemma cleanup_ok cfg b T self q n now :
  queue_ok cfg b T self q n → 0 <= b < U64_MAX → 0 <= T →
  returns (PriorityQueue.cleanup_expired now self) (λ '(r, self'),
    let '(o, (q', n')) := spec_step cfg (q, n) (Cleanup now) in o = Cleaned r ∧ queue_ok cfg (b + 1) T self' q' n').
Proof.
  intros Hq Hb HT. unfold PriorityQueue.cleanup_expired. cbn [spec_step]. pose proof (queue_short cfg b T self q n Hq) as Hln. pose proof Hq as [Hcfg _ Hnb]. rewrite Hcfg.
  set (max_age := max_age_ms cfg * 1000000). set (q' := List.filter (PriorityQueue.fresh max_age now) q).
  pose proof (cleanup_fair cfg b T self q n max_age now Hq Hb ltac:(lia)) as Hfair. pose proof (cleanup_unfair cfg b T self q n max_age now Hq Hb ltac:(lia)) as Hheap. fold q' in Hfair, Hheap.
  assert (∃ self1, (if fair_scheduling cfg then
      let! (qs, counts, removed) := PriorityQueue.cleanup_queues max_age now 0 (fair_queues self) (priority_counts self) 0 in
      Ret (removed, PriorityQueue.set_counts counts (PriorityQueue.set_fair qs self))
    else match sequence <$> List.filter (λ m, negb (PriorityQueue.fresh max_age now m)) (heap self) with
      | [] => Ret (0, self)
      | _ => let! (h, counts, removed) := PriorityQueue.cleanup_heap (sequence <$> List.filter (λ m, negb (PriorityQueue.fresh max_age now m)) (heap self)) (heap self) [] (priority_counts self) 0 in
        Ret (removed, PriorityQueue.set_counts counts (PriorityQueue.set_heap h self))
      end) = Ret (Z.of_nat (length q) - Z.of_nat (length q'), self1) ∧ cleaned cfg self self1 q') as (self1 & E1 & Eself & Hfq & H4 & Hcont) by (destruct (fair_scheduling cfg); auto).
  clear Hfair Hheap. rewrite E1. cbn [obind returns]. split; [done|]. assert (q' `sublist_of` q) as Hsub by apply filter_sublist. pose proof (sublist_length _ _ Hsub).
  assert (PriorityQueue.len self1 = Z.of_nat (length q')) as -> by by rewrite len_contents, Hcont. rewrite Eself in Hcont, H4, Hfq |- *. destruct Hq.
  split; simpl in *; try (done || lia); try nia.
  - rewrite Forall_forall in q_messages0 |- *. intros x Hx%list_elem_of_In%filter_In. apply q_messages0, list_elem_of_In, Hx.
  - by apply NoDup_filter_fmap.
  - by apply ascends_filter.
  - intros p. specialize (q_limits0 p). assert (count (Priority.as_u8 p) q' <= count (Priority.as_u8 p) q); [|lia].
    unfold count, count_if. apply inj_le, sublist_length. by apply filter_sublist_mono.
  - destruct q_levels0 as [? Hf]. split; [done|]. eapply Forall_impl; [done|]. simpl. lia.
Qed.

Lemma clear_ok cfg b T self q n :
  config_ok cfg → queue_ok cfg b T self q n → 0 <= b → 0 <= T → queue_ok cfg (b + 1) T (PriorityQueue.clear self) [] n.
Proof.
  intros (_ & Hm & Hf) Hq Hb HT. destruct Hq. assert (concat ((λ _ : list QueuedMessage, @nil QueuedMessage) <$> fair_queues self) = []) as Ec by (clear; by induction (fair_queues self)).
  split; simpl; try (done || lia); try nia.
  - constructor.
  - intros Hfs. destruct (q_fair0 Hfs) as [Hl _]. split; [by rewrite length_fmap|]. intros i q' (q0 & -> & _)%list_lookup_fmap_Some. split; constructor.
  - by rewrite length_fmap.
  - constructor.
  - unfold contents. simpl. rewrite q_config0, Ec. by destruct (fair_scheduling cfg).
  - intros p. specialize (q_limits0 p). pose proof (class_count_nonneg (Priority.as_u8 p) q). change (count (Priority.as_u8 p) []) with 0. lia.
  - destruct q_levels0 as [? Hfl]. split; [done|]. eapply Forall_impl; [done|]. simpl. lia.
Qed.

(** *** Histories *)

Definition event_time (e : event) : option Z := match e with Enqueue now _ _ _ | Dequeue now | Cleanup now => Some now | Clear => None end.

Definition in_time (T : Z) (e : event) : Prop := match event_time e with Some now => 0 <= now <= T | None => True end.

Lemma queue_step_ok cfg b T self q n e :
  config_ok cfg → queue_ok cfg b T self q n → 0 <= b < U64_MAX → 0 <= T → (b + 1) * T <= U64_MAX → in_time T e →
  returns (queue_step self e) (λ '(o, self'), let '(o', (q', n')) := spec_step cfg (q, n) e in o = o' ∧ queue_ok cfg (b + 1) T self' q' n').
Proof.
  intros Hc Hq Hb HT HbT Ht. unfold in_time in Ht. destruct e as [now m p dest|now|now|]; cbn [event_time] in Ht; cbn [queue_step].
  - pose proof (enqueue_ok cfg b T self q n now m p dest Hc Hq Hb Ht) as He. destruct dest as [d|];
      unfold PriorityQueue.enqueue_with_priority, PriorityQueue.enqueue_to_with_priority, make in *;
      (destruct (PriorityQueue.enqueue_queued _ _ _) as [[r self']| |]; [|done..]); cbn [obind returns] in *;
      (destruct (spec_step cfg (q, n) _) as [o' [q' n']]); by destruct He as [-> ?].
  - pose proof (dequeue_ok cfg b T self q n now Hq Hb Ht HbT) as Hd. destruct (PriorityQueue.dequeue now self) as [[r self']| |]; [|done..]. cbn [obind returns] in *.
    destruct (spec_step cfg (q, n) _) as [o' [q' n']]. by destruct Hd as [-> ?].
  - pose proof (cleanup_ok cfg b T self q n now Hq Hb HT) as Hd. destruct (PriorityQueue.cleanup_expired now self) as [[r self']| |]; [|done..]. cbn [obind returns] in *.
    destruct (spec_step cfg (q, n) _) as [o' [q' n']]. by destruct Hd as [-> ?].
  - cbn [returns spec_step]. split; [done|]. by apply (clear_ok cfg b T self q); [..|lia|].
Qed.

Lemma queue_run_ok cfg T es : ∀ b self q n,
  config_ok cfg → queue_ok cfg b T self q n → 0 <= b → 0 <= T → b + Z.of_nat (length es) <= U64_MAX → (b + Z.of_nat (length es)) * T <= U64_MAX → Forall (in_time T) es →
  returns (queue_run self es) (λ '(os, self'), let '(os', (q', n')) := spec_run cfg (q, n) es in os = os' ∧ queue_ok cfg (b + Z.of_nat (length es)) T self' q' n').
Proof.
  induction es as [|e es IH]; intros b self q n Hc Hq Hb HT Hl HlT Ht; cbn [queue_run spec_run]; [cbn [returns]; split; [done|]; by rewrite Z.add_0_r|].
  apply Forall_cons in Ht as [Ht Hts]. simpl length in *. pose proof (queue_step_ok cfg b T self q n e Hc Hq ltac:(lia) HT ltac:(nia) Ht) as Hs.
  destruct (queue_step self e) as [[o self1]| |]; [|done..]. cbn [returns obind] in *. destruct (spec_step cfg (q, n) e) as [o' [q1 n1]]. destruct Hs as [-> Hq1].
  pose proof (IH (b + 1) self1 q1 n1 Hc Hq1 ltac:(lia) HT ltac:(lia) ltac:(nia) Hts) as Hr. destruct (queue_run self1 es) as [[os self2]| |]; [|done..]. cbn [returns obind] in *.
  destruct (spec_run cfg (q1, n1) es) as [os' [q2 n2]]. destruct Hr as [-> Hq2]. split; [done|]. by replace (b + Z.of_nat (S (length es))) with (b + 1 + Z.of_nat (length es)) by lia.
Qed.

(** C16. The queue is a list in the order of priority and, within a priority, of arrival:
    for every sequence of calls, in both modes, no call panics and every answer is that
    of the list.  A message is refused exactly when the queue or its priority is full;
    what is dequeued is the first message; what expires leaves; and the number of
    waiting messages and the counts by priority stay within their limits.  (The calls are
    few enough for the sum of all waiting times to fit in 64 bits.)  Making the queue
    panics only when its capacity, in bytes, passes [isize::MAX]. *)
Theorem priority_queue_refines size cfg T es :
  config_ok cfg → 0 <= T → Z.of_nat (length es) <= U64_MAX → Z.of_nat (length es) * T <= U64_MAX → Forall (in_time T) es →
  match PriorityQueue.with_config size cfg with
  | Ret self => returns (queue_run self es) (λ '(os, self),
      let '(os', (q, _)) := spec_run cfg ([], 0) es in
      os = os' ∧ PriorityQueue.peek self = head q ∧ PriorityQueue.len self = Z.of_nat (length q) ∧ Z.of_nat (length q) <= max_size cfg ∧
      ∀ p, returns (PriorityQueue.count_by_priority p self) (λ c, c = count (Priority.as_u8 p) q ∧ c <= limit cfg p))
  | Panic => 2 ^ 63 - 1 < max_size cfg * size
  | Timeout => False
  end.
Proof.
  intros Hc HT Hl HlT Ht. unfold PriorityQueue.with_config. destruct (Z.ltb_spec (2 ^ 63 - 1) (max_size cfg * size)) as [Hbig|_]; [exact Hbig|].
  eapply returns_mono; [apply (queue_run_ok cfg T es 0 _ [] 0 Hc (fresh_queue_ok cfg T Hc HT)); (done || lia)|].
  intros [os self]. destruct (spec_run cfg ([], 0) es) as [os' [q n]]. intros [-> Hq]. split_and!; [done|by eapply peek_head|by eapply queue_len|by destruct Hq|].
  intros p. unfold PriorityQueue.count_by_priority. destruct Hq. rewrite q_counts0, counts_lookup. cbn [returns]. split; [done|]. apply q_limits0.
Qed.

(** Fair scheduling or not: the answers are the same. *)
Definition with_mode (fair : bool) (cfg : QueueConfig) : QueueConfig := mkQueueConfig (max_size cfg) (max_per_priority cfg) (max_age_ms cfg) fair.

Lemma spec_run_mode fair cfg s es : spec_run (with_mode fair cfg) s es = spec_run cfg s es.
Proof. revert s. induction es as [|e es IH]; intros [q n]; [done|]. cbn [spec_run]. assert (spec_step (with_mode fair cfg) (q, n) e = spec_step cfg (q, n) e) as -> by by destruct e. destruct (spec_step cfg (q, n) e) as [o s']. by rewrite IH. Qed.

(** The switch for fair scheduling changes nothing that can be seen: the heap and the
    four queues give the same answers to every sequence of calls. *)
Theorem scheduling_modes_equivalent cfg T es :
  config_ok cfg → 0 <= T → Z.of_nat (length es) <= U64_MAX → Z.of_nat (length es) * T <= U64_MAX → Forall (in_time T) es →
  ∃ os self self', queue_run (PriorityQueue.empty (with_mode true cfg)) es = Ret (os, self) ∧
    queue_run (PriorityQueue.empty (with_mode false cfg)) es = Ret (os, self').
Proof.
  intros Hc HT Hl HlT Ht. pose proof (λ fair, queue_run_ok (with_mode fair cfg) T es 0 _ [] 0 Hc (fresh_queue_ok (with_mode fair cfg) T Hc HT) ltac:(lia) HT Hl HlT Ht) as Hr.
  pose proof (Hr true) as H1. pose proof (Hr false) as H2. rewrite spec_run_mode in H1, H2. destruct (spec_run cfg ([], 0) es) as [os [q n]].
  destruct (queue_run _ es) as [[os1 self]| |]; [|done..]. destruct (queue_run _ es) as [[os2 self']| |]; [|done..]. simpl in H1, H2. destruct H1 as [-> _], H2 as [-> _]. eauto.
Qed.

Definition small_config : QueueConfig := mkQueueConfig 3 [1; 2; 2; 2] 5 true.
Definition small_events : list event :=
  [Enqueue 0 (Ping 1) Low None; Enqueue 1 (Ping 2) High (Some []); Enqueue 2 (Ping 3) Low None; Enqueue 3 (Ping 4) Low None; Dequeue 4; Cleanup 5000001; Dequeue 5000002].

Lemma small_config_ok : config_ok small_config.
Proof. split_and!; [done|done|]. repeat constructor; lia. Qed.

Lemma small_in_time : Forall (in_time 6000000) small_events.
Proof. repeat constructor; simpl; lia. Qed.

Lemma priority_queue_refines_witness :
  (∃ self0, PriorityQueue.with_config 200 small_config = Ret self0 ∧
     returns (queue_run self0 small_events) (λ '(os, self), os = (spec_run small_config ([], 0) small_events).1 ∧ PriorityQueue.len self = 0)) ∧
  (spec_run small_config ([], 0) small_events).1 =
  [Enqueued (Ok 0); Enqueued (Ok 1); Enqueued (Ok 2); Enqueued (Err (TransportError PriorityQueue.msg_capacity));
   Dequeued (Some (QueuedMessage.with_destination 1 (Ping 2) High 1 [])); Cleaned 1; Dequeued (Some (QueuedMessage.new 2 (Ping 3) Low 2))].
Proof.
  assert (PriorityQueue.with_config 200 small_config = Ret (PriorityQueue.empty small_config)) as E0 by (vm_compute; reflexivity).
  split; [|by vm_compute]. exists (PriorityQueue.empty small_config). split; [exact E0|].
  pose proof (priority_queue_refines 200 small_config 6000000 small_events small_config_ok ltac:(lia) ltac:(simpl; lia) ltac:(simpl; lia) small_in_time) as H.
  rewrite E0 in H. eapply returns_mono; [exact H|].
  intros [os self]. destruct (spec_run small_config ([], 0) small_events) as [os' [q n]] eqn:E. intros (-> & _ & -> & _). vm_compute in E. injection E as _ <- _. split; reflexivity.
Defined.

Lemma scheduling_modes_equivalent_witness :
  ∃ os self self', queue_run (PriorityQueue.empty (with_mode true small_config)) small_events = Ret (os, self) ∧
    queue_run (PriorityQueue.empty (with_mode false small_config)) small_events = Ret (os, self').
Proof. apply (scheduling_modes_equivalent small_config 6000000 small_events); [apply small_config_ok|simpl; lia..|apply small_in_time]. Defined.

(** ** What was found *)

(** The waiting times of all messages are added up in 64 bits: when they come to more than
    2^64 nanoseconds, taking a message out panics. *)
Lemma total_time_overflows :
  let self := mkQueue [] [[]; []; []; [QueuedMessage.new 0 (Ping 1) Low 0]] 1 QueueConfig.default [0; 0; 0; 1] (mkQueueStats 1 0 0 1 [0; 0; 0; 1] 0) U64_MAX in
  PriorityQueue.dequeue 1 self = Panic.
Proof. by vm_compute. Qed.
