(* ===== verification/Retry.v ===== *)
(** * Retries and circuit breaker (mielin-mesh/wire/src/retry.rs)

    Delays, the circuit breaker, and the executor that combines them.  The state of a
    breaker is behind a lock and every method takes it once, so that a call of a method
    is one step.  Durations and times are nanoseconds.  The random number of the jitter
    comes from a third-party crate ([Rng]).  The executor runs in a world [W] that
    answers to the operation, to the clock and to sleeping; nobody else uses its
    breaker meanwhile. *)

From stdpp Require Import base tactics option list numbers.
From Stdlib Require Import SpecFloat.
From S2P Require Import Prelude Float Bytes Negotiation.

Definition millis (ms : Z) : Z := ms * 1000000.
Definition as_millis (ns : Z) : Z := ns / 1000000.
Definition saturating_mul (a b : Z) : Z := Z.min (a * b) U64_MAX.
Definition saturating_add (a b : Z) : Z := Z.min (a + b) U64_MAX.
Definition saturating_pow (a n : Z) : Z := Z.min (a ^ n) U64_MAX.

(* src: mielin-mesh/wire/src/retry.rs 14-14 DEFAULT_BASE_DELAY *)
Definition DEFAULT_BASE_DELAY : Z := millis 100.
(* src: mielin-mesh/wire/src/retry.rs 17-17 DEFAULT_MAX_DELAY *)
Definition DEFAULT_MAX_DELAY : Z := millis 30000.
(* src: mielin-mesh/wire/src/retry.rs 20-20 DEFAULT_MAX_ATTEMPTS *)
Definition DEFAULT_MAX_ATTEMPTS : Z := 5.
(* src: mielin-mesh/wire/src/retry.rs 23-23 DEFAULT_FAILURE_THRESHOLD *)
Definition DEFAULT_FAILURE_THRESHOLD : Z := 5.
(* src: mielin-mesh/wire/src/retry.rs 26-26 DEFAULT_CIRCUIT_TIMEOUT *)
Definition DEFAULT_CIRCUIT_TIMEOUT : Z := millis 60000.

(* src: mielin-mesh/wire/src/retry.rs 30-40 RetryStrategy *)
Inductive RetryStrategy : Type := Fixed | Exponential | Fibonacci | Linear.

(* src: mielin-mesh/wire/src/retry.rs 44-57 RetryPolicy *)
Record RetryPolicy : Type := mkPolicy {
  strategy : RetryStrategy;
  base_delay : Z;
  max_delay : Z;
  max_attempts : Z;
  use_jitter : bool;
  jitter_factor : spec_float;
}.

(** [rand]'s generator: a number in a range that is not empty, in a state of its own;
    an empty range makes it panic. *)
Class Rng (R : Type) : Type := { random_range : spec_float → spec_float → R → outcome (spec_float * R) }.

Class RngLaws (R : Type) `{Rng R} : Prop := {
  random_range_empty lo hi r : SFltb lo hi = false → random_range lo hi r = Panic;
  random_range_in lo hi r : SFltb lo hi = true → returns (random_range lo hi r) (λ '(x, _), SFleb lo x = true ∧ SFltb x hi = true);
}.

Module RetryPolicy.

(* src: mielin-mesh/wire/src/retry.rs 60-69 RetryPolicy::default *)
Definition default : RetryPolicy := mkPolicy Exponential DEFAULT_BASE_DELAY DEFAULT_MAX_DELAY DEFAULT_MAX_ATTEMPTS true (f64_lit 3 10).
(* src: mielin-mesh/wire/src/retry.rs 109-118 RetryPolicy::aggressive *)
Definition aggressive : RetryPolicy := mkPolicy Exponential (millis 50) (millis 5000) 10 true (f64_lit 3 10).
(* src: mielin-mesh/wire/src/retry.rs 121-130 RetryPolicy::conservative *)
Definition conservative : RetryPolicy := mkPolicy Linear (millis 1000) (millis 60000) 3 true (f64_lit 2 10).

(* src: mielin-mesh/wire/src/retry.rs 79-82 RetryPolicy::with_strategy *)
Definition with_strategy (s : RetryStrategy) (self : RetryPolicy) : RetryPolicy :=
  mkPolicy s (base_delay self) (max_delay self) (max_attempts self) (use_jitter self) (jitter_factor self).
(* src: mielin-mesh/wire/src/retry.rs 85-88 RetryPolicy::with_base_delay *)
Definition with_base_delay (d : Z) (self : RetryPolicy) : RetryPolicy :=
  mkPolicy (strategy self) d (max_delay self) (max_attempts self) (use_jitter self) (jitter_factor self).
(* src: mielin-mesh/wire/src/retry.rs 91-94 RetryPolicy::with_max_delay *)
Definition with_max_delay (d : Z) (self : RetryPolicy) : RetryPolicy :=
  mkPolicy (strategy self) (base_delay self) d (max_attempts self) (use_jitter self) (jitter_factor self).
(* src: mielin-mesh/wire/src/retry.rs 97-100 RetryPolicy::with_max_attempts *)
Definition with_max_attempts (n : Z) (self : RetryPolicy) : RetryPolicy :=
  mkPolicy (strategy self) (base_delay self) (max_delay self) n (use_jitter self) (jitter_factor self).
(* src: mielin-mesh/wire/src/retry.rs 103-106 RetryPolicy::with_jitter *)
Definition with_jitter (j : bool) (self : RetryPolicy) : RetryPolicy :=
  mkPolicy (strategy self) (base_delay self) (max_delay self) (max_attempts self) j (jitter_factor self).

(** One round of the loop. *)
(* src: mielin-mesh/wire/src/retry.rs 191-195 RetryPolicy::fibonacci (loop body) *)
Definition fib_round (ab : Z * Z) : Z * Z := let '(a, b) := ab in (b, saturating_add a b).

(* src: mielin-mesh/wire/src/retry.rs 183-198 RetryPolicy::fibonacci *)
Definition fibonacci (n : Z) : Z :=
  if n <=? 1 then 1 else (Nat.iter (Z.to_nat (n - 1)) fib_round (1, 1)).2.

Section jitter.
Context {R : Type} `{Rng R}.

(* src: mielin-mesh/wire/src/retry.rs 170-180 RetryPolicy::apply_jitter *)
Definition apply_jitter (self : RetryPolicy) (delay : Z) (rng : R) : outcome (Z * R) :=
  let delay_millis := f64_of_u64 (as_millis delay) in
  let jitter_range := f64_mul delay_millis (jitter_factor self) in
  let! (jitter, rng) := random_range (SFopp jitter_range) jitter_range rng in
  let final_millis := f64_as_usize (f64_max (f64_add delay_millis jitter) f64_zero) in
  Ret (millis final_millis, rng).

(** The delay before the jitter. *)
(* src: mielin-mesh/wire/src/retry.rs 139-159 RetryPolicy::calculate_delay (before the jitter) *)
Definition plain_delay (self : RetryPolicy) (attempt : Z) : Z :=
  let base_millis := wrap64 (as_millis (base_delay self)) in
  let delay_millis :=
    match strategy self with
    | Fixed => base_millis
    | Exponential => saturating_mul base_millis (saturating_pow 2 attempt)
    | Fibonacci => saturating_mul base_millis (fibonacci attempt)
    | Linear => saturating_mul base_millis (attempt + 1)
    end in
  millis (Z.min delay_millis (wrap64 (as_millis (max_delay self)))).

(* src: mielin-mesh/wire/src/retry.rs 138-167 RetryPolicy::calculate_delay *)
Definition calculate_delay (self : RetryPolicy) (attempt : Z) (rng : R) : outcome (Z * R) :=
  let delay := plain_delay self attempt in
  if use_jitter self then apply_jitter self delay rng else Ret (delay, rng).

End jitter.
End RetryPolicy.

(** ** Circuit breaker *)

(* src: mielin-mesh/wire/src/retry.rs 203-210 CircuitState *)
Inductive CircuitState : Type := Closed | Open | HalfOpen.

#[global] Instance CircuitState_eq_dec : EqDecision CircuitState.
Proof. solve_decision. Defined.

(* src: mielin-mesh/wire/src/retry.rs 220-229 CircuitBreakerConfig *)
Record CircuitBreakerConfig : Type := mkBreakerConfig {
  failure_threshold : Z;
  success_threshold : Z;
  timeout : Z;
  metrics_window : Z;
}.

(* src: mielin-mesh/wire/src/retry.rs 243-251 CircuitBreakerState *)
Record CircuitBreakerState : Type := mkBreaker {
  state : CircuitState;
  failure_count : Z;
  success_count : Z;
  last_failure_time : option Z;
  opened_at : option Z;
  total_requests : Z;
  total_failures : Z;
}.

Module CircuitBreaker.
Implicit Types (self : CircuitBreakerState) (config : CircuitBreakerConfig).

(* src: mielin-mesh/wire/src/retry.rs 232-239 CircuitBreakerConfig::default *)
Definition default_config : CircuitBreakerConfig := mkBreakerConfig DEFAULT_FAILURE_THRESHOLD 2 DEFAULT_CIRCUIT_TIMEOUT (millis 60000).

(* src: mielin-mesh/wire/src/retry.rs 254-264 CircuitBreakerState::default *)
Definition new : CircuitBreakerState := mkBreaker Closed 0 0 None None 0 0.

(** "Circuit breaker is open". *)
Definition msg_open : str := [67;105;114;99;117;105;116;32;98;114;101;97;107;101;114;32;105;115;32;111;112;101;110].

(* src: mielin-mesh/wire/src/retry.rs 282-309 CircuitBreaker::can_proceed *)
Definition can_proceed config (now : Z) self : outcome (result unit WireError * CircuitBreakerState) :=
  let! requests := usize_add (total_requests self) 1 in
  let self := mkBreaker (state self) (failure_count self) (success_count self) (last_failure_time self) (opened_at self) requests (total_failures self) in
  match state self with
  | Closed => Ret (Ok (), self)
  | Open =>
    match opened_at self with
    | Some at_ =>
      if timeout config <=? elapsed at_ now then
        Ret (Ok (), mkBreaker HalfOpen (failure_count self) 0 (last_failure_time self) (opened_at self) (total_requests self) (total_failures self))
      else Ret (Err (TransportError msg_open), self)
    | None => Ret (Err (TransportError msg_open), self)
    end
  | HalfOpen => Ret (Ok (), self)
  end.

(* src: mielin-mesh/wire/src/retry.rs 312-336 CircuitBreaker::record_success *)
Definition record_success config self : outcome CircuitBreakerState :=
  match state self with
  | Closed => Ret (mkBreaker Closed 0 (success_count self) None (opened_at self) (total_requests self) (total_failures self))
  | HalfOpen =>
    let! s := u32_add (success_count self) 1 in
    if success_threshold config <=? s then
      Ret (mkBreaker Closed 0 0 (last_failure_time self) None (total_requests self) (total_failures self))
    else Ret (mkBreaker HalfOpen (failure_count self) s (last_failure_time self) (opened_at self) (total_requests self) (total_failures self))
  | Open => Ret self
  end.

(** The clock is read for the failure, and again when the circuit opens. *)
(* src: mielin-mesh/wire/src/retry.rs 339-368 CircuitBreaker::record_failure *)
Definition record_failure config (now now' : Z) self : outcome CircuitBreakerState :=
  let! failures := usize_add (total_failures self) 1 in
  match state self with
  | Closed =>
    let! f := u32_add (failure_count self) 1 in
    if failure_threshold config <=? f then
      Ret (mkBreaker Open 0 (success_count self) (Some now) (Some now') (total_requests self) failures)
    else Ret (mkBreaker Closed f (success_count self) (Some now) (opened_at self) (total_requests self) failures)
  | HalfOpen => Ret (mkBreaker Open (failure_count self) 0 (Some now) (Some now') (total_requests self) failures)
  | Open => Ret (mkBreaker Open (failure_count self) (success_count self) (Some now) (opened_at self) (total_requests self) failures)
  end.

(* src: mielin-mesh/wire/src/retry.rs 389-396 CircuitBreaker::reset *)
Definition reset self : CircuitBreakerState :=
  mkBreaker Closed 0 0 (last_failure_time self) None (total_requests self) (total_failures self).

End CircuitBreaker.

(** ** Executor *)

(* src: mielin-mesh/wire/src/retry.rs 412-415 RetryExecutor *)
Record RetryExecutor : Type := mkExecutor { policy : RetryPolicy; circuit_breaker : option CircuitBreakerConfig }.

(** The world of an execution: an operation that succeeds or fails, a clock, sleep, and
    random numbers. *)
Class World (W T : Type) : Type := {
  operation : W → result T WireError * W;
  clock : W → Z * W;
  sleep : Z → W → W;
}.

Module RetryExecutor.
Section executor.
Context {W T : Type} `{World W T} `{Rng W}.

(** The breaker, if there is one. *)
(* src: mielin-mesh/wire/src/retry.rs 440-442 RetryExecutor::execute (check) *)
Definition check (cb : option CircuitBreakerConfig) (b : CircuitBreakerState) (w : W) : outcome (result unit WireError * CircuitBreakerState * W) :=
  match cb with
  | Some config =>
    let '(now, w) := clock w in
    let! (r, b) := CircuitBreaker.can_proceed config now b in Ret (r, b, w)
  | None => Ret (Ok (), b, w)
  end.
(* src: mielin-mesh/wire/src/retry.rs 447-449 RetryExecutor::execute (success) *)
Definition succeeded (cb : option CircuitBreakerConfig) (b : CircuitBreakerState) : outcome CircuitBreakerState :=
  match cb with Some config => CircuitBreaker.record_success config b | None => Ret b end.
(* src: mielin-mesh/wire/src/retry.rs 453-455 RetryExecutor::execute (failure) *)
Definition failed (cb : option CircuitBreakerConfig) (b : CircuitBreakerState) (w : W) : outcome (CircuitBreakerState * W) :=
  match cb with
  | Some config =>
    let '(now, w) := clock w in
    let '(now', w) := clock w in
    let! b := CircuitBreaker.record_failure config now now' b in Ret (b, w)
  | None => Ret (b, w)
  end.

(** "Max retry attempts exceeded". *)
Definition msg_exceeded : str := [77;97;120;32;114;101;116;114;121;32;97;116;116;101;109;112;116;115;32;101;120;99;101;101;100;101;100].

(** The loop from [attempt] on, with [n] attempts left. *)
(* src: mielin-mesh/wire/src/retry.rs 438-475 RetryExecutor::execute (loop) *)
Fixpoint attempt_loop (self : RetryExecutor) (n : nat) (attempt : Z) (b : CircuitBreakerState) (w : W) : outcome (result T WireError * CircuitBreakerState * W) :=
  match n with
  | O => Ret (Err (TransportError msg_exceeded), b, w)
  | S n' =>
    let! (r, b, w) := check (circuit_breaker self) b w in
    match r with
    | Err e => Ret (Err e, b, w)
    | Ok _ =>
      let '(r, w) := operation w in
      match r with
      | Ok v => let! b := succeeded (circuit_breaker self) b in Ret (Ok v, b, w)
      | Err e =>
        let! (b, w) := failed (circuit_breaker self) b w in
        let! next := u32_add attempt 1 in
        if max_attempts (policy self) <=? next then Ret (Err e, b, w)
        else
          let! (delay, w) := RetryPolicy.calculate_delay (policy self) attempt w in
          attempt_loop self n' next b (sleep delay w)
      end
    end
  end.

(* src: mielin-mesh/wire/src/retry.rs 433-480 RetryExecutor::execute *)
Definition execute (self : RetryExecutor) (b : CircuitBreakerState) (w : W) : outcome (result T WireError * CircuitBreakerState * W) :=
  attempt_loop self (Z.to_nat (max_attempts (policy self))) 0 b w.

End executor.
End RetryExecutor.
