(* ===== verification/RetryProps.v ===== *)
(** * Retries and circuit breaker: theorems *)

From stdpp Require Import base tactics option list numbers.
From Stdlib Require Import SpecFloat.
From S2P Require Import Prelude Float Bytes Negotiation Retry.

(** ** Delays *)

(** The sequence 1, 1, 2, 3, 5, ... *)
Fixpoint fib (n : nat) : Z :=
  match n with
  | O => 1
  | S m => match m with O => 1 | S k => fib m + fib k end
  end.

Lemma fib_pos n : 1 <= fib n ∧ 1 <= fib (S n).
Proof. induction n as [|n [IH1 IH2]]; [simpl; lia|]. split; [done|]. change (fib (S (S n))) with (fib (S n) + fib n). lia. Qed.

Lemma fib_mono n m : (n <= m)%nat → fib n <= fib m.
Proof.
  induction 1 as [|m Hle IH]; [done|]. destruct m as [|m]; [done|]. change (fib (S (S m))) with (fib (S m) + fib m). pose proof (fib_pos m). lia.
Qed.

Lemma fib_iter n : Nat.iter n RetryPolicy.fib_round (1, 1) = (Z.min (fib n) U64_MAX, Z.min (fib (S n)) U64_MAX).
Proof.
  induction n as [|n IH]; [done|]. cbn [Nat.iter nat_rect]. unfold Nat.iter in IH. rewrite IH. cbn [RetryPolicy.fib_round]. f_equal.
  change (fib (S (S n))) with (fib (S n) + fib n). unfold saturating_add. pose proof (fib_pos n). lia.
Qed.

Lemma fibonacci_exact n : 0 <= n → RetryPolicy.fibonacci n = Z.min (fib (Z.to_nat n)) U64_MAX.
Proof.
  intros Hn. unfold RetryPolicy.fibonacci. destruct (Z.leb_spec n 1).
  - assert (n = 0 ∨ n = 1) as [-> | ->] by lia; done.
  - rewrite fib_iter. cbn [snd]. by replace (S (Z.to_nat (n - 1))) with (Z.to_nat n) by lia.
Qed.

(** By how much the base delay is multiplied. *)
Definition growth (s : RetryStrategy) (attempt : Z) : Z :=
  match s with
  | Fixed => 1
  | Exponential => 2 ^ attempt
  | Fibonacci => fib (Z.to_nat attempt)
  | Linear => attempt + 1
  end.

Lemma growth_pos s n : 0 <= n → 1 <= growth s n.
Proof. intros Hn. destruct s; simpl; [lia| |apply fib_pos|lia]. pose proof (Z.pow_pos_nonneg 2 n). lia. Qed.

Lemma growth_mono s n m : 0 <= n <= m → growth s n <= growth s m.
Proof. intros Hn. destruct s; simpl; [lia|apply Z.pow_le_mono_r; lia|apply fib_mono; lia|lia]. Qed.

(** The durations are numbers of milliseconds of 64 bits. *)
Definition policy_ok (p : RetryPolicy) : Prop := 0 <= as_millis (base_delay p) <= U64_MAX ∧ 0 <= as_millis (max_delay p) <= U64_MAX.

Lemma plain_delay_exact p n : policy_ok p → 0 <= n →
  RetryPolicy.plain_delay p n = millis (Z.min (as_millis (base_delay p) * growth (strategy p) n) (as_millis (max_delay p))).
Proof.
  intros [Hb Hm] Hn. unfold RetryPolicy.plain_delay. rewrite !wrap64_small by done. f_equal. unfold saturating_mul, saturating_pow. pose proof (growth_pos (strategy p) n Hn).
  destruct (strategy p); simpl in *; rewrite ?fibonacci_exact by done; [lia|nia|nia|lia].
Qed.

(** The delay before the [n]-th retry is the base delay times 1, 2^n, the Fibonacci
    number of n, or n + 1, cut off at the largest delay, exactly, although every step of
    the computation saturates at 64 bits; so the delays never decrease and never exceed
    the largest delay. *)
Theorem delays_exact {R} `{Rng R} p n m (r : R) :
  policy_ok p → use_jitter p = false → 0 <= n <= m →
  RetryPolicy.calculate_delay p n r = Ret (millis (Z.min (as_millis (base_delay p) * growth (strategy p) n) (as_millis (max_delay p))), r) ∧
  returns (RetryPolicy.calculate_delay p n r) (λ '(d, _), 0 <= d <= max_delay p ∧
    returns (RetryPolicy.calculate_delay p m r) (λ '(d', _), d <= d')).
Proof.
  intros Hp Hj Hn. unfold RetryPolicy.calculate_delay. rewrite Hj, !plain_delay_exact by (done || lia). split; [done|]. cbn [returns].
  destruct Hp as [Hb Hm]. pose proof (growth_pos (strategy p) n ltac:(lia)). pose proof (growth_mono (strategy p) n m Hn). unfold millis, as_millis in *. split.
  - assert (max_delay p / 1000000 * 1000000 <= max_delay p) by (Z.div_mod_to_equations; lia). nia.
  - nia.
Qed.

(** ** Circuit breaker *)

Inductive call : Type := Proceed (now : Z) | Success | Failure (now now' : Z) | Reset.

Definition breaker_step (cfg : CircuitBreakerConfig) (s : CircuitBreakerState) (c : call) : outcome (option (result unit WireError) * CircuitBreakerState) :=
  match c with
  | Proceed now => let! (r, s) := CircuitBreaker.can_proceed cfg now s in Ret (Some r, s)
  | Success => let! s := CircuitBreaker.record_success cfg s in Ret (None, s)
  | Failure now now' => let! s := CircuitBreaker.record_failure cfg now now' s in Ret (None, s)
  | Reset => Ret (None, CircuitBreaker.reset s)
  end.

Fixpoint breaker_run (cfg : CircuitBreakerConfig) (s : CircuitBreakerState) (cs : list call) : outcome (list (option (result unit WireError)) * CircuitBreakerState) :=
  match cs with
  | [] => Ret ([], s)
  | c :: cs' => let! (o, s) := breaker_step cfg s c in let! (os, s) := breaker_run cfg s cs' in Ret (o :: os, s)
  end.

(** How many failures there are since the last success or reset, from [k] on. *)
Fixpoint streak (k : Z) (cs : list call) : Z :=
  match cs with
  | [] => k
  | Failure _ _ :: cs' => streak (k + 1) cs'
  | (Success | Reset) :: cs' => streak 0 cs'
  | Proceed _ :: cs' => streak k cs'
  end.

Definition config_ok (cfg : CircuitBreakerConfig) : Prop := 1 <= failure_threshold cfg <= U32_MAX ∧ 1 <= success_threshold cfg <= U32_MAX ∧ 0 <= timeout cfg.

(** After [b] calls, [k] of them the last failures in a row. *)
Record breaker_ok (cfg : CircuitBreakerConfig) (b k : Z) (s : CircuitBreakerState) : Prop := {
  b_streak : 0 <= k;
  b_closed : state s = Closed → failure_count s = k ∧ k < failure_threshold cfg;
  b_open : state s = Open → is_Some (opened_at s);
  b_half : state s = HalfOpen → 0 <= success_count s < success_threshold cfg;
  b_requests : 0 <= total_requests s <= b;
  b_failures : 0 <= total_failures s <= b;
}.

Ltac solve_ok Es := cbn [obind returns]; split; simpl; rewrite ?Es; intros; try done; try lia; eauto.

Lemma breaker_step_ok cfg b k s c :
  config_ok cfg → breaker_ok cfg b k s → 0 <= b < U64_MAX →
  returns (breaker_step cfg s c) (λ '(_, s'), breaker_ok cfg (b + 1) (streak k [c]) s').
Proof.
  intros (Hf & Hs & _) [Hk Hcl Hop Hha Hr Hfa] Hb. destruct c as [now| |now now'|]; cbn [breaker_step].
  - unfold CircuitBreaker.can_proceed. rewrite usize_add_ok by lia. cbn [obind state opened_at]. destruct (state s) eqn:Es; [solve_ok Es| |solve_ok Es].
    destruct (opened_at s) as [t|]; [destruct (_ <=? _)|]; solve_ok Es.
  - unfold CircuitBreaker.record_success. destruct (state s) eqn:Es; [solve_ok Es|solve_ok Es|].
    specialize (Hha eq_refl). rewrite u32_add_ok by lia. cbn [obind]. destruct (Z.leb_spec (success_threshold cfg) (success_count s + 1)); solve_ok Es.
  - unfold CircuitBreaker.record_failure. rewrite usize_add_ok by lia. cbn [obind]. destruct (state s) eqn:Es; [|solve_ok Es|solve_ok Es].
    destruct (Hcl eq_refl) as [-> Hlt]. rewrite u32_add_ok by lia. cbn [obind]. destruct (Z.leb_spec (failure_threshold cfg) (k + 1)); solve_ok Es.
  - solve_ok Hk.
Qed.

Lemma streak_cons k c cs : streak k (c :: cs) = streak (streak k [c]) cs.
Proof. by destruct c. Qed.

Lemma breaker_run_ok cfg cs : ∀ b k s,
  config_ok cfg → breaker_ok cfg b k s → 0 <= b → b + Z.of_nat (length cs) <= U64_MAX →
  returns (breaker_run cfg s cs) (λ '(_, s'), breaker_ok cfg (b + Z.of_nat (length cs)) (streak k cs) s').
Proof.
  induction cs as [|c cs IH]; intros b k s Hc Hs Hb Hl; cbn [breaker_run]; [cbn [returns]; by rewrite Z.add_0_r|]. simpl length in *.
  pose proof (breaker_step_ok cfg b k s c Hc Hs ltac:(lia)) as Hst. destruct (breaker_step cfg s c) as [[o s1]| |]; [|done..]. cbn [obind returns] in *.
  pose proof (IH (b + 1) _ s1 Hc Hst ltac:(lia) ltac:(lia)) as Hr. destruct (breaker_run cfg s1 cs) as [[os s2]| |]; [|done..]. cbn [obind returns] in *.
  rewrite streak_cons. by replace (b + Z.of_nat (S (length cs))) with (b + 1 + Z.of_nat (length cs)) by lia.
Qed.

Lemma new_breaker_ok cfg : config_ok cfg → breaker_ok cfg 0 0 CircuitBreaker.new.
Proof. intros (? & ? & _). split; simpl; try (done || lia). Qed.

(** Whatever calls are made, in whatever order the tasks make them, no call panics,
    and as long as the circuit is closed the failures since the last success (or reset)
    are counted exactly and are fewer than the threshold: after so many failures in a
    row the circuit is not closed.  An open circuit knows when it was opened. *)
Theorem breaker_counts_failures cfg cs :
  config_ok cfg → Z.of_nat (length cs) <= U64_MAX →
  returns (breaker_run cfg CircuitBreaker.new cs) (λ '(_, s),
    (state s = Closed → failure_count s = streak 0 cs ∧ streak 0 cs < failure_threshold cfg) ∧
    (failure_threshold cfg <= streak 0 cs → state s = Open ∨ state s = HalfOpen) ∧
    (state s = Open → is_Some (opened_at s))).
Proof.
  intros Hc Hl. eapply returns_mono; [apply (breaker_run_ok cfg cs 0 0 _ Hc (new_breaker_ok cfg Hc)); lia|]. intros [os s] [_ Hcl Hop _ _ _]. split_and!; [done| |done].
  intros Hge. destruct (state s) eqn:Es; [|auto..]. destruct (Hcl eq_refl). lia.
Qed.

(** A call that is made before [limit] and is not a reset. *)
Definition early (limit : Z) (c : call) : Prop := match c with Proceed now => now < limit | Reset => False | _ => True end.

Lemma open_stays cfg t cs : ∀ b s,
  state s = Open → opened_at s = Some t → Forall (early (t + timeout cfg)) cs → 0 < timeout cfg →
  0 <= total_requests s <= b → 0 <= total_failures s <= b → 0 <= b → b + Z.of_nat (length cs) <= U64_MAX →
  returns (breaker_run cfg s cs) (λ '(os, s'), state s' = Open ∧ opened_at s' = Some t ∧ Forall (λ o, o = None ∨ o = Some (Err (TransportError CircuitBreaker.msg_open))) os ∧
    0 <= total_requests s' <= b + Z.of_nat (length cs)).
Proof.
  induction cs as [|c cs IH]; intros b s Hs Ht Hcs Hto Hr Hf Hb Hl; cbn [breaker_run]; [cbn [returns]; split_and!; (done || lia)|]. simpl length in Hl.
  inversion_clear Hcs as [|? ? Hc Hcs0]. rename Hcs0 into Hcs.
  assert (∃ o s1, breaker_step cfg s c = Ret (o, s1) ∧ state s1 = Open ∧ opened_at s1 = Some t ∧ (o = None ∨ o = Some (Err (TransportError CircuitBreaker.msg_open))) ∧
    0 <= total_requests s1 <= b + 1 ∧ 0 <= total_failures s1 <= b + 1) as (o & s1 & -> & E1 & E2 & E3 & E4 & E5).
  { destruct c as [now| |now now'|]; cbn [breaker_step early] in *; [|..|done].
    - unfold CircuitBreaker.can_proceed. rewrite usize_add_ok by lia. cbn [obind state opened_at]. rewrite Hs, Ht. unfold elapsed, saturating_sub.
      destruct (Z.leb_spec (timeout cfg) (Z.max 0 (now - t))); [lia|]. cbn [obind]. eexists _, _. split; [done|]. simpl. split_and!; (done || lia || auto).
    - unfold CircuitBreaker.record_success. rewrite Hs. cbn [obind]. eexists _, _. split; [done|]. split_and!; (done || lia || auto).
    - unfold CircuitBreaker.record_failure. rewrite usize_add_ok by lia. cbn [obind]. rewrite Hs. cbn [obind]. eexists _, _. split; [done|]. simpl. split_and!; (done || lia || auto). }
  cbn [obind]. pose proof (IH (b + 1) s1 E1 E2 Hcs Hto E4 E5 ltac:(lia) ltac:(lia)) as Hrun. destruct (breaker_run cfg s1 cs) as [[os s2]| |]; [|done..]. cbn [obind returns] in *.
  destruct Hrun as (? & ? & ? & ?). split_and!; [done|done|by constructor|simpl length; lia|simpl length; lia].
Qed.

(** When a failure opens the circuit, every request is refused until the time-out
    has passed, whatever other tasks report meanwhile, unless the circuit is reset; the
    first request after the time-out is let through and makes the circuit half-open. *)
Theorem open_circuit_rejects cfg b now now' s s1 cs later :
  CircuitBreaker.record_failure cfg now now' s = Ret s1 → state s ≠ Open → state s1 = Open → 0 < timeout cfg →
  Forall (early (now' + timeout cfg)) cs → now' + timeout cfg <= later →
  0 <= total_requests s <= b → 0 <= total_failures s < b → b + Z.of_nat (length cs) < U64_MAX →
  returns (breaker_run cfg s1 cs) (λ '(os, s2),
    Forall (λ o, o = None ∨ o = Some (Err (TransportError CircuitBreaker.msg_open))) os ∧
    returns (CircuitBreaker.can_proceed cfg later s2) (λ '(r, s3), r = Ok () ∧ state s3 = HalfOpen ∧ success_count s3 = 0)).
Proof.
  intros Hrf Hno Hop Hto Hcs Hla Hr Hf Hl.
  assert (opened_at s1 = Some now' ∧ total_requests s1 = total_requests s ∧ total_failures s1 = total_failures s + 1) as (E1 & E2 & E3).
  { unfold CircuitBreaker.record_failure in Hrf. rewrite usize_add_ok in Hrf by lia. cbn [obind] in Hrf. destruct (state s); [|done|by simplify_eq/=].
    destruct (u32_add _ _); [|done..]. cbn [obind] in Hrf. destruct (_ <=? _); by simplify_eq/=. }
  eapply returns_mono; [apply (open_stays cfg now' cs b s1); (done || lia)|]. intros [os s2] (F1 & F2 & F3 & F4). split; [done|].
  unfold CircuitBreaker.can_proceed. rewrite usize_add_ok by lia. cbn [obind state opened_at]. rewrite F1, F2. unfold elapsed, saturating_sub.
  destruct (Z.leb_spec (timeout cfg) (Z.max 0 (later - now'))); [done|lia].
Qed.

(** ** Executor *)

(** A world in which the answers of the operation are given, the clock stands still, and
    the delays are written down. *)
Section script.
Context {T : Type} (answers : nat → result T WireError).

Record script : Type := mkScript { calls : nat; slept : list Z }.

Instance script_world : World script T := {|
  operation w := (answers (calls w), mkScript (S (calls w)) (slept w));
  clock w := (0, w);
  sleep d w := mkScript (calls w) (slept w ++ [d]);
|}.

Instance script_rng : Rng script := {| random_range lo hi w := if SFltb lo hi then Ret (lo, w) else Panic |}.

(** The attempts from [i] on, [n] of them: the first success, or the last failure. *)
Fixpoint first_success (n i : nat) : nat * result T WireError :=
  match n with
  | O => (i, Err (TransportError RetryExecutor.msg_exceeded))
  | S O => (S i, answers i)
  | S n' => match answers i with Ok v => (S i, Ok v) | Err _ => first_success n' (S i) end
  end.

Lemma first_success_gt n : ∀ i, (i < (first_success (S n) i).1)%nat.
Proof.
  induction n as [|n IH]; intros i; [simpl; lia|]. cbn [first_success]. destruct (answers i); [simpl; lia|]. specialize (IH (S i)). cbn [first_success] in IH. lia.
Qed.

Lemma attempt_loop_script p b : ∀ n i l,
  use_jitter p = false → 0 <= max_attempts p <= U32_MAX → Z.of_nat (n + i) = max_attempts p →
  RetryExecutor.attempt_loop (mkExecutor p None) n (Z.of_nat i) b (mkScript i l) =
  Ret ((first_success n i).2, b, mkScript (first_success n i).1 (l ++ ((λ k, RetryPolicy.plain_delay p (Z.of_nat k)) <$> seq i ((first_success n i).1 - S i)))).
Proof.
  induction n as [|n IH]; intros i l Hj Hm Hn; cbn [RetryExecutor.attempt_loop].
  - cbn [first_success fst snd]. replace (i - S i)%nat with 0%nat by lia. simpl. by rewrite app_nil_r.
  - cbn [RetryExecutor.check circuit_breaker obind operation script_world calls slept]. destruct (answers i) as [v|e] eqn:Ei.
    + assert (first_success (S n) i = (S i, Ok v)) as -> by (simpl; rewrite Ei; by destruct n). cbn [RetryExecutor.succeeded circuit_breaker obind fst snd]. rewrite Nat.sub_diag. simpl. by rewrite app_nil_r.
    + cbn [RetryExecutor.failed circuit_breaker obind policy]. rewrite u32_add_ok by lia. cbn [obind]. destruct n as [|n].
      * destruct (Z.leb_spec (max_attempts p) (Z.of_nat i + 1)); [|lia]. cbn [first_success fst snd]. rewrite Ei, Nat.sub_diag. simpl. by rewrite app_nil_r.
      * destruct (Z.leb_spec (max_attempts p) (Z.of_nat i + 1)); [lia|]. unfold RetryPolicy.calculate_delay. rewrite Hj. cbn [obind sleep script_world calls slept].
        replace (Z.of_nat i + 1) with (Z.of_nat (S i)) by lia. rewrite IH by (done || lia).
        assert (first_success (S (S n)) i = first_success (S n) (S i)) as -> by (cbn [first_success]; by rewrite Ei).
        f_equal. f_equal. f_equal. rewrite <-app_assoc. f_equal.
        assert (S i < (first_success (S n) (S i)).1)%nat as Hlt by apply first_success_gt.
        replace ((first_success (S n) (S i)).1 - S i)%nat with (S ((first_success (S n) (S i)).1 - S (S i))) by lia. done.
Qed.

Lemma first_success_spec n : ∀ i, let '(k, r) := first_success (S n) i in
  ∃ j, k = S j ∧ (i <= j <= i + n)%nat ∧ r = answers j ∧ (∀ m, (i <= m < j)%nat → ∃ e, answers m = Err e) ∧ ((∃ v, r = Ok v) ∨ j = (i + n)%nat).
Proof.
  induction n as [|n IH]; intros i; cbn [first_success].
  - exists i. split_and!; [done|lia|lia|done| |right; lia]. intros m Hm. lia.
  - destruct (answers i) as [v|e] eqn:Ei.
    + exists i. split_and!; [done|lia|lia|done| |left; by eexists]. intros m Hm. lia.
    + specialize (IH (S i)). cbn [first_success] in IH. destruct (match n with O => _ | S _ => _ end) as [k r]. destruct IH as (j & -> & Hj & -> & Hm & Ho).
      exists j. split_and!; [done|lia|lia|done| |destruct Ho; [by left|right; lia]]. intros m Hlt. destruct (decide (m = i)) as [->|]; [by eexists|]. apply Hm. lia.
Qed.

(** Without a breaker, [execute] calls the operation until it succeeds, and at most
    [max_attempts] times; it returns the first success, or the error of the last
    attempt; and between the attempts it waits the delays of the policy, one each. *)
Theorem execute_retries p b :
  use_jitter p = false → 1 <= max_attempts p <= U32_MAX →
  ∃ k, Z.of_nat k < max_attempts p ∧
    RetryExecutor.execute (mkExecutor p None) b (mkScript 0 []) = Ret (answers k, b, mkScript (S k) ((λ i, RetryPolicy.plain_delay p (Z.of_nat i)) <$> seq 0 k)) ∧
    (∀ i, (i < k)%nat → ∃ e, answers i = Err e) ∧ ((∃ v, answers k = Ok v) ∨ Z.of_nat (S k) = max_attempts p).
Proof.
  intros Hj Hm. unfold RetryExecutor.execute. cbn [policy]. destruct (Z.to_nat (max_attempts p)) as [|n] eqn:En; [lia|].
  pose proof (attempt_loop_script p b (S n) 0 [] Hj ltac:(lia) ltac:(lia)) as El. change (Z.of_nat 0) with 0 in El. rewrite El. clear El. pose proof (first_success_spec n 0) as Hs. destruct (first_success (S n) 0) as [k r]. destruct Hs as (j & -> & Hj' & -> & Hf & Ho).
  exists j. split_and!; [lia|..].
  - cbn [fst snd app]. by replace (S j - 1)%nat with j by lia.
  - intros i Hi. apply Hf. lia.
  - destruct Ho; [by left|right; lia].
Qed.
End script.

(** With an open circuit the operation is not called. *)
Lemma open_circuit_stops_execute {W T} `{World W T} `{Rng W} p cfg b t (w : W) :
  1 <= max_attempts p → state b = Open → opened_at b = Some t → (clock (T := T) w).1 < t + timeout cfg → 0 < timeout cfg → 0 <= total_requests b < U64_MAX →
  returns (RetryExecutor.execute (mkExecutor p (Some cfg)) b w) (λ '(r, b', w'), r = Err (TransportError CircuitBreaker.msg_open) ∧ w' = (clock (T := T) w).2 ∧ state b' = Open).
Proof.
  intros Hm Hs Ht Hc Hto Hr. unfold RetryExecutor.execute. cbn [policy]. destruct (Z.to_nat (max_attempts p)) as [|n] eqn:En; [lia|].
  cbn [RetryExecutor.attempt_loop RetryExecutor.check circuit_breaker]. destruct (clock w) as [now w']. simpl in Hc. unfold CircuitBreaker.can_proceed. rewrite usize_add_ok by lia. cbn [obind state opened_at].
  rewrite Hs, Ht. unfold elapsed, saturating_sub. destruct (Z.leb_spec (timeout cfg) (Z.max 0 (now - t))); [lia|]. done.
Qed.

(** ** Witnesses *)

Definition quick : RetryPolicy := mkPolicy Fibonacci (millis 100) (millis 350) 4 false f64_zero.

Lemma delays_exact_witness :
  (λ n, RetryPolicy.plain_delay quick n) <$> [0; 1; 2; 3; 4] = millis <$> [100; 100; 200; 300; 350] ∧
  RetryPolicy.calculate_delay (H := script_rng) quick 2 (mkScript 0 []) = Ret (millis 200, mkScript 0 []).
Proof.
  split; [by vm_compute|]. destruct (delays_exact (H := script_rng) quick 2 3 (mkScript 0 [])) as [E _]; [by vm_compute|done|lia|]. rewrite E. by vm_compute.
Defined.

Definition small : CircuitBreakerConfig := mkBreakerConfig 2 1 10 0.

Lemma small_retry_ok : config_ok small.
Proof. unfold config_ok. simpl. lia. Qed.

Lemma breaker_counts_failures_witness :
  returns (breaker_run small CircuitBreaker.new [Failure 1 1; Proceed 2; Failure 3 3; Proceed 4; Proceed 13; Success]) (λ '(_, s), state s = Closed → failure_count s = 0) ∧
  (let! (os, _) := breaker_run small CircuitBreaker.new [Failure 1 1; Proceed 2; Failure 3 3; Proceed 4; Proceed 13; Success] in Ret os) =
  Ret [None; Some (Ok ()); None; Some (Err (TransportError CircuitBreaker.msg_open)); Some (Ok ()); None].
Proof.
  split; [|by vm_compute]. eapply returns_mono; [apply (breaker_counts_failures small [Failure 1 1; Proceed 2; Failure 3 3; Proceed 4; Proceed 13; Success]); [apply small_retry_ok|done]|].
  intros [os s] [Hs _] Hc. by destruct (Hs Hc).
Defined.

Lemma open_circuit_rejects_witness :
  returns (breaker_run small (mkBreaker Open 0 0 (Some 3) (Some 3) 1 2) [Success; Proceed 12; Failure 5 5]) (λ '(os, s2),
    Forall (λ o, o = None ∨ o = Some (Err (TransportError CircuitBreaker.msg_open))) os ∧
    returns (CircuitBreaker.can_proceed small 13 s2) (λ '(r, s3), r = Ok () ∧ state s3 = HalfOpen ∧ success_count s3 = 0)).
Proof.
  apply (open_circuit_rejects small 3 3 3 (mkBreaker Closed 1 0 (Some 1) None 1 1)); try (vm_compute; congruence); simpl; try lia.
  - repeat constructor; simpl; lia.
Defined.

Lemma execute_retries_witness :
  RetryExecutor.execute (H := script_world (λ k, if decide (k = 2%nat) then Ok 7 else Err (TransportError []))) (H0 := script_rng) (mkExecutor quick None) CircuitBreaker.new (mkScript 0 []) =
  Ret (Ok 7, CircuitBreaker.new, mkScript 3 [millis 100; millis 100]).
Proof.
  destruct (execute_retries (λ k, if decide (k = 2%nat) then Ok 7 else Err (TransportError [])) quick CircuitBreaker.new) as (k & Hk & -> & Hf & Ho); [done|simpl; lia|].
  assert (k = 2%nat) as ->; [|by vm_compute]. simpl in *. destruct (decide (k = 2%nat)) as [|Hne]; [done|]. destruct Ho as [[v Hv]|Ho]; [done|].
  assert (k = 3%nat) as -> by lia. destruct (Hf 2%nat) as [e He]; [lia|done].
Defined.

(** ** What was found *)

(** A delay of zero, or no jitter by a factor of zero, makes the range of the jitter empty,
    and the random generator panics. *)
Lemma zero_jitter_panics {R} `{RngLaws R} p n (r : R) :
  use_jitter p = true → jitter_factor p = f64_zero ∨ policy_ok p ∧ 0 <= n ∧ as_millis (base_delay p) = 0 ∧ jitter_factor p = f64_lit 3 10 →
  RetryPolicy.calculate_delay p n r = Panic.
Proof.
  intros Hj Hz. unfold RetryPolicy.calculate_delay, RetryPolicy.apply_jitter. rewrite Hj.
  assert (∃ sg, f64_mul (f64_of_u64 (as_millis (RetryPolicy.plain_delay p n))) (jitter_factor p) = S754_zero sg ∨ f64_mul (f64_of_u64 (as_millis (RetryPolicy.plain_delay p n))) (jitter_factor p) = S754_nan) as [sg Hmul].
  { destruct Hz as [->|(Hp & Hn & Hb & ->)].
    - destruct (f64_of_u64 _) as [s|s| |s m e]; [exists (xorb s false); by left|exists s; by right|exists false; by right|exists (xorb s false); by left].
    - exists false. left. rewrite plain_delay_exact, Hb by done. unfold as_millis, millis. rewrite Z.mul_0_l. destruct Hp as [_ Hm]. unfold as_millis in Hm. rewrite Z.min_l by lia. by vm_compute. }
  rewrite random_range_empty; [done|]. by destruct Hmul as [-> | ->].
Qed.
