(* ===== verification/Executor.v ===== *)
(** * Asynchronous executor (mielin-kernel/src/executor.rs)

    Futures are polled in a world [W] that they share with everybody else (channels,
    devices); a poll may wake any tasks whose wakers the future holds, its own
    included.  What other threads wake during a poll counts as woken by it.  The static
    counter of task identifiers is passed along. *)

From stdpp Require Import base tactics option list numbers gmap.
From S2P Require Import Prelude.

(* src: mielin-kernel/src/executor.rs 39-39 MAX_ASYNC_TASKS *)
Definition MAX_ASYNC_TASKS : Z := 256.

(** [poll id f w]: the output when the future is ready, the future afterwards, the world
    afterwards, and the tasks that were woken, in order. *)
Class Future (W F T : Type) : Type := poll : Z → F → W → option T * F * W * list Z.

Module AsyncTaskId.

(** The identifier, and the counter afterwards. *)
(* src: mielin-kernel/src/executor.rs 47-50 AsyncTaskId::new *)
Definition new (NEXT_ID : Z) : Z * Z := (NEXT_ID, wrap64 (NEXT_ID + 1)).

End AsyncTaskId.

(* src: mielin-kernel/src/executor.rs 65-72 AsyncTask *)
Record AsyncTask (F : Type) : Type := mkTask { task_id : Z; future : F; ready : bool }.
Arguments mkTask {F}.
Arguments task_id {F}.
Arguments future {F}.
Arguments ready {F}.

Module AsyncTask.
Section task.
Context {F : Type}.

(* src: mielin-kernel/src/executor.rs 76-85 AsyncTask::new *)
Definition new (NEXT_ID : Z) (f : F) : AsyncTask F * Z :=
  let '(id, next) := AsyncTaskId.new NEXT_ID in (mkTask id f true, next).
(* src: mielin-kernel/src/executor.rs 98-100 AsyncTask::mark_ready *)
Definition mark_ready (self : AsyncTask F) : AsyncTask F := mkTask (task_id self) (future self) true.
(* src: mielin-kernel/src/executor.rs 103-105 AsyncTask::mark_pending *)
Definition mark_pending (self : AsyncTask F) : AsyncTask F := mkTask (task_id self) (future self) false.
(** The future has changed where it is. *)
Definition set_future (f : F) (self : AsyncTask F) : AsyncTask F := mkTask (task_id self) f (ready self).

End task.
End AsyncTask.

Module WakeQueue.

(* src: mielin-kernel/src/executor.rs 139-144 WakeQueue::push *)
Definition push (id : Z) (queue : list Z) : list Z := if decide (id ∈ queue) then queue else queue ++ [id].
(* src: mielin-kernel/src/executor.rs 147-149 WakeQueue::pop *)
Definition pop (queue : list Z) : option Z * list Z := match queue with [] => (None, []) | id :: q => (Some id, q) end.
(* src: mielin-kernel/src/executor.rs 152-154 WakeQueue::has_pending *)
Definition has_pending (queue : list Z) : bool := negb (bool_decide (queue = [])).

End WakeQueue.

(* src: mielin-kernel/src/executor.rs 159-168 ExecutorStats *)
Record ExecutorStats : Type := mkStats { tasks_spawned : Z; tasks_completed : Z; polls : Z; successful_polls : Z }.

(* src: mielin-kernel/src/executor.rs 171-180 AsyncExecutor *)
Record AsyncExecutor (F : Type) : Type := mkExecutor {
  tasks : list (AsyncTask F);
  wake_queue : list Z;
  stats : ExecutorStats;
  max_tasks : Z;
}.
Arguments mkExecutor {F}.
Arguments tasks {F}.
Arguments wake_queue {F}.
Arguments stats {F}.
Arguments max_tasks {F}.

Module AsyncExecutor.
Section executor.
Context {F : Type}.
Implicit Types (self : AsyncExecutor F).

(* src: mielin-kernel/src/executor.rs 194-201 AsyncExecutor::with_capacity *)
Definition with_capacity (max_tasks : Z) : AsyncExecutor F := mkExecutor [] [] (mkStats 0 0 0 0) max_tasks.
(* src: mielin-kernel/src/executor.rs 184-191 AsyncExecutor::new *)
Definition new : AsyncExecutor F := with_capacity MAX_ASYNC_TASKS.

Definition set_tasks (ts : list (AsyncTask F)) self : AsyncExecutor F := mkExecutor ts (wake_queue self) (stats self) (max_tasks self).
Definition set_queue (q : list Z) self : AsyncExecutor F := mkExecutor (tasks self) q (stats self) (max_tasks self).

(* src: mielin-kernel/src/executor.rs 204-217 AsyncExecutor::spawn *)
Definition spawn (NEXT_ID : Z) (f : F) self : outcome (option Z * Z * AsyncExecutor F) :=
  if max_tasks self <=? Z.of_nat (length (tasks self)) then Ret (None, NEXT_ID, self)
  else
    let '(task, next) := AsyncTask.new NEXT_ID f in
    let s := stats self in
    let! spawned := usize_add (tasks_spawned s) 1 in
    Ret (Some (task_id task), next,
         mkExecutor (tasks self ++ [task]) (wake_queue self) (mkStats spawned (tasks_completed s) (polls s) (successful_polls s)) (max_tasks self)).

(** A waker of a task, when it is used. *)
(* src: mielin-kernel/src/executor.rs 115-121 TaskWaker::wake *)
Definition wake (id : Z) self : AsyncExecutor F := set_queue (WakeQueue.push id (wake_queue self)) self.

(** The inner loop of [process_wakes]. *)
(* src: mielin-kernel/src/executor.rs 317-322 AsyncExecutor::process_wakes (inner loop) *)
Fixpoint mark_first (id : Z) (ts : list (AsyncTask F)) : list (AsyncTask F) :=
  match ts with
  | [] => []
  | t :: ts' => if task_id t =? id then AsyncTask.mark_ready t :: ts' else t :: mark_first id ts'
  end.

(** The outer loop pops until nothing is left. *)
(* src: mielin-kernel/src/executor.rs 315-324 AsyncExecutor::process_wakes *)
Definition process_wakes self : AsyncExecutor F :=
  mkExecutor (foldl (λ ts id, mark_first id ts) (tasks self) (wake_queue self)) [] (stats self) (max_tasks self).

(* src: mielin-kernel/src/executor.rs 336-338 AsyncExecutor::pending_tasks *)
Definition pending_tasks self : Z := Z.of_nat (length (tasks self)).
(* src: mielin-kernel/src/executor.rs 351-353 AsyncExecutor::reset_stats *)
Definition reset_stats self : AsyncExecutor F := mkExecutor (tasks self) (wake_queue self) (mkStats 0 0 0 0) (max_tasks self).

Section polling.
Context {W : Type} `{Future W F unit}.

(** What the loop of [poll_once] works on. *)
Record round : Type := mkRound { r_exec : AsyncExecutor F; r_world : W; completed : list nat; progress : bool }.

(** The body of the loop. *)
(* src: mielin-kernel/src/executor.rs 285-303 AsyncExecutor::poll_once (loop body) *)
Definition poll_task (idx : nat) (id : Z) (st : round) : outcome round :=
  let self := r_exec st in
  let s := stats self in
  let! polls := usize_add (polls s) 1 in
  match tasks self !! idx with
  | None => Ret (mkRound (mkExecutor (tasks self) (wake_queue self) (mkStats (tasks_spawned s) (tasks_completed s) polls (successful_polls s)) (max_tasks self))
                   (r_world st) (completed st) (progress st))
  | Some task =>
    let '(answer, f, w, wakes) := poll id (future task) (r_world st) in
    let q := foldl (λ q id, WakeQueue.push id q) (wake_queue self) wakes in
    let task := AsyncTask.set_future f task in
    match answer with
    | Some _ =>
      let! successful := usize_add (successful_polls s) 1 in
      let! done := usize_add (tasks_completed s) 1 in
      Ret (mkRound (mkExecutor (<[idx := task]> (tasks self)) q (mkStats (tasks_spawned s) done polls successful) (max_tasks self))
             w (completed st ++ [idx]) true)
    | None =>
      Ret (mkRound (mkExecutor (<[idx := AsyncTask.mark_pending task]> (tasks self)) q
                      (mkStats (tasks_spawned s) (tasks_completed s) polls (successful_polls s)) (max_tasks self))
             w (completed st) (progress st))
    end
  end.

(* src: mielin-kernel/src/executor.rs 279-304 AsyncExecutor::poll_once (loop) *)
Fixpoint poll_loop (info : list (nat * Z * bool)) (st : round) : outcome round :=
  match info with
  | [] => Ret st
  | (idx, id, is_ready) :: info' =>
    if is_ready then let! st := poll_task idx id st in poll_loop info' st else poll_loop info' st
  end.

(* src: mielin-kernel/src/executor.rs 272-277 AsyncExecutor::poll_once (task_info) *)
Definition task_info (ts : list (AsyncTask F)) : list (nat * Z * bool) := imap (λ idx t, (idx, task_id t, ready t)) ts.

(* src: mielin-kernel/src/executor.rs 264-312 AsyncExecutor::poll_once *)
Definition poll_once self (w : W) : outcome (bool * AsyncExecutor F * W) :=
  let self := process_wakes self in
  let! st := poll_loop (task_info (tasks self)) (mkRound self w [] false) in
  Ret (progress st, set_tasks (foldr delete (tasks (r_exec st)) (completed st)) (r_exec st), r_world st).

(* src: mielin-kernel/src/executor.rs 231-235 AsyncExecutor::run *)
Fixpoint run (fuel : nat) self (w : W) : outcome (AsyncExecutor F * W) :=
  match tasks self, fuel with
  | [], _ => Ret (self, w)
  | _, O => Timeout
  | _, S fuel' => let! (_, self, w) := poll_once self w in run fuel' self w
  end.

(** The loop, with the iterations that are left. *)
(* src: mielin-kernel/src/executor.rs 239-244 AsyncExecutor::run_iterations (loop) *)
Fixpoint iterate (left : nat) (iterations : Z) self (w : W) : outcome (Z * AsyncExecutor F * W) :=
  match tasks self, left with
  | [], _ | _, O => Ret (iterations, self, w)
  | _, S left' => let! (_, self, w) := poll_once self w in iterate left' (iterations + 1) self w
  end.
(* src: mielin-kernel/src/executor.rs 238-245 AsyncExecutor::run_iterations *)
Definition run_iterations (max_iterations : nat) self (w : W) : outcome (Z * AsyncExecutor F * W) := iterate max_iterations 0 self w.

(* src: mielin-kernel/src/executor.rs 249-260 AsyncExecutor::run_until_stalled *)
Fixpoint run_until_stalled (fuel : nat) self (w : W) : outcome (bool * AsyncExecutor F * W) :=
  match tasks self, fuel with
  | [], _ => Ret (true, self, w)
  | _, O => Timeout
  | _, S fuel' =>
    let! (made_progress, self, w) := poll_once self w in
    if negb made_progress && negb (WakeQueue.has_pending (wake_queue self)) then Ret (false, self, w)
    else run_until_stalled fuel' self w
  end.
End polling.
End executor.
End AsyncExecutor.

(** ** Futures *)

(** A boxed future of one of two types. *)
#[global] Instance sum_future {W F1 F2 T} `{Future W F1 T} `{Future W F2 T} : Future W (F1 + F2) T := λ id f w,
  match f with
  | inl f => let '(r, f, w, ids) := poll id f w in (r, inl f, w, ids)
  | inr f => let '(r, f, w, ids) := poll id f w in (r, inr f, w, ids)
  end.

(** A future whose result is dropped: the block that [spawn_with_result] makes. *)
Record Discard (F : Type) : Type := mkDiscard { inner : F }.
Arguments mkDiscard {F}.
Arguments inner {F}.

(* src: mielin-kernel/src/executor.rs 225-227 AsyncExecutor::spawn_with_result (async block) *)
Definition discard_poll {W F T} `{Future W F T} : Future W (Discard F) unit := λ id f w,
  let '(r, f, w, ids) := poll id (inner f) w in ((λ _, ()) <$> r, mkDiscard f, w, ids).
#[global] Instance discard_future {W F T} `{Future W F T} : Future W (Discard F) unit := discard_poll.

(* src: mielin-kernel/src/executor.rs 220-228 AsyncExecutor::spawn_with_result *)
Definition spawn_with_result {F} (NEXT_ID : Z) (f : F) (self : AsyncExecutor (Discard F)) : outcome (option Z * Z * AsyncExecutor (Discard F)) :=
  AsyncExecutor.spawn NEXT_ID (mkDiscard f) self.

(* src: mielin-kernel/src/executor.rs 363-365 Yield *)
Record Yield : Type := mkYield { yielded : bool }.
(* src: mielin-kernel/src/executor.rs 369-371 Yield::new *)
Definition yield_new : Yield := mkYield false.
(* src: mielin-kernel/src/executor.rs 383-391 Yield::poll *)
Definition yield_poll {W} : Future W Yield unit := λ id self w,
  if yielded self then (Some (), self, w, []) else (None, mkYield true, w, [id]).
#[global] Instance yield_future {W} : Future W Yield unit := yield_poll.
(* src: mielin-kernel/src/executor.rs 395-397 yield_now *)
Definition yield_now : Yield := yield_new.

(* src: mielin-kernel/src/executor.rs 400-402 Delay *)
Record Delay : Type := mkDelay { remaining : Z }.
(* src: mielin-kernel/src/executor.rs 406-410 Delay::new *)
Definition delay_new (polls : Z) : Delay := mkDelay polls.
(* src: mielin-kernel/src/executor.rs 416-425 Delay::poll *)
Definition delay_poll {W} : Future W Delay unit := λ id self w,
  let r := remaining self in
  if r =? 0 then (Some (), self, w, []) else (None, mkDelay (r - 1), w, [id]).
#[global] Instance delay_future {W} : Future W Delay unit := delay_poll.
(* src: mielin-kernel/src/executor.rs 429-431 delay *)
Definition delay (polls : Z) : Delay := delay_new polls.

(* src: mielin-kernel/src/executor.rs 434-437 Oneshot *)
Record Oneshot (T : Type) : Type := mkOneshot { value : option T; completed : bool }.
Arguments mkOneshot {T}.
Arguments value {T}.
Arguments completed {T}.

Module Oneshot.
Section oneshot.
Context {T : Type}.
Implicit Types (self : Oneshot T).

(* src: mielin-kernel/src/executor.rs 441-446 Oneshot::new *)
Definition new : Oneshot T := mkOneshot None false.

(** The first access of [send]: whether it returns at once. *)
(* src: mielin-kernel/src/executor.rs 450-452 Oneshot::send (check) *)
Definition send_check self : bool := completed self.
(** The rest of [send], under the lock. *)
(* src: mielin-kernel/src/executor.rs 454-461 Oneshot::send (locked) *)
Definition send_locked (v : T) self : bool * Oneshot T :=
  match value self with
  | Some _ => (false, self)
  | None => (true, mkOneshot (Some v) true)
  end.
(** [send] when nobody comes between. *)
(* src: mielin-kernel/src/executor.rs 449-462 Oneshot::send *)
Definition send (v : T) self : bool * Oneshot T := if send_check self then (false, self) else send_locked v self.

(* src: mielin-kernel/src/executor.rs 465-470 Oneshot::try_recv *)
Definition try_recv self : option T * Oneshot T :=
  if completed self then (value self, mkOneshot None (completed self)) else (None, self).
(* src: mielin-kernel/src/executor.rs 473-475 Oneshot::is_complete *)
Definition is_complete self : bool := completed self.

End oneshot.
End Oneshot.

(** The world of channels: the channels that are shared by reference, by address. *)
Definition Channels (T : Type) : Type := gmap Z (Oneshot T).

(** A receiver refers to its channel. *)
(* src: mielin-kernel/src/executor.rs 479-481 OneshotReceiver *)
Record OneshotReceiver : Type := mkReceiver { channel : Z }.

(* src: mielin-kernel/src/executor.rs 493-500 OneshotReceiver::poll *)
Definition receiver_poll {T} : Future (Channels T) OneshotReceiver (option T) := λ id self w,
  let c := default Oneshot.new (w !! channel self) in
  if Oneshot.is_complete c then
    let '(v, c) := Oneshot.try_recv c in (Some v, self, <[channel self := c]> w, [])
  else (None, self, w, [id]).
#[global] Instance receiver_future {T} : Future (Channels T) OneshotReceiver (option T) := receiver_poll.

(** The channel and its receiver, at an address that is not in use. *)
(* src: mielin-kernel/src/executor.rs 504-508 oneshot *)
Definition oneshot {T} (at_ : Z) (w : Channels T) : Z * OneshotReceiver * Channels T :=
  (at_, mkReceiver at_, <[at_ := Oneshot.new]> w).

(* src: mielin-kernel/src/executor.rs 511-513 JoinHandle *)
Record JoinHandle : Type := mkJoin { receiver : OneshotReceiver }.
(* src: mielin-kernel/src/executor.rs 525-527 JoinHandle::poll *)
Definition join_poll {T} : Future (Channels T) JoinHandle (option T) := λ id self w,
  let '(r, f, w, ids) := poll id (receiver self) w in (r, mkJoin f, w, ids).
#[global] Instance join_future {T} : Future (Channels T) JoinHandle (option T) := join_poll.
