(* ===== verification/ExecutorProps.v ===== *)
(** * Theorems about the executor

    The specification is a list of live tasks in the order of their spawning and the set
    of tasks that are due; a round polls the live tasks that are due, and what is woken
    meanwhile is due in the next round. *)

From stdpp Require Import base tactics option list numbers gmap fin_sets.
From S2P Require Import Prelude Executor.

(** ** Specification *)

Lemma list_insert_middle_eq {A} (l1 l2 : list A) x y : <[length l1 := y]> (l1 ++ x :: l2) = l1 ++ y :: l2.
Proof. rewrite <-(Nat.add_0_r (length l1)) at 1. by rewrite insert_app_r. Qed.

Section spec.
Context {W F : Type} `{Future W F unit}.
Implicit Types (live : list (Z * F)) (due next : gset Z) (w : W).

(** The live tasks after a round, the world, and what is due next. *)
Fixpoint spec_round due live w next : list (Z * F) * W * gset Z :=
  match live with
  | [] => ([], w, next)
  | (id, f) :: live' =>
    if bool_decide (id ∈ due) then
      let '(answer, f', w', wakes) := poll id f w in
      let '(rest, w'', next') := spec_round due live' w' (next ∪ list_to_set wakes) in
      (match answer with Some _ => rest | None => (id, f') :: rest end, w'', next')
    else let '(rest, w'', next') := spec_round due live' w next in ((id, f) :: rest, w'', next')
  end.

Definition live_of (self : AsyncExecutor F) : list (Z * F) := (λ t, (task_id t, future t)) <$> tasks self.
Definition due_of (self : AsyncExecutor F) : gset Z :=
  list_to_set (wake_queue self) ∪ list_to_set (task_id <$> base.filter (λ t, ready t = true) (tasks self)).
Definition asleep (p : Z * F) : AsyncTask F := mkTask p.1 p.2 false.

(** ** One round *)

Lemma push_set id q : list_to_set (WakeQueue.push id q) =@{gset Z} list_to_set q ∪ {[id]}.
Proof. unfold WakeQueue.push. case_decide; set_solver. Qed.

Lemma pushes_set ids : ∀ q, list_to_set (foldl (λ q id, WakeQueue.push id q) q ids) =@{gset Z} list_to_set q ∪ list_to_set ids.
Proof. induction ids as [|id ids IH]; intros q; simpl; [set_solver|]. rewrite IH, push_set. set_solver. Qed.

Lemma pushes_nil ids : ∀ q, foldl (λ q id, WakeQueue.push id q) q ids = [] → q = [] ∧ ids = [].
Proof.
  induction ids as [|id ids IH]; intros q; simpl; [done|]. intros [E ->]%IH. unfold WakeQueue.push in E. case_decide as Hin; [subst; by apply elem_of_nil in Hin|by destruct q].
Qed.

(** The entries of [task_info] from the [n]-th on. *)
Definition info (n : nat) (ts : list (AsyncTask F)) : list (nat * Z * bool) := imap (λ i t, ((n + i)%nat, task_id t, ready t)) ts.

Lemma info_cons n t ts : info n (t :: ts) = (n, task_id t, ready t) :: info (S n) ts.
Proof.
  unfold info. rewrite imap_cons. f_equal; [by rewrite Nat.add_0_r|]. apply imap_ext. intros i x _. simpl. by rewrite Nat.add_succ_r.
Qed.

(** The loop of [poll_once] from the task after [pre] on, when deleting the tasks that
    are complete so far leaves [kept] of [pre]. *)
Lemma poll_loop_ok due m suf : ∀ pre kept cs q s w prog,
  (∀ r, foldr delete (pre ++ r) cs = kept ++ r) →
  Forall (λ t, ready t = bool_decide (task_id t ∈ due)) suf →
  0 <= polls s → polls s + Z.of_nat (length suf) <= U64_MAX →
  0 <= successful_polls s → successful_polls s + Z.of_nat (length suf) <= U64_MAX →
  0 <= tasks_completed s → tasks_completed s + Z.of_nat (length suf) <= U64_MAX →
  returns (AsyncExecutor.poll_loop (info (length pre) suf) (AsyncExecutor.mkRound (mkExecutor (pre ++ suf) q s m) w cs prog)) (λ st,
    let '(live', w', next') := spec_round due ((λ t, (task_id t, future t)) <$> suf) w (list_to_set q) in
    let self := AsyncExecutor.r_exec st in
    let d := Z.of_nat (length suf) - Z.of_nat (length live') in
    foldr delete (tasks self) (AsyncExecutor.completed st) = kept ++ (asleep <$> live') ∧ AsyncExecutor.r_world st = w' ∧
    list_to_set (wake_queue self) = next' ∧ max_tasks self = m ∧ AsyncExecutor.progress st = prog || (0 <? d) ∧ 0 <= d ∧
    tasks_spawned (stats self) = tasks_spawned s ∧ tasks_completed (stats self) = tasks_completed s + d ∧ successful_polls (stats self) = successful_polls s + d ∧
    polls s <= polls (stats self) <= polls s + Z.of_nat (length suf)).
Proof.
  induction suf as [|t suf IH]; intros pre kept cs q s w prog Hk Hr Hp Hp' Hs Hs' Hc Hc'.
  { cbn -[foldr]. specialize (Hk []). rewrite app_nil_r in Hk |- *. rewrite Hk, orb_false_r. split_and!; (done || lia). }
  simpl length in *. inversion_clear Hr as [|? ? Ht Hr']. rewrite info_cons. cbn [AsyncExecutor.poll_loop fmap list_fmap spec_round]. rewrite <-Ht.
  assert (∀ t', length (pre ++ [t']) = S (length pre)) as Hlen by (intros; rewrite length_app; simpl; lia).
  destruct (ready t) eqn:Et.
  - unfold AsyncExecutor.poll_task. cbn [AsyncExecutor.r_exec AsyncExecutor.r_world AsyncExecutor.completed AsyncExecutor.progress stats tasks wake_queue max_tasks].
    rewrite usize_add_ok by lia. cbn [obind]. rewrite list_lookup_middle by done. destruct (poll (task_id t) (future t) w) as [[[answer f'] w'] wakes].
    assert (∀ t', <[length pre := t']> (pre ++ t :: suf) = (pre ++ [t']) ++ suf) as Hins by (intros; by rewrite list_insert_middle_eq, <-app_assoc).
    destruct answer as [[]|].
    + rewrite !usize_add_ok by lia. cbn [obind]. rewrite Hins. set (t' := AsyncTask.set_future f' t).
      rewrite <-(Hlen t'). eapply returns_mono; [apply (IH (pre ++ [t']) kept); simpl; try (done || lia)|].
      { intros r. rewrite foldr_app. cbn [foldr]. rewrite <-app_assoc. cbn [app]. by rewrite delete_middle. }
      intros st. cbn [stats polls successful_polls tasks_completed tasks_spawned]. rewrite pushes_set.
      destruct (spec_round _ _ _ _) as [[live' w''] next']. intros (? & ? & ? & ? & Hpr & ? & ? & ? & ? & ?). split_and!; try (done || lia).
      rewrite Hpr. simpl. symmetry. apply orb_true_iff. right. apply Z.ltb_lt. lia.
    + cbn [obind]. rewrite Hins. set (t' := AsyncTask.mark_pending (AsyncTask.set_future f' t)).
      rewrite <-(Hlen t'). eapply returns_mono; [apply (IH (pre ++ [t']) (kept ++ [t'])); simpl; try (done || lia)|].
      { intros r. by rewrite <-!app_assoc, Hk. }
      intros st. cbn [stats polls successful_polls tasks_completed tasks_spawned]. rewrite pushes_set.
      destruct (spec_round _ _ _ _) as [[live' w''] next']. intros (-> & ? & ? & ? & Hpr & ? & ? & ? & ? & ?). simpl length. split_and!; try (done || lia).
      * by rewrite <-app_assoc.
      * rewrite Hpr. f_equal. f_equal. lia.
  - rewrite <-(Hlen t). replace (pre ++ t :: suf) with ((pre ++ [t]) ++ suf) by (by rewrite <-app_assoc). eapply returns_mono; [apply (IH (pre ++ [t]) (kept ++ [t])); try (done || lia)|].
    { intros r. by rewrite <-!app_assoc, Hk. }
    intros st. destruct (spec_round _ _ _ _) as [[live' w''] next']. intros (-> & ? & ? & ? & Hpr & ? & ? & ? & ? & ?). simpl length. split_and!; try (done || lia).
    + rewrite <-app_assoc. simpl. do 2 f_equal. unfold asleep. simpl. destruct t; simpl in *. by subst.
    + rewrite Hpr. f_equal. f_equal. lia.
Qed.

(** ** Wake-ups *)

Definition ids_of (ts : list (AsyncTask F)) : list Z := task_id <$> ts.
Definition mark (q : list Z) (t : AsyncTask F) : AsyncTask F := mkTask (task_id t) (future t) (ready t || bool_decide (task_id t ∈ q)).

Lemma mark_first_ids id ts : ids_of (AsyncExecutor.mark_first id ts) = ids_of ts.
Proof. induction ts as [|t ts IH]; simpl; [done|]. destruct (task_id t =? id); simpl; [done|]. by f_equal. Qed.

Lemma mark_none id q ts : id ∉ ids_of ts → mark (id :: q) <$> ts = mark q <$> ts.
Proof.
  intros Hn. apply list_fmap_ext. intros i t Ht. unfold mark. f_equal. f_equal. apply bool_decide_ext. rewrite elem_of_cons. split; [|auto]. intros [<-|?]; [|done].
  destruct Hn. by apply list_elem_of_fmap_2, list_elem_of_lookup_2 with i.
Qed.

Lemma mark_first_mark id q ts : NoDup (ids_of ts) → mark q <$> AsyncExecutor.mark_first id ts = mark (id :: q) <$> ts.
Proof.
  induction ts as [|t ts IH]; [done|]. cbn [ids_of fmap list_fmap]. intros [Hn Hd]%NoDup_cons. cbn [AsyncExecutor.mark_first]. destruct (Z.eqb_spec (task_id t) id) as [<-|Hne].
  - cbn [fmap list_fmap]. f_equal; [|by rewrite mark_none]. unfold mark. simpl. f_equal. symmetry. apply orb_true_iff. right. apply bool_decide_eq_true. left.
  - cbn [fmap list_fmap]. f_equal; [|by apply IH]. unfold mark. f_equal. f_equal. apply bool_decide_ext. rewrite elem_of_cons. naive_solver.
Qed.

Lemma process_wakes_mark q : ∀ ts, NoDup (ids_of ts) → foldl (λ ts id, AsyncExecutor.mark_first id ts) ts q = mark q <$> ts.
Proof.
  induction q as [|id q IH]; intros ts Hd; cbn [foldl].
  - symmetry. rewrite <-(list_fmap_id ts) at 2. apply list_fmap_ext. intros i [x f r] _. unfold mark. cbn [task_id future ready]. rewrite bool_decide_eq_false_2 by apply not_elem_of_nil. by rewrite orb_false_r.
  - rewrite IH by by rewrite mark_first_ids. by apply mark_first_mark.
Qed.

(** ** The round *)

(** What an executor satisfies that is used for at most [b] rounds of polls. *)
Record exec_ok (b : Z) (self : AsyncExecutor F) : Prop := {
  x_ids : NoDup (ids_of (tasks self));
  x_max : Z.of_nat (length (tasks self)) <= Z.max 0 (max_tasks self);
  x_polls : 0 <= polls (stats self) <= b * Z.max 0 (max_tasks self);
  x_successful : 0 <= successful_polls (stats self);
  x_completed : 0 <= tasks_completed (stats self);
  x_account : tasks_spawned (stats self) = tasks_completed (stats self) + Z.of_nat (length (tasks self)) ∧ successful_polls (stats self) = tasks_completed (stats self);
}.

Lemma exec_ok_mono b b' self : exec_ok b self → b <= b' → exec_ok b' self.
Proof. intros [Hd Hm Hp Hs Hc Ha] Hb. split; (done || nia). Qed.

Lemma due_elem self t : NoDup (ids_of (tasks self)) → t ∈ tasks self → (task_id t ∈ due_of self ↔ ready t = true ∨ task_id t ∈ wake_queue self).
Proof.
  intros Hd Ht. unfold due_of. rewrite elem_of_union, !elem_of_list_to_set. split; [|intros [?|?]; [right|by left]].
  - intros [?|(t' & Et & Ht')%list_elem_of_fmap]; [by right|left]. apply list_elem_of_filter in Ht' as [Hr Ht'].
    apply list_elem_of_lookup in Ht as [i Hi], Ht' as [j Hj]. assert (i = j) as <-; [|naive_solver].
    eapply (NoDup_lookup _ _ _ (task_id t) Hd); unfold ids_of; rewrite list_lookup_fmap; [by rewrite Hi|by rewrite Hj, Et].
  - apply list_elem_of_fmap_2, list_elem_of_filter. done.
Qed.

Lemma spec_round_ids due live : ∀ w next, ((spec_round due live w next).1.1).*1 `sublist_of` live.*1.
Proof.
  induction live as [|[id f] live IH]; intros w next; simpl; [done|]. case_bool_decide.
  - destruct (poll id f w) as [[[answer f'] w'] wakes]. specialize (IH w' (next ∪ list_to_set wakes)). destruct (spec_round _ _ _ _) as [[rest w''] next']. destruct answer; simpl in *; by constructor.
  - specialize (IH w next). destruct (spec_round _ _ _ _) as [[rest w''] next']. simpl in *. by constructor.
Qed.

Lemma asleep_live live : (λ t, (task_id t, future t)) <$> (asleep <$> live) = live.
Proof. rewrite <-list_fmap_compose. etrans; [|apply list_fmap_id]. apply list_fmap_ext. by intros i [] _. Qed.

Lemma asleep_ids live : ids_of (asleep <$> live) = live.*1.
Proof. unfold ids_of. by rewrite <-list_fmap_compose. Qed.

Lemma asleep_due live : base.filter (λ t, ready t = true) (asleep <$> live) = [].
Proof. induction live as [|p live IH]; [done|]. cbn [fmap list_fmap]. by rewrite filter_cons_False. Qed.

Lemma poll_once_ok b self w :
  exec_ok b self → 0 <= b → (b + 1) * Z.max 0 (max_tasks self) <= U64_MAX → tasks_spawned (stats self) <= U64_MAX →
  returns (AsyncExecutor.poll_once self w) (λ '(p, self', w'),
    (live_of self', w', due_of self') = spec_round (due_of self) (live_of self) w ∅ ∧ exec_ok (b + 1) self' ∧ due_of self' = list_to_set (wake_queue self') ∧
    (p = true ↔ (length (live_of self') < length (live_of self))%nat) ∧ max_tasks self' = max_tasks self ∧ tasks_spawned (stats self') = tasks_spawned (stats self)).
Proof.
  intros [Hd Hm Hp Hs Hc [Ha Hb]] Hb0 Hbm Hsp. unfold AsyncExecutor.poll_once. set (ts := tasks (AsyncExecutor.process_wakes self)).
  assert (ts = mark (wake_queue self) <$> tasks self) as Ets by by apply process_wakes_mark.
  assert (live_of self = (λ t, (task_id t, future t)) <$> ts) as El by (rewrite Ets, <-list_fmap_compose; done).
  assert (length ts = length (tasks self)) as Elen by by rewrite Ets, length_fmap.
  assert (AsyncExecutor.process_wakes self = mkExecutor ([] ++ ts) [] (stats self) (max_tasks self)) as -> by done.
  eapply returns_bind; [apply (poll_loop_ok (due_of self) (max_tasks self) ts [] [] [] [] (stats self) w false); try (done || lia)|].
  { rewrite Ets. apply Forall_fmap, Forall_forall. intros t Ht. cbn [mark task_id ready compose]. destruct (due_elem self t Hd Ht) as [H1 H2].
    destruct (ready t); cbn [orb]; [rewrite bool_decide_eq_true_2 by auto; done|]. apply bool_decide_ext. naive_solver. }
  intros st. rewrite <-El. pose proof (spec_round_ids (due_of self) (live_of self) w ∅) as Hids. rewrite list_to_set_nil.
  destruct (spec_round _ _ _ _) as [[live' w'] next']. simpl in Hids. intros (Ek & Ew & Eq & Em & Epr & Hd0 & E1 & E2 & E3 & E4). cbn [returns].
  assert (tasks (AsyncExecutor.set_tasks (foldr delete (tasks (AsyncExecutor.r_exec st)) (AsyncExecutor.completed st)) (AsyncExecutor.r_exec st)) = asleep <$> live') as Et by done.
  set (self' := AsyncExecutor.set_tasks _ _) in *. 
  assert (live_of self' = live') as Elive by (unfold live_of; rewrite Et; apply asleep_live).
  assert (due_of self' = list_to_set (wake_queue self')) as Edue.
  { unfold due_of. rewrite Et, asleep_due. simpl. set_solver. }
  assert (length (live_of self) = length (tasks self)) as Elt by (unfold live_of; by rewrite length_fmap).
  split_and!; [|split|done|..].
  - rewrite Elive, Edue, Ew. do 2 f_equal. done.
  - rewrite Et, asleep_ids. eapply sublist_NoDup; [|done]. unfold live_of. rewrite <-list_fmap_compose. done.
  - rewrite Et, length_fmap. replace (max_tasks self') with (max_tasks self) by done. lia.
  - cbn [stats self' AsyncExecutor.set_tasks max_tasks]. rewrite Em. lia.
  - cbn [stats self' AsyncExecutor.set_tasks]. lia.
  - cbn [stats self' AsyncExecutor.set_tasks]. lia.
  - rewrite Et, length_fmap. cbn [stats self' AsyncExecutor.set_tasks]. lia.
  - rewrite Epr, Elive, Elt. simpl. rewrite Z.ltb_lt. lia.
  - done.
  - done.
Qed.

(** ** Histories *)

(** What happens to an executor: its owner spawns and polls, anybody wakes, and the world
    changes. *)
Inductive event : Type := Spawn (f : F) | Wake (id : Z) | Round | Env (g : W → W).
Inductive answer : Type := Spawned (id : option Z) | Polled (progress : bool) | Silent.

Definition event_step (e : event) (st : Z * AsyncExecutor F * W) : outcome (answer * (Z * AsyncExecutor F * W)) :=
  let '(NEXT_ID, self, w) := st in
  match e with
  | Spawn f => let! (r, next, self) := AsyncExecutor.spawn NEXT_ID f self in Ret (Spawned r, (next, self, w))
  | Wake id => Ret (Silent, (NEXT_ID, AsyncExecutor.wake id self, w))
  | Round => let! (p, self, w) := AsyncExecutor.poll_once self w in Ret (Polled p, (NEXT_ID, self, w))
  | Env g => Ret (Silent, (NEXT_ID, self, g w))
  end.

Fixpoint event_run (es : list event) (st : Z * AsyncExecutor F * W) : outcome (list answer * (Z * AsyncExecutor F * W)) :=
  match es with
  | [] => Ret ([], st)
  | e :: es' => let! (o, st) := event_step e st in let! (os, st) := event_run es' st in Ret (o :: os, st)
  end.

(** The specification: the next identifier, the live tasks, those that are due, the world. *)
Definition spec_step (max : Z) (e : event) (st : Z * list (Z * F) * gset Z * W) : answer * (Z * list (Z * F) * gset Z * W) :=
  let '(next, live, due, w) := st in
  match e with
  | Spawn f =>
    if max <=? Z.of_nat (length live) then (Spawned None, st)
    else (Spawned (Some next), (next + 1, live ++ [(next, f)], due ∪ {[next]}, w))
  | Wake id => (Silent, (next, live, due ∪ {[id]}, w))
  | Round => let '(live', w', due') := spec_round due live w ∅ in (Polled (bool_decide (length live' < length live)%nat), (next, live', due', w'))
  | Env g => (Silent, (next, live, due, g w))
  end.

Fixpoint spec_run (max : Z) (es : list event) (st : Z * list (Z * F) * gset Z * W) : list answer * (Z * list (Z * F) * gset Z * W) :=
  match es with
  | [] => ([], st)
  | e :: es' => let '(o, st) := spec_step max e st in let '(os, st) := spec_run max es' st in (o :: os, st)
  end.

Definition abs (st : Z * AsyncExecutor F * W) : Z * list (Z * F) * gset Z * W :=
  let '(next, self, w) := st in (next, live_of self, due_of self, w).

Definition sys_ok (b max : Z) (st : Z * AsyncExecutor F * W) : Prop :=
  let '(next, self, w) := st in
  exec_ok b self ∧ max_tasks self = max ∧ Forall (λ id, id < next) (ids_of (tasks self)) ∧ 0 <= next ∧ tasks_spawned (stats self) <= b.

Lemma spawn_ok b max (next : Z) f self w :
  sys_ok b max (next, self, w) → 0 <= b < U64_MAX → next < U64_MAX →
  returns (event_step (Spawn f) (next, self, w)) (λ '(o, st'), (o, abs st') = spec_step max (Spawn f) (abs (next, self, w)) ∧ sys_ok (b + 1) max st').
Proof.
  intros ([Hd Hm Hp Hs Hc [Ha Hb]] & Em & Hi & Hn & Hsp) Hb0 Hn'. cbn [event_step spec_step abs]. unfold AsyncExecutor.spawn, live_of. rewrite length_fmap, Em.
  destruct (Z.leb_spec max (Z.of_nat (length (tasks self)))).
  { cbn [obind returns]. split; [done|]. split_and!; try (done || lia). split; (done || lia). }
  cbn [AsyncTask.new AsyncTaskId.new]. rewrite usize_add_ok by lia. rewrite wrap64_small by lia. cbn [obind returns task_id]. split; [|split_and!; try done; [split; simpl|..]; try (lia || nia)].
  - cbn [abs]. unfold live_of, due_of. cbn [tasks wake_queue]. rewrite fmap_app, filter_app, fmap_app. simpl. rewrite list_to_set_app_L. simpl. do 2 f_equal. f_equal. set_solver.
  - unfold ids_of. rewrite fmap_app. apply NoDup_app. split_and!; [done| |apply NoDup_singleton]. intros id Hin ->%list_elem_of_singleton. rewrite Forall_forall in Hi. apply Hi in Hin. simpl in Hin. lia.
  - rewrite length_app. simpl. lia.
  - rewrite length_app. simpl. lia.
  - unfold ids_of. simpl. rewrite fmap_app. apply Forall_app. split; [eapply Forall_impl; [done|simpl; lia]|]. constructor; [simpl; lia|done].
  - simpl. lia.
Qed.

Lemma exec_event_ok b max e st :
  sys_ok b max st → 0 <= b < U64_MAX → (b + 1) * Z.max 0 max <= U64_MAX → st.1.1 < U64_MAX →
  returns (event_step e st) (λ '(o, st'), (o, abs st') = spec_step max e (abs st) ∧ sys_ok (b + 1) max st').
Proof.
  destruct st as [[next self] w]. intros Hok Hb Hbm Hn. simpl in Hn. destruct e as [f|id| |g]; [by apply spawn_ok|..]; destruct Hok as (Hx & Em & Hi & Hn0 & Hsp); cbn [event_step spec_step abs].
  - cbn [returns abs]. split.
    + assert (due_of (AsyncExecutor.wake id self) = due_of self ∪ {[id]}) as ->; [|done].
      unfold due_of, AsyncExecutor.wake. cbn [wake_queue AsyncExecutor.set_queue tasks]. rewrite push_set. set_solver.
    + apply (exec_ok_mono _ (b + 1)) in Hx; [|lia]. split_and!; [by destruct Hx; constructor|done|done|done|simpl; lia].
  - pose proof (poll_once_ok b self w Hx ltac:(lia) ltac:(by rewrite Em) ltac:(lia)) as Hpo. destruct (AsyncExecutor.poll_once self w) as [[[p self'] w']| |]; [|done..]. cbn [obind returns] in *.
    destruct Hpo as (Es & Hx' & _ & Hpr & Em' & Esp). pose proof (spec_round_ids (due_of self) (live_of self) w ∅) as Hsub. rewrite <-Es in Hsub |- *. simpl in Hsub. split.
    + do 2 f_equal. destruct p; symmetry; [by apply bool_decide_eq_true, Hpr|]. apply bool_decide_eq_false. intros ?%Hpr. done.
    + split_and!; [done|congruence| |done|lia]. unfold live_of in Hsub. rewrite <-!list_fmap_compose in Hsub. rewrite Forall_forall in Hi |- *. intros id Hid. apply Hi. eapply elem_of_submseteq; [done|]. by apply sublist_submseteq.
  - cbn [returns]. split; [done|]. apply (exec_ok_mono _ (b + 1)) in Hx; [|lia]. split_and!; (done || lia).
Qed.

Lemma exec_run_ok max es : ∀ b st,
  sys_ok b max st → 0 <= b → b + Z.of_nat (length es) <= U64_MAX → (b + Z.of_nat (length es)) * Z.max 0 max <= U64_MAX → st.1.1 + Z.of_nat (length es) <= U64_MAX →
  returns (event_run es st) (λ '(os, st'), (os, abs st') = spec_run max es (abs st) ∧ sys_ok (b + Z.of_nat (length es)) max st').
Proof.
  induction es as [|e es IH]; intros b st Hok Hb Hl Hm Hn; cbn [event_run spec_run]; [cbn [returns]; by rewrite Z.add_0_r|]. simpl length in *.
  pose proof (exec_event_ok b max e st Hok ltac:(lia) ltac:(nia) ltac:(lia)) as Hst. destruct (event_step e st) as [[o st1]| |] eqn:E; [|done..]. cbn [obind returns] in *. destruct Hst as [<- Hok1].
  assert (st1.1.1 <= st.1.1 + 1) as Hn1.
  { destruct st as [[n x] w]. destruct e; simpl in E; [|by simplify_eq/=; simpl; lia| |by simplify_eq/=; simpl; lia].
    - unfold AsyncExecutor.spawn in E. destruct (_ <=? _); [by simplify_eq/=; lia|]. destruct (usize_add _ _); [|done..]. simpl in *. simplify_eq/=. rewrite wrap64_small; [lia|]. destruct Hok as (_ & _ & _ & ? & _). lia.
    - destruct (AsyncExecutor.poll_once x w) as [[[p x'] w']| |]; [|done..]. by simplify_eq/=; lia. }
  pose proof (IH (b + 1) st1 Hok1 ltac:(lia) ltac:(lia) ltac:(nia) ltac:(lia)) as Hr. destruct (event_run es st1) as [[os st2]| |]; [|done..]. cbn [obind returns] in *.
  destruct Hr as [<- Hr]. split; [done|]. by replace (b + Z.of_nat (S (length es))) with (b + 1 + Z.of_nat (length es)) by lia.
Qed.

Lemma new_sys_ok max (next : Z) w : 0 <= next → sys_ok 0 max (next, AsyncExecutor.with_capacity max, w).
Proof. intros Hn. split_and!; try done. split; simpl; try (done || lia). apply NoDup_nil_2. Qed.

(** C17. No wake-up is lost and none is made up: whatever is spawned, woken and polled, in
    whatever order, no call panics, and in every round exactly those live tasks are polled
    that were spawned or woken since the round before began, each once, in the order of
    their spawning; a task leaves when its future is ready; and a task is refused only
    when as many are alive as there may be. *)
Theorem executor_refines max es NEXT_ID w :
  0 <= NEXT_ID → NEXT_ID + Z.of_nat (length es) <= U64_MAX → Z.of_nat (length es) * Z.max 1 max <= U64_MAX →
  returns (event_run es (NEXT_ID, AsyncExecutor.with_capacity max, w)) (λ '(os, (next, self, w')),
    (os, (next, live_of self, due_of self, w')) = spec_run max es (NEXT_ID, [], ∅, w) ∧ NoDup (live_of self).*1 ∧
    tasks_spawned (stats self) - tasks_completed (stats self) = AsyncExecutor.pending_tasks self ∧ AsyncExecutor.pending_tasks self <= Z.max 0 max).
Proof.
  intros Hn Hn' Hl. eapply returns_mono; [apply (exec_run_ok max es 0 _ (new_sys_ok max NEXT_ID w Hn)); simpl; nia|].
  intros [os [[next self] w']] [E (Hx & Em & _)]. split; [done|]. destruct Hx as [Hd Hm _ _ _ [Ha _]]. rewrite Em in Hm. unfold AsyncExecutor.pending_tasks. split_and!; [|lia|done].
  unfold live_of. by rewrite <-list_fmap_compose.
Qed.

(** ** Termination *)

Section cooperative.
Variables (fine : F → Prop) (effort : F → nat).

(** A cooperative future that is not ready has woken itself, and comes closer to its end. *)
Definition cooperative : Prop := ∀ id f w, fine f →
  match poll id f w with
  | (Some _, _, _, _) => True
  | (None, f', _, wakes) => fine f' ∧ id ∈ wakes ∧ (effort f' < effort f)%nat
  end.

(** A future that sleeps wakes somebody only when it comes closer to its end. *)
Definition sleeping : Prop := ∀ id f w, fine f →
  match poll id f w with
  | (Some _, _, _, _) => True
  | (None, f', _, wakes) => fine f' ∧ (effort f' <= effort f)%nat ∧ (wakes ≠ [] → (effort f' < effort f)%nat)
  end.

Definition within (n : nat) due (p : Z * F) : Prop := fine p.2 ∧ p.1 ∈ due ∧ (effort p.2 < n)%nat.

Lemma spec_round_next due live : ∀ w next, next ⊆ (spec_round due live w next).2.
Proof.
  induction live as [|[id f] live IH]; intros w next; simpl; [done|]. case_bool_decide.
  - destruct (poll id f w) as [[[answer f'] w'] wakes]. specialize (IH w' (next ∪ list_to_set wakes)). destruct (spec_round _ _ _ _) as [[rest w''] next']. simpl in *. set_solver.
  - specialize (IH w next). destruct (spec_round _ _ _ _) as [[rest w''] next']. done.
Qed.

Lemma cooperative_round n due live : ∀ w next, cooperative → Forall (within (S n) due) live →
  let '(live', _, next') := spec_round due live w next in Forall (within n next') live'.
Proof.
  induction live as [|[id f] live IH]; intros w next Hc Hl; simpl; [by constructor|]. inversion_clear Hl as [|? ? (Hf & Hd & He) Hl']. simpl in *.
  rewrite bool_decide_eq_true_2 by done. specialize (Hc id f w Hf) as Hp. destruct (poll id f w) as [[[answer f'] w'] wakes].
  specialize (IH w' (next ∪ list_to_set wakes) Hc Hl'). pose proof (spec_round_next due live w' (next ∪ list_to_set wakes)) as Hn.
  destruct (spec_round _ _ _ _) as [[rest w''] next']. destruct answer; [done|]. constructor; [|done]. destruct Hp as (? & ? & ?). simpl in *. split_and!; simpl; [done|set_solver|lia].
Qed.

Lemma run_ok n : ∀ b self w, cooperative → exec_ok b self → Forall (within n (due_of self)) (live_of self) →
  0 <= b → (b + Z.of_nat n) * Z.max 0 (max_tasks self) <= U64_MAX → tasks_spawned (stats self) <= U64_MAX →
  returns (AsyncExecutor.run n self w) (λ '(self', _), tasks self' = [] ∧ tasks_completed (stats self') = tasks_spawned (stats self)).
Proof.
  induction n as [|n IH]; intros b self w Hc Hx Hl Hb Hm Hs; cbn [AsyncExecutor.run].
  - destruct (tasks self) as [|t ts] eqn:Et; [cbn [returns]; destruct Hx as [_ _ _ _ _ [Ha _]]; rewrite Et in Ha; simpl in Ha; split; [done|lia]|].
    unfold live_of in Hl. rewrite Et in Hl. inversion_clear Hl as [|? ? (_ & _ & ?)]. lia.
  - assert (returns (let! (_, self, w) := AsyncExecutor.poll_once self w in AsyncExecutor.run n self w) (λ '(self', _), tasks self' = [] ∧ tasks_completed (stats self') = tasks_spawned (stats self))) as Hgo.
    { eapply returns_bind; [apply (poll_once_ok b self w Hx Hb); [nia|done]|]. intros [[p self'] w'] (E & Hx' & _ & _ & Em & Es). rewrite <-Es. apply (IH (b + 1) self' w'); [done|done| |lia|rewrite Em; nia|lia].
      pose proof (cooperative_round n (due_of self) (live_of self) w ∅ Hc Hl) as Hr. by rewrite <-E in Hr. }
    destruct (tasks self) as [|t ts] eqn:Et; [|done]. cbn [returns]. destruct Hx as [_ _ _ _ _ [Ha _]]. rewrite Et in Ha. simpl in Ha. split; [done|lia].
Qed.

(** The work that is left. *)
Definition work live : nat := sum_list_with (λ p, S (effort p.2)) live.

Lemma sleeping_round due live : ∀ w next, sleeping → Forall (λ p, fine p.2) live →
  let '(live', _, next') := spec_round due live w next in
  Forall (λ p, fine p.2) live' ∧ (length live' <= length live)%nat ∧ (work live' <= work live)%nat ∧ ((work live' < work live)%nat ∨ (length live' = length live ∧ next' = next)).
Proof.
  induction live as [|[id f] live IH]; intros w next Hc Hl; simpl; [split_and!; (done || lia || auto)|]. inversion_clear Hl as [|? ? Hf Hl']. simpl in *. case_bool_decide.
  - specialize (Hc id f w Hf) as Hp. destruct (poll id f w) as [[[answer f'] w'] wakes]. specialize (IH w' (next ∪ list_to_set wakes) Hc Hl').
    destruct (spec_round _ _ _ _) as [[rest w''] next']. destruct IH as (H1 & H2 & H3 & H4). unfold work in *. destruct answer; simpl; [split_and!; (done || lia)|].
    destruct Hp as (Hf' & He & Hw). split_and!; [by constructor|lia..|]. destruct wakes as [|x wakes]; [|left; specialize (Hw ltac:(done)); lia].
    destruct H4 as [?|[? ->]]; [left; lia|]. destruct (decide (effort f' < effort f)%nat); [left; lia|]. right. split; [lia|]. simpl. set_solver.
  - specialize (IH w next Hc Hl'). destruct (spec_round _ _ _ _) as [[rest w''] next']. destruct IH as (H1 & H2 & H3 & H4). unfold work in *. simpl.
    split_and!; [by constructor|lia..|]. destruct H4 as [?|[? ->]]; [left; lia|]. right. split; [lia|done].
Qed.

Lemma has_pending_false self : due_of self = list_to_set (wake_queue self) → WakeQueue.has_pending (wake_queue self) = false ↔ due_of self = ∅.
Proof.
  intros ->. unfold WakeQueue.has_pending. rewrite negb_false_iff, bool_decide_eq_true. destruct (wake_queue self); set_solver.
Qed.

Lemma stalled_ok n : ∀ b self w, sleeping → exec_ok b self → Forall (λ p, fine p.2) (live_of self) → (work (live_of self) < n)%nat →
  0 <= b → (b + Z.of_nat n) * Z.max 0 (max_tasks self) <= U64_MAX → tasks_spawned (stats self) <= U64_MAX →
  returns (AsyncExecutor.run_until_stalled n self w) (λ '(r, self', _), if (r : bool) then tasks self' = [] else tasks self' ≠ [] ∧ due_of self' = ∅).
Proof.
  induction n as [|n IH]; intros b self w Hc Hx Hl Hw Hb Hm Hs; [lia|]. cbn [AsyncExecutor.run_until_stalled]. destruct (tasks self) as [|t ts] eqn:Et; [done|].
  eapply returns_bind; [apply (poll_once_ok b self w Hx Hb); [nia|done]|]. intros [[p self'] w'] (E & Hx' & Edue & Hp & Em & Es).
  pose proof (sleeping_round (due_of self) (live_of self) w ∅ Hc Hl) as Hr. rewrite <-E in Hr. destruct Hr as (H1 & H2 & H3 & H4).
  destruct (negb p && negb (WakeQueue.has_pending (wake_queue self'))) eqn:Hst.
  - apply andb_true_iff in Hst as [Hnp%negb_true_iff Hnw%negb_true_iff]. cbn [returns]. split; [|by apply has_pending_false].
    intros Et'. assert (p = true) as Hpt; [|congruence]. apply Hp. unfold live_of. rewrite !length_fmap, Et, Et'. simpl. lia.
  - apply (IH (b + 1) self' w'); [done|done|done| |lia|rewrite Em; nia|lia]. destruct H4 as [?|[Hlen Hdue]]; [lia|].
    assert (p = false) as Hpf by (destruct p; [destruct Hp as [Hp _]; specialize (Hp eq_refl); lia|done]).
    rewrite Hpf in Hst. simpl in Hst. apply negb_false_iff in Hst. apply has_pending_false in Hdue; [congruence|done].
Qed.

Lemma spawn_all_spec n max fs : ∀ (next : Z) live due w,
  Z.of_nat (length live) + Z.of_nat (length fs) <= max → Forall (within n due) live → Forall (λ f, fine f ∧ (effort f < n)%nat) fs →
  let '(_, (_, live', due', _)) := spec_run max (Spawn <$> fs) (next, live, due, w) in Forall (within n due') live' ∧ length live' = (length live + length fs)%nat.
Proof.
  induction fs as [|f fs IH]; intros next live due w Hm Hl Hf; [simpl; split; [done|lia]|]. simpl length in *. cbn [fmap list_fmap spec_run spec_step]. inversion_clear Hf as [|? ? [Hf1 Hf2] Hf'].
  destruct (Z.leb_spec max (Z.of_nat (length live))); [lia|]. specialize (IH (next + 1) (live ++ [(next, f)]) (due ∪ {[next]}) w). rewrite length_app in IH. simpl length in IH.
  destruct (spec_run _ _ _) as [os [[[next' live'] due'] w']]. destruct IH as [? ->]; [lia| |done|split; [done|lia]].
  apply Forall_app. split; [eapply Forall_impl; [done|]; intros p (? & ? & ?); split_and!; [done|set_solver|done]|]. constructor; [|done]. split_and!; simpl; [done|set_solver|done].
Qed.

(** C22. Cooperative tasks all complete: when every future that is not ready wakes itself
    and takes fewer than [n] polls to be ready, [run] returns after at most [n] rounds
    with no task left and every task that was spawned counted as completed. *)
Theorem run_completes n fs max NEXT_ID w :
  cooperative → Forall (λ f, fine f ∧ (effort f < n)%nat) fs → Z.of_nat (length fs) <= max →
  0 <= NEXT_ID → NEXT_ID + Z.of_nat (length fs) <= U64_MAX → (Z.of_nat (length fs) + Z.of_nat n) * Z.max 1 max <= U64_MAX →
  returns (event_run (Spawn <$> fs) (NEXT_ID, AsyncExecutor.with_capacity max, w)) (λ '(_, (_, self, w')),
    AsyncExecutor.pending_tasks self = Z.of_nat (length fs) ∧
    returns (AsyncExecutor.run n self w') (λ '(self', _), tasks self' = [] ∧ tasks_completed (stats self') = tasks_spawned (stats self))).
Proof.
  intros Hc Hf Hl Hn Hn' Hm. pose proof (exec_run_ok max (Spawn <$> fs) 0 _ (new_sys_ok max NEXT_ID w Hn)) as Hr. rewrite length_fmap in Hr.
  specialize (Hr ltac:(lia) ltac:(nia) ltac:(nia) ltac:(simpl; lia)). eapply returns_mono; [exact Hr|]. intros [os [[next self] w']] [E (Hx & Em & _ & _ & Hsp)].
  pose proof (spawn_all_spec n max fs NEXT_ID [] ∅ w ltac:(simpl; lia) ltac:(by constructor) Hf) as Hs. change (abs (NEXT_ID, AsyncExecutor.with_capacity max, w)) with (NEXT_ID, @nil (Z * F), due_of (AsyncExecutor.with_capacity (F := F) max), w) in E.
  replace (due_of (AsyncExecutor.with_capacity max)) with (∅ : gset Z) in E by (unfold due_of; simpl; set_solver). rewrite <-E in Hs. cbn [abs] in Hs. destruct Hs as [Hs Hlen]. split.
  - unfold AsyncExecutor.pending_tasks. unfold live_of in Hlen. rewrite length_fmap in Hlen. simpl in Hlen. lia.
  - apply (run_ok n (Z.of_nat (length fs))); try done; [lia|rewrite Em; nia|]. nia.
Qed.

(** [run_until_stalled] returns: when a future wakes somebody only if it comes closer
    to its end, the rounds are at most the work that is left and one; it answers yes when
    no task is left, and no when there are tasks and none of them is due. *)
Theorem run_until_stalled_returns b self w :
  sleeping → exec_ok b self → Forall (λ p, fine p.2) (live_of self) → 0 <= b →
  (b + Z.of_nat (S (work (live_of self)))) * Z.max 0 (max_tasks self) <= U64_MAX → tasks_spawned (stats self) <= U64_MAX →
  returns (AsyncExecutor.run_until_stalled (S (work (live_of self))) self w) (λ '(r, self', _),
    if (r : bool) then tasks self' = [] else tasks self' ≠ [] ∧ due_of self' = ∅).
Proof. intros Hc Hx Hf Hb Hm Hs. apply (stalled_ok _ b); (done || lia). Qed.
End cooperative.
End spec.

(** ** Futures of the kernel *)

Section futures.
Context {W : Type}.

Definition kernel_future : Type := Yield + Delay.
Definition kernel_fine (f : kernel_future) : Prop := match f with inl _ => True | inr d => 0 <= remaining d end.
(** How many polls it takes, less one. *)
Definition kernel_effort (f : kernel_future) : nat := match f with inl y => if yielded y then 0 else 1 | inr d => Z.to_nat (remaining d) end.

Lemma kernel_cooperative : cooperative (W := W) kernel_fine kernel_effort.
Proof.
  intros id [y|d] w Hf; cbn.
  - unfold poll at 1, yield_future, yield_poll. destruct (yielded y) eqn:E; [done|]. simpl. split_and!; [done|set_solver|lia].
  - unfold poll at 1, delay_future, delay_poll. simpl in Hf. destruct (Z.eqb_spec (remaining d) 0); [done|]. simpl. split_and!; [lia|set_solver|lia].
Qed.

Lemma kernel_sleeping : sleeping (W := W) kernel_fine kernel_effort.
Proof. intros id f w Hf. pose proof (kernel_cooperative id f w Hf) as Hc. destruct (poll id f w) as [[[[[]|] f'] w'] wakes]; [done|]. destruct Hc as (? & ? & ?). split_and!; [done|lia|done]. Qed.
End futures.

(** ** Channels *)

(** A receiver that waits wakes itself at every poll, so that an executor whose only task
    waits for a channel on which nobody sends is never stalled. *)
Definition waiting (p : Z) : AsyncExecutor (Discard OneshotReceiver) := mkExecutor [mkTask 0 (mkDiscard (mkReceiver 7)) true] [] (mkStats 1 0 p 0) 1.
Definition waiting' (p : Z) : AsyncExecutor (Discard OneshotReceiver) := mkExecutor [mkTask 0 (mkDiscard (mkReceiver 7)) false] [0] (mkStats 1 0 p 0) 1.

Lemma receiver_never_stalls fuel : Z.of_nat fuel <= U64_MAX → AsyncExecutor.run_until_stalled fuel (waiting 0) (∅ : Channels Z) = Timeout.
Proof.
  assert (∀ p, 0 <= p < U64_MAX → AsyncExecutor.poll_once (waiting' p) (∅ : Channels Z) = Ret (false, waiting' (p + 1), ∅)) as Hstep.
  { intros p Hp. unfold AsyncExecutor.poll_once. cbn -[usize_add]. unfold AsyncExecutor.poll_task. cbn -[usize_add]. rewrite usize_add_ok by lia. done. }
  assert (∀ n p, 0 <= p → p + Z.of_nat n <= U64_MAX → AsyncExecutor.run_until_stalled n (waiting' p) (∅ : Channels Z) = Timeout) as Hloop.
  { induction n as [|n IH]; intros p Hp Hn; [done|]. cbn [AsyncExecutor.run_until_stalled]. change (tasks (waiting' p)) with [mkTask 0 (mkDiscard (mkReceiver 7)) false].
    cbv iota beta. rewrite Hstep by lia. cbn [obind]. change (negb false && negb (WakeQueue.has_pending (wake_queue (waiting' (p + 1))))) with false. apply IH; lia. }
  intros Hf. destruct fuel as [|n]; [done|]. transitivity (AsyncExecutor.run_until_stalled n (waiting' 1) (∅ : Channels Z)); [done|]. apply Hloop; lia.
Qed.

(** One value is sent and received, when nobody comes between the two accesses of [send]. *)
Lemma oneshot_once {T} (v v' : T) :
  let '(r1, c1) := Oneshot.send v Oneshot.new in
  let '(r2, c2) := Oneshot.send v' c1 in
  let '(x, c3) := Oneshot.try_recv c2 in
  r1 = true ∧ r2 = false ∧ x = Some v ∧ (Oneshot.try_recv c3).1 = None ∧ (Oneshot.send v' c3).1 = false.
Proof. done. Qed.

(** Two senders that have both made the first check: both sends succeed, and the channel
    delivers both values, when the first is received in between. *)
Lemma oneshot_delivers_twice :
  let c := Oneshot.new (T := Z) in
  Oneshot.send_check c = false ∧ (* both senders *)
  let '(r1, c1) := Oneshot.send_locked 1 c in
  let '(x1, c2) := Oneshot.try_recv c1 in
  let '(r2, c3) := Oneshot.send_locked 2 c2 in
  let '(x2, _) := Oneshot.try_recv c3 in
  r1 = true ∧ r2 = true ∧ x1 = Some 1 ∧ x2 = Some 2.
Proof. done. Qed.

(** ** Witnesses *)

Definition sample : list (event (W := Z) (F := kernel_future)) := [Spawn (inl yield_now); Spawn (inr (delay 2)); Round; Wake 0; Spawn (inl yield_now); Round; Round; Round].

Lemma executor_refines_witness :
  returns (event_run sample (5, AsyncExecutor.with_capacity 2, 0)) (λ '(os, (next, self, w')),
    (os, (next, live_of self, due_of self, w')) = spec_run 2 sample (5, [], ∅, 0)) ∧
  (spec_run 2 sample (5, [], ∅, 0)).1 = [Spawned (Some 5); Spawned (Some 6); Polled false; Silent; Spawned None; Polled true; Polled true; Polled false].
Proof.
  split; [|by vm_compute]. eapply returns_mono; [apply (executor_refines 2 sample 5 0); simpl; lia|]. intros [os [[next self] w']] (? & _). done.
Defined.

Lemma run_completes_witness :
  returns (event_run (Spawn <$> [inl yield_now; inr (delay 3)]) (0, AsyncExecutor.new, ())) (λ '(_, (_, self, w')),
    returns (AsyncExecutor.run 4 self w') (λ '(self', _), tasks self' = [])).
Proof.
  eapply returns_mono; [apply (run_completes kernel_fine kernel_effort 4 [inl yield_now; inr (delay 3)] 256 0 ()); [apply kernel_cooperative|repeat constructor; simpl; lia|simpl; lia..]|].
  intros [os [[next self] w']] [_ Hr]. eapply returns_mono; [exact Hr|]. by intros [self' w''] [? _].
Defined.

Definition one_task : AsyncExecutor kernel_future := mkExecutor [mkTask 0 (inr (delay 1)) true] [] (mkStats 1 0 0 0) 4.

Lemma run_until_stalled_returns_witness :
  returns (AsyncExecutor.run_until_stalled (S (work kernel_effort (live_of one_task))) one_task ()) (λ '(r, self', _),
    if (r : bool) then tasks self' = [] else tasks self' ≠ [] ∧ due_of self' = ∅).
Proof.
  apply (run_until_stalled_returns kernel_fine kernel_effort 0 one_task ()); [apply kernel_sleeping| |by repeat constructor|simpl; lia..].
  split; simpl; try (done || lia). apply NoDup_singleton.
Defined.
