(* ===== verification/Interrupt.v ===== *)
(** * Interrupts (mielin-kernel/src/interrupt.rs)

    The table of handlers, the dispatcher and the queue of deferred work.  The static
    state is behind a lock.  A dispatch takes it twice, before and after the handler runs
    ([dispatch_enter], [dispatch_exit]); in between other interrupts may come in.
    Handlers ([H]) and work functions ([F]) are function pointers, of which the table
    keeps the values; what they do to the world is [Platform].  Time stamps are read from
    the hardware and are arguments. *)

From stdpp Require Import base tactics option list numbers.
From S2P Require Import Prelude.

(* src: mielin-kernel/src/interrupt.rs 90-90 MAX_IRQS *)
Definition MAX_IRQS : Z := 256.
(* src: mielin-kernel/src/interrupt.rs 93-93 MAX_WORK_QUEUE_SIZE *)
Definition MAX_WORK_QUEUE_SIZE : Z := 1024.
(** The sizes of the array of nesting levels and of the deepest nesting. *)
Definition NESTING_CPUS : Z := 16.
Definition MAX_NESTING : Z := 8.

(* src: mielin-kernel/src/interrupt.rs 100-119 InterruptError *)
Inductive InterruptError : Type :=
| InvalidIrq | AlreadyRegistered | NoHandler | NotInitialized | AlreadyInitialized | WorkQueueFull | InvalidPriority | NestedOverflow | InvalidContext.

(* src: mielin-kernel/src/interrupt.rs 143-154 IrqPriority *)
Inductive IrqPriority : Type := Critical | Highest | High | Normal | Low.

Module IrqPriority.

(* src: mielin-kernel/src/interrupt.rs 158-160 IrqPriority::as_u8 *)
Definition as_u8 (self : IrqPriority) : Z := match self with Critical => 0 | Highest => 1 | High => 4 | Normal => 8 | Low => 12 end.

(* src: mielin-kernel/src/interrupt.rs 163-172 IrqPriority::from_u8 *)
Definition from_u8 (value : Z) : result IrqPriority InterruptError :=
  if value =? 0 then Ok Critical
  else if (1 <=? value) && (value <=? 3) then Ok Highest
  else if (4 <=? value) && (value <=? 7) then Ok High
  else if (8 <=? value) && (value <=? 11) then Ok Normal
  else if (12 <=? value) && (value <=? 15) then Ok Low
  else Err InvalidPriority.

End IrqPriority.

(* src: mielin-kernel/src/interrupt.rs 181-200 InterruptContext *)
Record InterruptContext : Type := mkContext {
  irq : Z;
  ctx_priority : Z;
  ctx_nesting_level : Z;
  cpu_id : Z;
  timestamp : Z;
  pc : Z;
  sp : Z;
  kernel_mode : bool;
}.

(* src: mielin-kernel/src/interrupt.rs 204-216 InterruptContext::new *)
Definition context_new (irq priority cpu_id : Z) (tsc : Z) : InterruptContext := mkContext irq priority 0 cpu_id tsc 0 0 true.

(* src: mielin-kernel/src/interrupt.rs 230-241 IrqDescriptor *)
Record IrqDescriptor (H : Type) : Type := mkDescriptor {
  handler : option H;
  priority : IrqPriority;
  enabled : bool;
  count : Z;
  last_timestamp : Z;
}.
Arguments mkDescriptor {H}.
Arguments handler {H}.
Arguments priority {H}.
Arguments enabled {H}.
Arguments count {H}.
Arguments last_timestamp {H}.

(* src: mielin-kernel/src/interrupt.rs 244-252 IrqDescriptor::new *)
Definition descriptor_new {H} : IrqDescriptor H := mkDescriptor None Normal false 0 0.

(* src: mielin-kernel/src/interrupt.rs 257-263 WorkItem *)
Record WorkItem (F : Type) : Type := mkWork { func : F; work_timestamp : Z }.
Arguments mkWork {F}.
Arguments func {F}.
Arguments work_timestamp {F}.

(* src: mielin-kernel/src/interrupt.rs 266-281 InterruptState *)
Record InterruptState (H F : Type) : Type := mkState {
  irq_table : list (IrqDescriptor H);
  work_queue : list (WorkItem F);
  nesting_level : list Z;
  initialized : bool;
  total_interrupts : Z;
  total_work_items : Z;
  max_latency_ns : Z;
}.
Arguments mkState {H F}.
Arguments irq_table {H F}.
Arguments work_queue {H F}.
Arguments nesting_level {H F}.
Arguments initialized {H F}.
Arguments total_interrupts {H F}.
Arguments total_work_items {H F}.
Arguments max_latency_ns {H F}.

(** What the rest of the kernel keeps, and what the pointers do when they are called. *)
Class Platform (W H F : Type) : Type := {
  interrupts : W → InterruptState H F;
  set_interrupts : InterruptState H F → W → W;
  call_handler : H → InterruptContext → W → outcome W;
  call_work : F → W → outcome W;
}.

Module InterruptState.
Section state.
Context {H F : Type}.
Implicit Types (self : InterruptState H F).

(* src: mielin-kernel/src/interrupt.rs 284-312 InterruptState::new *)
Definition new : InterruptState H F :=
  mkState (replicate (Z.to_nat MAX_IRQS) descriptor_new) [] (replicate (Z.to_nat NESTING_CPUS) 0) false 0 0 0.

Definition set_table (t : list (IrqDescriptor H)) self : InterruptState H F :=
  mkState t (work_queue self) (nesting_level self) (initialized self) (total_interrupts self) (total_work_items self) (max_latency_ns self).
Definition set_nesting (n : list Z) self : InterruptState H F :=
  mkState (irq_table self) (work_queue self) n (initialized self) (total_interrupts self) (total_work_items self) (max_latency_ns self).
Definition set_work (q : list (WorkItem F)) self : InterruptState H F :=
  mkState (irq_table self) q (nesting_level self) (initialized self) (total_interrupts self) (total_work_items self) (max_latency_ns self).

(** With the queue made anew, as the build with the standard library does. *)
(* src: mielin-kernel/src/interrupt.rs 326-344 init *)
Definition init self : result unit InterruptError * InterruptState H F :=
  if initialized self then (Ok (), self)
  else (Ok (), mkState (irq_table self) [] (nesting_level self) true (total_interrupts self) (total_work_items self) (max_latency_ns self)).

(* src: mielin-kernel/src/interrupt.rs 360-381 register_irq_handler *)
Definition register_irq_handler (n : Z) (h : H) (p : IrqPriority) self : outcome (result unit InterruptError * InterruptState H F) :=
  if negb (initialized self) then Ret (Err NotInitialized, self)
  else
    let! desc := arr_get (irq_table self) n in
    match handler desc with
    | Some _ => Ret (Err AlreadyRegistered, self)
    | None =>
      let! t := arr_set (irq_table self) n (mkDescriptor (Some h) p (enabled desc) (count desc) (last_timestamp desc)) in
      Ret (Ok (), set_table t self)
    end.

(* src: mielin-kernel/src/interrupt.rs 392-409 unregister_irq_handler *)
Definition unregister_irq_handler (n : Z) self : outcome (result unit InterruptError * InterruptState H F) :=
  if negb (initialized self) then Ret (Err NotInitialized, self)
  else
    let! desc := arr_get (irq_table self) n in
    match handler desc with
    | None => Ret (Err NoHandler, self)
    | Some _ =>
      let! t := arr_set (irq_table self) n (mkDescriptor None (priority desc) false (count desc) (last_timestamp desc)) in
      Ret (Ok (), set_table t self)
    end.

(* src: mielin-kernel/src/interrupt.rs 420-438 enable_irq *)
Definition enable_irq (n : Z) self : outcome (result unit InterruptError * InterruptState H F) :=
  if negb (initialized self) then Ret (Err NotInitialized, self)
  else
    let! desc := arr_get (irq_table self) n in
    match handler desc with
    | None => Ret (Err NoHandler, self)
    | Some _ =>
      let! t := arr_set (irq_table self) n (mkDescriptor (handler desc) (priority desc) true (count desc) (last_timestamp desc)) in
      Ret (Ok (), set_table t self)
    end.

(* src: mielin-kernel/src/interrupt.rs 445-458 disable_irq *)
Definition disable_irq (n : Z) self : outcome (result unit InterruptError * InterruptState H F) :=
  if negb (initialized self) then Ret (Err NotInitialized, self)
  else
    let! desc := arr_get (irq_table self) n in
    let! t := arr_set (irq_table self) n (mkDescriptor (handler desc) (priority desc) false (count desc) (last_timestamp desc)) in
    Ret (Ok (), set_table t self).

(** How the first critical section of a dispatch ends: the call returns, or the handler
    is called. *)
Inductive entered : Type := Return (r : result unit InterruptError) | Call (h : H).

(** The nesting level of a CPU is an atomic counter. *)
Definition add_nesting (d : Z) (c : Z) self : outcome (Z * InterruptState H F) :=
  let! old := arr_get (nesting_level self) c in
  let! n := arr_set (nesting_level self) c (wrap64 (old + d)) in
  Ret (old, set_nesting n self).

(* src: mielin-kernel/src/interrupt.rs 473-510 dispatch_interrupt (before the handler) *)
Definition dispatch_enter (ctx : InterruptContext) self : outcome (entered * InterruptState H F) :=
  if negb (initialized self) then Ret (Return (Err NotInitialized), self)
  else
    let! (nesting, self) := add_nesting 1 (cpu_id ctx) self in
    if MAX_NESTING <=? nesting then
      let! (_, self) := add_nesting (-1) (cpu_id ctx) self in Ret (Return (Err NestedOverflow), self)
    else
      let! desc := arr_get (irq_table self) (irq ctx) in
      if negb (enabled desc) then
        let! (_, self) := add_nesting (-1) (cpu_id ctx) self in Ret (Return (Ok ()), self)
      else
        match handler desc with
        | None => let! (_, self) := add_nesting (-1) (cpu_id ctx) self in Ret (Return (Err NoHandler), self)
        | Some h =>
          Ret (Call h, mkState (irq_table self) (work_queue self) (nesting_level self) (initialized self) (wrap64 (total_interrupts self + 1)) (total_work_items self) (max_latency_ns self))
        end.

(* src: mielin-kernel/src/interrupt.rs 702-705 cycles_to_ns *)
Definition cycles_to_ns (cycles : Z) : Z := cycles / 3.

(* src: mielin-kernel/src/interrupt.rs 516-535 dispatch_interrupt (after the handler) *)
Definition dispatch_exit (ctx : InterruptContext) (start_tsc end_tsc : Z) self : outcome (InterruptState H F) :=
  let! latency_cycles := usize_sub end_tsc start_tsc in
  let latency_ns := cycles_to_ns latency_cycles in
  let! desc := arr_get (irq_table self) (irq ctx) in
  let! c := usize_add (count desc) 1 in
  let! t := arr_set (irq_table self) (irq ctx) (mkDescriptor (handler desc) (priority desc) (enabled desc) c (timestamp ctx)) in
  let self := mkState t (work_queue self) (nesting_level self) (initialized self) (total_interrupts self) (total_work_items self) (Z.max (max_latency_ns self) latency_ns) in
  let! (_, self) := add_nesting (-1) (cpu_id ctx) self in
  Ret self.

(* src: mielin-kernel/src/interrupt.rs 551-570 schedule_work *)
Definition schedule_work (f : F) (tsc : Z) self : result unit InterruptError * InterruptState H F :=
  if negb (initialized self) then (Err NotInitialized, self)
  else if MAX_WORK_QUEUE_SIZE <=? Z.of_nat (length (work_queue self)) then (Err WorkQueueFull, self)
  else (Ok (), set_work (work_queue self ++ [mkWork f tsc]) self).

(** The items that are taken out, and how many. *)
(* src: mielin-kernel/src/interrupt.rs 581-595 process_work_queue (locked) *)
Definition drain_work self : list (WorkItem F) * InterruptState H F :=
  if negb (initialized self) then ([], self)
  else
    let items := work_queue self in
    (items, mkState (irq_table self) [] (nesting_level self) (initialized self) (total_interrupts self) (wrap64 (total_work_items self + Z.of_nat (length items))) (max_latency_ns self)).

(* src: mielin-kernel/src/interrupt.rs 607-620 InterruptStats *)
Record InterruptStats : Type := mkStats {
  s_total_interrupts : Z;
  s_total_work_items : Z;
  s_max_latency_ns : Z;
  enabled_irqs : Z;
  registered_handlers : Z;
  work_queue_depth : Z;
}.

Definition is_registered (d : IrqDescriptor H) : bool := match handler d with Some _ => true | None => false end.

(* src: mielin-kernel/src/interrupt.rs 623-641 get_stats *)
Definition get_stats self : InterruptStats :=
  mkStats (total_interrupts self) (total_work_items self) (max_latency_ns self) (count_if enabled (irq_table self))
    (count_if is_registered (irq_table self)) (Z.of_nat (length (work_queue self))).

(* src: mielin-kernel/src/interrupt.rs 645-658 IrqStats *)
Record IrqStats : Type := mkIrqStats { s_irq : Z; s_priority : Z; s_enabled : bool; has_handler : bool; s_count : Z; s_last_timestamp : Z }.

(* src: mielin-kernel/src/interrupt.rs 661-678 get_irq_stats *)
Definition get_irq_stats (n : Z) self : outcome (result IrqStats InterruptError) :=
  if negb (initialized self) then Ret (Err NotInitialized)
  else
    let! desc := arr_get (irq_table self) n in
    Ret (Ok (mkIrqStats n (IrqPriority.as_u8 (priority desc)) (enabled desc) (is_registered desc) (count desc) (last_timestamp desc))).

End state.
Arguments entered : clear implicits.
End InterruptState.

(** ** Calls in the world *)

Section platform.
Context {W H F : Type} `{Platform W H F}.

(* src: mielin-kernel/src/interrupt.rs 472-536 dispatch_interrupt *)
Definition dispatch_interrupt (ctx : InterruptContext) (start_tsc end_tsc : Z) (w : W) : outcome (result unit InterruptError * W) :=
  let! (e, st) := InterruptState.dispatch_enter ctx (interrupts w) in
  let w := set_interrupts st w in
  match e with
  | InterruptState.Return r => Ret (r, w)
  | InterruptState.Call h =>
    let! w := call_handler h ctx w in
    let! st := InterruptState.dispatch_exit ctx start_tsc end_tsc (interrupts w) in
    Ret (Ok (), set_interrupts st w)
  end.

(* src: mielin-kernel/src/interrupt.rs 598-600 process_work_queue (loop) *)
Fixpoint run_work (items : list (WorkItem F)) (w : W) : outcome W :=
  match items with
  | [] => Ret w
  | item :: items' => let! w := call_work (func item) w in run_work items' w
  end.

(* src: mielin-kernel/src/interrupt.rs 580-603 process_work_queue *)
Definition process_work_queue (w : W) : outcome (Z * W) :=
  let '(items, st) := InterruptState.drain_work (interrupts w) in
  let! w := run_work items (set_interrupts st w) in
  Ret (Z.of_nat (length items), w).

End platform.
