(* ===== verification/InterruptProps.v ===== *)
(** * Theorems about interrupts

    The specification keeps the registered handlers as a map, the enabled interrupts as a
    set, the dispatches whose handlers are running, those that are done, and the deferred
    work as a list. *)

From stdpp Require Import base tactics option list numbers gmap fin_sets.
From S2P Require Import Prelude Interrupt.

Section interrupt.
Context {H F : Type}.
Implicit Types (st : InterruptState H F) (ctx : InterruptContext).

(** ** Specification *)

Record spec : Type := mkSpec {
  s_init : bool;
  s_handlers : gmap Z H;
  s_on : gset Z;
  s_active : list InterruptContext;
  s_done : list InterruptContext;
  s_work : list F;
}.

(** The critical sections of the calls. *)
Inductive event : Type :=
| Init | Register (n : Z) (h : H) (p : IrqPriority) | Unregister (n : Z) | Enable (n : Z) | Disable (n : Z)
| Enter ctx | Exit (i : nat) (start_tsc end_tsc : Z) | Schedule (f : F) (tsc : Z) | Drain.

Inductive answer : Type := Returned (r : result unit InterruptError) | Called (h : H) | Work (fs : list F).

Definition on_cpu (c : Z) ctx : bool := cpu_id ctx =? c.
Definition of_irq (n : Z) ctx : bool := irq ctx =? n.

Definition guarded (s : spec) (r : answer * spec) : answer * spec := if s_init s then r else (Returned (Err NotInitialized), s).

Definition spec_step (e : event) (s : spec) : answer * spec :=
  let '(mkSpec i hs on act fin wk) := s in
  match e with
  | Init => (Returned (Ok ()), if i then s else mkSpec true hs on act fin [])
  | Register n h _ => guarded s
      (match hs !! n with Some _ => (Returned (Err AlreadyRegistered), s) | None => (Returned (Ok ()), mkSpec i (<[n := h]> hs) on act fin wk) end)
  | Unregister n => guarded s
      (match hs !! n with Some _ => (Returned (Ok ()), mkSpec i (delete n hs) (on ∖ {[n]}) act fin wk) | None => (Returned (Err NoHandler), s) end)
  | Enable n => guarded s
      (match hs !! n with Some _ => (Returned (Ok ()), mkSpec i hs (on ∪ {[n]}) act fin wk) | None => (Returned (Err NoHandler), s) end)
  | Disable n => guarded s (Returned (Ok ()), mkSpec i hs (on ∖ {[n]}) act fin wk)
  | Enter ctx => guarded s
      (if MAX_NESTING <=? count_if (on_cpu (cpu_id ctx)) act then (Returned (Err NestedOverflow), s)
       else if bool_decide (irq ctx ∈ on) then
         match hs !! irq ctx with
         | Some h => (Called h, mkSpec i hs on (ctx :: act) fin wk)
         | None => (Returned (Err NoHandler), s)
         end
       else (Returned (Ok ()), s))
  | Exit k _ _ =>
      match act !! k with
      | Some ctx => (Returned (Ok ()), mkSpec i hs on (delete k act) (ctx :: fin) wk)
      | None => (Returned (Ok ()), s)
      end
  | Schedule f _ => guarded s
      (if MAX_WORK_QUEUE_SIZE <=? Z.of_nat (length wk) then (Returned (Err WorkQueueFull), s) else (Returned (Ok ()), mkSpec i hs on act fin (wk ++ [f])))
  | Drain => if i then (Work wk, mkSpec i hs on act fin []) else (Work [], s)
  end.

Fixpoint spec_run (es : list event) (s : spec) : list answer * spec :=
  match es with
  | [] => ([], s)
  | e :: es' => let '(o, s) := spec_step e s in let '(os, s) := spec_run es' s in (o :: os, s)
  end.

(** ** The code *)

(** The state, and the dispatches whose handlers are running. *)
Definition event_step (e : event) (x : InterruptState H F * list InterruptContext) : outcome (answer * (InterruptState H F * list InterruptContext)) :=
  let '(st, act) := x in
  match e with
  | Init => let '(r, st) := InterruptState.init st in Ret (Returned r, (st, act))
  | Register n h p => let! (r, st) := InterruptState.register_irq_handler n h p st in Ret (Returned r, (st, act))
  | Unregister n => let! (r, st) := InterruptState.unregister_irq_handler n st in Ret (Returned r, (st, act))
  | Enable n => let! (r, st) := InterruptState.enable_irq n st in Ret (Returned r, (st, act))
  | Disable n => let! (r, st) := InterruptState.disable_irq n st in Ret (Returned r, (st, act))
  | Enter ctx =>
    let! (r, st) := InterruptState.dispatch_enter ctx st in
    match r with
    | InterruptState.Return r => Ret (Returned r, (st, act))
    | InterruptState.Call h => Ret (Called h, (st, ctx :: act))
    end
  | Exit k start_tsc end_tsc =>
    match act !! k with
    | Some ctx => let! st := InterruptState.dispatch_exit ctx start_tsc end_tsc st in Ret (Returned (Ok ()), (st, delete k act))
    | None => Ret (Returned (Ok ()), x)
    end
  | Schedule f tsc => let '(r, st) := InterruptState.schedule_work f tsc st in Ret (Returned r, (st, act))
  | Drain => let '(items, st) := InterruptState.drain_work st in Ret (Work (func <$> items), (st, act))
  end.

Fixpoint event_run (es : list event) (x : InterruptState H F * list InterruptContext) : outcome (list answer * (InterruptState H F * list InterruptContext)) :=
  match es with
  | [] => Ret ([], x)
  | e :: es' => let! (o, x) := event_step e x in let! (os, x) := event_run es' x in Ret (o :: os, x)
  end.

(** An interrupt number is a byte; the code is made for sixteen CPUs; the time stamp
    counter does not run back. *)
Definition irq_ok (n : Z) : Prop := 0 <= n < MAX_IRQS.
Definition ctx_ok ctx : Prop := irq_ok (irq ctx) ∧ 0 <= cpu_id ctx < NESTING_CPUS.
Definition event_ok (e : event) : Prop :=
  match e with
  | Register n _ _ | Unregister n | Enable n | Disable n => irq_ok n
  | Enter ctx => ctx_ok ctx
  | Exit _ start_tsc end_tsc => 0 <= start_tsc <= end_tsc ∧ end_tsc <= U64_MAX
  | Init | Schedule _ _ | Drain => True
  end.

(** What the descriptor of interrupt [n] is. *)
Definition desc_ok (s : spec) (n : Z) (d : IrqDescriptor H) : Prop :=
  handler d = s_handlers s !! n ∧ enabled d = bool_decide (n ∈ s_on s) ∧ count d = count_if (of_irq n) (s_done s).

(** The state after [b] calls. *)
Record related (b : Z) (x : InterruptState H F * list InterruptContext) (s : spec) : Prop := {
  r_init : initialized x.1 = s_init s;
  r_table : Z.of_nat (length (irq_table x.1)) = MAX_IRQS;
  r_desc : ∀ n d, 0 <= n → irq_table x.1 !! Z.to_nat n = Some d → desc_ok s n d;
  r_levels : Z.of_nat (length (nesting_level x.1)) = NESTING_CPUS;
  r_level : ∀ c l, 0 <= c → nesting_level x.1 !! Z.to_nat c = Some l → l = count_if (on_cpu c) (s_active s) ∧ l <= MAX_NESTING;
  r_active : x.2 = s_active s;
  r_ok : Forall ctx_ok (s_active s);
  r_on : s_on s ⊆ dom (s_handlers s);
  r_work : func <$> work_queue x.1 = s_work s;
  r_queue : Z.of_nat (length (s_work s)) <= MAX_WORK_QUEUE_SIZE;
  r_total : total_interrupts x.1 = Z.of_nat (length (s_active s)) + Z.of_nat (length (s_done s));
  r_bound : total_interrupts x.1 <= b;
}.

Lemma related_mono b b' x s : related b x s → b <= b' → related b' x s.
Proof. intros [] ?. split; (done || lia). Qed.

Lemma table_get b x s n : related b x s → irq_ok n →
  ∃ d, arr_get (irq_table x.1) n = Ret d ∧ desc_ok s n d ∧ ∀ d', arr_set (irq_table x.1) n d' = Ret (<[Z.to_nat n := d']> (irq_table x.1)).
Proof.
  intros Hr Hn. pose proof (r_table b x s Hr) as Hl. destruct (arr_get_range (irq_table x.1) n) as (d & Hd & Hg); [rewrite Hl; done|]. exists d. split_and!; [done| |].
  - apply (r_desc b x s Hr); [apply Hn|done].
  - intros d'. apply arr_set_ok. by rewrite Hl.
Qed.

(** Points of a table of properties: one is changed. *)
Lemma table_set {A} (P P' : Z → A → Prop) (l : list A) n a : 0 <= n →
  (∀ k x, 0 <= k → l !! Z.to_nat k = Some x → P k x) → P' n a → (∀ k x, k ≠ n → P k x → P' k x) →
  ∀ k x, 0 <= k → <[Z.to_nat n := a]> l !! Z.to_nat k = Some x → P' k x.
Proof.
  intros Hn Hl Ha Hne k x Hk. destruct (decide (k = n)) as [->|Hkn].
  - by intros [(_ & <- & _)|[? _]]%list_lookup_insert_Some.
  - rewrite lookup_upd_ne by (done || lia). intros Hx. by apply Hne, Hl.
Qed.

(** A change of one entry of the table, of which only the interrupt [n] takes notice. *)
Lemma related_table b st act s n d' hs on :
  related b (st, act) s → irq_ok n → on ⊆ dom hs →
  desc_ok (mkSpec (s_init s) hs on (s_active s) (s_done s) (s_work s)) n d' →
  (∀ k, k ≠ n → hs !! k = s_handlers s !! k ∧ (k ∈ on ↔ k ∈ s_on s)) →
  related b (InterruptState.set_table (<[Z.to_nat n := d']> (irq_table st)) st, act) (mkSpec (s_init s) hs on (s_active s) (s_done s) (s_work s)).
Proof.
  intros [] Hn Hon Hd Hk. split; try done; simpl in *.
  - by rewrite length_insert.
  - eapply (table_set (desc_ok s)); [apply Hn|done|done|]. intros k x Hkn (H1 & H2 & H3). destruct (Hk k Hkn) as [E1 E2]. split_and!; simpl; [by rewrite E1|rewrite H2; by apply bool_decide_ext|done].
Qed.

(** The state is initialized, or the call answers that it is not. *)
Ltac open_call Hr :=
  pose proof (r_init _ _ _ Hr) as Hi;
  match goal with s : spec |- _ => let i := fresh "i" in destruct s as [i hs on act' fin wk]; simpl in *; unfold guarded; cbn [s_init]; rewrite Hi; destruct i; cbn [negb]; [|done] end.

Lemma register_related b n h p st act s :
  related b (st, act) s → irq_ok n →
  returns (event_step (Register n h p) (st, act)) (λ '(o, x'), let '(o', s') := spec_step (Register n h p) s in o = o' ∧ related b x' s').
Proof.
  intros Hr Hn. destruct (table_get _ _ _ n Hr Hn) as (d & Hg & (H1 & H2 & H3) & Hset). cbn [event_step]. unfold InterruptState.register_irq_handler. open_call Hr. rewrite Hg. cbn [obind]. rewrite H1. destruct (hs !! n) as [h'|] eqn:E; [done|].
  rewrite Hset. cbn [obind returns]. split; [done|]. apply (related_table b st act (mkSpec true hs on act' fin wk)); [done|done| | |].
  - pose proof (r_on _ _ _ Hr). set_solver.
  - split_and!; simpl; [by rewrite lookup_insert_eq|done|done].
  - intros k Hk. simpl. by rewrite lookup_insert_ne.
Qed.

Lemma unregister_related b n st act s :
  related b (st, act) s → irq_ok n →
  returns (event_step (Unregister n) (st, act)) (λ '(o, x'), let '(o', s') := spec_step (Unregister n) s in o = o' ∧ related b x' s').
Proof.
  intros Hr Hn. destruct (table_get _ _ _ n Hr Hn) as (d & Hg & (H1 & H2 & H3) & Hset). cbn [event_step]. unfold InterruptState.unregister_irq_handler. open_call Hr. rewrite Hg. cbn [obind]. rewrite H1. destruct (hs !! n) as [h'|] eqn:E; [|done].
  rewrite Hset. cbn [obind returns]. split; [done|]. apply (related_table b st act (mkSpec true hs on act' fin wk)); [done|done| | |].
  - pose proof (r_on _ _ _ Hr). set_solver.
  - split_and!; simpl; [by rewrite lookup_delete_eq|symmetry; apply bool_decide_eq_false; set_solver|done].
  - intros k Hk. simpl. rewrite lookup_delete_ne by done. set_solver.
Qed.

Lemma enable_related b n st act s :
  related b (st, act) s → irq_ok n →
  returns (event_step (Enable n) (st, act)) (λ '(o, x'), let '(o', s') := spec_step (Enable n) s in o = o' ∧ related b x' s').
Proof.
  intros Hr Hn. destruct (table_get _ _ _ n Hr Hn) as (d & Hg & (H1 & H2 & H3) & Hset). cbn [event_step]. unfold InterruptState.enable_irq. open_call Hr. rewrite Hg. cbn [obind]. rewrite H1. destruct (hs !! n) as [h'|] eqn:E; [|done].
  rewrite Hset. cbn [obind returns]. split; [done|]. apply (related_table b st act (mkSpec true hs on act' fin wk)); [done|done| | |].
  - pose proof (r_on _ _ _ Hr). apply elem_of_dom_2 in E. set_solver.
  - split_and!; simpl; [done|symmetry; apply bool_decide_eq_true; set_solver|done].
  - intros k Hk. simpl. set_solver.
Qed.

Lemma disable_related b n st act s :
  related b (st, act) s → irq_ok n →
  returns (event_step (Disable n) (st, act)) (λ '(o, x'), let '(o', s') := spec_step (Disable n) s in o = o' ∧ related b x' s').
Proof.
  intros Hr Hn. destruct (table_get _ _ _ n Hr Hn) as (d & Hg & (H1 & H2 & H3) & Hset). cbn [event_step]. unfold InterruptState.disable_irq. open_call Hr. rewrite Hg. cbn [obind].
  rewrite Hset. cbn [obind returns]. split; [done|]. apply (related_table b st act (mkSpec true hs on act' fin wk)); [done|done| | |].
  - pose proof (r_on _ _ _ Hr). set_solver.
  - split_and!; simpl; [done|symmetry; apply bool_decide_eq_false; set_solver|done].
  - intros k Hk. simpl. set_solver.
Qed.

Lemma set_nesting_id st : InterruptState.set_nesting (nesting_level st) st = st.
Proof. by destruct st. Qed.

Lemma nesting_get b x s c : related b x s → 0 <= c < NESTING_CPUS →
  nesting_level x.1 !! Z.to_nat c = Some (count_if (on_cpu c) (s_active s)) ∧ count_if (on_cpu c) (s_active s) <= MAX_NESTING ∧
  ∀ d, InterruptState.add_nesting d c x.1 = Ret (count_if (on_cpu c) (s_active s), InterruptState.set_nesting (<[Z.to_nat c := wrap64 (count_if (on_cpu c) (s_active s) + d)]> (nesting_level x.1)) x.1).
Proof.
  intros Hr Hc. pose proof (r_levels b x s Hr) as Hl. destruct (arr_get_range (nesting_level x.1) c) as (l & Hd & Hg); [rewrite Hl; done|].
  destruct (r_level b x s Hr c l ltac:(lia) Hd) as [-> Hm]. split_and!; [done|done|]. intros d. unfold InterruptState.add_nesting. rewrite Hg. cbn [obind]. rewrite arr_set_ok by by rewrite Hl. done.
Qed.

(** A dispatch that goes in and out again leaves the state as it was. *)
Lemma nesting_bounce b x s c : related b x s → 0 <= c < NESTING_CPUS →
  ∃ st1, InterruptState.add_nesting 1 c x.1 = Ret (count_if (on_cpu c) (s_active s), st1) ∧
    (∃ o, InterruptState.add_nesting (-1) c st1 = Ret (o, x.1)) ∧ irq_table st1 = irq_table x.1 ∧
    st1 = InterruptState.set_nesting (<[Z.to_nat c := count_if (on_cpu c) (s_active s) + 1]> (nesting_level x.1)) x.1.
Proof.
  intros Hr Hc. destruct (nesting_get b x s c Hr Hc) as (Hl & Hm & Ha). pose proof (count_if_range (on_cpu c) (s_active s)) as Hp. rewrite Ha. eexists. split; [done|].
  rewrite wrap64_small by (unfold MAX_NESTING in *; lia). split_and!; [|done|done].
  assert (0 <= c < Z.of_nat (length (nesting_level x.1))) as Hlt by (by rewrite (r_levels b x s Hr)). eexists.
  unfold InterruptState.add_nesting. simpl. rewrite (arr_get_ok _ _ (count_if (on_cpu c) (s_active s) + 1)) by (lia || by apply lookup_upd_eq). cbn [obind].
  rewrite arr_set_ok by by rewrite length_insert. cbn [obind]. f_equal. f_equal. unfold InterruptState.set_nesting. simpl. rewrite list_insert_insert_eq, list_insert_id.
  - by destruct x as [[] ?].
  - rewrite Hl. f_equal. rewrite wrap64_small; unfold MAX_NESTING in *; lia.
Qed.

Lemma enter_related b ctx st act s :
  related b (st, act) s → ctx_ok ctx → 0 <= b < U64_MAX →
  returns (event_step (Enter ctx) (st, act)) (λ '(o, x'), let '(o', s') := spec_step (Enter ctx) s in o = o' ∧ related (b + 1) x' s').
Proof.
  intros Hr [Hn Hc] Hb. destruct (table_get _ _ _ _ Hr Hn) as (d & Hg & (H1 & H2 & H3) & _). destruct (nesting_bounce _ _ _ _ Hr Hc) as (st1 & Ha & (o & Hb') & Et & Est).
  assert (related (b + 1) (st, act) s) as Hr1 by (eapply related_mono; [done|lia]).
  cbn [event_step]. unfold InterruptState.dispatch_enter. open_call Hr. rewrite Ha. cbn [obind]. destruct (Z.leb_spec MAX_NESTING (count_if (on_cpu (cpu_id ctx)) act')) as [Hx|Hx].
  { rewrite Hb'. cbn [obind returns]. done. }
  rewrite Et, Hg. cbn [obind]. rewrite H2. case_bool_decide as Hon; cbn [negb]; [|rewrite Hb'; cbn [obind returns]; done].
  rewrite H1. destruct (hs !! irq ctx) as [h|] eqn:Eh; [|rewrite Hb'; cbn [obind returns]; done]. cbn [obind returns]. split; [done|].
  destruct Hr as [G1 G2 G3 G4 G5 G6 G7 G8 G9 G10 G11 G12]. rewrite Est. simpl in *. subst act. split; simpl; try done.
  - by rewrite length_insert.
  - pose proof (count_if_range (on_cpu (cpu_id ctx)) act') as Hp.
    eapply (table_set (λ c l, l = count_if (on_cpu c) act' ∧ l <= MAX_NESTING)); [apply Hc|done| |].
    + rewrite count_if_cons. unfold on_cpu at 2. rewrite Z.eqb_refl. split; lia.
    + intros k x Hk [-> ?]. rewrite count_if_cons. unfold on_cpu at 2. destruct (Z.eqb_spec (cpu_id ctx) k); [congruence|]. split; lia.
  - by constructor.
  - rewrite wrap64_small by lia. lia.
  - rewrite wrap64_small by lia. lia.
Qed.

Lemma count_if_delete {A} (f : A → bool) (l : list A) : ∀ k x, l !! k = Some x → count_if f (delete k l) = count_if f l - (if f x then 1 else 0).
Proof.
  induction l as [|y l IH]; intros [|k] x Hk; try done.
  - simplify_eq/=. rewrite count_if_cons. lia.
  - change (count_if f (y :: delete k l) = count_if f (y :: l) - (if f x then 1 else 0)). rewrite !count_if_cons, (IH k x Hk). lia.
Qed.

Lemma exit_related b k start_tsc end_tsc st act s :
  related b (st, act) s → 0 <= start_tsc <= end_tsc → end_tsc <= U64_MAX → 0 <= b < U64_MAX →
  returns (event_step (Exit k start_tsc end_tsc) (st, act)) (λ '(o, x'), let '(o', s') := spec_step (Exit k start_tsc end_tsc) s in o = o' ∧ related b x' s').
Proof.
  intros Hr Ht Ht' Hb. assert (act = s_active s) as Eact by apply (r_active _ _ _ Hr). cbn [event_step]. rewrite Eact. destruct (s_active s !! k) as [ctx|] eqn:Ek.
  2: { destruct s as [i hs on act' fin wk]. simpl in *. rewrite Ek. cbn [returns]. split; [done|]. by subst act. }
  pose proof (Forall_lookup_1 _ _ _ _ (r_ok _ _ _ Hr) Ek) as [Hn Hc]. destruct (table_get _ _ _ _ Hr Hn) as (d & Hg & (H1 & H2 & H3) & Hset).
  destruct (nesting_get _ _ _ _ Hr Hc) as (Hl & Hm & _). pose proof (count_if_pos (on_cpu (cpu_id ctx)) _ _ _ Ek (Z.eqb_refl _)) as Hpos.
  destruct Hr as [G1 G2 G3 G4 G5 G6 G7 G8 G9 G10 G11 G12]. simpl in *. unfold InterruptState.dispatch_exit. rewrite usize_sub_ok by lia. cbn [obind]. rewrite Hg. cbn [obind].
  pose proof (count_if_range (of_irq (irq ctx)) (s_done s)) as Hcnt. rewrite usize_add_ok by lia. cbn [obind]. rewrite Hset. cbn [obind].
  unfold InterruptState.add_nesting. simpl. rewrite (arr_get_ok _ _ _ (proj1 Hc) Hl). cbn [obind]. rewrite arr_set_ok by by rewrite G4. cbn [obind returns].
  destruct s as [i hs on act' fin wk]. simpl in *. rewrite Ek. split; [done|]. assert (length (delete k act') = (length act' - 1)%nat) as Hlen by (apply length_delete; by eexists).
  assert (length act' ≠ 0)%nat as Hne by (apply lookup_lt_Some in Ek; lia). subst act. split; simpl; try done.
  - by rewrite length_insert.
  - eapply (table_set (desc_ok (mkSpec i hs on act' fin wk))); [apply Hn|done| |].
    + split_and!; simpl; [done|done|]. rewrite count_if_cons. unfold of_irq at 1. rewrite Z.eqb_refl. lia.
    + intros j x Hj (E1 & E2 & E3). split_and!; simpl in *; [done|done|]. rewrite count_if_cons. unfold of_irq at 1. destruct (Z.eqb_spec (irq ctx) j); [congruence|]. lia.
  - by rewrite length_insert.
  - eapply (table_set (λ c l, l = count_if (on_cpu c) act' ∧ l <= MAX_NESTING)); [apply Hc|done| |].
    + rewrite (count_if_delete _ _ _ _ Ek). replace (on_cpu (cpu_id ctx) ctx) with true by (symmetry; apply Z.eqb_refl). rewrite wrap64_small by (unfold MAX_NESTING in *; lia). split; lia.
    + intros j x Hj [-> ?]. rewrite (count_if_delete _ _ _ _ Ek). destruct (on_cpu j ctx) eqn:E; [apply Z.eqb_eq in E; congruence|]. split; lia.
  - by apply Forall_delete.
  - lia.
Qed.

Lemma event_related b e x s :
  related b x s → event_ok e → 0 <= b < U64_MAX →
  returns (event_step e x) (λ '(o, x'), let '(o', s') := spec_step e s in o = o' ∧ related (b + 1) x' s').
Proof.
  destruct x as [st act]. intros Hr He Hb.
  assert (∀ x' s', related b x' s' → related (b + 1) x' s') as Hmono by (intros; eapply related_mono; [done|lia]).
  assert (returns (event_step e (st, act)) (λ '(o, x'), let '(o', s') := spec_step e s in o = o' ∧ related b x' s') →
    returns (event_step e (st, act)) (λ '(o, x'), let '(o', s') := spec_step e s in o = o' ∧ related (b + 1) x' s')) as Hw.
  { intros Hret. eapply returns_mono; [exact Hret|]. intros [o x']. destruct (spec_step e s) as [o' s']. intros [? ?]. auto. }
  destruct e as [|n h p|n|n|n|ctx|k t1 t2|f tsc|]; cbn [event_ok] in He.
  - apply Hw. destruct s as [i hs on act' fin wk]. cbn [event_step spec_step]. unfold InterruptState.init. pose proof (r_init _ _ _ Hr) as Hi. simpl in Hi. rewrite Hi. destruct i; [done|].
    split; [done|]. destruct Hr. split; done.
  - by apply Hw, register_related.
  - by apply Hw, unregister_related.
  - by apply Hw, enable_related.
  - by apply Hw, disable_related.
  - by apply enter_related.
  - apply Hw, exit_related; (done || lia).
  - apply Hw. cbn [event_step]. unfold InterruptState.schedule_work. pose proof (r_work _ _ _ Hr) as Hwk. simpl in Hwk. rewrite <-(length_fmap func), Hwk. open_call Hr.
    destruct (Z.leb_spec MAX_WORK_QUEUE_SIZE (Z.of_nat (length wk))); [done|]. split; [done|]. destruct Hr. simpl in *. split; simpl; try done.
    + rewrite fmap_app. simpl. congruence.
    + rewrite length_app. simpl. lia.
  - apply Hw. destruct s as [i hs on act' fin wk]. cbn [event_step spec_step]. unfold InterruptState.drain_work. pose proof (r_init _ _ _ Hr) as Hi. simpl in Hi. rewrite Hi. destruct i; [|done].
    cbn [returns]. destruct Hr. simpl in *. split; [congruence|]. by split.
Qed.

Lemma events_related es : ∀ b x s, related b x s → Forall event_ok es → 0 <= b → b + Z.of_nat (length es) <= U64_MAX →
  returns (event_run es x) (λ '(os, x'), let '(os', s') := spec_run es s in os = os' ∧ related (b + Z.of_nat (length es)) x' s').
Proof.
  induction es as [|e es IH]; intros b x s Hr He Hb Hl; cbn [event_run spec_run]; [cbn [returns]; by rewrite Z.add_0_r|]. simpl length in *. inversion_clear He as [|? ? He1 He2].
  pose proof (event_related b e x s Hr He1 ltac:(lia)) as Hst. destruct (event_step e x) as [[o x1]| |]; [|done..]. cbn [obind returns] in *. destruct (spec_step e s) as [o' s1]. destruct Hst as [<- Hr1].
  pose proof (IH (b + 1) x1 s1 Hr1 He2 ltac:(lia) ltac:(lia)) as Hrun. destruct (event_run es x1) as [[os x2]| |]; [|done..]. cbn [obind returns] in *. destruct (spec_run es s1) as [os' s2].
  destruct Hrun as [<- Hrun]. split; [done|]. by replace (b + Z.of_nat (S (length es))) with (b + 1 + Z.of_nat (length es)) by lia.
Qed.

Definition start : InterruptState H F * list InterruptContext := (InterruptState.new, []).
Definition spec_start : spec := mkSpec false ∅ ∅ [] [] [].

Lemma start_related : related 0 start spec_start.
Proof.
  split; try done; simpl.
  - intros n d Hn Hd. change (replicate (Z.to_nat MAX_IRQS) (descriptor_new (H := H)) !! Z.to_nat n = Some d) in Hd. apply lookup_replicate in Hd as [-> _]. split_and!; simpl; [by rewrite lookup_empty|symmetry; by apply bool_decide_eq_false|done].
  - intros c l Hc Hd. change (replicate (Z.to_nat NESTING_CPUS) 0 !! Z.to_nat c = Some l) in Hd. apply lookup_replicate in Hd as [-> _]. done.
Qed.

(** C21. The dispatcher keeps to its table: with CPUs numbered below 16
    (the size of the table of levels), at most 2^64-1 events, and every dispatch ending
    at a reading of the time stamp counter that is not before the one it began at
    (otherwise it panics, [counter_back_panics]): however registrations, the two halves
    of dispatches on these CPUs, and deferred work interleave, no call panics, a
    handler is called exactly when the interrupt is enabled and fewer than eight
    dispatches run on its CPU, and it is the one that is registered; deferred work is
    given out once and in order; the level of every CPU is the number of dispatches
    that run on it, and every dispatch is counted once. *)
Theorem interrupts_refine es :
  Forall event_ok es → Z.of_nat (length es) <= U64_MAX →
  returns (event_run es start) (λ '(os, (st, act)),
    let '(os', s) := spec_run es spec_start in
    os = os' ∧ act = s_active s ∧
    (∀ c, 0 <= c < NESTING_CPUS → nesting_level st !! Z.to_nat c = Some (count_if (on_cpu c) act) ∧ count_if (on_cpu c) act <= MAX_NESTING) ∧
    (∀ n, irq_ok n → returns (InterruptState.get_irq_stats n st) (λ r, s_init s = true → ∃ i, r = Ok i ∧
       InterruptState.s_count i = count_if (of_irq n) (s_done s) ∧ InterruptState.has_handler i = bool_decide (is_Some (s_handlers s !! n)) ∧ InterruptState.s_enabled i = bool_decide (n ∈ s_on s))) ∧
    InterruptState.s_total_interrupts (InterruptState.get_stats st) = Z.of_nat (length act) + Z.of_nat (length (s_done s)) ∧
    InterruptState.work_queue_depth (InterruptState.get_stats st) <= MAX_WORK_QUEUE_SIZE).
Proof.
  intros He Hl. eapply returns_mono; [apply (events_related es 0 _ _ start_related He); lia|]. intros [os [st act]]. destruct (spec_run es spec_start) as [os' s]. intros [-> Hr].
  pose proof (r_active _ _ _ Hr) as Ea. simpl in Ea. subst act. split_and!; [done|done| | |apply (r_total _ _ _ Hr)|].
  - intros c Hc. destruct (nesting_get _ _ _ c Hr Hc) as (? & ? & _). done.
  - intros n Hn. unfold InterruptState.get_irq_stats. pose proof (r_init _ _ _ Hr) as Hi. simpl in Hi. rewrite Hi. destruct (s_init s); [|done]. cbn [negb].
    destruct (table_get _ _ _ n Hr Hn) as (d & Hg & (H1 & H2 & H3) & _). simpl in Hg. rewrite Hg. cbn [obind returns]. intros _. eexists. split; [done|]. simpl. split_and!; [done| |done].
    unfold InterruptState.is_registered. rewrite H1. destruct (s_handlers s !! n); symmetry; [by apply bool_decide_eq_true|apply bool_decide_eq_false; apply is_Some_None].
  - pose proof (r_work _ _ _ Hr) as Hwk. simpl in Hwk |- *. rewrite <-(length_fmap func), Hwk. apply (r_queue _ _ _ Hr).
Qed.

(** A dispatch never finds an enabled interrupt without a handler. *)
Theorem enabled_has_handler es ctx :
  Forall event_ok es → ctx_ok ctx → Z.of_nat (length es) < U64_MAX →
  returns (event_run es start) (λ '(_, x), returns (event_step (Enter ctx) x) (λ '(o, _), o ≠ Returned (Err NoHandler))).
Proof.
  intros He Hc Hl. eapply returns_mono; [apply (events_related es 0 _ _ start_related He); lia|]. intros [os [st act]]. destruct (spec_run es spec_start) as [os' s]. intros [_ Hr].
  eapply returns_mono; [apply (enter_related _ ctx _ _ _ Hr Hc); lia|]. intros [o x']. pose proof (r_on _ _ _ Hr) as Hon. destruct s as [i hs on act' fin wk]. simpl in Hon. cbn [spec_step]. unfold guarded. cbn [s_init].
  destruct i; [|by intros [-> _]]. destruct (_ <=? _); [by intros [-> _]|]. case_bool_decide as Hin; [|by intros [-> _]]. apply Hon, elem_of_dom in Hin as [h ->]. by intros [-> _].
Qed.
End interrupt.

(** ** Findings *)

(** [init] is documented to fail on a second call; it succeeds. *)
Lemma init_again_succeeds {H F} (st : InterruptState H F) : initialized st = true → InterruptState.init st = (Ok (), st).
Proof. intros E. unfold InterruptState.init. by rewrite E. Qed.

(** On processors whose counters differ, a handler that ends with an earlier time stamp
    than it began with makes the dispatcher panic. *)
Lemma counter_back_panics {H F} ctx (st : InterruptState H F) t1 t2 : t2 < t1 → InterruptState.dispatch_exit ctx t1 t2 st = Panic.
Proof. intros Ht. unfold InterruptState.dispatch_exit, usize_sub. by rewrite checked_panic by lia. Qed.

(** ** Witnesses *)

Definition sample_ctx : InterruptContext := context_new 32 1 3 100.
Definition sample_events : list (event (H := Z) (F := Z)) :=
  [Register 32 7 Highest; Init; Enable 32; Register 32 7 Highest; Enable 32; Enter sample_ctx; Schedule 1 5; Enter sample_ctx; Schedule 2 6; Exit 0 10 30; Drain; Disable 32; Enter sample_ctx; Exit 0 5 9].

Lemma sample_events_ok : Forall event_ok sample_events.
Proof. repeat (constructor; [cbn; unfold ctx_ok, irq_ok, MAX_IRQS, NESTING_CPUS; simpl; lia || done|]). constructor. Qed.

Lemma interrupts_refine_witness :
  returns (event_run sample_events start) (λ '(os, _), os = [Returned (Err NotInitialized); Returned (Ok ()); Returned (Err NoHandler); Returned (Ok ()); Returned (Ok ()); Called 7;
    Returned (Ok ()); Called 7; Returned (Ok ()); Returned (Ok ()); Work [1; 2]; Returned (Ok ()); Returned (Ok ()); Returned (Ok ())]).
Proof.
  eapply returns_mono; [apply (interrupts_refine sample_events sample_events_ok); simpl; lia|]. intros [os [st act]]. 
  assert ((spec_run sample_events spec_start).1 = [Returned (Err NotInitialized); Returned (Ok ()); Returned (Err NoHandler); Returned (Ok ()); Returned (Ok ()); Called 7;
    Returned (Ok ()); Called 7; Returned (Ok ()); Returned (Ok ()); Work [1; 2]; Returned (Ok ()); Returned (Ok ()); Returned (Ok ())]) as E by by vm_compute.
  destruct (spec_run sample_events spec_start) as [os' s]. simpl in E. intros (-> & _). exact E.
Defined.
