(* ===== verification/Timer.v ===== *)
(** * Timer (mielin-kernel/src/timer.rs)

    Ticks, the sleep queue and the time quantum.  The timer sees the scheduler through
    the interface [TaskControl], which the global scheduler implements, and registers its
    handler with the interrupt dispatcher, whose platform is the kernel of this file: the
    timer's state, the dispatcher's state and the scheduler, with other drivers as
    arguments.  [sleep_ms] is the critical section that queues the task and the call that
    blocks it ([sleep_enqueue], [block_current_task]), between which a tick may come. *)

From stdpp Require Import base tactics option list numbers.
From S2P Require Import Prelude Errors Scheduler Interrupt.

(** What the timer needs of the scheduler. *)
Class TaskControl (S : Type) : Type := {
  wake_task : Z → S → S;
  yield_task : S → outcome S;
  current_task_id : S → option Z;
  block_current_task : S → outcome S;
}.

#[export] Instance global_control : TaskControl Global.global := {|
  wake_task := λ i g, (Global.wake_task g i).2;
  yield_task := Global.yield_task;
  current_task_id := Global.current_task_id;
  block_current_task := Global.block_current_task;
|}.

(* src: mielin-kernel/src/timer.rs 63-63 MAX_SLEEPING_TASKS *)
Definition MAX_SLEEPING_TASKS : Z := 64.

(* src: mielin-kernel/src/timer.rs 67-72 TimerConfig *)
Record TimerConfig : Type := mkConfig { tick_rate_hz : Z; time_quantum_ms : Z }.
(* src: mielin-kernel/src/timer.rs 75-80 TimerConfig::default *)
Definition default_config : TimerConfig := mkConfig 1000 10.

(* src: mielin-kernel/src/timer.rs 85-98 TimerError *)
Inductive TimerError : Type := NotInitialized | AlreadyInitialized | InvalidConfig | HardwareUnavailable | SleepQueueFull | InvalidDuration.

(* src: mielin-kernel/src/timer.rs 118-125 SleepEntry *)
Record SleepEntry : Type := mkEntry { task_id : Z; wake_time : Z; valid : bool }.
(* src: mielin-kernel/src/timer.rs 128-134 SleepEntry::empty *)
Definition empty_entry : SleepEntry := mkEntry 0 0 false.

(* src: mielin-kernel/src/timer.rs 138-155 TimerState *)
Record TimerState : Type := mkTimer {
  config : TimerConfig;
  initialized : bool;
  running : bool;
  jiffies : Z;
  last_quantum_check : Z;
  total_interrupts : Z;
  total_reschedules : Z;
  sleep_queue : list SleepEntry;
}.

Module TimerState.
Implicit Types (self : TimerState).

(* src: mielin-kernel/src/timer.rs 158-173 TimerState::new *)
Definition new : TimerState := mkTimer (mkConfig 1000 10) false false 0 0 0 0 (replicate (Z.to_nat MAX_SLEEPING_TASKS) empty_entry).

Definition set_queue (q : list SleepEntry) self : TimerState :=
  mkTimer (config self) (initialized self) (running self) (jiffies self) (last_quantum_check self) (total_interrupts self) (total_reschedules self) q.
Definition set_running (r : bool) self : TimerState :=
  mkTimer (config self) (initialized self) r (jiffies self) (last_quantum_check self) (total_interrupts self) (total_reschedules self) (sleep_queue self).

(** The products of two numbers of 32 bits fit in 64. *)
(* src: mielin-kernel/src/timer.rs 324-326 ms_to_ticks *)
Definition ms_to_ticks (ms tick_rate_hz : Z) : outcome Z := let! p := usize_mul ms tick_rate_hz in Ret (p / 1000).
(* src: mielin-kernel/src/timer.rs 331-333 ticks_to_ms *)
Definition ticks_to_ms (ticks tick_rate_hz : Z) : outcome Z := let! p := usize_mul ticks 1000 in usize_div p tick_rate_hz.

(** The loop that looks for a place in the queue. *)
(* src: mielin-kernel/src/timer.rs 368-376 sleep_ms (loop) *)
Fixpoint enqueue (task wake : Z) (q : list SleepEntry) : option (list SleepEntry) :=
  match q with
  | [] => None
  | e :: q' => if negb (valid e) then Some (mkEntry task wake true :: q') else cons e <$> enqueue task wake q'
  end.

(** The first critical section of [sleep_ms]: whether the task is to be blocked. *)
(* src: mielin-kernel/src/timer.rs 354-382 sleep_ms (locked) *)
Definition sleep_enqueue (ms : Z) (task : Z) self : outcome (result unit TimerError * TimerState) :=
  if negb (initialized self) then Ret (Err NotInitialized, self)
  else
    let! ticks := ms_to_ticks ms (tick_rate_hz (config self)) in
    let! wake := usize_add (jiffies self) ticks in
    match enqueue task wake (sleep_queue self) with
    | Some q => Ret (Ok (), set_queue q self)
    | None => Ret (Err SleepQueueFull, self)
    end.

(* src: mielin-kernel/src/timer.rs 392-409 TimerStats *)
Record TimerStats : Type := mkStats {
  s_initialized : bool; s_running : bool; s_jiffies : Z; s_total_interrupts : Z; s_total_reschedules : Z;
  sleeping_tasks : Z; s_tick_rate_hz : Z; s_time_quantum_ms : Z;
}.
(* src: mielin-kernel/src/timer.rs 412-427 get_stats *)
Definition get_stats self : TimerStats :=
  mkStats (initialized self) (running self) (jiffies self) (total_interrupts self) (total_reschedules self)
    (count_if valid (sleep_queue self)) (tick_rate_hz (config self)) (time_quantum_ms (config self)).

End TimerState.

(** ** The kernel around the timer *)

(** The handlers that the dispatcher may call: the timer's, and those of drivers. *)
Inductive irq_handler : Type := timer_handler | driver (n : Z).

Record Kernel (S : Type) : Type := mkKernel { timer : TimerState; ints : InterruptState irq_handler Z; sched : S }.
Arguments mkKernel {S}.
Arguments timer {S}.
Arguments ints {S}.
Arguments sched {S}.

Section kernel.
Context {S : Type} `{TaskControl S}.
Implicit Types (k : Kernel S).

Definition set_timer (t : TimerState) k : Kernel S := mkKernel t (ints k) (sched k).
Definition set_ints (i : InterruptState irq_handler Z) k : Kernel S := mkKernel (timer k) i (sched k).
Definition set_sched (s : S) k : Kernel S := mkKernel (timer k) (ints k) s.

(** The loop over the sleep queue. *)
(* src: mielin-kernel/src/timer.rs 293-299 timer_interrupt_handler (loop) *)
Fixpoint wake_sleepers (now : Z) (q : list SleepEntry) (s : S) : list SleepEntry * S :=
  match q with
  | [] => ([], s)
  | e :: q' =>
    if valid e && (wake_time e <=? now) then
      let '(q', s) := wake_sleepers now q' (wake_task (task_id e) s) in (mkEntry (task_id e) (wake_time e) false :: q', s)
    else let '(q', s) := wake_sleepers now q' s in (e :: q', s)
  end.

(* src: mielin-kernel/src/timer.rs 285-314 timer_interrupt_handler *)
Definition timer_interrupt_handler (ctx : InterruptContext) k : outcome (Kernel S) :=
  let t := timer k in
  let! now := usize_add (jiffies t) 1 in
  let '(q, s) := wake_sleepers now (sleep_queue t) (sched k) in
  let! quantum_ticks := TimerState.ms_to_ticks (time_quantum_ms (config t)) (tick_rate_hz (config t)) in
  let! passed := usize_sub now (last_quantum_check t) in
  if quantum_ticks <=? passed then
    let t := mkTimer (config t) (initialized t) (running t) (wrap64 (jiffies t + 1)) now (wrap64 (total_interrupts t + 1)) (wrap64 (total_reschedules t + 1)) q in
    let! s := yield_task s in
    Ret (mkKernel t (ints k) s)
  else
    Ret (mkKernel (mkTimer (config t) (initialized t) (running t) (wrap64 (jiffies t + 1)) (last_quantum_check t) (wrap64 (total_interrupts t + 1)) (total_reschedules t) q) (ints k) s).

(** The processor is an x86-64. *)
(* src: mielin-kernel/src/timer.rs 431-460 get_timer_irq *)
Definition get_timer_irq : Z := 32.

(* src: mielin-kernel/src/timer.rs 466-503 init_hardware_timer *)
Definition init_hardware_timer k : result unit TimerError := Ok ().

(* src: mielin-kernel/src/timer.rs 190-215 init *)
Definition init (cfg : TimerConfig) k : outcome (result unit TimerError * Kernel S) :=
  if initialized (timer k) then Ret (Ok (), k)
  else if (tick_rate_hz cfg =? 0) || (10000 <? tick_rate_hz cfg) then Ret (Err InvalidConfig, k)
  else if (time_quantum_ms cfg =? 0) || (1000 <? time_quantum_ms cfg) then Ret (Err InvalidConfig, k)
  else
    let t := timer k in
    let k := set_timer (mkTimer cfg true (running t) (jiffies t) (last_quantum_check t) (total_interrupts t) (total_reschedules t) (sleep_queue t)) k in
    let! (r, i) := InterruptState.register_irq_handler get_timer_irq timer_handler Highest (ints k) in
    Ret (match r with Ok _ => Ok () | Err _ => Err HardwareUnavailable end, set_ints i k).

(* src: mielin-kernel/src/timer.rs 224-248 start *)
Definition start k : outcome (result unit TimerError * Kernel S) :=
  if negb (initialized (timer k)) then Ret (Err NotInitialized, k)
  else if running (timer k) then Ret (Ok (), k)
  else
    let! (r, i) := InterruptState.enable_irq get_timer_irq (ints k) in
    let k := set_ints i k in
    match r with
    | Err _ => Ret (Err HardwareUnavailable, k)
    | Ok _ =>
      match init_hardware_timer k with
      | Err e => Ret (Err e, k)
      | Ok _ => Ret (Ok (), set_timer (TimerState.set_running true (timer k)) k)
      end
    end.

(* src: mielin-kernel/src/timer.rs 255-276 stop *)
Definition stop k : outcome (result unit TimerError * Kernel S) :=
  if negb (initialized (timer k)) then Ret (Err NotInitialized, k)
  else if negb (running (timer k)) then Ret (Ok (), k)
  else
    let! (_, i) := InterruptState.disable_irq get_timer_irq (ints k) in
    let k := set_ints i k in
    Ret (Ok (), set_timer (TimerState.set_running false (timer k)) k).

(** [sleep_ms] when no tick comes between its two parts. *)
(* src: mielin-kernel/src/timer.rs 349-388 sleep_ms *)
Definition sleep_ms (ms : Z) k : outcome (result unit TimerError * Kernel S) :=
  if ms =? 0 then Ret (Ok (), k)
  else
    let task := default 0 (current_task_id (sched k)) in
    let! (r, t) := TimerState.sleep_enqueue ms task (timer k) in
    let k := set_timer t k in
    match r with
    | Err e => Ret (Err e, k)
    | Ok _ => let! s := block_current_task (sched k) in Ret (Ok (), set_sched s k)
    end.

(** ** The kernel as the platform of the dispatcher *)

Section drivers.
Variables (drive : Z → InterruptContext → Kernel S → outcome (Kernel S)) (work : Z → Kernel S → outcome (Kernel S)).

Definition kernel_platform : Platform (Kernel S) irq_handler Z := {|
  interrupts := ints;
  set_interrupts := set_ints;
  call_handler := λ h, match h with timer_handler => timer_interrupt_handler | driver n => drive n end;
  call_work := work;
|}.

(** A tick of the hardware: the interrupt comes in on CPU [c]. *)
Definition tick (c start_tsc end_tsc : Z) k : outcome (result unit InterruptError * Kernel S) :=
  dispatch_interrupt (H0 := kernel_platform) (context_new get_timer_irq (IrqPriority.as_u8 Highest) c start_tsc) start_tsc end_tsc k.

Fixpoint ticks (c : Z) (stamps : list (Z * Z)) k : outcome (Kernel S) :=
  match stamps with
  | [] => Ret k
  | (t1, t2) :: stamps' => let! (_, k) := tick c t1 t2 k in ticks c stamps' k
  end.
End drivers.
End kernel.
