(* ===== verification/TimerProps.v ===== *)
(** * Theorems about the timer

    The laws of [TaskControl] are proved of the global scheduler; the theorems follow
    ticks through the dispatcher, the timer and the scheduler. *)

From stdpp Require Import base tactics option list numbers.
From S2P Require Import Prelude Errors Scheduler SchedulerInv Interrupt Timer.

(** What the timer relies on: waking a task that sleeps makes it runnable, and neither
    waking another task nor yielding touches a task that sleeps or is runnable. *)
Class TaskControlLaws (S : Type) `{TaskControl S} : Type := {
  sane : S → Prop;
  asleep : Z → S → Prop;
  runnable : Z → S → Prop;
  wake_sane i s : sane s → sane (wake_task i s);
  yield_sane s : sane s → returns (yield_task s) sane;
  asleep_not_runnable i s : sane s → asleep i s → ¬ runnable i s;
  wake_asleep i s : sane s → asleep i s → runnable i (wake_task i s);
  wake_other i j s : sane s → i ≠ j → asleep i s → asleep i (wake_task j s);
  wake_runnable i j s : sane s → runnable i s → runnable i (wake_task j s);
  yield_asleep i s : sane s → asleep i s → returns (yield_task s) (asleep i);
  yield_runnable i s : sane s → runnable i s → returns (yield_task s) (runnable i);
}.

(** ** The global scheduler *)

Definition global_sane (g : Global.global) : Prop := ∃ s, g = Some s ∧ sched_inv s.
(** Some slot other than the current one holds the task, and it is blocked. *)
Definition global_asleep (i : Z) (g : Global.global) : Prop :=
  ∃ s k t, g = Some s ∧ slot_task (tasks s) k t ∧ id t = i ∧ state t = Blocked ∧ current_task s ≠ Some (Z.of_nat k).
Definition global_runnable (i : Z) (g : Global.global) : Prop := ∃ s k t, g = Some s ∧ slot_task (tasks s) k t ∧ id t = i ∧ state t ≠ Blocked.

(** What [wake_task] does. *)
Lemma wake_cases i s : sched_inv s →
  (∃ k t, slot_task (tasks s) k t ∧ id t = i ∧ state t = Blocked ∧ wake_task (S := Global.global) i (Some s) = Some (set_tasks (<[k := Some (set_state t Ready)]> (tasks s)) s) ∧
     sched_inv (set_tasks (<[k := Some (set_state t Ready)]> (tasks s)) s)) ∨
  ((∀ k t, slot_task (tasks s) k t → id t = i → state t ≠ Blocked) ∧ wake_task (S := Global.global) i (Some s) = Some s).
Proof.
  intros Hi. unfold wake_task, global_control, Global.wake_task. destruct (update_first _ _ _) as [ts|] eqn:Hu.
  - left. apply update_first_some in Hu as (k & t & Hk & Hp & -> & _). apply andb_true_iff in Hp as [Hid Hb%bool_decide_eq_true]. unfold has_id in Hid. exists k, t.
    split_and!; [done|lia|done|done|]. eapply sched_inv_rewrite; [done|done|done|]. by apply (slot_priority s k t).
  - right. split; [|done]. intros k t Hk Hid Hb. pose proof (proj1 (update_first_none _ _ _) Hu k t Hk) as Hn. simpl in Hn. unfold has_id in Hn. rewrite bool_decide_eq_true_2 in Hn by done. lia.
Qed.

Lemma slot_insert_ne ts k o j u : slot_task ts j u → j ≠ k → slot_task (<[k := o]> ts) j u.
Proof. unfold slot_task. intros. by rewrite list_lookup_insert_ne. Qed.

Lemma slot_insert_eq ts k o t u : slot_task ts k t → o = Some u → slot_task (<[k := o]> ts) k u.
Proof. unfold slot_task. intros Hk ->. apply list_lookup_insert_eq. by eapply lookup_lt_Some. Qed.

(** Yielding touches the current slot only. *)
Lemma yield_cases s : sched_inv s →
  ∃ s', yield_task (S := Global.global) (Some s) = Ret (Some s') ∧ sched_inv s' ∧
    (∀ k t, slot_task (tasks s) k t → current_task s ≠ Some (Z.of_nat k) → slot_task (tasks s') k t) ∧
    (∀ k t, slot_task (tasks s) k t → ∃ t', slot_task (tasks s') k t' ∧ id t' = id t ∧ (t' = t ∨ state t' = Ready)) ∧
    (current_task s' = None ∨ s' = s) ∧ (current_task s ≠ None → current_task s' = None).
Proof.
  intros Hi. unfold yield_task, global_control, Global.yield_task, Global.yield_current. destruct (yield_spec s Hi) as [[Hc E]|(k & Hc & Hk & E)]; rewrite E; cbn [obind]; eexists; (split; [done|]).
  - split_and!; [done|done| |by right|done]. intros k t Ht. exists t. auto.
  - split; [by eapply yield_inv|]. split_and!; simpl; [..|by left|done].
    + intros j t Ht Hne. destruct (tasks s !! k) as [[u|]|]; [|done..]. apply slot_insert_ne; [done|congruence].
    + intros j t Ht. destruct (tasks s !! k) as [[u|]|] eqn:Eu; [|by exists t; auto..]. destruct (decide (j = k)) as [->|Hne].
      * unfold slot_task in Ht. exists (set_state u Ready). split; [by eapply slot_insert_eq|]. simpl. split; [congruence|by right].
      * exists t. split; [by apply slot_insert_ne|auto].
Qed.

#[export] Instance global_control_laws : TaskControlLaws Global.global.
Proof.
  refine {| sane := global_sane; asleep := global_asleep; runnable := global_runnable |}.
  - intros i g (s & -> & Hi). destruct (wake_cases i s Hi) as [(k & t & _ & _ & _ & -> & ?)|[_ ->]]; by eexists.
  - intros g (s & -> & Hi). destruct (yield_cases s Hi) as (s' & -> & ? & _). by exists s'.
  - intros i g (s & -> & Hi) (s0 & k & t & [= <-] & Hk & Hid & Hb & _) (s1 & k' & t' & [= <-] & Hk' & Hid' & Hb'). assert (k = k') as <- by (eapply (si_ids _ Hi); [done|done|congruence]).
    unfold slot_task in *. congruence.
  - intros i g (s & -> & Hi) (s0 & k & t & [= <-] & Hk & Hid & Hb & Hc). destruct (wake_cases i s Hi) as [(k' & t' & Hk' & Hid' & _ & -> & ?)|[Hno _]]; [|by destruct (Hno k t Hk Hid)].
    exists (set_tasks (<[k' := Some (set_state t' Ready)]> (tasks s)) s), k', (set_state t' Ready). split_and!; [done|by eapply slot_insert_eq|done|done].
  - intros i j g (s & -> & Hi) Hij (s0 & k & t & [= <-] & Hk & Hid & Hb & Hc). destruct (wake_cases j s Hi) as [(k' & t' & Hk' & Hid' & _ & -> & ?)|[_ ->]]; [|by exists s, k, t].
    eexists _, k, t. split_and!; [done| |done..]. apply slot_insert_ne; [done|]. intros ->. unfold slot_task in *. congruence.
  - intros i j g (s & -> & Hi) (s0 & k & t & [= <-] & Hk & Hid & Hb). destruct (wake_cases j s Hi) as [(k' & t' & Hk' & Hid' & Hb' & -> & ?)|[_ ->]]; [|by exists s, k, t].
    eexists _, k, t. split_and!; [done| |done..]. apply slot_insert_ne; [done|]. intros ->. unfold slot_task in *. congruence.
  - intros i g (s & -> & Hi) (s0 & k & t & [= <-] & Hk & Hid & Hb & Hc). destruct (yield_cases s Hi) as (s' & -> & Hi' & H1 & _ & H3 & _). cbn [returns]. exists s', k, t. split_and!; [done|by apply H1|done|done|].
    destruct H3 as [-> | ->]; done.
  - intros i g (s & -> & Hi) (s0 & k & t & [= <-] & Hk & Hid & Hb). destruct (yield_cases s Hi) as (s' & -> & Hi' & _ & H2 & _). cbn [returns]. destruct (H2 k t Hk) as (t' & Hk' & Hid' & Ht').
    exists s', k, t'. split_and!; [done|done|congruence|]. destruct Ht' as [-> | ->]; done.
Defined.

(** ** Ticks *)

Section ticks.
Context {S : Type} `{TaskControlLaws S}.
Implicit Types (k : Kernel S) (s : S) (q : list SleepEntry).

(** An entry that is due at [now]. *)
Definition due (now : Z) (e : SleepEntry) : bool := valid e && (wake_time e <=? now).
Definition clear_due (now : Z) (e : SleepEntry) : SleepEntry := if due now e then mkEntry (task_id e) (wake_time e) false else e.

Lemma wake_sleepers_queue now q : ∀ s, (wake_sleepers now q s).1 = clear_due now <$> q.
Proof.
  induction q as [|e q IH]; intros s; [done|]. cbn [wake_sleepers fmap list_fmap]. unfold clear_due at 1, due. destruct (valid e && (wake_time e <=? now)).
  - specialize (IH (wake_task (task_id e) s)). destruct (wake_sleepers _ _ _). simpl in *. by subst.
  - specialize (IH s). destruct (wake_sleepers _ _ _). simpl in *. by subst.
Qed.

Lemma wake_sleepers_sane now q : ∀ s, sane s → sane (wake_sleepers now q s).2.
Proof.
  induction q as [|e q IH]; intros s Hs; [done|]. cbn [wake_sleepers]. destruct (valid e && (wake_time e <=? now)).
  - specialize (IH (wake_task (task_id e) s)). destruct (wake_sleepers _ _ _). simpl in *. by apply IH, wake_sane.
  - specialize (IH s). destruct (wake_sleepers _ _ _). by apply IH.
Qed.

Lemma wake_sleepers_runnable now i q : ∀ s, sane s → runnable i s → runnable i (wake_sleepers now q s).2.
Proof.
  induction q as [|e q IH]; intros s Hs Hr; [done|]. cbn [wake_sleepers]. destruct (valid e && (wake_time e <=? now)).
  - specialize (IH (wake_task (task_id e) s)). destruct (wake_sleepers _ _ _). simpl in *. apply IH; [by apply wake_sane|by apply wake_runnable].
  - specialize (IH s). destruct (wake_sleepers _ _ _). by apply IH.
Qed.

(** Some entry of the task [i] is due. *)
Definition called (now i : Z) q : bool := existsb (λ e, due now e && (task_id e =? i)) q.

(** A task sleeps on while none of its entries is due, and is woken when one is. *)
Lemma wake_sleepers_asleep now i q : ∀ s, sane s → asleep i s →
  let s' := (wake_sleepers now q s).2 in if called now i q then runnable i s' else asleep i s'.
Proof.
  induction q as [|e q IH]; intros s Hs Ha; [done|]. cbn [wake_sleepers called existsb]. change (valid e && (wake_time e <=? now)) with (due now e). destruct (due now e); cbn [andb orb].
  - destruct (Z.eqb_spec (task_id e) i) as [->|Hne]; cbn [orb].
    + pose proof (wake_sleepers_runnable now i q (wake_task i s) (wake_sane _ _ Hs) (wake_asleep _ _ Hs Ha)) as Hr. by destruct (wake_sleepers _ _ _).
    + specialize (IH _ (wake_sane (task_id e) s Hs) (wake_other i (task_id e) s Hs (not_eq_sym Hne) Ha)). by destruct (wake_sleepers _ _ _).
  - specialize (IH s Hs Ha). by destruct (wake_sleepers _ _ _).
Qed.

(** The configuration is valid, and the counters have room. *)
Definition config_fine (c : TimerConfig) : Prop := 0 <= tick_rate_hz c <= 10000 ∧ 0 <= time_quantum_ms c <= 1000.
Definition quantum (c : TimerConfig) : Z := time_quantum_ms c * tick_rate_hz c / 1000.

Record timer_fine (t : TimerState) : Prop := {
  t_config : config_fine (config t);
  t_check : 0 <= last_quantum_check t <= jiffies t;
  t_room : jiffies t < U64_MAX;
}.

Lemma ms_to_ticks_ok ms rate : 0 <= ms <= U32_MAX → 0 <= rate <= U32_MAX → TimerState.ms_to_ticks ms rate = Ret (ms * rate / 1000).
Proof. intros ? ?. unfold TimerState.ms_to_ticks. rewrite usize_mul_ok by nia. done. Qed.

(** What a tick does to the timer. *)
Definition tick_timer (t : TimerState) : TimerState :=
  let now := jiffies t + 1 in
  let resched := quantum (config t) <=? now - last_quantum_check t in
  mkTimer (config t) (initialized t) (running t) now (if resched then now else last_quantum_check t) (wrap64 (total_interrupts t + 1))
    (if resched then wrap64 (total_reschedules t + 1) else total_reschedules t) (clear_due now <$> sleep_queue t).

Lemma handler_ok ctx k : timer_fine (timer k) → sane (sched k) →
  returns (timer_interrupt_handler ctx k) (λ k', timer k' = tick_timer (timer k) ∧ ints k' = ints k ∧ sane (sched k') ∧
    (∀ i, runnable i (sched k) → runnable i (sched k')) ∧
    (∀ i, asleep i (sched k) → if called (jiffies (timer k) + 1) i (sleep_queue (timer k)) then runnable i (sched k') else asleep i (sched k'))).
Proof.
  intros [[Hr Hq] Hc Hm] Hs. unfold timer_interrupt_handler. rewrite usize_add_ok by lia. cbn [obind]. set (now := jiffies (timer k) + 1).
  pose proof (wake_sleepers_queue now (sleep_queue (timer k)) (sched k)) as Hwq. pose proof (wake_sleepers_sane now (sleep_queue (timer k)) (sched k) Hs) as Hws.
  pose proof (λ i, wake_sleepers_runnable now i (sleep_queue (timer k)) (sched k) Hs) as Hwr. pose proof (λ i, wake_sleepers_asleep now i (sleep_queue (timer k)) (sched k) Hs) as Hwa.
  destruct (wake_sleepers now _ _) as [q s]. simpl in Hwq, Hws, Hwr, Hwa. rewrite ms_to_ticks_ok by lia. cbn [obind]. rewrite usize_sub_ok by lia. cbn [obind].
  fold (quantum (config (timer k))). unfold tick_timer. fold now. rewrite !(wrap64_small now) by (unfold now; lia). destruct (quantum (config (timer k)) <=? now - last_quantum_check (timer k)).
  - pose proof (yield_sane s Hws) as Hys. pose proof (λ i, yield_runnable i s Hws) as Hyr. pose proof (λ i, yield_asleep i s Hws) as Hya.
    destruct (yield_task s) as [s'| |]; [|done..]. cbn [obind returns] in *. split_and!; simpl; [by rewrite Hwq|done|done|auto|].
    intros i Ha. specialize (Hwa i Ha). destruct (called _ _ _); auto.
  - cbn [returns]. split_and!; simpl; [by rewrite Hwq|done|done|done|done].
Qed.

(** The timer's interrupt is enabled with the timer's handler, and CPU [c] can take it. *)
Record armed (c b : Z) k : Prop := {
  a_cpu : 0 <= c;
  a_init : Interrupt.initialized (ints k) = true;
  a_desc : ∃ d, irq_table (ints k) !! Z.to_nat get_timer_irq = Some d ∧ handler d = Some timer_handler ∧ enabled d = true ∧ 0 <= count d <= b;
  a_level : ∃ l, nesting_level (ints k) !! Z.to_nat c = Some l ∧ 0 <= l < MAX_NESTING;
}.

Lemma lookup_range {A} (l : list A) i x : 0 <= i → l !! Z.to_nat i = Some x → 0 <= i < Z.of_nat (length l).
Proof. intros Hi Hl%lookup_lt_Some. lia. Qed.

Lemma arr_set_lookup {A} (l : list A) i x y : 0 <= i → l !! Z.to_nat i = Some x → arr_set l i y = Ret (<[Z.to_nat i := y]> l).
Proof. intros Hi Hl. by apply arr_set_ok, lookup_range with x. Qed.

Lemma lookup_upd {A} (l : list A) i x y : 0 <= i → l !! Z.to_nat i = Some x → <[Z.to_nat i := y]> l !! Z.to_nat i = Some y.
Proof. intros Hi Hl. by apply lookup_upd_eq, lookup_range with x. Qed.

Variables (drive : Z → InterruptContext → Kernel S → outcome (Kernel S)) (work : Z → Kernel S → outcome (Kernel S)).

(** The time stamps of a dispatch. *)
Definition stamps_ok (p : Z * Z) : Prop := 0 <= p.1 <= p.2 ∧ p.2 <= U64_MAX.

(** A tick that comes in at a kernel that is ready for it. *)
Definition tick_post (c b : Z) k k' : Prop :=
  armed c (b + 1) k' ∧ timer k' = tick_timer (timer k) ∧ sane (sched k') ∧ (∀ i, runnable i (sched k) → runnable i (sched k')) ∧
  (∀ i, asleep i (sched k) → if called (jiffies (timer k) + 1) i (sleep_queue (timer k)) then runnable i (sched k') else asleep i (sched k')).

Lemma tick_ok c b t1 t2 k : armed c b k → stamps_ok (t1, t2) → b < U64_MAX → timer_fine (timer k) → sane (sched k) →
  returns (tick drive work c t1 t2 k) (λ '(r, k'), r = Ok () ∧ tick_post c b k k').
Proof.
  intros [Hc Hi (d & Hd & Hh & He & Hn) (l & Hl & Hlv)] [Ht Ht'] Hb Hf Hs. simpl in Ht, Ht'. assert (0 <= get_timer_irq) as Hirq by done.
  unfold tick, dispatch_interrupt. cbn [interrupts kernel_platform]. unfold InterruptState.dispatch_enter. rewrite Hi. cbn [negb]. unfold InterruptState.add_nesting. cbn [cpu_id context_new].
  rewrite (arr_get_ok _ _ l Hc Hl). cbn [obind]. rewrite (arr_set_lookup _ _ l _ Hc Hl). cbn [obind]. rewrite wrap64_small by (unfold MAX_NESTING in *; lia).
  destruct (Z.leb_spec MAX_NESTING l); [lia|]. cbn [irq_table InterruptState.set_nesting]. set (ctx := context_new _ _ c t1). change (irq ctx) with get_timer_irq. rewrite (arr_get_ok _ _ d Hirq Hd). cbn [obind]. rewrite He, Hh. cbn [negb obind set_interrupts call_handler kernel_platform].
  set (k1 := set_ints _ k). pose proof (handler_ok ctx k1 Hf Hs) as Hret.
  destruct (timer_interrupt_handler _ k1) as [k2| |]; [|done..]. cbn [returns obind] in *. destruct Hret as (Et & Ei & Hs' & Hr & Ha).
  unfold InterruptState.dispatch_exit. rewrite usize_sub_ok by lia. cbn [obind]. rewrite Ei. unfold k1. cbn [ints set_ints irq_table]. change (irq ctx) with get_timer_irq. change (cpu_id ctx) with c. rewrite (arr_get_ok _ _ d Hirq Hd). cbn [obind].
  rewrite usize_add_ok by lia. cbn [obind]. rewrite (arr_set_lookup _ _ d _ Hirq Hd). cbn [obind]. unfold InterruptState.add_nesting. cbn [nesting_level InterruptState.set_nesting].
  pose proof (lookup_upd (nesting_level (ints k)) c l (l + 1) Hc Hl) as Hl'. rewrite (arr_get_ok _ _ _ Hc Hl'). cbn [obind]. rewrite (arr_set_lookup _ _ _ _ Hc Hl'). cbn [obind returns].
  rewrite wrap64_small by (unfold MAX_NESTING in *; lia). split; [done|]. split_and!; [split; [done|done| |]|done..]; cbn [ints set_ints irq_table nesting_level InterruptState.set_nesting].
  - eexists. split; [by apply lookup_upd with d|]. simpl. split_and!; [done|done|lia..].
  - exists l. split; [|lia]. rewrite list_insert_insert_eq. replace (l + 1 + -1) with l by lia. by apply lookup_upd with l.
Qed.

Lemma tick_timer_fine t : timer_fine t → jiffies t + 1 < U64_MAX → timer_fine (tick_timer t).
Proof. intros [Hc Hl Hm] Hj. split; simpl; [done| |lia]. destruct (_ <=? _); lia. Qed.

(** [ticks] is [tick] after [tick]. *)
Lemma ticks_rule (I : nat → Kernel S → Prop) c stamps : ∀ b k,
  armed c b k → timer_fine (timer k) → sane (sched k) → Forall stamps_ok stamps → b + Z.of_nat (length stamps) <= U64_MAX → jiffies (timer k) + Z.of_nat (length stamps) <= U64_MAX → 
  I 0%nat k → (∀ n k k', I n k → jiffies (timer k) < U64_MAX → (∃ b, tick_post c b k k') → I (Datatypes.S n) k') →
  returns (ticks drive work c stamps k) (I (length stamps)).
Proof.
  revert I. induction stamps as [|[t1 t2] stamps IH]; intros I b k Ha Hf Hs Hst Hb Hj HI0 HS; [done|]. simpl length in *. inversion_clear Hst as [|? ? Ht Hst']. cbn [ticks].
  eapply returns_bind; [apply (tick_ok c b t1 t2 k Ha Ht ltac:(lia) Hf Hs)|]. intros [r k'] [-> Hp]. pose proof Hp as (Ha' & Et & Hs' & _).
  destruct stamps as [|p stamps]; [cbn [ticks returns length]; eapply HS; [done|apply Hf|by eexists]|].
  assert (timer_fine (timer k')) as Hf' by (rewrite Et; apply tick_timer_fine; [done|simpl length in *; lia]).
  apply (IH (λ n, I (Datatypes.S n)) (b + 1) k'); try done; [simpl length in *; lia|rewrite Et; simpl length in *; simpl; lia| |].
  - eapply HS; [done|apply Hf|by eexists].
  - intros n k1 k2 HI Hj1 Hp1. by eapply HS.
Qed.

(** All entries of the task [i] that count are for the time [wt], and there is one. *)
Definition sleeps_until (i wt : Z) q : Prop := (∃ e, e ∈ q ∧ valid e = true ∧ task_id e = i ∧ wake_time e = wt) ∧ (∀ e, e ∈ q → valid e = true → task_id e = i → wake_time e = wt).

Lemma sleeps_called i wt now q : sleeps_until i wt q → called now i q = (wt <=? now).
Proof.
  intros [(e & He & Hv & Hi & Hw) Hall]. unfold called. destruct (Z.leb_spec wt now).
  - apply existsb_exists. exists e. split; [by apply list_elem_of_In|]. unfold due. rewrite Hv, Hw, Hi, Z.eqb_refl. destruct (Z.leb_spec wt now); [done|lia].
  - apply not_true_iff_false. intros (e' & He' & Hd)%existsb_exists. apply list_elem_of_In in He'. unfold due in Hd. apply andb_true_iff in Hd as [[Hv' Hw']%andb_true_iff Hi'].
    apply Z.eqb_eq in Hi'. apply Z.leb_le in Hw'. rewrite (Hall e' He' Hv' Hi') in Hw'. lia.
Qed.

Lemma sleeps_tick i wt now q : sleeps_until i wt q → now < wt → sleeps_until i wt (clear_due now <$> q).
Proof.
  intros [(e & He & Hv & Hi & Hw) Hall] Hlt. split.
  - exists (clear_due now e). split; [by apply list_elem_of_fmap_2|]. unfold clear_due, due. rewrite Hw. destruct (Z.leb_spec wt now); [lia|]. by rewrite andb_false_r.
  - intros e' (e0 & -> & He0)%list_elem_of_fmap. unfold clear_due. destruct (due now e0); simpl; [done|]. by apply Hall.
Qed.

(** C18. A sleeping task is woken on time: on a CPU where the timer's interrupt is
    enabled with its handler and fewer than eight dispatches run, with a well-formed
    scheduler and a tick rate and a quantum that [init] accepts, when the two readings of the time stamp counter of
    each tick are in order (otherwise its dispatch panics, [counter_back_panics]), no
    64-bit counter is used up, and all valid entries of the task in the sleep queue are
    for one time: however many ticks come in through the dispatcher, the task sleeps
    before that time (or the next tick, if that is later) and is runnable from then
    on; no tick panics, and each is counted once. *)
Theorem sleeper_wakes c b k stamps i wt :
  armed c b k → timer_fine (timer k) → sane (sched k) → Forall stamps_ok stamps →
  b + Z.of_nat (length stamps) <= U64_MAX → jiffies (timer k) + Z.of_nat (length stamps) <= U64_MAX →
  asleep i (sched k) → sleeps_until i wt (sleep_queue (timer k)) →
  returns (ticks drive work c stamps k) (λ k', jiffies (timer k') = jiffies (timer k) + Z.of_nat (length stamps) ∧
    if Z.max wt (jiffies (timer k) + 1) <=? jiffies (timer k') then runnable i (sched k') else asleep i (sched k')).
Proof.
  intros Ha Hf Hs Hst Hb Hj Hi Hq. set (j := jiffies (timer k)). eapply returns_mono; [apply (ticks_rule (λ n k', jiffies (timer k') = j + Z.of_nat n ∧ sane (sched k') ∧
    if Z.max wt (j + 1) <=? j + Z.of_nat n then runnable i (sched k') else asleep i (sched k') ∧ sleeps_until i wt (sleep_queue (timer k')) ) c stamps b k); try done|].
  - split_and!; [lia|done|]. destruct (Z.leb_spec (Z.max wt (j + 1)) (j + Z.of_nat 0)); [lia|done].
  - intros n k1 k2 (Ej & Hs1 & Hn) Hj1 (b' & _ & Et & Hs2 & Hr & Has). rewrite Et. split_and!; [simpl; lia|done|]. rewrite Ej in Has.
    replace (j + Z.of_nat n + 1) with (j + Z.of_nat (Datatypes.S n)) in Has by lia. destruct (Z.leb_spec (Z.max wt (j + 1)) (j + Z.of_nat n)).
    { destruct (Z.leb_spec (Z.max wt (j + 1)) (j + Z.of_nat (Datatypes.S n))); [|lia]. by apply Hr. }
    destruct Hn as [Hsl Hsq]. specialize (Has i Hsl). rewrite (sleeps_called _ _ _ _ Hsq) in Has. destruct (Z.leb_spec (Z.max wt (j + 1)) (j + Z.of_nat (Datatypes.S n))).
    + destruct (Z.leb_spec wt (j + Z.of_nat (Datatypes.S n))); [done|lia].
    + destruct (Z.leb_spec wt (j + Z.of_nat (Datatypes.S n))); [lia|]. split; [done|]. simpl. apply sleeps_tick; [done|]. lia.
  - intros k' (Ej & _ & Hn). split; [done|]. rewrite Ej. destruct (_ <=? _); [done|by destruct Hn].
Qed.

Lemma div_succ (x d : Z) : 1 <= d → (x + 1) / d = x / d + (if d <=? x + 1 - d * (x / d) then 1 else 0) ∧ 0 <= x - d * (x / d) < d.
Proof.
  intros Hd. assert (0 <= x mod d < d) as Hm by (apply Z.mod_pos_bound; lia). rewrite Z.mod_eq in Hm by lia. split; [|done]. destruct (Z.leb_spec d (x + 1 - d * (x / d))).
  - symmetry. apply (Z.div_unique _ _ _ 0); lia.
  - symmetry. apply (Z.div_unique _ _ _ (x + 1 - d * (x / d))); lia.
Qed.

(** The running task is made to yield once in every quantum: after any number of
    ticks, the number of reschedules is the number of whole quanta that have passed. *)
Theorem reschedules_periodic c b k stamps :
  armed c b k → timer_fine (timer k) → sane (sched k) → Forall stamps_ok stamps →
  b + Z.of_nat (length stamps) <= U64_MAX → jiffies (timer k) + Z.of_nat (length stamps) <= U64_MAX →
  let q := quantum (config (timer k)) in let passed := jiffies (timer k) - last_quantum_check (timer k) in
  1 <= q → passed < q → 0 <= total_reschedules (timer k) → total_reschedules (timer k) + Z.of_nat (length stamps) <= U64_MAX →
  returns (ticks drive work c stamps k) (λ k', total_reschedules (timer k') = total_reschedules (timer k) + (passed + Z.of_nat (length stamps)) / q).
Proof.
  intros Ha Hf Hs Hst Hb Hj q passed Hq Hp Hr Hr'. set (x := λ n, passed + Z.of_nat n). pose proof (t_check _ Hf) as Hck.
  eapply returns_mono; [apply (ticks_rule (λ n k', config (timer k') = config (timer k) ∧ jiffies (timer k') = jiffies (timer k) + Z.of_nat n ∧ ((n <= length stamps)%nat →
    last_quantum_check (timer k') = last_quantum_check (timer k) + q * (x n / q) ∧ total_reschedules (timer k') = total_reschedules (timer k) + x n / q)) c stamps b k); try done|].
  - split_and!; [done|lia|]. intros _. assert (x 0%nat / q = 0) as E by (apply Z.div_small; unfold x; lia). rewrite E. lia.
  - intros n k1 k2 (Ec & Ej & Hn) Hj1 (b' & _ & Et & _). rewrite Et. split_and!; [done|simpl; lia|]. intros Hln. destruct (Hn ltac:(lia)) as [El Er].
    destruct (div_succ (x n) q Hq) as [Ed Hm]. assert (x (Datatypes.S n) = x n + 1) as -> by (unfold x; lia). rewrite Ed. unfold tick_timer. cbn [last_quantum_check total_reschedules]. rewrite Ec. fold q.
    replace (jiffies (timer k1) + 1 - last_quantum_check (timer k1)) with (x n + 1 - q * (x n / q)) by (rewrite El, Ej; unfold x, passed; lia).
    assert (0 <= x n / q <= Z.of_nat n) as Hdn. { split; [apply Z.div_pos; unfold x; lia|]. apply Z.lt_succ_r, Z.div_lt_upper_bound; [lia|]. unfold x. nia. }
    destruct (Z.leb_spec q (x n + 1 - q * (x n / q))); [|split; lia]. rewrite wrap64_small by lia. split; [|lia]. assert (x n = jiffies (timer k1) - last_quantum_check (timer k)) by (unfold x, passed; lia). nia.
  - intros k' (_ & _ & Hn). destruct (Hn ltac:(lia)) as [_ ->]. done.
Qed.
End ticks.

(** ** Going to sleep *)

Lemma enqueue_some task wake q q' : TimerState.enqueue task wake q = Some q' →
  ∃ p e, q !! p = Some e ∧ valid e = false ∧ q' = <[p := mkEntry task wake true]> q ∧ ∀ p' e', (p' < p)%nat → q !! p' = Some e' → valid e' = true.
Proof.
  revert q'. induction q as [|e q IH]; intros q' E; [done|]. cbn [TimerState.enqueue] in E. destruct (valid e) eqn:Hv; simpl in E.
  - apply fmap_Some in E as (q1 & E & ->). destruct (IH _ E) as (p & e' & ? & ? & -> & Hlt). exists (S p), e'. split_and!; [done|done|done|]. intros [|p'] x Hp Hx; [by simplify_eq/=|]. eapply (Hlt p'); [lia|done].
  - simplify_eq. exists 0%nat, e. split_and!; [done|done|done|]. lia.
Qed.

Lemma enqueue_none task wake q : TimerState.enqueue task wake q = None ↔ Forall (λ e, valid e = true) q.
Proof.
  induction q as [|e q IH]; cbn [TimerState.enqueue]; [by split|]. rewrite Forall_cons_iff. destruct (valid e); cbn [negb]; [|by split; [|intros [? _]]]. destruct (TimerState.enqueue task wake q); simpl; naive_solver.
Qed.

(** Going to sleep: the task is put into the first free place of the queue with the
    time that is [ms] milliseconds, rounded down to ticks, from now; it is refused exactly
    when sixty-four tasks sleep already, and then nothing changes. *)
Theorem sleep_enqueue_spec ms task t :
  initialized t = true → 0 <= ms <= U32_MAX → config_fine (config t) → 0 <= jiffies t <= 2 ^ 63 → length (sleep_queue t) = Z.to_nat MAX_SLEEPING_TASKS →
  returns (TimerState.sleep_enqueue ms task t) (λ '(r, t'),
    (r = Err SleepQueueFull ∧ t' = t ∧ TimerState.sleeping_tasks (TimerState.get_stats t) = MAX_SLEEPING_TASKS) ∨
    (r = Ok () ∧ TimerState.sleeping_tasks (TimerState.get_stats t') = TimerState.sleeping_tasks (TimerState.get_stats t) + 1 ∧
     ∃ p e, sleep_queue t !! p = Some e ∧ valid e = false ∧ t' = TimerState.set_queue (<[p := mkEntry task (jiffies t + ms * tick_rate_hz (config t) / 1000) true]> (sleep_queue t)) t)).
Proof.
  intros Hi Hms [Hr Hq] Hj Hl. unfold TimerState.sleep_enqueue. rewrite Hi. cbn [negb]. rewrite ms_to_ticks_ok by lia. cbn [obind].
  assert (0 <= ms * tick_rate_hz (config t) / 1000 <= U32_MAX * 10000) as Hb by (split; [apply Z.div_pos; nia|apply Z.div_le_upper_bound; nia]). rewrite usize_add_ok by lia. cbn [obind].
  destruct (TimerState.enqueue _ _ _) as [q'|] eqn:E; cbn [returns].
  - right. split; [done|]. apply enqueue_some in E as (p & e & Hp & Hv & -> & _). split; [|by exists p, e]. simpl. rewrite (count_if_insert _ _ _ e) by done. rewrite Hv. simpl. lia.
  - left. split_and!; [done|done|]. simpl. apply enqueue_none in E. rewrite count_if_all; [by rewrite Hl|]. intros p e Hp. by eapply Forall_lookup_1 in E.
Qed.

(** ** Starting *)

Section start.
Context {S : Type} `{TaskControl S}.

(** The kernel at the start of the timer, with the dispatcher ready. *)
Definition booted (s : S) : Kernel S := mkKernel TimerState.new (InterruptState.init InterruptState.new).2 s.

Lemma boot_armed cfg c s : 1 <= tick_rate_hz cfg <= 10000 → 1 <= time_quantum_ms cfg <= 1000 → 0 <= c < NESTING_CPUS →
  returns (init cfg (booted s)) (λ '(r, k1), r = Ok () ∧ returns (start k1) (λ '(r, k2), r = Ok () ∧ armed c 0 k2 ∧ timer_fine (timer k2) ∧ sched k2 = s ∧ config (timer k2) = cfg)).
Proof.
  intros Hr Hq Hc. unfold init, start, booted. cbn [timer initialized TimerState.new]. destruct (Z.eqb_spec (tick_rate_hz cfg) 0), (Z.ltb_spec 10000 (tick_rate_hz cfg)); try lia. cbn [orb].
  destruct (Z.eqb_spec (time_quantum_ms cfg) 0), (Z.ltb_spec 1000 (time_quantum_ms cfg)); try lia. cbn [orb]. unfold InterruptState.init, InterruptState.new. cbn [Interrupt.initialized snd set_timer ints].
  unfold InterruptState.register_irq_handler. cbn [negb irq_table Interrupt.initialized]. assert (0 <= get_timer_irq) as Hi by done. set (tb := replicate _ descriptor_new).
  assert (tb !! Z.to_nat get_timer_irq = Some descriptor_new) as Ht by done. rewrite (arr_get_ok _ _ _ Hi Ht). cbn [obind handler descriptor_new]. rewrite (arr_set_lookup _ _ _ _ Hi Ht). cbn [obind returns]. split; [done|].
  cbn [set_ints set_timer timer initialized running negb TimerState.new]. unfold InterruptState.enable_irq. cbn [ints set_ints set_timer timer InterruptState.set_table Interrupt.initialized irq_table negb].
  set (d := mkDescriptor (Some timer_handler) _ _ _ _). pose proof (lookup_upd tb _ _ d Hi Ht) as Ht'. rewrite (arr_get_ok _ _ _ Hi Ht'). cbn [obind handler d]. rewrite (arr_set_lookup _ _ _ _ Hi Ht'). cbn [obind init_hardware_timer returns].
  split; [done|]. split_and!; [split; [lia|done| |]|split|done|done]; simpl; try done.
  - eexists. split; [done|]. done.
  - exists 0. split; [|done]. change (replicate (Z.to_nat NESTING_CPUS) 0 !! Z.to_nat c = Some 0). apply lookup_replicate_2. unfold NESTING_CPUS in *. lia.
  - split; lia.
Qed.

(** A start before the dispatcher is ready fails, but leaves the timer marked as
    initialized: later attempts succeed without registering the handler, and the timer can
    never be started. *)
Lemma failed_init_sticks cfg s : 1 <= tick_rate_hz cfg <= 10000 → 1 <= time_quantum_ms cfg <= 1000 →
  ∃ k1 : Kernel S, init cfg (mkKernel TimerState.new InterruptState.new s) = Ret (Err HardwareUnavailable, k1) ∧
    let k2 := set_ints (InterruptState.init (ints k1)).2 k1 in
    init cfg k2 = Ret (Ok (), k2) ∧ returns (start k2) (λ '(r, _), r = Err HardwareUnavailable).
Proof.
  intros Hr Hq. unfold init. cbn [timer initialized TimerState.new]. destruct (Z.eqb_spec (tick_rate_hz cfg) 0), (Z.ltb_spec 10000 (tick_rate_hz cfg)); try lia. cbn [orb].
  destruct (Z.eqb_spec (time_quantum_ms cfg) 0), (Z.ltb_spec 1000 (time_quantum_ms cfg)); try lia. eexists. split; done.
Qed.
End start.

(** ** Findings *)

(** At 100 ticks in a second, a sleep of 15 milliseconds ends at the next tick. *)
Lemma sleep_too_short t :
  config t = mkConfig 100 10 → initialized t = true → jiffies t = 41 → sleep_queue t = replicate 64 empty_entry →
  returns (TimerState.sleep_enqueue 15 3 t) (λ '(_, t'), head (sleep_queue t') = Some (mkEntry 3 42 true)).
Proof. intros E1 E2 E3 E4. unfold TimerState.sleep_enqueue. rewrite E1, E2, E3, E4. done. Qed.

(** A tick that comes between the two parts of [sleep_ms] takes the entry out before the
    task is blocked; nothing is left that would wake it. *)
Lemma tick_before_block :
  returns (init default_config (booted (None : Global.global))) (λ '(_, k),
    returns (TimerState.sleep_enqueue 1 3 (timer k)) (λ '(r, t),
      r = Ok () ∧ returns (timer_interrupt_handler (context_new get_timer_irq 1 0 0) (set_timer t k)) (λ k', TimerState.sleeping_tasks (TimerState.get_stats (timer k')) = 0))).
Proof. by vm_compute. Qed.

(** When the quantum is over the current task yields, and nobody is chosen to run. *)
Lemma preemption_leaves_no_task s :
  sched_inv s → current_task s ≠ None → returns (yield_task (S := Global.global) (Some s)) (λ g, current_task_id (S := Global.global) g = None).
Proof. intros Hi Hc. destruct (yield_cases s Hi) as (s' & -> & _ & _ & _ & _ & Hn). cbn [returns]. simpl. auto. Qed.

(** ** Witnesses *)

Definition spawned : Scheduler := match Scheduler.spawn_task Scheduler.new 10 with Ret (_, s) => s | _ => Scheduler.new end.
(** The task 0 is blocked in the first slot. *)
Definition napping : Scheduler := set_tasks (<[0%nat := Some (set_state (new_with_affinity 0 10 None) Blocked)]> (tasks spawned)) spawned.

Lemma napping_inv : sched_inv napping.
Proof.
  assert (sched_inv spawned) as Hi.
  { apply (sched_step_inv false Scheduler.new); [|apply new_inv]. eapply (step_spawn false _ 10 None); [lia|vm_compute; reflexivity|vm_compute; reflexivity]. }
  apply (sched_inv_rewrite spawned 0 (new_with_affinity 0 10 None)); [done|vm_compute; reflexivity|done|simpl; lia].
Qed.

Definition running_kernel (s : Global.global) : Kernel Global.global :=
  match init default_config (booted s) with Ret (_, k1) => match start k1 with Ret (_, k2) => k2 | _ => k1 end | _ => booted s end.
(** The task sleeps until the second tick. *)
Definition nap : Kernel Global.global :=
  let k := running_kernel (Some napping) in set_timer (TimerState.set_queue (<[0%nat := mkEntry 0 2 true]> (sleep_queue (timer k))) (timer k)) k.

Definition no_driver (n : Z) (ctx : InterruptContext) (k : Kernel Global.global) : outcome (Kernel Global.global) := Ret k.
Definition no_work (n : Z) (k : Kernel Global.global) : outcome (Kernel Global.global) := Ret k.

Lemma nap_armed : armed 3 0 nap.
Proof. split; [lia|done|eexists; split; [vm_compute; reflexivity|by vm_compute]|eexists; split; [vm_compute; reflexivity|by vm_compute]]. Qed.

Lemma nap_fine : timer_fine (timer nap).
Proof. split; vm_compute; [split; split; discriminate|split; discriminate|done]. Qed.

Lemma nap_sane : sane (sched nap).
Proof. exists napping. split; [by vm_compute|apply napping_inv]. Qed.

Lemma sleeper_wakes_witness :
  returns (ticks no_driver no_work 3 [(1, 2); (5, 9)] nap) (λ k', runnable 0 (sched k')) ∧
  returns (ticks no_driver no_work 3 [(1, 2)] nap) (λ k', asleep 0 (sched k')).
Proof.
  assert (asleep 0 (sched nap)) as Ha.
  { exists napping, 0%nat, (set_state (new_with_affinity 0 10 None) Blocked). split_and!; [by vm_compute|by vm_compute|done|done|by vm_compute]. }
  assert (sleeps_until 0 2 (sleep_queue (timer nap))) as Hq.
  { split; [exists (mkEntry 0 2 true); split; [|done]; by apply list_elem_of_lookup_2 with 0%nat|]. intros e [i Hi]%list_elem_of_lookup Hv _. destruct i as [|i]; [by simplify_eq/=|].
    change (replicate 63 empty_entry !! i = Some e) in Hi. by apply lookup_replicate in Hi as [-> _]. }
  assert (Forall stamps_ok [(1, 2); (5, 9)] ∧ Forall stamps_ok [(1, 2)]) as [Hst Hst'] by (split; repeat constructor; simpl; lia). assert (jiffies (timer nap) = 0) as Ej0 by by vm_compute. split.
  - eapply returns_mono; [exact (sleeper_wakes no_driver no_work 3 0 nap [(1, 2); (5, 9)] 0 2 nap_armed nap_fine nap_sane Hst ltac:(done) ltac:(rewrite Ej0; done) Ha Hq)|]. cbv beta. rewrite Ej0. intros k' [-> Hr]. done.
  - eapply returns_mono; [exact (sleeper_wakes no_driver no_work 3 0 nap [(1, 2)] 0 2 nap_armed nap_fine nap_sane Hst' ltac:(done) ltac:(rewrite Ej0; done) Ha Hq)|]. cbv beta. rewrite Ej0. intros k' [-> Hr]. done.
Defined.

Lemma reschedules_periodic_witness :
  returns (ticks no_driver no_work 3 (replicate 25 (1, 2)) nap) (λ k', total_reschedules (timer k') = 2).
Proof.
  assert (Forall stamps_ok (replicate 25 (1, 2))) as Hst by (apply Forall_replicate; unfold stamps_ok; simpl; lia).
  assert (quantum (config (timer nap)) = 10 ∧ jiffies (timer nap) = 0 ∧ last_quantum_check (timer nap) = 0 ∧ total_reschedules (timer nap) = 0) as (Eq & Ej & El & Er) by by vm_compute.
  pose proof (reschedules_periodic no_driver no_work 3 0 nap (replicate 25 (1, 2)) nap_armed nap_fine nap_sane Hst) as Hr. cbv zeta in Hr. rewrite Eq, Ej, El, Er, length_replicate in Hr.
  exact (Hr ltac:(done) ltac:(done) ltac:(done) ltac:(done) ltac:(done) ltac:(done)).
Defined.

Lemma sleep_enqueue_spec_witness :
  returns (TimerState.sleep_enqueue 7 5 (timer nap)) (λ '(r, t'),
    (r = Err SleepQueueFull ∧ t' = timer nap ∧ TimerState.sleeping_tasks (TimerState.get_stats (timer nap)) = MAX_SLEEPING_TASKS) ∨
    (r = Ok () ∧ TimerState.sleeping_tasks (TimerState.get_stats t') = 2)).
Proof.
  eapply returns_mono; [apply (sleep_enqueue_spec 7 5 (timer nap)); [done|lia|apply nap_fine|vm_compute; split; discriminate|done]|]. intros [r t'] [?|(? & E & _)]; [by left|right]. split; [done|]. rewrite E. by vm_compute.
Defined.
