(* ===== verification/Ota.v ===== *)
(** * Firmware updates (mielin-rt/src/ota.rs)

    The manager of updates: partitions, the states of an update, activation,
    confirmation and rollback.  It is used through [&mut], so that every call is one
    step.  A call that fails may leave changes behind, which is why the state comes with
    the result. *)

From stdpp Require Import base tactics option list numbers.
From S2P Require Import Prelude.

(* src: mielin-rt/src/ota.rs 35-35 MAX_PARTITIONS *)
Definition MAX_PARTITIONS : Z := 4.

(* src: mielin-rt/src/security.rs 129-136 HashAlgorithm *)
Inductive HashAlgorithm : Type := Sha256 | Sha384 | Sha512.
(* src: mielin-rt/src/security.rs 151-164 SignatureAlgorithm *)
Inductive SignatureAlgorithm : Type := EcdsaP256 | EcdsaP384 | Rsa2048 | Rsa3072 | Rsa4096 | Ed25519.
(* src: mielin-rt/src/security.rs 63-100 SecurityError *)
Inductive SecurityError : Type :=
| InvalidSignature | InvalidHash | InvalidCertificate | CertificateExpired | CertificateRevoked | RollbackDetected | UnsupportedAlgorithm
| InvalidKey | InvalidNonce | DecryptionFailed | EncryptionFailed | AuthenticationFailed | SecureElementError | HardwareCryptoError
| BufferTooSmall | InvalidParameter | SecurityNotInitialized.

(* src: mielin-rt/src/ota.rs 42-75 OtaError *)
Inductive OtaError : Type :=
| NoUpdateAvailable | DownloadFailed | VerificationFailed | InstallationFailed | ActivationFailed | RollbackFailed | NoSpace | InvalidPartition
| InvalidVersion | IncompatibleFirmware | TransportError | OtaSecurityError (e : SecurityError) | NotInitialized | AlreadyInProgress | InvalidState | ChecksumMismatch.

(* src: mielin-rt/src/ota.rs 108-119 UpdateTransport *)
Inductive UpdateTransport : Type := Http | Coap | MqttSn | Ble | Serial.
(* src: mielin-rt/src/ota.rs 123-130 UpdateType *)
Inductive UpdateType : Type := Full | Delta | Configuration.
(* src: mielin-rt/src/ota.rs 134-143 PartitionId *)
Inductive PartitionId : Type := A | B | Recovery | Factory.
(* src: mielin-rt/src/ota.rs 147-156 PartitionState *)
Inductive PartitionState : Type := Active | Inactive | Invalid | Pending.
(* src: mielin-rt/src/ota.rs 261-278 OtaState *)
Inductive OtaState : Type := Idle | Checking | Downloading | Verifying | Installing | Ready | Activating | RollingBack.

#[export] Instance PartitionId_eq_dec : EqDecision PartitionId.
Proof. solve_decision. Defined.
#[export] Instance PartitionState_eq_dec : EqDecision PartitionState.
Proof. solve_decision. Defined.
#[export] Instance OtaState_eq_dec : EqDecision OtaState.
Proof. solve_decision. Defined.

(* src: mielin-rt/src/ota.rs 160-169 Version *)
Record Version : Type := mkVersion { major : Z; minor : Z; patch : Z; build : Z }.

(* src: mielin-rt/src/ota.rs 183-186 Version::is_compatible_with *)
Definition is_compatible_with (self other : Version) : bool := major self =? major other.

(* src: mielin-rt/src/ota.rs 201-216 UpdateMetadata *)
Record UpdateMetadata : Type := mkMetadata {
  update_version : Version;
  update_size : Z;
  update_type : UpdateType;
  hash_algorithm : HashAlgorithm;
  signature_algorithm : SignatureAlgorithm;
  release_notes : option (list Z);
  required_space : Z;
}.

(* src: mielin-rt/src/ota.rs 220-233 PartitionInfo *)
Record PartitionInfo : Type := mkPartition {
  id : PartitionId;
  state : PartitionState;
  version : option Version;
  size : Z;
  used : Z;
  start_address : Z;
}.

Module PartitionInfo.
Implicit Types (self : PartitionInfo).

(* src: mielin-rt/src/ota.rs 237-246 PartitionInfo::new *)
Definition new (id : PartitionId) (size start_address : Z) : PartitionInfo := mkPartition id Inactive None size 0 start_address.
(* src: mielin-rt/src/ota.rs 249-251 PartitionInfo::available_space *)
Definition available_space self : outcome Z := usize_sub (size self) (used self).
(* src: mielin-rt/src/ota.rs 254-256 PartitionInfo::has_space *)
Definition has_space self (required : Z) : outcome bool := let! a := available_space self in Ret (required <=? a).

Definition set_state (s : PartitionState) self : PartitionInfo := mkPartition (id self) s (version self) (size self) (used self) (start_address self).
Definition set_pending (v : Version) self : PartitionInfo := mkPartition (id self) Pending (Some v) (size self) (used self) (start_address self).

End PartitionInfo.

(* src: mielin-rt/src/ota.rs 282-293 OtaProgress *)
Record OtaProgress : Type := mkProgress { p_state : OtaState; bytes_downloaded : Z; total_bytes : Z; percentage : Z; error : option OtaError }.

Module OtaProgress.
Implicit Types (self : OtaProgress).

(* src: mielin-rt/src/ota.rs 303-311 OtaProgress::new *)
Definition new : OtaProgress := mkProgress Idle 0 0 0 None.
(* src: mielin-rt/src/ota.rs 314-320 OtaProgress::update *)
Definition update (bytes total : Z) self : outcome OtaProgress :=
  if 0 <? total then
    let! b := usize_mul bytes 100 in Ret (mkProgress (p_state self) bytes total (as_u8 (b / total)) (error self))
  else Ret (mkProgress (p_state self) bytes total (percentage self) (error self)).
(* src: mielin-rt/src/ota.rs 323-325 OtaProgress::set_state *)
Definition set_state (s : OtaState) self : OtaProgress := mkProgress s (bytes_downloaded self) (total_bytes self) (percentage self) (error self).
(* src: mielin-rt/src/ota.rs 328-330 OtaProgress::set_error *)
Definition set_error (e : OtaError) self : OtaProgress := mkProgress (p_state self) (bytes_downloaded self) (total_bytes self) (percentage self) (Some e).
(* src: mielin-rt/src/ota.rs 333-335 OtaProgress::clear_error *)
Definition clear_error self : OtaProgress := mkProgress (p_state self) (bytes_downloaded self) (total_bytes self) (percentage self) None.
(* src: mielin-rt/src/ota.rs 338-340 OtaProgress::is_complete *)
Definition is_complete self : bool := bool_decide (p_state self = Ready).
(* src: mielin-rt/src/ota.rs 343-345 OtaProgress::is_failed *)
Definition is_failed self : bool := match error self with Some _ => true | None => false end.

End OtaProgress.

(** The array [partitions] is its first [partition_count] entries; the rest are never
    looked at. *)
(* src: mielin-rt/src/ota.rs 349-366 OtaManager *)
Record OtaManager : Type := mkManager {
  current_version : Version;
  active_partition : PartitionId;
  partitions : list PartitionInfo;
  transport : UpdateTransport;
  ota_state : OtaState;
  progress : OtaProgress;
  boot_counter : Z;
}.

Module OtaManager.
Implicit Types (self : OtaManager).

(* src: mielin-rt/src/ota.rs 370-390 OtaManager::new *)
Definition new (v : Version) (active : PartitionId) (t : UpdateTransport) : OtaManager := mkManager v active [] t Idle OtaProgress.new 0.

Definition set_partitions (ps : list PartitionInfo) self : OtaManager :=
  mkManager (current_version self) (active_partition self) ps (transport self) (ota_state self) (progress self) (boot_counter self).
(** The state alone, as on the paths that leave the progress behind. *)
Definition set_ota (s : OtaState) self : OtaManager :=
  mkManager (current_version self) (active_partition self) (partitions self) (transport self) s (progress self) (boot_counter self).
Definition set_progress (p : OtaProgress) self : OtaManager :=
  mkManager (current_version self) (active_partition self) (partitions self) (transport self) (ota_state self) p (boot_counter self).
(** [self.state = s; self.progress.set_state(s)]. *)
Definition enter (s : OtaState) self : OtaManager := set_progress (OtaProgress.set_state s (progress self)) (set_ota s self).

(* src: mielin-rt/src/ota.rs 393-401 OtaManager::register_partition *)
Definition register_partition (info : PartitionInfo) self : result unit OtaError * OtaManager :=
  if MAX_PARTITIONS <=? Z.of_nat (length (partitions self)) then (Err NoSpace, self)
  else (Ok (), set_partitions (partitions self ++ [info]) self).

(* src: mielin-rt/src/ota.rs 404-408 OtaManager::get_partition *)
Definition get_partition (i : PartitionId) self : option PartitionInfo := snd <$> list_find (λ p, id p = i) (partitions self).

(** A change through [get_partition_mut]. *)
(* src: mielin-rt/src/ota.rs 411-415 OtaManager::get_partition_mut *)
Definition update_partition (i : PartitionId) (f : PartitionInfo → PartitionInfo) self : OtaManager :=
  match list_find (λ p, id p = i) (partitions self) with
  | Some (k, p) => set_partitions (<[k := f p]> (partitions self)) self
  | None => self
  end.

(* src: mielin-rt/src/ota.rs 418-424 OtaManager::get_inactive_partition *)
Definition get_inactive_partition self : option PartitionId :=
  match active_partition self with A => Some B | B => Some A | _ => None end.

(* src: mielin-rt/src/ota.rs 427-439 OtaManager::check_for_update *)
Definition check_for_update self : result (option UpdateMetadata) OtaError * OtaManager :=
  if decide (ota_state self = Idle) then (Ok None, set_ota Idle (enter Checking self))
  else (Err AlreadyInProgress, self).

(* src: mielin-rt/src/ota.rs 442-470 OtaManager::start_download *)
Definition start_download (m : UpdateMetadata) self : outcome (result unit OtaError * OtaManager) :=
  if decide (ota_state self = Idle) then
    if negb (is_compatible_with (update_version m) (current_version self)) then Ret (Err IncompatibleFirmware, self)
    else
      match get_inactive_partition self ≫= (λ i, get_partition i self) with
      | None => Ret (Err InvalidPartition, self)
      | Some p =>
        let! space := PartitionInfo.has_space p (required_space m) in
        if negb space then Ret (Err NoSpace, self)
        else
          let self := enter Downloading self in
          let! p := OtaProgress.update 0 (update_size m) (progress self) in
          Ret (Ok (), set_progress p self)
      end
  else Ret (Err AlreadyInProgress, self).

(* src: mielin-rt/src/ota.rs 473-485 OtaManager::process_chunk *)
Definition process_chunk (chunk : list Z) (offset : Z) self : outcome (result unit OtaError * OtaManager) :=
  if decide (ota_state self = Downloading) then
    let! bytes := usize_add offset (Z.of_nat (length chunk)) in
    let! p := OtaProgress.update bytes (total_bytes (progress self)) (progress self) in
    Ret (Ok (), set_progress p self)
  else Ret (Err InvalidState, self).

(* src: mielin-rt/src/ota.rs 488-509 OtaManager::verify_update *)
Definition verify_update (expected_hash signature public_key : list Z) self : result unit OtaError * OtaManager :=
  if decide (ota_state self = Downloading) then
    let self := enter Verifying self in
    if bool_decide (expected_hash = []) || bool_decide (signature = []) || bool_decide (public_key = []) then (Err VerificationFailed, set_ota Idle self)
    else (Ok (), self)
  else (Err InvalidState, self).

(* src: mielin-rt/src/ota.rs 512-527 OtaManager::install_update *)
Definition install_update self : result unit OtaError * OtaManager :=
  if decide (ota_state self = Verifying) then (Ok (), enter Ready (enter Installing self)) else (Err InvalidState, self).

(* src: mielin-rt/src/ota.rs 530-561 OtaManager::activate_update *)
Definition activate_update (new_version : Version) self : result unit OtaError * OtaManager :=
  if decide (ota_state self = Ready) then
    let self := enter Activating self in
    match get_inactive_partition self with
    | None => (Err InvalidPartition, self)
    | Some target =>
      let self := update_partition (active_partition self) (PartitionInfo.set_state Inactive) self in
      let self := update_partition target (PartitionInfo.set_pending new_version) self in
      (Ok (), mkManager (current_version self) target (partitions self) (transport self) (ota_state self) (progress self) 0)
    end
  else (Err InvalidState, self).

(* src: mielin-rt/src/ota.rs 564-579 OtaManager::confirm_update *)
Definition confirm_update self : result unit OtaError * OtaManager :=
  match get_partition (active_partition self) self with
  | None => (Err InvalidPartition, self)
  | Some p =>
    if decide (state p = Pending) then
      let self := update_partition (active_partition self) (PartitionInfo.set_state Active) self in
      (Ok (), mkManager (default (current_version self) (version p)) (active_partition self) (partitions self) (transport self) Idle (progress self) 0)
    else (Err InvalidState, self)
  end.

(* src: mielin-rt/src/ota.rs 582-609 OtaManager::rollback *)
Definition rollback self : result unit OtaError * OtaManager :=
  let self := enter RollingBack self in
  match get_inactive_partition self with
  | None => (Err InvalidPartition, self)
  | Some target =>
    let self := update_partition (active_partition self) (PartitionInfo.set_state Invalid) self in
    match get_partition target self with
    | Some p =>
      if decide (state p = Inactive) then
        let self := update_partition target (PartitionInfo.set_state Active) self in
        (Ok (), mkManager (current_version self) target (partitions self) (transport self) Idle (progress self) (boot_counter self))
      else (Err RollbackFailed, self)
    | None => (Ok (), mkManager (current_version self) target (partitions self) (transport self) Idle (progress self) (boot_counter self))
    end
  end.

(* src: mielin-rt/src/ota.rs 612-614 OtaManager::increment_boot_counter *)
Definition increment_boot_counter self : OtaManager :=
  mkManager (current_version self) (active_partition self) (partitions self) (transport self) (ota_state self) (progress self) (Z.min (boot_counter self + 1) U8_MAX).
(* src: mielin-rt/src/ota.rs 617-619 OtaManager::is_boot_loop_detected *)
Definition is_boot_loop_detected (threshold : Z) self : bool := threshold <=? boot_counter self.
(* src: mielin-rt/src/ota.rs 642-645 OtaManager::cancel *)
Definition cancel self : OtaManager := set_progress OtaProgress.new (set_ota Idle self).

End OtaManager.
