(* ===== verification/OtaProps.v ===== *)
(** * Theorems about firmware updates

    A history is a sequence of calls with their results; which of the calls that lead to an
    activation have succeeded is read off the history. *)

From stdpp Require Import base tactics option list numbers gmap.
From S2P Require Import Prelude Ota.

Implicit Types (m : OtaManager) (p : PartitionInfo) (ps : list PartitionInfo) (i j : PartitionId).

(** ** Histories *)

Inductive call : Type :=
| Register p | Check | Start (u : UpdateMetadata) | Chunk (bytes : list Z) (offset : Z) | Verify (hash signature key : list Z)
| Install | Activate (v : Version) | Confirm | Rollback | Boot | Cancel.

Definition call_step (c : call) m : outcome (result unit OtaError * OtaManager) :=
  match c with
  | Register p => Ret (OtaManager.register_partition p m)
  | Check => let '(r, m) := OtaManager.check_for_update m in Ret (match r with Ok _ => Ok () | Err e => Err e end, m)
  | Start u => OtaManager.start_download u m
  | Chunk bytes offset => OtaManager.process_chunk bytes offset m
  | Verify h s k => Ret (OtaManager.verify_update h s k m)
  | Install => Ret (OtaManager.install_update m)
  | Activate v => Ret (OtaManager.activate_update v m)
  | Confirm => Ret (OtaManager.confirm_update m)
  | Rollback => Ret (OtaManager.rollback m)
  | Boot => Ret (Ok (), OtaManager.increment_boot_counter m)
  | Cancel => Ret (Ok (), OtaManager.cancel m)
  end.

(** The results are listed from the last one back. *)
Fixpoint call_run (cs : list call) m (log : list (call * result unit OtaError)) : outcome (list (call * result unit OtaError) * OtaManager) :=
  match cs with
  | [] => Ret (log, m)
  | c :: cs' => let! (r, m) := call_step c m in call_run cs' m ((c, r) :: log)
  end.

(** ** The calls that lead to an activation *)

(** How far an update has come: which of the calls [start_download], [verify_update] and
    [install_update] have succeeded, in this order, since the last one that ended an update. *)
Inductive stage : Type := Nothing | Started (u : UpdateMetadata) | Verified (u : UpdateMetadata) (h s k : list Z) | Installed (u : UpdateMetadata) (h s k : list Z).

Definition stage_step (x : stage) (e : call * result unit OtaError) : stage :=
  match e, x with
  | (Start u, Ok _), _ => Started u
  | (Verify h s k, Ok _), Started u => Verified u h s k
  | (Install, Ok _), Verified u h s k => Installed u h s k
  | ((Verify _ _ _ | Install | Activate _ | Confirm), Ok _), _ => Nothing
  | (Verify _ _ _, Err VerificationFailed), _ => Nothing
  | (Activate _, Err InvalidPartition), _ => Nothing
  | ((Rollback | Cancel), _), _ => Nothing
  | _, _ => x
  end.

Fixpoint stage_of (log : list (call * result unit OtaError)) : stage :=
  match log with [] => Nothing | e :: log' => stage_step (stage_of log') e end.

(** The update can replace the running firmware. *)
Definition fits (u : UpdateMetadata) m : Prop := is_compatible_with (update_version u) (current_version m) = true.

(** The state of the manager says how far the update has come; it fits, and what is
    verified has a hash, a signature and a key. *)
Definition agrees (x : stage) m : Prop :=
  match x with
  | Nothing => ota_state m ≠ Downloading ∧ ota_state m ≠ Verifying ∧ ota_state m ≠ Ready
  | Started u => ota_state m = Downloading ∧ fits u m
  | Verified u h s k => ota_state m = Verifying ∧ fits u m ∧ h ≠ [] ∧ s ≠ [] ∧ k ≠ []
  | Installed u h s k => ota_state m = Ready ∧ fits u m ∧ h ≠ [] ∧ s ≠ [] ∧ k ≠ []
  end.

Lemma update_partition_frame i f m :
  ota_state (OtaManager.update_partition i f m) = ota_state m ∧ active_partition (OtaManager.update_partition i f m) = active_partition m ∧
  current_version (OtaManager.update_partition i f m) = current_version m ∧ boot_counter (OtaManager.update_partition i f m) = boot_counter m.
Proof. unfold OtaManager.update_partition. by destruct (list_find _ _) as [[? ?]|]. Qed.

Lemma update_state i f m : ota_state (OtaManager.update_partition i f m) = ota_state m.
Proof. apply update_partition_frame. Qed.
Lemma update_active i f m : active_partition (OtaManager.update_partition i f m) = active_partition m.
Proof. apply update_partition_frame. Qed.
Lemma update_current i f m : current_version (OtaManager.update_partition i f m) = current_version m.
Proof. apply update_partition_frame. Qed.

Lemma start_download_cases u m r m' : OtaManager.start_download u m = Ret (r, m') →
  (r = Ok () ∧ ota_state m' = Downloading ∧ ota_state m = Idle ∧ partitions m' = partitions m ∧ active_partition m' = active_partition m ∧ fits u m') ∨
  (∃ e, r = Err e ∧ m' = m).
Proof.
  unfold OtaManager.start_download. case_decide as Hs; [|intros [= <- <-]; by right; eexists]. destruct (is_compatible_with _ _) eqn:Ec; cbn [negb]; [|intros [= <- <-]; by right; eexists].
  destruct (_ ≫= _) as [p|]; [|intros [= <- <-]; by right; eexists]. destruct (PartitionInfo.has_space _ _) as [sp| |]; [|done..]. cbn [obind]. destruct sp; cbn [negb]; [|intros [= <- <-]; by right; eexists].
  destruct (OtaProgress.update _ _ _) as [pr| |]; [|done..]. cbn [obind]. intros [= <- <-]. by left.
Qed.

Lemma process_chunk_cases bytes offset m r m' : OtaManager.process_chunk bytes offset m = Ret (r, m') →
  ota_state m' = ota_state m ∧ partitions m' = partitions m ∧ active_partition m' = active_partition m ∧ current_version m' = current_version m.
Proof.
  unfold OtaManager.process_chunk. case_decide as Hs; [|by intros [= <- <-]]. destruct (usize_add _ _) as [b| |]; [|done..]. cbn [obind]. destruct (OtaProgress.update _ _ _); [|done..]. cbn [obind]. by intros [= <- <-].
Qed.

Lemma agrees_state x m m' : agrees x m → ota_state m' = ota_state m → current_version m' = current_version m → agrees x m'.
Proof. intros Hx E E'. destruct x; unfold agrees, fits in *; by rewrite E, ?E'. Qed.

Lemma step_agrees c r x m m' : agrees x m → call_step c m = Ret (r, m') → agrees (stage_step x (c, r)) m'.
Proof.
  intros Hx. destruct c as [p| |u|bytes offset|h s k| |v| | | |]; cbn [call_step].
  - unfold OtaManager.register_partition. destruct (_ <=? _); intros [= <- <-]; by eapply agrees_state.
  - unfold OtaManager.check_for_update. case_decide as Hs; intros [= <- <-]; [|done]. eapply agrees_state; [done| |done]. by rewrite Hs.
  - intros [(-> & ? & _ & _ & _ & ?)|(e & -> & ->)]%start_download_cases; done.
  - intros (? & _ & _ & ?)%process_chunk_cases. destruct r; by eapply agrees_state.
  - unfold OtaManager.verify_update. case_decide as Hs; [|by intros [= <- <-]]. destruct (_ || _) eqn:E; intros [= <- <-]; [done|].
    apply orb_false_iff in E as [[E1%bool_decide_eq_false E2%bool_decide_eq_false]%orb_false_iff E3%bool_decide_eq_false]. destruct x; simpl in *; rewrite ?Hs in Hx; naive_solver.
  - unfold OtaManager.install_update. case_decide as Hs; [|by intros [= <- <-]]. intros [= <- <-]. destruct x; simpl in *; rewrite ?Hs in Hx; naive_solver.
  - unfold OtaManager.activate_update. case_decide as Hs; [|by intros [= <- <-]]. destruct (OtaManager.get_inactive_partition _) as [t|]; intros [= <- <-].
    + simpl. rewrite !update_state. done.
    + done.
  - unfold OtaManager.confirm_update. destruct (OtaManager.get_partition _ _) as [p|]; [|by intros [= <- <-]]. case_decide; by intros [= <- <-].
  - unfold OtaManager.rollback. destruct (OtaManager.get_inactive_partition _) as [t|]; [|by intros [= <- <-]]. destruct (OtaManager.get_partition _ _) as [p|]; [|by intros [= <- <-]].
    case_decide; intros [= <- <-]; [done|]. simpl. by rewrite update_state.
  - intros [= <- <-]. by eapply agrees_state.
  - by intros [= <- <-].
Qed.

Lemma run_agrees cs : ∀ m log log' m', agrees (stage_of log) m → call_run cs m log = Ret (log', m') → agrees (stage_of log') m'.
Proof.
  induction cs as [|c cs IH]; intros m log log' m' Hx; cbn [call_run]; [by intros [= <- <-]|]. destruct (call_step c m) as [[r m1]| |] eqn:E; [|done..]. cbn [obind]. apply IH. cbn [stage_of]. by eapply step_agrees.
Qed.

(** C23. The order of an update: after any calls on a new manager, [activate_update] succeeds
    exactly when the active partition is one of the pair A and B and the calls
    [start_download], [verify_update] and [install_update] have succeeded in this order with
    no cancellation, rollback, confirmation, activation or failed verification since; the
    metadata given to that [start_download] were then compatible with the version that runs,
    and the hash, signature and key given to that [verify_update] were not empty. Nothing is
    claimed about the firmware itself: the code looks neither at the bytes that were
    downloaded nor at what the hash and the signature say ([verifies_nothing]) nor at the
    version that is activated ([activates_any_version]). *)
Theorem activation_in_order v0 a t cs v log m :
  call_run cs (OtaManager.new v0 a t) [] = Ret (log, m) →
  ((∃ m', OtaManager.activate_update v m = (Ok (), m')) ↔
     (∃ u h s k, stage_of log = Installed u h s k) ∧ (active_partition m = A ∨ active_partition m = B)) ∧
  (∀ u h s k, stage_of log = Installed u h s k →
     is_compatible_with (update_version u) (current_version m) = true ∧ h ≠ [] ∧ s ≠ [] ∧ k ≠ []).
Proof.
  intros Hr. assert (agrees (stage_of []) (OtaManager.new v0 a t)) as H0 by done. pose proof (run_agrees _ _ _ _ _ H0 Hr) as Hx.
  split; [|intros u h s k E; rewrite E in Hx; apply Hx].
  unfold OtaManager.activate_update, OtaManager.get_inactive_partition, OtaManager.enter. split.
  - intros [m' Ha]. case_decide as Hs; [|done]. split; [|cbn in Ha; destruct (active_partition m); by auto].
    destruct (stage_of log) as [|u|u h s k|u h s k]; simpl in Hx; rewrite Hs in Hx; [naive_solver..|]. by exists u, h, s, k.
  - intros [(u & h & s & k & E) Hab]. rewrite E in Hx. rewrite decide_True by apply Hx. cbn. destruct Hab as [-> | ->]; by eexists.
Qed.

(** ** One partition runs *)

Definition bootable p : bool := bool_decide (state p = Active) || bool_decide (state p = Pending).

(** Every partition has its own name, and only the active one is marked as running. *)
Record layout_ok m : Prop := {
  l_ids : NoDup (id <$> partitions m);
  l_running : ∀ p, p ∈ partitions m → bootable p = true → id p = active_partition m;
}.

(** [list_find] by a name that occurs once. *)
Lemma find_partition i ps : NoDup (id <$> ps) →
  match list_find (λ p, id p = i) ps with
  | Some (k, p) => ps !! k = Some p ∧ id p = i ∧ ∀ k' p', ps !! k' = Some p' → id p' = i → k' = k
  | None => ∀ p, p ∈ ps → id p ≠ i
  end.
Proof.
  intros Hd. destruct (list_find _ ps) as [[k p]|] eqn:E.
  - apply list_find_Some in E as (Hk & Hp & _). split_and!; [done|done|]. intros k' p' Hk' Hp'. eapply (NoDup_lookup _ _ _ i Hd); rewrite list_lookup_fmap; [by rewrite Hk', <-Hp'|by rewrite Hk, <-Hp].
  - apply list_find_None in E. rewrite Forall_forall in E. exact E.
Qed.

(** What a change of the partition [i] does. *)
Lemma update_partition_elem i f m p : NoDup (id <$> partitions m) → (∀ p, id (f p) = id p) →
  p ∈ partitions (OtaManager.update_partition i f m) ↔ (p ∈ partitions m ∧ id p ≠ i) ∨ (∃ p0, p0 ∈ partitions m ∧ id p0 = i ∧ p = f p0).
Proof.
  intros Hd Hf. unfold OtaManager.update_partition. pose proof (find_partition i (partitions m) Hd) as Hfp. destruct (list_find _ _) as [[k q]|]; simpl.
  - destruct Hfp as (Hk & Hq & Hu). rewrite list_elem_of_lookup. split.
    + intros [j Hj]. apply list_lookup_insert_Some in Hj as [(-> & <- & _)|[Hne Hj]]; [right; exists q; split_and!; [by eapply list_elem_of_lookup_2|done..]|]. left.
      split; [by eapply list_elem_of_lookup_2|]. intros E. by apply Hne, eq_sym, (Hu j p).
    + intros [[Hp Hne]|(p0 & Hp & Hi & ->)].
      * apply list_elem_of_lookup in Hp as [j Hj]. exists j. rewrite list_lookup_insert_ne; [done|]. intros <-. naive_solver.
      * apply list_elem_of_lookup in Hp as [j Hj]. rewrite (Hu j p0 Hj Hi) in Hj. assert (p0 = q) as -> by congruence. exists k. apply list_lookup_insert_eq. by eapply lookup_lt_Some.
  - split; [intros Hp; left; auto|]. intros [[? _]|(p0 & Hp & Hi & _)]; [done|]. by destruct (Hfp p0 Hp).
Qed.

Lemma update_partition_ids i f m : (∀ p, id (f p) = id p) → id <$> partitions (OtaManager.update_partition i f m) = id <$> partitions m.
Proof.
  intros Hf. unfold OtaManager.update_partition. destruct (list_find _ _) as [[k q]|] eqn:E; [|done]. simpl. apply list_find_Some in E as (Hk & _ & _). rewrite list_fmap_insert, Hf.
  apply list_insert_id. by rewrite list_lookup_fmap, Hk.
Qed.

Lemma get_partition_some i m p : NoDup (id <$> partitions m) → OtaManager.get_partition i m = Some p ↔ p ∈ partitions m ∧ id p = i.
Proof.
  intros Hd. unfold OtaManager.get_partition. pose proof (find_partition i (partitions m) Hd) as Hfp. destruct (list_find _ _) as [[k q]|]; simpl.
  - destruct Hfp as (Hk & Hq & Hu). split; [intros [= <-]; split; [by eapply list_elem_of_lookup_2|done]|]. intros [[j Hj]%list_elem_of_lookup Hi]. pose proof (Hu j p Hj Hi). subst j. congruence.
  - split; [done|]. intros [Hp Hi]. by destruct (Hfp p Hp).
Qed.

Lemma set_state_id s p : id (PartitionInfo.set_state s p) = id p.
Proof. done. Qed.
Lemma set_pending_id v p : id (PartitionInfo.set_pending v p) = id p.
Proof. done. Qed.

(** The device runs from A or from B. *)
Definition dual m : Prop := active_partition m = A ∨ active_partition m = B.

(** What a call other than a registration may do to the partitions: recovery and factory
    stay as they are. *)
Record layout_kept m m' : Prop := {
  k_layout : layout_ok m';
  k_dual : dual m';
  k_ids : id <$> partitions m' = id <$> partitions m;
  k_others : ∀ p, id p ≠ A → id p ≠ B → (p ∈ partitions m' ↔ p ∈ partitions m);
}.

Lemma kept_same m m' : layout_ok m → dual m → partitions m' = partitions m → active_partition m' = active_partition m → layout_kept m m'.
Proof. intros [Hd Hr] Ha Ep Ea. split; [split|..]; unfold dual in *; rewrite ?Ep, ?Ea; done. Qed.

Lemma inactive_dual m : dual m → ∃ t, OtaManager.get_inactive_partition m = Some t ∧ t ≠ active_partition m ∧ (t = A ∨ t = B).
Proof. intros [E|E]; unfold OtaManager.get_inactive_partition; rewrite E; eexists; (split; [done|]); split; auto. Qed.

(** The change that [activate_update], and the one that [rollback] makes. *)
Lemma switch_kept m m' t f g :
  layout_ok m → dual m → t ≠ active_partition m → (t = A ∨ t = B) → (∀ p, id (f p) = id p) → (∀ p, id (g p) = id p) → (∀ p, bootable (f p) = false) →
  partitions m' = partitions (OtaManager.update_partition t g (OtaManager.update_partition (active_partition m) f m)) → active_partition m' = t → layout_kept m m'.
Proof.
  intros [Hd Hr] Ha Hne Ht Hf Hg Hb Ep Ea. set (m1 := OtaManager.update_partition (active_partition m) f m) in *.
  assert (id <$> partitions m1 = id <$> partitions m) as E1 by by apply update_partition_ids. assert (NoDup (id <$> partitions m1)) as Hd1 by by rewrite E1.
  assert (id <$> partitions m' = id <$> partitions m) as E2 by (rewrite Ep, update_partition_ids; done).
  assert (∀ p, p ∈ partitions m1 ↔ (p ∈ partitions m ∧ id p ≠ active_partition m) ∨ ∃ p0, p0 ∈ partitions m ∧ id p0 = active_partition m ∧ p = f p0) as Hm1 by (intros; by apply update_partition_elem).
  split; [split|unfold dual; by rewrite Ea|done|].
  - by rewrite E2.
  - intros p Hp Hbp. rewrite Ep, update_partition_elem in Hp by done. destruct Hp as [[Hp Hpt]|(p0 & Hp0 & Hi0 & ->)]; [|by rewrite Hg, Ea].
    apply Hm1 in Hp as [[Hp Hpa]|(p0 & _ & _ & ->)]; [|by rewrite Hb in Hbp]. by destruct Hpa; apply Hr.
  - intros p HA HB. rewrite Ep, update_partition_elem by done. rewrite Hm1. split.
    + intros [[[[? _]|(p0 & _ & Hi & ->)] _]|(p0 & _ & Hi & ->)]; [done| |]; exfalso; [rewrite Hf, Hi in HA, HB; by destruct Ha|rewrite Hg, Hi in HA, HB; by destruct Ht].
    + intros Hp. left. assert (id p ≠ active_partition m) by (destruct Ha; congruence). assert (id p ≠ t) by (destruct Ht; congruence). auto.
Qed.

(** The change of the active partition alone. *)
Lemma active_kept m m' f :
  layout_ok m → dual m → (∀ p, id (f p) = id p) → partitions m' = partitions (OtaManager.update_partition (active_partition m) f m) → active_partition m' = active_partition m → layout_kept m m'.
Proof.
  intros [Hd Hr] Ha Hf Ep Ea. assert (id <$> partitions m' = id <$> partitions m) as E by (rewrite Ep; by apply update_partition_ids).
  split; [split|unfold dual in *; by rewrite Ea|done|].
  - by rewrite E.
  - intros p Hp Hb. rewrite Ep, update_partition_elem in Hp by done. destruct Hp as [[Hp Hpt]|(p0 & Hp0 & Hi0 & ->)]; [|by rewrite Hf, Ea]. rewrite Ea. by apply Hr.
  - intros p HA HB. rewrite Ep, update_partition_elem by done. split; [intros [[? _]|(p0 & _ & Hi & ->)]; [done|]; exfalso; rewrite Hf, Hi in HA, HB; by destruct Ha|].
    intros Hp. left. split; [done|]. destruct Ha; congruence.
Qed.

Lemma update_parts i f m1 m2 : partitions m1 = partitions m2 → partitions (OtaManager.update_partition i f m1) = partitions (OtaManager.update_partition i f m2).
Proof. intros E. unfold OtaManager.update_partition. rewrite E. by destruct (list_find _ _) as [[? ?]|]. Qed.

Definition registers (c : call) : bool := match c with Register _ => true | _ => false end.

Lemma step_kept c r m m' : layout_ok m → dual m → registers c = false → call_step c m = Ret (r, m') → layout_kept m m'.
Proof.
  intros Hl Ha Hc. destruct c as [p| |u|bytes offset|h s k| |v| | | |]; [done|..]; cbn [call_step].
  - unfold OtaManager.check_for_update. case_decide; intros [= <- <-]; by apply kept_same.
  - intros [(_ & _ & _ & ? & ? & _)|(e & _ & ->)]%start_download_cases; by apply kept_same.
  - intros (_ & ? & ? & _)%process_chunk_cases. by apply kept_same.
  - unfold OtaManager.verify_update. case_decide; [destruct (_ || _)|]; intros [= <- <-]; by apply kept_same.
  - unfold OtaManager.install_update. case_decide; intros [= <- <-]; by apply kept_same.
  - unfold OtaManager.activate_update. case_decide; [|intros [= <- <-]; by apply kept_same]. destruct (inactive_dual m Ha) as (t & Et & Hne & Ht).
    change (OtaManager.get_inactive_partition (OtaManager.enter Activating m)) with (OtaManager.get_inactive_partition m). rewrite Et. intros [= <- <-].
    apply (switch_kept m _ t (PartitionInfo.set_state Inactive) (PartitionInfo.set_pending v)); try done. by apply update_parts, update_parts.
  - unfold OtaManager.confirm_update. destruct (OtaManager.get_partition _ _) as [p|]; [|intros [= <- <-]; by apply kept_same]. case_decide; intros [= <- <-]; [|by apply kept_same].
    apply (active_kept m _ (PartitionInfo.set_state Active)); try done. apply update_active.
  - unfold OtaManager.rollback. destruct (inactive_dual m Ha) as (t & Et & Hne & Ht).
    change (OtaManager.get_inactive_partition (OtaManager.enter RollingBack m)) with (OtaManager.get_inactive_partition m). rewrite Et.
    set (m1 := OtaManager.update_partition _ (PartitionInfo.set_state Invalid) _).
    assert (partitions m1 = partitions (OtaManager.update_partition (active_partition m) (PartitionInfo.set_state Invalid) m)) as E1 by by apply update_parts.
    destruct (OtaManager.get_partition t m1) as [p|] eqn:Ep; [case_decide|]; intros [= <- <-].
    + apply (switch_kept m _ t (PartitionInfo.set_state Invalid) (PartitionInfo.set_state Active)); try done. by apply update_parts.
    + apply (active_kept m _ (PartitionInfo.set_state Invalid)); try done. unfold m1. by rewrite update_active.
    + apply (switch_kept m _ t (PartitionInfo.set_state Invalid) (λ p, p)); try done. simpl. rewrite E1. unfold OtaManager.update_partition at 2.
      unfold OtaManager.get_partition in Ep. rewrite E1 in Ep. by destruct (list_find (λ p, id p = t) _) as [[? ?]|].
  - intros [= <- <-]. by apply kept_same.
  - intros [= <- <-]. by apply kept_same.
Qed.

Lemma run_kept cs : ∀ m log log' m', layout_ok m → dual m → Forall (λ c, registers c = false) cs → call_run cs m log = Ret (log', m') → layout_kept m m'.
Proof.
  induction cs as [|c cs IH]; intros m log log' m' Hl Ha Hc; cbn [call_run]; [intros [= <- <-]; by apply kept_same|]. inversion_clear Hc as [|? ? Hc1 Hc2].
  destruct (call_step c m) as [[r m1]| |] eqn:E; [|done..]. cbn [obind]. intros Hr. destruct (step_kept _ _ _ _ Hl Ha Hc1 E) as [L1 D1 I1 O1]. destruct (IH _ _ _ _ L1 D1 Hc2 Hr) as [L2 D2 I2 O2].
  split; [done|done|congruence|]. intros p HA HB. by rewrite O2, O1.
Qed.

(** At most one partition is ever marked as running, and it is the active one;
    updates only touch the partitions A and B, so that recovery and factory stay as they
    are; the device always runs from A or B. *)
Theorem one_partition_runs m cs log m' :
  layout_ok m → dual m → Forall (λ c, registers c = false) cs → call_run cs m [] = Ret (log, m') →
  count_if bootable (partitions m') <= 1 ∧ (∀ p, p ∈ partitions m' → bootable p = true → id p = active_partition m') ∧ dual m' ∧
  ∀ p, id p = Recovery ∨ id p = Factory → (p ∈ partitions m' ↔ p ∈ partitions m).
Proof.
  intros Hl Ha Hc Hr. destruct (run_kept _ _ _ _ _ Hl Ha Hc Hr) as [[Hd Hrun] D _ O]. split_and!; [|done|done|intros p [E|E]; apply O; rewrite E; done].
  clear -Hd Hrun. revert Hd Hrun. generalize (active_partition m'), (partitions m'). intros a ps. induction ps as [|p ps IH]; intros Hd Hrun; [done|]. cbn [fmap list_fmap] in Hd. apply NoDup_cons in Hd as [Hn Hd].
  rewrite count_if_cons. destruct (bootable p) eqn:Eb; [|specialize (IH Hd); lapply IH; [lia|]; intros q Hq; apply Hrun; by right]. rewrite count_if_none; [lia|]. intros j q Hq. apply not_true_iff_false. intros Eq. destruct Hn.
  apply list_elem_of_fmap. exists q. split; [|by eapply list_elem_of_lookup_2]. rewrite (Hrun p) by (done || left). symmetry. apply Hrun; [right; by eapply list_elem_of_lookup_2|done].
Qed.

(** ** Rollback and confirmation *)

Lemma get_update i j f m : NoDup (id <$> partitions m) → (∀ p, id (f p) = id p) →
  OtaManager.get_partition j (OtaManager.update_partition i f m) = if decide (i = j) then f <$> OtaManager.get_partition j m else OtaManager.get_partition j m.
Proof.
  intros Hd Hf. apply option_eq. intros p. rewrite get_partition_some by by rewrite update_partition_ids. rewrite update_partition_elem by done. case_decide as E.
  - subst j. rewrite fmap_Some. setoid_rewrite get_partition_some; [|done]. split; [intros [[[? ?]|(p0 & ? & ? & ->)] ?]; [done|by exists p0]|]. intros (p0 & [? ?] & ->). rewrite Hf. split; [right; by exists p0|done].
  - rewrite get_partition_some by done. split; [intros [[[? ?]|(p0 & ? & ? & ->)] Hi]; [done|]; rewrite Hf in Hi; congruence|]. intros [? ?]. split; [left; split; congruence|done].
Qed.

Lemma get_parts i m1 m2 : partitions m1 = partitions m2 → OtaManager.get_partition i m1 = OtaManager.get_partition i m2.
Proof. intros E. unfold OtaManager.get_partition. by rewrite E. Qed.

(** What [activate_update] makes of a device with both partitions. *)
Lemma activate_spec m v t pa pb :
  layout_ok m → OtaManager.get_inactive_partition m = Some t → t ≠ active_partition m → ota_state m = Ready →
  OtaManager.get_partition (active_partition m) m = Some pa → OtaManager.get_partition t m = Some pb →
  ∃ m', OtaManager.activate_update v m = (Ok (), m') ∧ active_partition m' = t ∧ current_version m' = current_version m ∧ NoDup (id <$> partitions m') ∧ boot_counter m' = 0 ∧
    OtaManager.get_partition (active_partition m) m' = Some (PartitionInfo.set_state Inactive pa) ∧ OtaManager.get_partition t m' = Some (PartitionInfo.set_pending v pb).
Proof.
  intros [Hd Hr] Et Hne Hs Ea Eb. unfold OtaManager.activate_update. rewrite decide_True by done. change (OtaManager.get_inactive_partition (OtaManager.enter Activating m)) with (OtaManager.get_inactive_partition m). rewrite Et.
  set (m1 := OtaManager.update_partition _ _ (OtaManager.enter Activating m)). set (m2 := OtaManager.update_partition t _ m1). assert (NoDup (id <$> partitions m1)) as Hd1 by (unfold m1; by rewrite update_partition_ids).
  eexists. split; [done|]. cbn [active_partition current_version partitions boot_counter]. split_and!; [done|unfold m2, m1; by rewrite !update_current|unfold m2; by rewrite update_partition_ids|done|..].
  - rewrite (get_parts _ _ m2) by done. unfold m2. rewrite get_update by done. rewrite decide_False by done. unfold m1. rewrite get_update by done. rewrite decide_True by done. by rewrite (get_parts _ _ m), Ea by done.
  - rewrite (get_parts _ _ m2) by done. unfold m2. rewrite get_update by done. rewrite decide_True by done. unfold m1. rewrite get_update by done. rewrite decide_False by done. by rewrite (get_parts _ _ m), Eb by done.
Qed.

Fixpoint boots (n : nat) m : OtaManager := match n with O => m | S n' => boots n' (OtaManager.increment_boot_counter m) end.

Lemma boots_frame n : ∀ m, partitions (boots n m) = partitions m ∧ active_partition (boots n m) = active_partition m ∧ current_version (boots n m) = current_version m ∧ ota_state (boots n m) = ota_state m.
Proof. induction n as [|n IH]; intros m; [done|]. cbn [boots]. by destruct (IH (OtaManager.increment_boot_counter m)) as (-> & -> & -> & ->). Qed.

(** A failed update can be undone: an update that is activated, booted any number of
    times and rolled back leaves the device on the partition it came from, with the
    firmware that was there, the version it had, and the failed partition marked as
    invalid. *)
Theorem rollback_restores m v n t pa pb :
  layout_ok m → OtaManager.get_inactive_partition m = Some t → ota_state m = Ready →
  OtaManager.get_partition (active_partition m) m = Some pa → OtaManager.get_partition t m = Some pb →
  let '(r1, m1) := OtaManager.activate_update v m in
  let '(r2, m2) := OtaManager.rollback (boots n m1) in
  r1 = Ok () ∧ r2 = Ok () ∧ active_partition m2 = active_partition m ∧ current_version m2 = current_version m ∧ ota_state m2 = Idle ∧
  OtaManager.get_partition (active_partition m) m2 = Some (PartitionInfo.set_state Active pa) ∧ OtaManager.get_partition t m2 = Some (PartitionInfo.set_state Invalid (PartitionInfo.set_pending v pb)).
Proof.
  intros Hl Et Hs Ea Eb. assert (t ≠ active_partition m) as Hne by (unfold OtaManager.get_inactive_partition in Et; destruct (active_partition m); congruence).
  destruct (activate_spec m v t pa pb Hl Et Hne Hs Ea Eb) as (m1 & -> & Ha1 & Hc1 & Hd1 & _ & Ga & Gb). destruct (boots_frame n m1) as (Fp & Fa & Fc & _). unfold OtaManager.rollback. set (m2 := OtaManager.enter RollingBack (boots n m1)).
  assert (OtaManager.get_inactive_partition m2 = Some (active_partition m)) as ->.
  { unfold OtaManager.get_inactive_partition in *. unfold m2. simpl. rewrite Fa, Ha1. revert Et. destruct (active_partition m); by intros [= <-]. }
  assert (active_partition m2 = t) as -> by (unfold m2; simpl; congruence). assert (partitions m2 = partitions m1) as Ep by (unfold m2; simpl; congruence).
  set (m3 := OtaManager.update_partition t _ m2). assert (NoDup (id <$> partitions m2)) as Hd2 by by rewrite Ep. assert (NoDup (id <$> partitions m3)) as Hd3 by (unfold m3; by rewrite update_partition_ids).
  assert (OtaManager.get_partition (active_partition m) m3 = Some (PartitionInfo.set_state Inactive pa)) as ->.
  { unfold m3. rewrite get_update, decide_False by done. by rewrite (get_parts _ _ m1). }
  rewrite decide_True by done. set (m4 := OtaManager.update_partition (active_partition m) _ m3). cbn [active_partition current_version ota_state]. split_and!; [done|done|done| |done|..].
  - unfold m4, m3. rewrite !update_current. unfold m2. simpl. congruence.
  - rewrite (get_parts _ _ m4) by done. unfold m4. rewrite get_update, decide_True by done. unfold m3. rewrite get_update, decide_False by done. by rewrite (get_parts _ _ m1), Ga.
  - rewrite (get_parts _ _ m4) by done. unfold m4. rewrite get_update, decide_False by done. unfold m3. rewrite get_update, decide_True by done. by rewrite (get_parts _ _ m1), Gb.
Qed.

(** An update that is confirmed after it was activated is the running one. *)
Theorem confirm_commits m v n t pa pb :
  layout_ok m → OtaManager.get_inactive_partition m = Some t → ota_state m = Ready →
  OtaManager.get_partition (active_partition m) m = Some pa → OtaManager.get_partition t m = Some pb →
  let '(_, m1) := OtaManager.activate_update v m in
  let '(r, m2) := OtaManager.confirm_update (boots n m1) in
  r = Ok () ∧ active_partition m2 = t ∧ current_version m2 = v ∧ ota_state m2 = Idle ∧ boot_counter m2 = 0 ∧
  OtaManager.get_partition t m2 = Some (PartitionInfo.set_state Active (PartitionInfo.set_pending v pb)).
Proof.
  intros Hl Et Hs Ea Eb. assert (t ≠ active_partition m) as Hne by (unfold OtaManager.get_inactive_partition in Et; destruct (active_partition m); congruence).
  destruct (activate_spec m v t pa pb Hl Et Hne Hs Ea Eb) as (m1 & -> & Ha1 & Hc1 & Hd1 & _ & Ga & Gb). destruct (boots_frame n m1) as (Fp & Fa & Fc & _). unfold OtaManager.confirm_update. rewrite Fa, Ha1.
  rewrite (get_parts _ (boots n m1) m1), Gb by done. rewrite decide_True by done. set (m2 := OtaManager.update_partition t _ _). assert (NoDup (id <$> partitions (boots n m1))) as Hd2 by by rewrite Fp.
  cbn [active_partition current_version ota_state boot_counter]. split_and!; [done|unfold m2; rewrite update_active; congruence|done|done|done|]. rewrite (get_parts _ _ m2) by done. unfold m2. rewrite get_update, decide_True by done.
  by rewrite (get_parts _ _ m1), Gb.
Qed.

(** ** Findings *)

Definition v100 : Version := mkVersion 1 0 0 0.
Definition v101 : Version := mkVersion 1 0 1 0.
(** A device that runs version 1.0.0 from A, with an empty partition B. *)
Definition device : OtaManager :=
  mkManager v100 A [mkPartition A Active (Some v100) 1000 400 0; PartitionInfo.new B 1000 1000] Coap Idle OtaProgress.new 0.
Definition update : UpdateMetadata := mkMetadata v101 500 Full Sha256 Ed25519 None 500.
Definition ready_device : OtaManager :=
  match call_run [Start update; Chunk (repeat 7 500) 0; Verify [1] [2] [3]; Install] device [] with Ret (_, m) => m | _ => device end.

(** A rollback after the update was confirmed goes back to the old firmware and keeps the
    new version number. *)
Lemma rollback_keeps_version :
  returns (call_run [Activate v101; Confirm; Rollback] ready_device []) (λ '(log, m),
    snd <$> log = [Ok (); Ok (); Ok ()] ∧ active_partition m = A ∧ (version <$> OtaManager.get_partition A m) = Some (Some v100) ∧ current_version m = v101).
Proof. by vm_compute. Qed.

(** A rollback when there was no update activates a partition without firmware. *)
Lemma rollback_to_nothing :
  let '(r, m) := OtaManager.rollback device in
  r = Ok () ∧ active_partition m = B ∧ (version <$> OtaManager.get_partition B m) = Some None ∧ (state <$> OtaManager.get_partition A m) = Some Invalid.
Proof. by vm_compute. Qed.

(** A second rollback marks the last good partition as invalid before it finds that there
    is nothing to go back to; nothing is left to boot from, and the manager stays in the
    state of rolling back. *)
Lemma second_rollback_invalidates :
  returns (call_run [Activate v101; Rollback; Rollback] ready_device []) (λ '(log, m),
    head log = Some (Rollback, Err RollbackFailed) ∧ count_if bootable (partitions m) = 0 ∧ (state <$> partitions m) = [Invalid; Invalid] ∧ ota_state m = RollingBack).
Proof. by vm_compute. Qed.

(** The version that is activated is not compared with the one that was downloaded. *)
Lemma activates_any_version :
  let '(r, m) := OtaManager.activate_update (mkVersion 9 0 0 0) ready_device in r = Ok () ∧ (version <$> OtaManager.get_partition B m) = Some (Some (mkVersion 9 0 0 0)).
Proof. by vm_compute. Qed.

(** A chunk past the end is accepted, and the percentage wraps around. *)
Lemma percentage_wraps :
  returns (call_run [Start update; Chunk [0] 1499] device []) (λ '(log, m), snd <$> log = [Ok (); Ok ()] ∧ bytes_downloaded (progress m) = 1500 ∧ percentage (progress m) = 44).
Proof. by vm_compute. Qed.

(** Nothing has to be downloaded for an update to be verified, installed and activated. *)
Lemma verifies_nothing :
  returns (call_run [Start update; Verify [1] [2] [3]; Install; Activate v101] device []) (λ '(log, m), snd <$> log = [Ok (); Ok (); Ok (); Ok ()] ∧ bytes_downloaded (progress m) = 0).
Proof. by vm_compute. Qed.

(** ** Witnesses *)

Lemma device_layout : layout_ok device.
Proof.
  split.
  - apply NoDup_cons. split; [|apply NoDup_singleton]. intros Hin%list_elem_of_singleton. done.
  - intros p [->| [-> | []%not_elem_of_nil]%elem_of_cons]%elem_of_cons; done.
Qed.

Lemma activation_in_order_witness :
  let cs := [Register (PartitionInfo.new B 1000 0); Start update; Verify [1] [2] [3]; Install] in
  ∃ log m m', call_run cs (OtaManager.new v100 A Coap) [] = Ret (log, m) ∧ stage_of log = Installed update [1] [2] [3] ∧
    OtaManager.activate_update v101 m = (Ok (), m') ∧ is_compatible_with (update_version update) (current_version m) = true.
Proof.
  destruct (call_run [Register (PartitionInfo.new B 1000 0); Start update; Verify [1] [2] [3]; Install] (OtaManager.new v100 A Coap) []) as [[log m]| |] eqn:E; [|by vm_compute in E..].
  destruct (activation_in_order v100 A Coap [Register (PartitionInfo.new B 1000 0); Start update; Verify [1] [2] [3]; Install] v101 log m E) as [Hact Hin].
  assert (stage_of log = Installed update [1] [2] [3] ∧ active_partition m = A) as [Hst Hab] by (vm_compute in E; injection E as <- <-; split; reflexivity).
  destruct (proj2 Hact) as [m' Hm']; [split; [eauto|by left]|].
  exists log, m, m'. split; [exact E|]. split; [exact Hst|]. split; [exact Hm'|]. apply (Hin _ _ _ _ Hst).
Defined.

Lemma one_partition_runs_witness :
  returns (call_run [Start update; Verify [1] [2] [3]; Install; Activate v101; Rollback; Rollback; Cancel; Confirm] device []) (λ '(_, m'), count_if bootable (partitions m') <= 1).
Proof.
  destruct (call_run [Start update; Verify [1] [2] [3]; Install; Activate v101; Rollback; Rollback; Cancel; Confirm] device []) as [[log m']| |] eqn:E; [|by vm_compute in E..].
  cbn [returns]. apply (one_partition_runs device [Start update; Verify [1] [2] [3]; Install; Activate v101; Rollback; Rollback; Cancel; Confirm] log m' device_layout); [by left|by repeat constructor|done].
Defined.

Lemma ready_layout : layout_ok ready_device.
Proof.
  split.
  - apply NoDup_cons. split; [|apply NoDup_singleton]. intros Hin%list_elem_of_singleton. done.
  - intros p [->| [-> | []%not_elem_of_nil]%elem_of_cons]%elem_of_cons; done.
Qed.

Lemma rollback_restores_witness :
  let '(r1, m1) := OtaManager.activate_update v101 ready_device in
  let '(r2, m2) := OtaManager.rollback (boots 3 m1) in
  r1 = Ok () ∧ r2 = Ok () ∧ active_partition m2 = A ∧ current_version m2 = v100.
Proof.
  pose proof (rollback_restores ready_device v101 3 B _ _ ready_layout eq_refl eq_refl eq_refl eq_refl) as Hr.
  destruct (OtaManager.activate_update v101 ready_device) as [r1 m1]. destruct (OtaManager.rollback (boots 3 m1)) as [r2 m2]. destruct Hr as (? & ? & ? & ? & _). done.
Defined.
