(* ===== verification/Lorawan.v ===== *)
(** * LoRaWAN (mielin-rt/src/lorawan.rs)

    Headers, frames, the join procedure and the frame counters of a device.  Fixed
    arrays are lists of bytes; the vectors of fixed capacity are those of [Heapless]. *)

From stdpp Require Import base tactics option list numbers.
From S2P Require Import Prelude Bytes Heapless.

(* src: mielin-rt/src/lorawan.rs 44-44 MAX_PAYLOAD_SIZE *)
Definition MAX_PAYLOAD_SIZE : Z := 242.
(* src: mielin-rt/src/lorawan.rs 47-47 MAX_MAC_COMMANDS_SIZE *)
Definition MAX_MAC_COMMANDS_SIZE : Z := 15.
(* src: mielin-rt/src/lorawan.rs 59-59 DEV_ADDR_LENGTH *)
Definition DEV_ADDR_LENGTH : Z := 4.
(* src: mielin-rt/src/lorawan.rs 50-50 DEV_EUI_LENGTH *)
Definition DEV_EUI_LENGTH : Z := 8.

(* src: mielin-rt/src/lorawan.rs 69-84 DeviceClass *)
Inductive DeviceClass : Type := ClassA | ClassB | ClassC.
(* src: mielin-rt/src/lorawan.rs 88-98 ActivationMode *)
Inductive ActivationMode : Type := OTAA | ABP.
(* src: mielin-rt/src/lorawan.rs 103-118 MessageType *)
Inductive MessageType : Type := JoinRequestType | JoinAccept | UnconfirmedDataUp | UnconfirmedDataDown | ConfirmedDataUp | ConfirmedDataDown | Proprietary.
(* src: mielin-rt/src/lorawan.rs 734-755 LoRaWANError *)
Inductive LoRaWANError : Type :=
| InvalidMessageType | InvalidActivationMode | BufferTooSmall | MessageTooShort | PayloadTooLarge | TooManyMacCommands | MissingCredentials | NotJoined | InvalidMic | FrameCounterOverflow.

#[export] Instance ActivationMode_eq_dec : EqDecision ActivationMode.
Proof. solve_decision. Defined.

Module MessageType.

(* src: mielin-rt/src/lorawan.rs 122-133 MessageType::from_u8 *)
Definition from_u8 (value : Z) : result MessageType LoRaWANError :=
  match Z.land value 7 with
  | 0 => Ok JoinRequestType
  | 1 => Ok JoinAccept
  | 2 => Ok UnconfirmedDataUp
  | 3 => Ok UnconfirmedDataDown
  | 4 => Ok ConfirmedDataUp
  | 5 => Ok ConfirmedDataDown
  | 7 => Ok Proprietary
  | _ => Err InvalidMessageType
  end.
(* src: mielin-rt/src/lorawan.rs 136-138 MessageType::to_u8 *)
Definition to_u8 (self : MessageType) : Z :=
  match self with JoinRequestType => 0 | JoinAccept => 1 | UnconfirmedDataUp => 2 | UnconfirmedDataDown => 3 | ConfirmedDataUp => 4 | ConfirmedDataDown => 5 | Proprietary => 7 end.
(* src: mielin-rt/src/lorawan.rs 141-148 MessageType::is_uplink *)
Definition is_uplink (self : MessageType) : bool := match self with JoinRequestType | UnconfirmedDataUp | ConfirmedDataUp => true | _ => false end.
(* src: mielin-rt/src/lorawan.rs 151-158 MessageType::is_downlink *)
Definition is_downlink (self : MessageType) : bool := match self with JoinAccept | UnconfirmedDataDown | ConfirmedDataDown => true | _ => false end.
(* src: mielin-rt/src/lorawan.rs 161-166 MessageType::is_confirmed *)
Definition is_confirmed (self : MessageType) : bool := match self with ConfirmedDataUp | ConfirmedDataDown => true | _ => false end.

End MessageType.

(* src: mielin-rt/src/lorawan.rs 171-176 MacHeader *)
Record MacHeader : Type := mkMac { mtype : MessageType; major : Z }.

Module MacHeader.

(* src: mielin-rt/src/lorawan.rs 180-185 MacHeader::new *)
Definition new (t : MessageType) : MacHeader := mkMac t 0.
(* src: mielin-rt/src/lorawan.rs 188-190 MacHeader::encode *)
Definition encode (self : MacHeader) : Z := Z.lor (as_u8 (Z.shiftl (MessageType.to_u8 (mtype self)) 5)) (Z.land (major self) 3).
(* src: mielin-rt/src/lorawan.rs 193-198 MacHeader::decode *)
Definition decode (byte : Z) : result MacHeader LoRaWANError :=
  match MessageType.from_u8 (Z.shiftr byte 5) with
  | Ok t => Ok (mkMac t (Z.land byte 3))
  | Err e => Err e
  end.

End MacHeader.

(* src: mielin-rt/src/lorawan.rs 203-214 FCtrlUplink *)
Record FCtrlUplink : Type := mkCtrl { adr : bool; adr_ack_req : bool; ack : bool; f_pending : bool; f_opts_len : Z }.

Module FCtrlUplink.

(* src: mielin-rt/src/lorawan.rs 218-226 FCtrlUplink::new *)
Definition new : FCtrlUplink := mkCtrl false false false false 0.
(* src: mielin-rt/src/lorawan.rs 229-246 FCtrlUplink::encode *)
Definition encode (self : FCtrlUplink) : Z :=
  let byte := 0 in
  let byte := if adr self then Z.lor byte 128 else byte in
  let byte := if adr_ack_req self then Z.lor byte 64 else byte in
  let byte := if ack self then Z.lor byte 32 else byte in
  let byte := if f_pending self then Z.lor byte 16 else byte in
  Z.lor byte (Z.land (f_opts_len self) 15).
(* src: mielin-rt/src/lorawan.rs 249-257 FCtrlUplink::decode *)
Definition decode (byte : Z) : FCtrlUplink :=
  mkCtrl (negb (Z.land byte 128 =? 0)) (negb (Z.land byte 64 =? 0)) (negb (Z.land byte 32 =? 0)) (negb (Z.land byte 16 =? 0)) (Z.land byte 15).

End FCtrlUplink.

(** [x.to_le_bytes()] and [u16::from_le_bytes]. *)
Definition le_bytes (x : Z) : list Z := [as_u8 x; as_u8 (Z.shiftr x 8)].
Definition of_le_bytes (lo hi : Z) : Z := Z.lor (as_u16 (Z.shiftl hi 8)) lo.

Section lorawan.
Context `{Heapless}.

(* src: mielin-rt/src/lorawan.rs 268-277 FrameHeader *)
Record FrameHeader : Type := mkHeader { dev_addr : list Z; f_ctrl : FCtrlUplink; f_cnt : Z; f_opts : Vec Z MAX_MAC_COMMANDS_SIZE }.

(* src: mielin-rt/src/lorawan.rs 281-288 FrameHeader::new *)
Definition header_new (addr : list Z) (cnt : Z) : FrameHeader := mkHeader addr FCtrlUplink.new cnt vec_new.

(** [self.f_ctrl.f_opts_len = self.f_opts.len() as u8]. *)
Definition with_opts_len (self : FrameHeader) : FrameHeader :=
  let c := f_ctrl self in
  mkHeader (dev_addr self) (mkCtrl (adr c) (adr_ack_req c) (ack c) (f_pending c) (as_u8 (vlen (f_opts self)))) (f_cnt self) (f_opts self).

(** The header keeps the length of its options, also when the encoding fails later. *)
(* src: mielin-rt/src/lorawan.rs 291-318 FrameHeader::encode *)
Definition header_encode (self : FrameHeader) : outcome (result (Vec Z 23) LoRaWANError) * FrameHeader :=
  let self' := with_opts_len self in
  (let? b := ok_or BufferTooSmall (vec_extend (vec_new : Vec Z 23) (dev_addr self)) in
   let? b := ok_or BufferTooSmall (vec_push b (FCtrlUplink.encode (f_ctrl self'))) in
   let? b := ok_or BufferTooSmall (vec_extend b (le_bytes (f_cnt self))) in
   ok_or BufferTooSmall (vec_extend b (vec_slice (f_opts self))),
   match vec_extend (vec_new : Vec Z 23) (dev_addr self) with Some _ => self' | None => self end).

(* src: mielin-rt/src/lorawan.rs 321-355 FrameHeader::decode *)
Definition header_decode (bytes : list Z) : outcome (result (FrameHeader * Z) LoRaWANError) :=
  if zlen bytes <? 7 then Ret (Err MessageTooShort)
  else
    let! addr := slice bytes 0 4 in
    let! b4 := arr_get bytes 4 in
    let c := FCtrlUplink.decode b4 in
    let! b5 := arr_get bytes 5 in
    let! b6 := arr_get bytes 6 in
    let cnt := of_le_bytes b5 b6 in
    let n := f_opts_len c in
    if zlen bytes <? 7 + n then Ret (Err MessageTooShort)
    else
      let! o := slice bytes 7 (7 + n) in
      let? opts := ok_or TooManyMacCommands (vec_extend (vec_new : Vec Z MAX_MAC_COMMANDS_SIZE) o) in
      Ret (Ok (mkHeader addr c cnt opts, 7 + n)).

(* src: mielin-rt/src/lorawan.rs 360-367 JoinRequest *)
Record JoinRequest : Type := mkJoin { app_eui : list Z; dev_eui : list Z; join_nonce : Z }.

(* src: mielin-rt/src/lorawan.rs 384-403 JoinRequest::encode *)
Definition join_encode (self : JoinRequest) : Vec Z 23 :=
  let b := keep vec_new (vec_push (vec_new : Vec Z 23) (MacHeader.encode (MacHeader.new JoinRequestType))) in
  let b := keep b (vec_extend b (app_eui self)) in
  let b := keep b (vec_extend b (dev_eui self)) in
  keep b (vec_extend b (le_bytes (join_nonce self))).

(* src: mielin-rt/src/lorawan.rs 408-417 DataFrame *)
Record DataFrame : Type := mkFrame { mhdr : MacHeader; fhdr : FrameHeader; f_port : option Z; frm_payload : Vec Z MAX_PAYLOAD_SIZE }.

(* src: mielin-rt/src/lorawan.rs 421-428 DataFrame::new *)
Definition frame_new (t : MessageType) (addr : list Z) (cnt : Z) : DataFrame := mkFrame (MacHeader.new t) (header_new addr cnt) None vec_new.
(* src: mielin-rt/src/lorawan.rs 431-434 DataFrame::with_port *)
Definition with_port (port : Z) (self : DataFrame) : DataFrame := mkFrame (mhdr self) (fhdr self) (Some port) (frm_payload self).
(* src: mielin-rt/src/lorawan.rs 437-443 DataFrame::with_payload *)
Definition with_payload (payload : list Z) (self : DataFrame) : outcome (result DataFrame LoRaWANError) :=
  let? p := ok_or PayloadTooLarge (vec_extend (vec_clear (frm_payload self)) payload) in
  Ret (Ok (mkFrame (mhdr self) (fhdr self) (f_port self) p)).

(* src: mielin-rt/src/lorawan.rs 446-475 DataFrame::encode *)
Definition frame_encode (self : DataFrame) : outcome (result (Vec Z 255) LoRaWANError) :=
  let? b := ok_or BufferTooSmall (vec_push (vec_new : Vec Z 255) (MacHeader.encode (mhdr self))) in
  let? h := (header_encode (fhdr self)).1 in
  let? b := ok_or BufferTooSmall (vec_extend b (vec_slice h)) in
  let? b := match f_port self with Some port => ok_or BufferTooSmall (vec_push b port) | None => Ret (Ok b) end in
  ok_or BufferTooSmall (vec_extend b (vec_slice (frm_payload self))).

(* src: mielin-rt/src/lorawan.rs 480-501 DeviceConfig *)
Record DeviceConfig : Type := mkDeviceConfig {
  device_class : DeviceClass;
  activation_mode : ActivationMode;
  cfg_dev_eui : option (list Z);
  cfg_app_eui : option (list Z);
  app_key : option (list Z);
  cfg_dev_addr : option (list Z);
  nwk_skey : option (list Z);
  app_skey : option (list Z);
  adr_enabled : bool;
  confirmed : bool;
}.

(* src: mielin-rt/src/lorawan.rs 505-523 DeviceConfig::new_otaa *)
Definition config_otaa (c : DeviceClass) (dev app key : list Z) : DeviceConfig := mkDeviceConfig c OTAA (Some dev) (Some app) (Some key) None None None true false.
(* src: mielin-rt/src/lorawan.rs 526-544 DeviceConfig::new_abp *)
Definition config_abp (c : DeviceClass) (addr nwk app : list Z) : DeviceConfig := mkDeviceConfig c ABP None None None (Some addr) (Some nwk) (Some app) true false.

Definition given {A} (o : option A) : bool := match o with Some _ => true | None => false end.
(* src: mielin-rt/src/lorawan.rs 547-549 DeviceConfig::is_activated *)
Definition is_activated (self : DeviceConfig) : bool := given (cfg_dev_addr self) && given (nwk_skey self) && given (app_skey self).

(* src: mielin-rt/src/lorawan.rs 554-565 LoRaWANDevice *)
Record LoRaWANDevice : Type := mkDevice { config : DeviceConfig; f_cnt_up : Z; f_cnt_down : Z; dev_nonce : Z; joined : bool }.

(* src: mielin-rt/src/lorawan.rs 569-582 LoRaWANDevice::new_otaa *)
Definition new_otaa (c : DeviceClass) (dev app key : list Z) : LoRaWANDevice := mkDevice (config_otaa c dev app key) 0 0 1 false.
(* src: mielin-rt/src/lorawan.rs 585-598 LoRaWANDevice::new_abp *)
Definition new_abp (c : DeviceClass) (addr nwk app : list Z) : LoRaWANDevice := mkDevice (config_abp c addr nwk app) 0 0 0 true.

(* src: mielin-rt/src/lorawan.rs 601-619 LoRaWANDevice::generate_join_request *)
Definition generate_join_request (self : LoRaWANDevice) : result (Vec Z 23) LoRaWANError * LoRaWANDevice :=
  if decide (activation_mode (config self) = OTAA) then
    match cfg_app_eui (config self), cfg_dev_eui (config self) with
    | Some app, Some dev =>
      (Ok (join_encode (mkJoin app dev (dev_nonce self))), mkDevice (config self) (f_cnt_up self) (f_cnt_down self) (as_u16 (dev_nonce self + 1)) (joined self))
    | _, _ => (Err MissingCredentials, self)
    end
  else (Err InvalidActivationMode, self).

(* src: mielin-rt/src/lorawan.rs 622-636 LoRaWANDevice::handle_join_accept *)
Definition handle_join_accept (addr nwk app : list Z) (self : LoRaWANDevice) : result unit LoRaWANError * LoRaWANDevice :=
  let c := config self in
  (Ok (), mkDevice (mkDeviceConfig (device_class c) (activation_mode c) (cfg_dev_eui c) (cfg_app_eui c) (app_key c) (Some addr) (Some nwk) (Some app) (adr_enabled c) (confirmed c)) 0 0 (dev_nonce self) true).

(** The body of both kinds of sending: the result with the device afterwards, or a panic. *)
Definition send (t : MessageType) (port : Z) (payload : list Z) (self : LoRaWANDevice) : outcome (result (Vec Z 255) LoRaWANError * LoRaWANDevice) :=
  if negb (joined self) then Ret (Err NotJoined, self)
  else
    match cfg_dev_addr (config self) with
    | None => Ret (Err NotJoined, self)
    | Some addr =>
      let! r := with_payload payload (with_port port (frame_new t addr (as_u16 (f_cnt_up self)))) in
      match r with
      | Err e => Ret (Err e, self)
      | Ok frame =>
        let h := fhdr frame in let c := f_ctrl h in
        let h := mkHeader (dev_addr h) (mkCtrl (adr_enabled (config self)) (adr_ack_req c) (ack c) (f_pending c) (f_opts_len c)) (f_cnt h) (f_opts h) in
        let! n := u32_add (f_cnt_up self) 1 in
        let! r := frame_encode (mkFrame (mhdr frame) h (f_port frame) (frm_payload frame)) in
        Ret (r, mkDevice (config self) n (f_cnt_down self) (dev_nonce self) (joined self))
      end
    end.

(* src: mielin-rt/src/lorawan.rs 639-664 LoRaWANDevice::send_unconfirmed *)
Definition send_unconfirmed (port : Z) (payload : list Z) (self : LoRaWANDevice) : outcome (result (Vec Z 255) LoRaWANError * LoRaWANDevice) := send UnconfirmedDataUp port payload self.
(* src: mielin-rt/src/lorawan.rs 667-689 LoRaWANDevice::send_confirmed *)
Definition send_confirmed (port : Z) (payload : list Z) (self : LoRaWANDevice) : outcome (result (Vec Z 255) LoRaWANError * LoRaWANDevice) := send ConfirmedDataUp port payload self.

(* src: mielin-rt/src/lorawan.rs 717-719 LoRaWANDevice::set_adr *)
Definition set_adr (e : bool) (self : LoRaWANDevice) : LoRaWANDevice :=
  let c := config self in
  mkDevice (mkDeviceConfig (device_class c) (activation_mode c) (cfg_dev_eui c) (cfg_app_eui c) (app_key c) (cfg_dev_addr c) (nwk_skey c) (app_skey c) e (confirmed c))
    (f_cnt_up self) (f_cnt_down self) (dev_nonce self) (joined self).

End lorawan.
