(* ===== verification/LorawanProps.v ===== *)
(** * Theorems about LoRaWAN

    The bytes of the headers and frames, and the numbers of the frames of a session. *)

From stdpp Require Import base tactics option list numbers.
From S2P Require Import Prelude Bytes Heapless Lorawan.

(** ** The bytes of a header *)

Lemma mac_header_read_back t v : 0 <= v <= 3 → MacHeader.decode (MacHeader.encode (mkMac t v)) = Ok (mkMac t v).
Proof. intros Hv. assert (v = 0 ∨ v = 1 ∨ v = 2 ∨ v = 3) as Hv' by lia. destruct_or! Hv'; subst v; by destruct t. Qed.

Lemma sixteen n : 0 <= n <= 15 → n ∈ seqZ 0 16.
Proof. intros. apply elem_of_seqZ. lia. Qed.

Lemma fctrl_read_back c : 0 <= f_opts_len c <= 15 → FCtrlUplink.decode (FCtrlUplink.encode c) = c.
Proof.
  destruct c as [a r k p n]. cbn [f_opts_len]. intros Hn%sixteen.
  assert (Forall (λ n, FCtrlUplink.decode (FCtrlUplink.encode (mkCtrl a r k p n)) = mkCtrl a r k p n) (seqZ 0 16)) as HF.
  { destruct a, r, k, p; vm_compute; repeat constructor. }
  by apply (proj1 (list.Forall_forall _ _) HF).
Qed.

Lemma le_read_back x : 0 <= x <= U16_MAX → of_le_bytes (as_u8 x) (as_u8 (Z.shiftr x 8)) = x.
Proof. intros Hx. unfold of_le_bytes. rewrite be16 by apply as_u8_range. destruct (be16_split x Hx) as [-> ->]. Z.div_mod_to_equations. lia. Qed.

Lemma slice_prefix (l rest : list Z) n : n = zlen l → slice (l ++ rest) 0 n = Ret l.
Proof. intros ->. by apply (slice_app [] l rest). Qed.

Section lorawan.
Context `{HeaplessLaws}.

Implicit Types (h : FrameHeader) (d : LoRaWANDevice).

(** A header as the types of its fields make it. *)
Definition header_ok h : Prop := zlen (dev_addr h) = 4 ∧ 0 <= f_cnt h <= U16_MAX.

Definition header_bytes h : list Z := dev_addr h ++ FCtrlUplink.encode (f_ctrl (with_opts_len h)) :: le_bytes (f_cnt h) ++ vec_slice (f_opts h).

Lemma opts_len h : 0 <= vlen (f_opts h) <= 15.
Proof. pose proof (vec_capacity (f_opts h)). unfold MAX_MAC_COMMANDS_SIZE, vlen in *. lia. Qed.

Lemma header_encode_bytes h : header_ok h → ∃ b, header_encode h = (Ret (Ok b), with_opts_len h) ∧ vec_slice b = header_bytes h.
Proof.
  intros [Ha Hc]. pose proof (opts_len h) as Ho. unfold header_encode.
  destruct (extend_fits (vec_new : Vec Z 23) (dev_addr h)) as (b1 & -> & E1); [unfold vlen; rewrite slice_new; simpl; lia|].
  rewrite slice_new in E1. simpl in E1. cbn [ok_or rbind obind].
  destruct (push_fits b1 (FCtrlUplink.encode (f_ctrl (with_opts_len h)))) as (b2 & -> & E2); [unfold vlen; rewrite E1; lia|]. cbn [ok_or rbind obind].
  destruct (extend_fits b2 (le_bytes (f_cnt h))) as (b3 & -> & E3); [unfold vlen; rewrite E2, E1, length_app; simpl; lia|]. cbn [ok_or rbind obind].
  destruct (extend_fits b3 (vec_slice (f_opts h))) as (b4 & -> & E4); [unfold vlen in *; rewrite E3, E2, E1, !length_app; simpl; lia|].
  exists b4. split; [done|]. rewrite E4, E3, E2, E1. unfold header_bytes. by rewrite <- !app_assoc.
Qed.

(** The header as Rust compares it: the options by their contents. *)
Definition header_eq h h' : Prop := dev_addr h = dev_addr h' ∧ f_ctrl h = f_ctrl h' ∧ f_cnt h = f_cnt h' ∧ vec_slice (f_opts h) = vec_slice (f_opts h').

Lemma header_decode_bytes h rest :
  header_ok h → ∃ h', header_decode (header_bytes h ++ rest) = Ret (Ok (h', 7 + vlen (f_opts h))) ∧ header_eq h' (with_opts_len h).
Proof.
  intros [Ha Hc]. pose proof (opts_len h) as Ho. unfold header_decode.
  assert (length (header_bytes h) = 7 + length (vec_slice (f_opts h)))%nat as Hl by (unfold header_bytes; rewrite length_app; simpl; lia).
  rewrite (proj2 (Z.ltb_ge _ _)) by (rewrite length_app; lia). unfold header_bytes. rewrite <- app_assoc. cbn [app].
  rewrite slice_prefix by lia. cbn [obind]. rewrite arr_get_app by lia. cbn [obind].
  set (c := f_ctrl (with_opts_len h)).
  assert (f_opts_len c = vlen (f_opts h)) as Ec by (unfold c; cbn [with_opts_len f_ctrl f_opts_len]; apply as_u8_small; lia).
  rewrite fctrl_read_back by lia. unfold le_bytes. cbn [app].
  rewrite (cons_middle (FCtrlUplink.encode c)), (app_assoc (dev_addr h)), arr_get_app by (rewrite length_app; simpl; lia). cbn [obind].
  rewrite (cons_middle (as_u8 (f_cnt h))), (app_assoc (dev_addr h ++ _)), arr_get_app by (rewrite !length_app; simpl; lia). cbn [obind].
  rewrite le_read_back, Ec by done. rewrite (cons_middle (as_u8 (Z.shiftr (f_cnt h) 8))), (app_assoc ((dev_addr h ++ _) ++ _)).
  rewrite (proj2 (Z.ltb_ge _ _)) by (unfold vlen; rewrite !length_app; simpl; lia).
  rewrite slice_app by (unfold vlen; rewrite !length_app; simpl; lia). cbn [obind].
  destruct (extend_fits (vec_new : Vec Z MAX_MAC_COMMANDS_SIZE) (vec_slice (f_opts h))) as (o & -> & Eo).
  { unfold vlen in *. rewrite slice_new. unfold MAX_MAC_COMMANDS_SIZE in *. simpl in *. lia. }
  rewrite slice_new in Eo. eexists. split; [done|]. by repeat split.
Qed.

(** A frame header is read back as it was written, with the number of its option
    bytes filled in and its length, whatever follows it in the message. *)
Theorem frame_header_roundtrip h rest :
  header_ok h →
  ∃ b h', header_encode h = (Ret (Ok b), with_opts_len h) ∧
          header_decode (vec_slice b ++ rest) = Ret (Ok (h', zlen (vec_slice b))) ∧ header_eq h' (with_opts_len h).
Proof.
  intros Hh. destruct (header_encode_bytes h Hh) as (b & E & Eb). destruct (header_decode_bytes h rest Hh) as (h' & E' & Hh').
  exists b, h'. split_and!; [done| |done]. rewrite Eb, E'. do 3 f_equal.
  destruct Hh as [Ha _]. unfold vlen, header_bytes. rewrite length_app. simpl. lia.
Qed.

(** ** The bytes of an uplink *)

Definition uplink (t : MessageType) (a : bool) (addr : list Z) (cnt port : Z) (payload : list Z) : list Z :=
  Z.shiftl (MessageType.to_u8 t) 5 :: addr ++ (if a then 128 else 0) :: le_bytes cnt ++ port :: payload.

Definition is_data_up (t : MessageType) : bool := match t with UnconfirmedDataUp | ConfirmedDataUp => true | _ => false end.

Definition counted d (n : Z) : LoRaWANDevice := mkDevice (config d) n (f_cnt_down d) (dev_nonce d) (joined d).

Definition frame_header d (addr : list Z) : FrameHeader :=
  mkHeader addr (mkCtrl (adr_enabled (config d)) false false false 0) (as_u16 (f_cnt_up d)) vec_new.

Lemma empty_opts_len (addr : list Z) c cnt : f_opts_len (f_ctrl (with_opts_len (mkHeader addr c cnt vec_new))) = 0.
Proof. cbn [with_opts_len f_ctrl f_opts_len f_opts]. unfold vlen. by rewrite slice_new. Qed.

Lemma frame_header_bytes d addr :
  header_bytes (frame_header d addr) = addr ++ (if adr_enabled (config d) then 128 else 0) :: le_bytes (as_u16 (f_cnt_up d)).
Proof.
  unfold header_bytes, frame_header. cbn [dev_addr f_cnt f_opts]. rewrite slice_new, app_nil_r. do 2 f_equal.
  unfold FCtrlUplink.encode. rewrite empty_opts_len. cbn [with_opts_len f_ctrl adr adr_ack_req ack f_pending]. by destruct (adr_enabled _).
Qed.

Lemma as_u16_range x : 0 <= as_u16 x <= U16_MAX.
Proof. unfold as_u16. pose proof (Z.mod_pos_bound x 65536). lia. Qed.

(** What a call to [send] does, case by case. *)
Lemma send_cases t port payload d :
  is_data_up t = true → (∀ a, cfg_dev_addr (config d) = Some a → zlen a = 4) → 0 <= f_cnt_up d < U32_MAX →
  match (if joined d then cfg_dev_addr (config d) else None) with
  | None => send t port payload d = Ret (Err NotJoined, d)
  | Some a =>
    if zlen payload <=? MAX_PAYLOAD_SIZE
    then ∃ b, send t port payload d = Ret (Ok b, counted d (f_cnt_up d + 1)) ∧
              vec_slice b = uplink t (adr_enabled (config d)) a (as_u16 (f_cnt_up d)) port payload
    else send t port payload d = Ret (Err PayloadTooLarge, d)
  end.
Proof.
  intros Ht Ha Hc. unfold send. destruct (joined d) eqn:Ej; cbn [negb]; [|done]. destruct (cfg_dev_addr (config d)) as [a|]; [|done]. specialize (Ha a eq_refl).
  unfold with_payload. cbn [frame_new with_port frm_payload]. pose proof (extend_law (vec_clear (vec_new : Vec Z MAX_PAYLOAD_SIZE)) payload) as HE.
  unfold vlen in HE at 1 2. rewrite slice_clear in HE. cbn [length] in HE. assert (MAX_PAYLOAD_SIZE = 242) as HM by done.
  destruct (vec_extend _ payload) as [p|]; destruct (Z.leb_spec (zlen payload) MAX_PAYLOAD_SIZE); try lia; cbn [ok_or rbind obind]; [|done].
  destruct HE as [_ Ep]. rewrite app_nil_l in Ep. cbn [fhdr mhdr f_ctrl dev_addr f_cnt f_opts adr_ack_req ack f_pending f_opts_len f_port frm_payload header_new FCtrlUplink.new].
  rewrite u32_add_ok by lia. cbn [obind]. unfold frame_encode. cbn [with_port frame_new mhdr fhdr f_port frm_payload header_new dev_addr f_ctrl f_cnt f_opts adr_ack_req ack f_pending f_opts_len FCtrlUplink.new].
  destruct (push_fits (vec_new : Vec Z 255) (MacHeader.encode (MacHeader.new t))) as (b1 & -> & E1); [unfold vlen; rewrite slice_new; simpl; lia|].
  rewrite slice_new in E1. simpl in E1. cbn [ok_or rbind obind].
  destruct (header_encode_bytes (frame_header d a)) as (h & Eh & Hh); [split; [done|apply as_u16_range]|]. unfold frame_header in Eh. rewrite Eh. cbn [fst rbind obind].
  rewrite frame_header_bytes in Hh. assert (zlen (vec_slice h) = 7) as Hl by (rewrite Hh, length_app; simpl; lia).
  destruct (extend_fits b1 (vec_slice h)) as (b2 & -> & E2); [unfold vlen; rewrite E1; simpl; lia|]. cbn [ok_or rbind obind].
  destruct (push_fits b2 port) as (b3 & -> & E3); [unfold vlen; rewrite E2, E1, !length_app; simpl; lia|]. cbn [ok_or rbind obind].
  destruct (extend_fits b3 (vec_slice p)) as (b4 & -> & E4); [unfold vlen; rewrite E3, E2, E1, Ep, !length_app; simpl; lia|].
  exists b4. split; [unfold counted; by rewrite Ej|]. rewrite E4, E3, E2, E1, Hh, Ep. unfold uplink. cbn [app]. f_equal; [by destruct t|]. rewrite <- !app_assoc. simpl. done.
Qed.

(** ** Sessions *)

(** [&mut self] is called with arrays of the lengths that the types give. *)
Inductive call : Type :=
| JoinRequest' | Accept (addr nwk app : list Z) (H : zlen addr = 4) | Unconfirmed (port : Z) (payload : list Z) | Confirmed (port : Z) (payload : list Z) | SetAdr (e : bool).

Implicit Types (c : call) (fs : list (list Z)).

(** The bytes of the frames that were sent since the keys were last set. *)
Definition sent (r : result (Vec Z 255) LoRaWANError) fs : list (list Z) := match r with Ok b => fs ++ [vec_slice b] | Err _ => fs end.

Definition call_step c d fs : outcome (LoRaWANDevice * list (list Z)) :=
  match c with
  | JoinRequest' => Ret ((generate_join_request d).2, fs)
  | Accept addr nwk app _ => Ret ((handle_join_accept addr nwk app d).2, [])
  | Unconfirmed port payload => let! (r, d) := send_unconfirmed port payload d in Ret (d, sent r fs)
  | Confirmed port payload => let! (r, d) := send_confirmed port payload d in Ret (d, sent r fs)
  | SetAdr e => Ret (set_adr e d, fs)
  end.

Fixpoint call_run (cs : list call) d fs : outcome (LoRaWANDevice * list (list Z)) :=
  match cs with [] => Ret (d, fs) | c :: cs' => let! (d, fs) := call_step c d fs in call_run cs' d fs end.

(** A frame that a network reads as number [n] of the device at [addr]. *)
Definition reads_as (addr : list Z) (n : Z) (f : list Z) : Prop :=
  ∃ t h k, head f = Some t ∧ (Z.shiftr t 5 = 2 ∨ Z.shiftr t 5 = 4) ∧ header_decode (tail f) = Ret (Ok (h, k)) ∧ dev_addr h = addr ∧ f_cnt h = as_u16 n.

Lemma uplink_reads t a addr n port payload :
  is_data_up t = true → zlen addr = 4 → reads_as addr n (uplink t a addr (as_u16 n) port payload).
Proof.
  intros Ht Ha. unfold reads_as, uplink. cbn [head tail].
  set (h := mkHeader addr (mkCtrl a false false false 0) (as_u16 n) vec_new).
  destruct (header_decode_bytes h (port :: payload)) as (h' & E & H1 & H2 & H3 & H4); [split; [done|apply as_u16_range]|].
  assert (header_bytes h = addr ++ (if a then 128 else 0) :: le_bytes (as_u16 n)) as Eb.
  { unfold header_bytes, h. cbn [dev_addr f_cnt f_opts]. rewrite slice_new, app_nil_r. do 2 f_equal.
    unfold FCtrlUplink.encode. rewrite empty_opts_len. by destruct a. }
  rewrite Eb, <- app_assoc in E. do 3 eexists. split_and!; [done|by destruct t; auto|exact E|done|done].
Qed.

Record session d fs : Prop := {
  ses_addr a : cfg_dev_addr (config d) = Some a → zlen a = 4;
  ses_count : f_cnt_up d = zlen fs;
  ses_frames i f : fs !! i = Some f → ∃ a, cfg_dev_addr (config d) = Some a ∧ reads_as a (Z.of_nat i) f;
}.

Lemma send_session t port payload d fs :
  is_data_up t = true → session d fs → zlen fs < U32_MAX →
  ∃ r d', send t port payload d = Ret (r, d') ∧ session d' (sent r fs) ∧ zlen (sent r fs) <= zlen fs + 1.
Proof.
  intros Ht [Ha Hc Hf] Hl. pose proof (send_cases t port payload d Ht Ha ltac:(lia)) as HS.
  destruct (joined d); cycle 1. { do 2 eexists. split; [exact HS|]. split; [done|simpl; lia]. }
  destruct (cfg_dev_addr (config d)) as [a|] eqn:Ea; cycle 1. { do 2 eexists. split; [exact HS|]. split; [split; rewrite ?Ea; done|simpl; lia]. }
  destruct (_ <=? _); cycle 1. { do 2 eexists. split; [exact HS|]. split; [split; rewrite ?Ea; done|simpl; lia]. }
  destruct HS as (b & E & Eb). do 2 eexists. split; [exact E|]. cbn [sent]. rewrite length_app. split; [|simpl; lia].
  split; cbn [counted config f_cnt_up]; rewrite ?Ea; [done|rewrite length_app; simpl; lia|].
  intros i f [Hi|[Hi Hx]]%lookup_app_Some; [by apply Hf|]. apply list_lookup_singleton_Some in Hx as [Hi' <-].
  exists a. split; [done|]. rewrite Eb, Hc. replace i with (length fs) by lia. apply uplink_reads; [done|by apply Ha].
Qed.

Lemma step_session c d fs :
  session d fs → zlen fs < U32_MAX → ∃ d' fs', call_step c d fs = Ret (d', fs') ∧ session d' fs' ∧ zlen fs' <= zlen fs + 1.
Proof.
  intros HS Hl. destruct c as [|addr nwk app Ha|port payload|port payload|e]; simpl.
  - do 2 eexists. split; [done|]. split; [|lia]. destruct HS. unfold generate_join_request. case_decide; [|done].
    destruct (cfg_app_eui (config d)), (cfg_dev_eui (config d)); done.
  - do 2 eexists. split; [done|]. split; [|simpl; lia]. split; simpl; [naive_solver|done|done].
  - destruct (send_session UnconfirmedDataUp port payload d fs eq_refl HS Hl) as (r & d' & E & HS' & Hl'). unfold send_unconfirmed. rewrite E. by do 2 eexists.
  - destruct (send_session ConfirmedDataUp port payload d fs eq_refl HS Hl) as (r & d' & E & HS' & Hl'). unfold send_confirmed. rewrite E. by do 2 eexists.
  - do 2 eexists. split; [done|]. split; [|lia]. by destruct HS.
Qed.

Lemma run_session cs : ∀ d fs,
  session d fs → zlen fs + zlen cs <= U32_MAX → ∃ d' fs', call_run cs d fs = Ret (d', fs') ∧ session d' fs'.
Proof.
  induction cs as [|c cs IH]; intros d fs HS Hl; [by do 2 eexists|]. simpl in Hl.
  destruct (step_session c d fs HS) as (d' & fs' & E & HS' & Hl'); [lia|]. cbn [call_run]. rewrite E. cbn [obind]. apply IH; [done|lia].
Qed.

Definition is_new d : Prop :=
  (∃ cl dev app key, d = new_otaa cl dev app key) ∨ (∃ cl addr nwk app, zlen addr = 4 ∧ d = new_abp cl addr nwk app).

(** C24. Over any sequence of fewer than 2^32 calls the device does not panic; the frames
    sent since the keys were set are read by a network as uplinks from the device's
    address with the numbers 0, 1, 2, ... (mod 2^16), and the counter is their number.
    So no two frames of a session of at most 2^16 frames have the same number. *)
Theorem frames_are_numbered d cs :
  is_new d → zlen cs <= U32_MAX →
  ∃ d' fs, call_run cs d [] = Ret (d', fs) ∧ f_cnt_up d' = zlen fs ∧
    ∀ i f, fs !! i = Some f → ∃ a, cfg_dev_addr (config d') = Some a ∧ reads_as a (Z.of_nat i) f.
Proof.
  intros Hd Hl. destruct (run_session cs d []) as (d' & fs & E & [H1 H2 H3]); [|simpl; lia|by exists d', fs].
  destruct Hd as [(? & ? & ? & ? & ->)|(? & ? & ? & ? & ? & ->)]; (split; simpl; [naive_solver|done|done]).
Qed.

(** ** What the code does beyond this *)

(** The last frame of a session of 2^32 - 1 panics, and [FrameCounterOverflow] is never returned. *)
Lemma counter_overflow_panics t port payload d a :
  joined d = true → cfg_dev_addr (config d) = Some a → zlen payload <= MAX_PAYLOAD_SIZE → f_cnt_up d = U32_MAX → send t port payload d = Panic.
Proof.
  intros Hj Ha Hp Hc. unfold send. rewrite Hj, Ha. cbn [negb]. unfold with_payload. cbn [frame_new with_port frm_payload].
  destruct (extend_fits (vec_clear (vec_new : Vec Z MAX_PAYLOAD_SIZE)) payload) as (p & -> & _); [unfold vlen; rewrite slice_clear; simpl; lia|].
  cbn [ok_or rbind obind]. by rewrite Hc.
Qed.

(** A join accept is taken at any time and by any device, and starts the numbers again. *)
Lemma accept_needs_no_request addr nwk app d : (handle_join_accept addr nwk app d).1 = Ok () ∧ f_cnt_up (handle_join_accept addr nwk app d).2 = 0.
Proof. done. Qed.

(** After 2^16 join requests the nonces start again. *)
Lemma nonces_repeat d :
  dev_nonce d = U16_MAX → activation_mode (config d) = OTAA → given (cfg_app_eui (config d)) = true → given (cfg_dev_eui (config d)) = true →
  dev_nonce (generate_join_request d).2 = 0.
Proof.
  intros Hn Hm H1 H2. unfold generate_join_request. rewrite decide_True by done. destruct (cfg_app_eui (config d)), (cfg_dev_eui (config d)); try done. simpl. by rewrite Hn.
Qed.

End lorawan.

(** ** Witnesses *)

#[local] Existing Instance Lists.heapless.
#[local] Existing Instance Lists.heapless_laws.

Lemma frame_header_roundtrip_witness :
  ∃ b h', header_encode (mkHeader [1; 2; 3; 4] (mkCtrl true false true false 0) 515 vec_new) = (Ret (Ok b), with_opts_len (mkHeader [1; 2; 3; 4] (mkCtrl true false true false 0) 515 vec_new)) ∧
          header_decode (vec_slice b ++ [9; 9]) = Ret (Ok (h', zlen (vec_slice b))) ∧ header_eq h' (with_opts_len (mkHeader [1; 2; 3; 4] (mkCtrl true false true false 0) 515 vec_new)).
Proof. apply (frame_header_roundtrip (mkHeader [1; 2; 3; 4] (mkCtrl true false true false 0) 515 vec_new) [9; 9]). split; simpl; lia. Defined.

Lemma frames_are_numbered_witness :
  ∃ d' fs, call_run [Unconfirmed 1 [7; 8]; SetAdr false; Confirmed 2 []] (new_abp ClassA [1; 2; 3; 4] [] []) [] = Ret (d', fs) ∧ f_cnt_up d' = zlen fs ∧
    ∀ i f, fs !! i = Some f → ∃ a, cfg_dev_addr (config d') = Some a ∧ reads_as a (Z.of_nat i) f.
Proof.
  apply (frames_are_numbered (new_abp ClassA [1; 2; 3; 4] [] []) [Unconfirmed 1 [7; 8]; SetAdr false; Confirmed 2 []]).
  - right. by exists ClassA, [1; 2; 3; 4], [], [].
  - simpl. lia.
Defined.

(** The bytes of the two frames. *)
Example two_frames :
  match call_run [Unconfirmed 1 [7; 8]; SetAdr false; Confirmed 2 []] (new_abp ClassA [1; 2; 3; 4] [] []) [] with
  | Ret (_, fs) => fs = [[64; 1; 2; 3; 4; 128; 0; 0; 1; 7; 8]; [128; 1; 2; 3; 4; 0; 1; 0; 2]]
  | _ => False
  end.
Proof. by vm_compute. Qed.
