(* ===== verification/Tensor.v ===== *)
(** * Tensors and their views (mielin-tensor/src/tensor.rs, view.rs, broadcast.rs)

    Shapes, row-major strides, index iteration, zero-copy views with slicing and
    transposition, and the rules of broadcasting.  Sizes are [usize]: products and sums
    that overflow panic. *)

From Stdlib Require Import SpecFloat.
From stdpp Require Import base tactics option list numbers.
From S2P Require Import Prelude Bytes Float.

(** ** Shapes and strides *)

(** [shape.iter().product()]. *)
Fixpoint product_loop (acc : Z) (l : list Z) : outcome Z :=
  match l with [] => Ret acc | d :: l' => let! acc := usize_mul acc d in product_loop acc l' end.
Definition product (shape : list Z) : outcome Z := product_loop 1 shape.

(* src: mielin-tensor/src/view.rs 639-642 compute_strides (loop) *)
Fixpoint strides_loop (dims : list Z) (stride : Z) (strides : list Z) : outcome (list Z) :=
  match dims with
  | [] => Ret strides
  | dim :: dims' => let! stride' := usize_mul stride dim in strides_loop dims' stride' (strides ++ [stride])
  end.
(** The functions of view.rs that belong to no type. *)
Module View.

(* src: mielin-tensor/src/view.rs 635-646 compute_strides *)
Definition compute_strides (shape : list Z) : outcome (list Z) :=
  let! strides := strides_loop (reverse shape) 1 [] in Ret (reverse strides).

End View.

(** The loop of [compute_flat_index] over the three lists side by side; [None] when an index is out of its range. *)
(* src: mielin-tensor/src/view.rs 213-223 TensorView::compute_flat_index (loop) *)
Fixpoint flat_loop (indices shape strides : list Z) (flat_index : Z) : outcome (option Z) :=
  match indices, shape, strides with
  | idx :: indices', dim :: shape', stride :: strides' =>
    if dim <=? idx then Ret None
    else
      let! m := usize_mul idx stride in
      let! flat_index := usize_add flat_index m in
      flat_loop indices' shape' strides' flat_index
  | _, _, _ => Ret (Some flat_index)
  end.

(** [v.swap(i, j)]. *)
Definition swap {A} (l : list A) (i j : Z) : outcome (list A) :=
  let! a := arr_get l i in let! b := arr_get l j in
  let! l := arr_set l i b in arr_set l j a.

(** ** Index iteration *)

(* src: mielin-tensor/src/view.rs 566-570 IndexIterator *)
Record IndexIterator : Type := mkIter { iter_shape : list Z; indices : list Z; iter_done : bool }.

Module IndexIterator.

(* src: mielin-tensor/src/view.rs 573-580 IndexIterator::new *)
Definition new (shape : list Z) : outcome IndexIterator :=
  let! size := product shape in
  Ret (mkIter shape (repeat 0 (length shape)) (size =? 0)).

(** The loop from the last axis to the first; [n] axes are left. *)
(* src: mielin-tensor/src/view.rs 594-604 IndexIterator::next (loop) *)
Fixpoint advance (n : nat) (shape indices : list Z) (is_done : bool) : outcome (list Z * bool) :=
  match n with
  | O => Ret (indices, is_done)
  | S n' =>
    let i := Z.of_nat n' in
    let! x := arr_get indices i in
    let! x := usize_add x 1 in
    let! indices := arr_set indices i x in
    let! dim := arr_get shape i in
    if x <? dim then Ret (indices, is_done)
    else if i =? 0 then advance n' shape indices true
    else let! indices := arr_set indices i 0 in advance n' shape indices is_done
  end.

(* src: mielin-tensor/src/view.rs 586-607 IndexIterator::next *)
Definition next (self : IndexIterator) : outcome (option (list Z) * IndexIterator) :=
  if iter_done self then Ret (None, self)
  else
    let! (ix, d) := advance (length (iter_shape self)) (iter_shape self) (indices self) (iter_done self) in
    Ret (Some (indices self), mkIter (iter_shape self) ix d).

End IndexIterator.

(** [for indices in it { body }]. *)
Fixpoint for_indices {S} (fuel : nat) (it : IndexIterator) (body : list Z → S → outcome S) (s : S) : outcome S :=
  match fuel with
  | O => Timeout
  | Datatypes.S fuel' =>
    let! (r, it) := IndexIterator.next it in
    match r with
    | None => Ret s
    | Some ix => let! s := body ix s in for_indices fuel' it body s
    end
  end.

(** One round more than there are elements. *)
Definition index_fuel (shape : list Z) : nat := S (Z.to_nat (foldr Z.mul 1 shape)).

(** ** Slices *)

(* src: mielin-tensor/src/view.rs 34-43 SliceRange *)
Record SliceRange : Type := mkRange { start : Z; range_end : option Z; step : Z; drop_dim : bool }.

Module SliceRange.

(* src: mielin-tensor/src/view.rs 47-54 SliceRange::new *)
Definition new (start e step : Z) : SliceRange := mkRange start (Some e) (if step =? 0 then 1 else step) false.
(* src: mielin-tensor/src/view.rs 57-59 SliceRange::range *)
Definition range (start e : Z) : SliceRange := new start e 1.
(* src: mielin-tensor/src/view.rs 62-69 SliceRange::all *)
Definition all : SliceRange := mkRange 0 None 1 false.
(* src: mielin-tensor/src/view.rs 72-79 SliceRange::index *)
Definition index (idx : Z) : outcome SliceRange := let! e := usize_add idx 1 in Ret (mkRange idx (Some e) 1 true).
(* src: mielin-tensor/src/view.rs 82-84 SliceRange::index_keep_dim *)
Definition index_keep_dim (idx : Z) : outcome SliceRange := let! e := usize_add idx 1 in Ret (new idx e 1).
(* src: mielin-tensor/src/view.rs 101-103 SliceRange::effective_end *)
Definition effective_end (dim_size : Z) (self : SliceRange) : Z := Z.min (default dim_size (range_end self)) dim_size.
(** A division by a step of 0 panics. *)
(* src: mielin-tensor/src/view.rs 87-93 SliceRange::len *)
Definition len (dim_size : Z) (self : SliceRange) : outcome Z :=
  let e := Z.min (default dim_size (range_end self)) dim_size in
  if e <=? start self then Ret 0
  else if step self =? 0 then Panic else Ret ((e - start self + step self - 1) / step self).
(* src: mielin-tensor/src/view.rs 96-98 SliceRange::is_empty *)
Definition is_empty (dim_size : Z) (self : SliceRange) : outcome bool := let! n := len dim_size self in Ret (n =? 0).

End SliceRange.

(** ** Views *)

(* src: mielin-tensor/src/view.rs 129-140 TensorView *)
Record TensorView (T : Type) : Type := mkView { data : list T; offset : Z; shape : list Z; strides : list Z }.
Arguments mkView {T}.
Arguments data {T}.
Arguments offset {T}.
Arguments shape {T}.
Arguments strides {T}.

Module TensorView.
Section view.
Context {T : Type}.
Implicit Types self : TensorView T.

(* src: mielin-tensor/src/view.rs 144-153 TensorView::from_slice *)
Definition from_slice (d : list T) (sh : list Z) : outcome (TensorView T) := let! s := View.compute_strides sh in Ret (mkView d 0 sh s).
(* src: mielin-tensor/src/view.rs 156-169 TensorView::from_parts *)
Definition from_parts (d : list T) (o : Z) (sh s : list Z) : TensorView T := mkView d o sh s.
(* src: mielin-tensor/src/view.rs 182-184 TensorView::ndim *)
Definition ndim self : Z := zlen (shape self).
(* src: mielin-tensor/src/view.rs 187-189 TensorView::size *)
Definition size self : outcome Z := product (shape self).
(* src: mielin-tensor/src/view.rs 192-199 TensorView::is_contiguous *)
Definition is_contiguous self : outcome bool :=
  if Bytes.is_empty (shape self) then Ret true
  else let! expected := View.compute_strides (shape self) in Ret (bool_decide (strides self = expected)).
(* src: mielin-tensor/src/view.rs 208-230 TensorView::compute_flat_index *)
Definition compute_flat_index (ix : list Z) self : outcome (option Z) :=
  if negb (zlen ix =? zlen (shape self)) then Ret None
  else
    let! r := flat_loop ix (shape self) (strides self) (offset self) in
    Ret (match r with Some flat => if zlen (data self) <=? flat then None else Some flat | None => None end).
(* src: mielin-tensor/src/view.rs 202-205 TensorView::get *)
Definition get (ix : list Z) self : outcome (option T) :=
  let! r := compute_flat_index ix self in
  Ret (r ≫= λ flat, data self !! Z.to_nat flat).

(** The loop of [slice] over the axes; [i] is the number of the axis. *)
(* src: mielin-tensor/src/view.rs 243-260 TensorView::slice (loop) *)
Fixpoint slice_loop (i : nat) (dims strs : list Z) (slices : list SliceRange) (o : Z) (new_shape new_strides : list Z) : outcome (Z * list Z * list Z) :=
  match dims, strs with
  | dim_size :: dims', stride :: strs' =>
    let s := default SliceRange.all (slices !! i) in
    let! m := usize_mul (start s) stride in
    let! o := usize_add o m in
    if drop_dim s then slice_loop (S i) dims' strs' slices o new_shape new_strides
    else
      let! new_dim := SliceRange.len dim_size s in
      if 0 <? new_dim then
        let! st := usize_mul stride (step s) in
        slice_loop (S i) dims' strs' slices o (new_shape ++ [new_dim]) (new_strides ++ [st])
      else slice_loop (S i) dims' strs' slices o new_shape new_strides
  | _, _ => Ret (o, new_shape, new_strides)
  end.
(* src: mielin-tensor/src/view.rs 238-269 TensorView::slice *)
Definition slice (slices : list SliceRange) self : outcome (TensorView T) :=
  let! (o, sh, st) := slice_loop 0 (shape self) (strides self) slices (offset self) [] [] in
  Ret (mkView (data self) o sh st).

(* src: mielin-tensor/src/view.rs 296-314 TensorView::swap_axes *)
Definition swap_axes (axis1 axis2 : Z) self : outcome (option (TensorView T)) :=
  if (ndim self <=? axis1) || (ndim self <=? axis2) then Ret None
  else
    let! sh := swap (shape self) axis1 axis2 in
    let! st := swap (strides self) axis1 axis2 in
    Ret (Some (mkView (data self) (offset self) sh st)).
(* src: mielin-tensor/src/view.rs 274-293 TensorView::transpose *)
Definition transpose self : outcome (option (TensorView T)) :=
  if ndim self <? 2 then Ret None
  else
    let n := ndim self in
    let! sh := swap (shape self) (n - 2) (n - 1) in
    let! st := swap (strides self) (n - 2) (n - 1) in
    Ret (Some (mkView (data self) (offset self) sh st)).
(* src: mielin-tensor/src/view.rs 319-334 TensorView::reshape *)
Definition reshape (new_shape : list Z) self : outcome (option (TensorView T)) :=
  let! new_size := product new_shape in
  let! size := size self in
  if negb (new_size =? size) then Ret None
  else
    let! c := is_contiguous self in
    if negb c then Ret None
    else let! st := View.compute_strides new_shape in Ret (Some (mkView (data self) (offset self) new_shape st)).
(* src: mielin-tensor/src/view.rs 337-361 TensorView::squeeze *)
Definition squeeze self : TensorView T :=
  let kept := base.filter (λ p, 1 < p.1) (zip (shape self) (strides self)) in
  match kept with
  | [] => mkView (data self) (offset self) [1] [1]
  | _ => mkView (data self) (offset self) kept.*1 kept.*2
  end.
(** [Vec::insert]. *)
Definition vec_insert (l : list Z) (i x : Z) : list Z := take (Z.to_nat i) l ++ x :: drop (Z.to_nat i) l.
(* src: mielin-tensor/src/view.rs 364-389 TensorView::unsqueeze *)
Definition unsqueeze (axis : Z) self : option (TensorView T) :=
  if ndim self <? axis then None
  else
    let stride := default 1 (strides self !! Z.to_nat axis) in
    Some (mkView (data self) (offset self) (vec_insert (shape self) axis 1) (vec_insert (strides self) axis stride)).

(** The elements that [ViewIterator] yields: it ends at the first index without one. *)
(* src: mielin-tensor/src/view.rs 628-631 ViewIterator::next *)
Fixpoint view_iter (fuel : nat) (it : IndexIterator) self : outcome (list T) :=
  match fuel with
  | O => Timeout
  | S fuel' =>
    let! (r, it) := IndexIterator.next it in
    match r with
    | None => Ret []
    | Some ix =>
      let! x := get ix self in
      match x with
      | None => Ret []
      | Some x => let! l := view_iter fuel' it self in Ret (x :: l)
      end
    end
  end.
(* src: mielin-tensor/src/view.rs 399-401 TensorView::to_vec *)
Definition to_vec (fuel : nat) self : outcome (list T) := let! it := IndexIterator.new (shape self) in view_iter fuel it self.

(** ** Mutable views: the same fields, with the data written in place *)

Definition set_data (d : list T) self : TensorView T := mkView d (offset self) (shape self) (strides self).

(** [None] when there is no such element. *)
(* src: mielin-tensor/src/view.rs 468-476 TensorViewMut::set *)
Definition set (ix : list Z) (value : T) self : outcome (option unit * TensorView T) :=
  let! r := compute_flat_index ix self in
  match r with
  | None => Ret (None, self)
  | Some flat =>
    if flat <? zlen (data self) then Ret (Some (), set_data (<[Z.to_nat flat := value]> (data self)) self) else Ret (None, self)
  end.
(* src: mielin-tensor/src/view.rs 517-521 TensorViewMut::fill *)
Definition fill (fuel : nat) (value : T) self : outcome (TensorView T) :=
  let! it := IndexIterator.new (shape self) in
  for_indices fuel it (λ ix v, let! (_, v) := set ix value v in Ret v) self.
(* src: mielin-tensor/src/view.rs 524-535 TensorViewMut::copy_from *)
Definition copy_from (fuel : nat) (other self : TensorView T) : outcome (bool * TensorView T) :=
  if decide (shape self = shape other) then
    let! it := IndexIterator.new (shape self) in
    let! v := for_indices fuel it (λ ix v,
      let! x := get ix other in
      match x with Some value => let! (_, v) := set ix value v in Ret v | None => Ret v end) self in
    Ret (true, v)
  else Ret (false, self).
(** [op] is the [+=] of the element type. *)
(* src: mielin-tensor/src/view.rs 540-551 TensorViewMut::add_assign *)
Definition add_assign (op : T → T → T) (fuel : nat) (other self : TensorView T) : outcome (bool * TensorView T) :=
  if decide (shape self = shape other) then
    let! it := IndexIterator.new (shape self) in
    let! v := for_indices fuel it (λ ix v,
      let! e := get ix v in
      let! x := get ix other in
      match e, x with Some e, Some x => let! (_, v) := set ix (op e x) v in Ret v | _, _ => Ret v end) self in
    Ret (true, v)
  else Ret (false, self).
(** [op] is the [*=] of the element type. *)
(* src: mielin-tensor/src/view.rs 556-562 TensorViewMut::mul_scalar *)
Definition mul_scalar (op : T → T → T) (fuel : nat) (scalar : T) self : outcome (TensorView T) :=
  let! it := IndexIterator.new (shape self) in
  for_indices fuel it (λ ix v,
    let! e := get ix v in
    match e with Some e => let! (_, v) := set ix (op e scalar) v in Ret v | None => Ret v end) self.

End view.
End TensorView.

(** ** Tensors that own their data *)

(* src: mielin-tensor/src/tensor.rs 7-11 Tensor *)
Record Tensor (T : Type) : Type := mkTensor { tdata : list T; tshape : list Z; tstrides : list Z }.
Arguments mkTensor {T}.
Arguments tdata {T}.
Arguments tshape {T}.
Arguments tstrides {T}.

Module Tensor.
Section tensor.
Context {T : Type}.
Implicit Types self : Tensor T.

(* src: mielin-tensor/src/tensor.rs 42-53 Tensor::compute_strides *)
Definition compute_strides (shape : list Z) : outcome (list Z) :=
  let! strides := strides_loop (reverse shape) 1 [] in Ret (reverse strides).
(** [zero] is [T::default()]; with 0, 1 or any value this is also [zeros], [ones] and [filled]. *)
(* src: mielin-tensor/src/tensor.rs 15-24 Tensor::new *)
Definition new (zero : T) (shape : list Z) : outcome (Tensor T) :=
  let! size := product shape in
  let! s := compute_strides shape in
  Ret (mkTensor (repeat zero (Z.to_nat size)) shape s).
(* src: mielin-tensor/src/tensor.rs 220-229 Tensor::filled *)
Definition filled (shape : list Z) (value : T) : outcome (Tensor T) :=
  let! size := product shape in
  let! s := compute_strides shape in
  Ret (mkTensor (repeat value (Z.to_nat size)) shape s).
(* src: mielin-tensor/src/tensor.rs 27-40 Tensor::from_vec *)
Definition from_vec (d : list T) (shape : list Z) : outcome (option (Tensor T)) :=
  let! expected_size := product shape in
  if negb (zlen d =? expected_size) then Ret None
  else let! s := compute_strides shape in Ret (Some (mkTensor d shape s)).
(* src: mielin-tensor/src/tensor.rs 61-63 Tensor::size *)
Definition size self : Z := zlen (tdata self).
(* src: mielin-tensor/src/tensor.rs 66-68 Tensor::ndim *)
Definition ndim self : Z := zlen (tshape self).
(* src: mielin-tensor/src/tensor.rs 100-118 Tensor::compute_flat_index *)
Definition compute_flat_index (ix : list Z) self : outcome (option Z) :=
  if negb (zlen ix =? zlen (tshape self)) then Ret None else flat_loop ix (tshape self) (tstrides self) 0.
(* src: mielin-tensor/src/tensor.rs 81-88 Tensor::get *)
Definition get (ix : list Z) self : outcome (option T) :=
  if negb (zlen ix =? ndim self) then Ret None
  else
    let! r := compute_flat_index ix self in
    Ret (r ≫= λ flat, tdata self !! Z.to_nat flat).
(* src: mielin-tensor/src/tensor.rs 91-98 Tensor::set *)
Definition set (ix : list Z) (value : T) self : outcome (option unit * Tensor T) :=
  if negb (zlen ix =? ndim self) then Ret (None, self)
  else
    let! r := compute_flat_index ix self in
    match r with
    | None => Ret (None, self)
    | Some flat =>
      if flat <? zlen (tdata self) then Ret (Some (), mkTensor (<[Z.to_nat flat := value]> (tdata self)) (tshape self) (tstrides self)) else Ret (None, self)
    end.
(* src: mielin-tensor/src/tensor.rs 121-130 Tensor::reshape *)
Definition reshape (new_shape : list Z) self : outcome (option unit * Tensor T) :=
  let! new_size := product new_shape in
  if negb (new_size =? size self) then Ret (None, self)
  else let! s := compute_strides new_shape in Ret (Some (), mkTensor (tdata self) new_shape s).

(** [result.data[i] op= val] for every element of [other]. *)
Fixpoint zip_assign (op : T → T → T) (result other : list T) : outcome (list T) :=
  match other, result with
  | [], _ => Ret result
  | val :: other', x :: result' => let! l := zip_assign op result' other' in Ret (op x val :: l)
  | _ :: _, [] => Panic
  end.
(** [add], [sub] and [mul], with the operation of the element type; [assert_eq!] panics. *)
(* src: mielin-tensor/src/tensor.rs 232-239 Tensor::add *)
Definition add (op : T → T → T) (other self : Tensor T) : outcome (Tensor T) :=
  if decide (tshape self = tshape other) then
    let! d := zip_assign op (tdata self) (tdata other) in Ret (mkTensor d (tshape self) (tstrides self))
  else Panic.
(* src: mielin-tensor/src/tensor.rs 242-249 Tensor::sub *)
Definition sub (op : T → T → T) (other self : Tensor T) : outcome (Tensor T) :=
  if decide (tshape self = tshape other) then
    let! d := zip_assign op (tdata self) (tdata other) in Ret (mkTensor d (tshape self) (tstrides self))
  else Panic.
(* src: mielin-tensor/src/tensor.rs 252-259 Tensor::mul *)
Definition mul (op : T → T → T) (other self : Tensor T) : outcome (Tensor T) :=
  if decide (tshape self = tshape other) then
    let! d := zip_assign op (tdata self) (tdata other) in Ret (mkTensor d (tshape self) (tstrides self))
  else Panic.
(* src: mielin-tensor/src/tensor.rs 262-268 Tensor::scale *)
Definition scale (op : T → T → T) (factor : T) self : Tensor T := mkTensor ((λ x, op x factor) <$> tdata self) (tshape self) (tstrides self).

End tensor.
End Tensor.

(** ** Broadcasting *)

(** The size of axis [i] counted from the last one, 1 beyond the first. *)
(* src: mielin-tensor/src/broadcast.rs 19-23 can_broadcast (axis) *)
Definition dim_from_end (shape : list Z) (i : Z) : outcome Z :=
  let n := zlen shape in
  if i <? n then arr_get shape (n - 1 - i) else Ret 1.

(* src: mielin-tensor/src/broadcast.rs 18-33 can_broadcast (loop) *)
Fixpoint can_broadcast_loop (n : nat) (i : Z) (a b : list Z) : outcome bool :=
  match n with
  | O => Ret true
  | S n' =>
    let! dim_a := dim_from_end a i in
    let! dim_b := dim_from_end b i in
    if negb (dim_a =? dim_b) && negb (dim_a =? 1) && negb (dim_b =? 1) then Ret false
    else can_broadcast_loop n' (i + 1) a b
  end.
(* src: mielin-tensor/src/broadcast.rs 13-36 can_broadcast *)
Definition can_broadcast (shape_a shape_b : list Z) : outcome bool :=
  can_broadcast_loop (Nat.max (length shape_a) (length shape_b)) 0 shape_a shape_b.

(* src: mielin-tensor/src/broadcast.rs 39-67 broadcast_shape *)
Definition broadcast_shape (shape_a shape_b : list Z) : outcome (option (list Z)) :=
  let! ok := can_broadcast shape_a shape_b in
  if negb ok then Ret None
  else
    let! result := for_range 0 (Z.max (zlen shape_a) (zlen shape_b)) (λ i result,
      let! dim_a := dim_from_end shape_a i in
      let! dim_b := dim_from_end shape_b i in
      Ret (result ++ [Z.max dim_a dim_b])) [] in
    Ret (Some (reverse result)).

(** The size of axis [i] of the output in [shape], and 1 where [shape] has no such axis. *)
(* src: mielin-tensor/src/broadcast.rs 88-92 broadcast_strides (axis) *)
Definition dim_aligned (shape : list Z) (ndim_out i : Z) : outcome Z :=
  let! lead := usize_sub ndim_out (zlen shape) in
  if lead <=? i then arr_get shape (i - lead) else Ret 1.

(** One axis of one operand: its stride is 0 where its size is 1. *)
(* src: mielin-tensor/src/broadcast.rs 99-105 broadcast_strides (stride) *)
Definition push_stride (dim : Z) (st : Z * list Z) : outcome (Z * list Z) :=
  let '(stride, strides) := st in
  if dim =? 1 then Ret (stride, strides ++ [0])
  else let! stride' := usize_mul stride dim in Ret (stride', strides ++ [stride]).

(* src: mielin-tensor/src/broadcast.rs 87-113 broadcast_strides (loop) *)
Fixpoint broadcast_loop (n : nat) (a b : list Z) (ndim_out : Z) (sa sb : Z * list Z) : outcome (list Z * list Z) :=
  match n with
  | O => Ret (reverse sa.2, reverse sb.2)
  | S n' =>
    let i := Z.of_nat n' in
    let! dim_a := dim_aligned a ndim_out i in
    let! dim_b := dim_aligned b ndim_out i in
    let! sa := push_stride dim_a sa in
    let! sb := push_stride dim_b sb in
    broadcast_loop n' a b ndim_out sa sb
  end.
(* src: mielin-tensor/src/broadcast.rs 71-119 broadcast_strides *)
Definition broadcast_strides (shape_a shape_b broadcast_shape : list Z) : outcome (list Z * list Z) :=
  broadcast_loop (length broadcast_shape) shape_a shape_b (zlen broadcast_shape) (1, []) (1, []).

(* src: mielin-tensor/src/broadcast.rs 123-129 index_from_strides *)
Fixpoint index_from_strides (indices strides : list Z) : outcome Z :=
  match indices, strides with
  | idx :: indices', stride :: strides' =>
    let! m := usize_mul idx stride in
    let! r := index_from_strides indices' strides' in
    usize_add m r
  | _, _ => Ret 0
  end.

(* src: mielin-tensor/src/broadcast.rs 135-138 unravel_index (loop) *)
Fixpoint unravel_loop (index : Z) (dims indices : list Z) : outcome (list Z) :=
  match dims with
  | [] => Ret indices
  | dim :: dims' =>
    let! r := usize_rem index dim in
    let! q := usize_div index dim in
    unravel_loop q dims' (indices ++ [r])
  end.
(* src: mielin-tensor/src/broadcast.rs 132-142 unravel_index *)
Definition unravel_index (index : Z) (shape : list Z) : outcome (list Z) :=
  let! indices := unravel_loop index (reverse shape) [] in Ret (reverse indices).
