(* ===== verification/TensorProps.v ===== *)
(** * Theorems about tensors and views

    Row-major order as mixed-radix numbers, the iteration over all indices, views that
    stay within their data, what slices select, and broadcasting. *)

From stdpp Require Import base tactics option list numbers.
From S2P Require Import Prelude Bytes Tensor.

Implicit Types (sh st ix : list Z).

(** ** Row-major order *)

Definition volume sh : Z := foldr Z.mul 1 sh.

Fixpoint strides_of sh : list Z := match sh with [] => [] | _ :: sh' => volume sh' :: strides_of sh' end.

Definition valid ix sh : Prop := Forall2 (λ i d, 0 <= i < d) ix sh.

(** The position of an index, and the index at a position. *)
Fixpoint flat ix sh : Z := match ix, sh with i :: ix', _ :: sh' => i * volume sh' + flat ix' sh' | _, _ => 0 end.
Fixpoint unravel (n : Z) sh : list Z := match sh with [] => [] | d :: sh' => (n / volume sh') mod d :: unravel n sh' end.

Definition dims_ok sh : Prop := Forall (λ d, 1 <= d) sh.
Definition sized sh : Prop := dims_ok sh ∧ volume sh <= U64_MAX.

Lemma volume_cons d sh : volume (d :: sh) = d * volume sh.
Proof. done. Qed.

Lemma volume_pos sh : dims_ok sh → 1 <= volume sh.
Proof. induction 1 as [|d sh Hd _ IH]; [done|]. rewrite volume_cons. nia. Qed.

Lemma sized_cons d sh : sized (d :: sh) → 1 <= d ∧ sized sh ∧ d * volume sh <= U64_MAX.
Proof. intros [Hd Hv]. apply Forall_cons_1 in Hd as [Hd Hs]. pose proof (volume_pos sh Hs). rewrite volume_cons in Hv. split_and!; [done|split; [done|nia]|done]. Qed.

Lemma product_loop_ok sh : ∀ acc, dims_ok sh → 1 <= acc → acc * volume sh <= U64_MAX → product_loop acc sh = Ret (acc * volume sh).
Proof.
  induction sh as [|d sh IH]; intros acc Hd Ha Hv; cbn [product_loop]; [f_equal; cbn; lia|]. apply Forall_cons_1 in Hd as [Hd Hs]. pose proof (volume_pos sh Hs). rewrite volume_cons in *.
  rewrite usize_mul_ok by nia. cbn [obind]. rewrite IH by (done || nia). f_equal. lia.
Qed.

Lemma product_ok sh : sized sh → product sh = Ret (volume sh).
Proof. intros [Hd Hv]. unfold product. rewrite product_loop_ok by (done || lia). f_equal. lia. Qed.

Lemma strides_loop_ok sh : ∀ rest s acc,
  dims_ok sh → 1 <= s → s * volume sh <= U64_MAX →
  strides_loop (reverse sh ++ rest) s acc = strides_loop rest (s * volume sh) (acc ++ reverse (Z.mul s <$> strides_of sh)).
Proof.
  induction sh as [|d sh IH]; intros rest s acc Hd Hs Hv.
  { cbn. rewrite app_nil_r. f_equal. lia. }
  apply Forall_cons_1 in Hd as [Hd Hds]. pose proof (volume_pos sh Hds). rewrite volume_cons in *.
  rewrite reverse_cons, <- app_assoc, IH by (done || nia). cbn [app strides_loop]. rewrite usize_mul_ok by nia. cbn [obind strides_of].
  rewrite fmap_cons, reverse_cons, app_assoc. f_equal. lia.
Qed.

Lemma compute_strides_ok sh : sized sh → View.compute_strides sh = Ret (strides_of sh).
Proof.
  intros [Hd Hv]. unfold View.compute_strides. rewrite <- (app_nil_r (reverse sh)), strides_loop_ok by (done || lia). cbn [strides_loop obind app].
  rewrite reverse_involutive. f_equal. rewrite <- (list_fmap_id (strides_of sh)) at 2. apply list_fmap_ext. intros i x _. unfold id. lia.
Qed.

Lemma strides_length sh : length (strides_of sh) = length sh.
Proof. induction sh as [|d sh IH]; simpl; [done|]. by rewrite IH. Qed.

Lemma flat_range ix sh : valid ix sh → 0 <= flat ix sh < volume sh.
Proof. induction 1 as [|i d ix sh Hi _ IH]; [cbn; lia|]. cbn [flat]. rewrite volume_cons. nia. Qed.

Lemma valid_dims ix sh : valid ix sh → dims_ok sh.
Proof. induction 1; constructor; [lia|done]. Qed.

Lemma unravel_valid n sh : dims_ok sh → valid (unravel n sh) sh.
Proof. induction 1 as [|d sh Hd _ IH]; constructor; [|done]. apply Z.mod_pos_bound. lia. Qed.

Lemma unravel_period n k sh : dims_ok sh → unravel (k * volume sh + n) sh = unravel n sh.
Proof.
  intros Hd. revert n k. induction Hd as [|d sh Hd Hs IH]; intros n k; [done|]. cbn [unravel]. rewrite volume_cons. pose proof (volume_pos sh Hs). f_equal.
  - replace (k * (d * volume sh) + n) with (n + (k * d) * volume sh) by lia. rewrite Z.div_add by lia. by rewrite Z.mod_add by lia.
  - replace (k * (d * volume sh) + n) with ((k * d) * volume sh + n) by lia. apply IH.
Qed.

Lemma flat_unravel n sh : dims_ok sh → 0 <= n < volume sh → flat (unravel n sh) sh = n.
Proof.
  intros Hd. revert n. induction Hd as [|d sh Hd Hs IH]; intros n Hn; [cbn in *; lia|]. cbn [unravel flat]. rewrite volume_cons in Hn. pose proof (volume_pos sh Hs) as Hv.
  pose proof (Z.div_mod n (volume sh) ltac:(lia)) as En. pose proof (Z.mod_pos_bound n (volume sh) ltac:(lia)) as Hm.
  assert (0 <= n / volume sh < d) as Hq by (split; [apply Z.div_pos; lia|apply Z.div_lt_upper_bound; lia]). rewrite (Z.mod_small (n / volume sh)) by done.
  replace (unravel n sh) with (unravel (n mod volume sh) sh); [rewrite IH by done; lia|]. rewrite En at 2. rewrite (Z.mul_comm (volume sh)). by rewrite unravel_period.
Qed.

Lemma unravel_flat ix sh : valid ix sh → unravel (flat ix sh) sh = ix.
Proof.
  induction 1 as [|i d ix sh Hi Hv IH]; [done|]. cbn [flat unravel]. pose proof (flat_range ix sh Hv) as Hf. pose proof (valid_dims ix sh Hv) as Hd. f_equal.
  - rewrite Z.add_comm, Z.div_add by lia. rewrite (Z.div_small (flat ix sh)) by done. apply Z.mod_small. lia.
  - by rewrite unravel_period.
Qed.

(** [unravel_index] computes it. *)
Lemma unravel_loop_ok sh : ∀ rest n acc,
  dims_ok sh → 0 <= n → unravel_loop n (reverse sh ++ rest) acc = unravel_loop (n / volume sh) rest (acc ++ reverse (unravel n sh)).
Proof.
  induction sh as [|d sh IH]; intros rest n acc Hd Hn; [cbn; by rewrite app_nil_r, Z.div_1_r|]. apply Forall_cons_1 in Hd as [Hd Hs]. pose proof (volume_pos sh Hs).
  rewrite reverse_cons, <- app_assoc, IH by done. cbn [app unravel_loop]. rewrite usize_rem_ok, usize_div_ok by lia. cbn [obind unravel]. rewrite reverse_cons, app_assoc, volume_cons.
  f_equal. rewrite Z.div_div by lia. f_equal. lia.
Qed.

Lemma unravel_index_ok n sh : dims_ok sh → 0 <= n → unravel_index n sh = Ret (unravel n sh).
Proof. intros Hd Hn. unfold unravel_index. rewrite <- (app_nil_r (reverse sh)), unravel_loop_ok by done. cbn [unravel_loop obind app]. by rewrite reverse_involutive. Qed.

(** Sums of products, as the code computes them. *)
Fixpoint dot ix st : Z := match ix, st with i :: ix', s :: st' => i * s + dot ix' st' | _, _ => 0 end.

Lemma dot_strides ix sh : length ix = length sh → dot ix (strides_of sh) = flat ix sh.
Proof. revert sh. induction ix as [|i ix IH]; intros [|d sh] Hl; try done. cbn [strides_of dot flat]. rewrite IH by (simpl in Hl; lia). done. Qed.

Lemma dot_nonneg ix st : Forall (λ i, 0 <= i) ix → Forall (λ s, 0 <= s) st → 0 <= dot ix st.
Proof. intros Hi. revert st. induction Hi as [|i ix Hi _ IH]; intros [|s st] Hs; cbn [dot]; try lia. apply Forall_cons_1 in Hs as [Hs Hst]. specialize (IH st Hst). nia. Qed.

Lemma index_from_strides_ok ix st :
  Forall (λ i, 0 <= i) ix → Forall (λ s, 0 <= s) st → dot ix st <= U64_MAX → index_from_strides ix st = Ret (dot ix st).
Proof.
  intros Hi. revert st. induction Hi as [|i ix Hi Hix IH]; intros [|s st] Hs Hd; try done. apply Forall_cons_1 in Hs as [Hs Hst]. cbn [index_from_strides dot] in *.
  pose proof (dot_nonneg ix st Hix Hst). rewrite usize_mul_ok by nia. cbn [obind]. rewrite IH by (done || nia). cbn [obind]. by rewrite usize_add_ok by nia.
Qed.

Lemma strides_nonneg sh : dims_ok sh → Forall (λ s, 0 <= s) (strides_of sh).
Proof. induction 1 as [|d sh Hd Hs IH]; constructor; [|done]. pose proof (volume_pos sh Hs). lia. Qed.

Lemma valid_nonneg ix sh : valid ix sh → Forall (λ i, 0 <= i) ix.
Proof. induction 1; constructor; [lia|done]. Qed.

(** Positions and indices of a shape determine each other: every position below the
    number of elements is that of the index computed from it, and every valid index is
    computed from its position. *)
Theorem row_major_roundtrip sh :
  sized sh →
  ∃ st, View.compute_strides sh = Ret st ∧
    (∀ n, 0 <= n < volume sh → ∃ ix, unravel_index n sh = Ret ix ∧ valid ix sh ∧ index_from_strides ix st = Ret n) ∧
    (∀ ix, valid ix sh → ∃ n, index_from_strides ix st = Ret n ∧ 0 <= n < volume sh ∧ unravel_index n sh = Ret ix).
Proof.
  intros Hs. pose proof Hs as [Hd Hv]. exists (strides_of sh). split; [by apply compute_strides_ok|].
  assert (∀ ix, valid ix sh → index_from_strides ix (strides_of sh) = Ret (flat ix sh)) as HI.
  { intros ix Hix. pose proof (flat_range ix sh Hix). pose proof (dot_strides ix sh (list.Forall2_length _ _ _ Hix)) as Ed.
    rewrite index_from_strides_ok; [by rewrite Ed|by eapply valid_nonneg|by apply strides_nonneg|lia]. }
  split.
  - intros n Hn. exists (unravel n sh). split; [apply unravel_index_ok; [done|lia]|]. split; [by apply unravel_valid|]. rewrite HI by by apply unravel_valid. by rewrite flat_unravel.
  - intros ix Hix. pose proof (flat_range ix sh Hix). exists (flat ix sh). split_and!; [by apply HI|lia|lia|]. rewrite unravel_index_ok by (done || lia). by rewrite unravel_flat.
Qed.

(** ** Iteration *)

Definition zeros ix : list Z := (λ _, 0) <$> ix.

(** The next index in row-major order. *)
Fixpoint succ ix sh : option (list Z) :=
  match ix, sh with
  | i :: ix', d :: sh' => match succ ix' sh' with Some ix'' => Some (i :: ix'') | None => if i + 1 <? d then Some (i + 1 :: zeros ix') else None end
  | _, _ => None
  end.

Lemma succ_snoc ix : ∀ sh x d,
  length ix = length sh →
  succ (ix ++ [x]) (sh ++ [d]) = if x + 1 <? d then Some (ix ++ [x + 1]) else (λ l, l ++ [0]) <$> succ ix sh.
Proof.
  induction ix as [|i ix IH]; intros [|s sh] x d Hl; try done; cbn [app succ].
  rewrite IH by (simpl in Hl; lia). destruct (x + 1 <? d); [done|]. unfold zeros. rewrite fmap_app. destruct (succ ix sh); cbn; [done|]. by destruct (i + 1 <? s).
Qed.

Lemma unravel_zero sh : dims_ok sh → unravel 0 sh = zeros sh.
Proof. induction 1 as [|d sh Hd Hs IH]; [done|]. cbn [unravel]. pose proof (volume_pos sh Hs). rewrite Z.div_0_l, Z.mod_0_l by lia. by rewrite IH. Qed.

Lemma zeros_length ix sh : length ix = length sh → zeros ix = zeros sh.
Proof. revert sh. induction ix as [|i ix IH]; intros [|d sh] Hl; try done. unfold zeros in *. cbn. f_equal. apply IH. simpl in Hl. lia. Qed.

Lemma succ_flat ix sh : valid ix sh → succ ix sh = if flat ix sh + 1 <? volume sh then Some (unravel (flat ix sh + 1) sh) else None.
Proof.
  induction 1 as [|i d ix sh Hi Hv IH]; [done|]. pose proof (flat_range ix sh Hv) as Hf. pose proof (valid_dims ix sh Hv) as Hd. cbn [succ flat unravel]. rewrite IH, volume_cons.
  destruct (Z.ltb_spec (flat ix sh + 1) (volume sh)) as [H1|H1].
  - rewrite (proj2 (Z.ltb_lt _ _)) by nia. do 2 f_equal.
    + rewrite <- Z.add_assoc, (Z.add_comm (i * _)), Z.div_add by lia. rewrite (Z.div_small (flat ix sh + 1)) by lia. rewrite Z.mod_small; lia.
    + by rewrite <- Z.add_assoc, unravel_period.
  - assert (flat ix sh + 1 = volume sh) as E by lia. replace (i * volume sh + flat ix sh + 1) with ((i + 1) * volume sh + 0) by lia.
    destruct (Z.ltb_spec (i + 1) d) as [H2|H2].
    + rewrite (proj2 (Z.ltb_lt _ _)) by nia. do 2 f_equal.
      * rewrite Z.add_0_r, Z.div_mul by lia. rewrite Z.mod_small; lia.
      * rewrite unravel_period, unravel_zero by done. apply zeros_length. by eapply list.Forall2_length.
    + by rewrite (proj2 (Z.ltb_ge _ _)) by nia.
Qed.

Lemma arr_get_mid {A} (l r : list A) x i : i = zlen l → arr_get (l ++ x :: r) i = Ret x.
Proof. apply arr_get_app. Qed.

Lemma arr_set_mid {A} (l r : list A) x y i : i = zlen l → arr_set (l ++ x :: r) i y = Ret (l ++ y :: r).
Proof.
  intros ->. rewrite arr_set_ok by (rewrite length_app; simpl; lia). f_equal. rewrite Nat2Z.id. by rewrite insert_app_r_alt, Nat.sub_diag by done.
Qed.

Lemma advance_ok ix : ∀ sh z zsh b,
  length ix = length sh → Forall (λ i, 0 <= i < U64_MAX) ix →
  match succ ix sh with
  | Some ix' => IndexIterator.advance (length ix) (sh ++ zsh) (ix ++ z) b = Ret (ix' ++ z, b)
  | None => ∃ l, IndexIterator.advance (length ix) (sh ++ zsh) (ix ++ z) b = Ret (l, match ix with [] => b | _ => true end)
  end.
Proof.
  induction ix as [|x ix IH] using rev_ind; intros sh z zsh b Hl Hb; [by eexists|].
  destruct sh as [|d sh _] using rev_ind; [rewrite length_app in Hl; simpl in Hl; lia|]. rewrite !length_app in Hl. cbn [length] in Hl.
  apply Forall_app in Hb as [Hb Hx]. apply Forall_cons_1 in Hx as [Hx _]. rewrite succ_snoc by lia. rewrite length_app, Nat.add_comm. cbn [length Nat.add IndexIterator.advance].
  rewrite <- !app_assoc. cbn [app]. rewrite arr_get_mid by done. cbn [obind]. rewrite usize_add_ok by lia. cbn [obind]. rewrite arr_set_mid by done. cbn [obind].
  rewrite arr_get_mid by (f_equal; lia). cbn [obind]. destruct (x + 1 <? d); [by rewrite <- app_assoc|].
  destruct (Z.eqb_spec (zlen ix) 0) as [E|E].
  { destruct ix; [|simpl in E; lia]. cbn. by eexists. }
  rewrite arr_set_mid by done. cbn [obind]. specialize (IH sh (0 :: z) (d :: zsh) b ltac:(lia) Hb). destruct (succ ix sh); cbn [fmap option_fmap option_map].
  - rewrite IH. by rewrite <- app_assoc.
  - destruct ix; [done|]. destruct IH as [l IH]. exists l. by rewrite IH.
Qed.

(** The iterator stands before position [k]. *)
Definition iter_at sh (k : Z) : IndexIterator := mkIter sh (unravel k sh) false.

Lemma next_ok sh k :
  sized sh → sh ≠ [] → 0 <= k < volume sh →
  ∃ it, IndexIterator.next (iter_at sh k) = Ret (Some (unravel k sh), it) ∧ (if k + 1 <? volume sh then it = iter_at sh (k + 1) else iter_done it = true).
Proof.
  intros [Hd Hv] Hne Hk. pose proof (unravel_valid k sh Hd) as Hu. pose proof (list.Forall2_length _ _ _ Hu) as Hl. unfold IndexIterator.next, iter_at. cbn [iter_done iter_shape indices].
  assert (Forall (λ i, 0 <= i < U64_MAX) (unravel k sh)) as Hb.
  { clear Hl Hk Hne. revert Hd Hv. induction Hu as [|i d ix sh' Hi Hu IH]; intros Hd Hv; constructor.
    - pose proof (valid_dims _ _ Hu) as Hd'. pose proof (volume_pos _ Hd'). rewrite volume_cons in Hv. nia.
    - apply Forall_cons_1 in Hd as [Hd1 Hd2]. pose proof (volume_pos _ Hd2). rewrite volume_cons in Hv. apply IH; [done|nia]. }
  pose proof (advance_ok (unravel k sh) sh [] [] false Hl Hb) as HA. rewrite !app_nil_r, Hl, succ_flat, flat_unravel in HA by done.
  destruct (k + 1 <? volume sh).
  - rewrite HA. cbn [obind]. eexists. split; [done|]. by rewrite app_nil_r.
  - destruct HA as [l ->]. cbn [obind]. eexists. split; [done|]. cbn. destruct sh; [done|]. by destruct (unravel k (z :: sh)) eqn:E.
Qed.

Lemma iter_new_ok sh : sized sh → IndexIterator.new sh = Ret (iter_at sh 0).
Proof.
  intros Hs. pose proof Hs as [Hd _]. unfold IndexIterator.new. rewrite product_ok by done. cbn [obind]. pose proof (volume_pos sh Hd). rewrite (proj2 (Z.eqb_neq _ _)) by lia.
  unfold iter_at. rewrite unravel_zero by done. do 2 f_equal. unfold zeros. clear. induction sh as [|d sh IH]; [done|]. cbn. by rewrite IH.
Qed.

Lemma for_indices_ok {S} sh (body : list Z → S → outcome S) n : ∀ k s fuel,
  sized sh → sh ≠ [] → 0 <= k → k + Z.of_nat n = volume sh → (n < fuel)%nat → (0 < n)%nat →
  for_indices fuel (iter_at sh k) body s = for_loop n k (λ i, body (unravel i sh)) s.
Proof.
  induction n as [|n IH]; intros k s fuel Hs Hne Hk Hn Hf Hpos; [lia|]. destruct fuel as [|fuel]; [lia|]. cbn [for_indices for_loop].
  destruct (next_ok sh k Hs Hne) as (it & -> & Hit); [lia|]. cbn [obind]. destruct (body (unravel k sh) s) as [s'| |]; cbn [obind]; try done.
  destruct (Z.ltb_spec (k + 1) (volume sh)); [rewrite Hit; apply IH; (done || lia)|]. assert (n = 0%nat) as -> by lia. destruct fuel as [|fuel]; [lia|].
  cbn [for_indices for_loop]. unfold IndexIterator.next. by rewrite Hit.
Qed.

(** A loop over an index iterator visits every index of the shape once, in row-major
    order, and ends: it is the loop over the positions from 0 to the number of elements. *)
Theorem index_iteration {S} sh (body : list Z → S → outcome S) s :
  sized sh → sh ≠ [] →
  (let! it := IndexIterator.new sh in for_indices (index_fuel sh) it body s) = for_range 0 (volume sh) (λ i, body (unravel i sh)) s.
Proof.
  intros Hs Hne. pose proof Hs as [Hd _]. pose proof (volume_pos sh Hd). rewrite iter_new_ok by done. cbn [obind]. unfold for_range. rewrite Z.sub_0_r.
  apply for_indices_ok; unfold index_fuel; fold (volume sh); (done || lia).
Qed.

(** ** What views can reach *)

Fixpoint reach sh st : Z := match sh, st with d :: sh', s :: st' => (d - 1) * s + reach sh' st' | _, _ => 0 end.

Record view_ok {T} (v : TensorView T) : Prop := {
  vo_length : length (strides v) = length (shape v);
  vo_dims : dims_ok (shape v);
  vo_strides : Forall (λ s, 0 <= s) (strides v);
  vo_offset : 0 <= offset v;
  vo_reach : offset v + reach (shape v) (strides v) < zlen (data v);
  vo_data : zlen (data v) <= U64_MAX;
  vo_volume : volume (shape v) <= U64_MAX;
}.

Lemma dot_reach ix sh : ∀ st, valid ix sh → Forall (λ s, 0 <= s) st → 0 <= dot ix st <= reach sh st.
Proof.
  intros st Hv. revert st. induction Hv as [|i d ix sh Hi Hv IH]; intros [|s st] Hs; cbn [dot reach]; try lia. apply Forall_cons_1 in Hs as [Hs Hst].
  specialize (IH st Hst). nia.
Qed.

Lemma flat_loop_ok ix sh : ∀ st acc,
  length ix = length sh → length st = length sh → Forall (λ i, 0 <= i) ix → Forall (λ s, 0 <= s) st → 0 <= acc → acc + reach sh st <= U64_MAX → dims_ok sh →
  (valid ix sh ∧ flat_loop ix sh st acc = Ret (Some (acc + dot ix st))) ∨ (¬ valid ix sh ∧ flat_loop ix sh st acc = Ret None).
Proof.
  revert sh. induction ix as [|i ix IH]; intros [|d sh] [|s st] acc Hl Hl' Hi Hs Ha Hr Hd; try done.
  { left. split; [constructor|]. cbn. do 2 f_equal. lia. }
  apply Forall_cons_1 in Hi as [Hi Hix]. apply Forall_cons_1 in Hs as [Hs Hst]. apply Forall_cons_1 in Hd as [Hd Hds]. cbn [flat_loop dot reach length] in *.
  destruct (Z.leb_spec d i). { right. split; [|done]. intros Hv. inversion Hv; subst. lia. }
  assert (0 <= reach sh st) as Hr0. { clear -Hds Hst. revert st Hst. induction Hds as [|d sh Hd _ IH]; intros [|s st] Hst; cbn [reach]; try lia. apply Forall_cons_1 in Hst as [Hs Hst]. specialize (IH st Hst). nia. }
  assert (i * s <= (d - 1) * s) by nia. rewrite usize_mul_ok by nia. cbn [obind]. rewrite usize_add_ok by nia. cbn [obind].
  destruct (IH sh st (acc + i * s)) as [[Hv E]|[Hv E]]; [lia|lia|done|done|nia|nia|done| |].
  - left. split; [constructor; [lia|done]|]. rewrite E. do 2 f_equal. lia.
  - right. split; [|done]. intros Hv'. by inversion Hv'.
Qed.

(** The element of a view at an index. *)
Definition elem {T} (v : TensorView T) ix : option T := data v !! Z.to_nat (offset v + dot ix (strides v)).

Lemma get_cases {T} (v : TensorView T) ix :
  view_ok v → Forall (λ i, 0 <= i) ix →
  (valid ix (shape v) ∧ TensorView.get ix v = Ret (elem v ix) ∧ is_Some (elem v ix)) ∨ (¬ valid ix (shape v) ∧ TensorView.get ix v = Ret None).
Proof.
  intros [H1 H2 H3 H4 H5 H6 _] Hi. unfold TensorView.get, TensorView.compute_flat_index. destruct (Z.eqb_spec (zlen ix) (zlen (shape v))) as [E|E]; cbn [negb obind]; cycle 1.
  { right. split; [|done]. intros Hv%list.Forall2_length. lia. }
  destruct (flat_loop_ok ix (shape v) (strides v) (offset v)) as [[Hv ->]|[Hv ->]]; [lia|done|done|done|done|lia|done| |]; cbn [obind].
  - pose proof (dot_reach ix (shape v) (strides v) Hv H3). rewrite (proj2 (Z.leb_gt _ _)) by lia. left. split_and!; [done|done|]. apply lookup_lt_is_Some. lia.
  - by right.
Qed.

(** ** Slices *)

(** The range lies in its axis and selects something. *)
Definition range_fits (dim stride : Z) (s : SliceRange) : Prop :=
  0 <= start s < dim ∧ 1 <= step s ∧ stride * step s <= U64_MAX ∧ match range_end s with Some e => start s < e | None => True end.

Fixpoint slices_fit (i : nat) (dims strs : list Z) (slices : list SliceRange) : Prop :=
  match dims, strs with
  | d :: dims', s :: strs' => range_fits d s (default SliceRange.all (slices !! i)) ∧ slices_fit (S i) dims' strs' slices
  | _, _ => True
  end.

(** The index in the whole view of an index in the slice. *)
Fixpoint lift (i : nat) (dims : list Z) (slices : list SliceRange) ix : list Z :=
  match dims with
  | [] => []
  | _ :: dims' =>
    let s := default SliceRange.all (slices !! i) in
    if drop_dim s then start s :: lift (S i) dims' slices ix
    else match ix with x :: ix' => start s + x * step s :: lift (S i) dims' slices ix' | [] => [] end
  end.

Lemma len_fits dim stride s :
  range_fits dim stride s → ∃ n, SliceRange.len dim s = Ret n ∧ 1 <= n <= dim ∧ start s + (n - 1) * step s <= dim - 1.
Proof.
  intros (H1 & H2 & H3 & H4). unfold SliceRange.len. set (e := Z.min (default dim (range_end s)) dim).
  assert (start s < e <= dim) as He by (unfold e; destruct (range_end s); cbn; lia). rewrite (proj2 (Z.leb_gt _ _)), (proj2 (Z.eqb_neq _ _)) by lia.
  eexists. split; [done|]. set (q := (e - start s + step s - 1) / step s).
  pose proof (Z.div_mod (e - start s + step s - 1) (step s) ltac:(lia)) as E. pose proof (Z.mod_pos_bound (e - start s + step s - 1) (step s) ltac:(lia)). fold q in E. nia.
Qed.

Lemma slice_loop_ok dims : ∀ strs i slices o nsh nst,
  dims_ok dims → length strs = length dims → Forall (λ s, 0 <= s) strs → slices_fit i dims strs slices → 0 <= o → o + reach dims strs <= U64_MAX →
  ∃ o' sh st, TensorView.slice_loop i dims strs slices o nsh nst = Ret (o', nsh ++ sh, nst ++ st) ∧
    length st = length sh ∧ dims_ok sh ∧ Forall (λ s, 0 <= s) st ∧ o <= o' ∧ o' + reach sh st <= o + reach dims strs ∧ volume sh <= volume dims ∧
    ∀ ix, valid ix sh → valid (lift i dims slices ix) dims ∧ o' + dot ix st = o + dot (lift i dims slices ix) strs.
Proof.
  induction dims as [|d dims IH]; intros [|s strs] i slices o nsh nst Hd Hl Hs Hf Ho Hr; try done.
  { exists o, [], []. cbn [TensorView.slice_loop]. rewrite !app_nil_r. split_and!; try (done || lia). intros ix Hix. inversion Hix. split; [constructor|done]. }
  apply Forall_cons_1 in Hd as [Hd Hds]. apply Forall_cons_1 in Hs as [Hs Hss]. cbn [length] in Hl. injection Hl as Hl. cbn [slices_fit] in Hf. destruct Hf as [Hf Hfs].
  cbn [TensorView.slice_loop reach lift] in *. set (r := default SliceRange.all (slices !! i)) in *.
  assert (0 <= reach dims strs) as Hr0 by (pose proof (dot_reach (unravel 0 dims) dims strs (unravel_valid 0 dims Hds) Hss); lia). pose proof (volume_pos dims Hds) as Hv.
  destruct (len_fits d s r Hf) as (n & En & Hn & Hn'). destruct Hf as (Hst & Hsp & Hov & _). assert (start r * s <= (d - 1) * s) by nia.
  rewrite usize_mul_ok by nia. cbn [obind]. rewrite usize_add_ok by nia. cbn [obind]. rewrite volume_cons. destruct (drop_dim r).
  { destruct (IH strs (S i) slices (o + start r * s) nsh nst) as (o' & sh & st & -> & H1 & H2 & H3 & H4 & H5 & H6 & H7); [done..|nia|nia|].
    exists o', sh, st. split_and!; try (done || nia). intros ix Hix. destruct (H7 ix Hix) as [Hv1 Hv2]. split; [constructor; [lia|done]|]. cbn [dot]. lia. }
  rewrite En. cbn [obind]. rewrite (proj2 (Z.ltb_lt _ _)) by lia. rewrite usize_mul_ok by nia. cbn [obind].
  destruct (IH strs (S i) slices (o + start r * s) (nsh ++ [n]) (nst ++ [s * step r])) as (o' & sh & st & -> & H1 & H2 & H3 & H4 & H5 & H6 & H7); [done..|nia|nia|].
  exists o', (n :: sh), (s * step r :: st). rewrite <- !app_assoc. assert ((start r + (n - 1) * step r) * s <= (d - 1) * s) as Hb by nia. pose proof (volume_pos sh H2).
  split_and!; [done|cbn; lia|constructor; [lia|done]|constructor; [nia|done]|nia|cbn [reach]; nia|rewrite volume_cons; nia|].
  intros ix Hix. inversion Hix as [|x n' ix' sh' Hx Hix' E1 E2]; subst. destruct (H7 ix' Hix') as [Hv1 Hv2]. split; [constructor; [nia|done]|]. cbn [dot]. nia.
Qed.

Lemma slice_shows {T} (v : TensorView T) slices :
  view_ok v → slices_fit 0 (shape v) (strides v) slices →
  ∃ w, TensorView.slice slices v = Ret w ∧ view_ok w ∧
    ∀ ix, valid ix (shape w) → valid (lift 0 (shape v) slices ix) (shape v) ∧ TensorView.get ix w = TensorView.get (lift 0 (shape v) slices ix) v.
Proof.
  intros Hv Hf. pose proof Hv as [H1 H2 H3 H4 H5 H6 H7].
  destruct (slice_loop_ok (shape v) (strides v) 0 slices (offset v) [] []) as (o & sh & st & E & G1 & G2 & G3 & G4 & G5 & G6 & G7); [done|lia|done|done|lia|lia|].
  unfold TensorView.slice. rewrite E. cbn [obind app]. eexists. split; [done|].
  assert (view_ok (mkView (data v) o sh st)) as Hw by (split; cbn [data offset shape strides]; (done || lia)). split; [done|]. cbn [shape].
  intros ix Hix. destruct (G7 ix Hix) as [Hl Hd]. split; [done|].
  destruct (get_cases _ ix Hw ltac:(by eapply valid_nonneg)) as [(_ & -> & _)|[Hn _]]; [|by destruct Hn].
  destruct (get_cases v _ Hv ltac:(by eapply valid_nonneg)) as [(_ & -> & _)|[Hn _]]; [|by destruct Hn].
  unfold elem. cbn [data offset strides]. by rewrite Hd.
Qed.

(** A slice whose ranges lie in their axes shows exactly what they select: it stays
    within the data, and its element at an index is that of the whole view at the start
    of each range plus the index times the step, dropped axes at their start. *)
Theorem slice_selects {T} (v : TensorView T) slices :
  view_ok v → slices_fit 0 (shape v) (strides v) slices →
  ∃ w, TensorView.slice slices v = Ret w ∧ view_ok w ∧
    ∀ ix, valid ix (shape w) → valid (lift 0 (shape v) slices ix) (shape v) ∧ TensorView.get ix w = TensorView.get (lift 0 (shape v) slices ix) v.
Proof. apply slice_shows. Qed.

(** ** Exchanging axes *)

Definition swapped {A} (l : list A) (i j : nat) (a b : A) : list A := <[j := a]> (<[i := b]> l).

Lemma swap_ok {A} (l : list A) i j :
  0 <= i < zlen l → 0 <= j < zlen l →
  ∃ a b, l !! Z.to_nat i = Some a ∧ l !! Z.to_nat j = Some b ∧ swap l i j = Ret (swapped l (Z.to_nat i) (Z.to_nat j) a b).
Proof.
  intros Hi Hj. destruct (arr_get_range l i Hi) as (a & Ea & Ga). destruct (arr_get_range l j Hj) as (b & Eb & Gb). exists a, b. split_and!; [done|done|].
  unfold swap. rewrite Ga. cbn [obind]. rewrite Gb. cbn [obind]. rewrite arr_set_ok by lia. cbn [obind]. by rewrite arr_set_ok by (rewrite length_insert; lia).
Qed.

Lemma swapped_sum {A} (f : A → Z) (l : list A) i j a b : l !! i = Some a → l !! j = Some b → sum_by f (swapped l i j a b) = sum_by f l.
Proof.
  intros Ha Hb. unfold swapped. destruct (decide (i = j)) as [->|Hne].
  - assert (a = b) as -> by congruence. by rewrite (list_insert_id l j b Hb), (list_insert_id l j b Hb).
  - rewrite (sum_by_insert f _ j b a) by by rewrite list_lookup_insert_ne. rewrite (sum_by_insert f l i a b) by done. lia.
Qed.

Lemma volume_insert sh i d x : sh !! i = Some d → volume (<[i := x]> sh) * d = volume sh * x.
Proof.
  revert i. induction sh as [|y sh IH]; intros [|i] Hi; try done.
  - injection Hi as ->. change (<[0%nat := x]> (d :: sh)) with (x :: sh). rewrite !volume_cons. lia.
  - change (<[S i := x]> (y :: sh)) with (y :: <[i := x]> sh). rewrite !volume_cons. rewrite <- !Z.mul_assoc, (IH i Hi). lia.
Qed.

Lemma swapped_volume sh i j a b : dims_ok sh → sh !! i = Some a → sh !! j = Some b → volume (swapped sh i j a b) = volume sh.
Proof.
  intros Hd Ha Hb. unfold swapped. destruct (decide (i = j)) as [->|Hne].
  - assert (a = b) as -> by congruence. by rewrite (list_insert_id sh j b Hb), (list_insert_id sh j b Hb).
  - pose proof (volume_insert (<[i := b]> sh) j b a ltac:(by rewrite list_lookup_insert_ne)) as E1. pose proof (volume_insert sh i a b Ha) as E2.
    assert (1 <= b) by (apply (Forall_lookup_1 _ _ _ _ Hd Hb)). nia.
Qed.

Lemma swapped_zip {A B} (l : list A) (k : list B) i j a b c d : zip (swapped l i j a b) (swapped k i j c d) = swapped (zip l k) i j (a, c) (b, d).
Proof. unfold swapped. by rewrite <- !insert_zip_with. Qed.

Lemma reach_sum sh : ∀ st, reach sh st = sum_by (λ p, (p.1 - 1) * p.2) (zip sh st).
Proof. induction sh as [|d sh IH]; intros [|s st]; try done. cbn [reach zip zip_with]. rewrite sum_by_cons, IH. done. Qed.

Lemma dot_sum ix : ∀ st, dot ix st = sum_by (λ p, p.1 * p.2) (zip ix st).
Proof. induction ix as [|i ix IH]; intros [|s st]; try done. cbn [dot zip zip_with]. rewrite sum_by_cons, IH. done. Qed.

Lemma zip_lookup {A B} (l : list A) (k : list B) i a b : l !! i = Some a → k !! i = Some b → zip l k !! i = Some (a, b).
Proof. intros Ha Hb. apply lookup_zip_with_Some. eauto. Qed.

Lemma swap_view_ok {T} (v : TensorView T) i j :
  view_ok v → 0 <= i < TensorView.ndim v → 0 <= j < TensorView.ndim v →
  ∃ a b c d, shape v !! Z.to_nat i = Some a ∧ shape v !! Z.to_nat j = Some b ∧ strides v !! Z.to_nat i = Some c ∧ strides v !! Z.to_nat j = Some d ∧
    swap (shape v) i j = Ret (swapped (shape v) (Z.to_nat i) (Z.to_nat j) a b) ∧ swap (strides v) i j = Ret (swapped (strides v) (Z.to_nat i) (Z.to_nat j) c d) ∧
    view_ok (mkView (data v) (offset v) (swapped (shape v) (Z.to_nat i) (Z.to_nat j) a b) (swapped (strides v) (Z.to_nat i) (Z.to_nat j) c d)).
Proof.
  intros [H1 H2 H3 H4 H5 H6 H7] Hi Hj. unfold TensorView.ndim in *. destruct (swap_ok (shape v) i j Hi Hj) as (a & b & Ea & Eb & E). destruct (swap_ok (strides v) i j) as (c & d & Ec & Ed & E'); [lia|lia|].
  exists a, b, c, d. split_and!; try done. split; cbn [data offset shape strides]; try done.
  - unfold swapped. rewrite !length_insert. done.
  - unfold swapped, dims_ok. apply Forall_insert; [apply Forall_insert; [done|]|]; eapply (Forall_lookup_1 _ _ _ _ H2); done.
  - unfold swapped. apply Forall_insert; [apply Forall_insert; [done|]|]; eapply (Forall_lookup_1 _ _ _ _ H3); done.
  - rewrite reach_sum, swapped_zip, swapped_sum; [by rewrite <- reach_sum|by apply zip_lookup|by apply zip_lookup].
  - by rewrite swapped_volume.
Qed.

Lemma swapped_valid ix sh i j x y a b :
  ix !! i = Some x → ix !! j = Some y → sh !! i = Some a → sh !! j = Some b → valid ix sh → valid (swapped ix i j x y) (swapped sh i j a b).
Proof.
  intros Hx Hy Ha Hb Hv. unfold swapped, valid. apply Forall2_insert; [apply Forall2_insert; [done|]|].
  - by eapply (Forall2_lookup_lr _ _ _ _ _ _ Hv Hy Hb).
  - by eapply (Forall2_lookup_lr _ _ _ _ _ _ Hv Hx Ha).
Qed.

(** The element of a view with two axes exchanged is that of the view at the index with
    the two places exchanged; a transposition is such an exchange of the last two. *)
Theorem swap_axes_exchanges {T} (v : TensorView T) i j ix x y :
  view_ok v → 0 <= i → 0 <= j → valid ix (shape v) → ix !! Z.to_nat i = Some x → ix !! Z.to_nat j = Some y →
  ∃ w, TensorView.swap_axes i j v = Ret (Some w) ∧ view_ok w ∧
    TensorView.get (swapped ix (Z.to_nat i) (Z.to_nat j) x y) w = TensorView.get ix v.
Proof.
  intros Hv Hi Hj Hix Hx Hy. pose proof (list.Forall2_length _ _ _ Hix) as Hl.
  assert (i < TensorView.ndim v ∧ j < TensorView.ndim v) as [Hi' Hj'] by (apply lookup_lt_Some in Hx, Hy; unfold TensorView.ndim; lia).
  destruct (swap_view_ok v i j Hv (conj Hi Hi') (conj Hj Hj')) as (a & b & c & d & Ea & Eb & Ec & Ed & E1 & E2 & Hw).
  unfold TensorView.swap_axes. rewrite !(proj2 (Z.leb_gt _ _)) by done. cbn [orb]. rewrite E1. cbn [obind]. rewrite E2. cbn [obind]. eexists. split; [done|]. split; [done|].
  pose proof (swapped_valid _ _ _ _ x y a b Hx Hy Ea Eb Hix) as Hs.
  destruct (get_cases _ _ Hw ltac:(by eapply valid_nonneg)) as [(_ & -> & _)|[Hn _]]; [|by destruct Hn].
  destruct (get_cases v ix Hv ltac:(by eapply valid_nonneg)) as [(_ & -> & _)|[Hn _]]; [|by destruct Hn].
  unfold elem. cbn [data offset strides]. by rewrite !dot_sum, swapped_zip, swapped_sum by by apply zip_lookup.
Qed.

(** ** Views that are made from views *)

Lemma reach_strides sh : dims_ok sh → reach sh (strides_of sh) = volume sh - 1.
Proof. induction 1 as [|d sh Hd Hs IH]; [done|]. cbn [strides_of reach]. rewrite IH, volume_cons. lia. Qed.

Lemma view_from_slice {T} (d : list T) sh : sized sh → zlen d = volume sh → ∃ v, TensorView.from_slice d sh = Ret v ∧ view_ok v ∧ data v = d ∧ shape v = sh ∧ offset v = 0 ∧ strides v = strides_of sh.
Proof.
  intros Hs Hl. pose proof Hs as [Hd Hv]. unfold TensorView.from_slice. rewrite compute_strides_ok by done. cbn [obind]. eexists. split_and!; try done.
  split; cbn [data offset shape strides]; try (done || lia); [apply strides_length|by apply strides_nonneg|rewrite reach_strides by done; lia].
Qed.

Lemma squeeze_ok {T} (v : TensorView T) : view_ok v → view_ok (TensorView.squeeze v).
Proof.
  intros [H1 H2 H3 H4 H5 H6 H7]. unfold TensorView.squeeze. set (k := base.filter _ _).
  assert (Forall (λ p, 1 <= p.1 ∧ 0 <= p.2) (zip (shape v) (strides v))) as HF.
  { clear -H2 H3. revert H3. generalize (strides v). induction H2 as [|d sh Hd _ IH]; intros [|s st] Hs; cbn [zip zip_with]; constructor; apply Forall_cons_1 in Hs as [Hs Hst]; [done|by apply IH]. }
  assert (dims_ok k.*1 ∧ Forall (λ s, 0 <= s) k.*2 ∧ reach k.*1 k.*2 = reach (shape v) (strides v) ∧ volume k.*1 = volume (shape v)) as (K1 & K2 & K3 & K4).
  { unfold k. clear -HF H1. revert HF H1. generalize (strides v). induction (shape v) as [|d sh IH]; intros [|s st] HF Hl; try done.
    { split_and!; (done || constructor). }
    cbn [zip zip_with] in HF |- *. apply Forall_cons_1 in HF as [[Hd Hs] HF]. cbn [fst snd length] in *. destruct (IH st HF ltac:(lia)) as (I1 & I2 & I3 & I4). destruct (decide (1 < d)).
    - rewrite filter_cons_True by done. rewrite !fmap_cons. cbn [fst snd]. split_and!; [constructor; [lia|done]|constructor; done|cbn [reach]; rewrite I3; lia|rewrite !volume_cons, I4; lia].
    - rewrite filter_cons_False by done. assert (d = 1) as -> by lia. split_and!; [done|done|cbn [reach]; lia|rewrite volume_cons; lia]. }
  destruct k as [|p k0] eqn:Ek.
  - split; cbn [data offset shape strides]; try done; [by repeat constructor|by repeat constructor|cbn [reach] in *; cbn in K3; lia].
  - split; cbn [data offset shape strides]; try done; [by rewrite !length_fmap|rewrite K3; done|rewrite K4; done].
Qed.

Lemma unsqueeze_ok {T} (v w : TensorView T) axis : view_ok v → 0 <= axis → TensorView.unsqueeze axis v = Some w → view_ok w ∧ data w = data v.
Proof.
  intros [H1 H2 H3 H4 H5 H6 H7] Ha. unfold TensorView.unsqueeze. destruct (Z.ltb_spec (TensorView.ndim v) axis) as [|Hx]; [done|]. intros [= <-]. split; [|done].
  unfold TensorView.vec_insert, TensorView.ndim in *. set (n := Z.to_nat axis). set (s := default 1 (strides v !! n)).
  assert (0 <= s) as Hs by (unfold s; destruct (strides v !! n) eqn:E; cbn; [by eapply (Forall_lookup_1 _ _ _ _ H3 E)|lia]).
  assert (∀ m sh st, length st = length sh → reach (take m sh ++ 1 :: drop m sh) (take m st ++ s :: drop m st) = reach sh st) as HR.
  { induction m as [|m IH]; intros [|d sh] [|t st] Hl; try done. cbn [take drop app reach]. rewrite IH by (simpl in Hl; lia). done. }
  assert (∀ m sh, volume (take m sh ++ 1 :: drop m sh) = volume sh) as HV.
  { induction m as [|m IH]; intros [|d sh]; cbn [take drop app]; rewrite ?volume_cons, ?IH, ?volume_cons; lia. }
  split; cbn [data offset shape strides]; try done.
  - rewrite !length_app. cbn [length]. rewrite !length_take, !length_drop. lia.
  - apply Forall_app. split; [by apply Forall_take|]. constructor; [lia|by apply Forall_drop].
  - apply Forall_app. split; [by apply Forall_take|]. constructor; [done|by apply Forall_drop].
  - by rewrite HR.
  - by rewrite HV.
Qed.

Lemma reshape_ok {T} (v : TensorView T) new :
  view_ok v → sized new → ∃ r, TensorView.reshape new v = Ret r ∧ ∀ w, r = Some w → view_ok w ∧ data w = data v ∧ volume new = volume (shape v).
Proof.
  intros [H1 H2 H3 H4 H5 H6 H7] Hn. pose proof Hn as [Hd Hv]. unfold TensorView.reshape, TensorView.size. rewrite !product_ok by (done || by split). cbn [obind].
  destruct (Z.eqb_spec (volume new) (volume (shape v))) as [E|]; cbn [negb]; [|by eexists].
  unfold TensorView.is_contiguous. rewrite compute_strides_ok by by split.
  assert (∃ c, (if Bytes.is_empty (shape v) then Ret true else let! expected := Ret (strides_of (shape v)) in Ret (bool_decide (strides v = expected))) = Ret c ∧ (c = true → strides v = strides_of (shape v))) as (c & -> & Hc).
  { destruct (shape v) as [|d sh] eqn:Es; cbn [Bytes.is_empty obind]; eexists; (split; [done|]); [intros _; destruct (strides v); done|]. apply bool_decide_eq_true. }
  cbn [obind]. destruct c; cbn [negb]; [|by eexists]. specialize (Hc eq_refl). rewrite compute_strides_ok by done. cbn [obind]. eexists. split; [done|]. intros w [= <-]. split_and!; [|done|done].
  rewrite Hc, reach_strides in H5 by done. split; cbn [data offset shape strides]; try done; [apply strides_length|by apply strides_nonneg|]. rewrite reach_strides by done. lia.
Qed.

(** Views as they are made by the operations, with ranges in their axes. *)
Inductive made_from {T} (d : list T) : TensorView T → Prop :=
| made_whole sh v : sized sh → zlen d = volume sh → TensorView.from_slice d sh = Ret v → made_from d v
| made_slice v ss w : made_from d v → slices_fit 0 (shape v) (strides v) ss → TensorView.slice ss v = Ret w → made_from d w
| made_transpose v w : made_from d v → TensorView.transpose v = Ret (Some w) → made_from d w
| made_swap v i j w : made_from d v → 0 <= i → 0 <= j → TensorView.swap_axes i j v = Ret (Some w) → made_from d w
| made_reshape v sh w : made_from d v → sized sh → TensorView.reshape sh v = Ret (Some w) → made_from d w
| made_squeeze v : made_from d v → made_from d (TensorView.squeeze v)
| made_unsqueeze v axis w : made_from d v → 0 <= axis → TensorView.unsqueeze axis v = Some w → made_from d w.

Lemma transpose_swap {T} (v : TensorView T) : 2 <= TensorView.ndim v → TensorView.transpose v = TensorView.swap_axes (TensorView.ndim v - 2) (TensorView.ndim v - 1) v.
Proof. intros Hn. unfold TensorView.transpose, TensorView.swap_axes. rewrite (proj2 (Z.ltb_ge _ _)), !(proj2 (Z.leb_gt _ _)) by lia. done. Qed.

Lemma swap_axes_ok {T} (v w : TensorView T) i j : view_ok v → 0 <= i → 0 <= j → TensorView.swap_axes i j v = Ret (Some w) → view_ok w ∧ data w = data v.
Proof.
  intros Hv Hi Hj. pose proof (swap_view_ok v i j Hv) as HS. unfold TensorView.swap_axes.
  destruct (Z.leb_spec (TensorView.ndim v) i), (Z.leb_spec (TensorView.ndim v) j); cbn [orb]; try done.
  destruct HS as (a & b & c & d & _ & _ & _ & _ & -> & E2 & Hw); [lia|lia|]. cbn [obind]. rewrite E2. cbn [obind]. by intros [= <-].
Qed.

Lemma made_ok {T} (d : list T) v : made_from d v → view_ok v ∧ data v = d.
Proof.
  induction 1 as [sh v Hs Hl E|v ss w _ [IH Hd] Hf E|v w _ [IH Hd] E|v i j w _ [IH Hd] Hi Hj E|v sh w _ [IH Hd] Hs E|v _ [IH Hd]|v axis w _ [IH Hd] Ha E].
  - destruct (view_from_slice d sh Hs Hl) as (v' & E' & Hv & Hd & _). rewrite E in E'. by injection E' as ->.
  - destruct (slice_shows v ss IH Hf) as (w' & E' & Hw & _). rewrite E in E'. injection E' as ->. split; [done|].
    unfold TensorView.slice in E. destruct (TensorView.slice_loop _ _ _ _ _ _ _) as [[[o sh] st]| |]; try done. by injection E as <-.
  - destruct (decide (2 <= TensorView.ndim v)); [|unfold TensorView.transpose in E; by rewrite (proj2 (Z.ltb_lt _ _)) in E by lia].
    rewrite transpose_swap in E by done. by destruct (swap_axes_ok v w (TensorView.ndim v - 2) (TensorView.ndim v - 1) IH ltac:(lia) ltac:(lia) E) as [Hw ->].
  - by destruct (swap_axes_ok v w i j IH Hi Hj E) as [Hw ->].
  - destruct (reshape_ok v sh IH Hs) as (r & E' & Hr). rewrite E in E'. injection E' as <-. by destruct (Hr w eq_refl) as (Hw & -> & _).
  - split; [by apply squeeze_ok|]. unfold TensorView.squeeze. by destruct (base.filter _ _).
  - by destruct (unsqueeze_ok v w axis IH Ha E) as [Hw ->].
Qed.

(** C33. However a view is made from the whole of a tensor's data, by slicing, transposing,
    exchanging axes, reshaping, squeezing and unsqueezing, where the shapes given have no
    axis of size 0 and at most 2^64-1 elements, and every slice starts inside its axis,
    ends after its start, has a step of at least 1 and a stride times step below 2^64 (empty
    slices and axes are not covered: they read nothing or what is not theirs): the view can
    be read at every index of its shape and returns an element of the data; at any other
    index it returns nothing. No position it computes overflows. *)
Theorem views_in_bounds {T} (d : list T) v ix :
  made_from d v → Forall (λ i, 0 <= i) ix →
  (valid ix (shape v) ∧ ∃ x, TensorView.get ix v = Ret (Some x) ∧ x ∈ d) ∨ (¬ valid ix (shape v) ∧ TensorView.get ix v = Ret None).
Proof.
  intros [Hv Hd]%made_ok Hi. destruct (get_cases v ix Hv Hi) as [(Hx & -> & x & E)|]; [left|by right]. split; [done|].
  exists x. rewrite E. split; [done|]. unfold elem in E. rewrite Hd in E. by eapply list_elem_of_lookup_2.
Qed.

(** ** Reading a view as a whole *)

Lemma view_iter_ok {T} (v : TensorView T) n : ∀ k fuel,
  view_ok v → shape v ≠ [] → 0 <= k → k + Z.of_nat n = volume (shape v) → (n < fuel)%nat → (0 < n)%nat →
  ∃ l, TensorView.view_iter fuel (iter_at (shape v) k) v = Ret l ∧ length l = n ∧ ∀ i, (i < n)%nat → l !! i = elem v (unravel (k + Z.of_nat i) (shape v)).
Proof.
  induction n as [|n IH]; intros k fuel Hv Hne Hk Hn Hf Hpos; [lia|]. destruct fuel as [|fuel]; [lia|]. pose proof Hv as [_ H2 _ _ _ _ H7]. cbn [TensorView.view_iter].
  destruct (next_ok (shape v) k (conj H2 H7) Hne) as (it & -> & Hit); [lia|]. cbn [obind]. pose proof (unravel_valid k (shape v) H2) as Hu.
  destruct (get_cases v _ Hv ltac:(by eapply valid_nonneg)) as [(_ & -> & x & Ex)|[Hx _]]; [|by destruct Hx]. rewrite Ex. cbn [obind].
  assert (∀ l : list T, l !! 0%nat = Some x → l !! 0%nat = elem v (unravel (k + Z.of_nat 0) (shape v))) as H0 by (intros l ->; by rewrite Z.add_0_r).
  destruct (Z.ltb_spec (k + 1) (volume (shape v))).
  - rewrite Hit. destruct (IH (k + 1) fuel) as (l & -> & Hl & Hi); [done|done|lia|lia|lia|lia|]. cbn [obind]. eexists. split; [done|]. split; [cbn; lia|].
    intros [|i] Hi'; [by apply (H0 (x :: l))|]. cbn [lookup list_lookup]. rewrite Hi by lia. do 2 f_equal. lia.
  - assert (n = 0%nat) as -> by lia. destruct fuel as [|fuel]; [lia|]. cbn [TensorView.view_iter]. unfold IndexIterator.next. rewrite Hit. cbn [obind]. eexists. split; [done|]. split; [done|].
    intros [|i] Hi'; [by apply (H0 [x])|lia].
Qed.

(** The whole view of some data is read back as the data. *)
Theorem to_vec_reads_data {T} (d : list T) sh :
  sized sh → sh ≠ [] → zlen d = volume sh →
  ∃ v, TensorView.from_slice d sh = Ret v ∧ TensorView.to_vec (index_fuel sh) v = Ret d.
Proof.
  intros Hs Hne Hl. pose proof Hs as [Hd _]. destruct (view_from_slice d sh Hs Hl) as (v & E & Hv & Ed & Es & Eo & Et). exists v. split; [done|].
  unfold TensorView.to_vec. rewrite Es, iter_new_ok by done. cbn [obind]. pose proof (volume_pos sh Hd).
  destruct (view_iter_ok v (length d) 0 (index_fuel sh)) as (l & E' & Hll & Hi); [done|by rewrite Es|lia|rewrite Es; lia|unfold index_fuel; fold (volume sh); lia|lia|].
  rewrite Es in E'. rewrite E'. f_equal. apply list_eq. intros i. destruct (decide (i < length d)%nat) as [Hlt|]; [|rewrite !lookup_ge_None_2; (done || lia)].
  rewrite Hi by done. unfold elem. rewrite Ed, Eo, Et, Es, Z.add_0_l. pose proof (unravel_valid (Z.of_nat i) sh Hd) as Hu.
  rewrite Z.add_0_l, dot_strides by by eapply list.Forall2_length. rewrite flat_unravel by (done || lia). by rewrite Nat2Z.id.
Qed.

(** ** Tensors *)

Record tensor_ok {T} (t : Tensor T) : Prop := { to_sized : sized (tshape t); to_strides : tstrides t = strides_of (tshape t); to_data : zlen (tdata t) = volume (tshape t) }.

Lemma tensor_get {T} (t : Tensor T) ix : tensor_ok t → valid ix (tshape t) → Tensor.get ix t = Ret (tdata t !! Z.to_nat (flat ix (tshape t))).
Proof.
  intros [[Hd Hv] Hs Hl] Hx. pose proof (list.Forall2_length _ _ _ Hx) as Hll. unfold Tensor.get, Tensor.compute_flat_index, Tensor.ndim. rewrite Hll, Z.eqb_refl, Hs. cbn [negb].
  destruct (flat_loop_ok ix (tshape t) (strides_of (tshape t)) 0) as [[_ ->]|[Hn _]]; [done|apply strides_length|by eapply valid_nonneg|by apply strides_nonneg|lia|rewrite reach_strides by done; lia|done| |by destruct Hn].
  cbn [obind mbind option_bind]. by rewrite Z.add_0_l, dot_strides.
Qed.

(** What is written to a tensor is read back, and every other element is as it was. *)
Theorem tensor_set_get {T} (t : Tensor T) ix jx x :
  tensor_ok t → valid ix (tshape t) → valid jx (tshape t) →
  ∃ t', Tensor.set ix x t = Ret (Some (), t') ∧ tensor_ok t' ∧
    Tensor.get jx t' = if decide (ix = jx) then Ret (Some x) else Tensor.get jx t.
Proof.
  intros Ht Hx Hj. pose proof Ht as [[Hd Hv] Hs Hl]. pose proof (list.Forall2_length _ _ _ Hx) as Hll. pose proof (flat_range ix _ Hx) as Hf.
  unfold Tensor.set, Tensor.compute_flat_index, Tensor.ndim. rewrite Hll, Z.eqb_refl, Hs. cbn [negb].
  destruct (flat_loop_ok ix (tshape t) (strides_of (tshape t)) 0) as [[_ ->]|[Hn _]]; [done|apply strides_length|by eapply valid_nonneg|by apply strides_nonneg|lia|rewrite reach_strides by done; lia|done| |by destruct Hn].
  cbn [obind]. rewrite Z.add_0_l, dot_strides by done. rewrite (proj2 (Z.ltb_lt _ _)) by lia. eexists. split; [done|].
  assert (tensor_ok (mkTensor (<[Z.to_nat (flat ix (tshape t)) := x]> (tdata t)) (tshape t) (strides_of (tshape t)))) as Ht' by (split; cbn; [done|done|by rewrite length_insert]).
  split; [done|]. rewrite !tensor_get by done. cbn [tdata tshape]. case_decide as E; [subst jx; rewrite list_lookup_insert_eq by lia; done|].
  rewrite list_lookup_insert_ne; [done|]. intros Ef. apply E. rewrite <- (unravel_flat ix _ Hx), <- (unravel_flat jx _ Hj). f_equal. pose proof (flat_range jx _ Hj). lia.
Qed.

(** ** Broadcasting *)

(** A shape with ones in front. *)
Definition padded (n : nat) sh : list Z := repeat 1 (n - length sh) ++ sh.

Fixpoint bstrides sh : list Z := match sh with [] => [] | d :: sh' => (if d =? 1 then 0 else volume sh') :: bstrides sh' end.

(** Two sizes of one axis go together. *)
Definition compat (d e : Z) : bool := (d =? e) || (d =? 1) || (e =? 1).

Lemma padded_length n sh : (length sh <= n)%nat → length (padded n sh) = n.
Proof. intros. unfold padded. rewrite length_app, repeat_length. lia. Qed.

Lemma padded_dims n sh : dims_ok sh → dims_ok (padded n sh).
Proof. intros Hd. apply Forall_app. split; [|done]. generalize (n - length sh)%nat. intros m. induction m; constructor; (lia || done). Qed.

Lemma volume_ones m sh : volume (repeat 1 m ++ sh) = volume sh.
Proof. induction m as [|m IH]; [done|]. cbn [repeat app]. rewrite volume_cons, IH. lia. Qed.

Lemma repeat_lookup {A} (x : A) m : ∀ i, (i < m)%nat → repeat x m !! i = Some x.
Proof. induction m as [|m IH]; intros [|i] Hi; try lia; [done|]. apply IH. lia. Qed.

Lemma padded_lookup n sh (i : nat) :
  (length sh <= n)%nat → (i < n)%nat → padded n sh !! i = if decide (n - length sh <= i)%nat then sh !! (i - (n - length sh))%nat else Some 1.
Proof.
  intros Hl Hi. unfold padded. case_decide as Hd.
  - rewrite lookup_app_r by (rewrite repeat_length; lia). by rewrite repeat_length.
  - rewrite lookup_app_l by (rewrite repeat_length; lia). apply repeat_lookup. lia.
Qed.

Lemma dim_from_end_ok n sh i d : (length sh <= n)%nat → 0 <= i < Z.of_nat n → padded n sh !! (n - 1 - Z.to_nat i)%nat = Some d → dim_from_end sh i = Ret d.
Proof.
  intros Hl Hi. rewrite padded_lookup by lia. unfold dim_from_end. case_decide as Hd; destruct (Z.ltb_spec i (zlen sh)); try lia; [|by intros [= ->]].
  intros E. apply arr_get_ok; [lia|]. rewrite <- E. f_equal. lia.
Qed.

Lemma dim_aligned_ok n sh (i : nat) d : (length sh <= n)%nat → (i < n)%nat → Z.of_nat n <= U64_MAX → padded n sh !! i = Some d → dim_aligned sh (Z.of_nat n) (Z.of_nat i) = Ret d.
Proof.
  intros Hl Hi Hn. rewrite padded_lookup by lia. unfold dim_aligned. rewrite usize_sub_ok by lia. cbn [obind]. case_decide as Hd.
  - rewrite (proj2 (Z.leb_le _ _)) by lia. intros E. apply arr_get_ok; [lia|]. rewrite <- E. f_equal. lia.
  - rewrite (proj2 (Z.leb_gt _ _)) by lia. by intros [= ->].
Qed.

Section broadcast.
Context (a b : list Z).
Let n : nat := Nat.max (length a) (length b).
Let P : list Z := padded n a.
Let Q : list Z := padded n b.

Lemma bc_length : length P = n ∧ length Q = n.
Proof. split; apply padded_length; unfold n; lia. Qed.

Lemma bc_at (i : nat) : (i < n)%nat → ∃ d e, P !! i = Some d ∧ Q !! i = Some e.
Proof.
  intros Hi. destruct bc_length as [H1 H2]. destruct (lookup_lt_is_Some_2 P i) as [d Hd]; [lia|]. destruct (lookup_lt_is_Some_2 Q i) as [e He]; [lia|]. eauto.
Qed.

Lemma can_broadcast_loop_ok m : ∀ i,
  i + Z.of_nat m = Z.of_nat n → 0 <= i → can_broadcast_loop m i a b = Ret (forallb (λ p, compat p.1 p.2) (take m (zip P Q))).
Proof.
  induction m as [|m IH]; intros i Hi Hi0; cbn [can_broadcast_loop]; [by rewrite take_0|].
  destruct (bc_at m) as (d & e & Hd & He); [lia|]. assert (m = n - 1 - Z.to_nat i)%nat as Em by lia.
  rewrite (dim_from_end_ok n a i d) by (unfold n in *; (lia || (fold P; by rewrite <- Em))). rewrite (dim_from_end_ok n b i e) by (unfold n in *; (lia || (fold Q; by rewrite <- Em))). cbn [obind].
  rewrite (take_S_r (zip P Q) m (d, e)) by by apply zip_lookup. rewrite forallb_app. cbn [forallb fst snd]. rewrite andb_true_r.
  destruct (negb (d =? e) && negb (d =? 1) && negb (e =? 1)) eqn:E; unfold compat.
  - apply andb_true_iff in E as [[E1 E2]%andb_true_iff E3]. rewrite !negb_true_iff in *. rewrite E1, E2, E3. by rewrite andb_false_r.
  - rewrite IH by lia. f_equal. destruct (d =? e), (d =? 1), (e =? 1); cbn in *; by rewrite ?andb_true_r.
Qed.

Lemma can_broadcast_ok : can_broadcast a b = Ret (forallb (λ p, compat p.1 p.2) (zip P Q)).
Proof.
  unfold can_broadcast. fold n. rewrite can_broadcast_loop_ok by lia. destruct bc_length as [H1 H2]. by rewrite take_ge by (rewrite length_zip_with; lia).
Qed.

Lemma broadcast_shape_ok :
  broadcast_shape a b = Ret (if forallb (λ p, compat p.1 p.2) (zip P Q) then Some (zip_with Z.max P Q) else None).
Proof.
  unfold broadcast_shape. rewrite can_broadcast_ok. cbn [obind]. destruct (forallb _ _); cbn [negb]; [|done]. set (Zs := zip_with Z.max P Q). destruct bc_length as [H1 H2].
  assert (length Zs = n) as HZ by (unfold Zs; rewrite length_zip_with; lia). replace (Z.max (zlen a) (zlen b)) with (Z.of_nat n) by (unfold n; lia).
  match goal with |- obind (for_range _ _ ?body _) _ = _ =>
    pose proof (for_range_rule (λ i res, res = reverse (drop (n - Z.to_nat i) Zs)) 0 (Z.of_nat n) body [] ltac:(lia)) as HR end.
  apply returns_ret in HR as (res & -> & ->).
  - cbn [obind]. rewrite reverse_involutive, Nat2Z.id, Nat.sub_diag. by rewrite drop_0.
  - by rewrite Nat.sub_0_r, drop_ge by lia.
  - intros i res Hi ->. destruct (bc_at (n - 1 - Z.to_nat i)) as (d & e & Hd & He); [lia|].
    rewrite (dim_from_end_ok n a i d) by (unfold n in *; (lia || done)). rewrite (dim_from_end_ok n b i e) by (unfold n in *; (lia || done)). cbn [obind returns].
    replace (n - Z.to_nat (i + 1))%nat with (n - 1 - Z.to_nat i)%nat by lia.
    rewrite (drop_S Zs (Z.max d e) (n - 1 - Z.to_nat i)), reverse_cons by (apply lookup_zip_with_Some; eauto). do 3 f_equal. lia.
Qed.

Lemma drop_volume sh i : dims_ok sh → volume (drop i sh) <= volume sh ∧ dims_ok (drop i sh).
Proof.
  intros Hd. revert i. induction Hd as [|d sh Hd Hs IH]; intros [|i]; cbn [drop]; [split; [lia|constructor]|split; [lia|constructor]|split; [lia|by constructor]|].
  rewrite volume_cons. destruct (IH i) as [H1 H2]. pose proof (volume_pos sh Hs). split; [nia|done].
Qed.

Lemma push_stride_ok sh i d :
  sized sh → sh !! i = Some d →
  push_stride d (volume (drop (S i) sh), reverse (bstrides (drop (S i) sh))) = Ret (volume (drop i sh), reverse (bstrides (drop i sh))).
Proof.
  intros [Hd Hv] Hi. destruct (drop_volume sh i Hd) as [Hdv Hdd]. rewrite (drop_S sh d i Hi) in *. apply Forall_cons_1 in Hdd as [Hd1 Hdd]. pose proof (volume_pos _ Hdd). rewrite volume_cons in *.
  unfold push_stride. cbn [bstrides]. rewrite reverse_cons. destruct (Z.eqb_spec d 1) as [->|]; [f_equal; f_equal; lia|].
  rewrite usize_mul_ok by nia. cbn [obind]. do 2 f_equal. lia.
Qed.

Lemma padded_sized sh : sized sh → sized (padded n sh).
Proof. intros [Hd Hv]. split; [by apply padded_dims|]. unfold padded. by rewrite volume_ones. Qed.

Context (Ha : sized a) (Hb : sized b) (Hn : Z.of_nat n <= U64_MAX).

Lemma broadcast_loop_ok m : (m <= n)%nat →
  broadcast_loop m a b (Z.of_nat n) (volume (drop m P), reverse (bstrides (drop m P))) (volume (drop m Q), reverse (bstrides (drop m Q))) = Ret (bstrides P, bstrides Q).
Proof.
  induction m as [|m IH]; intros Hm; cbn [broadcast_loop]; [cbn [snd]; by rewrite !drop_0, !reverse_involutive|].
  destruct (bc_at m) as (d & e & Hd & He); [lia|]. rewrite (dim_aligned_ok n a m d) by (unfold n in *; (lia || done)). rewrite (dim_aligned_ok n b m e) by (unfold n in *; (lia || done)). cbn [obind].
  rewrite push_stride_ok by (done || by apply padded_sized). cbn [obind]. rewrite push_stride_ok by (done || by apply padded_sized). cbn [obind]. apply IH. lia.
Qed.

Lemma broadcast_strides_ok out : length out = n → broadcast_strides a b out = Ret (bstrides P, bstrides Q).
Proof.
  intros Hl. unfold broadcast_strides. rewrite Hl. destruct bc_length as [H1 H2]. pose proof (broadcast_loop_ok n ltac:(lia)) as E. rewrite !drop_ge in E by lia. exact E.
Qed.
End broadcast.

(** The index that an operand is read at: axes it does not have are left out, and axes of size 1 are read at 0. *)
Definition at_ones sh ix : list Z := zip_with (λ d i, if d =? 1 then 0 else i) sh ix.
Definition project sh ix : list Z := at_ones sh (drop (length ix - length sh) ix).

Lemma dot_bstrides sh : ∀ ix, length ix = length sh → dot ix (bstrides sh) = flat (at_ones sh ix) sh.
Proof. induction sh as [|d sh IH]; intros [|i ix] Hl; try done. cbn [bstrides dot at_ones zip_with flat]. fold (at_ones sh ix). rewrite IH by (simpl in Hl; lia). destruct (d =? 1); lia. Qed.

Lemma flat_ones m sh : ∀ ix, (m <= length ix)%nat → flat (at_ones (repeat 1 m ++ sh) ix) (repeat 1 m ++ sh) = flat (at_ones sh (drop m ix)) sh.
Proof. induction m as [|m IH]; intros [|i ix] Hl; simpl in Hl; try lia; try done. cbn [repeat app at_ones zip_with flat drop]. fold (at_ones (repeat 1 m ++ sh) ix). rewrite IH by lia. change (1 =? 1) with true. cbn iota. lia. Qed.

Lemma valid_ones m sh : ∀ ix, (m <= length ix)%nat → valid (at_ones (repeat 1 m ++ sh) ix) (repeat 1 m ++ sh) → valid (at_ones sh (drop m ix)) sh.
Proof. induction m as [|m IH]; intros [|i ix] Hl Hv; simpl in Hl; try lia; try done. cbn [repeat app at_ones zip_with drop] in *. inversion Hv; subst. apply IH; [lia|done]. Qed.

Lemma bstrides_nonneg sh : dims_ok sh → Forall (λ s, 0 <= s) (bstrides sh).
Proof. induction 1 as [|d sh Hd Hs IH]; constructor; [|done]. pose proof (volume_pos sh Hs). destruct (d =? 1); lia. Qed.

Lemma ones_valid P Q : ∀ ix, dims_ok P → dims_ok Q → length P = length Q → forallb (λ p, compat p.1 p.2) (zip P Q) = true → valid ix (zip_with Z.max P Q) → valid (at_ones P ix) P ∧ valid (at_ones Q ix) Q.
Proof.
  revert Q. induction P as [|d P IH]; intros [|e Q] ix Hp Hq Hl Hc Hv; try done. { split; constructor. }
  apply Forall_cons_1 in Hp as [Hd Hp]. apply Forall_cons_1 in Hq as [He Hq]. cbn [zip_with zip forallb fst snd] in *. apply andb_true_iff in Hc as [Hc Hcs].
  inversion Hv as [|i m ix' l' Hi Hv' E1 E2]; subst. destruct (IH Q ix' Hp Hq ltac:(simpl in Hl; lia) Hcs Hv') as [I1 I2]. unfold compat in Hc. rewrite !orb_true_iff, !Z.eqb_eq in Hc.
  cbn [at_ones zip_with]. split; constructor; try done; destruct (Z.eqb_spec d 1), (Z.eqb_spec e 1); lia.
Qed.

(** One operand: the position that the strides give is that of the projected index. *)
Lemma operand_reads n sh ix :
  sized sh → (length sh <= n)%nat → length ix = n → Forall (λ i, 0 <= i) ix → valid (at_ones (padded n sh) ix) (padded n sh) →
  valid (project sh ix) sh ∧ index_from_strides ix (bstrides (padded n sh)) = Ret (flat (project sh ix) sh).
Proof.
  intros [Hd Hv] Hl Hx Hi Hp. unfold project. rewrite Hx. assert (valid (at_ones sh (drop (n - length sh) ix)) sh) as Hs by (apply valid_ones; [lia|done]). split; [done|].
  assert (dot ix (bstrides (padded n sh)) = flat (at_ones sh (drop (n - length sh) ix)) sh) as E.
  { rewrite dot_bstrides by (rewrite padded_length; lia). unfold padded. apply flat_ones. lia. }
  pose proof (flat_range _ _ Hs). rewrite index_from_strides_ok; [by rewrite E|done|by apply bstrides_nonneg, padded_dims|lia].
Qed.

(** C34. For two shapes without an axis of size 0 (such an axis broadcasts with one of size
    1 to a shape that reads outside of its empty data, [empty_axis_broadcasts]) whose numbers
    of elements fit in 64 bits: broadcasting succeeds exactly when their sizes, aligned at the
    last axis, are equal or 1; the result has the greater size on every axis; and the two
    lists of strides read, at every index of the result, each operand at the index that
    leaves out its missing axes and is 0 on its axes of size 1, within its data. *)
Theorem broadcast_reads a b :
  sized a → sized b → Z.of_nat (Nat.max (length a) (length b)) <= U64_MAX →
  let n := Nat.max (length a) (length b) in
  if forallb (λ p, compat p.1 p.2) (zip (padded n a) (padded n b)) then
    ∃ out sa sb, broadcast_shape a b = Ret (Some out) ∧ out = zip_with Z.max (padded n a) (padded n b) ∧ broadcast_strides a b out = Ret (sa, sb) ∧
      ∀ ix, valid ix out →
        valid (project a ix) a ∧ index_from_strides ix sa = Ret (flat (project a ix) a) ∧
        valid (project b ix) b ∧ index_from_strides ix sb = Ret (flat (project b ix) b)
  else broadcast_shape a b = Ret None.
Proof.
  intros Ha Hb Hn n. pose proof (broadcast_shape_ok a b) as ES. fold n in ES. destruct (forallb _ _) eqn:Ec; [|done]. destruct (bc_length a b) as [L1 L2]. fold n in L1, L2.
  exists (zip_with Z.max (padded n a) (padded n b)), (bstrides (padded n a)), (bstrides (padded n b)). split_and!; [done|done|apply broadcast_strides_ok; [done|done|done|rewrite length_zip_with; lia]|].
  intros ix Hx. pose proof (list.Forall2_length _ _ _ Hx) as Hl. rewrite length_zip_with in Hl. pose proof (valid_nonneg _ _ Hx) as Hi. pose proof Ha as [Hda _]. pose proof Hb as [Hdb _].
  destruct (ones_valid (padded n a) (padded n b) ix) as [V1 V2]; [by apply padded_dims|by apply padded_dims|lia|done|done|].
  destruct (operand_reads n a ix) as [A1 A2]; [done|unfold n; lia|lia|done|done|]. destruct (operand_reads n b ix) as [B1 B2]; [done|unfold n; lia|lia|done|done|]. done.
Qed.

(** ** What the code does beyond this *)

(** Iteration over a view without axes does not end: nothing sets [done]. *)
Lemma scalar_view_never_ends {T} (d : list T) x fuel :
  d !! 0%nat = Some x → zlen d <= U64_MAX → TensorView.to_vec fuel (mkView d 0 [] []) = Timeout.
Proof.
  intros Hx Hd. unfold TensorView.to_vec. cbn [shape IndexIterator.new product product_loop obind]. change (1 =? 0) with false. cbn [length repeat].
  induction fuel as [|fuel IH]; [done|]. cbn [TensorView.view_iter IndexIterator.next iter_done iter_shape indices length IndexIterator.advance obind].
  pose proof (lookup_lt_Some _ _ _ Hx) as Hl. unfold TensorView.get, TensorView.compute_flat_index. cbn [shape strides offset data length flat_loop negb obind].
  change (Z.of_nat 0 =? Z.of_nat 0) with true. cbn [negb obind]. rewrite (proj2 (Z.leb_gt _ _)) by lia. cbn [mbind option_bind obind]. change (Z.to_nat 0) with 0%nat. rewrite Hx. cbn [obind]. by rewrite IH.
Qed.

(** A slice that selects nothing loses its axis instead of being empty, and an index beyond its axis reads another row. *)
Lemma empty_slice_shows_element :
  match TensorView.from_slice [10; 20; 30] [3] with
  | Ret v => match TensorView.slice [SliceRange.range 1 1] v with Ret w => shape w = [] ∧ TensorView.get [] w = Ret (Some 20) | _ => False end
  | _ => False
  end.
Proof. by vm_compute. Qed.

Lemma index_beyond_axis_reads :
  match TensorView.from_slice [1; 2; 3; 4] [2; 2] with
  | Ret v =>
    match SliceRange.index 0, SliceRange.index 2 with
    | Ret r0, Ret r2 => match TensorView.slice [r0; r2] v with Ret w => TensorView.get [0; 2] v = Ret None ∧ TensorView.get [] w = Ret (Some 3) | _ => False end
    | _, _ => False
    end
  | _ => False
  end.
Proof. by vm_compute. Qed.

(** An axis without elements broadcasts to one with an element. *)
Lemma empty_axis_broadcasts : broadcast_shape [0] [1] = Ret (Some [1]).
Proof. done. Qed.

(** ** Witnesses *)

Lemma sized_23 : sized [2; 3].
Proof. split; [by repeat constructor|done]. Qed.

Lemma index_iteration_witness :
  (let! it := IndexIterator.new [2; 3] in for_indices (index_fuel [2; 3]) it (λ ix (l : list (list Z)), Ret (l ++ [ix])) []) =
  for_range 0 (volume [2; 3]) (λ i l, Ret (l ++ [unravel i [2; 3]])) [].
Proof. exact (index_iteration [2; 3] (λ ix (l : list (list Z)), Ret (l ++ [ix])) [] sized_23 ltac:(discriminate)). Defined.

Definition whole23 : TensorView Z := mkView [1; 2; 3; 4; 5; 6] 0 [2; 3] [3; 1].

Lemma whole23_ok : view_ok whole23.
Proof. split; cbn [whole23 data offset shape strides]; try (done || by repeat constructor). Qed.

Lemma slice_selects_witness :
  ∃ w, TensorView.slice [SliceRange.all; SliceRange.new 0 3 2] whole23 = Ret w ∧ view_ok w ∧
    ∀ ix, valid ix (shape w) → valid (lift 0 (shape whole23) [SliceRange.all; SliceRange.new 0 3 2] ix) (shape whole23) ∧ TensorView.get ix w = TensorView.get (lift 0 (shape whole23) [SliceRange.all; SliceRange.new 0 3 2] ix) whole23.
Proof. apply (slice_selects whole23 [SliceRange.all; SliceRange.new 0 3 2] whole23_ok). vm_compute. repeat split; try done; discriminate. Defined.

Lemma views_in_bounds_witness :
  (valid [1; 2] (shape whole23) ∧ ∃ x, TensorView.get [1; 2] whole23 = Ret (Some x) ∧ x ∈ [1; 2; 3; 4; 5; 6]) ∨ (¬ valid [1; 2] (shape whole23) ∧ TensorView.get [1; 2] whole23 = Ret None).
Proof. apply (views_in_bounds [1; 2; 3; 4; 5; 6] whole23 [1; 2]); [apply (made_whole _ [2; 3]); [exact sized_23|done|done]|by repeat constructor]. Defined.

Lemma broadcast_reads_witness :
  let n := Nat.max (length [2; 1]) (length [3]) in
  if forallb (λ p, compat p.1 p.2) (zip (padded n [2; 1]) (padded n [3])) then
    ∃ out sa sb, broadcast_shape [2; 1] [3] = Ret (Some out) ∧ out = zip_with Z.max (padded n [2; 1]) (padded n [3]) ∧ broadcast_strides [2; 1] [3] out = Ret (sa, sb) ∧
      ∀ ix, valid ix out →
        valid (project [2; 1] ix) [2; 1] ∧ index_from_strides ix sa = Ret (flat (project [2; 1] ix) [2; 1]) ∧
        valid (project [3] ix) [3] ∧ index_from_strides ix sb = Ret (flat (project [3] ix) [3])
  else broadcast_shape [2; 1] [3] = Ret None.
Proof. apply (broadcast_reads [2; 1] [3]); [split; [by repeat constructor|done]|split; [by repeat constructor|done]|simpl; lia]. Defined.
