(* ===== verification/Agent.v ===== *)
(** * Agents (mielin-cells/src/agent.rs, dna.rs and the basic policy of policy.rs)

    The life cycle of an agent with its history, errors and recovery.  The time of a
    call and the identifier of a new agent are arguments. *)

From stdpp Require Import base tactics option list numbers strings.
From S2P Require Import Prelude Bytes.

(* src: mielin-cells/src/policy.rs 10-14 Policy *)
Record Policy : Type := mkPolicy { min_battery_percent : Z; max_latency_ms : Z; preferred_architectures : list string }.

Module Policy.

(* src: mielin-cells/src/policy.rs 17-23 Policy::default *)
Definition default : Policy := mkPolicy 20 100 [].
(* src: mielin-cells/src/policy.rs 27-29 Policy::allows_low_battery *)
Definition allows_low_battery (self : Policy) : bool := min_battery_percent self =? 0.
(** Only that it fails is kept of the message. *)
(* src: mielin-cells/src/policy.rs 32-43 Policy::validate *)
Definition validate (self : Policy) : bool := negb ((100 <? min_battery_percent self) || (max_latency_ms self =? 0)).

End Policy.

(* src: mielin-cells/src/dna.rs 6-9 Dna *)
Record Dna : Type := mkDna { wasm_binary : list Z; hash : list Z }.

Module Dna.

(* src: mielin-cells/src/dna.rs 17-23 Dna::compute_hash *)
Definition compute_hash (data : list Z) : list Z :=
  let h := repeat 0 32 in
  if is_empty data then h else <[0%nat := as_u8 (zlen data)]> h.
(* src: mielin-cells/src/dna.rs 12-15 Dna::new *)
Definition new (wasm_binary : list Z) : Dna := mkDna wasm_binary (compute_hash wasm_binary).

End Dna.

(* src: mielin-cells/src/agent.rs 120-135 AgentState *)
Inductive AgentState : Type := Created | Running | Paused | Suspended | Migrating | Error | Terminated.

#[export] Instance AgentState_eq_dec : EqDecision AgentState.
Proof. solve_decision. Defined.

Module AgentState.

(* src: mielin-cells/src/agent.rs 139-172 AgentState::can_transition_to *)
Definition can_transition_to (self target : AgentState) : bool :=
  match self, target with
  | Created, (Running | Terminated) => true
  | Running, (Paused | Suspended | Migrating | Error | Terminated) => true
  | Paused, (Running | Suspended | Migrating | Terminated) => true
  | Suspended, (Running | Paused | Migrating | Error | Terminated) => true
  | Migrating, (Running | Error | Terminated) => true
  | Error, (Running | Suspended | Terminated) => true
  | _, _ => false
  end.
(* src: mielin-cells/src/agent.rs 175-177 AgentState::is_active *)
Definition is_active (self : AgentState) : bool := match self with Running => true | _ => false end.
(* src: mielin-cells/src/agent.rs 180-182 AgentState::can_accept_work *)
Definition can_accept_work (self : AgentState) : bool := match self with Running | Created => true | _ => false end.
(* src: mielin-cells/src/agent.rs 185-190 AgentState::is_recoverable *)
Definition is_recoverable (self : AgentState) : bool := match self with Error | Suspended | Paused => true | _ => false end.
(* src: mielin-cells/src/agent.rs 193-195 AgentState::is_terminal *)
Definition is_terminal (self : AgentState) : bool := match self with Terminated => true | _ => false end.

End AgentState.

(* src: mielin-cells/src/agent.rs 200-211 AgentError *)
Record AgentError : Type := mkError { message : string; code : option Z; error_time : Z; recovery_attempts : Z; fatal : bool }.

Module AgentError.

(* src: mielin-cells/src/agent.rs 214-225 AgentError::new *)
Definition new (now : Z) (message : string) : AgentError := mkError message None now 0 false.
(* src: mielin-cells/src/agent.rs 227-230 AgentError::with_code *)
Definition with_code (c : Z) (self : AgentError) : AgentError := mkError (message self) (Some c) (error_time self) (recovery_attempts self) (fatal self).
(* src: mielin-cells/src/agent.rs 232-235 AgentError::fatal *)
Definition set_fatal (self : AgentError) : AgentError := mkError (message self) (code self) (error_time self) (recovery_attempts self) true.
(* src: mielin-cells/src/agent.rs 238-240 AgentError::attempt_recovery *)
Definition attempt_recovery (self : AgentError) : outcome AgentError :=
  let! n := u32_add (recovery_attempts self) 1 in
  Ret (mkError (message self) (code self) (error_time self) n (fatal self)).

End AgentError.

(* src: mielin-cells/src/agent.rs 258-265 TransitionResult *)
Inductive TransitionResult : Type := Success | InvalidTransition (from to : AgentState) | Blocked (reason : string).

(* src: mielin-cells/src/agent.rs 268-279 Agent *)
Record Agent : Type := mkAgent {
  id : list Z;
  dna : Dna;
  state : AgentState;
  policy : Policy;
  error : option AgentError;
  state_entered_at : Z;
  state_history : list (AgentState * Z);
}.

Module Agent.
Implicit Types (self : Agent) (now : Z).

(* src: mielin-cells/src/agent.rs 283-283 Agent::MAX_STATE_HISTORY *)
Definition MAX_STATE_HISTORY : Z := 10.

(** [uuid] is the fresh identifier. *)
(* src: mielin-cells/src/agent.rs 285-296 Agent::new *)
Definition new (uuid : list Z) now (wasm_binary : list Z) : Agent :=
  mkAgent uuid (Dna.new wasm_binary) Created Policy.default None now [(Created, now)].

(** The current state is pushed and, beyond the maximum, the oldest entry removed. *)
(* src: mielin-cells/src/agent.rs 337-340 Agent::transition_to_with_reason (history) *)
Definition record_history now self : list (AgentState * Z) :=
  let h := state_history self ++ [(state self, now)] in
  if MAX_STATE_HISTORY <? zlen h then tail h else h.

(* src: mielin-cells/src/agent.rs 322-353 Agent::transition_to_with_reason *)
Definition transition_to_with_reason now (new_state : AgentState) (reason : option string) self : TransitionResult * Agent :=
  if negb (AgentState.can_transition_to (state self) new_state) then (InvalidTransition (state self) new_state, self)
  else
    let h := record_history now self in
    let e := if decide (state self = Error ∧ new_state ≠ Error) then None else error self in
    (Success, mkAgent (id self) (dna self) new_state (policy self) e now h).

(* src: mielin-cells/src/agent.rs 317-319 Agent::transition_to *)
Definition transition_to now (new_state : AgentState) self : TransitionResult * Agent := transition_to_with_reason now new_state None self.

(* src: mielin-cells/src/agent.rs 356-375 Agent::set_error *)
Definition set_error now (e : AgentError) self : TransitionResult * Agent :=
  if negb (AgentState.can_transition_to (state self) Error) then (InvalidTransition (state self) Error, self)
  else (Success, mkAgent (id self) (dna self) Error (policy self) (Some e) now (record_history now self)).

(* src: mielin-cells/src/agent.rs 383-401 Agent::attempt_recovery *)
Definition attempt_recovery now self : outcome (TransitionResult * Agent) :=
  if decide (state self = Error) then
    match error self with
    | Some err =>
      if fatal err then Ret (Blocked "Fatal error cannot be recovered", self)
      else
        let! err := AgentError.attempt_recovery err in
        Ret (transition_to now Running (mkAgent (id self) (dna self) (state self) (policy self) (Some err) (state_entered_at self) (state_history self)))
    | None => Ret (transition_to now Running self)
    end
  else Ret (InvalidTransition (state self) Running, self).

(* src: mielin-cells/src/agent.rs 404-413 Agent::set_state *)
Definition set_state now (s : AgentState) self : Agent := mkAgent (id self) (dna self) s (policy self) (error self) now (record_history now self).

(* src: mielin-cells/src/agent.rs 423-425 Agent::set_policy *)
Definition set_policy (p : Policy) self : Agent := mkAgent (id self) (dna self) (state self) p (error self) (state_entered_at self) (state_history self).

(* src: mielin-cells/src/agent.rs 428-430 Agent::can_pause *)
Definition can_pause self : bool := AgentState.can_transition_to (state self) Paused.
(* src: mielin-cells/src/agent.rs 433-435 Agent::pause *)
Definition pause now self : TransitionResult * Agent := transition_to now Paused self.
(* src: mielin-cells/src/agent.rs 438-440 Agent::resume *)
Definition resume now self : TransitionResult * Agent := transition_to now Running self.
(* src: mielin-cells/src/agent.rs 443-445 Agent::suspend *)
Definition suspend now self : TransitionResult * Agent := transition_to now Suspended self.
(* src: mielin-cells/src/agent.rs 448-450 Agent::start *)
Definition start now self : TransitionResult * Agent := transition_to now Running self.
(* src: mielin-cells/src/agent.rs 453-455 Agent::terminate *)
Definition terminate now self : TransitionResult * Agent := transition_to now Terminated self.
(* src: mielin-cells/src/agent.rs 458-460 Agent::begin_migration *)
Definition begin_migration now self : TransitionResult * Agent := transition_to now Migrating self.
(* src: mielin-cells/src/agent.rs 463-465 Agent::complete_migration *)
Definition complete_migration now self : TransitionResult * Agent := transition_to now Running self.

End Agent.
