(* ===== verification/Migrate.v ===== *)
(** * Migration of agents (mielin-cells/src/migration)

    Run-length compression and the choice among compressors (functions.rs), deltas of
    pages, the tracker of dirty pages and the incremental migrator (types/delta.rs).
    A position in a byte slice is kept as the rest of the slice.  The clock is an
    argument: [None] is a time before the epoch. *)

From Stdlib Require Import SpecFloat.
From stdpp Require Import base tactics option list numbers gmap strings.
From S2P Require Import Prelude Bytes Float.

(** [[u8; 16]]. *)
Abbreviation Id := (list Z) (only parsing).

(* src: mielin-cells/src/lib.rs 105-112 CellError *)
Inductive CellError : Type := ExecutionFailed (s : string) | MigrationFailed (s : string) | InvalidState (s : string).

(* src: mielin-cells/src/migration/functions.rs 9-9 PAGE_SIZE *)
Definition PAGE_SIZE : Z := 4096.

(** [a.div_ceil(b)]. *)
Definition div_ceil (a b : Z) : Z := (a + b - 1) / b.

(** ** Compression *)

(** The inner loop: how often [byte] follows, at most 127 times in all. *)
(* src: mielin-cells/src/migration/functions.rs 26-29 simple_compress (inner loop) *)
Fixpoint count_run (byte count : Z) (rest : list Z) : Z * list Z :=
  match rest with
  | b :: rest' => if (b =? byte) && (count <? 127) then count_run byte (count + 1) rest' else (count, rest)
  | [] => (count, rest)
  end.

(** What a round of the outer loop pushes. *)
(* src: mielin-cells/src/migration/functions.rs 30-44 simple_compress (round) *)
Definition push_run (byte count : Z) : list Z :=
  if (4 <=? count) || (byte =? 255) then [255; as_u8 count; byte]
  else concat (repeat (if byte =? 255 then [255; 1; 255] else [byte]) (Z.to_nat count)).

(* src: mielin-cells/src/migration/functions.rs 24-46 simple_compress (loop) *)
Fixpoint compress_loop (fuel : nat) (data : list Z) : outcome (list Z) :=
  match fuel with
  | O => Timeout
  | S fuel' =>
    match data with
    | [] => Ret []
    | byte :: rest =>
      let '(count, rest) := count_run byte 1 rest in
      let! result := compress_loop fuel' rest in
      Ret (push_run byte count ++ result)
    end
  end.

(* src: mielin-cells/src/migration/functions.rs 21-48 simple_compress *)
Definition simple_compress (data : list Z) : outcome (list Z) := compress_loop (S (length data)) data.

(* src: mielin-cells/src/migration/functions.rs 50-67 simple_decompress *)
Fixpoint simple_decompress (data : list Z) : list Z :=
  match data with
  | [] => []
  | b :: rest =>
    if b =? 255 then
      match rest with
      | count :: byte :: rest' => repeat byte (Z.to_nat count) ++ simple_decompress rest'
      | _ => b :: simple_decompress rest
      end
    else b :: simple_decompress rest
  end.

(* src: mielin-cells/src/migration/functions.rs 71-73 simple_checksum (loop) *)
Fixpoint checksum_loop (i sum : Z) (data : list Z) : Z :=
  match data with
  | [] => sum
  | byte :: rest => checksum_loop (i + 1) (wrap32 (sum + wrap32 (byte * wrap32 (as_u32 i + 1)))) rest
  end.
(* src: mielin-cells/src/migration/functions.rs 69-75 simple_checksum *)
Definition simple_checksum (data : list Z) : Z := checksum_loop 0 0 data.

(** The third-party compressors. *)
Class Compressors : Type := {
  compress_prepend_size : list Z → list Z;
  decompress_size_prepended : list Z → option (list Z);
  encode_all : list Z → Z → option (list Z);
  decode_all : list Z → option (list Z);
}.

(* src: mielin-cells/src/migration/functions.rs 100-109 CompressionMethod *)
Inductive CompressionMethod : Type := Rle | Lz4 | ZstdDefault | ZstdHigh.

Module CompressionMethod.

(** [self as u8]. *)
Definition as_u8 (self : CompressionMethod) : Z := match self with Rle => 0 | Lz4 => 1 | ZstdDefault => 2 | ZstdHigh => 3 end.
(* src: mielin-cells/src/migration/functions.rs 113-121 CompressionMethod::from_u8 *)
Definition from_u8 (value : Z) : option CompressionMethod :=
  match value with 0 => Some Rle | 1 => Some Lz4 | 2 => Some ZstdDefault | 3 => Some ZstdHigh | _ => None end.

End CompressionMethod.

Section adaptive.
Context `{Compressors}.

(* src: mielin-cells/src/migration/functions.rs 78-80 lz4_compress *)
Definition lz4_compress (data : list Z) : list Z := compress_prepend_size data.
(* src: mielin-cells/src/migration/functions.rs 83-85 lz4_decompress *)
Definition lz4_decompress (data : list Z) : option (list Z) := decompress_size_prepended data.
(* src: mielin-cells/src/migration/functions.rs 88-90 zstd_compress *)
Definition zstd_compress (data : list Z) (level : Z) : option (list Z) := encode_all data level.
(* src: mielin-cells/src/migration/functions.rs 93-95 zstd_decompress *)
Definition zstd_decompress (data : list Z) : option (list Z) := decode_all data.

(* src: mielin-cells/src/migration/functions.rs 12-12 ZSTD_DEFAULT_LEVEL *)
Definition ZSTD_DEFAULT_LEVEL : Z := 3.
(* src: mielin-cells/src/migration/functions.rs 14-14 ZSTD_HIGH_LEVEL *)
Definition ZSTD_HIGH_LEVEL : Z := 10.

(** [if c.len() < best_size { .. }]. *)
(* src: mielin-cells/src/migration/functions.rs 166-170 adaptive_compress (choice) *)
Definition better (best c : list Z * CompressionMethod) : list Z * CompressionMethod :=
  if decide (length c.1 < length best.1)%nat then c else best.

(* src: mielin-cells/src/migration/functions.rs 140-178 adaptive_compress *)
Definition adaptive_compress (data : list Z) : outcome (list Z * Z) :=
  let! rle := simple_compress data in
  let '(d, m) :=
    if zlen data <? 256 then (rle, Rle)
    else
      let lz4 := lz4_compress data in
      if zlen data <? 4096 then better (rle, Rle) (lz4, Lz4)
      else
        let zstd := default data (zstd_compress data ZSTD_DEFAULT_LEVEL) in
        better (better (rle, Rle) (lz4, Lz4)) (zstd, ZstdDefault) in
  Ret (d, CompressionMethod.as_u8 m).

(* src: mielin-cells/src/migration/functions.rs 182-211 adaptive_compress_aggressive *)
Definition adaptive_compress_aggressive (data : list Z) : outcome (list Z * Z) :=
  let! rle := simple_compress data in
  let lz4 := lz4_compress data in
  let zstd_default := default data (zstd_compress data ZSTD_DEFAULT_LEVEL) in
  let zstd_high := default data (zstd_compress data ZSTD_HIGH_LEVEL) in
  let '(d, m) := better (better (better (rle, Rle) (lz4, Lz4)) (zstd_default, ZstdDefault)) (zstd_high, ZstdHigh) in
  Ret (d, CompressionMethod.as_u8 m).

(* src: mielin-cells/src/migration/functions.rs 214-221 adaptive_decompress *)
Definition adaptive_decompress (data : list Z) (method : Z) : option (list Z) :=
  match CompressionMethod.from_u8 method with
  | None => None
  | Some Rle => Some (simple_decompress data)
  | Some Lz4 => lz4_decompress data
  | Some (ZstdDefault | ZstdHigh) => zstd_decompress data
  end.

End adaptive.

(** ** Pages *)

(* src: mielin-cells/src/migration/types/delta.rs 11-18 DirtyPage *)
Record DirtyPage : Type := mkPage { index : Z; page_data : list Z; compressed : bool }.

Module DirtyPage.

(* src: mielin-cells/src/migration/types/delta.rs 22-28 DirtyPage::new *)
Definition new (index : Z) (data : list Z) : DirtyPage := mkPage index data false.

(* src: mielin-cells/src/migration/types/delta.rs 31-40 DirtyPage::compress *)
Definition compress (self : DirtyPage) : outcome DirtyPage :=
  if compressed self || is_empty (page_data self) then Ret self
  else
    let! c := simple_compress (page_data self) in
    Ret (if zlen c <? zlen (page_data self) then mkPage (index self) c true else self).

(* src: mielin-cells/src/migration/types/delta.rs 43-49 DirtyPage::decompress *)
Definition decompress (self : DirtyPage) : DirtyPage :=
  if negb (compressed self) || is_empty (page_data self) then self
  else mkPage (index self) (simple_decompress (page_data self)) false.

(* src: mielin-cells/src/migration/types/delta.rs 52-58 DirtyPage::get_data *)
Definition get_data (self : DirtyPage) : list Z := if compressed self then simple_decompress (page_data self) else page_data self.

End DirtyPage.

(** ** Deltas *)

(* src: mielin-cells/src/migration/types/delta.rs 63-78 DeltaSnapshot *)
Record DeltaSnapshot : Type := mkDelta {
  delta_agent : Id; sequence : Z; base_sequence : Z; dirty_pages : list DirtyPage; total_size : Z; timestamp : Z; checksum : Z
}.

(** The clock in seconds; [Err] when it stands before the epoch. *)
Definition now_secs (clock : option Z) : result Z CellError :=
  match clock with Some t => Ok t | None => Err (InvalidState "Time error") end.

Module DeltaSnapshot.

(* src: mielin-cells/src/migration/types/delta.rs 96-106 DeltaSnapshot::create (loop) *)
Definition create_page (old_state new_state : list Z) (i : Z) (pages : list DirtyPage) : outcome (list DirtyPage) :=
  let! start := usize_mul i PAGE_SIZE in
  let! e := usize_add start PAGE_SIZE in
  let e := Z.min e (zlen new_state) in
  let! old_page := slice old_state start e in
  let! new_page := slice new_state start e in
  if decide (old_page = new_page) then Ret pages
  else
    let! page := DirtyPage.compress (DirtyPage.new (as_u32 i) new_page) in
    Ret (pages ++ [page]).

(* src: mielin-cells/src/migration/types/delta.rs 82-121 DeltaSnapshot::create *)
Definition create (clock : option Z) (agent_id : Id) (old_state new_state : list Z) (base_sequence sequence : Z) : outcome (result DeltaSnapshot CellError) :=
  if negb (zlen old_state =? zlen new_state) then Ret (Err (InvalidState "State sizes must match for delta"))
  else
    let! dirty_pages := for_range 0 (div_ceil (zlen new_state) PAGE_SIZE) (create_page old_state new_state) [] in
    let? t := Ret (now_secs clock) in
    Ret (Ok (mkDelta agent_id sequence base_sequence dirty_pages (zlen new_state) t (simple_checksum new_state))).

(** [base[start..end].copy_from_slice(&data[..end - start])]. *)
Definition copy_from (base : list Z) (start e : Z) (data : list Z) : outcome (list Z) :=
  let! _ := slice base start e in
  let! n := usize_sub e start in
  let! d := slice data 0 n in
  Ret (take (Z.to_nat start) base ++ d ++ drop (Z.to_nat e) base).

(* src: mielin-cells/src/migration/types/delta.rs 128-138 DeltaSnapshot::apply (loop) *)
Fixpoint apply_pages (pages : list DirtyPage) (base : list Z) : outcome (result unit CellError * list Z) :=
  match pages with
  | [] => Ret (Ok (), base)
  | page :: pages' =>
    let! start := usize_mul (index page) PAGE_SIZE in
    let data := DirtyPage.get_data page in
    let! e := usize_add start (zlen data) in
    let e := Z.min e (zlen base) in
    if zlen base <? e then Ret (Err (InvalidState "Delta page exceeds state size"), base)
    else
      let! base := copy_from base start e data in
      apply_pages pages' base
  end.

(** The base state is changed in place, also when an error is returned. *)
(* src: mielin-cells/src/migration/types/delta.rs 124-146 DeltaSnapshot::apply *)
Definition apply (self : DeltaSnapshot) (base : list Z) : outcome (result unit CellError * list Z) :=
  let base := if zlen base <? total_size self then base ++ repeat 0 (Z.to_nat (total_size self - zlen base)) else base in
  let! (r, base) := apply_pages (dirty_pages self) base in
  match r with
  | Err e => Ret (Err e, base)
  | Ok _ =>
    if simple_checksum base =? checksum self then Ret (Ok (), base)
    else Ret (Err (InvalidState "Delta checksum mismatch"), base)
  end.

(* src: mielin-cells/src/migration/types/delta.rs 149-151 DeltaSnapshot::dirty_page_count *)
Definition dirty_page_count (self : DeltaSnapshot) : Z := zlen (dirty_pages self).
(* src: mielin-cells/src/migration/types/delta.rs 154-156 DeltaSnapshot::compressed_size *)
Definition compressed_size (self : DeltaSnapshot) : Z := sum_by (λ p, zlen (page_data p)) (dirty_pages self).
(* src: mielin-cells/src/migration/types/delta.rs 159-161 DeltaSnapshot::uncompressed_size *)
Definition uncompressed_size (self : DeltaSnapshot) : outcome Z := usize_mul (zlen (dirty_pages self)) PAGE_SIZE.
(* src: mielin-cells/src/migration/types/delta.rs 164-170 DeltaSnapshot::compression_ratio *)
Definition compression_ratio (self : DeltaSnapshot) : outcome spec_float :=
  let! u := uncompressed_size self in
  Ret (if u =? 0 then f64_one else f64_div (f64_of_u64 (compressed_size self)) (f64_of_u64 u)).

End DeltaSnapshot.

(** ** The tracker of dirty pages *)

(* src: mielin-cells/src/migration/types/delta.rs 188-199 DirtyPageTracker *)
Record DirtyPageTracker : Type := mkTracker { tracker_agent : Id; dirty_bitmap : list Z; num_pages : Z; last_state : list Z; tracker_sequence : Z }.

(** The bits of a word that are set; [fuel] is its width. *)
Fixpoint count_ones (fuel : nat) (w : Z) : Z :=
  match fuel with O => 0 | S fuel' => w mod 2 + count_ones fuel' (w / 2) end.

Module DirtyPageTracker.
Implicit Types self : DirtyPageTracker.

Definition set_bitmap (b : list Z) self : DirtyPageTracker := mkTracker (tracker_agent self) b (num_pages self) (last_state self) (tracker_sequence self).

(* src: mielin-cells/src/migration/types/delta.rs 203-213 DirtyPageTracker::new *)
Definition new (agent_id : Id) (state_size : Z) : DirtyPageTracker :=
  let num_pages := div_ceil state_size PAGE_SIZE in
  mkTracker agent_id (repeat 0 (Z.to_nat (div_ceil num_pages 64))) num_pages [] 0.

(* src: mielin-cells/src/migration/types/delta.rs 259-263 DirtyPageTracker::clear_all *)
Definition clear_all self : DirtyPageTracker := set_bitmap ((λ _, 0) <$> dirty_bitmap self) self.

(* src: mielin-cells/src/migration/types/delta.rs 216-220 DirtyPageTracker::initialize *)
Definition initialize (state : list Z) self : DirtyPageTracker :=
  let self := clear_all (mkTracker (tracker_agent self) (dirty_bitmap self) (num_pages self) state (tracker_sequence self)) in
  mkTracker (tracker_agent self) (dirty_bitmap self) (num_pages self) (last_state self) 1.

(* src: mielin-cells/src/migration/types/delta.rs 223-229 DirtyPageTracker::mark_dirty *)
Definition mark_dirty (page_index : Z) self : outcome DirtyPageTracker :=
  if page_index <? num_pages self then
    let word := page_index / 64 in
    let bit := page_index mod 64 in
    let! w := arr_get (dirty_bitmap self) word in
    let! b := arr_set (dirty_bitmap self) word (Z.lor w (Z.shiftl 1 bit)) in
    Ret (set_bitmap b self)
  else Ret self.

(* src: mielin-cells/src/migration/types/delta.rs 232-238 DirtyPageTracker::mark_range_dirty *)
Definition mark_range_dirty (offset len : Z) self : outcome DirtyPageTracker :=
  let start_page := offset / PAGE_SIZE in
  let! e := usize_add offset len in
  let end_page := div_ceil e PAGE_SIZE in
  for_range start_page (Z.min end_page (num_pages self)) mark_dirty self.

(* src: mielin-cells/src/migration/types/delta.rs 241-248 DirtyPageTracker::is_dirty *)
Definition is_dirty (page_index : Z) self : outcome bool :=
  if num_pages self <=? page_index then Ret false
  else
    let word := page_index / 64 in
    let bit := page_index mod 64 in
    let! w := arr_get (dirty_bitmap self) word in
    Ret (negb (Z.land w (Z.shiftl 1 bit) =? 0)).

(* src: mielin-cells/src/migration/types/delta.rs 251-256 DirtyPageTracker::dirty_count *)
Definition dirty_count self : Z := sum_by (count_ones 64) (dirty_bitmap self).

(* src: mielin-cells/src/migration/types/delta.rs 266-289 DirtyPageTracker::create_delta *)
Definition create_delta (clock : option Z) (current_state : list Z) self : outcome (result DeltaSnapshot CellError * DirtyPageTracker) :=
  let base_sequence := tracker_sequence self in
  let! n := usize_add (tracker_sequence self) 1 in
  let self := mkTracker (tracker_agent self) (dirty_bitmap self) (num_pages self) (last_state self) n in
  if is_empty (last_state self) then
    let self := mkTracker (tracker_agent self) (dirty_bitmap self) (num_pages self) current_state n in
    let! r := DeltaSnapshot.create clock (tracker_agent self) (repeat 0 (length current_state)) current_state 0 n in
    Ret (r, self)
  else
    let! r := DeltaSnapshot.create clock (tracker_agent self) (last_state self) current_state base_sequence n in
    match r with
    | Err e => Ret (Err e, self)
    | Ok delta => Ret (Ok delta, clear_all (mkTracker (tracker_agent self) (dirty_bitmap self) (num_pages self) current_state n))
    end.

End DirtyPageTracker.

(** ** Statistics and the migrator *)

(* src: mielin-cells/src/migration/types/delta.rs 299-314 MigrationStats *)
Record MigrationStats : Type := mkStats {
  bytes_transferred : Z; bytes_saved_compression : Z; bytes_saved_delta : Z; full_migrations : Z; incremental_migrations : Z;
  avg_delta_ratio : spec_float; total_time_us : Z
}.

Module MigrationStats.
Implicit Types self : MigrationStats.

(** [#[derive(Default)]]. *)
Definition default : MigrationStats := mkStats 0 0 0 0 0 f64_zero 0.

(* src: mielin-cells/src/migration/types/delta.rs 318-322 MigrationStats::record_full *)
Definition record_full (size time_us : Z) self : outcome MigrationStats :=
  let! b := usize_add (bytes_transferred self) size in
  let! f := usize_add (full_migrations self) 1 in
  let! t := usize_add (total_time_us self) time_us in
  Ret (mkStats b (bytes_saved_compression self) (bytes_saved_delta self) f (incremental_migrations self) (avg_delta_ratio self) t).

(* src: mielin-cells/src/migration/types/delta.rs 325-333 MigrationStats::record_incremental *)
Definition record_incremental (delta_size full_size time_us : Z) self : outcome MigrationStats :=
  let! b := usize_add (bytes_transferred self) delta_size in
  let! saved := usize_sub full_size delta_size in
  let! d := usize_add (bytes_saved_delta self) saved in
  let! i := usize_add (incremental_migrations self) 1 in
  let! t := usize_add (total_time_us self) time_us in
  let ratio := f64_div (f64_of_u64 delta_size) (f64_of_u64 (Z.max full_size 1)) in
  let! total := usize_add (full_migrations self) i in
  let! before := usize_sub total 1 in
  let avg := f64_div (f64_add (f64_mul (avg_delta_ratio self) (f64_of_u64 before)) ratio) (f64_of_u64 total) in
  Ret (mkStats b (bytes_saved_compression self) d (full_migrations self) i avg t).

(* src: mielin-cells/src/migration/types/delta.rs 336-338 MigrationStats::record_compression *)
Definition record_compression (uncompressed compressed : Z) self : outcome MigrationStats :=
  let! saved := usize_sub uncompressed compressed in
  let! c := usize_add (bytes_saved_compression self) saved in
  Ret (mkStats (bytes_transferred self) c (bytes_saved_delta self) (full_migrations self) (incremental_migrations self) (avg_delta_ratio self) (total_time_us self)).

(* src: mielin-cells/src/migration/types/delta.rs 341-347 MigrationStats::overall_compression_ratio *)
Definition overall_compression_ratio self : outcome spec_float :=
  let! total := usize_add (bytes_transferred self) (bytes_saved_compression self) in
  Ret (if total =? 0 then f64_one else f64_div (f64_of_u64 (bytes_transferred self)) (f64_of_u64 total)).

End MigrationStats.

(* src: mielin-cells/src/migration/types/delta.rs 359-364 IncrementalMigrator *)
Record IncrementalMigrator : Type := mkMigrator { trackers : gmap Id DirtyPageTracker; migration_stats : MigrationStats }.

Module IncrementalMigrator.
Implicit Types self : IncrementalMigrator.

(* src: mielin-cells/src/migration/types/delta.rs 368-373 IncrementalMigrator::new *)
Definition new : IncrementalMigrator := mkMigrator ∅ MigrationStats.default.

(* src: mielin-cells/src/migration/types/delta.rs 376-380 IncrementalMigrator::start_tracking *)
Definition start_tracking (agent_id : Id) (initial_state : list Z) self : IncrementalMigrator :=
  mkMigrator (<[agent_id := DirtyPageTracker.initialize initial_state (DirtyPageTracker.new agent_id (zlen initial_state))]> (trackers self)) (migration_stats self).

(* src: mielin-cells/src/migration/types/delta.rs 383-385 IncrementalMigrator::stop_tracking *)
Definition stop_tracking (agent_id : Id) self : IncrementalMigrator := mkMigrator (delete agent_id (trackers self)) (migration_stats self).

(* src: mielin-cells/src/migration/types/delta.rs 388-392 IncrementalMigrator::mark_dirty *)
Definition mark_dirty (agent_id : Id) (offset len : Z) self : outcome IncrementalMigrator :=
  match trackers self !! agent_id with
  | Some t => let! t := DirtyPageTracker.mark_range_dirty offset len t in Ret (mkMigrator (<[agent_id := t]> (trackers self)) (migration_stats self))
  | None => Ret self
  end.

(** [elapsed] is the time that [create_delta] takes, in microseconds. *)
(* src: mielin-cells/src/migration/types/delta.rs 395-411 IncrementalMigrator::create_incremental *)
Definition create_incremental (clock : option Z) (elapsed : Z) (agent_id : Id) (current_state : list Z) self : outcome (result DeltaSnapshot CellError * IncrementalMigrator) :=
  match trackers self !! agent_id with
  | None => Ret (Err (InvalidState "Agent not being tracked for incremental migration"), self)
  | Some t =>
    let! (r, t) := DirtyPageTracker.create_delta clock current_state t in
    let self := mkMigrator (<[agent_id := t]> (trackers self)) (migration_stats self) in
    match r with
    | Err e => Ret (Err e, self)
    | Ok delta =>
      let! s := MigrationStats.record_incremental (DeltaSnapshot.compressed_size delta) (zlen current_state) elapsed (migration_stats self) in
      let! u := DeltaSnapshot.uncompressed_size delta in
      let! s := MigrationStats.record_compression u (DeltaSnapshot.compressed_size delta) s in
      Ret (Ok delta, mkMigrator (trackers self) s)
    end
  end.

(* src: mielin-cells/src/migration/types/delta.rs 414-416 IncrementalMigrator::is_tracking *)
Definition is_tracking (agent_id : Id) self : bool := bool_decide (is_Some (trackers self !! agent_id)).
(* src: mielin-cells/src/migration/types/delta.rs 419-421 IncrementalMigrator::get_sequence *)
Definition get_sequence (agent_id : Id) self : option Z := tracker_sequence <$> trackers self !! agent_id.
(* src: mielin-cells/src/migration/types/delta.rs 429-431 IncrementalMigrator::reset_stats *)
Definition reset_stats self : IncrementalMigrator := mkMigrator (trackers self) MigrationStats.default.

End IncrementalMigrator.
