(* ===== verification/MigrateProps.v ===== *)
(** * Theorems about migration

    Compression round trips, deltas carry one state into the next, replicas follow their
    agents, and the bitmap is the set of the pages that were marked. *)

From stdpp Require Import base tactics option list numbers gmap strings.
From S2P Require Import Prelude Bytes Float Migrate.

Definition bytes (l : list Z) : Prop := Forall is_byte l.

(** ** Compression *)

Lemma count_run_spec byte rest : ∀ count,
  1 <= count <= 127 →
  ∃ k rest', count_run byte count rest = (count + Z.of_nat k, rest') ∧ rest = repeat byte k ++ rest' ∧ count + Z.of_nat k <= 127.
Proof.
  induction rest as [|b rest IH]; intros count Hc; cbn [count_run].
  { exists 0%nat, []. split_and!; [f_equal; lia|done|lia]. }
  destruct (Z.eqb_spec b byte) as [->|]; destruct (Z.ltb_spec count 127); cbn [andb];
    try (eexists 0%nat, _; split_and!; [f_equal; lia|done|lia]).
  destruct (IH (count + 1)) as (k & rest' & -> & -> & Hk); [lia|].
  exists (S k), rest'. split_and!; [f_equal; lia|done|lia].
Qed.

Lemma decompress_run byte count rest :
  is_byte byte → 1 <= count <= 127 →
  simple_decompress (push_run byte count ++ rest) = repeat byte (Z.to_nat count) ++ simple_decompress rest.
Proof.
  intros Hb Hc. unfold push_run. destruct (Z.leb_spec 4 count); [|destruct (Z.eqb_spec byte 255) as [->|Hne]]; cbn [orb].
  - cbn [app simple_decompress]. change (255 =? 255) with true. cbn iota. by rewrite as_u8_small by lia.
  - cbn [app simple_decompress]. change (255 =? 255) with true. cbn iota. by rewrite as_u8_small by lia.
  - generalize (Z.to_nat count). intros n. induction n as [|n IH]; [done|]. cbn [repeat concat app simple_decompress].
    rewrite (proj2 (Z.eqb_neq _ _)) by done. by rewrite IH.
Qed.

Lemma push_run_length byte count : 1 <= count <= 127 → zlen (push_run byte count) <= 3 * count.
Proof.
  intros Hc. unfold push_run. destruct (_ || _) eqn:E; [simpl; lia|]. apply orb_false_iff in E as [_ ->].
  assert (∀ n, length (concat (repeat [byte] n)) = n) as -> by (induction n as [|n IH]; simpl; lia). lia.
Qed.

Lemma compress_loop_ok fuel : ∀ data,
  bytes data → (length data < fuel)%nat →
  ∃ c, compress_loop fuel data = Ret c ∧ simple_decompress c = data ∧ zlen c <= 3 * zlen data.
Proof.
  induction fuel as [|fuel IH]; intros data Hd Hf; [lia|]. destruct data as [|byte rest]; [by exists []|]. cbn [compress_loop].
  apply Forall_cons in Hd as [Hb Hr]. destruct (count_run_spec byte rest 1) as (k & rest' & -> & -> & Hk); [lia|].
  cbn [length] in Hf. rewrite length_app, repeat_length in Hf. apply Forall_app in Hr as [_ Hr].
  destruct (IH rest' Hr) as (c & -> & Ec & Hl); [lia|]. cbn [obind]. eexists. split; [done|]. split.
  - rewrite decompress_run by (done || lia). rewrite Ec. replace (Z.to_nat (1 + Z.of_nat k)) with (S k) by lia. done.
  - pose proof (push_run_length byte (1 + Z.of_nat k) ltac:(lia)). cbn [length]. rewrite !length_app, repeat_length. lia.
Qed.

Lemma compress_ok data : bytes data → ∃ c, simple_compress data = Ret c ∧ simple_decompress c = data ∧ zlen c <= 3 * zlen data.
Proof. intros Hd. apply compress_loop_ok; [done|lia]. Qed.

(** C36. Run-length compression ends on every slice of bytes, is undone by
    decompression, and never makes a slice longer than three times its length. *)
Theorem compression_roundtrip data :
  bytes data → ∃ c, simple_compress data = Ret c ∧ simple_decompress c = data ∧ zlen c <= 3 * zlen data.
Proof. apply compress_ok. Qed.

(** ** The choice of a compressor *)

(** What the documentation of the crates says: decompression undoes compression. *)
Class CompressorLaws `{Compressors} : Prop := {
  lz4_undone data : bytes data → decompress_size_prepended (compress_prepend_size data) = Some data;
  zstd_undone data level c : bytes data → encode_all data level = Some c → decode_all c = Some data;
}.

Section adaptive.
Context `{CompressorLaws}.

Definition undone (data : list Z) (p : list Z * CompressionMethod) : Prop := adaptive_decompress p.1 (CompressionMethod.as_u8 p.2) = Some data.

Lemma better_undone data p q : undone data p → undone data q → undone data (better p q).
Proof. unfold better. by case_decide. Qed.

(** The choice is no longer than any candidate. *)
Lemma better_short p q : (length (better p q).1 <= length p.1)%nat.
Proof. unfold better. case_decide; lia. Qed.

Lemma zstd_default_undone data level m :
  bytes data → is_Some (encode_all data level) → m = ZstdDefault ∨ m = ZstdHigh → undone data (default data (zstd_compress data level), m).
Proof.
  intros Hd [c Ec] Hm. unfold undone, zstd_compress. rewrite Ec. cbn [fst snd default].
  pose proof (zstd_undone data level c Hd Ec) as E. by destruct Hm as [-> | ->].
Qed.

(** Both adaptive compressors, where the third-party encoder does not fail, give
    bytes and a method from which adaptive decompression returns the data; the result
    is never longer than that of run-length compression. *)
Theorem adaptive_roundtrip data :
  bytes data → is_Some (encode_all data ZSTD_DEFAULT_LEVEL) → is_Some (encode_all data ZSTD_HIGH_LEVEL) →
  ∃ r c m c' m', simple_compress data = Ret r ∧
    adaptive_compress data = Ret (c, m) ∧ adaptive_decompress c m = Some data ∧ (length c <= length r)%nat ∧
    adaptive_compress_aggressive data = Ret (c', m') ∧ adaptive_decompress c' m' = Some data ∧ (length c' <= length r)%nat.
Proof.
  intros Hd Hz Hz'. destruct (compress_ok data Hd) as (r & Er & Ed & _). exists r.
  assert (undone data (r, Rle)) as H1 by (change (Some (simple_decompress r) = Some data); by rewrite Ed).
  assert (undone data (lz4_compress data, Lz4)) as H2 by (by apply lz4_undone).
  pose proof (zstd_default_undone data ZSTD_DEFAULT_LEVEL ZstdDefault Hd Hz ltac:(auto)) as H3.
  pose proof (zstd_default_undone data ZSTD_HIGH_LEVEL ZstdHigh Hd Hz' ltac:(auto)) as H4.
  unfold adaptive_compress, adaptive_compress_aggressive. rewrite Er. cbn [obind].
  set (b1 := better (r, Rle) (lz4_compress data, Lz4)). set (b2 := better b1 (default data (zstd_compress data ZSTD_DEFAULT_LEVEL), ZstdDefault)).
  set (b3 := better b2 (default data (zstd_compress data ZSTD_HIGH_LEVEL), ZstdHigh)).
  assert (undone data b1) as U1 by by apply better_undone. assert (undone data b2) as U2 by by apply better_undone.
  assert (undone data b3) as U3 by by apply better_undone.
  assert (length b1.1 <= length r)%nat as L1 by apply (better_short (r, Rle)). pose proof (better_short b1 (default data (zstd_compress data ZSTD_DEFAULT_LEVEL), ZstdDefault)) as L2.
  pose proof (better_short b2 (default data (zstd_compress data ZSTD_HIGH_LEVEL), ZstdHigh)) as L3. fold b2 in L2. fold b3 in L3.
  assert (∃ b, (if zlen data <? 256 then (r, Rle) else if zlen data <? 4096 then b1 else b2) = b ∧ undone data b ∧ (length b.1 <= length r)%nat) as ([c m] & -> & Uc & Lc).
  { eexists. split; [done|]. destruct (zlen data <? 256), (zlen data <? 4096); split; (done || lia). }
  destruct b3 as [c' m'] eqn:E3. exists c, (CompressionMethod.as_u8 m), c', (CompressionMethod.as_u8 m'). cbn [fst] in *. split_and!; (done || lia).
Qed.
End adaptive.

(** ** The checksum *)

Fixpoint weighted (i : Z) (l : list Z) : Z := match l with [] => 0 | b :: l' => b * (i + 1) + weighted (i + 1) l' end.

Lemma checksum_weighted l : ∀ i sum,
  0 <= i → i + zlen l < 4294967296 → checksum_loop i (wrap32 sum) l = wrap32 (sum + weighted i l).
Proof.
  induction l as [|b l IH]; intros i sum Hi Hl; cbn [checksum_loop weighted]; [f_equal; lia|]. cbn [length] in Hl.
  rewrite (as_u32_small i), (wrap32_small (i + 1)) by lia.
  replace (wrap32 (wrap32 sum + wrap32 (b * (i + 1)))) with (wrap32 (sum + b * (i + 1))).
  - rewrite IH by lia. f_equal. lia.
  - unfold wrap32. by rewrite <- Zplus_mod.
Qed.

Lemma weighted_insert l : ∀ i k a b,
  l !! k = Some a → weighted i (<[k := b]> l) = weighted i l + (b - a) * (i + Z.of_nat k + 1).
Proof.
  induction l as [|x l IH]; intros i k a b Hk; [done|]. destruct k as [|k].
  - injection Hk as ->. change (<[0%nat := b]> (a :: l)) with (b :: l). cbn [weighted]. lia.
  - change (<[S k := b]> (x :: l)) with (x :: <[k := b]> l). cbn [weighted]. rewrite (IH (i + 1) k a b Hk). lia.
Qed.

(** The checksum changes when one byte changes, in states of up to 16 MiB. *)
Lemma checksum_detects_byte l k a b :
  l !! k = Some a → is_byte a → is_byte b → a ≠ b → zlen l <= 2 ^ 24 → simple_checksum (<[k := b]> l) ≠ simple_checksum l.
Proof.
  intros Hk Ha Hb Hne Hl E. unfold simple_checksum in E. change 0 with (wrap32 0) in E at 2 4.
  pose proof (lookup_lt_Some _ _ _ Hk) as Hlt. change (2 ^ 24) with 16777216 in Hl.
  rewrite !checksum_weighted in E by (rewrite ?length_insert; lia). rewrite (weighted_insert l 0 k a b Hk) in E.
  unfold wrap32, is_byte in *. set (w := weighted 0 l) in E. set (d := (b - a) * (0 + Z.of_nat k + 1)) in E.
  assert (d ≠ 0 ∧ -4294967296 < d < 4294967296) as [Hd Hd'].
  { unfold d. split; [nia|]. assert (1 <= 0 + Z.of_nat k + 1 <= 16777216) as Hq by lia. assert (-255 <= b - a <= 255) as Hr by lia. nia. }
  Z.div_mod_to_equations. nia.
Qed.

(** ** Pages of a state *)

Definition page_of (l : list Z) (j : nat) : list Z := take 4096 (drop (4096 * j) l).

(** The number of pages. *)
Definition pages_of (l : list Z) : Z := div_ceil (zlen l) PAGE_SIZE.

Lemma pages_of_lt l j : Z.of_nat j < pages_of l ↔ 4096 * Z.of_nat j < zlen l.
Proof. unfold pages_of, div_ceil, PAGE_SIZE. Z.div_mod_to_equations. lia. Qed.

Lemma page_length l j : length (page_of l j) = (4096 `min` (length l - 4096 * j))%nat.
Proof. unfold page_of. by rewrite length_take, length_drop. Qed.

Lemma page_lookup l j k : (k < 4096)%nat → page_of l j !! k = l !! (4096 * j + k)%nat.
Proof. intros Hk. unfold page_of. by rewrite lookup_take_lt, lookup_drop by done. Qed.

Lemma page_bytes l j : bytes l → bytes (page_of l j).
Proof. intros Hl. apply Forall_take, Forall_drop, Hl. Qed.

(** [l[j * PAGE_SIZE..min(..)]]. *)
Lemma page_slice l j n :
  Z.of_nat j < pages_of l → n = zlen l → slice l (Z.of_nat j * 4096) (Z.min (Z.of_nat j * 4096 + 4096) n) = Ret (page_of l j).
Proof.
  intros Hj%pages_of_lt ->. unfold slice.
  rewrite (proj2 (Z.leb_le 0 _)), (proj2 (Z.leb_le (Z.of_nat j * 4096) _)), (proj2 (Z.leb_le _ (zlen l))) by lia. cbn [andb]. f_equal.
  unfold page_of. replace (Z.to_nat (Z.of_nat j * 4096)) with (4096 * j)%nat by lia.
  destruct (decide (4096 <= length (drop (4096 * j) l))%nat) as [Hd|Hd]; rewrite length_drop in Hd.
  - do 2 f_equal. lia.
  - rewrite !take_ge; [done|rewrite length_drop; lia|rewrite length_drop; lia].
Qed.

Lemma div_page (j k : nat) : (k `div` 4096 = j ↔ 4096 * j <= k < 4096 * j + 4096)%nat.
Proof. pose proof (Nat.div_mod k 4096). pose proof (Nat.mod_upper_bound k 4096). split; intros; nia. Qed.

(** States that agree on every page are equal. *)
Lemma lookup_by_page l l' k : page_of l (k `div` 4096) = page_of l' (k `div` 4096) → l !! k = l' !! k.
Proof.
  intros E. destruct (proj1 (div_page (k `div` 4096) k) eq_refl) as [H1 H2].
  assert (page_of l (k `div` 4096) !! (k - 4096 * (k `div` 4096))%nat = page_of l' (k `div` 4096) !! (k - 4096 * (k `div` 4096))%nat) as E' by by rewrite E.
  rewrite !page_lookup in E' by lia. by replace (4096 * (k `div` 4096) + (k - 4096 * (k `div` 4096)))%nat with k in E' by lia.
Qed.

(** ** Deltas *)

(** Page numbers are kept in 32 bits: states of up to 2^44 bytes. *)
Definition state_ok (l : list Z) : Prop := bytes l ∧ zlen l <= 2 ^ 44.

Lemma state_pages l : state_ok l → 0 <= pages_of l <= 2 ^ 32 ∧ pages_of l * 4096 <= zlen l + 4095.
Proof. intros [_ Hl]. unfold pages_of, div_ceil, PAGE_SIZE. change (2 ^ 44) with 17592186044416 in Hl. change (2 ^ 32) with 4294967296. Z.div_mod_to_equations. lia. Qed.

(** The page holds what the state has there. *)
Definition page_ok (new : list Z) (p : DirtyPage) : Prop :=
  ∃ j, index p = Z.of_nat j ∧ Z.of_nat j < pages_of new ∧ DirtyPage.get_data p = page_of new j ∧ zlen (page_data p) <= zlen (page_of new j).

Lemma compress_page i data :
  bytes data → ∃ p, DirtyPage.compress (DirtyPage.new i data) = Ret p ∧ index p = i ∧ DirtyPage.get_data p = data ∧ zlen (page_data p) <= zlen data.
Proof.
  intros Hd. unfold DirtyPage.compress, DirtyPage.new. cbn [compressed page_data]. destruct (is_empty data); cbn [orb].
  { eexists. split; [done|]. by split_and!. }
  destruct (compress_ok data Hd) as (c & -> & E & _). cbn [obind index]. eexists. split; [done|].
  destruct (Z.ltb_spec (zlen c) (zlen data)); (split_and!; [done| |]); cbn [page_data DirtyPage.get_data compressed]; (done || lia).
Qed.

Definition page_sizes (ps : list DirtyPage) : Z := sum_by (λ p, zlen (page_data p)) ps.

(** After [i] rounds of [create]. *)
Definition create_inv (old new : list Z) (i : Z) (ps : list DirtyPage) : Prop :=
  Forall (page_ok new) ps ∧ (∀ j, Z.of_nat j < i → page_of old j ≠ page_of new j → ∃ p, p ∈ ps ∧ index p = Z.of_nat j) ∧
  zlen ps <= i ∧ page_sizes ps <= Z.min (i * 4096) (zlen new) ∧ page_sizes ps <= zlen ps * 4096.

Lemma create_page_ok old new i ps :
  state_ok new → length old = length new → 0 <= i < pages_of new → create_inv old new i ps →
  returns (DeltaSnapshot.create_page old new i ps) (create_inv old new (i + 1)).
Proof.
  intros Hn Hl Hi (H1 & H2 & H3 & H4 & H5). destruct (state_pages new Hn) as [Hp Hp']. change (2 ^ 32) with 4294967296 in Hp. destruct Hn as [Hb Hn]. change (2 ^ 44) with 17592186044416 in Hn.
  set (j := Z.to_nat i). replace i with (Z.of_nat j) in * by lia. clearbody j. clear i.
  pose proof (proj1 (pages_of_lt new j) ltac:(lia)) as Hj. unfold DeltaSnapshot.create_page, PAGE_SIZE. rewrite usize_mul_ok by lia. cbn [obind].
  rewrite usize_add_ok by lia. cbn [obind]. rewrite (page_slice old) by (rewrite ?Hl; try done; unfold pages_of in *; rewrite Hl; lia). cbn [obind].
  rewrite (page_slice new) by (done || lia). cbn [obind]. pose proof (page_length new j) as Hlen.
  assert (∀ k, Z.of_nat k < Z.of_nat j + 1 → k = j ∨ Z.of_nat k < Z.of_nat j) as Hk by lia.
  destruct (decide (page_of old j = page_of new j)) as [E|E].
  { split_and!; [done| |lia|lia|done]. intros k [-> |Hk']%Hk Hne; [done|by apply H2]. }
  destruct (compress_page (as_u32 (Z.of_nat j)) (page_of new j) (page_bytes _ _ Hb)) as (p & -> & Ei & Ed & El). cbn [obind].
  rewrite as_u32_small in Ei by lia. assert (page_ok new p) as Hok by (exists j; split_and!; (done || lia)).
  split_and!; [apply Forall_app; by repeat constructor| | | |]; unfold page_sizes in *; rewrite ?length_app, ?sum_by_app, ?sum_by_cons; try (change (sum_by (λ p, zlen (page_data p)) []) with 0; cbn [length]; lia).
  intros k [-> |Hk']%Hk Hne; [exists p; split; [apply elem_of_app; right; constructor|done]|]. destruct (H2 k Hk' Hne) as (q & Hq & Eq). exists q. split; [apply elem_of_app; by left|done].
Qed.

Lemma create_ok clock a old new b s :
  state_ok new → length old = length new →
  ∃ ps, create_inv old new (pages_of new) ps ∧
    DeltaSnapshot.create clock a old new b s = Ret match now_secs clock with Ok t => Ok (mkDelta a s b ps (zlen new) t (simple_checksum new)) | Err e => Err e end.
Proof.
  intros Hn Hl. destruct (state_pages new Hn) as [Hp _]. unfold DeltaSnapshot.create. rewrite Hl, Z.eqb_refl. cbn [negb].
  pose proof (for_range_rule (create_inv old new) 0 (pages_of new) (DeltaSnapshot.create_page old new) [] ltac:(lia)) as HR.
  apply returns_ret in HR as (ps & E & Hps).
  - exists ps. split; [done|]. change (div_ceil (zlen new) PAGE_SIZE) with (pages_of new). rewrite E. cbn [obind rbind]. by destruct (now_secs clock).
  - split_and!; [done|lia|done| |done]. unfold page_sizes. cbn [sum_by foldr]. lia.
  - intros i ps Hi HI. by apply create_page_ok.
Qed.

(** *** Applying a delta *)

Lemma copy_page base new p j :
  length base = length new → index p = Z.of_nat j → Z.of_nat j < pages_of new →
  let base' := take (4096 * j) base ++ page_of new j ++ drop (4096 * j + length (page_of new j)) base in
  length base' = length new ∧ ∀ k, base' !! k = if decide (k `div` 4096 = j)%nat then new !! k else base !! k.
Proof.
  intros Hl _ Hj%pages_of_lt base'. pose proof (page_length new j) as Hlen. split.
  { unfold base'. rewrite !length_app, length_take, length_drop. lia. }
  intros k. unfold base'. rewrite lookup_app, length_take. pose proof (div_page j k) as Hd.
  destruct (decide (k < 4096 * j)%nat).
  { rewrite lookup_take_lt by lia. destruct (base !! k) eqn:E; [|apply lookup_ge_None in E; lia]. by rewrite decide_False by lia. }
  rewrite lookup_take_ge by lia. rewrite lookup_app. replace (k - (4096 * j) `min` length base)%nat with (k - 4096 * j)%nat by lia.
  destruct (decide (k < 4096 * j + length (page_of new j))%nat).
  { rewrite decide_True by lia. rewrite page_lookup by lia. replace (4096 * j + (k - 4096 * j))%nat with k by lia.
    destruct (new !! k) eqn:E; [done|]. apply lookup_ge_None in E. lia. }
  rewrite (lookup_ge_None_2 (page_of new j)) by lia. rewrite lookup_drop. replace (4096 * j + length (page_of new j) + (k - 4096 * j - length (page_of new j)))%nat with k by lia.
  case_decide as Hc; [|done]. rewrite !lookup_ge_None_2; [done|lia|lia].
Qed.

Lemma apply_pages_ok new ps : ∀ base,
  state_ok new → length base = length new → Forall (page_ok new) ps →
  ∃ base', DeltaSnapshot.apply_pages ps base = Ret (Ok (), base') ∧ length base' = length new ∧
    ∀ k, base' !! k = new !! k ∨ (base' !! k = base !! k ∧ ∀ p, p ∈ ps → index p ≠ Z.of_nat (k `div` 4096)).
Proof.
  induction ps as [|p ps IH]; intros base Hn Hl Hps.
  { exists base. split_and!; [done|done|]. intros k. right. split; [done|]. by intros p Hp%elem_of_nil. }
  apply Forall_cons in Hps as [(j & Ei & Hj & Ed & _) Hps]. destruct (state_pages new Hn) as [Hp' _]. destruct Hn as [Hb Hn].
  pose proof (page_length new j) as Hlen. pose proof (proj1 (pages_of_lt new j) Hj) as Hj'.
  cbn [DeltaSnapshot.apply_pages]. unfold PAGE_SIZE. change (2 ^ 44) with 17592186044416 in Hn. rewrite Ei, Ed, usize_mul_ok by lia. cbn [obind]. rewrite usize_add_ok by lia. cbn [obind].
  rewrite Z.min_l by lia. ltb_false. unfold DeltaSnapshot.copy_from.
  assert (∃ m, slice base (Z.of_nat j * 4096) (Z.of_nat j * 4096 + zlen (page_of new j)) = Ret m) as [m ->].
  { unfold slice. rewrite !(proj2 (Z.leb_le _ _)) by lia. by eexists. }
  cbn [obind]. rewrite usize_sub_ok by lia. cbn [obind]. replace (Z.of_nat j * 4096 + zlen (page_of new j) - Z.of_nat j * 4096) with (zlen (page_of new j)) by lia.
  rewrite (slice_tail (page_of new j) 0) by lia. cbn [Z.to_nat drop obind].
  replace (Z.to_nat (Z.of_nat j * 4096)) with (4096 * j)%nat by lia. replace (Z.to_nat (Z.of_nat j * 4096 + zlen (page_of new j))) with (4096 * j + length (page_of new j))%nat by lia.
  destruct (copy_page base new p j Hl Ei Hj) as [Hl' Hk']. destruct (IH _ (conj Hb Hn) Hl' Hps) as (base' & E & Hlb & Hb'). exists base'. split_and!; [done|done|].
  intros k. destruct (Hb' k) as [->|[-> Hne]]; [by left|]. rewrite Hk'. case_decide as Hd; [by left|]. right. split; [done|].
  intros q [-> |Hq]%elem_of_cons; [rewrite Ei; lia|by apply Hne].
Qed.

(** A delta from [old] to [new] applied to [old], or to no more than the beginning of zeros it starts from. *)
Lemma apply_ok d old new base :
  state_ok new → length old = length new → base ++ repeat 0 (length new - length base) = old ∨ base = old →
  create_inv old new (pages_of new) (dirty_pages d) → total_size d = zlen new → checksum d = simple_checksum new →
  DeltaSnapshot.apply d base = Ret (Ok (), new).
Proof.
  intros Hn Hl Hbase (H1 & H2 & _) Et Ec. unfold DeltaSnapshot.apply. rewrite Et, Ec.
  replace (if zlen base <? zlen new then base ++ repeat 0 (Z.to_nat (zlen new - zlen base)) else base) with old; cycle 1.
  { destruct (Z.ltb_spec (zlen base) (zlen new)) as [Hlt|Hge].
    - destruct Hbase as [<-|E]; [do 2 f_equal; lia|subst; lia].
    - destruct Hbase as [<-|E]; [|done]. replace (length new - length base)%nat with 0%nat by lia. by rewrite app_nil_r. }
  destruct (apply_pages_ok new (dirty_pages d) old Hn Hl H1) as (base' & -> & Hlb & Hb). cbn [obind].
  replace base' with new; [by rewrite Z.eqb_refl|]. apply list_eq. intros k. destruct (Hb k) as [->|[-> Hne]]; [done|].
  destruct (decide (page_of old (k `div` 4096) = page_of new (k `div` 4096))) as [E|E]; [symmetry; by apply lookup_by_page|].
  destruct (decide (k < length new)%nat); [|rewrite !lookup_ge_None_2; [done|lia|lia]].
  destruct (H2 (k `div` 4096)%nat) as (p & Hp & Ep); [|done|by destruct (Hne p Hp)].
  apply pages_of_lt. pose proof (proj1 (div_page (k `div` 4096) k) eq_refl). lia.
Qed.

(** A delta carries the state it was made from into the state it was made for:
    it can be made for any two states of one size, and applied to the first one it
    returns the second without an error. *)
Theorem delta_roundtrip t a old new b s :
  state_ok new → length old = length new →
  ∃ d, DeltaSnapshot.create (Some t) a old new b s = Ret (Ok d) ∧ DeltaSnapshot.apply d old = Ret (Ok (), new).
Proof.
  intros Hn Hl. destruct (create_ok (Some t) a old new b s Hn Hl) as (ps & Hps & E). eexists. split; [exact E|]. apply (apply_ok _ old); auto.
Qed.

(** ** The bitmap *)

Record tracker_ok (t : DirtyPageTracker) : Prop := {
  tr_words : zlen (dirty_bitmap t) = div_ceil (num_pages t) 64;
  tr_pages : 0 <= num_pages t <= 2 ^ 32;
}.

Lemma page_word t p : tracker_ok t → 0 <= p < num_pages t → 0 <= p / 64 < zlen (dirty_bitmap t) ∧ 0 <= p mod 64 < 64.
Proof. intros [H1 H2] Hp. rewrite H1. unfold div_ceil. Z.div_mod_to_equations. lia. Qed.

(** The page is marked. *)
Definition marked (t : DirtyPageTracker) (p : Z) : bool :=
  (p <? num_pages t) && Z.testbit (default 0 (dirty_bitmap t !! Z.to_nat (p / 64))) (p mod 64).

Lemma is_dirty_marked t p : tracker_ok t → 0 <= p → DirtyPageTracker.is_dirty p t = Ret (marked t p).
Proof.
  intros Ht Hp. unfold DirtyPageTracker.is_dirty, marked. rewrite Z.leb_antisym. destruct (Z.ltb_spec p (num_pages t)) as [Hlt|]; [|done]. cbn [negb andb].
  destruct (page_word t p Ht) as [Hw Hb]; [lia|]. destruct (arr_get_range (dirty_bitmap t) (p / 64) Hw) as (w & Ew & ->). cbn [obind].
  rewrite Ew. cbn [default from_option]. by rewrite test_bit by lia.
Qed.

Lemma mark_dirty_ok t p :
  tracker_ok t → 0 <= p →
  returns (DirtyPageTracker.mark_dirty p t) (λ t', tracker_ok t' ∧ last_state t' = last_state t ∧ tracker_sequence t' = tracker_sequence t ∧
    num_pages t' = num_pages t ∧ ∀ q, 0 <= q → marked t' q = marked t q || ((q =? p) && (q <? num_pages t))).
Proof.
  intros Ht Hp. unfold DirtyPageTracker.mark_dirty. destruct (Z.ltb_spec p (num_pages t)) as [Hlt|Hge]; cycle 1.
  { cbn [returns]. split_and!; [done..|]. intros q Hq. destruct (Z.eqb_spec q p), (Z.ltb_spec q (num_pages t)); try lia; by rewrite orb_false_r. }
  destruct (page_word t p Ht) as [Hw Hb]; [lia|]. destruct (arr_get_range (dirty_bitmap t) (p / 64) Hw) as (w & Ew & ->). cbn [obind].
  rewrite arr_set_ok by lia. cbn [obind returns]. destruct Ht as [H1 H2]. unfold DirtyPageTracker.set_bitmap. cbn [last_state tracker_sequence num_pages].
  split_and!; [split; cbn [dirty_bitmap num_pages]; rewrite ?length_insert; done|done..|].
  intros q Hq. unfold marked. cbn [dirty_bitmap num_pages]. destruct (Z.ltb_spec q (num_pages t)) as [Hq'|]; [|by rewrite andb_false_r]. cbn [andb]. rewrite andb_true_r.
  destruct (decide (q / 64 = p / 64)) as [E|E].
  - rewrite E, list_lookup_insert_eq, Ew by lia. change (Z.testbit (Z.lor w (Z.shiftl 1 (p mod 64))) (q mod 64) = Z.testbit w (q mod 64) || (q =? p)). rewrite Z.lor_spec, Z.shiftl_1_l, Z.pow2_bits_eqb by lia. f_equal.
    destruct (Z.eqb_spec q p), (Z.eqb_spec (p mod 64) (q mod 64)); try done; exfalso; subst; try done. pose proof (Z.div_mod q 64). pose proof (Z.div_mod p 64). lia.
  - rewrite list_lookup_insert_ne by (pose proof (Z.div_pos q 64); pose proof (Z.div_pos p 64); lia). destruct (Z.eqb_spec q p) as [->|]; [done|]. by rewrite orb_false_r.
Qed.

Lemma mark_range_ok t offset len :
  tracker_ok t → 0 <= offset → 0 <= len → offset + len <= U64_MAX →
  returns (DirtyPageTracker.mark_range_dirty offset len t) (λ t', tracker_ok t' ∧ last_state t' = last_state t ∧ tracker_sequence t' = tracker_sequence t ∧
    num_pages t' = num_pages t ∧ ∀ q, 0 <= q → marked t' q = marked t q || ((offset / 4096 <=? q) && (q <? div_ceil (offset + len) 4096) && (q <? num_pages t))).
Proof.
  intros Ht Ho Hl Hol. unfold DirtyPageTracker.mark_range_dirty, PAGE_SIZE. rewrite usize_add_ok by lia. cbn [obind].
  set (a := offset / 4096). assert (0 <= a) as Ha by (apply Z.div_pos; lia). set (b := div_ceil (offset + len) 4096).
  destruct (Z.leb_spec a (Z.min b (num_pages t))) as [Hab|Hab]; cycle 1.
  { unfold for_range. replace (Z.to_nat (Z.min b (num_pages t) - a)) with 0%nat by lia. cbn [for_loop returns]. split_and!; [done..|].
    intros q Hq. destruct (Z.leb_spec a q), (Z.ltb_spec q b), (Z.ltb_spec q (num_pages t)); try lia; cbn [andb]; by rewrite orb_false_r. }
  pose proof (for_range_rule (λ i t', tracker_ok t' ∧ last_state t' = last_state t ∧ tracker_sequence t' = tracker_sequence t ∧ num_pages t' = num_pages t ∧
    ∀ q, 0 <= q → marked t' q = marked t q || ((a <=? q) && (q <? i))) a (Z.min b (num_pages t)) DirtyPageTracker.mark_dirty t Hab) as HR.
  eapply returns_mono; [apply HR|].
  - split_and!; [done..|]. intros q Hq. destruct (Z.leb_spec a q), (Z.ltb_spec q a); try lia; cbn [andb]; by rewrite orb_false_r.
  - intros i t' Hi (H1 & H2 & H3 & H4 & H5). eapply returns_mono; [apply mark_dirty_ok; [done|lia]|]. cbn beta.
    intros t'' (G1 & G2 & G3 & G4 & G5). split_and!; [done|congruence..|]. intros q Hq. rewrite G5, H5, H4, <- orb_assoc by done. f_equal.
    destruct (Z.eqb_spec q i), (Z.leb_spec a q), (Z.ltb_spec q i), (Z.ltb_spec q (i + 1)), (Z.ltb_spec q (num_pages t)); try lia; done.
  - cbn beta. intros t' (H1 & H2 & H3 & H4 & H5). split_and!; [done..|]. intros q Hq. rewrite H5 by done. f_equal.
    destruct (Z.leb_spec a q), (Z.ltb_spec q b), (Z.ltb_spec q (num_pages t)), (Z.ltb_spec q (Z.min b (num_pages t))); try lia; done.
Qed.

(** Marking a range of bytes marks exactly the pages that the range touches, up to
    the number of pages that are tracked, and leaves the marks of all others. *)
Theorem marks_exact t offset len q :
  tracker_ok t → 0 <= offset → 0 < len → offset + len <= U64_MAX → 0 <= q →
  ∃ t', DirtyPageTracker.mark_range_dirty offset len t = Ret t' ∧
    (DirtyPageTracker.is_dirty q t' = Ret true ↔
     DirtyPageTracker.is_dirty q t = Ret true ∨ (q < num_pages t ∧ ∃ k, offset <= k < offset + len ∧ k / 4096 = q)).
Proof.
  intros Ht Ho Hl Hol Hq. pose proof (mark_range_ok t offset len Ht Ho ltac:(lia) Hol) as HR. apply returns_ret in HR as (t' & E & Ht' & _ & _ & _ & Hm).
  exists t'. split; [done|]. rewrite !is_dirty_marked, Hm by done.
  assert ((∃ k, offset <= k < offset + len ∧ k / 4096 = q) ↔ offset / 4096 <= q < div_ceil (offset + len) 4096) as Hk.
  { unfold div_ceil. split; [intros (k & Hk & <-); Z.div_mod_to_equations; lia|]. intros Hq'. exists (Z.max offset (q * 4096)). Z.div_mod_to_equations; lia. }
  rewrite Hk. destruct (marked t q); cbn [orb]; [split; auto|].
  destruct (Z.leb_spec (offset / 4096) q), (Z.ltb_spec q (div_ceil (offset + len) 4096)), (Z.ltb_spec q (num_pages t)); cbn [andb]; (split; [intros [=]|]); try lia;
    intros [?|?]; (done || lia).
Qed.

(** ** Replicas *)

(** What happens to a migrator; a snapshot comes with the clock and the time it takes. *)
Inductive call : Type :=
| Start (a : list Z) (state : list Z) | Stop (a : list Z) | Mark (a : list Z) (offset len : Z) | Snapshot (clock : option Z) (elapsed : Z) (a : list Z) (state : list Z) | ResetStats.

(** The other side applies every delta to its replica; [captured] is the state of the
    agent when its tracking was started or its last snapshot was taken. *)
Record world : Type := mkWorld { migrator : IncrementalMigrator; replicas : gmap (list Z) (list Z); captured : gmap (list Z) (list Z); applied : list (result unit CellError) }.

Definition call_step (c : call) (w : world) : outcome world :=
  let m := migrator w in
  match c with
  | Start a s => Ret (mkWorld (IncrementalMigrator.start_tracking a s m) (<[a := s]> (replicas w)) (<[a := s]> (captured w)) (applied w))
  | Stop a => Ret (mkWorld (IncrementalMigrator.stop_tracking a m) (delete a (replicas w)) (delete a (captured w)) (applied w))
  | Mark a offset len => let! m := IncrementalMigrator.mark_dirty a offset len m in Ret (mkWorld m (replicas w) (captured w) (applied w))
  | Snapshot clock elapsed a s =>
    let! (r, m) := IncrementalMigrator.create_incremental clock elapsed a s m in
    match r with
    | Err _ => Ret (mkWorld m (replicas w) (captured w) (applied w))
    | Ok d =>
      let! (r', base) := DeltaSnapshot.apply d (default [] (replicas w !! a)) in
      Ret (mkWorld m (<[a := base]> (replicas w)) (<[a := s]> (captured w)) (applied w ++ [r']))
    end
  | ResetStats => Ret (mkWorld (IncrementalMigrator.reset_stats m) (replicas w) (captured w) (applied w))
  end.

Fixpoint call_run (cs : list call) (w : world) : outcome world :=
  match cs with [] => Ret w | c :: cs' => let! w := call_step c w in call_run cs' w end.

Definition call_ok (c : call) : Prop :=
  match c with
  | Start _ s => state_ok s ∧ s ≠ []
  | Mark _ offset len => 0 <= offset ∧ 0 <= len ∧ offset + len <= U64_MAX
  | Snapshot _ elapsed _ s => state_ok s ∧ 0 <= elapsed <= 2 ^ 44
  | Stop _ | ResetStats => True
  end.

(** The counters after [n] calls. *)
Definition stats_ok (n : Z) (s : MigrationStats) : Prop :=
  0 <= bytes_transferred s <= n * 2 ^ 44 ∧ 0 <= bytes_saved_compression s <= n * 2 ^ 44 ∧ 0 <= bytes_saved_delta s <= n * 2 ^ 44 ∧
  full_migrations s = 0 ∧ 0 <= incremental_migrations s <= n ∧ 0 <= total_time_us s <= n * 2 ^ 44.

Definition follows (n : Z) (t : DirtyPageTracker) (r : list Z) : Prop := tracker_ok t ∧ last_state t = r ∧ r ≠ [] ∧ 0 <= tracker_sequence t <= n + 1.

Record world_ok (n : Z) (w : world) : Prop := {
  wo_stats : stats_ok n (migration_stats (migrator w));
  wo_tracked a : match trackers (migrator w) !! a, replicas w !! a with Some t, Some r => follows n t r | None, None => True | _, _ => False end;
  wo_captured : replicas w = captured w;
  wo_applied : Forall (λ r, r = Ok ()) (applied w);
}.

Lemma new_tracker_ok a s : state_ok s → tracker_ok (DirtyPageTracker.initialize s (DirtyPageTracker.new a (zlen s))).
Proof.
  intros Hs. destruct (state_pages s Hs) as [Hp _]. split; cbn [DirtyPageTracker.initialize DirtyPageTracker.clear_all DirtyPageTracker.set_bitmap DirtyPageTracker.new dirty_bitmap num_pages]; [|done].
  rewrite length_fmap, repeat_length. change (div_ceil (zlen s) PAGE_SIZE) with (pages_of s). apply Z2Nat.id. unfold div_ceil. apply Z.div_pos; lia.
Qed.

Lemma create_delta_ok n clock t r s :
  follows n t r → state_ok s → 0 <= n < 2 ^ 32 →
  ∃ res t', DirtyPageTracker.create_delta clock s t = Ret (res, t') ∧
    match res with
    | Err _ => follows (n + 1) t' r
    | Ok d => follows (n + 1) t' s ∧ DeltaSnapshot.apply d r = Ret (Ok (), s) ∧ create_inv r s (pages_of s) (dirty_pages d)
    end.
Proof.
  intros ([Ht1 Ht2] & Hr & Hne & Hseq) Hs Hn. change (2 ^ 32) with 4294967296 in Hn. unfold DirtyPageTracker.create_delta. rewrite usize_add_ok by lia. cbn [obind last_state]. rewrite Hr.
  destruct r as [|b r]; [done|]. cbn [is_empty tracker_agent]. set (old := b :: r) in *.
  assert (∀ st, tracker_ok (mkTracker (tracker_agent t) (dirty_bitmap t) (num_pages t) st (tracker_sequence t + 1))) as Htk by by intros; split.
  destruct (decide (length old = length s)) as [El|El]; cycle 1.
  { unfold DeltaSnapshot.create. rewrite (proj2 (Z.eqb_neq _ _)) by lia. cbn [negb obind]. do 2 eexists. split; [done|]. split_and!; [apply Htk|done|done|cbn [tracker_sequence]; lia..]. }
  destruct (create_ok clock (tracker_agent t) old s (tracker_sequence t) (tracker_sequence t + 1) Hs El) as (ps & Hps & ->). cbn [obind].
  destruct (now_secs clock) as [tm|e]; cycle 1.
  { do 2 eexists. split; [done|]. split_and!; [apply Htk|done|done|cbn [tracker_sequence]; lia..]. }
  do 2 eexists. split; [done|]. split; [|split; [apply (apply_ok _ old); auto|done]].
  unfold DirtyPageTracker.clear_all, DirtyPageTracker.set_bitmap. cbn [tracker_agent dirty_bitmap num_pages last_state tracker_sequence].
  split_and!; [split; cbn [dirty_bitmap num_pages]; rewrite ?length_fmap; done|done| |cbn [tracker_sequence]; lia..].
  intros ->. unfold old in El. cbn [length] in El. lia.
Qed.

Lemma stats_mono n s : 0 <= n → stats_ok n s → stats_ok (n + 1) s.
Proof. unfold stats_ok. change (2 ^ 44) with 17592186044416. lia. Qed.

Lemma page_sizes_nonneg ps : 0 <= page_sizes ps.
Proof. apply sum_by_nonneg. lia. Qed.

(** Checked additions and subtractions that stay in range. *)
Ltac checked_steps := repeat (first [rewrite usize_add_ok by lia | rewrite usize_sub_ok by lia]; cbn [obind]).

Lemma record_ok n st d old s elapsed :
  0 <= n < 2 ^ 19 → stats_ok n st → state_ok s → 0 <= elapsed <= 2 ^ 44 → create_inv old s (pages_of s) (dirty_pages d) →
  ∃ st1 u st2, MigrationStats.record_incremental (DeltaSnapshot.compressed_size d) (zlen s) elapsed st = Ret st1 ∧
    DeltaSnapshot.uncompressed_size d = Ret u ∧ MigrationStats.record_compression u (DeltaSnapshot.compressed_size d) st1 = Ret st2 ∧ stats_ok (n + 1) st2.
Proof.
  intros Hn Hst Hs He (_ & _ & H3 & H4 & H5). destruct (state_pages s Hs) as [Hp _]. destruct Hs as [_ Hs]. unfold stats_ok in *. pose proof (page_sizes_nonneg (dirty_pages d)) as H0.
  change (2 ^ 44) with 17592186044416 in *. change (2 ^ 32) with 4294967296 in *. change (2 ^ 19) with 524288 in *.
  unfold DeltaSnapshot.compressed_size. fold (page_sizes (dirty_pages d)). set (c := page_sizes (dirty_pages d)) in *.
  unfold MigrationStats.record_incremental. checked_steps.
  do 3 eexists. split; [done|]. unfold DeltaSnapshot.uncompressed_size, PAGE_SIZE. rewrite usize_mul_ok by lia. split; [done|].
  unfold MigrationStats.record_compression. cbn [bytes_saved_compression]. checked_steps.
  split; [done|]. cbn [bytes_transferred bytes_saved_compression bytes_saved_delta full_migrations incremental_migrations total_time_us]. lia.
Qed.

Lemma follows_mono n t r : follows n t r → follows (n + 1) t r.
Proof. unfold follows. intros (? & ? & ? & ?). split_and!; (done || lia). Qed.

(** One agent's tracker and replica change together, the others keep theirs. *)
Lemma tracked_insert (n : Z) (ts : gmap (list Z) DirtyPageTracker) (rs : gmap (list Z) (list Z)) (a : list Z) (t : DirtyPageTracker) (r : list Z) :
  (∀ b, match ts !! b, rs !! b with Some t, Some r => follows n t r | None, None => True | _, _ => False end) → follows (n + 1) t r →
  ∀ b, match <[a := t]> ts !! b, <[a := r]> rs !! b with Some t, Some r => follows (n + 1) t r | None, None => True | _, _ => False end.
Proof.
  intros H Hf b. destruct (decide (a = b)) as [<-|Hne]; [by rewrite !lookup_insert_eq|]. rewrite !lookup_insert_ne by done.
  specialize (H b). destruct (ts !! b), (rs !! b); try done. by apply follows_mono.
Qed.

Lemma tracked_mono (n : Z) (ts : gmap (list Z) DirtyPageTracker) (rs : gmap (list Z) (list Z)) (b : list Z) :
  match ts !! b, rs !! b with Some t, Some r => follows n t r | None, None => True | _, _ => False end →
  match ts !! b, rs !! b with Some t, Some r => follows (n + 1) t r | None, None => True | _, _ => False end.
Proof. destruct (ts !! b), (rs !! b); try done. apply follows_mono. Qed.

Lemma snapshot_ok n clock elapsed a s w :
  0 <= n < 2 ^ 19 → world_ok n w → state_ok s → 0 <= elapsed <= 2 ^ 44 → returns (call_step (Snapshot clock elapsed a s) w) (world_ok (n + 1)).
Proof.
  intros Hn [H1 H2 H3 H4] Hs He. cbn [call_step]. unfold IncrementalMigrator.create_incremental. pose proof (H2 a) as Ha.
  destruct (trackers (migrator w) !! a) as [t|] eqn:Et; cycle 1.
  { cbn [obind returns]. split; cbn [migrator replicas captured applied migration_stats]; [apply stats_mono; [lia|done]|intros b; apply tracked_mono, H2|done|done]. }
  destruct (replicas w !! a) as [r|] eqn:Er; [|done].
  destruct (create_delta_ok n clock t r s Ha Hs) as (res & t' & -> & Hres); [change (2 ^ 32) with 4294967296; change (2 ^ 19) with 524288 in Hn; lia|]. cbn [obind].
  destruct res as [d|e]; cycle 1.
  { cbn [obind returns]. split; cbn [migrator replicas captured applied migration_stats trackers]; [apply stats_mono; [lia|done]| |done|done].
    intros b. pose proof (tracked_insert n _ _ a t' r H2 Hres b) as Hb. by rewrite (insert_id (replicas w) a r Er) in Hb. }
  destruct Hres as (Hf & Happ & Hinv). destruct (record_ok n (migration_stats (migrator w)) d r s elapsed Hn H1 Hs He Hinv) as (st1 & u & st2 & E1 & E2 & E3 & Hst).
  cbn [migration_stats]. rewrite E1. cbn [obind]. rewrite E2. cbn [obind]. rewrite E3. cbn [obind default from_option]. change (id r) with r. rewrite Happ. cbn [obind returns].
  split; cbn [migrator replicas captured applied migration_stats trackers]; [done| |by rewrite H3|].
  - intros b. by apply tracked_insert.
  - apply Forall_app. by repeat constructor.
Qed.

Lemma migrate_step_ok n c w : 0 <= n < 2 ^ 19 → world_ok n w → call_ok c → returns (call_step c w) (world_ok (n + 1)).
Proof.
  intros Hn Hw Hc. destruct c as [a s|a|a offset len|clock elapsed a s|]; [| | |destruct Hc; by apply snapshot_ok|]; destruct Hw as [H1 H2 H3 H4]; cbn [call_step].
  - destruct Hc as [Hs Hne]. split; cbn [IncrementalMigrator.start_tracking migrator replicas captured applied migration_stats trackers]; [apply stats_mono; [lia|done]| |by rewrite H3|done].
    apply tracked_insert; [done|]. split_and!; [by apply new_tracker_ok|done|done|cbn; lia..].
  - split; cbn [IncrementalMigrator.stop_tracking migrator replicas captured applied migration_stats trackers]; [apply stats_mono; [lia|done]| |by rewrite H3|done].
    intros b. destruct (decide (a = b)) as [<-|Hne]; [by rewrite !lookup_delete_eq|]. rewrite !lookup_delete_ne by done. apply tracked_mono, H2.
  - destruct Hc as (Ho & Hl & Hol). unfold IncrementalMigrator.mark_dirty. pose proof (H2 a) as Ha. destruct (trackers (migrator w) !! a) as [t|] eqn:Et; cycle 1.
    { cbn [obind returns]. split; cbn [migrator replicas captured applied]; [apply stats_mono; [lia|done]|intros b; apply tracked_mono, H2|done|done]. }
    destruct (replicas w !! a) as [r|] eqn:Er; [|done]. destruct Ha as (Ht & Hlast & Hne & Hseq).
    pose proof (mark_range_ok t offset len Ht Ho Hl Hol) as HR. apply returns_ret in HR as (t' & -> & Ht' & El & Es & _). cbn [obind returns].
    split; cbn [migrator replicas captured applied migration_stats trackers]; [apply stats_mono; [lia|done]| |done|done]. intros b.
    pose proof (tracked_insert n _ _ a t' r H2 ltac:(split_and!; [done|congruence|done|lia..]) b) as Hb. by rewrite (insert_id (replicas w) a r Er) in Hb.
  - split; cbn [IncrementalMigrator.reset_stats migrator replicas captured applied migration_stats trackers]; [|intros b; apply tracked_mono, H2|done|done].
    unfold stats_ok, MigrationStats.default. change (2 ^ 44) with 17592186044416. cbn. lia.
Qed.

Lemma migrate_run_ok cs : ∀ n w, 0 <= n → n + zlen cs <= 2 ^ 19 → world_ok n w → Forall call_ok cs → returns (call_run cs w) (world_ok (n + zlen cs)).
Proof.
  induction cs as [|c cs IH]; intros n w Hn Hl Hw Hcs; [by replace (n + zlen []) with n by (simpl; lia)|]. apply Forall_cons in Hcs as [Hc Hcs]. cbn [length] in Hl.
  cbn [call_run]. eapply returns_bind; [apply (migrate_step_ok n); [lia|done|done]|]. cbn beta. intros w' Hw'.
  replace (n + zlen (c :: cs)) with (n + 1 + zlen cs) by (simpl; lia). apply IH; [lia|lia|done|done].
Qed.

Definition new_world : world := mkWorld IncrementalMigrator.new ∅ ∅ [].

(** C25. Whatever tracking, marks, snapshots and resets a migrator is asked for, for
    however many agents, in up to 2^19 calls on states of up to 2^44 bytes, when every
    tracking starts with a non-empty state (an empty one is lost by the next delta,
    [empty_start_loses_state]), the end of every marked range fits in 64 bits and no
    snapshot takes more than 2^44 microseconds, and whether or not the clock can be
    read: it does not panic (no counter overflows), every delta is applied without an
    error by a replica that got all deltas before it, and every replica is the state
    that was captured last. *)
Theorem replicas_follow cs :
  Forall call_ok cs → zlen cs <= 2 ^ 19 →
  ∃ w, call_run cs new_world = Ret w ∧ replicas w = captured w ∧ Forall (λ r, r = Ok ()) (applied w) ∧
    ∀ a, is_Some (replicas w !! a) ↔ is_Some (trackers (migrator w) !! a).
Proof.
  intros Hcs Hl. pose proof (migrate_run_ok cs 0 new_world ltac:(lia) Hl) as HR.
  apply returns_ret in HR as (w & E & [H1 H2 H3 H4]); [| |done].
  - exists w. split_and!; [done|done|done|]. intros a. specialize (H2 a). destruct (trackers (migrator w) !! a), (replicas w !! a); (done || by split; intros []).
  - split; [unfold stats_ok; cbn; lia|done|done|constructor].
Qed.

(** ** What the code does beyond this *)

(** A snapshot that fails uses up a sequence number: the next delta names a base that
    no delta has. *)
Lemma failure_leaves_gap :
  let t := DirtyPageTracker.initialize [1; 2] (DirtyPageTracker.new [] 2) in
  match DirtyPageTracker.create_delta (Some 0) [1; 2; 3] t with
  | Ret (Err _, t) =>
    match DirtyPageTracker.create_delta (Some 0) [1; 3] t with
    | Ret (Ok d, _) => base_sequence d = 2 ∧ sequence d = 3
    | _ => False
    end
  | _ => False
  end.
Proof. by vm_compute. Qed.

(** An agent that starts with an empty state: when the clock fails at the first
    snapshot, the state counts as captured though no delta was made. *)
Lemma empty_start_loses_state :
  let t := DirtyPageTracker.initialize [] (DirtyPageTracker.new [] 0) in
  match DirtyPageTracker.create_delta None [1; 2] t with
  | Ret (Err _, t) =>
    match DirtyPageTracker.create_delta (Some 0) [1; 2] t with
    | Ret (Ok d, _) => dirty_pages d = [] ∧ ∃ e b, DeltaSnapshot.apply d [] = Ret (Err e, b)
    | _ => False
    end
  | _ => False
  end.
Proof. vm_compute. split; [done|]. by do 2 eexists. Qed.

(** A delta does not depend on the marks: pages that were not marked are compared and sent too. *)
Lemma marks_are_not_used clock s b t :
  match DirtyPageTracker.create_delta clock s (DirtyPageTracker.set_bitmap b t), DirtyPageTracker.create_delta clock s t with
  | Ret (r, _), Ret (r', _) => r = r' | Panic, Panic => True | Timeout, Timeout => True | _, _ => False end.
Proof.
  unfold DirtyPageTracker.create_delta, DirtyPageTracker.set_bitmap. cbn [tracker_sequence tracker_agent last_state num_pages].
  destruct (usize_add _ _); cbn [obind]; try done. destruct (is_empty _); destruct (DeltaSnapshot.create _ _ _ _ _ _) as [[]| |]; done.
Qed.

(** States with the same checksum. *)
Lemma checksum_collision : simple_checksum [2; 0] = simple_checksum [0; 1].
Proof. done. Qed.

(** The base is changed also when the delta is refused. *)
Lemma refused_delta_changes_base :
  match DeltaSnapshot.create (Some 0) [] [0; 0] [7; 0] 1 2 with
  | Ret (Ok d) => ∃ e, DeltaSnapshot.apply d [0; 0; 9] = Ret (Err e, [7; 0; 9])
  | _ => False
  end.
Proof. vm_compute. by eexists. Qed.

(** A delta whose page lies beyond the state panics: the test for it can not succeed. *)
Lemma page_beyond_panics : DeltaSnapshot.apply (mkDelta [] 2 1 [DirtyPage.new 1 [5]] 10 0 0) [] = Panic.
Proof. by vm_compute. Qed.

(** A range without bytes marks a page when it does not begin at the start of one. *)
Lemma empty_range_marks :
  match DirtyPageTracker.mark_range_dirty 100 0 (DirtyPageTracker.new [] 4096) with
  | Ret t => DirtyPageTracker.is_dirty 0 t = Ret true
  | _ => False
  end.
Proof. by vm_compute. Qed.

(** ** Witnesses *)

(** Compressors that store. *)
Definition stored : Compressors := {| compress_prepend_size d := d; decompress_size_prepended d := Some d; encode_all d _ := Some d; decode_all d := Some d |}.

Lemma stored_laws : @CompressorLaws stored.
Proof. split; [done|]. intros data level c _ [=]. by subst. Qed.

Lemma is_byte_list l : forallb (λ b, (0 <=? b) && (b <=? 255)) l = true → bytes l.
Proof. intros H. apply Forall_forall. intros b Hb. rewrite forallb_forall in H. specialize (H b ltac:(by apply list_elem_of_In)). unfold is_byte. lia. Qed.

Lemma compression_roundtrip_witness : ∃ c, simple_compress [7; 7; 7; 7; 7; 255; 1; 2; 2] = Ret c ∧ simple_decompress c = [7; 7; 7; 7; 7; 255; 1; 2; 2] ∧ zlen c <= 3 * zlen [7; 7; 7; 7; 7; 255; 1; 2; 2].
Proof. apply (compression_roundtrip [7; 7; 7; 7; 7; 255; 1; 2; 2]). by apply is_byte_list. Defined.

Lemma adaptive_roundtrip_witness :
  ∃ r c m c' m', simple_compress [1; 1; 1; 1; 1] = Ret r ∧
    @adaptive_compress stored [1; 1; 1; 1; 1] = Ret (c, m) ∧ @adaptive_decompress stored c m = Some [1; 1; 1; 1; 1] ∧ (length c <= length r)%nat ∧
    @adaptive_compress_aggressive stored [1; 1; 1; 1; 1] = Ret (c', m') ∧ @adaptive_decompress stored c' m' = Some [1; 1; 1; 1; 1] ∧ (length c' <= length r)%nat.
Proof. apply (@adaptive_roundtrip stored stored_laws [1; 1; 1; 1; 1]); [by apply is_byte_list|by eexists|by eexists]. Defined.

Lemma delta_roundtrip_witness :
  ∃ d, DeltaSnapshot.create (Some 5) [1] [0; 0; 0] [0; 9; 0] 1 2 = Ret (Ok d) ∧ DeltaSnapshot.apply d [0; 0; 0] = Ret (Ok (), [0; 9; 0]).
Proof. apply (delta_roundtrip 5 [1] [0; 0; 0] [0; 9; 0] 1 2); [split; [by apply is_byte_list|done]|done]. Defined.

Lemma marks_exact_witness :
  ∃ t', DirtyPageTracker.mark_range_dirty 4000 200 (DirtyPageTracker.new [] 10000) = Ret t' ∧
    (DirtyPageTracker.is_dirty 1 t' = Ret true ↔
     DirtyPageTracker.is_dirty 1 (DirtyPageTracker.new [] 10000) = Ret true ∨ (1 < num_pages (DirtyPageTracker.new [] 10000) ∧ ∃ k, 4000 <= k < 4000 + 200 ∧ k / 4096 = 1)).
Proof. apply (marks_exact (DirtyPageTracker.new [] 10000) 4000 200 1); [by split|lia|lia|lia|lia]. Defined.

Lemma replicas_follow_witness :
  ∃ w, call_run [Start [1] [0; 0]; Snapshot None 5 [1] [3; 0]; Snapshot (Some 7) 5 [1] [4; 0]; Stop [2]] new_world = Ret w ∧ replicas w = captured w ∧ Forall (λ r, r = Ok ()) (applied w) ∧
    ∀ a, is_Some (replicas w !! a) ↔ is_Some (trackers (migrator w) !! a).
Proof.
  apply (replicas_follow [Start [1] [0; 0]; Snapshot None 5 [1] [3; 0]; Snapshot (Some 7) 5 [1] [4; 0]; Stop [2]]); [|done].
  repeat constructor; (done || by apply is_byte_list).
Defined.
