(* ===== verification/MigrateSafe.v ===== *)
(** * Validation, audit and recovery of migrations (mielin-cells/src/migration/types)

    Snapshots of agents (core.rs), the audit log (audit.rs), the checks before and after
    a migration with the store of rollback information (validation.rs), and the retries
    of failed migrations (recovery.rs).  Formatted messages are kept as data, a
    constructor for each text with its arguments.  The clock is an argument. *)

From stdpp Require Import base tactics option list numbers gmap strings.
From S2P Require Import Prelude Bytes Agent Migrate.

(** [SystemTime::now()..unwrap_or(0)]. *)
Definition now_or_zero (clock : option Z) : Z := default 0 clock.

(** ** Snapshots of agents (core.rs) *)

(* src: mielin-cells/src/migration/types/core.rs 7-14 MigrationSnapshot *)
Record MigrationSnapshot : Type := mkSnapshot { snap_agent : Id; snap_binary : list Z; snap_state : list Z; snap_policy : Policy; snap_time : Z; snap_source : option Id }.

Module MigrationSnapshot.

(* src: mielin-cells/src/migration/types/core.rs 17-30 MigrationSnapshot::capture *)
Definition capture (clock : option Z) (agent : Agent) (source_node : option Id) : result MigrationSnapshot CellError :=
  match now_secs clock with
  | Err e => Err e
  | Ok t => Ok (mkSnapshot (id agent) (wasm_binary (dna agent)) [] (policy agent) t source_node)
  end.

(** [uuid] and [now] are the identifier and the time that [Agent::new] takes. *)
(* src: mielin-cells/src/migration/types/core.rs 32-36 MigrationSnapshot::restore *)
Definition restore (uuid : Id) (now : Z) (self : MigrationSnapshot) : Agent := Agent.set_policy (snap_policy self) (Agent.new uuid now (snap_binary self)).

(* src: mielin-cells/src/migration/types/core.rs 49-51 MigrationSnapshot::size_bytes *)
Definition size_bytes (self : MigrationSnapshot) : outcome Z := let! n := usize_add (zlen (snap_binary self)) (zlen (snap_state self)) in usize_add n 64.
(* src: mielin-cells/src/migration/types/core.rs 53-59 MigrationSnapshot::age_seconds *)
Definition age_seconds (clock : option Z) (self : MigrationSnapshot) : Z := saturating_sub (now_or_zero clock) (snap_time self).

End MigrationSnapshot.

(* src: mielin-cells/src/migration/types/core.rs 62-64 MigrationManager *)
Definition MigrationManager : Type := list MigrationSnapshot.

Module MigrationManager.
Implicit Types self : MigrationManager.

(* src: mielin-cells/src/migration/types/core.rs 67-71 MigrationManager::new *)
Definition new : MigrationManager := [].
(* src: mielin-cells/src/migration/types/core.rs 73-81 MigrationManager::initiate_migration *)
Definition initiate_migration (clock : option Z) (agent : Agent) (target_node : option Id) self : result MigrationSnapshot CellError * MigrationManager :=
  match MigrationSnapshot.capture clock agent target_node with
  | Err e => (Err e, self)
  | Ok snapshot => (Ok snapshot, self ++ [snapshot])
  end.
(* src: mielin-cells/src/migration/types/core.rs 83-85 MigrationManager::complete_migration *)
Definition complete_migration (agent_id : Id) self : MigrationManager := base.filter (λ s, snap_agent s ≠ agent_id) self.
(* src: mielin-cells/src/migration/types/core.rs 87-89 MigrationManager::pending_count *)
Definition pending_count self : Z := zlen self.
(* src: mielin-cells/src/migration/types/core.rs 91-95 MigrationManager::get_pending *)
Definition get_pending (agent_id : Id) self : option MigrationSnapshot := head (base.filter (λ s, snap_agent s = agent_id) self).

End MigrationManager.

(** ** Requirements and capabilities (validation.rs) *)

(** Strings are lists of bytes. *)
Abbreviation str := (list Z) (only parsing).

(* src: mielin-cells/src/migration/types/validation.rs 13-26 AgentRequirements *)
Record AgentRequirements : Type := mkRequirements {
  architecture : option str; required_memory : Z; required_storage : Z; required_wasm_features : list str; state_size : Z; agent_version : str
}.

(* src: mielin-cells/src/migration/types/validation.rs 30-45 NodeCapabilities *)
Record NodeCapabilities : Type := mkCapabilities {
  architectures : list str; available_memory : Z; available_storage : Z; wasm_features : list str; max_state_size : Z; node_version : str; min_compatible_version : str
}.

(** The reasons and warnings that are formatted. *)
Inductive Reason : Type :=
| NoArchitecture (arch : str) | NoMemory (required available : Z) | NoStorage (required available : Z) | StateTooLarge (size max : Z)
| NoFeature (feature : str) | VersionIncompatible (version min : str).
Inductive Warning : Type := LowMemory (headroom : Z).

(* src: mielin-cells/src/migration/types/validation.rs 64-71 CompatibilityStatus *)
Inductive CompatibilityStatus : Type := Compatible | CompatibleWithWarnings (w : list Warning) | Incompatible (r : Reason).

(* src: mielin-cells/src/migration/types/validation.rs 75-77 CompatibilityStatus::can_proceed *)
Definition can_proceed (self : CompatibilityStatus) : bool := match self with Incompatible _ => false | _ => true end.

Module CompatibilityValidator.

(** The closure [parse_version]. *)
Definition parse_version (v : str) : Z * Z * Z :=
  let parts := split_on 46 v in
  let part i := default 0 (parts !! i ≫= parse_uint U32_MAX) in
  (part 0%nat, part 1%nat, part 2%nat).

(* src: mielin-cells/src/migration/types/validation.rs 196-207 CompatibilityValidator::is_version_compatible *)
Definition is_version_compatible (agent_version min_version : str) : bool :=
  let '(a0, a1, a2) := parse_version agent_version in
  let '(m0, m1, m2) := parse_version min_version in
  (a0 =? m0) && ((m1 <? a1) || ((a1 =? m1) && (m2 <=? a2))).

(** The first feature that the node does not have. *)
Definition missing_feature (required have : list str) : option str := head (base.filter (λ f, f ∉ have) required).

(* src: mielin-cells/src/migration/types/validation.rs 133-193 CompatibilityValidator::check_compatibility *)
Definition check_compatibility (r : AgentRequirements) (c : NodeCapabilities) : CompatibilityStatus :=
  let no_arch := match architecture r with Some arch => if decide (arch ∈ architectures c) then None else Some arch | None => None end in
  match no_arch with
  | Some arch => Incompatible (NoArchitecture arch)
  | None =>
    if available_memory c <? required_memory r then Incompatible (NoMemory (required_memory r) (available_memory c))
    else
      let memory_headroom := saturating_sub (available_memory c) (required_memory r) in
      let warnings := if memory_headroom <? available_memory c / 5 then [LowMemory memory_headroom] else [] in
      if available_storage c <? required_storage r then Incompatible (NoStorage (required_storage r) (available_storage c))
      else if max_state_size c <? state_size r then Incompatible (StateTooLarge (state_size r) (max_state_size c))
      else
        match missing_feature (required_wasm_features r) (wasm_features c) with
        | Some f => Incompatible (NoFeature f)
        | None =>
          if negb (is_version_compatible (agent_version r) (min_compatible_version c)) then
            Incompatible (VersionIncompatible (agent_version r) (min_compatible_version c))
          else match warnings with [] => Compatible | _ => CompatibleWithWarnings warnings end
        end
  end.

End CompatibilityValidator.

(* src: mielin-cells/src/migration/types/validation.rs 90-101 VerificationResult *)
Record VerificationResult : Type := mkResult { passed : bool; checksum_valid : bool; size_valid : bool; agent_responsive : bool }.

Module StateVerifier.

(* src: mielin-cells/src/migration/types/validation.rs 216-253 StateVerifier::verify_state *)
Definition verify_state (original_state migrated_state : list Z) (original_checksum : Z) : VerificationResult :=
  let size_ok := zlen original_state =? zlen migrated_state in
  let sum_ok := simple_checksum migrated_state =? original_checksum in
  mkResult (size_ok && sum_ok) sum_ok size_ok true.

(* src: mielin-cells/src/migration/types/validation.rs 256-294 StateVerifier::verify_delta *)
Definition verify_delta (base_state : list Z) (delta : DeltaSnapshot) (expected_checksum : Z) : VerificationResult :=
  let sum_ok := checksum delta =? expected_checksum in
  let size_ok := total_size delta =? zlen base_state in
  mkResult (sum_ok && size_ok) sum_ok size_ok true.

End StateVerifier.

(** ** The audit log (audit.rs) *)

(* src: mielin-cells/src/migration/types/audit.rs 10-31 AuditEventType *)
Inductive AuditEventType : Type :=
| MigrationStarted | ValidationCompleted | SnapshotCaptured | TransferStarted | TransferCompleted | VerificationCompleted
| MigrationCompleted | MigrationFailed | RollbackStarted | RollbackCompleted.

#[export] Instance AuditEventType_eq_dec : EqDecision AuditEventType.
Proof. solve_decision. Defined.

(** Without the text of its details. *)
(* src: mielin-cells/src/migration/types/audit.rs 35-52 AuditEntry *)
Record AuditEntry : Type := mkEntry { migration_id : Id; entry_agent : Id; event_type : AuditEventType; entry_time : Z; source_node : option Id; target_node : option Id; success : bool }.

(* src: mielin-cells/src/migration/types/audit.rs 56-78 AuditEntry::new *)
Definition entry_new (clock : option Z) (migration_id agent_id : Id) (event : AuditEventType) (success : bool) : AuditEntry :=
  mkEntry migration_id agent_id event (now_or_zero clock) None None success.
(* src: mielin-cells/src/migration/types/audit.rs 81-85 AuditEntry::with_nodes *)
Definition with_nodes (source target : option Id) (self : AuditEntry) : AuditEntry :=
  mkEntry (migration_id self) (entry_agent self) (event_type self) (entry_time self) source target (success self).

(* src: mielin-cells/src/migration/types/audit.rs 90-95 MigrationAuditLog *)
Record MigrationAuditLog : Type := mkLog { entries : list AuditEntry; max_entries : Z }.

Module MigrationAuditLog.
Implicit Types self : MigrationAuditLog.

(* src: mielin-cells/src/migration/types/audit.rs 99-104 MigrationAuditLog::new *)
Definition new : MigrationAuditLog := mkLog [] 10000.
(* src: mielin-cells/src/migration/types/audit.rs 107-112 MigrationAuditLog::with_capacity *)
Definition with_capacity (max_entries : Z) : MigrationAuditLog := mkLog [] max_entries.
(* src: mielin-cells/src/migration/types/audit.rs 115-121 MigrationAuditLog::log *)
Definition log (entry : AuditEntry) self : MigrationAuditLog :=
  let l := entries self ++ [entry] in
  mkLog (if max_entries self <? zlen l then drop (Z.to_nat (zlen l - max_entries self)) l else l) (max_entries self).
(* src: mielin-cells/src/migration/types/audit.rs 124-141 MigrationAuditLog::log_start *)
Definition log_start (clock : option Z) (m a : Id) (source target : option Id) self : MigrationAuditLog :=
  log (with_nodes source target (entry_new clock m a MigrationStarted true)) self.
(* src: mielin-cells/src/migration/types/audit.rs 144-163 MigrationAuditLog::log_completion *)
Definition log_completion (clock : option Z) (m a : Id) (success : bool) self : MigrationAuditLog :=
  log (entry_new clock m a (if success then MigrationCompleted else MigrationFailed) success) self.
(* src: mielin-cells/src/migration/types/audit.rs 166-189 MigrationAuditLog::log_validation *)
Definition log_validation (clock : option Z) (m a : Id) (status : CompatibilityStatus) self : MigrationAuditLog :=
  log (entry_new clock m a ValidationCompleted (match status with Incompatible _ => false | _ => true end)) self.
(* src: mielin-cells/src/migration/types/audit.rs 192-205 MigrationAuditLog::log_verification *)
Definition log_verification (clock : option Z) (m a : Id) (result : VerificationResult) self : MigrationAuditLog :=
  log (entry_new clock m a VerificationCompleted (passed result)) self.
(* src: mielin-cells/src/migration/types/audit.rs 208-228 MigrationAuditLog::log_rollback *)
Definition log_rollback (clock : option Z) (m a : Id) (started success : bool) self : MigrationAuditLog :=
  log (entry_new clock m a (if started then RollbackStarted else RollbackCompleted) success) self.
(* src: mielin-cells/src/migration/types/audit.rs 231-236 MigrationAuditLog::get_migration_entries *)
Definition get_migration_entries (m : Id) self : list AuditEntry := base.filter (λ e, migration_id e = m) (entries self).
(* src: mielin-cells/src/migration/types/audit.rs 239-244 MigrationAuditLog::get_agent_entries *)
Definition get_agent_entries (a : Id) self : list AuditEntry := base.filter (λ e, entry_agent e = a) (entries self).
(* src: mielin-cells/src/migration/types/audit.rs 247-252 MigrationAuditLog::get_entries_by_type *)
Definition get_entries_by_type (t : AuditEventType) self : list AuditEntry := base.filter (λ e, event_type e = t) (entries self).
(* src: mielin-cells/src/migration/types/audit.rs 255-257 MigrationAuditLog::get_failures *)
Definition get_failures self : list AuditEntry := base.filter (λ e, success e = false) (entries self).
(* src: mielin-cells/src/migration/types/audit.rs 270-272 MigrationAuditLog::clear *)
Definition clear self : MigrationAuditLog := mkLog [] (max_entries self).
(* src: mielin-cells/src/migration/types/audit.rs 275-280 MigrationAuditLog::get_entries_in_range *)
Definition get_entries_in_range (start e : Z) self : list AuditEntry := base.filter (λ x, start <= entry_time x ∧ entry_time x <= e) (entries self).

End MigrationAuditLog.

(** ** Rollback information (recovery.rs) and the validator (validation.rs) *)

(* src: mielin-cells/src/migration/types/recovery.rs 193-206 RollbackInfo *)
Record RollbackInfo : Type := mkRollback { rollback_agent : Id; original_state : list Z; original_checksum : Z; original_policy_data : list Z; created_at : Z; rollback_source : option Id }.

(** The third-party encoder of a policy; [None] is its failure. *)
Class PolicyCodec : Type := encode_policy : Policy → option (list Z).

Module RollbackInfo.

(* src: mielin-cells/src/migration/types/recovery.rs 210-225 RollbackInfo::capture *)
Definition capture `{PolicyCodec} (clock : option Z) (agent : Agent) (state : list Z) : result RollbackInfo CellError :=
  match now_secs clock with
  | Err e => Err e
  | Ok t =>
    match encode_policy (policy agent) with
    | None => Err (InvalidState "Policy serialization failed")
    | Some data => Ok (mkRollback (id agent) state (simple_checksum state) data t None)
    end
  end.
(* src: mielin-cells/src/migration/types/recovery.rs 228-234 RollbackInfo::age_secs *)
Definition age_secs (clock : option Z) (self : RollbackInfo) : Z := saturating_sub (now_or_zero clock) (created_at self).
(* src: mielin-cells/src/migration/types/recovery.rs 237-239 RollbackInfo::is_valid *)
Definition is_valid (clock : option Z) (max_age_secs : Z) (self : RollbackInfo) : bool := age_secs clock self <? max_age_secs.

End RollbackInfo.

(* src: mielin-cells/src/migration/types/validation.rs 299-306 MigrationValidator *)
Record MigrationValidator : Type := mkValidator { audit_log : MigrationAuditLog; rollback_info : gmap Id RollbackInfo; rollback_max_age_secs : Z }.

Module MigrationValidator.
Implicit Types self : MigrationValidator.

Definition set_log (l : MigrationAuditLog) self : MigrationValidator := mkValidator l (rollback_info self) (rollback_max_age_secs self).
Definition set_info (i : gmap Id RollbackInfo) self : MigrationValidator := mkValidator (audit_log self) i (rollback_max_age_secs self).

(* src: mielin-cells/src/migration/types/validation.rs 310-316 MigrationValidator::new *)
Definition new : MigrationValidator := mkValidator MigrationAuditLog.new ∅ 3600.
(* src: mielin-cells/src/migration/types/validation.rs 319-321 MigrationValidator::set_rollback_max_age *)
Definition set_rollback_max_age (secs : Z) self : MigrationValidator := mkValidator (audit_log self) (rollback_info self) secs.

(* src: mielin-cells/src/migration/types/validation.rs 324-335 MigrationValidator::validate_pre_migration *)
Definition validate_pre_migration (clock : option Z) (m : Id) (agent : Agent) (r : AgentRequirements) (c : NodeCapabilities) self : CompatibilityStatus * MigrationValidator :=
  let status := CompatibilityValidator.check_compatibility r c in
  (status, set_log (MigrationAuditLog.log_validation clock m (id agent) status (audit_log self)) self).

(* src: mielin-cells/src/migration/types/validation.rs 338-354 MigrationValidator::capture_rollback_info *)
Definition capture_rollback_info `{PolicyCodec} (clock : option Z) (m : Id) (agent : Agent) (state : list Z) self : result unit CellError * MigrationValidator :=
  match RollbackInfo.capture clock agent state with
  | Err e => (Err e, self)
  | Ok info =>
    let self := set_info (<[m := info]> (rollback_info self)) self in
    (Ok (), set_log (MigrationAuditLog.log (entry_new clock m (id agent) SnapshotCaptured true) (audit_log self)) self)
  end.

(* src: mielin-cells/src/migration/types/validation.rs 357-369 MigrationValidator::verify_post_migration *)
Definition verify_post_migration (clock : option Z) (m a : Id) (original migrated : list Z) self : VerificationResult * MigrationValidator :=
  let result := StateVerifier.verify_state original migrated (simple_checksum original) in
  (result, set_log (MigrationAuditLog.log_verification clock m a result (audit_log self)) self).

(* src: mielin-cells/src/migration/types/validation.rs 372-408 MigrationValidator::execute_rollback *)
Definition execute_rollback (clock : option Z) (m : Id) self : result RollbackInfo CellError * MigrationValidator :=
  match rollback_info self !! m with
  | None => (Err (InvalidState "No rollback info available for migration"), self)
  | Some info =>
    let l := MigrationAuditLog.log_rollback clock m (rollback_agent info) true true (audit_log self) in
    let self := set_info (delete m (rollback_info self)) (set_log l self) in
    let valid := RollbackInfo.is_valid clock (rollback_max_age_secs self) info in
    let self := set_log (MigrationAuditLog.log_rollback clock m (rollback_agent info) false valid (audit_log self)) self in
    if negb valid then (Err (InvalidState "Rollback info has expired"), self) else (Ok info, self)
  end.

(* src: mielin-cells/src/migration/types/validation.rs 411-416 MigrationValidator::complete_migration *)
Definition complete_migration (clock : option Z) (m : Id) (success : bool) self : MigrationValidator :=
  match rollback_info self !! m with
  | Some info => set_log (MigrationAuditLog.log_completion clock m (rollback_agent info) success (audit_log self)) (set_info (delete m (rollback_info self)) self)
  | None => self
  end.

(* src: mielin-cells/src/migration/types/validation.rs 429-432 MigrationValidator::cleanup_expired *)
Definition cleanup_expired (clock : option Z) self : MigrationValidator :=
  set_info (base.filter (λ kv, RollbackInfo.is_valid clock (rollback_max_age_secs self) kv.2 = true) (rollback_info self)) self.

End MigrationValidator.

(** ** Recovery (recovery.rs) *)

(* src: mielin-cells/src/migration/types/recovery.rs 11-28 MigrationErrorType *)
Inductive MigrationErrorType : Type :=
| NetworkTransient | NetworkPermanent | InsufficientResources | IncompatibleTarget | StateCorruption | TimeoutError | TargetUnreachable | UnknownError.

(* src: mielin-cells/src/migration/types/recovery.rs 32-40 MigrationErrorType::is_retryable *)
Definition is_retryable (self : MigrationErrorType) : bool := match self with NetworkTransient | InsufficientResources | TimeoutError | TargetUnreachable => true | _ => false end.
(* src: mielin-cells/src/migration/types/recovery.rs 43-48 MigrationErrorType::should_change_target *)
Definition should_change_target (self : MigrationErrorType) : bool := match self with InsufficientResources | IncompatibleTarget | TargetUnreachable => true | _ => false end.

(* src: mielin-cells/src/migration/types/recovery.rs 53-66 MigrationError *)
Record MigrationError : Type := mkFailure { error_type : MigrationErrorType; failure_message : string; failed_agent : Id; failed_target : option Id; failure_time : Z; retry_count : Z }.

(* src: mielin-cells/src/migration/types/recovery.rs 70-89 MigrationError::new *)
Definition failure_new (clock : option Z) (t : MigrationErrorType) (message : string) (agent_id : Id) (target : option Id) : MigrationError :=
  mkFailure t message agent_id target (now_or_zero clock) 0.
(* src: mielin-cells/src/migration/types/recovery.rs 92-94 MigrationError::increment_retry *)
Definition increment_retry (self : MigrationError) : outcome MigrationError :=
  let! n := u32_add (retry_count self) 1 in
  Ret (mkFailure (error_type self) (failure_message self) (failed_agent self) (failed_target self) (failure_time self) n).

(* src: mielin-cells/src/migration/types/recovery.rs 108-117 RecoveryStrategy *)
Inductive RecoveryStrategy : Type := RetryOnSameTarget | RetryOnDifferentTarget | RollbackStrategy | GiveUp.

#[export] Instance RecoveryStrategy_eq_dec : EqDecision RecoveryStrategy.
Proof. solve_decision. Defined.

(* src: mielin-cells/src/migration/types/recovery.rs 121-134 RecoveryAttempt *)
Record RecoveryAttempt : Type := mkAttempt { attempt_number : Z; strategy : RecoveryStrategy; attempt_time : Z; attempt_target : option Id; attempt_success : bool; attempt_error : option string }.

(* src: mielin-cells/src/migration/types/recovery.rs 138-151 RecoveryConfig *)
Record RecoveryConfig : Type := mkRecovery {
  max_retries : Z; initial_retry_delay_secs : Z; max_retry_delay_secs : Z; use_exponential_backoff : bool; recovery_timeout_secs : Z; auto_rollback : bool
}.

Module RecoveryConfig.

(* src: mielin-cells/src/migration/types/recovery.rs 154-163 RecoveryConfig::default *)
Definition default : RecoveryConfig := mkRecovery 3 10 300 true 600 true.

(** [2_u32.pow(k)]. *)
Definition pow2 (k : Z) : outcome Z := if k <? 32 then Ret (2 ^ k) else Panic.

(* src: mielin-cells/src/migration/types/recovery.rs 168-174 RecoveryConfig::calculate_retry_delay *)
Definition calculate_retry_delay (attempt : Z) (self : RecoveryConfig) : outcome Z :=
  if negb (use_exponential_backoff self) then Ret (initial_retry_delay_secs self)
  else
    let! p := pow2 (saturating_sub attempt 1) in
    let! delay := u32_mul (initial_retry_delay_secs self) p in
    Ret (Z.min delay (max_retry_delay_secs self)).

(** Only that it fails is kept of the message. *)
(* src: mielin-cells/src/migration/types/recovery.rs 177-188 RecoveryConfig::validate *)
Definition validate (self : RecoveryConfig) : bool :=
  negb ((initial_retry_delay_secs self =? 0) || (max_retry_delay_secs self <? initial_retry_delay_secs self) || (recovery_timeout_secs self =? 0)).

End RecoveryConfig.

(* src: mielin-cells/src/migration/types/recovery.rs 244-253 MigrationRecoveryManager *)
Record MigrationRecoveryManager : Type := mkRecoveryManager {
  recovery_config : RecoveryConfig; pending_recoveries : gmap Id MigrationError; recovery_history : gmap Id (list RecoveryAttempt); validator : MigrationValidator
}.

Module MigrationRecoveryManager.
Implicit Types self : MigrationRecoveryManager.

Definition set_pending (p : gmap Id MigrationError) self : MigrationRecoveryManager := mkRecoveryManager (recovery_config self) p (recovery_history self) (validator self).
Definition set_history (h : gmap Id (list RecoveryAttempt)) self : MigrationRecoveryManager := mkRecoveryManager (recovery_config self) (pending_recoveries self) h (validator self).

(* src: mielin-cells/src/migration/types/recovery.rs 257-265 MigrationRecoveryManager::new *)
Definition new (config : RecoveryConfig) : option MigrationRecoveryManager :=
  if RecoveryConfig.validate config then Some (mkRecoveryManager config ∅ ∅ MigrationValidator.new) else None.
(* src: mielin-cells/src/migration/types/recovery.rs 268-275 MigrationRecoveryManager::with_defaults *)
Definition with_defaults : MigrationRecoveryManager := mkRecoveryManager RecoveryConfig.default ∅ ∅ MigrationValidator.new.

(* src: mielin-cells/src/migration/types/recovery.rs 278-282 MigrationRecoveryManager::record_failure *)
Definition record_failure (error : MigrationError) self : MigrationRecoveryManager :=
  let a := failed_agent error in
  let self := set_pending (<[a := error]> (pending_recoveries self)) self in
  set_history (<[a := default [] (recovery_history self !! a)]> (recovery_history self)) self.

(* src: mielin-cells/src/migration/types/recovery.rs 285-310 MigrationRecoveryManager::determine_strategy *)
Definition determine_strategy (error : MigrationError) self : RecoveryStrategy :=
  let last_resort := if auto_rollback (recovery_config self) then RollbackStrategy else GiveUp in
  if max_retries (recovery_config self) <=? retry_count error then last_resort
  else
    match error_type error with
    | NetworkTransient | TimeoutError => RetryOnSameTarget
    | InsufficientResources | IncompatibleTarget | TargetUnreachable => RetryOnDifferentTarget
    | StateCorruption | NetworkPermanent | UnknownError => last_resort
    end.

(* src: mielin-cells/src/migration/types/recovery.rs 313-343 MigrationRecoveryManager::execute_recovery *)
Definition execute_recovery (clock : option Z) (a : Id) self : outcome (option RecoveryStrategy * MigrationRecoveryManager) :=
  match pending_recoveries self !! a with
  | None => Ret (None, self)
  | Some error =>
    let strategy := determine_strategy error self in
    let! attempt_number := u32_add (retry_count error) 1 in
    let attempt := mkAttempt attempt_number strategy (now_or_zero clock) (failed_target error) false None in
    let self := set_history (<[a := default [] (recovery_history self !! a) ++ [attempt]]> (recovery_history self)) self in
    let! error := increment_retry error in
    Ret (Some strategy, set_pending (<[a := error]> (pending_recoveries self)) self)
  end.

(** [history.last_mut()] with its fields set. *)
Definition set_last (ok : bool) (e : option string) (h : list RecoveryAttempt) : list RecoveryAttempt :=
  match last h with
  | Some x => take (length h - 1) h ++ [mkAttempt (attempt_number x) (strategy x) (attempt_time x) (attempt_target x) ok (match e with Some m => Some m | None => attempt_error x end)]
  | None => h
  end.

(* src: mielin-cells/src/migration/types/recovery.rs 346-353 MigrationRecoveryManager::mark_recovery_success *)
Definition mark_recovery_success (a : Id) self : MigrationRecoveryManager :=
  let self := set_pending (delete a (pending_recoveries self)) self in
  match recovery_history self !! a with Some h => set_history (<[a := set_last true None h]> (recovery_history self)) self | None => self end.

(* src: mielin-cells/src/migration/types/recovery.rs 356-363 MigrationRecoveryManager::mark_recovery_failure *)
Definition mark_recovery_failure (a : Id) (msg : string) self : MigrationRecoveryManager :=
  match recovery_history self !! a with Some h => set_history (<[a := set_last false (Some msg) h]> (recovery_history self)) self | None => self end.

(* src: mielin-cells/src/migration/types/recovery.rs 366-368 MigrationRecoveryManager::pending_count *)
Definition pending_count self : Z := Z.of_nat (size (pending_recoveries self)).
(* src: mielin-cells/src/migration/types/recovery.rs 371-373 MigrationRecoveryManager::get_history *)
Definition get_history (a : Id) self : option (list RecoveryAttempt) := recovery_history self !! a.

(* src: mielin-cells/src/migration/types/recovery.rs 381-385 MigrationRecoveryManager::next_retry_time *)
Definition next_retry_time (a : Id) self : outcome (option Z) :=
  match pending_recoveries self !! a with
  | None => Ret None
  | Some error =>
    let! delay := RecoveryConfig.calculate_retry_delay (retry_count error) (recovery_config self) in
    let! t := usize_add (failure_time error) delay in
    Ret (Some t)
  end.

(* src: mielin-cells/src/migration/types/recovery.rs 388-398 MigrationRecoveryManager::is_ready_for_retry *)
Definition is_ready_for_retry (clock : option Z) (a : Id) self : outcome bool :=
  let! next := next_retry_time a self in
  Ret (match next with Some t => t <=? now_or_zero clock | None => false end).

(* src: mielin-cells/src/migration/types/recovery.rs 410-413 MigrationRecoveryManager::clear_history *)
Definition clear_history (a : Id) self : MigrationRecoveryManager :=
  set_pending (delete a (pending_recoveries self)) (set_history (delete a (recovery_history self)) self).

(* src: mielin-cells/src/migration/types/recovery.rs 421-425 MigrationRecoveryManager::set_config *)
Definition set_config (config : RecoveryConfig) self : bool * MigrationRecoveryManager :=
  if RecoveryConfig.validate config then (true, mkRecoveryManager config (pending_recoveries self) (recovery_history self) (validator self)) else (false, self).

End MigrationRecoveryManager.
