(* ===== verification/MigrateSafeProps.v ===== *)
(** * Theorems about agents and the safety of their migration

    The life cycle of an agent, the store of rollback information, the bound on
    retries, the audit log and the check of compatibility. *)

From stdpp Require Import base tactics option list numbers gmap strings.
From S2P Require Import Prelude Bytes Agent Migrate MigrateSafe.

(** ** The life cycle *)

(** The calls on an agent that check the transition. *)
Inductive life_call : Type := To (s : AgentState) | Fail (e : AgentError) | Recover | SetPolicy (p : Policy).

Definition life_step (c : life_call) (now : Z) (a : Agent) : outcome Agent :=
  match c with
  | To s => Ret (Agent.transition_to now s a).2
  | Fail e => Ret (Agent.set_error now e a).2
  | Recover => let! (_, a) := Agent.attempt_recovery now a in Ret a
  | SetPolicy p => Ret (Agent.set_policy p a)
  end.

Fixpoint life_run (cs : list (life_call * Z)) (a : Agent) : outcome Agent :=
  match cs with [] => Ret a | (c, now) :: cs' => let! a := life_step c now a in life_run cs' a end.

(** The state at [i] of the recorded ones is followed by the next: as the table of transitions
    says, but for the entry that [new] makes, which repeats the state the agent is in. *)
Definition may_follow (i : nat) (x y : AgentState) : Prop :=
  AgentState.can_transition_to x y = true ∨ (i = 0%nat ∧ x = Created ∧ y = Created).

Definition trail (a : Agent) : list AgentState := (state_history a).*1 ++ [state a].

Record life_ok (a : Agent) : Prop := {
  lf_trail i x y : trail a !! i = Some x → trail a !! S i = Some y → may_follow i x y;
  lf_error e : error a = Some e → state a = Error ∧ 0 <= recovery_attempts e < U32_MAX;
  lf_history : (length (state_history a) <= 10)%nat;
}.

Lemma trail_step now a s :
  life_ok a → AgentState.can_transition_to (state a) s = true →
  ∀ i x y, ((Agent.record_history now a).*1 ++ [s]) !! i = Some x → ((Agent.record_history now a).*1 ++ [s]) !! S i = Some y → may_follow i x y.
Proof.
  intros [Ht _ _] Hs. unfold Agent.record_history.
  assert (∀ i x y, (trail a ++ [s]) !! i = Some x → (trail a ++ [s]) !! S i = Some y → may_follow i x y) as Hall.
  { intros i x y Hx Hy. apply lookup_app_Some in Hx as [Hx|[Hl Hx]]; apply lookup_app_Some in Hy as [Hy|[Hl' Hy]].
    - by eapply Ht.
    - apply list_lookup_singleton_Some in Hy as [Hi <-]. pose proof (lookup_lt_Some _ _ _ Hx) as Hlt.
      unfold trail in Hx, Hl', Hi, Hlt. rewrite length_app in Hl', Hi, Hlt. cbn [length] in *. rewrite lookup_app_r in Hx by lia.
      apply list_lookup_singleton_Some in Hx as [_ <-]. by left.
    - apply list_lookup_singleton_Some in Hx as [Hi _]. pose proof (lookup_lt_Some _ _ _ Hy). lia.
    - apply list_lookup_singleton_Some in Hx as [Hi _]. apply list_lookup_singleton_Some in Hy as [Hi' _]. lia. }
  assert ((state_history a ++ [(state a, now)]).*1 = trail a) as Et by (unfold trail; by rewrite fmap_app).
  destruct (_ <? _); [|by rewrite Et]. intros i x y Hx Hy.
  destruct (state_history a ++ [(state a, now)]) as [|h l] eqn:E; [by destruct (state_history a)|]. cbn [tail] in Hx, Hy.
  rewrite fmap_cons in Et. rewrite <- Et in Hall. destruct (Hall (S i) x y) as [?|[[=] _]]; [done..|by left].
Qed.

Lemma record_length now a : life_ok a → (length (Agent.record_history now a) <= 10)%nat.
Proof.
  intros [_ _ Hl]. unfold Agent.record_history, Agent.MAX_STATE_HISTORY. destruct (Z.ltb_spec 10 (zlen (state_history a ++ [(state a, now)]))) as [H|H].
  - pose proof (length_app (state_history a) [(state a, now)]) as Ha. destruct (state_history a ++ _); simpl in *; lia.
  - lia.
Qed.

Lemma transition_ok now s a : life_ok a → life_ok (Agent.transition_to now s a).2.
Proof.
  intros Ha. unfold Agent.transition_to, Agent.transition_to_with_reason. destruct (AgentState.can_transition_to _ _) eqn:E; cbn [negb snd]; [|done].
  split; cbn [state_history state error trail].
  - by apply trail_step.
  - intros e He. case_decide as Hd; [done|]. apply (lf_error a Ha) in He as [Hs Hr]. split; [|done]. destruct (decide (s = Error)); naive_solver.
  - by apply record_length.
Qed.

Lemma step_life_ok c now a :
  (∀ e, c = Fail e → 0 <= recovery_attempts e < U32_MAX) → life_ok a → returns (life_step c now a) life_ok.
Proof.
  intros Hc Ha. destruct c as [s|e| |p]; cbn [life_step returns].
  - by apply transition_ok.
  - unfold Agent.set_error. destruct (AgentState.can_transition_to _ _) eqn:E; cbn [negb snd]; [|done]. split; cbn [state_history state error trail].
    + by apply trail_step.
    + intros e' [= <-]. split; [done|]. by apply Hc.
    + by apply record_length.
  - unfold Agent.attempt_recovery. case_decide as Hs; [|done]. assert (AgentState.can_transition_to (state a) Running = true) as Hf by by rewrite Hs.
    destruct (error a) as [e|] eqn:Ee; cycle 1.
    { pose proof (transition_ok now Running a Ha) as Ht. cbn [obind]. by destruct (Agent.transition_to now Running a). }
    destruct (fatal e); [done|]. destruct (lf_error a Ha e Ee) as [_ Hr]. unfold AgentError.attempt_recovery. rewrite u32_add_ok by lia. cbn [obind].
    set (a1 := mkAgent _ _ _ _ _ _ _). assert (Agent.record_history now a1 = Agent.record_history now a) as Eh by done.
    unfold Agent.transition_to, Agent.transition_to_with_reason. change (state a1) with (state a). rewrite Eh, Hs. cbn [negb obind returns AgentState.can_transition_to].
    split; [apply (trail_step now a Running Ha Hf)|intros e'; cbn [error]; by rewrite decide_True|apply (record_length now a Ha)].
  - cbn [Agent.set_policy]. destruct Ha. by split.
Qed.

Lemma run_life_ok cs : ∀ a, Forall (λ c, ∀ e, c.1 = Fail e → 0 <= recovery_attempts e < U32_MAX) cs → life_ok a → returns (life_run cs a) life_ok.
Proof.
  induction cs as [|[c now] cs IH]; intros a Hcs Ha; [done|]. apply Forall_cons in Hcs as [Hc Hcs]. cbn [life_run].
  eapply returns_bind; [apply step_life_ok; [exact Hc|done]|]. intros a' Ha'. by apply IH.
Qed.

(** A terminated agent stays as it is, but for its policy. *)
Lemma terminated_stays c now a : state a = Terminated → returns (life_step c now a) (λ a', state a' = Terminated ∧ state_history a' = state_history a ∧ error a' = error a).
Proof.
  intros Hs. destruct c; cbn [life_step returns]; unfold Agent.transition_to, Agent.transition_to_with_reason, Agent.set_error, Agent.attempt_recovery; rewrite ?Hs; done.
Qed.

(** A call leaves the state or takes it along the table of transitions. *)
Lemma step_follows c now a :
  life_ok a → returns (life_step c now a) (λ a', state a' = state a ∨ AgentState.can_transition_to (state a) (state a') = true).
Proof.
  intros Ha. destruct c as [s|e| |p]; cbn [life_step returns].
  - unfold Agent.transition_to, Agent.transition_to_with_reason. destruct (AgentState.can_transition_to _ _) eqn:E; cbn [negb snd state]; auto.
  - unfold Agent.set_error. destruct (AgentState.can_transition_to _ _) eqn:E; cbn [negb snd state]; auto.
  - unfold Agent.attempt_recovery, Agent.transition_to, Agent.transition_to_with_reason. case_decide as Hs; [|by left].
    destruct (error a) as [e|] eqn:Ee; [|rewrite Hs; by right]. destruct (fatal e); [by left|].
    destruct (lf_error a Ha e Ee) as [_ Hr]. unfold AgentError.attempt_recovery. rewrite u32_add_ok by lia.
    cbn [obind state]. rewrite Hs. by right.
  - by left.
Qed.

(** The attempt after [u32::MAX] ones overflows. *)
Lemma recovery_overflow_panics now a e :
  state a = Error → error a = Some e → fatal e = false → recovery_attempts e = U32_MAX → Agent.attempt_recovery now a = Panic.
Proof.
  intros Hs He Hf Hr. unfold Agent.attempt_recovery. rewrite decide_True, He, Hf by done.
  unfold AgentError.attempt_recovery. by rewrite Hr.
Qed.

(** C35. Whatever calls of [transition_to], [set_error], [attempt_recovery] and [set_policy] a
    new agent gets, and at whatever times, if the errors it is given count fewer than
    [u32::MAX] recovery attempts (those of [AgentError::new] count none; at that number a
    recovery panics, [recovery_overflow_panics]), it does not panic; each of the states it has
    recorded is followed by one that the table of transitions allows, but for the first record
    of a new agent, which repeats [Created]; any further call leaves the state or changes it as
    the table allows; the agent holds an error only in the state [Error], its history has at
    most ten entries, and it is never left once it is terminated. *)
Theorem agent_lifecycle uuid now binary cs :
  Forall (λ c, ∀ e, c.1 = Fail e → 0 <= recovery_attempts e < U32_MAX) cs →
  ∃ a, life_run cs (Agent.new uuid now binary) = Ret a ∧
    (∀ i x y, trail a !! i = Some x → trail a !! S i = Some y →
       AgentState.can_transition_to x y = true ∨ (i = 0%nat ∧ x = Created ∧ y = Created)) ∧
    (∀ c t, returns (life_step c t a) (λ a', state a' = state a ∨ AgentState.can_transition_to (state a) (state a') = true)) ∧
    (∀ e, error a = Some e → state a = Error) ∧ (length (state_history a) <= 10)%nat ∧
    (state a = Terminated → ∀ c t, returns (life_step c t a) (λ a', state a' = Terminated)).
Proof.
  intros Hcs. pose proof (run_life_ok cs (Agent.new uuid now binary) Hcs) as HR.
  apply returns_ret in HR as (a & E & Ha).
  - exists a. split; [done|]. split_and!; [apply Ha|intros c t; by apply step_follows|intros e He; by destruct (lf_error a Ha e He)|apply Ha|].
    intros Hs c t. eapply returns_mono; [by apply terminated_stays|]. naive_solver.
  - split; [|done|simpl; lia]. intros [|[|i]] x y [= <-] [= <-]. by right.
Qed.

(** *** What the code does beyond this *)

(** A fatal error blocks the recovery; starting the agent again does not ask. *)
Lemma fatal_error_restarts now a e :
  state a = Error → error a = Some e → fatal e = true →
  Agent.attempt_recovery now a = Ret (Blocked "Fatal error cannot be recovered", a) ∧
  (Agent.start now a).1 = Success ∧ state (Agent.start now a).2 = Running ∧ error (Agent.start now a).2 = None.
Proof.
  intros Hs He Hf. unfold Agent.attempt_recovery, Agent.start, Agent.transition_to, Agent.transition_to_with_reason. rewrite decide_True, He, Hf, Hs by done.
  cbn [negb AgentState.can_transition_to fst snd state error]. by rewrite decide_True.
Qed.

(** The number of recovery attempts goes with the error when the attempt succeeds. *)
Lemma recovery_forgets_attempts now a e :
  state a = Error → error a = Some e → fatal e = false → 0 <= recovery_attempts e < U32_MAX → returns (Agent.attempt_recovery now a) (λ r, r.1 = Success ∧ error r.2 = None).
Proof.
  intros Hs He Hf Hr. unfold Agent.attempt_recovery. rewrite decide_True, He, Hf by done. unfold AgentError.attempt_recovery. rewrite u32_add_ok by lia. cbn [obind returns].
  unfold Agent.transition_to, Agent.transition_to_with_reason. cbn [state]. rewrite Hs. cbn [negb AgentState.can_transition_to fst snd error]. by rewrite decide_True.
Qed.

(** Binaries of one length (modulo 256) have the same hash. *)
Lemma hash_is_length a b : a ≠ [] → b ≠ [] → as_u8 (zlen a) = as_u8 (zlen b) → hash (Dna.new a) = hash (Dna.new b).
Proof. intros Ha Hb E. unfold Dna.new, Dna.compute_hash. destruct a, b; try done. cbn [hash is_empty]. by rewrite E. Qed.

(** ** Rollback information *)

Section rollback.
Context `{PolicyCodec}.

(** The calls on a validator. *)
Inductive check_call : Type :=
| Before (clock : option Z) (m : list Z) (a : Agent) (r : AgentRequirements) (c : NodeCapabilities)
| CaptureInfo (clock : option Z) (m : list Z) (a : Agent) (state : list Z) | After (clock : option Z) (m a : list Z) (original migrated : list Z)
| RollBack (clock : option Z) (m : list Z) | Complete (clock : option Z) (m : list Z) (success : bool) | Cleanup (clock : option Z) | MaxAge (secs : Z).

Definition check_step (c : check_call) (v : MigrationValidator) : MigrationValidator :=
  match c with
  | Before clock m a r c => (MigrationValidator.validate_pre_migration clock m a r c v).2
  | CaptureInfo clock m a s => (MigrationValidator.capture_rollback_info clock m a s v).2
  | After clock m a o s => (MigrationValidator.verify_post_migration clock m a o s v).2
  | RollBack clock m => (MigrationValidator.execute_rollback clock m v).2
  | Complete clock m ok => MigrationValidator.complete_migration clock m ok v
  | Cleanup clock => MigrationValidator.cleanup_expired clock v
  | MaxAge secs => MigrationValidator.set_rollback_max_age secs v
  end.
Definition check_run (cs : list check_call) (v : MigrationValidator) : MigrationValidator := foldl (λ v c, check_step c v) v cs.

(** The call ends or replaces the information of migration [m]. *)
Definition touches (m : list Z) (c : check_call) : bool :=
  match c with CaptureInfo _ m' _ _ | RollBack _ m' | Complete _ m' _ => bool_decide (m' = m) | _ => false end.

(** The largest age in force after the calls, or [None] when one of them has dropped
    what was captured at [t]. *)
Fixpoint kept (t max : Z) (cs : list check_call) : option Z :=
  match cs with
  | [] => Some max
  | Cleanup clock :: cs' => if saturating_sub (now_or_zero clock) t <? max then kept t max cs' else None
  | MaxAge secs :: cs' => kept t secs cs'
  | _ :: cs' => kept t max cs'
  end.

Lemma untouched_none m c v : touches m c = false → rollback_info v !! m = None → rollback_info (check_step c v) !! m = None.
Proof.
  intros Hc Hm. destruct c as [| |clock m' a o s|clock m'|clock m' ok|clock|]; cbn [check_step touches] in *; try done; try apply bool_decide_eq_false in Hc.
  - unfold MigrationValidator.capture_rollback_info. destruct (RollbackInfo.capture _ _ _); [|done]. cbn. by rewrite lookup_insert_ne.
  - unfold MigrationValidator.execute_rollback. destruct (rollback_info v !! m'); [|done]. destruct (negb _); cbn; by rewrite lookup_delete_ne.
  - unfold MigrationValidator.complete_migration. destruct (rollback_info v !! m'); [|done]. cbn. by rewrite lookup_delete_ne.
  - cbn. by apply map_lookup_filter_None_2; left.
Qed.

Lemma run_none m cs : ∀ v, forallb (λ c, negb (touches m c)) cs = true → rollback_info v !! m = None → rollback_info (check_run cs v) !! m = None.
Proof.
  induction cs as [|c cs IH]; intros v Hcs Hm; [done|]. cbn [forallb] in Hcs. apply andb_true_iff in Hcs as [Hc Hcs]. apply negb_true_iff in Hc.
  cbn [check_run foldl]. apply IH; [done|]. by apply untouched_none.
Qed.

Lemma kept_cons t max c cs : kept t max (c :: cs) = kept t max [c] ≫= λ max, kept t max cs.
Proof. destruct c; cbn [kept]; try done. by destruct (_ <? _). Qed.

Lemma rollback_step_kept m info c v :
  touches m c = false → rollback_info v !! m = Some info →
  match kept (created_at info) (rollback_max_age_secs v) [c] with
  | Some max => rollback_info (check_step c v) !! m = Some info ∧ rollback_max_age_secs (check_step c v) = max
  | None => rollback_info (check_step c v) !! m = None
  end.
Proof.
  intros Hc Hm. destruct c as [|clock m' a s| |clock m'|clock m' ok|clock|]; cbn [check_step touches kept] in *; try done; try apply bool_decide_eq_false in Hc.
  - unfold MigrationValidator.capture_rollback_info. destruct (RollbackInfo.capture _ _ _); [|done]. cbn. by rewrite lookup_insert_ne.
  - unfold MigrationValidator.execute_rollback. destruct (rollback_info v !! m'); [|done]. destruct (negb _); cbn; by rewrite lookup_delete_ne.
  - unfold MigrationValidator.complete_migration. destruct (rollback_info v !! m'); [|done]. cbn. by rewrite lookup_delete_ne.
  - cbn [MigrationValidator.cleanup_expired MigrationValidator.set_info rollback_info rollback_max_age_secs]. destruct (_ <? _) eqn:E.
    + split; [|done]. apply map_lookup_filter_Some_2; done.
    + apply map_lookup_filter_None_2. right. intros info'. rewrite Hm. intros [= <-]. cbn. unfold RollbackInfo.is_valid, RollbackInfo.age_secs. by rewrite E.
Qed.

Lemma rollback_run_kept m info cs : ∀ v,
  forallb (λ c, negb (touches m c)) cs = true → rollback_info v !! m = Some info →
  match kept (created_at info) (rollback_max_age_secs v) cs with
  | Some max => rollback_info (check_run cs v) !! m = Some info ∧ rollback_max_age_secs (check_run cs v) = max
  | None => rollback_info (check_run cs v) !! m = None
  end.
Proof.
  induction cs as [|c cs IH]; intros v Hcs Hm; [done|]. cbn [forallb] in Hcs. apply andb_true_iff in Hcs as [Hc Hcs]. apply negb_true_iff in Hc.
  change (check_run (c :: cs) v) with (check_run cs (check_step c v)). rewrite kept_cons. pose proof (rollback_step_kept m info c v Hc Hm) as HS.
  destruct (kept _ _ [c]) as [max|]; cbn [mbind option_bind]; [|by apply run_none]. destruct HS as [Hm' <-]. by apply IH.
Qed.

(** What is captured before a migration comes back: whatever calls come in between
    for other migrations, a rollback returns the agent's state as it was captured, if
    no clean-up has dropped it and it is younger than the largest age; otherwise it
    fails.  It can be taken once. *)
Theorem rollback_returns_captured v t m a s data cs clock clock' :
  encode_policy (policy a) = Some data → forallb (λ c, negb (touches m c)) cs = true →
  let v1 := check_run cs (MigrationValidator.capture_rollback_info (Some t) m a s v).2 in
  let '(r, v2) := MigrationValidator.execute_rollback clock m v1 in
  r = match kept t (rollback_max_age_secs v) cs with
      | Some max => if saturating_sub (now_or_zero clock) t <? max then Ok (mkRollback (id a) s (simple_checksum s) data t None) else Err (InvalidState "Rollback info has expired")
      | None => Err (InvalidState "No rollback info available for migration")
      end ∧
  (MigrationValidator.execute_rollback clock' m v2).1 = Err (InvalidState "No rollback info available for migration").
Proof.
  intros He Hcs. unfold MigrationValidator.capture_rollback_info, RollbackInfo.capture. rewrite He. cbn [now_secs snd]. set (info := mkRollback _ _ _ _ _ _). set (v0 := MigrationValidator.set_log _ _).
  pose proof (rollback_run_kept m info cs v0 Hcs ltac:(cbn; by rewrite lookup_insert_eq)) as HK. change (created_at info) with t in HK. change (rollback_max_age_secs v0) with (rollback_max_age_secs v) in HK.
  unfold MigrationValidator.execute_rollback at 1. destruct (kept _ _ cs) as [max|]; [destruct HK as [-> Hmax]|rewrite HK; split; [done|unfold MigrationValidator.execute_rollback; by rewrite HK]].
  cbn [MigrationValidator.set_info MigrationValidator.set_log rollback_max_age_secs]. rewrite Hmax. unfold RollbackInfo.is_valid, RollbackInfo.age_secs. change (created_at info) with t.
  destruct (_ <? max); cbn [negb]; (split; [done|]); unfold MigrationValidator.execute_rollback; cbn; by rewrite lookup_delete_eq.
Qed.
End rollback.

(** ** The audit log *)

(** The log holds the last entries, in their order. *)
Lemma audit_keeps_last es : ∀ l,
  0 <= max_entries l → zlen (entries l) <= max_entries l →
  entries (foldl (λ l e, MigrationAuditLog.log e l) l es) =
  drop (length (entries l ++ es) - Z.to_nat (max_entries l)) (entries l ++ es).
Proof.
  induction es as [|e es IH]; intros l Hm Hl; cbn [foldl].
  { rewrite app_nil_r. replace (length (entries l) - Z.to_nat (max_entries l))%nat with 0%nat by lia. done. }
  assert (entries (MigrationAuditLog.log e l) = drop (length (entries l ++ [e]) - Z.to_nat (max_entries l)) (entries l ++ [e])) as E.
  { cbn [MigrationAuditLog.log entries]. destruct (Z.ltb_spec (max_entries l) (zlen (entries l ++ [e]))); [f_equal; lia|].
    by replace (length (entries l ++ [e]) - Z.to_nat (max_entries l))%nat with 0%nat by lia. }
  rewrite IH; [|done|rewrite E, length_drop, length_app in *; simpl in *; lia]. change (max_entries (MigrationAuditLog.log e l)) with (max_entries l).
  rewrite E. rewrite length_app, length_drop, !length_app. cbn [length].
  replace (entries l ++ e :: es) with ((entries l ++ [e]) ++ es) by by rewrite <- app_assoc.
  rewrite <- (drop_app_le (entries l ++ [e]) es) by (rewrite length_app; simpl; lia). rewrite drop_drop. f_equal. lia.
Qed.

(** ** Compatibility *)

(** A migration can proceed exactly when the node has all that the agent needs. *)
Theorem can_proceed_iff r c :
  can_proceed (CompatibilityValidator.check_compatibility r c) = true ↔
  (∀ arch, architecture r = Some arch → arch ∈ architectures c) ∧ required_memory r <= available_memory c ∧ required_storage r <= available_storage c ∧
  state_size r <= max_state_size c ∧ (∀ f, f ∈ required_wasm_features r → f ∈ wasm_features c) ∧
  CompatibilityValidator.is_version_compatible (agent_version r) (min_compatible_version c) = true.
Proof.
  unfold CompatibilityValidator.check_compatibility.
  assert (match CompatibilityValidator.missing_feature (required_wasm_features r) (wasm_features c) with
          | Some _ => ¬ ∀ f, f ∈ required_wasm_features r → f ∈ wasm_features c | None => ∀ f, f ∈ required_wasm_features r → f ∈ wasm_features c end) as HF.
  { unfold CompatibilityValidator.missing_feature. destruct (base.filter _ _) as [|f l] eqn:E; cbn [head].
    - intros f Hf. destruct (decide (f ∈ wasm_features c)) as [|Hn]; [done|]. assert (f ∈ base.filter (λ f, f ∉ wasm_features c) (required_wasm_features r)) as Hin by by apply list_elem_of_filter.
      rewrite E in Hin. by apply elem_of_nil in Hin.
    - assert (f ∈ base.filter (λ f, f ∉ wasm_features c) (required_wasm_features r)) as Hin by (rewrite E; constructor). apply list_elem_of_filter in Hin as [H1 H2]. intros Hall. by apply H1, Hall. }
  destruct (architecture r) as [arch|]; [destruct (decide (arch ∈ architectures c)) as [Ha|Ha]|]; cbn [can_proceed];
    [|split; [done|]; intros (Hall & _); by destruct (Ha (Hall arch eq_refl))|].
  all: destruct (Z.ltb_spec (available_memory c) (required_memory r)); cbn [can_proceed]; [split; [done|lia]|];
    destruct (Z.ltb_spec (available_storage c) (required_storage r)); cbn [can_proceed]; [split; [done|lia]|];
    destruct (Z.ltb_spec (max_state_size c) (state_size r)); cbn [can_proceed]; [split; [done|lia]|];
    destruct (CompatibilityValidator.missing_feature _ _) as [f|]; cbn [can_proceed]; [split; [done|]; naive_solver|];
    destruct (CompatibilityValidator.is_version_compatible _ _); cbn [negb can_proceed]; [|split; [done|]; naive_solver];
    destruct (_ <? _); cbn [can_proceed]; (split; [intros _|done]); split_and!; (done || naive_solver).
Qed.

(** ** Retries *)

Inductive recovery_call : Type :=
| Failed (e : MigrationError) | Recovery (clock : option Z) (a : list Z) | Succeeded (a : list Z) | FailedAgain (a : list Z) (msg : string) | Clear (a : list Z).

(** The manager after a call, and the strategy it was told. *)
Definition recovery_step (c : recovery_call) (m : MigrationRecoveryManager) : outcome (option RecoveryStrategy * MigrationRecoveryManager) :=
  match c with
  | Failed e => Ret (None, MigrationRecoveryManager.record_failure e m)
  | Recovery clock a => MigrationRecoveryManager.execute_recovery clock a m
  | Succeeded a => Ret (None, MigrationRecoveryManager.mark_recovery_success a m)
  | FailedAgain a msg => Ret (None, MigrationRecoveryManager.mark_recovery_failure a msg m)
  | Clear a => Ret (None, MigrationRecoveryManager.clear_history a m)
  end.

Definition is_retry (s : option RecoveryStrategy) : bool := match s with Some (RetryOnSameTarget | RetryOnDifferentTarget) => true | _ => false end.

(** How often agent [a] is told to be retried. *)
Fixpoint count_retries (a : list Z) (cs : list recovery_call) (m : MigrationRecoveryManager) : outcome Z :=
  match cs with
  | [] => Ret 0
  | c :: cs' =>
    let! (s, m) := recovery_step c m in
    let! n := count_retries a cs' m in
    Ret (n + match c with Recovery _ b => if decide (b = a) then (if is_retry s then 1 else 0) else 0 | _ => 0 end)
  end.

(** What is left of the retries of [a]. *)
Definition retries_left (a : list Z) (m : MigrationRecoveryManager) : Z :=
  match pending_recoveries m !! a with Some e => Z.max 0 (max_retries (recovery_config m) - retry_count e) | None => 0 end.

Definition counts_ok (n : Z) (m : MigrationRecoveryManager) : Prop := ∀ a e, pending_recoveries m !! a = Some e → 0 <= retry_count e <= n.

(** No failure of [a] is recorded anew, and new failures start at 0. *)
Definition other_call (a : list Z) (c : recovery_call) : Prop := match c with Failed e => failed_agent e ≠ a ∧ retry_count e = 0 | _ => True end.

Lemma recovery_step_ok a c m n :
  counts_ok n m → 0 <= n < U32_MAX → other_call a c →
  ∃ s m', recovery_step c m = Ret (s, m') ∧ counts_ok (n + 1) m' ∧
    retries_left a m' + match c with Recovery _ b => if decide (b = a) then (if is_retry s then 1 else 0) else 0 | _ => 0 end <= retries_left a m.
Proof.
  intros Hc Hn Ho. assert (counts_ok (n + 1) m) as Hc' by (intros b e He; specialize (Hc b e He); lia).
  destruct c as [e|clock b|b|b msg|b]; cbn [recovery_step].
  - destruct Ho as [Hne H0]. do 2 eexists. split; [done|]. split; unfold counts_ok, retries_left; cbn [MigrationRecoveryManager.record_failure MigrationRecoveryManager.set_history MigrationRecoveryManager.set_pending pending_recoveries recovery_config].
    + intros b e' [[<- <-]|[_ Hb]]%lookup_insert_Some; [lia|by eapply Hc'].
    + rewrite lookup_insert_ne by done. lia.
  - unfold MigrationRecoveryManager.execute_recovery. destruct (pending_recoveries m !! b) as [e|] eqn:Eb; cycle 1.
    { do 2 eexists. split; [done|]. split; [done|]. cbn [is_retry]. case_decide; lia. }
    pose proof (Hc b e Eb) as He. unfold increment_retry. rewrite u32_add_ok by lia. cbn [obind]. do 2 eexists. split; [done|]. split.
    + intros b' e'. cbn [MigrationRecoveryManager.set_history MigrationRecoveryManager.set_pending pending_recoveries]. intros [[<- <-]|[_ Hb]]%lookup_insert_Some; [cbn [retry_count]; lia|by eapply Hc'].
    + unfold retries_left. cbn [MigrationRecoveryManager.set_history MigrationRecoveryManager.set_pending pending_recoveries recovery_config].
      case_decide as Hd; [subst b|rewrite lookup_insert_ne by done; lia]. rewrite lookup_insert_eq, Eb. cbn [retry_count].
      unfold MigrationRecoveryManager.determine_strategy. destruct (Z.leb_spec (max_retries (recovery_config m)) (retry_count e)).
      * destruct (auto_rollback _); cbn [is_retry]; lia.
      * destruct (is_retry _); lia.
  - do 2 eexists. split; [done|]. unfold MigrationRecoveryManager.mark_recovery_success.
    assert (∀ h, counts_ok (n + 1) (MigrationRecoveryManager.set_history h (MigrationRecoveryManager.set_pending (delete b (pending_recoveries m)) m)) ∧
      retries_left a (MigrationRecoveryManager.set_history h (MigrationRecoveryManager.set_pending (delete b (pending_recoveries m)) m)) + 0 <= retries_left a m) as HS.
    { intros h. unfold counts_ok, retries_left. cbn [MigrationRecoveryManager.set_history MigrationRecoveryManager.set_pending pending_recoveries recovery_config].
      split; [intros a' e [_ Ha]%lookup_delete_Some; by eapply Hc'|]. destruct (decide (b = a)) as [->|]; [rewrite lookup_delete_eq|rewrite lookup_delete_ne by done]; [|lia]. destruct (pending_recoveries m !! a); lia. }
    destruct (recovery_history _ !! b); [apply HS|]. apply (HS (recovery_history m)).
  - do 2 eexists. split; [done|]. unfold MigrationRecoveryManager.mark_recovery_failure. destruct (recovery_history m !! b); (split; [done|]); unfold retries_left; cbn; lia.
  - do 2 eexists. split; [done|]. unfold counts_ok, retries_left. cbn [MigrationRecoveryManager.clear_history MigrationRecoveryManager.set_history MigrationRecoveryManager.set_pending pending_recoveries recovery_config].
    split; [intros a' e [_ Ha]%lookup_delete_Some; by eapply Hc'|]. destruct (decide (b = a)) as [->|]; [rewrite lookup_delete_eq|rewrite lookup_delete_ne by done]; [|lia]. destruct (pending_recoveries m !! a); lia.
Qed.

(** A failed migration is retried as often as the configuration allows and no more:
    over any calls, as long as the agent's failure is not recorded anew, it is told to
    retry at most [max_retries] times less the retries it has behind it. *)
Theorem retries_bounded a cs : ∀ m n,
  counts_ok n m → 0 <= n → n + zlen cs <= U32_MAX → Forall (other_call a) cs →
  ∃ k, count_retries a cs m = Ret k ∧ 0 <= k <= retries_left a m.
Proof.
  induction cs as [|c cs IH]; intros m n Hc Hn Hl Ho; cbn [count_retries].
  { exists 0. split; [done|]. unfold retries_left. destruct (pending_recoveries m !! a); lia. }
  apply Forall_cons in Ho as [Hoc Ho]. cbn [length] in Hl. destruct (recovery_step_ok a c m n Hc ltac:(lia) Hoc) as (s & m' & -> & Hc' & Hle). cbn [obind].
  destruct (IH m' (n + 1) Hc' ltac:(lia) ltac:(lia) Ho) as (k & -> & Hk). cbn [obind]. eexists. split; [done|].
  destruct c as [|? b| | |]; try lia. case_decide; [|lia]. destruct (is_retry s); lia.
Qed.

(** *** What the code does beyond this *)

(** A retry that fails is recorded as a new failure and starts to count again. *)
Lemma failure_recorded_anew t msg a target m :
  0 < max_retries (recovery_config m) →
  retries_left a (MigrationRecoveryManager.record_failure (failure_new t NetworkTransient msg a target) m) = max_retries (recovery_config m).
Proof.
  intros Hm. unfold retries_left, MigrationRecoveryManager.record_failure. cbn [failure_new failed_agent MigrationRecoveryManager.set_history MigrationRecoveryManager.set_pending pending_recoveries recovery_config].
  rewrite lookup_insert_eq. cbn. lia.
Qed.

(** The delay is a power of two times the first delay until that overflows: the
    default configuration panics at the thirtieth attempt instead of waiting its five minutes. *)
Lemma delay_overflows :
  RecoveryConfig.calculate_retry_delay 29 RecoveryConfig.default = Ret 300 ∧ RecoveryConfig.calculate_retry_delay 30 RecoveryConfig.default = Panic.
Proof. by split. Qed.

(** The check of a migrated state compares lengths and checksums only. *)
Lemma different_state_passes : passed (StateVerifier.verify_state [2; 0] [0; 1] (simple_checksum [2; 0])) = true.
Proof. done. Qed.

(** Expired information is dropped by the rollback that refuses it, and the rollback is
    logged as started with success. *)
Lemma expired_rollback_drops m info v clock :
  rollback_info v !! m = Some info → RollbackInfo.is_valid clock (rollback_max_age_secs v) info = false →
  rollback_info (MigrationValidator.execute_rollback clock m v).2 !! m = None.
Proof.
  intros Hm Hv. unfold MigrationValidator.execute_rollback. rewrite Hm. cbn [MigrationValidator.set_info MigrationValidator.set_log rollback_max_age_secs]. rewrite Hv. cbn. by rewrite lookup_delete_eq.
Qed.

(** A restored agent is a new one: another identity, the state [Created], and nothing of
    the state that the agent had. *)
Lemma restore_is_new_agent clock a target uuid now :
  match MigrationSnapshot.capture clock a target with
  | Ok s => snap_state s = [] ∧ snap_source s = target ∧
      id (MigrationSnapshot.restore uuid now s) = uuid ∧ state (MigrationSnapshot.restore uuid now s) = Created ∧
      wasm_binary (dna (MigrationSnapshot.restore uuid now s)) = wasm_binary (dna a) ∧ policy (MigrationSnapshot.restore uuid now s) = policy a
  | Err _ => clock = None
  end.
Proof. unfold MigrationSnapshot.capture. by destruct clock. Qed.

(** ** Witnesses *)

Lemma agent_lifecycle_witness :
  ∃ a, life_run [(To Running, 1); (Fail (AgentError.new 5 "x"), 2); (Recover, 3); (To Terminated, 4)] (Agent.new [1] 0 [0]) = Ret a ∧
    trail a = [Created; Created; Running; Error; Running; Terminated] ∧
    (∀ i x y, trail a !! i = Some x → trail a !! S i = Some y →
       AgentState.can_transition_to x y = true ∨ (i = 0%nat ∧ x = Created ∧ y = Created)) ∧
    (∀ c t, returns (life_step c t a) (λ a', state a' = Terminated)).
Proof.
  destruct (agent_lifecycle [1] 0 [0] [(To Running, 1); (Fail (AgentError.new 5 "x"), 2); (Recover, 3); (To Terminated, 4)])
    as (a & E & Htr & _ & _ & _ & Hterm).
  - repeat (apply Forall_cons; split; [intros e [=]; subst; simpl; lia|]). apply Forall_nil. exact I.
  - exists a. split; [exact E|]. vm_compute in E. injection E as <-. split; [reflexivity|]. split; [exact Htr|]. apply Hterm. reflexivity.
Defined.

Definition no_codec : PolicyCodec := λ _, Some [].

Lemma rollback_returns_captured_witness :
  let a := Agent.new [1] 0 [0] in
  let v1 := @check_run no_codec [Cleanup (Some 200)] (@MigrationValidator.capture_rollback_info no_codec (Some 100) [7] a [4; 5] MigrationValidator.new).2 in
  let '(r, v2) := MigrationValidator.execute_rollback (Some 300) [7] v1 in
  r = match kept 100 (rollback_max_age_secs MigrationValidator.new) [Cleanup (Some 200)] with
      | Some max => if saturating_sub (now_or_zero (Some 300)) 100 <? max then Ok (mkRollback (id a) [4; 5] (simple_checksum [4; 5]) [] 100 None) else Err (InvalidState "Rollback info has expired")
      | None => Err (InvalidState "No rollback info available for migration")
      end ∧
  (MigrationValidator.execute_rollback None [7] v2).1 = Err (InvalidState "No rollback info available for migration").
Proof. exact (@rollback_returns_captured no_codec MigrationValidator.new 100 [7] (Agent.new [1] 0 [0]) [4; 5] [] [Cleanup (Some 200)] (Some 300) None eq_refl eq_refl). Defined.

Lemma retries_bounded_witness :
  let m := MigrationRecoveryManager.record_failure (failure_new (Some 5) NetworkTransient "x" [1] None) MigrationRecoveryManager.with_defaults in
  ∃ k, count_retries [1] (replicate 5 (Recovery (Some 9) [1])) m = Ret k ∧ 0 <= k <= retries_left [1] m.
Proof.
  intros m. apply (retries_bounded [1] (replicate 5 (Recovery (Some 9) [1])) m 0); [|lia|simpl; lia|repeat constructor].
  intros a e. unfold m, MigrationRecoveryManager.record_failure. cbn [failure_new failed_agent MigrationRecoveryManager.set_history MigrationRecoveryManager.set_pending pending_recoveries].
  intros [[_ <-]|[_ Hb]]%lookup_insert_Some; [cbn; lia|done].
Defined.
