(* ===== verification/Policies.v ===== *)
(** * Migration policies (mielin-cells/src/policy.rs)

    When an agent should move and where to: the metrics of a node, the requirements on a
    target, the five triggers with their thresholds, the limits on how often to migrate, and
    the choice among candidates.  The file has the definitions first, then the theorems.

    Names are lists of characters (code points).  The texts of errors and reasons are kept
    as data, a constructor for each with its arguments.  The time of a call, in seconds, is
    an argument.  Temperatures are [f32], costs and scores [f64]. *)

From stdpp Require Import base tactics option list numbers.
From Stdlib Require Import SpecFloat.
From S2P Require Import Prelude Float.

(** ** [f32], and comparisons *)

Definition f32_of_u32 (x : Z) : spec_float := binary_normalize 24 128 x 0 false.
Definition f32_lit (n d : Z) : spec_float := SFdiv 24 128 (f32_of_u32 n) (f32_of_u32 d).
Definition f32_sub : spec_float → spec_float → spec_float := SFsub 24 128.

(** [f64::from] of an [f32], which is exact. *)
Definition f64_of_f32 (x : spec_float) : spec_float :=
  match x with
  | S754_finite s m e => binary_normalize 53 1024 (if s then - Zpos m else Zpos m) e s
  | _ => x
  end.

(** [a > b] and [a >= b]. *)
Definition gt (a b : spec_float) : bool := SFltb b a.
Definition ge (a b : spec_float) : bool := SFleb b a.

Definition is_finite (x : spec_float) : bool := match x with S754_finite _ _ _ | S754_zero _ => true | _ => false end.

(** [-273.15_f32] and [200.0_f32]. *)
Definition absolute_zero : spec_float := SFopp (f32_lit 27315 100).
Definition f32_200 : spec_float := f32_of_u32 200.

(** Unicode white space; [s.trim().is_empty()]. *)
Definition is_whitespace (c : Z) : bool :=
  ((9 <=? c) && (c <=? 13)) || (c =? 32) || (c =? 133) || (c =? 160) || (c =? 5760) ||
  ((8192 <=? c) && (c <=? 8202)) || (c =? 8232) || (c =? 8233) || (c =? 8239) || (c =? 8287) || (c =? 12288).
Definition blank (s : list Z) : bool := forallb is_whitespace s.

(** The messages of the checks. *)
Inductive PolicyError : Type :=
| InvalidCpuLoad (x : Z)
| InvalidMemoryUsage (x : Z)
| TemperatureTooLow (x : spec_float)
| TemperatureTooHigh (x : spec_float)
| InvalidBattery (x : Z)
| NegativeCost (x : spec_float)
| CostNotFinite
| InvalidPriority (x : Z)
| MigrateWithoutTrigger
| TriggerWithoutMigrate
| EmptyReason
| InvalidMaxCpu (x : Z)
| InvalidMaxMemory (x : Z)
| MaxTemperatureTooLow (x : spec_float)
| MaxTemperatureTooHigh (x : spec_float)
| MaxTemperatureNotFinite
| ZeroMaxLatency
| NegativeMaxCost (x : spec_float)
| MaxCostNotFinite
| EmptyArchitecture
| InvalidCpuThreshold (x : Z)
| InvalidMemoryThreshold (x : Z)
| CpuThresholdTooLow (x : Z)
| MemoryThresholdTooLow (x : Z)
| InvalidWarning (x : spec_float)
| InvalidCritical (x : spec_float)
| CriticalNotAboveWarning (c w : spec_float)
| LatencyTooHigh (x : Z)
| InvalidCostPerUnit (x : spec_float)
| InvalidCostReduction (x : spec_float)
| InvalidMinBattery (x : Z)
| ZeroCooldown
| CooldownTooHigh (x : Z)
| ZeroMigrations
| TooManyMigrations (x : Z).

(** A check that returns early, then the rest. *)
Definition reject {A} (b : bool) (e : PolicyError) (rest : result A PolicyError) : result A PolicyError :=
  if b then Err e else rest.
(** [if let Some(x) = o { .. }] with checks, then the rest. *)
Definition when {X A} (o : option X) (checks : X → result A PolicyError → result A PolicyError) (rest : result A PolicyError)
    : result A PolicyError :=
  match o with Some x => checks x rest | None => rest end.

(** ** Metrics *)

(* src: mielin-cells/src/policy.rs 52-75 NodeMetrics *)
Record NodeMetrics : Type := mkMetrics {
  cpu_load_percent : Z;
  memory_usage_percent : Z;
  available_memory_bytes : Z;
  temperature_celsius : spec_float;
  network_latency_ms : Z;
  available_bandwidth_bps : Z;
  cost_per_unit : spec_float;
  agent_count : Z;
  queue_depth : Z;
  battery_percent : option Z;
  on_ac_power : bool;
}.

Module NodeMetrics.

(* src: mielin-cells/src/policy.rs 79-81 NodeMetrics::new *)
Definition new : NodeMetrics := mkMetrics 0 0 0 (S754_zero false) 0 0 (S754_zero false) 0 0 None false.

(* src: mielin-cells/src/policy.rs 84-86 NodeMetrics::is_high_load *)
Definition is_high_load (self : NodeMetrics) : bool := (80 <? cpu_load_percent self) || (85 <? memory_usage_percent self).

(* src: mielin-cells/src/policy.rs 89-91 NodeMetrics::is_overheating *)
Definition is_overheating (self : NodeMetrics) (threshold : spec_float) : bool := gt (temperature_celsius self) threshold.

(* src: mielin-cells/src/policy.rs 94-96 NodeMetrics::has_poor_network *)
Definition has_poor_network (self : NodeMetrics) (max_latency : Z) : bool := max_latency <? network_latency_ms self.

(* src: mielin-cells/src/policy.rs 99-142 NodeMetrics::validate *)
Definition validate (self : NodeMetrics) : result () PolicyError :=
  reject (100 <? cpu_load_percent self) (InvalidCpuLoad (cpu_load_percent self)) $
  reject (100 <? memory_usage_percent self) (InvalidMemoryUsage (memory_usage_percent self)) $
  reject (SFltb (temperature_celsius self) absolute_zero) (TemperatureTooLow (temperature_celsius self)) $
  reject (gt (temperature_celsius self) f32_200) (TemperatureTooHigh (temperature_celsius self)) $
  when (battery_percent self) (λ battery, reject (100 <? battery) (InvalidBattery battery)) $
  reject (SFltb (cost_per_unit self) f64_zero) (NegativeCost (cost_per_unit self)) $
  reject (negb (is_finite (cost_per_unit self))) CostNotFinite $
  Ok ().

End NodeMetrics.

(** ** Decisions and requirements *)

(* src: mielin-cells/src/policy.rs 147-162 MigrationTrigger *)
Inductive MigrationTrigger : Type :=
  LoadBased | ThermalBased | LatencyBased | CostBased | BatteryBased | Manual | NoTrigger.

#[export] Instance MigrationTrigger_eq_dec : EqDecision MigrationTrigger.
Proof. solve_decision. Defined.

(* src: mielin-cells/src/policy.rs 235-252 TargetRequirements *)
Record TargetRequirements : Type := mkReq {
  max_cpu_load : option Z;
  max_memory_usage : option Z;
  min_available_memory : option Z;
  max_temperature : option spec_float;
  max_latency : option Z;
  max_cost : option spec_float;
  required_architectures : list (list Z);
  prefer_ac_power : bool;
}.

Module TargetRequirements.

Definition default : TargetRequirements := mkReq None None None None None None [] false.

(** [if let Some(limit) = o { if beyond(limit) { return false; } }]. *)
Definition within {X} (o : option X) (beyond : X → bool) (rest : bool) : bool :=
  match o with Some x => if beyond x then false else rest | None => rest end.

(* src: mielin-cells/src/policy.rs 256-292 TargetRequirements::is_satisfied_by *)
Definition is_satisfied_by (self : TargetRequirements) (metrics : NodeMetrics) : bool :=
  within (max_cpu_load self) (λ x, x <? cpu_load_percent metrics) $
  within (max_memory_usage self) (λ x, x <? memory_usage_percent metrics) $
  within (min_available_memory self) (λ x, available_memory_bytes metrics <? x) $
  within (max_temperature self) (λ x, gt (temperature_celsius metrics) x) $
  within (max_latency self) (λ x, x <? network_latency_ms metrics) $
  within (max_cost self) (λ x, gt (cost_per_unit metrics) x) $
  true.

(* src: mielin-cells/src/policy.rs 295-349 TargetRequirements::validate *)
Definition validate (self : TargetRequirements) : result () PolicyError :=
  when (max_cpu_load self) (λ x, reject (100 <? x) (InvalidMaxCpu x)) $
  when (max_memory_usage self) (λ x, reject (100 <? x) (InvalidMaxMemory x)) $
  when (max_temperature self) (λ x rest,
    reject (SFltb x absolute_zero) (MaxTemperatureTooLow x) $
    reject (gt x f32_200) (MaxTemperatureTooHigh x) $
    reject (negb (is_finite x)) MaxTemperatureNotFinite rest) $
  when (max_latency self) (λ x, reject (x =? 0) ZeroMaxLatency) $
  when (max_cost self) (λ x rest,
    reject (SFltb x f64_zero) (NegativeMaxCost x) $
    reject (negb (is_finite x)) MaxCostNotFinite rest) $
  reject (existsb blank (required_architectures self)) EmptyArchitecture $
  Ok ().

End TargetRequirements.

(** The texts of reasons. *)
Inductive Reason : Type :=
| Text (s : list Z)
| NoMigrationNeeded
| CriticalTemperature (t : spec_float)
| HighTemperature (t : spec_float)
| LowBattery (x : Z)
| HighCpu (x : Z)
| HighMemory (x : Z)
| HighQueue (x : Z)
| HighLatency (x : Z)
| LowBandwidth (x : Z)
| HighCost (x : spec_float).

(* src: mielin-cells/src/policy.rs 166-177 MigrationDecision *)
Record MigrationDecision : Type := mkDecision {
  should_migrate : bool;
  trigger : MigrationTrigger;
  priority : Z;
  reason : Reason;
  target_requirements : TargetRequirements;
}.

Module MigrationDecision.

(* src: mielin-cells/src/policy.rs 181-189 MigrationDecision::no_migration *)
Definition no_migration : MigrationDecision := mkDecision false NoTrigger 0 NoMigrationNeeded TargetRequirements.default.

(* src: mielin-cells/src/policy.rs 192-200 MigrationDecision::migrate *)
Definition migrate (t : MigrationTrigger) (p : Z) (r : Reason) : MigrationDecision := mkDecision true t p r TargetRequirements.default.

(* src: mielin-cells/src/policy.rs 203-206 MigrationDecision::with_requirements *)
Definition with_requirements (requirements : TargetRequirements) (self : MigrationDecision) : MigrationDecision :=
  mkDecision (should_migrate self) (trigger self) (priority self) (reason self) requirements.

(* src: mielin-cells/src/policy.rs 209-230 MigrationDecision::validate *)
Definition validate (self : MigrationDecision) : result () PolicyError :=
  reject (100 <? priority self) (InvalidPriority (priority self)) $
  reject (should_migrate self && bool_decide (trigger self = NoTrigger)) MigrateWithoutTrigger $
  reject (negb (should_migrate self) && negb (bool_decide (trigger self = NoTrigger))) TriggerWithoutMigrate $
  reject (match reason self with Text [] => true | _ => false end) EmptyReason $
  TargetRequirements.validate (target_requirements self).

End MigrationDecision.

(** ** Triggers *)

(* src: mielin-cells/src/policy.rs 354-365 LoadTriggerConfig *)
Record LoadTriggerConfig : Type := mkLoad {
  cpu_threshold : Z; memory_threshold : Z; queue_depth_threshold : Z; sustained_duration_secs : Z; load_enabled : bool }.

Module LoadTriggerConfig.

(* src: mielin-cells/src/policy.rs 368-376 LoadTriggerConfig::default *)
Definition default : LoadTriggerConfig := mkLoad 85 90 100 30 true.

(* src: mielin-cells/src/policy.rs 381-407 LoadTriggerConfig::validate *)
Definition validate (self : LoadTriggerConfig) : result () PolicyError :=
  reject (100 <? cpu_threshold self) (InvalidCpuThreshold (cpu_threshold self)) $
  reject (100 <? memory_threshold self) (InvalidMemoryThreshold (memory_threshold self)) $
  reject (cpu_threshold self <? 50) (CpuThresholdTooLow (cpu_threshold self)) $
  reject (memory_threshold self <? 50) (MemoryThresholdTooLow (memory_threshold self)) $
  Ok ().

End LoadTriggerConfig.

(* src: mielin-cells/src/policy.rs 412-419 ThermalTriggerConfig *)
Record ThermalTriggerConfig : Type := mkThermal {
  warning_threshold : spec_float; critical_threshold : spec_float; thermal_enabled : bool }.

Module ThermalTriggerConfig.

(* src: mielin-cells/src/policy.rs 422-428 ThermalTriggerConfig::default *)
Definition default : ThermalTriggerConfig := mkThermal (f32_of_u32 70) (f32_of_u32 85) true.

(* src: mielin-cells/src/policy.rs 433-453 ThermalTriggerConfig::validate *)
Definition validate (self : ThermalTriggerConfig) : result () PolicyError :=
  let w := warning_threshold self in
  let c := critical_threshold self in
  reject (SFltb w (f32_of_u32 0) || gt w f32_200) (InvalidWarning w) $
  reject (SFltb c (f32_of_u32 0) || gt c f32_200) (InvalidCritical c) $
  reject (SFleb c w) (CriticalNotAboveWarning c w) $
  Ok ().

End ThermalTriggerConfig.

(* src: mielin-cells/src/policy.rs 458-465 LatencyTriggerConfig *)
Record LatencyTriggerConfig : Type := mkLatency { max_latency_ms : Z; min_bandwidth_bps : Z; latency_enabled : bool }.

Module LatencyTriggerConfig.

(* src: mielin-cells/src/policy.rs 468-474 LatencyTriggerConfig::default *)
Definition default : LatencyTriggerConfig := mkLatency 100 1000000 true.

(* src: mielin-cells/src/policy.rs 479-490 LatencyTriggerConfig::validate *)
Definition validate (self : LatencyTriggerConfig) : result () PolicyError :=
  reject (max_latency_ms self =? 0) ZeroMaxLatency $
  reject (60000 <? max_latency_ms self) (LatencyTooHigh (max_latency_ms self)) $
  Ok ().

End LatencyTriggerConfig.

(* src: mielin-cells/src/policy.rs 495-502 CostTriggerConfig *)
Record CostTriggerConfig : Type := mkCost { max_cost_per_unit : spec_float; cost_reduction_threshold : spec_float; cost_enabled : bool }.

Module CostTriggerConfig.

(* src: mielin-cells/src/policy.rs 505-511 CostTriggerConfig::default *)
Definition default : CostTriggerConfig := mkCost f64_one (f32_of_u32 20) false.

(* src: mielin-cells/src/policy.rs 516-530 CostTriggerConfig::validate *)
Definition validate (self : CostTriggerConfig) : result () PolicyError :=
  reject (SFltb (max_cost_per_unit self) f64_zero) (InvalidCostPerUnit (max_cost_per_unit self)) $
  reject (SFltb (cost_reduction_threshold self) (f32_of_u32 0) || gt (cost_reduction_threshold self) (f32_of_u32 100))
    (InvalidCostReduction (cost_reduction_threshold self)) $
  Ok ().

End CostTriggerConfig.

(* src: mielin-cells/src/policy.rs 535-542 BatteryTriggerConfig *)
Record BatteryTriggerConfig : Type := mkBattery { min_battery_percent : Z; battery_prefer_ac : bool; battery_enabled : bool }.

Module BatteryTriggerConfig.

(* src: mielin-cells/src/policy.rs 545-551 BatteryTriggerConfig::default *)
Definition default : BatteryTriggerConfig := mkBattery 15 true true.

(* src: mielin-cells/src/policy.rs 556-564 BatteryTriggerConfig::validate *)
Definition validate (self : BatteryTriggerConfig) : result () PolicyError :=
  reject (100 <? min_battery_percent self) (InvalidMinBattery (min_battery_percent self)) $ Ok ().

End BatteryTriggerConfig.

(* src: mielin-cells/src/policy.rs 569-584 MigrationPolicy *)
Record MigrationPolicy : Type := mkPolicy {
  load_trigger : LoadTriggerConfig;
  thermal_trigger : ThermalTriggerConfig;
  latency_trigger : LatencyTriggerConfig;
  cost_trigger : CostTriggerConfig;
  battery_trigger : BatteryTriggerConfig;
  migration_cooldown_secs : Z;
  max_migrations_per_hour : Z;
}.

(** [r?] in front of the rest. *)
Definition also (r rest : result () PolicyError) : result () PolicyError := match r with Ok _ => rest | Err e => Err e end.

Module MigrationPolicy.

(* src: mielin-cells/src/policy.rs 587-597 MigrationPolicy::default *)
Definition default : MigrationPolicy :=
  mkPolicy LoadTriggerConfig.default ThermalTriggerConfig.default LatencyTriggerConfig.default CostTriggerConfig.default
    BatteryTriggerConfig.default 60 10.

(* src: mielin-cells/src/policy.rs 602-628 MigrationPolicy::validate *)
Definition validate (self : MigrationPolicy) : result () PolicyError :=
  also (LoadTriggerConfig.validate (load_trigger self)) $
  also (ThermalTriggerConfig.validate (thermal_trigger self)) $
  also (LatencyTriggerConfig.validate (latency_trigger self)) $
  also (CostTriggerConfig.validate (cost_trigger self)) $
  also (BatteryTriggerConfig.validate (battery_trigger self)) $
  reject (migration_cooldown_secs self =? 0) ZeroCooldown $
  reject (86400 <? migration_cooldown_secs self) (CooldownTooHigh (migration_cooldown_secs self)) $
  reject (max_migrations_per_hour self =? 0) ZeroMigrations $
  reject (1000 <? max_migrations_per_hour self) (TooManyMigrations (max_migrations_per_hour self)) $
  Ok ().

(* src: mielin-cells/src/policy.rs 631-647 MigrationPolicy::performance_optimized *)
Definition performance_optimized : MigrationPolicy :=
  mkPolicy (mkLoad 70 80 50 15 true) (thermal_trigger default) (mkLatency 50 10000000 true) (cost_trigger default)
    (battery_trigger default) (migration_cooldown_secs default) (max_migrations_per_hour default).

(* src: mielin-cells/src/policy.rs 650-666 MigrationPolicy::cost_optimized *)
Definition cost_optimized : MigrationPolicy :=
  mkPolicy (mkLoad 95 95 200 60 true) (thermal_trigger default) (latency_trigger default) (mkCost (f64_lit 1 2) (f32_of_u32 10) true)
    (battery_trigger default) (migration_cooldown_secs default) (max_migrations_per_hour default).

(* src: mielin-cells/src/policy.rs 669-682 MigrationPolicy::battery_optimized *)
Definition battery_optimized : MigrationPolicy :=
  let l := LoadTriggerConfig.default in
  mkPolicy (mkLoad 60 (memory_threshold l) (queue_depth_threshold l) (sustained_duration_secs l) (load_enabled l))
    (thermal_trigger default) (latency_trigger default) (cost_trigger default) (mkBattery 30 true true)
    (migration_cooldown_secs default) (max_migrations_per_hour default).

End MigrationPolicy.

(** ** The evaluator *)

(* src: mielin-cells/src/policy.rs 687-692 PolicyEvaluator *)
Record PolicyEvaluator : Type := mkEvaluator {
  policy : MigrationPolicy;
  last_migration_time : option Z;
  migrations_this_hour : Z;
  hour_start_time : Z;
}.

Definition only_temperature (x : spec_float) : TargetRequirements := mkReq None None None (Some x) None None [] false.
Definition only_cpu (x : Z) : TargetRequirements := mkReq (Some x) None None None None None [] false.
Definition only_memory (x : Z) : TargetRequirements := mkReq None (Some x) None None None None [] false.
Definition only_latency (x : Z) : TargetRequirements := mkReq None None None None (Some x) None [] false.
Definition only_cost (x : spec_float) : TargetRequirements := mkReq None None None None None (Some x) [] false.
Definition only_ac : TargetRequirements := mkReq None None None None None None [] true.

Module PolicyEvaluator.
Import MigrationDecision.

(* src: mielin-cells/src/policy.rs 696-708 PolicyEvaluator::new *)
Definition new (p : MigrationPolicy) (now : Z) : PolicyEvaluator := mkEvaluator p None 0 now.

(* src: mielin-cells/src/policy.rs 716-718 PolicyEvaluator::set_policy *)
Definition set_policy (p : MigrationPolicy) (self : PolicyEvaluator) : PolicyEvaluator :=
  mkEvaluator p (last_migration_time self) (migrations_this_hour self) (hour_start_time self).

(* src: mielin-cells/src/policy.rs 721-735 PolicyEvaluator::record_migration *)
Definition record_migration (now : Z) (self : PolicyEvaluator) : outcome PolicyEvaluator :=
  let! d := usize_sub now (hour_start_time self) in
  let '(start, count) := if 3600 <=? d then (now, 0) else (hour_start_time self, migrations_this_hour self) in
  let! count := u32_add count 1 in
  Ret (mkEvaluator (policy self) (Some now) count start).

(* src: mielin-cells/src/policy.rs 738-759 PolicyEvaluator::migration_allowed *)
Definition migration_allowed (now : Z) (self : PolicyEvaluator) : outcome bool :=
  let! cooling := match last_migration_time self with
    | Some last => let! d := usize_sub now last in Ret (d <? migration_cooldown_secs (policy self))
    | None => Ret false
    end in
  if (cooling : bool) then Ret false else
  let! d := usize_sub now (hour_start_time self) in
  if (d <? 3600) && (max_migrations_per_hour (policy self) <=? migrations_this_hour self) then Ret false
  else Ret true.

(* src: mielin-cells/src/policy.rs 798-832 PolicyEvaluator::evaluate_thermal *)
Definition evaluate_thermal (self : PolicyEvaluator) (metrics : NodeMetrics) : option MigrationDecision :=
  let t := thermal_trigger (policy self) in
  if negb (thermal_enabled t) then None else
  let temp := temperature_celsius metrics in
  if ge temp (critical_threshold t) then
    Some (with_requirements (only_temperature (warning_threshold t)) (migrate ThermalBased 100 (CriticalTemperature temp)))
  else if ge temp (warning_threshold t) then
    Some (with_requirements (only_temperature (f32_sub (warning_threshold t) (f32_of_u32 10)))
      (migrate ThermalBased 80 (HighTemperature temp)))
  else None.

(* src: mielin-cells/src/policy.rs 835-862 PolicyEvaluator::evaluate_battery *)
Definition evaluate_battery (self : PolicyEvaluator) (metrics : NodeMetrics) : option MigrationDecision :=
  let b := battery_trigger (policy self) in
  if negb (battery_enabled b) then None else
  if on_ac_power metrics && battery_prefer_ac b then None else
  match battery_percent metrics with
  | Some battery =>
      if battery <? min_battery_percent b
      then Some (with_requirements only_ac (migrate BatteryBased 90 (LowBattery battery))) else None
  | None => None
  end.

(* src: mielin-cells/src/policy.rs 865-915 PolicyEvaluator::evaluate_load *)
Definition evaluate_load (self : PolicyEvaluator) (metrics : NodeMetrics) : option MigrationDecision :=
  let l := load_trigger (policy self) in
  if negb (load_enabled l) then None else
  if cpu_threshold l <? cpu_load_percent metrics then
    Some (with_requirements (only_cpu (saturating_sub (cpu_threshold l) 20))
      (migrate LoadBased 70 (HighCpu (cpu_load_percent metrics))))
  else if memory_threshold l <? memory_usage_percent metrics then
    Some (with_requirements (only_memory (saturating_sub (memory_threshold l) 20))
      (migrate LoadBased 75 (HighMemory (memory_usage_percent metrics))))
  else if queue_depth_threshold l <? queue_depth metrics then
    Some (with_requirements (only_cpu 50) (migrate LoadBased 60 (HighQueue (queue_depth metrics))))
  else None.

(* src: mielin-cells/src/policy.rs 918-954 PolicyEvaluator::evaluate_latency *)
Definition evaluate_latency (self : PolicyEvaluator) (metrics : NodeMetrics) : option MigrationDecision :=
  let l := latency_trigger (policy self) in
  if negb (latency_enabled l) then None else
  if max_latency_ms l <? network_latency_ms metrics then
    Some (with_requirements (only_latency (max_latency_ms l / 2))
      (migrate LatencyBased 65 (HighLatency (network_latency_ms metrics))))
  else if available_bandwidth_bps metrics <? min_bandwidth_bps l then
    Some (with_requirements (only_latency (max_latency_ms l))
      (migrate LatencyBased 55 (LowBandwidth (available_bandwidth_bps metrics))))
  else None.

(* src: mielin-cells/src/policy.rs 957-979 PolicyEvaluator::evaluate_cost *)
Definition evaluate_cost (self : PolicyEvaluator) (metrics : NodeMetrics) : option MigrationDecision :=
  let c := cost_trigger (policy self) in
  if negb (cost_enabled c) then None else
  if gt (cost_per_unit metrics) (max_cost_per_unit c) then
    Some (with_requirements (only_cost (f64_mul (max_cost_per_unit c) (f64_lit 8 10)))
      (migrate CostBased 40 (HighCost (cost_per_unit metrics))))
  else None.

(** [if let Some(decision) = o { return decision; }]. *)
Definition or_else (o : option MigrationDecision) (rest : MigrationDecision) : MigrationDecision :=
  match o with Some d => d | None => rest end.

(* src: mielin-cells/src/policy.rs 762-795 PolicyEvaluator::evaluate *)
Definition evaluate (now : Z) (self : PolicyEvaluator) (metrics : NodeMetrics) : outcome MigrationDecision :=
  let! allowed := migration_allowed now self in
  if negb allowed then Ret no_migration else
  Ret (or_else (evaluate_thermal self metrics) $
       or_else (evaluate_battery self metrics) $
       or_else (evaluate_load self metrics) $
       or_else (evaluate_latency self metrics) $
       or_else (evaluate_cost self metrics) $
       no_migration).

End PolicyEvaluator.

(** ** The choice of a target *)

(* src: mielin-cells/src/policy.rs 988-1023 score_target_node *)
Definition score_target_node (metrics : NodeMetrics) (requirements : TargetRequirements) : option spec_float :=
  if negb (TargetRequirements.is_satisfied_by requirements metrics) then None else
  let score := f64_of_u64 100 in
  let score := f64_sub score (f64_mul (f64_of_u64 (cpu_load_percent metrics)) (f64_lit 1 2)) in
  let score := f64_sub score (f64_mul (f64_of_u64 (memory_usage_percent metrics)) (f64_lit 3 10)) in
  let score := f64_sub score (f64_mul (f64_of_f32 (temperature_celsius metrics)) (f64_lit 2 10)) in
  let score := f64_sub score (f64_mul (f64_of_u64 (network_latency_ms metrics)) (f64_lit 1 10)) in
  let score := f64_sub score (f64_mul (cost_per_unit metrics) (f64_of_u64 10)) in
  let score := if on_ac_power metrics then f64_add score (f64_of_u64 5) else score in
  let score := if agent_count metrics <? 10 then f64_add score (f64_of_u64 (10 - agent_count metrics)) else score in
  Some (f64_max score f64_zero).

(** [a.partial_cmp(&b).unwrap_or(Equal)]. *)
Definition cmp_or_equal (a b : spec_float) : comparison := default Eq (SFcompare a b).

(** [max_by] keeps the element so far only when it is greater. *)
Definition max_by {A} (f : A → A → comparison) (l : list A) : option A :=
  match l with
  | [] => None
  | x :: l => Some (foldl (λ best y, match f best y with Gt => best | _ => y end) x l)
  end.

(* src: mielin-cells/src/policy.rs 1026-1037 select_best_target *)
Definition select_best_target (candidates : list (Z * NodeMetrics)) (requirements : TargetRequirements) : option Z :=
  let scored := omap (λ '(idx, metrics), (λ s, (idx, s)) <$> score_target_node metrics requirements) candidates in
  fst <$> max_by (λ a b, cmp_or_equal a.2 b.2) scored.

(** * Theorems *)

(** ** How often an agent migrates *)

(** A driver asks at one time and, when told to migrate, reports the migration at the
    next; [events] are the times with the metrics.  The result is the times of the
    migrations. *)
Fixpoint drive (e : PolicyEvaluator) (events : list (Z * NodeMetrics * Z)) : outcome (list Z * PolicyEvaluator) :=
  match events with
  | [] => Ret ([], e)
  | (asked, metrics, done_at) :: events =>
      let! d := PolicyEvaluator.evaluate asked e metrics in
      if should_migrate d then
        let! e := PolicyEvaluator.record_migration done_at e in
        let! (times, e) := drive e events in
        Ret (done_at :: times, e)
      else drive e events
  end.

(** The clock does not go back. *)
Fixpoint in_order (t : Z) (events : list (Z * NodeMetrics * Z)) : Prop :=
  match events with
  | [] => True
  | (asked, _, done_at) :: events => t <= asked <= done_at ∧ done_at <= U64_MAX ∧ in_order done_at events
  end.

Section limits.
Context (cooldown limit : Z).
Hypothesis Hlimit : 1 <= limit <= U32_MAX.

(** The times fall in periods of an hour or more: [budget] migrations are left in the one
    that began at [start]. *)
Inductive periods : Z → Z → list Z → Prop :=
| periods_nil start budget : periods start budget []
| periods_same start budget t l : start <= t < start + 3600 → 0 < budget → periods start (budget - 1) l → periods start budget (t :: l)
| periods_next start budget t l : start + 3600 <= t → periods t (limit - 1) l → periods start budget (t :: l).

(** The migrations of the hour that begins at [a]. *)
Definition in_hour (a : Z) (l : list Z) : Z := count_if (λ t, (a <=? t) && (t <? a + 3600)) l.

Lemma periods_before a start budget l : periods start budget l → a + 3600 <= start → in_hour a l = 0.
Proof.
  unfold in_hour. induction 1 as [|s b t l Ht _ _ IH|s b t l Ht _ IH]; intros Ha; [done|..]; rewrite count_if_cons, IH by lia;
    by destruct (Z.ltb_spec t (a + 3600)); [lia|rewrite andb_false_r].
Qed.

(** An hour meets two periods at most. *)
Lemma periods_hour a start budget l :
  periods start budget l → 0 <= budget <= limit →
  (a <= start → in_hour a l <= budget) ∧ (start < a < start + 3600 → in_hour a l <= budget + limit) ∧ in_hour a l <= 2 * limit.
Proof.
  induction 1 as [s b|s b t l Ht Hb _ IH|s b t l Ht Hl IH]; intros Hbud; [change (in_hour a []) with 0; lia|..].
  - destruct IH as (I1 & I2 & I3); [lia|]. unfold in_hour in *. rewrite count_if_cons.
    destruct (Z.leb_spec a t), (Z.ltb_spec t (a + 3600)); cbn [andb]; try lia.
  - destruct IH as (I1 & I2 & I3); [lia|]. pose proof (periods_before a t _ l Hl). unfold in_hour in *. rewrite count_if_cons.
    destruct (Z.leb_spec a t), (Z.ltb_spec t (a + 3600)); cbn [andb]; lia.
Qed.

(** Successive migrations are apart by the cooldown. *)
Fixpoint spaced (last : option Z) (l : list Z) : Prop :=
  match l with
  | [] => True
  | t :: l => match last with Some x => x + cooldown <= t | None => True end ∧ spaced (Some t) l
  end.

Lemma allowed_ok e now :
  hour_start_time e <= now <= U64_MAX → 0 <= hour_start_time e → 0 <= default 0 (last_migration_time e) <= now →
  ∃ b, PolicyEvaluator.migration_allowed now e = Ret b ∧
    (b = true ↔ (match last_migration_time e with Some x => x + migration_cooldown_secs (policy e) <= now | None => True end) ∧
      (now < hour_start_time e + 3600 → migrations_this_hour e < max_migrations_per_hour (policy e))).
Proof.
  intros Hs H0 Hl. unfold PolicyEvaluator.migration_allowed.
  destruct (last_migration_time e) as [x|]; simpl in Hl; rsimp.
  - destruct (Z.ltb_spec (now - x) (migration_cooldown_secs (policy e))); [exists false; split; [done|split; [done|lia]]|]. rsimp.
    destruct (Z.ltb_spec (now - hour_start_time e) 3600), (Z.leb_spec (max_migrations_per_hour (policy e)) (migrations_this_hour e)); simpl;
      eexists; (split; [done|]); split; done || lia.
  - destruct (Z.ltb_spec (now - hour_start_time e) 3600), (Z.leb_spec (max_migrations_per_hour (policy e)) (migrations_this_hour e)); simpl;
      eexists; (split; [done|]); split; done || (try lia; intros [_ ?]; lia).
Qed.

(** The evaluator at time [t]. *)
Record clocked (t : Z) (e : PolicyEvaluator) : Prop := {
  ck_cooldown : migration_cooldown_secs (policy e) = cooldown;
  ck_limit : 1 `max` max_migrations_per_hour (policy e) = limit;
  ck_start : 0 <= hour_start_time e <= t;
  ck_last : 0 <= default 0 (last_migration_time e) <= t;
  ck_count : 0 <= migrations_this_hour e <= limit;
}.

Lemma evaluate_allowed t e now m :
  clocked t e → t <= now <= U64_MAX →
  ∃ d, PolicyEvaluator.evaluate now e m = Ret d ∧
    (should_migrate d = true →
      (match last_migration_time e with Some x => x + cooldown <= now | None => True end) ∧
      (now < hour_start_time e + 3600 → migrations_this_hour e < limit)).
Proof.
  intros [Hc Hl Hs Hla Hn] Hnow. destruct (allowed_ok e now) as (b & Hb & Hiff); [lia..|].
  unfold PolicyEvaluator.evaluate. rewrite Hb. cbn [obind]. destruct b; cbn [negb].
  - eexists. split; [done|]. intros _. destruct (proj1 Hiff eq_refl) as [H1 H2]. rewrite Hc in H1. split; [done|]. intros Hin. specialize (H2 Hin). lia.
  - eexists. split; [done|]. done.
Qed.

Lemma record_migration_ok t e now :
  clocked t e → t <= now <= U64_MAX → (now < hour_start_time e + 3600 → migrations_this_hour e < limit) →
  ∃ e', PolicyEvaluator.record_migration now e = Ret e' ∧ clocked now e' ∧ last_migration_time e' = Some now ∧
    ((hour_start_time e' = hour_start_time e ∧ now < hour_start_time e + 3600 ∧ migrations_this_hour e' = migrations_this_hour e + 1) ∨
     (hour_start_time e' = now ∧ hour_start_time e + 3600 <= now ∧ migrations_this_hour e' = 1)).
Proof.
  intros [Hc Hl Hs Hla Hn] Hnow Hroom. unfold PolicyEvaluator.record_migration. rewrite usize_sub_ok by lia. cbn [obind].
  destruct (Z.leb_spec 3600 (now - hour_start_time e)); rewrite u32_add_ok by lia; cbn [obind];
    (eexists; split; [done|]; split; [split; simpl; done || lia|]; split; [done|]; simpl).
  - right. lia.
  - left. lia.
Qed.

Lemma drive_ok t e events :
  clocked t e → in_order t events →
  ∃ times e', drive e events = Ret (times, e') ∧ spaced (last_migration_time e) times ∧
    periods (hour_start_time e) (limit - migrations_this_hour e) times.
Proof.
  revert t e. induction events as [|[[a m] b] events IH]; intros t e Hck Hord; cbn [drive].
  { eexists _, _. split; [done|]. split; [done|constructor]. }
  destruct Hord as (Hab & Hb & Hord). destruct (evaluate_allowed t e a m Hck) as (d & -> & Hd); [lia|]. cbn [obind].
  destruct (should_migrate d) eqn:Em.
  2:{ apply (IH b); [|done]. destruct Hck. split; done || lia. }
  destruct (Hd eq_refl) as [Hcool Hroom].
  destruct (record_migration_ok t e b Hck) as (e1 & -> & Hck1 & Hlast & Hper); [lia|lia|]. cbn [obind].
  destruct (IH b e1 Hck1 Hord) as (times & e2 & -> & Hsp & Hp). cbn [obind]. eexists _, _. split; [done|].
  rewrite Hlast in Hsp. split; [split; [|done]; by destruct (last_migration_time e); [lia|]|].
  pose proof (ck_start _ _ Hck). pose proof (ck_count _ _ Hck1).
  destruct Hper as [(E1 & E2 & E3)|(E1 & E2 & E3)]; rewrite E1, E3 in Hp.
  - apply periods_same; [lia|lia|]. by replace (limit - migrations_this_hour e - 1) with (limit - (migrations_this_hour e + 1)) by lia.
  - by apply periods_next.
Qed.
End limits.

(** C26. Migrations are limited: for any policy, whatever the metrics and times of the
    questions, with a clock that does not go back, an evaluator that is asked before and told
    after every migration does not panic, lets two successive migrations come no closer than
    the cooldown, and lets no more of them fall in any hour than twice the limit, where a limit
    of zero counts as one (an hour meets two of the periods that are counted;
    [limit_exceeded_in_an_hour] shows that the limit itself can be passed, and
    [no_migrations_for_an_hour] that a limit of zero holds for the first hour only). *)
Theorem migrations_limited p now events :
  0 <= max_migrations_per_hour p <= U32_MAX → 0 <= now → in_order now events →
  ∃ times e, drive (PolicyEvaluator.new p now) events = Ret (times, e) ∧
    spaced (migration_cooldown_secs p) None times ∧
    ∀ a, in_hour a times <= 2 * (1 `max` max_migrations_per_hour p).
Proof.
  intros Hp Hnow Hord.
  assert (1 <= 1 `max` max_migrations_per_hour p <= U32_MAX) as Hlim by lia.
  destruct (drive_ok (migration_cooldown_secs p) (1 `max` max_migrations_per_hour p) Hlim now (PolicyEvaluator.new p now) events)
    as (times & e & E & Hs & Hper); [split; simpl; done || lia|done|].
  exists times, e. split_and!; [done|done|]. intros a. eapply periods_hour; [done|done|]. simpl. lia.
Qed.

(** ** What is decided *)

(** The thresholds that a node can exceed. *)
Definition too_hot (p : MigrationPolicy) (m : NodeMetrics) : bool :=
  let t := thermal_trigger p in
  thermal_enabled t && (ge (temperature_celsius m) (critical_threshold t) || ge (temperature_celsius m) (warning_threshold t)).
Definition running_out (p : MigrationPolicy) (m : NodeMetrics) : bool :=
  let b := battery_trigger p in
  battery_enabled b && negb (on_ac_power m && battery_prefer_ac b) &&
  match battery_percent m with Some x => x <? min_battery_percent b | None => false end.
Definition overloaded (p : MigrationPolicy) (m : NodeMetrics) : bool :=
  let l := load_trigger p in
  load_enabled l && ((cpu_threshold l <? cpu_load_percent m) || (memory_threshold l <? memory_usage_percent m) ||
                     (queue_depth_threshold l <? queue_depth m)).
Definition far_away (p : MigrationPolicy) (m : NodeMetrics) : bool :=
  let l := latency_trigger p in
  latency_enabled l && ((max_latency_ms l <? network_latency_ms m) || (available_bandwidth_bps m <? min_bandwidth_bps l)).
Definition too_dear (p : MigrationPolicy) (m : NodeMetrics) : bool :=
  let c := cost_trigger p in cost_enabled c && gt (cost_per_unit m) (max_cost_per_unit c).

Definition exceeded (p : MigrationPolicy) (m : NodeMetrics) : bool :=
  too_hot p m || running_out p m || overloaded p m || far_away p m || too_dear p m.

(** What a target offers when it meets the requirements of a decision. *)
Definition relieved (p : MigrationPolicy) (d : MigrationDecision) (target : NodeMetrics) : Prop :=
  match reason d with
  | CriticalTemperature _ => gt (temperature_celsius target) (warning_threshold (thermal_trigger p)) = false
  | HighTemperature _ => gt (temperature_celsius target) (f32_sub (warning_threshold (thermal_trigger p)) (f32_of_u32 10)) = false
  | HighCpu x => cpu_load_percent target + 20 <= cpu_threshold (load_trigger p) < x
  | HighMemory x => memory_usage_percent target + 20 <= memory_threshold (load_trigger p) < x
  | HighQueue _ => cpu_load_percent target <= 50
  | HighLatency x => 2 * network_latency_ms target <= max_latency_ms (latency_trigger p) < x
  | LowBandwidth _ => network_latency_ms target <= max_latency_ms (latency_trigger p)
  | HighCost _ => gt (cost_per_unit target) (f64_mul (max_cost_per_unit (cost_trigger p)) (f64_lit 8 10)) = false
  | Text _ | NoMigrationNeeded | LowBattery _ => True
  end.

(** The requirements pass their own validation, but for the ones that are computed from a
    threshold at the edge of what a policy may hold; nothing is said of the two that are
    rounded. *)
Definition validated (p : MigrationPolicy) (d : MigrationDecision) : Prop :=
  let ok := MigrationDecision.validate d = Ok () in
  match reason d with
  | CriticalTemperature _ => ok ↔ warning_threshold (thermal_trigger p) ≠ S754_nan
  | HighLatency _ => ok ↔ max_latency_ms (latency_trigger p) ≠ 1
  | HighTemperature _ | HighCost _ => True
  | _ => ok
  end.

Definition good_decision (p : MigrationPolicy) (d : MigrationDecision) : Prop :=
  MigrationDecision.validate d = TargetRequirements.validate (target_requirements d) ∧ validated p d ∧
  ∀ target, TargetRequirements.is_satisfied_by (target_requirements d) target = true ↔ relieved p d target.

(** A trigger decides exactly when its threshold is exceeded, and decides well. *)
Definition decides (p : MigrationPolicy) (cond : bool) (o : option MigrationDecision) : Prop :=
  match o with Some d => cond = true ∧ should_migrate d = true ∧ good_decision p d | None => cond = false end.

Lemma also_ok r rest : also r rest = Ok () → r = Ok () ∧ rest = Ok ().
Proof. by destruct r as [[]|]. Qed.
Lemma reject_ok b e (rest : result () PolicyError) : reject b e rest = Ok () → b = false ∧ rest = Ok ().
Proof. by destruct b. Qed.

Lemma policy_valid p :
  MigrationPolicy.validate p = Ok () →
  (50 <= cpu_threshold (load_trigger p) <= 100 ∧ 50 <= memory_threshold (load_trigger p) <= 100) ∧ max_latency_ms (latency_trigger p) ≠ 0 ∧
  SFltb (warning_threshold (thermal_trigger p)) (f32_of_u32 0) = false ∧ gt (warning_threshold (thermal_trigger p)) f32_200 = false.
Proof.
  intros [Hl Hr]%also_ok. apply also_ok in Hr as [Hw Hr]. apply also_ok in Hr as [Ht _].
  apply reject_ok in Hl as [? Hl]. apply reject_ok in Hl as [? Hl]. apply reject_ok in Hl as [? Hl]. apply reject_ok in Hl as [? _].
  apply reject_ok in Ht as [? _]. apply reject_ok in Hw as [Hw _]. apply orb_false_iff in Hw as [? ?]. split_and!; done || lia.
Qed.

(** A warning temperature between 0 and 200 degrees is one that a target may be asked for. *)
Lemma temperature_valid w :
  SFltb w (f32_of_u32 0) = false → gt w f32_200 = false → (TargetRequirements.validate (only_temperature w) = Ok () ↔ w ≠ S754_nan).
Proof.
  intros H0 H200. unfold TargetRequirements.validate, only_temperature, when.
  cbn [max_cpu_load max_memory_usage max_temperature max_latency max_cost required_architectures existsb]. rewrite H200.
  destruct w as [sg|[]| |[] ma ex]; try done; destruct sg; split; done.
Qed.

Section decisions.
Context (e : PolicyEvaluator) (m : NodeMetrics).
Hypothesis Hvalid : MigrationPolicy.validate (policy e) = Ok ().

Lemma thermal_decides : decides (policy e) (too_hot (policy e) m) (PolicyEvaluator.evaluate_thermal e m).
Proof.
  unfold PolicyEvaluator.evaluate_thermal, too_hot. destruct (policy_valid _ Hvalid) as (_ & _ & H0 & H200).
  destruct (thermal_enabled _); [|done]. cbn [negb andb].
  destruct (ge _ (critical_threshold _)); [|destruct (ge _ (warning_threshold _)); [|done]];
    (split_and!; [done|done|]; split_and!; [done| |intros target; unfold relieved; cbn; by case_match]).
  - exact (temperature_valid _ H0 H200).
  - done.
Qed.

Lemma battery_decides : decides (policy e) (running_out (policy e) m) (PolicyEvaluator.evaluate_battery e m).
Proof.
  unfold PolicyEvaluator.evaluate_battery, running_out. destruct (battery_enabled _); [|done]. cbn [negb andb].
  destruct (on_ac_power m && _); [done|]. cbn [negb andb]. destruct (battery_percent m) as [x|]; [|done].
  destruct (_ <? _); [|done]. split_and!; [done|done|]. split_and!; done.
Qed.

Lemma load_decides : decides (policy e) (overloaded (policy e) m) (PolicyEvaluator.evaluate_load e m).
Proof.
  unfold PolicyEvaluator.evaluate_load, overloaded. destruct (policy_valid _ Hvalid) as [[Hc Hm] _].
  destruct (load_enabled _); [|done]. cbn [negb andb].
  assert (∀ x, x <= 100 → (100 <? saturating_sub x 20) = false) as Hsat by (intros; unfold saturating_sub; lia).
  destruct (Z.ltb_spec (cpu_threshold (load_trigger (policy e))) (cpu_load_percent m)).
  { split_and!; [done|done|]. split_and!; [done|cbn; rewrite Hsat by lia; done|]. intros target. unfold relieved, saturating_sub. cbn.
    destruct (Z.ltb_spec (Z.max 0 (cpu_threshold (load_trigger (policy e)) - 20)) (cpu_load_percent target)); split; done || lia. }
  destruct (Z.ltb_spec (memory_threshold (load_trigger (policy e))) (memory_usage_percent m)).
  { split_and!; [done|done|]. split_and!; [done|cbn; rewrite Hsat by lia; done|]. intros target. unfold relieved, saturating_sub. cbn.
    destruct (Z.ltb_spec (Z.max 0 (memory_threshold (load_trigger (policy e)) - 20)) (memory_usage_percent target)); split; done || lia. }
  destruct (_ <? queue_depth m); [|done]. split_and!; [done|done|]. split_and!; [done|done|]. intros target. unfold relieved. cbn.
  destruct (Z.ltb_spec 50 (cpu_load_percent target)); split; done || lia.
Qed.

Lemma latency_decides : decides (policy e) (far_away (policy e) m) (PolicyEvaluator.evaluate_latency e m).
Proof.
  unfold PolicyEvaluator.evaluate_latency, far_away. destruct (policy_valid _ Hvalid) as (_ & Hl & _).
  destruct (latency_enabled _); [|done]. cbn [negb andb].
  destruct (Z.ltb_spec (max_latency_ms (latency_trigger (policy e))) (network_latency_ms m)).
  { split_and!; [done|done|]. split_and!; [done|..].
    - cbn. destruct (Z.eqb_spec (max_latency_ms (latency_trigger (policy e)) / 2) 0); split; try done; Z.div_mod_to_equations; lia.
    - intros target. unfold relieved. cbn. destruct (Z.ltb_spec (max_latency_ms (latency_trigger (policy e)) / 2) (network_latency_ms target));
        split; try done; Z.div_mod_to_equations; lia. }
  destruct (_ <? min_bandwidth_bps _); [|done]. split_and!; [done|done|]. split_and!; [done|..].
  - cbn. destruct (Z.eqb_spec (max_latency_ms (latency_trigger (policy e))) 0); [lia|done].
  - intros target. unfold relieved. cbn. destruct (Z.ltb_spec (max_latency_ms (latency_trigger (policy e))) (network_latency_ms target)); split; done || lia.
Qed.

Lemma cost_decides : decides (policy e) (too_dear (policy e) m) (PolicyEvaluator.evaluate_cost e m).
Proof.
  unfold PolicyEvaluator.evaluate_cost, too_dear. destruct (cost_enabled _); [|done]. cbn [negb andb].
  destruct (gt _ _); [|done]. split_and!; [done|done|]. split_and!; [done|done|]. intros target. unfold relieved. cbn. by case_match.
Qed.
End decisions.

Lemma decides_or p c1 c2 o d :
  decides p c1 o → (should_migrate d = c2 ∧ good_decision p d) →
  should_migrate (PolicyEvaluator.or_else o d) = c1 || c2 ∧ good_decision p (PolicyEvaluator.or_else o d).
Proof. destruct o as [x|]; simpl; [intros (-> & -> & ?) _|intros -> ?]; done. Qed.

(** C27. What the evaluator decides, with a policy that passes its validation and at a time
    that is not before those on record: it returns; it asks for a migration exactly when one is
    allowed and the node exceeds a threshold of an enabled trigger; the decision passes its
    validation whenever its target requirements do, and they do for low battery, high CPU, high
    memory, a deep queue and low bandwidth, for a critical temperature exactly when the warning
    threshold is not NaN, and for a high latency exactly when the maximum is not 1 ms (of a
    temperature above the warning and of a high cost, whose limits are rounded, this is not
    claimed); and a target meets the requirements exactly when: after high CPU or memory its own
    is 20 points below the threshold, after a high latency its own is at most half of the
    maximum, after a critical temperature it is not above the warning threshold, after a
    temperature above the warning not above that less 10, after a high cost not above 0.8 times
    the maximum, after a deep queue its CPU is at most 50, after low bandwidth its latency is at
    most the maximum; after low battery every target does (mains power is not looked at). *)
Theorem decision_fits e now m :
  MigrationPolicy.validate (policy e) = Ok () →
  0 <= hour_start_time e → hour_start_time e <= now <= U64_MAX → 0 <= default 0 (last_migration_time e) <= now →
  ∃ d, PolicyEvaluator.evaluate now e m = Ret d ∧
    (should_migrate d = true ↔ PolicyEvaluator.migration_allowed now e = Ret true ∧ exceeded (policy e) m = true) ∧
    good_decision (policy e) d.
Proof.
  intros Hv H0 Hs Hla. destruct (allowed_ok e now) as (b & Hb & _); [done..|]. unfold PolicyEvaluator.evaluate. rewrite Hb. cbn [obind].
  assert (good_decision (policy e) MigrationDecision.no_migration) as Hno by by split_and!.
  destruct b; cbn [negb]; [|eexists; split; [done|]; split; [split; [done|]; by intros [? _]|done]].
  eexists. split; [done|]. unfold exceeded.
  pose proof (decides_or _ _ _ _ _ (thermal_decides e m Hv) (decides_or _ _ _ _ _ (battery_decides e m)
    (decides_or _ _ _ _ _ (load_decides e m Hv) (decides_or _ _ _ _ _ (latency_decides e m Hv)
    (decides_or _ _ false _ MigrationDecision.no_migration (cost_decides e m) (conj eq_refl Hno)))))) as [E Hg].
  split; [|done]. unfold PolicyEvaluator.or_else in *. rewrite E, orb_false_r, !orb_assoc. split; [done|]. by intros [_ ?].
Qed.

(** ** The best target *)

Lemma score_number m r s : score_target_node m r = Some s → s ≠ S754_nan ∧ TargetRequirements.is_satisfied_by r m = true.
Proof.
  unfold score_target_node. destruct (TargetRequirements.is_satisfied_by r m); [|done]. cbn [negb]. intros [= <-].
  split; [by apply f64_max_number|done].
Qed.

(** The fold keeps the greatest score so far. *)
Lemma fold_best {A} (l : list (A * spec_float)) best :
  best.2 ≠ S754_nan → Forall (λ x, x.2 ≠ S754_nan) l →
  let r := foldl (λ best y, match cmp_or_equal best.2 y.2 with Gt => best | _ => y end) best l in
  (r = best ∨ r ∈ l) ∧ SFleb best.2 r.2 = true ∧ ∀ x, x ∈ l → SFleb x.2 r.2 = true.
Proof.
  intros Hb Hl. revert best Hb. induction Hl as [|y l Hy Hl IH]; intros best Hb; cbn [foldl].
  { split_and!; [by left| |by intros x ?%elem_of_nil]. apply SFleb_key; [done..|]. unfold key_le. lia. }
  set (next := match cmp_or_equal best.2 y.2 with Gt => best | _ => y end).
  assert ((next = best ∨ next = y) ∧ SFleb best.2 next.2 = true ∧ SFleb y.2 next.2 = true) as (Hn & H1 & H2).
  { pose proof (SFcompare_le best.2 y.2 Hb Hy) as Hc. assert (∀ x, x ≠ S754_nan → SFleb x x = true) as Hrefl.
    { intros x Hx. apply SFleb_key; [done..|]. unfold key_le. lia. }
    subst next. unfold cmp_or_equal. destruct (SFcompare best.2 y.2) as [[]|]; cbn [default] in *; case_decide; try done; auto. }
  assert (next.2 ≠ S754_nan) as Hnn by (by destruct Hn as [-> | ->]).
  destruct (IH next Hnn) as (Hin & Hle & Hall). split_and!.
  - destruct Hin as [-> |?]; [|right; by right]. destruct Hn as [-> | ->]; [by left|right; by left].
  - by eapply SFleb_trans.
  - intros x [-> |Hx]%elem_of_cons; [by eapply SFleb_trans|by apply Hall].
Qed.

(** The best target is chosen: the selected candidate meets the requirements, and no
    candidate that meets them has a higher score; nothing is selected only when no candidate
    meets them. *)
Theorem best_target candidates requirements :
  match select_best_target candidates requirements with
  | Some i => ∃ m s, (i, m) ∈ candidates ∧ TargetRequirements.is_satisfied_by requirements m = true ∧
      score_target_node m requirements = Some s ∧
      ∀ j m' s', (j, m') ∈ candidates → score_target_node m' requirements = Some s' → SFleb s' s = true
  | None => ∀ j m, (j, m) ∈ candidates → TargetRequirements.is_satisfied_by requirements m = false
  end.
Proof.
  unfold select_best_target. set (scored := omap _ candidates).
  assert (∀ j s, (j, s) ∈ scored ↔ ∃ m, (j, m) ∈ candidates ∧ score_target_node m requirements = Some s) as Hin.
  { intros j s. unfold scored. rewrite list_elem_of_omap. split.
    - intros ([k m] & Hk & Hs). apply fmap_Some in Hs as (t & Ht & [= -> ->]). eauto.
    - intros (m & Hm & Hs). exists (j, m). split; [done|]. by rewrite Hs. }
  destruct scored as [|[i s] l] eqn:E; cbn [max_by fmap option_fmap option_map].
  { intros j m Hm. destruct (TargetRequirements.is_satisfied_by requirements m) eqn:Hs; [|done].
    destruct (score_target_node m requirements) as [s|] eqn:Hsc; [|by unfold score_target_node in Hsc; rewrite Hs in Hsc].
    assert ((j, s) ∈ @nil (Z * spec_float)) as []%elem_of_nil. apply Hin. eauto. }
  assert (Forall (λ x : Z * spec_float, x.2 ≠ S754_nan) ((i, s) :: l)) as Hf.
  { apply list.Forall_forall. intros [j t] Hj. apply Hin in Hj as (m & _ & Hs). by eapply score_number. }
  apply Forall_cons_1 in Hf as [Hs Hl].
  destruct (fold_best l (i, s) Hs Hl) as (Hr & Hle & Hall). destruct (foldl _ (i, s) l) as [k t]. cbn [fst snd] in *.
  assert ((k, t) ∈ (i, s) :: l) as Hk by (destruct Hr as [-> |?]; [by left|by right]). apply Hin in Hk as (m & Hm & Hsc).
  exists m, t. split_and!; [done|by eapply score_number|done|]. intros j m' s' Hm' Hs'.
  assert ((j, s') ∈ (i, s) :: l) as [[= -> ->]|Hj]%elem_of_cons by (apply Hin; eauto); [done|by apply (Hall (j, s'))].
Qed.

(** ** Runs that show what the code does otherwise *)

Definition hot_cpu : NodeMetrics := mkMetrics 95 0 0 (S754_zero false) 0 2000000 (S754_zero false) 0 0 None false.
Definition with_temperature (t : spec_float) : NodeMetrics := mkMetrics 0 0 0 t 0 2000000 (S754_zero false) 0 0 None false.
Definition limited (cooldown limit : Z) : MigrationPolicy :=
  let d := MigrationPolicy.default in
  mkPolicy (load_trigger d) (thermal_trigger d) (latency_trigger d) (cost_trigger d) (battery_trigger d) cooldown limit.

(** The hours that are counted begin with a migration: at the border of two of them the limit
    is passed within a second. *)
Lemma limit_exceeded_in_an_hour :
  MigrationPolicy.validate (limited 1 1) = Ok () ∧
  returns (drive (PolicyEvaluator.new (limited 1 1) 0) [(3599, hot_cpu, 3599); (3600, hot_cpu, 3600)])
    (λ r, r.1 = [3599; 3600] ∧ in_hour 3599 r.1 = 2).
Proof. split; vm_compute; done. Qed.

(** A limit of no migrations holds for the first hour only. *)
Lemma no_migrations_for_an_hour :
  let e := PolicyEvaluator.new (limited 1 0) 0 in
  PolicyEvaluator.migration_allowed 3599 e = Ret false ∧ PolicyEvaluator.migration_allowed 3600 e = Ret true.
Proof. split; vm_compute; reflexivity. Qed.

(** A clock that is set back makes the question panic. *)
Lemma set_back_clock_panics : PolicyEvaluator.migration_allowed 9 (PolicyEvaluator.new MigrationPolicy.default 10) = Panic.
Proof. reflexivity. Qed.

(** A threshold that is no number passes the validation of the policy, and makes decisions that
    do not pass theirs. *)
Lemma nan_threshold_accepted :
  let p := mkPolicy LoadTriggerConfig.default (mkThermal S754_nan (f32_of_u32 85) true) LatencyTriggerConfig.default
             CostTriggerConfig.default BatteryTriggerConfig.default 60 10 in
  MigrationPolicy.validate p = Ok () ∧
  returns (PolicyEvaluator.evaluate 0 (PolicyEvaluator.new p 0) (with_temperature (f32_of_u32 90)))
    (λ d, MigrationDecision.validate d = Err MaxTemperatureNotFinite).
Proof. split; vm_compute; reflexivity. Qed.

(** With a latency of one millisecond the decision asks for a target of none, which its own
    validation refuses. *)
Lemma latency_of_one :
  let p := mkPolicy LoadTriggerConfig.default ThermalTriggerConfig.default (mkLatency 1 0 true)
             CostTriggerConfig.default BatteryTriggerConfig.default 60 10 in
  let m := mkMetrics 0 0 0 (S754_zero false) 2 0 (S754_zero false) 0 0 None false in
  MigrationPolicy.validate p = Ok () ∧
  returns (PolicyEvaluator.evaluate 0 (PolicyEvaluator.new p 0) m) (λ d, MigrationDecision.validate d = Err ZeroMaxLatency).
Proof. split; vm_compute; reflexivity. Qed.

(** A warm node is preferred to be left over a node whose battery runs out, although the second
    has the higher priority. *)
Lemma warning_before_battery :
  let m := mkMetrics 0 0 0 (f32_of_u32 75) 0 2000000 (S754_zero false) 0 0 (Some 1) false in
  let e := PolicyEvaluator.new MigrationPolicy.default 0 in
  priority <$> PolicyEvaluator.evaluate_battery e m = Some 90 ∧
  returns (PolicyEvaluator.evaluate 0 e m) (λ d, trigger d = ThermalBased ∧ priority d = 80).
Proof. split; vm_compute; done. Qed.

(** A target at the warning temperature is good enough for an agent that leaves a critical node,
    and is left again at once. *)
Lemma target_left_again :
  let e := PolicyEvaluator.new MigrationPolicy.default 0 in
  let target := with_temperature (f32_of_u32 70) in
  too_hot MigrationPolicy.default target = true ∧
  returns (PolicyEvaluator.evaluate 0 e (with_temperature (f32_of_u32 90)))
    (λ d, TargetRequirements.is_satisfied_by (target_requirements d) target = true).
Proof. split; vm_compute; reflexivity. Qed.

(** The architectures and the preference for mains power are not looked at. *)
Lemma architectures_ignored r archs ac m :
  TargetRequirements.is_satisfied_by
    (mkReq (max_cpu_load r) (max_memory_usage r) (min_available_memory r) (max_temperature r) (max_latency r) (max_cost r) archs ac) m =
  TargetRequirements.is_satisfied_by r m.
Proof. by destruct r. Qed.

(** ** Witnesses *)

Lemma migrations_limited_witness :
  ∃ times e, drive (PolicyEvaluator.new MigrationPolicy.default 0) [(0, hot_cpu, 1); (30, hot_cpu, 31); (61, hot_cpu, 62)] = Ret (times, e) ∧
    times = [1; 62] ∧ spaced 60 None times ∧ ∀ a, in_hour a times <= 20.
Proof.
  destruct (migrations_limited MigrationPolicy.default 0 [(0, hot_cpu, 1); (30, hot_cpu, 31); (61, hot_cpu, 62)])
    as (times & e & E & H1 & H2).
  - simpl. lia.
  - lia.
  - simpl. lia.
  - exists times, e. split; [exact E|]. split; [vm_compute in E; congruence|]. split; [exact H1|exact H2].
Defined.

Lemma decision_fits_witness :
  ∃ d, PolicyEvaluator.evaluate 10 (PolicyEvaluator.new MigrationPolicy.default 0) hot_cpu = Ret d ∧
    trigger d = LoadBased ∧ MigrationDecision.validate d = Ok () ∧
    ∀ target, TargetRequirements.is_satisfied_by (target_requirements d) target = true ↔ cpu_load_percent target + 20 <= 85 < 95.
Proof.
  destruct (decision_fits (PolicyEvaluator.new MigrationPolicy.default 0) 10 hot_cpu) as (d & E & _ & Hok & Hval & Hrel).
  - vm_compute. reflexivity.
  - simpl. lia.
  - simpl. lia.
  - simpl. lia.
  - exists d. split; [exact E|]. vm_compute in E. injection E as <-. split; [reflexivity|]. split; [exact Hval|exact Hrel].
Defined.
