(* ===== verification/Groups.v ===== *)
(** * Groups of agents (mielin-cells/src/group.rs)

    Groups with their members and roles, the registry of groups with its indices, and the
    coordinator.  The file has the definitions first, then the theorems.

    Each field of a group is behind its own lock.  [add_member], [remove_member] and
    [change_role] read the state in one critical section and change the members in another
    ([call_step]); the functions of the source's names are calls that nobody interrupts.  A
    lock is poisoned only by a panic under it, and nothing panics under a lock here.  The
    registry refers to groups that are shared: [refs] are the shared objects.  The time and
    fresh identifiers are arguments, and so is the order in which hash tables are listed. *)

From stdpp Require Import base tactics option list numbers gmap strings relations.
From S2P Require Import Prelude Bytes Hash Agent.

(** Identifiers of agents and groups, sixteen bytes. *)
(* src: mielin-cells/src/group.rs 14-14 GroupId *)
Definition GroupId : Type := list Z.
Definition AgentId : Type := list Z.
#[export] Instance GroupId_eq_dec : EqDecision GroupId := _.
#[export] Instance GroupId_countable : Countable GroupId := _.

(* src: mielin-cells/src/group.rs 18-25 GroupRole *)
Inductive GroupRole : Type := Member | Leader | Observer.

#[export] Instance GroupRole_eq_dec : EqDecision GroupRole.
Proof. solve_decision. Defined.

(* src: mielin-cells/src/group.rs 29-38 GroupMember *)
Record GroupMember : Type := mkMember { agent_id : AgentId; role : GroupRole; joined_at : Z; metadata : gmap string string }.

Module GroupMember.

(* src: mielin-cells/src/group.rs 41-51 GroupMember::new *)
Definition new (now : Z) (a : AgentId) (r : GroupRole) : GroupMember := mkMember a r now ∅.

(* src: mielin-cells/src/group.rs 53-56 GroupMember::with_metadata *)
Definition with_metadata (key value : string) (self : GroupMember) : GroupMember :=
  mkMember (agent_id self) (role self) (joined_at self) (<[key := value]> (metadata self)).

End GroupMember.

(* src: mielin-cells/src/group.rs 61-72 GroupConfig *)
Record GroupConfig : Type := mkConfig {
  max_members : Z; min_leaders : Z; max_leaders : Z; enforce_shared_policy : bool; allow_voluntary_leave : bool }.

Module GroupConfig.

(* src: mielin-cells/src/group.rs 75-83 GroupConfig::default *)
Definition default : GroupConfig := mkConfig 1000 1 3 false true.

End GroupConfig.

(* src: mielin-cells/src/group.rs 88-97 GroupState *)
Inductive GroupState : Type := Active | Paused | Dissolving | Dissolved.

#[export] Instance GroupState_eq_dec : EqDecision GroupState.
Proof. solve_decision. Defined.

(* src: mielin-cells/src/group.rs 123-142 GroupError *)
Inductive GroupError : Type :=
| GroupFull
| AlreadyMember
| NotMember
| AgentNotFound
| InvalidRoleChange
| GroupNotActive
| MinLeadersViolation
| MaxLeadersViolation
| NotAllowed (s : string).

(** [GroupResult] is [Result] under another name. *)
(* src: mielin-cells/src/group.rs 101-106 GroupResult *)
Definition GroupResult (T : Type) : Type := result T GroupError.

(* src: mielin-cells/src/group.rs 145-158 AgentGroup *)
Record AgentGroup : Type := mkGroup {
  gid : GroupId;
  name : string;
  members : gmap AgentId GroupMember;
  config : GroupConfig;
  gstate : GroupState;
  shared_policy : option Policy;
  parent : option GroupId;
  children : gset GroupId;
  tags : gset string;
}.

Definition set_members (m : gmap AgentId GroupMember) (g : AgentGroup) : AgentGroup :=
  mkGroup (gid g) (name g) m (config g) (gstate g) (shared_policy g) (parent g) (children g) (tags g).
Definition set_gstate (s : GroupState) (g : AgentGroup) : AgentGroup :=
  mkGroup (gid g) (name g) (members g) (config g) s (shared_policy g) (parent g) (children g) (tags g).
Definition set_policy (p : option Policy) (g : AgentGroup) : AgentGroup :=
  mkGroup (gid g) (name g) (members g) (config g) (gstate g) p (parent g) (children g) (tags g).
Definition set_children (c : gset GroupId) (g : AgentGroup) : AgentGroup :=
  mkGroup (gid g) (name g) (members g) (config g) (gstate g) (shared_policy g) (parent g) c (tags g).
Definition set_tags (t : gset string) (g : AgentGroup) : AgentGroup :=
  mkGroup (gid g) (name g) (members g) (config g) (gstate g) (shared_policy g) (parent g) (children g) t.

(** [members.values().filter(|m| m.role == Leader).count()]. *)
(* src: mielin-cells/src/group.rs 255-262 AgentGroup::leader_count *)
Definition leaders (m : gmap AgentId GroupMember) : Z := Z.of_nat (size (filter (λ kv, role kv.2 = Leader) m)).

Module AgentGroup.
Implicit Types (self : AgentGroup).

(* src: mielin-cells/src/group.rs 177-189 AgentGroup::with_config *)
Definition with_config (uuid : GroupId) (n : string) (c : GroupConfig) : AgentGroup := mkGroup uuid n ∅ c Active None None ∅ ∅.

(* src: mielin-cells/src/group.rs 162-174 AgentGroup::new *)
Definition new (uuid : GroupId) (n : string) : AgentGroup := with_config uuid n GroupConfig.default.

(* src: mielin-cells/src/group.rs 212-214 AgentGroup::member_count *)
Definition member_count self : Z := Z.of_nat (size (members self)).

(* src: mielin-cells/src/group.rs 217-222 AgentGroup::is_member *)
Definition is_member (a : AgentId) self : bool := bool_decide (is_Some (members self !! a)).

(* src: mielin-cells/src/group.rs 234-241 AgentGroup::members *)
Definition list_members `{HashOrder} self : list GroupMember := (hash_list (members self)).*2.

(* src: mielin-cells/src/group.rs 244-252 AgentGroup::members_by_role *)
Definition members_by_role `{HashOrder} (r : GroupRole) self : list GroupMember := filter (λ m, role m = r) (list_members self).

(** *** The two halves of calls

    What a call does under the lock of the members, given the state it has read. *)
(* src: mielin-cells/src/group.rs 270-293 AgentGroup::add_member *)
Definition add_members (now : Z) (a : AgentId) (r : GroupRole) self : GroupResult () * AgentGroup :=
  match members self !! a with
  | Some _ => (Err AlreadyMember, self)
  | None =>
      if max_members (config self) <=? member_count self then (Err GroupFull, self) else
      if bool_decide (r = Leader) && (max_leaders (config self) <=? leaders (members self))
      then (Err MaxLeadersViolation, self)
      else (Ok (), set_members (<[a := GroupMember.new now a r]> (members self)) self)
  end.

(* src: mielin-cells/src/group.rs 302-321 AgentGroup::remove_member *)
Definition remove_members (s : GroupState) (a : AgentId) self : GroupResult GroupMember * AgentGroup :=
  match members self !! a with
  | Some member =>
      if bool_decide (role member = Leader) && ((leaders (members self) <=? min_leaders (config self)) && bool_decide (s = Active))
      then (Err MinLeadersViolation, self)
      else (Ok member, set_members (delete a (members self)) self)
  | None => (Err NotMember, self)
  end.

(* src: mielin-cells/src/group.rs 329-364 AgentGroup::change_role *)
Definition change_members (a : AgentId) (new_role : GroupRole) self : GroupResult () * AgentGroup :=
  match members self !! a with
  | None => (Err NotMember, self)
  | Some member =>
      let old_role := role member in
      let leader_count := leaders (members self) in
      if bool_decide (old_role = Leader) && negb (bool_decide (new_role = Leader)) && (leader_count <=? min_leaders (config self))
      then (Err MinLeadersViolation, self) else
      if bool_decide (new_role = Leader) && negb (bool_decide (old_role = Leader)) && (max_leaders (config self) <=? leader_count)
      then (Err MaxLeadersViolation, self) else
      (Ok (), set_members (<[a := mkMember (agent_id member) new_role (joined_at member) (metadata member)]> (members self)) self)
  end.

(* src: mielin-cells/src/group.rs 265-293 AgentGroup::add_member *)
Definition add_member (now : Z) (a : AgentId) (r : GroupRole) self : GroupResult () * AgentGroup :=
  if bool_decide (gstate self ≠ Active) then (Err GroupNotActive, self) else add_members now a r self.

(* src: mielin-cells/src/group.rs 296-321 AgentGroup::remove_member *)
Definition remove_member (a : AgentId) self : GroupResult GroupMember * AgentGroup :=
  if bool_decide (gstate self = Dissolved) then (Err GroupNotActive, self) else remove_members (gstate self) a self.

(* src: mielin-cells/src/group.rs 324-364 AgentGroup::change_role *)
Definition change_role (a : AgentId) (new_role : GroupRole) self : GroupResult () * AgentGroup :=
  if bool_decide (gstate self ≠ Active) then (Err GroupNotActive, self) else change_members a new_role self.

(** *** Policy, life cycle, hierarchy and tags *)

(* src: mielin-cells/src/group.rs 367-372 AgentGroup::set_shared_policy *)
Definition set_shared_policy (p : Policy) self : AgentGroup := set_policy (Some p) self.
(* src: mielin-cells/src/group.rs 383-388 AgentGroup::clear_shared_policy *)
Definition clear_shared_policy self : AgentGroup := set_policy None self.

(* src: mielin-cells/src/group.rs 391-398 AgentGroup::pause *)
Definition pause self : GroupResult () * AgentGroup :=
  if bool_decide (gstate self ≠ Active) then (Err (NotAllowed "Group is not active"), self) else (Ok (), set_gstate Paused self).

(* src: mielin-cells/src/group.rs 401-408 AgentGroup::resume *)
Definition resume self : GroupResult () * AgentGroup :=
  if bool_decide (gstate self ≠ Paused) then (Err (NotAllowed "Group is not paused"), self) else (Ok (), set_gstate Active self).

(* src: mielin-cells/src/group.rs 411-418 AgentGroup::dissolve *)
Definition dissolve self : GroupResult () * AgentGroup :=
  if bool_decide (gstate self = Dissolved) then (Err (NotAllowed "Already dissolved"), self) else (Ok (), set_gstate Dissolving self).

(** The state is locked throughout; a call that changes the members in between has the
    effect of one that comes after. *)
(* src: mielin-cells/src/group.rs 421-439 AgentGroup::complete_dissolution *)
Definition complete_dissolution self : GroupResult () * AgentGroup :=
  if bool_decide (gstate self ≠ Dissolving) then (Err (NotAllowed "Not dissolving"), self)
  else (Ok (), set_gstate Dissolved (set_children ∅ (set_members ∅ self))).

(* src: mielin-cells/src/group.rs 442-444 AgentGroup::set_parent *)
Definition set_parent (p : GroupId) self : AgentGroup :=
  mkGroup (gid self) (name self) (members self) (config self) (gstate self) (shared_policy self) (Some p) (children self) (tags self).
(* src: mielin-cells/src/group.rs 452-457 AgentGroup::add_child *)
Definition add_child (c : GroupId) self : AgentGroup := set_children ({[c]} ∪ children self) self.
(* src: mielin-cells/src/group.rs 460-465 AgentGroup::remove_child *)
Definition remove_child (c : GroupId) self : AgentGroup := set_children (children self ∖ {[c]}) self.
(* src: mielin-cells/src/group.rs 478-483 AgentGroup::add_tag *)
Definition add_tag (t : string) self : AgentGroup := set_tags ({[t]} ∪ tags self) self.
(* src: mielin-cells/src/group.rs 486-488 AgentGroup::remove_tag *)
Definition remove_tag (t : string) self : AgentGroup := set_tags (tags self ∖ {[t]}) self.
(* src: mielin-cells/src/group.rs 491-493 AgentGroup::has_tag *)
Definition has_tag (t : string) self : bool := bool_decide (t ∈ tags self).

(** *** Calls of several threads *)

Inductive call : Type := CAdd (now : Z) (a : AgentId) (r : GroupRole) | CRemove (a : AgentId) | CRole (a : AgentId) (r : GroupRole).

(** Before the state is read, with the state that was read, and back. *)
Inductive pc : Type := AtState | AtMembers (s : GroupState) | Back (r : option GroupError).

Definition outcome_of {T} (r : GroupResult T) : option GroupError := match r with Ok _ => None | Err e => Some e end.

(* src: mielin-cells/src/group.rs 265-364 AgentGroup::add_member *)
Definition call_step (c : call) self (p : pc) : AgentGroup * pc :=
  match p with
  | AtState =>
      let s := gstate self in
      let refused := match c with CRemove _ => bool_decide (s = Dissolved) | _ => bool_decide (s ≠ Active) end in
      (self, if refused then Back (Some GroupNotActive) else AtMembers s)
  | AtMembers s =>
      match c with
      | CAdd now a r => let '(x, g) := add_members now a r self in (g, Back (outcome_of x))
      | CRemove a => let '(x, g) := remove_members s a self in (g, Back (outcome_of x))
      | CRole a r => let '(x, g) := change_members a r self in (g, Back (outcome_of x))
      end
  | Back r => (self, Back r)
  end.

End AgentGroup.

(** ** The registry *)

(** [refs]: the groups behind their [Arc]s. *)
Abbreviation refs := (gmap nat AgentGroup).

(* src: mielin-cells/src/group.rs 507-513 GroupRegistry *)
Record GroupRegistry : Type := mkRegistry {
  groups : gmap GroupId nat;
  agent_groups : gmap AgentId (gset GroupId);
  tag_index : gmap string (gset GroupId);
}.

Module GroupRegistry.
Implicit Types (self : GroupRegistry).

(* src: mielin-cells/src/group.rs 517-523 GroupRegistry::new *)
Definition new : GroupRegistry := mkRegistry ∅ ∅ ∅.

(** [map.entry(k).or_default().insert(id)] and [if let Some(s) = map.get_mut(k) { s.remove(id) }]. *)
Definition index_add {K} `{Countable K} (k : K) (id : GroupId) (m : gmap K (gset GroupId)) : gmap K (gset GroupId) :=
  <[k := {[id]} ∪ default ∅ (m !! k)]> m.
Definition index_remove {K} `{Countable K} (k : K) (id : GroupId) (m : gmap K (gset GroupId)) : gmap K (gset GroupId) :=
  alter (λ X, X ∖ {[id]}) k m.

(** [at]: where the [Arc] is put. *)
(* src: mielin-cells/src/group.rs 526-543 GroupRegistry::register *)
Definition register `{HashOrder} (at_ : nat) (group : AgentGroup) (h : refs) self : nat * refs * GroupRegistry :=
  let id := gid group in
  let h := <[at_ := group]> h in
  let idx := foldl (λ idx t, index_add t id idx) (tag_index self) (hash_elems (tags group)) in
  (at_, h, mkRegistry (<[id := at_]> (groups self)) (agent_groups self) idx).

(* src: mielin-cells/src/group.rs 546-552 GroupRegistry::get *)
Definition get (id : GroupId) self : option nat := groups self !! id.

(* src: mielin-cells/src/group.rs 555-584 GroupRegistry::unregister *)
Definition unregister `{HashOrder} (id : GroupId) (h : refs) self : option nat * GroupRegistry :=
  match groups self !! id with
  | None => (None, self)
  | Some r =>
      let gs := delete id (groups self) in
      match h !! r with
      | None => (Some r, mkRegistry gs (agent_groups self) (tag_index self))
      | Some g =>
          let ag := foldl (λ m x, index_remove (agent_id x) id m) (agent_groups self) (AgentGroup.list_members g) in
          let ti := foldl (λ m t, index_remove t id m) (tag_index self) (hash_elems (tags g)) in
          (Some r, mkRegistry gs ag ti)
      end
  end.

(* src: mielin-cells/src/group.rs 587-602 GroupRegistry::groups_for_agent *)
Definition groups_for_agent `{HashOrder} (a : AgentId) self : list nat :=
  match agent_groups self !! a with Some ids => omap (λ id, groups self !! id) (hash_elems ids) | None => [] end.

(* src: mielin-cells/src/group.rs 605-617 GroupRegistry::groups_by_tag *)
Definition groups_by_tag `{HashOrder} (t : string) self : list nat :=
  match tag_index self !! t with Some ids => omap (λ id, groups self !! id) (hash_elems ids) | None => [] end.

(* src: mielin-cells/src/group.rs 620-627 GroupRegistry::record_join *)
Definition record_join (a : AgentId) (id : GroupId) self : GroupRegistry :=
  mkRegistry (groups self) (index_add a id (agent_groups self)) (tag_index self).

(* src: mielin-cells/src/group.rs 630-639 GroupRegistry::record_leave *)
Definition record_leave (a : AgentId) (id : GroupId) self : GroupRegistry :=
  mkRegistry (groups self) (index_remove a id (agent_groups self)) (tag_index self).

(* src: mielin-cells/src/group.rs 642-644 GroupRegistry::count *)
Definition count self : Z := Z.of_nat (size (groups self)).

End GroupRegistry.

(** ** The coordinator *)

Module GroupCoordinator.

(** [f] is the closure with its captured state; every member gets an agent that is made
    for the call, with the fresh identifier and time of [fresh]. *)
(* src: mielin-cells/src/group.rs 674-691 GroupCoordinator::transition_all *)
Definition transition_all `{HashOrder} {S} (f : S → Agent → S * Agent * TransitionResult) (fresh : nat → list Z * Z) (s : S)
    (group : AgentGroup) : S * list (AgentId * TransitionResult) :=
  foldl (λ '(s, results) m,
    let '(uuid, now) := fresh (length results) in
    let '(s, _, r) := f s (Agent.new uuid now []) in
    (s, results ++ [(agent_id m, r)])) (s, []) (AgentGroup.list_members group).

(* src: mielin-cells/src/group.rs 694-701 GroupCoordinator::all_in_state *)
Definition all_in_state (check : AgentState → bool) (group : AgentGroup) : bool := true.

End GroupCoordinator.

(** * Theorems *)

(** ** Counting leaders *)

Definition is_leader (r : GroupRole) : Z := if bool_decide (r = Leader) then 1 else 0.

Lemma leaders_insert m a x : m !! a = None → leaders (<[a := x]> m) = leaders m + is_leader (role x).
Proof.
  intros Ha. unfold leaders, is_leader. case_bool_decide as Hr.
  - rewrite map_filter_insert_True by done. rewrite map_size_insert_None; [lia|]. apply map_lookup_filter_None. by left.
  - rewrite map_filter_insert_False by done. rewrite map_filter_delete, delete_id; [lia|]. apply map_lookup_filter_None. by left.
Qed.

Lemma leaders_delete m a x : m !! a = Some x → leaders (delete a m) = leaders m - is_leader (role x).
Proof.
  intros Ha. pose proof (leaders_insert (delete a m) a x (lookup_delete_eq m a)) as H. rewrite insert_delete_id in H by done. lia.
Qed.

Lemma leaders_update m a x y : m !! a = Some x → leaders (<[a := y]> m) = leaders m - is_leader (role x) + is_leader (role y).
Proof.
  intros Ha. rewrite <-insert_delete_eq. rewrite leaders_insert by apply lookup_delete_eq. by rewrite (leaders_delete m a x Ha).
Qed.

(** ** Threads that change a group *)

Inductive gstep : AgentGroup * list (AgentGroup.call * AgentGroup.pc) → AgentGroup * list (AgentGroup.call * AgentGroup.pc) → Prop :=
| step_call g ts k c p g' p' :
    ts !! k = Some (c, p) → AgentGroup.call_step c g p = (g', p') → gstep (g, ts) (g', <[k := (c, p')]> ts)
| step_pause g ts : gstep (g, ts) ((AgentGroup.pause g).2, ts)
| step_resume g ts : gstep (g, ts) ((AgentGroup.resume g).2, ts)
| step_dissolve g ts : gstep (g, ts) ((AgentGroup.dissolve g).2, ts)
| step_complete g ts : gstep (g, ts) ((AgentGroup.complete_dissolution g).2, ts).

(** The calls that nobody interrupts are their two critical sections. *)
Lemma calls_are_steps g now a r :
  let run c := Nat.iter 2 (λ '(g, p), AgentGroup.call_step c g p) (g, AgentGroup.AtState) in
  run (AgentGroup.CAdd now a r) = (let '(x, g) := AgentGroup.add_member now a r g in (g, AgentGroup.Back (AgentGroup.outcome_of x))) ∧
  run (AgentGroup.CRemove a) = (let '(x, g) := AgentGroup.remove_member a g in (g, AgentGroup.Back (AgentGroup.outcome_of x))) ∧
  run (AgentGroup.CRole a r) = (let '(x, g) := AgentGroup.change_role a r g in (g, AgentGroup.Back (AgentGroup.outcome_of x))).
Proof.
  unfold AgentGroup.add_member, AgentGroup.remove_member, AgentGroup.change_role. cbn. split_and!; by case_bool_decide.
Qed.

Definition limits (c : GroupConfig) (g : AgentGroup) : Prop :=
  config g = c ∧ Z.of_nat (size (members g)) <= max_members c ∧ leaders (members g) <= max_leaders c ∧
  ∀ a m, members g !! a = Some m → agent_id m = a.

Lemma call_limits c g k p g' p' :
  0 <= max_leaders c → limits c g → AgentGroup.call_step k g p = (g', p') → limits c g' ∧ gstate g' = gstate g.
Proof.
  intros Hml (Hc & Hs & Hl & Hid) Hstep. assert (limits c g) as Hg by done. destruct p as [|s|r]; cbn in Hstep; [by injection Hstep as <- <-| |by injection Hstep as <- <-].
  destruct k as [now a r|a|a r].
  - unfold AgentGroup.add_members, AgentGroup.member_count in Hstep. rewrite Hc in Hstep. destruct (members g !! a) eqn:Ha; [by injection Hstep as <- <-|].
    destruct (Z.leb_spec (max_members c) (Z.of_nat (size (members g)))); [by injection Hstep as <- <-|].
    destruct (bool_decide (r = Leader) && _) eqn:E; injection Hstep as <- <-; [done|]. split; [|done]. split_and!; cbn; [done|..].
    + rewrite map_size_insert_None by done. lia.
    + rewrite leaders_insert by done. unfold is_leader. cbn. case_bool_decide; cbn in E; lia.
    + intros b m [[<- <-]|[_ Hm]]%lookup_insert_Some; [done|by apply Hid].
  - unfold AgentGroup.remove_members in Hstep. destruct (members g !! a) as [x|] eqn:Ha; [|by injection Hstep as <- <-].
    destruct (_ && _); injection Hstep as <- <-; [done|]. split; [|done]. split_and!; cbn; [done|..].
    + rewrite map_size_delete_Some by eauto. lia.
    + rewrite (leaders_delete _ _ x) by done. unfold is_leader. case_bool_decide; lia.
    + intros b m [_ Hm]%lookup_delete_Some. by apply Hid.
  - unfold AgentGroup.change_members in Hstep. rewrite Hc in Hstep. destruct (members g !! a) as [x|] eqn:Ha; [|by injection Hstep as <- <-].
    destruct (bool_decide (role x = Leader) && _ && _); [by injection Hstep as <- <-|].
    destruct (bool_decide (r = Leader) && _ && _) eqn:E; injection Hstep as <- <-; [done|]. split; [|done]. split_and!; cbn; [done|..].
    + rewrite map_size_insert_Some by eauto. done.
    + rewrite (leaders_update _ _ x) by done. unfold is_leader. cbn. repeat case_bool_decide; cbn in E; lia.
    + intros b m [[<- <-]|[_ Hm]]%lookup_insert_Some; [cbn; by apply Hid|by apply Hid].
Qed.

Lemma step_limits c s s' :
  0 <= max_members c → 0 <= max_leaders c → gstep s s' → limits c s.1 → limits c s'.1 ∧ (gstate s.1 = Dissolved → gstate s'.1 = Dissolved).
Proof.
  intros Hm Hl Hstep Hg. destruct Hstep as [g ts k k' p g' p' _ E|g ts|g ts|g ts|g ts]; cbn [fst] in *.
  - destruct (call_limits c g k' p g' p' Hl Hg E) as [? ->]. done.
  - unfold AgentGroup.pause. by destruct (gstate g) eqn:Es; cbn; rewrite ?Es.
  - unfold AgentGroup.resume. by destruct (gstate g) eqn:Es; cbn; rewrite ?Es.
  - unfold AgentGroup.dissolve. by destruct (gstate g) eqn:Es; cbn; rewrite ?Es.
  - unfold AgentGroup.complete_dissolution. case_bool_decide; [done|]. destruct Hg as (Hc & _). split; [|done].
    split_and!; cbn; [done|done| |done]. unfold leaders. by rewrite map_filter_empty.
Qed.

(** C31. A group keeps its limits: however the critical sections of additions, removals and
    changes of role interleave with each other and with pausing, resuming and dissolving,
    the group never has more members or more leaders than configured, every member is
    listed under its own identifier, and a group that is dissolved stays dissolved. *)
Theorem group_limits uuid n c calls g ts g' ts' :
  0 <= max_members c → 0 <= max_leaders c →
  rtc gstep (AgentGroup.with_config uuid n c, (λ k, (k, AgentGroup.AtState)) <$> calls) (g, ts) → rtc gstep (g, ts) (g', ts') →
  limits c g' ∧ (gstate g = Dissolved → gstate g' = Dissolved).
Proof.
  intros Hm Hl H1 H2.
  assert (∀ s s', rtc gstep s s' → limits c s.1 → limits c s'.1 ∧ (gstate s.1 = Dissolved → gstate s'.1 = Dissolved)) as Hrun.
  { induction 1 as [s|s s1 s2 Hs _ IH]; intros Hg; [done|]. destruct (step_limits c s s1 Hm Hl Hs Hg) as [Hg1 Hd1].
    destruct (IH Hg1) as [? ?]. split; [done|]. auto. }
  apply (Hrun (g, ts) (g', ts') H2). apply (Hrun _ (g, ts) H1). split_and!; cbn; [done|done| |done].
  unfold leaders. by rewrite map_filter_empty.
Qed.

(** While a group is active, calls do not take the number of leaders below the minimum. *)
Theorem leaders_kept c g k p g' p' :
  (∀ s, p = AgentGroup.AtMembers s → s = Active) → config g = c → min_leaders c <= leaders (members g) →
  AgentGroup.call_step k g p = (g', p') → min_leaders c <= leaders (members g').
Proof.
  intros Hact Hc Hle Hstep. destruct p as [|s|r]; cbn in Hstep; [by injection Hstep as <- <-| |by injection Hstep as <- <-].
  rewrite (Hact s eq_refl) in Hstep. destruct k as [now a r|a|a r].
  - unfold AgentGroup.add_members in Hstep. destruct (members g !! a) eqn:Ha; [by injection Hstep as <- <-|].
    destruct (_ <=? _); [by injection Hstep as <- <-|]. destruct (_ && _); injection Hstep as <- <-; [done|].
    cbn. rewrite leaders_insert by done. unfold is_leader. case_bool_decide; lia.
  - unfold AgentGroup.remove_members in Hstep. rewrite Hc in Hstep. destruct (members g !! a) as [x|] eqn:Ha; [|by injection Hstep as <- <-].
    destruct (_ && _) eqn:E; injection Hstep as <- <-; [done|].
    cbn. rewrite (leaders_delete _ _ x) by done. unfold is_leader. repeat case_bool_decide; cbn in E; try done; lia.
  - unfold AgentGroup.change_members in Hstep. rewrite Hc in Hstep. destruct (members g !! a) as [x|] eqn:Ha; [|by injection Hstep as <- <-].
    destruct (bool_decide (role x = Leader) && _ && _) eqn:E; [by injection Hstep as <- <-|].
    destruct (bool_decide (r = Leader) && _ && _); injection Hstep as <- <-; [done|].
    cbn. rewrite (leaders_update _ _ x) by done. unfold is_leader. cbn. repeat case_bool_decide; cbn in E; lia.
Qed.

(** ** The indices of the registry *)

Section registry.
Context `{HashOrderLaws}.
Implicit Types (self : GroupRegistry).

(** What the registry is told. *)
Inductive update : Type :=
| URegister (at_ : nat) (g : AgentGroup)
| UUnregister (id : GroupId)
| UJoin (a : AgentId) (id : GroupId)
| ULeave (a : AgentId) (id : GroupId).

Definition apply_update (u : update) (s : refs * GroupRegistry) : refs * GroupRegistry :=
  let '(h, r) := s in
  match u with
  | URegister at_ g => let '(_, h, r) := GroupRegistry.register at_ g h r in (h, r)
  | UUnregister id => (h, (GroupRegistry.unregister id h r).2)
  | UJoin a id => (h, GroupRegistry.record_join a id r)
  | ULeave a id => (h, GroupRegistry.record_leave a id r)
  end.

(** The group is under the key of the index. *)
Definition indexed {K} `{Countable K} (m : gmap K (gset GroupId)) (k : K) (id : GroupId) : Prop := id ∈ default ∅ (m !! k).

Lemma indexed_add {K} `{Countable K} (m : gmap K (gset GroupId)) k id k' id' :
  indexed (GroupRegistry.index_add k id m) k' id' ↔ (k' = k ∧ id' = id) ∨ indexed m k' id'.
Proof.
  unfold indexed, GroupRegistry.index_add. destruct (decide (k = k')) as [->|Hne].
  - rewrite lookup_insert_eq. simpl. set_solver.
  - rewrite lookup_insert_ne by done. naive_solver.
Qed.

Lemma indexed_remove {K} `{Countable K} (m : gmap K (gset GroupId)) k id k' id' :
  indexed (GroupRegistry.index_remove k id m) k' id' ↔ indexed m k' id' ∧ ¬ (k' = k ∧ id' = id).
Proof.
  unfold indexed, GroupRegistry.index_remove. destruct (decide (k = k')) as [->|Hne].
  - rewrite lookup_alter_eq. destruct (m !! k') as [X|]; simpl; set_solver.
  - rewrite lookup_alter_ne by done. naive_solver.
Qed.

Lemma indexed_add_all {K} `{Countable K} (l : list K) m id k' id' :
  indexed (foldl (λ m k, GroupRegistry.index_add k id m) m l) k' id' ↔ (k' ∈ l ∧ id' = id) ∨ indexed m k' id'.
Proof.
  revert m. induction l as [|k l IH]; intros m; cbn [foldl]; [set_solver|]. rewrite IH, indexed_add, elem_of_cons. naive_solver.
Qed.

Lemma indexed_remove_all {A K} `{Countable K} (f : A → K) (l : list A) m id k' id' :
  indexed (foldl (λ m x, GroupRegistry.index_remove (f x) id m) m l) k' id' ↔ indexed m k' id' ∧ ¬ (k' ∈ f <$> l ∧ id' = id).
Proof.
  revert m. induction l as [|k l IH]; intros m; cbn [foldl]; [set_solver|]. rewrite IH, indexed_remove. cbn. rewrite elem_of_cons. naive_solver.
Qed.

Lemma listed_groups (gs : gmap GroupId nat) (ids : gset GroupId) r :
  r ∈ omap (λ id, gs !! id) (hash_elems ids) ↔ ∃ id, id ∈ ids ∧ gs !! id = Some r.
Proof. rewrite list_elem_of_omap. by setoid_rewrite hash_elems_perm; setoid_rewrite elem_of_elements. Qed.

Lemma by_tag_spec t self r : r ∈ GroupRegistry.groups_by_tag t self ↔ ∃ id, indexed (tag_index self) t id ∧ groups self !! id = Some r.
Proof.
  unfold GroupRegistry.groups_by_tag, indexed. destruct (tag_index self !! t); [apply listed_groups|]. simpl. set_solver.
Qed.

Lemma for_agent_spec a self r : r ∈ GroupRegistry.groups_for_agent a self ↔ ∃ id, indexed (agent_groups self) a id ∧ groups self !! id = Some r.
Proof.
  unfold GroupRegistry.groups_for_agent, indexed. destruct (agent_groups self !! a); [apply listed_groups|]. simpl. set_solver.
Qed.

(** The group [id] stays registered at [r]. *)
Definition spares (id : GroupId) (u : update) : Prop :=
  match u with URegister _ g => gid g ≠ id | UUnregister id' => id' ≠ id | UJoin _ _ => True | ULeave _ _ => True end.

Lemma update_spares id u h r h' r' :
  spares id u → apply_update u (h, r) = (h', r') →
  groups r' !! id = groups r !! id ∧ (∀ t, indexed (tag_index r') t id ↔ indexed (tag_index r) t id) ∧
  ∀ a, indexed (agent_groups r') a id ↔ (u = UJoin a id ∨ indexed (agent_groups r) a id) ∧ u ≠ ULeave a id.
Proof.
  intros Hs Hu. destruct u as [at_ g|id'|a id'|a id']; cbn in Hs, Hu.
  - injection Hu as <- <-. cbn. split_and!; [by rewrite lookup_insert_ne| |naive_solver].
    intros t. rewrite indexed_add_all. naive_solver.
  - injection Hu as <- <-. unfold GroupRegistry.unregister. destruct (groups r !! id') as [x|]; [|naive_solver]. cbn.
    destruct (h !! x) as [g|]; cbn; (split_and!; [by rewrite lookup_delete_ne|..]); [..|naive_solver|naive_solver].
    + intros t. rewrite (indexed_remove_all (λ t, t)). naive_solver.
    + intros a. rewrite (indexed_remove_all agent_id). naive_solver.
  - injection Hu as <- <-. cbn. split_and!; [done|done|]. intros b. rewrite indexed_add. naive_solver.
  - injection Hu as <- <-. cbn. split_and!; [done|done|]. intros b. rewrite indexed_remove. naive_solver.
Qed.

(** A group is found under the tags it was registered with, and by the agents that joined it and
    did not leave, until it is unregistered; a group that is unregistered is found no more. *)
Theorem registered_group_found us h self at_ g a t :
  groups self !! gid g = None → (∀ t, ¬ indexed (tag_index self) t (gid g)) → Forall (spares (gid g)) us →
  let s1 := apply_update (UJoin a (gid g)) (apply_update (URegister at_ g) (h, self)) in
  let s2 := foldl (λ s u, apply_update u s) s1 us in
  (t ∈ tags g → at_ ∈ GroupRegistry.groups_by_tag t s2.2) ∧
  (ULeave a (gid g) ∉ us → at_ ∈ GroupRegistry.groups_for_agent a s2.2) ∧
  GroupRegistry.get (gid g) (apply_update (UUnregister (gid g)) s2).2 = None.
Proof.
  intros Hnone Hnt Hus s1 s2.
  assert (∀ s, groups s.2 !! gid g = Some at_ → (∀ t, t ∈ tags g → indexed (tag_index s.2) t (gid g)) →
    groups (foldl (λ s u, apply_update u s) s us).2 !! gid g = Some at_ ∧
    (∀ t, t ∈ tags g → indexed (tag_index (foldl (λ s u, apply_update u s) s us).2) t (gid g)) ∧
    (indexed (agent_groups s.2) a (gid g) → ULeave a (gid g) ∉ us →
     indexed (agent_groups (foldl (λ s u, apply_update u s) s us).2) a (gid g))) as Hrun.
  { induction Hus as [|u us Hu _ IH]; intros [h1 r1] Hg Ht; [done|]. cbn [foldl].
    destruct (apply_update u (h1, r1)) as [h2 r2] eqn:E. destruct (update_spares (gid g) u h1 r1 h2 r2 Hu E) as (E1 & E2 & E3).
    destruct (IH (h2, r2)) as (I1 & I2 & I3); cbn in *; [congruence|intros; apply E2; auto|]. split_and!; [done|done|].
    intros Ha Hn. rewrite elem_of_cons in Hn. apply I3; [apply E3; naive_solver|naive_solver]. }
  destruct (Hrun s1) as (I1 & I2 & I3); cbn.
  { by rewrite lookup_insert_eq. }
  { intros t' Ht. rewrite indexed_add_all, hash_elems_perm, elem_of_elements. by left. }
  split_and!.
  - intros Ht. apply by_tag_spec. exists (gid g). split; [by apply I2|done].
  - intros Hn. apply for_agent_spec. exists (gid g). split; [|done]. apply I3; [|done]. cbn. rewrite indexed_add. by left.
  - fold s2 in I1. destruct s2 as [h2 r2]. unfold GroupRegistry.get. cbn in *. unfold GroupRegistry.unregister. rewrite I1.
    destruct (h2 !! at_); cbn; by rewrite lookup_delete_eq.
Qed.
End registry.

(** ** Runs that show what the code does otherwise *)

Definition agent1 : AgentId := [1].
Definition one_leader : AgentGroup := (AgentGroup.add_member 0 agent1 Leader (AgentGroup.new [0] "g")).2.

(** A call that has read the state before the group is dissolved adds its member afterwards. *)
Lemma member_of_dissolved_group :
  ∃ g ts, rtc gstep (AgentGroup.new [0] "g", [(AgentGroup.CAdd 0 agent1 Member, AgentGroup.AtState)]) (g, ts) ∧
    gstate g = Dissolved ∧ AgentGroup.is_member agent1 g = true.
Proof.
  eexists _, _. split; [|split].
  - eapply rtc_l; [eapply (step_call _ _ 0); reflexivity|]. eapply rtc_l; [apply step_dissolve|]. eapply rtc_l; [apply step_complete|].
    eapply rtc_l; [eapply (step_call _ _ 0); reflexivity|]. reflexivity.
  - reflexivity.
  - reflexivity.
Qed.

(** The last leader can leave while the group is paused; resumed, the group has none. *)
Lemma paused_group_loses_leader :
  let g := (AgentGroup.resume (AgentGroup.remove_member agent1 (AgentGroup.pause one_leader).2).2).2 in
  (AgentGroup.remove_member agent1 one_leader).1 = Err MinLeadersViolation ∧
  gstate g = Active ∧ leaders (members g) = 0 ∧ min_leaders (config g) = 1.
Proof. split_and!; vm_compute; reflexivity. Qed.

(** A member leaves although the configuration forbids it. *)
Lemma leave_is_not_checked :
  let g := AgentGroup.with_config [0] "g" (mkConfig 10 0 3 false false) in
  (AgentGroup.remove_member agent1 (AgentGroup.add_member 0 agent1 Member g).2).1 = Ok (GroupMember.new 0 agent1 Member).
Proof. vm_compute. reflexivity. Qed.

(** A tag that is added to a registered group is not found. *)
Lemma late_tag_not_found :
  let '(_, h, r) := GroupRegistry.register (H := sorted_order) 0 (AgentGroup.new [0] "g") ∅ GroupRegistry.new in
  let h := alter (AgentGroup.add_tag "t") 0%nat h in
  AgentGroup.has_tag "t" <$> h !! 0%nat = Some true ∧ GroupRegistry.groups_by_tag (H := sorted_order) "t" r = [].
Proof. split; vm_compute; reflexivity. Qed.

(** The coordinator answers without looking at an agent. *)
Lemma all_in_any_state check g : GroupCoordinator.all_in_state check g = true.
Proof. done. Qed.

Lemma group_limits_witness :
  let c := mkConfig 2 1 1 false true in
  let calls := [AgentGroup.CAdd 0 [1] Leader; AgentGroup.CAdd 0 [2] Leader] in
  ∃ g ts, rtc gstep (AgentGroup.with_config [0] "g" c, (λ k, (k, AgentGroup.AtState)) <$> calls) (g, ts) ∧
    snd <$> ts = [AgentGroup.Back (Some MaxLeadersViolation); AgentGroup.Back None] ∧ limits c g.
Proof.
  eexists _, _. split; [|split].
  - eapply rtc_l; [eapply (step_call _ _ 0); reflexivity|]. eapply rtc_l; [eapply (step_call _ _ 1); reflexivity|].
    eapply rtc_l; [eapply (step_call _ _ 1); reflexivity|]. eapply rtc_l; [eapply (step_call _ _ 0); reflexivity|]. reflexivity.
  - reflexivity.
  - eapply (group_limits [0] "g" (mkConfig 2 1 1 false true) [AgentGroup.CAdd 0 [1] Leader; AgentGroup.CAdd 0 [2] Leader]).
    + discriminate.
    + discriminate.
    + eapply rtc_l; [eapply (step_call _ _ 0); reflexivity|]. eapply rtc_l; [eapply (step_call _ _ 1); reflexivity|].
      eapply rtc_l; [eapply (step_call _ _ 1); reflexivity|]. eapply rtc_l; [eapply (step_call _ _ 0); reflexivity|]. reflexivity.
    + reflexivity.
Defined.
