(* ===== verification/Tenants.v ===== *)
(** * Tenants of the mesh (mielin-mesh/core/src/multitenancy.rs)

    Tenants with quotas, their namespaces and agents, routing between tenants, and the audit
    log.  The file has the definitions first, then the theorems.

    Tenants are shared objects that are never removed, so the table of tenants holds them by
    value; so does the table of namespaces, of which a call keeps a reference no longer than
    it runs.  The functions of the source's names are calls that nobody interrupts;
    [register_step] is one access of a call that registers an agent.  The system time and
    the instant are arguments. *)

From stdpp Require Import base tactics option list numbers gmap strings pretty relations.
From S2P Require Import Prelude Hash.
#[local] Open Scope Z_scope.

(** The error of the network, which nothing here makes, is its text. *)
(* src: mielin-mesh/core/src/multitenancy.rs 26-56 MultiTenancyError *)
Inductive MultiTenancyError : Type :=
| TenantNotFound (tenant_id : string)
| NamespaceNotFound (namespace : string)
| NamespaceAlreadyExists (namespace : string)
| TenantAlreadyExists (tenant_id : string)
| QuotaExceeded (tenant_id resource : string)
| AccessDenied (tenant_id namespace : string)
| InvalidConfig (reason : string)
| IsolationViolation (reason : string)
| NetworkError (text : string).

(* src: mielin-mesh/core/src/multitenancy.rs 60-60 TenantId *)
Definition TenantId : Type := string.
(* src: mielin-mesh/core/src/multitenancy.rs 82-82 NamespaceId *)
Definition NamespaceId : Type := string.
(** Sixteen bytes. *)
Definition AgentId : Type := list Z.
#[export] Instance TenantId_eq_dec : EqDecision TenantId := _.
#[export] Instance TenantId_countable : Countable TenantId := _.
#[export] Instance NamespaceId_eq_dec : EqDecision NamespaceId := _.
#[export] Instance NamespaceId_countable : Countable NamespaceId := _.
#[export] Instance AgentId_eq_dec : EqDecision AgentId := _.

(** What [{:?}] prints of an array of bytes. *)
Definition debug_bytes (l : list Z) : string := ("[" +:+ String.concat ", " (pretty <$> l) +:+ "]")%string.

(** ** Quotas and usage *)

(* src: mielin-mesh/core/src/multitenancy.rs 104-117 ResourceQuota *)
Record ResourceQuota : Type := mkQuota {
  max_agents : Z; max_namespaces : Z; max_connections_per_agent : Z;
  max_bandwidth_bytes_per_sec : Z; max_storage_bytes : Z; max_cpu_ms_per_sec : Z }.

Module ResourceQuota.

(* src: mielin-mesh/core/src/multitenancy.rs 120-129 ResourceQuota::default *)
Definition default : ResourceQuota := mkQuota 1000 10 100 (100 * 1024 * 1024) (10 * 1024 * 1024 * 1024) 500.
(* src: mielin-mesh/core/src/multitenancy.rs 134-143 ResourceQuota::small *)
Definition small : ResourceQuota := mkQuota 100 3 50 (10 * 1024 * 1024) (1024 * 1024 * 1024) 100.
(* src: mielin-mesh/core/src/multitenancy.rs 146-155 ResourceQuota::enterprise *)
Definition enterprise : ResourceQuota := mkQuota 10000 100 500 (1024 * 1024 * 1024) (100 * 1024 * 1024 * 1024) 4000.
(* src: mielin-mesh/core/src/multitenancy.rs 158-167 ResourceQuota::unlimited *)
Definition unlimited : ResourceQuota := mkQuota U64_MAX U64_MAX U64_MAX U64_MAX U64_MAX U64_MAX.

End ResourceQuota.

(* src: mielin-mesh/core/src/multitenancy.rs 172-185 ResourceUsage *)
Record ResourceUsage : Type := mkUsage {
  u_agents : Z; u_namespaces : Z; u_connections : Z; u_bandwidth_bytes_per_sec : Z; u_storage_bytes : Z; u_cpu_ms_per_sec : Z }.

Module ResourceUsage.

(* src: mielin-mesh/core/src/multitenancy.rs 188-197 ResourceUsage::default *)
Definition default : ResourceUsage := mkUsage 0 0 0 0 0 0.

(* src: mielin-mesh/core/src/multitenancy.rs 216-223 ResourceUsageSnapshot *)
Record ResourceUsageSnapshot : Type := mkSnapshot {
  agents : Z; namespaces : Z; connections : Z; bandwidth_bytes_per_sec : Z; storage_bytes : Z; cpu_ms_per_sec : Z }.

(* src: mielin-mesh/core/src/multitenancy.rs 202-211 ResourceUsage::snapshot *)
Definition snapshot (self : ResourceUsage) : ResourceUsageSnapshot :=
  mkSnapshot (u_agents self) (u_namespaces self) (u_connections self) (u_bandwidth_bytes_per_sec self) (u_storage_bytes self) (u_cpu_ms_per_sec self).

(** [fetch_add] and [fetch_sub] of the first two counters. *)
Definition add_agents (d : Z) (self : ResourceUsage) : ResourceUsage :=
  mkUsage (wrap64 (u_agents self + d)) (u_namespaces self) (u_connections self) (u_bandwidth_bytes_per_sec self) (u_storage_bytes self) (u_cpu_ms_per_sec self).
Definition add_namespaces (d : Z) (self : ResourceUsage) : ResourceUsage :=
  mkUsage (u_agents self) (wrap64 (u_namespaces self + d)) (u_connections self) (u_bandwidth_bytes_per_sec self) (u_storage_bytes self) (u_cpu_ms_per_sec self).

End ResourceUsage.

(** ** Tenants and namespaces *)

(* src: mielin-mesh/core/src/multitenancy.rs 227-236 TenantStatus *)
Inductive TenantStatus : Type := Active | Suspended | Disabled | Pending.

#[export] Instance TenantStatus_eq_dec : EqDecision TenantStatus.
Proof. solve_decision. Defined.

(* src: mielin-mesh/core/src/multitenancy.rs 246-265 Tenant *)
Record Tenant : Type := mkTenant {
  tid : TenantId;
  name : string;
  status : TenantStatus;
  quota : ResourceQuota;
  usage : ResourceUsage;
  owned : list NamespaceId;
  created_at : Z;
  last_activity : Z;
  metadata : gmap string string;
}.

Module Tenant.
Implicit Types (self : Tenant).

(* src: mielin-mesh/core/src/multitenancy.rs 269-281 Tenant::new *)
Definition new (now inst : Z) (id : TenantId) (n : string) (q : ResourceQuota) : Tenant :=
  mkTenant id n Pending q ResourceUsage.default [] now inst ∅.

Definition set_status (s : TenantStatus) self : Tenant :=
  mkTenant (tid self) (name self) s (quota self) (usage self) (owned self) (created_at self) (last_activity self) (metadata self).
Definition set_usage (u : ResourceUsage) self : Tenant :=
  mkTenant (tid self) (name self) (status self) (quota self) u (owned self) (created_at self) (last_activity self) (metadata self).
Definition set_owned (l : list NamespaceId) self : Tenant :=
  mkTenant (tid self) (name self) (status self) (quota self) (usage self) l (created_at self) (last_activity self) (metadata self).

(* src: mielin-mesh/core/src/multitenancy.rs 284-288 Tenant::activate *)
Definition activate self : Tenant := set_status Active self.
(* src: mielin-mesh/core/src/multitenancy.rs 291-295 Tenant::suspend *)
Definition suspend self : Tenant := set_status Suspended self.
(* src: mielin-mesh/core/src/multitenancy.rs 298-301 Tenant::is_active *)
Definition is_active self : bool := bool_decide (status self = Active).
(* src: mielin-mesh/core/src/multitenancy.rs 304-307 Tenant::touch *)
Definition touch (inst : Z) self : Tenant :=
  mkTenant (tid self) (name self) (status self) (quota self) (usage self) (owned self) (created_at self) inst (metadata self).

End Tenant.

(* src: mielin-mesh/core/src/multitenancy.rs 312-321 NamespaceConfig *)
Record NamespaceConfig : Type := mkNsConfig {
  nid : NamespaceId; owner : TenantId; resource_limits : option ResourceQuota; labels : gmap string string }.

(* src: mielin-mesh/core/src/multitenancy.rs 325-334 Namespace *)
Record Namespace : Type := mkNamespace { config : NamespaceConfig; agents : list AgentId; ns_created_at : Z; ns_usage : ResourceUsage }.

Module Namespace.
Implicit Types (self : Namespace).

(* src: mielin-mesh/core/src/multitenancy.rs 338-345 Namespace::new *)
Definition new (now : Z) (c : NamespaceConfig) : Namespace := mkNamespace c [] now ResourceUsage.default.

(* src: mielin-mesh/core/src/multitenancy.rs 369-372 Namespace::contains_agent *)
Definition contains_agent (a : AgentId) self : bool := bool_decide (a ∈ agents self).

(* src: mielin-mesh/core/src/multitenancy.rs 348-354 Namespace::add_agent *)
Definition add_agent (a : AgentId) self : Namespace :=
  if bool_decide (a ∈ agents self) then self
  else mkNamespace (config self) (agents self ++ [a]) (ns_created_at self) (ResourceUsage.add_agents 1 (ns_usage self)).

(* src: mielin-mesh/core/src/multitenancy.rs 357-366 Namespace::remove_agent *)
Definition remove_agent (a : AgentId) self : bool * Namespace :=
  match list_find (λ b, b = a) (agents self) with
  | Some (pos, _) => (true, mkNamespace (config self) (delete pos (agents self)) (ns_created_at self) (ResourceUsage.add_agents (-1) (ns_usage self)))
  | None => (false, self)
  end.

End Namespace.

(** ** The audit log *)

(* src: mielin-mesh/core/src/multitenancy.rs 398-425 AuditAction *)
Inductive AuditAction : Type :=
| AgentCreated | AgentDeleted | AgentMigrated | ConnectionEstablished | ConnectionTerminated | NamespaceCreated | NamespaceDeleted
| QuotaModified | TenantStatusChanged | AccessAttempt | ConfigChanged | PolicyViolation | CustomAction (text : string).

(* src: mielin-mesh/core/src/multitenancy.rs 429-436 AuditOutcome *)
Inductive AuditOutcome : Type := Success | Failure (reason : string) | Denied (reason : string).

(* src: mielin-mesh/core/src/multitenancy.rs 377-394 AuditEntry *)
Record AuditEntry : Type := mkEntry {
  timestamp : Z; tenant_id : TenantId; namespace_id : option NamespaceId; action : AuditAction;
  target : string; outcome_of : AuditOutcome; details : gmap string string; source_node : option (list Z) }.

(* src: mielin-mesh/core/src/multitenancy.rs 440-449 AuditConfig *)
Record AuditConfig : Type := mkAuditConfig { max_entries : Z; retention : Z; audited_actions : list AuditAction; verbose : bool }.

(* src: mielin-mesh/core/src/multitenancy.rs 464-473 AuditLog *)
Record AuditLog : Type := mkLog { log_config : AuditConfig; entries : list AuditEntry; total_entries : Z; dropped_entries : Z }.

Module AuditConfig.

(** The retention, like all times, is in nanoseconds. *)
(* src: mielin-mesh/core/src/multitenancy.rs 452-459 AuditConfig::default *)
Definition default : AuditConfig := mkAuditConfig 10000 (30 * 24 * 60 * 60 * 1000000000) [] false.

End AuditConfig.

Module AuditLog.
Implicit Types (self : AuditLog).

(* src: mielin-mesh/core/src/multitenancy.rs 477-484 AuditLog::new *)
Definition new (c : AuditConfig) : AuditLog := mkLog c [] 0 0.

(* src: mielin-mesh/core/src/multitenancy.rs 487-511 AuditLog::log *)
Definition log (e : AuditEntry) self : AuditLog :=
  let '(es, dropped) :=
    if max_entries (log_config self) <=? Z.of_nat (length (entries self))
    then match entries self with [] => ([], dropped_entries self) | _ :: es => (es, wrap64 (dropped_entries self + 1)) end
    else (entries self, dropped_entries self) in
  mkLog (log_config self) (es ++ [e]) (wrap64 (total_entries self + 1)) dropped.

(* src: mielin-mesh/core/src/multitenancy.rs 514-521 AuditLog::get_entries_for_tenant *)
Definition get_entries_for_tenant (t : TenantId) self : list AuditEntry := filter (λ e, tenant_id e = t) (entries self).

Definition discriminant (a : AuditAction) : nat :=
  match a with
  | AgentCreated => 0 | AgentDeleted => 1 | AgentMigrated => 2 | ConnectionEstablished => 3 | ConnectionTerminated => 4
  | NamespaceCreated => 5 | NamespaceDeleted => 6 | QuotaModified => 7 | TenantStatusChanged => 8 | AccessAttempt => 9
  | ConfigChanged => 10 | PolicyViolation => 11 | CustomAction _ => 12
  end.

(* src: mielin-mesh/core/src/multitenancy.rs 524-531 AuditLog::get_entries_by_action *)
Definition get_entries_by_action (a : AuditAction) self : list AuditEntry :=
  filter (λ e, discriminant (action e) = discriminant a) (entries self).

(** Times are counted from the epoch; the earliest time has [-2^63] seconds. *)
(* src: mielin-mesh/core/src/multitenancy.rs 548-563 AuditLog::cleanup *)
Definition cleanup (now : Z) self : AuditLog :=
  let cutoff := if now - retention (log_config self) <? -9223372036854775808 * 1000000000 then 0 else now - retention (log_config self) in
  let kept := filter (λ e, cutoff < timestamp e) (entries self) in
  let removed := Z.of_nat (length (entries self)) - Z.of_nat (length kept) in
  mkLog (log_config self) kept (total_entries self)
    (if 0 <? removed then wrap64 (dropped_entries self + removed) else dropped_entries self).

End AuditLog.

(** ** The manager *)

(* src: mielin-mesh/core/src/multitenancy.rs 575-582 RoutingPolicy *)
Inductive RoutingPolicy : Type := Strict | PermissionBased | NamespaceOnly.

(* src: mielin-mesh/core/src/multitenancy.rs 592-601 CrossTenantPermission *)
Record CrossTenantPermission : Type := mkPermission {
  source_tenant : TenantId; target_tenant : TenantId; allowed_namespaces : list NamespaceId; expires_at : option Z }.

(* src: mielin-mesh/core/src/multitenancy.rs 604-619 TenantManager *)
Record TenantManager : Type := mkManager {
  tenants : gmap TenantId Tenant;
  namespaces : gmap NamespaceId Namespace;
  routing_policy : RoutingPolicy;
  cross_tenant_permissions : list CrossTenantPermission;
  audit_log : AuditLog;
  total_agents : Z;
  total_namespaces : Z;
}.

Module TenantManager.
Implicit Types (self : TenantManager).

Definition set_tenants (m : gmap TenantId Tenant) self : TenantManager :=
  mkManager m (namespaces self) (routing_policy self) (cross_tenant_permissions self) (audit_log self) (total_agents self) (total_namespaces self).
Definition set_namespaces (m : gmap NamespaceId Namespace) self : TenantManager :=
  mkManager (tenants self) m (routing_policy self) (cross_tenant_permissions self) (audit_log self) (total_agents self) (total_namespaces self).
Definition set_log (l : AuditLog) self : TenantManager :=
  mkManager (tenants self) (namespaces self) (routing_policy self) (cross_tenant_permissions self) l (total_agents self) (total_namespaces self).
(** [fetch_add] and [fetch_sub] of the totals. *)
Definition add_totals (da dn : Z) self : TenantManager :=
  mkManager (tenants self) (namespaces self) (routing_policy self) (cross_tenant_permissions self) (audit_log self)
    (wrap64 (total_agents self + da)) (wrap64 (total_namespaces self + dn)).

(** What the calls write to the log. *)
Definition record (now : Z) (t : TenantId) (n : option NamespaceId) (a : AuditAction) (tgt : string) (o : AuditOutcome) self : TenantManager :=
  set_log (AuditLog.log (mkEntry now t n a tgt o ∅ None) (audit_log self)) self.

(* src: mielin-mesh/core/src/multitenancy.rs 623-633 TenantManager::new *)
Definition new (c : AuditConfig) : TenantManager := mkManager ∅ ∅ Strict [] (AuditLog.new c) 0 0.

(* src: mielin-mesh/core/src/multitenancy.rs 636-667 TenantManager::create_tenant *)
Definition create_tenant (now inst : Z) (id : TenantId) (n : string) (q : ResourceQuota) self : result Tenant MultiTenancyError * TenantManager :=
  match tenants self !! id with
  | Some _ => (Err (TenantAlreadyExists id), self)
  | None =>
      let tenant := Tenant.new now inst id n q in
      let self := set_tenants (<[id := tenant]> (tenants self)) self in
      (Ok tenant, record now id None TenantStatusChanged "tenant" Success self)
  end.

(* src: mielin-mesh/core/src/multitenancy.rs 670-673 TenantManager::get_tenant *)
Definition get_tenant (id : TenantId) self : option Tenant := tenants self !! id.

(* src: mielin-mesh/core/src/multitenancy.rs 676-700 TenantManager::activate_tenant *)
Definition activate_tenant (now : Z) (id : TenantId) self : result () MultiTenancyError * TenantManager :=
  match get_tenant id self with
  | None => (Err (TenantNotFound id), self)
  | Some tenant =>
      let self := set_tenants (<[id := Tenant.activate tenant]> (tenants self)) self in
      (Ok (), record now id None TenantStatusChanged "activated" Success self)
  end.

(** [suspend] of a tenant that [get_tenant] gave. *)
Definition suspend_tenant (id : TenantId) self : TenantManager :=
  match get_tenant id self with None => self | Some tenant => set_tenants (<[id := Tenant.suspend tenant]> (tenants self)) self end.

(* src: mielin-mesh/core/src/multitenancy.rs 703-774 TenantManager::create_namespace *)
Definition create_namespace (now : Z) (t : TenantId) (n : NamespaceId) (ls : gmap string string) self
    : result Namespace MultiTenancyError * TenantManager :=
  match get_tenant t self with
  | None => (Err (TenantNotFound t), self)
  | Some tenant =>
      if negb (Tenant.is_active tenant) then (Err (AccessDenied t n), self) else
      if max_namespaces (quota tenant) <=? u_namespaces (usage tenant) then (Err (QuotaExceeded t "namespaces"), self) else
      match namespaces self !! n with
      | Some _ => (Err (NamespaceAlreadyExists n), self)
      | None =>
          let namespace := Namespace.new now (mkNsConfig n t None ls) in
          let self := set_namespaces (<[n := namespace]> (namespaces self)) self in
          let tenant := Tenant.set_owned (owned tenant ++ [n]) tenant in
          let tenant := Tenant.set_usage (ResourceUsage.add_namespaces 1 (usage tenant)) tenant in
          let self := add_totals 0 1 (set_tenants (<[t := tenant]> (tenants self)) self) in
          (Ok namespace, record now t (Some n) NamespaceCreated "namespace" Success self)
      end
  end.

(* src: mielin-mesh/core/src/multitenancy.rs 777-780 TenantManager::get_namespace *)
Definition get_namespace (id : NamespaceId) self : option Namespace := namespaces self !! id.

(* src: mielin-mesh/core/src/multitenancy.rs 783-837 TenantManager::delete_namespace *)
Definition delete_namespace (now : Z) (t : TenantId) (n : NamespaceId) self : result () MultiTenancyError * TenantManager :=
  match get_tenant t self with
  | None => (Err (TenantNotFound t), self)
  | Some tenant =>
      match namespaces self !! n with
      | None => (Err (NamespaceNotFound n), self)
      | Some namespace =>
          if bool_decide (owner (config namespace) ≠ t) then (Err (AccessDenied t n), self) else
          let self := set_namespaces (delete n (namespaces self)) self in
          let tenant := Tenant.set_owned (filter (λ x, x ≠ n) (owned tenant)) tenant in
          let tenant := Tenant.set_usage (ResourceUsage.add_namespaces (-1) (usage tenant)) tenant in
          let self := add_totals 0 (-1) (set_tenants (<[t := tenant]> (tenants self)) self) in
          (Ok (), record now t (Some n) NamespaceDeleted "namespace" Success self)
      end
  end.

(* src: mielin-mesh/core/src/multitenancy.rs 840-903 TenantManager::register_agent *)
Definition register_agent (now inst : Z) (t : TenantId) (n : NamespaceId) (a : AgentId) self : result () MultiTenancyError * TenantManager :=
  match get_tenant t self with
  | None => (Err (TenantNotFound t), self)
  | Some tenant =>
      if negb (Tenant.is_active tenant) then (Err (AccessDenied t n), self) else
      if max_agents (quota tenant) <=? u_agents (usage tenant) then (Err (QuotaExceeded t "agents"), self) else
      match get_namespace n self with
      | None => (Err (NamespaceNotFound n), self)
      | Some namespace =>
          if bool_decide (owner (config namespace) ≠ t) then (Err (AccessDenied t n), self) else
          let self := set_namespaces (<[n := Namespace.add_agent a namespace]> (namespaces self)) self in
          let tenant := Tenant.touch inst (Tenant.set_usage (ResourceUsage.add_agents 1 (usage tenant)) tenant) in
          let self := add_totals 1 0 (set_tenants (<[t := tenant]> (tenants self)) self) in
          (Ok (), record now t (Some n) AgentCreated (debug_bytes a) Success self)
      end
  end.

(* src: mielin-mesh/core/src/multitenancy.rs 906-953 TenantManager::unregister_agent *)
Definition unregister_agent (now inst : Z) (t : TenantId) (n : NamespaceId) (a : AgentId) self : result () MultiTenancyError * TenantManager :=
  match get_tenant t self with
  | None => (Err (TenantNotFound t), self)
  | Some tenant =>
      match get_namespace n self with
      | None => (Err (NamespaceNotFound n), self)
      | Some namespace =>
          if bool_decide (owner (config namespace) ≠ t) then (Err (AccessDenied t n), self) else
          let '(removed, namespace) := Namespace.remove_agent a namespace in
          let self := set_namespaces (<[n := namespace]> (namespaces self)) self in
          if removed then
            let tenant := Tenant.touch inst (Tenant.set_usage (ResourceUsage.add_agents (-1) (usage tenant)) tenant) in
            let self := add_totals (-1) 0 (set_tenants (<[t := tenant]> (tenants self)) self) in
            (Ok (), record now t (Some n) AgentDeleted (debug_bytes a) Success self)
          else (Ok (), self)
      end
  end.

(** The loop over permissions. *)
(* src: mielin-mesh/core/src/multitenancy.rs 999-1018 TenantManager::can_route *)
Fixpoint permitted (now : Z) (st dt : TenantId) (tn : NamespaceId) (ps : list CrossTenantPermission) : bool :=
  match ps with
  | [] => false
  | p :: ps =>
      if bool_decide (source_tenant p = st ∧ target_tenant p = dt) then
        if match expires_at p with Some e => e <? now | None => false end then permitted now st dt tn ps else
        if bool_decide (allowed_namespaces p = []) || bool_decide (tn ∈ allowed_namespaces p) then true
        else permitted now st dt tn ps
      else permitted now st dt tn ps
  end.

(** The answer is never an error. *)
(* src: mielin-mesh/core/src/multitenancy.rs 956-1037 TenantManager::can_route *)
Definition can_route (now : Z) (st : TenantId) (sn : NamespaceId) (dt : TenantId) (tn : NamespaceId) self : bool * TenantManager :=
  let target := (dt +:+ ":" +:+ tn)%string in
  match routing_policy self with
  | Strict =>
      if bool_decide (st ≠ dt) || bool_decide (sn ≠ tn)
      then (false, record now st (Some sn) AccessAttempt target (Denied "strict isolation") self)
      else (true, self)
  | NamespaceOnly => if bool_decide (st ≠ dt) then (false, self) else (bool_decide (sn = tn), self)
  | PermissionBased =>
      if bool_decide (st = dt) then (true, self) else
      if permitted now st dt tn (cross_tenant_permissions self) then (true, self)
      else (false, record now st (Some sn) AccessAttempt target (Denied "no permission") self)
  end.

(* src: mielin-mesh/core/src/multitenancy.rs 1040-1043 TenantManager::set_routing_policy *)
Definition set_routing_policy (p : RoutingPolicy) self : TenantManager :=
  mkManager (tenants self) (namespaces self) p (cross_tenant_permissions self) (audit_log self) (total_agents self) (total_namespaces self).

(* src: mielin-mesh/core/src/multitenancy.rs 1046-1049 TenantManager::grant_cross_tenant_permission *)
Definition grant_cross_tenant_permission (p : CrossTenantPermission) self : TenantManager :=
  mkManager (tenants self) (namespaces self) (routing_policy self) (cross_tenant_permissions self ++ [p]) (audit_log self) (total_agents self) (total_namespaces self).

(* src: mielin-mesh/core/src/multitenancy.rs 1078-1084 TenantManagerStats *)
Record TenantManagerStats : Type := mkStats { s_total_tenants : Z; s_active_tenants : Z; s_total_namespaces : Z; s_total_agents : Z; s_total_entries : Z; s_dropped_entries : Z }.

(* src: mielin-mesh/core/src/multitenancy.rs 1057-1073 TenantManager::stats *)
Definition stats self : TenantManagerStats :=
  mkStats (Z.of_nat (size (tenants self))) (Z.of_nat (size (filter (λ kt : TenantId * Tenant, Tenant.is_active kt.2 = true) (tenants self))))
    (total_namespaces self) (total_agents self) (total_entries (audit_log self)) (dropped_entries (audit_log self)).

(** *** Calls of several tasks

    A task that registers an agent: before the call; with the tenant active, before the
    quota is read; before the namespace is taken; before the agent is added; before the
    counts; back.  The two counts and the entry of the log follow each other. *)
Inductive pc : Type := AtTenant | AtQuota | AtNamespace | AtAdd | AtCount | Back (r : result () MultiTenancyError).

(* src: mielin-mesh/core/src/multitenancy.rs 846-902 TenantManager::register_agent *)
Definition register_step (now inst : Z) (t : TenantId) (n : NamespaceId) (a : AgentId) self (p : pc) : TenantManager * pc :=
  match p with
  | AtTenant =>
      match get_tenant t self with
      | None => (self, Back (Err (TenantNotFound t)))
      | Some tenant => (self, if Tenant.is_active tenant then AtQuota else Back (Err (AccessDenied t n)))
      end
  | AtQuota =>
      match get_tenant t self with
      | None => (self, Back (Err (TenantNotFound t)))
      | Some tenant =>
          (self, if max_agents (quota tenant) <=? u_agents (usage tenant) then Back (Err (QuotaExceeded t "agents")) else AtNamespace)
      end
  | AtNamespace =>
      match get_namespace n self with
      | None => (self, Back (Err (NamespaceNotFound n)))
      | Some namespace => (self, if bool_decide (owner (config namespace) ≠ t) then Back (Err (AccessDenied t n)) else AtAdd)
      end
  | AtAdd =>
      (set_namespaces (alter (Namespace.add_agent a) n (namespaces self)) self, AtCount)
  | AtCount =>
      let self := set_tenants (alter (λ tenant, Tenant.touch inst (Tenant.set_usage (ResourceUsage.add_agents 1 (usage tenant)) tenant)) t (tenants self)) self in
      (record now t (Some n) AgentCreated (debug_bytes a) Success (add_totals 1 0 self), Back (Ok ()))
  | Back r => (self, Back r)
  end.

End TenantManager.

(** * Theorems *)

Import TenantManager.

(** ** Sums over namespaces *)

Lemma sum_by_ext {A} (f g : A → Z) l : (∀ x, x ∈ l → f x = g x) → sum_by f l = sum_by g l.
Proof.
  induction l as [|x l IH]; intros H; [done|]. rewrite !sum_by_cons. rewrite (H x) by left. rewrite IH; [done|]. intros y Hy. apply H. by right.
Qed.

Lemma sum_by_change {A} `{EqDecision A} (f g : A → Z) l x :
  NoDup l → x ∈ l → (∀ y, y ≠ x → f y = g y) → sum_by g l = sum_by f l - f x + g x.
Proof.
  intros Hnd Hx Hfg. apply list_elem_of_split in Hx as (l1 & l2 & ->). apply NoDup_app in Hnd as (_ & H1 & [H2 _]%NoDup_cons).
  rewrite !sum_by_app, !sum_by_cons. rewrite (sum_by_ext g f l1), (sum_by_ext g f l2); [lia|..]; intros y Hy; symmetry; apply Hfg; intros ->; [done|].
  apply (H1 x Hy). left.
Qed.

Lemma sum_by_filter {A} `{EqDecision A} (f : A → Z) l x :
  NoDup l → x ∈ l → sum_by f (filter (λ y : A, y ≠ x) l) = sum_by f l - f x ∧ length (filter (λ y : A, y ≠ x) l) = (length l - 1)%nat.
Proof.
  intros Hnd Hx. apply list_elem_of_split in Hx as (l1 & l2 & ->). apply NoDup_app in Hnd as (_ & H1 & [H2 _]%NoDup_cons).
  assert (∀ l : list A, x ∉ l → filter (λ y : A, y ≠ x) l = l) as Hf.
  { induction l as [|y l IH]; intros Hl; [done|]. apply not_elem_of_cons in Hl as [Hy Hl]. by rewrite filter_cons_True, IH. }
  rewrite filter_app, filter_cons_False by (intros H; by apply H). rewrite !Hf by (done || (intros H; apply (H1 x H); left)).
  rewrite !sum_by_app, sum_by_cons, !length_app. cbn [length]. split; lia.
Qed.

(** ** The invariant *)

(** The agents in a namespace. *)
Definition in_namespace (m : gmap NamespaceId Namespace) (n : NamespaceId) : Z :=
  match m !! n with Some ns => Z.of_nat (length (agents ns)) | None => 0 end.

Definition owns (m : gmap NamespaceId Namespace) (t : TenantId) (n : NamespaceId) : Prop :=
  ∃ ns, m !! n = Some ns ∧ owner (config ns) = t.

Definition quota_ok (q : ResourceQuota) : Prop := 0 <= max_agents q <= U64_MAX ∧ 0 <= max_namespaces q <= U64_MAX.

(** A tenant lists its namespaces, each once; they are counted exactly, and the count of
    agents covers the agents that are in them; both counts keep to the quota. *)
Record tenant_ok (m : gmap NamespaceId Namespace) (t : TenantId) (T : Tenant) : Prop := {
  ok_tid : tid T = t;
  ok_quota : quota_ok (quota T);
  ok_nodup : NoDup (owned T);
  ok_owned n : n ∈ owned T ↔ owns m t n;
  ok_namespaces : u_namespaces (usage T) = Z.of_nat (length (owned T)) ∧ u_namespaces (usage T) <= max_namespaces (quota T);
  ok_agents : sum_by (in_namespace m) (owned T) <= u_agents (usage T) <= max_agents (quota T);
}.

Definition namespace_ok (ts : gmap TenantId Tenant) (n : NamespaceId) (ns : Namespace) : Prop :=
  nid (config ns) = n ∧ is_Some (ts !! owner (config ns)) ∧ NoDup (agents ns) ∧ u_agents (ns_usage ns) = Z.of_nat (length (agents ns)).

Record manager_ok (s : TenantManager) : Prop := {
  all_tenants t T : tenants s !! t = Some T → tenant_ok (namespaces s) t T;
  all_namespaces n ns : namespaces s !! n = Some ns → namespace_ok (tenants s) n ns;
  ok_total : total_namespaces s = wrap64 (Z.of_nat (size (namespaces s)));
}.

Lemma in_namespace_nonneg m n : 0 <= in_namespace m n.
Proof. unfold in_namespace. destruct (m !! n); lia. Qed.

Lemma sum_nonneg m l : 0 <= sum_by (in_namespace m) l.
Proof. apply sum_by_nonneg. intros x _. apply in_namespace_nonneg. Qed.

(** Another tenant does not see a change of a tenant's namespaces. *)
Lemma tenant_ok_other m m' t t' T :
  t' ≠ t → (∀ n ns, owner (config ns) ≠ t → m' !! n = Some ns ↔ m !! n = Some ns) → tenant_ok m t' T → tenant_ok m' t' T.
Proof.
  intros Hne Hm [H1 H2 H3 H4 H5 H6].
  assert (∀ n, owns m' t' n ↔ owns m t' n) as Ho.
  { intros n. split; intros (ns & Hns & Hown); exists ns; (split; [|done]); [apply Hm in Hns|apply Hm]; done || congruence. }
  split; [done|done|done|intros n; by rewrite H4, Ho|done|].
  rewrite (sum_by_ext (in_namespace m') (in_namespace m)); [done|]. intros n Hn. apply H4 in Hn as (ns & Hns & Hown).
  unfold in_namespace. rewrite Hns. rewrite (proj2 (Hm n ns ltac:(congruence)) Hns). done.
Qed.

(** A call that changes one tenant and namespaces of that tenant. *)
Lemma manager_ok_update s t T T' m' l da dn :
  manager_ok s → tenants s !! t = Some T →
  (∀ n ns, owner (config ns) ≠ t → m' !! n = Some ns ↔ namespaces s !! n = Some ns) →
  tenant_ok m' t T' → (∀ n ns, m' !! n = Some ns → owner (config ns) = t → nid (config ns) = n ∧ NoDup (agents ns) ∧ u_agents (ns_usage ns) = Z.of_nat (length (agents ns))) →
  Z.of_nat (size m') = Z.of_nat (size (namespaces s)) + dn →
  manager_ok (set_log l (add_totals da dn (set_tenants (<[t := T']> (tenants s)) (set_namespaces m' s)))).
Proof.
  intros [Ht Hn Htot] HT Hm HT' Hns Hsize. split; cbn -[wrap64].
  - intros t' X [[<- <-]|[Hne HX]]%lookup_insert_Some; [done|]. by eapply (tenant_ok_other (namespaces s) m' t); [| |apply Ht].
  - intros n ns Hl. assert (∀ k, is_Some (tenants s !! k) → is_Some (<[t := T']> (tenants s) !! k)) as Hk.
    { intros k Hk. rewrite lookup_insert_is_Some. destruct (decide (t = k)); [by left|by right]. }
    destruct (decide (owner (config ns) = t)) as [E|E].
    + destruct (Hns n ns Hl E) as (? & ? & ?). split_and!; [done| |done|done]. apply Hk. rewrite E. by eexists.
    + apply Hm in Hl; [|done]. destruct (Hn n ns Hl) as (? & ? & ? & ?). split_and!; auto.
  - rewrite Htot, Hsize. unfold wrap64. by rewrite Zplus_mod_idemp_l.
Qed.

(** ** The calls keep it *)

Lemma new_manager_ok c : manager_ok (new c).
Proof. by split. Qed.

Lemma manager_ok_log l s : manager_ok s → manager_ok (set_log l s).
Proof. by intros []. Qed.

Lemma create_tenant_ok now inst id n q s : quota_ok q → manager_ok s → manager_ok (create_tenant now inst id n q s).2.
Proof.
  intros Hq Hs. unfold create_tenant. destruct (tenants s !! id) eqn:E; [done|]. apply manager_ok_log. destruct Hs as [Ht Hn Htot]. split; cbn; [..|done].
  - intros t T [[<- <-]|[_ HT]]%lookup_insert_Some; [|by apply Ht]. destruct Hq as [Ha Hns]. split; cbn; [done|done|constructor| |lia|lia].
    intros k. split; [by intros ?%not_elem_of_nil|]. intros (ns & Hl & <-). destruct (Hn _ _ Hl) as (_ & [? H] & _). congruence.
  - intros k ns Hl. destruct (Hn k ns Hl) as (? & ? & ? & ?). split_and!; [done| |done|done].
    rewrite lookup_insert_is_Some. destruct (decide (id = owner (config ns))); [by left|by right].
Qed.

(** The status of a tenant is no part of the invariant. *)
Lemma set_status_ok st t T s : manager_ok s → tenants s !! t = Some T → manager_ok (set_tenants (<[t := Tenant.set_status st T]> (tenants s)) s).
Proof.
  intros [Ht Hn Htot] HT. split; cbn; [..|done].
  - intros t' T' [[<- <-]|[_ HT']]%lookup_insert_Some; [|by apply Ht]. by destruct (Ht _ _ HT).
  - intros k ns Hl. destruct (Hn k ns Hl) as (? & ? & ? & ?). split_and!; [done| |done|done].
    rewrite lookup_insert_is_Some. destruct (decide (t = owner (config ns))); [by left|by right].
Qed.

Lemma create_namespace_ok now t n ls s : manager_ok s → manager_ok (create_namespace now t n ls s).2.
Proof.
  intros Hs. unfold create_namespace, get_tenant. destruct (tenants s !! t) as [T|] eqn:HT; [|done]. destruct (negb _); [done|].
  destruct (Z.leb_spec (max_namespaces (quota T)) (u_namespaces (usage T))); [done|]. destruct (namespaces s !! n) eqn:Hn; [done|].
  pose proof (all_tenants s Hs t T HT) as [H1 [Ha Hq] H3 H4 [H5 H5'] H6].
  assert (n ∉ owned T) as Hno by (intros (ns & Hl & _)%H4; congruence).
  apply (manager_ok_update s t T); [done|done|..].
  - intros k ns Hne. rewrite lookup_insert_Some. split; [|naive_solver congruence]. intros [[<- <-]|[_ ?]]; [by destruct Hne|done].
  - split; cbn -[sum_by wrap64]; [done|done| | | |].
    + apply NoDup_app. split_and!; [done| |apply NoDup_singleton]. intros x Hx ->%list_elem_of_singleton. done.
    + intros k. rewrite elem_of_app, list_elem_of_singleton, H4. unfold owns. destruct (decide (k = n)) as [->|Hne].
      * rewrite lookup_insert_eq. split; [eauto|by right].
      * rewrite lookup_insert_ne by done. naive_solver.
    + rewrite length_app. cbn [length]. rewrite wrap64_small by lia. lia.
    + rewrite sum_by_app. rewrite (sum_by_ext _ (in_namespace (namespaces s))).
      * unfold sum_by at 2. cbn [foldr]. unfold in_namespace at 2. rewrite lookup_insert_eq. cbn. lia.
      * intros k Hk. unfold in_namespace. rewrite lookup_insert_ne by (intros ->; done). done.
  - intros k ns [[<- <-]|[_ Hl]]%lookup_insert_Some Hown; [split_and!; [done|constructor|done]|]. destruct (all_namespaces s Hs k ns Hl) as (? & _ & ? & ?). done.
  - rewrite map_size_insert_None by done. lia.
Qed.

Lemma delete_namespace_ok now t n s : manager_ok s → manager_ok (delete_namespace now t n s).2.
Proof.
  intros Hs. unfold delete_namespace, get_tenant. destruct (tenants s !! t) as [T|] eqn:HT; [|done]. destruct (namespaces s !! n) as [ns|] eqn:Hn; [|done].
  case_bool_decide as Hown; [done|].
  pose proof (all_tenants s Hs t T HT) as [H1 [Ha Hq] H3 H4 [H5 H5'] H6].
  assert (n ∈ owned T) as Hin by (apply H4; by exists ns). destruct (sum_by_filter (in_namespace (delete n (namespaces s))) _ n H3 Hin) as [Hf Hl].
  assert (0 < length (owned T))%nat by (destruct (owned T); [by apply not_elem_of_nil in Hin|cbn; lia]).
  apply (manager_ok_update s t T); [done|done|..].
  - intros k ns' Hne. rewrite lookup_delete_Some. split; [naive_solver|]. intros Hk. split; [|done]. intros ->. congruence.
  - split; cbn -[sum_by wrap64]; [done|done|by apply NoDup_filter| | |].
    + intros k. rewrite list_elem_of_filter, H4. unfold owns. setoid_rewrite lookup_delete_Some. naive_solver.
    + rewrite Hl, wrap64_small by lia. lia.
    + rewrite Hf, (sum_by_change (in_namespace (namespaces s)) (in_namespace (delete n (namespaces s))) _ n) by
        (done || (intros k Hk; unfold in_namespace; by rewrite lookup_delete_ne)).
      pose proof (in_namespace_nonneg (namespaces s) n). pose proof (sum_nonneg (namespaces s) (owned T)). lia.
  - intros k ns' [_ Hl']%lookup_delete_Some _. destruct (all_namespaces s Hs k ns' Hl') as (? & _ & ? & ?). done.
  - rewrite map_size_delete_Some by eauto. pose proof (map_size_ne_0_lookup_2 (namespaces s) n ltac:(by eexists)). lia.
Qed.

(** A change of the agents of one namespace, with the tenant's count. *)
Lemma agents_ok s t T n ns ns' T' l da :
  manager_ok s → tenants s !! t = Some T → namespaces s !! n = Some ns → owner (config ns) = t →
  config ns' = config ns → NoDup (agents ns') → u_agents (ns_usage ns') = Z.of_nat (length (agents ns')) →
  tid T' = tid T → quota T' = quota T → owned T' = owned T → u_namespaces (usage T') = u_namespaces (usage T) →
  Z.of_nat (length (agents ns')) - Z.of_nat (length (agents ns)) <= u_agents (usage T') - u_agents (usage T) →
  u_agents (usage T') <= max_agents (quota T) →
  manager_ok (set_log l (add_totals da 0 (set_tenants (<[t := T']> (tenants s)) (set_namespaces (<[n := ns']> (namespaces s)) s)))).
Proof.
  intros Hs HT Hn Hown Hc Hnd Hcount E1 E2 E3 E4 Hd Hmax. pose proof (all_tenants s Hs t T HT) as [H1 H2 H3 H4 H5 H6].
  assert (n ∈ owned T) as Hin by (apply H4; by exists ns).
  apply (manager_ok_update s t T); [done|done|..].
  - intros k x Hne. rewrite lookup_insert_Some. split; [intros [[<- <-]|[_ ?]]; congruence|]. intros Hk. right. split; [|done]. intros <-. congruence.
  - split; rewrite ?E1, ?E2, ?E3, ?E4; [done|done|done| |done|].
    + intros k. rewrite H4. unfold owns. destruct (decide (k = n)) as [->|Hne]; [|by rewrite lookup_insert_ne].
      rewrite lookup_insert_eq. split; intros (x & Hx & Ho); simplify_eq; eexists; (split; [done|]); congruence.
    + rewrite (sum_by_change (in_namespace (namespaces s)) _ _ n) by (done || (intros k Hk; unfold in_namespace; by rewrite lookup_insert_ne)).
      unfold in_namespace at 2 3. rewrite Hn, lookup_insert_eq. lia.
  - intros k x [[<- <-]|[_ Hl]]%lookup_insert_Some Ho; [|destruct (all_namespaces s Hs k x Hl) as (? & _ & ? & ?); done].
    destruct (all_namespaces s Hs n ns Hn) as (? & _). rewrite Hc. done.
  - rewrite map_size_insert_Some by eauto. lia.
Qed.

(** The namespaces of a tenant have no more agents than it may have. *)
Lemma agents_bound s t T n ns :
  manager_ok s → tenants s !! t = Some T → namespaces s !! n = Some ns → owner (config ns) = t →
  Z.of_nat (length (agents ns)) <= u_agents (usage T) <= U64_MAX.
Proof.
  intros Hs HT Hn Hown. pose proof (all_tenants s Hs t T HT) as [_ [Ha _] _ H4 _ H6].
  assert (n ∈ owned T) as Hin by (apply H4; by exists ns). apply list_elem_of_lookup in Hin as [i Hi].
  pose proof (sum_by_elem (in_namespace (namespaces s)) _ i n (λ y _, in_namespace_nonneg _ y) Hi) as H. unfold in_namespace at 1 in H. rewrite Hn in H. lia.
Qed.

Lemma add_agent_counted a ns :
  NoDup (agents ns) → u_agents (ns_usage ns) = Z.of_nat (length (agents ns)) → Z.of_nat (length (agents ns)) < U64_MAX →
  let ns' := Namespace.add_agent a ns in
  config ns' = config ns ∧ NoDup (agents ns') ∧ u_agents (ns_usage ns') = Z.of_nat (length (agents ns')) ∧
  Z.of_nat (length (agents ns')) <= Z.of_nat (length (agents ns)) + 1.
Proof.
  intros Hnd Hcount Hlt. unfold Namespace.add_agent. case_bool_decide as Hin; cbn -[wrap64]; [split_and!; done || lia|].
  rewrite length_app. cbn [length]. rewrite wrap64_small by lia. split_and!; [done| |lia|lia].
  apply NoDup_app. split_and!; [done| |apply NoDup_singleton]. by intros x Hx ->%list_elem_of_singleton.
Qed.

Lemma register_agent_ok now inst t n a s : manager_ok s → manager_ok (register_agent now inst t n a s).2.
Proof.
  intros Hs. unfold register_agent, get_tenant, get_namespace. destruct (tenants s !! t) as [T|] eqn:HT; [|done]. destruct (negb _); [done|].
  destruct (Z.leb_spec (max_agents (quota T)) (u_agents (usage T))); [done|]. destruct (namespaces s !! n) as [ns|] eqn:Hn; [|done].
  case_bool_decide as Hown; [done|]. pose proof (agents_bound s t T n ns Hs HT Hn Hown) as Hb.
  pose proof (all_tenants s Hs t T HT) as [_ [Ha _] _ _ _ _]. destruct (all_namespaces s Hs n ns Hn) as (_ & _ & Hnd & Hcount).
  destruct (add_agent_counted a ns) as (Hc & Hnd' & Hcount' & Hlen); [done|done|lia|].
  apply (agents_ok s t T n ns); cbn -[wrap64]; rewrite ?wrap64_small by lia; done || lia.
Qed.

Lemma unregister_agent_ok now inst t n a s : manager_ok s → manager_ok (unregister_agent now inst t n a s).2.
Proof.
  intros Hs. unfold unregister_agent, get_tenant, get_namespace. destruct (tenants s !! t) as [T|] eqn:HT; [|done].
  destruct (namespaces s !! n) as [ns|] eqn:Hn; [|done]. case_bool_decide as Hown; [done|].
  pose proof (agents_bound s t T n ns Hs HT Hn Hown) as Hb. pose proof (all_tenants s Hs t T HT) as [_ [Ha _] _ _ _ H6].
  destruct (all_namespaces s Hs n ns Hn) as (_ & _ & Hnd & Hcount). unfold Namespace.remove_agent.
  destruct (list_find _ _) as [[pos b]|] eqn:Hf; [|cbn; rewrite insert_id by done; by destruct s].
  apply list_find_Some in Hf as (Hpos & -> & _). pose proof (lookup_lt_Some _ _ _ Hpos). pose proof (length_delete (agents ns) pos ltac:(by eexists)) as Hlen.
  apply (agents_ok s t T n ns); [done..| | | | | | | | |]; cbn -[wrap64]; rewrite ?Hlen, ?Hcount, ?wrap64_small by lia; done || lia || idtac.
  eapply sublist_NoDup; [exact Hnd|apply sublist_delete].
Qed.

(** ** Sequences of calls *)

Inductive call : Type :=
| KCreate (now inst : Z) (id : TenantId) (n : string) (q : ResourceQuota)
| KActivate (now : Z) (id : TenantId)
| KSuspend (id : TenantId)
| KNamespace (now : Z) (t : TenantId) (n : NamespaceId) (ls : gmap string string)
| KDelete (now : Z) (t : TenantId) (n : NamespaceId)
| KRegister (now inst : Z) (t : TenantId) (n : NamespaceId) (a : AgentId)
| KUnregister (now inst : Z) (t : TenantId) (n : NamespaceId) (a : AgentId)
| KRoute (now : Z) (st : TenantId) (sn : NamespaceId) (dt : TenantId) (tn : NamespaceId)
| KPolicy (p : RoutingPolicy)
| KGrant (p : CrossTenantPermission)
| KCleanup (now : Z).

Definition apply_call (k : call) (s : TenantManager) : TenantManager :=
  match k with
  | KCreate now inst id n q => (create_tenant now inst id n q s).2
  | KActivate now id => (activate_tenant now id s).2
  | KSuspend id => suspend_tenant id s
  | KNamespace now t n ls => (create_namespace now t n ls s).2
  | KDelete now t n => (delete_namespace now t n s).2
  | KRegister now inst t n a => (register_agent now inst t n a s).2
  | KUnregister now inst t n a => (unregister_agent now inst t n a s).2
  | KRoute now st sn dt tn => (can_route now st sn dt tn s).2
  | KPolicy p => set_routing_policy p s
  | KGrant p => grant_cross_tenant_permission p s
  | KCleanup now => set_log (AuditLog.cleanup now (audit_log s)) s
  end.

Definition run (l : list call) (s : TenantManager) : TenantManager := foldl (λ s k, apply_call k s) s l.

(** Quotas are values of [usize]. *)
Definition call_ok (k : call) : Prop := match k with KCreate _ _ _ _ q => quota_ok q | _ => True end.

(** [can_route] changes the log at most. *)
Lemma can_route_log now st sn dt tn s : ∃ l, (can_route now st sn dt tn s).2 = set_log l s.
Proof.
  unfold can_route, record. destruct (routing_policy s).
  - destruct (_ || _); [by eexists|]. exists (audit_log s). by destruct s.
  - case_bool_decide; [exists (audit_log s); by destruct s|]. destruct (permitted _ _ _ _ _); [exists (audit_log s); by destruct s|by eexists].
  - case_bool_decide; exists (audit_log s); by destruct s.
Qed.

Lemma tenant_call_ok k s : call_ok k → manager_ok s → manager_ok (apply_call k s).
Proof.
  intros Hk Hs. destruct k; cbn [apply_call].
  - by apply create_tenant_ok.
  - unfold activate_tenant, get_tenant. destruct (tenants s !! id) eqn:E; [|done]. apply manager_ok_log. by apply set_status_ok.
  - unfold suspend_tenant, get_tenant. destruct (tenants s !! id) eqn:E; [|done]. by apply set_status_ok.
  - by apply create_namespace_ok.
  - by apply delete_namespace_ok.
  - by apply register_agent_ok.
  - by apply unregister_agent_ok.
  - destruct (can_route_log now st sn dt tn s) as [l ->]. by apply manager_ok_log.
  - by destruct Hs.
  - by destruct Hs.
  - by apply manager_ok_log.
Qed.

(** C29. Tenants keep to their quotas over any sequence of calls of the manager: a tenant's
    list of namespaces is exactly the namespaces it owns, counted exactly and never more
    than its quota; the agents in its namespaces are covered by its count of agents, which
    never exceeds its quota; every namespace has an owner, and lists each agent once. *)
Theorem tenants_within_quota c l : Forall call_ok l → manager_ok (run l (new c)).
Proof.
  unfold run. generalize (new_manager_ok c). generalize (new c). intros s Hs Hl. revert s Hs.
  induction Hl as [|k l Hk _ IH]; intros s Hs; [done|]. by apply IH, tenant_call_ok.
Qed.

Definition sample_calls : list call :=
  [KCreate 0 0 "a" "A" (mkQuota 2 1 0 0 0 0); KActivate 1 "a"; KNamespace 2 "a" "n" ∅; KNamespace 3 "a" "m" ∅;
   KRegister 4 0 "a" "n" [1]; KRegister 5 0 "a" "n" [2]; KRegister 6 0 "a" "n" [3]; KUnregister 7 0 "a" "n" [1]].

Lemma tenants_within_quota_witness : manager_ok (run sample_calls (new AuditConfig.default)).
Proof.
  apply tenants_within_quota. unfold sample_calls. apply list.Forall_cons. split; [split; cbn; lia|].
  repeat (apply list.Forall_cons; split; [done|]). apply Forall_nil_2.
Defined.

(** ** Routing *)










(** ** The audit log *)

(** The log keeps the latest entries, as many as it may and at least one, and its two
    counters tell how many there were. *)
Theorem log_keeps_latest c es :
  let l := foldl (λ l e, AuditLog.log e l) (AuditLog.new c) es in
  let k := Z.to_nat (1 `max` max_entries c) in
  entries l = drop (length es - k) es ∧ total_entries l = wrap64 (Z.of_nat (length es)) ∧
  dropped_entries l = wrap64 (Z.of_nat (length es) - Z.of_nat (length (entries l))) ∧ log_config l = c.
Proof.
  intros l k. unfold l. induction es as [|e es IH] using rev_ind; [done|]. rewrite foldl_snoc. destruct IH as (He & Ht & Hd & Hc).
  set (l0 := foldl _ _ es) in *. assert (Hlen : length (entries l0) = (length es `min` k)%nat) by (rewrite He, length_drop; lia).
  unfold AuditLog.log. rewrite Hc, Ht, Hd, length_app. cbn [length].
  assert (Hw : ∀ a, wrap64 (wrap64 a + 1) = wrap64 (a + 1)) by (intros a; unfold wrap64; by rewrite Zplus_mod_idemp_l).
  destruct (Z.leb_spec (max_entries c) (Z.of_nat (length (entries l0)))).
  - destruct (entries l0) as [|x r] eqn:Er; cbn [length] in *.
    + assert (length es = 0)%nat as Hn by lia. apply length_zero_iff_nil in Hn as ->. cbn. split_and!; [|done|done|done].
      by replace (1 - k)%nat with 0%nat by lia.
    + cbn -[wrap64]. rewrite !Hw, length_app, drop_app_le by lia. cbn [length]. split_and!; [|f_equal; lia|f_equal; lia|done].
      assert (length es - k ≠ length es)%nat as Hne by lia. replace (length es + 1 - k)%nat with (S (length es - k)) by lia.
      assert (es !! (length es - k)%nat = Some x) as Hx by (rewrite <-(Nat.add_0_r (length es - k)), <-lookup_drop, <-He; done).
      rewrite (drop_S _ _ _ Hx) in He. by injection He as ->.
  - cbn -[wrap64]. rewrite !Hw, length_app, Hlen. cbn [length]. split_and!; [|f_equal; lia|f_equal; lia|done].
    replace (length es + 1 - k)%nat with 0%nat by lia. rewrite He. by replace (length es - k)%nat with 0%nat by lia.
Qed.

(** ** Tasks that register agents at the same time *)

Record task : Type := mkTask { for_tenant : TenantId; for_namespace : NamespaceId; for_agent : AgentId; at_ : pc }.

(** A task makes its next access, or begins another call. *)
Inductive tstep : TenantManager * list task → TenantManager * list task → Prop :=
| step_access s ts i t n a p now inst s' p' :
    ts !! i = Some (mkTask t n a p) → register_step now inst t n a s p = (s', p') → tstep (s, ts) (s', <[i := mkTask t n a p']> ts)
| step_begin s ts i t n a r t' n' a' :
    ts !! i = Some (mkTask t n a (Back r)) → tstep (s, ts) (s, <[i := mkTask t' n' a' AtTenant]> ts).

Lemma alter_insert_lookup {V} (f : V → V) (m : gmap string V) k v : m !! k = Some v → alter f k m = <[k := f v]> m.
Proof.
  intros Hk. apply map_eq. intros j. destruct (decide (j = k)) as [->|Hne]; [by rewrite lookup_alter_eq, Hk, lookup_insert_eq|].
  by rewrite lookup_alter_ne, lookup_insert_ne.
Qed.

(** A call is its accesses. *)
Lemma register_is_steps now inst t n a s :
  let '(r, s') := register_agent now inst t n a s in
  Nat.iter 5 (λ '(s, p), register_step now inst t n a s p) (s, AtTenant) = (s', Back r).
Proof.
  set (f := λ '(s, p), register_step now inst t n a s p).
  assert (∀ k s r, Nat.iter k f (s, Back r) = (s, Back r)) as Hback by (intros k s0 r; induction k as [|k IH]; [done|]; change (f (Nat.iter k f (s0, Back r)) = (s0, Back r)); by rewrite IH).
  assert (∀ k x, Nat.iter (S k) f x = Nat.iter k f (f x)) as Hiter by (intros k x; apply Nat.iter_succ_r).
  unfold register_agent. rewrite Hiter. unfold f at 2, register_step. destruct (get_tenant t s) as [T|] eqn:HT; [|apply Hback].
  destruct (Tenant.is_active T); cbn [negb]; [|apply Hback]. rewrite Hiter. unfold f at 2, register_step. rewrite HT.
  destruct (_ <=? _); [apply Hback|]. rewrite Hiter. unfold f at 2, register_step. destruct (get_namespace n s) as [ns|] eqn:Hn; [|apply Hback].
  case_bool_decide; [apply Hback|]. rewrite Hiter. unfold f at 2, register_step. rewrite (alter_insert_lookup _ _ _ _ Hn).
  rewrite Hiter. unfold f at 2, register_step. cbn [tenants set_namespaces]. rewrite (alter_insert_lookup _ _ _ _ HT). done.
Qed.

(** The task has seen room for its agent and has not counted it yet. *)
Definition pending (t : TenantId) (k : task) : bool :=
  bool_decide (for_tenant k = t) && match at_ k with AtNamespace | AtAdd | AtCount => true | _ => false end.

Definition room (t : TenantId) (q : ResourceQuota) (x : TenantManager * list task) : Prop :=
  ∃ T, tenants x.1 !! t = Some T ∧ quota T = q ∧ 0 <= u_agents (usage T) ∧
    u_agents (usage T) + count_if (pending t) x.2 <= max_agents q + Z.of_nat (length x.2) - 1.

Lemma register_step_room now inst t n a s p s' p' t0 T :
  register_step now inst t n a s p = (s', p') → tenants s !! t0 = Some T → 0 <= u_agents (usage T) < U64_MAX →
  ∃ T', tenants s' !! t0 = Some T' ∧ quota T' = quota T ∧
    u_agents (usage T') = u_agents (usage T) + (if bool_decide (t = t0) && match p with AtCount => true | _ => false end then 1 else 0).
Proof.
  intros Hstep HT Hu. unfold register_step, get_tenant, get_namespace in Hstep.
  destruct p; rewrite ?andb_false_r;
    try (exists T; assert (tenants s' = tenants s) as -> by (repeat case_match; by simplify_eq); split_and!; [done|done|apply eq_sym, Z.add_0_r]).
  - simplify_eq. rewrite andb_true_r. cbn [tenants record set_log add_totals set_tenants]. case_bool_decide as Heq.
    + subst. rewrite lookup_alter_eq, HT. eexists. split; [done|]. cbn -[wrap64]. rewrite wrap64_small by lia. done.
    + rewrite lookup_alter_ne by done. exists T. split_and!; [done|done|lia].
Qed.

Lemma tstep_room t q x y : 0 <= max_agents q → max_agents q + Z.of_nat (length x.2) <= U64_MAX → room t q x → tstep x y → room t q y ∧ length y.2 = length x.2.
Proof.
  intros Hq Hmax (T & HT & HqT & H0 & Hroom) Hstep. destruct Hstep as [s ts i t' n a p now inst s' p' Hi Hs|s ts i t' n a r t2 n2 a2 Hi]; cbn [fst snd] in *.
  - pose proof (count_if_range (pending t) ts) as Hc.
    destruct (register_step_room _ _ _ _ _ _ _ _ _ t T Hs HT) as (T' & HT' & HqT' & Hu); [lia|]. split; [|apply length_insert].
    exists T'. cbn [fst snd]. split_and!; [done|congruence|destruct (_ && _); lia|]. rewrite length_insert, (count_if_insert _ _ _ _ _ Hi).
    unfold pending at 2 3. cbn [for_tenant at_]. rewrite Hu. case_bool_decide as Heq; cbn [andb]; [subst t'|lia].
    unfold register_step, get_tenant in Hs. rewrite HT in Hs.
    destruct p; cbn [andb]; repeat case_match; simplify_eq; try lia.
    pose proof (count_if_lt (pending t) ts i _ Hi) as Hlt. unfold pending in Hlt at 1. cbn in Hlt. rewrite andb_false_r in Hlt. specialize (Hlt eq_refl). lia.
  - split; [|apply length_insert]. exists T. cbn [fst snd]. split_and!; [done|done|done|]. rewrite length_insert, (count_if_insert _ _ _ _ _ Hi).
    unfold pending at 2 3. cbn [for_tenant at_]. rewrite !andb_false_r. lia.
Qed.

(** C30. How far a quota can be exceeded: when [n] tasks register agents at the same time,
    in any interleaving of their accesses and for any number of calls each, a tenant that
    was within its quota counts at most [n - 1] agents more than its quota; with one task
    the quota is kept. *)
Theorem quota_overshoot_bounded t T s ts s' ts' :
  tenants s !! t = Some T → 0 <= u_agents (usage T) <= max_agents (quota T) → (0 < length ts)%nat →
  max_agents (quota T) + Z.of_nat (length ts) <= U64_MAX → Forall (λ k, ∃ r, at_ k = Back r) ts → rtc tstep (s, ts) (s', ts') →
  ∃ T', tenants s' !! t = Some T' ∧ quota T' = quota T ∧ u_agents (usage T') <= max_agents (quota T) + Z.of_nat (length ts) - 1.
Proof.
  intros HT Hu Hn Hmax Hidle Hrun.
  assert (room t (quota T) (s', ts') ∧ length ts' = length ts) as [(T' & HT' & Hq & _ & Hroom) Hlen].
  { apply (rtc_preserves tstep (λ x, room t (quota T) x ∧ length x.2 = length ts) (s, ts) (s', ts')); [|done|].
    - intros x y [Hx Hl] Hstep. destruct (tstep_room t (quota T) x y) as [? ?]; [lia|lia|done|done|]. split; [done|congruence].
    - split; [|done]. exists T. cbn [fst snd]. split_and!; [done|done|lia|]. rewrite count_if_none; [lia|].
      intros i k Hi. rewrite Forall_lookup in Hidle. destruct (Hidle i k Hi) as [r Hr]. unfold pending. rewrite Hr. apply andb_false_r. }
  exists T'. split_and!; [done|done|]. cbn [snd] in Hroom. pose proof (count_if_range (pending t) ts'). lia.
Qed.

(** ** Concrete runs *)

Inductive turn : Type := Begin (i : nat) (t : TenantId) (n : NamespaceId) (a : AgentId) | Access (i : nat).

(** The tasks take their turns. *)
Fixpoint exec (l : list turn) (x : TenantManager * list task) : TenantManager * list task :=
  match l with
  | [] => x
  | Begin i t n a :: l =>
      exec l match x.2 !! i with Some (mkTask _ _ _ (Back _)) => (x.1, <[i := mkTask t n a AtTenant]> x.2) | _ => x end
  | Access i :: l =>
      exec l match x.2 !! i with
             | Some (mkTask t n a p) => let '(s, p) := register_step 0 0 t n a x.1 p in (s, <[i := mkTask t n a p]> x.2)
             | None => x
             end
  end.

Lemma exec_steps l : ∀ x, rtc tstep x (exec l x).
Proof.
  induction l as [|[i t n a|i] l IH]; intros [s ts]; [done|..]; cbn [exec fst snd]; destruct (ts !! i) as [[t' n' a' p]|] eqn:Hi; try apply IH.
  - destruct p as [| | | | |r]; try apply IH. eapply rtc_l; [|apply IH]. by eapply step_begin.
  - destruct (register_step 0 0 t' n' a' s p) as [s' p'] eqn:Hs. eapply rtc_l; [|apply IH]. by eapply step_access.
Qed.

Definition small_calls : list call := [KCreate 0 0 "a" "A" (mkQuota 1 1 0 0 0 0); KActivate 1 "a"; KNamespace 2 "a" "n" ∅].
Definition small : TenantManager := run small_calls (new AuditConfig.default).
Definition agents_counted (t : TenantId) (s : TenantManager) : option Z := (λ T, u_agents (usage T)) <$> tenants s !! t.
Definition agents_there (n : NamespaceId) (s : TenantManager) : Z := in_namespace (namespaces s) n.
Definition two_tasks : list task := [mkTask "" "" [] (Back (Ok ())); mkTask "" "" [] (Back (Ok ()))].
Definition race : list turn :=
  [Begin 0 "a" "n" [1]; Begin 1 "a" "n" [2]; Access 0; Access 0; Access 1; Access 1; Access 0; Access 0; Access 0; Access 1; Access 1; Access 1].

(** Two tasks that read the count before either has changed it register two agents where
    one is allowed. *)
Lemma quota_race :
  let s := (exec race (small, two_tasks)).1 in
  agents_counted "a" s = Some 2 ∧ agents_there "n" s = 2 ∧ (max_agents ∘ quota) <$> tenants s !! "a" = Some 1.
Proof. vm_compute. done. Qed.

Lemma quota_overshoot_bounded_witness :
  let x := exec race (small, two_tasks) in
  ∃ T', tenants x.1 !! "a" = Some T' ∧ quota T' = mkQuota 1 1 0 0 0 0 ∧ u_agents (usage T') <= 1 + 2 - 1.
Proof.
  intros x. destruct (tenants small !! "a") as [T|] eqn:HT; [|by vm_compute in HT].
  assert (quota T = mkQuota 1 1 0 0 0 0 ∧ u_agents (usage T) = 0) as [Hq Hu] by (vm_compute in HT; by injection HT as <-).
  destruct (quota_overshoot_bounded "a" T small two_tasks x.1 x.2) as (T' & H & H0 & H1).
  - exact HT.
  - rewrite Hq, Hu. cbn. lia.
  - cbn. lia.
  - rewrite Hq. cbn. lia.
  - apply list.Forall_cons. split; [by eexists|]. apply list.Forall_cons. split; [by eexists|]. apply Forall_nil_2.
  - rewrite <-surjective_pairing. apply exec_steps.
  - exists T'. rewrite Hq in H0, H1. split_and!; [exact H|exact H0|exact H1].
Defined.

(** An agent that registers again is counted again, though the namespace has it once. *)
Lemma agent_counted_twice :
  let s := run [KCreate 0 0 "b" "B" ResourceQuota.small; KActivate 1 "b"; KNamespace 2 "b" "m" ∅; KRegister 3 0 "b" "m" [1]; KRegister 4 0 "b" "m" [1]]
    (new AuditConfig.default) in
  agents_counted "b" s = Some 2 ∧ agents_there "m" s = 1.
Proof. vm_compute. done. Qed.

(** The agents of a namespace that is deleted stay counted: the tenant cannot register
    another agent ever again. *)
Lemma deleted_agents_counted :
  let s := run (small_calls ++ [KRegister 3 0 "a" "n" [1]; KDelete 4 "a" "n"; KNamespace 5 "a" "m" ∅]) (new AuditConfig.default) in
  agents_counted "a" s = Some 1 ∧ agents_there "n" s + agents_there "m" s = 0 ∧
  (register_agent 6 0 "a" "m" [2] s).1 = Err (QuotaExceeded "a" "agents").
Proof. vm_compute. done. Qed.

(** Routing asks neither whether the tenants are active nor whether there are such
    tenants and namespaces. *)
Lemma suspended_tenant_routes :
  let s := run [KSuspend "a"] small in
  (can_route 3 "a" "n" "a" "n" s).1 = true ∧ (can_route 3 "x" "y" "x" "y" s).1 = true ∧
  (register_agent 3 0 "a" "n" [1] s).1 = Err (AccessDenied "a" "n").
Proof. vm_compute. done. Qed.

(** The strict policy, which is said to forbid communication between tenants, also forbids
    it between two namespaces of one tenant. *)
Lemma strict_forbids_own_namespace c now t n m : n ≠ m → (can_route now t n t m (new c)).1 = false.
Proof. intros Hne. cbn. rewrite (bool_decide_eq_true_2 (n ≠ m)) by done. by rewrite orb_true_r. Qed.

(** A refusal under the namespace policy leaves no entry in the log. *)
Lemma refusal_not_logged now st sn dt tn s : routing_policy s = NamespaceOnly → (can_route now st sn dt tn s).2 = s.
Proof. intros Hp. unfold can_route. rewrite Hp. by case_bool_decide. Qed.

(** The log writes every action, whatever actions it is configured for. *)
Lemma log_ignores_actions n r l v es :
  entries (foldl (λ l e, AuditLog.log e l) (AuditLog.new (mkAuditConfig n r l v)) es) =
  entries (foldl (λ l e, AuditLog.log e l) (AuditLog.new (mkAuditConfig n r [] v)) es).
Proof. destruct (log_keeps_latest (mkAuditConfig n r l v) es) as [-> _]. destruct (log_keeps_latest (mkAuditConfig n r [] v) es) as [-> _]. done. Qed.
